(* ===== verification/_CoqProject ===== *)
-Q . S2P
Prelude.v
Enums.v
Text.v
Json.v
TextPolicy.v
Checks.v
Catalog.v
Evidence.v
Floats.v
JsonCodec.v
Url.v
Documents.v
Fingerprints.v
Registry.v
Capabilities.v
Models.v
Routing.v
Repository.v
Service.v
Steps.v
Invariants.v
Refinement.v
System.v
Progress.v
Dispatch.v
Outcomes.v
Fixtures.v
Properties.v
Witnesses.v
Tasks.v
TaskProofs.v
Profiles.v
ProfileProofs.v
ProfileData.v
Parsers.v
WorkerContracts.v
Credentials.v
CredentialProofs.v
RateLimit.v
GitHub.v
GitHubService.v
GitHubProofs.v
GitHubPublication.v
GitHubRequests.v
Transport.v
TransportProofs.v
Operator.v
OperatorProofs.v
Readiness.v
ReadinessProofs.v
EdgeWitnesses.v
Iso8601.v
WorkerModels.v
WorkerClient.v
WorkerConfig.v
WorkerPolicy.v
Files.v
EvidenceStore.v
LocalWorker.v
Effects.v
EvidenceProofs.v
LocalWorkerProofs.v
WorkerLog.v
WorkerSafety.v
ProcessTable.v
ContainedHost.v
Runner.v
RunnerProofs.v
Worktree.v
WorktreeProofs.v
WorkerFixtures.v
OperatorReport.v
ReportProofs.v
OperatorLifecycle.v
LifecycleProofs.v
LifecycleFixtures.v
