(* ===== verification/Prelude.v ===== *)
(** * Switchboard: a verification of the control planes

    Dev Agent Switchboard is a server that hands work to agents and workers.  It has two
    planes over one relational database.  The execution plane ([server/execution])
    takes work orders (a trusted repository, a commit, a reviewed command manifest),
    has them approved, leases them to registered workers by capability, cost and
    quota, and records runs with their evidence, which later runs may reuse.  The task
    plane ([server/domain], [server/infrastructure], [server/application]) leases tasks
    with dependencies to agents and keeps a plan version and a maintenance switch.
    HTTP routers call one service method per request and commit or roll back.

    ** The program and its model

    The execution plane, from its leaves to its requests:

    - [Enums]: [enums.py], [transitions.py]; the lifecycle states and the tables of
      legal transitions.
    - [Text], [Json], [Floats], [JsonCodec], [Url]: what the source uses of Python's
      strings, floats, [json.dumps], [json.loads], SHA-256 and [urllib.parse], executable.
    - [Checks]: constructors that raise, as checks with an error value.
    - [TextPolicy]: [text_policy.py]; the patterns for local paths and credentials.
    - [Catalog]: [catalog.py]; trusted repositories and the manifests reviewed for each.
    - [Evidence], [Documents], [Fingerprints]: [evidence.py]; evidence documents, their
      validators, their canonical JSON and fingerprints, and the reuse, policy and
      contract hashes.
    - [Registry]: [registry.py]; trusted steps and manifests, with the legacy ones.
    - [Profiles], [ProfileProofs], [ProfileData]: [workload_profiles.py]; workload
      profiles, their compilation to manifests, and the declared profiles, catalog and
      registry as the import of the server evaluates them.
    - [Capabilities], [Routing]: [capabilities.py], [routing.py]; which workers may run an
      order and in which order they are tried.
    - [Models]: the execution tables of [server/models.py] with their constraints, the
      commands of [entities.py], the exceptions, and the monad of a service method
      (a database, a count of clock readings, an exception or a value).
    - [Repository]: [repository.py]; every guarded statement.
    - [Service]: [service.py]; one definition per method, helpers included.
    - [System]: requests ([Command]) served one after another, each in a transaction.
    - [Operator], [Readiness]: [operator_projection.py], the catalog readiness report of
      [service.py] and [repository.py], and the routes that answer with them: what the
      operator console and the catalog show of the tables.

    Around it:

    - [Credentials], [CredentialProofs]: [credentials.py], its router, the bearer token
      dependency and the worker routes; who may act as which worker.
    - [RateLimit]: [middleware/rate_limit.py]; the sliding window limiter.
    - [Parsers], [WorkerContracts]: the result parsers of the worker client and what it
      reads of a manifest.
    - [WorkerModels], [WorkerClient], [WorkerConfig], [WorkerPolicy], [LocalWorker]:
      [client/python/execution_worker] and its launcher [scripts/local_worker.py]; the
      documents it accepts, its requests, its configuration and registration, the checks
      and documents of a run, and the worker itself: the monitor, the whole of
      [poll_once] and the loop of the process.  What the outside answers (control plane,
      clocks, step runner, worktree, evidence store) is the parameter [Host], and between
      any two actions of the polling thread a monitor thread may tick and a shutdown be
      requested.  [Iso8601] is what it uses of [datetime]; [Effects] the rules by which
      the proofs follow effectful code.
    - [Files], [EvidenceStore]: [execution_worker/evidence.py] on a POSIX file system with
      links, which other processes may change between any two calls (the parameter
      [others]).
    - [ProcessTable], [ContainedHost], [Runner]: [execution_worker/runner.py],
      [contained_host.py] and [containment.py] on Linux; how one reviewed command is started,
      watched, ended with everything it left behind, and reported.  The operating system is
      a parameter that answers each call as it likes.
    - [Worktree]: [execution_worker/worktree.py]; the disposable checkout of a run, from its
      creation to its removal, with Git as a parameter.
    - [OperatorReport], [OperatorLifecycle]: [client/python/execution_operator], the tool that
      validates one commit on a server and a worker of its own: the report with its contract,
      JSON, text and inspection ([report_contract.py], [models.py]), the progress events
      ([progress.py]), and the lifecycle ([lifecycle.py]) with its approvals, the verification of
      each run, the launch of its processes step by step ([processes.py]) and the shutdown.  Processes, control plane, operator and clocks are the
      parameter [Outside], what the response models accept the parameter [Decoders].
    - [GitHub], [GitHubService]: [server/github_adapter]; the request
      table and its publication claims, the managed comment, and the service, every
      await of which is a point where GitHub may answer anything and other processes may
      change the tables.  [GitHubProofs], [GitHubPublication] and [GitHubRequests] hold
      the theorems about them.
    - [Transport], [TransportProofs]: [github_adapter/transport.py]; routes, retries, size
      limits, pagination and the decoding of answers.  The network is a parameter, a
      function from what is sent to what comes back.

    The task plane is [Tasks] (all of it: policies, repositories, services).

    ** What is shown

    - [Steps] is the abstract execution plane, a step relation with one rule per
      lifecycle event.  [Refinement] shows that every service method performs a sequence of
      steps; [Invariants] that the steps keep keys, constraints, the one-to-one
      correspondence of leases with active runs and orders, worker loads, attempt
      numbers and the conservation of quota; [System] and [Properties] (C1 to C6) conclude for
      every sequence of requests from the empty database, in which a request that raises
      changes nothing.
    - [Dispatch] (C7, C8) says exactly what a checkout decides, and that it does hand out an
      order when one can be.
    - [Progress] (C9, C11) shows that completion, the expiry sweep and cancellation go
      through, and what they write: they return, rather than only being right if they do.
      [Outcomes] (C10, C12) says what a successful answer of each method means.
    - [OperatorProofs] and [ReadinessProofs]: the pages of the history show every
      request once and in order ([history_pages_complete]), the readiness report is answered
      and counts the workers that may run each default manifest ([catalog_readiness_answers]);
      also the sums of the overview ([overview_consistent]) and the agreement of the two
      activity states ([activity_views_agree]).
    - [LocalWorkerProofs], [WorkerLog], [WorkerSafety] (C13 to C15) are about the whole life
      of a worker process, for every answer of the outside and every schedule: only commands
      of the local registry are run, each in the verified checkout of the order that the control
      plane handed out last, no run twice; after a command
      whose processes are unaccounted for there are only requests; a success that is
      reported was one.  What the worker reads is bounded and names nothing to execute
      ([validated_metadata_safe]), what it admits agrees with its own definition
      ([validate_manifest_ok]), what it sends is within its limit ([summary_within_limit],
      [http_error_bounded], [config_within_bounds]).
    - [EvidenceProofs] (C16, C17) is about the evidence on the disk of the worker while other
      processes change the disk between any two calls, with no assumption on their
      timestamps: of an accepted candidate and of a finalized artifact everything recorded
      is what was read from a file whose attributes were the same before and after; that
      the file held it at one moment is concluded where a change shows in the attributes
      ([changes_show]).  C18 says how the retention sweep ends, and that it removes
      exactly the expired runs of this worker.
    - [RunnerProofs] (C19, C20, C40) is about one step, whatever the operating system answers:
      no output of the command is read before its processes are proven gone, and a success is
      one, its limits and its checkout having been looked at after its end; a step raises
      the error that says that it was not started exactly when it was called too late, and has
      done nothing then; the watching loop ends ([watch_terminates]), summaries
      and the environment keep within their bounds ([summary_bounded],
      [step_environment_keys], [environment_summary_hides]).  [ContainedHost] (C21): the exit
      code of the containment host can be trusted, and it runs what it was sent
      ([payload_round_trip]).  [ProcessTable] (C22): the search for descendants ends and is
      exact, and [/proc] records are read right ([parse_stat_line]).
    - [WorktreeProofs] (C23): what is established before a checkout is handed out, and how a
      creation that fails is taken back, stage by stage; removal touches only what carries the marker of this run ([cleanup_ordered],
      [owned_marked]).
    - [LifecycleProofs] (C24 to C26) is about the whole operator lifecycle, whatever the outside
      answers: a success that is reported was one, nothing is approved without the consent of
      the operator, and every host that was started is stopped or terminated, or is in one of the
      three cases in which the launch loses it.  [ReportProofs] (C27): a report that is
      written is read back as it was.
    - C28 to C30 are about the GitHub adapter: what a publication may write, where,
      and what it has established before; that it gives its claim up, unless it is cancelled;
      that claims exclude each other whatever the clocks say (and fence a publisher that
      lost its own, [lost_claim_is_fenced]), what a
      request is answered with ([validation_answer]; a key stands for one request,
      [request_key_identifies]); the table has one row per key ([request_table_unique]).  Every comment carries its marker
      ([rendered_comment_marked]).
    - C31 and C32: credentials implement a specification in which each worker holds one
      token (with the history of [credential_history_inv]); a worker request acts only for the worker and the runs of its token.
    - [TaskProofs] (C33, C34): the task-plane invariant, what a
      checkout picks, the protection a live lease gives ([process_protects]); also completion,
      abandonment, updates, analytics and the optimistic system state.
    - C35 and C36: profiles compile to well-formed manifests, which are bounded
      ([compiled_manifest_bounded]); the worker finds the contracts the profile declared
      ([worker_reads_contract]); parsing terminates, and enforces the contract
      ([contract_enforced]).
    - C37: what the transport resolves fits the identity the service stores, if the
      settings do; it
      sends a bounded number of requests, a write only once ([transport_sends]).  An
      issue is accepted for exactly one repository ([issue_association_exact]).
    - C38: canonical JSON is read back ([evidence_json_round_trip]), so a fingerprint
      identifies its document up to a collision of SHA-256.
    - C39: the limiter decides as one that remembers everything, within its bound
      ([rate_limit_bound]).  [registry_import] computes the registry as imported, with the
      pinned digests.
    - Misbehaviours: [revision_room_exhausted] is a history in which a profile at the end of
      its revision counter blocks every checkout; [expired_evidence_offered] and
      [quality_overflow_escapes] show two more: evidence offered after its retention has passed, and a report whose huge
      integer makes the parser raise.  Behaviours that the documents and comments do not promise are [abandon_reopens_completed],
      [update_accepts_cycle], [reused_rendered_fresh], [malformed_answer_escapes],
      [malformed_manifest_escapes], [heartbeat_failure_ends_monitor],
      [optional_step_not_quarantined], [wide_run_not_released], [redaction_leaks],
      [late_descendant_unreported], [failed_snapshot_leaves_directory],
      [interrupted_stop_leaves_server], [interrupted_record_leaves_worker] and
      [unexpected_error_reports_success].

    [Fixtures], [WorkerFixtures] and [LifecycleFixtures] hold concrete worlds, reached by requests
    from the empty database where there is one; [Witnesses] and [EdgeWitnesses] (and the fixtures
    themselves) apply each conditional property in one.

    ** Choices

    - Every definition is total and computes.  Loops run over lists read from the
      tables; the removal of safe URIs in [TextPolicy] has the length of the text as
      fuel, which is enough ([strip_fuel_enough]), the JSON reader the length of its
      input, which is enough for every text the writer produces ([loads_dumps]), and
      SHA-256 the number of words.  The loops of the runner, its host and the operator lifecycle wait for the
      outside and take a number of turns as fuel: the search of [ProcessTable] has
      enough (C22), [watch] when the clock reaches the deadline ([watch_terminates]); the
      other theorems about them hold for every number of turns.
    - Integers are [Z].  Bounds the code or a column constraint puts on them are checks
      in the model: the revision and quota counters stop at 2^31 - 1 by the guards of
      [repository.py] and SHA-256 wraps at 32 bits.  A float is its [repr] with the
      rational value it denotes, rounded to 53 bits.
    - A time is a count of microseconds.  A datetime a client sends is [PyDatetime], naive or
      aware with its offset, and is stored by its wall-clock fields, as the naive columns
      do.  How the serialization library writes a timestamp is the parameter
      [env_isoformat]; C38 assumes of it that different times are written
      differently, the other theorems nothing.
    - The clock, the lease duration, the freshness windows, the manifest registry and the
      catalog are the fields of [Env]; the theorems hold for all their values.
    - A primary key is one more than the largest in the table, as in SQLite without
      AUTOINCREMENT.  CHECK and UNIQUE constraints raise [IntegrityError]; foreign keys
      are established by the invariant and not checked on insertion.
    - Requests are serialized: one request's transaction runs after another's.  Within a
      request, [begin_nested] is a savepoint that an exception rolls back.  The GitHub
      service, which commits between remote calls, is interleaved at every await instead.
      Cancellation of a coroutine is modelled there only, as an answer of the outside.
    - The limits of the interpreter (nesting of a JSON document, digits of an integer,
      memory) are not modelled.
    - Strings are ASCII.  JSON columns have the type of the document they hold, so
      [isinstance] checks on their shape are vacuous; validation of a stored document is
      modelled in full ([valid_evidence], [valid_stored_candidate]).
    - [created_at] and [updated_at], which no decision reads, are left out of the tables;
      the projection, which shows them, is given them by the key of their row ([Stamps]).

    ** Not modelled yet

    The branches for Windows; of the operator tool its preflight, what its processes are started with and
    how they stop, the runtime directory, the configuration file and the readiness report; and the [from_mapping]
    constructors of profiles, which nothing calls.
    HTTP parsing, process and file I/O, metrics and migrations are glue around
    libraries and stay outside. *)

From stdpp Require Export base gmap strings list sorting fin_maps.
From Stdlib Require Export ZArith Lia.

#[global] Open Scope Z_scope.
#[global] Set Default Goal Selector "!".

(** ** Record update

    [r <| f := v |>] is [r] with field [f] replaced.  A record type joins by
    declaring how one of its values is rebuilt from its own projections; the
    setter of each field is then derived by replacing one projection in that
    expansion. *)

Class Rebuild (R : Type) := rebuild : R -> R.

Class Setter {R T : Type} (proj : R -> T) := set_field : (T -> T) -> R -> R.
#[global] Arguments set_field {R T} proj {_} f r : simpl never.

Ltac derive_setter proj :=
  match type of proj with
  | ?R -> ?T =>
      let inst := constr:(_ : Rebuild R) in
      let body := eval cbv [rebuild] in
        (fun r : R => ltac:(
           let e := eval red in (inst : R -> R) in
           let t := eval cbv beta in (e r) in exact t)) in
      exact (fun (f : T -> T) (r : R) => ltac:(
        let t := eval cbv beta in (body r) in
        match t with
        | context C [proj r] => let t' := context C [f (proj r)] in exact t'
        end))
  end.

#[export] Hint Extern 1 (Setter ?proj) => derive_setter proj : typeclass_instances.

Declare Scope record_scope.
Delimit Scope record_scope with record.
Notation "r <| f := v |>" := (set_field f (fun _ => v) r)
  (at level 1, left associativity, f constr at level 0, v constr at level 99,
   format "r <|  f  :=  v  |>") : record_scope.
#[global] Open Scope record_scope.

(** [rsimpl] computes projections of updated records and nothing else. *)
Ltac rsimpl_step q p f r :=
  first
    [ constr_eq q p; let v := eval cbv beta in (f (p r)) in
      change (q (set_field p f r)) with v
    | change (q (set_field p f r)) with (q r) ].

Ltac rsimpl_step_in q p f r H :=
  first
    [ constr_eq q p; let v := eval cbv beta in (f (p r)) in
      change (q (set_field p f r)) with v in H
    | change (q (set_field p f r)) with (q r) in H ].

Ltac rsimpl :=
  repeat match goal with
  | |- context [?q (set_field ?p ?f ?r)] => rsimpl_step q p f r
  end.

Tactic Notation "rsimpl" "in" hyp(H) :=
  repeat match type of H with
  | context [?q (set_field ?p ?f ?r)] => rsimpl_step_in q p f r H
  end.

Tactic Notation "rsimpl" "in" "*" :=
  rsimpl;
  repeat match goal with
  | H : context [?q (set_field ?p ?f ?r)] |- _ => rsimpl_step_in q p f r H
  end.

(** ** Results and the state-and-exception monad

    A service method reads and writes the state and either returns or raises.
    Raising keeps the state reached so far, as a Python exception does; undoing
    it is the business of the savepoint or of the request transaction. *)

Inductive Result (E A : Type) : Type :=
| Ok (a : A)
| Err (e : E).
#[global] Arguments Ok {E A} a.
#[global] Arguments Err {E A} e.

Definition is_ok {E A} (r : Result E A) : bool :=
  match r with Ok _ => true | Err _ => false end.

Definition M (E S A : Type) : Type := S -> Result E A * S.

#[global] Instance M_ret E S : MRet (M E S) := fun A a s => (Ok a, s).
#[global] Instance M_bind E S : MBind (M E S) := fun A B k m s =>
  match m s with
  | (Ok a, s') => k a s'
  | (Err e, s') => (Err e, s')
  end.

Section operations.
Context {E S : Type}.

Definition raise {A} (e : E) : M E S A := fun s => (Err e, s).
Definition gets {A} (f : S -> A) : M E S A := fun s => (Ok (f s), s).
Definition modify (f : S -> S) : M E S unit := fun s => (Ok tt, f s).

(** [if not b: raise e] *)
Definition ensure (b : bool) (e : E) : M E S unit :=
  if b then mret tt else raise e.

Definition require {A} (o : option A) (e : E) : M E S A :=
  match o with Some a => mret a | None => raise e end.

Definition lift_result {A} (r : Result E A) : M E S A := fun s => (r, s).

(** A Python [for] loop that threads an accumulator. *)
Fixpoint for_each {A B} (f : B -> A -> M E S B) (acc : B) (l : list A) : M E S B :=
  match l with
  | [] => mret acc
  | x :: l' => acc' ← f acc x; for_each f acc' l'
  end.
End operations.

(** [try: m except e: h e], where [h] re-raises what it does not handle. *)
Definition handle {E S A} (m : M E S A) (h : E -> option (M E S A)) : M E S A := fun s =>
  match m s with
  | (Ok a, s') => (Ok a, s')
  | (Err e, s') => match h e with Some k => k s' | None => (Err e, s') end
  end.

(** *** Relational reasoning about a computation

    [achieves R m]: when [m] returns, its first and last states are related by
    [R].  With a preorder the property composes along the program. *)

Definition achieves {E S A} (R : S -> S -> Prop) (m : M E S A) : Prop :=
  forall s a s', m s = (Ok a, s') -> R s s'.

Create HintDb achieves discriminated.

Section achieves_rules.
Context {E S : Type} (R : S -> S -> Prop) `{!Reflexive R, !Transitive R}.

Lemma achieves_ret {A} (a : A) : achieves (E := E) R (mret a).
Proof. intros s r s' [= <- <-]. reflexivity. Qed.

Lemma achieves_raise {A} (e : E) : achieves (A := A) R (raise e).
Proof. intros s r s' [=]. Qed.

Lemma achieves_gets {A} (f : S -> A) : achieves (E := E) R (gets f).
Proof. intros s r s' [= <- <-]. reflexivity. Qed.

Lemma achieves_lift {A} (x : Result E A) : achieves R (lift_result x).
Proof. intros s r s' [= ? <-]. reflexivity. Qed.

Lemma achieves_ensure b (e : E) : achieves R (ensure b e).
Proof. destruct b; [apply achieves_ret | apply achieves_raise]. Qed.

Lemma achieves_require {A} (o : option A) (e : E) : achieves R (require o e).
Proof. destruct o; [apply achieves_ret | apply achieves_raise]. Qed.

Lemma achieves_bind {A B} (m : M E S A) (k : A -> M E S B) :
  achieves R m -> (forall a, achieves R (k a)) -> achieves R (m ≫= k).
Proof.
  intros Hm Hk s r s'. unfold mbind, M_bind.
  destruct (m s) as [[a|e] s1] eqn:Hs; intros Hrun; [|done].
  transitivity s1; [eapply Hm, Hs | eapply Hk, Hrun].
Qed.

(** After a check, its outcome is known. *)
Lemma achieves_bind_ensure {B} b (e : E) (k : unit -> M E S B) :
  (b = true -> achieves R (k tt)) -> achieves R (ensure b e ≫= k).
Proof.
  intros Hk s r s' Hrun. unfold mbind, M_bind in Hrun. destruct b; [|done].
  by apply Hk in Hrun.
Qed.

Lemma achieves_bind_require {A B} (o : option A) (e : E) (k : A -> M E S B) :
  (forall a, o = Some a -> achieves R (k a)) -> achieves R (require o e ≫= k).
Proof.
  intros Hk s r s' Hrun. unfold mbind, M_bind in Hrun. destruct o; [|done].
  by eapply Hk in Hrun.
Qed.

Lemma achieves_if {A} (b : bool) (m1 m2 : M E S A) :
  achieves R m1 -> achieves R m2 -> achieves R (if b then m1 else m2).
Proof. by destruct b. Qed.

Lemma achieves_for_each {A B} (f : B -> A -> M E S B) acc l :
  (forall b a, achieves R (f b a)) -> achieves R (for_each f acc l).
Proof.
  intros Hf. revert acc. induction l as [|x l IH]; intros acc; simpl.
  - apply achieves_ret.
  - apply achieves_bind; auto.
Qed.
End achieves_rules.

#[export] Hint Resolve achieves_ret achieves_raise achieves_gets achieves_lift
  achieves_ensure achieves_require achieves_bind achieves_if achieves_for_each : achieves.

(** Inverting a successful run. *)
Lemma bind_ok {E S A B} (m : M E S A) (k : A -> M E S B) s b s' :
  (m ≫= k) s = (Ok b, s') -> exists a s1, m s = (Ok a, s1) /\ k a s1 = (Ok b, s').
Proof.
  unfold mbind, M_bind. destruct (m s) as [[a|e] s1] eqn:H; [eauto|done].
Qed.

Lemma ensure_ok {E S} b (e : E) (s s' : S) u :
  ensure b e s = (Ok u, s') -> b = true /\ s' = s.
Proof. destruct b; intros [=]; auto. Qed.

Lemma require_ok {E S A} (o : option A) (e : E) (s s' : S) a :
  require o e s = (Ok a, s') -> o = Some a /\ s' = s.
Proof. destruct o; intros [=]; subst; auto. Qed.

Lemma raise_ok {E S A} (e : E) (s s' : S) (a : A) : raise e s = (Ok a, s') -> False.
Proof. by intros [=]. Qed.

Lemma gets_ok {E S A} (f : S -> A) (s s' : S) a :
  gets (E := E) f s = (Ok a, s') -> a = f s /\ s' = s.
Proof. by intros [= <- <-]. Qed.

Lemma ret_ok {E S A} (x a : A) (s s' : S) :
  mret (M := M E S) x s = (Ok a, s') -> a = x /\ s' = s.
Proof. by intros [= <- <-]. Qed.

Lemma lift_ok {E S A} (r : Result E A) (s s' : S) a :
  lift_result r s = (Ok a, s') -> r = Ok a /\ s' = s.
Proof. by intros [= -> <-]. Qed.

(** [inv_run H] splits a successful run [m s = (Ok a, s')] along its binds, checks
    and reads, leaving one equation per remaining call. *)
Ltac inv_run H :=
  lazymatch type of H with
  | (_ ≫= _) _ = (Ok _, _) =>
      let a := fresh "a" in let s1 := fresh "w" in let H1 := fresh "Hr" in
      apply bind_ok in H as (a & s1 & H1 & H); inv_run H1; inv_run H
  | ensure _ _ _ = _ =>
      let Hb := fresh "Hb" in apply ensure_ok in H as [Hb H]; try subst
  | require _ _ _ = _ =>
      let Hb := fresh "Ho" in apply require_ok in H as [Hb H]; try subst
  | raise _ _ = _ => apply raise_ok in H; destruct H
  | gets _ _ = _ => let Hb := fresh "Hg" in apply gets_ok in H as [Hb H]; try subst
  | mret _ _ = _ => let Hb := fresh "Hg" in apply ret_ok in H as [Hb H]; try subst
  | lift_result _ _ = _ => let Hb := fresh "Hl" in apply lift_ok in H as [Hb H]; try subst
  | _ => idtac
  end.

(** ** Sums over tables

    [msum f t] adds [f row] over the rows of a table; counting the rows with a
    property and totalling a column are both instances. *)

Definition msum {K V} `{Countable K} (f : V -> Z) (t : gmap K V) : Z :=
  map_fold (fun _ v acc => f v + acc) 0 t.

Section msum.
Context {K V : Type} `{Countable K}.
Implicit Types (f g : V -> Z) (t : gmap K V).

Lemma msum_empty f : msum f (∅ : gmap K V) = 0.
Proof. apply map_fold_empty. Qed.

Lemma msum_insert_None f t k v : t !! k = None -> msum f (<[k:=v]> t) = f v + msum f t.
Proof.
  intros Hk. unfold msum.
  rewrite map_fold_insert_L; [done | intros; lia | done].
Qed.

Lemma msum_delete f t k v : t !! k = Some v -> msum f (delete k t) = msum f t - f v.
Proof.
  intros Hk. rewrite <-(insert_delete_id t k v Hk) at 2.
  rewrite msum_insert_None by apply lookup_delete_eq. lia.
Qed.

Lemma msum_insert_Some f t k v w :
  t !! k = Some w -> msum f (<[k:=v]> t) = msum f t - f w + f v.
Proof.
  intros Hk. rewrite <-insert_delete_eq, msum_insert_None by apply lookup_delete_eq.
  rewrite (msum_delete f t k w) by done. lia.
Qed.

Lemma msum_ext f g t :
  (forall k v, t !! k = Some v -> f v = g v) -> msum f t = msum g t.
Proof.
  induction t as [|k v t Hk IH] using map_ind; intros Hfg; [by rewrite !msum_empty|].
  rewrite !msum_insert_None by done. f_equal.
  - apply (Hfg k). apply lookup_insert_eq.
  - apply IH. intros k' v' Hk'. apply (Hfg k'). rewrite lookup_insert_ne; congruence.
Qed.

Lemma msum_nonneg f t :
  (forall k v, t !! k = Some v -> 0 <= f v) -> 0 <= msum f t.
Proof.
  induction t as [|k v t Hk IH] using map_ind; intros Hf; [by rewrite msum_empty|].
  rewrite msum_insert_None by done.
  assert (0 <= f v) by (apply (Hf k), lookup_insert_eq).
  assert (0 <= msum f t); [|lia].
  apply IH. intros k' v' Hk'. apply (Hf k'). rewrite lookup_insert_ne; congruence.
Qed.

Lemma msum_lookup_le f t k v :
  (forall k v, t !! k = Some v -> 0 <= f v) -> t !! k = Some v -> f v <= msum f t.
Proof.
  intros Hf Hk. assert (0 <= msum f (delete k t)) as Hd.
  { apply msum_nonneg. intros k' v' Hl. apply (Hf k').
    by apply lookup_delete_Some in Hl as [_ ?]. }
  rewrite (msum_delete f t k v Hk) in Hd. lia.
Qed.

Lemma msum_zero f t :
  (forall k v, t !! k = Some v -> f v = 0) -> msum f t = 0.
Proof.
  induction t as [|k v t Hk IH] using map_ind; intros Hf; [by rewrite msum_empty|].
  rewrite msum_insert_None by done. rewrite (Hf k v) by apply lookup_insert_eq.
  rewrite IH; [lia|]. intros k' v' Hk'. apply (Hf k'). rewrite lookup_insert_ne; congruence.
Qed.

Lemma msum_plus f g t : msum (fun v => f v + g v) t = msum f t + msum g t.
Proof.
  induction t as [|k v t Hk IH] using map_ind; [by rewrite !msum_empty|].
  rewrite !msum_insert_None by done. lia.
Qed.
End msum.

(** ** Fresh integer keys: one above the largest key in use. *)

Definition max_key {V} (t : gmap Z V) : Z := map_fold (fun k _ acc => Z.max k acc) 0 t.
Definition fresh_id {V} (t : gmap Z V) : Z := max_key t + 1.

Lemma max_key_ge {V} (t : gmap Z V) k v : t !! k = Some v -> k <= max_key t.
Proof.
  unfold max_key. revert k v. induction t as [|k v t Hk IH] using map_ind; intros k' v' Hl.
  - by rewrite lookup_empty in Hl.
  - rewrite map_fold_insert_L; [|intros; lia|done].
    apply lookup_insert_Some in Hl as [[<- _]|[_ Hl]]; [lia|]. apply IH in Hl. lia.
Qed.

Lemma max_key_nonneg {V} (t : gmap Z V) : 0 <= max_key t.
Proof.
  unfold max_key. induction t as [|k v t Hk IH] using map_ind; [done|].
  rewrite map_fold_insert_L; [lia|intros; lia|done].
Qed.

Lemma fresh_id_None {V} (t : gmap Z V) : t !! fresh_id t = None.
Proof.
  destruct (t !! fresh_id t) as [v|] eqn:Hl; [|done].
  apply max_key_ge in Hl. unfold fresh_id in Hl. lia.
Qed.

Lemma fresh_id_pos {V} (t : gmap Z V) : 0 < fresh_id t.
Proof. unfold fresh_id. pose proof (max_key_nonneg t). lia. Qed.

(** ** Selecting rows *)

Definition key_le {V} (a b : Z * V) : Prop := a.1 <= b.1.

#[global] Instance key_le_dec {V} : RelDecision (@key_le V).
Proof. intros a b. unfold key_le. apply _. Defined.

#[global] Instance key_le_total {V} : Total (@key_le V).
Proof. intros a b. unfold key_le. lia. Qed.

(** [ORDER BY id] *)
Definition rows_in_order {V} (t : gmap Z V) : list (Z * V) :=
  merge_sort key_le (map_to_list t).

(** [SELECT ... WHERE p] when at most one row can match: the row of least key. *)
Definition find_row {V} (p : V -> bool) (t : gmap Z V) : option V :=
  head (filter (fun v => Is_true (p v)) ((rows_in_order t).*2)).

Lemma rows_in_order_elem {V} (t : gmap Z V) k v : (k, v) ∈ rows_in_order t <-> t !! k = Some v.
Proof. unfold rows_in_order. rewrite merge_sort_Permutation. apply elem_of_map_to_list. Qed.

Lemma find_row_Some {V} (p : V -> bool) (t : gmap Z V) v :
  find_row p t = Some v -> exists k, t !! k = Some v /\ p v = true.
Proof.
  unfold find_row. intros Hh. apply head_Some_elem_of in Hh.
  apply list_elem_of_filter in Hh as [Hp Hv].
  apply list_elem_of_fmap in Hv as [[k v'] [-> Hv]].
  exists k. apply rows_in_order_elem in Hv. split; [done | by apply Is_true_true].
Qed.

Lemma find_row_None {V} (p : V -> bool) (t : gmap Z V) k v :
  find_row p t = None -> t !! k = Some v -> p v = false.
Proof.
  unfold find_row. intros Hh Hk. apply head_None in Hh.
  destruct (p v) eqn:Hp; [|done]. exfalso.
  assert (v ∈ filter (fun v => Is_true (p v)) ((rows_in_order t).*2)) as Hin.
  { apply list_elem_of_filter. split; [by rewrite Hp|].
    apply list_elem_of_fmap. exists (k, v). split; [done|]. by apply rows_in_order_elem. }
  rewrite Hh in Hin. by apply not_elem_of_nil in Hin.
Qed.

(** ** [dict.fromkeys]: first occurrences, in order. *)

Fixpoint dedup {A} `{EqDecision A} (l : list A) : list A :=
  match l with
  | [] => []
  | x :: l' => x :: filter (fun y => y <> x) (dedup l')
  end.

Lemma elem_of_dedup {A} `{EqDecision A} (l : list A) x : x ∈ dedup l <-> x ∈ l.
Proof.
  induction l as [|y l IH]; simpl; [done|].
  rewrite !elem_of_cons, list_elem_of_filter, IH. destruct (decide (x = y)); naive_solver.
Qed.

Lemma NoDup_dedup {A} `{EqDecision A} (l : list A) : NoDup (dedup l).
Proof.
  induction l as [|x l IH]; simpl; constructor.
  - rewrite list_elem_of_filter. naive_solver.
  - by apply NoDup_filter.
Qed.

Lemma dedup_nil {A} `{EqDecision A} (l : list A) : dedup l = [] <-> l = [].
Proof. destruct l; simpl; split; congruence. Qed.
