(* ===== verification/Enums.v ===== *)
(** * Enumerated states and the explicit transition policy

    [server/execution/enums.py] and [server/execution/transitions.py]: the
    lifecycle states of work orders, runs and workers, the policies a work order
    selects, and the tables of legal lifecycle transitions. *)

From S2P Require Import Prelude.

Inductive WorkOrderStatus : Set :=
| WO_PENDING_APPROVAL | WO_APPROVED | WO_QUEUED | WO_ASSIGNED | WO_RUNNING
| WO_SUCCEEDED | WO_FAILED | WO_TIMED_OUT | WO_CANCELLED | WO_REJECTED | WO_EXPIRED.

Inductive ExecutionRunStatus : Set :=
| RUN_QUEUED | RUN_ASSIGNED | RUN_RUNNING
| RUN_SUCCEEDED | RUN_FAILED | RUN_TIMED_OUT | RUN_CANCELLED.

Inductive WorkerStatus : Set := ONLINE | BUSY | DRAINING | OFFLINE.

Inductive ApprovalPolicy : Set := EXPLICIT.

Inductive NetworkPolicy : Set := DISABLED | WORKER_RESTRICTED.

Inductive RepositoryWritePolicy : Set := READ_ONLY.

Inductive ReusePolicy : Set := NEVER | ALLOW_EXACT | REQUIRE_EXACT.

Inductive ReuseDecision : Set :=
| NOT_REQUESTED | PENDING | CANDIDATE_AVAILABLE | FRESH | REUSED | UNAVAILABLE.

Inductive RoutingPolicy : Set := FIRST_AVAILABLE | CHEAPEST_CAPABLE.

Inductive QuotaReservationState : Set := NOT_REQUIRED | RESERVED | CONSUMED | RELEASED.

#[global] Instance WorkOrderStatus_dec : EqDecision WorkOrderStatus.
Proof. solve_decision. Defined.
#[global] Instance ExecutionRunStatus_dec : EqDecision ExecutionRunStatus.
Proof. solve_decision. Defined.
#[global] Instance WorkerStatus_dec : EqDecision WorkerStatus.
Proof. solve_decision. Defined.
#[global] Instance ApprovalPolicy_dec : EqDecision ApprovalPolicy.
Proof. solve_decision. Defined.
#[global] Instance NetworkPolicy_dec : EqDecision NetworkPolicy.
Proof. solve_decision. Defined.
#[global] Instance RepositoryWritePolicy_dec : EqDecision RepositoryWritePolicy.
Proof. solve_decision. Defined.
#[global] Instance ReusePolicy_dec : EqDecision ReusePolicy.
Proof. solve_decision. Defined.
#[global] Instance ReuseDecision_dec : EqDecision ReuseDecision.
Proof. solve_decision. Defined.
#[global] Instance RoutingPolicy_dec : EqDecision RoutingPolicy.
Proof. solve_decision. Defined.
#[global] Instance QuotaReservationState_dec : EqDecision QuotaReservationState.
Proof. solve_decision. Defined.

(** ** The string values of the enumerations *)

Section values.
Local Open Scope string_scope.

Definition work_order_status_value (s : WorkOrderStatus) : string :=
  match s with
  | WO_PENDING_APPROVAL => "pending_approval"
  | WO_APPROVED => "approved"
  | WO_QUEUED => "queued"
  | WO_ASSIGNED => "assigned"
  | WO_RUNNING => "running"
  | WO_SUCCEEDED => "succeeded"
  | WO_FAILED => "failed"
  | WO_TIMED_OUT => "timed_out"
  | WO_CANCELLED => "cancelled"
  | WO_REJECTED => "rejected"
  | WO_EXPIRED => "expired"
  end.

Definition run_status_value (s : ExecutionRunStatus) : string :=
  match s with
  | RUN_QUEUED => "queued"
  | RUN_ASSIGNED => "assigned"
  | RUN_RUNNING => "running"
  | RUN_SUCCEEDED => "succeeded"
  | RUN_FAILED => "failed"
  | RUN_TIMED_OUT => "timed_out"
  | RUN_CANCELLED => "cancelled"
  end.

Definition network_policy_value (p : NetworkPolicy) : string :=
  match p with DISABLED => "disabled" | WORKER_RESTRICTED => "worker_restricted" end.

Definition repository_write_policy_value (p : RepositoryWritePolicy) : string :=
  match p with READ_ONLY => "read_only" end.

Definition reuse_decision_value (d : ReuseDecision) : string :=
  match d with
  | NOT_REQUESTED => "not_requested"
  | PENDING => "pending"
  | CANDIDATE_AVAILABLE => "candidate_available"
  | FRESH => "fresh"
  | REUSED => "reused"
  | UNAVAILABLE => "unavailable"
  end.

Definition routing_policy_value (p : RoutingPolicy) : string :=
  match p with
  | FIRST_AVAILABLE => "first_available"
  | CHEAPEST_CAPABLE => "cheapest_capable"
  end.
End values.

(** The enumeration call [WorkOrderStatus(value)]: the member with that value. *)
Definition all_work_order_statuses : list WorkOrderStatus :=
  [WO_PENDING_APPROVAL; WO_APPROVED; WO_QUEUED; WO_ASSIGNED; WO_RUNNING;
   WO_SUCCEEDED; WO_FAILED; WO_TIMED_OUT; WO_CANCELLED; WO_REJECTED; WO_EXPIRED].

Definition work_order_status_of_value (v : string) : option WorkOrderStatus :=
  head (filter (fun s => work_order_status_value s = v) all_work_order_statuses).

Definition network_policy_of_value (v : string) : option NetworkPolicy :=
  head (filter (fun p => network_policy_value p = v) [DISABLED; WORKER_RESTRICTED]).

(** ** Terminal states *)

Definition is_terminal_work_order (s : WorkOrderStatus) : bool :=
  match s with
  | WO_SUCCEEDED | WO_FAILED | WO_TIMED_OUT | WO_CANCELLED | WO_REJECTED | WO_EXPIRED => true
  | _ => false
  end.

Definition is_terminal_run (s : ExecutionRunStatus) : bool :=
  match s with
  | RUN_SUCCEEDED | RUN_FAILED | RUN_TIMED_OUT | RUN_CANCELLED => true
  | _ => false
  end.

(** ** Transition tables *)

Definition WORK_ORDER_TRANSITIONS (s : WorkOrderStatus) : list WorkOrderStatus :=
  match s with
  | WO_PENDING_APPROVAL => [WO_APPROVED; WO_QUEUED; WO_REJECTED; WO_CANCELLED]
  | WO_APPROVED => [WO_QUEUED; WO_CANCELLED; WO_EXPIRED]
  | WO_QUEUED => [WO_ASSIGNED; WO_CANCELLED; WO_EXPIRED]
  | WO_ASSIGNED =>
      [WO_RUNNING; WO_QUEUED; WO_SUCCEEDED; WO_FAILED; WO_TIMED_OUT; WO_CANCELLED]
  | WO_RUNNING => [WO_SUCCEEDED; WO_FAILED; WO_TIMED_OUT; WO_CANCELLED; WO_QUEUED]
  | WO_SUCCEEDED | WO_FAILED | WO_TIMED_OUT | WO_CANCELLED | WO_REJECTED | WO_EXPIRED => []
  end.

Definition RUN_TRANSITIONS (s : ExecutionRunStatus) : list ExecutionRunStatus :=
  match s with
  | RUN_QUEUED => [RUN_ASSIGNED]
  | RUN_ASSIGNED =>
      [RUN_RUNNING; RUN_SUCCEEDED; RUN_FAILED; RUN_TIMED_OUT; RUN_CANCELLED]
  | RUN_RUNNING => [RUN_SUCCEEDED; RUN_FAILED; RUN_TIMED_OUT; RUN_CANCELLED]
  | RUN_SUCCEEDED | RUN_FAILED | RUN_TIMED_OUT | RUN_CANCELLED => []
  end.

Definition allows_work_order_transition (current target : WorkOrderStatus) : bool :=
  bool_decide (target ∈ WORK_ORDER_TRANSITIONS current).

Definition allows_run_transition (current target : ExecutionRunStatus) : bool :=
  bool_decide (target ∈ RUN_TRANSITIONS current).

(** The statuses under which a record holds an active lease. *)
Definition active_work_order (s : WorkOrderStatus) : bool :=
  match s with WO_ASSIGNED | WO_RUNNING => true | _ => false end.

Definition active_run (s : ExecutionRunStatus) : bool :=
  match s with RUN_ASSIGNED | RUN_RUNNING => true | _ => false end.

(** ** Facts about the tables *)

Lemma terminal_work_order_no_transition s :
  is_terminal_work_order s = true <-> WORK_ORDER_TRANSITIONS s = [].
Proof. destruct s; simpl; split; congruence. Qed.

Lemma terminal_run_no_transition s :
  is_terminal_run s = true <-> RUN_TRANSITIONS s = [].
Proof. destruct s; simpl; split; congruence. Qed.

(** One step, or none, along the explicit tables. *)
Definition work_order_step (a b : WorkOrderStatus) : Prop :=
  allows_work_order_transition a b = true.
Definition run_step (a b : ExecutionRunStatus) : Prop :=
  allows_run_transition a b = true.

Lemma terminal_work_order_rtc a b :
  is_terminal_work_order a = true -> rtc work_order_step a b -> b = a.
Proof.
  intros Ha Hr. inversion Hr as [|? c ? Hstep]; subst; [done|].
  destruct a; try discriminate Ha; destruct c; discriminate Hstep.
Qed.

Lemma terminal_run_rtc a b :
  is_terminal_run a = true -> rtc run_step a b -> b = a.
Proof.
  intros Ha Hr. inversion Hr as [|? c ? Hstep]; subst; [done|].
  destruct a; try discriminate Ha; destruct c; discriminate Hstep.
Qed.

(** No sequence of legal transitions leads back to the approval gate. *)
Lemma pending_approval_not_reachable a :
  rtc work_order_step a WO_PENDING_APPROVAL -> a = WO_PENDING_APPROVAL.
Proof.
  intros Hr. remember WO_PENDING_APPROVAL as b eqn:Hb. induction Hr as [|x y z Hs Hr IH]; [done|].
  specialize (IH Hb). subst. destruct x; discriminate Hs.
Qed.

(** A terminal run status is the value of a terminal work-order status. *)
Lemma work_order_status_of_terminal_run s :
  is_terminal_run s = true ->
  exists t, work_order_status_of_value (run_status_value s) = Some t /\
            is_terminal_work_order t = true.
Proof. destruct s; intros H; try discriminate H; eexists; split; reflexivity. Qed.
