(* ===== verification/Text.v ===== *)
(** * Text: the string operations the source uses

    Strings are ASCII ([string] of characters below 128), on which Python's
    [str.lower], [str.strip], [<] and the regular-expression classes of the source
    are the byte operations below. *)

From stdpp Require Export pretty.
From Stdlib Require Export Ascii.
From Stdlib Require String.
From S2P Require Import Prelude.

#[global] Open Scope Z_scope.


Fixpoint to_chars (s : string) : list ascii :=
  match s with
  | EmptyString => []
  | String c s' => c :: to_chars s'
  end.

Fixpoint of_chars (l : list ascii) : string :=
  match l with
  | [] => EmptyString
  | c :: l' => String c (of_chars l')
  end.

Lemma of_to_chars s : of_chars (to_chars s) = s.
Proof. induction s; simpl; congruence. Qed.

Lemma to_of_chars l : to_chars (of_chars l) = l.
Proof. induction l; simpl; congruence. Qed.

(** The code point of a character. *)
Definition ord (c : ascii) : Z := Z.of_N (N_of_ascii c).
Definition chr (z : Z) : ascii := ascii_of_N (Z.to_N z).

Definition in_range (lo hi : Z) (c : ascii) : bool := (lo <=? ord c) && (ord c <=? hi).

Definition is_digit (c : ascii) : bool := in_range 48 57 c.
Definition is_upper (c : ascii) : bool := in_range 65 90 c.
Definition is_lower (c : ascii) : bool := in_range 97 122 c.
Definition is_alnum (c : ascii) : bool := is_digit c || is_upper c || is_lower c.
Definition is_hex_lower (c : ascii) : bool := is_digit c || in_range 97 102 c.
Definition is_hex (c : ascii) : bool := is_hex_lower c || in_range 65 70 c.
(** [str.isspace] and [\s] on ASCII text. *)
Definition is_space (c : ascii) : bool := in_range 9 13 c || in_range 28 32 c.

Definition char_lower (c : ascii) : ascii := if is_upper c then chr (ord c + 32) else c.

(** [str.lower] *)
Fixpoint lower (s : string) : string :=
  match s with
  | EmptyString => EmptyString
  | String c s' => String (char_lower c) (lower s')
  end.

Fixpoint drop_spaces (l : list ascii) : list ascii :=
  match l with
  | c :: l' => if is_space c then drop_spaces l' else l
  | [] => []
  end.

(** [str.strip] *)
Definition strip (s : string) : string :=
  of_chars (reverse (drop_spaces (reverse (drop_spaces (to_chars s))))).

(** [str.startswith] and [sub in s] *)
Fixpoint starts_with (p s : list ascii) : bool :=
  match p, s with
  | [], _ => true
  | a :: p', b :: s' => bool_decide (a = b) && starts_with p' s'
  | _ :: _, [] => false
  end.

Fixpoint contains (p s : list ascii) : bool :=
  starts_with p s || match s with [] => false | _ :: s' => contains p s' end.

Definition str_contains (p s : string) : bool := contains (to_chars p) (to_chars s).

(** [s.split(c)] *)
Fixpoint split_on (c : ascii) (l : list ascii) : list (list ascii) :=
  match l with
  | [] => [[]]
  | x :: l' =>
      if bool_decide (x = c) then [] :: split_on c l'
      else match split_on c l' with
           | p :: ps => (x :: p) :: ps
           | [] => [[x]]
           end
  end.

(** [sep.join(parts)] *)
Fixpoint join (sep : string) (parts : list string) : string :=
  match parts with
  | [] => EmptyString
  | [p] => p
  | p :: parts' => (p +:+ sep +:+ join sep parts')%string
  end.

Definition str_length (s : string) : Z := Z.of_nat (String.length s).

Definition all_chars (p : ascii -> bool) (s : string) : bool := forallb p (to_chars s).

(** [re.fullmatch(r"[class]{n}", s)] *)
Definition exactly (n : Z) (p : ascii -> bool) (s : string) : bool :=
  (str_length s =? n) && all_chars p s.

(** ** The order of strings *)

Definition str_le (a b : string) : Prop := String.leb a b = true.

#[global] Instance str_le_dec : RelDecision str_le.
Proof. intros a b. unfold str_le. apply _. Defined.

#[global] Instance str_le_total : Total str_le.
Proof. exact String.leb_total. Qed.

#[global] Instance str_le_antisym : AntiSymm (=) str_le.
Proof. exact String.leb_antisym. Qed.

Lemma str_le_cons c a d b :
  str_le (String c a) (String d b) <->
  (N_of_ascii c < N_of_ascii d)%N \/ (c = d /\ str_le a b).
Proof.
  unfold str_le, String.leb. simpl. unfold Ascii.compare.
  destruct (N.compare_spec (N_of_ascii c) (N_of_ascii d)) as [Heq|Hlt|Hgt].
  - assert (c = d) as -> by (rewrite <-(ascii_N_embedding c), Heq; apply ascii_N_embedding).
    split; [auto|]. intros [?|[_ ?]]; [lia|done].
  - split; auto.
  - split; [done|]. intros [?|[-> _]]; lia.
Qed.

#[global] Instance str_le_trans : Transitive str_le.
Proof.
  intros a. induction a as [|c a IH]; intros b d Hab Hbd; [by destruct d|].
  destruct b as [|c' b]; [done|]. destruct d as [|c'' d]; [done|].
  rewrite str_le_cons in *. destruct Hab as [?|[-> ?]], Hbd as [?|[-> ?]]; eauto; left; lia.
Qed.

Definition str_lt (a b : string) : bool := String.ltb a b.

(** [sorted(strings)] *)
Definition sort_strings (l : list string) : list string := merge_sort str_le l.

Lemma sort_strings_perm l : sort_strings l ≡ₚ l.
Proof. apply merge_sort_Permutation. Qed.

Lemma sort_strings_unique l l' : l ≡ₚ l' -> sort_strings l = sort_strings l'.
Proof.
  intros Hp. apply (StronglySorted_unique str_le).
  - apply StronglySorted_merge_sort; apply _.
  - apply StronglySorted_merge_sort; apply _.
  - by rewrite !sort_strings_perm.
Qed.

(** Decimal rendering of an integer, [str(n)]. *)
Definition str_of_int (z : Z) : string := pretty z.

Definition digit_value (c : ascii) : Z := ord c - 48.

(** [int(part)] of a string of digits *)
Definition int_of_digits (l : list ascii) : Z := foldl (fun acc c => 10 * acc + digit_value c) 0 l.

(** ** Splitting and joining *)

Lemma split_on_not_nil c l : split_on c l <> [].
Proof.
  destruct l as [|x l]; simpl; [done|]. destruct (bool_decide (x = c)); [done|].
  by destruct (split_on c l).
Qed.

Lemma split_on_no_sep c l p : p ∈ split_on c l -> c ∉ p.
Proof.
  revert p. induction l as [|x l IH]; simpl; intros p.
  - rewrite list_elem_of_singleton. intros ->. apply not_elem_of_nil.
  - destruct (bool_decide (x = c)) eqn:Hx; [rewrite elem_of_cons; intros [->|?]; [apply not_elem_of_nil|auto]|].
    apply bool_decide_eq_false in Hx.
    destruct (split_on c l) as [|q qs]; [rewrite list_elem_of_singleton; intros ->; set_solver|].
    rewrite elem_of_cons. intros [->|Hp]; [|apply IH; set_solver].
    rewrite not_elem_of_cons. split; [congruence|]. apply IH. set_solver.
Qed.

Lemma split_on_plain c l : c ∉ l -> split_on c l = [l].
Proof.
  induction l as [|x l IH]; simpl; [done|]. rewrite not_elem_of_cons. intros [Hx Hl].
  rewrite bool_decide_eq_false_2 by congruence. by rewrite IH.
Qed.

Lemma split_on_app c l1 l2 :
  c ∉ l1 -> split_on c (l1 ++ c :: l2) = l1 :: split_on c l2.
Proof.
  induction l1 as [|x l1 IH]; simpl.
  - intros _. by rewrite bool_decide_eq_true_2.
  - rewrite not_elem_of_cons. intros [Hx Hl]. rewrite bool_decide_eq_false_2 by congruence.
    by rewrite IH.
Qed.

Lemma to_chars_app s t : to_chars (s +:+ t) = to_chars s ++ to_chars t.
Proof.
  induction s as [|c s IH]; [done|].
  change (c :: to_chars (s +:+ t) = c :: (to_chars s ++ to_chars t)). by rewrite IH.
Qed.

(** [sep.join(parts).split(sep)] gives the parts back. *)
Lemma split_join c parts :
  parts <> [] -> Forall (fun p => c ∉ to_chars p) parts ->
  map of_chars (split_on c (to_chars (join (String c EmptyString) parts))) = parts.
Proof.
  induction parts as [|p [|q parts] IH]; intros Hne Hall; [done| |];
    apply Forall_cons in Hall as [Hp Hall].
  - simpl. rewrite split_on_plain by done. simpl. by rewrite of_to_chars.
  - specialize (IH ltac:(done) Hall). cbn [join]. cbn [join] in IH.
    rewrite !to_chars_app. cbn [to_chars app].
    rewrite split_on_app by done. simpl. f_equal; [apply of_to_chars|exact IH].
Qed.
