(* ===== verification/Json.v ===== *)
(** * JSON values, canonical serialization and SHA-256

    The values of Python's [dict[str, Any]] columns and payloads, [json.dumps]
    with [sort_keys=True, separators=(",", ":")], and [hashlib.sha256(...).hexdigest()]
    as an executable definition. *)

From S2P Require Import Prelude Text.

(** A float is carried by its [repr], which is all that serialization reads. *)
#[warnings="-register-all"]
Inductive Json : Type :=
| JNull
| JBool (b : bool)
| JInt (z : Z)
| JFloat (repr : string)
| JStr (s : string)
| JList (l : list Json)
| JObj (fields : list (string * Json)).

(** [d.get(k)] and [k in d] for a dict given by its items. *)
Fixpoint obj_get {A} (k : string) (fields : list (string * A)) : option A :=
  match fields with
  | [] => None
  | (k', v) :: fields' => if bool_decide (k = k') then Some v else obj_get k fields'
  end.

(** ** Python equality of JSON values: dicts compare as maps, [True == 1]. *)

Definition bool_int (b : bool) : Z := if b then 1 else 0.

Fixpoint py_eq (a b : Json) {struct a} : bool :=
  match a, b with
  | JNull, JNull => true
  | JBool x, JBool y => Bool.eqb x y
  | JBool x, JInt y => bool_int x =? y
  | JInt x, JBool y => x =? bool_int y
  | JInt x, JInt y => x =? y
  | JFloat x, JFloat y => String.eqb x y
  | JStr x, JStr y => String.eqb x y
  | JList x, JList y =>
      (fix go (x y : list Json) {struct x} : bool :=
         match x, y with
         | [], [] => true
         | u :: x', v :: y' => py_eq u v && go x' y'
         | _, _ => false
         end) x y
  | JObj x, JObj y =>
      (Nat.eqb (length x) (length y)) &&
      (fix go (x : list (string * Json)) : bool :=
         match x with
         | [] => true
         | (k, u) :: x' =>
             match obj_get k y with Some v => py_eq u v | None => false end && go x'
         end) x
  | _, _ => false
  end.

(** ** [json.dumps] *)

Section dumps.
Variable ensure_ascii : bool.

Definition hex_digit (z : Z) : ascii := if z <? 10 then chr (48 + z) else chr (87 + z).

Definition escape_unicode (c : ascii) : string :=
  "\u00" +:+ of_chars [hex_digit (ord c / 16); hex_digit (ord c mod 16)].

Definition escape_char (c : ascii) : string :=
  if ord c =? 34 then of_chars [chr 92; chr 34]
  else if ord c =? 92 then of_chars [chr 92; chr 92]
  else if ord c =? 10 then "\n"
  else if ord c =? 13 then "\r"
  else if ord c =? 9 then "\t"
  else if ord c =? 12 then "\f"
  else if ord c =? 8 then "\b"
  else if ord c <? 32 then escape_unicode c
  else if ensure_ascii && (ord c =? 127) then escape_unicode c
  else String c EmptyString.

Definition quote (s : string) : string :=
  String (chr 34)
    (foldr (fun c acc => escape_char c +:+ acc) (String (chr 34) EmptyString) (to_chars s)).

Definition item_le (a b : string * string) : Prop := str_le a.1 b.1.

#[global] Instance item_le_dec : RelDecision item_le.
Proof. intros a b. unfold item_le. apply _. Defined.

(** Serialization; the rendered items of an object are sorted by key. *)
Fixpoint dumps (j : Json) : string :=
  match j with
  | JNull => "null"
  | JBool true => "true"
  | JBool false => "false"
  | JInt z => str_of_int z
  | JFloat r => r
  | JStr s => quote s
  | JList l =>
      "[" +:+ join "," ((fix go (l : list Json) : list string :=
               match l with [] => [] | x :: l' => dumps x :: go l' end) l) +:+ "]"
  | JObj fields =>
      "{" +:+ join "," (map (fun kv => quote kv.1 +:+ ":" +:+ kv.2)
                (merge_sort item_le
                   ((fix go (l : list (string * Json)) : list (string * string) :=
                       match l with [] => [] | (k, x) :: l' => (k, dumps x) :: go l' end)
                      fields))) +:+ "}"
  end.
End dumps.

(** ** SHA-256 (FIPS 180-4) *)

Module Sha256.
Definition w32 (z : Z) : Z := Z.land z 4294967295.
Definition add32 (a b : Z) : Z := w32 (a + b).
Definition rotr (n x : Z) : Z := w32 (Z.lor (Z.shiftr x n) (Z.shiftl x (32 - n))).
Definition shr (n x : Z) : Z := Z.shiftr x n.
Definition not32 (x : Z) : Z := Z.lxor x 4294967295.

Definition Ch (x y z : Z) : Z := Z.lxor (Z.land x y) (Z.land (not32 x) z).
Definition Maj (x y z : Z) : Z :=
  Z.lxor (Z.lxor (Z.land x y) (Z.land x z)) (Z.land y z).
Definition Sigma0 (x : Z) : Z := Z.lxor (Z.lxor (rotr 2 x) (rotr 13 x)) (rotr 22 x).
Definition Sigma1 (x : Z) : Z := Z.lxor (Z.lxor (rotr 6 x) (rotr 11 x)) (rotr 25 x).
Definition sigma0 (x : Z) : Z := Z.lxor (Z.lxor (rotr 7 x) (rotr 18 x)) (shr 3 x).
Definition sigma1 (x : Z) : Z := Z.lxor (Z.lxor (rotr 17 x) (rotr 19 x)) (shr 10 x).

Definition K : list Z :=
  [1116352408; 1899447441; 3049323471; 3921009573; 961987163; 1508970993; 2453635748;
   2870763221; 3624381080; 310598401; 607225278; 1426881987; 1925078388; 2162078206;
   2614888103; 3248222580; 3835390401; 4022224774; 264347078; 604807628; 770255983;
   1249150122; 1555081692; 1996064986; 2554220882; 2821834349; 2952996808; 3210313671;
   3336571891; 3584528711; 113926993; 338241895; 666307205; 773529912; 1294757372;
   1396182291; 1695183700; 1986661051; 2177026350; 2456956037; 2730485921; 2820302411;
   3259730800; 3345764771; 3516065817; 3600352804; 4094571909; 275423344; 430227734;
   506948616; 659060556; 883997877; 958139571; 1322822218; 1537002063; 1747873779;
   1955562222; 2024104815; 2227730452; 2361852424; 2428436474; 2756734187; 3204031479;
   3329325298].

Definition H0 : list Z :=
  [1779033703; 3144134277; 1013904242; 2773480762; 1359893119; 2600822924; 528734635;
   1541459225].

(** Message padding to a multiple of 64 bytes. *)
Definition pad (msg : list Z) : list Z :=
  let n := Z.of_nat (length msg) in
  let zeros := Z.to_nat ((55 - n) mod 64) in
  msg ++ [128] ++ replicate zeros 0 ++
  map (fun i => Z.land (Z.shiftr (8 * n) (8 * i)) 255) [7; 6; 5; 4; 3; 2; 1; 0].

Fixpoint words (l : list Z) : list Z :=
  match l with
  | a :: b :: c :: d :: l' => (((a * 256 + b) * 256 + c) * 256 + d) :: words l'
  | _ => []
  end.

(** The schedule, newest word first: 16 message words, then [n] more. *)
Fixpoint extend (n : nat) (rev_w : list Z) : list Z :=
  match n with
  | O => rev_w
  | S n' =>
      let w := fun i => nth i rev_w 0 in
      let x := add32 (add32 (sigma1 (w 1%nat)) (w 6%nat))
                     (add32 (sigma0 (w 14%nat)) (w 15%nat)) in
      extend n' (x :: rev_w)
  end.

Definition round (st : list Z) (kw : Z * Z) : list Z :=
  match st with
  | [a; b; c; d; e; f; g; h] =>
      let t1 := add32 (add32 (add32 h (Sigma1 e)) (Ch e f g)) (add32 kw.1 kw.2) in
      let t2 := add32 (Sigma0 a) (Maj a b c) in
      [add32 t1 t2; a; b; c; add32 d t1; e; f; g]
  | _ => st
  end.

Definition compress (h : list Z) (block : list Z) : list Z :=
  let w := reverse (extend 48 (reverse block)) in
  zip_with add32 h (foldl round h (zip K w)).

Fixpoint blocks (fuel : nat) (h : list Z) (ws : list Z) : list Z :=
  match fuel with
  | O => h
  | S fuel' =>
      match ws with
      | [] => h
      | _ => blocks fuel' (compress h (take 16 ws)) (drop 16 ws)
      end
  end.

Definition hex32 (x : Z) : list ascii :=
  map (fun i => hex_digit (Z.land (Z.shiftr x (4 * i)) 15)) [7; 6; 5; 4; 3; 2; 1; 0].

Definition digest (msg : list Z) : list Z :=
  let ws := words (pad msg) in blocks (length ws) H0 ws.

(** [hashlib.sha256(s.encode("utf-8")).hexdigest()] *)
Definition hexdigest (s : string) : string :=
  of_chars (concat (map hex32 (digest (map ord (to_chars s))))).
End Sha256.

Definition sha256_hex (s : string) : string := Sha256.hexdigest s.

Example sha256_empty :
  sha256_hex "" = "e3b0c44298fc1c149afbf4c8996fb92427ae41e4649b934ca495991b7852b855"%string.
Proof. vm_compute. reflexivity. Qed.

Example sha256_abc :
  sha256_hex "abc" = "ba7816bf8f01cfea414140de5dae2223b00361a396177a9cb410ff61f20015ad"%string.
Proof. vm_compute. reflexivity. Qed.

Example sha256_two_blocks :
  sha256_hex "abcdbcdecdefdefgefghfghighijhijkijkljklmklmnlmnomnopnopq" =
  "248d6a61d20638b8e5c026930c3e6039a33ce45964ff2167f6ecedd419db06c1"%string.
Proof. vm_compute. reflexivity. Qed.

Example dumps_sorted :
  dumps true (JObj [("b", JInt (-12)); ("a", JList [JBool true; JNull; JStr "x/y"])]%string) =
  of_chars [chr 123; chr 34; "a"; chr 34; ":"; "["; "t"; "r"; "u"; "e"; ","; "n"; "u"; "l"; "l";
            ","; chr 34; "x"; "/"; "y"; chr 34; "]"; ","; chr 34; "b"; chr 34; ":"; "-"; "1"; "2";
            chr 125]%char.
Proof. vm_compute. reflexivity. Qed.
