(* ===== verification/TextPolicy.v ===== *)
(** * Server-owned text policy

    [server/execution/text_policy.py]: the patterns that recognize an absolute
    local path in API text, the worker-credential marker, and their recursive
    application to JSON-like values.  Each pattern is a matcher at one position,
    given the preceding character (the look-behind) and the remaining text;
    [search] tries every position, as [re.search] does. *)

From S2P Require Import Prelude Text Json.

Definition prev_not_in (cls : ascii -> bool) (prev : option ascii) : bool :=
  match prev with Some c => negb (cls c) | None => true end.

Fixpoint search (m : option ascii -> list ascii -> bool) (prev : option ascii)
    (l : list ascii) : bool :=
  m prev l || match l with [] => false | c :: l' => search m (Some c) l' end.

(** Case-insensitive literal prefix; the rest of the text after it. *)
Fixpoint match_ci (p l : list ascii) : option (list ascii) :=
  match p, l with
  | [], _ => Some l
  | a :: p', b :: l' =>
      if bool_decide (char_lower a = char_lower b) then match_ci p' l' else None
  | _ :: _, [] => None
  end.

Definition slash : ascii := chr 47.
Definition backslash : ascii := chr 92.
Definition is_char (z : Z) (c : ascii) : bool := ord c =? z.
Definition is_sep (c : ascii) : bool := is_char 47 c || is_char 92 c.

(** The class [A-Za-z0-9+.-] before a URI scheme. *)
Definition scheme_char (c : ascii) : bool :=
  is_alnum c || is_char 43 c || is_char 46 c || is_char 45 c.

Definition not_space_next (l : list ascii) : bool :=
  match l with c :: _ => negb (is_space c) | [] => true end.

Definition WINDOWS_DRIVE_PATH (prev : option ascii) (l : list ascii) : bool :=
  prev_not_in (fun c => is_alnum c || is_sep c) prev &&
  match l with
  | d :: colon :: s :: _ => (is_upper d || is_lower d) && is_char 58 colon && is_sep s
  | _ => false
  end.

(** Two or more backslashes not followed by whitespace: with three or more the
    pattern may stop one backslash early. *)
Definition WINDOWS_UNC_PATH (prev : option ascii) (l : list ascii) : bool :=
  prev_not_in (fun c => is_char 58 c || is_sep c || is_alnum c) prev &&
  match l with
  | a :: b :: l' => is_char 92 a && is_char 92 b && not_space_next l'
  | _ => false
  end.

Definition FILE_URI (prev : option ascii) (l : list ascii) : bool :=
  prev_not_in scheme_char prev &&
  match match_ci (to_chars "file:") l with Some _ => true | None => false end.

Definition driver_char (c : ascii) : bool :=
  is_alnum c || is_char 95 c || is_char 46 c || is_char 45 c.

Fixpoint drop_while (p : ascii -> bool) (l : list ascii) : list ascii :=
  match l with
  | c :: l' => if p c then drop_while p l' else l
  | [] => []
  end.

Definition LOCAL_DATABASE_URI (prev : option ascii) (l : list ascii) : bool :=
  prev_not_in scheme_char prev &&
  match match_ci (to_chars "sqlite") l with
  | None => false
  | Some rest =>
      starts_with (to_chars ":///") rest ||
      match rest with
      | plus :: c :: rest' =>
          is_char 43 plus && driver_char c &&
          starts_with (to_chars ":///") (drop_while driver_char rest')
      | _ => false
      end
  end.

Definition SAFE_SCHEMES : list string :=
  ["https"; "http"; "wss"; "ws"; "ftps"; "ftp"; "ssh"; "git"; "mailto"; "urn"].

(** The characters of a URI after its scheme: no whitespace, angle brackets or
    quotation marks. *)
Definition uri_char (c : ascii) : bool :=
  negb (is_space c || is_char 60 c || is_char 62 c || is_char 34 c || is_char 39 c).

Fixpoint after_safe_scheme (schemes : list string) (l : list ascii) : option (list ascii) :=
  match schemes with
  | [] => None
  | s :: schemes' =>
      match match_ci (to_chars s ++ [chr 58]) l with
      | Some (c :: rest) =>
          if uri_char c then Some (drop_while uri_char rest)
          else after_safe_scheme schemes' l
      | _ => after_safe_scheme schemes' l
      end
  end.

(** What remains after a [_SAFE_NONLOCAL_URI] match at this position, if any. *)
Definition SAFE_NONLOCAL_URI (prev : option ascii) (l : list ascii) : option (list ascii) :=
  if prev_not_in scheme_char prev then after_safe_scheme SAFE_SCHEMES l else None.

(** [_SAFE_NONLOCAL_URI.sub("", value)]: matches are removed from the left.  A
    match consumes at least one character, so the length of the text is enough
    fuel.  The character before the remaining text is the last of the match. *)
Fixpoint strip_safe_uris (fuel : nat) (prev : option ascii) (l : list ascii) : list ascii :=
  match fuel with
  | O => l
  | S fuel' =>
      match l with
      | [] => []
      | c :: l' =>
          match SAFE_NONLOCAL_URI prev l with
          | Some rest =>
              strip_safe_uris fuel' (last (take (length l - length rest) l)) rest
          | None => c :: strip_safe_uris fuel' (Some c) l'
          end
      end
  end.

Definition POSIX_ROOTED_PATH (prev : option ascii) (l : list ascii) : bool :=
  prev_not_in (fun c => is_char 47 c || is_alnum c || is_char 46 c) prev &&
  match l with
  | c :: l' => is_char 47 c && not_space_next l'
  | [] => false
  end.

Definition contains_absolute_local_path (value : string) : bool :=
  let l := to_chars value in
  search FILE_URI None l
  || search LOCAL_DATABASE_URI None l
  || search WINDOWS_DRIVE_PATH None l
  || search WINDOWS_UNC_PATH None l
  || search POSIX_ROOTED_PATH None (strip_safe_uris (length l) None l).

Definition contains_worker_credential (value : string) : bool :=
  str_contains "swb_w1." (lower value).

Definition credential_message : string := "text must not contain a worker credential".
Definition local_path_message : string := "text must not contain an absolute local path".

Definition validate_no_absolute_local_path (value : string) : Result string string :=
  if contains_worker_credential value then Err credential_message
  else if contains_absolute_local_path value then Err local_path_message
  else Ok value.

Definition validate_optional_no_absolute_local_path (value : option string)
    : Result string (option string) :=
  match value with
  | None => Ok None
  | Some v =>
      match validate_no_absolute_local_path v with
      | Ok v' => Ok (Some v')
      | Err e => Err e
      end
  end.

(** Every string of a JSON-like value, keys included, in traversal order. *)
Fixpoint validate_no_absolute_local_paths (value : Json) : Result string unit :=
  match value with
  | JStr s => match validate_no_absolute_local_path s with Ok _ => Ok tt | Err e => Err e end
  | JObj fields =>
      (fix go (fields : list (string * Json)) : Result string unit :=
         match fields with
         | [] => Ok tt
         | (key, nested) :: fields' =>
             match validate_no_absolute_local_path key with
             | Err e => Err e
             | Ok _ =>
                 match validate_no_absolute_local_paths nested with
                 | Err e => Err e
                 | Ok _ => go fields'
                 end
             end
         end) fields
  | JList l =>
      (fix go (l : list Json) : Result string unit :=
         match l with
         | [] => Ok tt
         | nested :: l' =>
             match validate_no_absolute_local_paths nested with
             | Err e => Err e
             | Ok _ => go l'
             end
         end) l
  | _ => Ok tt
  end.

(** ** The fuel is enough *)

Lemma match_ci_length p l rest : match_ci p l = Some rest -> length l = (length p + length rest)%nat.
Proof.
  revert l. induction p as [|a p IH]; intros [|b l]; simpl; try naive_solver.
  case_bool_decide; [|done]. intros ?%IH. lia.
Qed.

Lemma drop_while_length p l : (length (drop_while p l) <= length l)%nat.
Proof. induction l as [|c l IH]; simpl; [done|]. destruct (p c); simpl; lia. Qed.

Lemma after_safe_scheme_length schemes l rest :
  after_safe_scheme schemes l = Some rest -> (length rest < length l)%nat.
Proof.
  induction schemes as [|s schemes IH]; simpl; [done|].
  destruct (match_ci _ l) as [[|c tail]|] eqn:Hm; [done| |done].
  destruct (uri_char c); [|done]. intros [= <-]. apply match_ci_length in Hm.
  pose proof (drop_while_length uri_char tail). simpl in Hm. lia.
Qed.

(** More fuel than the text is long changes nothing. *)
Lemma strip_fuel_enough n prev l :
  (length l <= n)%nat -> strip_safe_uris n prev l = strip_safe_uris (length l) prev l.
Proof.
  revert prev l. induction n as [n IH] using lt_wf_ind. intros prev l Hn.
  destruct n as [|n], l as [|c l]; simpl in *; try done; [lia|].
  destruct (SAFE_NONLOCAL_URI prev (c :: l)) as [rest|] eqn:Hm.
  - unfold SAFE_NONLOCAL_URI in Hm. destruct (prev_not_in _ _); [|done].
    apply after_safe_scheme_length in Hm. simpl in Hm.
    rewrite (IH n), (IH (length l)) by lia. done.
  - f_equal. apply IH; lia.
Qed.

(** ** What acceptance means *)

(** [s] occurs in [j], as a key or as a string value at any depth. *)
Inductive occurs (s : string) : Json -> Prop :=
| occurs_str : occurs s (JStr s)
| occurs_list l j : j ∈ l -> occurs s j -> occurs s (JList l)
| occurs_key fields v : (s, v) ∈ fields -> occurs s (JObj fields)
| occurs_value fields k v : (k, v) ∈ fields -> occurs s v -> occurs s (JObj fields).

Lemma validate_path_ok s r :
  validate_no_absolute_local_path s = Ok r ->
  contains_worker_credential s = false /\ contains_absolute_local_path s = false.
Proof.
  unfold validate_no_absolute_local_path.
  destruct (contains_worker_credential s); [done|].
  by destruct (contains_absolute_local_path s).
Qed.

Lemma validate_list_ok l j :
  validate_no_absolute_local_paths (JList l) = Ok tt -> j ∈ l ->
  validate_no_absolute_local_paths j = Ok tt.
Proof.
  induction l as [|x l IH]; simpl; [intros _ Hin; by apply not_elem_of_nil in Hin|].
  destruct (validate_no_absolute_local_paths x) as [[]|] eqn:Hx; [|done].
  intros Hgo Hin. apply elem_of_cons in Hin as [->|Hin]; [done|]. by apply IH.
Qed.

Lemma validate_obj_ok fields k v :
  validate_no_absolute_local_paths (JObj fields) = Ok tt -> (k, v) ∈ fields ->
  (exists r, validate_no_absolute_local_path k = Ok r) /\
  validate_no_absolute_local_paths v = Ok tt.
Proof.
  induction fields as [|[k' v'] fields IH]; simpl;
    [intros _ Hin; by apply not_elem_of_nil in Hin|].
  destruct (validate_no_absolute_local_path k') as [r|] eqn:Hk; [|done].
  destruct (validate_no_absolute_local_paths v') as [[]|] eqn:Hv; [|done].
  intros Hgo Hin. apply elem_of_cons in Hin as [[= -> ->]|Hin]; [eauto|]. by apply IH.
Qed.

(** A JSON document accepted by the text policy contains, in no key and no string
    at any depth, a worker credential or an absolute local path. *)
Theorem validate_paths_occurs j s :
  validate_no_absolute_local_paths j = Ok tt -> occurs s j ->
  contains_worker_credential s = false /\ contains_absolute_local_path s = false.
Proof.
  intros Hv Hs. induction Hs as [|l j Hin Hs IH|fields v Hin|fields k v Hin Hs IH].
  - simpl in Hv. destruct (validate_no_absolute_local_path s) eqn:H; [|done].
    by eapply validate_path_ok.
  - by eapply IH, validate_list_ok.
  - destruct (validate_obj_ok _ _ _ Hv Hin) as [[r Hr] _]. by eapply validate_path_ok.
  - by eapply IH, validate_obj_ok.
Qed.

Example local_paths :
  map contains_absolute_local_path
    ["/tmp"; "retained at /var/log"; "1 / 2"; "docs/a.md"; "./a"; "https://h/p";
     "C:\x"; "see file:a"; "sqlite+aiosqlite:///x"; "\\host\x"; "\\ "; "https:///etc"] =
  [true; true; false; false; false; false; true; true; true; true; false; false].
Proof. vm_compute. reflexivity. Qed.
