(* ===== verification/Checks.v ===== *)
(** * Checked construction

    Pure code that raises: [Result] as an exception monad, the guard
    [if condition: raise ValueError(message)], and the regular-expression shape
    most identities of the source have.  Shared by the files that model
    constructors ([__post_init__]), parsers and renderers. *)

From S2P Require Import Prelude Text.

#[global] Instance Result_ret E : MRet (Result E) := fun A a => Ok a.
#[global] Instance Result_bind E : MBind (Result E) := fun A B k m =>
  match m with Ok a => k a | Err e => Err e end.

(** [if condition: raise e] *)
Definition reject_if {E} (condition : bool) (e : E) : Result E unit :=
  if condition then Err e else Ok tt.

(** The check of every element of a sequence, the first failure raising. *)
Fixpoint check_all {E A} (f : A -> Result E unit) (l : list A) : Result E unit :=
  match l with
  | [] => Ok tt
  | x :: l' => _ ← f x; check_all f l'
  end.

(** A comprehension whose element may raise. *)
Fixpoint map_result {E A B} (f : A -> Result E B) (l : list A) : Result E (list B) :=
  match l with
  | [] => Ok []
  | x :: l' => y ← f x; ys ← map_result f l'; Ok (y :: ys)
  end.

(** [len(set(l)) == len(l)] *)
Definition unique {A} `{EqDecision A} (l : list A) : bool := bool_decide (NoDup l).

(** [set(l).issubset(allowed)] *)
Definition subset_of (l allowed : list string) : bool := forallb (fun x => bool_decide (x ∈ allowed)) l.

Lemma unique_NoDup {A} `{EqDecision A} (l : list A) : unique l = true <-> NoDup l.
Proof. apply bool_decide_eq_true. Qed.

Section facts.
Context {E : Type}.

Lemma reject_if_ok b (e : E) u : reject_if b e = Ok u <-> b = false.
Proof. destruct b, u; simpl; split; congruence. Qed.

Lemma result_bind_ok {A B} (m : Result E A) (k : A -> Result E B) b :
  (m ≫= k) = Ok b <-> exists a, m = Ok a /\ k a = Ok b.
Proof.
  split.
  - destruct m as [a|e]; simpl; [eauto|done].
  - by intros (a & -> & ?).
Qed.

Lemma check_all_ok {A} (f : A -> Result E unit) l u :
  check_all f l = Ok u <-> Forall (fun x => f x = Ok tt) l.
Proof.
  destruct u. induction l as [|x l IH]; [by split|]. cbn [check_all].
  rewrite result_bind_ok, Forall_cons, <-IH. split.
  - intros ([] & ? & ?). auto.
  - intros [? ?]. eauto.
Qed.

Lemma map_result_Forall2 {A B} (f : A -> Result E B) l l' :
  map_result f l = Ok l' <-> Forall2 (fun x y => f x = Ok y) l l'.
Proof.
  revert l'. induction l as [|x l IH]; intros l'; cbn [map_result].
  - split; [by intros [= <-]|]. intros H. by inversion H.
  - rewrite result_bind_ok. setoid_rewrite result_bind_ok. split.
    + intros (y & Hy & ys & Hys & [= <-]). constructor; [done|]. by apply IH.
    + intros H. inversion H as [|? y ? ys Hy Hys]; subst. apply IH in Hys. eauto.
Qed.

(** An element function that succeeds exactly under [p], with value [g]. *)
Lemma map_result_iff {A B} (f : A -> Result E B) (p : A -> bool) (g : A -> B) l ys :
  Forall (fun x => forall y, f x = Ok y <-> p x = true /\ y = g x) l ->
  map_result f l = Ok ys <-> forallb p l = true /\ ys = map g l.
Proof.
  intros Hl. rewrite map_result_Forall2. revert ys. induction Hl as [|x l Hx _ IH]; intros ys; cbn.
  - split; [by intros ->%Forall2_nil_inv_l|]. by intros [_ ->].
  - split.
    + intros (y & ys' & Hy & Hys & ->)%Forall2_cons_inv_l. apply Hx in Hy as [-> ->].
      by apply IH in Hys as [-> ->].
    + intros [[Hp Hps]%andb_true_iff ->]. constructor; [by apply Hx|by apply IH].
Qed.

(** When the element function cannot fail, neither can the comprehension. *)
Lemma map_result_total {A B} (f : A -> Result E B) (g : A -> B) l :
  Forall (fun x => f x = Ok (g x)) l -> map_result f l = Ok (map g l).
Proof. induction 1 as [|x l Hx _ IH]; [done|]. cbn [map_result]. by rewrite Hx, IH. Qed.
End facts.

(** ** Booleans *)

Lemma existsb_negb {A} (f : A -> bool) l : existsb f l = negb (forallb (fun x => negb (f x)) l).
Proof. induction l as [|x l IH]; [done|]. cbn. rewrite IH. by destruct (f x). Qed.

Lemma existsb_false {A} (f : A -> bool) l : existsb f l = false <-> Forall (fun x => f x = false) l.
Proof.
  induction l as [|x l IH]; [by split|]. cbn. rewrite orb_false_iff, Forall_cons. by rewrite IH.
Qed.

Lemma forallb_Forall {A} (f : A -> bool) l : forallb f l = true <-> Forall (fun x => f x = true) l.
Proof.
  induction l as [|x l IH]; [by split|]. cbn. rewrite andb_true_iff, Forall_cons. by rewrite IH.
Qed.

Lemma if_false {A} (b : bool) (x y : A) : b = false -> (if b then x else y) = y.
Proof. by intros ->. Qed.

(** [inv_ok H] splits a successful run of checks into one hypothesis per check. *)
Ltac inv_ok H :=
  lazymatch type of H with
  | (_ ≫= _) = Ok _ =>
      let a := fresh "u" in let Ha := fresh "Hok" in
      apply result_bind_ok in H as (a & Ha & H);
      lazymatch type of a with unit => destruct a | _ => idtac end; inv_ok Ha; inv_ok H
  | reject_if _ _ = Ok _ => apply reject_if_ok in H; try inv_bool H
  | check_all _ _ = Ok _ => apply check_all_ok in H
  | Err _ = Ok _ => discriminate H
  | Ok _ = Ok _ => first [injection H as ?; subst | idtac]
  | _ => idtac
  end
with inv_bool H :=
  lazymatch type of H with
  | _ || _ = false =>
      let H1 := fresh "Hb" in apply orb_false_iff in H as [H1 H]; inv_bool H1; inv_bool H
  | negb _ = false => apply negb_false_iff in H; inv_bool H
  | _ && _ = true =>
      let H1 := fresh "Hb" in apply andb_true_iff in H as [H1 H]; inv_bool H1; inv_bool H
  | unique _ = true => apply unique_NoDup in H
  | bool_decide _ = true => apply bool_decide_eq_true in H
  | bool_decide _ = false => apply bool_decide_eq_false in H
  | (_ <=? _) = true => apply Z.leb_le in H
  | (_ <=? _) = false => apply Z.leb_gt in H
  | (_ <? _) = true => apply Z.ltb_lt in H
  | (_ <? _) = false => apply Z.ltb_ge in H
  | (_ =? _) = true => apply Z.eqb_eq in H
  | (_ =? _) = false => apply Z.eqb_neq in H
  | _ => idtac
  end.

(** Solves a goal that is a run of checks each of which is known to pass. *)
Ltac run_checks :=
  repeat first
    [ apply result_bind_ok; eexists; split
    | apply reject_if_ok; repeat (rewrite orb_false_iff; split) ].

(** [sep.join(s.split(sep))] is [s]. *)
Lemma join_split c l : join (String c EmptyString) (map of_chars (split_on c l)) = of_chars l.
Proof.
  induction l as [|x l IH]; [done|]. cbn [split_on].
  pose proof (split_on_not_nil c l) as Hne. destruct (decide (x = c)) as [->|Hx].
  - rewrite bool_decide_eq_true_2 by done. destruct (split_on c l) as [|p ps]; [done|].
    cbn [map join of_chars] in *. by rewrite <-IH.
  - rewrite bool_decide_eq_false_2 by done. destruct (split_on c l) as [|p ps]; [done|].
    cbn [map of_chars] in *. rewrite <-IH. by destruct (map of_chars ps).
Qed.

(** [re.fullmatch(r"[first][rest]{lo,hi}", s)] *)
Definition pattern (first rest : ascii -> bool) (lo hi : Z) (s : string) : bool :=
  match to_chars s with
  | c :: l => first c && (lo <=? Z.of_nat (length l)) && (Z.of_nat (length l) <=? hi) && forallb rest l
  | [] => false
  end.

Lemma to_chars_length s : Z.of_nat (length (to_chars s)) = str_length s.
Proof. unfold str_length. induction s; simpl; lia. Qed.

Lemma pattern_length first rest lo hi s :
  pattern first rest lo hi s = true -> lo + 1 <= str_length s <= hi + 1.
Proof.
  unfold pattern. rewrite <-to_chars_length. destruct (to_chars s) as [|c l]; [done|].
  intros H. inv_bool H. simpl. lia.
Qed.

Lemma pattern_not_empty first rest lo hi s : pattern first rest lo hi s = true -> s <> "".
Proof. by destruct s. Qed.

Lemma pattern_zero first rest hi s :
  pattern first rest 0 hi s =
  match to_chars s with
  | c :: l => first c && (Z.of_nat (length l) <=? hi) && forallb rest l
  | [] => false
  end.
Proof.
  unfold pattern. destruct (to_chars s) as [|c l]; [done|].
  replace (0 <=? Z.of_nat (length l)) with true by (symmetry; apply Z.leb_le; lia).
  by rewrite andb_true_r.
Qed.

(** Every character of a match belongs to one of the two classes. *)
Lemma pattern_chars first rest lo hi s (p : ascii -> bool) :
  (forall c, first c = true -> p c = true) -> (forall c, rest c = true -> p c = true) ->
  pattern first rest lo hi s = true -> all_chars p s = true.
Proof.
  unfold pattern, all_chars. intros Hf Hr. destruct (to_chars s) as [|c l]; [done|].
  intros H. inv_bool H. simpl. rewrite Hf by done. simpl.
  apply forallb_forall. intros x Hx. apply Hr. by eapply forallb_forall in H.
Qed.
