(* ===== verification/Catalog.v ===== *)
(** * The repository-to-manifest trust catalog

    [server/execution/catalog.py]: repository identities, the manifests reviewed
    for each repository, the construction checks of a catalog entry, the check of
    the whole catalog against the manifest registry, and its lookups. *)

From S2P Require Import Prelude Text.

(** ** Identity patterns *)

Definition repo_char (c : ascii) : bool :=
  is_alnum c || (ord c =? 95) || (ord c =? 46) || (ord c =? 45).

Definition segment_ok (p : list ascii) : bool :=
  (1 <=? Z.of_nat (length p)) && (Z.of_nat (length p) <=? 100) && forallb repo_char p.

(** [_REPOSITORY_PATTERN]: two segments around one slash; no segment character is
    a slash, so the split is the only way to match. *)
Definition REPOSITORY_PATTERN (value : string) : bool :=
  match split_on (chr 47) (to_chars value) with
  | [owner; repository] => segment_ok owner && segment_ok repository
  | _ => false
  end.

Definition dot_segment (p : list ascii) : bool :=
  bool_decide (p = to_chars ".") || bool_decide (p = to_chars "..").

Definition validate_repository_full_name (value : string) : Result string string :=
  if negb (REPOSITORY_PATTERN value) then Err "repository full_name is invalid"
  else if existsb dot_segment (split_on (chr 47) (to_chars value))
  then Err "repository full_name contains a dot segment"
  else Ok value.

Definition slug_char (c : ascii) : bool := is_digit c || is_lower c || (ord c =? 45).

(** [^[a-z0-9][a-z0-9-]{0,127}$] *)
Definition IDENTITY_PATTERN (s : string) : bool :=
  match to_chars s with
  | c :: l => (is_digit c || is_lower c) && (Z.of_nat (length l) <=? 127) && forallb slug_char l
  | [] => false
  end.

(** [^[A-Za-z0-9][A-Za-z0-9_.-]{0,63}$] *)
Definition VERSION_PATTERN (s : string) : bool :=
  match to_chars s with
  | c :: l => is_alnum c && (Z.of_nat (length l) <=? 63) && forallb repo_char l
  | [] => false
  end.

(** ** Catalog entries *)

Record TrustedManifestReference := { ref_name : string; ref_version : string }.

#[global] Instance TrustedManifestReference_dec : EqDecision TrustedManifestReference.
Proof. solve_decision. Defined.

(** [TrustedManifestReference(name, version)]: construction runs [__post_init__]. *)
Definition make_reference (name version : string) : Result string TrustedManifestReference :=
  if IDENTITY_PATTERN name && VERSION_PATTERN version
  then Ok {| ref_name := name; ref_version := version |}
  else Err "trusted manifest reference identity is invalid".

Record TrustedRepository := {
  repo_full_name : string;
  repo_display_name : string;
  repo_description : string;
  repo_support_status : string;
  repo_documentation_reference : string;
  repo_manifests : list TrustedManifestReference;
  repo_default_manifest : TrustedManifestReference;
}.

Definition ends_with (p s : list ascii) : bool := starts_with (reverse p) (reverse s).

(** [TrustedRepository.__post_init__] *)
Definition check_repository (r : TrustedRepository) : Result string unit :=
  match validate_repository_full_name (repo_full_name r) with
  | Err e => Err e
  | Ok _ =>
      let doc := to_chars (repo_documentation_reference r) in
      if negb ((1 <=? str_length (repo_display_name r)) && (str_length (repo_display_name r) <=? 120))
      then Err "trusted repository display_name is invalid"
      else if negb ((1 <=? str_length (repo_description r)) && (str_length (repo_description r) <=? 500))
      then Err "trusted repository description is invalid"
      else if negb (bool_decide (repo_support_status r = "developer_preview"))
      then Err "trusted repository support status is invalid"
      else if negb (starts_with (to_chars "docs/") doc)
              || negb (ends_with (to_chars ".md") doc)
              || (255 <? str_length (repo_documentation_reference r))
              || bool_decide (to_chars ".." ∈ split_on (chr 47) doc)
      then Err "trusted repository documentation reference is invalid"
      else if negb ((1 <=? Z.of_nat (length (repo_manifests r)))
                    && (Z.of_nat (length (repo_manifests r)) <=? 32))
      then Err "trusted repository manifest count is invalid"
      else if negb (bool_decide (NoDup (repo_manifests r)))
      then Err "trusted repository manifests must be unique"
      else if negb (bool_decide (repo_default_manifest r ∈ repo_manifests r))
      then Err "trusted repository default manifest is not allowed"
      else Ok tt
  end.

(** ** The catalog *)

(** The loop over the catalog entries at the end of [validate_catalog]. *)
Fixpoint check_entries (identities : list (string * string))
    (repositories : list TrustedRepository) : Result string unit :=
  match repositories with
  | [] => Ok tt
  | r :: rest =>
      if negb (bool_decide (repo_default_manifest r ∈ repo_manifests r))
      then Err "trusted repository default manifest is not allowed"
      else if negb (forallb (fun m => bool_decide ((ref_name m, ref_version m) ∈ identities))
                      (repo_manifests r))
      then Err "trusted repository references an unknown manifest"
      else check_entries identities rest
  end.

(** [validate_catalog]: names unique up to case, every reference known.  The
    [is_public_catalog] flag and the public names are arguments, as the source
    compares identity with its own module constant. *)
Definition validate_catalog (is_public_catalog : bool) (public_names : list string)
    (identities : list (string * string)) (repositories : list TrustedRepository)
    : Result string unit :=
  if negb (bool_decide (NoDup identities))
  then Err "trusted manifest identities must be unique"
  else if negb (bool_decide (NoDup (map (fun r => lower (repo_full_name r)) repositories)))
  then Err "trusted repository identities must be unique"
  else if is_public_catalog &&
          (negb (Nat.eqb (length repositories) 4)
           || negb (forallb (fun r => bool_decide (repo_full_name r ∈ public_names)) repositories
                    && forallb (fun n => bool_decide (n ∈ map repo_full_name repositories)) public_names))
  then Err "public trusted catalog must contain exactly four repositories"
  else check_entries identities repositories.

Section lookups.
(** [_TRUSTED_REPOSITORIES] *)
Variable repositories : list TrustedRepository.

Definition TRUSTED_REPOSITORIES : list string := map repo_full_name repositories.

Definition get_trusted_repository (name : string) : option TrustedRepository :=
  head (filter (fun r => repo_full_name r = name) repositories).

(** A reference whose construction fails raises [ValueError]. *)
Definition repository_allows_manifest (repo name version : string) : Result string bool :=
  match get_trusted_repository repo with
  | None => Ok false
  | Some r =>
      match make_reference name version with
      | Err e => Err e
      | Ok m => Ok (bool_decide (m ∈ repo_manifests r))
      end
  end.
End lookups.

(** ** Facts *)

Lemma get_trusted_repository_Some repos name r :
  get_trusted_repository repos name = Some r -> r ∈ repos /\ repo_full_name r = name.
Proof.
  unfold get_trusted_repository. intros Hh%head_Some_elem_of.
  apply list_elem_of_filter in Hh as [? ?]. auto.
Qed.

Lemma repository_allows_manifest_true repos repo name version :
  repository_allows_manifest repos repo name version = Ok true ->
  exists r, r ∈ repos /\ repo_full_name r = repo /\
            {| ref_name := name; ref_version := version |} ∈ repo_manifests r.
Proof.
  unfold repository_allows_manifest.
  destruct (get_trusted_repository repos repo) as [r|] eqn:Hr; [|done].
  apply get_trusted_repository_Some in Hr as [Hin Hname].
  unfold make_reference. destruct (IDENTITY_PATTERN name && VERSION_PATTERN version); [|done].
  intros [= Hm]. apply bool_decide_eq_true in Hm. eauto.
Qed.

Lemma check_entries_resolves ids repos r m :
  check_entries ids repos = Ok tt -> r ∈ repos -> m ∈ repo_manifests r ->
  (ref_name m, ref_version m) ∈ ids.
Proof.
  intros Hc Hr Hm. induction repos as [|r' repos IH]; simpl in Hc;
    [by apply not_elem_of_nil in Hr|].
  destruct (bool_decide (repo_default_manifest r' ∈ repo_manifests r')); [|done].
  destruct (forallb _ _) eqn:Hall; [|done]. cbn [negb] in Hc.
  apply elem_of_cons in Hr as [->|Hr]; [|by apply IH].
  rewrite forallb_forall in Hall. specialize (Hall m).
  rewrite <-list_elem_of_In in Hall. by apply bool_decide_eq_true in Hall.
Qed.

(** In a validated catalog every manifest reference of every repository is one of
    the registered manifest identities. *)
Theorem validate_catalog_resolves pub names ids repos r m :
  validate_catalog pub names ids repos = Ok tt -> r ∈ repos -> m ∈ repo_manifests r ->
  (ref_name m, ref_version m) ∈ ids.
Proof.
  unfold validate_catalog.
  destruct (bool_decide (NoDup ids)); [|done]. cbn [negb].
  destruct (bool_decide (NoDup _)); [|done]. cbn [negb].
  destruct (pub && _); [done|]. apply check_entries_resolves.
Qed.
