(* ===== verification/Evidence.v ===== *)
(** * Compact evidence contracts

    [server/execution/evidence.py]: safe relative paths, the evidence documents
    with their validators, and the canonical hashes that identify an execution
    policy, a result contract and a reusable result.

    A timestamp is the number of microseconds since the epoch in UTC: a field
    validated by [_aware_utc] holds an aware time converted to UTC.  A float field
    holds its [repr] and the rational it denotes. *)

From Stdlib Require Import QArith.
From S2P Require Import Prelude Text Json TextPolicy Enums Catalog.
#[local] Open Scope Z_scope.

Definition MAX_EVIDENCE_STEPS : Z := 64.
Definition MAX_EVIDENCE_ARTIFACTS : Z := 128.
Definition MAX_EVIDENCE_PATH_LENGTH : Z := 512.
Definition MAX_INT64 : Z := 9223372036854775807.

(** ** Relative paths *)

Definition WINDOWS_DEVICES : list string :=
  ["aux"; "clock$"; "con"; "nul"; "prn";
   "com1"; "com2"; "com3"; "com4"; "com5"; "com6"; "com7"; "com8"; "com9";
   "lpt1"; "lpt2"; "lpt3"; "lpt4"; "lpt5"; "lpt6"; "lpt7"; "lpt8"; "lpt9"].

(** [PurePosixPath(value).parts] of a path that is not absolute: empty and "."
    components are dropped. *)
Definition posix_parts (value : string) : list string :=
  filter (fun p => p <> "" /\ p <> ".")
    (map of_chars (split_on (chr 47) (to_chars value))).

(** [PurePosixPath(value).as_posix()] *)
Definition as_posix (value : string) : string :=
  match posix_parts value with
  | [] => "."
  | parts => join "/" parts
  end.

(** [part.rstrip(". ")] *)
Definition rstrip_dots (p : string) : string :=
  of_chars (reverse (drop_while (fun c => (ord c =? 46) || (ord c =? 32)) (reverse (to_chars p)))).

Definition validate_relative_path (value : string) : Result string string :=
  if bool_decide (value = "")
     || (MAX_EVIDENCE_PATH_LENGTH <? str_length value)
     || existsb (fun c => (ord c =? 0) || (ord c =? 92)) (to_chars value)
  then Err "evidence path must be a bounded relative POSIX path"
  else if existsb (fun c => ord c =? 58) (to_chars value)
          || starts_with [chr 47] (to_chars value)
  then Err "evidence path must not be absolute or device-shaped"
  else if negb (bool_decide (as_posix value = value))
  then Err "evidence path must be normalized"
  else if existsb (fun p => bool_decide (p ∈ [""; "."; ".."])) (posix_parts value)
  then Err "evidence path must not traverse"
  else if existsb (fun p => bool_decide (lower (rstrip_dots p) ∈ WINDOWS_DEVICES))
            (posix_parts value)
  then Err "evidence path must not name a device"
  else Ok value.

(** ** Documents *)

(** A finite float: the [repr] that serialization writes and the value that bounds
    are checked on. *)
Record PyFloat := { fl_repr : string; fl_value : Q }.

Record ToolIdentity := { tool_name : string; tool_version : string }.

Record EnvironmentIdentity := {
  env_operating_system : string;
  env_architecture : string;
  env_python_version : string;
  env_tools : list ToolIdentity;
  env_fingerprint : string;
}.

Record ParsedTestCounts := {
  tc_passed : Z; tc_failed : Z; tc_skipped : Z; tc_errors : Z;
  tc_xfailed : Z; tc_xpassed : Z; tc_total : Z;
}.

Record ParsedCoverage := {
  cov_measured_percent : PyFloat;
  cov_covered_lines : option Z;
  cov_total_lines : option Z;
}.

Inductive AuditKind := AUDIT_SECURITY | AUDIT_DEPENDENCY | AUDIT_QUALITY.

Record AuditSummary := {
  audit_kind : AuditKind; audit_passed : bool; audit_tool : string; audit_findings : Z;
}.

Inductive ParserKind :=
| P_PYTEST | P_COVERAGE | P_PYTEST_COVERAGE | P_SECURITY_AUDIT | P_DEPENDENCY_AUDIT
| P_DEPENDENCY_HEALTH | P_CRITICAL_COVERAGE | P_SECRET_SCAN | P_QUALITY_SUMMARY_V1.

Record ParsedResult := {
  pr_parser : ParserKind;
  pr_parsed : bool;  (** [status == "parsed"] as opposed to ["parser_failed"] *)
  pr_tests : option ParsedTestCounts;
  pr_coverage : option ParsedCoverage;
  pr_audit : option AuditSummary;
  pr_failure_reason : option string;
}.

Record ArtifactRecord := {
  art_kind : string;
  art_relative_path : string;
  art_size_bytes : Z;
  art_sha256 : string;
  art_media_type : string;
  art_retention_expires_at : Z;
  art_redaction_state : string;
  art_produced_by_step : option string;
}.

Record DependencyLockHash := { lock_relative_path : string; lock_sha256 : string }.

Record EvidenceReuseIdentity := {
  id_repository_full_name : string;
  id_tested_sha : string;
  id_manifest_name : string;
  id_manifest_version : string;
  id_manifest_digest : string;
  id_worker_environment_fingerprint : string;
  id_dependency_lock_hashes : list DependencyLockHash;
  id_execution_policy_hash : string;
  id_result_contract_hash : string;
}.

Record EvidenceReuseProvenance := {
  prov_decision : string;
  prov_reason : string;
  prov_reuse_identity_hash : string;
  prov_source_run_id : option Z;
  prov_source_evidence_fingerprint : option string;
}.

Record ReuseCandidate := {
  cand_source_run_id : Z;
  cand_expected_source_worker_id : string;
  cand_expected_source_evidence_fingerprint : string;
  cand_reuse_identity : EvidenceReuseIdentity;
  cand_reuse_identity_hash : string;
  cand_source_created_at : Z;
  cand_retention_expires_at : Z;
  cand_artifacts : list ArtifactRecord;
}.

Record StepEvidence := {
  step_id : string;
  step_title : string;
  step_status : string;
  step_started_at : Z;
  step_finished_at : Z;
  step_duration_seconds : PyFloat;
  step_exit_code : option Z;
  step_terminal_reason : option string;
  step_summary : string;
  step_summary_truncated : bool;
  step_log_artifact_paths : list string;
  step_parsed_result : option ParsedResult;
}.

Record ExecutionEvidence := {
  ev_work_order_id : Z;
  ev_run_id : Z;
  ev_repository_full_name : string;
  ev_tested_sha : string;
  ev_manifest_name : string;
  ev_manifest_version : string;
  ev_manifest_digest : string;
  ev_worker_id : string;
  ev_environment : EnvironmentIdentity;
  ev_dependency_lock_hashes : list DependencyLockHash;
  ev_started_at : Z;
  ev_finished_at : Z;
  ev_duration_seconds : PyFloat;
  ev_terminal_status : string;
  ev_terminal_reason : option string;
  ev_failing_step : option string;
  ev_steps : list StepEvidence;
  ev_artifacts : list ArtifactRecord;
  ev_dependency_lock_status : string;
  ev_artifact_finalization_status : string;
  ev_source_cleanup_status : string;
  ev_local_record_status : string;
  ev_reuse_provenance : option EvidenceReuseProvenance;
  ev_fingerprint : string;
}.

#[global] Instance ArtifactRecord_dec : EqDecision ArtifactRecord.
Proof. solve_decision. Defined.
#[global] Instance DependencyLockHash_dec : EqDecision DependencyLockHash.
Proof. solve_decision. Defined.
#[global] Instance EvidenceReuseIdentity_dec : EqDecision EvidenceReuseIdentity.
Proof. solve_decision. Defined.
#[global] Instance AuditKind_dec : EqDecision AuditKind.
Proof. solve_decision. Defined.
#[global] Instance ParserKind_dec : EqDecision ParserKind.
Proof. solve_decision. Defined.

(** ** Field patterns *)

Definition SHA256 (s : string) : bool := exactly 64 is_hex_lower s.
Definition COMMIT_SHA (s : string) : bool := exactly 40 is_hex_lower s.
Definition len_between (lo hi : Z) (s : string) : bool :=
  (lo <=? str_length s) && (str_length s <=? hi).
Definition int_between (lo hi z : Z) : bool := (lo <=? z) && (z <=? hi).
Definition opt_all {A} (p : A -> bool) (o : option A) : bool :=
  match o with Some a => p a | None => true end.
Definition isSome {A} (o : option A) : bool :=
  match o with Some _ => true | None => false end.

(** ** Document validators *)

(** [ParsedTestCounts]: field bounds and [validate_total]. *)
Definition valid_test_counts (t : ParsedTestCounts) : bool :=
  forallb (int_between 0 10000000)
    [tc_passed t; tc_failed t; tc_skipped t; tc_errors t; tc_xfailed t; tc_xpassed t; tc_total t]
  && (tc_total t =? tc_passed t + tc_failed t + tc_skipped t + tc_errors t
                    + tc_xfailed t + tc_xpassed t).

(** [ParsedCoverage]: line bounds and [validate_line_pair]. *)
Definition valid_coverage_lines (c : ParsedCoverage) : bool :=
  opt_all (int_between 0 1000000000) (cov_covered_lines c)
  && opt_all (int_between 0 1000000000) (cov_total_lines c)
  && match cov_covered_lines c, cov_total_lines c with
     | Some covered, Some total => covered <=? total
     | None, None => true
     | _, _ => false
     end.

(** [ParsedResult.validate_shape] *)
Definition valid_parsed_shape (r : ParsedResult) : bool :=
  let tests := isSome (pr_tests r) in
  let coverage := isSome (pr_coverage r) in
  let audit := isSome (pr_audit r) in
  let reason_text := match pr_failure_reason r with Some s => negb (bool_decide (s = "")) | None => false end in
  if negb (pr_parsed r) then negb (tests || coverage || audit) && reason_text
  else
    negb (isSome (pr_failure_reason r)) && (tests || coverage || audit) &&
    match pr_parser r with
    | P_PYTEST => tests && negb coverage && negb audit
    | P_COVERAGE => coverage && negb tests && negb audit
    | P_PYTEST_COVERAGE => tests && coverage && negb audit
    | P_SECURITY_AUDIT | P_DEPENDENCY_AUDIT | P_DEPENDENCY_HEALTH | P_CRITICAL_COVERAGE
    | P_SECRET_SCAN => audit && negb tests && negb coverage
    | P_QUALITY_SUMMARY_V1 =>
        negb tests && coverage &&
        match pr_audit r with
        | Some a => bool_decide (audit_kind a = AUDIT_QUALITY)
                    && bool_decide (audit_tool a = "quality-gate")
        | None => false
        end
    end.

(** [EvidenceReuseIdentity]: patterns and [validate_canonical_identity]. *)
Definition valid_reuse_identity (i : EvidenceReuseIdentity) : bool :=
  let paths := map lock_relative_path (id_dependency_lock_hashes i) in
  len_between 3 255 (id_repository_full_name i)
  && is_ok (validate_repository_full_name (id_repository_full_name i))
  && COMMIT_SHA (id_tested_sha i)
  && IDENTITY_PATTERN (id_manifest_name i)
  && len_between 1 64 (id_manifest_version i)
  && SHA256 (id_manifest_digest i)
  && SHA256 (id_worker_environment_fingerprint i)
  && (Z.of_nat (length paths) <=? 32)
  && SHA256 (id_execution_policy_hash i)
  && SHA256 (id_result_contract_hash i)
  && forallb (fun l => is_ok (validate_relative_path (lock_relative_path l)) && SHA256 (lock_sha256 l))
       (id_dependency_lock_hashes i)
  && bool_decide (sort_strings paths = paths) && bool_decide (NoDup paths).

(** [EvidenceReuseProvenance.validate_source_pair] *)
Definition valid_source_pair (p : EvidenceReuseProvenance) : bool :=
  let has_source := isSome (prov_source_run_id p) in
  Bool.eqb has_source (isSome (prov_source_evidence_fingerprint p))
  && Bool.eqb (bool_decide (prov_decision p = "reused")) has_source.

(** [ExecutionEvidenceDraft.validate_document] *)
Definition valid_document (e : ExecutionEvidence) : bool :=
  let step_ids := map step_id (ev_steps e) in
  let artifact_paths := map art_relative_path (ev_artifacts e) in
  (ev_started_at e <=? ev_finished_at e)
  && bool_decide (NoDup step_ids)
  && bool_decide (NoDup artifact_paths)
  && forallb (fun s => forallb (fun p => bool_decide (p ∈ artifact_paths))
                         (step_log_artifact_paths s)) (ev_steps e)
  && opt_all (fun f => bool_decide (f ∈ step_ids)) (ev_failing_step e).

(** ** Canonical hashes *)

Definition identity_json (i : EvidenceReuseIdentity) : Json :=
  JObj [("schema_version", JInt 1); ("policy_version", JInt 1);
        ("repository_full_name", JStr (id_repository_full_name i));
        ("tested_sha", JStr (id_tested_sha i));
        ("manifest_name", JStr (id_manifest_name i));
        ("manifest_version", JStr (id_manifest_version i));
        ("manifest_digest", JStr (id_manifest_digest i));
        ("worker_environment_fingerprint", JStr (id_worker_environment_fingerprint i));
        ("dependency_lock_hashes",
          JList (map (fun l => JObj [("relative_path", JStr (lock_relative_path l));
                                     ("sha256", JStr (lock_sha256 l))])
                   (id_dependency_lock_hashes i)));
        ("execution_policy_hash", JStr (id_execution_policy_hash i));
        ("result_contract_hash", JStr (id_result_contract_hash i))].

Definition canonical_reuse_identity_json (i : EvidenceReuseIdentity) : string :=
  dumps false (identity_json i).

Definition compute_reuse_identity_hash (i : EvidenceReuseIdentity) : string :=
  sha256_hex (canonical_reuse_identity_json i).

Definition canonical_payload_hash (payload : Json) : Result string string :=
  match validate_no_absolute_local_paths payload with
  | Err e => Err e
  | Ok _ => Ok (sha256_hex (dumps false payload))
  end.

Definition json_opt {A} (f : A -> Json) (o : option A) : Json :=
  match o with Some a => f a | None => JNull end.

Definition strings_json (l : list string) : Json := JList (map JStr l).

Definition execution_policy_payload (manifest_parameters required_capabilities : list (string * Json))
    (permitted_paths expected_artifact_kinds : list string) (timeout_seconds : Z)
    (network_policy : string) (repository_write_allowed : bool) (routing_policy : string)
    (maximum_cost_units : option Z) (required_quota_units : Z)
    (preferred_executor : option string) : Json :=
  JObj [("expected_artifact_kinds", strings_json (sort_strings expected_artifact_kinds));
        ("manifest_parameters", JObj manifest_parameters);
        ("network_policy", JStr network_policy);
        ("permitted_paths", strings_json (sort_strings permitted_paths));
        ("repository_write_allowed", JBool repository_write_allowed);
        ("required_capabilities", JObj required_capabilities);
        ("routing", JObj [("maximum_cost_units", json_opt JInt maximum_cost_units);
                          ("policy", JStr routing_policy);
                          ("preferred_executor", json_opt JStr preferred_executor);
                          ("required_quota_units", JInt required_quota_units);
                          ("schema_version", JInt 1)]);
        ("schema_version", JInt 2);
        ("timeout_seconds", JInt timeout_seconds)].

Definition compute_execution_policy_hash (manifest_parameters required_capabilities : list (string * Json))
    (permitted_paths expected_artifact_kinds : list string) (timeout_seconds : Z)
    (network_policy : string) (repository_write_allowed : bool) (routing_policy : string)
    (maximum_cost_units : option Z) (required_quota_units : Z)
    (preferred_executor : option string) : Result string string :=
  canonical_payload_hash
    (execution_policy_payload manifest_parameters required_capabilities permitted_paths
       expected_artifact_kinds timeout_seconds network_policy repository_write_allowed
       routing_policy maximum_cost_units required_quota_units preferred_executor).

Fixpoint validate_all_paths (paths : list string) : Result string (list string) :=
  match paths with
  | [] => Ok []
  | p :: paths' =>
      match validate_relative_path p with
      | Err e => Err e
      | Ok p' => match validate_all_paths paths' with Ok l => Ok (p' :: l) | Err e => Err e end
      end
  end.

Definition compute_result_contract_hash (fixed_step_metadata artifact_declarations : list Json)
    (dependency_lock_paths : list string) (result_contract : option (list (string * Json)))
    : Result string string :=
  match validate_all_paths dependency_lock_paths with
  | Err e => Err e
  | Ok normalized_paths =>
      canonical_payload_hash
        (JObj ([("artifact_declarations", JList artifact_declarations);
                ("dependency_lock_paths", strings_json (sort_strings normalized_paths));
                ("fixed_step_metadata", JList fixed_step_metadata);
                ("schema_version", JInt 1)]
               ++ match result_contract with
                  | Some c => [("result_contract", JObj c)]
                  | None => []
                  end))
  end.

(** [ReuseCandidate.validate_candidate] *)
Definition valid_candidate (c : ReuseCandidate) : bool :=
  (cand_source_created_at c <? cand_retention_expires_at c)
  && bool_decide (cand_reuse_identity_hash c = compute_reuse_identity_hash (cand_reuse_identity c))
  && bool_decide (NoDup (map art_relative_path (cand_artifacts c)))
  && forallb (fun a => art_retention_expires_at a =? cand_retention_expires_at c) (cand_artifacts c).

(** ** Safe relative paths *)

Lemma posix_parts_no_slash v : Forall (fun p => chr 47 ∉ to_chars p) (posix_parts v).
Proof.
  apply Forall_forall. intros p Hp. unfold posix_parts in Hp.
  apply list_elem_of_filter in Hp as [_ Hp]. apply list_elem_of_In, in_map_iff in Hp as (q & <- & Hq).
  rewrite to_of_chars. apply list_elem_of_In in Hq. by eapply split_on_no_sep.
Qed.

(** A normalized path is the list of its own components. *)
Lemma normalized_components v :
  as_posix v = v -> v <> "." ->
  map of_chars (split_on (chr 47) (to_chars v)) = posix_parts v.
Proof.
  unfold as_posix. destruct (posix_parts v) as [|p ps] eqn:Hp; [congruence|].
  intros Hv _. rewrite <-Hv at 1. apply split_join; [done|].
  rewrite <-Hp. apply posix_parts_no_slash.
Qed.

Lemma validate_relative_path_ok v r :
  validate_relative_path v = Ok r ->
  r = v /\ str_length v <= MAX_EVIDENCE_PATH_LENGTH /\ as_posix v = v /\
  existsb (fun c => (ord c =? 0) || (ord c =? 92)) (to_chars v) = false /\
  existsb (fun c => ord c =? 58) (to_chars v) = false /\
  starts_with [chr 47] (to_chars v) = false /\
  existsb (fun p => bool_decide (p ∈ [""; "."; ".."])) (posix_parts v) = false.
Proof.
  unfold validate_relative_path. intros Hr.
  repeat (case_match; [discriminate Hr|]). injection Hr as <-.
  repeat match goal with
  | H : _ || _ = false |- _ => apply orb_false_iff in H as [? ?]
  | H : negb _ = false |- _ => apply negb_false_iff, bool_decide_eq_true in H
  | H : (_ <? _) = false |- _ => apply Z.ltb_ge in H
  end.
  auto 10.
Qed.
