(* ===== verification/Floats.v ===== *)
(** * Python floats

    What the source uses of [float]: reading a decimal literal to the nearest IEEE
    binary64 value, ties to even, and writing it back with [repr], the shortest decimal that
    reads to the same value.  A finite value is an exact rational; a literal
    beyond the largest finite value has none. *)

From Stdlib Require Import QArith.
From S2P Require Import Prelude Text Evidence.
#[local] Open Scope Z_scope.

(** ** Rounding *)

(** The integer nearest to [n / d], ties to even ([0 <= n], [0 < d]). *)
Definition round_half_even (n d : Z) : Z :=
  let q := n / d in
  match Z.compare (2 * (n mod d)) d with
  | Lt => q
  | Gt => q + 1
  | Eq => if Z.even q then q else q + 1
  end.

(** [a * b ^ e] as a fraction, for any sign of [e]. *)
Definition scaled (n d b e : Z) : Z * Z :=
  if 0 <=? e then (n * b ^ e, d) else (n, d * b ^ (- e)).

(** The exponent of the unit in the last place of [n / d]. *)
Definition ulp_exponent (n d : Z) : Z :=
  let l := Z.log2 n - Z.log2 d in
  let '(n', d') := scaled n d 2 (- l) in
  Z.max (-1074) ((if d' <=? n' then l else l - 1) - 52).

(** The binary64 value nearest to [n / d]; [None] beyond the largest finite one. *)
Definition round64 (n d : Z) : option Q :=
  if n =? 0 then Some (inject_Z 0)
  else
    let e := ulp_exponent n d in
    let '(n', d') := scaled n d 2 (- e) in
    let m := round_half_even n' d' in
    if (971 <? e) || ((e =? 971) && (2 ^ 53 <=? m)) then None
    else let '(v, w) := scaled m 1 2 e in Some (Qred (v # Z.to_pos w)).

(** ** [repr] *)

(** The decimal exponent of a positive rational: [10^x <= n/d < 10^(x+1)]. *)
Fixpoint exponent10 (fuel : nat) (n d x : Z) : Z :=
  match fuel with
  | O => x
  | S fuel' =>
      let '(n', d') := scaled n d 10 (- x) in
      if n' <? d' then exponent10 fuel' n d (x - 1)
      else if 10 * d' <=? n' then exponent10 fuel' n d (x + 1)
      else x
  end.

(** The shortest digit string that reads back to [q], with the exponent of its
    first digit: [k] significant digits are tried from 1 to 17. *)
Fixpoint shortest (tries : nat) (k : Z) (q : Q) (x : Z) : Z * Z * Z :=
  let n := Qnum q in
  let d := Z.pos (Qden q) in
  let '(n', d') := scaled n d 10 (k - 1 - x) in
  let m := round_half_even n' d' in
  match tries with
  | O => (m, k, x)
  | S tries' =>
      let '(v, w) := scaled m 1 10 (x - (k - 1)) in
      match round64 v w with
      | Some r => if Qeq_bool r q then (m, k, x) else shortest tries' (k + 1) q x
      | None => shortest tries' (k + 1) q x
      end
  end.

Definition zeros (n : Z) : string := of_chars (repeat (chr 48) (Z.to_nat n)).

(** [repr] of a positive finite float. *)
Definition repr_positive (q : Q) : string :=
  let n := Qnum q in
  let d := Z.pos (Qden q) in
  let x := exponent10 700 n d ((Z.log2 n - Z.log2 d) * 3 / 10) in
  let '(m, k, x) := shortest 16 1 q x in
  (* rounding up to a power of ten shifts the exponent *)
  let '(m, x) := if m =? 10 ^ k then (1, x + 1) else (m, x) in
  let digits := to_chars (str_of_int m) in
  let k := Z.of_nat (length digits) in
  if (-4 <=? x) && (x <? 16) then
    if x <? 0 then "0." +:+ zeros (- x - 1) +:+ of_chars digits
    else if k <=? x + 1 then of_chars digits +:+ zeros (x + 1 - k) +:+ ".0"
    else of_chars (take (Z.to_nat (x + 1)) digits) +:+ "." +:+ of_chars (drop (Z.to_nat (x + 1)) digits)
  else
    let mantissa :=
      of_chars (take 1 digits) +:+
      (if k =? 1 then "" else "." +:+ of_chars (drop 1 digits)) in
    let e := str_of_int (Z.abs x) in
    mantissa +:+ "e" +:+ (if x <? 0 then "-" else "+")
    +:+ (if Z.abs x <? 10 then "0" else "") +:+ e.

(** ** Reading *)

(** The decimal [m * 10^e] as a float: its value, and its [repr]. *)
Definition float_of_decimal (negative : bool) (m e : Z) : option PyFloat :=
  let '(n, d) := scaled m 1 10 e in
  q ← round64 n d;
  let sign := if negative then "-" else "" in
  Some (if Qeq_bool q (inject_Z 0) then {| fl_repr := sign +:+ "0.0"; fl_value := inject_Z 0 |}
        else {| fl_repr := sign +:+ repr_positive q; fl_value := if negative then Qopp q else q |}).

(** [float(z)] of an integer *)
Definition float_of_int (z : Z) : option PyFloat := float_of_decimal (z <? 0) (Z.abs z) 0.

(** The longest prefix of characters in a class, and the rest. *)
Fixpoint span (p : ascii -> bool) (l : list ascii) : list ascii * list ascii :=
  match l with
  | c :: l' => if p c then let '(a, b) := span p l' in (c :: a, b) else ([], l)
  | [] => ([], [])
  end.

(** [float(text)] for [text] of the form [digits] or [digits.digits]. *)
Definition float_of_digits (whole fraction : list ascii) : option PyFloat :=
  float_of_decimal false (int_of_digits (whole ++ fraction)) (- Z.of_nat (length fraction)).

(** [format(x, ".2f")] of a float that is not negative. *)
Definition format_2f (q : Q) : string :=
  let hundredths := round_half_even (100 * Qnum q) (Z.pos (Qden q)) in
  let cents := str_of_int (hundredths mod 100) in
  str_of_int (hundredths / 100) +:+ "." +:+ (if hundredths mod 100 <? 10 then "0" else "") +:+ cents.

Definition repr_of (m e : Z) : option string := fl_repr <$> float_of_decimal false m e.

Example reprs :
  [repr_of 8550 (-2); repr_of 1 0; repr_of 1 23; repr_of 1 (-7); repr_of 3 (-1); repr_of 12345 (-8);
   repr_of 123456789012345678 0; repr_of 1 16; repr_of 5 (-324); repr_of 17976931348623157 292;
   repr_of 1 400; repr_of 0 0; repr_of 9999999999999999 0] =
  [Some "85.5"; Some "1.0"; Some "1e+23"; Some "1e-07"; Some "0.3"; Some "0.00012345";
   Some "1.2345678901234568e+17"; Some "1e+16"; Some "5e-324"; Some "1.7976931348623157e+308";
   None; Some "0.0"; Some "1e+16"]%string.
Proof. vm_compute. reflexivity. Qed.
