(* ===== verification/JsonCodec.v ===== *)
(** * Reading JSON, and the round trip through [json.dumps]

    [json.loads] on ASCII text: the worker reads reports with it, and the canonical
    documents of the control plane are read back from JSON columns.  An escape of a
    character outside ASCII is refused, since texts are ASCII here.

    The round trip [loads (dumps j) = canon j] makes the canonical serialization
    injective up to the order of keys; so two different documents can only share a
    SHA-256 fingerprint by a collision of the hash. *)

From S2P Require Import Prelude Text Json Floats Evidence.
#[local] Open Scope Z_scope.

(** ** [json.loads] *)

Definition is_code (z : Z) (c : ascii) : bool := ord c =? z.

(** The whitespace JSON allows between tokens. *)
Definition json_space (c : ascii) : bool := existsb (fun z => is_code z c) [32; 9; 10; 13].

Definition skip (l : list ascii) : list ascii := (span json_space l).2.

Definition hex_value (c : ascii) : option Z :=
  if is_digit c then Some (ord c - 48)
  else if in_range 97 102 c then Some (ord c - 87)
  else if in_range 65 70 c then Some (ord c - 55)
  else None.

(** The character of a one-letter escape. *)
Definition unescape (e : ascii) : option ascii :=
  if is_code 34 e || is_code 92 e || is_code 47 e then Some e
  else if is_code 98 e then Some (chr 8)
  else if is_code 102 e then Some (chr 12)
  else if is_code 110 e then Some (chr 10)
  else if is_code 114 e then Some (chr 13)
  else if is_code 116 e then Some (chr 9)
  else None.

Definition unicode_escape (h1 h2 h3 h4 : ascii) : option ascii :=
  a ← hex_value h1; b ← hex_value h2; c ← hex_value h3; d ← hex_value h4;
  let code := 4096 * a + 256 * b + 16 * c + d in
  if code <? 128 then Some (chr code) else None.

(** The characters of a string after its opening quotation mark, and the rest. *)
Fixpoint parse_chars (l : list ascii) : option (list ascii * list ascii) :=
  match l with
  | [] => None
  | c :: l1 =>
      if is_code 34 c then Some ([], l1)
      else if is_code 92 c then
        match l1 with
        | [] => None
        | e :: l2 =>
            if is_code 117 e then
              match l2 with
              | h1 :: h2 :: h3 :: h4 :: l3 =>
                  x ← unicode_escape h1 h2 h3 h4; '(s, r) ← parse_chars l3; Some (x :: s, r)
              | _ => None
              end
            else x ← unescape e; '(s, r) ← parse_chars l2; Some (x :: s, r)
        end
      else if ord c <? 32 then None
      else '(s, r) ← parse_chars l1; Some (c :: s, r)
  end.

(** The digits of an integer part: no leading zeros. *)
Definition integer_part (l : list ascii) : option (list ascii * list ascii) :=
  match l with
  | c :: l' =>
      if is_code 48 c then Some ([c], l')
      else if is_digit c then Some (span is_digit l) else None
  | [] => None
  end.

(** [\.\d+], if it is there. *)
Definition fraction_part (l : list ascii) : option (list ascii) * list ascii :=
  match l with
  | c :: l' =>
      if is_code 46 c then
        match span is_digit l' with ([], _) => (None, l) | (ds, r) => (Some ds, r) end
      else (None, l)
  | [] => (None, l)
  end.

(** [[eE][-+]?\d+], if it is there. *)
Definition exponent_part (l : list ascii) : option Z * list ascii :=
  match l with
  | c :: l' =>
      if is_code 101 c || is_code 69 c then
        let '(sign, l'') := match l' with
                            | s :: l'' => if is_code 45 s then (-1, l'')
                                          else if is_code 43 s then (1, l'') else (1, l')
                            | [] => (1, l')
                            end in
        match span is_digit l'' with
        | ([], _) => (None, l)
        | (ds, r) => (Some (sign * int_of_digits ds), r)
        end
      else (None, l)
  | [] => (None, l)
  end.

(** A float literal as its [repr]; beyond the largest finite float it is infinite. *)
Definition float_json (negative : bool) (m e : Z) : Json :=
  match float_of_decimal negative m e with
  | Some f => JFloat (fl_repr f)
  | None => JFloat (if negative then "-inf" else "inf")
  end.

Definition parse_unsigned (negative : bool) (l : list ascii) : option (Json * list ascii) :=
  '(whole, r) ← integer_part l;
  let '(fraction, r1) := fraction_part r in
  let '(exponent, r2) := exponent_part r1 in
  Some (match fraction, exponent with
        | None, None => JInt (if negative then - int_of_digits whole else int_of_digits whole)
        | _, _ =>
            let ds := default [] fraction in
            float_json negative (int_of_digits (whole ++ ds))
              (default 0 exponent - Z.of_nat (length ds))
        end, r2).

Definition parse_number (l : list ascii) : option (Json * list ascii) :=
  match l with
  | c :: l' => if is_code 45 c then parse_unsigned true l' else parse_unsigned false l
  | [] => None
  end.

(** The constants, those outside the JSON grammar that Python accepts included. *)
Definition literals : list (string * Json) :=
  [("null", JNull); ("true", JBool true); ("false", JBool false); ("NaN", JFloat "nan");
   ("Infinity", JFloat "inf"); ("-Infinity", JFloat "-inf")].

Definition parse_literal (l : list ascii) : option (Json * list ascii) :=
  head (omap (fun '(name, v) =>
                if starts_with (to_chars name) l then Some (v, drop (String.length name) l) else None)
          literals).

(** [dict(pairs)]: a repeated key keeps its first place and its last value. *)
Fixpoint dict_set (k : string) (v : Json) (d : list (string * Json)) : list (string * Json) :=
  match d with
  | [] => [(k, v)]
  | (k', v') :: d' => if bool_decide (k = k') then (k, v) :: d' else (k', v') :: dict_set k v d'
  end.

Definition dict_of (items : list (string * Json)) : list (string * Json) :=
  foldl (fun d kv => dict_set kv.1 kv.2 d) [] items.

Fixpoint parse_value (fuel : nat) (l : list ascii) : option (Json * list ascii) :=
  match fuel with
  | O => None
  | S fuel =>
      match skip l with
      | [] => None
      | c :: l' =>
          if is_code 34 c then '(s, r) ← parse_chars l'; Some (JStr (of_chars s), r)
          else if is_code 91 c then
            match skip l' with
            | c' :: r =>
                if is_code 93 c' then Some (JList [], r)
                else '(vs, r) ← parse_elements fuel l'; Some (JList vs, r)
            | [] => None
            end
          else if is_code 123 c then
            match skip l' with
            | c' :: r =>
                if is_code 125 c' then Some (JObj [], r)
                else '(items, r) ← parse_members fuel l'; Some (JObj (dict_of items), r)
            | [] => None
            end
          else match parse_literal (c :: l') with
               | Some res => Some res
               | None => parse_number (c :: l')
               end
      end
  end
with parse_elements (fuel : nat) (l : list ascii) : option (list Json * list ascii) :=
  match fuel with
  | O => None
  | S fuel =>
      '(v, r) ← parse_value fuel l;
      match skip r with
      | c :: r' =>
          if is_code 93 c then Some ([v], r')
          else if is_code 44 c then '(vs, r'') ← parse_elements fuel r'; Some (v :: vs, r'')
          else None
      | [] => None
      end
  end
with parse_members (fuel : nat) (l : list ascii) : option (list (string * Json) * list ascii) :=
  match fuel with
  | O => None
  | S fuel =>
      match skip l with
      | q :: l' =>
          if is_code 34 q then
            '(s, r) ← parse_chars l';
            match skip r with
            | colon :: r1 =>
                if is_code 58 colon then
                  '(v, r2) ← parse_value fuel r1;
                  match skip r2 with
                  | c :: r3 =>
                      if is_code 125 c then Some ([(of_chars s, v)], r3)
                      else if is_code 44 c then
                        '(items, r4) ← parse_members fuel r3; Some ((of_chars s, v) :: items, r4)
                      else None
                  | [] => None
                  end
                else None
            | [] => None
            end
          else None
      | [] => None
      end
  end.

(** [json.loads(text)]; each nested call reads at least one character, so the length
    of the text, twice, is enough fuel.  The limits of the interpreter on the nesting of
    a document and on the digits of an integer are not modelled. *)
Definition loads (text : string) : option Json :=
  let l := to_chars text in
  '(v, r) ← parse_value (2 * length l + 2) l;
  match skip r with [] => Some v | _ => None end.

(** ** Documents that JSON can carry

    Floats by their own [repr], objects with distinct keys: what a Python value holds. *)

Definition float_text (r : string) : Prop := parse_number (to_chars r) = Some (JFloat r, []).

Inductive wf : Json -> Prop :=
| wf_null : wf JNull
| wf_bool b : wf (JBool b)
| wf_int z : wf (JInt z)
| wf_float r : float_text r -> wf (JFloat r)
| wf_str s : wf (JStr s)
| wf_list l : Forall wf l -> wf (JList l)
| wf_obj fields : NoDup fields.*1 -> Forall (fun kv => wf kv.2) fields -> wf (JObj fields).

(** The nested induction principle of [Json]. *)
Lemma Json_nested_ind (P : Json -> Prop) :
  P JNull -> (forall b, P (JBool b)) -> (forall z, P (JInt z)) -> (forall r, P (JFloat r)) ->
  (forall s, P (JStr s)) -> (forall l, Forall P l -> P (JList l)) ->
  (forall fields, Forall (fun kv => P kv.2) fields -> P (JObj fields)) -> forall j, P j.
Proof.
  intros Hnull Hbool Hint Hfloat Hstr Hlist Hobj. fix IH 1. intros [|b|z|r|s|l|fields].
  - exact Hnull.
  - apply Hbool.
  - apply Hint.
  - apply Hfloat.
  - apply Hstr.
  - apply Hlist. induction l as [|x l IHl]; constructor; auto.
  - apply Hobj. induction fields as [|[k x] fields IHl]; constructor; [apply IH|auto].
Qed.

(** Keys in order at every level. *)
Definition key_le {A} (a b : string * A) : Prop := str_le a.1 b.1.

#[global] Instance key_le_dec {A} : RelDecision (@key_le A).
Proof. intros a b. unfold key_le. apply _. Defined.

Fixpoint canon (j : Json) : Json :=
  match j with
  | JList l => JList (map canon l)
  | JObj fields => JObj (merge_sort key_le (map (fun kv => (kv.1, canon kv.2)) fields))
  | _ => j
  end.

(** ** Sorting commutes with maps that keep the order *)

Section sort_map.
Context {A B : Type} (R : A -> A -> Prop) (S : B -> B -> Prop) `{!RelDecision R, !RelDecision S}.
Context (f : A -> B) (Hf : forall x y, S (f x) (f y) <-> R x y).

Lemma list_merge_map l1 l2 : list_merge S (map f l1) (map f l2) = map f (list_merge R l1 l2).
Proof.
  revert l2. induction l1 as [|x l1 IH1]; [by intros []|].
  induction l2 as [|y l2 IH2]; [done|]. cbn.
  destruct (decide (S (f x) (f y))) as [H|H], (decide (R x y)) as [H'|H'];
    rewrite Hf in H; try done; cbn; f_equal.
  - apply (IH1 (y :: l2)).
  - apply IH2.
Qed.

Lemma merge_list_to_stack_map st l :
  merge_list_to_stack S (map (fmap (map f)) st) (map f l) =
  map (fmap (map f)) (merge_list_to_stack R st l).
Proof.
  revert l. induction st as [|[l'|] st IH]; intros l; [done| |done]. cbn.
  by rewrite list_merge_map, IH.
Qed.

Lemma merge_stack_map st : merge_stack S (map (fmap (map f)) st) = map f (merge_stack R st).
Proof.
  induction st as [|[l|] st IH]; [done| |done]. cbn. by rewrite IH, list_merge_map.
Qed.

Lemma merge_sort_map l : merge_sort S (map f l) = map f (merge_sort R l).
Proof.
  unfold merge_sort. change (@nil (option (list B))) with (map (fmap (map f)) (@nil (option (list A)))).
  generalize (@nil (option (list A))) as st. induction l as [|x l IH]; intros st; cbn.
  - apply merge_stack_map.
  - change [f x] with (map f [x]). rewrite merge_list_to_stack_map. apply IH.
Qed.
End sort_map.

(** ** Numbers *)

(** No character that could continue a number. *)
Definition number_end (l : list ascii) : Prop :=
  match l with
  | c :: _ => (is_digit c || existsb (fun z => is_code z c) [43; 45; 46; 69; 101]) = false
  | [] => True
  end.

Lemma number_end_cons c l :
  number_end (c :: l) ->
  is_digit c = false /\ is_code 46 c = false /\ is_code 45 c = false /\ is_code 43 c = false /\
  is_code 101 c = false /\ is_code 69 c = false.
Proof. cbn. rewrite !orb_false_iff. naive_solver. Qed.

Lemma span_app p l rest :
  match rest with c :: _ => p c = false | [] => True end ->
  span p (l ++ rest) = ((span p l).1, (span p l).2 ++ rest).
Proof.
  intros Hr. induction l as [|c l IH]; cbn.
  - destruct rest as [|c rest]; [done|]. cbn. by rewrite Hr.
  - destruct (p c); [|done]. rewrite IH. by destruct (span p l).
Qed.

Lemma span_all p l : forallb p l = true -> span p l = (l, []).
Proof.
  induction l as [|c l IH]; cbn; [done|]. rewrite andb_true_iff. intros [-> Hl]. by rewrite IH.
Qed.

Lemma number_end_span l rest :
  number_end rest -> span is_digit (l ++ rest) = ((span is_digit l).1, (span is_digit l).2 ++ rest).
Proof. intros He. apply span_app. destruct rest; [done|]. by apply number_end_cons in He as [? _]. Qed.

Lemma integer_part_app l rest w r :
  number_end rest -> integer_part l = Some (w, r) -> integer_part (l ++ rest) = Some (w, r ++ rest).
Proof.
  intros He. destruct l as [|c l]; cbn; [done|]. destruct (is_code 48 c); [naive_solver|].
  destruct (is_digit c); [|done]. rewrite number_end_span by done.
  destruct (span is_digit l). naive_solver.
Qed.

Lemma fraction_part_app l rest :
  number_end rest ->
  fraction_part (l ++ rest) = ((fraction_part l).1, (fraction_part l).2 ++ rest).
Proof.
  intros He. destruct l as [|c l]; cbn.
  - destruct rest as [|c rest]; [done|]. apply number_end_cons in He as (_ & H & _). cbn. by rewrite H.
  - destruct (is_code 46 c); [|done]. rewrite number_end_span by done.
    by destruct (span is_digit l) as [[] ?].
Qed.

Lemma exponent_part_app l rest :
  number_end rest ->
  exponent_part (l ++ rest) = ((exponent_part l).1, (exponent_part l).2 ++ rest).
Proof.
  intros He. destruct l as [|c l]; cbn.
  - destruct rest as [|c rest]; [done|]. apply number_end_cons in He as (_ & _ & _ & _ & H & H').
    cbn. by rewrite H, H'.
  - destruct (is_code 101 c || is_code 69 c); [|done].
    assert (match l ++ rest with
            | s :: l'' => if is_code 45 s then (-1, l'') else if is_code 43 s then (1, l'') else (1, l ++ rest)
            | [] => (1, l ++ rest) end =
            let '(sign, l'') := match l with
              | s :: l'' => if is_code 45 s then (-1, l'') else if is_code 43 s then (1, l'') else (1, l)
              | [] => (1, l) end in (sign, l'' ++ rest)) as ->.
    { destruct l as [|s l]; cbn.
      - destruct rest as [|s rest]; [done|]. by apply number_end_cons in He as (_ & _ & -> & -> & _).
      - by destruct (is_code 45 s), (is_code 43 s). }
    destruct (match l with [] => _ | _ => _ end) as [sign l'']. rewrite number_end_span by done.
    by destruct (span is_digit l'') as [[] ?].
Qed.

Lemma parse_unsigned_app negative l rest v r :
  number_end rest -> parse_unsigned negative l = Some (v, r) ->
  parse_unsigned negative (l ++ rest) = Some (v, r ++ rest).
Proof.
  intros He. unfold parse_unsigned. destruct (integer_part l) as [[w r0]|] eqn:Hw; [|done].
  rewrite (integer_part_app l rest w r0) by done. cbn. rewrite fraction_part_app by done.
  destruct (fraction_part r0) as [f r1]. cbn. rewrite exponent_part_app by done.
  destruct (exponent_part r1) as [e r2]. cbn. naive_solver.
Qed.

Lemma parse_number_app l rest v r :
  number_end rest -> parse_number l = Some (v, r) -> parse_number (l ++ rest) = Some (v, r ++ rest).
Proof.
  intros He. destruct l as [|c l]; cbn; [done|]. destruct (is_code 45 c).
  - by apply parse_unsigned_app.
  - by apply (parse_unsigned_app false (c :: l)).
Qed.

(** *** The digits of an integer *)

Lemma int_of_digits_app l c : int_of_digits (l ++ [c]) = 10 * int_of_digits l + digit_value c.
Proof. unfold int_of_digits. by rewrite foldl_app. Qed.

Lemma pretty_char_digit x : (x < 10)%N ->
  is_digit (pretty_N_char x) = true /\ digit_value (pretty_N_char x) = Z.of_N x.
Proof.
  intros Hx. assert (x ∈ [0; 1; 2; 3; 4; 5; 6; 7; 8; 9])%N as Hin.
  { rewrite !elem_of_cons. lia. }
  repeat (apply elem_of_cons in Hin as [->|Hin]; [done|]). by apply not_elem_of_nil in Hin.
Qed.

(** The digits [pretty] writes before [s]: no leading zero. *)
Lemma pretty_go_digits x s :
  exists ds, to_chars (pretty_N_go x s) = ds ++ to_chars s /\ forallb is_digit ds = true /\
    int_of_digits ds = Z.of_N x /\
    ((0 < x)%N -> exists c ds', ds = c :: ds' /\ is_code 48 c = false).
Proof.
  revert s. induction (N.lt_wf_0 x) as [x _ IH]; intros s.
  destruct (decide (x = 0)%N) as [->|Hx].
  - exists []. rewrite pretty_N_go_0. repeat split. lia.
  - rewrite pretty_N_go_step by lia.
    destruct (IH (x / 10)%N ltac:(apply N.div_lt; lia) (String (pretty_N_char (x mod 10)) s))
      as (ds & Hds & Hdig & Hval & Hhead).
    destruct (pretty_char_digit (x mod 10)) as [Hc Hv]; [by apply N.mod_lt|].
    exists (ds ++ [pretty_N_char (x mod 10)]). rewrite Hds, <-app_assoc. split; [done|].
    rewrite forallb_app, Hdig. cbn [forallb]. rewrite Hc. split; [done|].
    rewrite int_of_digits_app, Hval, Hv. split.
    { rewrite N2Z.inj_div, N2Z.inj_mod. symmetry. by apply Z.div_mod. }
    intros _.
    destruct (decide (x / 10 = 0)%N) as [H0|H0].
    + assert (ds = []) as ->.
      { rewrite H0 in Hds. rewrite pretty_N_go_0 in Hds.
        apply (f_equal length) in Hds. rewrite length_app in Hds. destruct ds; [done|].
        cbn in Hds. lia. }
      eexists _, []. split; [done|]. unfold is_code. unfold digit_value in Hv.
      apply Z.eqb_neq. intros Ho. rewrite Ho in Hv.
      assert (x mod 10 = 0)%N by lia. apply N.div_small_iff in H0; [|done].
      rewrite N.mod_small in * by done. lia.
    + destruct Hhead as (c & ds' & -> & ?); [by apply N.neq_0_lt_0|]. by eexists _, _.
Qed.

Lemma parse_digits negative n rest :
  number_end rest ->
  parse_unsigned negative (to_chars (pretty n) ++ rest) =
  Some (JInt (if negative then - Z.of_N n else Z.of_N n), rest).
Proof.
  intros He. rewrite <-(app_nil_l rest) at 2. apply parse_unsigned_app; [done|].
  unfold pretty, pretty_N. destruct (decide (n = 0)%N) as [->|Hn]; [by destruct negative|].
  destruct (pretty_go_digits n "") as (ds & -> & Hdig & Hval & Hhead). rewrite app_nil_r.
  destruct Hhead as (c & ds' & -> & Hc); [lia|]. unfold parse_unsigned, integer_part. rewrite Hc.
  rewrite span_all by done. cbn [forallb] in Hdig. apply andb_true_iff in Hdig as [-> _]. cbn -[int_of_digits].
  by rewrite Hval.
Qed.

Lemma pretty_pos_head p :
  exists c l, to_chars (pretty (N.pos p)) = c :: l /\ is_code 45 c = false.
Proof.
  unfold pretty, pretty_N. destruct (decide _); [done|].
  destruct (pretty_go_digits (N.pos p) "") as (ds & -> & Hdig & _ & Hhead).
  destruct Hhead as (c & ds' & -> & _); [lia|]. exists c, (ds' ++ []). split; [done|].
  cbn in Hdig. apply andb_true_iff in Hdig as [Hdig _].
  unfold is_digit, in_range, is_code in *. apply Z.eqb_neq. lia.
Qed.

(** An integer is read back. *)
Lemma parse_int z rest :
  number_end rest -> parse_number (to_chars (str_of_int z) ++ rest) = Some (JInt z, rest).
Proof.
  intros He. unfold str_of_int, pretty, pretty_Z. destruct z as [|p|p].
  - exact (parse_number_app (to_chars "0") rest (JInt 0) [] He eq_refl).
  - pose proof (parse_digits false (N.pos p) rest He) as Hp.
    destruct (pretty_pos_head p) as (c & l & Hcl & Hd). change (pretty p) with (pretty (N.pos p)).
    rewrite Hcl in *. cbn -[parse_unsigned]. by rewrite Hd.
  - change (to_chars ("-" +:+ pretty p) ++ rest) with ("-"%char :: (to_chars (pretty (N.pos p)) ++ rest)).
    exact (parse_digits true (N.pos p) rest He).
Qed.

(** No constant begins like a number. *)
Lemma starts_with_ne a p c l : a <> c -> starts_with (a :: p) (c :: l) = false.
Proof. intros Ha. cbn. by rewrite bool_decide_eq_false_2. Qed.

Lemma starts_with_digit a p c l :
  is_digit c = true -> is_digit a = false -> starts_with (a :: p) (c :: l) = false.
Proof. intros Hc Ha. apply starts_with_ne. intros ->. congruence. Qed.

Lemma integer_part_digit l w r : integer_part l = Some (w, r) -> exists c l', l = c :: l' /\ is_digit c = true.
Proof.
  destruct l as [|c l]; cbn; [done|]. destruct (is_code 48 c) eqn:H0; intros Hi.
  - exists c, l. split; [done|]. unfold is_digit, in_range. apply Z.eqb_eq in H0. rewrite H0. done.
  - destruct (is_digit c) eqn:Hd; [eauto|done].
Qed.

Lemma parse_literal_number l v r : parse_number l = Some (v, r) -> parse_literal l = None.
Proof.
  destruct l as [|c l]; [done|]. cbn [parse_number]. destruct (is_code 45 c) eqn:Hm; intros Hp.
  - unfold parse_unsigned in Hp. destruct (integer_part l) as [[w r0]|] eqn:Hi; [|done].
    apply integer_part_digit in Hi as (d & l' & -> & Hd).
    assert (c = "-"%char) as ->.
    { apply Z.eqb_eq in Hm. unfold ord in Hm. rewrite <-(ascii_N_embedding c).
      replace (N_of_ascii c) with 45%N by lia. done. }
    unfold parse_literal, literals. cbn -[starts_with]. rewrite !starts_with_ne by done.
    match goal with |- context [starts_with ("-"%char :: ?p) ("-"%char :: ?l)] =>
      change (starts_with ("-"%char :: p) ("-"%char :: l)) with (starts_with p l) end.
    by rewrite starts_with_digit.
  - unfold parse_unsigned in Hp. destruct (integer_part (c :: l)) as [[w r0]|] eqn:Hi; [|done].
    apply integer_part_digit in Hi as (d & l' & [= -> ->] & Hd).
    unfold parse_literal, literals. cbn -[starts_with is_digit]. by rewrite !starts_with_digit.
Qed.

(** ** Strings *)

Lemma parse_escaped ea c rest :
  parse_chars (to_chars (escape_char ea c) ++ rest) = '(s, r) ← parse_chars rest; Some (c :: s, r).
Proof. destruct c as [[] [] [] [] [] [] [] []], ea; reflexivity. Qed.

Lemma parse_quoted ea s rest :
  parse_chars (tail (to_chars (quote ea s)) ++ rest) = Some (to_chars s, rest).
Proof.
  unfold quote. cbn [to_chars tail]. induction (to_chars s) as [|c l IH]; [done|].
  cbn [foldr]. rewrite to_chars_app, <-app_assoc, parse_escaped, IH. done.
Qed.

Lemma quote_cons ea s : to_chars (quote ea s) = chr 34 :: tail (to_chars (quote ea s)).
Proof. done. Qed.

(** ** The round trip *)

Section round_trip.
Context (ea : bool).

Definition item (kv : string * Json) : string := quote ea kv.1 +:+ ":" +:+ dumps ea kv.2.

Lemma dumps_list l : dumps ea (JList l) = "[" +:+ join "," (map (dumps ea) l) +:+ "]".
Proof. done. Qed.

Lemma dumps_obj fields :
  dumps ea (JObj fields) = "{" +:+ join "," (map item (merge_sort key_le fields)) +:+ "}".
Proof.
  cbn [dumps]. f_equal. f_equal. f_equal.
  trans (map (fun kv => quote ea kv.1 +:+ ":" +:+ kv.2)
    (merge_sort item_le (map (fun kv : string * Json => (kv.1, dumps ea kv.2)) fields))).
  - do 2 f_equal. induction fields as [|[k x] fields IH]; [done|]. cbn. by rewrite <-IH.
  - rewrite (merge_sort_map key_le item_le) by done. rewrite map_map. done.
Qed.

Lemma canon_obj fields :
  canon (JObj fields) = JObj (map (fun kv => (kv.1, canon kv.2)) (merge_sort key_le fields)).
Proof. cbn [canon]. by rewrite (merge_sort_map key_le key_le). Qed.

(** The fuel a document needs, and the text that pays for it. *)
Fixpoint weight (j : Json) : nat :=
  match j with
  | JList l => 2 + sum_list (map (fun x => S (weight x)) l)
  | JObj fields => 2 + sum_list (map (fun kv => S (weight kv.2)) fields)
  | _ => 1
  end.

Lemma skip_cons c l : json_space c = false -> skip (c :: l) = c :: l.
Proof. intros Hc. unfold skip. cbn [span]. by rewrite Hc. Qed.

(** The first character of a document is neither space nor a closing bracket. *)
Definition opening (c : ascii) : Prop := json_space c = false /\ is_code 93 c = false.

Lemma digit_opening c : is_digit c = true -> opening c.
Proof.
  unfold is_digit, in_range, opening, json_space, is_code. cbn. intros Hc.
  rewrite !orb_false_iff. repeat split; apply Z.eqb_neq; lia.
Qed.

Lemma number_opening l v r : parse_number l = Some (v, r) ->
  exists c l', l = c :: l' /\ opening c /\ is_code 34 c = false /\ is_code 91 c = false /\
    is_code 123 c = false.
Proof.
  destruct l as [|c l]; [done|]. cbn [parse_number]. intros Hp. exists c, l. split; [done|].
  destruct (is_code 45 c) eqn:Hm.
  - unfold opening, json_space, is_code in *. apply Z.eqb_eq in Hm. cbn. by rewrite Hm.
  - unfold parse_unsigned in Hp. destruct (integer_part (c :: l)) as [[w r0]|] eqn:Hi; [|done].
    apply integer_part_digit in Hi as (d & l' & [= <- <-] & Hd). split; [by apply digit_opening|].
    unfold is_digit, in_range, is_code in *. repeat split; apply Z.eqb_neq; lia.
Qed.

Lemma dumps_opening j : wf j -> exists c l, to_chars (dumps ea j) = c :: l /\ opening c.
Proof.
  destruct 1 as [|[]|z|r Hr|s|l|fields]; try by eexists _, _.
  - destruct (number_opening _ _ _ (parse_int z [] I)) as (c & l & Hc & ? & _).
    rewrite app_nil_r in Hc. eauto.
  - destruct (number_opening _ _ _ Hr) as (c & l & Hc & ? & _). eauto.
Qed.

Lemma parse_number_value n l v rest :
  number_end rest -> parse_number l = Some (v, []) ->
  parse_value (S n) (l ++ rest) = Some (v, rest).
Proof.
  intros He Hp. pose proof (parse_number_app l rest v [] He Hp) as Hp'. rewrite app_nil_l in Hp'.
  destruct (number_opening _ _ _ Hp') as (c & l' & Hl & [Hs _] & H1 & H2 & H3).
  pose proof (parse_literal_number _ _ _ Hp') as Hlit. rewrite Hl in *.
  cbn [parse_value]. rewrite skip_cons, H1, H2, H3, Hlit by done. exact Hp'.
Qed.

(** What is proved of each document. *)
Definition reads (j : Json) : Prop :=
  forall n rest, (weight j <= n)%nat -> number_end rest ->
    parse_value n (to_chars (dumps ea j) ++ rest) = Some (canon j, rest).

Lemma join_cons x y l : join "," (x :: y :: l) = x +:+ "," +:+ join "," (y :: l).
Proof. done. Qed.

Lemma read_elements l n rest :
  l <> [] -> Forall reads l -> (sum_list (map (fun x => S (weight x)) l) <= n)%nat ->
  parse_elements n (to_chars (join "," (map (dumps ea) l)) ++ chr 93 :: rest) =
    Some (map canon l, rest).
Proof.
  revert n. induction l as [|x [|y l] IH]; intros n Hne Hall Hn; [done| |];
    apply Forall_cons in Hall as [Hx Hall]; (destruct n as [|n]; [cbn in Hn; lia|]);
    cbn [parse_elements].
  - cbn [map join]. rewrite Hx; [|cbn in Hn; lia|done]. cbn [mbind option_bind].
    by rewrite skip_cons by done.
  - change (map (dumps ea) (x :: y :: l)) with (dumps ea x :: dumps ea y :: map (dumps ea) l).
    rewrite join_cons, !to_chars_app, <-!app_assoc. cbn [to_chars app].
    rewrite Hx; [|cbn in Hn; lia|done]. cbn [mbind option_bind]. rewrite skip_cons by done.
    change (is_code 93 ","%char) with false. change (is_code 44 ","%char) with true. cbn match.
    change (dumps ea y :: map (dumps ea) l) with (map (dumps ea) (y :: l)).
    rewrite (IH n); [done|done|done|]. cbn in Hn |- *. lia.
Qed.

Lemma read_members fields n rest :
  fields <> [] -> Forall (fun kv => reads kv.2) fields ->
  (sum_list (map (fun kv => S (weight kv.2)) fields) <= n)%nat ->
  parse_members n (to_chars (join "," (map item fields)) ++ chr 125 :: rest) =
    Some (map (fun kv => (kv.1, canon kv.2)) fields, rest).
Proof.
  revert n. induction fields as [|[k x] fields IH]; intros n Hne Hall Hn; [done|].
  apply Forall_cons in Hall as [Hx Hall]. (destruct n as [|n]; [cbn in Hn; lia|]). cbn [snd] in Hx.
  assert (forall tail, number_end tail ->
    parse_members (S n) (to_chars (item (k, x)) ++ tail) =
    match skip tail with
    | c :: r3 => if is_code 125 c then Some ([(k, canon x)], r3)
                 else if is_code 44 c then
                   '(items, r4) ← parse_members n r3; Some ((k, canon x) :: items, r4)
                 else None
    | [] => None
    end) as Hitem.
  { intros tail He. cbn [parse_members]. unfold item. cbn [fst snd].
    rewrite !to_chars_app, <-!app_assoc. rewrite quote_cons. cbn [app to_chars].
    rewrite skip_cons by done. change (is_code 34 (chr 34)) with true. cbn match.
    rewrite parse_quoted. cbn [mbind option_bind]. rewrite skip_cons by done.
    change (is_code 58 ":"%char) with true. cbn match.
    rewrite Hx; [|cbn in Hn; lia|done]. cbn [mbind option_bind]. by rewrite of_to_chars. }
  destruct fields as [|kv fields].
  - cbn [map join]. rewrite Hitem by done. by rewrite skip_cons by done.
  - change (map item ((k, x) :: kv :: fields)) with (item (k, x) :: item kv :: map item fields).
    rewrite join_cons, !to_chars_app, <-!app_assoc. cbn [to_chars app]. rewrite Hitem by done.
    rewrite skip_cons by done. change (is_code 125 ","%char) with false.
    change (is_code 44 ","%char) with true. cbn match.
    change (item kv :: map item fields) with (map item (kv :: fields)).
    rewrite (IH n); [done|done|done|]. cbn in Hn |- *. lia.
Qed.

Lemma dict_set_fresh k v d : k ∉ d.*1 -> dict_set k v d = d ++ [(k, v)].
Proof.
  induction d as [|[k' v'] d IH]; cbn; [done|]. rewrite not_elem_of_cons. intros [Hk Hd].
  rewrite bool_decide_eq_false_2 by done. by rewrite IH.
Qed.

Lemma dict_of_app d items :
  NoDup (d ++ items).*1 -> foldl (fun d kv => dict_set kv.1 kv.2 d) d items = d ++ items.
Proof.
  revert d. induction items as [|[k v] items IH]; intros d Hnd; cbn; [by rewrite app_nil_r|].
  rewrite dict_set_fresh; [rewrite IH; rewrite <-app_assoc; done|].
  rewrite fmap_app in Hnd. apply NoDup_app in Hnd as (_ & Hd & _). intros Hin.
  apply (Hd k Hin). by left.
Qed.

Lemma sorted_keys_perm {A} (fields : list (string * A)) : merge_sort key_le fields ≡ₚ fields.
Proof. apply merge_sort_Permutation. Qed.

Lemma weight_pos j : (1 <= weight j)%nat.
Proof. destruct j; cbn; lia. Qed.

Lemma read_obj fields :
  NoDup fields.*1 -> Forall (fun kv => reads kv.2) fields -> reads (JObj fields).
Proof.
  intros Hnd Hall n rest Hn He. rewrite dumps_obj, canon_obj.
  pose proof (sorted_keys_perm fields) as Hp. set (sorted := merge_sort key_le fields) in *.
  assert (sum_list (map (fun kv => S (weight kv.2)) sorted) =
          sum_list (map (fun kv : string * Json => S (weight kv.2)) fields)) as Hsum
    by (by rewrite Hp).
  rewrite <-Hp in Hall, Hnd. (destruct n as [|n]; [cbn in Hn; lia|]).
  rewrite !to_chars_app, <-!app_assoc. cbn [to_chars app parse_value]. rewrite skip_cons by done.
  change (is_code 34 "{"%char) with false. change (is_code 91 "{"%char) with false.
  change (is_code 123 "{"%char) with true. cbn match.
  destruct sorted as [|kv sorted'] eqn:Hs; [cbn; by rewrite skip_cons by done|].
  assert (exists l, to_chars (join "," (map item (kv :: sorted'))) = chr 34 :: l) as [l Hl].
  { destruct sorted'; cbn [map]; [by eexists|]. rewrite join_cons, to_chars_app. by eexists. }
  rewrite Hl. cbn [app]. rewrite skip_cons by done. change (is_code 125 (chr 34)) with false. cbn match.
  change (chr 34 :: l ++ "}"%char :: rest) with ((chr 34 :: l) ++ chr 125 :: rest). rewrite <-Hl.
  rewrite read_members; [|done|done|cbn in Hn, Hsum |- *; lia]. cbn [mbind option_bind].
  unfold dict_of. rewrite dict_of_app; [done|]. rewrite app_nil_l, <-list_fmap_compose. exact Hnd.
Qed.

Lemma read_list l : Forall wf l -> Forall reads l -> reads (JList l).
Proof.
  intros Hwf Hall n rest Hn He. rewrite dumps_list. (destruct n as [|n]; [cbn in Hn; lia|]).
  rewrite !to_chars_app, <-!app_assoc. cbn [to_chars app parse_value]. rewrite skip_cons by done.
  change (is_code 34 "["%char) with false. change (is_code 91 "["%char) with true. cbn match.
  destruct l as [|x l]; [cbn; by rewrite skip_cons by done|].
  apply Forall_cons_1 in Hwf as Hx. destruct Hx as [Hx _].
  destruct (dumps_opening x Hx) as (c & s & Hc & Hsp & Hcl).
  assert (exists l', to_chars (join "," (map (dumps ea) (x :: l))) = c :: l') as [l' Hl'].
  { destruct l; cbn [map]; [by eexists|]. rewrite join_cons, to_chars_app, Hc. by eexists. }
  rewrite Hl'. cbn [app]. rewrite skip_cons, Hcl by done.
  change (c :: l' ++ "]"%char :: rest) with ((c :: l') ++ chr 93 :: rest). rewrite <-Hl'.
  rewrite read_elements; [done|done|done|]. cbn in Hn |- *. lia.
Qed.

Lemma read_back j : wf j -> reads j.
Proof.
  induction j as [|b|z|r|s|l IH|fields IH] using Json_nested_ind; inversion 1; subst.
  - intros n rest Hn He. by destruct n; [cbn in Hn; lia|].
  - intros n rest Hn He. destruct n; [cbn in Hn; lia|]. by destruct b.
  - intros n rest Hn He. destruct n; [cbn in Hn; lia|]. apply parse_number_value; [done|].
    pose proof (parse_int z [] I) as Hz. by rewrite app_nil_r in Hz.
  - intros n rest Hn He. destruct n; [cbn in Hn; lia|]. by apply parse_number_value.
  - intros n rest Hn He. destruct n; [cbn in Hn; lia|]. cbn [dumps]. rewrite quote_cons.
    cbn [app parse_value]. rewrite skip_cons by done. change (is_code 34 (chr 34)) with true. cbn match.
    rewrite parse_quoted. cbn. by rewrite of_to_chars.
  - apply read_list; [done|]. rewrite !Forall_forall in *. auto.
  - apply read_obj; [done|]. rewrite !Forall_forall in *. auto.
Qed.
End round_trip.

Lemma join_pays {A} (f : A -> string) (w : A -> nat) l :
  Forall (fun x => (w x <= 2 * length (to_chars (f x)))%nat) l ->
  (sum_list (map (fun x => S (w x)) l) <= 2 * S (length (to_chars (join "," (map f l)))))%nat.
Proof.
  induction l as [|x [|y l] IH]; intros Hall; [cbn; lia| |];
    apply Forall_cons in Hall as [Hx Hall]; [cbn; lia|]. specialize (IH Hall).
  cbn [map] in IH |- *. rewrite join_cons, !to_chars_app, !length_app. cbn in IH |- *. lia.
Qed.

(** The text of a document is long enough to be the fuel. *)
Lemma weight_length ea j : wf j -> (weight j <= 2 * length (to_chars (dumps ea j)))%nat.
Proof.
  induction j as [|b|z|r|s|l IH|fields IH] using Json_nested_ind; intros Hwf;
    try (destruct (dumps_opening ea _ Hwf) as (c & t & -> & _); cbn; lia).
  - rewrite dumps_list, !to_chars_app, !length_app. inversion Hwf as [| | | | |? Hl|]; subst.
    assert (Forall (fun x => weight x <= 2 * length (to_chars (dumps ea x)))%nat l) as Hle
      by (rewrite !Forall_forall in *; auto).
    apply join_pays in Hle. cbn [weight length to_chars] in *. lia.
  - rewrite dumps_obj, !to_chars_app, !length_app. inversion Hwf as [| | | | | |? _ Hl]; subst.
    assert (Forall (fun kv => weight kv.2 <= 2 * length (to_chars (item ea kv)))%nat fields) as Hle.
    { rewrite !Forall_forall in *. intros kv Hkv. specialize (IH kv Hkv (Hl kv Hkv)).
      unfold item. rewrite !to_chars_app, !length_app. lia. }
    pose proof (sorted_keys_perm fields) as Hp. cbn [weight].
    remember (merge_sort key_le fields) as sorted eqn:Hs. clear Hs. rewrite <-Hp. rewrite <-Hp in Hle.
    apply join_pays in Hle. cbn [length to_chars] in *. lia.
Qed.

(** Reading what was written gives the document back, keys in order. *)
Theorem loads_dumps ea j : wf j -> loads (dumps ea j) = Some (canon j).
Proof.
  intros Hwf. unfold loads. rewrite <-(app_nil_r (to_chars _)).
  rewrite (read_back ea j Hwf); [done| |done]. pose proof (weight_length ea j Hwf).
  rewrite app_nil_r. lia.
Qed.
