(* ===== verification/Url.v ===== *)
(** * URLs

    What the source uses of [urllib.parse] on ASCII text: [urlsplit] with the components
    of the network location, [quote], [unquote] and [parse_qs].  Which bracketed (IPv6)
    hosts are accepted depends on the [ipaddress] module and is a parameter. *)

From S2P Require Import Prelude Text Json Enums Evidence Floats Checks.

Notation chars := (list ascii) (only parsing).

(** ** Splitting at characters *)

(** [text.partition(c)]: the part before the first [c], and the part after it if there is one *)
Fixpoint partition_at (p : ascii -> bool) (l : chars) : chars * option chars :=
  match l with
  | [] => ([], None)
  | c :: l' => if p c then ([], Some l')
               else let '(a, b) := partition_at p l' in (c :: a, b)
  end.

(** [text.rpartition(c)]: the part before the last [c] if there is one, and the part after it *)
Definition rpartition_at (p : ascii -> bool) (l : chars) : option chars * chars :=
  let '(b, a) := partition_at p (reverse l) in (reverse <$> a, reverse b).

Definition is_chr (code : Z) (c : ascii) : bool := ord c =? code.

(** ** [urlsplit] *)

Record SplitUrl := {
  url_scheme : chars;
  url_netloc : chars;
  url_path : chars;
  url_query : chars;
  url_fragment : chars;
}.

Definition scheme_character (c : ascii) : bool := is_alnum c || bool_decide (ord c ∈ [43; 45; 46]).

(** [url.lstrip] of control characters and spaces, then removal of tabs and line ends *)
Fixpoint strip_controls (l : chars) : chars :=
  match l with
  | c :: l' => if ord c <=? 32 then strip_controls l' else l
  | [] => []
  end.

Definition clean_url (l : chars) : chars :=
  filter (fun c => ord c ∉ [9; 10; 13]) (strip_controls l).

(** The scheme, when the text before the first colon is one, and the rest *)
Definition split_scheme (l : chars) : chars * chars :=
  match partition_at (is_chr 58) l with
  | (c :: s, Some rest) =>
      if (is_upper c || is_lower c) && forallb scheme_character s
      then (map char_lower (c :: s), rest) else ([], l)
  | _ => ([], l)
  end.

Definition netloc_end (c : ascii) : bool := bool_decide (ord c ∈ [47; 63; 35]).

Definition split_netloc (l : chars) : chars * chars :=
  match l with
  | a :: b :: rest =>
      if is_chr 47 a && is_chr 47 b then span (fun c => negb (netloc_end c)) rest else ([], l)
  | _ => ([], l)
  end.

Section bracketed.
Context (bracketed_ok : chars -> bool).

(** Brackets come in pairs, around an acceptable host *)
Definition netloc_ok (netloc : chars) : bool :=
  match existsb (is_chr 91) netloc, existsb (is_chr 93) netloc with
  | false, false => true
  | true, true => bracketed_ok netloc
  | _, _ => false
  end.

(** [urlsplit(url)]; [None] is a [ValueError]. *)
Definition urlsplit (url : chars) : option SplitUrl :=
  let '(scheme, rest) := split_scheme (clean_url url) in
  let '(netloc, rest) := split_netloc rest in
  if negb (netloc_ok netloc) then None
  else
    let '(rest, fragment) := partition_at (is_chr 35) rest in
    let '(path, query) := partition_at (is_chr 63) rest in
    Some {| url_scheme := scheme; url_netloc := netloc; url_path := path;
            url_query := default [] query; url_fragment := default [] fragment |}.

(** ** The network location *)

(** The host and the text of the port *)
Definition host_info (netloc : chars) : chars * option chars :=
  let host := (rpartition_at (is_chr 64) netloc).2 in
  let '(hostname, port) :=
    match partition_at (is_chr 91) host with
    | (_, Some bracketed) =>
        let '(hostname, rest) := partition_at (is_chr 93) bracketed in
        (hostname, (partition_at (is_chr 58) (default [] rest)).2)
    | (_, None) => partition_at (is_chr 58) host
    end in
  (hostname, match port with Some (c :: p) => Some (c :: p) | _ => None end).

(** [parsed.hostname.lower() if parsed.hostname else ""] *)
Definition host_name (netloc : chars) : chars := map char_lower (host_info netloc).1.

(** [parsed.port]; [None] is a [ValueError]. *)
Definition port_of (netloc : chars) : option (option Z) :=
  match (host_info netloc).2 with
  | None => Some None
  | Some p =>
      if forallb is_digit p && (int_of_digits p <=? 65535) then Some (Some (int_of_digits p)) else None
  end.

(** Whether [parsed.username] or [parsed.password] is given *)
Definition has_user (netloc : chars) : bool := isSome (rpartition_at (is_chr 64) netloc).1.

(** The triple the source compares: scheme, host and port *)
Definition Origin : Type := chars * chars * option Z.

Definition origin_of (u : SplitUrl) : option Origin :=
  port ← port_of (url_netloc u);
  Some (map char_lower (url_scheme u), host_name (url_netloc u), port).
End bracketed.

(** ** Quoting *)

(** The characters [quote(text, safe="")] leaves alone *)
Definition unreserved (c : ascii) : bool := is_alnum c || bool_decide (ord c ∈ [95; 46; 45; 126]).

Definition hex_digit (z : Z) : ascii := if z <? 10 then chr (48 + z) else chr (55 + z).

Definition quote (l : chars) : chars :=
  concat (map (fun c => if unreserved c then [c]
                        else [chr 37; hex_digit (ord c / 16); hex_digit (ord c mod 16)]) l).

Definition hex_code (c : ascii) : option Z :=
  if is_digit c then Some (ord c - 48)
  else if in_range 97 102 c then Some (ord c - 87)
  else if in_range 65 70 c then Some (ord c - 55)
  else None.

(** [unquote(text)]: the bytes; a byte above 127, which Python would go on to decode, is
    left as a character outside ASCII. *)
Fixpoint unquote (l : chars) : chars :=
  match l with
  | c :: l' =>
      if is_chr 37 c then
        match l' with
        | a :: b :: l'' =>
            match hex_code a, hex_code b with
            | Some x, Some y => chr (16 * x + y) :: unquote l''
            | _, _ => c :: unquote l'
            end
        | _ => c :: unquote l'
        end
      else c :: unquote l'
  | [] => []
  end.

(** ** Queries *)

Definition unquote_plus (l : chars) : string :=
  of_chars (unquote (map (fun c => if is_chr 43 c then chr 32 else c) l)).

Definition query_field (l : chars) : option (string * string) :=
  match partition_at (is_chr 61) l with
  | (name, Some value) => Some (unquote_plus name, unquote_plus value)
  | (_, None) => None
  end.

(** [parse_qs(query, keep_blank_values=True, strict_parsing=True, max_num_fields=n)] as the
    list of its fields; [None] is a [ValueError]. *)
Definition parse_qs (maximum : Z) (query : chars) : option (list (string * string)) :=
  if bool_decide (query = []) then Some []
  else let fields := split_on (chr 38) query in
       if maximum <? Z.of_nat (length fields) then None else mapM query_field fields.

(** ** Facts *)

Lemma partition_at_spec p l a b :
  partition_at p l = (a, b) ->
  Forall (fun c => p c = false) a /\
  match b with Some r => exists c, p c = true /\ l = a ++ c :: r | None => l = a end.
Proof.
  revert a b. induction l as [|c l IH]; intros a b; cbn; [by intros [= <- <-]|].
  destruct (p c) eqn:Hc; [intros [= <- <-]; eauto|].
  destruct (partition_at p l) as [a' b'] eqn:Hl. intros [= <- <-]. destruct (IH a' b' eq_refl) as [Ha Hb].
  split; [by constructor|]. destruct b' as [r|]; [|by rewrite Hb]. destruct Hb as (c' & Hc' & ->). eauto.
Qed.

Lemma partition_at_none p l : Forall (fun c => p c = false) l -> partition_at p l = (l, None).
Proof. induction 1 as [|c l Hc _ IH]; [done|]. cbn. by rewrite Hc, IH. Qed.

Lemma partition_at_app p a c r :
  Forall (fun c => p c = false) a -> p c = true -> partition_at p (a ++ c :: r) = (a, Some r).
Proof. induction 1 as [|x a Hx _ IH]; intros Hc; cbn; [by rewrite Hc|]. by rewrite Hx, IH. Qed.

Lemma quote_unreserved l : forallb unreserved l = true -> quote l = l.
Proof.
  unfold quote. induction l as [|c l IH]; [done|]. cbn [forallb map concat]. intros [Hc Hl]%andb_true_iff.
  rewrite Hc, IH by done. done.
Qed.

Lemma unquote_plain l : Forall (fun c => is_chr 37 c = false) l -> unquote l = l.
Proof. induction 1 as [|c l Hc _ IH]; [done|]. cbn. by rewrite Hc, IH. Qed.

(** Quoted text is read back. *)
Lemma hex_code_digit z : 0 <= z < 16 -> hex_code (hex_digit z) = Some z.
Proof.
  intros Hz. assert (z ∈ map Z.of_nat (seq 0 16)) as Hin.
  { apply list_elem_of_fmap. exists (Z.to_nat z). split; [lia|]. apply elem_of_seq. lia. }
  revert Hin. generalize z. apply Forall_forall. vm_compute. repeat constructor.
Qed.

Lemma ord_bound c : 0 <= ord c < 256.
Proof. unfold ord. pose proof (N_ascii_bounded c). lia. Qed.

Lemma chr_ord c : chr (ord c) = c.
Proof. unfold chr, ord. rewrite N2Z.id. apply ascii_N_embedding. Qed.

Theorem unquote_quote l : unquote (quote l) = l.
Proof.
  unfold quote. induction l as [|c l IH]; [done|]. cbn [map concat].
  destruct (unreserved c) eqn:Hc.
  - cbn [app unquote]. destruct (is_chr 37 c) eqn:H37; [|by rewrite IH].
    unfold is_chr in H37. apply Z.eqb_eq in H37. unfold unreserved, is_alnum, is_digit, is_upper, is_lower, in_range in Hc.
    rewrite H37 in Hc. done.
  - pose proof (ord_bound c). cbn [app unquote]. change (is_chr 37 (chr 37)) with true. cbv iota.
    rewrite !hex_code_digit by (split; [apply Z.div_pos + apply Z.mod_pos_bound; lia|
                                        (apply Z.div_lt_upper_bound; lia) + apply Z.mod_pos_bound; lia]).
    rewrite IH. f_equal. rewrite <-(chr_ord c) at 3. f_equal. pose proof (Z.div_mod (ord c) 16). lia.
Qed.
