(* ===== verification/Documents.v ===== *)
(** * Evidence documents: validation and fingerprints

    The pydantic models of [server/execution/evidence.py] as checks on the records of
    [Evidence]: every declared field bound and pattern, the validators, the rejection
    of local paths and credentials anywhere in the document, and the canonical
    fingerprint a complete document must carry.

    How a timestamp is written in JSON is the business of the serialization library,
    so it is a parameter, [isoformat]. *)

From Stdlib Require Import QArith.
From S2P Require Import Prelude Text Json TextPolicy Enums Catalog Evidence.
#[local] Open Scope Z_scope.

(** ** Patterns *)

(** A non-empty string whose first character is in [first] and the others in [next]. *)
Definition matches (first next : ascii -> bool) (s : string) : bool :=
  match to_chars s with c :: l => first c && forallb next l | [] => false end.

Definition one_of (codes : list Z) (c : ascii) : bool := existsb (fun z => ord c =? z) codes.
Definition lower_or_digit (c : ascii) : bool := is_digit c || is_lower c.

(** [^[A-Za-z0-9_.+-]+$] *)
Definition tool_pattern : string -> bool :=
  matches (fun c => is_alnum c || one_of [95; 46; 43; 45] c) (fun c => is_alnum c || one_of [95; 46; 43; 45] c).
(** [^[a-z0-9][a-z0-9-]*$] *)
Definition kind_pattern : string -> bool := matches lower_or_digit slug_char.
(** [^[a-z0-9][a-z0-9_.-]*$] *)
Definition identifier_pattern : string -> bool :=
  matches lower_or_digit (fun c => lower_or_digit c || one_of [95; 46; 45] c).
(** [^[a-z0-9][a-z0-9_.:-]*$] *)
Definition reason_pattern : string -> bool :=
  matches lower_or_digit (fun c => lower_or_digit c || one_of [95; 46; 58; 45] c).
(** The characters after the first: letters, digits and [!#$&^_.+/-]. *)
Definition media_pattern : string -> bool :=
  matches is_alnum (fun c => is_alnum c || one_of [33; 35; 36; 38; 94; 95; 46; 43; 47; 45] c).

Definition float_between (lo hi : Z) (f : PyFloat) : bool :=
  Qle_bool (inject_Z lo) (fl_value f) && Qle_bool (fl_value f) (inject_Z hi).

Definition at_most {A} (n : Z) (l : list A) : bool := Z.of_nat (length l) <=? n.

Definition TERMINAL_STATUSES : list string := ["succeeded"; "failed"; "timed_out"; "cancelled"].

(** ** Field checks *)

Definition valid_tool (t : ToolIdentity) : bool :=
  len_between 1 64 (tool_name t) && tool_pattern (tool_name t) && len_between 1 128 (tool_version t).

Definition valid_environment (e : EnvironmentIdentity) : bool :=
  len_between 1 64 (env_operating_system e) && len_between 1 64 (env_architecture e)
  && len_between 1 64 (env_python_version e) && at_most 32 (env_tools e)
  && forallb valid_tool (env_tools e) && SHA256 (env_fingerprint e).

Definition valid_coverage (c : ParsedCoverage) : bool :=
  float_between 0 100 (cov_measured_percent c) && valid_coverage_lines c.

Definition valid_audit (a : AuditSummary) : bool :=
  len_between 1 64 (audit_tool a) && tool_pattern (audit_tool a)
  && int_between 0 10000000 (audit_findings a).

Definition valid_parsed_result (r : ParsedResult) : bool :=
  opt_all valid_test_counts (pr_tests r) && opt_all valid_coverage (pr_coverage r)
  && opt_all valid_audit (pr_audit r) && opt_all (len_between 0 256) (pr_failure_reason r)
  && valid_parsed_shape r.

Definition valid_artifact (a : ArtifactRecord) : bool :=
  len_between 1 64 (art_kind a) && kind_pattern (art_kind a)
  && is_ok (validate_relative_path (art_relative_path a))
  && int_between 0 1099511627776 (art_size_bytes a) && SHA256 (art_sha256 a)
  && len_between 3 128 (art_media_type a) && media_pattern (art_media_type a)
  && bool_decide (art_redaction_state a ∈ ["none"; "redacted"])
  && opt_all (fun s => len_between 1 80 s && identifier_pattern s) (art_produced_by_step a).

Definition valid_lock (l : DependencyLockHash) : bool :=
  is_ok (validate_relative_path (lock_relative_path l)) && SHA256 (lock_sha256 l).

Definition valid_provenance (p : EvidenceReuseProvenance) : bool :=
  bool_decide (prov_decision p ∈ ["fresh"; "reused"; "unavailable"])
  && len_between 1 64 (prov_reason p) && reason_pattern (prov_reason p)
  && SHA256 (prov_reuse_identity_hash p)
  && opt_all (int_between 1 MAX_INT64) (prov_source_run_id p)
  && opt_all SHA256 (prov_source_evidence_fingerprint p) && valid_source_pair p.

Definition valid_step (s : StepEvidence) : bool :=
  len_between 1 80 (step_id s) && identifier_pattern (step_id s) && len_between 1 160 (step_title s)
  && bool_decide (step_status s ∈ TERMINAL_STATUSES)
  && float_between 0 86400 (step_duration_seconds s)
  && opt_all (int_between (-2147483648) 2147483647) (step_exit_code s)
  && opt_all (len_between 0 256) (step_terminal_reason s) && len_between 0 4096 (step_summary s)
  && at_most 2 (step_log_artifact_paths s)
  && forallb (fun p => is_ok (validate_relative_path p)) (step_log_artifact_paths s)
  && opt_all valid_parsed_result (step_parsed_result s)
  && (step_started_at s <=? step_finished_at s).

(** The fields of [ExecutionEvidenceDraft] and its validators. *)
Definition valid_draft (e : ExecutionEvidence) : bool :=
  int_between 1 MAX_INT64 (ev_work_order_id e) && int_between 1 MAX_INT64 (ev_run_id e)
  && len_between 3 255 (ev_repository_full_name e)
  && is_ok (validate_repository_full_name (ev_repository_full_name e))
  && COMMIT_SHA (ev_tested_sha e)
  && len_between 1 128 (ev_manifest_name e) && kind_pattern (ev_manifest_name e)
  && len_between 1 64 (ev_manifest_version e) && SHA256 (ev_manifest_digest e)
  && len_between 1 128 (ev_worker_id e) && valid_environment (ev_environment e)
  && at_most 32 (ev_dependency_lock_hashes e) && forallb valid_lock (ev_dependency_lock_hashes e)
  && float_between 0 86400 (ev_duration_seconds e)
  && bool_decide (ev_terminal_status e ∈ TERMINAL_STATUSES)
  && opt_all (len_between 0 256) (ev_terminal_reason e)
  && opt_all (fun s => len_between 1 80 s && identifier_pattern s) (ev_failing_step e)
  && at_most MAX_EVIDENCE_STEPS (ev_steps e) && forallb valid_step (ev_steps e)
  && at_most MAX_EVIDENCE_ARTIFACTS (ev_artifacts e) && forallb valid_artifact (ev_artifacts e)
  && forallb (len_between 1 64) [ev_dependency_lock_status e; ev_artifact_finalization_status e;
                                 ev_source_cleanup_status e; ev_local_record_status e]
  && opt_all valid_provenance (ev_reuse_provenance e) && valid_document e.

(** ** Serialization *)

Definition parser_value (p : ParserKind) : string :=
  match p with
  | P_PYTEST => "pytest" | P_COVERAGE => "coverage" | P_PYTEST_COVERAGE => "pytest-coverage"
  | P_SECURITY_AUDIT => "security-audit" | P_DEPENDENCY_AUDIT => "dependency-audit"
  | P_DEPENDENCY_HEALTH => "dependency-health" | P_CRITICAL_COVERAGE => "critical-coverage"
  | P_SECRET_SCAN => "secret-scan" | P_QUALITY_SUMMARY_V1 => "quality-summary-v1"
  end.

Definition audit_kind_value (k : AuditKind) : string :=
  match k with
  | AUDIT_SECURITY => "security" | AUDIT_DEPENDENCY => "dependency" | AUDIT_QUALITY => "quality"
  end.

Definition environment_json (e : EnvironmentIdentity) : Json :=
  JObj [("schema_version", JInt 1); ("operating_system", JStr (env_operating_system e));
        ("architecture", JStr (env_architecture e)); ("python_version", JStr (env_python_version e));
        ("tools", JList (map (fun t => JObj [("name", JStr (tool_name t));
                                             ("version", JStr (tool_version t))]) (env_tools e)));
        ("fingerprint", JStr (env_fingerprint e))].

Definition tests_json (t : ParsedTestCounts) : Json :=
  JObj [("passed", JInt (tc_passed t)); ("failed", JInt (tc_failed t));
        ("skipped", JInt (tc_skipped t)); ("errors", JInt (tc_errors t));
        ("xfailed", JInt (tc_xfailed t)); ("xpassed", JInt (tc_xpassed t));
        ("total", JInt (tc_total t))].

Definition parsed_result_json (r : ParsedResult) : Json :=
  JObj [("schema_version", JInt 1); ("parser", JStr (parser_value (pr_parser r)));
        ("status", JStr (if pr_parsed r then "parsed" else "parser_failed"));
        ("tests", json_opt tests_json (pr_tests r));
        ("coverage", json_opt (fun c => JObj [("measured_percent", JFloat (fl_repr (cov_measured_percent c)));
            ("covered_lines", json_opt JInt (cov_covered_lines c));
            ("total_lines", json_opt JInt (cov_total_lines c))]) (pr_coverage r));
        ("audit", json_opt (fun a => JObj [("kind", JStr (audit_kind_value (audit_kind a)));
            ("status", JStr (if audit_passed a then "passed" else "failed"));
            ("tool", JStr (audit_tool a)); ("findings", JInt (audit_findings a))]) (pr_audit r));
        ("failure_reason", json_opt JStr (pr_failure_reason r))].

Definition lock_json (l : DependencyLockHash) : Json :=
  JObj [("relative_path", JStr (lock_relative_path l)); ("sha256", JStr (lock_sha256 l))].

Definition provenance_json (p : EvidenceReuseProvenance) : Json :=
  JObj [("schema_version", JInt 1); ("decision", JStr (prov_decision p));
        ("reason", JStr (prov_reason p)); ("reuse_identity_hash", JStr (prov_reuse_identity_hash p));
        ("source_run_id", json_opt JInt (prov_source_run_id p));
        ("source_evidence_fingerprint", json_opt JStr (prov_source_evidence_fingerprint p))].

#[export] Instance ExecutionEvidence_rebuild : Rebuild ExecutionEvidence := fun e =>
  {| ev_work_order_id := ev_work_order_id e; ev_run_id := ev_run_id e;
     ev_repository_full_name := ev_repository_full_name e; ev_tested_sha := ev_tested_sha e;
     ev_manifest_name := ev_manifest_name e; ev_manifest_version := ev_manifest_version e;
     ev_manifest_digest := ev_manifest_digest e; ev_worker_id := ev_worker_id e;
     ev_environment := ev_environment e;
     ev_dependency_lock_hashes := ev_dependency_lock_hashes e;
     ev_started_at := ev_started_at e; ev_finished_at := ev_finished_at e;
     ev_duration_seconds := ev_duration_seconds e; ev_terminal_status := ev_terminal_status e;
     ev_terminal_reason := ev_terminal_reason e; ev_failing_step := ev_failing_step e;
     ev_steps := ev_steps e; ev_artifacts := ev_artifacts e;
     ev_dependency_lock_status := ev_dependency_lock_status e;
     ev_artifact_finalization_status := ev_artifact_finalization_status e;
     ev_source_cleanup_status := ev_source_cleanup_status e;
     ev_local_record_status := ev_local_record_status e;
     ev_reuse_provenance := ev_reuse_provenance e; ev_fingerprint := ev_fingerprint e |}.

Section serialization.
Context (isoformat : Z -> string).

Definition artifact_json (a : ArtifactRecord) : Json :=
  JObj [("schema_version", JInt 1); ("kind", JStr (art_kind a));
        ("relative_path", JStr (art_relative_path a)); ("size_bytes", JInt (art_size_bytes a));
        ("sha256", JStr (art_sha256 a)); ("media_type", JStr (art_media_type a));
        ("retention_expires_at", JStr (isoformat (art_retention_expires_at a)));
        ("redaction_state", JStr (art_redaction_state a));
        ("produced_by_step", json_opt JStr (art_produced_by_step a))].

Definition step_json (s : StepEvidence) : Json :=
  JObj [("schema_version", JInt 1); ("step_id", JStr (step_id s)); ("title", JStr (step_title s));
        ("status", JStr (step_status s)); ("started_at", JStr (isoformat (step_started_at s)));
        ("finished_at", JStr (isoformat (step_finished_at s)));
        ("duration_seconds", JFloat (fl_repr (step_duration_seconds s)));
        ("exit_code", json_opt JInt (step_exit_code s));
        ("terminal_reason", json_opt JStr (step_terminal_reason s));
        ("summary", JStr (step_summary s)); ("summary_truncated", JBool (step_summary_truncated s));
        ("log_artifact_paths", strings_json (step_log_artifact_paths s));
        ("parsed_result", json_opt parsed_result_json (step_parsed_result s))].

(** The members of the document other than the fingerprint; the provenance is left
    out when there is none. *)
Definition draft_fields (e : ExecutionEvidence) : list (string * Json) :=
  [("schema_version", JInt 1); ("work_order_id", JInt (ev_work_order_id e));
   ("run_id", JInt (ev_run_id e)); ("repository_full_name", JStr (ev_repository_full_name e));
   ("tested_sha", JStr (ev_tested_sha e)); ("manifest_name", JStr (ev_manifest_name e));
   ("manifest_version", JStr (ev_manifest_version e));
   ("manifest_digest", JStr (ev_manifest_digest e)); ("worker_id", JStr (ev_worker_id e));
   ("environment", environment_json (ev_environment e));
   ("dependency_lock_hashes", JList (map lock_json (ev_dependency_lock_hashes e)));
   ("started_at", JStr (isoformat (ev_started_at e)));
   ("finished_at", JStr (isoformat (ev_finished_at e)));
   ("duration_seconds", JFloat (fl_repr (ev_duration_seconds e)));
   ("terminal_status", JStr (ev_terminal_status e));
   ("terminal_reason", json_opt JStr (ev_terminal_reason e));
   ("failing_step", json_opt JStr (ev_failing_step e));
   ("steps", JList (map step_json (ev_steps e)));
   ("artifacts", JList (map artifact_json (ev_artifacts e)));
   ("dependency_lock_status", JStr (ev_dependency_lock_status e));
   ("artifact_finalization_status", JStr (ev_artifact_finalization_status e));
   ("source_cleanup_status", JStr (ev_source_cleanup_status e));
   ("local_record_status", JStr (ev_local_record_status e))]
  ++ match ev_reuse_provenance e with
     | Some p => [("reuse_provenance", provenance_json p)]
     | None => []
     end.

Definition canonical_evidence_json (e : ExecutionEvidence) : string :=
  dumps false (JObj (draft_fields e)).

Definition compute_evidence_fingerprint (e : ExecutionEvidence) : string :=
  sha256_hex (canonical_evidence_json e).

(** [reject_absolute_local_paths] on a document given by its members *)
Definition text_ok (fields : list (string * Json)) : bool :=
  is_ok (validate_no_absolute_local_paths (JObj fields)).

(** [ExecutionEvidence.model_validate] succeeds. *)
Definition valid_evidence (e : ExecutionEvidence) : bool :=
  text_ok (("fingerprint", JStr (ev_fingerprint e)) :: draft_fields e)
  && valid_draft e && SHA256 (ev_fingerprint e)
  && bool_decide (ev_fingerprint e = compute_evidence_fingerprint e).

(** [finalize_evidence]: the document with its fingerprint, if it validates. *)
Definition finalize_evidence (e : ExecutionEvidence) : option ExecutionEvidence :=
  let complete := e <| ev_fingerprint := compute_evidence_fingerprint e |> in
  if valid_evidence complete then Some complete else None.

(** [ArtifactRecord.model_validate] succeeds. *)
Definition valid_artifact_document (a : ArtifactRecord) : bool :=
  is_ok (validate_no_absolute_local_paths (artifact_json a)) && valid_artifact a.
End serialization.

(** [EvidenceReuseIdentity.model_validate] succeeds. *)
Definition valid_identity_document (i : EvidenceReuseIdentity) : bool :=
  is_ok (validate_no_absolute_local_paths (identity_json i)) && valid_reuse_identity i.

(** [ReuseCandidate(...)] succeeds: the parts are validated values already, the text
    check sees the strings of the candidate itself. *)
Definition valid_candidate_document (c : ReuseCandidate) : bool :=
  text_ok [("expected_source_worker_id", JStr (cand_expected_source_worker_id c));
           ("expected_source_evidence_fingerprint",
             JStr (cand_expected_source_evidence_fingerprint c));
           ("reuse_identity_hash", JStr (cand_reuse_identity_hash c))]
  && int_between 1 MAX_INT64 (cand_source_run_id c)
  && len_between 1 128 (cand_expected_source_worker_id c)
  && SHA256 (cand_expected_source_evidence_fingerprint c) && SHA256 (cand_reuse_identity_hash c)
  && at_most MAX_EVIDENCE_ARTIFACTS (cand_artifacts c) && valid_candidate c.

(** [ReuseCandidate.model_validate] of a stored candidate succeeds. *)
Definition valid_stored_candidate (isoformat : Z -> string) (c : ReuseCandidate) : bool :=
  text_ok [("source_created_at", JStr (isoformat (cand_source_created_at c)));
           ("retention_expires_at", JStr (isoformat (cand_retention_expires_at c)))]
  && valid_identity_document (cand_reuse_identity c)
  && forallb (valid_artifact_document isoformat) (cand_artifacts c)
  && valid_candidate_document c.
