(* ===== verification/Fingerprints.v ===== *)
(** * Fingerprints identify documents

    The hashes of [server/execution/evidence.py] are taken of canonical JSON.  Each record
    of [Evidence] has an encoder; an encoder is an instance of [Encodes] when its documents
    are well formed and differ for different values.  So two reuse identities, or two
    evidence documents, with one fingerprint are equal, unless two different texts
    with the same SHA-256 have been found. *)

From S2P Require Import Prelude Text Json Evidence Floats JsonCodec Documents.
From Stdlib Require Import QArith.
#[local] Open Scope Z_scope.

(** ** Objects with the same keys *)

Lemma assoc_perm_eq {A} (a b : list (string * A)) :
  a ≡ₚ b -> a.*1 = b.*1 -> NoDup a.*1 -> a = b.
Proof.
  revert b. induction a as [|[k v] a IH]; intros [|[k' v'] b] Hp Hk Hnd; try done.
  rewrite !fmap_cons in Hk, Hnd. injection Hk as -> Hk. apply NoDup_cons in Hnd as [Hnot Hnd].
  assert (v = v') as ->.
  { assert ((k', v) ∈ (k', v') :: b) as Hin by (rewrite <-Hp; left).
    apply elem_of_cons in Hin as [[= ->]|Hin]; [done|]. destruct Hnot. rewrite Hk.
    apply list_elem_of_fmap. by exists (k', v). }
  f_equal. apply IH; [|done|done]. by apply Permutation_cons_inv in Hp.
Qed.

(** Objects with the same keys are told apart by their values. *)
Lemma canon_values (f1 f2 : list (string * Json)) :
  NoDup f1.*1 -> f1.*1 = f2.*1 -> canon (JObj f1) = canon (JObj f2) ->
  map canon f1.*2 = map canon f2.*2.
Proof.
  intros Hnd Hk Hc. cbn [canon] in Hc. injection Hc as Hc.
  set (g := fun kv : string * Json => (kv.1, canon kv.2)) in Hc.
  assert (forall f, (map g f).*1 = f.*1) as Hfst
    by (intros f; induction f as [|[] f IHf]; cbn; [done|by rewrite <-IHf]).
  assert (forall f, (map g f).*2 = map canon f.*2) as Hsnd
    by (intros f; induction f as [|[] f IHf]; cbn; [done|by rewrite <-IHf]).
  rewrite <-!Hsnd. f_equal. apply assoc_perm_eq; [|by rewrite !Hfst|by rewrite Hfst].
  by rewrite <-(sorted_keys_perm (map g f1)), Hc, sorted_keys_perm.
Qed.

(** Canonical objects with different keys differ. *)
Lemma canon_keys f1 f2 : canon (JObj f1) = canon (JObj f2) -> f1.*1 ≡ₚ f2.*1.
Proof.
  cbn [canon]. intros [= Hc]. set (g := fun kv : string * Json => (kv.1, canon kv.2)) in Hc.
  assert (forall f, (map g f).*1 = f.*1) as Hfst
    by (intros f; induction f as [|[] f IHf]; cbn; [done|by rewrite <-IHf]).
  rewrite <-(Hfst f1), <-(Hfst f2), <-(sorted_keys_perm (map g f1)), Hc. by rewrite sorted_keys_perm.
Qed.

(** ** Encoders *)

Class Encodes {A} (ok : A -> Prop) (enc : A -> Json) : Prop := {
  encodes_wf a : ok a -> wf (enc a);
  encodes_inj a b : ok a -> ok b -> canon (enc a) = canon (enc b) -> a = b;
  encodes_some a : canon (enc a) <> JNull;
}.

Definition always {A} (_ : A) : Prop := True.

#[export] Instance encodes_str : Encodes always JStr.
Proof. split; [constructor|by intros ?? _ _ [=]|done]. Qed.
#[export] Instance encodes_int : Encodes always JInt.
Proof. split; [constructor|by intros ?? _ _ [=]|done]. Qed.
#[export] Instance encodes_bool : Encodes always JBool.
Proof. split; [constructor|by intros ?? _ _ [=]|done]. Qed.

(** A float: its [repr] is a JSON number and reads to its value. *)
Definition float_value (r : string) : option Q :=
  let '(sign, l) := match to_chars r with
                    | c :: l => if is_code 45 c then (true, l) else (false, c :: l)
                    | [] => (false, [])
                    end in
  '(whole, r1) ← integer_part l;
  let '(fraction, r2) := fraction_part r1 in
  let '(exponent, _) := exponent_part r2 in
  let ds := default [] fraction in
  fl_value <$> float_of_decimal sign (int_of_digits (whole ++ ds))
                 (default 0 exponent - Z.of_nat (length ds)).

Definition proper_float (f : PyFloat) : Prop :=
  float_text (fl_repr f) /\ float_value (fl_repr f) = Some (fl_value f).

#[export] Instance encodes_float : Encodes proper_float (fun f => JFloat (fl_repr f)).
Proof.
  split; [by intros a [? _]; constructor| |done].
  intros [r v] [r' v'] [_ Hv] [_ Hv'] [= ->]. cbn in *. f_equal. congruence.
Qed.

Definition opt_ok {A} (ok : A -> Prop) (o : option A) : Prop :=
  match o with Some a => ok a | None => True end.

Lemma json_opt_wf {A} ok (enc : A -> Json) `{!Encodes ok enc} o : opt_ok ok o -> wf (json_opt enc o).
Proof. destruct o; cbn; [apply encodes_wf|constructor]. Qed.

Lemma json_opt_inj {A} ok (enc : A -> Json) `{!Encodes ok enc} a b :
  opt_ok ok a -> opt_ok ok b -> canon (json_opt enc a) = canon (json_opt enc b) -> a = b.
Proof.
  destruct a as [a|], b as [b|]; cbn; intros Ha Hb Heq.
  - by rewrite (encodes_inj a b Ha Hb Heq).
  - by destruct (encodes_some a).
  - by destruct (encodes_some b).
  - done.
Qed.

Lemma json_list_wf {A} ok (enc : A -> Json) `{!Encodes ok enc} l :
  Forall ok l -> wf (JList (map enc l)).
Proof. intros Hl. constructor. induction Hl; constructor; [by apply encodes_wf|done]. Qed.

Lemma json_list_inj {A} ok (enc : A -> Json) `{!Encodes ok enc} l1 l2 :
  Forall ok l1 -> Forall ok l2 ->
  map canon (map enc l1) = map canon (map enc l2) -> l1 = l2.
Proof.
  intros H1. revert l2. induction H1 as [|x l1 Hx H1 IH]; intros [|y l2] H2 Heq; try done.
  apply Forall_cons in H2 as [Hy H2]. injection Heq as Hxy Heq.
  f_equal; [by apply encodes_inj|by apply IH].
Qed.

Lemma always_list {A} (l : list A) : Forall always l.
Proof. induction l; constructor; done. Qed.
Lemma always_opt {A} (o : option A) : opt_ok always o.
Proof. by destruct o. Qed.

#[export] Hint Resolve always_list always_opt : encodes.
#[export] Hint Extern 0 (always _) => exact I : encodes.

Ltac literal_keys :=
  match goal with |- NoDup ?l => refine (bool_decide_unpack (NoDup l) _); vm_compute; exact I end.

(** A document of literal keys is well formed when its values are. *)
Ltac wf_object :=
  constructor;
  [literal_keys
  |repeat first [apply List.Forall_nil | apply List.Forall_cons]; cbn [snd];
   try solve [constructor | apply encodes_wf; eauto with encodes
             | eapply json_opt_wf; [apply _|eauto with encodes]
             | eapply json_list_wf; [apply _|eauto with encodes]]].

(** The values of two equal documents with the same literal keys are equal. *)
Ltac split_object H :=
  apply canon_values in H;
  [|literal_keys|reflexivity];
  cbn [map fmap list_fmap snd canon] in H; injection H as;
  repeat match goal with
  | H : canon (json_opt ?f ?a) = canon (json_opt ?f ?b) |- _ =>
      eapply (json_opt_inj _ f) in H; [|solve [eauto with encodes]..]
  | H : map canon (map ?f ?a) = map canon (map ?f ?b) |- _ =>
      eapply (json_list_inj _ f) in H; [|solve [eauto with encodes]..]
  end.

(** ** The records *)

Definition lock_object (l : DependencyLockHash) : Json :=
  JObj [("relative_path", JStr (lock_relative_path l)); ("sha256", JStr (lock_sha256 l))].

#[export] Instance encodes_lock : Encodes always lock_object.
Proof.
  split; [intros [] _; wf_object| |done].
  intros [] [] _ _ H. split_object H. by simplify_eq.
Qed.

#[export] Instance encodes_identity : Encodes always identity_json.
Proof.
  split; [intros [] _; unfold identity_json; wf_object| |done].
  intros [] [] _ _ H. unfold identity_json in H. split_object H. by simplify_eq/=.
Qed.

Definition tool_object (t : ToolIdentity) : Json :=
  JObj [("name", JStr (tool_name t)); ("version", JStr (tool_version t))].

#[export] Instance encodes_tool : Encodes always tool_object.
Proof.
  split; [intros [] _; wf_object| |done]. intros [] [] _ _ H. split_object H. by simplify_eq.
Qed.

#[export] Instance encodes_environment : Encodes always environment_json.
Proof.
  split; [intros [] _; unfold environment_json; wf_object| |done].
  intros [] [] _ _ H. unfold environment_json in H. split_object H. by simplify_eq/=.
Qed.

#[export] Instance encodes_locks : Encodes always lock_json.
Proof. exact encodes_lock. Qed.

#[export] Instance encodes_tests : Encodes always tests_json.
Proof.
  split; [intros [] _; unfold tests_json; wf_object| |done].
  intros [] [] _ _ H. unfold tests_json in H. split_object H. by simplify_eq/=.
Qed.

Definition coverage_object (c : ParsedCoverage) : Json :=
  JObj [("measured_percent", JFloat (fl_repr (cov_measured_percent c)));
        ("covered_lines", json_opt JInt (cov_covered_lines c));
        ("total_lines", json_opt JInt (cov_total_lines c))].

Definition coverage_ok (c : ParsedCoverage) : Prop := proper_float (cov_measured_percent c).

#[export] Instance encodes_coverage : Encodes coverage_ok coverage_object.
Proof.
  split; [| |done].
  - intros [f c t] Hf. unfold coverage_object. wf_object. by constructor; apply Hf.
  - intros [f c t] [f' c' t'] Hf Hf' H. unfold coverage_object in H. split_object H. simplify_eq/=.
    f_equal. by apply (encodes_inj f f' Hf Hf'); cbn; f_equal.
Qed.

Definition audit_object (a : AuditSummary) : Json :=
  JObj [("kind", JStr (audit_kind_value (audit_kind a)));
        ("status", JStr (if audit_passed a then "passed" else "failed"));
        ("tool", JStr (audit_tool a)); ("findings", JInt (audit_findings a))].

#[export] Instance encodes_audit : Encodes always audit_object.
Proof.
  split; [intros [] _; unfold audit_object; wf_object| |done].
  intros [k p ? ?] [k' p' ? ?] _ _ H. unfold audit_object in H. split_object H.
  destruct k, k', p, p'; by simplify_eq/=.
Qed.

Definition parsed_ok (r : ParsedResult) : Prop := opt_ok coverage_ok (pr_coverage r).

#[export] Instance encodes_parsed : Encodes parsed_ok parsed_result_json.
Proof.
  split; [| |done].
  - intros [] Hc. unfold parsed_result_json. wf_object.
  - intros [p st te co au fr] [p' st' te' co' au' fr'] Hc Hc' H. unfold parsed_result_json in H.
    split_object H. cbn in *.
    destruct p, p'; try done; destruct st, st'; by simplify_eq/=.
Qed.

#[export] Instance encodes_provenance : Encodes always provenance_json.
Proof.
  split; [intros [] _; unfold provenance_json; wf_object| |done].
  intros [] [] _ _ H. unfold provenance_json in H. split_object H. by simplify_eq/=.
Qed.

Section evidence.
Context (isoformat : Z -> string) `{!Inj (=) (=) isoformat}.

#[export] Instance encodes_artifact : Encodes always (artifact_json isoformat).
Proof.
  split; [intros [] _; unfold artifact_json; wf_object| |done].
  intros [] [] _ _ H. unfold artifact_json in H. split_object H. by simplify_eq/=.
Qed.

Definition step_ok (s : StepEvidence) : Prop :=
  proper_float (step_duration_seconds s) /\ opt_ok parsed_ok (step_parsed_result s).

#[export] Instance encodes_step : Encodes step_ok (step_json isoformat).
Proof.
  split; [| |done].
  - intros [] [[Hf _] Hp]. unfold step_json. cbn in *. wf_object. by constructor.
  - intros [????? d ??????] [????? d' ??????] [Hf Hp] [Hf' Hp'] H.
    unfold step_json in H. split_object H. cbn in *.
    assert (d = d') as -> by (apply (encodes_inj d d' Hf Hf'); cbn; congruence).
    by simplify_eq/=.
Qed.

Definition document_ok (e : ExecutionEvidence) : Prop :=
  proper_float (ev_duration_seconds e) /\ Forall step_ok (ev_steps e).

Lemma draft_fields_wf e : document_ok e -> wf (JObj (draft_fields isoformat e)).
Proof.
  intros [[Hf _] Hs]. destruct e. unfold draft_fields. cbn in *. destruct ev_reuse_provenance; wf_object.
  all: try by constructor.
  all: by apply (json_list_wf step_ok (step_json isoformat)).
Qed.

(** Equal members: the documents agree in every field but the fingerprint. *)
Lemma draft_fields_inj e e' :
  document_ok e -> document_ok e' ->
  canon (JObj (draft_fields isoformat e)) = canon (JObj (draft_fields isoformat e')) ->
  e' = e <| ev_fingerprint := ev_fingerprint e' |>.
Proof.
  intros [Hf Hs] [Hf' Hs'] H. 
  destruct e as [???????? env ??? d ????????? p ?], e' as [???????? env' ??? d' ????????? p' ?].
  cbn in Hf, Hs, Hf', Hs'. unfold draft_fields in H. cbn [ev_reuse_provenance] in H.
  destruct p as [p|], p' as [p'|];
    try (apply canon_keys, Permutation_length in H; discriminate H).
  all: cbn [app] in H; split_object H; cbn in *.
  all: assert (d = d') as -> by (apply (encodes_inj d d' Hf Hf'); cbn; congruence).
  - destruct env, env', p, p'. by simplify_eq/=.
  - destruct env, env'. by simplify_eq/=.
Qed.
End evidence.

(** ** The theorems *)

(** Two different texts with the same SHA-256. *)
Definition collision (a b : string) : Prop := a <> b /\ sha256_hex a = sha256_hex b.

Lemma same_text ea j k : wf j -> wf k -> dumps ea j = dumps ea k -> canon j = canon k.
Proof.
  intros Hj Hk Heq. pose proof (loads_dumps ea j Hj) as H1. rewrite Heq, loads_dumps in H1 by done.
  by simplify_eq.
Qed.

(** Reuse identities with one hash are equal, unless their canonical texts collide. *)
Theorem reuse_hash_identifies i j :
  compute_reuse_identity_hash i = compute_reuse_identity_hash j ->
  i = j \/ collision (canonical_reuse_identity_json i) (canonical_reuse_identity_json j).
Proof.
  intros Hh.
  destruct (decide (canonical_reuse_identity_json i = canonical_reuse_identity_json j)) as [Heq|];
    [left|by right].
  apply (encodes_inj i j I I), (same_text false); [by apply encodes_wf..|exact Heq].
Qed.

(** C38. Valid evidence with one fingerprint is the same evidence, unless the canonical
    texts collide. *)
Theorem evidence_fingerprint_identifies isoformat e e' :
  Inj (=) (=) isoformat -> document_ok e -> document_ok e' ->
  valid_evidence isoformat e = true -> valid_evidence isoformat e' = true ->
  ev_fingerprint e = ev_fingerprint e' ->
  e = e' \/ collision (canonical_evidence_json isoformat e) (canonical_evidence_json isoformat e').
Proof.
  intros Hinj He He' Hv Hv' Hf. unfold valid_evidence in Hv, Hv'.
  apply andb_true_iff in Hv as [_ Hv%bool_decide_eq_true], Hv' as [_ Hv'%bool_decide_eq_true].
  destruct (decide (canonical_evidence_json isoformat e = canonical_evidence_json isoformat e')) as [Heq|].
  - left. apply same_text, draft_fields_inj in Heq; auto using draft_fields_wf.
    rewrite Heq, <-Hf. by destruct e.
  - right. split; [done|]. unfold compute_evidence_fingerprint in *. congruence.
Qed.

(** The canonical text of evidence is read back as its members, in key order. *)
Theorem evidence_json_round_trip isoformat e :
  Inj (=) (=) isoformat -> document_ok e ->
  loads (canonical_evidence_json isoformat e) = Some (canon (JObj (draft_fields isoformat e))).
Proof. intros Hi He. by apply loads_dumps, draft_fields_wf. Qed.
