(* ===== verification/Registry.v ===== *)
(** * Trusted command manifests

    [server/execution/registry.py]: reviewed artifacts, fixed-argv steps and
    manifests, their construction checks, the digest that binds every
    execution-relevant field, and the lookup by immutable identity.  The three
    manifests the file itself declares are transcribed at the end, and their
    digests computed. *)

From S2P Require Import Prelude Text Json TextPolicy Enums Catalog Evidence.

Definition MAX_TRUSTED_STEP_ID_LENGTH : Z := 80.
Definition MAX_TRUSTED_STEP_OUTPUT_SUMMARY_BYTES : Z := 64 * 1024.

Record TrustedArtifact := {
  ta_kind : string;
  ta_relative_path : string;
  ta_media_type : string;
  ta_redaction_state : string;
}.

(** [TrustedArtifact.__post_init__] *)
Definition check_artifact (a : TrustedArtifact) : Result string unit :=
  let kind_ok :=
    match to_chars (ta_kind a) with
    | c :: l => (is_digit c || is_lower c) && (Z.of_nat (length l) <=? 63) && forallb slug_char l
    | [] => false
    end in
  if negb kind_ok then Err "trusted artifact kind is invalid"
  else match validate_relative_path (ta_relative_path a) with
  | Err e => Err e
  | Ok _ =>
      if negb (len_between 3 128 (ta_media_type a))
         || negb (bool_decide (ta_redaction_state a ∈ ["none"; "redacted"]))
      then Err "trusted artifact metadata is invalid"
      else Ok tt
  end.

Definition artifact_safe_metadata (a : TrustedArtifact) : Json :=
  JObj [("kind", JStr (ta_kind a)); ("media_type", JStr (ta_media_type a));
        ("redaction_state", JStr (ta_redaction_state a));
        ("relative_path", JStr (ta_relative_path a))].

Record TrustedStep := {
  ts_id : string;
  ts_title : string;
  ts_argv : list string;
  ts_required : bool;
  ts_timeout_seconds : Z;
  ts_output_summary_limit : Z;
  ts_working_directory : string;
  ts_environment : list (string * string);
  ts_capability_condition : option (list (string * Json));
  ts_diagnostic_only : bool;
  ts_parser_kind : option string;
  ts_artifacts : list TrustedArtifact;
}.

Definition PARSER_KINDS : list string :=
  ["pytest"; "coverage"; "pytest-coverage"; "security-audit"; "dependency-audit";
   "dependency-health"; "critical-coverage"; "quality-summary-v1"; "secret-scan"].

(** [key.replace("_", "a").isalnum()] of a non-empty key *)
Definition env_key_ok (key : string) : bool :=
  negb (bool_decide (key = "")) && all_chars (fun c => is_alnum c || (ord c =? 95)) key.

(** [TrustedStep.__post_init__] *)
Definition check_step (s : TrustedStep) : Result string unit :=
  if bool_decide (ts_id s = "") || bool_decide (ts_title s = "")
     || (MAX_TRUSTED_STEP_ID_LENGTH <? str_length (ts_id s))
  then Err "trusted step identity must not be empty"
  else if bool_decide (ts_argv s = []) || existsb (fun i => bool_decide (i = "")) (ts_argv s)
  then Err "trusted step argv must contain fixed non-empty items"
  else if ts_timeout_seconds s <=? 0
  then Err "trusted step timeout must be positive"
  else if negb (int_between 1 MAX_TRUSTED_STEP_OUTPUT_SUMMARY_BYTES (ts_output_summary_limit s))
  then Err "trusted step output summary limit is out of bounds"
  else if starts_with [chr 47] (to_chars (ts_working_directory s))
          || bool_decide (".." ∈ posix_parts (ts_working_directory s))
  then Err "trusted step working directory must remain relative"
  else if ts_required s && ts_diagnostic_only s
  then Err "a required step cannot be diagnostic-only"
  else if negb (opt_all (fun k => bool_decide (k ∈ PARSER_KINDS)) (ts_parser_kind s))
  then Err "trusted step parser kind is unsupported"
  else if negb (bool_decide (NoDup (map ta_relative_path (ts_artifacts s))))
  then Err "trusted step artifact paths must be unique"
  else if negb (bool_decide (NoDup (map fst (ts_environment s))))
          || existsb (fun kv => negb (env_key_ok kv.1) || bool_decide (kv.2 = "")) (ts_environment s)
  then Err "trusted step environment must contain unique valid values"
  else Ok tt.

(** Truthiness of an optional string and of an optional dict. *)
Definition truthy_string (o : option string) : option string :=
  match o with Some s => if bool_decide (s = "") then None else Some s | None => None end.
Definition truthy_dict (o : option (list (string * Json))) : option (list (string * Json)) :=
  match o with Some [] => None | _ => o end.

Definition digest_payload (s : TrustedStep) : Json :=
  JObj ([("argv", strings_json (ts_argv s));
         ("capability_condition", json_opt JObj (ts_capability_condition s));
         ("diagnostic_only", JBool (ts_diagnostic_only s));
         ("environment", JList (map (fun kv => strings_json [kv.1; kv.2]) (ts_environment s)));
         ("id", JStr (ts_id s));
         ("output_summary_limit", JInt (ts_output_summary_limit s));
         ("required", JBool (ts_required s));
         ("timeout_seconds", JInt (ts_timeout_seconds s));
         ("title", JStr (ts_title s));
         ("working_directory", JStr (ts_working_directory s))]
        ++ match truthy_string (ts_parser_kind s) with
           | Some k => [("parser_kind", JStr k)] | None => [] end
        ++ match ts_artifacts s with
           | [] => [] | l => [("artifacts", JList (map artifact_safe_metadata l))] end).

Definition step_safe_metadata (s : TrustedStep) : Json :=
  JObj ([("id", JStr (ts_id s)); ("required", JBool (ts_required s));
         ("timeout_seconds", JInt (ts_timeout_seconds s));
         ("output_summary_limit", JInt (ts_output_summary_limit s))]
        ++ match truthy_dict (ts_capability_condition s) with
           | Some c => [("capability_condition", JObj c)] | None => [] end
        ++ (if ts_diagnostic_only s then [("diagnostic_only", JBool true)] else [])
        ++ match ts_environment s with
           | [] => []
           | l => [("environment_keys", strings_json (sort_strings (map fst l)))] end
        ++ match truthy_string (ts_parser_kind s) with
           | Some k => [("parser_kind", JStr k)] | None => [] end
        ++ match ts_artifacts s with
           | [] => [] | l => [("artifacts", JList (map artifact_safe_metadata l))] end).

Record TrustedManifest := {
  tm_name : string;
  tm_version : string;
  tm_schema_version : Z;
  tm_description : string;
  tm_registry_source : string;
  tm_required_capabilities : list (string * Json);
  tm_fixed_step_metadata : list Json;
  tm_environment_policy : list (string * Json);
  tm_network_policy : NetworkPolicy;
  tm_repository_write_policy : RepositoryWritePolicy;
  tm_timeout_seconds : Z;
  tm_artifact_declarations : list Json;
  tm_allowed_parameters : list string;
  tm_execution_steps : list TrustedStep;
  tm_dependency_lock_paths : list string;
  tm_result_contract : option (list (string * Json));
}.

(** [TrustedManifest.__post_init__] *)
Definition check_manifest (m : TrustedManifest) : Result string unit :=
  if negb (bool_decide (tm_execution_steps m = [] : Prop))
     && negb (py_eq (JList (tm_fixed_step_metadata m))
                (JList (map step_safe_metadata (tm_execution_steps m))))
  then Err "fixed_step_metadata must match safe executable-step metadata"
  else match validate_all_paths (tm_dependency_lock_paths m) with
       | Err e => Err e
       | Ok _ => Ok tt
       end.

(** [TrustedManifest.digest] *)
Definition manifest_payload (m : TrustedManifest) : Json :=
  JObj ([("allowed_parameters", strings_json (sort_strings (tm_allowed_parameters m)));
         ("artifact_declarations", JList (tm_artifact_declarations m));
         ("description", JStr (tm_description m));
         ("environment_policy", JObj (tm_environment_policy m));
         ("fixed_step_metadata", JList (tm_fixed_step_metadata m));
         ("name", JStr (tm_name m));
         ("network_policy", JStr (network_policy_value (tm_network_policy m)));
         ("registry_source", JStr (tm_registry_source m));
         ("repository_write_policy",
           JStr (repository_write_policy_value (tm_repository_write_policy m)));
         ("required_capabilities", JObj (tm_required_capabilities m));
         ("schema_version", JInt (tm_schema_version m));
         ("timeout_seconds", JInt (tm_timeout_seconds m));
         ("version", JStr (tm_version m))]
        ++ match tm_execution_steps m with
           | [] => [] | l => [("execution_steps", JList (map digest_payload l))] end
        ++ match tm_dependency_lock_paths m with
           | [] => [] | l => [("dependency_lock_paths", strings_json l)] end
        ++ match tm_result_contract m with
           | None => [] | Some c => [("result_contract", JObj c)] end).

Definition tm_digest (m : TrustedManifest) : string :=
  sha256_hex (dumps true (manifest_payload m)).

(** [get_trusted_manifest] over [_TRUSTED_MANIFESTS]. *)
Definition get_trusted_manifest (registry : list TrustedManifest) (name version : string)
    : option TrustedManifest :=
  head (filter (fun m => tm_name m = name /\ tm_version m = version) registry).

Lemma get_trusted_manifest_Some registry name version m :
  get_trusted_manifest registry name version = Some m ->
  m ∈ registry /\ tm_name m = name /\ tm_version m = version.
Proof.
  unfold get_trusted_manifest. intros Hh%head_Some_elem_of.
  apply list_elem_of_filter in Hh as [[? ?] ?]. auto.
Qed.

(** ** The manifests declared in the registry source *)

Definition log_artifacts (step_id : string) : list TrustedArtifact :=
  [ {| ta_kind := "command-log"; ta_relative_path := "logs/" +:+ step_id +:+ ".stdout.log";
       ta_media_type := "text/plain"; ta_redaction_state := "none" |};
    {| ta_kind := "command-log"; ta_relative_path := "logs/" +:+ step_id +:+ ".stderr.log";
       ta_media_type := "text/plain"; ta_redaction_state := "none" |} ].

Definition FIXED_VALIDATION_ENVIRONMENT : list (string * string) :=
  [("PYTHONDONTWRITEBYTECODE", "1"); ("PYTHONUTF8", "1")].

Definition ACCOUNTING_ENVIRONMENT : list (string * string) :=
  FIXED_VALIDATION_ENVIRONMENT ++ [("PYTHONPATH", "src")].

Definition accounting_step (id title : string) (argv : list string) (timeout_seconds : Z)
    (parser_kind : option string) (artifacts : list TrustedArtifact) : TrustedStep :=
  {| ts_id := id; ts_title := title; ts_argv := argv; ts_required := true;
     ts_timeout_seconds := timeout_seconds; ts_output_summary_limit := 4096;
     ts_working_directory := "."; ts_environment := ACCOUNTING_ENVIRONMENT;
     ts_capability_condition := None; ts_diagnostic_only := false;
     ts_parser_kind := parser_kind; ts_artifacts := log_artifacts id ++ artifacts |}.

Definition WORKER_SMOKE_STEPS : list TrustedStep :=
     [ {| ts_id := "python-version"; ts_title := "Record Python version";
         ts_argv := ["python"; "--version"];
         ts_required := true; ts_timeout_seconds := 60; ts_output_summary_limit := 4096;
         ts_working_directory := "."; ts_environment := [];
         ts_capability_condition := None; ts_diagnostic_only := false;
         ts_parser_kind := None; ts_artifacts := [] |};
       {| ts_id := "git-head"; ts_title := "Verify detached checkout commit identity";
         ts_argv := ["git"; "rev-parse"; "HEAD"];
         ts_required := true; ts_timeout_seconds := 60; ts_output_summary_limit := 4096;
         ts_working_directory := "."; ts_environment := [];
         ts_capability_condition := None; ts_diagnostic_only := false;
         ts_parser_kind := None; ts_artifacts := [] |} ].

Definition VALIDATE_SWITCHBOARD_STEPS : list TrustedStep :=
     [ {| ts_id := "python-version"; ts_title := "Record Python version";
         ts_argv := ["python"; "--version"];
         ts_required := true; ts_timeout_seconds := 60; ts_output_summary_limit := 4096;
         ts_working_directory := "."; ts_environment := FIXED_VALIDATION_ENVIRONMENT;
         ts_capability_condition := None; ts_diagnostic_only := false;
         ts_parser_kind := None; ts_artifacts := log_artifacts "python-version" |};
       {| ts_id := "dependency-health"; ts_title := "Validate installed dependency consistency";
         ts_argv := ["python"; "-m"; "pip"; "check"];
         ts_required := false; ts_timeout_seconds := 300; ts_output_summary_limit := 4096;
         ts_working_directory := "."; ts_environment := FIXED_VALIDATION_ENVIRONMENT;
         ts_capability_condition := None; ts_diagnostic_only := true;
         ts_parser_kind := Some "dependency-audit"; ts_artifacts := log_artifacts "dependency-health" |};
       {| ts_id := "lint"; ts_title := "Run Ruff without fixes";
         ts_argv := ["python"; "-m"; "ruff"; "check"; "--no-fix"; "server"; "client";
          "scripts"; "tests"; "web"; "switchboard_cli.py";
          "switchboard_client.py"];
         ts_required := true; ts_timeout_seconds := 600; ts_output_summary_limit := 4096;
         ts_working_directory := "."; ts_environment := FIXED_VALIDATION_ENVIRONMENT;
         ts_capability_condition := None; ts_diagnostic_only := false;
         ts_parser_kind := None; ts_artifacts := log_artifacts "lint" |};
       {| ts_id := "format"; ts_title := "Check Black formatting";
         ts_argv := ["python"; "-m"; "black"; "--check"; "server"; "client"; "scripts";
          "tests"; "web"; "switchboard_cli.py"; "switchboard_client.py"];
         ts_required := true; ts_timeout_seconds := 600; ts_output_summary_limit := 4096;
         ts_working_directory := "."; ts_environment := FIXED_VALIDATION_ENVIRONMENT;
         ts_capability_condition := None; ts_diagnostic_only := false;
         ts_parser_kind := None; ts_artifacts := log_artifacts "format" |};
       {| ts_id := "typecheck"; ts_title := "Run the configured Mypy checks";
         ts_argv := ["python"; "-m"; "mypy"; "--config-file"; "mypy.ini"; "server";
          "client"; "scripts"];
         ts_required := true; ts_timeout_seconds := 900; ts_output_summary_limit := 4096;
         ts_working_directory := "."; ts_environment := FIXED_VALIDATION_ENVIRONMENT;
         ts_capability_condition := None; ts_diagnostic_only := false;
         ts_parser_kind := None; ts_artifacts := log_artifacts "typecheck" |};
       {| ts_id := "tests-with-coverage"; ts_title := "Run tests with measured server coverage";
         ts_argv := ["python"; "-m"; "pytest"; "-q"; "-p"; "no:cacheprovider";
          "--cov=server"; "--cov-report=term"];
         ts_required := true; ts_timeout_seconds := 1800; ts_output_summary_limit := 4096;
         ts_working_directory := "."; ts_environment := FIXED_VALIDATION_ENVIRONMENT;
         ts_capability_condition := None; ts_diagnostic_only := false;
         ts_parser_kind := Some "pytest-coverage"; ts_artifacts := log_artifacts "tests-with-coverage" |};
       {| ts_id := "security-audit"; ts_title := "Run the Bandit server audit";
         ts_argv := ["python"; "-m"; "bandit"; "-q"; "-r"; "server"; "-x"; "server/tests"];
         ts_required := true; ts_timeout_seconds := 600; ts_output_summary_limit := 4096;
         ts_working_directory := "."; ts_environment := FIXED_VALIDATION_ENVIRONMENT;
         ts_capability_condition := None; ts_diagnostic_only := false;
         ts_parser_kind := Some "security-audit"; ts_artifacts := log_artifacts "security-audit" |} ].

Definition VALIDATE_ACCOUNTING_STEPS : list TrustedStep :=
     [ accounting_step "lint" "Run Ruff checks"
         ["python"; "-m"; "ruff"; "check"; "."]
         900 None
         [];
       accounting_step "format" "Check Ruff formatting"
         ["python"; "-m"; "ruff"; "format"; "--check"; "."]
         900 None
         [];
       accounting_step "typecheck" "Run bounded Mypy checks"
         ["python"; "-m"; "mypy"; "src/apps/modular_accounting/application";
          "src/apps/api"; "src/apps/extensions"; "src/cli"]
         900 None
         [];
       accounting_step "tests-with-coverage" "Run full tests with branch coverage"
         ["python"; "-m"; "pytest"; "-o"; "cache_dir=.pytest_cache_runtime";
          "--cov=src/apps"; "--cov=src/plugins"; "--cov=src/cli";
          "--cov-branch"; "--cov-report=term-missing";
          "--cov-report=xml:coverage.xml"; "--cov-report=json:coverage.json"]
         1800 (Some "pytest-coverage")
         [Build_TrustedArtifact "coverage-xml" "coverage.xml" "application/xml" "none";
          Build_TrustedArtifact "coverage-json" "coverage.json" "application/json" "none"];
       accounting_step "aggregate-coverage" "Enforce aggregate coverage"
         ["python"; "-m"; "src.tools.coverage_gate"; "coverage.json";
          "--minimum-line"; "85"]
         900 (Some "coverage")
         [];
       accounting_step "critical-coverage" "Enforce critical-module coverage"
         ["python"; "-m"; "src.tools.critical_coverage"; "coverage.json";
          "--config"; "config/critical-coverage.toml"]
         900 (Some "critical-coverage")
         [];
       accounting_step "focused-controls" "Run focused accounting controls"
         ["python"; "-m"; "pytest"; "-o"; "cache_dir=.pytest_cache_runtime";
          "-q"; "tests/test_ledger_service.py";
          "tests/test_data_snapshot_service.py";
          "tests/test_modular_accounting_snapshot.py";
          "tests/test_modular_accounting_controls.py"]
         900 (Some "pytest")
         [];
       accounting_step "dependency-health" "Validate installed dependency consistency"
         ["python"; "-m"; "pip"; "check"]
         900 (Some "dependency-health")
         [];
       accounting_step "runtime-dependency-audit" "Audit locked runtime dependencies"
         ["python"; "-m"; "pip_audit"; "--timeout"; "60"; "--require-hashes";
          "--disable-pip"; "-r"; "requirements-container.lock"]
         900 (Some "dependency-audit")
         [];
       accounting_step "development-dependency-audit" "Audit development dependencies"
         ["python"; "-m"; "pip_audit"; "--timeout"; "60"; "-r";
          "requirements-dev.txt"]
         900 (Some "dependency-audit")
         [];
       accounting_step "secret-scan" "Run repository secret scan"
         ["python"; "-m"; "src.tools.secret_scan"]
         900 (Some "secret-scan")
         [] ].

(** [[artifact.safe_metadata() for step in steps for artifact in step.artifacts]] *)
Definition declared_artifacts (steps : list TrustedStep) : list Json :=
  concat (map (fun s => map artifact_safe_metadata (ts_artifacts s)) steps).

Definition LEGACY_ENVIRONMENT_POLICY : list (string * Json) :=
  [("allowed_inherited_keys", JList [JStr "PATH"; JStr "HOME"; JStr "USERPROFILE";
      JStr "SYSTEMROOT"; JStr "TEMP"; JStr "TMP"]);
   ("redact_keys", JList [JStr "SWITCHBOARD_ADMIN_TOKEN"; JStr "GITHUB_TOKEN"; JStr "GH_TOKEN";
      JStr "OPENAI_API_KEY"; JStr "ANTHROPIC_API_KEY"; JStr "XAI_API_KEY"])].

Definition manifest_validate_accounting_modular : TrustedManifest :=
  {| tm_name := "validate-accounting-modular"; tm_version := "1"; tm_schema_version := 1;
     tm_description :=
       "Read-only fixed-argv validation of one exact modular-accounting commit with bounded retained evidence.";
     tm_registry_source := "server/execution/registry.py";
     tm_required_capabilities :=
       [("operating_system", JList [JStr "linux"; JStr "windows"]);
        ("python", JObj [("minimum", JStr "3.12")]);
        ("git_available", JBool true);
        ("repository_write", JBool false)];
     tm_fixed_step_metadata := map step_safe_metadata VALIDATE_ACCOUNTING_STEPS;
     tm_environment_policy := LEGACY_ENVIRONMENT_POLICY;
     tm_network_policy := WORKER_RESTRICTED; tm_repository_write_policy := READ_ONLY;
     tm_timeout_seconds := 5400;
     tm_artifact_declarations := declared_artifacts VALIDATE_ACCOUNTING_STEPS;
     tm_allowed_parameters := []; tm_execution_steps := VALIDATE_ACCOUNTING_STEPS;
     tm_dependency_lock_paths := ["requirements.txt"; "requirements-dev.txt"; "requirements-container.lock"];
     tm_result_contract := None |}.

Definition manifest_validate_switchboard : TrustedManifest :=
  {| tm_name := "validate-switchboard"; tm_version := "1"; tm_schema_version := 1;
     tm_description :=
       "Read-only fixed-argv validation of one exact Switchboard commit with bounded retained local evidence.";
     tm_registry_source := "server/execution/registry.py";
     tm_required_capabilities :=
       [("operating_system", JList [JStr "linux"; JStr "windows"]);
        ("python", JObj [("minimum", JStr "3.11")]);
        ("repository_write", JBool false)];
     tm_fixed_step_metadata := map step_safe_metadata VALIDATE_SWITCHBOARD_STEPS;
     tm_environment_policy := LEGACY_ENVIRONMENT_POLICY;
     tm_network_policy := WORKER_RESTRICTED; tm_repository_write_policy := READ_ONLY;
     tm_timeout_seconds := 3600;
     tm_artifact_declarations := declared_artifacts VALIDATE_SWITCHBOARD_STEPS;
     tm_allowed_parameters := []; tm_execution_steps := VALIDATE_SWITCHBOARD_STEPS;
     tm_dependency_lock_paths := ["server/requirements.txt"; "server/requirements-dev.txt"];
     tm_result_contract := None |}.

Definition manifest_worker_smoke : TrustedManifest :=
  {| tm_name := "worker-smoke"; tm_version := "1"; tm_schema_version := 1;
     tm_description :=
       "Harmless read-only worker smoke contract for one exact local Git commit.";
     tm_registry_source := "server/execution/registry.py";
     tm_required_capabilities :=
       [("operating_system", JList [JStr "linux"; JStr "windows"]);
        ("python", JObj [("minimum", JStr "3.11")]);
        ("git_available", JBool true);
        ("repository_write", JBool false)];
     tm_fixed_step_metadata := map step_safe_metadata WORKER_SMOKE_STEPS;
     tm_environment_policy := LEGACY_ENVIRONMENT_POLICY;
     tm_network_policy := WORKER_RESTRICTED; tm_repository_write_policy := READ_ONLY;
     tm_timeout_seconds := 120;
     tm_artifact_declarations := [];
     tm_allowed_parameters := []; tm_execution_steps := WORKER_SMOKE_STEPS;
     tm_dependency_lock_paths := [];
     tm_result_contract := None |}.

Definition LEGACY_TRUSTED_MANIFESTS : list TrustedManifest :=
  [manifest_validate_accounting_modular; manifest_validate_switchboard; manifest_worker_smoke].


(** The canonical serialization and SHA-256 of the model give the trusted manifests
    the digests the source pins for them. *)
Theorem legacy_digests :
  map tm_digest LEGACY_TRUSTED_MANIFESTS =
  ["892f1269cdf2a6f4e0df4d86879e5dae980374d598faeadee77c2c32f33aa612";
   "10e99418e4e6f0e9f4a6e95fb5b9a267dab4eeac4671cf58533c8b9afe1fed98";
   "63e645f19d8c60ae442e1800aaecc1a18a719d53f22ba8e85ec62bf745ed55d1"].
Proof. vm_compute. reflexivity. Qed.
