(* ===== verification/Capabilities.v ===== *)
(** * Worker capability matching

    [server/execution/capabilities.py]: which reviewed and requested requirements
    a worker's declared capabilities fail, with the reason for each failure, and
    the comparison of runtime versions. *)

From S2P Require Import Prelude Text Json Enums.

(** The fields of [WorkerCapabilitySource]. *)
Record WorkerCapabilitySource := {
  operating_system : string;
  architecture : string;
  python_version : option string;
  node_version : option string;
  pnpm_version : option string;
  docker_available : bool;
  browsers : list string;
  gpu_available : bool;
  unity_available : bool;
  desktop_available : bool;
  capabilities : list (string * Json);
  network_policy_capability : NetworkPolicy;
  repository_write_capability : bool;
}.

Record CapabilityMatch := { eligible : bool; match_reasons : list string }.

(** ** Versions *)

(** [normalized[:1].lower() == "v"] *)
Definition leading_v (l : list ascii) : bool :=
  match l with c :: _ => ord (char_lower c) =? 118 | [] => false end.

(** A full match of [_VERSION_PATTERN]: one to three dot-separated digit groups. *)
Definition version_match (l : list ascii) : option (list Z) :=
  let parts := split_on (chr 46) l in
  if (Z.of_nat (length parts) <=? 3)
     && forallb (fun p => negb (bool_decide (p = [])) && forallb is_digit p) parts
  then Some (map int_of_digits parts)
  else None.

Definition version_parts (value : string) (normalize_leading_v : bool) : option (list Z) :=
  let normalized := to_chars (strip value) in
  version_match (if normalize_leading_v && leading_v normalized then tail normalized
                 else normalized).

Definition padded_version (v : list Z) : list Z := take 3 (v ++ [0; 0]).

(** Tuple comparison [a >= b]. *)
Fixpoint tuple_geb (a b : list Z) : bool :=
  match a, b with
  | x :: a', y :: b' => (y <? x) || ((x =? y) && tuple_geb a' b')
  | _, [] => true
  | [], _ :: _ => false
  end.

Inductive VersionMode := EXACT | MINIMUM.

Definition version_requirement (value : Json) : option (VersionMode * string) :=
  match value with
  | JObj [(k, JStr v)] =>
      if bool_decide (k = "exact") then Some (EXACT, v)
      else if bool_decide (k = "minimum") then Some (MINIMUM, v)
      else None
  | JStr v => Some (MINIMUM, v)
  | _ => None
  end.

Definition runtime_version_matches (actual : option string) (requirement : Json)
    (normalize_leading_v : bool) : bool :=
  match actual, version_requirement requirement with
  | Some a, Some (mode, expected) =>
      match version_parts a normalize_leading_v, version_parts expected normalize_leading_v with
      | Some actual_parts, Some expected_parts =>
          match mode with
          | EXACT => bool_decide (actual_parts = expected_parts)
          | MINIMUM => tuple_geb (padded_version actual_parts) (padded_version expected_parts)
          end
      | _, _ => false
      end
  | _, _ => false
  end.

Definition normalize_runtime_version (value : option string) (allow_leading_v : bool)
    : option string :=
  match value with
  | None => None
  | Some v =>
      let normalized := strip v in
      let starts_v := leading_v (to_chars normalized) in
      if negb allow_leading_v && starts_v then None
      else
        let text := if allow_leading_v && starts_v
                    then of_chars (tail (to_chars normalized)) else normalized in
        match version_parts text false with
        | Some parts =>
            if Nat.eqb (length parts) 2 || Nat.eqb (length parts) 3
            then Some (join "." (map str_of_int parts)) else None
        | None => None
        end
  end.

(** ** Requirement checks *)

(** [_as_string_set]: the lower-cased members, or [None] for a value that is
    neither a string nor a list of strings. *)
Fixpoint json_strings (l : list Json) : option (list string) :=
  match l with
  | [] => Some []
  | JStr s :: l' => match json_strings l' with Some r => Some (lower s :: r) | None => None end
  | _ :: _ => None
  end.

Definition as_string_set (value : Json) : option (list string) :=
  match value with
  | JStr s => Some [lower s]
  | JList l => json_strings l
  | _ => None
  end.

Definition subset (a b : list string) : bool := forallb (fun x => bool_decide (x ∈ b)) a.

Definition invalid_requirement (name : string) : string :=
  "invalid_capability_requirement:" +:+ name.
Definition capability_missing (name : string) : string := "capability_missing:" +:+ name.

Definition platform_mismatch (actual : string) (required : Json) (name : string) : option string :=
  match as_string_set required with
  | None => Some (invalid_requirement name)
  | Some [] => None
  | Some allowed =>
      if bool_decide (lower actual ∈ allowed) then None else Some (name +:+ "_not_supported")
  end.

Definition runtime_of (worker : WorkerCapabilitySource) (name : string) : option string :=
  if bool_decide (name = "python") then python_version worker
  else if bool_decide (name = "node") then node_version worker
  else pnpm_version worker.

Definition version_mismatch (worker : WorkerCapabilitySource) (name : string) (required : Json)
    : option string :=
  match version_requirement required with
  | None => Some (invalid_requirement name)
  | Some _ =>
      if runtime_version_matches (runtime_of worker name) required (bool_decide (name = "node"))
      then None
      else if bool_decide (name = "pnpm") then Some "pnpm_version_mismatch_or_missing"
      else Some (name +:+ "_version_too_old_or_missing")
  end.

Definition BOOLEAN_CAPABILITIES : list string := ["docker"; "gpu"; "unity"; "desktop"].

Definition boolean_capability (worker : WorkerCapabilitySource) (name : string) : bool :=
  if bool_decide (name = "docker") then docker_available worker
  else if bool_decide (name = "gpu") then gpu_available worker
  else if bool_decide (name = "unity") then unity_available worker
  else desktop_available worker.

Definition boolean_capability_mismatch (worker : WorkerCapabilitySource) (name : string)
    (required : Json) : option string :=
  match required with
  | JBool true => if boolean_capability worker name then None else Some (name +:+ "_not_available")
  | JBool false => None
  | _ => Some (invalid_requirement name)
  end.

Definition browser_mismatch (worker : WorkerCapabilitySource) (required : Json) : option string :=
  match as_string_set required with
  | None => Some (invalid_requirement "browsers")
  | Some required_browsers =>
      if subset required_browsers (map lower (browsers worker)) then None
      else Some "browser_capability_missing"
  end.

Definition custom_capability_mismatch (worker : WorkerCapabilitySource) (name : string)
    (required : Json) : option string :=
  let actual := obj_get name (capabilities worker) in
  let available := match actual with Some a => as_string_set a | None => None end in
  match required with
  | JBool b =>
      match actual with
      | Some (JBool b') => if Bool.eqb b b' then None else Some (capability_missing name)
      | _ => Some (capability_missing name)
      end
  | JStr s =>
      match available with
      | Some l => if bool_decide (lower s ∈ l) then None else Some (capability_missing name)
      | None => Some (capability_missing name)
      end
  | _ =>
      match as_string_set required with
      | None => Some (invalid_requirement name)
      | Some required_values =>
          match available with
          | Some l => if subset required_values l then None else Some (capability_missing name)
          | None => Some (capability_missing name)
          end
      end
  end.

Definition repository_write_mismatch (required : Json) : option string :=
  match required with
  | JBool true => Some "repository_write_not_permitted"
  | JBool false => None
  | _ => Some (invalid_requirement "repository_write")
  end.

(** [NetworkPolicy(required)] accepts exactly the string values. *)
Definition network_policy_mismatch (worker : WorkerCapabilitySource) (required : Json)
    : option string :=
  match (match required with JStr s => network_policy_of_value s | _ => None end) with
  | None => Some (invalid_requirement "network_policy")
  | Some DISABLED => None
  | Some WORKER_RESTRICTED =>
      if bool_decide (network_policy_capability worker = WORKER_RESTRICTED) then None
      else Some "network_policy_not_supported"
  end.

Definition capability_mismatch (worker : WorkerCapabilitySource) (name : string) (required : Json)
    : option string :=
  if bool_decide (name = "operating_system")
  then platform_mismatch (operating_system worker) required "operating_system"
  else if bool_decide (name = "architecture")
  then platform_mismatch (architecture worker) required "architecture"
  else if bool_decide (name ∈ ["python"; "node"; "pnpm"]) then version_mismatch worker name required
  else if bool_decide (name ∈ BOOLEAN_CAPABILITIES)
  then boolean_capability_mismatch worker name required
  else if bool_decide (name ∈ ["browser"; "browsers"]) then browser_mismatch worker required
  else if bool_decide (name = "repository_write") then repository_write_mismatch required
  else if bool_decide (name = "network_policy") then network_policy_mismatch worker required
  else custom_capability_mismatch worker name required.

Fixpoint match_capability_mapping (worker : WorkerCapabilitySource)
    (requirements : list (string * Json)) : list string :=
  match requirements with
  | [] => []
  | (name, required) :: rest =>
      match capability_mismatch worker (lower name) required with
      | Some reason => reason :: match_capability_mapping worker rest
      | None => match_capability_mapping worker rest
      end
  end.

Definition match_network_policy (worker : WorkerCapabilitySource) (required : NetworkPolicy)
    : list string :=
  match required with
  | DISABLED => []
  | WORKER_RESTRICTED =>
      if bool_decide (network_policy_capability worker = WORKER_RESTRICTED) then []
      else ["network_policy_not_supported"]
  end.

Definition match_worker_capabilities (worker : WorkerCapabilitySource)
    (manifest_requirements requested_requirements : list (string * Json))
    (network_policy : NetworkPolicy) : CapabilityMatch :=
  let reasons :=
    match_capability_mapping worker manifest_requirements
    ++ match_capability_mapping worker requested_requirements
    ++ match_network_policy worker network_policy
    ++ (if repository_write_capability worker
        then ["repository_write_capability_must_be_false"] else []) in
  {| eligible := bool_decide (reasons = []); match_reasons := dedup reasons |}.

(** ** Facts *)

Lemma match_capability_mapping_nil worker reqs :
  match_capability_mapping worker reqs = [] <->
  Forall (fun r => capability_mismatch worker (lower r.1) r.2 = None) reqs.
Proof.
  induction reqs as [|[n r] reqs IH]; simpl; [by split; constructor|].
  rewrite Forall_cons, <-IH. simpl. destruct (capability_mismatch worker (lower n) r); naive_solver.
Qed.

Lemma match_worker_capabilities_eligible worker mreqs rreqs policy :
  let m := match_worker_capabilities worker mreqs rreqs policy in
  eligible m = true <-> match_reasons m = [].
Proof. simpl. rewrite bool_decide_eq_true, dedup_nil. done. Qed.

Lemma match_worker_capabilities_spec worker mreqs rreqs policy :
  match_reasons (match_worker_capabilities worker mreqs rreqs policy) = [] <->
  Forall (fun r => capability_mismatch worker (lower r.1) r.2 = None) (mreqs ++ rreqs) /\
  (policy = WORKER_RESTRICTED -> network_policy_capability worker = WORKER_RESTRICTED) /\
  repository_write_capability worker = false.
Proof.
  simpl. rewrite dedup_nil, Forall_app, <-!match_capability_mapping_nil.
  assert (match_network_policy worker policy = [] <->
    (policy = WORKER_RESTRICTED -> network_policy_capability worker = WORKER_RESTRICTED)) as <-.
  { destruct policy; simpl; [naive_solver|]. case_bool_decide; naive_solver. }
  destruct (repository_write_capability worker).
  - split; [|naive_solver]. intros H. apply (f_equal (@length _)) in H.
    rewrite !length_app in H. simpl in H. lia.
  - rewrite !app_nil. naive_solver.
Qed.

Lemma tuple_geb_refl a : tuple_geb a a = true.
Proof. induction a as [|x a IH]; simpl; [done|]. rewrite Z.eqb_refl, IH. by rewrite orb_true_r. Qed.

Lemma tuple_geb_trans a b c :
  tuple_geb a b = true -> tuple_geb b c = true -> tuple_geb a c = true.
Proof.
  revert b c. induction a as [|x a IH]; intros [|y b] [|z c]; simpl; try done.
  rewrite !orb_true_iff, !andb_true_iff, !Z.ltb_lt, !Z.eqb_eq.
  intros [?|[-> Hab]] [?|[-> Hbc]]; [left; lia|left; lia|left; lia|].
  right. split; [done|]. by eapply IH.
Qed.

Lemma tuple_geb_total a b :
  length a = length b -> tuple_geb a b = true \/ tuple_geb b a = true.
Proof.
  revert b. induction a as [|x a IH]; intros [|y b] Hl; simpl; try done; auto.
  rewrite !orb_true_iff, !andb_true_iff, !Z.ltb_lt, !Z.eqb_eq.
  destruct (Z.lt_trichotomy x y) as [?|[->|?]]; auto.
  injection Hl as Hl. destruct (IH b Hl); auto.
Qed.

Lemma version_match_length l v : version_match l = Some v -> (1 <= length v <= 3)%nat.
Proof.
  unfold version_match. destruct (_ && _) eqn:Hc; [|done]. intros [= <-].
  apply andb_true_iff in Hc as [Hlen _]. rewrite length_map. apply Z.leb_le in Hlen.
  destruct (split_on (chr 46) l) eqn:Hs; [by apply split_on_not_nil in Hs|]. simpl in *. lia.
Qed.

Lemma padded_version_length v : (1 <= length v)%nat -> length (padded_version v) = 3%nat.
Proof. intros Hv. unfold padded_version. rewrite length_take, length_app. cbn [length]. lia. Qed.
