(* ===== verification/Models.v ===== *)
(** * The execution tables

    The execution-plane tables of [server/models.py], the snapshots and commands of
    [server/execution/entities.py] and [repository.py], and the world a service
    method runs in.

    A table is a finite map from its key to its rows.  [execution_work_orders],
    [execution_runs], [execution_leases] and [execution_command_manifests] are keyed
    by their integer primary key; [execution_workers] by its unique [worker_id]
    and [execution_worker_routing_profiles] by its primary key [worker_id].
    Columns that no operation changes once a row exists are grouped in one
    sub-record ([wo_spec], [w_info]); a JSON column holding an evidence document
    has the type of that document.  The bookkeeping columns [created_at] and
    [updated_at], which no operation reads, are left out.

    A timestamp is a number of microseconds since the epoch, UTC. *)

From S2P Require Import Prelude Text Json Enums Evidence Registry Capabilities.

(** [datetime.timedelta(seconds=n)] *)
Definition seconds (n : Z) : Z := n * 1000000.

(** [dt.datetime]: naive wall-clock fields, or an instant together with the UTC
    offset of the zone it is expressed in. *)
Inductive PyDatetime := Naive (fields : Z) | Aware (utc offset : Z).

#[global] Instance PyDatetime_eq : EqDecision PyDatetime.
Proof. solve_decision. Defined.

(** [value.tzinfo is not None and value.utcoffset() is not None] *)
Definition is_aware (d : PyDatetime) : bool :=
  match d with Aware _ _ => true | Naive _ => false end.

(** [_utc_naive] *)
Definition utc_naive (d : PyDatetime) : Z := match d with Naive t => t | Aware t _ => t end.

(** What a [DateTime] column without timezone support keeps of a value: its
    wall-clock fields. *)
Definition stored_fields (d : PyDatetime) : Z :=
  match d with Naive t => t | Aware t offset => t + offset end.

Definition MAX_ROUTING_INTEGER : Z := 2147483647.
Definition DEFAULT_REPOSITORY : string := "Nobodyworld/dev-agent-switchboard".

(** ** Rows *)

(** [CommandManifest] *)
Record CommandManifest := {
  cm_id : Z;
  cm_name : string;
  cm_version : string;
  cm_schema_version : Z;
  cm_digest : string;
  cm_description : string;
  cm_trusted_registry_source : string;
  cm_required_capabilities : list (string * Json);
  cm_fixed_step_metadata : list Json;
  cm_environment_policy : list (string * Json);
  cm_network_policy : NetworkPolicy;
  cm_repository_write_policy : RepositoryWritePolicy;
  cm_timeout_seconds : Z;
  cm_artifact_declarations : list Json;
}.

(** The columns of [ExecutionWorkOrder] fixed at creation. *)
Record WorkOrderSpec := {
  wos_schema_version : Z;
  wos_repository_full_name : string;
  wos_commit_sha : string;
  wos_manifest_id : Z;
  wos_manifest_name : string;
  wos_manifest_version : string;
  wos_manifest_digest : string;
  wos_manifest_parameters : list (string * Json);
  wos_required_capabilities : list (string * Json);
  wos_permitted_paths : list string;
  wos_forbidden_scope_notes : string;
  wos_expected_artifact_kinds : list string;
  wos_approval_policy : ApprovalPolicy;
  wos_timeout_seconds : Z;
  wos_resource_metadata : list (string * Json);
  wos_network_policy : NetworkPolicy;
  wos_repository_write_allowed : bool;
  wos_preferred_executor : option string;
  wos_cost_ceiling : option string;
  wos_routing_policy : RoutingPolicy;
  wos_maximum_cost_units : option Z;
  wos_required_quota_units : Z;
  wos_reuse_policy : ReusePolicy;
  wos_execution_policy_hash : string;
}.

(** The [route_*] columns of a work order. *)
Record OrderRoute := {
  or_schema_version : option Z;
  or_selected_worker_id : option string;
  or_profile_revision : option Z;
  or_estimated_cost_units : option Z;
  or_reserved_quota_units : Z;
  or_quota_state : option QuotaReservationState;
  or_eligible_candidate_count : option Z;
  or_explicit_pin_applied : bool;
  or_reason : option string;
  or_decided_at : option Z;
}.

Definition no_route : OrderRoute :=
  {| or_schema_version := None; or_selected_worker_id := None; or_profile_revision := None;
     or_estimated_cost_units := None; or_reserved_quota_units := 0; or_quota_state := None;
     or_eligible_candidate_count := None; or_explicit_pin_applied := false; or_reason := None;
     or_decided_at := None |}.

(** [ExecutionWorkOrder] *)
Record WorkOrder := {
  wo_id : Z;
  wo_spec : WorkOrderSpec;
  wo_status : WorkOrderStatus;
  wo_attempt_count : Z;
  wo_approved_at : option Z;
  wo_queued_at : option Z;
  wo_assigned_at : option Z;
  wo_started_at : option Z;
  wo_finished_at : option Z;
  wo_terminal_reason : option string;
  wo_route : OrderRoute;
}.

(** The columns of [ExecutionWorker] a registration writes. *)
Record WorkerInfo := {
  wi_display_name : string;
  wi_capabilities : WorkerCapabilitySource;
  wi_repository_full_names : list string;
  wi_max_concurrency : Z;
}.

(** [ExecutionWorker] *)
Record Worker := {
  w_worker_id : string;
  w_info : WorkerInfo;
  w_active_run_count : Z;
  w_status : WorkerStatus;
  w_last_heartbeat_at : Z;
  w_last_checkout_poll_at : option Z;
}.

Definition w_max_concurrency (w : Worker) : Z := wi_max_concurrency (w_info w).

(** [WorkerRoutingProfile] *)
Record RoutingProfile := {
  rp_worker_id : string;
  rp_schema_version : Z;
  rp_enabled : bool;
  rp_estimated_cost_units_per_run : Z;
  rp_quota_capacity_units : Z;
  rp_quota_remaining_units : Z;
  rp_quota_reset_at : option Z;
  rp_routing_priority : Z;
  rp_revision : Z;
}.

(** The [reuse] columns of a run. *)
Record RunReuse := {
  rr_identity : option EvidenceReuseIdentity;
  rr_identity_hash : option string;
  rr_reused_from_run_id : option Z;
  rr_source_evidence_fingerprint : option string;
  rr_decision : ReuseDecision;
  rr_reason : option string;
  rr_candidate : option ReuseCandidate;
  rr_retention_expires_at : option Z;
}.

(** The terminal result columns of a run. *)
Record RunResult := {
  res_result_summary : option string;
  res_terminal_reason : option string;
  res_cleanup_status : option string;
  res_artifact_metadata : list ArtifactRecord;
  res_evidence_metadata : option ExecutionEvidence;
}.

(** The [route_*] columns of a run. *)
Record RunRoute := {
  xr_schema_version : Z;
  xr_routing_policy : RoutingPolicy;
  xr_profile_revision : option Z;
  xr_estimated_cost_units : option Z;
  xr_required_quota_units : Z;
  xr_reserved_quota_units : Z;
  xr_quota_state : QuotaReservationState;
  xr_eligible_candidate_count : Z;
  xr_explicit_pin_applied : bool;
  xr_reason : string;
  xr_decided_at : Z;
}.

(** [ExecutionRun] *)
Record Run := {
  run_id : Z;
  run_work_order_id : Z;
  run_worker_id : string;
  run_attempt_number : Z;
  run_status : ExecutionRunStatus;
  run_queued_at : Z;
  run_assigned_at : Z;
  run_started_at : option Z;
  run_finished_at : option Z;
  run_lease_expires_at : Z;
  run_last_heartbeat_at : Z;
  run_result : RunResult;
  run_reuse : RunReuse;
  run_route : RunRoute;
}.

(** [ExecutionLease] *)
Record Lease := {
  lease_id : Z;
  lease_work_order_id : Z;
  lease_execution_run_id : Z;
  lease_worker_id : string;
  lease_expires_at : Z;
  lease_last_heartbeat_at : Z;
}.

#[export] Instance OrderRoute_rebuild : Rebuild OrderRoute := fun r =>
  {| or_schema_version := or_schema_version r; or_selected_worker_id := or_selected_worker_id r;
     or_profile_revision := or_profile_revision r;
     or_estimated_cost_units := or_estimated_cost_units r;
     or_reserved_quota_units := or_reserved_quota_units r; or_quota_state := or_quota_state r;
     or_eligible_candidate_count := or_eligible_candidate_count r;
     or_explicit_pin_applied := or_explicit_pin_applied r; or_reason := or_reason r;
     or_decided_at := or_decided_at r |}.

#[export] Instance WorkOrder_rebuild : Rebuild WorkOrder := fun o =>
  {| wo_id := wo_id o; wo_spec := wo_spec o; wo_status := wo_status o;
     wo_attempt_count := wo_attempt_count o; wo_approved_at := wo_approved_at o;
     wo_queued_at := wo_queued_at o; wo_assigned_at := wo_assigned_at o;
     wo_started_at := wo_started_at o; wo_finished_at := wo_finished_at o;
     wo_terminal_reason := wo_terminal_reason o; wo_route := wo_route o |}.

#[export] Instance Worker_rebuild : Rebuild Worker := fun w =>
  {| w_worker_id := w_worker_id w; w_info := w_info w; w_active_run_count := w_active_run_count w;
     w_status := w_status w; w_last_heartbeat_at := w_last_heartbeat_at w;
     w_last_checkout_poll_at := w_last_checkout_poll_at w |}.

#[export] Instance RoutingProfile_rebuild : Rebuild RoutingProfile := fun p =>
  {| rp_worker_id := rp_worker_id p; rp_schema_version := rp_schema_version p;
     rp_enabled := rp_enabled p;
     rp_estimated_cost_units_per_run := rp_estimated_cost_units_per_run p;
     rp_quota_capacity_units := rp_quota_capacity_units p;
     rp_quota_remaining_units := rp_quota_remaining_units p;
     rp_quota_reset_at := rp_quota_reset_at p; rp_routing_priority := rp_routing_priority p;
     rp_revision := rp_revision p |}.

#[export] Instance RunReuse_rebuild : Rebuild RunReuse := fun r =>
  {| rr_identity := rr_identity r; rr_identity_hash := rr_identity_hash r;
     rr_reused_from_run_id := rr_reused_from_run_id r;
     rr_source_evidence_fingerprint := rr_source_evidence_fingerprint r;
     rr_decision := rr_decision r; rr_reason := rr_reason r; rr_candidate := rr_candidate r;
     rr_retention_expires_at := rr_retention_expires_at r |}.

#[export] Instance RunRoute_rebuild : Rebuild RunRoute := fun r =>
  {| xr_schema_version := xr_schema_version r; xr_routing_policy := xr_routing_policy r;
     xr_profile_revision := xr_profile_revision r;
     xr_estimated_cost_units := xr_estimated_cost_units r;
     xr_required_quota_units := xr_required_quota_units r;
     xr_reserved_quota_units := xr_reserved_quota_units r; xr_quota_state := xr_quota_state r;
     xr_eligible_candidate_count := xr_eligible_candidate_count r;
     xr_explicit_pin_applied := xr_explicit_pin_applied r; xr_reason := xr_reason r;
     xr_decided_at := xr_decided_at r |}.

#[export] Instance Run_rebuild : Rebuild Run := fun r =>
  {| run_id := run_id r; run_work_order_id := run_work_order_id r;
     run_worker_id := run_worker_id r; run_attempt_number := run_attempt_number r;
     run_status := run_status r; run_queued_at := run_queued_at r;
     run_assigned_at := run_assigned_at r; run_started_at := run_started_at r;
     run_finished_at := run_finished_at r; run_lease_expires_at := run_lease_expires_at r;
     run_last_heartbeat_at := run_last_heartbeat_at r; run_result := run_result r;
     run_reuse := run_reuse r; run_route := run_route r |}.

#[export] Instance Lease_rebuild : Rebuild Lease := fun l =>
  {| lease_id := lease_id l; lease_work_order_id := lease_work_order_id l;
     lease_execution_run_id := lease_execution_run_id l; lease_worker_id := lease_worker_id l;
     lease_expires_at := lease_expires_at l;
     lease_last_heartbeat_at := lease_last_heartbeat_at l |}.

(** ** The database and the world *)

Record DB := {
  db_manifests : gmap Z CommandManifest;
  db_orders : gmap Z WorkOrder;
  db_workers : gmap string Worker;
  db_profiles : gmap string RoutingProfile;
  db_runs : gmap Z Run;
  db_leases : gmap Z Lease;
}.

#[export] Instance DB_rebuild : Rebuild DB := fun d =>
  {| db_manifests := db_manifests d; db_orders := db_orders d; db_workers := db_workers d;
     db_profiles := db_profiles d; db_runs := db_runs d; db_leases := db_leases d |}.

Definition empty_db : DB :=
  {| db_manifests := ∅; db_orders := ∅; db_workers := ∅; db_profiles := ∅; db_runs := ∅;
     db_leases := ∅ |}.

(** What a service instance is built with: the clock (its successive readings),
    the lease duration, the routing freshness windows, the manifest registry, the
    trusted catalog, and how the serialization library writes a timestamp. *)
Record Env := {
  env_clock : nat -> Z;
  env_lease_seconds : Z;
  env_heartbeat_freshness_seconds : Z;
  env_active_poll_freshness_seconds : Z;
  env_manifests : list TrustedManifest;
  env_repositories : list Catalog.TrustedRepository;
  env_isoformat : Z -> string;
}.

(** The session's view of the database and how often the clock was read. *)
Record World := { db : DB; reads : nat }.

#[export] Instance World_rebuild : Rebuild World := fun w => {| db := db w; reads := reads w |}.

(** ** Commands and results *)

(** [WorkOrderDraft] *)
Record WorkOrderDraft := {
  wd_schema_version : Z;
  wd_repository_full_name : string;
  wd_commit_sha : string;
  wd_manifest_name : string;
  wd_manifest_version : string;
  wd_manifest_parameters : list (string * Json);
  wd_required_capabilities : list (string * Json);
  wd_permitted_paths : list string;
  wd_forbidden_scope_notes : string;
  wd_expected_artifact_kinds : list string;
  wd_approval_policy : ApprovalPolicy;
  wd_timeout_seconds : Z;
  wd_resource_metadata : list (string * Json);
  wd_network_policy : NetworkPolicy;
  wd_repository_write_allowed : bool;
  wd_preferred_executor : option string;
  wd_cost_ceiling : option string;
  wd_reuse_policy : ReusePolicy;
  wd_routing_policy : RoutingPolicy;
  wd_maximum_cost_units : option Z;
  wd_required_quota_units : Z;
}.

(** [WorkerRegistration] *)
Record WorkerRegistration := {
  reg_worker_id : string;
  reg_info : WorkerInfo;
  reg_status : WorkerStatus;
}.

(** [ExecutionCompletion] *)
Record ExecutionCompletion := {
  cpl_status : ExecutionRunStatus;
  cpl_result_summary : option string;
  cpl_terminal_reason : option string;
  cpl_cleanup_status : option string;
  cpl_artifact_metadata : list ArtifactRecord;
  cpl_evidence_metadata : option ExecutionEvidence;
  cpl_reuse_decision : option ReuseDecision;
  cpl_reuse_reason : option string;
  cpl_reuse_identity : option EvidenceReuseIdentity;
  cpl_reuse_identity_hash : option string;
  cpl_evidence_retention_expires_at : option PyDatetime;
}.

Record CheckoutResult := {
  co_run_id : option Z;
  co_work_order_id : option Z;
  co_reason : option string;
  co_mismatch_reasons : list string;
}.

Record ExpiryResult := {
  requeued_work_order_ids : list Z;
  timed_out_run_ids : list Z;
}.

Record ReuseCandidateResult := {
  rc_decision : ReuseDecision;
  rc_reason : string;
  rc_candidate : option ReuseCandidate;
}.

(** [RoutingProfileDraft] and [RoutingProfileReplacement] share these values. *)
Record RoutingProfileValues := {
  pv_enabled : bool;
  pv_estimated_cost_units_per_run : Z;
  pv_quota_capacity_units : Z;
  pv_quota_remaining_units : Z;
  pv_quota_reset_at : option PyDatetime;
  pv_routing_priority : Z;
}.

Record RoutingQuotaReset := {
  qr_expected_revision : Z;
  qr_quota_remaining_units : Z;
  qr_quota_reset_at : PyDatetime;
}.

(** [LeaseSnapshot] *)
Record LeaseSnapshot := {
  snap_id : Z;
  snap_work_order_id : Z;
  snap_execution_run_id : Z;
  snap_worker_id : string;
}.

Definition snapshot_of (l : Lease) : LeaseSnapshot :=
  {| snap_id := lease_id l; snap_work_order_id := lease_work_order_id l;
     snap_execution_run_id := lease_execution_run_id l; snap_worker_id := lease_worker_id l |}.

(** ** Errors: the exceptions of [server/execution/exceptions.py], the constraint
    violations and [ValueError]s that can escape, and the internal signal that
    rolls back one checkout attempt. *)
Inductive ExecError :=
| ExecutionNotFoundError (code : string)
| LifecycleConflictError (code : string)
| ApprovalDeniedError (code : string)
| UnknownManifestError (code : string)
| ManifestIntegrityError (code : string)
| ManifestParameterError (code : string)
| RepositoryWritePolicyError (code : string)
| OwnershipConflictError (code : string)
| MalformedEvidenceError (code : string)
| CatalogReadinessLimitError (code : string)
| CheckoutReservationConflictError (code : string)
| IntegrityError
| RuntimeError (message : string)
| ValueError (message : string).

Abbreviation exec A := (M ExecError World A).

(** [self._clock()] *)
Definition now (env : Env) : exec Z :=
  fun w => (Ok (env_clock env (reads w)), w <| reads := S (reads w) |>).

Definition from_db {A} (f : DB -> A) : exec A := gets (fun w => f (db w)).
Definition set_db (f : DB -> DB) : exec unit := modify (fun w => w <| db := f (db w) |>).

(** [async with session.begin_nested()]: a savepoint, rolled back on an exception. *)
Definition begin_nested {A} (m : exec A) : exec A := fun w =>
  match m w with
  | (Ok a, w') => (Ok a, w')
  | (Err e, w') => (Err e, w' <| db := db w |>)
  end.

(** A request: committed when the handler returns, rolled back when it raises. *)
Definition request {A} (m : exec A) : exec A := begin_nested m.

(** ** Tables

    What the statements of the repository need of a table: where it lives, its
    CHECK constraints and its UNIQUE constraints (beyond the key). *)
Class Table (K V : Type) `{Countable K} := {
  table : DB -> gmap K V;
  set_table : gmap K V -> DB -> DB;
  row_check : V -> bool;
  row_clash : V -> V -> bool;
  table_set_table : forall t d, table (set_table t d) = t;
}.
#[global] Hint Mode Table - ! - - : typeclass_instances.
