(* ===== verification/Routing.v ===== *)
(** * Routing: eligibility and ranking of workers

    [server/execution/routing.py]: which workers may run a work order, with every
    reason against one, and the deterministic order in which capable workers are
    tried.  The file is pure; checkout, route assessment and repository readiness
    all call it. *)

From S2P Require Import Prelude Text Json Enums Evidence Registry Capabilities Models.

Definition ROUTING_SCHEMA_VERSION : Z := 1.

Record RoutingCandidate := {
  cnd_worker : Worker;
  cnd_profile : option RoutingProfile;
}.

Definition quota_headroom (c : RoutingCandidate) : Z :=
  match cnd_profile c with Some p => rp_quota_remaining_units p | None => 0 end.

Record RoutingEvaluationRequest := {
  rq_repository_full_name : string;
  rq_routing_policy : RoutingPolicy;
  rq_preferred_executor : option string;
  rq_maximum_cost_units : option Z;
  rq_required_quota_units : Z;
  rq_manifest_requirements : list (string * Json);
  rq_requested_requirements : list (string * Json);
  rq_network_policy : NetworkPolicy;
}.

Record RoutingEligibility := {
  el_worker : Worker;
  el_profile : option RoutingProfile;
  el_candidate : option RoutingCandidate;
  el_reasons : list string;
}.

Definition within (low v high : Z) : bool := (low <=? v) && (v <=? high).

(** [_valid_profile] *)
Definition valid_profile (p : RoutingProfile) : bool :=
  (rp_schema_version p =? ROUTING_SCHEMA_VERSION)
  && within 0 (rp_estimated_cost_units_per_run p) MAX_ROUTING_INTEGER
  && within 0 (rp_quota_capacity_units p) MAX_ROUTING_INTEGER
  && within 0 (rp_quota_remaining_units p) (rp_quota_capacity_units p)
  && within 0 (rp_routing_priority p) MAX_ROUTING_INTEGER
  && within 1 (rp_revision p) MAX_ROUTING_INTEGER.

(** [_fresh] *)
Definition fresh (value : option Z) (now freshness_seconds : Z) : bool :=
  match value with
  | Some v => negb (freshness_seconds <=? 0) && (now - seconds freshness_seconds <=? v)
  | None => false
  end.

(** [[reason] if b else []] *)
Definition reason_if (b : bool) (reason : string) : list string := if b then [reason] else [].

(** [worker.repository_full_names or [DEFAULT]] *)
Definition worker_repositories (w : Worker) : list string :=
  match wi_repository_full_names (w_info w) with
  | [] => [DEFAULT_REPOSITORY]
  | names => names
  end.

Definition profile_reasons (request : RoutingEvaluationRequest) (profile : option RoutingProfile)
    : list string :=
  match rq_routing_policy request, profile with
  | CHEAPEST_CAPABLE, None => ["routing_profile_missing"]
  | CHEAPEST_CAPABLE, Some p =>
      if negb (valid_profile p) then ["routing_profile_invalid"]
      else reason_if (negb (rp_enabled p)) "routing_profile_disabled"
  | FIRST_AVAILABLE, _ => []
  end.

Definition cost_and_quota_reasons (request : RoutingEvaluationRequest)
    (profile : option RoutingProfile) : list string :=
  match rq_routing_policy request, profile with
  | CHEAPEST_CAPABLE, Some p =>
      if valid_profile p then
        reason_if (match rq_maximum_cost_units request with
                   | Some m => m <? rp_estimated_cost_units_per_run p
                   | None => false
                   end) "routing_cost_ceiling_exceeded"
        ++ reason_if (rp_quota_remaining_units p <? rq_required_quota_units request)
             "routing_quota_insufficient"
      else []
  | _, _ => []
  end.

(** The list [reasons] the evaluation builds up, in order. *)
Definition routing_reasons (worker : Worker) (profile : option RoutingProfile)
    (request : RoutingEvaluationRequest)
    (now heartbeat_freshness_seconds active_poll_freshness_seconds : Z) : list string :=
  reason_if (negb (bool_decide (rq_repository_full_name request ∈ worker_repositories worker)))
    "worker_repository_unavailable"
  ++ reason_if (match rq_preferred_executor request with
                | Some preferred => negb (bool_decide (w_worker_id worker = preferred))
                | None => false
                end) "preferred_executor_mismatch"
  ++ profile_reasons request profile
  ++ reason_if (negb (bool_decide (w_status worker = ONLINE))) "worker_not_available"
  ++ reason_if (w_max_concurrency worker <=? w_active_run_count worker) "worker_concurrency_limit"
  ++ reason_if (negb (fresh (Some (w_last_heartbeat_at worker)) now heartbeat_freshness_seconds))
       "worker_heartbeat_stale"
  ++ reason_if (negb (fresh (w_last_checkout_poll_at worker) now active_poll_freshness_seconds))
       "worker_checkout_poll_stale"
  ++ match_reasons (match_worker_capabilities (wi_capabilities (w_info worker))
       (rq_manifest_requirements request) (rq_requested_requirements request)
       (rq_network_policy request))
  ++ cost_and_quota_reasons request profile.

Definition evaluate_routing_candidate (worker : Worker) (profile : option RoutingProfile)
    (request : RoutingEvaluationRequest)
    (now heartbeat_freshness_seconds active_poll_freshness_seconds : Z) : RoutingEligibility :=
  let unique_reasons := dedup (routing_reasons worker profile request now
    heartbeat_freshness_seconds active_poll_freshness_seconds) in
  {| el_worker := worker; el_profile := profile;
     el_candidate := match unique_reasons with
                     | [] => Some {| cnd_worker := worker; cnd_profile := profile |}
                     | _ :: _ => None
                     end;
     el_reasons := unique_reasons |}.

(** ** Ranking *)

(** The comparator nested in [rank_routing_candidates], on candidates whose
    profiles are present. *)
Definition compare_ranked (required_quota_units : Z)
    (w1 : Worker) (p1 : RoutingProfile) (w2 : Worker) (p2 : RoutingProfile) : Z :=
  if negb (rp_estimated_cost_units_per_run p1 =? rp_estimated_cost_units_per_run p2)
  then if rp_estimated_cost_units_per_run p1 <? rp_estimated_cost_units_per_run p2 then -1 else 1
  else
    let first_headroom := rp_quota_remaining_units p1 - required_quota_units in
    let second_headroom := rp_quota_remaining_units p2 - required_quota_units in
    if negb (first_headroom =? second_headroom)
    then if second_headroom <? first_headroom then -1 else 1
    else
      let first_load := w_active_run_count w1 * w_max_concurrency w2 in
      let second_load := w_active_run_count w2 * w_max_concurrency w1 in
      if negb (first_load =? second_load)
      then if first_load <? second_load then -1 else 1
      else if negb (rp_routing_priority p1 =? rp_routing_priority p2)
      then if rp_routing_priority p1 <? rp_routing_priority p2 then -1 else 1
      else if bool_decide (w_worker_id w1 = w_worker_id w2) then 0
      else if str_lt (w_worker_id w1) (w_worker_id w2) then -1 else 1.

Definition compare (required_quota_units : Z) (a b : RoutingCandidate) : option Z :=
  match cnd_profile a, cnd_profile b with
  | Some p1, Some p2 => Some (compare_ranked required_quota_units (cnd_worker a) p1 (cnd_worker b) p2)
  | _, _ => None
  end.

Definition ranked_le (required_quota_units : Z) (a b : RoutingCandidate) : Prop :=
  match compare required_quota_units a b with Some c => c <= 0 | None => True end.

#[global] Instance ranked_le_dec q : RelDecision (ranked_le q).
Proof. intros a b. unfold ranked_le. destruct (compare q a b); apply _. Defined.

Definition has_profile (c : RoutingCandidate) : bool :=
  match cnd_profile c with Some _ => true | None => false end.

(** [sorted(candidates, key=cmp_to_key(compare))]: sorting two or more elements
    compares each of them, so one without a profile raises [ValueError]. *)
Definition rank_routing_candidates (candidates : list RoutingCandidate)
    (required_quota_units : Z) : Result ExecError (list RoutingCandidate) :=
  if (Z.of_nat (length candidates) <=? 1) || forallb has_profile candidates
  then Ok (merge_sort (ranked_le required_quota_units) candidates)
  else Err (ValueError "ranked routing candidates require profiles").

(** ** Reporting *)

Definition route_reason_precedence : list string :=
  [ "worker_repository_unavailable"; "routing_profile_missing"; "routing_profile_invalid";
    "routing_profile_disabled"; "worker_heartbeat_stale"; "worker_checkout_poll_stale";
    "worker_not_available"; "worker_concurrency_limit"; "routing_cost_ceiling_exceeded";
    "routing_quota_insufficient" ].

Definition unavailable_route_reason (mismatch_reasons : list string) (explicit_pin : bool)
    : string :=
  if explicit_pin then "preferred_executor_unavailable"
  else match filter (fun r => r ∈ mismatch_reasons) route_reason_precedence with
       | reason :: _ => reason
       | [] => "no_capable_workers"
       end.

(** ** Eligibility *)

Lemma reason_if_nil b r : reason_if b r = [] <-> b = false.
Proof. destruct b; simpl; split; congruence. Qed.

(** What a [CHEAPEST_CAPABLE] request asks of a profile. *)
Definition profile_fits (request : RoutingEvaluationRequest) (p : RoutingProfile) : Prop :=
  valid_profile p = true /\ rp_enabled p = true /\
  (forall m, rq_maximum_cost_units request = Some m -> rp_estimated_cost_units_per_run p <= m) /\
  rq_required_quota_units request <= rp_quota_remaining_units p.

(** The eligibility contract, stated independently of the order of the checks. *)
Record may_run (worker : Worker) (profile : option RoutingProfile)
    (request : RoutingEvaluationRequest) (now heartbeat_seconds poll_seconds : Z) : Prop := {
  mr_repository : rq_repository_full_name request ∈ worker_repositories worker;
  mr_pin : forall preferred, rq_preferred_executor request = Some preferred ->
    w_worker_id worker = preferred;
  mr_profile : rq_routing_policy request = CHEAPEST_CAPABLE ->
    exists p, profile = Some p /\ profile_fits request p;
  mr_online : w_status worker = ONLINE;
  mr_capacity : w_active_run_count worker < w_max_concurrency worker;
  mr_heartbeat : fresh (Some (w_last_heartbeat_at worker)) now heartbeat_seconds = true;
  mr_poll : fresh (w_last_checkout_poll_at worker) now poll_seconds = true;
  mr_capabilities :
    Forall (fun r => capability_mismatch (wi_capabilities (w_info worker)) (lower r.1) r.2 = None)
      (rq_manifest_requirements request ++ rq_requested_requirements request);
  mr_network : rq_network_policy request = WORKER_RESTRICTED ->
    network_policy_capability (wi_capabilities (w_info worker)) = WORKER_RESTRICTED;
  mr_no_write : repository_write_capability (wi_capabilities (w_info worker)) = false;
}.

Lemma profile_reasons_nil request profile :
  profile_reasons request profile = [] /\ cost_and_quota_reasons request profile = [] <->
  (rq_routing_policy request = CHEAPEST_CAPABLE ->
   exists p, profile = Some p /\ profile_fits request p).
Proof.
  unfold profile_reasons, cost_and_quota_reasons, profile_fits.
  destruct (rq_routing_policy request), profile as [p|]; try done.
  2:{ split; [by intros [[=] _]|]. intros H. by destruct (H eq_refl) as (? & [=] & _). }
  destruct (valid_profile p) eqn:Hv; simpl.
  2:{ split; [by intros [[=] _]|]. intros H. destruct (H eq_refl) as (? & [= <-] & ? & _). congruence. }
  rewrite app_nil, !reason_if_nil, Z.ltb_ge, negb_false_iff.
  assert (match rq_maximum_cost_units request with
          | Some m => m <? rp_estimated_cost_units_per_run p | None => false end = false <->
          (forall m, rq_maximum_cost_units request = Some m ->
             rp_estimated_cost_units_per_run p <= m)) as ->.
  { destruct (rq_maximum_cost_units request) as [m|]; [rewrite Z.ltb_ge|]; naive_solver. }
  naive_solver.
Qed.

Section eligibility.
Context (worker : Worker) (profile : option RoutingProfile) (request : RoutingEvaluationRequest).
Context (now hs ps : Z).
Let e := evaluate_routing_candidate worker profile request now hs ps.

(** A candidate is returned exactly when no reason is. *)
Lemma evaluate_candidate_or_reasons :
  (el_candidate e = Some {| cnd_worker := worker; cnd_profile := profile |} /\ el_reasons e = [])
  \/ (el_candidate e = None /\ el_reasons e <> []).
Proof. subst e. unfold evaluate_routing_candidate. simpl. destruct (dedup _); auto. Qed.

Lemma evaluate_reasons_NoDup : NoDup (el_reasons e).
Proof. apply NoDup_dedup. Qed.

Lemma evaluate_reasons_nil :
  el_reasons e = [] <-> may_run worker profile request now hs ps.
Proof.
  subst e. simpl. unfold routing_reasons.
  rewrite dedup_nil, !app_nil, !reason_if_nil, match_worker_capabilities_spec.
  rewrite !negb_false_iff, !bool_decide_eq_true, Z.leb_gt.
  assert (match rq_preferred_executor request with
          | Some p => negb (bool_decide (w_worker_id worker = p)) | None => false end = false <->
          (forall p, rq_preferred_executor request = Some p -> w_worker_id worker = p)) as ->.
  { destruct (rq_preferred_executor request); [|naive_solver].
    rewrite negb_false_iff, bool_decide_eq_true. naive_solver. }
  pose proof (profile_reasons_nil request profile) as Hp. split.
  - intros (? & ? & ? & ? & ? & ? & ? & (? & ? & ?) & ?). split; try done. by apply Hp.
  - intros [? ? Hprof ? ? ? ? ? ? ?]. apply Hp in Hprof as [? ?]. done.
Qed.
End eligibility.

(** ** The ranking is a total order on workers *)

Definition rankable (c : RoutingCandidate) : Prop :=
  has_profile c = true /\ 1 <= w_max_concurrency (cnd_worker c).

(** The ranking criterion, first difference deciding: cost, then quota headroom
    (more first), then relative load, then priority, then worker id. *)
Inductive precedes (a b : RoutingCandidate) (p1 p2 : RoutingProfile) : Prop :=
| precedes_cost :
    rp_estimated_cost_units_per_run p1 < rp_estimated_cost_units_per_run p2 ->
    precedes a b p1 p2
| precedes_headroom :
    rp_estimated_cost_units_per_run p1 = rp_estimated_cost_units_per_run p2 ->
    rp_quota_remaining_units p2 < rp_quota_remaining_units p1 -> precedes a b p1 p2
| precedes_load :
    rp_estimated_cost_units_per_run p1 = rp_estimated_cost_units_per_run p2 ->
    rp_quota_remaining_units p1 = rp_quota_remaining_units p2 ->
    w_active_run_count (cnd_worker a) * w_max_concurrency (cnd_worker b) <
      w_active_run_count (cnd_worker b) * w_max_concurrency (cnd_worker a) ->
    precedes a b p1 p2
| precedes_tie :
    rp_estimated_cost_units_per_run p1 = rp_estimated_cost_units_per_run p2 ->
    rp_quota_remaining_units p1 = rp_quota_remaining_units p2 ->
    w_active_run_count (cnd_worker a) * w_max_concurrency (cnd_worker b) =
      w_active_run_count (cnd_worker b) * w_max_concurrency (cnd_worker a) ->
    rp_routing_priority p1 < rp_routing_priority p2 \/
      (rp_routing_priority p1 = rp_routing_priority p2 /\
       str_le (w_worker_id (cnd_worker a)) (w_worker_id (cnd_worker b))) ->
    precedes a b p1 p2.

Lemma str_lt_le a b : a <> b -> (str_lt a b = true <-> str_le a b).
Proof.
  intros Hne. unfold str_lt, str_le, String.ltb, String.leb.
  pose proof (String.compare_eq_iff a b). destruct (String.compare a b); naive_solver.
Qed.

Lemma ranked_le_precedes q a b p1 p2 :
  cnd_profile a = Some p1 -> cnd_profile b = Some p2 ->
  ranked_le q a b <-> precedes a b p1 p2.
Proof.
  intros Ha Hb. unfold ranked_le, compare. rewrite Ha, Hb. unfold compare_ranked.
  assert (str_le (w_worker_id (cnd_worker a)) (w_worker_id (cnd_worker a))) by
    (destruct (str_le_total (w_worker_id (cnd_worker a)) (w_worker_id (cnd_worker a))); done).
  repeat match goal with
  | |- context [?x =? ?y] => destruct (Z.eqb_spec x y)
  | |- context [?x <? ?y] => destruct (Z.ltb_spec x y)
  end; cbn [negb];
  try (split; [intros ?|intros [?|? ?|? ? ?|? ? ? [?|[? ?]]]]; try lia;
       first [by apply precedes_cost | apply precedes_headroom; lia | apply precedes_load; lia
             | apply precedes_tie; lia]).
  case_bool_decide as He.
  - split; [|lia]. intros _. apply precedes_tie; try lia. right. by rewrite He in *.
  - pose proof (str_lt_le _ _ He) as Hlt. destruct (str_lt _ _).
    + split; [|lia]. intros _. apply precedes_tie; try lia. right. split; [done|]. by apply Hlt.
    + split; [lia|]. intros [?|? ?|? ? ?|? ? ? [?|[? Hs]]]; try lia. apply Hlt in Hs. done.
Qed.

(** Comparing [n1/m1] with [n2/m2] by cross-multiplication is transitive because
    every capacity is positive. *)
Lemma load_lt_trans n1 m1 n2 m2 n3 m3 :
  1 <= m1 -> 1 <= m2 -> 1 <= m3 ->
  n1 * m2 <= n2 * m1 -> n2 * m3 <= n3 * m2 ->
  n1 * m3 <= n3 * m1 /\
  (n1 * m3 = n3 * m1 -> n1 * m2 = n2 * m1 /\ n2 * m3 = n3 * m2).
Proof. intros. split; nia. Qed.

Lemma precedes_trans a b c p1 p2 p3 :
  1 <= w_max_concurrency (cnd_worker a) -> 1 <= w_max_concurrency (cnd_worker b) ->
  1 <= w_max_concurrency (cnd_worker c) ->
  precedes a b p1 p2 -> precedes b c p2 p3 -> precedes a c p1 p3.
Proof.
  intros Ha Hb Hc Hab Hbc.
  pose proof (load_lt_trans (w_active_run_count (cnd_worker a)) _
    (w_active_run_count (cnd_worker b)) _ (w_active_run_count (cnd_worker c)) _ Ha Hb Hc) as Hl.
  destruct Hab as [?|? ?|? ? ?|? ? ? Hp], Hbc as [?|? ?|? ? ?|? ? ? Hq];
    try (apply precedes_cost; lia); try (apply precedes_headroom; lia);
    try (apply precedes_load; [lia|lia|];
         destruct Hl as [? ?]; [lia|lia|]; lia).
  apply precedes_tie; [lia|lia|destruct Hl as [? ?]; nia|].
  destruct Hp as [?|[? ?]], Hq as [?|[? ?]]; [left; lia..|right]. split; [lia|]. by etrans.
Qed.

Lemma precedes_total a b p1 p2 : precedes a b p1 p2 \/ precedes b a p2 p1.
Proof.
  pose proof (str_le_total (w_worker_id (cnd_worker a)) (w_worker_id (cnd_worker b))) as Hs.
  destruct (Z.lt_trichotomy (rp_estimated_cost_units_per_run p1)
              (rp_estimated_cost_units_per_run p2)) as [?|[?|?]];
    [left; by apply precedes_cost| |right; by apply precedes_cost].
  destruct (Z.lt_trichotomy (rp_quota_remaining_units p1) (rp_quota_remaining_units p2))
    as [?|[?|?]]; [right; by apply precedes_headroom| |left; by apply precedes_headroom].
  destruct (Z.lt_trichotomy
    (w_active_run_count (cnd_worker a) * w_max_concurrency (cnd_worker b))
    (w_active_run_count (cnd_worker b) * w_max_concurrency (cnd_worker a))) as [?|[?|?]];
    [left; by apply precedes_load| |right; by apply precedes_load].
  destruct (Z.lt_trichotomy (rp_routing_priority p1) (rp_routing_priority p2)) as [?|[?|?]];
    [left; by apply precedes_tie; auto| |right; by apply precedes_tie; auto].
  destruct Hs; [left|right]; apply precedes_tie; auto.
Qed.

Lemma precedes_antisym a b p1 p2 :
  precedes a b p1 p2 -> precedes b a p2 p1 ->
  w_worker_id (cnd_worker a) = w_worker_id (cnd_worker b).
Proof.
  intros [?|? ?|? ? ?|? ? ? [?|[? ?]]] [?|? ?|? ? ?|? ? ? [?|[? ?]]]; try lia.
  by apply (anti_symm str_le).
Qed.

#[global] Instance ranked_le_total q : Total (ranked_le q).
Proof.
  intros a b. destruct (cnd_profile a) as [p1|] eqn:Ha, (cnd_profile b) as [p2|] eqn:Hb.
  2-4: left; unfold ranked_le, compare; rewrite ?Ha, ?Hb; done.
  rewrite (ranked_le_precedes q a b p1 p2), (ranked_le_precedes q b a p2 p1) by done.
  apply precedes_total.
Qed.

Lemma rankable_profile c : rankable c -> exists p, cnd_profile c = Some p.
Proof. intros [H _]. unfold has_profile in H. destruct (cnd_profile c); [eauto|done]. Qed.

Lemma ranked_le_trans q a b c :
  rankable a -> rankable b -> rankable c ->
  ranked_le q a b -> ranked_le q b c -> ranked_le q a c.
Proof.
  intros Ha Hb Hc. destruct (rankable_profile a Ha) as [p1 H1],
    (rankable_profile b Hb) as [p2 H2], (rankable_profile c Hc) as [p3 H3].
  rewrite !(ranked_le_precedes q _ _ _ _ H1 H2), !(ranked_le_precedes q _ _ _ _ H2 H3),
    !(ranked_le_precedes q _ _ _ _ H1 H3).
  apply precedes_trans; [apply Ha|apply Hb|apply Hc].
Qed.

Lemma ranked_le_antisym q a b :
  rankable a -> rankable b -> ranked_le q a b -> ranked_le q b a ->
  w_worker_id (cnd_worker a) = w_worker_id (cnd_worker b).
Proof.
  intros Ha Hb. destruct (rankable_profile a Ha) as [p1 H1], (rankable_profile b Hb) as [p2 H2].
  rewrite !(ranked_le_precedes q _ _ _ _ H1 H2), !(ranked_le_precedes q _ _ _ _ H2 H1).
  apply precedes_antisym.
Qed.

(** A locally sorted list is strongly sorted when the relation is transitive on
    its members. *)
Lemma Sorted_StronglySorted_on {A} (P : A -> Prop) (R : relation A) l :
  (forall x y z, P x -> P y -> P z -> R x y -> R y z -> R x z) ->
  Forall P l -> Sorted R l -> StronglySorted R l.
Proof.
  intros Htr HP Hs. apply Sorted_LocallySorted_iff in Hs.
  induction Hs as [|x|x y l Hs IH Hxy]; [constructor|repeat constructor|].
  inversion_clear HP as [|? ? Hx HP']. specialize (IH HP'). constructor; [done|].
  constructor; [done|]. inversion_clear IH as [|? ? Hs' Hall].
  inversion_clear HP' as [|? ? Hy HPl].
  apply Forall_forall. intros z Hz. eapply (Htr x y z); try done.
  - by eapply Forall_forall in HPl.
  - by eapply Forall_forall in Hall.
Qed.

Lemma StronglySorted_unique_on {A B} (key : A -> B) (R : relation A) l1 l2 :
  (forall x y, x ∈ l1 -> y ∈ l1 -> R x y -> R y x -> key x = key y) ->
  NoDup (key <$> l1) -> l1 ≡ₚ l2 ->
  StronglySorted R l1 -> StronglySorted R l2 -> l1 = l2.
Proof.
  intros Hanti Hnd Hp Hs1 Hs2. revert l2 Hp Hs2.
  induction Hs1 as [|x l1 Hs1 IH Hx]; intros l2 Hp Hs2; [by apply Permutation_nil_l in Hp|].
  destruct l2 as [|y l2]; [by apply Permutation_nil_r in Hp|].
  inversion_clear Hs2 as [|? ? Hs2' Hy]. inversion_clear Hnd as [|? ? Hxk Hnd'].
  rewrite Forall_forall in Hx, Hy.
  assert (x = y) as <-.
  { assert (y ∈ x :: l1) as Hyin by (rewrite Hp; left).
    assert (x ∈ y :: l2) as Hxin by (rewrite <-Hp; left).
    apply elem_of_cons in Hyin as [Hyin|Hyin]; [done|].
    apply elem_of_cons in Hxin as [Hxin|Hxin]; [done|].
    exfalso. apply Hxk. apply list_elem_of_fmap. exists y. split; [|done].
    apply Hanti; [left|by right|by apply Hx|by apply Hy]. }
  f_equal. apply IH; [|done| by apply Permutation_cons_inv in Hp|done].
  intros u v Hu Hv. apply Hanti; by right.
Qed.

Definition ranked_worker_ids (l : list RoutingCandidate) : list string :=
  (fun c => w_worker_id (cnd_worker c)) <$> l.

Section ranking.
Context (q : Z) (candidates : list RoutingCandidate) (Hr : Forall rankable candidates).

Lemma rank_ok :
  rank_routing_candidates candidates q = Ok (merge_sort (ranked_le q) candidates).
Proof.
  unfold rank_routing_candidates. assert (forallb has_profile candidates = true) as ->.
  { apply forallb_forall. intros c Hc. rewrite Forall_forall in Hr.
    by apply Hr, list_elem_of_In. }
  by rewrite orb_true_r.
Qed.

Lemma rank_strongly_sorted : StronglySorted (ranked_le q) (merge_sort (ranked_le q) candidates).
Proof.
  apply (Sorted_StronglySorted_on rankable).
  - intros x y z. apply ranked_le_trans.
  - by rewrite merge_sort_Permutation.
  - apply Sorted_merge_sort. apply _.
Qed.

Lemma rank_permutation_invariant other :
  NoDup (ranked_worker_ids candidates) -> candidates ≡ₚ other ->
  merge_sort (ranked_le q) candidates = merge_sort (ranked_le q) other.
Proof.
  intros Hnd Hp. assert (Forall rankable other) as Ho by by rewrite <-Hp.
  apply (StronglySorted_unique_on (fun c => w_worker_id (cnd_worker c)) (ranked_le q)).
  - intros x y Hx Hy. rewrite merge_sort_Permutation in Hx, Hy. rewrite Forall_forall in Hr.
    apply ranked_le_antisym; auto.
  - unfold ranked_worker_ids in Hnd. by rewrite (merge_sort_Permutation _ candidates).
  - by rewrite (merge_sort_Permutation _ candidates), (merge_sort_Permutation _ other).
  - apply rank_strongly_sorted.
  - apply (Sorted_StronglySorted_on rankable); [intros x y z; apply ranked_le_trans| |].
    + by rewrite merge_sort_Permutation.
    + apply Sorted_merge_sort. apply _.
Qed.
End ranking.

(** ** The route reason *)

(** The route reason reported is the first of the precedence list that applies to
    some worker, or [no_capable_workers] when none does. *)
Theorem unavailable_route_reason_spec mismatches :
  let reason := unavailable_route_reason mismatches false in
  (reason ∈ mismatches /\ exists before after,
     route_reason_precedence = before ++ reason :: after /\
     Forall (fun r => r ∉ mismatches) before)
  \/ (reason = "no_capable_workers" /\
      Forall (fun r => r ∉ mismatches) route_reason_precedence).
Proof.
  cbv zeta. unfold unavailable_route_reason.
  induction route_reason_precedence as [|r rest IH]; simpl.
  - right. split; [done|constructor].
  - destruct (decide (r ∈ mismatches)) as [Hin|Hout].
    + rewrite filter_cons_True by done. left. split; [done|]. exists [], rest. split; [done|constructor].
    + rewrite filter_cons_False by done. destruct IH as [(Hin & before & after & Heq & Hb)|[Heq Hall]].
      * left. split; [done|]. exists (r :: before), after. split; [by rewrite Heq at 1|]. by constructor.
      * right. split; [done|]. by constructor.
Qed.
