(* ===== verification/Repository.v ===== *)
(** * The persistence adapter

    [server/execution/repository.py]: every query and guarded statement of
    [ExecutionRepository], over the tables of [Models].  A guarded [UPDATE] or
    [DELETE] returns whether it affected exactly one row, as [_affected_one] does;
    a statement that would break a CHECK or UNIQUE constraint of
    [server/models.py] raises [IntegrityError]. *)

From S2P Require Import Prelude Text Json Enums Evidence Registry Capabilities Models Routing.

Definition MAX_ROUTING_REVISION : Z := 2147483647.
Definition MAX_EXACT_REUSE_CANDIDATES : nat := 32.

(** ** Table constraints *)

#[export] Instance manifests_table : Table Z CommandManifest := {
  table := db_manifests;
  set_table t d := d <| db_manifests := t |>;
  row_check _ := true;
  row_clash a b :=
    (bool_decide (cm_name a = cm_name b) && bool_decide (cm_version a = cm_version b))
    || bool_decide (cm_digest a = cm_digest b);
  table_set_table _ _ := eq_refl;
}.

#[export] Instance orders_table : Table Z WorkOrder := {
  table := db_orders;
  set_table t d := d <| db_orders := t |>;
  row_check o :=
    negb (wos_repository_write_allowed (wo_spec o))
    && (0 <=? wo_attempt_count o)
    && opt_all (fun m => within 0 m MAX_ROUTING_INTEGER) (wos_maximum_cost_units (wo_spec o))
    && within 0 (wos_required_quota_units (wo_spec o)) MAX_ROUTING_INTEGER;
  row_clash _ _ := false;
  table_set_table _ _ := eq_refl;
}.

#[export] Instance workers_table : Table string Worker := {
  table := db_workers;
  set_table t d := d <| db_workers := t |>;
  row_check w :=
    (1 <=? w_max_concurrency w) && (0 <=? w_active_run_count w)
    && negb (repository_write_capability (wi_capabilities (w_info w)));
  row_clash _ _ := false;
  table_set_table _ _ := eq_refl;
}.

(** The CHECK constraints of a routing profile are the conditions of
    [_valid_profile]. *)
#[export] Instance profiles_table : Table string RoutingProfile := {
  table := db_profiles;
  set_table t d := d <| db_profiles := t |>;
  row_check := valid_profile;
  row_clash _ _ := false;
  table_set_table _ _ := eq_refl;
}.

#[export] Instance runs_table : Table Z Run := {
  table := db_runs;
  set_table t d := d <| db_runs := t |>;
  row_check _ := true;
  row_clash a b :=
    (run_work_order_id a =? run_work_order_id b)
    && (run_attempt_number a =? run_attempt_number b);
  table_set_table _ _ := eq_refl;
}.

#[export] Instance leases_table : Table Z Lease := {
  table := db_leases;
  set_table t d := d <| db_leases := t |>;
  row_check _ := true;
  row_clash a b :=
    (lease_work_order_id a =? lease_work_order_id b)
    || (lease_execution_run_id a =? lease_execution_run_id b);
  table_set_table _ _ := eq_refl;
}.

(** ** Statements *)

Section statements.
Context {K V : Type} `{Table K V}.

(** [SELECT ... WHERE key = k] *)
Definition get_row (k : K) : exec (option V) := from_db (fun d => table d !! k).

(** [UPDATE ... SET f WHERE key = k AND guard] *)
Definition update_row (k : K) (guard : V -> bool) (f : V -> V) : exec bool := fun w =>
  match table (db w) !! k with
  | Some v =>
      if guard v then
        if row_check (f v)
        then (Ok true, w <| db := set_table (<[k := f v]> (table (db w))) (db w) |>)
        else (Err IntegrityError, w)
      else (Ok false, w)
  | None => (Ok false, w)
  end.

(** [DELETE ... WHERE key = k AND guard] *)
Definition delete_row (k : K) (guard : V -> bool) : exec bool := fun w =>
  match table (db w) !! k with
  | Some v =>
      if guard v
      then (Ok true, w <| db := set_table (delete k (table (db w) : gmap K V)) (db w) |>)
      else (Ok false, w)
  | None => (Ok false, w)
  end.

(** [session.add(row); flush()] *)
Definition insert_row (k : K) (v : V) : exec unit := fun w =>
  if bool_decide ((table (db w) : gmap K V) !! k = None) && row_check v
     && forallb (fun kv => negb (row_clash v kv.2)) (map_to_list (table (db w)))
  then (Ok tt, w <| db := set_table (<[k := v]> (table (db w))) (db w) |>)
  else (Err IntegrityError, w).
End statements.

(** The autoincremented key of the next row of an integer-keyed table. *)
Definition next_id {V} `{!Table Z V} : exec Z := from_db (fun d => fresh_id (table d : gmap Z V)).

(** ** Manifests *)

Definition get_manifest (name version : string) : exec (option CommandManifest) :=
  from_db (fun d => find_row (fun m => bool_decide (cm_name m = name)
                                       && bool_decide (cm_version m = version)) (db_manifests d)).

(** [_matches_trusted_manifest] *)
Definition matches_trusted_manifest (persisted : CommandManifest) (definition : TrustedManifest)
    : bool :=
  (cm_schema_version persisted =? tm_schema_version definition)
  && bool_decide (cm_digest persisted = tm_digest definition)
  && bool_decide (cm_description persisted = tm_description definition)
  && bool_decide (cm_trusted_registry_source persisted = tm_registry_source definition)
  && py_eq (JObj (cm_required_capabilities persisted)) (JObj (tm_required_capabilities definition))
  && py_eq (JList (cm_fixed_step_metadata persisted)) (JList (tm_fixed_step_metadata definition))
  && py_eq (JObj (cm_environment_policy persisted)) (JObj (tm_environment_policy definition))
  && bool_decide (cm_network_policy persisted = tm_network_policy definition)
  && bool_decide (cm_repository_write_policy persisted = tm_repository_write_policy definition)
  && (cm_timeout_seconds persisted =? tm_timeout_seconds definition)
  && py_eq (JList (cm_artifact_declarations persisted))
       (JList (tm_artifact_declarations definition)).

Definition manifest_row (id : Z) (definition : TrustedManifest) : CommandManifest :=
  {| cm_id := id; cm_name := tm_name definition; cm_version := tm_version definition;
     cm_schema_version := tm_schema_version definition; cm_digest := tm_digest definition;
     cm_description := tm_description definition;
     cm_trusted_registry_source := tm_registry_source definition;
     cm_required_capabilities := tm_required_capabilities definition;
     cm_fixed_step_metadata := tm_fixed_step_metadata definition;
     cm_environment_policy := tm_environment_policy definition;
     cm_network_policy := tm_network_policy definition;
     cm_repository_write_policy := tm_repository_write_policy definition;
     cm_timeout_seconds := tm_timeout_seconds definition;
     cm_artifact_declarations := tm_artifact_declarations definition |}.

(** The re-read after a lost insertion race. *)
Definition reread_manifest (definition : TrustedManifest) : exec CommandManifest :=
  existing ← get_manifest (tm_name definition) (tm_version definition);
  match existing with
  | Some m =>
      if matches_trusted_manifest m definition then mret m
      else raise (ManifestIntegrityError "trusted_manifest_digest_conflict")
  | None => raise (ManifestIntegrityError "trusted_manifest_digest_conflict")
  end.

Definition ensure_manifest (definition : TrustedManifest) : exec CommandManifest :=
  existing ← get_manifest (tm_name definition) (tm_version definition);
  match existing with
  | Some m =>
      if matches_trusted_manifest m definition then mret m
      else raise (ManifestIntegrityError "trusted_manifest_digest_conflict")
  | None =>
      handle
        (begin_nested (id ← next_id (V := CommandManifest);
                       _ ← insert_row id (manifest_row id definition);
                       mret (manifest_row id definition)))
        (fun e => match e with
                  | IntegrityError => Some (reread_manifest definition)
                  | _ => None
                  end)
  end.

Definition ensure_manifests (definitions : list TrustedManifest) : exec (list CommandManifest) :=
  for_each (fun acc definition => m ← ensure_manifest definition; mret (acc ++ [m]))
    [] definitions.

(** ** Work orders *)

Definition create_work_order (values : WorkOrderSpec) : exec WorkOrder :=
  id ← next_id (V := WorkOrder);
  let row := {| wo_id := id; wo_spec := values; wo_status := WO_PENDING_APPROVAL;
                wo_attempt_count := 0; wo_approved_at := None; wo_queued_at := None;
                wo_assigned_at := None; wo_started_at := None; wo_finished_at := None;
                wo_terminal_reason := None; wo_route := no_route |} in
  _ ← insert_row id row;
  mret row.

Definition get_work_order (id : Z) : exec (option WorkOrder) := get_row id.

Definition list_work_orders : exec (list WorkOrder) :=
  from_db (fun d => (rows_in_order (db_orders d)).*2).

(** Queued orders in id order, joined with the manifest rows they refer to. *)
Definition list_queued_work_orders : exec (list (WorkOrder * CommandManifest)) :=
  from_db (fun d =>
    omap (fun o =>
      if bool_decide (wo_status o = WO_QUEUED)
      then m ← db_manifests d !! wos_manifest_id (wo_spec o); Some (o, m)
      else None) (rows_in_order (db_orders d)).*2).

(** ** Workers *)

Definition get_worker (worker_id : string) : exec (option Worker) := get_row worker_id.

(** [ORDER BY worker_id], each worker with its profile if it has one. *)
Definition list_workers_with_profiles : exec (list (Worker * option RoutingProfile)) :=
  from_db (fun d =>
    omap (fun k => w ← db_workers d !! k; Some (w, db_profiles d !! k))
      (sort_strings (map_to_list (db_workers d)).*1)).

(** The status a worker shows once its requested status and load are known. *)
Definition settled_status (requested : WorkerStatus) (active max : Z) : WorkerStatus :=
  match requested with
  | BUSY | DRAINING | OFFLINE => requested
  | ONLINE => if max <=? active then BUSY else ONLINE
  end.

(** The attributes assigned to an existing worker on re-registration. *)
Definition refresh_worker (info : WorkerInfo) (status : WorkerStatus) (now : Z) (w : Worker)
    : Worker :=
  let w := w <| w_info := info |> in
  w <| w_status := settled_status status (w_active_run_count w) (w_max_concurrency w) |>
    <| w_last_heartbeat_at := now |>.

Definition upsert_worker (worker_id : string) (info : WorkerInfo) (status : WorkerStatus)
    (now : Z) : exec Worker :=
  existing ← get_worker worker_id;
  match existing with
  | None =>
      let row := {| w_worker_id := worker_id; w_info := info; w_active_run_count := 0;
                    w_status := status; w_last_heartbeat_at := now;
                    w_last_checkout_poll_at := None |} in
      _ ← insert_row worker_id row;
      mret row
  | Some w =>
      _ ← update_row worker_id (fun _ => true) (refresh_worker info status now);
      mret (refresh_worker info status now w)
  end.

Definition record_checkout_poll (worker_id : string) (now : Z) : exec bool :=
  update_row worker_id (fun _ => true) (fun w : Worker => w <| w_last_checkout_poll_at := Some now |>).

Definition beat_worker (now : Z) (status : option WorkerStatus) (w : Worker) : Worker :=
  let w := w <| w_last_heartbeat_at := now |> in
  match status with
  | Some s => w <| w_status := settled_status s (w_active_run_count w) (w_max_concurrency w) |>
  | None => w
  end.

Definition update_worker_heartbeat (worker : Worker) (now : Z) (status : option WorkerStatus)
    : exec Worker :=
  _ ← update_row (w_worker_id worker) (fun _ => true) (beat_worker now status);
  mret (beat_worker now status worker).

Definition take_slot (w : Worker) : Worker :=
  w <| w_active_run_count := w_active_run_count w + 1 |>
    <| w_status := if w_max_concurrency w <=? w_active_run_count w + 1 then BUSY else ONLINE |>.

Definition can_take_slot (w : Worker) : bool :=
  bool_decide (w_status w = ONLINE) && (w_active_run_count w <? w_max_concurrency w).

Definition reserve_worker_capacity (worker_id : string) : exec bool :=
  update_row worker_id can_take_slot take_slot.

Definition free_slot (w : Worker) : Worker :=
  w <| w_active_run_count := w_active_run_count w - 1 |>
    <| w_status := match w_status w with
                   | DRAINING | OFFLINE => w_status w
                   | _ => if w_max_concurrency w <=? w_active_run_count w - 1 then BUSY else ONLINE
                   end |>.

Definition release_worker_capacity (worker_id : string) : exec bool :=
  update_row worker_id (fun w => 0 <? w_active_run_count w) free_slot.

(** ** Routing profiles *)

Definition get_routing_profile (worker_id : string) : exec (option RoutingProfile) :=
  get_row worker_id.

Definition list_routing_profiles : exec (list RoutingProfile) :=
  from_db (fun d => omap (fun k => db_profiles d !! k) (sort_strings (map_to_list (db_profiles d)).*1)).

Definition create_routing_profile (row : RoutingProfile) : exec RoutingProfile :=
  _ ← insert_row (rp_worker_id row) row; mret row.

(** The columns a profile replacement writes, once validated and normalized. *)
Definition apply_profile_values (v : RoutingProfileValues) (p : RoutingProfile) : RoutingProfile :=
  p <| rp_enabled := pv_enabled v |>
    <| rp_estimated_cost_units_per_run := pv_estimated_cost_units_per_run v |>
    <| rp_quota_capacity_units := pv_quota_capacity_units v |>
    <| rp_quota_remaining_units := pv_quota_remaining_units v |>
    <| rp_quota_reset_at := utc_naive <$> pv_quota_reset_at v |>
    <| rp_routing_priority := pv_routing_priority v |>.

Definition replace_routing_profile (worker_id : string) (expected_revision : Z)
    (values : RoutingProfileValues) : exec bool :=
  update_row worker_id
    (fun p : RoutingProfile => (rp_revision p =? expected_revision) && (rp_revision p <? MAX_ROUTING_REVISION))
    (fun p => apply_profile_values values p <| rp_revision := expected_revision + 1 |>).

Definition reset_routing_quota (worker_id : string) (reset : RoutingQuotaReset) : exec bool :=
  update_row worker_id
    (fun p : RoutingProfile => (rp_revision p =? qr_expected_revision reset)
       && (rp_revision p <? MAX_ROUTING_REVISION)
       && (qr_quota_remaining_units reset <=? rp_quota_capacity_units p))
    (fun p => p <| rp_quota_remaining_units := qr_quota_remaining_units reset |>
                <| rp_quota_reset_at := Some (utc_naive (qr_quota_reset_at reset)) |>
                <| rp_revision := qr_expected_revision reset + 1 |>).

Definition holds_reservation (worker_id : string) (r : Run) : bool :=
  bool_decide (run_worker_id r = worker_id)
  && bool_decide (xr_quota_state (run_route r) = RESERVED).

Definition count_reserved_quota_runs (worker_id : string) : exec Z :=
  from_db (fun d => msum (fun r => if holds_reservation worker_id r then 1 else 0) (db_runs d)).

Definition can_reserve_quota (expected_revision units : Z) (p : RoutingProfile) : bool :=
  let maximum_expected_revision := MAX_ROUTING_REVISION - (if units =? 0 then 1 else 2) in
  rp_enabled p && (rp_revision p =? expected_revision)
  && (rp_revision p <=? maximum_expected_revision)
  && (units <=? rp_quota_remaining_units p)
  && (rp_quota_remaining_units p <=? rp_quota_capacity_units p).

Definition reserve_quota (expected_revision units : Z) (p : RoutingProfile) : RoutingProfile :=
  p <| rp_quota_remaining_units := rp_quota_remaining_units p - units |>
    <| rp_revision := expected_revision + 1 |>.

Definition reserve_routing_quota (worker_id : string) (expected_revision units : Z)
    : exec (option Z) :=
  affected ← update_row worker_id (can_reserve_quota expected_revision units)
               (reserve_quota expected_revision units);
  mret (if affected : bool then Some (expected_revision + 1) else None).

(** ** Claiming *)

Definition assign_order (now : Z) (route : option OrderRoute) (o : WorkOrder) : WorkOrder :=
  let o := o <| wo_status := WO_ASSIGNED |> <| wo_assigned_at := Some now |>
             <| wo_attempt_count := wo_attempt_count o + 1 |> in
  match route with Some r => o <| wo_route := r |> | None => o end.

Definition claim_queued_work_order (id now : Z) (route : option OrderRoute) : exec bool :=
  update_row id (fun o => bool_decide (wo_status o = WO_QUEUED)) (assign_order now route).

Definition default_run_route (now : Z) : RunRoute :=
  {| xr_schema_version := 1; xr_routing_policy := FIRST_AVAILABLE; xr_profile_revision := None;
     xr_estimated_cost_units := None; xr_required_quota_units := 0; xr_reserved_quota_units := 0;
     xr_quota_state := NOT_REQUIRED; xr_eligible_candidate_count := 1;
     xr_explicit_pin_applied := false; xr_reason := "routing_selected"; xr_decided_at := now |}.

Definition initial_reuse (policy : ReusePolicy) : RunReuse :=
  {| rr_identity := None; rr_identity_hash := None; rr_reused_from_run_id := None;
     rr_source_evidence_fingerprint := None;
     rr_decision := match policy with NEVER => NOT_REQUESTED | _ => PENDING end;
     rr_reason := Some (match policy with
                        | NEVER => "reuse_policy_never" | _ => "exact_candidate_pending" end);
     rr_candidate := None; rr_retention_expires_at := None |}.

Definition no_result : RunResult :=
  {| res_result_summary := None; res_terminal_reason := None; res_cleanup_status := None;
     res_artifact_metadata := []; res_evidence_metadata := None |}.

Definition new_run (id : Z) (o : WorkOrder) (worker_id : string) (assigned_at expires_at : Z)
    (route : option RunRoute) : Run :=
  {| run_id := id; run_work_order_id := wo_id o; run_worker_id := worker_id;
     run_attempt_number := wo_attempt_count o; run_status := RUN_ASSIGNED;
     run_queued_at := match wo_queued_at o with Some t => t | None => assigned_at end;
     run_assigned_at := assigned_at; run_started_at := None; run_finished_at := None;
     run_lease_expires_at := expires_at; run_last_heartbeat_at := assigned_at;
     run_result := no_result; run_reuse := initial_reuse (wos_reuse_policy (wo_spec o));
     run_route := match route with Some r => r | None => default_run_route assigned_at end |}.

Definition new_lease (id : Z) (o : WorkOrder) (r : Run) (worker_id : string)
    (assigned_at expires_at : Z) : Lease :=
  {| lease_id := id; lease_work_order_id := wo_id o; lease_execution_run_id := run_id r;
     lease_worker_id := worker_id; lease_expires_at := expires_at;
     lease_last_heartbeat_at := assigned_at |}.

Definition create_active_run (o : WorkOrder) (worker_id : string) (assigned_at expires_at : Z)
    (route : option RunRoute) : exec Run :=
  id ← next_id (V := Run);
  let run := new_run id o worker_id assigned_at expires_at route in
  _ ← insert_row id run;
  lid ← next_id (V := Lease);
  _ ← insert_row lid (new_lease lid o run worker_id assigned_at expires_at);
  mret run.

(** ** Runs and quota reservations *)

Definition get_run (id : Z) : exec (option Run) := get_row id.

Definition list_runs (work_order_id : option Z) : exec (list Run) :=
  from_db (fun d =>
    filter (fun r => opt_all (fun id => run_work_order_id r =? id) work_order_id = true)
      (rows_in_order (db_runs d)).*2).

Definition run_reserved (r : Run) : bool := bool_decide (xr_quota_state (run_route r) = RESERVED).
Definition order_reserved (o : WorkOrder) : bool :=
  bool_decide (or_quota_state (wo_route o) = Some RESERVED).

Definition settle_run_quota (s : QuotaReservationState) (r : Run) : Run :=
  r <| run_route := (run_route r) <| xr_quota_state := s |> |>.
Definition settle_order_quota (s : QuotaReservationState) (o : WorkOrder) : WorkOrder :=
  o <| wo_route := (wo_route o) <| or_quota_state := Some s |> |>.

Definition consume_run_quota_reservation (run_id work_order_id : Z) : exec bool :=
  run ← get_run run_id;
  match run with
  | None => mret false
  | Some r =>
      match xr_quota_state (run_route r) with
      | NOT_REQUIRED | CONSUMED => mret true
      | RELEASED => mret false
      | RESERVED =>
          run_result ← update_row run_id run_reserved (settle_run_quota CONSUMED);
          order_result ← update_row work_order_id order_reserved (settle_order_quota CONSUMED);
          mret (run_result && order_result)
      end
  end.

Definition can_return_quota (units : Z) (p : RoutingProfile) : bool :=
  (rp_revision p <? MAX_ROUTING_REVISION)
  && (rp_quota_remaining_units p <=? rp_quota_capacity_units p - units).

Definition return_quota (units : Z) (p : RoutingProfile) : RoutingProfile :=
  p <| rp_quota_remaining_units := rp_quota_remaining_units p + units |>
    <| rp_revision := rp_revision p + 1 |>.

Definition release_run_quota_reservation (run_id work_order_id : Z) (worker_id : string)
    : exec bool :=
  run ← get_run run_id;
  match run with
  | None => mret false
  | Some r =>
      match xr_quota_state (run_route r) with
      | NOT_REQUIRED | CONSUMED | RELEASED => mret true
      | RESERVED =>
          let units := xr_reserved_quota_units (run_route r) in
          profile_result ←
            (if 0 <? units then update_row worker_id (can_return_quota units) (return_quota units)
             else mret true);
          if profile_result : bool then
            run_result ← update_row run_id run_reserved (settle_run_quota RELEASED);
            order_result ← update_row work_order_id order_reserved (settle_order_quota RELEASED);
            mret (run_result && order_result)
          else mret false
      end
  end.

Definition exact_reuse_match (work_order : WorkOrder) (worker_id reuse_identity_hash : string)
    (exclude_run_id : Z) (r : Run) (o : WorkOrder) : bool :=
  let s := wo_spec o in
  let t := wo_spec work_order in
  negb (run_id r =? exclude_run_id)
  && bool_decide (run_worker_id r = worker_id)
  && bool_decide (run_status r = RUN_SUCCEEDED)
  && bool_decide (rr_decision (run_reuse r) = FRESH)
  && bool_decide (rr_identity_hash (run_reuse r) = Some reuse_identity_hash)
  && bool_decide (wos_repository_full_name s = wos_repository_full_name t)
  && bool_decide (wos_commit_sha s = wos_commit_sha t)
  && bool_decide (wos_manifest_name s = wos_manifest_name t)
  && bool_decide (wos_manifest_version s = wos_manifest_version t)
  && bool_decide (wos_manifest_digest s = wos_manifest_digest t)
  && bool_decide (wos_execution_policy_hash s = wos_execution_policy_hash t).

(** Newest first, bounded. *)
Definition list_exact_reuse_candidates (work_order : WorkOrder)
    (worker_id reuse_identity_hash : string) (exclude_run_id : Z)
    : exec (list (Run * WorkOrder)) :=
  from_db (fun d =>
    take MAX_EXACT_REUSE_CANDIDATES
      (omap (fun r => o ← db_orders d !! run_work_order_id r;
                      if exact_reuse_match work_order worker_id reuse_identity_hash
                           exclude_run_id r o
                      then Some (r, o) else None)
        (reverse (rows_in_order (db_runs d)).*2))).

Definition update_active_run_reuse (id : Z) (values : Run -> Run) : exec bool :=
  update_row id (fun r => active_run (run_status r)) values.

(** ** Leases *)

Definition get_lease_for_run (run_id : Z) : exec (option Lease) :=
  from_db (fun d => find_row (fun l => lease_execution_run_id l =? run_id) (db_leases d)).

Definition get_lease_for_work_order (work_order_id : Z) : exec (option Lease) :=
  from_db (fun d => find_row (fun l => lease_work_order_id l =? work_order_id) (db_leases d)).

Definition get_lease_snapshot_for_run (run_id : Z) : exec (option LeaseSnapshot) :=
  lease ← get_lease_for_run run_id; mret (snapshot_of <$> lease).

Definition get_lease_snapshot_for_work_order (work_order_id : Z) : exec (option LeaseSnapshot) :=
  lease ← get_lease_for_work_order work_order_id; mret (snapshot_of <$> lease).

Definition list_stale_lease_snapshots (now : Z) : exec (list LeaseSnapshot) :=
  from_db (fun d => snapshot_of <$> filter (fun l => lease_expires_at l < now)
                                      (rows_in_order (db_leases d)).*2).

Definition extend_lease (now expires_at : Z) (l : Lease) : Lease :=
  l <| lease_last_heartbeat_at := now |> <| lease_expires_at := expires_at |>.

(** [UPDATE ... WHERE execution_run_id = run_id AND ...]; that column is unique. *)
Definition renew_owned_live_lease (run_id : Z) (worker_id : string) (now expires_at : Z)
    : exec bool :=
  lease ← get_lease_for_run run_id;
  match lease with
  | Some l =>
      update_row (lease_id l)
        (fun l => (lease_execution_run_id l =? run_id) && bool_decide (lease_worker_id l = worker_id)
                  && (now <=? lease_expires_at l))
        (extend_lease now expires_at)
  | None => mret false
  end.

Inductive LeaseGuard := ANY_LEASE | LIVE_LEASE | STALE_LEASE.

(** The guard [require_live]/[require_stale] adds to the deletion. *)
Definition lease_guard (g : LeaseGuard) (now : Z) (l : Lease) : bool :=
  match g with
  | ANY_LEASE => true
  | LIVE_LEASE => now <=? lease_expires_at l
  | STALE_LEASE => lease_expires_at l <? now
  end.

Definition snapshot_matches (s : LeaseSnapshot) (l : Lease) : bool :=
  (lease_work_order_id l =? snap_work_order_id s)
  && (lease_execution_run_id l =? snap_execution_run_id s)
  && bool_decide (lease_worker_id l = snap_worker_id s).

(** [consume_lease] with [now] given; asking for live and stale at once raises. *)
Definition consume_lease (s : LeaseSnapshot) (now : Z) (require_live require_stale : bool)
    : exec bool :=
  if require_live && require_stale then raise (ValueError "lease cannot be both live and stale")
  else
    let g := if require_live then LIVE_LEASE else if require_stale then STALE_LEASE else ANY_LEASE in
    delete_row (snap_id s) (fun l => snapshot_matches s l && lease_guard g now l).

(** ** Lifecycle updates *)

Definition start_run (now expires_at : Z) (r : Run) : Run :=
  let assigned := bool_decide (run_status r = RUN_ASSIGNED) in
  r <| run_status := if assigned then RUN_RUNNING else run_status r |>
    <| run_started_at := if assigned then Some now else run_started_at r |>
    <| run_last_heartbeat_at := now |> <| run_lease_expires_at := expires_at |>.

Definition mark_active_run_running (id now expires_at : Z) : exec bool :=
  update_row id (fun r => active_run (run_status r)) (start_run now expires_at).

Definition start_order (now : Z) (o : WorkOrder) : WorkOrder :=
  let assigned := bool_decide (wo_status o = WO_ASSIGNED) in
  o <| wo_status := if assigned then WO_RUNNING else wo_status o |>
    <| wo_started_at := if assigned then Some now else wo_started_at o |>.

Definition mark_active_work_order_running (id now : Z) : exec bool :=
  update_row id (fun o => active_work_order (wo_status o)) (start_order now).

Definition finish_active_run (id : Z) (values : Run -> Run) : exec bool :=
  update_row id (fun r => active_run (run_status r)) values.

Definition finish_order (status : WorkOrderStatus) (now : Z) (reason : string) (o : WorkOrder)
    : WorkOrder :=
  o <| wo_status := status |> <| wo_finished_at := Some now |>
    <| wo_terminal_reason := Some reason |>.

Definition finish_active_work_order (id : Z) (status : WorkOrderStatus) (now : Z)
    (terminal_reason : string) : exec bool :=
  update_row id (fun o => active_work_order (wo_status o)) (finish_order status now terminal_reason).

Definition time_out_run (now : Z) (r : Run) : Run :=
  r <| run_status := RUN_TIMED_OUT |> <| run_finished_at := Some now |>
    <| run_last_heartbeat_at := now |>
    <| run_result := {| res_result_summary := None;
                        res_terminal_reason := Some "execution_lease_expired";
                        res_cleanup_status := Some "lease_expired";
                        res_artifact_metadata := []; res_evidence_metadata := None |} |>.

Definition requeue_stale_active_run (id now : Z) : exec bool := finish_active_run id (time_out_run now).

Definition requeue_order (now : Z) (o : WorkOrder) : WorkOrder :=
  o <| wo_status := WO_QUEUED |> <| wo_queued_at := Some now |> <| wo_terminal_reason := None |>.

Definition requeue_stale_active_work_order (id now : Z) : exec bool :=
  update_row id (fun o => active_work_order (wo_status o)) (requeue_order now).

Definition transition_unleased_work_order (id : Z) (current_statuses : list WorkOrderStatus)
    (values : WorkOrder -> WorkOrder) : exec bool :=
  update_row id (fun o => bool_decide (wo_status o ∈ current_statuses)) values.
