(* ===== verification/Service.v ===== *)
(** * The execution lifecycle service

    [server/execution/service.py]: [ExecutionService], one definition per method.
    A method runs in the state monad of [Models]: it reads the clock of its
    environment, calls the repository, and returns or raises.  [self._clock()],
    [self._lease_seconds()] and [self._routing_freshness_seconds()] are fields of
    the environment, as are the manifest registry and the trusted catalog. *)

From S2P Require Import Prelude Text Json Enums Catalog Evidence Documents Registry Capabilities Models Routing Repository.

(** [value or default] on optional strings. *)
Definition or_else (value : option string) (default : string) : string :=
  match truthy_string value with Some s => s | None => default end.
Definition or_option (value default : option string) : option string :=
  match truthy_string value with Some s => Some s | None => default end.

(** A [ValueError] raised by a pure helper. *)
Definition lift_value {A} (r : Result string A) : exec A :=
  match r with Ok a => mret a | Err message => raise (ValueError message) end.

Section service.
Context (env : Env).

(** ** Manifests *)

Definition sync_trusted_manifests : exec (list CommandManifest) :=
  ensure_manifests (env_manifests env).

Definition get_manifest (name version : string) : exec CommandManifest :=
  _ ← sync_trusted_manifests;
  manifest ← Repository.get_manifest name version;
  require manifest (ExecutionNotFoundError "command_manifest_not_found").

(** ** Work orders *)

Definition get_work_order (id : Z) : exec WorkOrder :=
  order ← Repository.get_work_order id;
  require order (ExecutionNotFoundError "work_order_not_found").

Definition SHA_PATTERN (s : string) : bool := exactly 40 is_hex s.

Definition validate_work_order_draft (draft : WorkOrderDraft) : exec unit :=
  _ ← ensure (wd_schema_version draft =? 1)
        (LifecycleConflictError "unsupported_work_order_schema_version");
  _ ← ensure (SHA_PATTERN (wd_commit_sha draft))
        (LifecycleConflictError "commit_sha_must_be_exact_40_character_hex");
  _ ← ensure (negb (wd_repository_write_allowed draft))
        (RepositoryWritePolicyError "repository_write_must_be_false");
  _ ← ensure (match obj_get "repository_write" (wd_required_capabilities draft) with
              | Some (JBool false) | None => true
              | Some _ => false
              end) (RepositoryWritePolicyError "repository_write_capability_not_permitted");
  ensure (within 0 (wd_required_quota_units draft) MAX_ROUTING_INTEGER
          && opt_all (fun m => within 0 m MAX_ROUTING_INTEGER) (wd_maximum_cost_units draft))
    (LifecycleConflictError "routing_integer_out_of_bounds").

(** The columns of a new order. *)
Definition order_values (draft : WorkOrderDraft) (manifest : CommandManifest)
    (execution_policy_hash : string) : WorkOrderSpec :=
  {| wos_schema_version := wd_schema_version draft;
     wos_repository_full_name := wd_repository_full_name draft;
     wos_commit_sha := lower (wd_commit_sha draft);
     wos_manifest_id := cm_id manifest; wos_manifest_name := cm_name manifest;
     wos_manifest_version := cm_version manifest; wos_manifest_digest := cm_digest manifest;
     wos_manifest_parameters := wd_manifest_parameters draft;
     wos_required_capabilities := wd_required_capabilities draft;
     wos_permitted_paths := wd_permitted_paths draft;
     wos_forbidden_scope_notes := wd_forbidden_scope_notes draft;
     wos_expected_artifact_kinds := wd_expected_artifact_kinds draft;
     wos_approval_policy := wd_approval_policy draft;
     wos_timeout_seconds := wd_timeout_seconds draft;
     wos_resource_metadata := wd_resource_metadata draft;
     wos_network_policy := wd_network_policy draft; wos_repository_write_allowed := false;
     wos_preferred_executor := wd_preferred_executor draft;
     wos_cost_ceiling := wd_cost_ceiling draft;
     wos_routing_policy := wd_routing_policy draft;
     wos_maximum_cost_units := wd_maximum_cost_units draft;
     wos_required_quota_units := wd_required_quota_units draft;
     wos_reuse_policy := wd_reuse_policy draft;
     wos_execution_policy_hash := execution_policy_hash |}.

Definition create_work_order (draft : WorkOrderDraft) : exec WorkOrder :=
  _ ← validate_work_order_draft draft;
  _ ← ensure (bool_decide (wd_repository_full_name draft ∈ TRUSTED_REPOSITORIES (env_repositories env)))
        (UnknownManifestError "trusted_repository_not_found");
  definition ← require
    (get_trusted_manifest (env_manifests env) (wd_manifest_name draft) (wd_manifest_version draft))
    (UnknownManifestError "trusted_manifest_not_found");
  allowed ← lift_value (repository_allows_manifest (env_repositories env)
    (wd_repository_full_name draft) (wd_manifest_name draft) (wd_manifest_version draft));
  _ ← ensure allowed (UnknownManifestError "repository_manifest_not_allowed");
  let unsupported := filter (fun k => k ∉ tm_allowed_parameters definition)
                       (dedup (wd_manifest_parameters draft).*1) in
  _ ← ensure (bool_decide (unsupported = []))
        (ManifestParameterError
           ("unsupported_manifest_parameters:" +:+ join "," (sort_strings unsupported)));
  _ ← match wd_preferred_executor draft with
      | Some preferred =>
          worker ← get_worker preferred;
          ensure (isSome worker) (ExecutionNotFoundError "preferred_executor_not_found")
      | None => mret tt
      end;
  manifest ← ensure_manifest definition;
  execution_policy_hash ← lift_value (compute_execution_policy_hash
    (wd_manifest_parameters draft) (wd_required_capabilities draft) (wd_permitted_paths draft)
    (wd_expected_artifact_kinds draft) (wd_timeout_seconds draft)
    (network_policy_value (wd_network_policy draft)) false
    (routing_policy_value (wd_routing_policy draft)) (wd_maximum_cost_units draft)
    (wd_required_quota_units draft) (wd_preferred_executor draft));
  Repository.create_work_order (order_values draft manifest execution_policy_hash).

(** [_ensure_approvable] *)
Definition ensure_approvable (order : WorkOrder) : exec unit :=
  let s := wo_spec order in
  _ ← ensure (bool_decide (wos_approval_policy s = EXPLICIT))
        (ApprovalDeniedError "unsupported_approval_policy");
  _ ← ensure (bool_decide (wos_repository_full_name s ∈ TRUSTED_REPOSITORIES (env_repositories env)))
        (ApprovalDeniedError "repository_not_allowlisted");
  _ ← ensure (negb (wos_repository_write_allowed s))
        (ApprovalDeniedError "repository_write_not_permitted");
  definition ← require
    (get_trusted_manifest (env_manifests env) (wos_manifest_name s) (wos_manifest_version s))
    (ApprovalDeniedError "trusted_manifest_not_found");
  allowed ← lift_value (repository_allows_manifest (env_repositories env)
    (wos_repository_full_name s) (wos_manifest_name s) (wos_manifest_version s));
  _ ← ensure allowed (ApprovalDeniedError "repository_manifest_not_allowed");
  ensure (bool_decide (tm_digest definition = wos_manifest_digest s))
    (ManifestIntegrityError "trusted_manifest_digest_conflict").

Definition approved_order (queue : bool) (now : Z) (o : WorkOrder) : WorkOrder :=
  o <| wo_status := if queue then WO_QUEUED else WO_APPROVED |> <| wo_approved_at := Some now |>
    <| wo_queued_at := if queue then Some now else None |>.

Definition approve_work_order (id : Z) (queue : bool) : exec WorkOrder :=
  order ← get_work_order id;
  _ ← ensure (bool_decide (wo_status order = WO_PENDING_APPROVAL))
        (LifecycleConflictError "work_order_not_pending_approval");
  _ ← ensure_approvable order;
  now ← now env;
  updated ← transition_unleased_work_order (wo_id order) [WO_PENDING_APPROVAL]
              (approved_order queue now);
  _ ← ensure updated (LifecycleConflictError "work_order_not_pending_approval");
  get_work_order (wo_id order).

Definition queue_work_order (id : Z) : exec WorkOrder :=
  order ← get_work_order id;
  now ← now env;
  updated ← transition_unleased_work_order (wo_id order) [WO_APPROVED]
    (fun o => o <| wo_status := WO_QUEUED |> <| wo_queued_at := Some now |>);
  _ ← ensure updated (LifecycleConflictError "invalid_work_order_transition");
  get_work_order (wo_id order).

Definition reject_work_order (id : Z) (reason : option string) : exec WorkOrder :=
  order ← get_work_order id;
  now ← now env;
  updated ← transition_unleased_work_order (wo_id order) [WO_PENDING_APPROVAL]
    (finish_order WO_REJECTED now (or_else reason "rejected_by_operator"));
  _ ← ensure updated (LifecycleConflictError "invalid_work_order_transition");
  get_work_order (wo_id order).

Definition expire_work_order (id : Z) (reason : option string) : exec WorkOrder :=
  order ← get_work_order id;
  now ← now env;
  updated ← transition_unleased_work_order (wo_id order) [WO_APPROVED; WO_QUEUED]
    (finish_order WO_EXPIRED now (or_else reason "expired_by_operator"));
  _ ← ensure updated (LifecycleConflictError "invalid_work_order_transition");
  get_work_order (wo_id order).

(** ** Workers *)

Definition registered_info (info : WorkerInfo) : WorkerInfo :=
  let c := wi_capabilities info in
  {| wi_display_name := wi_display_name info;
     wi_capabilities :=
       {| operating_system := lower (operating_system c); architecture := lower (architecture c);
          python_version := python_version c; node_version := node_version c;
          pnpm_version := pnpm_version c; docker_available := docker_available c;
          browsers := browsers c; gpu_available := gpu_available c;
          unity_available := unity_available c; desktop_available := desktop_available c;
          capabilities := capabilities c;
          network_policy_capability := network_policy_capability c;
          repository_write_capability := false |};
     wi_repository_full_names := wi_repository_full_names info;
     wi_max_concurrency := wi_max_concurrency info |}.

Definition register_worker (registration : WorkerRegistration) : exec Worker :=
  _ ← ensure (negb (repository_write_capability (wi_capabilities (reg_info registration))))
        (RepositoryWritePolicyError "repository_write_capability_must_be_false");
  now ← now env;
  upsert_worker (reg_worker_id registration) (registered_info (reg_info registration))
    (reg_status registration) now.

Definition heartbeat_worker (worker_id : string) (status : option WorkerStatus) : exec Worker :=
  found ← get_worker worker_id;
  worker ← require found (ExecutionNotFoundError "worker_not_found");
  now ← now env;
  update_worker_heartbeat worker now status.

(** ** Routing profiles *)

(** [_routing_profile_values]: the checks; the normalization is
    [apply_profile_values]. *)
Definition check_profile_values (v : RoutingProfileValues) : exec unit :=
  _ ← ensure (forallb (fun x => within 0 x MAX_ROUTING_INTEGER)
                [pv_estimated_cost_units_per_run v; pv_quota_capacity_units v;
                 pv_quota_remaining_units v; pv_routing_priority v])
        (LifecycleConflictError "routing_profile_integer_out_of_bounds");
  _ ← ensure (pv_quota_remaining_units v <=? pv_quota_capacity_units v)
        (LifecycleConflictError "routing_quota_exceeds_capacity");
  ensure (opt_all is_aware (pv_quota_reset_at v))
    (LifecycleConflictError "routing_quota_reset_must_be_aware").

Definition profile_row (worker_id : string) (schema_version : Z) (v : RoutingProfileValues)
    : RoutingProfile :=
  apply_profile_values v
    {| rp_worker_id := worker_id; rp_schema_version := schema_version; rp_enabled := true;
       rp_estimated_cost_units_per_run := 0; rp_quota_capacity_units := 0;
       rp_quota_remaining_units := 0; rp_quota_reset_at := None; rp_routing_priority := 0;
       rp_revision := 1 |}.

Definition create_routing_profile (worker_id : string) (schema_version : Z)
    (values : RoutingProfileValues) : exec RoutingProfile :=
  worker ← get_worker worker_id;
  _ ← ensure (isSome worker) (ExecutionNotFoundError "worker_not_found");
  existing ← Repository.get_routing_profile worker_id;
  _ ← ensure (negb (isSome existing)) (LifecycleConflictError "routing_profile_already_exists");
  _ ← check_profile_values values;
  _ ← ensure (schema_version =? ROUTING_SCHEMA_VERSION)
        (LifecycleConflictError "unsupported_routing_profile_schema_version");
  handle (begin_nested (Repository.create_routing_profile
                          (profile_row worker_id schema_version values)))
    (fun e => match e with
              | IntegrityError =>
                  Some (raise (LifecycleConflictError "routing_profile_already_exists"))
              | _ => None
              end).

Definition get_routing_profile (worker_id : string) : exec RoutingProfile :=
  profile ← Repository.get_routing_profile worker_id;
  require profile (ExecutionNotFoundError "routing_profile_not_found").

(** [_valid_routing_revision] *)
Definition valid_routing_revision (v : Z) : bool := within 1 v MAX_ROUTING_INTEGER.

Definition replace_routing_profile (worker_id : string) (expected_revision : Z)
    (values : RoutingProfileValues) : exec RoutingProfile :=
  _ ← ensure (valid_routing_revision expected_revision)
        (LifecycleConflictError "routing_profile_revision_out_of_bounds");
  profile ← get_routing_profile worker_id;
  reserved ← count_reserved_quota_runs worker_id;
  _ ← ensure (reserved =? 0) (LifecycleConflictError "routing_profile_has_active_reservations");
  _ ← ensure (rp_revision profile =? expected_revision)
        (LifecycleConflictError "routing_profile_revision_conflict");
  _ ← now env;
  _ ← check_profile_values values;
  updated ← Repository.replace_routing_profile worker_id expected_revision values;
  _ ← ensure updated (LifecycleConflictError "routing_profile_revision_conflict");
  get_routing_profile worker_id.

Definition reset_routing_quota (worker_id : string) (reset : RoutingQuotaReset)
    : exec RoutingProfile :=
  _ ← ensure (valid_routing_revision (qr_expected_revision reset))
        (LifecycleConflictError "routing_profile_revision_out_of_bounds");
  _ ← ensure (within 0 (qr_quota_remaining_units reset) MAX_ROUTING_INTEGER)
        (LifecycleConflictError "routing_profile_integer_out_of_bounds");
  _ ← ensure (is_aware (qr_quota_reset_at reset))
        (LifecycleConflictError "routing_quota_reset_must_be_aware");
  profile ← get_routing_profile worker_id;
  let requested_reset := utc_naive (qr_quota_reset_at reset) in
  let existing_reset := rp_quota_reset_at profile in
  _ ← ensure (opt_all (fun existing => existing <=? requested_reset) existing_reset)
        (LifecycleConflictError "routing_quota_reset_is_stale");
  if bool_decide (existing_reset = Some requested_reset) then
    if rp_quota_remaining_units profile =? qr_quota_remaining_units reset then
      _ ← ensure (rp_revision profile =? qr_expected_revision reset + 1)
            (LifecycleConflictError "routing_profile_revision_conflict");
      mret profile
    else raise (LifecycleConflictError "routing_quota_reset_conflict")
  else
    reserved ← count_reserved_quota_runs worker_id;
    _ ← ensure (reserved =? 0)
          (LifecycleConflictError "routing_profile_has_active_reservations");
    _ ← ensure (rp_revision profile =? qr_expected_revision reset)
          (LifecycleConflictError "routing_profile_revision_conflict");
    _ ← ensure (qr_quota_remaining_units reset <=? rp_quota_capacity_units profile)
          (LifecycleConflictError "routing_quota_exceeds_capacity");
    _ ← now env;
    updated ← Repository.reset_routing_quota worker_id reset;
    _ ← ensure updated (LifecycleConflictError "routing_profile_revision_conflict");
    get_routing_profile worker_id.

(** ** Completion *)

(** [_validate_reuse_identity] *)
Definition validate_reuse_identity (order : WorkOrder) (identity : EvidenceReuseIdentity)
    : exec unit :=
  let s := wo_spec order in
  definition ← require
    (get_trusted_manifest (env_manifests env) (wos_manifest_name s) (wos_manifest_version s))
    (ManifestIntegrityError "trusted_manifest_not_found");
  result_contract_hash ← lift_value (compute_result_contract_hash
    (tm_fixed_step_metadata definition) (tm_artifact_declarations definition)
    (tm_dependency_lock_paths definition) (tm_result_contract definition));
  ensure
    (bool_decide (id_repository_full_name identity = wos_repository_full_name s)
     && bool_decide (id_tested_sha identity = wos_commit_sha s)
     && bool_decide (id_manifest_name identity = wos_manifest_name s)
     && bool_decide (id_manifest_version identity = wos_manifest_version s)
     && bool_decide (id_manifest_digest identity = wos_manifest_digest s)
     && bool_decide (id_execution_policy_hash identity = wos_execution_policy_hash s)
     && bool_decide (id_result_contract_hash identity = result_contract_hash)
     && bool_decide (map lock_relative_path (id_dependency_lock_hashes identity)
                     = sort_strings (tm_dependency_lock_paths definition)))
    (LifecycleConflictError "reuse_identity_work_order_mismatch").

(** [_validate_completion_evidence] *)
Definition validate_completion_evidence (snapshot : LeaseSnapshot)
    (completion : ExecutionCompletion) : exec unit :=
  match cpl_evidence_metadata completion with
  | None =>
      ensure (bool_decide (cpl_artifact_metadata completion = []))
        (LifecycleConflictError "artifacts_require_execution_evidence")
  | Some e =>
      order ← get_work_order (snap_work_order_id snapshot);
      let s := wo_spec order in
      ensure
        ((ev_run_id e =? snap_execution_run_id snapshot)
         && (ev_work_order_id e =? snap_work_order_id snapshot)
         && bool_decide (ev_worker_id e = snap_worker_id snapshot)
         && bool_decide (ev_repository_full_name e = wos_repository_full_name s)
         && bool_decide (ev_tested_sha e = wos_commit_sha s)
         && bool_decide (ev_manifest_name e = wos_manifest_name s)
         && bool_decide (ev_manifest_version e = wos_manifest_version s)
         && bool_decide (ev_manifest_digest e = wos_manifest_digest s)
         && bool_decide (ev_terminal_status e = run_status_value (cpl_status completion))
         && bool_decide (ev_artifacts e = cpl_artifact_metadata completion))
        (LifecycleConflictError "execution_evidence_identity_mismatch")
  end.

(** The decision [_reuse_completion_values] starts from. *)
Definition completion_decision (policy : ReusePolicy) (completion : ExecutionCompletion)
    : option ReuseDecision :=
  match cpl_reuse_decision completion with
  | Some d => Some d
  | None =>
      if bool_decide (policy = NEVER) then Some FRESH
      else if negb (bool_decide (cpl_status completion = RUN_SUCCEEDED))
              && negb (isSome (cpl_evidence_metadata completion))
      then Some UNAVAILABLE
      else None
  end.

Definition checked_decision (policy : ReusePolicy) (completion : ExecutionCompletion)
    : exec ReuseDecision :=
  decision ← match completion_decision policy completion with
             | Some (FRESH | REUSED | UNAVAILABLE) as d =>
                 require d (LifecycleConflictError "invalid_reuse_completion_decision")
             | _ => raise (LifecycleConflictError "invalid_reuse_completion_decision")
             end;
  _ ← ensure (negb (bool_decide (policy = REQUIRE_EXACT) && bool_decide (decision = FRESH)))
        (LifecycleConflictError "require_exact_forbids_fresh_execution");
  _ ← ensure (negb (bool_decide (decision = UNAVAILABLE) && bool_decide (policy = NEVER)))
        (LifecycleConflictError "reuse_unavailable_requires_opt_in_policy");
  _ ← ensure (negb (bool_decide (decision = UNAVAILABLE)
                    && bool_decide (cpl_status completion = RUN_SUCCEEDED)))
        (LifecycleConflictError "unavailable_reuse_must_not_succeed");
  mret decision.

(** The source of a [REUSED] completion: the candidate resolved for this run. *)
Definition reuse_source (run : Run) (decision : ReuseDecision)
    (identity : option EvidenceReuseIdentity) (identity_hash : option string)
    : exec (option Z * option string) :=
  if bool_decide (decision = REUSED) then
    match rr_candidate (run_reuse run), identity with
    | Some candidate, Some i =>
        _ ← ensure (valid_stored_candidate (env_isoformat env) candidate)
              (ValueError "reuse candidate fails validation");
        _ ← ensure (bool_decide (cand_reuse_identity candidate = i)
                    && bool_decide (Some (cand_reuse_identity_hash candidate) = identity_hash))
              (LifecycleConflictError "verified_reuse_candidate_mismatch");
        mret (Some (cand_source_run_id candidate),
              Some (cand_expected_source_evidence_fingerprint candidate))
    | _, _ => raise (LifecycleConflictError "verified_reuse_candidate_missing")
    end
  else mret (None, None).

(** The checks on the evidence and its retention. *)
Definition check_provenance (completion : ExecutionCompletion) (decision : ReuseDecision)
    (identity_hash : option string) (legacy_never_evidence : bool)
    (source : option Z * option string) : exec unit :=
  match cpl_evidence_metadata completion with
  | Some evidence =>
      if negb legacy_never_evidence then
        provenance ← match ev_reuse_provenance evidence with
                     | Some p =>
                         if bool_decide (prov_decision p = reuse_decision_value decision)
                         then mret p
                         else raise (LifecycleConflictError "execution_reuse_provenance_mismatch")
                     | None => raise (LifecycleConflictError "execution_reuse_provenance_mismatch")
                     end;
        _ ← ensure (bool_decide (Some (prov_reuse_identity_hash provenance) = identity_hash))
              (LifecycleConflictError "execution_reuse_identity_mismatch");
        _ ← ensure (bool_decide (prov_source_run_id provenance = source.1)
                    && bool_decide (prov_source_evidence_fingerprint provenance = source.2))
              (LifecycleConflictError "execution_reuse_source_mismatch");
        match cpl_evidence_retention_expires_at completion with
        | Some (Aware utc _) =>
            ensure (forallb (fun a => art_retention_expires_at a =? utc) (ev_artifacts evidence))
              (LifecycleConflictError "execution_evidence_retention_mismatch")
        | _ => raise (LifecycleConflictError "execution_evidence_retention_missing")
        end
      else ensure (negb (isSome (cpl_evidence_retention_expires_at completion)))
             (LifecycleConflictError "legacy_evidence_retention_is_unsupported")
  | None => ensure (negb (isSome (cpl_evidence_retention_expires_at completion)))
              (LifecycleConflictError "retention_requires_execution_evidence")
  end.

(** [_reuse_completion_values] *)
Definition reuse_completion_values (snapshot : LeaseSnapshot)
    (completion : ExecutionCompletion) : exec RunReuse :=
  found ← get_run (snap_execution_run_id snapshot);
  run ← require found (ExecutionNotFoundError "execution_run_not_found");
  order ← get_work_order (snap_work_order_id snapshot);
  let policy := wos_reuse_policy (wo_spec order) in
  decision ← checked_decision policy completion;
  identity ← match cpl_reuse_identity completion, rr_identity (run_reuse run) with
             | None, Some stored =>
                 _ ← ensure (valid_identity_document stored)
                       (ValueError "reuse identity fails validation");
                 mret (Some stored)
             | given, _ => mret given
             end;
  let identity_hash := or_option (cpl_reuse_identity_hash completion)
                         (rr_identity_hash (run_reuse run)) in
  _ ← match identity with
      | Some i =>
          _ ← validate_reuse_identity order i;
          ensure (bool_decide (identity_hash = Some (compute_reuse_identity_hash i)))
            (LifecycleConflictError "reuse_identity_hash_mismatch")
      | None => mret tt
      end;
  let legacy_never_evidence :=
    bool_decide (policy = NEVER)
    && match cpl_evidence_metadata completion with
       | Some e => negb (isSome (ev_reuse_provenance e)) | None => false end
    && negb (isSome identity) && negb (isSome identity_hash) in
  _ ← ensure (negb (isSome (cpl_evidence_metadata completion) && negb (isSome identity)
                    && negb legacy_never_evidence))
        (LifecycleConflictError "execution_evidence_requires_reuse_identity");
  source ← reuse_source run decision identity identity_hash;
  _ ← check_provenance completion decision identity_hash legacy_never_evidence source;
  mret {| rr_identity := identity; rr_identity_hash := identity_hash;
          rr_reused_from_run_id := source.1; rr_source_evidence_fingerprint := source.2;
          rr_decision := decision;
          rr_reason := Some (or_else (cpl_reuse_reason completion) (reuse_decision_value decision));
          rr_candidate := None;
          rr_retention_expires_at :=
            stored_fields <$> cpl_evidence_retention_expires_at completion |}.

Definition finished_run (completion : ExecutionCompletion) (reason : string) (reuse : RunReuse)
    (now : Z) (r : Run) : Run :=
  r <| run_status := cpl_status completion |> <| run_finished_at := Some now |>
    <| run_last_heartbeat_at := now |>
    <| run_result := {| res_result_summary := cpl_result_summary completion;
                        res_terminal_reason := Some reason;
                        res_cleanup_status := cpl_cleanup_status completion;
                        res_artifact_metadata := cpl_artifact_metadata completion;
                        res_evidence_metadata := cpl_evidence_metadata completion |} |>
    <| run_reuse := reuse |>.

(** The savepoint block of [_finish_active_lease]. *)
Definition finish_records (snapshot : LeaseSnapshot) (completion : ExecutionCompletion)
    (target : WorkOrderStatus) (reuse : RunReuse) (now : Z) (require_live ownership_error : bool)
    : exec unit :=
  let reason := or_else (cpl_terminal_reason completion)
                  (run_status_value (cpl_status completion)) in
  consumed ← consume_lease snapshot now require_live false;
  _ ← ensure consumed
        (if ownership_error then OwnershipConflictError "execution_lease_not_owned"
         else LifecycleConflictError "execution_lease_transition_in_progress");
  quota_released ← release_run_quota_reservation (snap_execution_run_id snapshot)
                     (snap_work_order_id snapshot) (snap_worker_id snapshot);
  run_updated ← finish_active_run (snap_execution_run_id snapshot)
                  (finished_run completion reason reuse now);
  work_order_updated ← finish_active_work_order (snap_work_order_id snapshot) target now reason;
  released ← release_worker_capacity (snap_worker_id snapshot);
  ensure (quota_released && run_updated && work_order_updated && released)
    (LifecycleConflictError "execution_record_transition_in_progress").

(** [_finish_active_lease] *)
Definition finish_active_lease (snapshot : LeaseSnapshot) (completion : ExecutionCompletion)
    (require_live ownership_error : bool) : exec Run :=
  _ ← validate_completion_evidence snapshot completion;
  reuse ← reuse_completion_values snapshot completion;
  now ← now env;
  target ← require (work_order_status_of_value (run_status_value (cpl_status completion)))
             (ValueError "not a valid WorkOrderStatus");
  _ ← begin_nested (finish_records snapshot completion target reuse now require_live
                      ownership_error);
  found ← get_run (snap_execution_run_id snapshot);
  require found (ExecutionNotFoundError "execution_run_not_found").

Definition complete_run (run_id : Z) (worker_id : string) (completion : ExecutionCompletion)
    : exec Run :=
  _ ← ensure (is_terminal_run (cpl_status completion))
        (LifecycleConflictError "execution_completion_must_be_terminal");
  found ← get_run run_id;
  _ ← require found (ExecutionNotFoundError "execution_run_not_found");
  lease ← get_lease_snapshot_for_run run_id;
  snapshot ← require lease (OwnershipConflictError "execution_lease_not_owned");
  _ ← ensure (bool_decide (snap_worker_id snapshot = worker_id))
        (OwnershipConflictError "execution_lease_not_owned");
  finish_active_lease snapshot completion true true.

(** [ExecutionCompletion(status=CANCELLED, ...)] of [cancel_work_order]. *)
Definition cancellation (terminal_reason : string) : ExecutionCompletion :=
  {| cpl_status := RUN_CANCELLED; cpl_result_summary := None;
     cpl_terminal_reason := Some terminal_reason;
     cpl_cleanup_status := Some "cancelled_by_control_plane"; cpl_artifact_metadata := [];
     cpl_evidence_metadata := None; cpl_reuse_decision := None; cpl_reuse_reason := None;
     cpl_reuse_identity := None; cpl_reuse_identity_hash := None;
     cpl_evidence_retention_expires_at := None |}.

Definition unleased_statuses : list WorkOrderStatus := [WO_PENDING_APPROVAL; WO_APPROVED; WO_QUEUED].

Definition cancel_work_order (id : Z) (reason : option string) : exec WorkOrder :=
  order ← get_work_order id;
  now ← now env;
  let terminal_reason := or_else reason "cancelled_by_operator" in
  if bool_decide (wo_status order ∈ unleased_statuses) then
    updated ← transition_unleased_work_order (wo_id order) unleased_statuses
                (finish_order WO_CANCELLED now terminal_reason);
    _ ← ensure updated (LifecycleConflictError "work_order_transition_in_progress");
    get_work_order (wo_id order)
  else
    _ ← ensure (negb (is_terminal_work_order (wo_status order)))
          (LifecycleConflictError "work_order_is_terminal");
    lease ← get_lease_snapshot_for_work_order (wo_id order);
    snapshot ← require lease (LifecycleConflictError "execution_lease_transition_in_progress");
    _ ← finish_active_lease snapshot (cancellation terminal_reason) false false;
    get_work_order (wo_id order).

(** The savepoint block of [heartbeat_run]. *)
Definition heartbeat_records (run_id : Z) (snapshot : LeaseSnapshot) (worker_id : string)
    (now expires_at : Z) : exec unit :=
  renewed ← renew_owned_live_lease run_id worker_id now expires_at;
  _ ← ensure renewed (OwnershipConflictError "execution_lease_expired");
  quota_consumed ← consume_run_quota_reservation run_id (snap_work_order_id snapshot);
  run_updated ← mark_active_run_running run_id now expires_at;
  work_order_updated ← mark_active_work_order_running (snap_work_order_id snapshot) now;
  ensure (quota_consumed && run_updated && work_order_updated)
    (LifecycleConflictError "execution_run_is_not_active").

Definition heartbeat_run (run_id : Z) (worker_id : string) : exec Run :=
  found ← get_run run_id;
  _ ← require found (ExecutionNotFoundError "execution_run_not_found");
  lease ← get_lease_snapshot_for_run run_id;
  snapshot ← require lease (OwnershipConflictError "execution_lease_not_owned");
  _ ← ensure (bool_decide (snap_worker_id snapshot = worker_id))
        (OwnershipConflictError "execution_lease_not_owned");
  now ← now env;
  let expires_at := now + seconds (env_lease_seconds env) in
  _ ← begin_nested (heartbeat_records run_id snapshot worker_id now expires_at);
  refreshed ← get_run run_id;
  require refreshed (ExecutionNotFoundError "execution_run_not_found").

(** The savepoint block of [expire_stale_leases]; [false] is its [continue]. *)
Definition expire_lease (now : Z) (snapshot : LeaseSnapshot) : exec bool :=
  consumed ← consume_lease snapshot now false true;
  if consumed : bool then
    quota_released ← release_run_quota_reservation (snap_execution_run_id snapshot)
                       (snap_work_order_id snapshot) (snap_worker_id snapshot);
    run_updated ← requeue_stale_active_run (snap_execution_run_id snapshot) now;
    work_order_updated ← requeue_stale_active_work_order (snap_work_order_id snapshot) now;
    released ← release_worker_capacity (snap_worker_id snapshot);
    _ ← ensure (quota_released && run_updated && work_order_updated && released)
          (LifecycleConflictError "stale_lease_state_conflict");
    mret true
  else mret false.

Definition expire_stale_leases : exec ExpiryResult :=
  now ← now env;
  snapshots ← list_stale_lease_snapshots now;
  for_each (fun acc snapshot =>
      expired ← begin_nested (expire_lease now snapshot);
      mret (if expired : bool then
              {| requeued_work_order_ids :=
                   requeued_work_order_ids acc ++ [snap_work_order_id snapshot];
                 timed_out_run_ids := timed_out_run_ids acc ++ [snap_execution_run_id snapshot] |}
            else acc))
    {| requeued_work_order_ids := []; timed_out_run_ids := [] |} snapshots.

Definition requeue_stale_work_order (id : Z) : exec WorkOrder :=
  result ← expire_stale_leases;
  _ ← ensure (bool_decide (id ∈ requeued_work_order_ids result))
        (LifecycleConflictError "work_order_could_not_be_requeued");
  get_work_order id.

(** ** Evidence reuse *)

Definition get_run_evidence (run_id : Z) : exec ExecutionEvidence :=
  found ← get_run run_id;
  run ← require found (ExecutionNotFoundError "execution_run_not_found");
  evidence ← require (res_evidence_metadata (run_result run))
               (ExecutionNotFoundError "execution_evidence_not_found");
  _ ← ensure (valid_evidence (env_isoformat env) evidence) (MalformedEvidenceError "malformed_execution_evidence");
  mret evidence.

(** The conditions under which [_validated_reuse_candidate] accepts a source. *)
Definition acceptable_source (run : Run) (order : WorkOrder) (worker : option Worker)
    (evidence : ExecutionEvidence) (stored expected : EvidenceReuseIdentity)
    (retention now : Z) : bool :=
  let reuse := run_reuse run in
  let artifacts := res_artifact_metadata (run_result run) in
  match worker, ev_reuse_provenance evidence with
  | Some w, Some provenance =>
      bool_decide (wos_repository_full_name (wo_spec order) ∈ worker_repositories w)
      && bool_decide (wo_status order = WO_SUCCEEDED)
      && isSome (wo_finished_at order)
      && bool_decide (run_status run = RUN_SUCCEEDED)
      && bool_decide (rr_decision reuse = FRESH)
      && negb (isSome (rr_reused_from_run_id reuse))
      && negb (isSome (rr_source_evidence_fingerprint reuse))
      && negb (isSome (rr_candidate reuse))
      && (now <? retention)
      && bool_decide (stored = expected)
      && bool_decide (rr_identity_hash reuse = Some (compute_reuse_identity_hash stored))
      && negb (bool_decide (ev_fingerprint evidence = ""))
      && (ev_run_id evidence =? run_id run)
      && (ev_work_order_id evidence =? wo_id order)
      && bool_decide (ev_worker_id evidence = run_worker_id run)
      && bool_decide (ev_terminal_status evidence = "succeeded")
      && bool_decide (ev_artifacts evidence = artifacts)
      && forallb (fun a => art_retention_expires_at a =? retention) artifacts
      && bool_decide (prov_decision provenance = "fresh")
      && negb (isSome (prov_source_run_id provenance))
      && negb (isSome (prov_source_evidence_fingerprint provenance))
      && bool_decide (Some (prov_reuse_identity_hash provenance) = rr_identity_hash reuse)
      && bool_decide (id_repository_full_name stored = ev_repository_full_name evidence)
      && bool_decide (id_tested_sha stored = ev_tested_sha evidence)
      && bool_decide (id_manifest_name stored = ev_manifest_name evidence)
      && bool_decide (id_manifest_version stored = ev_manifest_version evidence)
      && bool_decide (id_manifest_digest stored = ev_manifest_digest evidence)
      && bool_decide (id_worker_environment_fingerprint stored
                      = env_fingerprint (ev_environment evidence))
      && bool_decide (id_dependency_lock_hashes stored = ev_dependency_lock_hashes evidence)
  | _, _ => false
  end.

(** [_validated_reuse_candidate]; a document that fails validation is no candidate. *)
Definition validated_reuse_candidate (run : Run) (order : WorkOrder)
    (expected : EvidenceReuseIdentity) (now : Z) : exec (option ReuseCandidate) :=
  match res_evidence_metadata (run_result run), rr_identity (run_reuse run),
        rr_retention_expires_at (run_reuse run), run_finished_at run with
  | Some evidence, Some stored, Some retention, Some _ =>
      if valid_evidence (env_isoformat env) evidence && valid_identity_document stored then
        worker ← get_worker (run_worker_id run);
        mret (if forallb (valid_artifact_document (env_isoformat env))
                   (res_artifact_metadata (run_result run))
                 && acceptable_source run order worker evidence stored expected retention now then
                let candidate :=
                  {| cand_source_run_id := run_id run;
                     cand_expected_source_worker_id := run_worker_id run;
                     cand_expected_source_evidence_fingerprint := ev_fingerprint evidence;
                     cand_reuse_identity := stored;
                     cand_reuse_identity_hash := compute_reuse_identity_hash stored;
                     cand_source_created_at := ev_started_at evidence;
                     cand_retention_expires_at := retention;
                     cand_artifacts := res_artifact_metadata (run_result run) |} in
                if valid_candidate_document candidate then Some candidate else None
              else None)
      else mret None
  | _, _, _, _ => mret None
  end.

Fixpoint first_candidate (sources : list (Run * WorkOrder)) (expected : EvidenceReuseIdentity)
    (now : Z) : exec (option ReuseCandidate) :=
  match sources with
  | [] => mret None
  | (run, order) :: rest =>
      selected ← validated_reuse_candidate run order expected now;
      match selected with
      | Some c => mret (Some c)
      | None => first_candidate rest expected now
      end
  end.

Definition with_reuse_resolution (identity : EvidenceReuseIdentity) (hash : string)
    (decision : ReuseDecision) (reason : string) (selected : option ReuseCandidate) (r : Run)
    : Run :=
  r <| run_reuse := (run_reuse r) <| rr_identity := Some identity |>
         <| rr_identity_hash := Some hash |> <| rr_decision := decision |>
         <| rr_reason := Some reason |> <| rr_candidate := selected |> |>.

Definition resolve_reuse_candidate (run_id : Z) (worker_id : string)
    (reuse_identity : EvidenceReuseIdentity) (reuse_identity_hash : string)
    : exec ReuseCandidateResult :=
  _ ← ensure (bool_decide (compute_reuse_identity_hash reuse_identity = reuse_identity_hash))
        (LifecycleConflictError "reuse_identity_hash_mismatch");
  found ← get_lease_for_run run_id;
  now ← now env;
  lease ← require found (OwnershipConflictError "execution_lease_not_owned");
  _ ← ensure (bool_decide (lease_worker_id lease = worker_id) && (now <=? lease_expires_at lease))
        (OwnershipConflictError "execution_lease_not_owned");
  order ← get_work_order (lease_work_order_id lease);
  _ ← ensure (negb (bool_decide (wos_reuse_policy (wo_spec order) = NEVER)))
        (LifecycleConflictError "reuse_policy_never");
  _ ← validate_reuse_identity order reuse_identity;
  sources ← list_exact_reuse_candidates order worker_id reuse_identity_hash run_id;
  selected ← first_candidate sources reuse_identity now;
  let decision := if isSome selected then CANDIDATE_AVAILABLE else UNAVAILABLE in
  let reason := if isSome selected then "exact_candidate_available"
                else "exact_candidate_not_found" in
  updated ← update_active_run_reuse run_id
    (with_reuse_resolution reuse_identity reuse_identity_hash decision reason selected);
  _ ← ensure updated (OwnershipConflictError "execution_lease_not_owned");
  mret {| rc_decision := decision; rc_reason := reason; rc_candidate := selected |}.

(** ** Routing and checkout *)

(** [_routing_request] *)
Definition routing_request (order : WorkOrder) (manifest : CommandManifest)
    : RoutingEvaluationRequest :=
  let s := wo_spec order in
  {| rq_repository_full_name := wos_repository_full_name s;
     rq_routing_policy := wos_routing_policy s;
     rq_preferred_executor := wos_preferred_executor s;
     rq_maximum_cost_units := wos_maximum_cost_units s;
     rq_required_quota_units := wos_required_quota_units s;
     rq_manifest_requirements := cm_required_capabilities manifest;
     rq_requested_requirements := wos_required_capabilities s;
     rq_network_policy := wos_network_policy s |}.

(** [_routing_eligibilities] *)
Definition routing_eligibilities (request : RoutingEvaluationRequest) (now : Z)
    : exec (list RoutingEligibility) :=
  workers ← list_workers_with_profiles;
  mret (map (fun wp => evaluate_routing_candidate wp.1 wp.2 request now
                         (env_heartbeat_freshness_seconds env)
                         (env_active_poll_freshness_seconds env)) workers).

Definition eligible_candidates (evaluations : list RoutingEligibility) : list RoutingCandidate :=
  omap el_candidate evaluations.

(** [_unavailable_worker_result] *)
Definition unavailable_worker_result (worker : Worker) : option CheckoutResult :=
  let unassigned reason := {| co_run_id := None; co_work_order_id := None;
                              co_reason := Some reason; co_mismatch_reasons := [] |} in
  match w_status worker with
  | DRAINING | OFFLINE => Some (unassigned "worker_not_available")
  | BUSY => Some (unassigned "worker_concurrency_limit")
  | ONLINE => None
  end.

(** What a claim records about its route: the profile revision and cost, the
    reserved units and the reservation state. *)
Record Reservation := {
  rv_profile_revision : option Z;
  rv_estimated_cost_units : option Z;
  rv_reserved_quota_units : Z;
  rv_quota_state : QuotaReservationState;
}.

Definition no_reservation : Reservation :=
  {| rv_profile_revision := None; rv_estimated_cost_units := None;
     rv_reserved_quota_units := 0; rv_quota_state := NOT_REQUIRED |}.

Definition reserve (worker : Worker) (order : WorkOrder) (profile : option RoutingProfile)
    : exec Reservation :=
  match profile with
  | None => mret no_reservation
  | Some p =>
      let units := wos_required_quota_units (wo_spec order) in
      reserved ← reserve_routing_quota (w_worker_id worker) (rp_revision p) units;
      revision ← require reserved
                   (CheckoutReservationConflictError "routing_reservation_conflict");
      mret {| rv_profile_revision := Some revision;
              rv_estimated_cost_units := Some (rp_estimated_cost_units_per_run p);
              rv_reserved_quota_units := units;
              rv_quota_state := if units =? 0 then NOT_REQUIRED else RESERVED |}
  end.

Definition order_route (worker : Worker) (rv : Reservation) (count : Z) (explicit_pin : bool)
    (now : Z) : OrderRoute :=
  {| or_schema_version := Some ROUTING_SCHEMA_VERSION;
     or_selected_worker_id := Some (w_worker_id worker);
     or_profile_revision := rv_profile_revision rv;
     or_estimated_cost_units := rv_estimated_cost_units rv;
     or_reserved_quota_units := rv_reserved_quota_units rv;
     or_quota_state := Some (rv_quota_state rv); or_eligible_candidate_count := Some count;
     or_explicit_pin_applied := explicit_pin; or_reason := Some "routing_selected";
     or_decided_at := Some now |}.

Definition claimed_run_route (order : WorkOrder) (rv : Reservation) (count : Z)
    (explicit_pin : bool) (now : Z) : RunRoute :=
  {| xr_schema_version := ROUTING_SCHEMA_VERSION;
     xr_routing_policy := wos_routing_policy (wo_spec order);
     xr_profile_revision := rv_profile_revision rv;
     xr_estimated_cost_units := rv_estimated_cost_units rv;
     xr_required_quota_units := wos_required_quota_units (wo_spec order);
     xr_reserved_quota_units := rv_reserved_quota_units rv;
     xr_quota_state := rv_quota_state rv; xr_eligible_candidate_count := count;
     xr_explicit_pin_applied := explicit_pin; xr_reason := "routing_selected";
     xr_decided_at := now |}.

(** The savepoint block of [_claim_routed_work]. *)
Definition claim_records (worker : Worker) (order : WorkOrder) (profile : option RoutingProfile)
    (count : Z) (explicit_pin : bool) (now expires_at : Z) : exec CheckoutResult :=
  taken ← reserve_worker_capacity (w_worker_id worker);
  _ ← ensure taken (CheckoutReservationConflictError "worker_concurrency_limit");
  rv ← reserve worker order profile;
  claimed ← claim_queued_work_order (wo_id order) now
              (Some (order_route worker rv count explicit_pin now));
  _ ← ensure claimed (CheckoutReservationConflictError "checkout_conflict");
  claimed_order ← get_work_order (wo_id order);
  run ← create_active_run claimed_order (w_worker_id worker) now expires_at
          (Some (claimed_run_route order rv count explicit_pin now));
  mret {| co_run_id := Some (run_id run); co_work_order_id := Some (wo_id claimed_order);
          co_reason := None; co_mismatch_reasons := [] |}.

Definition not_assigned (reason : string) (mismatches : list string) : CheckoutResult :=
  {| co_run_id := None; co_work_order_id := None; co_reason := Some reason;
     co_mismatch_reasons := mismatches |}.

(** [_claim_routed_work] *)
Definition claim_routed_work (worker : Worker) (order : WorkOrder)
    (profile : option RoutingProfile) (count : Z) (explicit_pin : bool) (now : Z)
    : exec CheckoutResult :=
  let expires_at := now + seconds (env_lease_seconds env) in
  handle (begin_nested (claim_records worker order profile count explicit_pin now expires_at))
    (fun e => match e with
              | CheckoutReservationConflictError reason => Some (mret (not_assigned reason []))
              | IntegrityError => Some (mret (not_assigned "checkout_conflict" []))
              | _ => None
              end).

(** What one queued order leads to: a reason to go on with the next one, if any,
    or the result of a claim. *)
Definition try_order (worker : Worker) (order : WorkOrder) (eligibility : RoutingEligibility)
    (eligible : list RoutingCandidate) (now : Z) : exec (option string + CheckoutResult) :=
  let explicit_pin := isSome (wos_preferred_executor (wo_spec order)) in
  let unavailable := unavailable_route_reason (el_reasons eligibility) explicit_pin in
  match wos_routing_policy (wo_spec order) with
  | FIRST_AVAILABLE =>
      match el_candidate eligibility with
      | None => mret (inl (if bool_decide (unavailable = "no_capable_workers") then None
                           else Some unavailable))
      | Some _ =>
          result ← claim_routed_work worker order None (Z.of_nat (length eligible))
                     explicit_pin now;
          mret (inr result)
      end
  | CHEAPEST_CAPABLE =>
      ranked ← lift_result (rank_routing_candidates eligible
                              (wos_required_quota_units (wo_spec order)));
      match ranked with
      | [] => mret (inl (Some unavailable))
      | selected :: _ =>
          if negb (bool_decide (w_worker_id (cnd_worker selected) = w_worker_id worker))
          then mret (inl (Some "better_candidate_active"))
          else
            result ← claim_routed_work worker order (cnd_profile selected)
                       (Z.of_nat (length ranked)) explicit_pin now;
            mret (inr result)
      end
  end.

(** The loop of [_checkout_eligible_work] with its two accumulators. *)
Fixpoint checkout_loop (worker : Worker) (candidates : list (WorkOrder * CommandManifest))
    (mismatch_reasons route_reasons : list string) : exec CheckoutResult :=
  match candidates with
  | [] =>
      mret (match route_reasons with
            | reason :: _ => not_assigned reason (dedup mismatch_reasons)
            | [] =>
                match mismatch_reasons with
                | [] => not_assigned "no_queued_work_orders" []
                | _ :: _ =>
                    not_assigned
                      (if bool_decide ("worker_repository_unavailable" ∈ dedup mismatch_reasons)
                       then "worker_repository_unavailable" else "capability_mismatch")
                      (dedup mismatch_reasons)
                end
            end)
  | (order, manifest) :: rest =>
      now ← now env;
      evaluations ← routing_eligibilities (routing_request order manifest) now;
      eligibility ← require
        (head (filter (fun e => w_worker_id (el_worker e) = w_worker_id worker) evaluations))
        (RuntimeError "coroutine raised StopIteration");
      let mismatch_reasons := mismatch_reasons ++ el_reasons eligibility in
      outcome ← try_order worker order eligibility (eligible_candidates evaluations) now;
      match outcome with
      | inl None => checkout_loop worker rest mismatch_reasons route_reasons
      | inl (Some reason) =>
          checkout_loop worker rest mismatch_reasons (route_reasons ++ [reason])
      | inr result =>
          if bool_decide (co_reason result = Some "checkout_conflict")
          then checkout_loop worker rest mismatch_reasons (route_reasons ++ ["checkout_conflict"])
          else mret result
      end
  end.

(** [_checkout_eligible_work] *)
Definition checkout_eligible_work (worker : Worker) : exec CheckoutResult :=
  candidates ← list_queued_work_orders;
  checkout_loop worker candidates [] [].

Definition checkout (worker_id : string) : exec CheckoutResult :=
  _ ← sync_trusted_manifests;
  _ ← expire_stale_leases;
  found ← get_worker worker_id;
  _ ← ensure (isSome found) (ExecutionNotFoundError "worker_not_found");
  now ← now env;
  polled ← record_checkout_poll worker_id now;
  _ ← ensure polled (ExecutionNotFoundError "worker_not_found");
  again ← get_worker worker_id;
  worker ← require again (ExecutionNotFoundError "worker_not_found");
  match unavailable_worker_result worker with
  | Some result => mret result
  | None => checkout_eligible_work worker
  end.

(** ** Assessment *)

Record RouteAssessment := {
  ra_work_order_id : Z;
  ra_routing_policy : RoutingPolicy;
  ra_selected_worker_id : option string;
  ra_selected_routing_profile_revision : option Z;
  ra_estimated_cost_units : option Z;
  ra_required_quota_units : Z;
  ra_eligible_candidate_count : Z;
  ra_explicit_pin_applied : bool;
  ra_reason : string;
  ra_decision_timestamp : Z;
}.

Definition pinned (preferred : option string) (candidates : list RoutingCandidate)
    : option RoutingCandidate :=
  match preferred with
  | Some p => head (filter (fun c => w_worker_id (cnd_worker c) = p) candidates)
  | None => None
  end.

Definition assess_route (id : Z) : exec RouteAssessment :=
  _ ← sync_trusted_manifests;
  order ← get_work_order id;
  let s := wo_spec order in
  _ ← ensure (bool_decide (wo_status order = WO_QUEUED))
        (LifecycleConflictError "route_assessment_requires_queued_work");
  found ← Repository.get_manifest (wos_manifest_name s) (wos_manifest_version s);
  manifest ← require found (ManifestIntegrityError "trusted_manifest_not_found");
  now ← now env;
  let explicit_pin := isSome (wos_preferred_executor s) in
  evaluations ← routing_eligibilities (routing_request order manifest) now;
  let candidates := eligible_candidates evaluations in
  let unavailable := unavailable_route_reason (dedup (evaluations ≫= el_reasons)) explicit_pin in
  let assessment selected revision cost count reason :=
    {| ra_work_order_id := wo_id order; ra_routing_policy := wos_routing_policy s;
       ra_selected_worker_id := (fun c => w_worker_id (cnd_worker c)) <$> selected;
       ra_selected_routing_profile_revision := revision; ra_estimated_cost_units := cost;
       ra_required_quota_units := wos_required_quota_units s;
       ra_eligible_candidate_count := count; ra_explicit_pin_applied := explicit_pin;
       ra_reason := reason; ra_decision_timestamp := now |} in
  match wos_routing_policy s with
  | FIRST_AVAILABLE =>
      mret (assessment (pinned (wos_preferred_executor s) candidates) None None
              (Z.of_nat (length candidates))
              (match candidates with [] => unavailable | _ => "first_available" end))
  | CHEAPEST_CAPABLE =>
      ranked ← lift_result (rank_routing_candidates candidates (wos_required_quota_units s));
      match ranked with
      | [] => mret (assessment None None None 0 unavailable)
      | selected :: _ =>
          profile ← require (cnd_profile selected)
                      (ManifestIntegrityError "ranked_routing_profile_missing");
          mret (assessment (Some selected) (Some (rp_revision profile))
                  (Some (rp_estimated_cost_units_per_run profile))
                  (Z.of_nat (length ranked)) "routing_selected")
      end
  end.

Definition assess_repository_readiness (repository_full_name manifest_name manifest_version : string)
    (routing_policy : RoutingPolicy) (maximum_cost_units : option Z) (required_quota_units : Z)
    (preferred_executor : option string)
    : exec (list RoutingEligibility * option RoutingCandidate) :=
  allowed ← lift_value (repository_allows_manifest (env_repositories env) repository_full_name
              manifest_name manifest_version);
  _ ← ensure allowed (UnknownManifestError "repository_manifest_not_allowed");
  manifest ← require (get_trusted_manifest (env_manifests env) manifest_name manifest_version)
               (UnknownManifestError "trusted_manifest_not_found");
  now ← now env;
  evaluations ← routing_eligibilities
    {| rq_repository_full_name := repository_full_name; rq_routing_policy := routing_policy;
       rq_preferred_executor := preferred_executor; rq_maximum_cost_units := maximum_cost_units;
       rq_required_quota_units := required_quota_units;
       rq_manifest_requirements := tm_required_capabilities manifest;
       rq_requested_requirements := []; rq_network_policy := tm_network_policy manifest |} now;
  let candidates := eligible_candidates evaluations in
  match routing_policy with
  | CHEAPEST_CAPABLE =>
      ranked ← lift_result (rank_routing_candidates candidates required_quota_units);
      mret (evaluations, head ranked)
  | FIRST_AVAILABLE => mret (evaluations, pinned preferred_executor candidates)
  end.
End service.
