(* ===== verification/Steps.v ===== *)
(** * The abstract execution plane

    What the control plane promises, independently of how a request is carried
    out: a step relation on database states with one rule per lifecycle event.
    [Refinement] shows that every service method, as transcribed from
    [server/execution/service.py], performs a sequence of these steps;
    [Invariants] shows what the steps preserve. *)

From S2P Require Import Prelude Text Json Enums Evidence Registry Capabilities Models Routing Repository.

(** ** Vocabulary *)

(** What an update of an order outside a claim leaves alone. *)
Definition same_order (o o' : WorkOrder) : Prop :=
  wo_id o' = wo_id o /\ wo_spec o' = wo_spec o /\ wo_attempt_count o' = wo_attempt_count o /\
  wo_route o' = wo_route o.

(** What an update of a run leaves alone. *)
Definition same_run (r r' : Run) : Prop :=
  run_id r' = run_id r /\ run_work_order_id r' = run_work_order_id r /\
  run_worker_id r' = run_worker_id r /\ run_attempt_number r' = run_attempt_number r /\
  run_route r' = run_route r.

(** The settlement of a quota reservation held by run [r], and by its order. *)
Definition settle_run (s : QuotaReservationState) (r : Run) : Run :=
  if run_reserved r then settle_run_quota s r else r.
Definition settle_order (s : QuotaReservationState) (r : Run) (o : WorkOrder) : WorkOrder :=
  if run_reserved r then settle_order_quota s o else o.

Definition reserved_units (r : Run) : Z := xr_reserved_quota_units (run_route r).

(** Whether closing run [r] hands units back to its worker's profile. *)
Definition returns_units (r : Run) : bool := run_reserved r && (0 <? reserved_units r).

(** A closing pair of updates: the run becomes terminal, and the order takes the
    same outcome or goes back to the queue after a timeout. *)
Record closing (fr : Run -> Run) (fo : WorkOrder -> WorkOrder) : Prop := {
  closing_run : forall r, same_run r (fr r);
  closing_order : forall o, same_order o (fo o);
  closing_status :
    (exists s t, (forall r, run_status (fr r) = s) /\ (forall o, wo_status (fo o) = t) /\
       is_terminal_run s = true /\
       (work_order_status_of_value (run_status_value s) = Some t \/
        (s = RUN_TIMED_OUT /\ t = WO_QUEUED)));
}.

(** ** The steps *)

Section close.
Context (d : DB) (l : Lease) (r : Run) (o : WorkOrder) (w : Worker).

(** The four rows a lease ties together, before it ends. *)
Record leased : Prop := {
  leased_lease : db_leases d !! lease_id l = Some l;
  leased_run : db_runs d !! lease_execution_run_id l = Some r;
  leased_order : db_orders d !! lease_work_order_id l = Some o;
  leased_run_active : active_run (run_status r) = true;
  leased_order_active : active_work_order (wo_status o) = true;
  leased_quota : run_reserved r = true -> order_reserved o = true;
}.

(** The profile that takes back the units of an unused reservation. *)
Definition returnable (profiles' : gmap string RoutingProfile) : Prop :=
  if returns_units r then
    exists p, db_profiles d !! lease_worker_id l = Some p /\
      can_return_quota (reserved_units r) p = true /\
      valid_profile (return_quota (reserved_units r) p) = true /\
      profiles' = <[lease_worker_id l := return_quota (reserved_units r) p]> (db_profiles d)
  else profiles' = db_profiles d.

Definition close_db (profiles' : gmap string RoutingProfile) (fr : Run -> Run)
    (fo : WorkOrder -> WorkOrder) : DB :=
  {| db_manifests := db_manifests d;
     db_orders := <[lease_work_order_id l := fo (settle_order RELEASED r o)]> (db_orders d);
     db_workers := <[lease_worker_id l := free_slot w]> (db_workers d);
     db_profiles := profiles';
     db_runs := <[lease_execution_run_id l := fr (settle_run RELEASED r)]> (db_runs d);
     db_leases := delete (lease_id l) (db_leases d) |}.

Definition beat_db (now expires_at : Z) : DB :=
  {| db_manifests := db_manifests d;
     db_orders := <[lease_work_order_id l := start_order now (settle_order CONSUMED r o)]>
                    (db_orders d);
     db_workers := db_workers d;
     db_profiles := db_profiles d;
     db_runs := <[lease_execution_run_id l := start_run now expires_at (settle_run CONSUMED r)]>
                  (db_runs d);
     db_leases := <[lease_id l := extend_lease now expires_at l]> (db_leases d) |}.
End close.

(** What a claim reserves: nothing, or units of the worker's current profile. *)
Inductive reserving (profiles : gmap string RoutingProfile) (wk : string)
    : Z -> QuotaReservationState -> gmap string RoutingProfile -> Prop :=
| reserving_nothing : reserving profiles wk 0 NOT_REQUIRED profiles
| reserving_units p revision units :
    profiles !! wk = Some p -> can_reserve_quota revision units p = true -> 0 <= units ->
    valid_profile (reserve_quota revision units p) = true ->
    reserving profiles wk units (if units =? 0 then NOT_REQUIRED else RESERVED)
      (<[wk := reserve_quota revision units p]> profiles).

(** The state after a claim of order [o] by worker [w]. *)
Definition claim_db (d : DB) (o : WorkOrder) (w : Worker)
    (profiles' : gmap string RoutingProfile) (route : OrderRoute) (xroute : RunRoute)
    (now expires_at : Z) : DB :=
  let o' := assign_order now (Some route) o in
  let rid := fresh_id (db_runs d) in
  let lid := fresh_id (db_leases d) in
  let r := new_run rid o' (w_worker_id w) now expires_at (Some xroute) in
  {| db_manifests := db_manifests d;
     db_orders := <[wo_id o := o']> (db_orders d);
     db_workers := <[w_worker_id w := take_slot w]> (db_workers d);
     db_profiles := profiles';
     db_runs := <[rid := r]> (db_runs d);
     db_leases := <[lid := new_lease lid o' r (w_worker_id w) now expires_at]> (db_leases d) |}.

Inductive step (d : DB) : DB -> Prop :=
| step_manifest k m :
    db_manifests d !! k = None -> cm_id m = k ->
    step d (d <| db_manifests := <[k := m]> (db_manifests d) |>)
| step_create_order k o :
    db_orders d !! k = None -> wo_id o = k -> wo_status o = WO_PENDING_APPROVAL ->
    wo_attempt_count o = 0 -> wo_route o = no_route -> row_check o = true ->
    step d (d <| db_orders := <[k := o]> (db_orders d) |>)
| step_unleased k o o' :
    db_orders d !! k = Some o -> same_order o o' ->
    work_order_step (wo_status o) (wo_status o') ->
    active_work_order (wo_status o) = false -> active_work_order (wo_status o') = false ->
    step d (d <| db_orders := <[k := o']> (db_orders d) |>)
| step_register k w :
    db_workers d !! k = None -> w_worker_id w = k -> w_active_run_count w = 0 ->
    row_check w = true ->
    step d (d <| db_workers := <[k := w]> (db_workers d) |>)
| step_worker k w w' :
    db_workers d !! k = Some w -> w_worker_id w' = w_worker_id w ->
    w_active_run_count w' = w_active_run_count w -> row_check w' = true ->
    step d (d <| db_workers := <[k := w']> (db_workers d) |>)
| step_profile_create k p :
    db_profiles d !! k = None -> is_Some (db_workers d !! k) -> rp_worker_id p = k ->
    valid_profile p = true -> rp_revision p = 1 ->
    step d (d <| db_profiles := <[k := p]> (db_profiles d) |>)
| step_profile_set k p p' :
    db_profiles d !! k = Some p -> rp_worker_id p' = rp_worker_id p -> valid_profile p' = true ->
    rp_revision p' = rp_revision p + 1 ->
    (forall i r, db_runs d !! i = Some r -> holds_reservation k r = false) ->
    step d (d <| db_profiles := <[k := p']> (db_profiles d) |>)
| step_claim o w units state profiles' route xroute now expires_at :
    db_orders d !! wo_id o = Some o -> wo_status o = WO_QUEUED ->
    db_workers d !! w_worker_id w = Some w -> can_take_slot w = true ->
    reserving (db_profiles d) (w_worker_id w) units state profiles' ->
    or_quota_state route = Some state -> xr_quota_state xroute = state ->
    xr_reserved_quota_units xroute = units ->
    (forall i l, db_leases d !! i = Some l -> lease_work_order_id l <> wo_id o) ->
    (forall i r, db_runs d !! i = Some r -> run_work_order_id r = wo_id o ->
       run_attempt_number r <> wo_attempt_count o + 1) ->
    step d (claim_db d o w profiles' route xroute now expires_at)
| step_heartbeat l r o now expires_at :
    leased d l r o -> xr_quota_state (run_route r) <> RELEASED ->
    step d (beat_db d l r o now expires_at)
| step_reuse k r r' :
    db_runs d !! k = Some r -> active_run (run_status r) = true -> same_run r r' ->
    run_status r' = run_status r ->
    step d (d <| db_runs := <[k := r']> (db_runs d) |>)
| step_close l r o w profiles' fr fo :
    leased d l r o -> db_workers d !! lease_worker_id l = Some w -> 0 < w_active_run_count w ->
    returnable d l r profiles' -> closing fr fo ->
    step d (close_db d l r o w profiles' fr fo).

(** The states the control plane can be in. *)
Definition reachable (d : DB) : Prop := rtc step empty_db d.
