(* ===== verification/Invariants.v ===== *)
(** * What every reachable state of the execution plane satisfies

    The invariants of the abstract steps: identity of keys, table constraints, the
    correspondence between leases, active runs and active orders, the load
    recorded for each worker, the attempt numbers, and the conservation of routing
    quota.  Each group is a record; each has one preservation lemma. *)

From S2P Require Import Prelude Text Json Enums Evidence Registry Capabilities Models Routing Repository Steps.

(** ** The invariant *)

(** A row is stored under its own key. *)
Record keyed (d : DB) : Prop := {
  keyed_orders : forall k o, db_orders d !! k = Some o -> wo_id o = k;
  keyed_runs : forall k r, db_runs d !! k = Some r -> run_id r = k;
  keyed_leases : forall k l, db_leases d !! k = Some l -> lease_id l = k;
  keyed_workers : forall k w, db_workers d !! k = Some w -> w_worker_id w = k;
  keyed_profiles : forall k p, db_profiles d !! k = Some p -> rp_worker_id p = k;
}.

(** The CHECK constraints hold. *)
Record checked (d : DB) : Prop := {
  checked_orders : forall k o, db_orders d !! k = Some o -> row_check o = true;
  checked_workers : forall k w, db_workers d !! k = Some w -> row_check w = true;
  checked_profiles : forall k p, db_profiles d !! k = Some p -> valid_profile p = true;
}.

(** What a lease ties together. *)
Record lease_tie (l : Lease) (r : Run) (o : WorkOrder) : Prop := {
  tie_run_active : active_run (run_status r) = true;
  tie_order_active : active_work_order (wo_status o) = true;
  tie_order_id : run_work_order_id r = lease_work_order_id l;
  tie_worker : run_worker_id r = lease_worker_id l;
  tie_attempt : run_attempt_number r = wo_attempt_count o;
  tie_started : run_status r = RUN_ASSIGNED <-> wo_status o = WO_ASSIGNED;
  tie_quota : or_quota_state (wo_route o) = Some (xr_quota_state (run_route r));
}.

(** Leases, active runs and active orders correspond one to one. *)
Record leases_ok (d : DB) : Prop := {
  leases_tie : forall k l, db_leases d !! k = Some l -> exists r o,
    db_runs d !! lease_execution_run_id l = Some r /\
    db_orders d !! lease_work_order_id l = Some o /\ lease_tie l r o;
  leases_run_unique : forall k1 k2 l1 l2,
    db_leases d !! k1 = Some l1 -> db_leases d !! k2 = Some l2 ->
    lease_execution_run_id l1 = lease_execution_run_id l2 -> k1 = k2;
  leases_order_unique : forall k1 k2 l1 l2,
    db_leases d !! k1 = Some l1 -> db_leases d !! k2 = Some l2 ->
    lease_work_order_id l1 = lease_work_order_id l2 -> k1 = k2;
  leases_of_order : forall k o, db_orders d !! k = Some o ->
    active_work_order (wo_status o) = true ->
    exists i l, db_leases d !! i = Some l /\ lease_work_order_id l = k;
  leases_of_run : forall k r, db_runs d !! k = Some r -> active_run (run_status r) = true ->
    exists i l, db_leases d !! i = Some l /\ lease_execution_run_id l = k;
}.

(** A worker's load is the number of leases it holds. *)
Definition lease_of (wk : string) (l : Lease) : Z :=
  if bool_decide (lease_worker_id l = wk) then 1 else 0.
Definition lease_count (d : DB) (wk : string) : Z := msum (lease_of wk) (db_leases d).

Record load_ok (d : DB) : Prop := {
  load_count : forall k w, db_workers d !! k = Some w -> w_active_run_count w = lease_count d k;
  load_worker : forall k l, db_leases d !! k = Some l -> is_Some (db_workers d !! lease_worker_id l);
}.

(** Attempts are numbered, within the count of their order, without repetition. *)
Record attempts_ok (d : DB) : Prop := {
  attempts_order : forall k r, db_runs d !! k = Some r -> exists o,
    db_orders d !! run_work_order_id r = Some o /\
    1 <= run_attempt_number r <= wo_attempt_count o;
  attempts_unique : forall k1 k2 r1 r2,
    db_runs d !! k1 = Some r1 -> db_runs d !! k2 = Some r2 ->
    run_work_order_id r1 = run_work_order_id r2 ->
    run_attempt_number r1 = run_attempt_number r2 -> k1 = k2;
}.

(** Units reserved by runs of a worker that have not started. *)
Definition units_held (wk : string) (r : Run) : Z :=
  if holds_reservation wk r then reserved_units r else 0.
Definition outstanding (d : DB) (wk : string) : Z := msum (units_held wk) (db_runs d).

Record quota_ok (d : DB) : Prop := {
  quota_reserved : forall k r, db_runs d !! k = Some r -> run_reserved r = true ->
    run_status r = RUN_ASSIGNED /\ 0 < reserved_units r /\
    is_Some (db_profiles d !! run_worker_id r);
  quota_released : forall k r, db_runs d !! k = Some r ->
    xr_quota_state (run_route r) = RELEASED -> active_run (run_status r) = false;
  quota_conserved : forall k p, db_profiles d !! k = Some p ->
    rp_quota_remaining_units p + outstanding d k <= rp_quota_capacity_units p;
  quota_owner : forall k p, db_profiles d !! k = Some p -> is_Some (db_workers d !! k);
}.

Record inv (d : DB) : Prop := {
  inv_keyed : keyed d;
  inv_checked : checked d;
  inv_leases : leases_ok d;
  inv_load : load_ok d;
  inv_attempts : attempts_ok d;
  inv_quota : quota_ok d;
}.

(** ** Tools *)

(** Case analysis on a lookup in an updated table. *)
Ltac lookup_cases H :=
  lazymatch type of H with
  | <[_ := _]> _ !! _ = Some _ =>
      let Hne := fresh "Hne" in
      apply lookup_insert_Some in H as [[? ?]|[Hne H]]; [subst|lookup_cases H]
  | delete _ _ !! _ = Some _ =>
      let Hne := fresh "Hne" in apply lookup_delete_Some in H as [Hne H]; lookup_cases H
  | _ => idtac
  end.

Ltac step_cases Hs :=
  destruct Hs as
    [ k m Hnone Hid
    | k o Hnone Hid Hst Hatt Hroute Hchk
    | k o o' Ho Hsame Hstep Hin Hin'
    | k w Hnone Hid Hcount Hchk
    | k w w' Hw Hid Hcount Hchk
    | k p Hnone Hworker Hid Hvalid Hrev
    | k p p' Hp Hid Hvalid Hrev Hfree
    | o w units qs profiles' route xroute now expires Ho Hst Hw Hslot Hres Hq Hxq Hxu Hnolease Hnorun
    | l r o now expires Hl Hnr
    | k r r' Hr Hact Hsame Hst
    | l r o w profiles' fr fo Hl Hw Hpos Hret Hcl ].

Ltac db_simpl := rsimpl in *; unfold claim_db, beat_db, close_db in *;
  cbn [db_manifests db_orders db_workers db_profiles db_runs db_leases] in *.

Section settle.
Context (s : QuotaReservationState) (r : Run) (o : WorkOrder).

Lemma settle_run_id : run_id (settle_run s r) = run_id r.
Proof. unfold settle_run. by destruct (run_reserved r). Qed.
Lemma settle_run_order : run_work_order_id (settle_run s r) = run_work_order_id r.
Proof. unfold settle_run. by destruct (run_reserved r). Qed.
Lemma settle_run_worker : run_worker_id (settle_run s r) = run_worker_id r.
Proof. unfold settle_run. by destruct (run_reserved r). Qed.
Lemma settle_run_attempt : run_attempt_number (settle_run s r) = run_attempt_number r.
Proof. unfold settle_run. by destruct (run_reserved r). Qed.
Lemma settle_run_status : run_status (settle_run s r) = run_status r.
Proof. unfold settle_run. by destruct (run_reserved r). Qed.
Lemma settle_order_id : wo_id (settle_order s r o) = wo_id o.
Proof. unfold settle_order. by destruct (run_reserved r). Qed.
Lemma settle_order_spec : wo_spec (settle_order s r o) = wo_spec o.
Proof. unfold settle_order. by destruct (run_reserved r). Qed.
Lemma settle_order_attempt : wo_attempt_count (settle_order s r o) = wo_attempt_count o.
Proof. unfold settle_order. by destruct (run_reserved r). Qed.
Lemma settle_order_status : wo_status (settle_order s r o) = wo_status o.
Proof. unfold settle_order. by destruct (run_reserved r). Qed.
End settle.

#[export] Hint Rewrite settle_run_id settle_run_order settle_run_worker settle_run_attempt
  settle_run_status settle_order_id settle_order_spec settle_order_attempt settle_order_status
  : settle.

(** The checks of an order read only its specification and attempt count. *)
Lemma order_check_ext o o' :
  wo_spec o' = wo_spec o -> wo_attempt_count o' = wo_attempt_count o ->
  row_check o' = row_check o.
Proof. simpl. intros -> ->. done. Qed.

Lemma returnable_lookup d l r ps k p :
  returnable d l r ps -> ps !! k = Some p ->
  db_profiles d !! k = Some p \/
  (k = lease_worker_id l /\ returns_units r = true /\ valid_profile p = true /\
   exists p0, db_profiles d !! k = Some p0 /\ p = return_quota (reserved_units r) p0).
Proof.
  unfold returnable. destruct (returns_units r); [|by intros ->; auto].
  intros (p0 & Hp0 & _ & Hv & ->) Hk. lookup_cases Hk; [right|by left]. eauto 10.
Qed.

Lemma reserving_lookup ps wk units s ps' k p :
  reserving ps wk units s ps' -> ps' !! k = Some p ->
  ps !! k = Some p \/
  (k = wk /\ valid_profile p = true /\ exists p0 revision, ps !! k = Some p0 /\
     p = reserve_quota revision units p0).
Proof.
  intros [|p0 rev u Hp0 _ _ Hv] Hk; [by left|]. lookup_cases Hk; [right|by left]. eauto 10.
Qed.

(** ** Preservation *)

Lemma step_keyed d d' : keyed d -> step d d' -> keyed d'.
Proof.
  intros [Ho_ Hr_ Hl_ Hw_ Hp_] Hs. step_cases Hs; split; intros i x Hi; db_simpl; eauto;
    try (lookup_cases Hi; eauto; fail).
  - lookup_cases Hi; eauto. destruct Hsame as (-> & _). eauto.
  - lookup_cases Hi; eauto. rewrite Hid. eauto.
  - lookup_cases Hi; eauto. rewrite Hid. eauto.
  - destruct (reserving_lookup _ _ _ _ _ _ _ Hres Hi) as [?|(-> & _ & p0 & rev & Hp0 & ->)]; eauto.
    apply Hp_ in Hp0. done.
  - lookup_cases Hi; eauto. destruct Hl as [_ _ Hlo _ _ _].
    change (wo_id (settle_order CONSUMED r o) = lease_work_order_id l).
    rewrite settle_order_id. eauto.
  - lookup_cases Hi; eauto. destruct Hl as [_ Hlr _ _ _ _].
    change (run_id (settle_run CONSUMED r) = lease_execution_run_id l).
    rewrite settle_run_id. eauto.
  - lookup_cases Hi; eauto. destruct Hsame as (-> & _). eauto.
  - lookup_cases Hi; eauto. destruct Hl as [_ _ Hlo _ _ _].
    destruct (closing_order _ _ Hcl (settle_order RELEASED r o)) as (-> & _).
    rewrite settle_order_id. eauto.
  - lookup_cases Hi; eauto. destruct Hl as [_ Hlr _ _ _ _].
    destruct (closing_run _ _ Hcl (settle_run RELEASED r)) as (-> & _).
    rewrite settle_run_id. eauto.
  - lookup_cases Hi; eauto. change (w_worker_id w = lease_worker_id l). eauto.
  - destruct (returnable_lookup _ _ _ _ _ _ Hret Hi) as [?|(-> & _ & _ & p0 & Hp0 & ->)]; eauto.
    apply Hp_ in Hp0. done.
Qed.

Lemma step_checked d d' : checked d -> step d d' -> checked d'.
Proof.
  intros [Ho_ Hw_ Hp_] Hs. step_cases Hs; split; intros i x Hi; db_simpl; eauto;
    try (lookup_cases Hi; eauto; fail).
  - lookup_cases Hi; eauto. destruct Hsame as (_ & Hsp & Hat & _).
    rewrite (order_check_ext _ _ Hsp Hat). eauto.
  - lookup_cases Hi; eauto. specialize (Ho_ _ _ Ho). simpl in Ho_ |- *.
    rewrite !andb_true_iff in *. destruct Ho_ as [[[? Hac] ?] ?].
    apply Z.leb_le in Hac. repeat split; try done. apply Z.leb_le.
    change (0 <= wo_attempt_count o + 1). lia.
  - lookup_cases Hi; eauto. specialize (Hw_ _ _ Hw). simpl in Hw_ |- *.
    rewrite !andb_true_iff in *. destruct Hw_ as [[? Hac] ?].
    apply Z.leb_le in Hac. repeat split; try done. apply Z.leb_le.
    change (0 <= w_active_run_count w + 1). lia.
  - destruct (reserving_lookup _ _ _ _ _ _ _ Hres Hi) as [?|(_ & ? & _)]; eauto.
  - lookup_cases Hi; eauto. destruct Hl as [_ _ Hlo _ _ _].
    erewrite order_check_ext; [by eapply Ho_| |].
    + apply settle_order_spec.
    + apply settle_order_attempt.
  - lookup_cases Hi; eauto. destruct Hl as [_ _ Hlo _ _ _].
    destruct (closing_order _ _ Hcl (settle_order RELEASED r o)) as (_ & Hsp & Hat & _).
    rewrite (order_check_ext _ _ Hsp Hat), (order_check_ext o); [by eapply Ho_| |].
    + apply settle_order_spec.
    + apply settle_order_attempt.
  - lookup_cases Hi; eauto. specialize (Hw_ _ _ Hw). simpl in Hw_ |- *.
    rewrite !andb_true_iff in *. destruct Hw_ as [[? Hac] ?].
    repeat split; try done. apply Z.leb_le.
    change (0 <= w_active_run_count w - 1). lia.
  - destruct (returnable_lookup _ _ _ _ _ _ Hret Hi) as [?|(_ & _ & ? & _)]; eauto.
Qed.

Lemma lease_count_claim d o w ps route xroute now expires k :
  lease_count (claim_db d o w ps route xroute now expires) k =
  lease_count d k + (if bool_decide (w_worker_id w = k) then 1 else 0).
Proof.
  unfold lease_count, claim_db. cbn [db_leases].
  rewrite msum_insert_None by apply fresh_id_None.
  unfold lease_of at 1. cbn [lease_worker_id new_lease]. lia.
Qed.

Lemma lease_count_close d l r o w ps fr fo k :
  db_leases d !! lease_id l = Some l ->
  lease_count (close_db d l r o w ps fr fo) k = lease_count d k - lease_of k l.
Proof. intros Hl. unfold lease_count, close_db. cbn [db_leases]. by rewrite (msum_delete _ _ _ l). Qed.

Lemma lease_count_beat d l r o now expires k :
  db_leases d !! lease_id l = Some l ->
  lease_count (beat_db d l r o now expires) k = lease_count d k.
Proof.
  intros Hl. unfold lease_count, beat_db. cbn [db_leases].
  rewrite (msum_insert_Some _ _ _ _ l) by done.
  change (lease_of k (extend_lease now expires l)) with (lease_of k l). lia.
Qed.

Lemma step_load d d' : inv d -> step d d' -> load_ok d'.
Proof.
  intros [[_ _ Hkl Hkw _] _ _ [Hc Hlw] _ _] Hs.
  assert (forall k, db_workers d !! k = None -> lease_count d k = 0) as Hnew.
  { intros k Hk. unfold lease_count. apply msum_zero. intros i l Hl.
    unfold lease_of. case_bool_decide as He; [|done].
    destruct (Hlw i l Hl) as [x Hx]. congruence. }
  step_cases Hs; split; intros i x Hi; db_simpl; eauto.
  - lookup_cases Hi; [|by apply Hc]. rewrite Hcount. symmetry. by apply Hnew.
  - destruct (decide (lease_worker_id x = k)) as [He|]; [rewrite He, lookup_insert_eq; eauto|].
    rewrite lookup_insert_ne by done. eauto.
  - lookup_cases Hi; [|by apply Hc]. rewrite Hcount. by apply Hc.
  - destruct (decide (lease_worker_id x = k)) as [He|]; [rewrite He, lookup_insert_eq; eauto|].
    rewrite lookup_insert_ne by done. eauto.
  - change (w_active_run_count x = lease_count (claim_db d o w profiles' route xroute now expires) i).
    rewrite lease_count_claim. lookup_cases Hi.
    + change (w_active_run_count (take_slot w)) with (w_active_run_count w + 1).
      rewrite (Hc _ _ Hw), bool_decide_eq_true_2 by done. done.
    + rewrite bool_decide_eq_false_2 by done. rewrite (Hc _ _ Hi). lia.
  - lookup_cases Hi.
    + cbn [lease_worker_id new_lease]. rewrite lookup_insert_eq. eauto.
    + destruct (decide (lease_worker_id x = w_worker_id w)) as [He|];
        [rewrite He, lookup_insert_eq; eauto|]. rewrite lookup_insert_ne by done. eauto.
  - change (w_active_run_count x = lease_count (beat_db d l r o now expires) i).
    rewrite lease_count_beat by apply Hl. auto.
  - lookup_cases Hi; [|eauto]. apply (Hlw (lease_id l) l). apply Hl.
  - change (w_active_run_count x = lease_count (close_db d l r o w profiles' fr fo) i).
    rewrite lease_count_close by apply Hl. unfold lease_of. lookup_cases Hi.
    + rewrite bool_decide_eq_true_2 by done. rewrite <-(Hc _ _ Hw). done.
    + rewrite bool_decide_eq_false_2 by done. rewrite (Hc _ _ Hi). lia.
  - lookup_cases Hi. destruct (decide (lease_worker_id x = lease_worker_id l)) as [He|];
      [rewrite He, lookup_insert_eq; eauto|]. rewrite lookup_insert_ne by done. eauto.
Qed.

(** Updating an order without lowering its attempt count keeps the attempts in
    range. *)
Lemma attempts_order_insert d k o o' i r :
  attempts_ok d -> db_orders d !! k = Some o -> wo_attempt_count o <= wo_attempt_count o' ->
  db_runs d !! i = Some r ->
  exists o1, <[k := o']> (db_orders d) !! run_work_order_id r = Some o1 /\
    1 <= run_attempt_number r <= wo_attempt_count o1.
Proof.
  intros [Ha _] Ho Hle Hr. destruct (Ha i r Hr) as (o1 & Ho1 & ?).
  destruct (decide (run_work_order_id r = k)) as [He|].
  - exists o'. rewrite He, lookup_insert_eq in *. split; [done|]. simplify_eq. lia.
  - exists o1. by rewrite lookup_insert_ne.
Qed.

(** Replacing a run by one of the same order and attempt keeps attempts unique. *)
Lemma attempts_unique_insert d k r r' i j x y :
  attempts_ok d -> db_runs d !! k = Some r ->
  run_work_order_id r' = run_work_order_id r -> run_attempt_number r' = run_attempt_number r ->
  <[k := r']> (db_runs d) !! i = Some x -> <[k := r']> (db_runs d) !! j = Some y ->
  run_work_order_id x = run_work_order_id y -> run_attempt_number x = run_attempt_number y ->
  i = j.
Proof.
  intros [_ Hu] Hr H1 H2 Hi Hj Hxy Hxy'. lookup_cases Hi; lookup_cases Hj; [done|..].
  - eapply Hu; eauto; congruence.
  - eapply Hu; eauto; congruence.
  - eapply Hu; eauto.
Qed.

(** The same, when one of the runs is replaced by one of the same order and attempt. *)
Lemma attempts_range_insert d k o o' kr r r' i x :
  attempts_ok d -> db_orders d !! k = Some o -> wo_attempt_count o <= wo_attempt_count o' ->
  db_runs d !! kr = Some r ->
  run_work_order_id r' = run_work_order_id r -> run_attempt_number r' = run_attempt_number r ->
  <[kr := r']> (db_runs d) !! i = Some x ->
  exists o1, <[k := o']> (db_orders d) !! run_work_order_id x = Some o1 /\
    1 <= run_attempt_number x <= wo_attempt_count o1.
Proof.
  intros Hat Ho Hle Hr H1 H2 Hi. lookup_cases Hi; [rewrite H1, H2|]; by eapply attempts_order_insert.
Qed.

(** A run with a new attempt number for its order keeps attempts unique. *)
Lemma attempts_unique_new d k n i j x y :
  attempts_ok d ->
  (forall i r, db_runs d !! i = Some r -> run_work_order_id r = run_work_order_id n ->
     run_attempt_number r <> run_attempt_number n) ->
  <[k := n]> (db_runs d) !! i = Some x -> <[k := n]> (db_runs d) !! j = Some y ->
  run_work_order_id x = run_work_order_id y -> run_attempt_number x = run_attempt_number y ->
  i = j.
Proof.
  intros [_ Hu] Hnew Hi Hj He He'. lookup_cases Hi; lookup_cases Hj; [done|..|by eapply Hu].
  - by destruct (Hnew j y Hj).
  - by destruct (Hnew i x Hi).
Qed.

Lemma step_attempts d d' : inv d -> step d d' -> attempts_ok d'.
Proof.
  intros [[Hko _ _ _ _] [Hchk_ _ _] _ _ Hat _] Hs. pose proof Hat as [Ha Hu].
  step_cases Hs; split; db_simpl; eauto.
  - intros i r Hi. destruct (Ha i r Hi) as (o1 & Ho1 & ?). exists o1.
    rewrite lookup_insert_ne by congruence. done.
  - intros i r Hi. destruct Hsame as (_ & _ & Hac & _).
    eapply attempts_order_insert; eauto. lia.
  - intros i x Hi. lookup_cases Hi.
    + exists (assign_order now (Some route) o). cbn [new_run run_work_order_id run_attempt_number].
      change (wo_id (assign_order now (Some route) o)) with (wo_id o). rewrite lookup_insert_eq.
      split; [done|]. specialize (Hchk_ _ _ Ho). simpl in Hchk_. rewrite !andb_true_iff in Hchk_.
      destruct Hchk_ as [[[_ Hac] _] _]. apply Z.leb_le in Hac.
      change (1 <= wo_attempt_count o + 1 <= wo_attempt_count o + 1). lia.
    + eapply attempts_order_insert; eauto. change (wo_attempt_count o <= wo_attempt_count o + 1). lia.
  - intros i j x y. apply attempts_unique_new; [done|exact Hnorun].
  - destruct Hl as [_ Hlr Hlo _ _ _]. intros i x Hi.
    refine (attempts_range_insert d _ o _ _ r _ i x Hat Hlo _ Hlr _ _ Hi).
    + change (wo_attempt_count o <= wo_attempt_count (settle_order CONSUMED r o)).
      rewrite settle_order_attempt. lia.
    + apply settle_run_order.
    + apply settle_run_attempt.
  - destruct Hl as [_ Hlr _ _ _ _]. intros i j x y Hi Hj.
    refine (attempts_unique_insert d _ r _ i j x y Hat Hlr _ _ Hi Hj).
    + apply settle_run_order.
    + apply settle_run_attempt.
  - destruct Hsame as (_ & Hwo & _ & Han & _). intros i x Hi. lookup_cases Hi; [|eauto].
    rewrite Hwo, Han. eauto.
  - destruct Hsame as (_ & Hwo & _ & Han & _). intros i j x y Hi Hj.
    by apply (attempts_unique_insert d _ r r' i j x y Hat Hr Hwo Han Hi Hj).
  - destruct Hl as [_ Hlr Hlo _ _ _]. intros i x Hi.
    destruct (closing_run _ _ Hcl (settle_run RELEASED r)) as (_ & Hwo & _ & Han & _).
    destruct (closing_order _ _ Hcl (settle_order RELEASED r o)) as (_ & _ & Hac & _).
    refine (attempts_range_insert d _ o _ _ r _ i x Hat Hlo _ Hlr _ _ Hi).
    + rewrite Hac, settle_order_attempt. lia.
    + by rewrite Hwo, settle_run_order.
    + by rewrite Han, settle_run_attempt.
  - destruct Hl as [_ Hlr _ _ _ _]. intros i j x y Hi Hj.
    destruct (closing_run _ _ Hcl (settle_run RELEASED r)) as (_ & Hwo & _ & Han & _).
    refine (attempts_unique_insert d _ r _ i j x y Hat Hlr _ _ Hi Hj).
    + by rewrite Hwo, settle_run_order.
    + by rewrite Han, settle_run_attempt.
Qed.

(** Writing an order that holds no lease, before or after. *)
Lemma leases_inactive_order d k o' :
  leases_ok d ->
  (forall o, db_orders d !! k = Some o -> active_work_order (wo_status o) = false) ->
  active_work_order (wo_status o') = false ->
  leases_ok (d <| db_orders := <[k := o']> (db_orders d) |>).
Proof.
  intros [Ht Hru Hou Hoo Hor] Hin Hin'. split; db_simpl; eauto.
  - intros i l Hi. destruct (Ht i l Hi) as (r & o & Hr & Ho & Htie). exists r, o.
    rewrite lookup_insert_ne; [done|]. intros He. subst k. specialize (Hin o Ho).
    destruct Htie. congruence.
  - intros i o Hi Hact. lookup_cases Hi; [congruence|eauto].
Qed.

(** Rewriting a run and its order in place, keeping the ties of its lease. *)
Lemma leases_rewrite d l r o r' o' l' :
  keyed d -> leases_ok d -> leased d l r o ->
  lease_id l' = lease_id l -> lease_execution_run_id l' = lease_execution_run_id l ->
  lease_work_order_id l' = lease_work_order_id l -> lease_tie l' r' o' ->
  leases_ok {| db_manifests := db_manifests d;
               db_orders := <[lease_work_order_id l := o']> (db_orders d);
               db_workers := db_workers d; db_profiles := db_profiles d;
               db_runs := <[lease_execution_run_id l := r']> (db_runs d);
               db_leases := <[lease_id l := l']> (db_leases d) |}.
Proof.
  intros [_ _ Hkl _ _] [Ht Hru Hou Hoo Hor] [Hll Hlr Hlo _ _ _] Hid Hrid Hoid Htie.
  assert (forall i x, <[lease_id l := l']> (db_leases d) !! i = Some x -> exists x0,
    db_leases d !! i = Some x0 /\ lease_execution_run_id x0 = lease_execution_run_id x /\
    lease_work_order_id x0 = lease_work_order_id x) as Hold.
  { intros i x Hi. lookup_cases Hi; eauto. }
  assert (forall i x, db_leases d !! i = Some x -> exists x0,
    <[lease_id l := l']> (db_leases d) !! i = Some x0 /\
    lease_execution_run_id x0 = lease_execution_run_id x /\
    lease_work_order_id x0 = lease_work_order_id x) as Hnew.
  { intros i x Hi. destruct (decide (i = lease_id l)) as [->|].
    - rewrite lookup_insert_eq. exists l'. simplify_eq. done.
    - rewrite lookup_insert_ne by done. eauto. }
  split; cbn [db_orders db_runs db_leases].
  - intros i x Hi. lookup_cases Hi.
    + exists r', o'. by rewrite Hrid, Hoid, !lookup_insert_eq.
    + destruct (Ht i x Hi) as (r0 & o0 & Hr0 & Ho0 & Htie0). exists r0, o0.
      rewrite !lookup_insert_ne; [done|..]; intros He; apply Hne.
      * by eapply Hou.
      * by eapply Hru.
  - intros i j x y Hi Hj He. destruct (Hold _ _ Hi) as (x0 & ? & ? & ?), (Hold _ _ Hj) as (y0 & ? & ? & ?).
    eapply Hru; eauto. congruence.
  - intros i j x y Hi Hj He. destruct (Hold _ _ Hi) as (x0 & ? & ? & ?), (Hold _ _ Hj) as (y0 & ? & ? & ?).
    eapply Hou; eauto. congruence.
  - intros i x Hi Hact. assert (exists i0 l0, db_leases d !! i0 = Some l0 /\ lease_work_order_id l0 = i)
      as (i0 & l0 & Hl0 & He); [lookup_cases Hi; eauto|].
    destruct (Hnew _ _ Hl0) as (x0 & ? & ? & ?). exists i0, x0. split; [done|congruence].
  - intros i x Hi Hact. assert (exists i0 l0, db_leases d !! i0 = Some l0 /\ lease_execution_run_id l0 = i)
      as (i0 & l0 & Hl0 & He); [lookup_cases Hi; eauto|].
    destruct (Hnew _ _ Hl0) as (x0 & ? & ? & ?). exists i0, x0. split; [done|congruence].
Qed.

(** The tie of the lease in [leased] rows. *)
Lemma leased_tie d l r o : leases_ok d -> leased d l r o -> lease_tie l r o.
Proof.
  intros [Ht _ _ _ _] [Hll Hlr Hlo _ _ _]. destruct (Ht _ _ Hll) as (r0 & o0 & ? & ? & ?).
  by simplify_eq.
Qed.

Lemma beat_tie l r o now expires :
  lease_tie l r o -> (run_reserved r = true -> order_reserved o = true) ->
  lease_tie (extend_lease now expires l) (start_run now expires (settle_run CONSUMED r))
    (start_order now (settle_order CONSUMED r o)).
Proof.
  intros [Hra Hoa Hoid Hw Hatt Hst Hq] Hres. unfold start_run, start_order.
  split; rsimpl; autorewrite with settle; try done.
  - by case_bool_decide.
  - by case_bool_decide.
  - rewrite !bool_decide_decide. destruct (decide _), (decide _); naive_solver.
  - unfold settle_order, settle_run. by destruct (run_reserved r).
Qed.

Lemma claim_leases d o w ps route xroute now expires :
  keyed d -> leases_ok d ->
  db_orders d !! wo_id o = Some o -> wo_status o = WO_QUEUED ->
  or_quota_state route = Some (xr_quota_state xroute) ->
  (forall i l, db_leases d !! i = Some l -> lease_work_order_id l <> wo_id o) ->
  leases_ok (claim_db d o w ps route xroute now expires).
Proof.
  intros Hk [Ht Hru Hou Hoo Hor] Ho Hst Hq Hno. unfold claim_db.
  assert (forall i l, db_leases d !! i = Some l ->
    lease_execution_run_id l <> fresh_id (db_runs d)) as Hnr.
  { intros i l Hl He. destruct (Ht i l Hl) as (r & _ & Hr & _). rewrite He in Hr.
    by rewrite fresh_id_None in Hr. }
  split; cbn [db_orders db_runs db_leases].
  - intros i l Hi. lookup_cases Hi.
    + eexists _, _. cbn [new_lease lease_execution_run_id lease_work_order_id new_run run_id].
      change (wo_id (assign_order now (Some route) o)) with (wo_id o).
      rewrite !lookup_insert_eq. split; [done|]. split; [done|]. split; try done.
    + destruct (Ht i l Hi) as (r0 & o0 & Hr0 & Ho0 & Htie). exists r0, o0.
      rewrite !lookup_insert_ne; eauto using not_eq_sym.
  - intros i j x y Hi Hj. lookup_cases Hi; lookup_cases Hj; [done|..|by eauto];
      cbn [new_lease lease_execution_run_id new_run run_id]; intros He; exfalso; eapply Hnr; eauto.
  - intros i j x y Hi Hj. lookup_cases Hi; lookup_cases Hj; [done|..|by eauto];
      cbn [new_lease lease_work_order_id];
      change (wo_id (assign_order now (Some route) o)) with (wo_id o);
      intros He; exfalso; eapply Hno; eauto.
  - intros i x Hi Hact. lookup_cases Hi.
    + eexists _, _. split; [apply lookup_insert_eq|done].
    + destruct (Hoo i x Hi Hact) as (j & l & Hl & He). exists j, l. split; [|done].
      rewrite lookup_insert_ne; [done|]. intros <-. by rewrite fresh_id_None in Hl.
  - intros i x Hi Hact. lookup_cases Hi.
    + eexists _, _. split; [apply lookup_insert_eq|done].
    + destruct (Hor i x Hi Hact) as (j & l & Hl & He). exists j, l. split; [|done].
      rewrite lookup_insert_ne; [done|]. intros <-. by rewrite fresh_id_None in Hl.
Qed.

Lemma closing_inactive fr fo r o :
  closing fr fo ->
  active_run (run_status (fr r)) = false /\ active_work_order (wo_status (fo o)) = false.
Proof.
  intros [_ _ (s & t & Hs & Ht & Hterm & Hst)]. rewrite Hs, Ht.
  split; [by destruct s|]. destruct Hst as [Hst|[_ ->]]; [|done].
  destruct s; try done; injection Hst as <-; done.
Qed.

Lemma close_leases d l r o w ps fr fo :
  keyed d -> leases_ok d -> leased d l r o -> closing fr fo ->
  leases_ok (close_db d l r o w ps fr fo).
Proof.
  intros [_ _ Hkl _ _] [Ht Hru Hou Hoo Hor] [Hll Hlr Hlo _ _ _] Hcl. unfold close_db.
  destruct (closing_inactive fr fo (settle_run RELEASED r) (settle_order RELEASED r o) Hcl) as [Hri Hoi].
  split; cbn [db_orders db_runs db_leases].
  - intros i x Hi. lookup_cases Hi. destruct (Ht i x Hi) as (r0 & o0 & Hr0 & Ho0 & Htie).
    exists r0, o0. rewrite !lookup_insert_ne; [done|..]; intros He; apply Hne.
    + by eapply Hou.
    + by eapply Hru.
  - intros i j x y Hi Hj. lookup_cases Hi. lookup_cases Hj. eauto.
  - intros i j x y Hi Hj. lookup_cases Hi. lookup_cases Hj. eauto.
  - intros i x Hi Hact. lookup_cases Hi; [congruence|].
    destruct (Hoo i x Hi Hact) as (j & l0 & Hl0 & He). exists j, l0. split; [|done].
    rewrite lookup_delete_ne; [done|]. intros <-. simplify_eq.
  - intros i x Hi Hact. lookup_cases Hi; [congruence|].
    destruct (Hor i x Hi Hact) as (j & l0 & Hl0 & He). exists j, l0. split; [|done].
    rewrite lookup_delete_ne; [done|]. intros <-. simplify_eq.
Qed.

Lemma reuse_leases d k r r' :
  leases_ok d -> db_runs d !! k = Some r -> same_run r r' -> run_status r' = run_status r ->
  leases_ok (d <| db_runs := <[k := r']> (db_runs d) |>).
Proof.
  intros [Ht Hru Hou Hoo Hor] Hr (_ & Hwo & Hwk & Han & Hrt) Hst. split; db_simpl; eauto.
  - intros i l Hi. destruct (Ht i l Hi) as (r0 & o0 & Hr0 & Ho0 & Htie).
    destruct (decide (lease_execution_run_id l = k)) as [He|].
    + exists r', o0. rewrite He, lookup_insert_eq in *. split; [done|]. split; [done|].
      simplify_eq. destruct Htie. split; congruence.
    + exists r0, o0. by rewrite lookup_insert_ne.
  - intros i x Hi Hact. lookup_cases Hi; [|eauto]. apply (Hor i r Hr). congruence.
Qed.

Lemma step_leases d d' : inv d -> step d d' -> leases_ok d'.
Proof.
  intros [Hk _ Hl_ _ _ _] Hs. step_cases Hs.
  - destruct Hl_. split; db_simpl; eauto.
  - apply leases_inactive_order; [done| |by rewrite Hst]. intros o1 Ho1. congruence.
  - apply leases_inactive_order; [done| |done]. intros o1 Ho1. congruence.
  - destruct Hl_. split; db_simpl; eauto.
  - destruct Hl_. split; db_simpl; eauto.
  - destruct Hl_. split; db_simpl; eauto.
  - destruct Hl_. split; db_simpl; eauto.
  - apply claim_leases; auto. by rewrite Hxq.
  - eapply leases_rewrite; eauto. apply beat_tie; [by eapply leased_tie|apply Hl].
  - by eapply reuse_leases.
  - by apply close_leases.
Qed.

(** ** Quota conservation *)

Lemma holds_reservation_spec k r :
  holds_reservation k r = true <-> run_worker_id r = k /\ run_reserved r = true.
Proof.
  unfold holds_reservation, run_reserved. by rewrite andb_true_iff, !bool_decide_eq_true.
Qed.

Lemma settle_reserved s r : s <> RESERVED -> run_reserved (settle_run s r) = false.
Proof.
  intros Hs. unfold settle_run. destruct (run_reserved r) eqn:Hr; [|done].
  by apply bool_decide_eq_false_2.
Qed.

(** A settled run holds nothing. *)
Lemma units_held_settled k s r :
  s <> RESERVED -> units_held k (settle_run s r) = 0.
Proof.
  intros Hs. unfold units_held. destruct (holds_reservation k (settle_run s r)) eqn:Hh; [|done].
  apply holds_reservation_spec in Hh as [_ Hh]. by rewrite settle_reserved in Hh.
Qed.

Lemma units_held_ext k r r' : same_run r r' -> units_held k r' = units_held k r.
Proof.
  intros (_ & _ & Hw & _ & Hr). unfold units_held, holds_reservation, reserved_units.
  by rewrite Hw, Hr.
Qed.

Lemma units_held_nonneg d k i r :
  quota_ok d -> db_runs d !! i = Some r -> 0 <= units_held k r.
Proof.
  intros [Hq _ _ _] Hr. unfold units_held. destruct (holds_reservation k r) eqn:Hh; [|lia].
  apply holds_reservation_spec in Hh as [_ Hh]. destruct (Hq i r Hr Hh) as (_ & ? & _). lia.
Qed.

(** Ending or starting a run frees exactly what it held. *)
Lemma outstanding_settled (runs : gmap Z Run) i r r' s k :
  runs !! i = Some r -> s <> RESERVED -> same_run (settle_run s r) r' ->
  msum (units_held k) (<[i := r']> runs) = msum (units_held k) runs - units_held k r.
Proof.
  intros Hr Hs Hsame. rewrite (msum_insert_Some _ _ _ _ r) by done.
  rewrite (units_held_ext k _ _ Hsame), units_held_settled by done. lia.
Qed.

Lemma outstanding_claim d o w ps route xroute now expires k :
  outstanding (claim_db d o w ps route xroute now expires) k =
  outstanding d k +
  (if bool_decide (w_worker_id w = k) && bool_decide (xr_quota_state xroute = RESERVED)
   then xr_reserved_quota_units xroute else 0).
Proof.
  unfold outstanding, claim_db. cbn [db_runs]. rewrite msum_insert_None by apply fresh_id_None.
  unfold units_held at 1, holds_reservation, reserved_units.
  cbn [new_run run_worker_id run_route]. lia.
Qed.

(** Units handed back and units still held balance for every profile. *)
Lemma close_conserves d l r ps k p :
  quota_ok d -> db_runs d !! lease_execution_run_id l = Some r ->
  run_worker_id r = lease_worker_id l -> returnable d l r ps -> ps !! k = Some p ->
  rp_quota_remaining_units p + (outstanding d k - units_held k r) <= rp_quota_capacity_units p.
Proof.
  intros Hq Hr Hw Hret Hk. pose proof (units_held_nonneg d k _ _ Hq Hr) as Hnn.
  destruct Hq as [Hres _ Hcons _].
  destruct (returnable_lookup _ _ _ _ _ _ Hret Hk) as [Hp|(-> & Hu & _ & p0 & Hp0 & ->)].
  - specialize (Hcons _ _ Hp). lia.
  - specialize (Hcons _ _ Hp0). apply andb_true_iff in Hu as [Hu _].
    change (rp_quota_remaining_units (return_quota (reserved_units r) p0))
      with (rp_quota_remaining_units p0 + reserved_units r).
    change (rp_quota_capacity_units (return_quota (reserved_units r) p0))
      with (rp_quota_capacity_units p0).
    unfold units_held in *. assert (holds_reservation (lease_worker_id l) r = true) as ->.
    { by apply holds_reservation_spec. }
    lia.
Qed.

Lemma claim_conserves d w units qs ps k p :
  quota_ok d -> reserving (db_profiles d) w units qs ps -> ps !! k = Some p ->
  rp_quota_remaining_units p + (outstanding d k +
    (if bool_decide (w = k) && bool_decide (qs = RESERVED) then units else 0))
  <= rp_quota_capacity_units p.
Proof.
  intros [_ _ Hcons _] Hres Hk. destruct Hres as [|p0 rev units Hp0 _ Hu _].
  - rewrite andb_false_r. specialize (Hcons _ _ Hk). lia.
  - lookup_cases Hk.
    + specialize (Hcons _ _ Hp0). rsimpl. unfold reserve_quota. rsimpl.
      repeat case_bool_decide; destruct (Z.eqb_spec units 0); simpl; try congruence; lia.
    + rewrite bool_decide_eq_false_2 by done. specialize (Hcons _ _ Hk). simpl. lia.
Qed.

Lemma reserving_is_Some ps wk units s ps' k :
  reserving ps wk units s ps' -> is_Some (ps' !! k) <-> is_Some (ps !! k).
Proof.
  intros [|p0 rev u Hp0 _ _ _]; [done|]. destruct (decide (k = wk)) as [->|].
  - rewrite lookup_insert_eq, Hp0. split; eauto.
  - by rewrite lookup_insert_ne.
Qed.

Lemma returnable_is_Some d l r ps k :
  returnable d l r ps -> is_Some (ps !! k) <-> is_Some (db_profiles d !! k).
Proof.
  unfold returnable. destruct (returns_units r); [|by intros ->].
  intros (p0 & Hp0 & _ & _ & ->). destruct (decide (k = lease_worker_id l)) as [->|].
  - rewrite lookup_insert_eq, Hp0. split; eauto.
  - by rewrite lookup_insert_ne.
Qed.

Lemma insert_is_Some {K V} `{Countable K} (m : gmap K V) k v i :
  is_Some (m !! i) -> is_Some (<[k := v]> m !! i).
Proof. intros ?. apply lookup_insert_is_Some'. by right. Qed.

Lemma same_run_reserved r r' : same_run r r' -> run_reserved r' = run_reserved r.
Proof. intros (_ & _ & _ & _ & Hr). unfold run_reserved. by rewrite Hr. Qed.

Lemma quota_beat d l r o now expires :
  quota_ok d -> leases_ok d -> leased d l r o -> xr_quota_state (run_route r) <> RELEASED ->
  quota_ok (beat_db d l r o now expires).
Proof.
  intros Hq Hlk Hl Hnr. pose proof Hq as [Hres Hrel Hcons Hown].
  pose proof (leased_run _ _ _ _ Hl) as Hlr. unfold beat_db.
  set (r' := start_run now expires (settle_run CONSUMED r)).
  assert (same_run (settle_run CONSUMED r) r') as Hsame by done.
  split; cbn [db_runs db_profiles db_workers]; [..|done].
  - intros i x Hi Hx. lookup_cases Hi; [|eauto].
    rewrite (same_run_reserved _ _ Hsame), settle_reserved in Hx by done. done.
  - intros i x Hi Hx. lookup_cases Hi; [|eauto]. exfalso. apply Hnr.
    change (xr_quota_state (run_route (settle_run CONSUMED r)) = RELEASED) in Hx.
    revert Hx. unfold settle_run. by destruct (run_reserved r).
  - intros k p Hp. unfold outstanding. cbn [db_runs].
    rewrite (outstanding_settled _ _ r r' CONSUMED) by done.
    specialize (Hcons _ _ Hp). pose proof (units_held_nonneg d k _ _ Hq Hlr).
    unfold outstanding in Hcons. lia.
Qed.

Lemma quota_close d l r o w ps fr fo :
  quota_ok d -> leases_ok d -> leased d l r o -> returnable d l r ps -> closing fr fo ->
  quota_ok (close_db d l r o w ps fr fo).
Proof.
  intros Hq Hlk Hl Hret Hcl. pose proof Hq as [Hres Hrel _ Hown].
  pose proof (leased_run _ _ _ _ Hl) as Hlr. unfold close_db.
  pose proof (closing_run _ _ Hcl (settle_run RELEASED r)) as Hsame.
  destruct (closing_inactive fr fo (settle_run RELEASED r) o Hcl) as [Hri _].
  split; cbn [db_runs db_profiles db_workers].
  - intros i x Hi Hx. lookup_cases Hi.
    + rewrite (same_run_reserved _ _ Hsame), settle_reserved in Hx by done. done.
    + destruct (Hres i x Hi Hx) as (? & ? & ?). by rewrite (returnable_is_Some _ _ _ _ _ Hret).
  - intros i x Hi Hx. lookup_cases Hi; eauto.
  - intros k p Hp. unfold outstanding. cbn [db_runs].
    rewrite (outstanding_settled _ _ r _ RELEASED) by done.
    eapply close_conserves; eauto. apply (leased_tie _ _ _ _ Hlk Hl).
  - intros k p Hp. apply insert_is_Some.
    assert (is_Some (db_profiles d !! k)) as [p0 Hp0].
    { apply (returnable_is_Some _ _ _ _ _ Hret). eauto. }
    eauto.
Qed.

Lemma quota_claim d o w ps route xroute now expires :
  quota_ok d -> db_workers d !! w_worker_id w = Some w ->
  reserving (db_profiles d) (w_worker_id w) (xr_reserved_quota_units xroute)
    (xr_quota_state xroute) ps ->
  quota_ok (claim_db d o w ps route xroute now expires).
Proof.
  intros Hq Hw Hresv. pose proof Hq as [Hres Hrel _ Hown].
  assert (xr_quota_state xroute <> RELEASED /\ (xr_quota_state xroute = RESERVED ->
    0 < xr_reserved_quota_units xroute /\ is_Some (db_profiles d !! w_worker_id w))) as [Hnr Hpos].
  { destruct Hresv as [|p rev u Hp _ Hu _]; [done|].
    destruct (Z.eqb_spec u 0); [done|]. split; [done|]. intros _. split; [lia|eauto]. }
  split.
  - unfold claim_db. cbn [db_runs db_profiles]. intros i x Hi Hx.
    rewrite (reserving_is_Some _ _ _ _ _ _ Hresv). lookup_cases Hi; [|eauto].
    apply bool_decide_eq_true in Hx. split; [done|]. by apply Hpos.
  - unfold claim_db. cbn [db_runs]. intros i x Hi Hx. lookup_cases Hi; eauto. done.
  - intros k p Hp. rewrite outstanding_claim. by eapply claim_conserves.
  - unfold claim_db. cbn [db_profiles db_workers]. intros k p Hp. apply insert_is_Some.
    assert (is_Some (db_profiles d !! k)) as [p0 Hp0].
    { apply (reserving_is_Some _ _ _ _ _ _ Hresv). eauto. }
    eauto.
Qed.

Lemma quota_reuse d k r r' :
  quota_ok d -> db_runs d !! k = Some r -> same_run r r' -> run_status r' = run_status r ->
  quota_ok (d <| db_runs := <[k := r']> (db_runs d) |>).
Proof.
  intros [Hres Hrel Hcons Hown] Hr Hsame Hst. split; db_simpl; [..|done].
  - intros i x Hi Hx. lookup_cases Hi; [|eauto].
    rewrite (same_run_reserved _ _ Hsame) in Hx. destruct (Hres i r Hr Hx) as (? & ? & ?).
    destruct Hsame as (_ & _ & -> & _ & Hrt). unfold reserved_units. by rewrite Hst, Hrt.
  - intros i x Hi Hx. lookup_cases Hi; [|eauto]. rewrite Hst.
    destruct Hsame as (_ & _ & _ & _ & Hrt). rewrite Hrt in Hx. eauto.
  - intros i p Hp. specialize (Hcons i p Hp). unfold outstanding in *. rsimpl.
    rewrite (msum_insert_Some _ _ _ _ r), (units_held_ext i _ _ Hsame) by done. lia.
Qed.

Lemma valid_profile_quota p :
  valid_profile p = true -> rp_quota_remaining_units p <= rp_quota_capacity_units p.
Proof. unfold valid_profile, within. rewrite !andb_true_iff, !Z.leb_le. lia. Qed.

Lemma no_reservation_outstanding d k :
  (forall j r, db_runs d !! j = Some r -> holds_reservation k r = false) -> outstanding d k = 0.
Proof. intros H. apply msum_zero. intros j r Hj. unfold units_held. by rewrite (H j r Hj). Qed.

Lemma step_quota d d' : inv d -> step d d' -> quota_ok d'.
Proof.
  intros [_ _ Hlk _ _ Hqk] Hs. pose proof Hqk as [Hrs Hrel Hcons Hown]. step_cases Hs.
  - split; db_simpl; eauto.
  - split; db_simpl; eauto.
  - split; db_simpl; eauto.
  - split; db_simpl; eauto. intros i p Hp. apply insert_is_Some. eauto.
  - split; db_simpl; eauto. intros i p Hp. apply insert_is_Some. eauto.
  - split; db_simpl; eauto.
    + intros i r Hi Hr. destruct (Hrs i r Hi Hr) as (? & ? & ?). auto using insert_is_Some.
    + intros i x Hi. lookup_cases Hi; [|by apply Hcons].
      rewrite no_reservation_outstanding; [apply valid_profile_quota in Hvalid; lia|].
      intros j r Hj. destruct (holds_reservation _ r) eqn:Hh; [|done].
      apply holds_reservation_spec in Hh as [He Hh].
      destruct (Hrs j r Hj Hh) as (_ & _ & p0 & Hp0). congruence.
    + intros i x Hi. lookup_cases Hi; eauto.
  - split; db_simpl; eauto.
    + intros i r Hi Hr. destruct (Hrs i r Hi Hr) as (? & ? & ?). auto using insert_is_Some.
    + intros i x Hi. lookup_cases Hi; [|by apply Hcons].
      rewrite no_reservation_outstanding by done. apply valid_profile_quota in Hvalid. lia.
    + intros i x Hi. lookup_cases Hi; eauto.
  - subst. by apply quota_claim.
  - by apply quota_beat.
  - by eapply quota_reuse.
  - by apply quota_close.
Qed.

Lemma step_inv d d' : inv d -> step d d' -> inv d'.
Proof.
  intros Hi Hs. split.
  - eapply step_keyed; [apply Hi|done].
  - eapply step_checked; [apply Hi|done].
  - by eapply step_leases.
  - by eapply step_load.
  - by eapply step_attempts.
  - by eapply step_quota.
Qed.

Lemma inv_empty : inv empty_db.
Proof.
  split; split; unfold empty_db; cbn [db_orders db_runs db_leases db_workers db_profiles]; intros;
    by rewrite lookup_empty in *.
Qed.

Lemma steps_inv d d' : inv d -> rtc step d d' -> inv d'.
Proof. intros Hi Hr. induction Hr; eauto using step_inv. Qed.

Lemma reachable_inv d : reachable d -> inv d.
Proof. apply steps_inv, inv_empty. Qed.
