(* ===== verification/Refinement.v ===== *)
(** * The service refines the abstract execution plane

    Every method of [Service], when it returns, has taken the database through a
    sequence of the steps of [Steps]; so the invariants of [Invariants] hold
    after every request.  The proofs follow the program: the [achieves] rules
    compose the calls, and the blocks that run inside a savepoint are matched
    with one step each. *)

From S2P Require Import Prelude Text Json Enums Catalog Evidence Documents Registry Capabilities Models Routing Repository Service Steps Invariants.

(** [w] goes to [w'] by abstract steps. *)
Definition evolves (w w' : World) : Prop := inv (db w) -> rtc step (db w) (db w').

#[global] Instance evolves_refl : Reflexive evolves.
Proof. intros w _. apply rtc_refl. Qed.

#[global] Instance evolves_trans : Transitive evolves.
Proof. intros w1 w2 w3 H1 H2 Hi. etrans; [auto|]. apply H2. eauto using steps_inv. Qed.

Abbreviation simulates := (achieves evolves).

(** ** Statements *)

Section statements.
Context {K V : Type} `{Table K V}.

Lemma update_row_ok k guard (f : V -> V) w b w' :
  update_row k guard f w = (Ok b, w') ->
  (b = false /\ w' = w) \/
  (b = true /\ exists v, table (db w) !! k = Some v /\ guard v = true /\ row_check (f v) = true /\
     w' = w <| db := set_table (<[k := f v]> (table (db w))) (db w) |>).
Proof.
  unfold update_row. destruct (table (db w) !! k) as [v|] eqn:Hv; [|by intros [= <- <-]; left].
  destruct (guard v) eqn:Hg; [|by intros [= <- <-]; left].
  destruct (row_check (f v)) eqn:Hc; intros [= <- <-]. right. eauto 10.
Qed.

Lemma delete_row_ok k (guard : V -> bool) w b w' :
  delete_row k guard w = (Ok b, w') ->
  (b = false /\ w' = w) \/
  (b = true /\ exists v, table (db w) !! k = Some v /\ guard v = true /\
     w' = w <| db := set_table (delete k (table (db w) : gmap K V)) (db w) |>).
Proof.
  unfold delete_row. destruct (table (db w) !! k) as [v|] eqn:Hv; [|by intros [= <- <-]; left].
  destruct (guard v) eqn:Hg; intros [= <- <-]; [right|by left]. eauto 10.
Qed.

Lemma insert_row_ok k (v : V) w u w' :
  insert_row k v w = (Ok u, w') ->
  (table (db w) : gmap K V) !! k = None /\ row_check v = true /\
  (forall i x, table (db w) !! i = Some x -> row_clash v x = false) /\
  w' = w <| db := set_table (<[k := v]> (table (db w))) (db w) |>.
Proof.
  unfold insert_row. destruct (_ && _) eqn:Hc; intros [= <- <-].
  apply andb_true_iff in Hc as [Hc Hu]. apply andb_true_iff in Hc as [Hn Hk].
  apply bool_decide_eq_true in Hn. rewrite forallb_forall in Hu.
  repeat split; try done. intros i x Hx. specialize (Hu (i, x)).
  apply negb_true_iff, Hu, list_elem_of_In, elem_of_map_to_list, Hx.
Qed.
End statements.

Lemma begin_nested_ok {A} (m : exec A) w a w' :
  begin_nested m w = (Ok a, w') -> m w = (Ok a, w').
Proof. unfold begin_nested. by destruct (m w) as [[?|?] ?]. Qed.

(** ** Composition *)

(** One step justifies a computation that leaves [w] for [w']. *)
Lemma evolves_step w w' : (inv (db w) -> step (db w) (db w')) -> evolves w w'.
Proof. intros H Hi. by apply rtc_once, H. Qed.

Lemma sim_now env : simulates (now env).
Proof. intros w a w' [= <- <-] Hi. apply rtc_refl. Qed.

Lemma sim_from_db {A} (f : DB -> A) : simulates (from_db f).
Proof. apply achieves_gets, _. Qed.

Lemma sim_get_row {K V} `{Table K V} (k : K) : simulates (get_row (V := V) k).
Proof. apply sim_from_db. Qed.

Lemma sim_lift_value {A} (r : Result string A) : simulates (lift_value r).
Proof. destruct r; [apply achieves_ret, _|apply achieves_raise]. Qed.

Lemma sim_begin_nested {A} (m : exec A) : simulates m -> simulates (begin_nested m).
Proof. intros Hm w a w' Hrun%begin_nested_ok. by eapply Hm. Qed.

(** A handler runs on the state restored by the savepoint. *)
Lemma sim_handle {A} (m : exec A) h :
  simulates m -> (forall e k, h e = Some k -> simulates k) ->
  simulates (handle (begin_nested m) h).
Proof.
  intros Hm Hh w a w'. unfold handle, begin_nested.
  destruct (m w) as [[x|e] w1] eqn:Hrun; [intros [= <- <-]; by eapply Hm|].
  destruct (h e) as [k|] eqn:Hk; [|done]. intros Hrun' Hi.
  by apply (Hh e k Hk _ _ _ Hrun').
Qed.

#[export] Hint Resolve sim_now sim_from_db sim_get_row sim_lift_value sim_begin_nested : achieves.
#[export] Hint Unfold Repository.get_work_order get_worker Repository.get_routing_profile get_run
  Repository.get_manifest get_lease_for_run get_lease_for_work_order : achieves.

(** Splits a program into its calls. *)
Ltac sim_step :=
  lazymatch goal with
  | |- forall _, _ => intros ?
  | |- achieves _ (ensure _ _ ≫= _) => apply achieves_bind_ensure
  | |- achieves _ (require _ _ ≫= _) => apply achieves_bind_require
  | |- achieves _ (_ ≫= _) => apply achieves_bind; [typeclasses eauto|..]
  | |- achieves _ (match ?x with _ => _ end) => destruct x eqn:?
  | |- achieves _ _ => solve [eauto with achieves typeclass_instances]
  end.
Ltac sim := repeat sim_step.

(** ** Manifests and orders *)

Lemma sim_ensure_manifest definition : simulates (ensure_manifest definition).
Proof.
  unfold ensure_manifest, Repository.get_manifest. sim. apply sim_handle.
  - intros w m w' Hrun. unfold next_id, from_db in Hrun. inv_run Hrun.
    apply insert_row_ok in Hr as (Hn & _ & _ & ->). apply evolves_step. intros _.
    by apply step_manifest.
  - intros [] k [= <-]. unfold reread_manifest, Repository.get_manifest. sim.
Qed.

Lemma sim_sync env : simulates (sync_trusted_manifests env).
Proof.
  apply achieves_for_each; [typeclasses eauto..|]. intros acc definition.
  apply achieves_bind; [typeclasses eauto|apply sim_ensure_manifest|sim].
Qed.

#[export] Hint Resolve sim_ensure_manifest sim_sync : achieves.

Lemma sim_get_work_order id : simulates (get_work_order id).
Proof. unfold get_work_order, Repository.get_work_order. sim. Qed.

#[export] Hint Resolve sim_get_work_order : achieves.

Lemma sim_create_row values : simulates (Repository.create_work_order values).
Proof.
  intros w o w' Hrun. unfold Repository.create_work_order, next_id, from_db in Hrun. inv_run Hrun.
  apply insert_row_ok in Hr as (Hn & Hc & _ & ->). apply evolves_step. intros _.
  by apply step_create_order.
Qed.

#[export] Hint Resolve sim_create_row : achieves.

Lemma sim_create_work_order env draft : simulates (create_work_order env draft).
Proof. unfold create_work_order, validate_work_order_draft, get_worker. sim. Qed.

(** A guarded update of an unleased order is a step when it follows the tables. *)
Lemma sim_transition id statuses f :
  (forall o, wo_status o ∈ statuses ->
     same_order o (f o) /\ work_order_step (wo_status o) (wo_status (f o)) /\
     active_work_order (wo_status o) = false /\ active_work_order (wo_status (f o)) = false) ->
  simulates (transition_unleased_work_order id statuses f).
Proof.
  intros Hf w b w' Hrun.
  apply update_row_ok in Hrun as [[_ ->]|[_ (o & Ho & Hg & _ & ->)]]; [reflexivity|].
  apply bool_decide_eq_true in Hg. destruct (Hf o Hg) as (? & ? & ? & ?).
  apply evolves_step. intros _. by eapply step_unleased.
Qed.

(** Solves the side condition for a concrete list of statuses. *)
Ltac transition_side :=
  intros o Ho; repeat (apply elem_of_cons in Ho as [Ho|Ho]); try (by apply not_elem_of_nil in Ho);
  repeat split; rewrite ?Ho; done.

Lemma sim_approve env id queue : simulates (approve_work_order env id queue).
Proof.
  unfold approve_work_order, ensure_approvable. sim. apply sim_transition.
  destruct queue; transition_side.
Qed.

Lemma sim_queue env id : simulates (queue_work_order env id).
Proof. unfold queue_work_order. sim. apply sim_transition. transition_side. Qed.

Lemma sim_reject env id reason : simulates (reject_work_order env id reason).
Proof. unfold reject_work_order. sim. apply sim_transition. transition_side. Qed.

Lemma sim_expire env id reason : simulates (expire_work_order env id reason).
Proof. unfold expire_work_order. sim. apply sim_transition. transition_side. Qed.

(** ** Workers *)

Lemma sim_update_worker k guard (f : Worker -> Worker) :
  (forall w, w_worker_id (f w) = w_worker_id w /\ w_active_run_count (f w) = w_active_run_count w) ->
  simulates (update_row k guard f).
Proof.
  intros Hf w b w' Hrun.
  apply update_row_ok in Hrun as [[_ ->]|[_ (x & Hx & _ & Hc & ->)]]; [reflexivity|].
  destruct (Hf x). apply evolves_step. intros _. by eapply step_worker.
Qed.

Lemma sim_register env registration : simulates (register_worker env registration).
Proof.
  unfold register_worker, upsert_worker, get_worker. sim.
  - by apply sim_update_worker.
  - intros w u w' Hrun. apply insert_row_ok in Hrun as (Hn & Hc & _ & ->).
    apply evolves_step. intros _. by apply step_register.
Qed.

Lemma sim_heartbeat_worker env worker_id status : simulates (heartbeat_worker env worker_id status).
Proof.
  unfold heartbeat_worker, update_worker_heartbeat, get_worker. sim.
  apply sim_update_worker. intros x. by destruct status.
Qed.

(** ** Routing profiles *)

Lemma sim_get_routing_profile worker_id : simulates (get_routing_profile worker_id).
Proof. unfold get_routing_profile, Repository.get_routing_profile. sim. Qed.

#[export] Hint Resolve sim_get_routing_profile : achieves.

Lemma get_row_ok {K V} `{Table K V} (k : K) w (o : option V) w' :
  get_row k w = (Ok o, w') -> o = table (db w) !! k /\ w' = w.
Proof. intros Hrun. by apply gets_ok in Hrun. Qed.

Lemma isSome_true {A} (o : option A) : isSome o = true <-> is_Some o.
Proof. destruct o; simpl; [split; eauto|]. split; [done|by intros [? ?]]. Qed.

Lemma check_profile_values_ok v w u w' :
  check_profile_values v w = (Ok u, w') -> w' = w.
Proof. unfold check_profile_values. intros Hrun. by inv_run Hrun. Qed.

Lemma now_ok env w t w' : now env w = (Ok t, w') -> db w' = db w.
Proof. by intros [= _ <-]. Qed.

Lemma sim_create_routing_profile worker_id schema_version values :
  simulates (create_routing_profile worker_id schema_version values).
Proof.
  intros w p w' Hrun. unfold create_routing_profile in Hrun. inv_run Hrun.
  apply get_row_ok in Hr as [-> ->], Hr0 as [-> ->]. apply isSome_true in Hb.
  apply check_profile_values_ok in Hr1 as ->.
  unfold handle, begin_nested, Repository.create_routing_profile, mbind, M_bind in Hrun.
  destruct (insert_row _ _ _) as [[u|e] w2] eqn:Hins; [|by destruct e].
  injection Hrun as <- <-. apply insert_row_ok in Hins as (Hn & Hc & _ & ->).
  apply evolves_step. intros _. by apply step_profile_create.
Qed.

(** A profile is rewritten only when no run of its worker holds a reservation. *)
Lemma no_reservations d k i r :
  msum (fun r => if holds_reservation k r then 1 else 0) (db_runs d) = 0 ->
  db_runs d !! i = Some r -> holds_reservation k r = false.
Proof.
  intros Hz Hr. destruct (holds_reservation k r) eqn:Hh; [|done].
  pose proof (msum_lookup_le (fun r => if holds_reservation k r then 1 else 0) (db_runs d) i r)
    as Hle. simpl in Hle. rewrite Hh in Hle.
  assert (1 <= 0); [|lia]. rewrite <-Hz. apply Hle; [|done].
  intros j x _. destruct (holds_reservation k x); lia.
Qed.

Lemma evolves_profile_set w w1 k guard (f : RoutingProfile -> RoutingProfile) b w' :
  db w1 = db w ->
  msum (fun r => if holds_reservation k r then 1 else 0) (db_runs (db w)) = 0 ->
  (forall p, guard p = true -> rp_worker_id (f p) = rp_worker_id p /\ rp_revision (f p) = rp_revision p + 1) ->
  update_row k guard f w1 = (Ok b, w') -> evolves w w'.
Proof.
  intros Hw Hz Hf Hrun. apply update_row_ok in Hrun as [[_ ->]|[_ (p & Hp & Hg & Hc & ->)]].
  - intros _. by rewrite Hw.
  - destruct (Hf p Hg) as [? ?]. apply evolves_step. intros _.
    change (step (db w) ((db w1) <| db_profiles := <[k := f p]> (db_profiles (db w1)) |>)).
    rewrite Hw. eapply step_profile_set; [by rewrite <-Hw|done..|].
    intros i r Hr. by eapply no_reservations.
Qed.

Lemma get_routing_profile_ok k w p w' :
  get_routing_profile k w = (Ok p, w') -> db_profiles (db w) !! k = Some p /\ w' = w.
Proof.
  unfold get_routing_profile. intros Hrun. inv_run Hrun. by apply get_row_ok in Hr as [Hp ->].
Qed.

Lemma get_work_order_ok k w o w' :
  get_work_order k w = (Ok o, w') -> db_orders (db w) !! k = Some o /\ w' = w.
Proof.
  unfold get_work_order. intros Hrun. inv_run Hrun. by apply get_row_ok in Hr as [Hp ->].
Qed.

(** Replaces the run equation of a read by what it says. *)
Ltac read_facts :=
  repeat match goal with
  | H : get_row _ _ = (Ok _, _) |- _ =>
      let He := fresh "Hrow" in apply get_row_ok in H as [He H]; subst
  | H : get_run _ _ = (Ok _, _) |- _ =>
      let He := fresh "Hrow" in apply get_row_ok in H as [He H]; subst
  | H : get_routing_profile _ _ = (Ok _, _) |- _ =>
      let He := fresh "Hprof" in apply get_routing_profile_ok in H as [He H]; subst
  | H : get_work_order _ _ = (Ok _, _) |- _ =>
      let He := fresh "Hord" in apply get_work_order_ok in H as [He H]; subst
  | H : check_profile_values _ _ = (Ok _, _) |- _ => apply check_profile_values_ok in H; subst
  | H : now _ _ = (Ok _, _) |- _ => apply now_ok in H
  end.

Lemma sim_replace_routing_profile env worker_id expected_revision values :
  simulates (replace_routing_profile env worker_id expected_revision values).
Proof.
  intros w p w' Hrun. unfold replace_routing_profile, count_reserved_quota_runs, from_db in Hrun.
  inv_run Hrun. read_facts. apply Z.eqb_eq in Hb0.
  eapply evolves_profile_set; [..|eassumption]; [done..|].
  intros p0. rewrite andb_true_iff, Z.eqb_eq. intros [-> _]. done.
Qed.

Lemma sim_reset_routing_quota env worker_id reset :
  simulates (reset_routing_quota env worker_id reset).
Proof.
  intros w p w' Hrun. unfold reset_routing_quota, count_reserved_quota_runs, from_db in Hrun.
  inv_run Hrun. read_facts. case_bool_decide; [case_match; inv_run Hrun; reflexivity|].
  inv_run Hrun. read_facts. apply Z.eqb_eq in Hb3.
  eapply evolves_profile_set; [..|eassumption]; [done..|].
  intros p0. rewrite !andb_true_iff, Z.eqb_eq. intros [[-> _] _]. done.
Qed.

(** ** Quota settlement *)

(** What settling the reservation of run [r] does to the tables. *)
Record settlement (s : QuotaReservationState) (d d' : DB) (rid oid : Z) (r : Run) : Prop := {
  st_run : db_runs d !! rid = Some r;
  st_runs : db_runs d' = <[rid := settle_run s r]> (db_runs d);
  st_orders : forall o1, db_orders d' !! oid = Some o1 -> exists o,
    db_orders d !! oid = Some o /\ o1 = settle_order s r o /\
    (run_reserved r = true -> order_reserved o = true) /\
    forall x, <[oid := x]> (db_orders d') = <[oid := x]> (db_orders d);
  st_order_kept : is_Some (db_orders d !! oid) -> is_Some (db_orders d' !! oid);
  st_manifests : db_manifests d' = db_manifests d;
  st_workers : db_workers d' = db_workers d;
  st_leases : db_leases d' = db_leases d;
}.

Lemma settlement_idle s d rid oid r :
  db_runs d !! rid = Some r -> run_reserved r = false -> settlement s d d rid oid r.
Proof.
  intros Hr Hres. split; try done.
  - unfold settle_run. by rewrite Hres, insert_id.
  - intros o1 Ho1. exists o1. unfold settle_order. rewrite Hres. done.
Qed.

Lemma settle_pair_ok s rid oid w w' r :
  db_runs (db w) !! rid = Some r -> run_reserved r = true ->
  (run_result ← update_row rid run_reserved (settle_run_quota s);
   order_result ← update_row oid order_reserved (settle_order_quota s);
   mret (run_result && order_result)) w = (Ok true, w') ->
  settlement s (db w) (db w') rid oid r /\ db_profiles (db w') = db_profiles (db w).
Proof.
  intros Hr Hres Hrun. inv_run Hrun.
  destruct a, a0; try done.
  apply update_row_ok in Hr0 as [[? _]|[_ (x & Hx & _ & _ & ->)]]; [done|].
  apply update_row_ok in Hr1 as [[? _]|[_ (o & Ho & Hor & _ & ->)]]; [done|].
  change (db_runs (db w) !! rid = Some x) in Hx. rewrite Hr in Hx. injection Hx as <-.
  change (db_orders (db w) !! oid = Some o) in Ho.
  split; [|done]. split; try done.
  - change (<[rid := settle_run_quota s r]> (db_runs (db w)) = <[rid := settle_run s r]> (db_runs (db w))).
    unfold settle_run. by rewrite Hres.
  - intros o1 Ho1.
    change (<[oid := settle_order_quota s o]> (db_orders (db w)) !! oid = Some o1) in Ho1.
    rewrite lookup_insert_eq in Ho1. injection Ho1 as <-. exists o.
    unfold settle_order. rewrite Hres. repeat split; try done. intros x.
    change (<[oid := x]> (<[oid := settle_order_quota s o]> (db_orders (db w)))
            = <[oid := x]> (db_orders (db w))). apply insert_insert_eq.
  - intros _.
    change (is_Some (<[oid := settle_order_quota s o]> (db_orders (db w)) !! oid)).
    rewrite lookup_insert_eq. eauto.
Qed.

Lemma settlement_profiles s d d' rid oid r f :
  settlement s (d <| db_profiles := f |>) d' rid oid r -> settlement s d d' rid oid r.
Proof. by intros [? ? ? ? ? ? ?]. Qed.

Lemma reserved_state r : xr_quota_state (run_route r) = RESERVED <-> run_reserved r = true.
Proof. unfold run_reserved. by rewrite bool_decide_eq_true. Qed.

Lemma not_reserved_state r s :
  xr_quota_state (run_route r) = s -> s <> RESERVED -> run_reserved r = false.
Proof. intros <- H. by apply bool_decide_eq_false_2. Qed.

Lemma consume_quota_ok rid oid w w' :
  consume_run_quota_reservation rid oid w = (Ok true, w') ->
  exists r, settlement CONSUMED (db w) (db w') rid oid r /\
    db_profiles (db w') = db_profiles (db w) /\ xr_quota_state (run_route r) <> RELEASED.
Proof.
  unfold consume_run_quota_reservation. intros Hrun. inv_run Hrun. read_facts.
  change (table (db w) !! rid) with (db_runs (db w) !! rid) in Hrun.
  destruct (db_runs (db w) !! rid) as [r|] eqn:Hrow; [|by inv_run Hrun]. exists r.
  destruct (xr_quota_state (run_route r)) eqn:Hq.
  - inv_run Hrun. split; [apply settlement_idle; [done|by eapply not_reserved_state]|done].
  - apply settle_pair_ok with (r := r) in Hrun as [? ?]; [done|done|by apply reserved_state].
  - inv_run Hrun. split; [apply settlement_idle; [done|by eapply not_reserved_state]|done].
  - by inv_run Hrun.
Qed.

Lemma release_quota_ok l w w' :
  release_run_quota_reservation (lease_execution_run_id l) (lease_work_order_id l)
    (lease_worker_id l) w = (Ok true, w') ->
  exists r, settlement RELEASED (db w) (db w') (lease_execution_run_id l)
              (lease_work_order_id l) r /\
    returnable (db w) l r (db_profiles (db w')).
Proof.
  unfold release_run_quota_reservation. intros Hrun. inv_run Hrun. read_facts.
  change (table (db w) !! lease_execution_run_id l)
    with (db_runs (db w) !! lease_execution_run_id l) in Hrun.
  destruct (db_runs (db w) !! _) as [r|] eqn:Hrow; [|by inv_run Hrun]. exists r.
  assert (forall s, xr_quota_state (run_route r) = s -> s <> RESERVED -> w' = w ->
    settlement RELEASED (db w) (db w') (lease_execution_run_id l) (lease_work_order_id l) r /\
    returnable (db w) l r (db_profiles (db w'))) as Hidle.
  { intros s Hs Hne ->. pose proof (not_reserved_state r s Hs Hne) as Hres.
    split; [by apply settlement_idle|]. unfold returnable, returns_units. by rewrite Hres. }
  destruct (xr_quota_state (run_route r)) eqn:Hq; try (inv_run Hrun; by apply (Hidle _ eq_refl)).
  apply reserved_state in Hq. clear Hidle. apply bind_ok in Hrun as (b & w1 & Hp & Hrun).
  destruct b; [|by inv_run Hrun]. unfold returnable, returns_units, reserved_units. rewrite Hq. simpl.
  destruct (0 <? xr_reserved_quota_units (run_route r)).
  - apply update_row_ok in Hp as [[? _]|[_ (p & Hp & Hg & Hc & ->)]]; [done|].
    apply settle_pair_ok with (r := r) in Hrun as [Hst ->]; [|done..].
    split; [exact (settlement_profiles _ (db w) _ _ _ _ _ Hst)|]. exists p. done.
  - inv_run Hp. apply settle_pair_ok with (r := r) in Hrun as [Hst ->]; done.
Qed.

(** ** Closing a lease *)

Lemma db_ext d1 d2 :
  db_manifests d1 = db_manifests d2 -> db_orders d1 = db_orders d2 ->
  db_workers d1 = db_workers d2 -> db_profiles d1 = db_profiles d2 ->
  db_runs d1 = db_runs d2 -> db_leases d1 = db_leases d2 -> d1 = d2.
Proof. destruct d1, d2. cbn. congruence. Qed.

Lemma step_to d d1 d2 : step d d1 -> d2 = d1 -> step d d2.
Proof. by intros ? ->. Qed.

Lemma consume_lease_ok s now live stale w w' :
  keyed (db w) -> consume_lease s now live stale w = (Ok true, w') ->
  exists l, db_leases (db w) !! lease_id l = Some l /\ snapshot_of l = s /\
    (live = true -> now <= lease_expires_at l) /\ (stale = true -> lease_expires_at l < now) /\
    w' = w <| db := (db w) <| db_leases := delete (lease_id l) (db_leases (db w)) |> |>.
Proof.
  intros Hk. unfold consume_lease. destruct (live && stale) eqn:Hls; [done|]. intros Hrun.
  apply delete_row_ok in Hrun as [[? _]|[_ (l & Hl & Hg & ->)]]; [done|].
  pose proof (keyed_leases _ Hk _ _ Hl) as Hid. exists l.
  apply andb_true_iff in Hg as [Hm Hg]. unfold snapshot_matches in Hm.
  rewrite !andb_true_iff, !Z.eqb_eq, bool_decide_eq_true in Hm. destruct Hm as [[Ho Hr] Hw].
  rewrite Hid. split; [done|]. split; [|split; [|split; [|done]]].
  - destruct s. unfold snapshot_of. cbn in *. congruence.
  - intros ->. by apply Z.leb_le in Hg.
  - intros ->. rewrite andb_true_r in Hls. subst live. by apply Z.ltb_lt in Hg.
Qed.

(** The common part of [_finish_active_lease] and [expire_stale_leases]: the four
    statements that follow the deletion of lease [l]. *)
Lemma close_block_db d l fr fo w w0 w1 w2 w' a a0 a1 a2 :
  db w = d <| db_leases := delete (lease_id l) (db_leases d) |> ->
  db_leases d !! lease_id l = Some l ->
  release_run_quota_reservation (lease_execution_run_id l) (lease_work_order_id l)
    (lease_worker_id l) w = (Ok a, w0) ->
  finish_active_run (lease_execution_run_id l) fr w0 = (Ok a0, w1) ->
  update_row (lease_work_order_id l) (fun o => active_work_order (wo_status o)) fo w1
    = (Ok a1, w2) ->
  release_worker_capacity (lease_worker_id l) w2 = (Ok a2, w') ->
  a && a0 && a1 && a2 = true ->
  exists r o x, leased d l r o /\ db_workers d !! lease_worker_id l = Some x /\
    0 < w_active_run_count x /\ returnable d l r (db_profiles (db w')) /\
    db w' = close_db d l r o x (db_profiles (db w')) fr fo.
Proof.
  intros Hw Hl Hr Hr0 Hr1 Hr2 Hall.
  destruct a, a0, a1, a2; try done.
  apply release_quota_ok in Hr as (r & [Hrow Hruns Hord _ Hm Hwk Hls] & Hret).
  apply update_row_ok in Hr0 as [[? _]|[_ (r1 & Hr1' & Ha & _ & ->)]]; [done|].
  apply update_row_ok in Hr1 as [[? _]|[_ (o1 & Ho1 & Hoa & _ & ->)]]; [done|].
  apply update_row_ok in Hr2 as [[? _]|[_ (wk & Hwk1 & Hpos & _ & ->)]]; [done|].
  change (db_runs (db w0) !! lease_execution_run_id l = Some r1) in Hr1'.
  rewrite Hruns, lookup_insert_eq in Hr1'. injection Hr1' as <-.
  change (db_orders (db w0) !! lease_work_order_id l = Some o1) in Ho1.
  destruct (Hord o1 Ho1) as (o & Ho & -> & Hor & Hins).
  change (db_workers (db w0) !! lease_worker_id l = Some wk) in Hwk1. rewrite Hwk in Hwk1.
  rewrite Hw in Hrow, Hruns, Hm, Hwk, Hls, Hret, Ho, Hins, Hwk1. rsimpl in *.
  apply Z.ltb_lt in Hpos. rewrite settle_run_status in Ha. rewrite settle_order_status in Hoa.
  exists r, o, wk. split; [by split|]. split; [done|]. split; [done|]. split; [exact Hret|].
  apply db_ext; unfold close_db; cbn [db_manifests db_orders db_workers db_profiles db_runs db_leases].
  - exact Hm.
  - apply Hins.
  - change (<[lease_worker_id l := free_slot wk]> (db_workers (db w0))
            = <[lease_worker_id l := free_slot wk]> (db_workers d)). by rewrite Hwk.
  - done.
  - change (<[lease_execution_run_id l := fr (settle_run RELEASED r)]> (db_runs (db w0))
      = <[lease_execution_run_id l := fr (settle_run RELEASED r)]> (db_runs d)).
    rewrite Hruns. apply insert_insert_eq.
  - exact Hls.
Qed.

Lemma close_block_step d l fr fo w w0 w1 w2 w' a a0 a1 a2 :
  db w = d <| db_leases := delete (lease_id l) (db_leases d) |> ->
  db_leases d !! lease_id l = Some l -> closing fr fo ->
  release_run_quota_reservation (lease_execution_run_id l) (lease_work_order_id l)
    (lease_worker_id l) w = (Ok a, w0) ->
  finish_active_run (lease_execution_run_id l) fr w0 = (Ok a0, w1) ->
  update_row (lease_work_order_id l) (fun o => active_work_order (wo_status o)) fo w1
    = (Ok a1, w2) ->
  release_worker_capacity (lease_worker_id l) w2 = (Ok a2, w') ->
  a && a0 && a1 && a2 = true -> step d (db w').
Proof.
  intros Hw Hl Hcl Hr Hr0 Hr1 Hr2 Hall.
  destruct (close_block_db d l fr fo w w0 w1 w2 w' a a0 a1 a2) as (r & o & x & ? & ? & ? & ? & ->);
    eauto. by apply step_close.
Qed.

Lemma closing_finish completion reason reuse now t :
  is_terminal_run (cpl_status completion) = true ->
  work_order_status_of_value (run_status_value (cpl_status completion)) = Some t ->
  closing (finished_run completion reason reuse now) (finish_order t now reason).
Proof.
  intros Hterm Ht. split; [done..|]. exists (cpl_status completion), t. eauto 10.
Qed.

Lemma closing_requeue now : closing (time_out_run now) (requeue_order now).
Proof. split; [done..|]. exists RUN_TIMED_OUT, WO_QUEUED. eauto 10. Qed.

Lemma sim_finish_records s completion t reuse now live ownership :
  is_terminal_run (cpl_status completion) = true ->
  work_order_status_of_value (run_status_value (cpl_status completion)) = Some t ->
  simulates (finish_records s completion t reuse now live ownership).
Proof.
  intros Hterm Ht w u w' Hrun. unfold finish_records in Hrun. inv_run Hrun.
  apply evolves_step. intros Hi.
  apply consume_lease_ok in Hr as (l & Hl & <- & _ & _ & ->); [|apply Hi].
  refine (close_block_step (db w) l _ _ _ _ _ _ _ _ _ _ _ _ Hl _ Hr0 Hr1 Hr2 Hr3 Hb); [done|].
  by apply closing_finish.
Qed.

Lemma sim_expire_lease now s : simulates (expire_lease now s).
Proof.
  intros w b w' Hrun. unfold expire_lease in Hrun. inv_run Hrun. destruct a.
  - inv_run Hrun. apply evolves_step. intros Hi.
    apply consume_lease_ok in Hr as (l & Hl & <- & _ & _ & ->); [|apply Hi].
    refine (close_block_step (db w) l _ _ _ _ _ _ _ _ _ _ _ _ Hl _ Hr0 Hr1 Hr2 Hr3 Hb); [done|].
    apply closing_requeue.
  - inv_run Hrun. unfold consume_lease in Hr. cbn [andb] in Hr.
    apply delete_row_ok in Hr as [[_ ->]|[? _]]; [reflexivity|done].
Qed.

#[export] Hint Resolve sim_expire_lease : achieves.

Lemma sim_expire_stale_leases env : simulates (expire_stale_leases env).
Proof.
  unfold expire_stale_leases, list_stale_lease_snapshots. sim.
Qed.

#[export] Hint Resolve sim_expire_stale_leases : achieves.

Lemma sim_requeue env id : simulates (requeue_stale_work_order env id).
Proof. unfold requeue_stale_work_order. sim. Qed.

(** ** Completion and cancellation *)

Lemma sim_validate_reuse_identity env order identity :
  simulates (validate_reuse_identity env order identity).
Proof. unfold validate_reuse_identity. sim. Qed.

Lemma sim_checked_decision policy completion : simulates (checked_decision policy completion).
Proof. unfold checked_decision. sim. Qed.

Lemma sim_reuse_source env run decision identity hash :
  simulates (reuse_source env run decision identity hash).
Proof. unfold reuse_source. sim. Qed.

Lemma sim_check_provenance completion decision hash legacy source :
  simulates (check_provenance completion decision hash legacy source).
Proof. unfold check_provenance. sim. Qed.

#[export] Hint Resolve sim_validate_reuse_identity sim_checked_decision sim_reuse_source
  sim_check_provenance : achieves.

Lemma sim_reuse_completion_values env s completion :
  simulates (reuse_completion_values env s completion).
Proof. unfold reuse_completion_values, get_run. sim. Qed.

Lemma sim_validate_completion_evidence s completion :
  simulates (validate_completion_evidence s completion).
Proof. unfold validate_completion_evidence. sim. Qed.

#[export] Hint Resolve sim_reuse_completion_values sim_validate_completion_evidence : achieves.

Lemma sim_finish_active_lease env s completion live ownership :
  is_terminal_run (cpl_status completion) = true ->
  simulates (finish_active_lease env s completion live ownership).
Proof.
  intros Hterm. unfold finish_active_lease, get_run. sim.
  by apply sim_begin_nested, sim_finish_records.
Qed.

#[export] Hint Resolve sim_finish_active_lease : achieves.

Lemma sim_complete_run env run_id worker_id completion :
  simulates (complete_run env run_id worker_id completion).
Proof. unfold complete_run, get_run, get_lease_snapshot_for_run, get_lease_for_run. sim. Qed.

Lemma sim_cancel env id reason : simulates (cancel_work_order env id reason).
Proof.
  unfold cancel_work_order, get_lease_snapshot_for_work_order, get_lease_for_work_order. sim.
  apply sim_transition. transition_side.
Qed.

(** ** Heartbeats and reuse *)

Lemma find_lease d p l :
  keyed d -> find_row p (db_leases d) = Some l ->
  db_leases d !! lease_id l = Some l /\ p l = true.
Proof.
  intros Hk Hf. apply find_row_Some in Hf as (k & Hl & Hp).
  by rewrite (keyed_leases _ Hk _ _ Hl).
Qed.

Lemma heartbeat_step l worker_id now expires w w' u :
  keyed (db w) ->
  find_row (fun x => lease_execution_run_id x =? lease_execution_run_id l) (db_leases (db w))
    = Some l ->
  heartbeat_records (lease_execution_run_id l) (snapshot_of l) worker_id now expires w = (Ok u, w') ->
  step (db w) (db w').
Proof.
  intros Hk Hf Hrun. unfold heartbeat_records, renew_owned_live_lease, get_lease_for_run,
    from_db in Hrun. inv_run Hrun. rewrite Hf in Hr. destruct (find_lease _ _ _ Hk Hf) as [Hl _].
  destruct a, a1, a2; try done. cbn [snapshot_of snap_work_order_id] in *.
  apply update_row_ok in Hr as [[? _]|[_ (l0 & Hl0 & _ & _ & ->)]]; [done|].
  change (db_leases (db w) !! lease_id l = Some l0) in Hl0.
  rewrite Hl in Hl0. injection Hl0 as <-.
  apply consume_quota_ok in Hr0 as (r & [Hrow Hruns Hord _ Hm Hwk Hls] & Hps & Hnr).
  apply update_row_ok in Hr1 as [[? _]|[_ (r1 & Hr1' & Ha & _ & ->)]]; [done|].
  apply update_row_ok in Hr2 as [[? _]|[_ (o1 & Ho1 & Hoa & _ & ->)]]; [done|].
  change (db_runs (db w1) !! lease_execution_run_id l = Some r1) in Hr1'.
  rewrite Hruns, lookup_insert_eq in Hr1'. injection Hr1' as <-.
  change (db_orders (db w1) !! lease_work_order_id l = Some o1) in Ho1.
  destruct (Hord o1 Ho1) as (o & Ho & -> & Hor & Hins). rsimpl in *.
  rewrite settle_run_status in Ha. rewrite settle_order_status in Hoa.
  assert (step (db w) (beat_db (db w) l r o now expires)) as Hstep by by apply step_heartbeat.
  eapply step_to; [exact Hstep|].
  apply db_ext; unfold beat_db; cbn [db_manifests db_orders db_workers db_profiles db_runs db_leases].
  - exact Hm.
  - apply Hins.
  - exact Hwk.
  - exact Hps.
  - set (r' := start_run now expires (settle_run CONSUMED r)).
    change (<[lease_execution_run_id l := r']> (db_runs (db w1))
      = <[lease_execution_run_id l := r']> (db_runs (db w))).
    rewrite Hruns. apply insert_insert_eq.
  - exact Hls.
Qed.

Lemma sim_heartbeat_run env run_id worker_id : simulates (heartbeat_run env run_id worker_id).
Proof.
  intros w r w' Hrun. unfold heartbeat_run, get_lease_snapshot_for_run, get_lease_for_run, from_db
    in Hrun. inv_run Hrun. read_facts. apply begin_nested_ok in Hr1. apply evolves_step. intros Hi.
  apply fmap_Some in Ho as (l & Hf & ->). pose proof (find_lease _ _ _ (inv_keyed _ Hi) Hf) as [_ He].
  apply Z.eqb_eq in He. subst run_id. rewrite <-Hr0 in *.
  eapply heartbeat_step; eauto. apply Hi.
Qed.

Lemma sim_first_candidate env sources expected now :
  simulates (first_candidate env sources expected now).
Proof.
  induction sources as [|[run order] sources IH]; simpl; [sim|].
  apply achieves_bind; [typeclasses eauto| |].
  - unfold validated_reuse_candidate, get_worker. sim.
  - intros [c|]; [sim|done].
Qed.

#[export] Hint Resolve sim_first_candidate : achieves.

Lemma sim_resolve_reuse_candidate env run_id worker_id identity hash :
  simulates (resolve_reuse_candidate env run_id worker_id identity hash).
Proof.
  unfold resolve_reuse_candidate, get_lease_for_run, list_exact_reuse_candidates. sim.
  intros w b w' Hrun. apply update_row_ok in Hrun as [[_ ->]|[_ (r & Hr & Ha & _ & ->)]]; [reflexivity|].
  apply evolves_step. intros _. by eapply step_reuse.
Qed.

(** ** Checkout *)

Lemma reserve_routing_quota_ok wk revision units w o w' :
  reserve_routing_quota wk revision units w = (Ok o, w') ->
  (o = None /\ w' = w) \/
  (o = Some (revision + 1) /\ exists p, db_profiles (db w) !! wk = Some p /\
     can_reserve_quota revision units p = true /\
     valid_profile (reserve_quota revision units p) = true /\
     w' = w <| db := (db w) <| db_profiles := <[wk := reserve_quota revision units p]>
                                               (db_profiles (db w)) |> |>).
Proof.
  unfold reserve_routing_quota. intros Hrun. inv_run Hrun.
  apply update_row_ok in Hr as [[-> ->]|[-> (p & Hp & Hg & Hc & ->)]]; [by left|right]. eauto 10.
Qed.

Lemma reserve_ok worker order profile w rv w' :
  0 <= wos_required_quota_units (wo_spec order) ->
  reserve worker order profile w = (Ok rv, w') ->
  exists ps, reserving (db_profiles (db w)) (w_worker_id worker) (rv_reserved_quota_units rv)
    (rv_quota_state rv) ps /\ w' = w <| db := (db w) <| db_profiles := ps |> |>.
Proof.
  intros Hu. unfold reserve. destruct profile as [p|].
  - intros Hrun. inv_run Hrun.
    apply reserve_routing_quota_ok in Hr as [[? _]|[_ (p0 & Hp0 & Hc & Hv & ->)]]; [done|].
    eexists. split; [|done]. by apply reserving_units.
  - intros Hrun. inv_run Hrun. exists (db_profiles (db w)). split; [constructor|]. by destruct w as [[] ?].
Qed.

Lemma sim_claim_records worker order profile count pin now expires :
  0 <= wos_required_quota_units (wo_spec order) ->
  simulates (claim_records worker order profile count pin now expires).
Proof.
  intros Hu w res w' Hrun. apply evolves_step. intros Hi.
  unfold claim_records, create_active_run, next_id, from_db in Hrun. inv_run Hrun.
  apply update_row_ok in Hr as [[? _]|[_ (x & Hx & Hslot & _ & ->)]]; [done|].
  apply reserve_ok in Hr0 as (ps & Hres & ->); [|done].
  apply update_row_ok in Hr1 as [[? _]|[_ (o & Ho & Hq & _ & ->)]]; [done|].
  apply get_work_order_ok in Hr2 as [Ha1 ->].
  change (db_workers (db w) !! w_worker_id worker = Some x) in Hx.
  change (db_orders (db w) !! wo_id order = Some o) in Ho.
  set (route := order_route worker a count pin now) in *.
  change (<[wo_id order := assign_order now (Some route) o]> (db_orders (db w)) !! wo_id order
          = Some a1) in Ha1.
  rewrite lookup_insert_eq in Ha1. injection Ha1 as <-.
  apply bool_decide_eq_true in Hq.
  pose proof (keyed_workers _ (inv_keyed _ Hi) _ _ Hx) as Hxid.
  pose proof (keyed_orders _ (inv_keyed _ Hi) _ _ Ho) as Hoid.
  apply insert_row_ok in Hr4 as (_ & _ & Hrun & ->).
  apply insert_row_ok in Hr5 as (_ & _ & Hlease & ->).
  rewrite <-Hxid, <-Hoid in *.
  eapply (step_claim (db w) o x (rv_reserved_quota_units a) (rv_quota_state a) ps route
            (claimed_run_route order a count pin now)); try done.
  - intros i l Hl He. specialize (Hlease i l Hl). cbn [row_clash leases_table] in Hlease.
    rewrite orb_false_iff, !Z.eqb_neq in Hlease. destruct Hlease as [Hlease _]. by apply Hlease.
  - intros i r Hr He Hn. specialize (Hrun i r Hr). cbn [row_clash runs_table] in Hrun.
    rewrite andb_false_iff, !Z.eqb_neq in Hrun. destruct Hrun as [Hrun|Hrun]; by apply Hrun.
Qed.

Lemma sim_claim_routed_work env worker order profile count pin now :
  0 <= wos_required_quota_units (wo_spec order) ->
  simulates (claim_routed_work env worker order profile count pin now).
Proof.
  intros Hu. unfold claim_routed_work. apply sim_handle; [by apply sim_claim_records|].
  intros [] k [= <-]; sim.
Qed.

#[export] Hint Resolve sim_claim_routed_work : achieves.

Lemma sim_try_order env worker order eligibility eligible now :
  0 <= wos_required_quota_units (wo_spec order) ->
  simulates (try_order env worker order eligibility eligible now).
Proof. intros Hu. unfold try_order. sim. Qed.

#[export] Hint Resolve sim_try_order : achieves.

Lemma sim_checkout_loop env worker candidates mismatches reasons :
  Forall (fun c => 0 <= wos_required_quota_units (wo_spec c.1)) candidates ->
  simulates (checkout_loop env worker candidates mismatches reasons).
Proof.
  intros Hall. revert mismatches reasons.
  induction Hall as [|[order manifest] rest Hu Hall IH]; intros mismatches reasons; simpl; [sim|].
  unfold routing_eligibilities, list_workers_with_profiles. simpl in Hu. sim.
Qed.

Lemma queued_units d o m :
  checked d -> (o, m) ∈ omap (fun o =>
      if bool_decide (wo_status o = WO_QUEUED)
      then m ← db_manifests d !! wos_manifest_id (wo_spec o); Some (o, m)
      else None) (rows_in_order (db_orders d)).*2 ->
  (exists k, db_orders d !! k = Some o) /\ 0 <= wos_required_quota_units (wo_spec o).
Proof.
  intros Hc Hin. apply list_elem_of_omap in Hin as (o' & Ho' & Hm).
  case_bool_decide; [|done]. destruct (db_manifests d !! _); [|done]. injection Hm as -> _.
  apply list_elem_of_fmap in Ho' as ([k x] & -> & Hx). apply rows_in_order_elem in Hx.
  split; [eauto|]. pose proof (checked_orders _ Hc _ _ Hx) as Hchk. simpl in Hchk.
  rewrite !andb_true_iff in Hchk. destruct Hchk as [_ Hw]. unfold within in Hw.
  apply andb_true_iff in Hw as [Hw _]. by apply Z.leb_le in Hw.
Qed.

Lemma sim_checkout_eligible_work env worker : simulates (checkout_eligible_work env worker).
Proof.
  intros w res w' Hrun Hi. unfold checkout_eligible_work, list_queued_work_orders, from_db in Hrun.
  apply bind_ok in Hrun as (cs & w1 & Hcs & Hrun). apply gets_ok in Hcs as [-> ->].
  eapply sim_checkout_loop; [|exact Hrun|done].
  apply Forall_forall. intros [o m] Hin. eapply (queued_units (db w) o m); [apply Hi|done].
Qed.

#[export] Hint Resolve sim_checkout_eligible_work : achieves.

Lemma sim_checkout env worker_id : simulates (checkout env worker_id).
Proof.
  unfold checkout, get_worker, record_checkout_poll. sim. by apply sim_update_worker.
Qed.

(** Assessment changes nothing but the manifest snapshots. *)
Lemma sim_assess_route env id : simulates (assess_route env id).
Proof.
  unfold assess_route, routing_eligibilities, list_workers_with_profiles, Repository.get_manifest. sim.
Qed.
