(* ===== verification/System.v ===== *)
(** * The control plane as a whole

    Every request the execution API makes of the service, served one after the
    other against one database, each in its own transaction: committed when the
    handler returns, rolled back when it raises ([_commit] and
    [_rollback_and_raise] of [server/api/routers/execution.py]).  The theorems are
    about arbitrary sequences of requests. *)

From S2P Require Import Prelude Text Json Enums Catalog Evidence Registry Capabilities Models Routing Repository Service Steps Invariants Refinement.

(** ** Requests *)

Inductive Command :=
| CreateWorkOrder (draft : WorkOrderDraft)
| ApproveWorkOrder (id : Z) (queue : bool)
| QueueWorkOrder (id : Z)
| RejectWorkOrder (id : Z) (reason : option string)
| ExpireWorkOrder (id : Z) (reason : option string)
| CancelWorkOrder (id : Z) (reason : option string)
| RequeueWorkOrder (id : Z)
| RegisterWorker (registration : WorkerRegistration)
| HeartbeatWorker (worker_id : string) (status : option WorkerStatus)
| CreateRoutingProfile (worker_id : string) (schema_version : Z) (values : RoutingProfileValues)
| ReplaceRoutingProfile (worker_id : string) (revision : Z) (values : RoutingProfileValues)
| ResetRoutingQuota (worker_id : string) (reset : RoutingQuotaReset)
| AssessRoute (id : Z)
| Checkout (worker_id : string)
| HeartbeatRun (run_id : Z) (worker_id : string)
| ResolveReuse (run_id : Z) (worker_id : string) (identity : EvidenceReuseIdentity) (hash : string)
| CompleteRun (run_id : Z) (worker_id : string) (completion : ExecutionCompletion)
| ExpireStaleLeases
| SyncManifests.

Definition discard {A} (m : exec A) : exec unit := _ ← m; mret tt.

Definition handler (env : Env) (c : Command) : exec unit :=
  match c with
  | CreateWorkOrder draft => discard (create_work_order env draft)
  | ApproveWorkOrder id queue => discard (approve_work_order env id queue)
  | QueueWorkOrder id => discard (queue_work_order env id)
  | RejectWorkOrder id reason => discard (reject_work_order env id reason)
  | ExpireWorkOrder id reason => discard (expire_work_order env id reason)
  | CancelWorkOrder id reason => discard (cancel_work_order env id reason)
  | RequeueWorkOrder id => discard (requeue_stale_work_order env id)
  | RegisterWorker registration => discard (register_worker env registration)
  | HeartbeatWorker worker_id status => discard (heartbeat_worker env worker_id status)
  | CreateRoutingProfile worker_id version values =>
      discard (create_routing_profile worker_id version values)
  | ReplaceRoutingProfile worker_id revision values =>
      discard (replace_routing_profile env worker_id revision values)
  | ResetRoutingQuota worker_id reset => discard (reset_routing_quota env worker_id reset)
  | AssessRoute id => discard (assess_route env id)
  | Checkout worker_id => discard (checkout env worker_id)
  | HeartbeatRun run_id worker_id => discard (heartbeat_run env run_id worker_id)
  | ResolveReuse run_id worker_id identity hash =>
      discard (resolve_reuse_candidate env run_id worker_id identity hash)
  | CompleteRun run_id worker_id completion =>
      discard (complete_run env run_id worker_id completion)
  | ExpireStaleLeases => discard (expire_stale_leases env)
  | SyncManifests => discard (sync_trusted_manifests env)
  end.

(** One request; the settings it runs under may differ from one to the next. *)
Definition serve (w : World) (c : Env * Command) : World := (request (handler c.1 c.2) w).2.

Definition serve_all (w : World) (cs : list (Env * Command)) : World := foldl serve w cs.

Definition fresh_world : World := {| db := empty_db; reads := 0 |}.

(** ** Refinement *)

Lemma sim_discard {A} (m : exec A) : simulates m -> simulates (discard m).
Proof. intros Hm. apply achieves_bind; [typeclasses eauto|done|]. intros a. apply achieves_ret, _. Qed.

#[export] Hint Resolve sim_create_work_order sim_approve sim_queue sim_reject sim_expire sim_cancel
  sim_requeue sim_register sim_heartbeat_worker sim_create_routing_profile
  sim_replace_routing_profile sim_reset_routing_quota sim_assess_route sim_checkout
  sim_heartbeat_run sim_resolve_reuse_candidate sim_complete_run : achieves.

Lemma sim_handler env c : simulates (handler env c).
Proof. destruct c; apply sim_discard; auto with achieves. Qed.

Lemma serve_steps w c : inv (db w) -> rtc step (db w) (db (serve w c)).
Proof.
  intros Hi. unfold serve, request, begin_nested.
  destruct (handler c.1 c.2 w) as [[u|e] w'] eqn:Hrun; simpl; [|apply rtc_refl].
  by eapply sim_handler.
Qed.

Lemma serve_all_steps w cs : inv (db w) -> rtc step (db w) (db (serve_all w cs)).
Proof.
  revert w. induction cs as [|c cs IH]; intros w Hi; [apply rtc_refl|].
  pose proof (serve_steps w c Hi). simpl. etrans; [done|]. apply IH. by eapply steps_inv.
Qed.

(** A request that raises is rolled back. *)
Lemma serve_raises w env c e :
  (request (handler env c) w).1 = Err e -> db (serve w (env, c)) = db w.
Proof.
  unfold serve, request, begin_nested. cbn [fst snd].
  by destruct (handler env c w) as [[?|?] ?].
Qed.

Lemma served_inv cs : inv (db (serve_all fresh_world cs)).
Proof. eapply (steps_inv (db fresh_world)), serve_all_steps; apply inv_empty. Qed.

(** ** Histories of records *)

(** What a sequence of steps can do to one order, and to one run. *)
Record order_history (o o' : WorkOrder) : Prop := {
  oh_id : wo_id o' = wo_id o;
  oh_spec : wo_spec o' = wo_spec o;
  oh_status : rtc work_order_step (wo_status o) (wo_status o');
  oh_attempts : wo_attempt_count o <= wo_attempt_count o';
  oh_terminal : is_terminal_work_order (wo_status o) = true -> o' = o;
}.

Record run_history (r r' : Run) : Prop := {
  rh_id : run_id r' = run_id r;
  rh_order : run_work_order_id r' = run_work_order_id r;
  rh_worker : run_worker_id r' = run_worker_id r;
  rh_attempt : run_attempt_number r' = run_attempt_number r;
  rh_status : rtc run_step (run_status r) (run_status r');
  rh_terminal : is_terminal_run (run_status r) = true -> r' = r;
}.

Record profile_history (p p' : RoutingProfile) : Prop := {
  ph_revision : rp_revision p <= rp_revision p';
  ph_unchanged : rp_revision p' = rp_revision p -> p' = p;
}.

#[global] Instance order_history_refl : Reflexive order_history.
Proof. intros o. split; done. Qed.
#[global] Instance order_history_trans : Transitive order_history.
Proof.
  intros a b c [H1 H2 H3 H4 H5] [G1 G2 G3 G4 G5].
  split; [congruence|congruence|by etrans|lia|]. intros Ht. specialize (H5 Ht). subst b. auto.
Qed.
#[global] Instance run_history_refl : Reflexive run_history.
Proof. intros r. split; done. Qed.
#[global] Instance run_history_trans : Transitive run_history.
Proof.
  intros a b c [H1 H2 H3 H4 H5 H6] [G1 G2 G3 G4 G5 G6].
  split; [congruence..|by etrans|]. intros Ht. specialize (H6 Ht). subst b. auto.
Qed.
#[global] Instance profile_history_refl : Reflexive profile_history.
Proof. intros p. split; [lia|done]. Qed.
#[global] Instance profile_history_trans : Transitive profile_history.
Proof.
  intros a b c [H1 H2] [G1 G2]. split; [lia|]. intros He.
  rewrite G2 by lia. apply H2. lia.
Qed.

(** Looking up one key after one insertion. *)
Lemma insert_history {K V} `{Countable K} (R : V -> V -> Prop) `{!Reflexive R} (m : gmap K V) i x k v :
  m !! k = Some v -> (forall y, m !! i = Some y -> R y x) ->
  exists v', <[i := x]> m !! k = Some v' /\ R v v'.
Proof.
  intros Hk Hx. destruct (decide (i = k)) as [->|].
  - rewrite lookup_insert_eq. eauto.
  - rewrite lookup_insert_ne by done. eauto.
Qed.

Lemma closing_order_step fr fo o :
  closing fr fo -> active_work_order (wo_status o) = true ->
  work_order_step (wo_status o) (wo_status (fo o)).
Proof.
  intros [_ _ (s & t & _ & Ht & Hterm & Hst)] Ha. rewrite Ht.
  destruct Hst as [Hst|[_ ->]]; [|destruct (wo_status o); done].
  destruct s; try done; injection Hst as <-; destruct (wo_status o); done.
Qed.

Lemma closing_run_step fr fo r :
  closing fr fo -> active_run (run_status r) = true -> run_step (run_status r) (run_status (fr r)).
Proof.
  intros [_ _ (s & t & Hs & _ & Hterm & _)] Ha. rewrite Hs.
  destruct s; try done; destruct (run_status r); done.
Qed.

Lemma active_order_not_terminal s : active_work_order s = true -> is_terminal_work_order s = true -> False.
Proof. by destruct s. Qed.
Lemma active_run_not_terminal s : active_run s = true -> is_terminal_run s = true -> False.
Proof. by destruct s. Qed.

Lemma unleased_history o o' :
  same_order o o' -> work_order_step (wo_status o) (wo_status o') -> order_history o o'.
Proof.
  intros (Hid & Hsp & Hac & _) Hst. split; [done|done|by apply rtc_once|lia|].
  intros Ht. exfalso. destruct (wo_status o); try done; destruct (wo_status o'); done.
Qed.

Lemma close_order_history fr fo r o :
  closing fr fo -> active_work_order (wo_status o) = true ->
  order_history o (fo (settle_order RELEASED r o)).
Proof.
  intros Hcl Ha. pose proof (closing_order _ _ Hcl (settle_order RELEASED r o)) as (Hid & Hsp & Hac & _).
  rewrite settle_order_id in Hid. rewrite settle_order_spec in Hsp. rewrite settle_order_attempt in Hac.
  split; [done|done| |lia|].
  - apply rtc_once. rewrite <-(settle_order_status RELEASED r o). apply (closing_order_step fr); [done|].
    by rewrite settle_order_status.
  - intros Ht. exfalso. by eapply active_order_not_terminal.
Qed.

Lemma close_run_history fr fo r :
  closing fr fo -> active_run (run_status r) = true -> run_history r (fr (settle_run RELEASED r)).
Proof.
  intros Hcl Ha. pose proof (closing_run _ _ Hcl (settle_run RELEASED r)) as (Hid & Ho & Hw & Hn & _).
  rewrite settle_run_id in Hid. rewrite settle_run_order in Ho. rewrite settle_run_worker in Hw.
  rewrite settle_run_attempt in Hn. split; [done..| |].
  - apply rtc_once. rewrite <-(settle_run_status RELEASED r). apply (closing_run_step fr fo); [done|].
    by rewrite settle_run_status.
  - intros Ht. exfalso. by eapply active_run_not_terminal.
Qed.

Lemma beat_order_history now r o :
  active_work_order (wo_status o) = true -> order_history o (start_order now (settle_order CONSUMED r o)).
Proof.
  intros Ha. unfold start_order. split; rsimpl; autorewrite with settle; [done|done| |lia|].
  - case_bool_decide as He; [|done]. rewrite He. by apply rtc_once.
  - intros Ht. exfalso. by eapply active_order_not_terminal.
Qed.

Lemma beat_run_history now expires r :
  active_run (run_status r) = true -> run_history r (start_run now expires (settle_run CONSUMED r)).
Proof.
  intros Ha. unfold start_run. split; rsimpl; autorewrite with settle; [done..| |].
  - case_bool_decide as He; [|done]. rewrite He. by apply rtc_once.
  - intros Ht. exfalso. by eapply active_run_not_terminal.
Qed.

Lemma step_order d d' i x :
  step d d' -> db_orders d !! i = Some x ->
  exists x', db_orders d' !! i = Some x' /\ order_history x x'.
Proof.
  intros Hs Hk. step_cases Hs; db_simpl; eauto using order_history_refl;
    apply (insert_history order_history); try done.
  - intros y Hy. congruence.
  - intros y Hy. simplify_eq. by apply unleased_history.
  - intros y Hy. rewrite Ho in Hy. injection Hy as <-. split; [done|done| | |].
    + apply rtc_once. by rewrite Hst.
    + change (wo_attempt_count o <= wo_attempt_count o + 1). lia.
    + by rewrite Hst.
  - intros y Hy. destruct Hl as [_ _ Hlo _ Ha _]. simplify_eq. by apply beat_order_history.
  - intros y Hy. destruct Hl as [_ _ Hlo _ Ha _]. simplify_eq. by eapply close_order_history.
Qed.

Lemma step_run d d' i x :
  step d d' -> db_runs d !! i = Some x ->
  exists x', db_runs d' !! i = Some x' /\ run_history x x'.
Proof.
  intros Hs Hk. step_cases Hs; db_simpl; eauto using run_history_refl;
    apply (insert_history run_history); try done.
  - intros y Hy. by rewrite fresh_id_None in Hy.
  - intros y Hy. destruct Hl as [_ Hlr _ Ha _ _]. simplify_eq. by apply beat_run_history.
  - intros y Hy. simplify_eq. destruct Hsame as (? & ? & ? & ? & ?). split; try done.
    + rewrite Hst. reflexivity.
    + intros Ht. exfalso. by eapply active_run_not_terminal.
  - intros y Hy. destruct Hl as [_ Hlr _ Ha _ _]. simplify_eq. by eapply close_run_history.
Qed.

Lemma step_profile d d' i x :
  inv d -> step d d' -> db_profiles d !! i = Some x ->
  exists x', db_profiles d' !! i = Some x' /\ profile_history x x'.
Proof.
  intros Hi Hs Hk. step_cases Hs; db_simpl; eauto using profile_history_refl.
  - apply (insert_history profile_history); [done|]. intros y Hy. congruence.
  - apply (insert_history profile_history); [done|]. intros y Hy. rewrite Hp in Hy.
    injection Hy as <-. split; lia.
  - destruct Hres as [|p rev u Hp Hcan _ _]; [eauto using profile_history_refl|].
    apply (insert_history profile_history); [done|]. intros y Hy. rewrite Hp in Hy.
    injection Hy as <-. unfold can_reserve_quota in Hcan.
    rewrite !andb_true_iff, Z.eqb_eq in Hcan. destruct Hcan as [[[[_ <-] _] _] _].
    split; unfold reserve_quota; rsimpl; lia.
  - unfold returnable in Hret. destruct (returns_units r); [|subst; eauto using profile_history_refl].
    destruct Hret as (p & Hp & _ & _ & ->).
    apply (insert_history profile_history); [done|]. intros y Hy. rewrite Hp in Hy.
    injection Hy as <-. split; unfold return_quota; rsimpl; lia.
Qed.

Section histories.
Context (w : World) (cs : list (Env * Command)) (Hi : inv (db w)).
Let d' := db (serve_all w cs).

Lemma served_order k o :
  db_orders (db w) !! k = Some o -> exists o', db_orders d' !! k = Some o' /\ order_history o o'.
Proof.
  pose proof (serve_all_steps w cs Hi) as Hsteps. revert o. clear Hi.
  induction Hsteps as [|d1 d2 d3 Hs _ IH]; intros o Ho; [eauto using order_history_refl|].
  destruct (step_order _ _ _ _ Hs Ho) as (o1 & Ho1 & H1).
  destruct (IH _ Ho1) as (o2 & Ho2 & H2). exists o2. split; [done|by etrans].
Qed.

Lemma served_run k r :
  db_runs (db w) !! k = Some r -> exists r', db_runs d' !! k = Some r' /\ run_history r r'.
Proof.
  pose proof (serve_all_steps w cs Hi) as Hsteps. revert r. clear Hi.
  induction Hsteps as [|d1 d2 d3 Hs _ IH]; intros r Hr; [eauto using run_history_refl|].
  destruct (step_run _ _ _ _ Hs Hr) as (r1 & Hr1 & H1).
  destruct (IH _ Hr1) as (r2 & Hr2 & H2). exists r2. split; [done|by etrans].
Qed.

Lemma served_profile k p :
  db_profiles (db w) !! k = Some p ->
  exists p', db_profiles d' !! k = Some p' /\ profile_history p p'.
Proof.
  pose proof (serve_all_steps w cs Hi) as Hsteps. revert p Hi.
  induction Hsteps as [|d1 d2 d3 Hs _ IH]; intros p Hinv Hp; [eauto using profile_history_refl|].
  destruct (step_profile _ _ _ _ Hinv Hs Hp) as (p1 & Hp1 & H1).
  destruct (IH p1 (step_inv _ _ Hinv Hs) Hp1) as (p2 & Hp2 & H2). exists p2. split; [done|by etrans].
Qed.
End histories.
