(* ===== verification/Progress.v ===== *)
(** * What the service can always do

    Safety alone is satisfied by a service that refuses everything.  This file
    shows that the closing operations go through: under the invariant, and while
    the revision counter of a routing profile has room, a live lease can be
    completed, a lease can be cancelled, and the expiry sweep clears every stale
    lease.  It also shows where the room runs out. *)

From S2P Require Import Prelude Text Json Enums Catalog Evidence Documents Registry Capabilities Models Routing Repository Service Steps Invariants Refinement System.

(** ** Running forwards *)

Lemma bind_run {E S A B} (m : M E S A) (k : A -> M E S B) s a s' :
  m s = (Ok a, s') -> (m ≫= k) s = k a s'.
Proof. intros H. unfold mbind, M_bind. by rewrite H. Qed.

Lemma ensure_run {E S} b (e : E) (s : S) : b = true -> ensure b e s = (Ok tt, s).
Proof. by intros ->. Qed.

Section statements.
Context {K V : Type} `{Table K V}.

Lemma update_row_run k guard (f : V -> V) w v :
  table (db w) !! k = Some v -> guard v = true -> row_check (f v) = true ->
  update_row k guard f w =
    (Ok true, w <| db := set_table (<[k := f v]> (table (db w))) (db w) |>).
Proof. intros Hv Hg Hc. unfold update_row. by rewrite Hv, Hg, Hc. Qed.

Lemma delete_row_run k (guard : V -> bool) w v :
  table (db w) !! k = Some v -> guard v = true ->
  delete_row k guard w =
    (Ok true, w <| db := set_table (delete k (table (db w) : gmap K V)) (db w) |>).
Proof. intros Hv Hg. unfold delete_row. by rewrite Hv, Hg. Qed.
End statements.

(** ** Room in the revision counter *)

Definition reservations (d : DB) (k : string) : Z :=
  msum (fun r => if holds_reservation k r then 1 else 0) (db_runs d).

(** Every outstanding reservation of a worker can still be returned to its profile:
    each return takes one revision. *)
Definition headroom (d : DB) : Prop :=
  forall k p, db_profiles d !! k = Some p -> rp_revision p + reservations d k <= MAX_ROUTING_REVISION.

Lemma reservations_nonneg d k : 0 <= reservations d k.
Proof. apply msum_nonneg. intros i r _. destruct (holds_reservation k r); lia. Qed.

Lemma reservations_pos d k i r :
  db_runs d !! i = Some r -> holds_reservation k r = true -> 1 <= reservations d k.
Proof.
  intros Hr Hh. unfold reservations.
  pose proof (msum_lookup_le (fun r => if holds_reservation k r then 1 else 0) (db_runs d) i r) as Hle.
  simpl in Hle. rewrite Hh in Hle. apply Hle; [|done].
  intros j x _. destruct (holds_reservation k x); lia.
Qed.

(** The reservation of a leased run can be returned. *)
Lemma returnable_room d l r o p :
  inv d -> leased d l r o -> run_reserved r = true ->
  db_profiles d !! lease_worker_id l = Some p -> rp_revision p < MAX_ROUTING_REVISION ->
  0 < reserved_units r /\ can_return_quota (reserved_units r) p = true /\
  valid_profile (return_quota (reserved_units r) p) = true.
Proof.
  intros Hi Hl Hres Hp Hrev. pose proof (inv_quota _ Hi) as Hq.
  pose proof (leased_run _ _ _ _ Hl) as Hr.
  destruct (quota_reserved _ Hq _ _ Hr Hres) as (_ & Hpos & _).
  pose proof (quota_conserved _ Hq _ _ Hp) as Hcons.
  pose proof (checked_profiles _ (inv_checked _ Hi) _ _ Hp) as Hv.
  assert (reserved_units r <= outstanding d (lease_worker_id l)) as Hle.
  { transitivity (units_held (lease_worker_id l) r).
    - unfold units_held. assert (holds_reservation (lease_worker_id l) r = true) as ->; [|lia].
      apply holds_reservation_spec. split; [|done].
      apply (leased_tie _ _ _ _ (inv_leases _ Hi) Hl).
    - apply (msum_lookup_le _ _ (lease_execution_run_id l)); [|done].
      intros i x Hx. by eapply units_held_nonneg. }
  unfold can_return_quota, return_quota, valid_profile, within in *. rsimpl.
  rewrite !andb_true_iff, !Z.leb_le, ?Z.eqb_eq, ?Z.ltb_lt in *. unfold MAX_ROUTING_REVISION in *.
  unfold MAX_ROUTING_INTEGER in *. lia.
Qed.

(** The rows of a lease, from the invariant. *)
Lemma lease_rows d l :
  inv d -> db_leases d !! lease_id l = Some l ->
  exists r o w, leased d l r o /\ db_workers d !! lease_worker_id l = Some w /\
    0 < w_active_run_count w.
Proof.
  intros Hi Hl. destruct (leases_tie _ (inv_leases _ Hi) _ _ Hl) as (r & o & Hr & Ho & Htie).
  destruct (load_worker _ (inv_load _ Hi) _ _ Hl) as [w Hw]. exists r, o, w. split; [|split; [done|]].
  - destruct Htie as [? ? ? ? ? ? Hq]. split; try done. intros Hres. apply reserved_state in Hres.
    unfold order_reserved. rewrite Hq, Hres. by apply bool_decide_eq_true_2.
  - rewrite (load_count _ (inv_load _ Hi) _ _ Hw). unfold lease_count.
    enough (1 <= msum (lease_of (lease_worker_id l)) (db_leases d)) by lia.
    transitivity (lease_of (lease_worker_id l) l).
    + unfold lease_of. by rewrite bool_decide_eq_true_2.
    + apply (msum_lookup_le _ _ (lease_id l)); [|done]. intros i x _. unfold lease_of. by case_bool_decide.
Qed.

Definition room_for (d : DB) (l : Lease) : Prop :=
  forall p r, db_profiles d !! lease_worker_id l = Some p ->
    db_runs d !! lease_execution_run_id l = Some r -> run_reserved r = true ->
    rp_revision p < MAX_ROUTING_REVISION.

Lemma headroom_room d l :
  inv d -> headroom d -> db_leases d !! lease_id l = Some l -> room_for d l.
Proof.
  intros Hi Hh Hl p r Hp Hr Hres. specialize (Hh _ _ Hp).
  assert (1 <= reservations d (lease_worker_id l)); [|lia].
  eapply reservations_pos; [exact Hr|]. apply holds_reservation_spec. split; [|done].
  destruct (leases_tie _ (inv_leases _ Hi) _ _ Hl) as (r0 & o & Hr0 & _ & Htie).
  rewrite Hr in Hr0. injection Hr0 as <-. apply Htie.
Qed.

(** ** Closing a lease always succeeds *)

Lemma settle_pair_run s rid oid w r o :
  db_runs (db w) !! rid = Some r -> run_reserved r = true ->
  db_orders (db w) !! oid = Some o -> order_reserved o = true -> row_check o = true ->
  exists w', (run_result ← update_row rid run_reserved (settle_run_quota s);
              order_result ← update_row oid order_reserved (settle_order_quota s);
              mret (run_result && order_result)) w = (Ok true, w').
Proof.
  intros Hr Hres Ho Hor Hc. eexists.
  erewrite bind_run by (apply (update_row_run (V := Run)); eauto).
  erewrite bind_run by (apply (update_row_run (V := WorkOrder)); eauto).
  reflexivity.
Qed.

Lemma release_quota_run l r o w :
  db_runs (db w) !! lease_execution_run_id l = Some r ->
  db_orders (db w) !! lease_work_order_id l = Some o -> row_check o = true ->
  (run_reserved r = true -> order_reserved o = true /\ 0 < reserved_units r /\
     exists p, db_profiles (db w) !! lease_worker_id l = Some p /\
       can_return_quota (reserved_units r) p = true /\
       valid_profile (return_quota (reserved_units r) p) = true) ->
  exists w', release_run_quota_reservation (lease_execution_run_id l) (lease_work_order_id l)
    (lease_worker_id l) w = (Ok true, w').
Proof.
  intros Hr Ho Hc Hres. unfold release_run_quota_reservation.
  rewrite (bind_run _ _ w (Some r) w) by (unfold get_run, get_row, from_db, gets; by rewrite <-Hr).
  destruct (xr_quota_state (run_route r)) eqn:Hq; try (eexists; reflexivity).
  apply reserved_state in Hq. destruct (Hres Hq) as (Hor & Hpos & p & Hp & Hcan & Hval).
  change (xr_reserved_quota_units (run_route r)) with (reserved_units r).
  rewrite (proj2 (Z.ltb_lt _ _) Hpos).
  erewrite bind_run by (apply (update_row_run (V := RoutingProfile)); eauto).
  by apply (settle_pair_run RELEASED _ _ _ r o).
Qed.

(** The statements that follow the deletion of a lease. *)
Definition close_block (l : Lease) (fr : Run -> Run) (fo : WorkOrder -> WorkOrder) (e : ExecError)
    : exec unit :=
  quota_released ← release_run_quota_reservation (lease_execution_run_id l)
                     (lease_work_order_id l) (lease_worker_id l);
  run_updated ← finish_active_run (lease_execution_run_id l) fr;
  work_order_updated ← update_row (lease_work_order_id l)
                         (fun o => active_work_order (wo_status o)) fo;
  released ← release_worker_capacity (lease_worker_id l);
  ensure (quota_released && run_updated && work_order_updated && released) e.

Lemma close_block_run d l fr fo e w :
  inv d -> db_leases d !! lease_id l = Some l -> room_for d l -> closing fr fo ->
  db w = d <| db_leases := delete (lease_id l) (db_leases d) |> ->
  exists w', close_block l fr fo e w = (Ok tt, w').
Proof.
  intros Hi Hl Hroom Hcl Hw.
  destruct (lease_rows d l Hi Hl) as (r & o & x & Hls & Hx & Hpos).
  pose proof (leased_run _ _ _ _ Hls) as Hr. pose proof (leased_order _ _ _ _ Hls) as Ho.
  pose proof (checked_orders _ (inv_checked _ Hi) _ _ Ho) as Hoc.
  pose proof (checked_workers _ (inv_checked _ Hi) _ _ Hx) as Hxc.
  destruct (release_quota_run l r o w) as [w1 H1]; [by rewrite Hw..|done| |].
  { intros Hres. pose proof (leased_quota _ _ _ _ Hls Hres) as Hor.
    destruct (quota_reserved _ (inv_quota _ Hi) _ _ Hr Hres) as (_ & _ & p & Hp).
    rewrite (tie_worker _ _ _ (leased_tie _ _ _ _ (inv_leases _ Hi) Hls)) in Hp.
    destruct (returnable_room d l r o p) as (? & ? & ?); eauto.
    split; [done|]. split; [done|]. exists p. by rewrite Hw. }
  unfold close_block. rewrite (bind_run _ _ _ _ _ H1).
  apply release_quota_ok in H1 as (r0 & [Hrow Hruns Hord Hkept _ Hwk _] & _).
  rewrite Hw in Hrow, Hruns, Hwk, Hord, Hkept. rsimpl in *. rewrite Hr in Hrow. injection Hrow as <-.
  destruct (Hkept (ex_intro _ o Ho)) as [o1 Ho1].
  destruct (Hord o1 Ho1) as (o' & Ho' & -> & _ & _). rewrite Ho in Ho'. injection Ho' as <-.
  unfold finish_active_run, release_worker_capacity.
  erewrite bind_run.
  2:{ apply (update_row_run (V := Run)) with (v := settle_run RELEASED r); [|by rewrite settle_run_status; apply Hls|done].
      change (db_runs (db w1) !! lease_execution_run_id l = Some (settle_run RELEASED r)).
      rewrite Hruns. apply lookup_insert_eq. }
  erewrite bind_run.
  2:{ apply (update_row_run (V := WorkOrder)) with (v := settle_order RELEASED r o);
        [done|by rewrite settle_order_status; apply Hls|].
      destruct (closing_order _ _ Hcl (settle_order RELEASED r o)) as (_ & Hsp & Hac & _).
      rewrite (order_check_ext _ _ Hsp Hac), (order_check_ext o); [done|apply settle_order_spec|].
      apply settle_order_attempt. }
  erewrite bind_run.
  2:{ apply (update_row_run (V := Worker)) with (v := x).
      - change (db_workers (db w1) !! lease_worker_id l = Some x). by rewrite Hwk.
      - by apply Z.ltb_lt.
      - simpl in Hxc |- *. rewrite !andb_true_iff in *. destruct Hxc as [[? _] ?].
        repeat split; try done. apply Z.leb_le. change (0 <= w_active_run_count x - 1). lia. }
  eexists. by apply ensure_run.
Qed.

Lemma consume_lease_run l now live stale w :
  db_leases (db w) !! lease_id l = Some l -> live && stale = false ->
  (live = true -> now <= lease_expires_at l) -> (stale = true -> lease_expires_at l < now) ->
  consume_lease (snapshot_of l) now live stale w =
    (Ok true, w <| db := (db w) <| db_leases := delete (lease_id l) (db_leases (db w)) |> |>).
Proof.
  intros Hl Hls Hlive Hstale. unfold consume_lease. rewrite Hls.
  refine (delete_row_run (V := Lease) (lease_id l) _ w l Hl _).
  unfold snapshot_matches, snapshot_of, lease_guard. cbn. rewrite !Z.eqb_refl.
  rewrite bool_decide_eq_true_2 by done. cbn.
  destruct live, stale; try done; [apply Z.leb_le|apply Z.ltb_lt]; auto.
Qed.

Lemma finish_records_run l completion t reuse now live ownership w :
  inv (db w) -> db_leases (db w) !! lease_id l = Some l -> room_for (db w) l ->
  is_terminal_run (cpl_status completion) = true ->
  work_order_status_of_value (run_status_value (cpl_status completion)) = Some t ->
  (live = true -> now <= lease_expires_at l) ->
  exists w', finish_records (snapshot_of l) completion t reuse now live ownership w = (Ok tt, w').
Proof.
  intros Hi Hl Hroom Hterm Ht Hlive. unfold finish_records.
  rewrite (bind_run _ _ _ _ _ (consume_lease_run l now live false w Hl (andb_false_r _) Hlive
             ltac:(discriminate))).
  by eapply (close_block_run (db w) l _ _ _ _ Hi Hl Hroom (closing_finish completion _ reuse now t Hterm Ht)).
Qed.

Lemma expire_lease_run now l w :
  inv (db w) -> db_leases (db w) !! lease_id l = Some l -> room_for (db w) l ->
  lease_expires_at l < now ->
  exists w', expire_lease now (snapshot_of l) w = (Ok true, w').
Proof.
  intros Hi Hl Hroom Hstale. unfold expire_lease.
  rewrite (bind_run _ _ _ _ _ (consume_lease_run l now false true w Hl eq_refl
             ltac:(discriminate) (fun _ => Hstale))).
  destruct (close_block_run (db w) l (time_out_run now) (requeue_order now)
    (LifecycleConflictError "stale_lease_state_conflict")
    (w <| db := (db w) <| db_leases := delete (lease_id l) (db_leases (db w)) |> |>)
    Hi Hl Hroom (closing_requeue now)) as [w' Hrun]; [done|].
  exists w'. unfold close_block in Hrun. cbn [snapshot_of snap_execution_run_id snap_work_order_id
    snap_worker_id]. inv_run Hrun.
  erewrite bind_run by eassumption. erewrite bind_run by eassumption.
  erewrite bind_run by eassumption. erewrite bind_run by eassumption.
  by rewrite (bind_run _ _ _ _ _ (ensure_run _ _ _ Hb)).
Qed.

(** ** The expiry sweep *)

Lemma expire_lease_db now l w w' :
  keyed (db w) -> db_leases (db w) !! lease_id l = Some l ->
  expire_lease now (snapshot_of l) w = (Ok true, w') ->
  exists r o x, leased (db w) l r o /\ db_workers (db w) !! lease_worker_id l = Some x /\
    0 < w_active_run_count x /\ returnable (db w) l r (db_profiles (db w')) /\
    db w' = close_db (db w) l r o x (db_profiles (db w')) (time_out_run now) (requeue_order now).
Proof.
  intros Hk Hl Hrun. unfold expire_lease in Hrun. apply bind_ok in Hrun as (c & w1 & Hc & Hrun).
  destruct c; [|by inv_run Hrun].
  apply consume_lease_ok in Hc as (l0 & Hl0 & He & _ & _ & ->); [|done].
  assert (l0 = l) as ->.
  { assert (lease_id l0 = lease_id l) as Hid by (unfold snapshot_of in He; congruence).
    rewrite Hid, Hl in Hl0. by injection Hl0. }
  inv_run Hrun.
  eapply (close_block_db (db w) l (time_out_run now) (requeue_order now)); [..|exact Hb];
    [|exact Hl|exact Hr|exact Hr0|exact Hr1|exact Hr2]. done.
Qed.

(** Closing a lease keeps the room of every profile. *)
Lemma reservations_close d l r o x ps fr fo k :
  leased d l r o -> closing fr fo ->
  reservations (close_db d l r o x ps fr fo) k =
  reservations d k - (if holds_reservation k r then 1 else 0).
Proof.
  intros Hls Hcl. unfold reservations, close_db. cbn [db_runs].
  rewrite (msum_insert_Some _ _ _ _ r) by apply Hls.
  assert (holds_reservation k (fr (settle_run RELEASED r)) = false) as ->; [|lia].
  destruct (holds_reservation k _) eqn:Hh; [|done]. apply holds_reservation_spec in Hh as [_ Hh].
  by rewrite (same_run_reserved _ _ (closing_run _ _ Hcl _)), settle_reserved in Hh.
Qed.

Lemma headroom_close d l r o x ps fr fo :
  inv d -> headroom d -> leased d l r o -> returnable d l r ps -> closing fr fo ->
  headroom (close_db d l r o x ps fr fo).
Proof.
  intros Hi Hh Hls Hret Hcl k p Hp. rewrite (reservations_close d l r o x ps fr fo k Hls Hcl).
  change (ps !! k = Some p) in Hp.
  destruct (returnable_lookup _ _ _ _ _ _ Hret Hp) as [Hp0|(-> & Hu & _ & p0 & Hp0 & ->)].
  - specialize (Hh _ _ Hp0). destruct (holds_reservation k r); lia.
  - specialize (Hh _ _ Hp0). apply andb_true_iff in Hu as [Hu _].
    assert (holds_reservation (lease_worker_id l) r = true) as ->.
    { apply holds_reservation_spec. split; [|done].
      apply (leased_tie _ _ _ _ (inv_leases _ Hi) Hls). }
    change (rp_revision (return_quota (reserved_units r) p0)) with (rp_revision p0 + 1). lia.
Qed.

Definition sweep_one (now : Z) (acc : ExpiryResult) (snapshot : LeaseSnapshot) : exec ExpiryResult :=
  expired ← begin_nested (expire_lease now snapshot);
  mret (if expired : bool then
          {| requeued_work_order_ids := requeued_work_order_ids acc ++ [snap_work_order_id snapshot];
             timed_out_run_ids := timed_out_run_ids acc ++ [snap_execution_run_id snapshot] |}
        else acc).

Lemma sweep_one_run now acc l w :
  inv (db w) -> headroom (db w) -> db_leases (db w) !! lease_id l = Some l ->
  lease_expires_at l < now ->
  exists w', sweep_one now acc (snapshot_of l) w =
    (Ok {| requeued_work_order_ids := requeued_work_order_ids acc ++ [lease_work_order_id l];
           timed_out_run_ids := timed_out_run_ids acc ++ [lease_execution_run_id l] |}, w') /\
    inv (db w') /\ headroom (db w') /\
    db_leases (db w') = delete (lease_id l) (db_leases (db w)).
Proof.
  intros Hi Hh Hl Hstale.
  destruct (expire_lease_run now l w Hi Hl (headroom_room _ _ Hi Hh Hl) Hstale) as [w' Hrun].
  exists w'. unfold sweep_one, mbind, M_bind, begin_nested. rewrite Hrun. split; [done|].
  destruct (expire_lease_db now l w w' (inv_keyed _ Hi) Hl Hrun) as (r & o & x & Hls & Hx & Hpos & Hret & Hdb).
  rewrite Hdb. split; [|split; [|done]].
  - eapply step_inv; [exact Hi|]. apply step_close; auto using closing_requeue.
  - apply headroom_close; auto using closing_requeue.
Qed.

Lemma sweep_run now ls : forall acc w,
  inv (db w) -> headroom (db w) -> NoDup (lease_id <$> ls) ->
  Forall (fun l => db_leases (db w) !! lease_id l = Some l /\ lease_expires_at l < now) ls ->
  exists w', for_each (sweep_one now) acc (snapshot_of <$> ls) w =
    (Ok {| requeued_work_order_ids := requeued_work_order_ids acc ++ (lease_work_order_id <$> ls);
           timed_out_run_ids := timed_out_run_ids acc ++ (lease_execution_run_id <$> ls) |}, w') /\
    inv (db w') /\
    forall k l, db_leases (db w') !! k = Some l <->
      db_leases (db w) !! k = Some l /\ k ∉ lease_id <$> ls.
Proof.
  induction ls as [|l ls IH]; intros acc w Hi Hh Hnd Hall.
  - exists w. rewrite !app_nil_r. destruct acc. split; [done|]. split; [done|]. set_solver.
  - inversion_clear Hall as [|? ? [Hl Hs] Hrest]. inversion_clear Hnd as [|? ? Hnin Hnd'].
    destruct (sweep_one_run now acc l w Hi Hh Hl Hs) as (w1 & Hrun & Hi1 & Hh1 & Hls1).
    destruct (IH {| requeued_work_order_ids := requeued_work_order_ids acc ++ [lease_work_order_id l];
                    timed_out_run_ids := timed_out_run_ids acc ++ [lease_execution_run_id l] |} w1)
      as (w2 & Hrun2 & Hi2 & Hls2); try done.
    { apply Forall_forall. intros y Hy. rewrite Forall_forall in Hrest.
      destruct (Hrest y Hy) as [Hxl ?]. split; [|done]. rewrite Hls1, lookup_delete_ne; [done|].
      intros He. apply Hnin. rewrite He. by apply list_elem_of_fmap_2. }
    exists w2. rewrite fmap_cons. cbn [for_each]. rewrite (bind_run _ _ _ _ _ Hrun), Hrun2.
    cbn [requeued_work_order_ids timed_out_run_ids]. rewrite <-!app_assoc. split; [done|].
    split; [done|]. intros k y. rewrite Hls2, Hls1, lookup_delete_Some, fmap_cons. set_solver.
Qed.

(** The leases past their deadline at [now], in id order. *)
Definition stale_leases (d : DB) (now : Z) : list Lease :=
  filter (fun l => lease_expires_at l < now) (rows_in_order (db_leases d)).*2.

Lemma stale_leases_elem d now l :
  keyed d -> l ∈ stale_leases d now <->
  db_leases d !! lease_id l = Some l /\ lease_expires_at l < now.
Proof.
  intros Hk. unfold stale_leases. rewrite list_elem_of_filter, list_elem_of_fmap. split.
  - intros [Hs ([k x] & -> & Hx)]. apply rows_in_order_elem in Hx. simpl.
    by rewrite (keyed_leases _ Hk _ _ Hx).
  - intros [Hl Hs]. split; [done|]. exists (lease_id l, l). split; [done|]. by apply rows_in_order_elem.
Qed.

Lemma NoDup_fmap_filter {A B} (f : A -> B) (P : A -> Prop) `{!forall x, Decision (P x)} l :
  NoDup (f <$> l) -> NoDup (f <$> filter P l).
Proof.
  induction l as [|x l IH]; [done|]. rewrite fmap_cons. intros Hnd.
  inversion_clear Hnd as [|? ? Hx Hnd']. rewrite filter_cons. destruct (decide (P x)); [|auto].
  rewrite fmap_cons. constructor; [|auto]. intros Hin. apply Hx.
  apply list_elem_of_fmap in Hin as (y & Hy & Hin). apply list_elem_of_filter in Hin as [_ Hin].
  rewrite Hy. by apply list_elem_of_fmap_2.
Qed.

Lemma stale_leases_NoDup d now : keyed d -> NoDup (lease_id <$> stale_leases d now).
Proof.
  intros Hk. apply NoDup_fmap_filter.
  assert (lease_id <$> (rows_in_order (db_leases d)).*2 = (rows_in_order (db_leases d)).*1) as ->.
  { rewrite <-list_fmap_compose. apply list_fmap_ext. intros i [k l] Hi.
    apply list_elem_of_lookup_2, rows_in_order_elem in Hi. by apply (keyed_leases _ Hk). }
  unfold rows_in_order. rewrite merge_sort_Permutation. apply NoDup_fst_map_to_list.
Qed.

(** C11. The expiry sweep returns while revisions have room; it reports exactly the
    orders and runs of the stale leases, in lease order, and afterwards exactly the
    leases that were not stale remain. *)
Theorem expire_sweep env w :
  inv (db w) -> headroom (db w) ->
  let t := env_clock env (reads w) in
  let stale := stale_leases (db w) t in
  exists w', expire_stale_leases env w =
    (Ok {| requeued_work_order_ids := lease_work_order_id <$> stale;
           timed_out_run_ids := lease_execution_run_id <$> stale |}, w') /\
    inv (db w') /\
    forall k l, db_leases (db w') !! k = Some l <->
      db_leases (db w) !! k = Some l /\ t <= lease_expires_at l.
Proof.
  intros Hi Hh t stale. pose proof (inv_keyed _ Hi) as Hk.
  set (w1 := w <| reads := S (reads w) |>).
  destruct (sweep_run t stale {| requeued_work_order_ids := []; timed_out_run_ids := [] |} w1)
    as (w' & Hrun & Hi' & Hls); [done|done|by apply stale_leases_NoDup| |].
  { apply Forall_forall. intros l Hl. by apply stale_leases_elem in Hl. }
  exists w'. split; [exact Hrun|]. split; [done|]. intros k l. rewrite Hls.
  split; intros [Hl Hx]; (split; [done|]); pose proof (keyed_leases _ Hk _ _ Hl) as <-.
  - destruct (Z.le_gt_cases t (lease_expires_at l)); [done|]. exfalso. apply Hx.
    apply list_elem_of_fmap_2, stale_leases_elem; [done|]. split; [done|lia].
  - intros Hin. apply list_elem_of_fmap in Hin as (y & Hy & Hin).
    apply stale_leases_elem in Hin as [Hyl Hs]; [|done]. rewrite <-Hy in Hyl.
    change (db_leases (db w1)) with (db_leases (db w)) in Hl. rewrite Hl in Hyl.
    injection Hyl as ->. lia.
Qed.

(** ** Completion and cancellation *)

Definition completion_reason (c : ExecutionCompletion) : string :=
  or_else (cpl_terminal_reason c) (run_status_value (cpl_status c)).

(** The outcome of closing lease [l] with completion [c] at time [t]. *)
Definition closed_with (d d' : DB) (l : Lease) (c : ExecutionCompletion) (reuse : RunReuse) (t : Z)
    (r : Run) (s : WorkOrderStatus) : Prop :=
  exists o x, leased d l r o /\ db_workers d !! lease_worker_id l = Some x /\
    d' = close_db d l r o x (db_profiles d') (finished_run c (completion_reason c) reuse t)
           (finish_order s t (completion_reason c)).

Lemma finish_active_lease_run env l c live own w reuse s :
  let t := env_clock env (reads w) in
  inv (db w) -> db_leases (db w) !! lease_id l = Some l -> room_for (db w) l ->
  is_terminal_run (cpl_status c) = true ->
  work_order_status_of_value (run_status_value (cpl_status c)) = Some s ->
  validate_completion_evidence (snapshot_of l) c w = (Ok tt, w) ->
  reuse_completion_values env (snapshot_of l) c w = (Ok reuse, w) ->
  (live = true -> t <= lease_expires_at l) ->
  exists w' r, finish_active_lease env (snapshot_of l) c live own w =
      (Ok (finished_run c (completion_reason c) reuse t (settle_run RELEASED r)), w') /\
    closed_with (db w) (db w') l c reuse t r s /\ inv (db w').
Proof.
  intros t Hi Hl Hroom Hterm Hs Hev Hre Hlive.
  set (w1 := w <| reads := S (reads w) |>).
  destruct (finish_records_run l c s reuse t live own w1) as [w' Hrun]; try done.
  assert (exists r o x, leased (db w) l r o /\ db_workers (db w) !! lease_worker_id l = Some x /\
    0 < w_active_run_count x /\ returnable (db w) l r (db_profiles (db w')) /\
    db w' = close_db (db w) l r o x (db_profiles (db w'))
      (finished_run c (completion_reason c) reuse t) (finish_order s t (completion_reason c)))
    as (r & o & x & Hls & Hx & Hpos & Hret & Hdb).
  { pose proof Hrun as Hr'. unfold finish_records in Hr'.
    rewrite (bind_run _ _ _ _ _ (consume_lease_run l t live false w1 Hl (andb_false_r _) Hlive
               ltac:(discriminate))) in Hr'. inv_run Hr'.
    eapply (close_block_db (db w) l); [..|exact Hb0]; [|exact Hl|exact Hr|exact Hr0|exact Hr1|exact Hr2].
    done. }
  exists w', r. split; [|split; [exists o, x; done|]].
  - unfold finish_active_lease. rewrite (bind_run _ _ _ _ _ Hev), (bind_run _ _ _ _ _ Hre).
    rewrite (bind_run _ _ w t w1) by done. rewrite Hs.
    rewrite (bind_run (require (Some s) _) _ w1 s w1) by done.
    rewrite (bind_run _ _ w1 tt w') by (unfold begin_nested; by rewrite Hrun).
    unfold get_run, get_row, from_db.
    assert (db_runs (db w') !! lease_execution_run_id l =
      Some (finished_run c (completion_reason c) reuse t (settle_run RELEASED r))) as Hlk.
    { rewrite Hdb. unfold close_db. cbn [db_runs]. apply lookup_insert_eq. }
    unfold mbind, M_bind, gets. cbn [snapshot_of snap_execution_run_id].
    change (table (db w') !! lease_execution_run_id l)
      with (db_runs (db w') !! lease_execution_run_id l). by rewrite Hlk.
  - rewrite Hdb. eapply step_inv; [exact Hi|]. apply step_close; auto using closing_finish.
Qed.

(** A lease is found by its run and by its order. *)
Lemma find_by_run d l :
  inv d -> db_leases d !! lease_id l = Some l ->
  find_row (fun x => lease_execution_run_id x =? lease_execution_run_id l) (db_leases d) = Some l.
Proof.
  intros Hi Hl. destruct (find_row _ _) as [x|] eqn:Hf.
  - apply find_row_Some in Hf as (k & Hx & He). apply Z.eqb_eq in He.
    pose proof (leases_run_unique _ (inv_leases _ Hi) _ _ _ _ Hx Hl He) as ->. congruence.
  - apply find_row_None with (k := lease_id l) (v := l) in Hf; [|done]. by rewrite Z.eqb_refl in Hf.
Qed.

Lemma find_by_order d l :
  inv d -> db_leases d !! lease_id l = Some l ->
  find_row (fun x => lease_work_order_id x =? lease_work_order_id l) (db_leases d) = Some l.
Proof.
  intros Hi Hl. destruct (find_row _ _) as [x|] eqn:Hf.
  - apply find_row_Some in Hf as (k & Hx & He). apply Z.eqb_eq in He.
    pose proof (leases_order_unique _ (inv_leases _ Hi) _ _ _ _ Hx Hl He) as ->. congruence.
  - apply find_row_None with (k := lease_id l) (v := l) in Hf; [|done]. by rewrite Z.eqb_refl in Hf.
Qed.

(** C9. A completion goes through: when the lease is live, the evidence and reuse
    values of the completion are accepted and the profile can take back a reserved
    quota, the holder's completion returns the finished run and closes lease, run,
    order and worker slot together. *)
Theorem complete_run_run env l c w reuse s :
  let t := env_clock env (reads w) in
  inv (db w) -> db_leases (db w) !! lease_id l = Some l -> room_for (db w) l ->
  is_terminal_run (cpl_status c) = true ->
  work_order_status_of_value (run_status_value (cpl_status c)) = Some s ->
  validate_completion_evidence (snapshot_of l) c w = (Ok tt, w) ->
  reuse_completion_values env (snapshot_of l) c w = (Ok reuse, w) ->
  t <= lease_expires_at l ->
  exists w' r, complete_run env (lease_execution_run_id l) (lease_worker_id l) c w =
      (Ok (finished_run c (completion_reason c) reuse t (settle_run RELEASED r)), w') /\
    closed_with (db w) (db w') l c reuse t r s /\ inv (db w').
Proof.
  intros t Hi Hl Hroom Hterm Hs Hev Hre Hlive.
  destruct (finish_active_lease_run env l c true true w reuse s) as (w' & r & Hrun & Hcl & Hi'); try done.
  exists w', r. split; [|done]. etransitivity; [|exact Hrun]. unfold complete_run.
  rewrite (bind_run _ _ _ _ _ (ensure_run _ _ w Hterm)).
  assert (db_runs (db w) !! lease_execution_run_id l = Some r) as Hr.
  { destruct Hcl as (o & x & Hls & _). apply Hls. }
  rewrite (bind_run _ _ w (Some r) w) by (unfold get_run, get_row, from_db, gets; by rewrite <-Hr).
  rewrite (bind_run _ _ w r w) by done.
  unfold get_lease_snapshot_for_run, get_lease_for_run, from_db.
  rewrite (bind_run _ _ w (Some (snapshot_of l)) w).
  2:{ unfold mbind, M_bind, gets. by rewrite find_by_run. }
  rewrite (bind_run _ _ w (snapshot_of l) w) by done.
  by rewrite (bind_run _ _ w tt w) by (apply ensure_run, bool_decide_eq_true_2; done).
Qed.

(** The reuse identity a run carries, if any, still fits its order under the
    registry in force. *)
Definition reuse_current (env : Env) (o : WorkOrder) (r : Run) : Prop :=
  forall i, rr_identity (run_reuse r) = Some i ->
    rr_identity_hash (run_reuse r) = Some (compute_reuse_identity_hash i) /\
    valid_identity_document i = true /\
    forall w, validate_reuse_identity env o i w = (Ok tt, w).

Lemma get_run_run k r w : db_runs (db w) !! k = Some r -> get_run k w = (Ok (Some r), w).
Proof. intros H. unfold get_run, get_row, from_db, gets. by rewrite <-H. Qed.

Lemma get_work_order_run k o w : db_orders (db w) !! k = Some o -> get_work_order k w = (Ok o, w).
Proof.
  intros H. unfold get_work_order, Repository.get_work_order, get_row, from_db, gets, mbind, M_bind.
  change (table (db w) !! k) with (db_orders (db w) !! k). by rewrite H.
Qed.

Lemma cancellation_decision policy reason w :
  checked_decision policy (cancellation reason) w =
    (Ok (match policy with NEVER => FRESH | _ => UNAVAILABLE end), w).
Proof. by destruct policy. Qed.

Lemma cancellation_reuse env l r o reason w :
  leased (db w) l r o -> reuse_current env o r ->
  exists reuse, reuse_completion_values env (snapshot_of l) (cancellation reason) w = (Ok reuse, w).
Proof.
  intros [_ Hr Ho _ _ _] Hcur. unfold reuse_completion_values.
  rewrite (bind_run _ _ _ _ _ (get_run_run _ r w Hr)), (bind_run _ _ w r w) by done.
  rewrite (bind_run _ _ _ _ _ (get_work_order_run _ o w Ho)).
  rewrite (bind_run _ _ _ _ _ (cancellation_decision _ reason w)).
  cbn [cancellation cpl_reuse_identity cpl_reuse_identity_hash cpl_evidence_metadata].
  change (or_option None (rr_identity_hash (run_reuse r))) with (rr_identity_hash (run_reuse r)).
  assert (forall d, reuse_source env r (match d with NEVER => FRESH | _ => UNAVAILABLE end)
    (rr_identity (run_reuse r)) (rr_identity_hash (run_reuse r)) w = (Ok (None, None), w)) as Hsrc
    by by intros [].
  destruct (rr_identity (run_reuse r)) as [i|] eqn:Hid.
  - destruct (Hcur i Hid) as (Hh & Hdoc & Hv). rewrite (bind_run _ _ w (Some i) w).
    2:{ by rewrite (bind_run _ _ _ _ _ (ensure_run _ _ w Hdoc)). }
    rewrite (bind_run _ _ w tt w).
    2:{ rewrite (bind_run _ _ _ _ _ (Hv w)). apply ensure_run, bool_decide_eq_true_2, Hh. }
    rewrite (bind_run _ _ w tt w) by done. rewrite (bind_run _ _ _ _ _ (Hsrc _)).
    eexists. reflexivity.
  - rewrite (bind_run _ _ w None w) by done. do 2 rewrite (bind_run _ _ w tt w) by done.
    rewrite (bind_run _ _ _ _ _ (Hsrc _)). eexists. reflexivity.
Qed.

(** An order that is pending approval, approved or queued can always be cancelled:
    the row is written back with the cancelled status, the finish time and the reason,
    and nothing else in the database changes. *)
Theorem cancel_unleased env id reason w o :
  inv (db w) -> db_orders (db w) !! id = Some o -> wo_status o ∈ unleased_statuses ->
  let o' := finish_order WO_CANCELLED (env_clock env (reads w))
              (or_else reason "cancelled_by_operator") o in
  exists w', cancel_work_order env id reason w = (Ok o', w') /\
    db w' = (db w) <| db_orders := <[id := o']> (db_orders (db w)) |>.
Proof.
  intros Hi Ho Hst o'. unfold cancel_work_order.
  rewrite (bind_run _ _ _ _ _ (get_work_order_run id o w Ho)).
  set (w1 := w <| reads := S (reads w) |>).
  rewrite (bind_run _ _ w (env_clock env (reads w)) w1) by done.
  rewrite (bool_decide_eq_true_2 _ Hst). rewrite (keyed_orders _ (inv_keyed _ Hi) _ _ Ho).
  unfold transition_unleased_work_order. erewrite bind_run.
  2:{ apply (update_row_run (V := WorkOrder)) with (v := o); [exact Ho|by apply bool_decide_eq_true_2|].
      exact (checked_orders _ (inv_checked _ Hi) _ _ Ho). }
  erewrite bind_run by by apply ensure_run. eexists. split.
  - apply get_work_order_run. apply lookup_insert_eq.
  - reflexivity.
Qed.

(** An assigned or running order can be cancelled: under the invariant, with room
    in the revisions and a reuse identity that still matches the registry, the
    cancellation returns, the order is cancelled and the invariant holds. *)
Theorem cancel_active env id reason w o :
  inv (db w) -> db_orders (db w) !! id = Some o -> active_work_order (wo_status o) = true ->
  (forall l r, db_leases (db w) !! lease_id l = Some l -> lease_work_order_id l = id ->
     db_runs (db w) !! lease_execution_run_id l = Some r -> reuse_current env o r) ->
  headroom (db w) ->
  exists w' o', cancel_work_order env id reason w = (Ok o', w') /\ wo_status o' = WO_CANCELLED /\
    db_orders (db w') !! id = Some o' /\ inv (db w').
Proof.
  intros Hi Ho Hact Hcur Hh. destruct (leases_of_order _ (inv_leases _ Hi) _ _ Ho Hact) as (k & l & Hl & Hlo).
  rewrite <-(keyed_leases _ (inv_keyed _ Hi) _ _ Hl) in Hl.
  destruct (lease_rows _ l Hi Hl) as (r & o0 & x & Hls & _ & _).
  pose proof (leased_order _ _ _ _ Hls) as Ho0. rewrite Hlo, Ho in Ho0. injection Ho0 as <-.
  set (w1 := w <| reads := S (reads w) |>).
  set (why := or_else reason "cancelled_by_operator").
  destruct (cancellation_reuse env l r o why w1 Hls) as [reuse Hreuse].
  { apply (Hcur l); [done|done|]. apply Hls. }
  destruct (finish_active_lease_run env l (cancellation why) false false w1 reuse WO_CANCELLED)
    as (w' & r' & Hrun & (o1 & x1 & Hls1 & _ & Hdb) & Hi'); try done.
  { by apply headroom_room. }
  pose proof (leased_order _ _ _ _ Hls1) as Ho1. change (db w1) with (db w) in *.
  exists w', (finish_order WO_CANCELLED (env_clock env (reads w1))
                (completion_reason (cancellation why)) (settle_order RELEASED r' o1)).
  assert (db_orders (db w') !! id = Some (finish_order WO_CANCELLED (env_clock env (reads w1))
      (completion_reason (cancellation why)) (settle_order RELEASED r' o1))) as Hlk.
  { rewrite Hdb. unfold close_db. cbn [db_orders]. rewrite <-Hlo. apply lookup_insert_eq. }
  split; [|done]. unfold cancel_work_order.
  rewrite (bind_run _ _ _ _ _ (get_work_order_run id o w Ho)).
  rewrite (bind_run _ _ w (env_clock env (reads w)) w1) by done.
  rewrite bool_decide_eq_false_2.
  2:{ intros Hin. repeat (apply elem_of_cons in Hin as [Hin|Hin]; [by rewrite Hin in Hact|]).
      by apply not_elem_of_nil in Hin. }
  rewrite (bind_run _ _ w1 tt w1) by (apply ensure_run; destruct (wo_status o); done).
  rewrite (keyed_orders _ (inv_keyed _ Hi) _ _ Ho).
  rewrite (bind_run _ _ w1 (Some (snapshot_of l)) w1).
  2:{ unfold get_lease_snapshot_for_work_order, get_lease_for_work_order, from_db, mbind, M_bind, gets.
      rewrite <-Hlo. by rewrite find_by_order. }
  rewrite (bind_run _ _ w1 (snapshot_of l) w1) by done.
  rewrite (bind_run _ _ _ _ _ Hrun). by apply get_work_order_run.
Qed.
