(* ===== verification/Dispatch.v ===== *)
(** * What a checkout decides

    [checkout] of [server/execution/service.py] hands a queued order to the polling
    worker only when that worker may run it and, for a [CHEAPEST_CAPABLE] order, no
    capable worker ranks before it; every other outcome leaves the tables as they
    were when the queue was read. *)

From S2P Require Import Prelude Text Json Enums Catalog Evidence Registry Capabilities Models Routing Repository Service Steps Invariants Refinement System Progress.

(** The rows the routing evaluation is applied to. *)
Definition worker_rows (d : DB) : list (Worker * option RoutingProfile) :=
  omap (fun k => w ← db_workers d !! k; Some (w, db_profiles d !! k))
    (sort_strings (map_to_list (db_workers d)).*1).

Lemma worker_rows_elem d w p :
  keyed d -> (w, p) ∈ worker_rows d <->
  db_workers d !! w_worker_id w = Some w /\ p = db_profiles d !! w_worker_id w.
Proof.
  intros Hk. unfold worker_rows. rewrite list_elem_of_omap. split.
  - intros (k & _ & Hs). destruct (db_workers d !! k) as [w'|] eqn:Hw; [|done]. simpl in Hs.
    injection Hs as <- <-. by rewrite (keyed_workers _ Hk _ _ Hw).
  - intros [Hw ->]. exists (w_worker_id w). rewrite Hw. split; [|done].
    rewrite sort_strings_perm. apply list_elem_of_fmap. exists (w_worker_id w, w).
    split; [done|]. by apply elem_of_map_to_list.
Qed.

Section dispatch.
Context (env : Env).

Abbreviation runs_now w p request t :=
  (may_run w p request t (env_heartbeat_freshness_seconds env)
     (env_active_poll_freshness_seconds env)).

Definition evaluated (request : RoutingEvaluationRequest) (t : Z)
    (wp : Worker * option RoutingProfile) : RoutingEligibility :=
  evaluate_routing_candidate wp.1 wp.2 request t (env_heartbeat_freshness_seconds env)
    (env_active_poll_freshness_seconds env).

Lemma routing_eligibilities_run request t w :
  routing_eligibilities env request t w =
  (Ok (evaluated request t <$> worker_rows (db w)), w).
Proof. done. Qed.

Lemma evaluated_candidate request t wp c :
  el_candidate (evaluated request t wp) = Some c ->
  c = {| cnd_worker := wp.1; cnd_profile := wp.2 |} /\ runs_now wp.1 wp.2 request t.
Proof.
  intros Hc. unfold evaluated in *.
  destruct (evaluate_candidate_or_reasons wp.1 wp.2 request t
    (env_heartbeat_freshness_seconds env) (env_active_poll_freshness_seconds env))
    as [[Hs Hn]|[Hs _]]; rewrite Hs in Hc; simplify_eq.
  split; [done|]. by apply evaluate_reasons_nil.
Qed.

Lemma runs_now_candidate request t wp :
  runs_now wp.1 wp.2 request t ->
  el_candidate (evaluated request t wp) = Some {| cnd_worker := wp.1; cnd_profile := wp.2 |}.
Proof.
  intros Hm. unfold evaluated.
  destruct (evaluate_candidate_or_reasons wp.1 wp.2 request t
    (env_heartbeat_freshness_seconds env) (env_active_poll_freshness_seconds env))
    as [[Hs _]|[_ Hn]]; [done|]. by apply evaluate_reasons_nil in Hm.
Qed.

(** The eligible candidates are the registered workers that may run the order. *)
Lemma eligible_elem d request t c :
  keyed d ->
  c ∈ eligible_candidates (evaluated request t <$> worker_rows d) <->
  db_workers d !! w_worker_id (cnd_worker c) = Some (cnd_worker c) /\
  cnd_profile c = db_profiles d !! w_worker_id (cnd_worker c) /\
  runs_now (cnd_worker c) (cnd_profile c) request t.
Proof.
  intros Hk. unfold eligible_candidates. rewrite list_elem_of_omap. split.
  - intros (e & ([w p] & -> & Hin)%list_elem_of_fmap & He).
    apply evaluated_candidate in He as [-> Hm]. simpl in *.
    by apply worker_rows_elem in Hin as [? ->].
  - intros (Hw & Hp & Hm). exists (evaluated request t (cnd_worker c, cnd_profile c)). split.
    + apply list_elem_of_fmap. eexists. split; [done|]. by apply worker_rows_elem.
    + rewrite runs_now_candidate by done. by destruct c.
Qed.

(** ** Claiming *)



(** ** Being entitled to an order *)


Lemma eligible_rankable d order manifest t :
  keyed d -> checked d -> wos_routing_policy (wo_spec order) = CHEAPEST_CAPABLE ->
  Forall rankable
    (eligible_candidates (evaluated (routing_request order manifest) t <$> worker_rows d)).
Proof.
  intros Hk Hc Hp. apply Forall_forall. intros c (Hw & _ & Hm)%eligible_elem; [|done].
  split.
  - destruct (mr_profile _ _ _ _ _ _ Hm Hp) as (p & Hs & _). unfold has_profile. by rewrite Hs.
  - pose proof (checked_workers _ Hc _ _ Hw) as Hchk. simpl in Hchk.
    rewrite !andb_true_iff in Hchk. destruct Hchk as [[Hchk _] _]. by apply Z.leb_le in Hchk.
Qed.



Lemma own_eligibility d request t wk e :
  keyed d ->
  head (filter (fun e => w_worker_id (el_worker e) = wk) (evaluated request t <$> worker_rows d))
    = Some e ->
  exists x, db_workers d !! wk = Some x /\ e = evaluated request t (x, db_profiles d !! wk).
Proof.
  intros Hk He. apply head_Some_elem_of, list_elem_of_filter in He as [Hid He].
  apply list_elem_of_fmap in He as ([x p] & -> & Hin). apply worker_rows_elem in Hin as [Hx ->];
    [|done]. simpl in *. rewrite Hid in Hx. exists x. by rewrite Hid.
Qed.



(** The queue of a state. *)
Definition queue (d : DB) : list (WorkOrder * CommandManifest) :=
  omap (fun o =>
    if bool_decide (wo_status o = WO_QUEUED)
    then m ← db_manifests d !! wos_manifest_id (wo_spec o); Some (o, m)
    else None) (rows_in_order (db_orders d)).*2.


(** ** Before the queue is read *)

(** What a checkout does to the tables before it looks for work, at time [now]: the
    row of a manifest it trusts, and the end of a lease that has expired. *)
Inductive settles (now : Z) (d : DB) : DB -> Prop :=
| settles_manifest k definition :
    db_manifests d !! k = None -> definition ∈ env_manifests env ->
    settles now d (d <| db_manifests := <[k := manifest_row k definition]> (db_manifests d) |>)
| settles_lease l r o x profiles' :
    leased d l r o -> lease_expires_at l < now ->
    db_workers d !! lease_worker_id l = Some x -> 0 < w_active_run_count x ->
    returnable d l r profiles' ->
    settles now d (close_db d l r o x profiles' (time_out_run now) (requeue_order now)).

Lemma settles_step now d d' : settles now d d' -> step d d'.
Proof. intros [k definition Hk _|l r o x ps]; [by apply step_manifest|]. eauto using step_close, closing_requeue. Qed.

Definition settled (now : Z) (w w' : World) : Prop := inv (db w) -> rtc (settles now) (db w) (db w').

Lemma settled_keeps_inv now w w' : settled now w w' -> inv (db w) -> inv (db w').
Proof.
  intros H Hi. apply (steps_inv _ _ Hi).
  eapply (rtc_congruence id); [|by apply H]. intros ??. apply settles_step.
Qed.

#[local] Instance settled_refl now : Reflexive (settled now).
Proof. intros w _. apply rtc_refl. Qed.

#[local] Instance settled_trans now : Transitive (settled now).
Proof. intros w1 w2 w3 H1 H2 Hi. etrans; [by apply H1|]. apply H2. by eapply settled_keeps_inv. Qed.





End dispatch.

(** ** Work conservation *)

Lemma insert_row_run {K V} `{Table K V} (k : K) (v : V) w :
  (table (db w) : gmap K V) !! k = None -> row_check v = true ->
  (forall i x, table (db w) !! i = Some x -> row_clash v x = false) ->
  insert_row k v w = (Ok tt, w <| db := set_table (<[k := v]> (table (db w))) (db w) |>).
Proof.
  intros Hn Hc Hu. unfold insert_row. rewrite bool_decide_eq_true_2 by done. rewrite Hc. simpl.
  replace (forallb _ _) with true; [done|]. symmetry. apply forallb_forall.
  intros [i x] Hx%list_elem_of_In%elem_of_map_to_list. simpl. by rewrite (Hu i x).
Qed.

(** A profile can serve another reservation: two revisions are left. *)
Definition reservable (d : DB) : Prop :=
  forall k p, db_profiles d !! k = Some p -> rp_revision p <= MAX_ROUTING_REVISION - 2.

Lemma take_slot_check (w : Worker) : row_check w = true -> row_check (take_slot w) = true.
Proof.
  cbn [row_check workers_table]. unfold take_slot, w_max_concurrency. rsimpl.
  rewrite !andb_true_iff, !Z.leb_le. intros [[? ?] ?]. repeat split; try done; lia.
Qed.

Lemma assign_order_check t route (o : WorkOrder) :
  row_check o = true -> row_check (assign_order t (Some route) o) = true.
Proof.
  cbn [row_check orders_table]. unfold assign_order. rsimpl.
  rewrite !andb_true_iff, !Z.leb_le. intros [[[? ?] ?] ?]. repeat split; try done; lia.
Qed.

Lemma reserve_run worker order profile w :
  0 <= wos_required_quota_units (wo_spec order) ->
  (forall p, profile = Some p ->
     db_profiles (db w) !! w_worker_id worker = Some p /\ valid_profile p = true /\
     rp_enabled p = true /\ rp_revision p <= MAX_ROUTING_REVISION - 2 /\
     wos_required_quota_units (wo_spec order) <= rp_quota_remaining_units p) ->
  exists rv ps, reserve worker order profile w =
    (Ok rv, w <| db := (db w) <| db_profiles := ps |> |>).
Proof.
  intros Hu Hp. unfold reserve. destruct profile as [p|].
  - destruct (Hp p eq_refl) as (Hrow & Hv & He & Hrev & Hq).
    unfold reserve_routing_quota.
    set (u := wos_required_quota_units (wo_spec order)) in *.
    unfold valid_profile, within in Hv. rewrite !andb_true_iff, !Z.leb_le in Hv.
    unfold MAX_ROUTING_REVISION, MAX_ROUTING_INTEGER in *.
    assert (can_reserve_quota (rp_revision p) u p = true) as Hg.
    { unfold can_reserve_quota. rewrite He, Z.eqb_refl. simpl.
      rewrite !andb_true_iff, !Z.leb_le. unfold MAX_ROUTING_REVISION. destruct (u =? 0); lia. }
    assert (valid_profile (reserve_quota (rp_revision p) u p) = true) as Hc.
    { unfold valid_profile, within, reserve_quota. rsimpl.
      unfold MAX_ROUTING_INTEGER. rewrite !andb_true_iff, !Z.leb_le. destruct_and?. split_and!; first [assumption|lia]. }
    eexists _, _. erewrite bind_run.
    2: { rewrite (bind_run _ _ _ _ _ (@update_row_run _ _ _ _ profiles_table (w_worker_id worker)
             (can_reserve_quota (rp_revision p) u) (reserve_quota (rp_revision p) u) w p Hrow Hg Hc)).
         reflexivity. }
    reflexivity.
  - exists no_reservation, (db_profiles (db w)). by destruct w as [[] ?].
Qed.

Lemma create_active_run_run o wk t e xr w :
  let rid := fresh_id (db_runs (db w)) in
  (forall i r, db_runs (db w) !! i = Some r -> run_work_order_id r = wo_id o ->
     run_attempt_number r <> wo_attempt_count o) ->
  (forall i l, db_leases (db w) !! i = Some l ->
     lease_work_order_id l <> wo_id o /\ lease_execution_run_id l <> rid) ->
  exists w', create_active_run o wk t e (Some xr) w = (Ok (new_run rid o wk t e (Some xr)), w').
Proof.
  intros rid Hruns Hleases. set (r := new_run rid o wk t e (Some xr)).
  assert (forall i x, db_runs (db w) !! i = Some x -> row_clash r x = false) as Hu.
  { intros i x Hx. cbn [row_clash runs_table]. rewrite andb_false_iff, !Z.eqb_neq.
    change (run_work_order_id r) with (wo_id o).
    change (run_attempt_number r) with (wo_attempt_count o).
    destruct (decide (run_work_order_id x = wo_id o)) as [He|He]; [right|left; congruence].
    intros Hn. by apply (Hruns i x Hx He). }
  eexists. unfold create_active_run, next_id, from_db.
  rewrite (bind_run (gets _) _ w rid w) by done.
  rewrite (bind_run _ _ _ _ _ (@insert_row_run _ _ _ _ runs_table rid r w (fresh_id_None _) eq_refl Hu)).
  set (w1 := w <| db := _ |>).
  set (lid := fresh_id (db_leases (db w))). rewrite (bind_run (gets _) _ w1 lid w1) by done.
  set (l := new_lease lid o r wk t e).
  assert (forall i x, db_leases (db w1) !! i = Some x -> row_clash l x = false) as Hul.
  { intros i x Hx. destruct (Hleases i x Hx). cbn [row_clash leases_table].
    change (lease_work_order_id l) with (wo_id o). change (lease_execution_run_id l) with rid.
    rewrite orb_false_iff, !Z.eqb_neq. split; congruence. }
  rewrite (bind_run _ _ _ _ _ (@insert_row_run _ _ _ _ leases_table lid l w1
             (fresh_id_None (db_leases (db w))) eq_refl Hul)). done.
Qed.

(** A claim of a queued order by a worker with a free slot goes through. *)
Lemma claim_records_run worker order x profile count pin t expires w :
  inv (db w) -> db_workers (db w) !! w_worker_id worker = Some x -> can_take_slot x = true ->
  db_orders (db w) !! wo_id order = Some order -> wo_status order = WO_QUEUED ->
  (forall p, profile = Some p ->
     db_profiles (db w) !! w_worker_id worker = Some p /\ valid_profile p = true /\
     rp_enabled p = true /\ rp_revision p <= MAX_ROUTING_REVISION - 2 /\
     wos_required_quota_units (wo_spec order) <= rp_quota_remaining_units p) ->
  exists res w', claim_records worker order profile count pin t expires w = (Ok res, w') /\
    is_Some (co_run_id res) /\ co_reason res = None.
Proof.
  intros Hi Hx Hslot Ho Hq Hp. unfold claim_records.
  pose proof (checked_workers _ (inv_checked _ Hi) _ _ Hx) as Hxc.
  pose proof (checked_orders _ (inv_checked _ Hi) _ _ Ho) as Hoc.
  assert (0 <= wos_required_quota_units (wo_spec order)) as Hu.
  { simpl in Hoc. unfold within in Hoc. rewrite !andb_true_iff, !Z.leb_le in Hoc. tauto. }
  rewrite (bind_run _ _ _ _ _ (@update_row_run _ _ _ _ workers_table (w_worker_id worker) can_take_slot take_slot w x Hx
             Hslot (take_slot_check x Hxc))).
  rewrite (bind_run _ _ _ _ _ (ensure_run true _ _ eq_refl)).
  set (w1 := w <| db := _ |>).
  destruct (reserve_run worker order profile w1 Hu Hp) as (rv & ps & Hrv).
  rewrite (bind_run _ _ _ _ _ Hrv). set (w2 := w1 <| db := _ |>).
  set (route := order_route worker rv count pin t).
  assert (bool_decide (wo_status order = WO_QUEUED) = true) as Hqb by by apply bool_decide_eq_true_2.
  rewrite (bind_run _ _ _ _ _ (@update_row_run _ _ _ _ orders_table (wo_id order)
             (fun o => bool_decide (wo_status o = WO_QUEUED)) (assign_order t (Some route)) w2 order
             Ho Hqb (assign_order_check t route order Hoc))).
  rewrite (bind_run _ _ _ _ _ (ensure_run true _ _ eq_refl)).
  set (w3 := w2 <| db := _ |>). set (o' := assign_order t (Some route) order).
  rewrite (bind_run _ _ _ _ _ (get_work_order_run (wo_id order) o' w3 (lookup_insert_eq _ _ _))).
  destruct (create_active_run_run o' (w_worker_id worker) t expires
    (claimed_run_route order rv count pin t) w3) as [w' Hrun].
  - intros i r Hr He Hn. change (run_attempt_number r = wo_attempt_count order + 1) in Hn.
    destruct (attempts_order _ (inv_attempts _ Hi) i r Hr) as (o & Hor & Hle).
    change (wo_id o') with (wo_id order) in He. rewrite He in Hor. simplify_eq. lia.
  - intros i l Hl. destruct (leases_tie _ (inv_leases _ Hi) i l Hl) as (r & o & Hr & Hor & Htie).
    split.
    + intros He. change (wo_id o') with (wo_id order) in He. rewrite He in Hor. simplify_eq.
      pose proof (tie_order_active _ _ _ Htie) as Ha. by rewrite Hq in Ha.
    + intros He. rewrite He in Hr. change (db_runs (db w3)) with (db_runs (db w)) in Hr.
      by rewrite fresh_id_None in Hr.
  - rewrite (bind_run _ _ _ _ _ Hrun). eexists _, _. split; [reflexivity|]. by split; [eexists|].
Qed.

Section work_conservation.
Context (env : Env).

Lemma claim_routed_work_run worker order x profile count pin t w :
  inv (db w) -> db_workers (db w) !! w_worker_id worker = Some x -> can_take_slot x = true ->
  db_orders (db w) !! wo_id order = Some order -> wo_status order = WO_QUEUED ->
  (forall p, profile = Some p ->
     db_profiles (db w) !! w_worker_id worker = Some p /\ valid_profile p = true /\
     rp_enabled p = true /\ rp_revision p <= MAX_ROUTING_REVISION - 2 /\
     wos_required_quota_units (wo_spec order) <= rp_quota_remaining_units p) ->
  exists res w', claim_routed_work env worker order profile count pin t w = (Ok res, w') /\
    is_Some (co_run_id res) /\ co_reason res = None.
Proof.
  intros Hi Hx Hslot Ho Hq Hp. unfold claim_routed_work, handle, begin_nested.
  destruct (claim_records_run worker order x profile count pin t
    (t + seconds (env_lease_seconds env)) w) as (res & w' & -> & ?); eauto.
Qed.

Lemma runs_now_slot x p request t hs ps : may_run x p request t hs ps -> can_take_slot x = true.
Proof.
  intros Hm. unfold can_take_slot. rewrite bool_decide_eq_true_2 by apply Hm. simpl.
  apply Z.ltb_lt, Hm.
Qed.

(** A queued order the loop looks at is claimed or passed over; it is passed over
    only by a worker that may not run it or that a better one precedes. *)
Lemma try_order_run worker order manifest t e w :
  inv (db w) -> reservable (db w) ->
  db_orders (db w) !! wo_id order = Some order -> wo_status order = WO_QUEUED ->
  let evaluations := evaluated env (routing_request order manifest) t <$> worker_rows (db w) in
  head (filter (fun e => w_worker_id (el_worker e) = w_worker_id worker) evaluations) = Some e ->
  exists out w', try_order env worker order e (eligible_candidates evaluations) t w = (Ok out, w') /\
    match out with
    | inl _ => w' = w /\ (wos_routing_policy (wo_spec order) = FIRST_AVAILABLE ->
                           el_candidate e = None)
    | inr res => is_Some (co_run_id res) /\ co_reason res = None
    end.
Proof.
  intros Hi Hres Ho Hq evaluations He. pose proof (inv_keyed _ Hi) as Hk.
  destruct (own_eligibility env _ _ _ _ _ Hk He) as (x & Hx & ->). unfold try_order.
  destruct (wos_routing_policy (wo_spec order)) eqn:Hp.
  - destruct (el_candidate _) as [c|] eqn:Hc; [|by eexists _, _].
    apply evaluated_candidate in Hc as [_ Hm].
    edestruct (claim_routed_work_run worker order x None) as (res & w' & Hrun & Hr);
      eauto using runs_now_slot; [done|].
    rewrite (bind_run _ _ _ _ _ Hrun). by eexists _, _.
  - pose proof (eligible_rankable env (db w) order manifest t Hk (inv_checked _ Hi) Hp) as Hrk.
    pose proof (rank_ok (wos_required_quota_units (wo_spec order)) _ Hrk) as Hrank.
    fold evaluations in Hrank. rewrite Hrank.
    destruct (merge_sort _ _) as [|selected rest] eqn:Hms; [by eexists _, _|].
    rewrite (bind_run _ _ w (selected :: rest) w) by done.
    case_bool_decide as Hid; simpl; [|by eexists _, _].
    assert (selected ∈ eligible_candidates evaluations) as Hsel.
    { rewrite <-(merge_sort_Permutation (ranked_le (wos_required_quota_units (wo_spec order)))).
      rewrite Hms. left. }
    apply eligible_elem in Hsel as (Hw & Hpr & Hm); [|done]. rewrite Hid in Hw, Hpr.
    edestruct (claim_routed_work_run worker order (cnd_worker selected) (cnd_profile selected))
      as (res & w' & Hrun & Hr); eauto using runs_now_slot.
    + intros p Hcp. destruct (mr_profile _ _ _ _ _ _ Hm Hp) as (p' & Hp' & Hv & Hen & _ & Hqu).
      rewrite Hcp in Hp'. injection Hp' as <-. rewrite Hcp in Hpr. symmetry in Hpr.
      eauto 10.
    + rewrite (bind_run _ _ _ _ _ Hrun). by eexists _, _.
Qed.

(** The worker may run the order whenever the clock is read from now on. *)
Definition ready_for (w : World) (wk : string) (c : WorkOrder * CommandManifest) : Prop :=
  wos_routing_policy (wo_spec c.1) = FIRST_AVAILABLE /\
  exists x, db_workers (db w) !! wk = Some x /\ forall n, (reads w <= n)%nat ->
    may_run x (db_profiles (db w) !! wk) (routing_request c.1 c.2) (env_clock env n)
      (env_heartbeat_freshness_seconds env) (env_active_poll_freshness_seconds env).

Lemma own_eligibility_exists d request t x :
  keyed d -> db_workers d !! w_worker_id x = Some x ->
  exists e, head (filter (fun e => w_worker_id (el_worker e) = w_worker_id x)
               (evaluated env request t <$> worker_rows d)) = Some e.
Proof.
  intros Hk Hx. destruct (head _) as [e|] eqn:Hh; [eauto|]. apply head_None in Hh.
  assert (evaluated env request t (x, db_profiles d !! w_worker_id x) ∈
    filter (fun e => w_worker_id (el_worker e) = w_worker_id x)
      (evaluated env request t <$> worker_rows d)) as Hin.
  { apply list_elem_of_filter. split; [done|]. apply list_elem_of_fmap. eexists. split; [done|].
    by apply worker_rows_elem. }
  rewrite Hh in Hin. by apply not_elem_of_nil in Hin.
Qed.

Lemma checkout_loop_run worker x candidates mm rr w :
  inv (db w) -> reservable (db w) -> db_workers (db w) !! w_worker_id worker = Some x ->
  Forall (fun c => db_orders (db w) !! wo_id c.1 = Some c.1 /\ wo_status c.1 = WO_QUEUED)
    candidates ->
  exists res w', checkout_loop env worker candidates mm rr w = (Ok res, w') /\
    (Exists (ready_for w (w_worker_id worker)) candidates -> is_Some (co_run_id res)).
Proof.
  intros Hi Hres Hx Hall. pose proof (keyed_workers _ (inv_keyed _ Hi) _ _ Hx) as Hxid.
  revert mm rr w Hi Hres Hx Hall.
  induction candidates as [|[order manifest] rest IH]; intros mm rr w Hi Hres Hx Hall;
    cbn [checkout_loop].
  { eexists _, _. split; [done|]. intros Hex. by apply Exists_nil in Hex. }
  apply Forall_cons in Hall as [[Ho Hq] Hall]. simpl in Ho, Hq.
  set (t := env_clock env (reads w)). set (w1 := w <| reads := S (reads w) |>).
  rewrite (bind_run (now env) _ w t w1) by done.
  rewrite (bind_run _ _ _ _ _ (routing_eligibilities_run env (routing_request order manifest) t w1)).
  destruct (own_eligibility_exists (db w1) (routing_request order manifest) t x) as [e He];
    [apply Hi|by rewrite Hxid|]. rewrite Hxid in He.
  rewrite (bind_run _ _ w1 e w1) by (by rewrite He).
  destruct (try_order_run worker order manifest t e w1) as (out & w2 & Hrun & Hout); [done..|].
  rewrite (bind_run _ _ _ _ _ Hrun).
  assert (forall mm rr, w2 = w1 -> (wos_routing_policy (wo_spec order) = FIRST_AVAILABLE ->
      el_candidate e = None) ->
    exists res w', checkout_loop env worker rest mm rr w2 = (Ok res, w') /\
      (Exists (ready_for w (w_worker_id worker)) ((order, manifest) :: rest) ->
       is_Some (co_run_id res))) as Hnext.
  { intros mm' rr' -> Hno. destruct (IH mm' rr' w1) as (res & w' & Hr & Hex); [done..|].
    exists res, w'. split; [done|]. intros [[Hfa (x' & Hx' & Hm)]|Hrest]%Exists_cons.
    - exfalso. simplify_eq. destruct (own_eligibility env _ _ _ _ _ (inv_keyed _ Hi) He)
        as (y & Hy & ->). change (db w1) with (db w) in Hy. simplify_eq. specialize (Hno Hfa).
      rewrite runs_now_candidate in Hno; [done|]. apply (Hm (reads w)). lia.
    - apply Hex. eapply Exists_impl; [exact Hrest|]. intros c [? (y & ? & Hm)].
      split; [done|]. exists y. split; [done|]. intros n Hn. apply Hm. simpl in Hn. lia. }
  destruct out as [[reason|]|result]; [by destruct Hout; apply Hnext..|].
  destruct Hout as [Hsome Hnone]. rewrite bool_decide_eq_false_2 by congruence.
  by eexists _, _.
Qed.

(** C8. Work conservation: while profiles have two revisions left, the search for work
    always returns, and if some queued first-available order can be run by the worker
    whenever the clock is read, the worker is assigned an order. *)
Theorem checkout_work_conserving worker x w :
  inv (db w) -> reservable (db w) -> db_workers (db w) !! w_worker_id worker = Some x ->
  exists res w', checkout_eligible_work env worker w = (Ok res, w') /\
    (Exists (ready_for w (w_worker_id worker)) (queue (db w)) -> is_Some (co_run_id res)).
Proof.
  intros Hi Hres Hx. unfold checkout_eligible_work, list_queued_work_orders, from_db.
  rewrite (bind_run (gets _) _ w (queue (db w)) w) by done.
  apply (checkout_loop_run worker x); [done..|]. apply Forall_forall.
  intros [o m] Hin. unfold queue in Hin. apply list_elem_of_omap in Hin as (o' & Ho' & Hm).
  case_bool_decide as Hq; [|done]. destruct (db_manifests (db w) !! _); [|done].
  injection Hm as -> _. apply list_elem_of_fmap in Ho' as ([k y] & -> & Hy).
  apply rows_in_order_elem in Hy. simpl in *.
  by rewrite (keyed_orders _ (inv_keyed _ Hi) _ _ Hy).
Qed.
End work_conservation.
