(* ===== verification/Outcomes.v ===== *)
(** * What the answers of the service mean

    For the methods a worker or an operator calls, what a successful answer implies
    about the request and the records: ownership of a completed or renewed run, the
    source behind reused evidence, the shape of a created order, the revision of a
    changed profile. *)

From S2P Require Import Prelude Text Json Enums Catalog Evidence Documents Registry Capabilities Models Routing Repository Service Steps Invariants Refinement System Progress.

(** ** Ownership *)

(** The worker holds a lease on the run that is still live at time [t]. *)
Definition owns_live (d : DB) (rid : Z) (wk : string) (t : Z) : Prop :=
  exists l, db_leases d !! lease_id l = Some l /\ lease_execution_run_id l = rid /\
    lease_worker_id l = wk /\ t <= lease_expires_at l.

Lemma snapshot_for_run rid w s w' :
  keyed (db w) -> get_lease_snapshot_for_run rid w = (Ok (Some s), w') ->
  w' = w /\ exists l, db_leases (db w) !! lease_id l = Some l /\ lease_execution_run_id l = rid /\
    snapshot_of l = s.
Proof.
  intros Hk Hrun. unfold get_lease_snapshot_for_run, get_lease_for_run, from_db in Hrun.
  apply bind_ok in Hrun as (o & w1 & [-> ->]%gets_ok & [Hs ->]%ret_ok). split; [done|].
  symmetry in Hs. apply fmap_Some in Hs as (l & Hf & ->).
  destruct (find_lease _ _ _ Hk Hf) as [Hl He]. apply Z.eqb_eq in He. eauto.
Qed.

Lemma validate_completion_evidence_ok s c w u w' :
  validate_completion_evidence s c w = (Ok u, w') -> w' = w.
Proof.
  unfold validate_completion_evidence. destruct (cpl_evidence_metadata c); intros Hrun;
    inv_run Hrun; by read_facts.
Qed.

Lemma handle_nested_ok {A} (m : exec A) h w a w' :
  handle (begin_nested m) h w = (Ok a, w') ->
  m w = (Ok a, w') \/
  exists e k w1, m w = (Err e, w1) /\ h e = Some k /\ k (w1 <| db := db w |>) = (Ok a, w').
Proof.
  unfold handle, begin_nested. destruct (m w) as [[x|e] w1]; [by left|].
  destruct (h e) as [k|] eqn:Hk; [|done]. right. eauto 10.
Qed.

Section outcomes.
Context (env : Env).

Lemma validate_reuse_identity_ok order i w u w' :
  validate_reuse_identity env order i w = (Ok u, w') -> w' = w.
Proof.
  unfold validate_reuse_identity, lift_value. intros Hrun. inv_run Hrun.
  destruct (compute_result_contract_hash _ _ _ _); by inv_run Hr.
Qed.

Lemma checked_decision_ok policy c w d w' :
  checked_decision policy c w = (Ok d, w') -> w' = w /\ completion_decision policy c = Some d.
Proof.
  unfold checked_decision. intros Hrun. inv_run Hrun. split; [|];
    destruct (completion_decision policy c) as [[]|]; inv_run Hr; simplify_eq; done.
Qed.

Lemma reuse_source_ok run decision i h w src w' :
  reuse_source env run decision i h w = (Ok src, w') ->
  w' = w /\
  if bool_decide (decision = REUSED) then
    exists cand, rr_candidate (run_reuse run) = Some cand /\
      i = Some (cand_reuse_identity cand) /\ h = Some (cand_reuse_identity_hash cand) /\
      src = (Some (cand_source_run_id cand), Some (cand_expected_source_evidence_fingerprint cand))
  else src = (None, None).
Proof.
  unfold reuse_source. case_bool_decide; intros Hrun.
  - destruct (rr_candidate (run_reuse run)) as [cand|], i as [i|]; try by inv_run Hrun.
    apply bind_ok in Hrun as (u & w1 & [_ ->]%ensure_ok & Hrun).
    inv_run Hrun. split; [done|]. apply andb_true_iff in Hb as [H1 H2].
    apply bool_decide_eq_true in H1, H2. exists cand. by subst.
  - inv_run Hrun. done.
Qed.

Lemma check_provenance_ok c d h l src w u w' :
  check_provenance c d h l src w = (Ok u, w') -> w' = w.
Proof.
  unfold check_provenance. intros Hrun. destruct (cpl_evidence_metadata c) as [e|]; [|by inv_run Hrun].
  destruct (negb l); [|by inv_run Hrun]. inv_run Hrun.
  assert (w0 = w) as ->.
  { destruct (ev_reuse_provenance e) as [p|]; [|by inv_run Hr].
    destruct (bool_decide (prov_decision p = _)); by inv_run Hr. }
  destruct (cpl_evidence_retention_expires_at c) as [[]|]; by inv_run Hrun.
Qed.

(** The reuse columns a completion writes, and their source. *)
Lemma reuse_completion_values_ok s c w reuse w' :
  reuse_completion_values env s c w = (Ok reuse, w') ->
  w' = w /\ rr_candidate reuse = None /\
  (rr_decision reuse = REUSED ->
   exists run cand, db_runs (db w) !! snap_execution_run_id s = Some run /\
     rr_candidate (run_reuse run) = Some cand /\
     rr_identity reuse = Some (cand_reuse_identity cand) /\
     rr_identity_hash reuse = Some (cand_reuse_identity_hash cand) /\
     rr_reused_from_run_id reuse = Some (cand_source_run_id cand) /\
     rr_source_evidence_fingerprint reuse =
       Some (cand_expected_source_evidence_fingerprint cand)) /\
  (rr_decision reuse <> REUSED -> rr_reused_from_run_id reuse = None).
Proof.
  unfold reuse_completion_values. intros Hrun.
  apply bind_ok in Hrun as (found & w1 & Hf & Hrun). apply get_row_ok in Hf as [Hf ->].
  apply bind_ok in Hrun as (run & w1 & [-> ->]%require_ok & Hrun).
  apply bind_ok in Hrun as (order & w1 & [_ ->]%get_work_order_ok & Hrun).
  apply bind_ok in Hrun as (d & w1 & [-> _]%checked_decision_ok & Hrun).
  apply bind_ok in Hrun as (i & w1 & Hi & Hrun).
  assert (w1 = w) as ->.
  { destruct (cpl_reuse_identity c), (rr_identity (run_reuse run)); by inv_run Hi. }
  apply bind_ok in Hrun as (u1 & w1 & Hid & Hrun).
  assert (w1 = w) as ->.
  { destruct i; inv_run Hid;
      [by apply validate_reuse_identity_ok in Hr|done]. }
  apply bind_ok in Hrun as (u2 & w1 & [_ ->]%ensure_ok & Hrun).
  apply bind_ok in Hrun as (src & w1 & [-> Hsrc]%reuse_source_ok & Hrun).
  apply bind_ok in Hrun as (u3 & w1 & ->%check_provenance_ok & [-> ->]%ret_ok). simpl.
  split; [done|]. split; [done|]. case_bool_decide as Hd.
  - split; [|done]. intros _. destruct Hsrc as (cand & Hc & -> & Hh & ->).
    symmetry in Hf. change (db_runs (db w) !! snap_execution_run_id s = Some run) in Hf.
    exists run, cand. done.
  - split; [done|]. by rewrite Hsrc.
Qed.

Lemma finish_active_lease_ok s c live own w r w' :
  keyed (db w) -> finish_active_lease env s c live own w = (Ok r, w') ->
  exists reuse t l, reuse_completion_values env s c w = (Ok reuse, w) /\
    validate_completion_evidence s c w = (Ok tt, w) /\
    t = env_clock env (reads w) /\ db_leases (db w) !! lease_id l = Some l /\ snapshot_of l = s /\
    (live = true -> t <= lease_expires_at l) /\ run_reuse r = reuse /\ run_status r = cpl_status c.
Proof.
  intros Hk. unfold finish_active_lease. intros Hrun.
  apply bind_ok in Hrun as ([] & w1 & Hev & Hrun).
  pose proof (validate_completion_evidence_ok _ _ _ _ _ Hev) as ->.
  apply bind_ok in Hrun as (reuse & w1 & Hre & Hrun).
  pose proof (reuse_completion_values_ok _ _ _ _ _ Hre) as [-> _].
  apply bind_ok in Hrun as (t & w1 & Ht & Hrun). injection Ht as <- <-.
  apply bind_ok in Hrun as (target & w1 & [_ ->]%require_ok & Hrun).
  apply bind_ok in Hrun as (u & w2 & Hfin%begin_nested_ok & Hrun).
  apply bind_ok in Hrun as (found & w3 & [-> ->]%get_row_ok & [Hr ->]%require_ok).
  unfold finish_records in Hfin. apply bind_ok in Hfin as (consumed & w3 & Hcon & Hfin).
  apply bind_ok in Hfin as (u1 & w4 & [-> ->]%ensure_ok & Hfin). cbn [db] in *.
  apply consume_lease_ok in Hcon as (l & Hl & Hs & Hlive & _ & ->); [|done].
  inv_run Hfin. apply andb_true_iff in Hb as [Hb _]. apply andb_true_iff in Hb as [Hb _].
  apply andb_true_iff in Hb as [_ ->].
  apply update_row_ok in Hr1 as [[? _]|[_ (r1 & Hr1' & _ & _ & ->)]]; [done|].
  assert (db_runs (db w4) = <[snap_execution_run_id (snapshot_of l) :=
    finished_run c (completion_reason c) reuse (env_clock env (reads w)) r1]> (db_runs (db w0))) as Hruns.
  { apply update_row_ok in Hr2 as [[_ ->]|[_ (o & _ & _ & _ & ->)]];
      apply update_row_ok in Hr3 as [[_ ->]|[_ (x & _ & _ & _ & ->)]]; reflexivity. }
  change (db_runs (db w4) !! snap_execution_run_id (snapshot_of l) = Some r) in Hr.
  rewrite Hruns, lookup_insert_eq in Hr. injection Hr as <-.
  exists reuse, (env_clock env (reads w)), l. done.
Qed.

(** C10. Only the holder of a live lease completes a run; the run ends in the requested
    terminal status, its pending candidate is dropped, and it is recorded as reusing
    evidence only of the candidate resolved for it, with that candidate's identity,
    source run and fingerprint. *)
Theorem complete_run_ok rid wk c w r w' :
  inv (db w) -> complete_run env rid wk c w = (Ok r, w') ->
  owns_live (db w) rid wk (env_clock env (reads w)) /\
  run_status r = cpl_status c /\ is_terminal_run (cpl_status c) = true /\
  rr_candidate (run_reuse r) = None /\
  (rr_decision (run_reuse r) = REUSED ->
   exists run cand, db_runs (db w) !! rid = Some run /\
     rr_candidate (run_reuse run) = Some cand /\
     rr_identity (run_reuse r) = Some (cand_reuse_identity cand) /\
     rr_identity_hash (run_reuse r) = Some (cand_reuse_identity_hash cand) /\
     rr_reused_from_run_id (run_reuse r) = Some (cand_source_run_id cand) /\
     rr_source_evidence_fingerprint (run_reuse r) =
       Some (cand_expected_source_evidence_fingerprint cand)) /\
  (rr_decision (run_reuse r) <> REUSED -> rr_reused_from_run_id (run_reuse r) = None).
Proof.
  intros Hi Hrun. unfold complete_run in Hrun.
  apply bind_ok in Hrun as (u1 & w1 & [Hterm ->]%ensure_ok & Hrun).
  apply bind_ok in Hrun as (found & w1 & [-> ->]%get_row_ok & Hrun).
  apply bind_ok in Hrun as (r0 & w1 & [_ ->]%require_ok & Hrun).
  apply bind_ok in Hrun as (lease & w1 & Hl & Hrun).
  apply bind_ok in Hrun as (s & w2 & [-> ->]%require_ok & Hrun).
  apply bind_ok in Hrun as (u2 & w2 & [Hb ->]%ensure_ok & Hrun). apply bool_decide_eq_true in Hb.
  apply snapshot_for_run in Hl as (-> & l & Hl & Hlr & Hs); [|apply Hi].
  apply finish_active_lease_ok in Hrun as (reuse & t & l' & Hre & _ & -> & Hl' & Hs' & Hlive & Hrr & Hst);
    [|apply Hi].
  assert (l' = l) as ->.
  { assert (lease_id l' = lease_id l) by (by injection (eq_trans Hs' (eq_sym Hs))). congruence. }
  apply reuse_completion_values_ok in Hre as (_ & Hcand & Hsrc & Hno). rewrite Hrr.
  split; [exists l; subst s; auto|]. split; [done|]. split; [done|]. split; [done|].
  split; [|done]. intros Hd. destruct (Hsrc Hd) as (run & cand & Hrow & Hrest).
  exists run, cand. split; [|done]. subst s. by rewrite <-Hlr.
Qed.

(** Only the holder of a live lease renews it. *)
Theorem heartbeat_run_ok rid wk w r w' :
  inv (db w) -> heartbeat_run env rid wk w = (Ok r, w') ->
  owns_live (db w) rid wk (env_clock env (reads w)).
Proof.
  intros Hi Hrun. unfold heartbeat_run in Hrun.
  apply bind_ok in Hrun as (found & w1 & [-> ->]%get_row_ok & Hrun).
  apply bind_ok in Hrun as (r0 & w1 & [_ ->]%require_ok & Hrun).
  apply bind_ok in Hrun as (lease & w1 & Hl & Hrun).
  apply bind_ok in Hrun as (s & w2 & [-> ->]%require_ok & Hrun).
  apply bind_ok in Hrun as (u2 & w2 & [Hb ->]%ensure_ok & Hrun). apply bool_decide_eq_true in Hb.
  apply snapshot_for_run in Hl as (-> & l & Hl & Hlr & Hs); [|apply Hi].
  apply bind_ok in Hrun as (t & w1 & Ht & Hrun). injection Ht as <- <-.
  apply bind_ok in Hrun as (u & w2 & Hhb%begin_nested_ok & _).
  unfold heartbeat_records in Hhb. apply bind_ok in Hhb as (renewed & w3 & Hren & Hhb).
  apply bind_ok in Hhb as (u3 & w4 & [-> _]%ensure_ok & _).
  unfold renew_owned_live_lease, get_lease_for_run, from_db in Hren.
  apply bind_ok in Hren as (o & w5 & [-> ->]%gets_ok & Hren).
  rsimpl in Hren. rewrite <-Hlr in Hren. rewrite (find_by_run (db w) l) in Hren by done.
  apply update_row_ok in Hren as [[? _]|[_ (l' & Hl' & Hg & _)]]; [done|].
  change (db_leases (db w) !! lease_id l = Some l') in Hl'. simplify_eq.
  rewrite !andb_true_iff, bool_decide_eq_true, Z.leb_le in Hg. exists l. naive_solver.
Qed.
(** ** Evidence reuse *)

(** What makes run [src] a source of evidence for another run of the same worker. *)
Record trustworthy_source (src : Run) (order : WorkOrder) (cand : ReuseCandidate)
    (identity : EvidenceReuseIdentity) (t : Z) : Prop := {
  ts_id : cand_source_run_id cand = run_id src;
  ts_worker : cand_expected_source_worker_id cand = run_worker_id src;
  ts_run : run_status src = RUN_SUCCEEDED;
  ts_order : wo_status order = WO_SUCCEEDED;
  ts_fresh : rr_decision (run_reuse src) = FRESH /\ rr_reused_from_run_id (run_reuse src) = None;
  ts_identity : rr_identity (run_reuse src) = Some identity /\ cand_reuse_identity cand = identity;
  ts_hash : rr_identity_hash (run_reuse src) = Some (compute_reuse_identity_hash identity) /\
            cand_reuse_identity_hash cand = compute_reuse_identity_hash identity;
  ts_retention : exists until, rr_retention_expires_at (run_reuse src) = Some until /\ t < until /\
    cand_retention_expires_at cand = until /\
    Forall (fun a => art_retention_expires_at a = until) (res_artifact_metadata (run_result src));
  ts_evidence : exists e, res_evidence_metadata (run_result src) = Some e /\
    valid_evidence (env_isoformat env) e = true /\ ev_fingerprint e = cand_expected_source_evidence_fingerprint cand /\
    ev_run_id e = run_id src /\ ev_terminal_status e = "succeeded" /\
    ev_artifacts e = res_artifact_metadata (run_result src);
}.

Lemma validated_candidate_ok run order expected t w cand w' :
  validated_reuse_candidate env run order expected t w = (Ok (Some cand), w') ->
  w' = w /\ trustworthy_source run order cand expected t.
Proof.
  unfold validated_reuse_candidate.
  destruct (res_evidence_metadata (run_result run)) as [e|] eqn:He; [|done].
  destruct (rr_identity (run_reuse run)) as [stored|] eqn:Hst; [|done].
  destruct (rr_retention_expires_at (run_reuse run)) as [until|] eqn:Hr; [|done].
  destruct (run_finished_at run); [|done].
  destruct (valid_evidence _ e && valid_identity_document stored) eqn:Hv; [|done].
  intros Hrun. apply bind_ok in Hrun as (wk & w1 & [-> ->]%get_row_ok & [Hc ->]%ret_ok).
  split; [done|]. destruct (forallb _ _ && acceptable_source _ _ _ _ _ _ _ _) eqn:Ha; [|done].
  apply andb_true_iff in Ha as [_ Ha].
  destruct (valid_candidate_document _); [|done]. injection Hc as ->.
  unfold acceptable_source in Ha. destruct (table (db w) !! run_worker_id run); [|done].
  destruct (ev_reuse_provenance e); [|done].
  rewrite !andb_true_iff in Ha. destruct_and?.
  repeat match goal with
  | H : bool_decide _ = true |- _ => apply bool_decide_eq_true in H
  | H : (_ <? _) = true |- _ => apply Z.ltb_lt in H
  | H : (_ =? _) = true |- _ => apply Z.eqb_eq in H
  | H : negb (isSome ?o) = true |- _ => destruct o eqn:?; [done|clear H]
  end. subst expected. split; try done.
  - exists until. split; [done|]. split; [done|]. split; [done|]. apply Forall_forall.
    intros a Hin. match goal with H : forallb _ _ = true |- _ => rewrite forallb_forall in H end.
    apply Z.eqb_eq. match goal with H : forall x, _ -> _ = true |- _ => apply H end.
    by apply list_elem_of_In.
  - exists e. apply andb_true_iff in Hv as [Hv _]. split_and!; done.
Qed.
Lemma first_candidate_ok sources expected t w cand w' :
  first_candidate env sources expected t w = (Ok cand, w') ->
  w' = w /\ forall c, cand = Some c -> exists run order, (run, order) ∈ sources /\
    trustworthy_source run order c expected t.
Proof.
  induction sources as [|[run order] rest IH]; simpl; intros Hrun; [by inv_run Hrun|].
  apply bind_ok in Hrun as ([c|] & w1 & Hc & Hrun).
  - inv_run Hrun. apply validated_candidate_ok in Hc as [-> Hc]. split; [done|].
    intros c' [= <-]. exists run, order. by split; [left|].
  - assert (w1 = w) as ->.
    { unfold validated_reuse_candidate in Hc. repeat case_match; inv_run Hc; try done;
        by apply get_row_ok in Hr as [_ ->]. }
    destruct (IH Hrun) as [-> Hsome]. split; [done|]. intros c Hcs.
    destruct (Hsome c Hcs) as (r & o & Hin & ?). exists r, o. by split; [right|].
Qed.

Lemma exact_candidate_elem order wk h rid w run o :
  (run, o) ∈ take MAX_EXACT_REUSE_CANDIDATES
    (omap (fun r => o ← db_orders (db w) !! run_work_order_id r;
                    if exact_reuse_match order wk h rid r o then Some (r, o) else None)
      (reverse (rows_in_order (db_runs (db w))).*2)) ->
  keyed (db w) ->
  db_runs (db w) !! run_id run = Some run /\
  db_orders (db w) !! run_work_order_id run = Some o /\
  run_worker_id run = wk /\ run_id run <> rid.
Proof.
  intros Hin Hk. apply elem_of_take in Hin as (i & Hin & _).
  apply list_elem_of_lookup_2, list_elem_of_omap in Hin as (r & Hr & Hm).
  apply elem_of_reverse, list_elem_of_fmap in Hr as ([k r'] & -> & Hr).
  apply rows_in_order_elem in Hr. simpl in *.
  destruct (db_orders (db w) !! run_work_order_id r') as [o'|] eqn:Ho; [|done]. simpl in Hm.
  destruct (exact_reuse_match order wk h rid r' o') eqn:He; [|done]. injection Hm as -> ->.
  unfold exact_reuse_match in He. rewrite !andb_true_iff in He. destruct_and?.
  match goal with H : negb (_ =? _) = true |- _ => apply negb_true_iff, Z.eqb_neq in H end.
  repeat match goal with H : bool_decide _ = true |- _ => apply bool_decide_eq_true in H end.
  pose proof (keyed_runs _ Hk _ _ Hr) as Hid. split_and!; congruence.
Qed.

(** C12. Reuse resolution: only the holder of a live lease gets an answer; the candidate
    stored for the run is the one returned; and a candidate is another run of the same
    worker that succeeded with fresh evidence of the same identity, complete, and not
    past its stored retention. *)
Theorem resolve_reuse_candidate_ok rid wk identity hash w res w' :
  inv (db w) -> resolve_reuse_candidate env rid wk identity hash w = (Ok res, w') ->
  let t := env_clock env (reads w) in
  owns_live (db w) rid wk t /\
  (exists run, db_runs (db w') !! rid = Some run /\ rr_candidate (run_reuse run) = rc_candidate res /\
     rr_identity (run_reuse run) = Some identity) /\
  match rc_candidate res with
  | Some cand =>
      rc_decision res = CANDIDATE_AVAILABLE /\
      exists src order, db_runs (db w) !! run_id src = Some src /\
        db_orders (db w) !! run_work_order_id src = Some order /\
        run_worker_id src = wk /\ run_id src <> rid /\
        trustworthy_source src order cand identity t
  | None => rc_decision res = UNAVAILABLE
  end.
Proof.
  intros Hi Hrun t. unfold resolve_reuse_candidate, get_lease_for_run, from_db in Hrun.
  apply bind_ok in Hrun as (u & w1 & [_ ->]%ensure_ok & Hrun).
  apply bind_ok in Hrun as (found & w1 & [Hf ->]%gets_ok & Hrun).
  apply bind_ok in Hrun as (t' & w1 & Ht & Hrun). injection Ht as <- <-.
  apply bind_ok in Hrun as (l & w1 & [Hl ->]%require_ok & Hrun).
  apply bind_ok in Hrun as (u1 & w1 & [Hb ->]%ensure_ok & Hrun).
  rewrite andb_true_iff, bool_decide_eq_true, Z.leb_le in Hb. destruct Hb as [Hwk Hlive].
  rewrite Hf in Hl. destruct (find_lease _ _ _ (inv_keyed _ Hi) Hl) as [Hrow He].
  apply Z.eqb_eq in He. split; [exists l; auto|].
  apply bind_ok in Hrun as (order & w1 & [_ ->]%get_work_order_ok & Hrun).
  apply bind_ok in Hrun as (u2 & w1 & [_ ->]%ensure_ok & Hrun).
  apply bind_ok in Hrun as (u3 & w1 & ->%validate_reuse_identity_ok & Hrun).
  unfold list_exact_reuse_candidates, from_db in Hrun.
  apply bind_ok in Hrun as (sources & w1 & [-> ->]%gets_ok & Hrun).
  apply bind_ok in Hrun as (selected & w1 & Hsel & Hrun).
  apply first_candidate_ok in Hsel as [-> Hsel].
  apply bind_ok in Hrun as (updated & w1 & Hup & Hrun).
  apply bind_ok in Hrun as (u4 & w2 & [-> ->]%ensure_ok & [-> ->]%ret_ok). cbn [rc_candidate rc_decision].
  apply update_row_ok in Hup as [[? _]|[_ (r & Hr & _ & _ & ->)]]; [done|]. split.
  - eexists. split; [apply lookup_insert_eq|done].
  - destruct selected as [cand|]; [|done]. split; [done|].
    destruct (Hsel cand eq_refl) as (src & o & Hin & Hts).
    apply exact_candidate_elem in Hin as (? & ? & ? & ?); [|apply Hi]. exists src, o. done.
Qed.
(** ** Creation and approval *)

(** The row of a trusted manifest carries its name, version and digest. *)
Definition names_manifest (m : CommandManifest) (definition : TrustedManifest) : Prop :=
  cm_name m = tm_name definition /\ cm_version m = tm_version definition /\
  cm_digest m = tm_digest definition.

Lemma matching_row definition d m :
  find_row (fun m => bool_decide (cm_name m = tm_name definition)
                     && bool_decide (cm_version m = tm_version definition)) (db_manifests d)
    = Some m ->
  matches_trusted_manifest m definition = true -> names_manifest m definition.
Proof.
  intros (k & _ & Hn)%find_row_Some Hm. unfold matches_trusted_manifest in Hm.
  rewrite !andb_true_iff, !bool_decide_eq_true in *. unfold names_manifest. naive_solver.
Qed.

Lemma ensure_manifest_ok definition w m w' :
  ensure_manifest definition w = (Ok m, w') ->
  names_manifest m definition /\ db_orders (db w') = db_orders (db w) /\
  db_workers (db w') = db_workers (db w).
Proof.
  unfold ensure_manifest, Repository.get_manifest, from_db. intros Hrun.
  apply bind_ok in Hrun as (o & w1 & [-> ->]%gets_ok & Hrun).
  destruct (find_row _ _) as [m0|] eqn:Hf.
  - destruct (matches_trusted_manifest m0 definition) eqn:Hd; inv_run Hrun.
    eauto using matching_row.
  - apply handle_nested_ok in Hrun as [Hins|(e & k & w1 & _ & He & Hrun)].
    + unfold next_id, from_db in Hins. inv_run Hins.
      apply insert_row_ok in Hr as (_ & _ & _ & ->). done.
    + destruct e; try done. injection He as <-.
      unfold reread_manifest, Repository.get_manifest, from_db in Hrun.
      apply bind_ok in Hrun as (o & w2 & [-> ->]%gets_ok & Hrun).
      destruct (find_row _ _) as [m0|] eqn:Hf'; [|done].
      destruct (matches_trusted_manifest m0 definition) eqn:Hd; inv_run Hrun.
      eauto using matching_row.
Qed.

(** What holds of a draft the service accepts. *)
Record accepted (d : DB) (draft : WorkOrderDraft) (s : WorkOrderSpec) : Prop := {
  ac_sha : SHA_PATTERN (wd_commit_sha draft) = true /\ wos_commit_sha s = lower (wd_commit_sha draft);
  ac_read_only : wd_repository_write_allowed draft = false /\ wos_repository_write_allowed s = false;
  ac_listed : exists r, r ∈ env_repositories env /\
    repo_full_name r = wos_repository_full_name s /\
    {| ref_name := wos_manifest_name s; ref_version := wos_manifest_version s |} ∈ repo_manifests r;
  ac_manifest : exists m, get_trusted_manifest (env_manifests env) (wd_manifest_name draft)
      (wd_manifest_version draft) = Some m /\ wos_manifest_digest s = tm_digest m /\
    forall k, k ∈ (wd_manifest_parameters draft).*1 -> k ∈ tm_allowed_parameters m;
  ac_pin : forall p, wd_preferred_executor draft = Some p -> is_Some (db_workers d !! p);
  ac_units : 0 <= wos_required_quota_units s <= MAX_ROUTING_INTEGER;
}.

(** A created order is a new row pending approval, never attempted, whose draft was
    accepted: an exact commit, read-only, a repository and manifest listed together in
    the catalog, the digest of the trusted manifest, only parameters the manifest
    allows, a registered preferred executor, and bounded quota units. *)
Theorem create_work_order_ok draft w o w' :
  create_work_order env draft w = (Ok o, w') ->
  db_orders (db w) !! wo_id o = None /\
  db_orders (db w') = <[wo_id o := o]> (db_orders (db w)) /\
  wo_status o = WO_PENDING_APPROVAL /\ wo_attempt_count o = 0 /\ accepted (db w) draft (wo_spec o).
Proof.
  unfold create_work_order. intros Hrun.
  apply bind_ok in Hrun as (u & w1 & Hv & Hrun). unfold validate_work_order_draft in Hv. inv_run Hv.
  apply bind_ok in Hrun as (u1 & w1 & [_ ->]%ensure_ok & Hrun).
  apply bind_ok in Hrun as (m & w1 & [Hm ->]%require_ok & Hrun).
  apply bind_ok in Hrun as (b & w1 & Hal & Hrun).
  apply bind_ok in Hrun as (u2 & w2 & [-> ->]%ensure_ok & Hrun).
  unfold lift_value in Hal. destruct (repository_allows_manifest _ _ _ _) as [b'|] eqn:Hallow;
    inv_run Hal. apply repository_allows_manifest_true in Hallow.
  apply bind_ok in Hrun as (u3 & w2 & [Hpar ->]%ensure_ok & Hrun). apply bool_decide_eq_true in Hpar.
  apply bind_ok in Hrun as (u4 & w2 & Hpin & Hrun).
  assert (w2 = w /\ forall p, wd_preferred_executor draft = Some p -> is_Some (db_workers (db w) !! p))
    as [-> Hpref].
  { destruct (wd_preferred_executor draft) as [p|]; inv_run Hpin; [|done].
    apply get_row_ok in Hr as [-> ->]. split; [done|]. intros p' [= <-]. by apply isSome_true. }
  apply bind_ok in Hrun as (row & w1 & [(Hn & Hve & Hd) [Hos _]]%ensure_manifest_ok & Hrun).
  apply bind_ok in Hrun as (h & w2 & Hh & Hrun).
  assert (w2 = w1) as -> by (unfold lift_value in Hh; by destruct (compute_execution_policy_hash
    _ _ _ _ _ _ _ _ _ _ _); inv_run Hh).
  unfold Repository.create_work_order, next_id, from_db in Hrun. inv_run Hrun.
  apply insert_row_ok in Hr as (Hfresh & _ & _ & ->). cbn [wo_id wo_status wo_attempt_count wo_spec].
  apply get_trusted_manifest_Some in Hm as Hm'. destruct Hm' as (_ & Hmn & Hmv).
  change (db_orders (db w1) !! fresh_id (db_orders (db w1)) = None) in Hfresh.
  cbn [table set_table orders_table db_orders] in *. rsimpl. rewrite Hos in *.
  split; [done|]. split; [done|]. split; [done|]. split; [done|].
  rewrite andb_true_iff in Hb3. destruct Hb3 as [Hq _]. unfold within in Hq.
  rewrite andb_true_iff, !Z.leb_le in Hq. apply negb_true_iff in Hb1. split; try done.
  - cbn [order_values wos_repository_full_name wos_manifest_name wos_manifest_version].
    by rewrite Hn, Hve, Hmn, Hmv.
  - exists m. split; [done|]. split; [done|]. intros k Hk.
    destruct (decide (k ∈ tm_allowed_parameters m)); [done|]. exfalso.
    apply (not_elem_of_nil k). rewrite <-Hpar. apply list_elem_of_filter.
    split; [done|]. by apply elem_of_dedup.
Qed.
(** Approval: the order was pending, its repository and manifest are still listed,
    the trusted manifest still has the digest the order was created with, and the only
    row written is the order, approved or queued at the time read. *)
Theorem approve_work_order_ok id queue w o' w' :
  keyed (db w) -> approve_work_order env id queue w = (Ok o', w') ->
  exists o m, db_orders (db w) !! id = Some o /\ wo_status o = WO_PENDING_APPROVAL /\
    get_trusted_manifest (env_manifests env) (wos_manifest_name (wo_spec o))
      (wos_manifest_version (wo_spec o)) = Some m /\
    tm_digest m = wos_manifest_digest (wo_spec o) /\
    (exists r, r ∈ env_repositories env /\ repo_full_name r = wos_repository_full_name (wo_spec o) /\
       {| ref_name := wos_manifest_name (wo_spec o);
          ref_version := wos_manifest_version (wo_spec o) |} ∈ repo_manifests r) /\
    o' = approved_order queue (env_clock env (reads w)) o /\
    db w' = (db w) <| db_orders := <[id := o']> (db_orders (db w)) |>.
Proof.
  intros Hk. unfold approve_work_order, ensure_approvable. intros Hrun.
  apply bind_ok in Hrun as (o & w1 & [Ho ->]%get_work_order_ok & Hrun).
  apply bind_ok in Hrun as (u1 & w1 & [Hst ->]%ensure_ok & Hrun). apply bool_decide_eq_true in Hst.
  apply bind_ok in Hrun as (u2 & w1 & Hap & Hrun). inv_run Hap.
  unfold lift_value in Hr. destruct (repository_allows_manifest _ _ _ _) as [b'|] eqn:Hallow;
    inv_run Hr. apply repository_allows_manifest_true in Hallow. apply bool_decide_eq_true in Hb2.
  apply bind_ok in Hrun as (t & w2 & Ht & Hrun). injection Ht as <- <-.
  apply bind_ok in Hrun as (b & w2 & Hup & Hrun).
  apply bind_ok in Hrun as (u3 & w3 & [-> ->]%ensure_ok & Hrun).
  pose proof (keyed_orders _ Hk _ _ Ho) as Hid. rewrite Hid in *.
  apply update_row_ok in Hup as [[? _]|[_ (o1 & Ho1 & _ & _ & ->)]]; [done|].
  change (db_orders (db w) !! id = Some o1) in Ho1. rewrite Ho in Ho1. injection Ho1 as <-.
  apply get_work_order_ok in Hrun as [Hlast ->].
  cbn [table set_table orders_table] in Hlast. rsimpl in Hlast. rewrite lookup_insert_eq in Hlast.
  injection Hlast as <-. exists o, a2. split_and!; done.
Qed.

(** ** Routing profiles *)

(** A replacement applies to the revision its author read, only while no run of the
    worker holds a reservation against the profile, and writes the next revision. *)
Theorem replace_routing_profile_ok wk revision values w p' w' :
  replace_routing_profile env wk revision values w = (Ok p', w') ->
  exists p, db_profiles (db w) !! wk = Some p /\ rp_revision p = revision /\
    reservations (db w) wk = 0 /\
    p' = apply_profile_values values p <| rp_revision := revision + 1 |> /\
    db w' = (db w) <| db_profiles := <[wk := p']> (db_profiles (db w)) |>.
Proof.
  unfold replace_routing_profile, count_reserved_quota_runs, from_db. intros Hrun.
  apply bind_ok in Hrun as (u1 & w1 & [_ ->]%ensure_ok & Hrun).
  apply bind_ok in Hrun as (p & w1 & [Hp ->]%get_routing_profile_ok & Hrun).
  apply bind_ok in Hrun as (n & w1 & [-> ->]%gets_ok & Hrun).
  apply bind_ok in Hrun as (u2 & w1 & [Hz ->]%ensure_ok & Hrun). apply Z.eqb_eq in Hz.
  apply bind_ok in Hrun as (u3 & w1 & [Hrev ->]%ensure_ok & Hrun). apply Z.eqb_eq in Hrev.
  apply bind_ok in Hrun as (t & w1 & Ht & Hrun). injection Ht as <- <-.
  apply bind_ok in Hrun as (u4 & w1 & ->%check_profile_values_ok & Hrun).
  apply bind_ok in Hrun as (b & w1 & Hup & Hrun).
  apply bind_ok in Hrun as (u5 & w2 & [-> ->]%ensure_ok & Hrun).
  apply update_row_ok in Hup as [[? _]|[_ (p1 & Hp1 & _ & _ & ->)]]; [done|].
  change (db_profiles (db w) !! wk = Some p1) in Hp1. rewrite Hp in Hp1. injection Hp1 as <-.
  apply get_routing_profile_ok in Hrun as [Hlast ->].
  cbn [table set_table profiles_table] in Hlast. rsimpl in Hlast. rewrite lookup_insert_eq in Hlast.
  injection Hlast as <-. exists p. done.
Qed.

(** A quota reset can be retried: after a reset has returned, sending it again
    returns the same profile and changes nothing. *)
Theorem reset_routing_quota_retry wk reset w p' w' :
  reset_routing_quota env wk reset w = (Ok p', w') ->
  db_profiles (db w') !! wk = Some p' /\ rp_quota_remaining_units p' = qr_quota_remaining_units reset /\
  rp_quota_reset_at p' = Some (utc_naive (qr_quota_reset_at reset)) /\
  rp_revision p' = qr_expected_revision reset + 1 /\
  reset_routing_quota env wk reset w' = (Ok p', w').
Proof.
  intros Hrun.
  assert (valid_routing_revision (qr_expected_revision reset) = true /\
    within 0 (qr_quota_remaining_units reset) MAX_ROUTING_INTEGER = true /\
    is_aware (qr_quota_reset_at reset) = true) as (H1 & H2 & H3).
  { unfold reset_routing_quota in Hrun. inv_run Hrun. done. }
  assert (db_profiles (db w') !! wk = Some p' /\
    rp_quota_remaining_units p' = qr_quota_remaining_units reset /\
    rp_quota_reset_at p' = Some (utc_naive (qr_quota_reset_at reset)) /\
    rp_revision p' = qr_expected_revision reset + 1) as (Hp & Hq & Ht & Hr).
  { unfold reset_routing_quota, count_reserved_quota_runs, from_db in Hrun. inv_run Hrun.
    read_facts. case_bool_decide as Hs.
    - destruct (rp_quota_remaining_units a2 =? _) eqn:He; inv_run Hrun.
      apply Z.eqb_eq in He, Hb3. done.
    - inv_run Hrun. read_facts.
      apply update_row_ok in Hr0 as [[? _]|[_ (p1 & Hp1 & _ & _ & ->)]]; [done|].
      cbn [table set_table profiles_table] in *. rsimpl in *.
      rewrite lookup_insert_eq in Hprof0. injection Hprof0 as <-.
      rewrite lookup_insert_eq. done. }
  split_and!; try done. unfold reset_routing_quota.
  rewrite (bind_run _ _ _ _ _ (ensure_run _ _ _ H1)), (bind_run _ _ _ _ _ (ensure_run _ _ _ H2)),
    (bind_run _ _ _ _ _ (ensure_run _ _ _ H3)).
  rewrite (bind_run _ _ w' p' w').
  2: { unfold get_routing_profile, Repository.get_routing_profile, get_row, from_db.
       unfold mbind, M_bind, gets. cbn [table profiles_table]. by rewrite Hp. }
  rewrite Ht. cbn [opt_all]. rewrite Z.leb_refl.
  rewrite (bind_run _ _ _ _ _ (ensure_run true _ _ eq_refl)).
  rewrite bool_decide_eq_true_2 by done. rewrite Hq, Z.eqb_refl, Hr, Z.eqb_refl. done.
Qed.
End outcomes.
