(* ===== verification/Fixtures.v ===== *)
(** * A concrete control plane

    Small environments and request sequences, evaluated: the worlds in which the
    hypotheses of the properties are seen to hold. *)

From S2P Require Import Prelude Text Json Enums Catalog Evidence Documents Registry Capabilities Models Routing Repository Service Steps Invariants Refinement System Progress.

Definition repo_name : string := "Nobodyworld/dev-agent-switchboard".

Definition smoke_reference : TrustedManifestReference :=
  {| ref_name := tm_name manifest_worker_smoke; ref_version := tm_version manifest_worker_smoke |}.

Definition smoke_repository : TrustedRepository :=
  {| repo_full_name := repo_name; repo_display_name := "Switchboard";
     repo_description := "control plane"; repo_support_status := "developer_preview";
     repo_documentation_reference := "docs/API.md"; repo_manifests := [smoke_reference];
     repo_default_manifest := smoke_reference |}.

(** A way to write timestamps: the count of microseconds, in decimal. *)
Definition iso_micros (t : Z) : string := str_of_int t.

(** The clock shows [t] at every reading. *)
Definition env_at (t : Z) : Env :=
  {| env_clock := fun _ => t; env_lease_seconds := 60; env_heartbeat_freshness_seconds := 600;
     env_active_poll_freshness_seconds := 600; env_manifests := [manifest_worker_smoke];
     env_repositories := [smoke_repository]; env_isoformat := iso_micros |}.

Definition draft_with (reuse : ReusePolicy) (policy : RoutingPolicy) (units : Z) : WorkOrderDraft :=
  {| wd_schema_version := 1; wd_repository_full_name := repo_name;
     wd_commit_sha := "0123456789abcdef0123456789abcdef01234567";
     wd_manifest_name := tm_name manifest_worker_smoke;
     wd_manifest_version := tm_version manifest_worker_smoke;
     wd_manifest_parameters := []; wd_required_capabilities := []; wd_permitted_paths := [];
     wd_forbidden_scope_notes := ""; wd_expected_artifact_kinds := [];
     wd_approval_policy := EXPLICIT; wd_timeout_seconds := 120; wd_resource_metadata := [];
     wd_network_policy := WORKER_RESTRICTED; wd_repository_write_allowed := false;
     wd_preferred_executor := None; wd_cost_ceiling := None; wd_reuse_policy := reuse;
     wd_routing_policy := policy; wd_maximum_cost_units := None;
     wd_required_quota_units := units |}.

Definition draft : RoutingPolicy -> Z -> WorkOrderDraft := draft_with NEVER.

Definition worker_a : WorkerRegistration :=
  {| reg_worker_id := "worker-a";
     reg_info :=
       {| wi_display_name := "A";
          wi_capabilities :=
            {| operating_system := "linux"; architecture := "x86_64";
               python_version := Some "3.11.4"; node_version := None; pnpm_version := None;
               docker_available := false; browsers := []; gpu_available := false;
               unity_available := false; desktop_available := false;
               capabilities := [("git_available", JBool true)];
               network_policy_capability := WORKER_RESTRICTED;
               repository_write_capability := false |};
          wi_repository_full_names := [repo_name]; wi_max_concurrency := 2 |};
     reg_status := ONLINE |}.

Definition at_time (t : Z) (cs : list Command) : list (Env * Command) := map (pair (env_at t)) cs.

(** Two orders, approved and queued; one worker. *)
Definition queued_requests : list (Env * Command) :=
  at_time (seconds 1000)
    [RegisterWorker worker_a; CreateWorkOrder (draft FIRST_AVAILABLE 0);
     CreateWorkOrder (draft FIRST_AVAILABLE 0); ApproveWorkOrder 1 true; ApproveWorkOrder 2 true].

Definition queued_world : World := Eval vm_compute in serve_all fresh_world queued_requests.

(** The worker has checked out the first order. *)
Definition leased_world : World :=
  Eval vm_compute in serve_all queued_world (at_time (seconds 1010) [Checkout "worker-a"]).

(** ** Evidence reuse

    Two orders that allow exact reuse, run one after the other by one worker. *)

Definition reuse_requests : list (Env * Command) :=
  at_time (seconds 1000)
    [RegisterWorker worker_a; CreateWorkOrder (draft_with ALLOW_EXACT FIRST_AVAILABLE 0);
     CreateWorkOrder (draft_with ALLOW_EXACT FIRST_AVAILABLE 0);
     ApproveWorkOrder 1 true; ApproveWorkOrder 2 true; Checkout "worker-a"].

Definition first_run_world : World := Eval vm_compute in serve_all fresh_world reuse_requests.

Definition fingerprint : string := "00000000000000000000000000000000000000000000000000000000000000aa".

(** The identity of the work of an order, with the environment of the worker. *)
Definition identity_of (s : WorkOrderSpec) : EvidenceReuseIdentity :=
  {| id_repository_full_name := wos_repository_full_name s; id_tested_sha := wos_commit_sha s;
     id_manifest_name := wos_manifest_name s; id_manifest_version := wos_manifest_version s;
     id_manifest_digest := wos_manifest_digest s; id_worker_environment_fingerprint := fingerprint;
     id_dependency_lock_hashes := [];
     id_execution_policy_hash := wos_execution_policy_hash s;
     id_result_contract_hash :=
       match compute_result_contract_hash (tm_fixed_step_metadata manifest_worker_smoke)
               (tm_artifact_declarations manifest_worker_smoke)
               (tm_dependency_lock_paths manifest_worker_smoke)
               (tm_result_contract manifest_worker_smoke) with
       | Ok h => h | Err _ => "" end |}.

Definition empty_spec : WorkOrderSpec :=
  {| wos_schema_version := 0; wos_repository_full_name := ""; wos_commit_sha := "";
     wos_manifest_id := 0; wos_manifest_name := ""; wos_manifest_version := "";
     wos_manifest_digest := ""; wos_manifest_parameters := []; wos_required_capabilities := [];
     wos_permitted_paths := []; wos_forbidden_scope_notes := ""; wos_expected_artifact_kinds := [];
     wos_approval_policy := EXPLICIT; wos_timeout_seconds := 0; wos_resource_metadata := [];
     wos_network_policy := WORKER_RESTRICTED; wos_repository_write_allowed := false;
     wos_preferred_executor := None; wos_cost_ceiling := None;
     wos_routing_policy := FIRST_AVAILABLE; wos_maximum_cost_units := None;
     wos_required_quota_units := 0; wos_reuse_policy := NEVER; wos_execution_policy_hash := "" |}.

Definition first_spec : WorkOrderSpec :=
  Eval vm_compute in match db_orders (db first_run_world) !! 1 with
                     | Some o => wo_spec o | None => empty_spec end.

Definition shared_identity : EvidenceReuseIdentity := Eval vm_compute in identity_of first_spec.
Definition shared_hash : string := Eval vm_compute in compute_reuse_identity_hash shared_identity.

Definition document_of (order run : Z) (decision : string) (source : option Z)
    (source_fingerprint : option string) : ExecutionEvidence :=
  {| ev_work_order_id := order; ev_run_id := run;
     ev_repository_full_name := wos_repository_full_name first_spec;
     ev_tested_sha := wos_commit_sha first_spec;
     ev_manifest_name := wos_manifest_name first_spec;
     ev_manifest_version := wos_manifest_version first_spec;
     ev_manifest_digest := wos_manifest_digest first_spec; ev_worker_id := "worker-a";
     ev_environment :=
       {| env_operating_system := "linux"; env_architecture := "x86_64";
          env_python_version := "3.11.4"; env_tools := []; env_fingerprint := fingerprint |};
     ev_dependency_lock_hashes := []; ev_started_at := seconds 1001; ev_finished_at := seconds 1002;
     ev_duration_seconds := {| fl_repr := "1.0"; fl_value := QArith_base.inject_Z 1 |};
     ev_terminal_status := "succeeded"; ev_terminal_reason := None;
     ev_failing_step := None; ev_steps := []; ev_artifacts := [];
     ev_dependency_lock_status := "verified"; ev_artifact_finalization_status := "complete";
     ev_source_cleanup_status := "complete"; ev_local_record_status := "complete";
     ev_reuse_provenance :=
       Some {| prov_decision := decision; prov_reason := decision;
               prov_reuse_identity_hash := shared_hash; prov_source_run_id := source;
               prov_source_evidence_fingerprint := source_fingerprint |};
     ev_fingerprint := "" |}.

(** The document with its fingerprint. *)
Definition evidence_of (order run : Z) (decision : string) (source : option Z)
    (source_fingerprint : option string) : ExecutionEvidence :=
  let document := document_of order run decision source source_fingerprint in
  match finalize_evidence iso_micros document with Some e => e | None => document end.

Definition fresh_evidence : ExecutionEvidence :=
  Eval vm_compute in evidence_of 1 1 "fresh" None None.
Definition reused_evidence : ExecutionEvidence :=
  Eval vm_compute in evidence_of 2 2 "reused" (Some 1) (Some (ev_fingerprint fresh_evidence)).

(** Both documents are complete and valid. *)
Example sample_documents_valid :
  forallb (valid_evidence iso_micros) [fresh_evidence; reused_evidence] = true.
Proof. vm_compute. reflexivity. Qed.

Definition succeeded (decision : ReuseDecision) (evidence : ExecutionEvidence)
    (retention : PyDatetime) : ExecutionCompletion :=
  {| cpl_status := RUN_SUCCEEDED; cpl_result_summary := None; cpl_terminal_reason := None;
     cpl_cleanup_status := None; cpl_artifact_metadata := [];
     cpl_evidence_metadata := Some evidence; cpl_reuse_decision := Some decision;
     cpl_reuse_reason := None; cpl_reuse_identity := Some shared_identity;
     cpl_reuse_identity_hash := Some shared_hash;
     cpl_evidence_retention_expires_at := Some retention |}.

Definition fresh_completion (retention : PyDatetime) : ExecutionCompletion :=
  succeeded FRESH fresh_evidence retention.

Definition reused_completion : ExecutionCompletion :=
  succeeded REUSED reused_evidence (Aware (seconds 9000) 0).

(** The first run has succeeded with fresh evidence; the second order is leased. *)
Definition second_run_world : World :=
  Eval vm_compute in serve_all first_run_world
    (at_time (seconds 1010) [CompleteRun 1 "worker-a" (fresh_completion (Aware (seconds 9000) 0));
                             Checkout "worker-a"]).

Definition resolved_world : World :=
  Eval vm_compute in serve_all second_run_world
    (at_time (seconds 1011) [ResolveReuse 2 "worker-a" shared_identity shared_hash]).

(** The worlds are reachable, so the invariant holds in them. *)
Lemma served_world_inv cs w : serve_all fresh_world cs = w -> inv (db w).
Proof. intros <-. apply served_inv. Qed.

Lemma queued_inv : inv (db queued_world).
Proof. apply (served_world_inv queued_requests). vm_compute. reflexivity. Qed.

Lemma leased_inv : inv (db leased_world).
Proof.
  apply (served_world_inv (queued_requests ++ at_time (seconds 1010) [Checkout "worker-a"])).
  vm_compute. reflexivity.
Qed.

Lemma first_run_inv : inv (db first_run_world).
Proof. apply (served_world_inv reuse_requests). vm_compute. reflexivity. Qed.

Lemma second_run_inv : inv (db second_run_world).
Proof.
  apply (served_world_inv (reuse_requests ++ at_time (seconds 1010)
    [CompleteRun 1 "worker-a" (fresh_completion (Aware (seconds 9000) 0)); Checkout "worker-a"])).
  vm_compute. reflexivity.
Qed.

Lemma resolved_inv : inv (db resolved_world).
Proof.
  apply (served_world_inv (reuse_requests ++ at_time (seconds 1010)
    [CompleteRun 1 "worker-a" (fresh_completion (Aware (seconds 9000) 0)); Checkout "worker-a"]
    ++ at_time (seconds 1011) [ResolveReuse 2 "worker-a" shared_identity shared_hash])).
  vm_compute. reflexivity.
Qed.

(** ** A profile near the end of its revisions

    Two orders that reserve quota, and a worker whose profile has served all but
    the last revisions of the counter. *)

Definition profile_values : RoutingProfileValues :=
  {| pv_enabled := true; pv_estimated_cost_units_per_run := 1; pv_quota_capacity_units := 10;
     pv_quota_remaining_units := 10; pv_quota_reset_at := None; pv_routing_priority := 0 |}.

Definition profile_requests : list (Env * Command) :=
  at_time (seconds 1000)
    [RegisterWorker worker_a; CreateRoutingProfile "worker-a" 1 profile_values;
     CreateWorkOrder (draft CHEAPEST_CAPABLE 1); CreateWorkOrder (draft CHEAPEST_CAPABLE 1);
     ApproveWorkOrder 1 true; ApproveWorkOrder 2 true].

Definition profile_world : World := Eval vm_compute in serve_all fresh_world profile_requests.

Lemma profile_inv : inv (db profile_world).
Proof. apply (served_world_inv profile_requests). vm_compute. reflexivity. Qed.

Definition with_revision (k : string) (revision : Z) (w : World) : World :=
  w <| db := (db w) <| db_profiles :=
         alter (fun p => p <| rp_revision := revision |>) k (db_profiles (db w)) |> |>.

(** The invariant does not depend on the revision of a profile. *)
Lemma with_revision_inv k revision w :
  1 <= revision <= MAX_ROUTING_INTEGER -> inv (db w) -> inv (db (with_revision k revision w)).
Proof.
  intros Hrev [[K1 K2 K3 K4 K5] [C1 C2 C3] Hl [L1 L2] Ha [Q1 Q2 Q3 Q4]].
  assert (forall j p', alter (fun p => p <| rp_revision := revision |>) k (db_profiles (db w)) !! j
      = Some p' -> exists p, db_profiles (db w) !! j = Some p /\
        (p' = p \/ p' = p <| rp_revision := revision |>)) as Hp.
  { intros j p' Hj. destruct (decide (k = j)) as [->|].
    - rewrite lookup_alter_eq in Hj. apply fmap_Some in Hj as (p & ? & ->). eauto.
    - rewrite lookup_alter_ne in Hj by done. eauto. }
  unfold with_revision. rsimpl. split; try (by split).
  - split; try done. intros j p' (p & Hj & [->| ->])%Hp; by apply K5 in Hj.
  - split; try done. intros j p' (p & Hj & [->| ->])%Hp; apply C3 in Hj; [done|].
    unfold valid_profile, within in *. rsimpl. rewrite !andb_true_iff, !Z.leb_le in *. tauto.
  - destruct Hl. by split.
  - destruct Ha. by split.
  - split; try done.
    + intros j r Hr Hres. destruct (Q1 j r Hr Hres) as (? & ? & Hs). split_and!; try done.
      rsimpl. by rewrite lookup_alter_is_Some.
    + intros j p' (p & Hj & [->| ->])%Hp; by apply Q3 in Hj.
    + intros j p' (p & Hj & _)%Hp. by apply Q4 in Hj.
Qed.

Definition tight_world : World :=
  Eval vm_compute in with_revision "worker-a" (MAX_ROUTING_REVISION - 3) profile_world.

(** ** Rows and answers of these worlds *)

Definition dummy_order : WorkOrder :=
  {| wo_id := 0; wo_spec := empty_spec; wo_status := WO_PENDING_APPROVAL; wo_attempt_count := 0;
     wo_approved_at := None; wo_queued_at := None; wo_assigned_at := None; wo_started_at := None;
     wo_finished_at := None; wo_terminal_reason := None; wo_route := no_route |}.

Definition order_at (w : World) (id : Z) : WorkOrder := default dummy_order (db_orders (db w) !! id).

Definition run_at (w : World) (id : Z) : Run :=
  default (new_run 0 dummy_order "" 0 0 None) (db_runs (db w) !! id).

Definition worker_at (w : World) (k : string) : Worker :=
  default {| w_worker_id := ""; w_info := reg_info worker_a; w_active_run_count := 0;
             w_status := OFFLINE; w_last_heartbeat_at := 0; w_last_checkout_poll_at := None |}
    (db_workers (db w) !! k).

Definition profile_at (w : World) (k : string) : RoutingProfile :=
  default (profile_row "" 1 profile_values) (db_profiles (db w) !! k).

Definition lease_at (w : World) (id : Z) : Lease :=
  default {| lease_id := 0; lease_work_order_id := 0; lease_execution_run_id := 0;
             lease_worker_id := ""; lease_expires_at := 0; lease_last_heartbeat_at := 0 |}
    (db_leases (db w) !! id).

(** The answer of a method that returns. *)
Definition answer {E A} (fallback : A) (r : Result E A * World) : A :=
  match r.1 with Ok a => a | Err _ => fallback end.

(** A plain success without evidence. *)
Definition plain_success : ExecutionCompletion :=
  {| cpl_status := RUN_SUCCEEDED; cpl_result_summary := Some "ok"; cpl_terminal_reason := None;
     cpl_cleanup_status := None; cpl_artifact_metadata := []; cpl_evidence_metadata := None;
     cpl_reuse_decision := None; cpl_reuse_reason := None; cpl_reuse_identity := None;
     cpl_reuse_identity_hash := None; cpl_evidence_retention_expires_at := None |}.

(** Rows of a concrete table are checked by listing them. *)
Lemma rows_checked {K V} `{Countable K} (p : V -> bool) (t : gmap K V) :
  forallb (fun kv => p kv.2) (map_to_list t) = true ->
  forall k v, t !! k = Some v -> p v = true.
Proof.
  intros Hall k v Hk. rewrite forallb_forall in Hall.
  apply (Hall (k, v)). by apply list_elem_of_In, elem_of_map_to_list.
Qed.

Lemma no_profiles_headroom d : db_profiles d = ∅ -> headroom d.
Proof. intros He k p. by rewrite He, lookup_empty. Qed.
