(* ===== verification/Properties.v ===== *)
(** * Properties of the execution control plane

    The guarantees of the service as a whole, over arbitrary sequences of requests,
    and those of its pure parts; the properties of single methods stand with their
    proofs in [Progress], [Dispatch] and [Outcomes]. *)

From S2P Require Import Prelude Text Json Enums Catalog Evidence Documents Registry Capabilities Models Routing Repository Service Steps Invariants Refinement System Progress Dispatch Outcomes Fixtures.

(** ** Sequences of requests *)

(** C1. From an empty database, whatever requests are served, under whatever clocks
    and settings, the tables satisfy the invariant: keys and CHECK constraints, one
    lease per active order and run tied to matching active records, worker load
    equal to the leases held, attempt numbers unique, and quota conserved. *)
Theorem service_invariant (requests : list (Env * Command)) :
  inv (db (serve_all fresh_world requests)).
Proof. apply served_inv. Qed.

(** C2. Refinement: every sequence of requests takes the database through a sequence
    of the eleven atomic steps of the abstract execution plane, and whenever, after
    such a sequence, a request raises, the database is what it was before that
    request. *)
Theorem service_refines_steps (w : World) (requests : list (Env * Command)) :
  inv (db w) ->
  let before := serve_all w requests in
  rtc step (db w) (db before) /\
  forall env command e, (request (handler env command) before).1 = Err e ->
    db (serve_all w (requests ++ [(env, command)])) = db before.
Proof.
  intros Hi before. split; [by apply serve_all_steps|]. intros env command e.
  unfold serve_all at 1. rewrite foldl_app. apply serve_raises.
Qed.

(** C3. Exclusive assignment: an order that is assigned or running has exactly one
    lease, and the run of that lease is active, belongs to the order and to the
    leaseholder, and is the order's latest attempt. *)
Theorem active_order_has_one_lease (requests : list (Env * Command)) (id : Z) (o : WorkOrder) :
  let d := db (serve_all fresh_world requests) in
  db_orders d !! id = Some o -> active_work_order (wo_status o) = true ->
  exists k l r, db_leases d !! k = Some l /\ lease_work_order_id l = id /\
    db_runs d !! lease_execution_run_id l = Some r /\ active_run (run_status r) = true /\
    run_work_order_id r = id /\ run_worker_id r = lease_worker_id l /\
    run_attempt_number r = wo_attempt_count o /\
    forall k' l', db_leases d !! k' = Some l' -> lease_work_order_id l' = id -> k' = k.
Proof.
  intros d Ho Ha. pose proof (inv_leases _ (served_inv requests)) as Hl. fold d in Hl.
  destruct (leases_of_order _ Hl id o Ho Ha) as (k & l & Hk & Hid).
  destruct (leases_tie _ Hl k l Hk) as (r & o' & Hr & Ho' & Ht).
  rewrite Hid in Ho'. simplify_eq. exists k, l, r.
  destruct Ht. split_and!; try done. intros k' l' Hk' Hid'.
  eapply (leases_order_unique _ Hl); eauto.
Qed.

(** C4. Quota is never oversold: the units a profile still offers and the units
    reserved by its worker's runs never exceed the capacity, and neither is negative. *)
Theorem quota_never_oversold (requests : list (Env * Command)) (k : string) (p : RoutingProfile) :
  let d := db (serve_all fresh_world requests) in
  db_profiles d !! k = Some p ->
  0 <= rp_quota_remaining_units p /\ 0 <= outstanding d k /\
  rp_quota_remaining_units p + outstanding d k <= rp_quota_capacity_units p.
Proof.
  intros d Hp. pose proof (served_inv requests) as Hi. fold d in Hi.
  pose proof (checked_profiles _ (inv_checked _ Hi) _ _ Hp) as Hv.
  unfold valid_profile, within in Hv. rewrite !andb_true_iff, !Z.leb_le in Hv.
  split; [tauto|]. split; [|by apply (quota_conserved _ (inv_quota _ Hi))].
  apply msum_nonneg. intros i r Hr. unfold units_held. destruct (holds_reservation k r) eqn:Hh; [|lia].
  apply holds_reservation_spec in Hh as [_ Hres].
  destruct (quota_reserved _ (inv_quota _ Hi) i r Hr Hres) as (_ & ? & _); lia.
Qed.

(** C5. The life of a work order: it never disappears, its specification never
    changes, its status only moves along the transition table, its attempt count
    never decreases, and once terminal the whole row is frozen. *)
Theorem work_order_lifecycle (w : World) (requests : list (Env * Command)) (id : Z) (o : WorkOrder) :
  inv (db w) -> db_orders (db w) !! id = Some o ->
  exists o', db_orders (db (serve_all w requests)) !! id = Some o' /\ order_history o o'.
Proof. intros Hi. by apply served_order. Qed.

(** C6. The life of a run: it never disappears or changes hands, its status only
    moves along its transition table, and once terminal the whole row, its evidence
    included, is frozen. *)
Theorem run_lifecycle (w : World) (requests : list (Env * Command)) (id : Z) (r : Run) :
  inv (db w) -> db_runs (db w) !! id = Some r ->
  exists r', db_runs (db (serve_all w requests)) !! id = Some r' /\ run_history r r'.
Proof. intros Hi. by apply served_run. Qed.

(** The revision of a routing profile identifies its contents: it never
    decreases, and while it is the same the profile is the same. *)
Theorem profile_revision_identifies (w : World) (requests : list (Env * Command)) (k : string)
    (p : RoutingProfile) :
  inv (db w) -> db_profiles (db w) !! k = Some p ->
  exists p', db_profiles (db (serve_all w requests)) !! k = Some p' /\ profile_history p p'.
Proof. intros Hi. by apply served_profile. Qed.

(** ** Routing *)

(** Eligibility: the evaluation offers the worker exactly when it may run the
    order (repository, pin, profile, cost and quota, presence, capacity, freshness,
    capabilities, network policy, no write capability); otherwise it gives at least
    one reason, and no reason twice. *)
Theorem eligibility_contract worker profile request t heartbeat_seconds poll_seconds :
  let e := evaluate_routing_candidate worker profile request t heartbeat_seconds poll_seconds in
  NoDup (el_reasons e) /\
  (el_candidate e = Some {| cnd_worker := worker; cnd_profile := profile |} <->
   may_run worker profile request t heartbeat_seconds poll_seconds) /\
  (el_candidate e = None <-> el_reasons e <> []).
Proof.
  intros e. split; [apply evaluate_reasons_NoDup|]. rewrite <-evaluate_reasons_nil. fold e.
  destruct (evaluate_candidate_or_reasons worker profile request t heartbeat_seconds poll_seconds)
    as [[Hc Hr]|[Hc Hr]]; fold e in Hc, Hr; rewrite Hc; naive_solver.
Qed.

(** Ranking is deterministic: candidates with profiles are ordered by cost, then
    quota headroom, then relative load, then priority, then worker id, and the order
    in which they were listed makes no difference. *)
Theorem ranking_deterministic (units : Z) (candidates other : list RoutingCandidate) :
  Forall rankable candidates -> NoDup (ranked_worker_ids candidates) -> candidates ≡ₚ other ->
  exists ranked, rank_routing_candidates candidates units = Ok ranked /\
    rank_routing_candidates other units = Ok ranked /\
    ranked ≡ₚ candidates /\ StronglySorted (ranked_le units) ranked.
Proof.
  intros Hr Hn Hp. exists (merge_sort (ranked_le units) candidates).
  split; [by apply rank_ok|]. split; [|split; [apply merge_sort_Permutation|by apply rank_strongly_sorted]].
  rewrite (rank_permutation_invariant units candidates Hr other Hn Hp).
  apply rank_ok. by rewrite <-Hp.
Qed.

(** ** Capabilities and text *)

(** A minimum version is upward closed: a worker that satisfies it still does
    with any later runtime, comparing up to three components with missing ones as
    zero. *)
Theorem minimum_version_upward_closed requirement expected a b pa pb strip_v :
  version_requirement requirement = Some (MINIMUM, expected) ->
  version_parts a strip_v = Some pa -> version_parts b strip_v = Some pb ->
  tuple_geb (padded_version pb) (padded_version pa) = true ->
  runtime_version_matches (Some a) requirement strip_v = true ->
  runtime_version_matches (Some b) requirement strip_v = true.
Proof.
  intros Hr Ha Hb Hge. unfold runtime_version_matches. rewrite Hr, Ha, Hb.
  destruct (version_parts expected strip_v); [|done]. intros. by eapply tuple_geb_trans.
Qed.

(** An accepted evidence path stays below its root: it is unchanged, bounded,
    free of NUL, backslash and drive separators, and unless it is the root itself
    none of its slash-separated components is empty, [.] or [..]. *)
Theorem evidence_path_contained (v r : string) :
  validate_relative_path v = Ok r -> v <> "." ->
  r = v /\ str_length v <= MAX_EVIDENCE_PATH_LENGTH /\
  (forall c, c ∈ to_chars v -> ord c <> 0 /\ ord c <> 92 /\ ord c <> 58) /\
  forall part, part ∈ map of_chars (split_on (chr 47) (to_chars v)) ->
    part <> "" /\ part <> "." /\ part <> "..".
Proof.
  intros (-> & Hlen & Hnorm & Hbad & Hcolon & _ & Hparts)%validate_relative_path_ok Hdot.
  split; [done|]. split; [done|]. split.
  - intros c Hc%list_elem_of_In. rewrite <-!not_true_iff_false, !existsb_exists in *.
    split_and!; intros He; [apply Hbad|apply Hbad|apply Hcolon]; exists c; rewrite He; auto.
  - rewrite normalized_components by done. intros part Hp.
    assert (part ∉ [""; "."; ".."]) as Hn.
    { intros Hin. rewrite <-not_true_iff_false, existsb_exists in Hparts. apply Hparts.
      exists part. split; [by apply list_elem_of_In|]. by apply bool_decide_eq_true_2. }
    rewrite !elem_of_cons in Hn. naive_solver.
Qed.

(** ** Limits of the implementation *)

(** The room kept in the revision counter covers one outstanding reservation,
    not several: from a state satisfying the invariant, two checkouts reserve quota
    from a profile three revisions below the maximum, and once both leases are
    stale the expiry sweep fails, and with it every checkout of every worker. *)
Example revision_room_exhausted :
  inv (db tight_world) /\
  let w := serve_all tight_world (at_time (seconds 1010) [Checkout "worker-a"; Checkout "worker-a"]) in
  size (db_leases (db w)) = 2%nat /\
  (expire_stale_leases (env_at (seconds 2000)) w).1 =
    Err (LifecycleConflictError "stale_lease_state_conflict") /\
  forall worker_id, (checkout (env_at (seconds 2000)) worker_id w).1 =
    Err (LifecycleConflictError "stale_lease_state_conflict").
Proof.
  split.
  { change tight_world with (with_revision "worker-a" (MAX_ROUTING_REVISION - 3) profile_world).
    apply with_revision_inv; [done|apply profile_inv]. }
  intros w. split; [by vm_compute|]. split; [by vm_compute|]. intros worker_id. by vm_compute.
Qed.

(** Retention given in a zone other than UTC is kept as wall-clock time: evidence
    whose retention ended at second 1011, written with a one-hour offset, is still
    offered for reuse at second 1012. *)
Example expired_evidence_offered :
  let retention := Aware (seconds 1011) (seconds 3600) in
  let w := serve_all first_run_world
    (at_time (seconds 1010) [CompleteRun 1 "worker-a" (fresh_completion retention);
                             Checkout "worker-a"]) in
  utc_naive retention < seconds 1012 /\
  match (resolve_reuse_candidate (env_at (seconds 1012)) 2 "worker-a" shared_identity shared_hash w).1 with
  | Ok res => rc_decision res = CANDIDATE_AVAILABLE /\ cand_source_run_id <$> rc_candidate res = Some 1
  | Err _ => False
  end.
Proof. split; [by vm_compute|]. vm_compute. split; reflexivity. Qed.
