(* ===== verification/Witnesses.v ===== *)
(** * Witnesses

    Each property of the execution plane that has hypotheses, applied at a concrete
    world of [Fixtures] where they hold. *)

From S2P Require Import Prelude Text Json Enums Catalog Evidence Documents Registry Capabilities TextPolicy Models Routing Repository Service Steps Invariants Refinement System Progress Dispatch Outcomes Fixtures Properties.

(** The refused request queues an order that does not exist. *)
Lemma service_refines_steps_witness :
  let requests := at_time (seconds 1010) [Checkout "worker-a"] in
  let refused := at_time (seconds 1011) [QueueWorkOrder 77] in
  rtc step (db queued_world) (db (serve_all queued_world requests)) /\
  db (serve_all queued_world (requests ++ refused)) = db (serve_all queued_world requests).
Proof.
  destruct (service_refines_steps queued_world (at_time (seconds 1010) [Checkout "worker-a"]) queued_inv)
    as [H1 H2].
  split; [exact H1|]. eapply H2. vm_compute. reflexivity.
Defined.

Definition leased_requests : list (Env * Command) :=
  queued_requests ++ at_time (seconds 1010) [Checkout "worker-a"].

Lemma active_order_has_one_lease_witness :
  exists k l r, db_leases (db (serve_all fresh_world leased_requests)) !! k = Some l /\
    lease_work_order_id l = 1 /\
    db_runs (db (serve_all fresh_world leased_requests)) !! lease_execution_run_id l = Some r.
Proof.
  destruct (active_order_has_one_lease leased_requests 1 (order_at leased_world 1))
    as (k & l & r & H1 & H2 & H3 & _).
  - vm_compute. reflexivity.
  - vm_compute. reflexivity.
  - exists k, l, r. auto.
Defined.

Lemma quota_never_oversold_witness :
  let d := db (serve_all fresh_world (profile_requests ++ at_time (seconds 1010) [Checkout "worker-a"])) in
  exists p, 0 <= rp_quota_remaining_units p /\ 0 <= outstanding d "worker-a" /\
    rp_quota_remaining_units p + outstanding d "worker-a" <= rp_quota_capacity_units p.
Proof.
  eexists. apply (quota_never_oversold (profile_requests ++ at_time (seconds 1010) [Checkout "worker-a"])
    "worker-a"). vm_compute. reflexivity.
Defined.

Lemma work_order_lifecycle_witness :
  exists o', db_orders (db (serve_all queued_world (at_time (seconds 1010) [Checkout "worker-a"]))) !! 1
    = Some o' /\ order_history (order_at queued_world 1) o'.
Proof.
  apply (work_order_lifecycle queued_world _ 1); [apply queued_inv|]. vm_compute. reflexivity.
Defined.

Lemma run_lifecycle_witness :
  exists r', db_runs (db (serve_all leased_world
      (at_time (seconds 1020) [CompleteRun 1 "worker-a" plain_success]))) !! 1 = Some r' /\
    run_history (run_at leased_world 1) r'.
Proof.
  apply (run_lifecycle leased_world _ 1); [apply leased_inv|]. vm_compute. reflexivity.
Defined.

Lemma profile_revision_identifies_witness :
  exists p', db_profiles (db (serve_all profile_world (at_time (seconds 1010) [Checkout "worker-a"])))
    !! "worker-a" = Some p' /\ profile_history (profile_at profile_world "worker-a") p'.
Proof.
  apply (profile_revision_identifies profile_world _ "worker-a"); [apply profile_inv|].
  vm_compute. reflexivity.
Defined.


Lemma checkout_work_conserving_witness :
  exists res w', checkout_eligible_work (env_at (seconds 1020)) (worker_at leased_world "worker-a")
      leased_world = (Ok res, w') /\ is_Some (co_run_id res).
Proof.
  destruct (checkout_work_conserving (env_at (seconds 1020)) (worker_at leased_world "worker-a")
    (worker_at leased_world "worker-a") leased_world) as (res & w' & Hrun & Hsome).
  - apply leased_inv.
  - intros k p Hp. vm_compute in Hp. discriminate Hp.
  - vm_compute. reflexivity.
  - exists res, w'. split; [exact Hrun|]. apply Hsome. vm_compute (queue _). left.
    split; [reflexivity|]. exists (worker_at leased_world "worker-a"). split; [vm_compute; reflexivity|].
    intros n _. apply evaluate_reasons_nil. vm_compute. reflexivity.
Defined.

Lemma complete_run_run_witness :
  exists w' r, complete_run (env_at (seconds 1020)) 1 "worker-a" plain_success leased_world =
      (Ok r, w') /\ inv (db w').
Proof.
  edestruct (complete_run_run (env_at (seconds 1020)) (lease_at leased_world 1) plain_success
    leased_world) as (w' & r & Hrun & _ & Hinv).
  - apply leased_inv.
  - vm_compute. reflexivity.
  - intros p r Hp. vm_compute in Hp. discriminate Hp.
  - reflexivity.
  - reflexivity.
  - vm_compute. reflexivity.
  - vm_compute. reflexivity.
  - vm_compute. discriminate.
  - exists w'. eexists. split; [exact Hrun|exact Hinv].
Defined.

Lemma complete_run_ok_witness :
  owns_live (db resolved_world) 2 "worker-a" (seconds 1012).
Proof.
  apply (complete_run_ok (env_at (seconds 1012)) 2 "worker-a" reused_completion resolved_world
    (answer (run_at resolved_world 2)
       (complete_run (env_at (seconds 1012)) 2 "worker-a" reused_completion resolved_world))
    (complete_run (env_at (seconds 1012)) 2 "worker-a" reused_completion resolved_world).2).
  - apply resolved_inv.
  - vm_compute. reflexivity.
Defined.

Lemma heartbeat_run_ok_witness : owns_live (db leased_world) 1 "worker-a" (seconds 1020).
Proof.
  apply (heartbeat_run_ok (env_at (seconds 1020)) 1 "worker-a" leased_world
    (answer (run_at leased_world 1) (heartbeat_run (env_at (seconds 1020)) 1 "worker-a" leased_world))
    (heartbeat_run (env_at (seconds 1020)) 1 "worker-a" leased_world).2).
  - apply leased_inv.
  - vm_compute. reflexivity.
Defined.

Lemma expire_sweep_witness :
  exists w', expire_stale_leases (env_at (seconds 2000)) leased_world =
    (Ok {| requeued_work_order_ids := [1]; timed_out_run_ids := [1] |}, w') /\ inv (db w').
Proof.
  destruct (expire_sweep (env_at (seconds 2000)) leased_world) as (w' & Hrun & Hinv & _).
  - apply leased_inv.
  - apply no_profiles_headroom. vm_compute. reflexivity.
  - exists w'. split; [|exact Hinv]. exact Hrun.
Defined.

Lemma cancel_active_witness :
  exists w' o', cancel_work_order (env_at (seconds 1020)) 1 None leased_world = (Ok o', w') /\
    wo_status o' = WO_CANCELLED /\ db_orders (db w') !! 1 = Some o' /\ inv (db w').
Proof.
  apply (cancel_active (env_at (seconds 1020)) 1 None leased_world (order_at leased_world 1)).
  - apply leased_inv.
  - vm_compute. reflexivity.
  - vm_compute. reflexivity.
  - intros l r _ _ Hr i Hi. exfalso.
    pose proof (rows_checked (fun r => negb (isSome (rr_identity (run_reuse r))))
      (db_runs (db leased_world)) eq_refl _ _ Hr) as Hn. cbv beta in Hn. rewrite Hi in Hn. discriminate Hn.
  - apply no_profiles_headroom. vm_compute. reflexivity.
Defined.

Lemma cancel_unleased_witness :
  exists w' o', cancel_work_order (env_at (seconds 1020)) 2 None leased_world = (Ok o', w') /\
    wo_status o' = WO_CANCELLED.
Proof.
  destruct (cancel_unleased (env_at (seconds 1020)) 2 None leased_world (order_at leased_world 2))
    as (w' & Hrun & _).
  - apply leased_inv.
  - vm_compute. reflexivity.
  - vm_compute. right. right. left.
  - exists w'. eexists. split; [exact Hrun|reflexivity].
Defined.

Lemma create_work_order_ok_witness :
  accepted (env_at (seconds 1020)) (db queued_world) (draft FIRST_AVAILABLE 0)
    (wo_spec (answer dummy_order
       (create_work_order (env_at (seconds 1020)) (draft FIRST_AVAILABLE 0) queued_world))).
Proof.
  apply (create_work_order_ok (env_at (seconds 1020)) (draft FIRST_AVAILABLE 0) queued_world _
    (create_work_order (env_at (seconds 1020)) (draft FIRST_AVAILABLE 0) queued_world).2).
  vm_compute. reflexivity.
Defined.

Definition pending_world : World :=
  Eval vm_compute in serve_all fresh_world
    (at_time (seconds 1000) [CreateWorkOrder (draft FIRST_AVAILABLE 0)]).

Lemma approve_work_order_ok_witness :
  exists o m, db_orders (db pending_world) !! 1 = Some o /\ wo_status o = WO_PENDING_APPROVAL /\
    tm_digest m = wos_manifest_digest (wo_spec o).
Proof.
  destruct (approve_work_order_ok (env_at (seconds 1000)) 1 true pending_world
    (answer dummy_order (approve_work_order (env_at (seconds 1000)) 1 true pending_world))
    (approve_work_order (env_at (seconds 1000)) 1 true pending_world).2)
    as (o & m & H1 & H2 & _ & H3 & _).
  - apply inv_keyed, (served_world_inv (at_time (seconds 1000) [CreateWorkOrder (draft FIRST_AVAILABLE 0)])).
    vm_compute. reflexivity.
  - vm_compute. reflexivity.
  - exists o, m. auto.
Defined.

Definition resolved_answer : ReuseCandidateResult :=
  Eval vm_compute in
    answer {| rc_decision := UNAVAILABLE; rc_reason := ""; rc_candidate := None |}
      (resolve_reuse_candidate (env_at (seconds 1011)) 2 "worker-a" shared_identity shared_hash
         second_run_world).

Lemma resolve_reuse_candidate_ok_witness :
  owns_live (db second_run_world) 2 "worker-a" (seconds 1011).
Proof.
  refine (proj1 (resolve_reuse_candidate_ok (env_at (seconds 1011)) 2 "worker-a" shared_identity
    shared_hash second_run_world resolved_answer resolved_world _ _)).
  - apply second_run_inv.
  - vm_compute. reflexivity.
Defined.

Lemma replace_routing_profile_ok_witness :
  exists p, db_profiles (db profile_world) !! "worker-a" = Some p /\ rp_revision p = 1.
Proof.
  destruct (replace_routing_profile_ok (env_at (seconds 1020)) "worker-a" 1 profile_values profile_world
    (answer (profile_at profile_world "worker-a")
       (replace_routing_profile (env_at (seconds 1020)) "worker-a" 1 profile_values profile_world))
    (replace_routing_profile (env_at (seconds 1020)) "worker-a" 1 profile_values profile_world).2)
    as (p & H1 & H2 & _).
  - vm_compute. reflexivity.
  - exists p. auto.
Defined.

Definition reset_once : RoutingQuotaReset :=
  {| qr_expected_revision := 1; qr_quota_remaining_units := 7;
     qr_quota_reset_at := Aware (seconds 1015) 0 |}.

Definition reset_world : World :=
  Eval vm_compute in (reset_routing_quota (env_at (seconds 1020)) "worker-a" reset_once profile_world).2.

Lemma reset_routing_quota_retry_witness :
  reset_routing_quota (env_at (seconds 1020)) "worker-a" reset_once reset_world =
    (Ok (profile_at reset_world "worker-a"), reset_world).
Proof.
  apply (reset_routing_quota_retry (env_at (seconds 1020)) "worker-a" reset_once profile_world).
  vm_compute. reflexivity.
Defined.

(** ** Pure parts *)

Definition candidate_a : RoutingCandidate :=
  {| cnd_worker := worker_at profile_world "worker-a";
     cnd_profile := Some (profile_at profile_world "worker-a") |}.

Definition candidate_b : RoutingCandidate :=
  {| cnd_worker := (worker_at profile_world "worker-a") <| w_worker_id := "worker-b" |>;
     cnd_profile := Some ((profile_at profile_world "worker-a") <| rp_estimated_cost_units_per_run := 9 |>) |}.

Lemma ranking_deterministic_witness :
  exists ranked, rank_routing_candidates [candidate_b; candidate_a] 1 = Ok ranked /\
    rank_routing_candidates [candidate_a; candidate_b] 1 = Ok ranked /\
    ranked ≡ₚ [candidate_b; candidate_a] /\ StronglySorted (ranked_le 1) ranked.
Proof.
  apply (ranking_deterministic 1 [candidate_b; candidate_a] [candidate_a; candidate_b]).
  - repeat constructor; vm_compute; discriminate.
  - apply (bool_decide_unpack _). vm_compute. exact I.
  - apply Permutation_swap.
Defined.

Lemma minimum_version_upward_closed_witness :
  runtime_version_matches (Some "v3.12") (JObj [("minimum", JStr "3.11")]) true = true.
Proof.
  apply (minimum_version_upward_closed (JObj [("minimum", JStr "3.11")]) "3.11" "3.11.4" "v3.12"
    [3; 11; 4] [3; 12] true); vm_compute; reflexivity.
Defined.

Lemma evidence_path_contained_witness :
  "logs" <> "" /\ "logs" <> "." /\ "logs" <> "..".
Proof.
  apply (evidence_path_contained "logs/step.txt" "logs/step.txt"); [vm_compute; reflexivity|discriminate|].
  left.
Defined.

Lemma validate_paths_occurs_witness :
  contains_worker_credential "docs/readme" = false /\ contains_absolute_local_path "docs/readme" = false.
Proof.
  apply (validate_paths_occurs (JObj [("path", JStr "docs/readme")])).
  - vm_compute. reflexivity.
  - eapply occurs_value; [left|]. constructor.
Defined.

Lemma validate_catalog_resolves_witness : ("worker-smoke", "1") ∈ [("worker-smoke", "1")].
Proof.
  apply (validate_catalog_resolves false [] [("worker-smoke", "1")] [smoke_repository] smoke_repository
    smoke_reference).
  - vm_compute. reflexivity.
  - left.
  - left.
Defined.
