(* ===== verification/Tasks.v ===== *)
(** * The task plane: agents, tasks, leases and dependencies

    [server/domain] (entities, policies, statuses), the SQLAlchemy repositories of
    [server/infrastructure/repositories.py] and [TaskService] of
    [server/application/task_service.py], with [SystemStateService].

    The tables are [tasks] by id, [task_dependencies] as the set of its edges (a
    unique constraint makes it one), [leases] by their unique [task_id], [agents]
    as the set of known ids, and the two singletons, the plan version and the system
    state.  The bookkeeping timestamps ([created_at], [updated_at], and the
    [issued_at] of a lease, which is its [created_at]) are left out: no decision
    reads them.  The notifications to extensions ([_notify]) carry no state. *)

From S2P Require Import Prelude Text Models.

(** ** Domain *)

Inductive TaskStatus := T_PENDING | T_IN_PROGRESS | T_COMPLETED.

#[global] Instance TaskStatus_eq : EqDecision TaskStatus.
Proof. solve_decision. Defined.

Definition task_status_value (s : TaskStatus) : string :=
  match s with
  | T_PENDING => "pending" | T_IN_PROGRESS => "in_progress" | T_COMPLETED => "completed"
  end.

(** [normalize_task_status] of a string. *)
Definition normalize_task_status (v : string) : option TaskStatus :=
  head (filter (fun s => task_status_value s = v) [T_PENDING; T_IN_PROGRESS; T_COMPLETED]).

(** A row of [tasks]. *)
Record Task := {
  task_id : Z;
  task_title : string;
  task_description : string;
  task_priority : Z;
  task_status : TaskStatus;
  task_completed_notes : option string;
}.

#[export] Instance Task_rebuild : Rebuild Task := fun t =>
  {| task_id := task_id t; task_title := task_title t; task_description := task_description t;
     task_priority := task_priority t; task_status := task_status t;
     task_completed_notes := task_completed_notes t |}.

(** [TaskRecord]: a row with its dependencies, sorted. *)
Record TaskRecord := { rec_task : Task; rec_depends_on : list Z }.

Definition rec_id (r : TaskRecord) : Z := task_id (rec_task r).

(** [TaskRecord.with_status] *)
Definition with_status (s : TaskStatus) (notes : option string) (r : TaskRecord) : TaskRecord :=
  {| rec_task := (rec_task r) <| task_status := s |> <| task_completed_notes := notes |>;
     rec_depends_on := rec_depends_on r |}.

(** [LeaseRecord] *)
Record TaskLease := { tl_task_id : Z; tl_agent_id : string; tl_expires_at : Z }.

Definition lease_refresh (l : TaskLease) (expires_at : Z) : TaskLease :=
  {| tl_task_id := tl_task_id l; tl_agent_id := tl_agent_id l; tl_expires_at := expires_at |}.

(** [SystemState] *)
Record SystemState := { ss_maintenance_mode : bool; ss_message : option string; ss_version : Z }.

(** ** Policies *)

(** [TaskAvailabilityPolicy.is_available] *)
Definition is_available (t : Task) (dependencies_completed : bool) (lease : option TaskLease)
    (now : Z) : bool :=
  if negb (bool_decide (task_status t = T_PENDING)) then false
  else if negb dependencies_completed then false
  else match lease with Some l => negb (now <? tl_expires_at l) | None => true end.

Section lease_policy.
Context (lease_duration_seconds : Z).

Definition deadline (now : Z) : Z := now + seconds lease_duration_seconds.

Definition can_heartbeat (lease : option TaskLease) (agent_id : string) (now : Z) : bool :=
  match lease with
  | Some l => bool_decide (tl_agent_id l = agent_id) && (now <? tl_expires_at l)
  | None => false
  end.

Definition can_complete (lease : option TaskLease) (agent_id : string) (now : Z) : bool :=
  match lease with
  | None => true
  | Some l => bool_decide (tl_agent_id l = agent_id) || (tl_expires_at l <=? now)
  end.

Definition can_abandon (lease : option TaskLease) (agent_id : string) (now : Z) : bool :=
  match lease with
  | None => true
  | Some l => bool_decide (tl_agent_id l = agent_id) || (tl_expires_at l <=? now)
  end.

Definition refresh (l : TaskLease) (now : Z) : TaskLease := lease_refresh l (deadline now).

Definition new_lease (task_id : Z) (agent_id : string) (now : Z) : TaskLease :=
  {| tl_task_id := task_id; tl_agent_id := agent_id; tl_expires_at := deadline now |}.
End lease_policy.

(** ** State *)

Record TaskDB := {
  tasks : gmap Z Task;
  dependencies : gset (Z * Z);  (** (task, the task it depends on) *)
  leases : gmap Z TaskLease;
  agents : gset string;
  plan_row : option Z;
  system_row : option SystemState;
}.

#[export] Instance TaskDB_rebuild : Rebuild TaskDB := fun d =>
  {| tasks := tasks d; dependencies := dependencies d; leases := leases d; agents := agents d;
     plan_row := plan_row d; system_row := system_row d |}.

Definition empty_tasks : TaskDB :=
  {| tasks := ∅; dependencies := ∅; leases := ∅; agents := ∅; plan_row := None;
     system_row := None |}.

(** Exceptions of [server/application/exceptions.py] and of the repositories. *)
Inductive TaskError :=
| MissingDependenciesError (missing_ids : list Z)
| TaskNotFoundError
| SelfDependencyError
| SystemStateConcurrencyError (expected : option Z) (actual : Z)
| SystemStateConflictError (expected : option Z) (actual : Z)
| TaskRuntimeError (message : string).

Abbreviation act A := (M TaskError TaskDB A).

(** Ascending order of ids, [sorted(...)]. *)
Definition sort_ids (l : list Z) : list Z := merge_sort Z.le l.

(** ** Repositories *)

Module TaskRepository.
Definition dependencies_of_db (d : TaskDB) (id : Z) : list Z :=
  sort_ids (omap (fun e => if bool_decide (e.1 = id) then Some e.2 else None)
              (elements (dependencies d))).

Definition to_record (d : TaskDB) (t : Task) : TaskRecord :=
  {| rec_task := t; rec_depends_on := dependencies_of_db d (task_id t) |}.

(** [ORDER BY priority DESC, id] *)
Definition candidate_le (a b : Task) : Prop :=
  task_priority b < task_priority a \/
  (task_priority a = task_priority b /\ task_id a <= task_id b).

#[global] Instance candidate_le_dec : RelDecision candidate_le.
Proof. intros a b. unfold candidate_le. apply _. Defined.

Definition list_candidates (id : option Z) : act (list TaskRecord) :=
  gets (fun d =>
    match id with
    | Some i => match tasks d !! i with Some t => [to_record d t] | None => [] end
    | None => to_record d <$> merge_sort candidate_le (map_to_list (tasks d)).*2
    end).

Definition get (id : Z) : act (option TaskRecord) :=
  gets (fun d => to_record d <$> tasks d !! id).

Definition claim_pending (id : Z) : act (option TaskRecord) := fun d =>
  match tasks d !! id with
  | Some t =>
      if bool_decide (task_status t = T_PENDING) then
        let t' := t <| task_status := T_IN_PROGRESS |> in
        let d' := d <| tasks := <[id := t']> (tasks d) |> in
        (Ok (Some (to_record d' t')), d')
      else (Ok None, d)
  | None => (Ok None, d)
  end.

(** Title, description, status and notes are written back. *)
Definition save (r : TaskRecord) : act TaskRecord := fun d =>
  match tasks d !! rec_id r with
  | None => (Err (TaskRuntimeError "Task does not exist"), d)
  | Some t =>
      let s := rec_task r in
      let t' := t <| task_title := task_title s |> <| task_description := task_description s |>
                  <| task_status := task_status s |>
                  <| task_completed_notes := task_completed_notes s |> in
      let d' := d <| tasks := <[rec_id r := t']> (tasks d) |> in
      (Ok (to_record d' t'), d')
  end.

(** [tuple(sorted(set(depends_on)))] *)
Definition normalized (depends_on : list Z) : list Z := sort_ids (dedup depends_on).

Definition edges (id : Z) (deps : list Z) : gset (Z * Z) := list_to_set (map (pair id) deps).

Definition create (title description : string) (depends_on : list Z) (priority : Z)
    : act TaskRecord := fun d =>
  let id := fresh_id (tasks d) in
  let t := {| task_id := id; task_title := title; task_description := description;
              task_priority := priority; task_status := T_PENDING;
              task_completed_notes := None |} in
  (Ok {| rec_task := t; rec_depends_on := normalized depends_on |},
   d <| tasks := <[id := t]> (tasks d) |>
     <| dependencies := edges id (normalized depends_on) ∪ dependencies d |>).

Record Changes := {
  ch_title : option string;
  ch_description : option string;
  ch_status : option TaskStatus;
  ch_depends_on : option (list Z);
  ch_completed_notes : option string;
  ch_priority : option Z;
}.

Definition or_keep {A} (o : option A) (a : A) : A := match o with Some x => x | None => a end.

Definition changed (c : Changes) (t : Task) : Task :=
  {| task_id := task_id t; task_title := or_keep (ch_title c) (task_title t);
     task_description := or_keep (ch_description c) (task_description t);
     task_priority := or_keep (ch_priority c) (task_priority t);
     task_status := or_keep (ch_status c) (task_status t);
     task_completed_notes :=
       match ch_completed_notes c with
       | Some n => Some n
       | None => if bool_decide (ch_status c = Some T_COMPLETED) then None
                 else task_completed_notes t
       end |}.

Definition outgoing (id : Z) (s : gset (Z * Z)) : gset (Z * Z) := filter (fun e => e.1 = id) s.
Definition touching (id : Z) (s : gset (Z * Z)) : gset (Z * Z) :=
  filter (fun e => e.1 = id \/ e.2 = id) s.

Definition update (id : Z) (c : Changes) : act (option TaskRecord) := fun d =>
  match tasks d !! id with
  | None => (Ok None, d)
  | Some t =>
      let t' := changed c t in
      let deps := match ch_depends_on c with
                  | Some l => edges id (normalized l)
                              ∪ (dependencies d ∖ outgoing id (dependencies d))
                  | None => dependencies d
                  end in
      let d' := d <| tasks := <[id := t']> (tasks d) |> <| dependencies := deps |> in
      (Ok (Some (to_record d' t')), d')
  end.

Definition delete (id : Z) : act bool := fun d =>
  let d1 := d <| dependencies := dependencies d ∖ touching id (dependencies d) |> in
  match tasks d !! id with
  | None => (Ok false, d1)
  | Some _ => (Ok true, d1 <| tasks := base.delete id (tasks d) |>)
  end.

(** Dependencies whose row is missing are not among the rows inspected. *)
Definition dependencies_completed (id : Z) : act bool :=
  gets (fun d => forallb (fun dep => match tasks d !! dep with
                                     | Some t => bool_decide (task_status t = T_COMPLETED)
                                     | None => true
                                     end) (dependencies_of_db d id)).

Definition existing_ids (ids : list Z) : act (list Z) :=
  gets (fun d => filter (fun i => is_Some (tasks d !! i)) (dedup ids)).

(** *** Analytics *)

Record TaskAnalytics := {
  an_total_tasks : Z; an_pending_tasks : Z; an_in_progress_tasks : Z; an_completed_tasks : Z;
  an_ready_tasks : Z; an_blocked_tasks : Z; an_with_dependencies : Z;
  an_without_dependencies : Z; an_dependency_edges : Z; an_missing_dependency_tasks : Z;
  an_missing_dependency_edges : Z;
}.

(** What the loop adds for one task: ready, blocked, missing tasks, missing edges. *)
Definition task_health (d : TaskDB) (t : Task) : Z * Z * Z * Z :=
  let deps := dependencies_of_db d (task_id t) in
  if negb (bool_decide (task_status t = T_PENDING)) then (0, 0, 0, 0)
  else match deps with
  | [] => (1, 0, 0, 0)
  | _ =>
      let missing := Z.of_nat (length (filter (fun dep => tasks d !! dep = None) deps)) in
      let all_completed := forallb (fun dep => match tasks d !! dep with
                             | Some t' => bool_decide (task_status t' = T_COMPLETED)
                             | None => false end) deps in
      (if all_completed then 1 else 0, if all_completed then 0 else 1,
       if 0 <? missing then 1 else 0, missing)
  end.

Definition has_status (s : TaskStatus) (t : Task) : Z :=
  if bool_decide (task_status t = s) then 1 else 0.

(** The average, a quotient of two reported fields, is left to the reader. *)
Definition analytics : act TaskAnalytics :=
  gets (fun d =>
    let deg t := Z.of_nat (length (dependencies_of_db d (task_id t))) in
    let total := msum (fun _ => 1) (tasks d) in
    let with_deps := msum (fun t => if 0 <? deg t then 1 else 0) (tasks d) in
    {| an_total_tasks := total;
       an_pending_tasks := msum (has_status T_PENDING) (tasks d);
       an_in_progress_tasks := msum (has_status T_IN_PROGRESS) (tasks d);
       an_completed_tasks := msum (has_status T_COMPLETED) (tasks d);
       an_ready_tasks := msum (fun t => (task_health d t).1.1.1) (tasks d);
       an_blocked_tasks := msum (fun t => (task_health d t).1.1.2) (tasks d);
       an_with_dependencies := with_deps; an_without_dependencies := total - with_deps;
       an_dependency_edges := msum deg (tasks d);
       an_missing_dependency_tasks := msum (fun t => (task_health d t).1.2) (tasks d);
       an_missing_dependency_edges := msum (fun t => (task_health d t).2) (tasks d) |}).
End TaskRepository.

Module LeaseRepository.
Definition expire_stale (now : Z) : act (list Z) := fun d =>
  let expired := (filter (fun kv => tl_expires_at kv.2 < now) (rows_in_order (leases d))).*1 in
  (Ok expired, d <| leases := foldr base.delete (leases d) expired |>).

Definition for_task (id : Z) : act (option TaskLease) := gets (fun d => leases d !! id).

Definition save (l : TaskLease) : act TaskLease := fun d =>
  (Ok l, d <| leases := <[tl_task_id l := l]> (leases d) |>).

Definition delete (id : Z) : act unit :=
  modify (fun d => d <| leases := base.delete id (leases d) |>).
End LeaseRepository.

Module PlanVersionRepository.
(** [_ensure_row], returning the value *)
Definition current : act Z := fun d =>
  match plan_row d with
  | Some v => (Ok v, d)
  | None => (Ok 0, d <| plan_row := Some 0 |>)
  end.

Definition increment : act Z :=
  v ← current;
  _ ← modify (fun d => d <| plan_row := Some (v + 1) |>);
  mret (v + 1).
End PlanVersionRepository.

Module SystemStateRepository.
Definition default_state : SystemState :=
  {| ss_maintenance_mode := false; ss_message := None; ss_version := 0 |}.

Definition get_state : act SystemState :=
  gets (fun d => match system_row d with Some s => s | None => default_state end).

Definition update_state (maintenance_mode : bool) (message : option string)
    (expected_version : option Z) : act SystemState := fun d =>
  let row := match system_row d with Some s => s | None => default_state end in
  let d1 := d <| system_row := Some row |> in
  if match expected_version with Some v => negb (ss_version row =? v) | None => false end
  then (Err (SystemStateConcurrencyError expected_version (ss_version row)), d1)
  else
    let s := {| ss_maintenance_mode := maintenance_mode;
                ss_message := match message with Some m => if bool_decide (m = "") then None
                                                           else Some m | None => None end;
                ss_version := ss_version row + 1 |} in
    (Ok s, d1 <| system_row := Some s |>).
End SystemStateRepository.

Definition ensure_agent_row (agent_id : string) : act unit :=
  modify (fun d => d <| agents := {[agent_id]} ∪ agents d |>).

(** ** [TaskService] *)

Record TaskEnv := { te_lease_seconds : Z; te_system_state : bool }.

Record TaskCheckoutResult := {
  tc_task : option TaskRecord;
  tc_lease : option TaskLease;
  tc_reason : option string;
  tc_message : option string;
}.

Record CompletionResult := { cr_ok : bool; cr_task : option TaskRecord; cr_notes : option string }.
Record HeartbeatResult := { hr_ok : bool; hr_task_id : Z }.

(** [_dependencies_completed_from_records]: [None] when an unknown dependency is
    met before one that is not completed. *)
Fixpoint known_completed (statuses : gmap Z TaskStatus) (deps : list Z) : option bool :=
  match deps with
  | [] => Some true
  | dep :: rest =>
      match statuses !! dep with
      | None => None
      | Some s => if bool_decide (s = T_COMPLETED) then known_completed statuses rest else Some false
      end
  end.

(** [_normalize_dependencies] *)
Definition normalize_dependencies (depends_on : list Z) : list Z := sort_ids (dedup depends_on).

Section task_service.
Context (env : TaskEnv).

(** Leases past their deadline are deleted and their tasks put back. *)
Definition restore_expired (now : Z) : act unit :=
  expired ← LeaseRepository.expire_stale now;
  for_each (fun _ id =>
      task ← TaskRepository.get id;
      match task with
      | Some t =>
          if negb (bool_decide (task_status (rec_task t) = T_PENDING))
          then _ ← TaskRepository.save (with_status T_PENDING None t); mret tt
          else mret tt
      | None => mret tt
      end) tt expired.

Definition not_available (pinned : option Z) : TaskCheckoutResult :=
  {| tc_task := None; tc_lease := None;
     tc_reason := Some (match pinned with Some _ => "task_not_available"
                                       | None => "no_available_tasks" end);
     tc_message := None |}.

(** Are the dependencies of a candidate completed? *)
Definition candidate_ready (statuses : option (gmap Z TaskStatus)) (t : TaskRecord) : act bool :=
  match statuses ≫= (fun st => known_completed st (rec_depends_on t)) with
  | Some b => mret b
  | None => TaskRepository.dependencies_completed (rec_id t)
  end.

Definition issue_lease (id : Z) (agent_id : string) (now : Z) : act TaskLease :=
  _ ← LeaseRepository.delete id;
  LeaseRepository.save (new_lease (te_lease_seconds env) id agent_id now).

(** The loop over the candidates of [checkout]; with a requested task there is at
    most one, and the loop breaks after it. *)
Fixpoint claim_first (agent_id : string) (pinned : option Z)
    (statuses : option (gmap Z TaskStatus)) (now : Z) (candidates : list TaskRecord)
    : act TaskCheckoutResult :=
  match candidates with
  | [] => mret (not_available pinned)
  | t :: rest =>
      let next := match pinned with
                  | Some _ => mret (not_available pinned)
                  | None => claim_first agent_id pinned statuses now rest
                  end in
      deps_completed ← candidate_ready statuses t;
      lease ← LeaseRepository.for_task (rec_id t);
      if is_available (rec_task t) deps_completed lease now then
        saved ← TaskRepository.claim_pending (rec_id t);
        match saved with
        | None => next
        | Some r =>
            persisted ← issue_lease (rec_id t) agent_id now;
            mret {| tc_task := Some r; tc_lease := Some persisted; tc_reason := None;
                    tc_message := None |}
        end
      else next
  end.

Definition checkout_tasks (agent_id : string) (pinned : option Z) (now : Z)
    : act TaskCheckoutResult :=
  _ ← ensure_agent_row agent_id;
  _ ← restore_expired now;
  candidates ← TaskRepository.list_candidates pinned;
  let statuses := match pinned with
                  | None => Some (list_to_map (map (fun r => (rec_id r, task_status (rec_task r)))
                                                 candidates))
                  | Some _ => None
                  end in
  claim_first agent_id pinned statuses now candidates.

Definition checkout (agent_id : string) (pinned : option Z) (now : Z) : act TaskCheckoutResult :=
  state ← SystemStateRepository.get_state;
  if te_system_state env && ss_maintenance_mode state then
    mret {| tc_task := None; tc_lease := None; tc_reason := Some "maintenance_mode";
            tc_message := ss_message state |}
  else checkout_tasks agent_id pinned now.

Definition heartbeat (agent_id : string) (id now : Z) : act HeartbeatResult :=
  lease ← LeaseRepository.for_task id;
  match lease with
  | Some l =>
      if can_heartbeat (Some l) agent_id now then
        _ ← LeaseRepository.save (refresh (te_lease_seconds env) l now);
        mret {| hr_ok := true; hr_task_id := id |}
      else mret {| hr_ok := false; hr_task_id := id |}
  | None => mret {| hr_ok := false; hr_task_id := id |}
  end.

Definition complete (agent_id : string) (id : Z) (notes : option string) (now : Z)
    : act CompletionResult :=
  let refused := {| cr_ok := false; cr_task := None; cr_notes := None |} in
  lease ← LeaseRepository.for_task id;
  if can_complete lease agent_id now then
    task ← TaskRepository.get id;
    match task with
    | None => mret refused
    | Some t =>
        let normalized_notes :=
          match notes with Some n => if bool_decide (n = "") then None else Some n
                         | None => None end in
        saved ← TaskRepository.save (with_status T_COMPLETED normalized_notes t);
        _ ← LeaseRepository.delete id;
        mret {| cr_ok := true; cr_task := Some saved;
                cr_notes := task_completed_notes (rec_task saved) |}
    end
  else mret refused.

Definition abandon (agent_id : string) (id now : Z) : act HeartbeatResult :=
  lease ← LeaseRepository.for_task id;
  if can_abandon lease agent_id now then
    task ← TaskRepository.get id;
    match task with
    | None => mret {| hr_ok := false; hr_task_id := id |}
    | Some t =>
        _ ← TaskRepository.save (with_status T_PENDING None t);
        _ ← LeaseRepository.delete id;
        mret {| hr_ok := true; hr_task_id := id |}
    end
  else mret {| hr_ok := false; hr_task_id := id |}.

(** [_ensure_dependencies_exist] *)
Definition ensure_dependencies_exist (deps : list Z) : act unit :=
  existing ← TaskRepository.existing_ids deps;
  let missing := sort_ids (filter (fun i => i ∉ existing) (dedup deps)) in
  ensure (bool_decide (missing = [])) (MissingDependenciesError missing).

Definition create_task (title description : string) (depends_on : list Z) (priority : Z)
    : act TaskRecord :=
  let deps := normalize_dependencies depends_on in
  _ ← ensure_dependencies_exist deps;
  TaskRepository.create title description deps priority.

Definition update_task (id : Z) (c : TaskRepository.Changes) : act TaskRecord :=
  _ ← ensure (match TaskRepository.ch_depends_on c with
              | Some l => negb (bool_decide (id ∈ l)) | None => true end) SelfDependencyError;
  task ← TaskRepository.get id;
  _ ← require task TaskNotFoundError;
  let deps := normalize_dependencies <$> TaskRepository.ch_depends_on c in
  _ ← match deps with Some l => ensure_dependencies_exist l | None => mret tt end;
  updated ← TaskRepository.update id
    {| TaskRepository.ch_title := TaskRepository.ch_title c;
       TaskRepository.ch_description := TaskRepository.ch_description c;
       TaskRepository.ch_status := TaskRepository.ch_status c;
       TaskRepository.ch_depends_on := deps;
       TaskRepository.ch_completed_notes := TaskRepository.ch_completed_notes c;
       TaskRepository.ch_priority := TaskRepository.ch_priority c |};
  r ← require updated TaskNotFoundError;
  _ ← (if bool_decide (TaskRepository.ch_status c = Some T_PENDING)
          || bool_decide (TaskRepository.ch_status c = Some T_COMPLETED)
       then LeaseRepository.delete id else mret tt);
  mret r.

Definition delete_task (id : Z) : act bool :=
  deleted ← TaskRepository.delete id;
  _ ← LeaseRepository.delete id;
  mret deleted.
End task_service.

(** ** [SystemStateService] *)

(** [_normalize_message] *)
Definition normalize_message (message : option string) : option string :=
  match message with
  | None => None
  | Some m => let n := strip m in if bool_decide (n = "") then None else Some n
  end.

Definition update_system_state (maintenance_mode : bool) (message : option string)
    (expected_version : option Z) : act SystemState :=
  handle (SystemStateRepository.update_state maintenance_mode (normalize_message message)
            expected_version)
    (fun e => match e with
              | SystemStateConcurrencyError _ actual =>
                  Some (raise (SystemStateConflictError expected_version actual))
              | _ => None
              end).
