(* ===== verification/TaskProofs.v ===== *)
(** * The task plane: invariant, checkout, ownership and counters

    Consequences of the definitions of [Tasks]: the invariant every operation keeps
    ([tinv]), what a checkout picks and what it writes, who may finish or release a
    task, and the two version counters; then the guarantees of the services over arbitrary
    requests, each with a concrete state in which its hypotheses hold. *)

From S2P Require Import Prelude Models Tasks.

Import TaskRepository.

(** ** The invariant *)

Record tinv (d : TaskDB) : Prop := {
  ti_ids : forall k t, tasks d !! k = Some t -> task_id t = k;
  ti_leases : forall k l, leases d !! k = Some l ->
    tl_task_id l = k /\ exists t, tasks d !! k = Some t /\ task_status t = T_IN_PROGRESS;
  ti_edges : forall a b, (a, b) ∈ dependencies d ->
    a <> b /\ is_Some (tasks d !! a) /\ is_Some (tasks d !! b);
}.

Definition keeps (m : TaskDB -> TaskDB) : Prop := forall d, tinv d -> tinv (m d).

(** Every dependency is a completed task. *)
Definition deps_done (d : TaskDB) (id : Z) : Prop :=
  forall b, (id, b) ∈ dependencies d ->
    exists u, tasks d !! b = Some u /\ task_status u = T_COMPLETED.

(** A task a checkout may hand out once stale leases are gone. *)
Definition ready (d : TaskDB) (t : Task) : Prop :=
  tasks d !! task_id t = Some t /\ task_status t = T_PENDING /\ deps_done d (task_id t).

(** ** Dependencies *)

Lemma elem_of_dependencies_of d id b :
  b ∈ dependencies_of_db d id <-> (id, b) ∈ dependencies d.
Proof.
  unfold dependencies_of_db, sort_ids. rewrite merge_sort_Permutation, list_elem_of_omap.
  split.
  - intros ([a c] & Hin & Hc). apply elem_of_elements in Hin. simpl in Hc.
    case_bool_decide; simplify_eq. done.
  - intros Hin. exists (id, b). split; [by apply elem_of_elements|]. simpl.
    by rewrite bool_decide_eq_true_2.
Qed.

Lemma dependencies_completed_spec d id :
  tinv d ->
  exists b, dependencies_completed id d = (Ok b, d) /\ (b = true <-> deps_done d id).
Proof.
  intros Hinv. eexists. split; [reflexivity|].
  rewrite <-Is_true_true, forallb_True, Forall_forall. unfold deps_done.
  split; intros Hall b Hb.
  - destruct (ti_edges d Hinv id b Hb) as (_ & _ & u & Hu).
    specialize (Hall b). rewrite elem_of_dependencies_of in Hall. specialize (Hall Hb).
    simpl in Hall. rewrite Hu in Hall. apply Is_true_true, bool_decide_eq_true in Hall. eauto.
  - apply elem_of_dependencies_of in Hb. destruct (Hall b Hb) as (u & -> & Hs).
    by rewrite bool_decide_eq_true_2.
Qed.

(** The lookup of statuses decides the same question when it knows every task. *)
Lemma known_completed_spec (st : gmap Z TaskStatus) deps :
  (forall b, b ∈ deps -> is_Some (st !! b)) ->
  exists b, known_completed st deps = Some b /\
            (b = true <-> forall c, c ∈ deps -> st !! c = Some T_COMPLETED).
Proof.
  induction deps as [|c deps IH]; intros Hk; simpl.
  - exists true. split; [done|]. split; [intros _ c Hc; inversion Hc|done].
  - destruct (Hk c) as [s Hs]; [left|]. rewrite Hs. case_bool_decide as Hd.
    + destruct IH as (b & -> & Hb); [intros; apply Hk; by right|].
      exists b. split; [done|]. rewrite Hb. split.
      * intros Hall c' [->|Hc']%elem_of_cons; [congruence|auto].
      * intros Hall c' Hc'. apply Hall. by right.
    + exists false. split; [done|]. split; [done|]. intros Hall.
      rewrite Hall in Hs by left. congruence.
Qed.

Lemma candidate_ready_spec d t statuses :
  tinv d -> statuses = None \/ statuses = Some (task_status <$> tasks d) ->
  exists b, candidate_ready statuses (to_record d t) d = (Ok b, d) /\
            (b = true <-> deps_done d (task_id t)).
Proof.
  intros Hinv [->| ->]; unfold candidate_ready; cbn [mbind option_bind].
  { by apply dependencies_completed_spec. }
  destruct (known_completed_spec (task_status <$> tasks d) (dependencies_of_db d (task_id t)))
    as (b & Hk & Hb).
  { intros c Hc. apply elem_of_dependencies_of, (ti_edges d Hinv) in Hc as (_ & _ & Hc).
    by rewrite lookup_fmap, fmap_is_Some. }
  cbn [to_record rec_depends_on]. rewrite Hk. exists b. split; [done|]. rewrite Hb.
  unfold deps_done. split; intros Hall c Hc.
  - apply elem_of_dependencies_of, Hall in Hc. rewrite lookup_fmap in Hc.
    apply fmap_Some in Hc as (u & ? & ?). eauto.
  - apply elem_of_dependencies_of, Hall in Hc as (u & Hu & Hs).
    by rewrite lookup_fmap, Hu, <-Hs.
Qed.

(** ** Stale leases *)

Definition reopened (t : Task) : Task :=
  t <| task_status := T_PENDING |> <| task_completed_notes := None |>.

Definition reopen_all (ids : list Z) (m : gmap Z Task) : gmap Z Task :=
  map_imap (fun k t => Some (if bool_decide (k ∈ ids) then reopened t else t)) m.

Definition stale_ids (now : Z) (d : TaskDB) : list Z :=
  (filter (fun kv => tl_expires_at kv.2 < now) (rows_in_order (leases d))).*1.

(** The state in which the candidates are listed. *)
Definition restored (now : Z) (d : TaskDB) : TaskDB :=
  d <| leases := filter (fun kv => ~ tl_expires_at kv.2 < now) (leases d) |>
    <| tasks := reopen_all (stale_ids now d) (tasks d) |>.

Lemma elem_of_stale now d k :
  k ∈ stale_ids now d <-> exists l, leases d !! k = Some l /\ tl_expires_at l < now.
Proof.
  unfold stale_ids. rewrite list_elem_of_fmap. split.
  - intros ([k' l] & -> & Hin). apply list_elem_of_filter in Hin as [Hl Hin].
    apply rows_in_order_elem in Hin. eauto.
  - intros (l & Hl & Ht). exists (k, l). split; [done|].
    apply list_elem_of_filter. split; [done|]. by apply rows_in_order_elem.
Qed.

Lemma NoDup_stale now d : NoDup (stale_ids now d).
Proof.
  unfold stale_ids, rows_in_order.
  assert (NoDup (merge_sort key_le (map_to_list (leases d))).*1) as Hn.
  { rewrite merge_sort_Permutation. apply NoDup_fst_map_to_list. }
  revert Hn. generalize (merge_sort key_le (map_to_list (leases d))). intros l.
  induction l as [|[k x] l IH]; simpl; [done|]. intros [Hk Hl]%NoDup_cons.
  rewrite filter_cons. case_decide; simpl; [|auto]. constructor; [|auto].
  rewrite list_elem_of_fmap. intros (y & -> & [_ Hy]%list_elem_of_filter).
  apply Hk. apply list_elem_of_fmap. eauto.
Qed.

Lemma lookup_reopen_all ids m k :
  reopen_all ids m !! k = (fun t => if bool_decide (k ∈ ids) then reopened t else t) <$> m !! k.
Proof. unfold reopen_all. rewrite map_lookup_imap. by destruct (m !! k). Qed.

Lemma reopen_all_cons id ids m t :
  m !! id = Some t -> id ∉ ids ->
  reopen_all ids (<[id := reopened t]> m) = reopen_all (id :: ids) m.
Proof.
  intros Ht Hn. apply map_eq. intros k. rewrite !lookup_reopen_all.
  destruct (decide (k = id)) as [->|Hne].
  - rewrite lookup_insert_eq, Ht. simpl. f_equal.
    rewrite (bool_decide_eq_false_2 (id ∈ ids)), bool_decide_eq_true_2; [done|left|done].
  - rewrite lookup_insert_ne by done. destruct (m !! k); simpl; [|done]. f_equal.
    by rewrite (bool_decide_ext (k ∈ ids) (k ∈ id :: ids))
      by (rewrite elem_of_cons; naive_solver).
Qed.

Lemma reopen_loop ids d :
  NoDup ids ->
  (forall k, k ∈ ids -> exists t, tasks d !! k = Some t /\ task_id t = k /\
                                  task_status t <> T_PENDING) ->
  for_each (fun _ id =>
      task ← TaskRepository.get id;
      match task with
      | Some t =>
          if negb (bool_decide (task_status (rec_task t) = T_PENDING))
          then _ ← TaskRepository.save (with_status T_PENDING None t); mret tt
          else mret tt
      | None => mret tt
      end) tt ids d = (Ok tt, d <| tasks := reopen_all ids (tasks d) |>).
Proof.
  revert d. induction ids as [|id ids IH]; intros d Hnd Hids; simpl.
  { unfold mret, M_ret. f_equal. replace (reopen_all [] (tasks d)) with (tasks d); [by destruct d|].
    apply map_eq. intros k. rewrite lookup_reopen_all. by destruct (tasks d !! k). }
  apply NoDup_cons in Hnd as [Hn Hnd].
  destruct (Hids id) as (t & Ht & Hid & Hs); [left|].
  unfold mbind at 1, M_bind at 1. unfold mbind at 1, M_bind at 1.
  unfold TaskRepository.get at 1, gets at 1. rewrite Ht. simpl.
  rewrite bool_decide_eq_false_2 by done. simpl.
  unfold mbind at 1, M_bind at 1.
  unfold TaskRepository.save at 1. cbn [rec_id with_status rec_task to_record]. rsimpl.
  change (rec_id (with_status T_PENDING None (to_record d t))) with (task_id t).
  rewrite Hid, Ht.
  replace (t <| task_title := task_title t |> <| task_description := task_description t |>
             <| task_status := T_PENDING |> <| task_completed_notes := None |>)
    with (reopened t) by (by destruct t).
  unfold mret, M_ret. rewrite IH; [|done|].
  - f_equal. rsimpl. rewrite (reopen_all_cons id ids (tasks d) t Ht Hn). by destruct d.
  - intros k Hk. rsimpl. rewrite lookup_insert_ne by (intros ->; done). apply Hids. by right.
Qed.

Lemma foldr_delete_filter now d :
  foldr base.delete (leases d) (stale_ids now d) =
  filter (fun kv => ~ tl_expires_at kv.2 < now) (leases d).
Proof.
  assert (forall ids m k, foldr (base.delete (M := gmap Z TaskLease)) m ids !! k =
            if decide (k ∈ ids) then None else m !! k) as Hl.
  { intros ids m k. induction ids as [|i ids IH]; cbn [foldr].
    - by rewrite decide_False by apply not_elem_of_nil.
    - destruct (decide (i = k)) as [->|Hne].
      + rewrite lookup_delete_eq. by rewrite decide_True by left.
      + rewrite lookup_delete_ne, IH by done.
        repeat case_decide; [done| |exfalso|done]; rewrite elem_of_cons in *; naive_solver. }
  apply map_eq. intros k. rewrite Hl.
  destruct (leases d !! k) as [l|] eqn:Hk.
  - case_decide as Hs; rewrite elem_of_stale in Hs; symmetry.
    + apply map_lookup_filter_None. right. intros x Hx. destruct Hs as (y & ? & ?).
      simplify_eq. naive_solver.
    + apply map_lookup_filter_Some. split; [done|]. simpl. intros ?. apply Hs. eauto.
  - rewrite (proj2 (map_lookup_filter_None _ _ _)) by auto. by case_decide.
Qed.

Lemma restore_expired_run now d :
  tinv d -> restore_expired now d = (Ok tt, restored now d).
Proof.
  intros Hinv. unfold restore_expired, LeaseRepository.expire_stale.
  unfold mbind at 1, M_bind at 1. fold (stale_ids now d).
  rewrite reopen_loop.
  - f_equal. unfold restored. rsimpl. by rewrite foldr_delete_filter.
  - apply NoDup_stale.
  - intros k (l & Hl & _)%elem_of_stale. rsimpl.
    destruct (ti_leases d Hinv k l Hl) as (_ & t & Ht & Hs).
    exists t. rewrite (ti_ids d Hinv k t Ht), Hs. done.
Qed.

Lemma restored_inv now d : tinv d -> tinv (restored now d).
Proof.
  intros Hinv. unfold restored. split; rsimpl.
  - intros k t. rewrite lookup_reopen_all. intros (u & Hu & ->)%fmap_Some.
    apply (ti_ids d Hinv) in Hu. by case_bool_decide.
  - intros k l Hl. apply map_lookup_filter_Some in Hl as [Hl Hlive]. simpl in Hlive.
    destruct (ti_leases d Hinv k l Hl) as (? & t & Ht & Hs). split; [done|].
    exists t. rewrite lookup_reopen_all, Ht. simpl. rewrite bool_decide_eq_false_2; [done|].
    rewrite elem_of_stale. intros (l' & Hl' & ?). by simplify_eq.
  - intros a b Hab. rewrite !lookup_reopen_all, !fmap_is_Some. by apply (ti_edges d Hinv).
Qed.

(** ** Checkout *)

#[global] Instance candidate_le_total : Total candidate_le.
Proof. intros a b. unfold candidate_le. lia. Qed.

#[global] Instance candidate_le_trans : Transitive candidate_le.
Proof. intros a b c. unfold candidate_le. lia. Qed.

#[global] Instance candidate_le_refl : Reflexive candidate_le.
Proof. intros a. unfold candidate_le. lia. Qed.

Section checkout.
Context (env : TaskEnv) (agent_id : string) (now : Z).

Definition issued (t : Task) : TaskLease :=
  new_lease (te_lease_seconds env) (task_id t) agent_id now.

(** The state after task [t] is handed out. *)
Definition claimed (d : TaskDB) (t : Task) : TaskDB :=
  d <| tasks := <[task_id t := t <| task_status := T_IN_PROGRESS |>]> (tasks d) |>
    <| leases := <[task_id t := issued t]> (leases d) |>.

Definition handed_out (d : TaskDB) (t : Task) : TaskCheckoutResult :=
  {| tc_task := Some (to_record (claimed d t) (t <| task_status := T_IN_PROGRESS |>));
     tc_lease := Some (issued t); tc_reason := None; tc_message := None |}.

Lemma claimed_inv d t : tinv d -> ready d t -> tinv (claimed d t).
Proof.
  intros Hinv (Ht & Hs & _). unfold claimed. split; rsimpl.
  - intros k u [[<- <-]|[_ Hu]]%lookup_insert_Some; [done|]. by apply (ti_ids d Hinv).
  - intros k l [[<- <-]|[Hne Hl]]%lookup_insert_Some.
    + split; [done|]. rewrite lookup_insert_eq. by eexists.
    + rewrite lookup_insert_ne by done. by apply (ti_leases d Hinv).
  - intros a b Hab. destruct (ti_edges d Hinv a b Hab) as (? & Ha & Hb).
    split; [done|]. split; apply lookup_insert_is_Some'; auto.
Qed.

(** A pending task carries no lease, so a candidate's own lease never decides. *)
Lemma pending_unleased d t :
  tinv d -> tasks d !! task_id t = Some t -> task_status t = T_PENDING ->
  leases d !! task_id t = None.
Proof.
  intros Hinv Ht Hs. destruct (leases d !! task_id t) as [l|] eqn:Hl; [|done].
  apply (ti_leases d Hinv) in Hl as (_ & u & Hu & Hp). congruence.
Qed.

(** The body of the loop for a candidate that is available. *)
Definition claim_one (id : Z) (next : act TaskCheckoutResult) : act TaskCheckoutResult :=
  saved ← TaskRepository.claim_pending id;
  match saved with
  | None => next
  | Some r =>
      persisted ← issue_lease env id agent_id now;
      mret {| tc_task := Some r; tc_lease := Some persisted; tc_reason := None;
              tc_message := None |}
  end.

Lemma claim_run d t next :
  tinv d -> ready d t -> claim_one (task_id t) next d = (Ok (handed_out d t), claimed d t).
Proof.
  intros Hinv (Ht & Hs & _). unfold claim_one, mbind, M_bind, claim_pending.
  rewrite Ht, bool_decide_eq_true_2 by done.
  unfold issue_lease, LeaseRepository.delete, LeaseRepository.save, modify, mbind, M_bind, mret, M_ret.
  assert (leases d !! task_id t = None) as Hl by (by apply pending_unleased).
  f_equal. unfold claimed. rsimpl.
  change (tl_task_id (new_lease (te_lease_seconds env) (task_id t) agent_id now))
    with (task_id t).
  rewrite delete_id by done. by destruct d.
Qed.

Lemma claim_first_cons pinned statuses d t l b :
  candidate_ready statuses (to_record d t) d = (Ok b, d) ->
  let next := match pinned with
              | Some _ => mret (not_available pinned)
              | None => claim_first env agent_id pinned statuses now (to_record d <$> l)
              end in
  claim_first env agent_id pinned statuses now (to_record d <$> t :: l) d =
  (if is_available t b (leases d !! task_id t) now then claim_one (task_id t) next else next) d.
Proof.
  intros Hb next. cbn [fmap list_fmap claim_first]. unfold mbind at 1, M_bind at 1.
  rewrite Hb. reflexivity.
Qed.

Lemma claim_first_spec pinned statuses d l :
  tinv d -> statuses = None \/ statuses = Some (task_status <$> tasks d) ->
  Forall (fun t => tasks d !! task_id t = Some t) l ->
  pinned = None \/ (length l <= 1)%nat ->
  (exists t pre post, l = pre ++ t :: post /\ ready d t /\ Forall (fun u => ~ ready d u) pre /\
     claim_first env agent_id pinned statuses now (to_record d <$> l) d =
     (Ok (handed_out d t), claimed d t)) \/
  (Forall (fun u => ~ ready d u) l /\
   claim_first env agent_id pinned statuses now (to_record d <$> l) d =
   (Ok (not_available pinned), d)).
Proof.
  intros Hinv Hst Hl Hp. induction Hl as [|t l Ht Hl IH]; [by right|].
  destruct (candidate_ready_spec d t statuses Hinv Hst) as (b & Hb & Hd).
  rewrite (claim_first_cons pinned statuses d t l b Hb).
  assert (is_available t b (leases d !! task_id t) now = true <-> ready d t) as Hav.
  { unfold is_available, ready. rewrite <-Hd.
    case_bool_decide as Hs; simpl; [|naive_solver].
    rewrite (pending_unleased d t) by done. destruct b; simpl; naive_solver. }
  destruct (is_available t b (leases d !! task_id t) now) eqn:Ha.
  - left. exists t, [], l. split; [done|]. split; [by apply Hav|]. split; [done|].
    by apply claim_run, Hav.
  - assert (~ ready d t) as Hn by (intros Hr%Hav; done).
    destruct pinned as [i|].
    + right. destruct Hp as [?|Hlen]; [done|]. destruct l; simpl in Hlen; [|lia].
      split; [by constructor|reflexivity].
    + destruct IH as [(u & pre & post & -> & Hr & Hpre & Hrun)|[Hno Hrun]]; [by left| |].
      * left. exists u, (t :: pre), post. auto.
      * right. auto.
Qed.

(** The state a checkout chooses from. *)
Definition opened (d : TaskDB) : TaskDB :=
  restored now (d <| agents := {[agent_id]} ∪ agents d |>).

Lemma opened_inv d : tinv d -> tinv (opened d).
Proof. intros [H1 H2 H3]. apply restored_inv. by split. Qed.

Lemma checkout_opened pinned d :
  tinv d ->
  checkout_tasks env agent_id pinned now d =
  (candidates ← TaskRepository.list_candidates pinned;
   claim_first env agent_id pinned
     (match pinned with
      | None => Some (list_to_map (map (fun r => (rec_id r, task_status (rec_task r))) candidates))
      | Some _ => None end) now candidates) (opened d).
Proof.
  intros [H1 H2 H3]. unfold checkout_tasks, ensure_agent_row, modify.
  unfold mbind at 1, M_bind at 1. unfold mbind at 1, M_bind at 1.
  rewrite restore_expired_run by (by split). reflexivity.
Qed.

Lemma statuses_known d l :
  tinv d -> l ≡ₚ (map_to_list (tasks d)).*2 ->
  list_to_map (map (fun r => (rec_id r, task_status (rec_task r))) (to_record d <$> l)) =
  task_status <$> tasks d.
Proof.
  intros Hinv Hl. rewrite <-(list_to_map_to_list (task_status <$> tasks d)).
  change (map ?f) with (fmap (M := list) f). rewrite <-list_fmap_compose.
  assert ((fun t => (task_id t, task_status t)) <$> l ≡ₚ map_to_list (task_status <$> tasks d))
    as Hp.
  { rewrite Hl, map_to_list_fmap, <-list_fmap_compose. apply reflexive_eq, list_fmap_ext.
    intros i [k t] Hk. apply list_elem_of_lookup_2, elem_of_map_to_list, (ti_ids d Hinv) in Hk. simpl. by rewrite Hk. }
  change (list_to_map ((fun t => (task_id t, task_status t)) <$> l)
          = list_to_map (M := gmap Z TaskStatus) (map_to_list (task_status <$> tasks d))).
  apply list_to_map_proper; [|exact Hp]. rewrite Hp. apply NoDup_fst_map_to_list.
Qed.
Lemma candidates_elem d u :
  tinv d -> tasks d !! task_id u = Some u <->
            u ∈ merge_sort candidate_le (map_to_list (tasks d)).*2.
Proof.
  intros Hinv. rewrite merge_sort_Permutation, list_elem_of_fmap. split.
  - intros Hu. exists (task_id u, u). split; [done|]. by apply elem_of_map_to_list.
  - intros ([k t] & -> & Hk). apply elem_of_map_to_list in Hk. simpl.
    by rewrite (ti_ids d Hinv k t Hk).
Qed.

(** In maintenance nothing is handed out and nothing changes. *)
Lemma checkout_maintenance pinned d :
  let state := default SystemStateRepository.default_state (system_row d) in
  checkout env agent_id pinned now d =
  if te_system_state env && ss_maintenance_mode state then
    (Ok {| tc_task := None; tc_lease := None; tc_reason := Some "maintenance_mode";
           tc_message := ss_message state |}, d)
  else checkout_tasks env agent_id pinned now d.
Proof.
  unfold checkout, SystemStateRepository.get_state, gets, mbind, M_bind, default.
  destruct (system_row d); simpl; by destruct (_ && _).
Qed.

(** Without a requested task, the ready task that comes first in the order of the
    query is handed out, and none only when none is ready. *)
Lemma checkout_any d :
  tinv d ->
  let d0 := opened d in
  (exists t, ready d0 t /\ (forall u, ready d0 u -> candidate_le t u) /\
     checkout_tasks env agent_id None now d = (Ok (handed_out d0 t), claimed d0 t)) \/
  ((forall u, ~ ready d0 u) /\
     checkout_tasks env agent_id None now d = (Ok (not_available None), d0)).
Proof.
  intros Hinv d0. assert (tinv d0) as Hinv0 by (by apply opened_inv).
  rewrite checkout_opened by done. fold d0. unfold mbind, M_bind, list_candidates, gets.
  set (l := merge_sort candidate_le (map_to_list (tasks d0)).*2).
  rewrite (statuses_known d0 l) by (done || apply merge_sort_Permutation).
  destruct (claim_first_spec None (Some (task_status <$> tasks d0)) d0 l)
    as [(t & pre & post & Hl & Hr & Hpre & Hrun)|[Hno Hrun]]; auto.
  { apply Forall_forall. intros u Hu. by apply candidates_elem. }
  - left. exists t. split; [done|]. split; [|done]. intros u Hu.
    assert (u ∈ l) as Hin by (apply candidates_elem; [done | apply Hu]).
    assert (StronglySorted candidate_le l) as Hs by apply (StronglySorted_merge_sort _).
    rewrite Hl in Hin, Hs. apply elem_of_app in Hin as [Hin|[->|Hin]%elem_of_cons].
    + rewrite Forall_forall in Hpre. by apply Hpre in Hu.
    + done.
    + apply StronglySorted_app_1_r, StronglySorted_cons in Hs as [Hs _].
      rewrite Forall_forall in Hs. auto.
  - right. split; [|done]. intros u Hu. rewrite Forall_forall in Hno.
    apply (Hno u); [|done]. apply candidates_elem; [done | apply Hu].
Qed.

Lemma checkout_one i d :
  tinv d ->
  let d0 := opened d in
  (exists t, task_id t = i /\ ready d0 t /\
     checkout_tasks env agent_id (Some i) now d = (Ok (handed_out d0 t), claimed d0 t)) \/
  ((forall u, ready d0 u -> task_id u <> i) /\
     checkout_tasks env agent_id (Some i) now d = (Ok (not_available (Some i)), d0)).
Proof.
  intros Hinv d0. assert (tinv d0) as Hinv0 by (by apply opened_inv).
  rewrite checkout_opened by done. fold d0. unfold mbind, M_bind, list_candidates, gets.
  destruct (tasks d0 !! i) as [t|] eqn:Ht.
  - pose proof (ti_ids d0 Hinv0 i t Ht) as Hid.
    destruct (claim_first_spec (Some i) None d0 [t])
      as [(t' & pre & post & Hl & Hr & Hpre & Hrun)|[Hno Hrun]]; auto.
    { constructor; [by rewrite Hid|constructor]. }
    + left. destruct pre as [|? [|]]; simplify_list_eq. exists t'. auto.
    + right. split; [|done]. intros u (Hu & ?) <-. rewrite Hu in Ht. simplify_eq.
      inversion_clear Hno as [|? ? Hn _]. by apply Hn.
  - right. split; [|done]. intros u (Hu & _) <-. congruence.
Qed.
End checkout.

(** ** Every operation keeps the invariant *)

Lemma store_task_inv d k t t' :
  tinv d -> tasks d !! k = Some t -> task_id t' = k ->
  leases d !! k = None \/ task_status t' = T_IN_PROGRESS ->
  tinv (d <| tasks := <[k := t']> (tasks d) |>).
Proof.
  intros Hinv Ht Hid Hl. split; rsimpl.
  - intros j u [[<- <-]|[_ Hu]]%lookup_insert_Some; [done|]. by apply (ti_ids d Hinv).
  - intros j l Hj. destruct (ti_leases d Hinv j l Hj) as (? & u & Hu & ?). split; [done|].
    destruct (decide (j = k)) as [->|].
    + rewrite lookup_insert_eq. exists t'. destruct Hl; [congruence|done].
    + rewrite lookup_insert_ne by done. eauto.
  - intros a b Hab. destruct (ti_edges d Hinv a b Hab) as (? & Ha & Hb).
    split; [done|]. split; apply lookup_insert_is_Some'; auto.
Qed.

Lemma drop_lease_inv d k : tinv d -> tinv (d <| leases := base.delete k (leases d) |>).
Proof.
  intros Hinv. split; rsimpl; [apply (ti_ids d Hinv)| |apply (ti_edges d Hinv)].
  intros j l [_ Hj]%lookup_delete_Some. by apply (ti_leases d Hinv).
Qed.

(** Write a task and drop its lease, in either order. *)
Lemma close_task_inv d k t t' :
  tinv d -> tasks d !! k = Some t -> task_id t' = k ->
  tinv (d <| tasks := <[k := t']> (tasks d) |> <| leases := base.delete k (leases d) |>).
Proof.
  intros Hinv Ht Hid.
  replace (d <| tasks := <[k := t']> (tasks d) |> <| leases := base.delete k (leases d) |>)
    with ((d <| leases := base.delete k (leases d) |>) <| tasks := <[k := t']> (tasks d) |>)
    by (by destruct d).
  pose proof (store_task_inv _ k t t' (drop_lease_inv d k Hinv)) as Hs. rsimpl in Hs.
  apply Hs; [done..|]. left. apply lookup_delete_eq.
Qed.

(** What [complete] and [abandon] write: the status, the notes, no lease. *)
Definition settled (s : TaskStatus) (notes : option string) (id : Z) (t : Task) (d : TaskDB)
    : TaskDB :=
  d <| tasks := <[id := t <| task_status := s |> <| task_completed_notes := notes |>]> (tasks d) |>
    <| leases := base.delete id (leases d) |>.

Lemma settle_run {A} s notes id t (k : TaskRecord -> A) d :
  tinv d -> tasks d !! id = Some t ->
  (saved ← TaskRepository.save (with_status s notes (to_record d t));
   _ ← LeaseRepository.delete id;
   mret (k saved)) d =
  (Ok (k {| rec_task := t <| task_status := s |> <| task_completed_notes := notes |>;
            rec_depends_on := dependencies_of_db d id |}), settled s notes id t d).
Proof.
  intros Hinv Ht. pose proof (ti_ids d Hinv id t Ht) as Hid.
  unfold mbind, M_bind, save, LeaseRepository.delete, modify, mret, M_ret.
  change (rec_id (with_status s notes (to_record d t))) with (task_id t).
  rewrite Hid, Ht. subst id. reflexivity.
Qed.

Section operations_inv.
Context (env : TaskEnv).

Definition normal_notes (notes : option string) : option string :=
  match notes with Some n => if bool_decide (n = "") then None else Some n | None => None end.

Lemma complete_run agent_id id notes now d :
  tinv d ->
  complete agent_id id notes now d =
  match can_complete (leases d !! id) agent_id now, tasks d !! id with
  | true, Some t =>
      (Ok {| cr_ok := true;
             cr_task := Some {| rec_task := t <| task_status := T_COMPLETED |>
                                  <| task_completed_notes := normal_notes notes |>;
                                rec_depends_on := dependencies_of_db d id |};
             cr_notes := normal_notes notes |},
       settled T_COMPLETED (normal_notes notes) id t d)
  | _, _ => (Ok {| cr_ok := false; cr_task := None; cr_notes := None |}, d)
  end.
Proof.
  intros Hinv. unfold complete, LeaseRepository.for_task, TaskRepository.get.
  unfold gets, mbind at 1, M_bind at 1.
  destruct (can_complete (leases d !! id) agent_id now); [|done].
  unfold mbind at 1, M_bind at 1. destruct (tasks d !! id) as [t|] eqn:Ht; [|done].
  cbn [fmap option_fmap option_map].
  by apply (settle_run T_COMPLETED (normal_notes notes) id t (fun saved =>
    {| cr_ok := true; cr_task := Some saved;
       cr_notes := task_completed_notes (rec_task saved) |})).
Qed.

Lemma abandon_run agent_id id now d :
  tinv d ->
  abandon agent_id id now d =
  match can_abandon (leases d !! id) agent_id now, tasks d !! id with
  | true, Some t => (Ok {| hr_ok := true; hr_task_id := id |}, settled T_PENDING None id t d)
  | _, _ => (Ok {| hr_ok := false; hr_task_id := id |}, d)
  end.
Proof.
  intros Hinv. unfold abandon, LeaseRepository.for_task, TaskRepository.get.
  unfold gets, mbind at 1, M_bind at 1.
  destruct (can_abandon (leases d !! id) agent_id now); [|done].
  unfold mbind at 1, M_bind at 1. destruct (tasks d !! id) as [t|] eqn:Ht; [|done].
  cbn [fmap option_fmap option_map].
  by apply (settle_run T_PENDING None id t (fun _ => {| hr_ok := true; hr_task_id := id |})).
Qed.

Lemma settled_inv s notes id t d :
  tinv d -> tasks d !! id = Some t -> tinv (settled s notes id t d).
Proof.
  intros Hinv Ht. apply (close_task_inv d id t); [done..|]. exact (ti_ids d Hinv id t Ht).
Qed.

Lemma heartbeat_run agent_id id now d :
  tinv d ->
  heartbeat env agent_id id now d =
  match leases d !! id with
  | Some l =>
      if can_heartbeat (Some l) agent_id now then
        (Ok {| hr_ok := true; hr_task_id := id |},
         d <| leases := <[id := refresh (te_lease_seconds env) l now]> (leases d) |>)
      else (Ok {| hr_ok := false; hr_task_id := id |}, d)
  | None => (Ok {| hr_ok := false; hr_task_id := id |}, d)
  end.
Proof.
  intros Hinv. unfold heartbeat, LeaseRepository.for_task, gets, mbind at 1, M_bind at 1.
  destruct (leases d !! id) as [l|] eqn:Hl; [|done].
  destruct (can_heartbeat (Some l) agent_id now); [|done].
  destruct (ti_leases d Hinv id l Hl) as [<- _]. reflexivity.
Qed.

Lemma heartbeat_inv agent_id id now d r d' :
  tinv d -> heartbeat env agent_id id now d = (Ok r, d') -> tinv d'.
Proof.
  intros Hinv. rewrite heartbeat_run by done.
  destruct (leases d !! id) as [l|] eqn:Hl; [|intros; by simplify_eq].
  destruct (ti_leases d Hinv id l Hl) as (Hk & t & Ht & Hs).
  destruct (can_heartbeat _ _ _); intros; simplify_eq; [|done].
  split; rsimpl; [apply (ti_ids d Hinv)| |apply (ti_edges d Hinv)].
  intros j x [[<- <-]|[_ Hj]]%lookup_insert_Some; [|by apply (ti_leases d Hinv)].
  split; [done|eauto].
Qed.
End operations_inv.

(** ** Creating, changing and deleting tasks *)

Lemma sort_ids_nil l : sort_ids l = [] <-> l = [].
Proof.
  unfold sort_ids. split; [|by intros ->]. intros Hs.
  apply Permutation_nil_r. rewrite <-(merge_sort_Permutation Z.le l). by rewrite Hs.
Qed.

Lemma elem_of_normalize l b : b ∈ normalize_dependencies l <-> b ∈ l.
Proof.
  unfold normalize_dependencies, sort_ids. by rewrite merge_sort_Permutation, elem_of_dedup.
Qed.

Lemma elem_of_edges id deps a b : (a, b) ∈ edges id deps <-> a = id /\ b ∈ deps.
Proof.
  unfold edges. rewrite elem_of_list_to_set. change (map (pair id) deps) with (pair id <$> deps).
  rewrite list_elem_of_fmap. naive_solver.
Qed.

(** The ids a request names that no task has. *)
Definition missing_ids (d : TaskDB) (deps : list Z) : list Z :=
  sort_ids (filter (fun i => i ∉ filter (fun i => is_Some (tasks d !! i)) (dedup deps))
              (dedup deps)).

Lemma missing_ids_elem d deps b :
  b ∈ missing_ids d deps <-> b ∈ deps /\ tasks d !! b = None.
Proof.
  unfold missing_ids, sort_ids. rewrite merge_sort_Permutation, !list_elem_of_filter.
  rewrite !elem_of_dedup, eq_None_not_Some.
  destruct (decide (is_Some (tasks d !! b))); naive_solver.
Qed.

Lemma missing_ids_nil d deps :
  missing_ids d deps = [] <-> forall b, b ∈ deps -> is_Some (tasks d !! b).
Proof.
  split.
  - intros Hm b Hb. destruct (tasks d !! b) eqn:Ht; [done|].
    assert (b ∈ missing_ids d deps) as Hin by (by apply missing_ids_elem).
    rewrite Hm in Hin. by apply not_elem_of_nil in Hin.
  - intros Hall. destruct (missing_ids d deps) as [|b l] eqn:Hm; [done|].
    assert (b ∈ missing_ids d deps) as [Hb Hn]%missing_ids_elem by (rewrite Hm; left).
    apply Hall in Hb. rewrite Hn in Hb. by apply is_Some_None in Hb.
Qed.

Lemma ensure_dependencies_exist_run deps d :
  ensure_dependencies_exist deps d =
  (if bool_decide (missing_ids d deps = []) then Ok tt
   else Err (MissingDependenciesError (missing_ids d deps)), d).
Proof.
  unfold ensure_dependencies_exist, existing_ids, gets, mbind, M_bind. fold (missing_ids d deps).
  unfold ensure. by case_bool_decide.
Qed.

Definition created (title description : string) (priority : Z) (d : TaskDB) : Task :=
  {| task_id := fresh_id (tasks d); task_title := title; task_description := description;
     task_priority := priority; task_status := T_PENDING; task_completed_notes := None |}.

Lemma create_inv t deps d :
  tinv d -> task_id t = fresh_id (tasks d) -> (forall b, b ∈ deps -> is_Some (tasks d !! b)) ->
  tinv (d <| tasks := <[fresh_id (tasks d) := t]> (tasks d) |>
          <| dependencies := edges (fresh_id (tasks d)) (normalized deps) ∪ dependencies d |>).
Proof.
  intros Hinv Hid Hdeps. pose proof (fresh_id_None (tasks d)) as Hf. split; rsimpl.
  - intros k u [[<- <-]|[_ Hu]]%lookup_insert_Some; [done|]. by apply (ti_ids d Hinv).
  - intros k l Hl. destruct (ti_leases d Hinv k l Hl) as (? & u & Hu & ?). split; [done|].
    exists u. rewrite lookup_insert_ne by congruence. done.
  - intros a b [[-> Hb]%elem_of_edges|Hab]%elem_of_union.
    + apply elem_of_normalize, Hdeps in Hb. split; [|split; apply lookup_insert_is_Some'; auto].
      intros <-. rewrite Hf in Hb. by apply is_Some_None in Hb.
    + destruct (ti_edges d Hinv a b Hab) as (? & ? & ?).
      split; [done|]. split; apply lookup_insert_is_Some'; auto.
Qed.

Lemma create_task_inv title description depends_on priority d r d' :
  tinv d -> create_task title description depends_on priority d = (Ok r, d') -> tinv d'.
Proof.
  intros Hinv. unfold create_task. unfold mbind at 1, M_bind at 1.
  rewrite ensure_dependencies_exist_run. case_bool_decide as Hm; [|done].
  intros Hrun. unfold create in Hrun. simplify_eq.
  apply create_inv; [done..|]. by apply missing_ids_nil.
Qed.

Lemma delete_task_inv id d r d' : tinv d -> delete_task id d = (Ok r, d') -> tinv d'.
Proof.
  intros Hinv. unfold delete_task, LeaseRepository.delete, TaskRepository.delete, modify.
  unfold mbind, M_bind. destruct (tasks d !! id) as [t|] eqn:Ht; intros Hrun;
    unfold mret, M_ret in Hrun; simplify_eq; split; rsimpl.
  - intros k u [_ Hu]%lookup_delete_Some. by apply (ti_ids d Hinv).
  - intros k l [Hne Hl]%lookup_delete_Some. rewrite lookup_delete_ne by done.
    by apply (ti_leases d Hinv).
  - unfold touching. intros a b [Hab Hn]%elem_of_difference. rewrite elem_of_filter in Hn.
    destruct (ti_edges d Hinv a b Hab) as (? & ? & ?). simpl in Hn.
    rewrite !lookup_delete_ne by naive_solver. done.
  - apply (ti_ids d Hinv).
  - intros k l [_ Hl]%lookup_delete_Some. by apply (ti_leases d Hinv).
  - intros a b [Hab _]%elem_of_difference. by apply (ti_edges d Hinv).
Qed.

(** Replacing the outgoing edges of a task by edges to other existing tasks. *)
Lemma redirect_inv id deps d :
  tinv d -> is_Some (tasks d !! id) -> id ∉ deps ->
  (forall b, b ∈ deps -> is_Some (tasks d !! b)) ->
  tinv (d <| dependencies := edges id (normalized deps)
                             ∪ (dependencies d ∖ outgoing id (dependencies d)) |>).
Proof.
  intros Hinv Hid Hself Hdeps. split; rsimpl; [apply (ti_ids d Hinv)|apply (ti_leases d Hinv)|].
  intros a b [[-> Hb]%elem_of_edges|[Hab _]%elem_of_difference]%elem_of_union.
  - apply (proj1 (elem_of_normalize deps b)) in Hb.
    split; [intros ->; by apply Hself|]. split; auto.
  - by apply (ti_edges d Hinv).
Qed.

(** The edges after an update. *)
Definition updated_edges (id : Z) (c : Changes) (d : TaskDB) : gset (Z * Z) :=
  match ch_depends_on c with
  | Some l => edges id (normalized (normalize_dependencies l))
              ∪ (dependencies d ∖ outgoing id (dependencies d))
  | None => dependencies d
  end.

(** Does the update give up the lease? *)
Definition releases (c : Changes) : bool :=
  bool_decide (ch_status c = Some T_PENDING) || bool_decide (ch_status c = Some T_COMPLETED).

Definition updated (id : Z) (c : Changes) (t : Task) (d : TaskDB) : TaskDB :=
  d <| tasks := <[id := changed c t]> (tasks d) |> <| dependencies := updated_edges id c d |>
    <| leases := if releases c then base.delete id (leases d) else leases d |>.

Lemma update_task_run id c d :
  update_task id c d =
  (if match ch_depends_on c with Some l => bool_decide (id ∈ l) | None => false end
   then (Err SelfDependencyError, d)
   else match tasks d !! id with
   | None => (Err TaskNotFoundError, d)
   | Some t =>
       if match ch_depends_on c with
          | Some l => bool_decide (missing_ids d (normalize_dependencies l) = [])
          | None => true end
       then (Ok (to_record (updated id c t d) (changed c t)), updated id c t d)
       else (Err (MissingDependenciesError (match ch_depends_on c with
                    | Some l => missing_ids d (normalize_dependencies l) | None => [] end)), d)
   end).
Proof.
  unfold update_task, updated, updated_edges, releases.
  destruct (ch_depends_on c) as [l|] eqn:Hc; simpl.
  - destruct (bool_decide (id ∈ l)); [done|]. cbn [negb].
    unfold TaskRepository.get, gets, mbind, M_bind, require, ensure, mret, M_ret. cbv beta iota.
    destruct (tasks d !! id) as [t|] eqn:Ht; [|reflexivity].
    cbn [fmap option_fmap option_map]. rewrite ensure_dependencies_exist_run.
    case_bool_decide; [|reflexivity]. unfold update. rewrite Ht.
    by destruct (bool_decide _ || bool_decide _).
  - unfold TaskRepository.get, gets, mbind, M_bind, require, ensure, mret, M_ret. cbv beta iota.
    destruct (tasks d !! id) as [t|] eqn:Ht; [|reflexivity].
    cbn [fmap option_fmap option_map]. unfold update. rewrite Ht.
    by destruct (bool_decide _ || bool_decide _).
Qed.

Lemma updated_edges_inv id c d :
  tinv d -> is_Some (tasks d !! id) ->
  match ch_depends_on c with
  | Some l => id ∉ l /\ forall b, b ∈ l -> is_Some (tasks d !! b)
  | None => True
  end ->
  tinv (d <| dependencies := updated_edges id c d |>).
Proof.
  intros Hinv Hid. unfold updated_edges. destruct (ch_depends_on c) as [l|]; [|by destruct d].
  intros [Hself Hall]. apply redirect_inv; [done..| |].
  - by rewrite elem_of_normalize.
  - intros b Hb. apply Hall. by apply elem_of_normalize.
Qed.

Lemma update_task_inv id c d r d' :
  tinv d -> update_task id c d = (Ok r, d') -> tinv d'.
Proof.
  intros Hinv. rewrite update_task_run.
  destruct (match ch_depends_on c with Some l => bool_decide (id ∈ l) | None => false end)
    eqn:Hself; [done|].
  destruct (tasks d !! id) as [t|] eqn:Ht; [|done].
  destruct (match ch_depends_on c with Some l => bool_decide (missing_ids d (normalize_dependencies l) = [])
            | None => true end) eqn:Hm; [|done].
  intros [= <- <-].
  assert (tinv (d <| dependencies := updated_edges id c d |>)) as He.
  { apply updated_edges_inv; [done|by rewrite Ht|]. destruct (ch_depends_on c) as [l|]; [|done].
    apply bool_decide_eq_false in Hself. apply bool_decide_eq_true in Hm. split; [done|].
    intros b Hb. eapply (proj1 (missing_ids_nil d _) Hm). by apply elem_of_normalize. }
  assert (task_id (changed c t) = id) as Hid by exact (ti_ids d Hinv id t Ht).
  unfold updated. destruct (releases c) eqn:Hr.
  - apply (close_task_inv _ id t (changed c t) He Ht Hid).
  - apply (store_task_inv _ id t (changed c t) He Ht Hid). rsimpl.
    destruct (leases d !! id) as [l|] eqn:Hl; [right|by left].
    apply (ti_leases d Hinv) in Hl as (_ & u & Hu & Hs). simplify_eq.
    unfold releases in Hr. apply orb_false_iff in Hr as [H1 H2].
    apply bool_decide_eq_false in H1, H2. unfold changed. simpl.
    by destruct (ch_status c) as [[]|].
Qed.

(** ** Requests

    The mutating requests of the task plane; a request that raises is rolled back. *)

Inductive TaskCommand :=
| Checkout (agent_id : string) (task : option Z)
| Heartbeat (agent_id : string) (task : Z)
| Complete (agent_id : string) (task : Z) (notes : option string)
| Abandon (agent_id : string) (task : Z)
| CreateTask (title description : string) (depends_on : list Z) (priority : Z)
| UpdateTask (task : Z) (changes : Changes)
| DeleteTask (task : Z)
| IncrementPlan
| UpdateSystemState (maintenance_mode : bool) (message : option string)
    (expected_version : option Z).

Section requests.
Context (env : TaskEnv).

Definition perform (now : Z) (c : TaskCommand) : act unit :=
  match c with
  | Checkout a t => _ ← checkout env a t now; mret tt
  | Heartbeat a t => _ ← heartbeat env a t now; mret tt
  | Complete a t n => _ ← complete a t n now; mret tt
  | Abandon a t => _ ← abandon a t now; mret tt
  | CreateTask ti de l p => _ ← create_task ti de l p; mret tt
  | UpdateTask t c => _ ← update_task t c; mret tt
  | DeleteTask t => _ ← delete_task t; mret tt
  | IncrementPlan => _ ← PlanVersionRepository.increment; mret tt
  | UpdateSystemState m s v => _ ← update_system_state m s v; mret tt
  end.

Definition process (d : TaskDB) (nc : Z * TaskCommand) : TaskDB :=
  match perform nc.1 nc.2 d with
  | (Ok _, d') => d'
  | (Err _, _) => d
  end.

Lemma checkout_inv agent_id pinned now d r d' :
  tinv d -> checkout env agent_id pinned now d = (Ok r, d') -> tinv d'.
Proof.
  intros Hinv. rewrite checkout_maintenance. destruct (_ && _); [by intros [= <- <-]|].
  pose proof (opened_inv agent_id now d Hinv) as Ho. destruct pinned as [i|].
  - destruct (checkout_one env agent_id now i d Hinv) as [(t & _ & Hr & ->)|[_ ->]];
      intros [= <- <-]; [by apply claimed_inv | done].
  - destruct (checkout_any env agent_id now d Hinv) as [(t & Hr & _ & ->)|[_ ->]];
      intros [= <- <-]; [by apply claimed_inv | done].
Qed.

Lemma frame_inv d d' :
  tasks d' = tasks d -> leases d' = leases d -> dependencies d' = dependencies d ->
  tinv d -> tinv d'.
Proof. intros Ht Hl Hd [H1 H2 H3]. split; rewrite ?Ht, ?Hl, ?Hd; done. Qed.

Lemma process_inv d nc : tinv d -> tinv (process d nc).
Proof.
  intros Hinv. destruct nc as [now c]. unfold process. simpl.
  destruct (perform now c d) as [[u|e] d'] eqn:Hrun; [|done].
  destruct c; simpl in Hrun; apply bind_ok in Hrun as (r & d1 & Hrun & [= _ ->]).
  - by eapply checkout_inv.
  - by eapply heartbeat_inv.
  - rewrite complete_run in Hrun by done.
    destruct (can_complete _ _ _), (tasks d !! task) eqn:Ht; simplify_eq; try done.
    by apply settled_inv.
  - rewrite abandon_run in Hrun by done.
    destruct (can_abandon _ _ _), (tasks d !! task) eqn:Ht; simplify_eq; try done.
    by apply settled_inv.
  - by eapply create_task_inv.
  - by eapply update_task_inv.
  - by eapply delete_task_inv.
  - eapply (frame_inv d); [..|done];
      unfold PlanVersionRepository.increment, PlanVersionRepository.current, modify,
        mbind, M_bind in Hrun; destruct (plan_row d); by inversion Hrun.
  - eapply (frame_inv d); [..|done];
      unfold update_system_state, handle, SystemStateRepository.update_state in Hrun;
      destruct (match expected_version with Some _ => _ | None => _ end);
      by inversion Hrun.
Qed.

Lemma empty_inv : tinv empty_tasks.
Proof. split; simpl; [intros k t|intros k l|set_solver]; by rewrite lookup_empty. Qed.

Lemma process_all_inv ncs d : tinv d -> tinv (foldl process d ncs).
Proof. revert d. induction ncs; intros d Hinv; simpl; [done|]. by apply IHncs, process_inv. Qed.
End requests.

(** ** A live lease protects its task *)

(** Requests that are neither the lease owner's nor edits of that very task. *)
Definition foreign (owner : string) (id : Z) (c : TaskCommand) : Prop :=
  match c with
  | Heartbeat a _ | Complete a _ _ | Abandon a _ => a <> owner
  | UpdateTask t _ | DeleteTask t => t <> id
  | _ => True
  end.

Lemma opened_live agent_id now d id l :
  leases d !! id = Some l -> now < tl_expires_at l ->
  leases (opened agent_id now d) !! id = Some l /\
  tasks (opened agent_id now d) !! id = tasks d !! id.
Proof.
  intros Hl Hlive. unfold opened, restored. rsimpl. split.
  - apply map_lookup_filter_Some. split; [done|]. simpl. lia.
  - rewrite lookup_reopen_all, bool_decide_eq_false_2; [by destruct (tasks d !! id)|].
    rewrite elem_of_stale. intros (l' & Hl' & ?). rsimpl in Hl'. simplify_eq. lia.
Qed.

Lemma claimed_other env agent_id now d t id l :
  tinv d -> ready d t -> leases d !! id = Some l ->
  leases (claimed env agent_id now d t) !! id = leases d !! id /\
  tasks (claimed env agent_id now d t) !! id = tasks d !! id.
Proof.
  intros Hinv (Ht & Hs & _) Hl. apply (ti_leases d Hinv) in Hl as (_ & u & Hu & Hp).
  assert (task_id t <> id) by congruence. unfold claimed. rsimpl.
  by rewrite !lookup_insert_ne by done.
Qed.

Lemma checkout_protects env agent_id pinned now d id l :
  tinv d -> leases d !! id = Some l -> now < tl_expires_at l ->
  let d' := (checkout env agent_id pinned now d).2 in
  leases d' !! id = Some l /\ tasks d' !! id = tasks d !! id.
Proof.
  intros Hinv Hl Hlive. rewrite checkout_maintenance. destruct (_ && _); [by split|].
  destruct (opened_live agent_id now d id l Hl Hlive) as [Hl0 Ht0].
  pose proof (opened_inv agent_id now d Hinv) as Ho.
  assert (forall t, ready (opened agent_id now d) t ->
    let d' := claimed env agent_id now (opened agent_id now d) t in
    leases d' !! id = Some l /\ tasks d' !! id = tasks d !! id) as Hc.
  { intros t Hr d'. destruct (claimed_other env agent_id now _ t id l Ho Hr Hl0) as [H1 H2].
    subst d'. by rewrite H1, H2. }
  destruct pinned as [i|].
  - destruct (checkout_one env agent_id now i d Hinv) as [(t & _ & Hr & ->)|[_ ->]];
      simpl; [by apply Hc | done].
  - destruct (checkout_any env agent_id now d Hinv) as [(t & Hr & _ & ->)|[_ ->]];
      simpl; [by apply Hc | done].
Qed.

Lemma refused_while_live l agent_id now :
  agent_id <> tl_agent_id l -> now < tl_expires_at l ->
  can_complete (Some l) agent_id now = false /\ can_abandon (Some l) agent_id now = false /\
  can_heartbeat (Some l) agent_id now = false.
Proof.
  intros Ha Hl. unfold can_complete, can_abandon, can_heartbeat.
  rewrite bool_decide_eq_false_2 by congruence. simpl. split; [lia|]. split; [lia|done].
Qed.

Lemma settled_other s notes k t d id :
  k <> id -> leases (settled s notes k t d) !! id = leases d !! id /\
             tasks (settled s notes k t d) !! id = tasks d !! id.
Proof.
  intros Hne. unfold settled. rsimpl. by rewrite lookup_delete_ne, lookup_insert_ne.
Qed.

(** A live lease protects its task: no checkout, no heartbeat, completion or
    abandonment by another agent, and no edit of another task changes the lease or the
    task row. *)
Theorem process_protects env now c d id l :
  tinv d -> leases d !! id = Some l -> now < tl_expires_at l ->
  foreign (tl_agent_id l) id c ->
  leases (process env d (now, c)) !! id = Some l /\
  tasks (process env d (now, c)) !! id = tasks d !! id.
Proof.
  intros Hinv Hl Hlive Hf. unfold process. simpl.
  destruct (ti_leases d Hinv id l Hl) as (_ & u & Hu & _).
  destruct (perform env now c d) as [[v|e] d'] eqn:Hrun; [|done].
  destruct c; simpl in Hrun, Hf; apply bind_ok in Hrun as (r & d1 & Hrun & [= _ ->]).
  - pose proof (checkout_protects env agent_id task now d id l Hinv Hl Hlive) as Hc.
    by rewrite Hrun in Hc.
  - rewrite heartbeat_run in Hrun by done. destruct (decide (task = id)) as [->|Hne].
    + rewrite Hl in Hrun. destruct (refused_while_live l agent_id now) as (_ & _ & Hn); [done..|].
      rewrite Hn in Hrun. by simplify_eq.
    + destruct (leases d !! task); [destruct (can_heartbeat _ _ _)|]; simplify_eq; rsimpl;
        rewrite ?lookup_insert_ne by done; done.
  - rewrite complete_run in Hrun by done. destruct (decide (task = id)) as [->|Hne].
    + rewrite Hl in Hrun. destruct (refused_while_live l agent_id now) as (Hn & _ & _); [done..|].
      rewrite Hn in Hrun. by simplify_eq.
    + destruct (can_complete _ _ _), (tasks d !! task); simplify_eq; try done.
      rewrite <-Hl. by apply settled_other.
  - rewrite abandon_run in Hrun by done. destruct (decide (task = id)) as [->|Hne].
    + rewrite Hl in Hrun. destruct (refused_while_live l agent_id now) as (_ & Hn & _); [done..|].
      rewrite Hn in Hrun. by simplify_eq.
    + destruct (can_abandon _ _ _), (tasks d !! task); simplify_eq; try done.
      rewrite <-Hl. by apply settled_other.
  - unfold create_task, create in Hrun. unfold mbind at 1, M_bind at 1 in Hrun.
    rewrite ensure_dependencies_exist_run in Hrun. case_bool_decide; simplify_eq. rsimpl.
    pose proof (fresh_id_None (tasks d)). rewrite lookup_insert_ne by congruence. done.
  - rewrite update_task_run in Hrun.
    destruct (match ch_depends_on changes with Some _ => _ | None => _ end) in Hrun; [done|].
    destruct (tasks d !! task); [|done].
    destruct (match ch_depends_on changes with Some _ => _ | None => _ end) in Hrun; [|done].
    simplify_eq. unfold updated. rsimpl.
    rewrite lookup_insert_ne by done. split; [|done].
    destruct (releases changes); [by rewrite lookup_delete_ne|done].
  - unfold delete_task, LeaseRepository.delete, TaskRepository.delete, modify, mbind, M_bind,
      mret, M_ret in Hrun.
    destruct (tasks d !! task); simplify_eq; rsimpl; rewrite ?lookup_delete_ne by done; done.
  - unfold PlanVersionRepository.increment, PlanVersionRepository.current, modify,
      mbind, M_bind in Hrun; destruct (plan_row d); by inversion Hrun.
  - unfold update_system_state, handle, SystemStateRepository.update_state in Hrun.
    destruct (match expected_version with Some _ => _ | None => _ end); by inversion Hrun.
Qed.

(** ** Analytics *)

Lemma task_health_spec d t :
  tinv d -> tasks d !! task_id t = Some t ->
  ((task_health d t).1.1.1 = 1 /\ ready d t \/ (task_health d t).1.1.1 = 0 /\ ~ ready d t) /\
  (task_health d t).1.1.1 + (task_health d t).1.1.2 = has_status T_PENDING t /\
  (task_health d t).1.2 = 0 /\ (task_health d t).2 = 0.
Proof.
  intros Hinv Ht. unfold task_health, has_status, ready.
  destruct (decide (task_status t = T_PENDING)) as [Hs|Hs].
  2: { rewrite bool_decide_eq_false_2 by done. simpl. split; [right; naive_solver|done]. }
  rewrite bool_decide_eq_true_2 by done. cbn [negb].
  assert (forall b, b ∈ dependencies_of_db d (task_id t) -> is_Some (tasks d !! b)) as Hex.
  { intros b Hb. apply elem_of_dependencies_of in Hb. by apply (ti_edges d Hinv) in Hb as (_ & _ & ?). }
  assert (forallb (fun dep => match tasks d !! dep with
            | Some t' => bool_decide (task_status t' = T_COMPLETED) | None => false end)
            (dependencies_of_db d (task_id t)) = true <-> deps_done d (task_id t)) as Hall.
  { rewrite <-Is_true_true, forallb_True, Forall_forall. unfold deps_done.
    setoid_rewrite <-elem_of_dependencies_of. split; intros H b Hb; specialize (H b Hb).
    - destruct (tasks d !! b); [|done]. apply Is_true_true, bool_decide_eq_true in H. eauto.
    - destruct H as (u & -> & ?). by rewrite bool_decide_eq_true_2. }
  assert (filter (fun dep => tasks d !! dep = None) (dependencies_of_db d (task_id t)) = []) as Hf.
  { destruct (filter _ _) as [|b l] eqn:He; [done|].
    assert (b ∈ filter (fun dep => tasks d !! dep = None) (dependencies_of_db d (task_id t)))
      as [Hn Hb]%list_elem_of_filter by (rewrite He; left).
    apply Hex in Hb. rewrite Hn in Hb. by apply is_Some_None in Hb. }
  destruct (dependencies_of_db d (task_id t)) as [|b l] eqn:Hd.
  - simpl in *. split; [left; split; [done|]; naive_solver|done].
  - rewrite Hf. destruct (forallb _ (b :: l)); simpl; (split; [|done]).
    + left. split; [done|]. split; [done|]. split; [done|]. by apply Hall.
    + right. split; [done|]. intros (_ & _ & Hdone). apply Hall in Hdone. done.
Qed.

(** Analytics add up: statuses partition the tasks, pending tasks are ready or
    blocked, no dependency is missing, and the ready count is positive exactly when a
    checkout would find a task. *)
Theorem analytics_spec d :
  tinv d ->
  exists a, analytics d = (Ok a, d) /\
    an_total_tasks a = an_pending_tasks a + an_in_progress_tasks a + an_completed_tasks a /\
    an_pending_tasks a = an_ready_tasks a + an_blocked_tasks a /\
    an_missing_dependency_tasks a = 0 /\ an_missing_dependency_edges a = 0 /\
    (0 < an_ready_tasks a <-> exists t, ready d t).
Proof.
  intros Hinv. eexists. split; [reflexivity|]. cbn -[task_health has_status].
  assert (forall k t, tasks d !! k = Some t -> tasks d !! task_id t = Some t) as Hk.
  { intros k t Ht. by rewrite (ti_ids d Hinv k t Ht). }
  split.
  { rewrite <-!msum_plus. apply msum_ext. intros k t _. unfold has_status.
    destruct (task_status t); done. }
  split.
  { rewrite <-msum_plus. apply msum_ext. intros k t Ht.
    by destruct (task_health_spec d t Hinv (Hk k t Ht)) as (_ & -> & _). }
  split; [apply msum_zero; intros k t Ht; by apply (task_health_spec d t Hinv (Hk k t Ht))|].
  split; [apply msum_zero; intros k t Ht; by apply (task_health_spec d t Hinv (Hk k t Ht))|].
  split.
  - intros Hpos.
    destruct (decide (map_Forall (fun _ t => (task_health d t).1.1.1 = 0) (tasks d))) as [Hz|Hz].
    { rewrite msum_zero in Hpos by done. lia. }
    apply map_not_Forall in Hz as (k & t & Ht & Hne); [|apply _].
    destruct (task_health_spec d t Hinv (Hk k t Ht)) as ([[? ?]|[? ?]] & _); [eauto|done].
  - intros (t & Hr). pose proof Hr as (Ht & _).
    destruct (task_health_spec d t Hinv Ht) as ([[H1 ?]|[? ?]] & _); [|done].
    enough ((task_health d t).1.1.1 <= msum (fun t => (task_health d t).1.1.1) (tasks d)) by lia.
    apply (msum_lookup_le (fun t => (task_health d t).1.1.1) (tasks d) (task_id t) t); [|done].
    intros k u Hu. destruct (task_health_spec d u Hinv (Hk k u Hu)) as ([[? ?]|[? ?]] & _); lia.
Qed.

(** ** Version counters *)

Definition system_state (d : TaskDB) : SystemState :=
  default SystemStateRepository.default_state (system_row d).

(** Optimistic concurrency of the system state: an update with a stale expected
    version raises a conflict naming the current one and changes neither mode, message
    nor version; any other stores mode and stripped message under the next version. *)
Theorem update_system_state_run m message expected d :
  update_system_state m message expected d =
  if match expected with Some v => negb (ss_version (system_state d) =? v) | None => false end
  then (Err (SystemStateConflictError expected (ss_version (system_state d))),
        d <| system_row := Some (system_state d) |>)
  else let s := {| ss_maintenance_mode := m; ss_message := normalize_message message;
                   ss_version := ss_version (system_state d) + 1 |} in
       (Ok s, d <| system_row := Some s |>).
Proof.
  unfold update_system_state, handle, SystemStateRepository.update_state, system_state, default.
  assert (forall o, match normalize_message o with
            | Some m => if bool_decide (m = "") then None else Some m | None => None end
            = normalize_message o) as Hn.
  { intros [o|]; simpl; [|done]. by case_bool_decide; simpl; [|rewrite bool_decide_eq_false_2]. }
  rewrite Hn.
  generalize SystemStateRepository.default_state. intros s0.
  destruct expected as [v|]; [|by destruct (system_row d)].
  destruct (system_row d); cbn [id]; by destruct (_ =? v).
Qed.

Definition plan_version (d : TaskDB) : Z := default 0 (plan_row d).

Lemma increment_run d :
  PlanVersionRepository.increment d =
  (Ok (plan_version d + 1), d <| plan_row := Some (plan_version d + 1) |>).
Proof.
  unfold PlanVersionRepository.increment, PlanVersionRepository.current, modify, mbind, M_bind.
  unfold plan_version. by destruct (plan_row d).
Qed.

(** * Properties of the task plane

    The guarantees of [TaskService] and [SystemStateService] over arbitrary requests,
    each with a concrete state in which its hypotheses hold. *)

From S2P Require Import Prelude Models Tasks.

Import TaskRepository.

(** C33. From an empty database, whatever requests are served at whatever times, every
    lease is on a task in progress, every dependency edge joins two distinct existing
    tasks, and rows carry their own keys. *)
Theorem task_plane_invariant (env : TaskEnv) (requests : list (Z * TaskCommand)) :
  tinv (foldl (process env) empty_tasks requests).
Proof. apply process_all_inv, empty_inv. Qed.

(** C34. Checkout without a requested task. In maintenance mode (while the system state is
    honoured) nothing is handed out and nothing changes. Otherwise stale leases are
    first cleared and their tasks reopened; then the ready task (pending, all
    dependencies completed) that comes first by priority and id is leased to the agent
    until [now] plus the lease duration, and nothing is handed out only when nothing is
    ready. *)
Theorem checkout_first_ready (env : TaskEnv) (agent_id : string) (now : Z) (d : TaskDB) :
  tinv d ->
  let d0 := opened agent_id now d in
  if te_system_state env && ss_maintenance_mode (system_state d) then
    checkout env agent_id None now d =
    (Ok {| tc_task := None; tc_lease := None; tc_reason := Some "maintenance_mode";
           tc_message := ss_message (system_state d) |}, d)
  else
    (exists t, ready d0 t /\ (forall u, ready d0 u -> candidate_le t u) /\
       checkout env agent_id None now d =
       (Ok (handed_out env agent_id now d0 t), claimed env agent_id now d0 t)) \/
    ((forall u, ~ ready d0 u) /\ checkout env agent_id None now d = (Ok (not_available None), d0)).
Proof.
  intros Hinv d0. rewrite checkout_maintenance. fold (system_state d).
  destruct (te_system_state env && ss_maintenance_mode (system_state d)); [done|].
  by apply checkout_any.
Qed.

(** Checkout of a requested task: it is handed out exactly when it exists and is
    ready once stale leases are cleared. *)
Theorem checkout_requested (env : TaskEnv) (agent_id : string) (id now : Z) (d : TaskDB) :
  tinv d -> ss_maintenance_mode (system_state d) = false ->
  let d0 := opened agent_id now d in
  (exists t, task_id t = id /\ ready d0 t /\
     checkout env agent_id (Some id) now d =
     (Ok (handed_out env agent_id now d0 t), claimed env agent_id now d0 t)) \/
  ((forall u, ready d0 u -> task_id u <> id) /\
     checkout env agent_id (Some id) now d = (Ok (not_available (Some id)), d0)).
Proof.
  intros Hinv Hm d0. rewrite checkout_maintenance. unfold system_state in Hm.
  rewrite Hm, andb_false_r. by apply checkout_one.
Qed.

(** Completion: the leaseholder, or anyone once no live lease of another agent
    stands, marks the task completed with its notes and frees the lease; every other
    task, lease and dependency is untouched. *)
Theorem complete_task (agent_id : string) (id now : Z) (notes : option string) (d : TaskDB) (t : Task) :
  tinv d -> tasks d !! id = Some t -> can_complete (leases d !! id) agent_id now = true ->
  exists res d', complete agent_id id notes now d = (Ok res, d') /\ cr_ok res = true /\
    (exists t', tasks d' !! id = Some t' /\ task_status t' = T_COMPLETED /\
       task_completed_notes t' = normal_notes notes /\ task_title t' = task_title t /\
       task_priority t' = task_priority t) /\
    leases d' !! id = None /\ dependencies d' = dependencies d /\
    forall k, k <> id -> tasks d' !! k = tasks d !! k /\ leases d' !! k = leases d !! k.
Proof.
  intros Hinv Ht Hc. rewrite complete_run, Hc, Ht by done. eexists _, _. split; [done|].
  split; [done|]. unfold settled. rsimpl. split_and!.
  - eexists. split; [apply lookup_insert_eq|]. done.
  - apply lookup_delete_eq.
  - done.
  - intros k Hk. by rewrite lookup_insert_ne, lookup_delete_ne.
Qed.

(** Abandoning needs no lease: any agent can abandon a completed task, which
    returns it to pending and erases its completion notes. *)
Theorem abandon_reopens_completed (agent_id : string) (id now : Z) (d : TaskDB) (t : Task) :
  tinv d -> tasks d !! id = Some t -> task_status t = T_COMPLETED ->
  exists d', abandon agent_id id now d = (Ok {| hr_ok := true; hr_task_id := id |}, d') /\
    exists t', tasks d' !! id = Some t' /\ task_status t' = T_PENDING /\ task_completed_notes t' = None.
Proof.
  intros Hinv Ht Hs. assert (leases d !! id = None) as Hl.
  { destruct (leases d !! id) as [l|] eqn:Hl; [|done].
    apply (ti_leases d Hinv) in Hl as (_ & u & Hu & Hp). congruence. }
  rewrite abandon_run, Hl, Ht by done. eexists. split; [done|]. unfold settled. rsimpl.
  eexists. split; [apply lookup_insert_eq|]. done.
Qed.

(** An update is applied exactly when the task exists, does not come to depend on
    itself and depends only on existing tasks; otherwise it raises and changes nothing. *)
Theorem update_task_outcome (id : Z) (c : Changes) (d : TaskDB) :
  tinv d ->
  let deps := default [] (ch_depends_on c) in
  ((exists r d', update_task id c d = (Ok r, d')) <->
   is_Some (tasks d !! id) /\ id ∉ deps /\ forall b, b ∈ deps -> is_Some (tasks d !! b)) /\
  (forall e d', update_task id c d = (Err e, d') -> d' = d).
Proof.
  intros Hinv deps. rewrite update_task_run. subst deps.
  assert (match ch_depends_on c with Some l => bool_decide (missing_ids d (normalize_dependencies l) = [])
          | None => true end = true <->
          forall b, b ∈ default [] (ch_depends_on c) -> is_Some (tasks d !! b)) as Hm.
  { destruct (ch_depends_on c) as [l|]; simpl.
    - rewrite bool_decide_eq_true, missing_ids_nil. by setoid_rewrite elem_of_normalize.
    - split; [|done]. intros _ b Hb. by apply not_elem_of_nil in Hb. }
  assert (match ch_depends_on c with Some l => bool_decide (id ∈ l) | None => false end = true <->
          id ∈ default [] (ch_depends_on c)) as Hs.
  { destruct (ch_depends_on c); simpl; [apply bool_decide_eq_true|]. split; [done|].
    intros Hb. by apply not_elem_of_nil in Hb. }
  destruct (match ch_depends_on c with Some l => bool_decide (id ∈ l) | None => false end).
  { split; [|intros ? ? [= _ <-]; done]. split; [by intros (? & ? & ?)|]. naive_solver. }
  destruct (tasks d !! id) as [t|] eqn:Ht.
  2: { split; [|intros ? ? [= _ <-]; done]. split; [by intros (? & ? & ?)|].
       intros [[? ?] _]. done. }
  destruct (match ch_depends_on c with Some l => bool_decide (missing_ids d _ = []) | None => true end).
  - split; [|by intros]. split; [|eauto]. intros _. split; [done|]. split; [|by apply Hm].
    intros Hin. by apply Hs in Hin.
  - split; [|intros ? ? [= _ <-]; done]. split; [by intros (? & ? & ?)|].
    intros (_ & _ & Hall). by apply Hm in Hall.
Qed.

(** ** A concrete task list *)

Definition sample_env : TaskEnv := {| te_lease_seconds := 60; te_system_state := true |}.

(** Task 2 depends on task 1; then Ann checks out what is ready. *)
Definition sample_requests : list (Z * TaskCommand) :=
  [(seconds 100, CreateTask "first" "" [] 0); (seconds 100, CreateTask "second" "" [1] 5)].

Definition sample_tasks : TaskDB :=
  Eval vm_compute in foldl (process sample_env) empty_tasks sample_requests.

Definition leased_tasks : TaskDB :=
  Eval vm_compute in process sample_env sample_tasks (seconds 110, Checkout "ann" None).

Definition completed_tasks : TaskDB :=
  Eval vm_compute in process sample_env leased_tasks (seconds 120, Complete "ann" 1 (Some "done")).

Definition task_in (d : TaskDB) (id : Z) : Task :=
  default (created "" "" 0 d) (tasks d !! id).

Definition lease_in (d : TaskDB) (id : Z) : TaskLease :=
  default (Tasks.new_lease 0 0 "" 0) (leases d !! id).

Lemma sample_inv d requests : foldl (process sample_env) empty_tasks requests = d -> tinv d.
Proof. intros <-. apply process_all_inv, empty_inv. Qed.

Lemma sample_tasks_inv : tinv sample_tasks.
Proof. apply (sample_inv _ sample_requests). vm_compute. reflexivity. Qed.

Lemma leased_tasks_inv : tinv leased_tasks.
Proof.
  apply (sample_inv _ (sample_requests ++ [(seconds 110, Checkout "ann" None)])).
  vm_compute. reflexivity.
Qed.

Lemma completed_tasks_inv : tinv completed_tasks.
Proof.
  apply (sample_inv _ (sample_requests ++ [(seconds 110, Checkout "ann" None);
                                           (seconds 120, Complete "ann" 1 (Some "done"))])).
  vm_compute. reflexivity.
Qed.

Lemma checkout_first_ready_witness :
  exists t, ready (opened "ann" (seconds 110) sample_tasks) t.
Proof.
  destruct (checkout_first_ready sample_env "ann" (seconds 110) sample_tasks) as [(t & Ht & _)|[_ Hno]].
  - apply sample_tasks_inv.
  - exists t. exact Ht.
  - exfalso. vm_compute in Hno. discriminate Hno.
Defined.

Lemma checkout_requested_witness :
  exists t, task_id t = 1 /\ ready (opened "bob" (seconds 110) sample_tasks) t.
Proof.
  destruct (checkout_requested sample_env "bob" 1 (seconds 110) sample_tasks)
    as [(t & Hid & Ht & _)|[_ Hno]].
  - apply sample_tasks_inv.
  - reflexivity.
  - exists t. split; [exact Hid|exact Ht].
  - exfalso. vm_compute in Hno. discriminate Hno.
Defined.

Lemma process_protects_witness :
  leases (process sample_env leased_tasks (seconds 115, Complete "bob" 1 None)) !! 1 =
    Some (lease_in leased_tasks 1) /\
  tasks (process sample_env leased_tasks (seconds 115, Complete "bob" 1 None)) !! 1 =
    tasks leased_tasks !! 1.
Proof.
  apply (process_protects sample_env (seconds 115) (Complete "bob" 1 None) leased_tasks 1
    (lease_in leased_tasks 1)).
  - apply leased_tasks_inv.
  - vm_compute. reflexivity.
  - vm_compute. reflexivity.
  - vm_compute. discriminate.
Defined.

Lemma complete_task_witness :
  exists res d', complete "ann" 1 (Some "done") (seconds 120) leased_tasks = (Ok res, d') /\
    cr_ok res = true /\ leases d' !! 1 = None.
Proof.
  destruct (complete_task "ann" 1 (seconds 120) (Some "done") leased_tasks (task_in leased_tasks 1))
    as (res & d' & H1 & H2 & _ & H3 & _).
  - apply leased_tasks_inv.
  - vm_compute. reflexivity.
  - vm_compute. reflexivity.
  - exists res, d'. split; [exact H1|]. split; [exact H2|exact H3].
Defined.

Lemma abandon_reopens_completed_witness :
  exists d', abandon "bob" 1 (seconds 130) completed_tasks =
    (Ok {| hr_ok := true; hr_task_id := 1 |}, d') /\
    exists t', tasks d' !! 1 = Some t' /\ task_status t' = T_PENDING /\ task_completed_notes t' = None.
Proof.
  apply (abandon_reopens_completed "bob" 1 (seconds 130) completed_tasks (task_in completed_tasks 1)).
  - apply completed_tasks_inv.
  - vm_compute. reflexivity.
  - vm_compute. reflexivity.
Defined.

Definition add_dependency : Changes :=
  {| ch_title := None; ch_description := None; ch_status := None; ch_depends_on := Some [2];
     ch_completed_notes := None; ch_priority := Some 9 |}.

Lemma update_task_outcome_witness :
  exists r d', update_task 1 add_dependency sample_tasks = (Ok r, d').
Proof.
  apply (update_task_outcome 1 add_dependency sample_tasks).
  - apply sample_tasks_inv.
  - split; [vm_compute; eauto|]. split; [apply (bool_decide_unpack _); vm_compute; exact I|].
    intros b Hb. apply list_elem_of_singleton in Hb. subst b. vm_compute. eauto.
Defined.

(** Only the self-dependency is refused: an update can close a cycle between two
    tasks, after which neither is ever handed out, to any agent at any time. *)
Theorem update_accepts_cycle :
  let d := foldl (process sample_env) empty_tasks
             (sample_requests ++ [(seconds 105, UpdateTask 1 add_dependency)]) in
  (1, 2) ∈ dependencies d /\ (2, 1) ∈ dependencies d /\
  forall agent_id now, (checkout sample_env agent_id None now d).1 = Ok (not_available None).
Proof.
  intros d. split; [apply (bool_decide_unpack _); vm_compute; exact I|].
  split; [apply (bool_decide_unpack _); vm_compute; exact I|].
  intros agent_id now. vm_compute. reflexivity.
Qed.

Lemma analytics_spec_witness :
  exists a, analytics sample_tasks = (Ok a, sample_tasks) /\
    an_pending_tasks a = an_ready_tasks a + an_blocked_tasks a.
Proof.
  destruct (analytics_spec sample_tasks) as (a & H1 & _ & H2 & _).
  - apply sample_tasks_inv.
  - exists a. split; [exact H1|exact H2].
Defined.
