(* ===== verification/Profiles.v ===== *)
(** * Reviewed workload profiles

    [server/execution/workload_profiles.py]: the blueprints of the external
    workloads, the construction checks of each part, the identity payload and
    digest of a profile, and the compiler from profiles to the trusted manifests of
    the registry and the entries of the catalog.  The two profiles the source
    declares are in [ProfileData.v].

    A field is modelled at the type its annotation gives it; the parsers
    [from_mapping] of untyped documents are not modelled.  A constructor that
    raises is an [Err] with the message. *)

From S2P Require Import Prelude Text Json TextPolicy Enums Catalog Evidence Registry Checks.

(** ** Patterns and bounds *)

Definition slug_first (c : ascii) : bool := is_digit c || is_lower c.

(** The three patterns shared with the catalog. *)
Definition IDENTITY : string -> bool := IDENTITY_PATTERN.
Definition VERSION : string -> bool := VERSION_PATTERN.
Definition REPOSITORY : string -> bool := REPOSITORY_PATTERN.

Definition STEP_ID : string -> bool := pattern slug_first slug_char 0 79.
Definition ENVIRONMENT_KEY : string -> bool :=
  pattern (fun c => is_upper c || (ord c =? 95)) (fun c => is_upper c || is_digit c || (ord c =? 95)) 0 63.
Definition EXECUTABLE : string -> bool := pattern is_alnum repo_char 0 127.
Definition SAFE_ARTIFACT_KIND : string -> bool := pattern slug_first slug_char 0 63.
(** [A-Za-z0-9!#$&^_.+/-] after an alphanumeric *)
Definition SAFE_MEDIA_TYPE : string -> bool :=
  pattern is_alnum
    (fun c => is_alnum c || bool_decide (ord c ∈ [33; 35; 36; 38; 94; 95; 46; 43; 47; 45])) 1 127.
Definition SAFE_EXCLUSION : string -> bool := pattern slug_first slug_char 0 95.

Definition PROFILE_SCHEMA_VERSION : Z := 1.
Definition MAX_PROFILE_TIMEOUT_SECONDS : Z := 14400.
Definition MAX_STEP_TIMEOUT_SECONDS : Z := 3600.
Definition MAX_OUTPUT_SUMMARY_BYTES : Z := 65536.
Definition MAX_ARTIFACT_COUNT : Z := 128.
Definition MAX_ARTIFACT_BYTES : Z := 64 * 1024 * 1024.
Definition MAX_TOTAL_ARTIFACT_BYTES : Z := 512 * 1024 * 1024.
Definition MAX_RETENTION_DAYS : Z := 3650.
Definition MAX_RESULT_RECORDS : Z := 10000000.
Definition MAX_RESULT_BYTES : Z := 2 * 1024 * 1024.
Definition DEFAULT_RESULT_BYTES : Z := 1048576.

Definition PUBLIC_WORKLOAD_REPOSITORIES : list string :=
  ["Nobodyworld/dev-agent-switchboard"; "Nobodyworld/app-accounting-modular";
   "Nobodyworld/dev-logger-zscripts"; "Nobodyworld/app-industry-resilience"].

Definition ALLOWED_INHERITED_ENVIRONMENT_KEYS : list string :=
  ["PATH"; "HOME"; "USERPROFILE"; "SYSTEMROOT"; "TEMP"; "TMP"].

Definition ALLOWED_FIXED_ENVIRONMENT_KEYS : list string :=
  ["PIP_DISABLE_PIP_VERSION_CHECK"; "PIP_NO_INPUT"; "PYTHONDONTWRITEBYTECODE"; "PYTHONUTF8"].

Definition PROFILE_PARSER_KINDS : list string :=
  ["pytest"; "coverage"; "pytest-coverage"; "security-audit"; "dependency-audit";
   "dependency-health"; "critical-coverage"; "quality-summary-v1"; "secret-scan"].

(** [_RESULT_FIELDS_BY_PARSER.get(kind, frozenset())] *)
Definition result_fields_by_parser (kind : string) : list string :=
  default [] (obj_get kind
    [("coverage", ["coverage"]); ("dependency-audit", ["audit"]); ("dependency-health", ["audit"]);
     ("pytest", ["tests"]); ("pytest-coverage", ["coverage"; "tests"]);
     ("quality-summary-v1",
       ["coverage-threshold"; "diagnostics"; "operations"; "profile"; "status"]);
     ("secret-scan", ["audit"])]).

(** [_RESULT_FAILURES_BY_PARSER.get(kind, frozenset())] *)
Definition result_failures_by_parser (kind : string) : list string :=
  default [] (obj_get kind
    [("dependency-audit", ["dependency-vulnerability"]); ("dependency-health", ["dependency-health"]);
     ("pytest", ["test-failure"]); ("pytest-coverage", ["coverage-threshold"; "test-failure"]);
     ("quality-summary-v1", ["coverage-threshold"; "quality-operation-failure"]);
     ("secret-scan", ["baseline-validation"])]).

Definition SHELL_EXECUTABLES : list string :=
  ["bash"; "cmd"; "cmd.exe"; "command"; "fish"; "powershell"; "powershell.exe"; "pwsh"; "pwsh.exe";
   "sh"; "zsh"].

Definition SHELL_ARGUMENTS : list string := ["-c"; "/c"; "-command"; "-encodedcommand"].

(** ** Shared checks *)

Definition has_char (z : Z) (s : string) : bool := existsb (fun c => ord c =? z) (to_chars s).

(** [value.split("/")] *)
Definition segments (value : string) : list string :=
  map of_chars (split_on (chr 47) (to_chars value)).

Definition dot_part (p : string) : bool := bool_decide (p ∈ ["."; ".."]).

Definition check_relative_path (value kind : string) : Result string unit :=
  _ ← reject_if (bool_decide (value = "") || (512 <? str_length value) || has_char 92 value
                 || has_char 0 value || starts_with [chr 47] (to_chars value) || has_char 58 value)
        (kind +:+ " must be a bounded relative POSIX path");
  reject_if (existsb (fun p => bool_decide (p ∈ [""; "."; ".."])) (segments value))
    (kind +:+ " must not contain traversal or dot segments").

(** [item.split("=", maxsplit=1)[-1]] *)
Fixpoint after_equals (l : list ascii) : option (list ascii) :=
  match l with
  | [] => None
  | c :: l' => if ord c =? 61 then Some l' else after_equals l'
  end.

(** [item.split("=", maxsplit=1)[-1].replace("\\", "/")] *)
Definition path_argument (item : string) : string :=
  of_chars (map (fun c => if ord c =? 92 then chr 47 else c)
              (default (to_chars item) (after_equals (to_chars item)))).

(** [re.match(r"^[A-Za-z]:", item)] *)
Definition drive_prefix (item : string) : bool :=
  match to_chars item with
  | d :: c :: _ => (is_upper d || is_lower d) && (ord c =? 58)
  | _ => false
  end.

Definition absolute_item (item : string) : bool :=
  starts_with [chr 47] (to_chars item) || starts_with [chr 92] (to_chars item) || drive_prefix item.

Definition traversing (candidate : string) : bool :=
  (has_char 47 candidate || dot_part candidate)
  && (dot_part candidate || existsb dot_part (segments candidate)).

Definition check_fixed_argv (argv : list string) : Result string unit :=
  match argv with
  | [] => Err "profile step argv must be a non-empty fixed tuple"
  | executable :: arguments =>
      _ ← reject_if (existsb (fun i => bool_decide (i = "") || has_char 0 i) argv)
            "profile step argv must be a non-empty fixed tuple";
      _ ← reject_if (negb (EXECUTABLE executable)
                     || bool_decide (lower executable ∈ SHELL_EXECUTABLES))
            "profile step executable is unsafe or shell-shaped";
      _ ← reject_if (existsb (fun i => bool_decide (lower i ∈ SHELL_ARGUMENTS)) arguments)
            "profile step shell invocation is not allowed";
      _ ← reject_if (existsb absolute_item argv)
            "profile step argv must not contain absolute paths";
      reject_if (existsb (fun i => traversing (path_argument i)) arguments)
        "profile step argv must not contain traversal or dot segments"
  end.

Definition check_environment_item (kv : string * string) : Result string unit :=
  _ ← reject_if (negb (ENVIRONMENT_KEY kv.1) || negb (bool_decide (kv.1 ∈ ALLOWED_FIXED_ENVIRONMENT_KEYS)))
        "profile step environment key is unsupported";
  reject_if (bool_decide (kv.2 = "") || (256 <? str_length kv.2) || has_char 0 kv.2 || has_char 10 kv.2
             || has_char 13 kv.2 || str_contains "${" kv.2 || has_char 37 kv.2)
    "profile step environment value is invalid".

Definition check_environment (environment : list (string * string)) : Result string unit :=
  _ ← reject_if (negb (unique (map fst environment))) "profile step environment keys must be unique";
  check_all check_environment_item environment.

(** [\d+(?:\.\d+){1,2}] *)
Definition version_number (s : string) : bool :=
  let parts := split_on (chr 46) (to_chars s) in
  (2 <=? Z.of_nat (length parts)) && (Z.of_nat (length parts) <=? 3)
  && forallb (fun p => negb (bool_decide (p = [])) && forallb is_digit p) parts.

Definition READINESS_CAPABILITIES : list string :=
  ["git_available"; "node"; "operating_system"; "pnpm"; "python"; "repository_write"].

(** The operating systems: a non-empty list of "linux" and "windows". *)
Definition operating_systems_ok (v : option Json) : bool :=
  match v with
  | Some (JList l) =>
      negb (bool_decide (length l = 0%nat))
      && forallb (fun i => match i with JStr s => bool_decide (s ∈ ["linux"; "windows"]) | _ => false end) l
  | _ => false
  end.

Definition check_runtime (requirements : list (string * Json)) (runtime : string) : Result string unit :=
  match obj_get runtime requirements with
  | None => Ok tt
  | Some (JObj [(k, v)]) =>
      _ ← reject_if (negb (bool_decide (k ∈ ["minimum"; "exact"]))) "profile runtime capability is invalid";
      reject_if (negb match v with JStr s => version_number s | _ => false end)
        "profile runtime capability version is invalid"
  | Some _ => Err "profile runtime capability is invalid"
  end.

(** [value is True], [value is False] *)
Definition is_bool (b : bool) (v : option Json) : bool :=
  match v with Some (JBool b') => Bool.eqb b b' | _ => false end.

Definition check_capabilities (requirements : list (string * Json)) : Result string unit :=
  _ ← reject_if (negb (subset_of (map fst requirements) READINESS_CAPABILITIES))
        "profile capability requirement is not readiness-enforceable";
  _ ← reject_if (negb (operating_systems_ok (obj_get "operating_system" requirements)))
        "profile operating-system capability is invalid";
  _ ← check_all (check_runtime requirements) ["python"; "node"; "pnpm"];
  _ ← reject_if (negb (is_bool true (obj_get "git_available" requirements)))
        "profile must require Git availability";
  reject_if (negb (is_bool false (obj_get "repository_write" requirements)))
    "profile must prohibit repository writes".

(** ** Artifact declarations *)

Record ArtifactDeclaration := {
  ad_kind : string;
  ad_relative_path : string;
  ad_media_type : string;
  ad_redaction_state : string;
  ad_required : bool;
  ad_maximum_bytes : Z;
}.

(** [ArtifactDeclaration(kind, relative_path, media_type)] with the defaults *)
Definition declare_artifact (kind relative_path media_type : string) : ArtifactDeclaration :=
  {| ad_kind := kind; ad_relative_path := relative_path; ad_media_type := media_type;
     ad_redaction_state := "none"; ad_required := true; ad_maximum_bytes := MAX_ARTIFACT_BYTES |}.

Definition check_declaration (a : ArtifactDeclaration) : Result string unit :=
  _ ← reject_if (negb (SAFE_ARTIFACT_KIND (ad_kind a))) "profile artifact kind is invalid";
  _ ← check_relative_path (ad_relative_path a) "profile artifact path";
  _ ← reject_if (negb (SAFE_MEDIA_TYPE (ad_media_type a))) "profile artifact media type is invalid";
  _ ← reject_if (negb (bool_decide (ad_redaction_state a ∈ ["none"; "redacted"])))
        "profile artifact redaction state is invalid";
  reject_if (negb (int_between 1 MAX_ARTIFACT_BYTES (ad_maximum_bytes a)))
    "profile artifact bounds are invalid".

Definition declaration_payload (a : ArtifactDeclaration) : Json :=
  JObj [("kind", JStr (ad_kind a)); ("maximum_bytes", JInt (ad_maximum_bytes a));
        ("media_type", JStr (ad_media_type a)); ("redaction_state", JStr (ad_redaction_state a));
        ("relative_path", JStr (ad_relative_path a)); ("required", JBool (ad_required a))].

(** ** Result contracts *)

Record ResultContract := {
  rc_parser_kind : option string;
  rc_source : string;
  rc_source_path : option string;
  rc_minimum_coverage_percent : option Z;
  rc_minimum_test_count : option Z;
  rc_maximum_parsed_records : Z;
  rc_maximum_parsed_bytes : Z;
  rc_required_summary_fields : list string;
  rc_failure_conditions : list string;
}.

Definition validate_source (c : ResultContract) : Result string unit :=
  _ ← reject_if (negb (opt_all (fun k => bool_decide (k ∈ PROFILE_PARSER_KINDS)) (rc_parser_kind c)))
        "profile result parser kind is unsupported";
  _ ← reject_if (negb (bool_decide (rc_source c ∈ ["stdout"; "artifact"])))
        "profile result source is unsupported";
  if bool_decide (rc_source c = "artifact") then
    match rc_source_path c with
    | None => Err "artifact result source requires a declared path"
    | Some path => check_relative_path path "profile result source path"
    end
  else reject_if (negb (bool_decide (rc_source_path c = None)))
         "stdout result source must not declare an artifact path".

Definition validate_numeric_limits (c : ResultContract) : Result string unit :=
  _ ← reject_if (negb (opt_all (int_between 0 100) (rc_minimum_coverage_percent c)))
        "profile coverage threshold is invalid";
  _ ← reject_if (negb (opt_all (int_between 0 MAX_RESULT_RECORDS) (rc_minimum_test_count c)))
        "profile test-count rule is invalid";
  _ ← reject_if (negb (int_between 1 MAX_RESULT_RECORDS (rc_maximum_parsed_records c)))
        "profile parsed-record limit is invalid";
  reject_if (negb (int_between 1 MAX_RESULT_BYTES (rc_maximum_parsed_bytes c)))
    "profile parsed-byte limit is invalid".

Definition unique_exclusions (l : list string) : bool := unique l && forallb SAFE_EXCLUSION l.

Definition validate_declared_fields (c : ResultContract) : Result string unit :=
  _ ← reject_if (negb (unique_exclusions (rc_required_summary_fields c)))
        "profile result summary fields are invalid";
  reject_if (negb (unique_exclusions (rc_failure_conditions c)))
    "profile result failure conditions are invalid".

Definition validate_parser_rules (c : ResultContract) : Result string unit :=
  match rc_parser_kind c with
  | None => Ok tt
  | Some kind =>
      _ ← (if bool_decide (kind = "quality-summary-v1")
           then reject_if (negb (bool_decide (rc_source c = "artifact"))
                           || negb (bool_decide (rc_source_path c = Some "reports/quality-summary.json")))
                  "quality result source is unsupported"
           else reject_if (negb (bool_decide (rc_source c = "stdout"))
                           || negb (bool_decide (rc_source_path c = None)))
                  "profile result source is unsupported");
      _ ← reject_if (negb (subset_of (rc_required_summary_fields c) (result_fields_by_parser kind)))
            "profile result summary fields are unsupported";
      _ ← reject_if (negb (subset_of (rc_failure_conditions c) (result_failures_by_parser kind)))
            "profile result failure conditions are unsupported";
      _ ← reject_if (bool_decide ("coverage-threshold" ∈ rc_failure_conditions c)
                     && bool_decide (rc_minimum_coverage_percent c = None))
            "profile coverage failure condition requires a threshold";
      _ ← reject_if (negb (bool_decide (rc_minimum_coverage_percent c = None))
                     && negb (bool_decide (kind ∈ ["coverage"; "pytest-coverage"; "quality-summary-v1"])))
            "profile result coverage parser is unsupported";
      reject_if (negb (bool_decide (rc_minimum_test_count c = None))
                 && negb (bool_decide (kind ∈ ["pytest"; "pytest-coverage"])))
        "profile result test parser is unsupported"
  end.

(** [ResultContract.__post_init__] *)
Definition check_contract (c : ResultContract) : Result string unit :=
  _ ← validate_source c;
  _ ← validate_numeric_limits c;
  _ ← validate_declared_fields c;
  validate_parser_rules c.

Definition contract_payload (c : ResultContract) : Json :=
  JObj [("failure_conditions", strings_json (rc_failure_conditions c));
        ("maximum_parsed_bytes", JInt (rc_maximum_parsed_bytes c));
        ("maximum_parsed_records", JInt (rc_maximum_parsed_records c));
        ("minimum_coverage_percent", json_opt JInt (rc_minimum_coverage_percent c));
        ("minimum_test_count", json_opt JInt (rc_minimum_test_count c));
        ("parser_kind", json_opt JStr (rc_parser_kind c));
        ("required_summary_fields", strings_json (rc_required_summary_fields c));
        ("source", JStr (rc_source c));
        ("source_path", json_opt JStr (rc_source_path c))].

(** ** Resource limits *)

Record ResourceLimits := {
  rl_maximum_artifact_count : Z;
  rl_maximum_artifact_bytes : Z;
  rl_maximum_total_artifact_bytes : Z;
  rl_retention_days : Z;
}.

Definition check_limits (l : ResourceLimits) : Result string unit :=
  _ ← reject_if (negb (int_between 1 MAX_ARTIFACT_COUNT (rl_maximum_artifact_count l)))
        "profile artifact-count limit is invalid";
  _ ← reject_if (negb (int_between 1 MAX_ARTIFACT_BYTES (rl_maximum_artifact_bytes l)))
        "profile per-artifact limit is invalid";
  _ ← reject_if (negb (int_between (rl_maximum_artifact_bytes l) MAX_TOTAL_ARTIFACT_BYTES
                         (rl_maximum_total_artifact_bytes l)))
        "profile total-artifact limit is invalid";
  reject_if (negb (int_between 1 MAX_RETENTION_DAYS (rl_retention_days l)))
    "profile retention limit is invalid".

Definition limits_payload (l : ResourceLimits) : Json :=
  JObj [("maximum_artifact_bytes", JInt (rl_maximum_artifact_bytes l));
        ("maximum_artifact_count", JInt (rl_maximum_artifact_count l));
        ("maximum_total_artifact_bytes", JInt (rl_maximum_total_artifact_bytes l));
        ("retention_days", JInt (rl_retention_days l))].

(** ** Steps *)

Record WorkloadStep := {
  ws_id : string;
  ws_title : string;
  ws_argv : list string;
  ws_required : bool;
  ws_timeout_seconds : Z;
  ws_output_summary_limit : Z;
  ws_working_directory : string;
  ws_environment : list (string * string);
  ws_result_contract : option ResultContract;
  ws_artifacts : list ArtifactDeclaration;
  ws_diagnostic_only : bool;
}.

Definition declared_paths (s : WorkloadStep) : list string := map ad_relative_path (ws_artifacts s).

(** [WorkloadStep.__post_init__] *)
Definition check_workload_step (s : WorkloadStep) : Result string unit :=
  _ ← reject_if (negb (STEP_ID (ws_id s)) || bool_decide (ws_title s = "") || (160 <? str_length (ws_title s)))
        "profile step identity is invalid";
  _ ← check_fixed_argv (ws_argv s);
  _ ← reject_if (Bool.eqb (ws_required s) (ws_diagnostic_only s))
        "profile step required/diagnostic policy is invalid";
  _ ← reject_if (negb (int_between 1 MAX_STEP_TIMEOUT_SECONDS (ws_timeout_seconds s)))
        "profile step timeout is invalid";
  _ ← reject_if (negb (int_between 1 MAX_OUTPUT_SUMMARY_BYTES (ws_output_summary_limit s)))
        "profile step output bound is invalid";
  _ ← (if bool_decide (ws_working_directory s = ".") then Ok tt
       else check_relative_path (ws_working_directory s) "profile working directory");
  _ ← check_environment (ws_environment s);
  _ ← reject_if (negb (unique (declared_paths s))) "profile step artifact paths must be unique";
  match ws_result_contract s with
  | None => Ok tt
  | Some c =>
      _ ← reject_if (bool_decide (rc_parser_kind c = None))
            "profile result contract must select a fixed parser";
      reject_if (bool_decide (rc_source c = "artifact")
                 && negb match rc_source_path c with
                         | Some path => bool_decide (path ∈ declared_paths s)
                         | None => false
                         end)
        "profile result source must be a declared artifact"
  end.

Definition workload_step_payload (s : WorkloadStep) : Json :=
  JObj [("argv", strings_json (ws_argv s));
        ("artifacts", JList (map declaration_payload (ws_artifacts s)));
        ("diagnostic_only", JBool (ws_diagnostic_only s));
        ("environment", JList (map (fun kv => strings_json [kv.1; kv.2]) (ws_environment s)));
        ("id", JStr (ws_id s));
        ("output_summary_limit", JInt (ws_output_summary_limit s));
        ("required", JBool (ws_required s));
        ("result_contract", json_opt contract_payload (ws_result_contract s));
        ("timeout_seconds", JInt (ws_timeout_seconds s));
        ("working_directory", JStr (ws_working_directory s))].

(** ** Profiles *)

Record WorkloadProfile := {
  wp_repository_full_name : string;
  wp_display_name : string;
  wp_description : string;
  wp_documentation_reference : string;
  wp_manifest_name : string;
  wp_manifest_version : string;
  wp_required_capabilities : list (string * Json);
  wp_environment_policy : list (string * list string);
  wp_network_policy : string;
  wp_repository_write_policy : string;
  wp_timeout_seconds : Z;
  wp_resource_limits : ResourceLimits;
  wp_result_affecting_input_paths : list string;
  wp_deterministic_exclusions : list string;
  wp_steps : list WorkloadStep;
}.

(** [[artifact for step in steps for artifact in step.artifacts]] *)
Definition profile_artifacts (p : WorkloadProfile) : list ArtifactDeclaration :=
  concat (map ws_artifacts (wp_steps p)).

Definition POLICY_KEYS : list string := ["allowed_inherited_keys"; "redact_keys"].

(** The environment policy of [WorkloadProfile.__post_init__] *)
Definition check_environment_policy (policy : list (string * list string)) : Result string unit :=
  let inherited := default [] (obj_get "allowed_inherited_keys" policy) in
  let redacted := default [] (obj_get "redact_keys" policy) in
  _ ← reject_if (negb (subset_of (map fst policy) POLICY_KEYS && subset_of POLICY_KEYS (map fst policy)))
        "profile environment policy fields are invalid";
  _ ← reject_if (bool_decide (inherited = []) || negb (unique inherited)
                 || negb (subset_of inherited ALLOWED_INHERITED_ENVIRONMENT_KEYS))
        "profile inherited environment policy is unsupported";
  reject_if (bool_decide (redacted = []) || negb (unique redacted)
             || negb (forallb ENVIRONMENT_KEY redacted))
    "profile redaction policy is invalid".

(** The step and artifact tables of [WorkloadProfile.__post_init__] *)
Definition check_tables (p : WorkloadProfile) : Result string unit :=
  let artifact_paths := map ad_relative_path (profile_artifacts p) in
  _ ← reject_if (bool_decide (length (wp_steps p) = 0%nat) || (64 <? Z.of_nat (length (wp_steps p))))
        "profile step count is invalid";
  _ ← reject_if (negb (unique (map ws_id (wp_steps p)))) "profile step IDs must be unique";
  _ ← reject_if (negb (unique artifact_paths)) "profile artifact paths must be unique";
  _ ← reject_if (rl_maximum_artifact_count (wp_resource_limits p) <? Z.of_nat (length artifact_paths))
        "profile artifact declarations exceed the fixed limit";
  reject_if (negb (unique_exclusions (wp_deterministic_exclusions p)))
    "profile deterministic exclusions are invalid".

(** [WorkloadProfile.__post_init__] *)
Definition check_profile (p : WorkloadProfile) : Result string unit :=
  _ ← reject_if (negb (REPOSITORY (wp_repository_full_name p))
                 || existsb dot_part (segments (wp_repository_full_name p))
                 || negb (bool_decide (wp_repository_full_name p ∈ PUBLIC_WORKLOAD_REPOSITORIES)))
        "profile repository is not public and reviewed";
  _ ← reject_if (negb (IDENTITY (wp_manifest_name p)) || negb (VERSION (wp_manifest_version p)))
        "profile manifest identity is invalid";
  _ ← reject_if (bool_decide (wp_display_name p = "") || (120 <? str_length (wp_display_name p)))
        "profile display name is invalid";
  _ ← reject_if (bool_decide (wp_description p = "") || (500 <? str_length (wp_description p)))
        "profile description is invalid";
  _ ← check_relative_path (wp_documentation_reference p) "profile documentation reference";
  _ ← reject_if (negb (starts_with (to_chars "docs/") (to_chars (wp_documentation_reference p)))
                 || negb (ends_with (to_chars ".md") (to_chars (wp_documentation_reference p))))
        "profile documentation reference is invalid";
  _ ← check_capabilities (wp_required_capabilities p);
  _ ← check_environment_policy (wp_environment_policy p);
  _ ← reject_if (negb (bool_decide (wp_network_policy p ∈ ["disabled"; "worker_restricted"])))
        "profile network policy is unsupported";
  _ ← reject_if (negb (bool_decide (wp_repository_write_policy p = "read_only")))
        "profile repository write policy is unsupported";
  _ ← reject_if (negb (int_between 1 MAX_PROFILE_TIMEOUT_SECONDS (wp_timeout_seconds p)))
        "profile timeout is invalid";
  _ ← reject_if (bool_decide (wp_result_affecting_input_paths p = []))
        "profile result-affecting inputs are required";
  _ ← reject_if (negb (unique (wp_result_affecting_input_paths p)))
        "profile result-affecting inputs must be unique";
  _ ← check_all (fun path => check_relative_path path "profile result-affecting input")
        (wp_result_affecting_input_paths p);
  check_tables p.

(** Building a profile builds its parts first, innermost first. *)
Definition construct_step (s : WorkloadStep) : Result string unit :=
  _ ← match ws_result_contract s with Some c => check_contract c | None => Ok tt end;
  _ ← check_all check_declaration (ws_artifacts s);
  check_workload_step s.

Definition construct_profile (p : WorkloadProfile) : Result string unit :=
  _ ← check_limits (wp_resource_limits p);
  _ ← check_all construct_step (wp_steps p);
  check_profile p.

Definition manifest_identity (p : WorkloadProfile) : string * string :=
  (wp_manifest_name p, wp_manifest_version p).

Definition policy_le (a b : string * list string) : Prop := str_le a.1 b.1.

#[global] Instance policy_le_dec : RelDecision policy_le.
Proof. intros a b. unfold policy_le. apply _. Defined.

(** [{key: list(value) for key, value in sorted(policy.items())}] *)
Definition policy_payload (policy : list (string * list string)) : list (string * Json) :=
  map (fun kv => (kv.1, strings_json kv.2)) (merge_sort policy_le policy).

Definition identity_payload (p : WorkloadProfile) : Json :=
  JObj [("environment_policy", JObj (policy_payload (wp_environment_policy p)));
        ("manifest", JObj [("name", JStr (wp_manifest_name p)); ("version", JStr (wp_manifest_version p))]);
        ("network_policy", JStr (wp_network_policy p));
        ("repository_full_name", JStr (wp_repository_full_name p));
        ("repository_write_policy", JStr (wp_repository_write_policy p));
        ("required_capabilities", JObj (wp_required_capabilities p));
        ("resource_limits", limits_payload (wp_resource_limits p));
        ("result_affecting_input_paths", strings_json (wp_result_affecting_input_paths p));
        ("schema_version", JInt PROFILE_SCHEMA_VERSION);
        ("steps", JList (map workload_step_payload (wp_steps p)));
        ("timeout_seconds", JInt (wp_timeout_seconds p))].

(** [profile_serialization] and [WorkloadProfile.digest] *)
Definition profile_serialization (p : WorkloadProfile) : string := dumps true (identity_payload p).
Definition profile_digest (p : WorkloadProfile) : string := sha256_hex (profile_serialization p).

Definition reference_json (name version : string) : Json :=
  JObj [("name", JStr name); ("version", JStr version)].

Definition safe_catalog_mapping (p : WorkloadProfile) : Json :=
  JObj [("default_manifest", reference_json (wp_manifest_name p) (wp_manifest_version p));
        ("description", JStr (wp_description p));
        ("display_name", JStr (wp_display_name p));
        ("documentation_reference", JStr (wp_documentation_reference p));
        ("full_name", JStr (wp_repository_full_name p));
        ("manifests", JList [reference_json (wp_manifest_name p) (wp_manifest_version p)]);
        ("support_status", JStr "developer_preview")].

(** ** The compiler *)

Definition profile_le (a b : WorkloadProfile) : Prop :=
  str_le (wp_repository_full_name a) (wp_repository_full_name b).

#[global] Instance profile_le_dec : RelDecision profile_le.
Proof. intros a b. unfold profile_le. apply _. Defined.

Definition validate_workload_profiles (profiles : list WorkloadProfile)
    : Result string (list WorkloadProfile) :=
  let definitions := merge_sort profile_le profiles in
  _ ← reject_if (negb (unique (map (fun p => lower (wp_repository_full_name p)) definitions)))
        "profile repository identities must be unique without case collisions";
  _ ← reject_if (negb (unique (map manifest_identity definitions)))
        "profile manifest identities must be unique";
  _ ← reject_if (negb (bool_decide (length definitions = 2%nat)))
        "exactly two reviewed external workload profiles are required";
  Ok definitions.

Definition profile_catalog_mappings (profiles : list WorkloadProfile) : Result string (list Json) :=
  definitions ← validate_workload_profiles profiles;
  Ok (map safe_catalog_mapping definitions).

(** [artifact_factory(...)]: the registry's constructor and its check *)
Definition compile_artifact (a : ArtifactDeclaration) : Result string TrustedArtifact :=
  let t := {| ta_kind := ad_kind a; ta_relative_path := ad_relative_path a;
              ta_media_type := ad_media_type a; ta_redaction_state := ad_redaction_state a |} in
  _ ← check_artifact t; Ok t.

(** [step_factory(...)] *)
Definition compile_step (s : WorkloadStep) : Result string TrustedStep :=
  artifacts ← map_result compile_artifact (ws_artifacts s);
  let t := {| ts_id := ws_id s; ts_title := ws_title s; ts_argv := ws_argv s;
              ts_required := ws_required s; ts_timeout_seconds := ws_timeout_seconds s;
              ts_output_summary_limit := ws_output_summary_limit s;
              ts_working_directory := ws_working_directory s; ts_environment := ws_environment s;
              ts_capability_condition := None; ts_diagnostic_only := ws_diagnostic_only s;
              ts_parser_kind := ws_result_contract s ≫= rc_parser_kind;
              ts_artifacts := artifacts |} in
  _ ← check_step t; Ok t.

(** The steps that declare a result contract, as the manifest names them. *)
Definition contract_steps (p : WorkloadProfile) : list Json :=
  omap (fun s => match ws_result_contract s with
                 | Some c => Some (JObj [("id", JStr (ws_id s)); ("result_contract", contract_payload c)])
                 | None => None
                 end) (wp_steps p).

Definition profile_result_contract (p : WorkloadProfile) : list (string * Json) :=
  [("resource_limits", limits_payload (wp_resource_limits p));
   ("schema_version", JInt PROFILE_SCHEMA_VERSION);
   ("steps", JList (contract_steps p))].

(** [_profile_manifest_arguments] with the steps and the two policies: the arguments
    of [manifest_factory] *)
Definition profile_manifest (p : WorkloadProfile) (steps : list TrustedStep)
    (network : NetworkPolicy) (write : RepositoryWritePolicy) : TrustedManifest :=
  {| tm_name := wp_manifest_name p; tm_version := wp_manifest_version p;
     tm_schema_version := PROFILE_SCHEMA_VERSION; tm_description := wp_description p;
     tm_registry_source := "server/execution/workload_profiles.py";
     tm_required_capabilities := wp_required_capabilities p;
     tm_fixed_step_metadata := map step_safe_metadata steps;
     tm_environment_policy := policy_payload (wp_environment_policy p);
     tm_network_policy := network; tm_repository_write_policy := write;
     tm_timeout_seconds := wp_timeout_seconds p;
     tm_artifact_declarations := map declaration_payload (profile_artifacts p);
     tm_allowed_parameters := []; tm_execution_steps := steps;
     tm_dependency_lock_paths := wp_result_affecting_input_paths p;
     tm_result_contract := Some (profile_result_contract p) |}.

(** [RepositoryWritePolicy(value)] *)
Definition repository_write_policy_of_value (v : string) : option RepositoryWritePolicy :=
  head (filter (fun p => repository_write_policy_value p = v) [READ_ONLY]).

Definition enum_member {A} (o : option A) : Result string A :=
  match o with Some a => Ok a | None => Err "value is not a valid enumeration member" end.

(** The body of the loop of [compile_trusted_manifests] *)
Definition compile_manifest (p : WorkloadProfile) : Result string TrustedManifest :=
  steps ← map_result compile_step (wp_steps p);
  network ← enum_member (network_policy_of_value (wp_network_policy p));
  write ← enum_member (repository_write_policy_of_value (wp_repository_write_policy p));
  let m := profile_manifest p steps network write in
  _ ← check_manifest m; Ok m.

Definition compile_trusted_manifests (profiles : list WorkloadProfile)
    : Result string (list TrustedManifest) :=
  definitions ← validate_workload_profiles profiles;
  map_result compile_manifest definitions.
