(* ===== verification/ProfileProofs.v ===== *)
(** * Correctness of the workload profiles

    A constructed profile compiles to a manifest that passes every check of the
    registry exactly when its paths name no reserved device and its media types have
    the length the registry asks for; the compiled manifest is bounded and free of
    shells; and the digest of a profile identifies everything that is executed. *)

From S2P Require Import Prelude Text Json TextPolicy Enums Catalog Evidence Floats JsonCodec Documents Fingerprints Registry Checks Profiles.

(** ** Equality of well-formed values *)

Lemma obj_get_elem {A} k (v : A) fields :
  NoDup fields.*1 -> (k, v) ∈ fields -> obj_get k fields = Some v.
Proof.
  induction fields as [|[k' v'] fields IH]; intros Hnd Hin; [by apply not_elem_of_nil in Hin|].
  apply NoDup_cons in Hnd as [Hnot Hnd]. cbn [obj_get].
  apply elem_of_cons in Hin as [[= -> ->]|Hin]; [by rewrite bool_decide_eq_true_2|].
  rewrite bool_decide_eq_false_2; [by apply IH|]. intros ->. apply Hnot.
  apply list_elem_of_fmap. by exists (k', v).
Qed.

Lemma py_eq_obj_refl all fields :
  NoDup all.*1 -> (forall kv, kv ∈ fields -> kv ∈ all) -> Forall (fun kv => py_eq kv.2 kv.2 = true) fields ->
  (fix go (x : list (string * Json)) : bool :=
     match x with
     | [] => true
     | (k, u) :: x' => match obj_get k all with Some v => py_eq u v | None => false end && go x'
     end) fields = true.
Proof.
  intros Hnd Hsub Hall. induction Hall as [|[k v] fields Hv _ IH]; [done|].
  rewrite (obj_get_elem k v) by (done || apply Hsub; left). cbn in Hv. rewrite Hv. cbn.
  apply IH. intros kv Hkv. apply Hsub. by right.
Qed.

Lemma py_eq_refl j : wf j -> py_eq j j = true.
Proof.
  induction j as [| | | | |l IH|fields IH] using Json_nested_ind; intros Hwf; cbn.
  - done.
  - apply eqb_reflx.
  - apply Z.eqb_refl.
  - apply String.eqb_refl.
  - apply String.eqb_refl.
  - inversion Hwf as [| | | | |? Hl|]; subst. induction Hl as [|x l Hx Hl IHl]; [done|].
    apply Forall_cons in IH as [IHx IH]. rewrite IHx by done. cbn.
    by apply IHl; [|constructor].
  - inversion Hwf as [| | | | | |? Hnd Hall]; subst. rewrite Nat.eqb_refl. cbn.
    apply py_eq_obj_refl; [done|auto|]. rewrite Forall_forall in *. auto.
Qed.

(** ** Paths *)

Lemma segments_join v : join "/" (segments v) = v.
Proof. unfold segments. rewrite <-(of_to_chars v) at 2. apply join_split. Qed.

(** A path no segment of which is a reserved device name. *)
Definition portable_path (v : string) : bool :=
  forallb (fun p => negb (bool_decide (lower (rstrip_dots p) ∈ WINDOWS_DEVICES))) (segments v).

Lemma check_relative_path_ok v kind :
  check_relative_path v kind = Ok tt ->
  v <> "" /\ str_length v <= 512 /\ has_char 92 v = false /\ has_char 0 v = false /\
  starts_with [chr 47] (to_chars v) = false /\ has_char 58 v = false /\ posix_parts v = segments v /\
  existsb (fun p => bool_decide (p ∈ [""; "."; ".."])) (segments v) = false.
Proof.
  unfold check_relative_path. intros H. inv_ok H. repeat split; try done.
  unfold posix_parts. fold (segments v). apply existsb_false in H.
  induction H as [|p l Hp _ IH]; [done|]. inv_bool Hp. rewrite filter_cons_True; [by rewrite IH|].
  set_solver.
Qed.

Lemma as_posix_checked v kind : check_relative_path v kind = Ok tt -> as_posix v = v.
Proof.
  intros (_ & _ & _ & _ & _ & _ & Hp & _)%check_relative_path_ok. unfold as_posix. rewrite Hp.
  destruct (segments v) as [|p ps] eqn:Hs; [|rewrite <-Hs; apply segments_join].
  exfalso. apply (split_on_not_nil (chr 47) (to_chars v)). by apply map_eq_nil in Hs.
Qed.

(** A path the profiles accept is accepted by the registry when it is portable. *)
Lemma validate_checked_path v kind :
  check_relative_path v kind = Ok tt ->
  validate_relative_path v =
  if portable_path v then Ok v else Err "evidence path must not name a device".
Proof.
  intros Hc. pose proof (as_posix_checked _ _ Hc) as Hn.
  apply check_relative_path_ok in Hc as (Hne & Hlen & Hb & Hz & Hs & Hcol & Hp & Hdot).
  unfold validate_relative_path. rewrite Hp, Hdot, Hs, Hn.
  rewrite (existsb_negb (fun p => bool_decide (lower (rstrip_dots p) ∈ WINDOWS_DEVICES))).
  fold (portable_path v).
  unfold has_char in *. rewrite Hcol.
  rewrite (bool_decide_eq_false_2 (v = "")), (bool_decide_eq_true_2 (v = v)) by done.
  replace (MAX_EVIDENCE_PATH_LENGTH <? str_length v) with false
    by (symmetry; apply Z.ltb_ge; unfold MAX_EVIDENCE_PATH_LENGTH; lia).
  rewrite (proj2 (existsb_false _ _)); [by destruct (portable_path v)|].
  apply existsb_false in Hb, Hz. clear -Hb Hz.
  induction Hb as [|c l Hc _ IH]; [done|]. apply Forall_cons in Hz as [Hz Hzl].
  constructor; [by rewrite Hz, Hc|auto].
Qed.

(** ** Artifacts *)

Definition trusted_artifact (a : ArtifactDeclaration) : TrustedArtifact :=
  {| ta_kind := ad_kind a; ta_relative_path := ad_relative_path a;
     ta_media_type := ad_media_type a; ta_redaction_state := ad_redaction_state a |}.

Definition portable_artifact (a : ArtifactDeclaration) : bool :=
  portable_path (ad_relative_path a) && (3 <=? str_length (ad_media_type a)).

Lemma trusted_artifact_checked a :
  check_declaration a = Ok tt -> check_artifact (trusted_artifact a) = Ok tt <-> portable_artifact a = true.
Proof.
  unfold check_declaration. intros H. inv_ok H.
  unfold check_artifact, portable_artifact. cbn.
  rewrite (validate_checked_path _ _ ltac:(eassumption)).
  unfold SAFE_ARTIFACT_KIND in Hok. rewrite pattern_zero in Hok. unfold slug_first in Hok.
  rewrite Hok. cbn. apply pattern_length in Hok1. unfold len_between.
  replace (str_length (ad_media_type a) <=? 128) with true by (symmetry; apply Z.leb_le; lia).
  rewrite (bool_decide_eq_true_2 _ Hok2). destruct (portable_path _); [|done]. by destruct (3 <=? _).
Qed.

Lemma compile_artifact_ok a t :
  check_declaration a = Ok tt ->
  compile_artifact a = Ok t <-> portable_artifact a = true /\ t = trusted_artifact a.
Proof.
  intros Hc. rewrite <-trusted_artifact_checked by done. unfold compile_artifact. fold (trusted_artifact a).
  rewrite result_bind_ok. split.
  - intros ([] & Hok & [= <-]). auto.
  - intros [Hok ->]. eauto.
Qed.

(** ** Steps *)

Definition trusted_step (s : WorkloadStep) : TrustedStep :=
  {| ts_id := ws_id s; ts_title := ws_title s; ts_argv := ws_argv s;
     ts_required := ws_required s; ts_timeout_seconds := ws_timeout_seconds s;
     ts_output_summary_limit := ws_output_summary_limit s;
     ts_working_directory := ws_working_directory s; ts_environment := ws_environment s;
     ts_capability_condition := None; ts_diagnostic_only := ws_diagnostic_only s;
     ts_parser_kind := ws_result_contract s ≫= rc_parser_kind;
     ts_artifacts := map trusted_artifact (ws_artifacts s) |}.

(** The argv policy. *)
Record argv_safe (argv : list string) : Prop := {
  argv_executable : exists executable arguments,
    argv = executable :: arguments /\ lower executable ∉ SHELL_EXECUTABLES /\
    Forall (fun i => lower i ∉ SHELL_ARGUMENTS) arguments /\
    Forall (fun i => traversing (path_argument i) = false) arguments;
  argv_relative : Forall (fun i => i <> "" /\ absolute_item i = false) argv;
}.

Lemma check_fixed_argv_safe argv : check_fixed_argv argv = Ok tt -> argv_safe argv.
Proof.
  unfold check_fixed_argv. destruct argv as [|executable arguments]; [done|]. intros H. inv_ok H.
  split.
  - exists executable, arguments. repeat split; [done| |by apply existsb_false].
    apply existsb_false in Hok1. eapply Forall_impl; [exact Hok1|]. cbn. intros i Hi. by inv_bool Hi.
  - apply existsb_false in Hok, Hok2. rewrite Forall_forall in *. intros i Hi.
    specialize (Hok i Hi). inv_bool Hok. auto.
Qed.

Lemma environment_key_ok key : ENVIRONMENT_KEY key = true -> env_key_ok key = true.
Proof.
  intros Hk. unfold env_key_ok. rewrite bool_decide_eq_false_2 by (by eapply pattern_not_empty).
  cbn [negb andb]. eapply pattern_chars; [| |exact Hk]; intros c; unfold is_alnum;
    destruct (is_upper c), (is_digit c), (is_lower c), (ord c =? 95); done.
Qed.

Lemma check_environment_ok e :
  check_environment e = Ok tt ->
  NoDup (map fst e) /\ Forall (fun kv => env_key_ok kv.1 = true /\ kv.2 <> "" /\
                                         kv.1 ∈ ALLOWED_FIXED_ENVIRONMENT_KEYS) e.
Proof.
  unfold check_environment. intros H. inv_ok H. split; [done|].
  eapply Forall_impl; [exact H|]. cbn. intros kv Hkv. unfold check_environment_item in Hkv. inv_ok Hkv.
  auto using environment_key_ok.
Qed.

Lemma working_directory_ok d :
  (if bool_decide (d = ".") then Ok tt else check_relative_path d "profile working directory") = Ok tt ->
  starts_with [chr 47] (to_chars d) || bool_decide (".." ∈ posix_parts d) = false.
Proof.
  case_bool_decide as Hd; [by subst|].
  intros (_ & _ & _ & _ & -> & _ & -> & Hdot)%check_relative_path_ok. cbn.
  apply bool_decide_eq_false. intros Hin. apply existsb_false in Hdot.
  rewrite Forall_forall in Hdot. specialize (Hdot _ Hin). inv_bool Hdot. set_solver.
Qed.

Lemma contract_parser_kind c : check_contract c = Ok tt ->
  opt_all (fun k => bool_decide (k ∈ PARSER_KINDS)) (rc_parser_kind c) = true.
Proof. unfold check_contract, validate_source. intros H. by inv_ok H. Qed.

Lemma step_parser_kind s :
  match ws_result_contract s with Some c => check_contract c | None => Ok tt end = Ok tt ->
  opt_all (fun k => bool_decide (k ∈ PARSER_KINDS)) (ws_result_contract s ≫= rc_parser_kind) = true.
Proof. destruct (ws_result_contract s); [apply contract_parser_kind|done]. Qed.

Lemma argv_nonempty argv :
  argv_safe argv -> bool_decide (argv = []) || existsb (fun i => bool_decide (i = "")) argv = false.
Proof.
  intros [(e & a & -> & _) Hr]. rewrite bool_decide_eq_false_2 by done. cbn [orb].
  apply existsb_false. eapply Forall_impl; [exact Hr|]. cbn. intros i [Hi _].
  by apply bool_decide_eq_false.
Qed.

Lemma environment_checked e :
  check_environment e = Ok tt ->
  negb (bool_decide (NoDup (map fst e)))
  || existsb (fun kv => negb (env_key_ok kv.1) || bool_decide (kv.2 = "")) e = false.
Proof.
  intros [Hnd Hall]%check_environment_ok. rewrite bool_decide_eq_true_2 by done. cbn [negb orb].
  apply existsb_false. eapply Forall_impl; [exact Hall|]. cbn. intros kv (-> & Hv & _).
  by apply bool_decide_eq_false.
Qed.

(** Every check of a trusted step follows from the checks of the workload step. *)
Lemma trusted_step_checked s : construct_step s = Ok tt -> check_step (trusted_step s) = Ok tt.
Proof.
  unfold construct_step, check_workload_step. intros H. inv_ok H.
  unfold check_step, trusted_step.
  cbn [ts_id ts_title ts_argv ts_required ts_timeout_seconds ts_output_summary_limit
       ts_working_directory ts_environment ts_diagnostic_only ts_parser_kind ts_artifacts].
  pose proof (pattern_not_empty _ _ _ _ _ Hb0). pose proof (pattern_length _ _ _ _ _ Hb0).
  unfold int_between in Hok4. inv_bool Hok4.
  rewrite !if_false; [done|..].
  - by apply environment_checked.
  - rewrite map_map. by rewrite bool_decide_eq_true_2.
  - by rewrite step_parser_kind.
  - by destruct (ws_required s), (ws_diagnostic_only s).
  - by apply working_directory_ok.
  - apply negb_false_iff. exact Hok5.
  - apply Z.leb_gt. lia.
  - by apply argv_nonempty, check_fixed_argv_safe.
  - rewrite !bool_decide_eq_false_2 by done. apply Z.ltb_ge. unfold MAX_TRUSTED_STEP_ID_LENGTH. lia.
Qed.

Definition portable_step (s : WorkloadStep) : bool := forallb portable_artifact (ws_artifacts s).

Lemma compile_artifacts_ok l ts :
  Forall (fun a => check_declaration a = Ok tt) l ->
  map_result compile_artifact l = Ok ts <-> forallb portable_artifact l = true /\ ts = map trusted_artifact l.
Proof. intros Hl. apply map_result_iff. eapply Forall_impl; [exact Hl|]. auto using compile_artifact_ok. Qed.

Lemma compile_step_ok s t :
  construct_step s = Ok tt ->
  compile_step s = Ok t <-> portable_step s = true /\ t = trusted_step s.
Proof.
  intros Hc. pose proof (trusted_step_checked s Hc) as Hs. unfold construct_step in Hc. inv_ok Hc.
  unfold compile_step. rewrite result_bind_ok. split.
  - intros (ts & Hts & H). apply compile_artifacts_ok in Hts as [Hp ->]; [|done].
    fold (trusted_step s) in H. rewrite Hs in H. by injection H as <-.
  - intros [Hp ->]. exists (map trusted_artifact (ws_artifacts s)). split; [by apply compile_artifacts_ok|].
    fold (trusted_step s). by rewrite Hs.
Qed.

Lemma compile_steps_ok l ts :
  Forall (fun s => construct_step s = Ok tt) l ->
  map_result compile_step l = Ok ts <-> forallb portable_step l = true /\ ts = map trusted_step l.
Proof. intros Hl. apply map_result_iff. eapply Forall_impl; [exact Hl|]. auto using compile_step_ok. Qed.

(** ** Manifests *)

#[export] Instance encodes_artifact_metadata : Encodes always artifact_safe_metadata.
Proof.
  split; [intros [] _; unfold artifact_safe_metadata; wf_object| |done].
  intros [] [] _ _ H. unfold artifact_safe_metadata in H. split_object H. by simplify_eq/=.
Qed.

Lemma step_metadata_wf s : ts_capability_condition s = None -> wf (step_safe_metadata s).
Proof.
  intros Hc. unfold step_safe_metadata, strings_json. rewrite Hc. cbn [truthy_dict].
  destruct (ts_diagnostic_only s), (ts_environment s), (truthy_string (ts_parser_kind s)), (ts_artifacts s);
    cbn [app]; wf_object.
Qed.

Definition portable_profile (p : WorkloadProfile) : bool :=
  forallb portable_step (wp_steps p) && forallb portable_path (wp_result_affecting_input_paths p).

Lemma validate_all_paths_ok l :
  Forall (fun path => check_relative_path path "profile result-affecting input" = Ok tt) l ->
  is_ok (validate_all_paths l) = forallb portable_path l.
Proof.
  induction 1 as [|v l Hv _ IH]; [done|]. cbn. rewrite (validate_checked_path _ _ Hv), <-IH.
  destruct (portable_path v); [|done]. by destruct (validate_all_paths l).
Qed.

(** The manifest a profile means: one trusted step for each of its steps. *)
Definition compiled (p : WorkloadProfile) (network : NetworkPolicy) : TrustedManifest :=
  profile_manifest p (map trusted_step (wp_steps p)) network READ_ONLY.

Lemma compiled_checked p network :
  Forall (fun path => check_relative_path path "profile result-affecting input" = Ok tt)
    (wp_result_affecting_input_paths p) ->
  is_ok (check_manifest (compiled p network)) = forallb portable_path (wp_result_affecting_input_paths p).
Proof.
  intros Hp. rewrite <-validate_all_paths_ok by done. unfold check_manifest.
  cbn [compiled profile_manifest tm_execution_steps tm_fixed_step_metadata tm_dependency_lock_paths].
  rewrite py_eq_refl; [rewrite andb_false_r; by destruct (validate_all_paths _)|].
  constructor. apply Forall_map, Forall_forall. intros t Ht. apply step_metadata_wf.
  apply list_elem_of_In, in_map_iff in Ht as (s & <- & _). done.
Qed.

Lemma construct_profile_network p :
  construct_profile p = Ok tt ->
  exists network, network_policy_of_value (wp_network_policy p) = Some network /\
                  network_policy_value network = wp_network_policy p.
Proof.
  unfold construct_profile, check_profile. intros H. inv_ok H.
  match goal with H : wp_network_policy p ∈ _ |- _ =>
    apply elem_of_cons in H as [H|H%list_elem_of_singleton]; rewrite H end; eauto.
Qed.

(** Whatever is compiled is the meaning of the profile. *)
Lemma compile_manifest_iff p m :
  construct_profile p = Ok tt ->
  compile_manifest p = Ok m <->
  portable_profile p = true /\
  exists network, network_policy_value network = wp_network_policy p /\ m = compiled p network.
Proof.
  intros H. destruct (construct_profile_network p H) as (network & Hn & Hv).
  unfold construct_profile, check_profile in H. inv_ok H.
  unfold compile_manifest, portable_profile. rewrite result_bind_ok, andb_true_iff. split.
  - intros (steps & Hsteps & Hm). apply compile_steps_ok in Hsteps as [-> ->]; [|done].
    rewrite Hn in Hm. replace (wp_repository_write_policy p) with "read_only" in Hm by done.
    cbn [enum_member mbind Result_bind] in Hm. change (repository_write_policy_of_value _) with (Some READ_ONLY) in Hm.
    cbn [enum_member mbind Result_bind] in Hm. fold (compiled p network) in Hm.
    pose proof (compiled_checked p network ltac:(eassumption)) as Hc.
    destruct (check_manifest _); [|done]. injection Hm as <-. eauto.
  - intros [[Hs Hp] (network' & Hv' & ->)].
    assert (network' = network) as -> by (rewrite <-Hv in Hv'; by destruct network, network').
    exists (map trusted_step (wp_steps p)). split; [by apply compile_steps_ok|].
    rewrite Hn. replace (wp_repository_write_policy p) with "read_only" by done.
    change (repository_write_policy_of_value _) with (Some READ_ONLY). cbn [enum_member mbind Result_bind].
    fold (compiled p network). pose proof (compiled_checked p network ltac:(eassumption)) as Hc.
    rewrite Hp in Hc. by destruct (check_manifest _).
Qed.

Lemma trusted_step_artifacts s :
  construct_step s = Ok tt -> portable_step s = true ->
  Forall (fun a => check_artifact a = Ok tt) (ts_artifacts (trusted_step s)).
Proof.
  unfold construct_step, portable_step. intros H Hp. inv_ok H. apply forallb_Forall in Hp.
  cbn [trusted_step ts_artifacts]. apply Forall_map. rewrite Forall_forall in *.
  intros a Ha. apply trusted_artifact_checked; auto.
Qed.

(** C35. A constructed profile compiles exactly when it is portable, and then to a
    manifest that passes the registry's checks, with one checked trusted step for each
    of its steps, in order and with the same argv. *)
Theorem profile_compiles p :
  construct_profile p = Ok tt ->
  if portable_profile p
  then exists m, compile_manifest p = Ok m /\ check_manifest m = Ok tt /\
         (tm_name m, tm_version m) = manifest_identity p /\
         map ts_argv (tm_execution_steps m) = map ws_argv (wp_steps p) /\
         Forall (fun t => check_step t = Ok tt /\
                          Forall (fun a => check_artifact a = Ok tt) (ts_artifacts t)) (tm_execution_steps m)
  else exists e, compile_manifest p = Err e.
Proof.
  intros Hc. pose proof (fun m => compile_manifest_iff p m Hc) as Hiff.
  destruct (portable_profile p) eqn:Hp.
  - destruct (construct_profile_network p Hc) as (network & _ & Hn).
    exists (compiled p network). split; [apply Hiff; eauto|].
    unfold construct_profile, check_profile in Hc. inv_ok Hc.
    unfold portable_profile in Hp. apply andb_true_iff in Hp as [Hps Hpp]. repeat split.
    + pose proof (compiled_checked p network ltac:(eassumption)) as Hm. rewrite Hpp in Hm.
      by destruct (check_manifest _) as [[]|].
    + cbn. by rewrite map_map.
    + apply Forall_map. rewrite forallb_Forall in Hps. rewrite Forall_forall in *. intros s Hs.
      split; [apply trusted_step_checked|apply trusted_step_artifacts]; auto.
  - destruct (compile_manifest p) as [m|e]; [|eauto]. by destruct (proj1 (Hiff m) eq_refl).
Qed.

Lemma int_between_iff lo hi z : int_between lo hi z = true <-> lo <= z <= hi.
Proof. unfold int_between. rewrite andb_true_iff, !Z.leb_le. done. Qed.

Lemma is_bool_get b v : is_bool b v = true -> v = Some (JBool b).
Proof. destruct v as [[]|]; cbn; try done. by intros ->%eqb_prop. Qed.

Lemma trusted_step_bounds s :
  construct_step s = Ok tt ->
  argv_safe (ts_argv (trusted_step s)) /\
  1 <= ts_timeout_seconds (trusted_step s) <= MAX_STEP_TIMEOUT_SECONDS /\
  1 <= ts_output_summary_limit (trusted_step s) <= MAX_OUTPUT_SUMMARY_BYTES /\
  Forall (fun kv => kv.1 ∈ ALLOWED_FIXED_ENVIRONMENT_KEYS) (ts_environment (trusted_step s)).
Proof.
  unfold construct_step, check_workload_step. intros H. inv_ok H.
  cbn [trusted_step ts_argv ts_timeout_seconds ts_output_summary_limit ts_environment].
  split; [by apply check_fixed_argv_safe|]. split; [by apply int_between_iff|].
  split; [by apply int_between_iff|].
  match goal with H : check_environment _ = _ |- _ => apply check_environment_ok in H as [_ H];
    eapply Forall_impl; [exact H|] end. cbn. tauto.
Qed.

(** The artifacts of the compiled steps are those of the profile. *)
Lemma compiled_artifacts l :
  concat (map ts_artifacts (map trusted_step l)) = map trusted_artifact (concat (map ws_artifacts l)).
Proof. rewrite map_map. induction l as [|s l IH]; [done|]. cbn. rewrite map_app. by f_equal. Qed.

(** What a compiled manifest may do is bounded: between one and 64 steps with
    distinct identifiers, each a shell-free argv without absolute or traversing paths,
    a timeout of at most an hour, a bounded summary and only the allowed environment;
    at most 128 artifacts with distinct paths; no repository writes. *)
Theorem compiled_manifest_bounded p m :
  construct_profile p = Ok tt -> compile_manifest p = Ok m ->
  1 <= Z.of_nat (length (tm_execution_steps m)) <= 64 /\
  NoDup (map ts_id (tm_execution_steps m)) /\
  Forall (fun t => argv_safe (ts_argv t) /\ 1 <= ts_timeout_seconds t <= MAX_STEP_TIMEOUT_SECONDS /\
                   1 <= ts_output_summary_limit t <= MAX_OUTPUT_SUMMARY_BYTES /\
                   Forall (fun kv => kv.1 ∈ ALLOWED_FIXED_ENVIRONMENT_KEYS) (ts_environment t))
    (tm_execution_steps m) /\
  Z.of_nat (length (tm_artifact_declarations m)) <= MAX_ARTIFACT_COUNT /\
  NoDup (map ta_relative_path (concat (map ts_artifacts (tm_execution_steps m)))) /\
  1 <= tm_timeout_seconds m <= MAX_PROFILE_TIMEOUT_SECONDS /\
  obj_get "repository_write" (tm_required_capabilities m) = Some (JBool false).
Proof.
  intros Hc Hm. pose proof (proj1 (compile_manifest_iff p m Hc) Hm) as [_ (network & _ & ->)].
  unfold construct_profile, check_limits, check_profile, check_capabilities, check_tables in Hc. inv_ok Hc.
  cbn [compiled profile_manifest tm_execution_steps tm_artifact_declarations
    tm_timeout_seconds tm_required_capabilities].
  rewrite compiled_artifacts, !length_map, !map_map. repeat split; try done.
  - lia.
  - apply Forall_map. eapply Forall_impl; [eassumption|]. intros s. apply trusted_step_bounds.
  - match goal with H : int_between 1 MAX_ARTIFACT_COUNT _ = true |- _ => apply int_between_iff in H end.
    rewrite length_map in *. lia.
  - match goal with H : int_between 1 MAX_PROFILE_TIMEOUT_SECONDS _ = true |- _ => apply int_between_iff in H; lia end.
  - match goal with H : int_between 1 MAX_PROFILE_TIMEOUT_SECONDS _ = true |- _ => apply int_between_iff in H; lia end.
  - by apply is_bool_get.
Qed.

(** ** The digest *)

#[export] Instance encodes_declaration : Encodes always declaration_payload.
Proof.
  split; [intros [] _; unfold declaration_payload; wf_object| |done].
  intros [] [] _ _ H. unfold declaration_payload in H. split_object H. by simplify_eq/=.
Qed.

#[export] Instance encodes_contract : Encodes always contract_payload.
Proof.
  split; [intros [] _; unfold contract_payload, strings_json; wf_object| |done].
  intros [] [] _ _ H. unfold contract_payload, strings_json in H. split_object H. by simplify_eq/=.
Qed.

#[export] Instance encodes_limits : Encodes always limits_payload.
Proof.
  split; [intros [] _; unfold limits_payload; wf_object| |done].
  intros [] [] _ _ H. unfold limits_payload in H. split_object H. by simplify_eq/=.
Qed.

#[export] Instance encodes_pair : Encodes always (fun kv : string * string => strings_json [kv.1; kv.2]).
Proof.
  split; [intros [] _; unfold strings_json| |done].
  - eapply (json_list_wf always JStr); eauto with encodes.
  - intros [] [] _ _ H. cbn in H. by simplify_eq.
Qed.

(** A step without its title, the one field that is for display only. *)
Definition without_title (s : WorkloadStep) : WorkloadStep :=
  {| ws_id := ws_id s; ws_title := ""; ws_argv := ws_argv s; ws_required := ws_required s;
     ws_timeout_seconds := ws_timeout_seconds s; ws_output_summary_limit := ws_output_summary_limit s;
     ws_working_directory := ws_working_directory s; ws_environment := ws_environment s;
     ws_result_contract := ws_result_contract s; ws_artifacts := ws_artifacts s;
     ws_diagnostic_only := ws_diagnostic_only s |}.

Definition untitled (s : WorkloadStep) : Prop := ws_title s = "".

#[export] Instance encodes_workload_step : Encodes untitled workload_step_payload.
Proof.
  split; [intros [] _; unfold workload_step_payload, strings_json; wf_object| |done].
  all: intros [] [] Ht Ht' H; unfold untitled in Ht, Ht'; cbn in Ht, Ht'; unfold workload_step_payload, strings_json in H; split_object H.
  by simplify_eq/=.
Qed.

Lemma policy_payload_keys policy : (policy_payload policy).*1 ≡ₚ policy.*1.
Proof.
  unfold policy_payload. rewrite <-list_fmap_compose.
  rewrite <-(merge_sort_Permutation policy_le policy) at 2. done.
Qed.

Lemma policy_payload_sorted policy : StronglySorted str_le (policy_payload policy).*1.
Proof.
  unfold policy_payload. rewrite <-list_fmap_compose. unfold compose. cbn.
  assert (StronglySorted policy_le (merge_sort policy_le policy)) as Hs.
  { apply StronglySorted_merge_sort; unfold policy_le.
    - intros ???. by transitivity y.1.
    - intros x y. apply str_le_total. }
  induction Hs as [|kv l Hs IH Hall]; cbn; constructor; [done|]. by apply Forall_fmap.
Qed.

(** The rendering of an environment policy determines it up to order. *)
Lemma policy_payload_inj a b :
  NoDup a.*1 -> canon (JObj (policy_payload a)) = canon (JObj (policy_payload b)) ->
  policy_payload a = policy_payload b.
Proof.
  intros Hnd Hc. pose proof (canon_keys _ _ Hc) as Hk.
  assert ((policy_payload a).*1 = (policy_payload b).*1) as Hk'
    by (apply (StronglySorted_unique str_le); auto using policy_payload_sorted).
  apply canon_values in Hc; [|by rewrite policy_payload_keys|done].
  clear Hk Hnd. unfold policy_payload in *.
  revert Hk' Hc. generalize (merge_sort policy_le a), (merge_sort policy_le b). clear.
  induction l as [|[k v] l IH]; intros [|[k' v'] l'] Hk Hc; try done. cbn in *.
  injection Hk as -> Hk. injection Hc as Hv Hc. f_equal; [|by apply IH].
  apply (json_list_inj always JStr) in Hv as ->; auto with encodes.
Qed.

(** The profiles run the same steps under the same policies for the same repository:
    they agree on all but the display name, the description, the documentation
    reference, the titles and the list of exclusions. *)
Record same_execution (p q : WorkloadProfile) : Prop := {
  same_repository : wp_repository_full_name p = wp_repository_full_name q;
  same_manifest : manifest_identity p = manifest_identity q;
  same_capabilities : canon (JObj (wp_required_capabilities p)) = canon (JObj (wp_required_capabilities q));
  same_policy : policy_payload (wp_environment_policy p) = policy_payload (wp_environment_policy q);
  same_network : wp_network_policy p = wp_network_policy q;
  same_write : wp_repository_write_policy p = wp_repository_write_policy q;
  same_timeout : wp_timeout_seconds p = wp_timeout_seconds q;
  same_limits : wp_resource_limits p = wp_resource_limits q;
  same_inputs : wp_result_affecting_input_paths p = wp_result_affecting_input_paths q;
  same_steps : map without_title (wp_steps p) = map without_title (wp_steps q);
}.

(** The dictionaries of a profile: distinct keys, at every level. *)
Definition proper_profile (p : WorkloadProfile) : Prop :=
  wf (JObj (wp_required_capabilities p)) /\ NoDup (wp_environment_policy p).*1.

Lemma steps_without_title l :
  map workload_step_payload l = map workload_step_payload (map without_title l).
Proof. by rewrite map_map. Qed.

Lemma untitled_steps l : Forall untitled (map without_title l).
Proof. induction l; constructor; done. Qed.

Lemma policy_payload_wf policy : NoDup policy.*1 -> wf (JObj (policy_payload policy)).
Proof.
  intros Hnd. constructor; [by rewrite policy_payload_keys|]. unfold policy_payload.
  apply Forall_map, Forall_forall. intros kv _. cbn. apply (json_list_wf always JStr); auto with encodes.
Qed.

Lemma identity_payload_wf p : proper_profile p -> wf (identity_payload p).
Proof.
  intros [Hc Hp]. unfold identity_payload, strings_json. wf_object; auto using policy_payload_wf.
  - wf_object.
  - rewrite steps_without_title. apply (json_list_wf untitled workload_step_payload), untitled_steps.
Qed.

Lemma identity_payload_inj p q :
  proper_profile p -> canon (identity_payload p) = canon (identity_payload q) -> same_execution p q.
Proof.
  intros [Hc Hp] H. unfold identity_payload, strings_json in H. split_object H. 
  split; try done.
  - unfold manifest_identity. congruence.
  - cbn [canon]. congruence.
  - apply policy_payload_inj; [done|]. cbn [canon]. congruence.
  - destruct (wp_resource_limits p), (wp_resource_limits q). cbn in *. congruence.
  - rewrite (steps_without_title (wp_steps p)), (steps_without_title (wp_steps q)) in H11.
    eapply (json_list_inj untitled workload_step_payload); auto using untitled_steps.
Qed.

(** Two profiles with one digest run the same steps under the same policies, unless
    two different texts with the same SHA-256 have been found. *)
Theorem profile_digest_identifies p q :
  proper_profile p -> proper_profile q -> profile_digest p = profile_digest q ->
  same_execution p q \/ collision (profile_serialization p) (profile_serialization q).
Proof.
  intros Hp Hq Hd.
  destruct (decide (profile_serialization p = profile_serialization q)) as [Heq|]; [left|by right].
  apply identity_payload_inj; [done|]. apply (same_text true); auto using identity_payload_wf.
Qed.
