(* ===== verification/ProfileData.v ===== *)
(** * The declared workloads and the public catalog

    The two profiles of [server/execution/workload_profiles.py], the repositories of
    [server/execution/catalog.py] with the parser of their mappings, the manifests
    of [server/execution/registry.py] with the compiled profiles added, and the
    import-time validation of all of them, evaluated. *)

From S2P Require Import Prelude Text Json TextPolicy Enums Catalog Evidence Registry Checks Profiles.

(** ** The declared profiles *)

Definition BASE_ENVIRONMENT_POLICY : list (string * list string) :=
  [("allowed_inherited_keys", ["PATH"; "HOME"; "USERPROFILE"; "SYSTEMROOT"; "TEMP"; "TMP"]);
   ("redact_keys", ["SWITCHBOARD_ADMIN_TOKEN"; "GITHUB_TOKEN"; "GH_TOKEN"; "OPENAI_API_KEY";
                    "ANTHROPIC_API_KEY"; "XAI_API_KEY"])].

Definition FIXED_ENVIRONMENT : list (string * string) :=
  [("PIP_DISABLE_PIP_VERSION_CHECK", "1"); ("PIP_NO_INPUT", "1"); ("PYTHONDONTWRITEBYTECODE", "1");
   ("PYTHONUTF8", "1")].

Definition DEFAULT_LIMITS : ResourceLimits :=
  {| rl_maximum_artifact_count := 32; rl_maximum_artifact_bytes := 16 * 1024 * 1024;
     rl_maximum_total_artifact_bytes := 128 * 1024 * 1024; rl_retention_days := 14 |}.

(** [ResultContract(parser_kind=..., ...)] over the field defaults *)
Definition stdout_contract (kind : string) (coverage tests : option Z) (fields failures : list string)
    : ResultContract :=
  {| rc_parser_kind := Some kind; rc_source := "stdout"; rc_source_path := None;
     rc_minimum_coverage_percent := coverage; rc_minimum_test_count := tests;
     rc_maximum_parsed_records := 100000; rc_maximum_parsed_bytes := DEFAULT_RESULT_BYTES;
     rc_required_summary_fields := fields; rc_failure_conditions := failures |}.

Definition ZSCRIPTS_PROFILE : WorkloadProfile :=
  {| wp_repository_full_name := "Nobodyworld/dev-logger-zscripts";
     wp_display_name := "Dev Logger Zscripts";
     wp_description := "Reviewed deterministic quality validation for the public Zscripts repository.";
     wp_documentation_reference := "docs/operations/trusted-workload-onboarding.md";
     wp_manifest_name := "validate-zscripts"; wp_manifest_version := "1";
     wp_required_capabilities :=
       [("git_available", JBool true); ("node", JObj [("minimum", JStr "24.12.0")]);
        ("operating_system", JList [JStr "linux"; JStr "windows"]);
        ("pnpm", JObj [("exact", JStr "10.18.1")]); ("python", JObj [("minimum", JStr "3.11")]);
        ("repository_write", JBool false)];
     wp_environment_policy := BASE_ENVIRONMENT_POLICY; wp_network_policy := "worker_restricted";
     wp_repository_write_policy := "read_only"; wp_timeout_seconds := 7200;
     wp_resource_limits := DEFAULT_LIMITS;
     wp_result_affecting_input_paths :=
       [".github/workflows/ci.yml"; "pyproject.toml"; "scripts/quality_gate.py";
        "workspace-ui/package.json"; "workspace-ui/pnpm-lock.yaml"];
     wp_deterministic_exclusions :=
       ["gpu-ml-workloads"; "live-external-dogfood"; "publication"; "semantic-release-review"];
     wp_steps :=
       [ {| ws_id := "quality-gate"; ws_title := "Run reviewed quality gate";
            ws_argv := ["python"; "scripts/quality_gate.py"; "quality"]; ws_required := true;
            ws_timeout_seconds := 3600; ws_output_summary_limit := 16384;
            ws_working_directory := "."; ws_environment := FIXED_ENVIRONMENT;
            ws_result_contract :=
              Some {| rc_parser_kind := Some "quality-summary-v1"; rc_source := "artifact";
                      rc_source_path := Some "reports/quality-summary.json";
                      rc_minimum_coverage_percent := Some 85; rc_minimum_test_count := None;
                      rc_maximum_parsed_records := 100000;
                      rc_maximum_parsed_bytes := 2 * 1024 * 1024;
                      rc_required_summary_fields :=
                        ["coverage-threshold"; "diagnostics"; "operations"; "profile"; "status"];
                      rc_failure_conditions := ["coverage-threshold"; "quality-operation-failure"] |};
            ws_artifacts :=
              [declare_artifact "quality-summary" "reports/quality-summary.json" "application/json";
               declare_artifact "coverage-json" "reports/coverage.json" "application/json";
               declare_artifact "diagnostics-json" "reports/diagnostics.json" "application/json"];
            ws_diagnostic_only := false |} ] |}.

(** [WorkloadStep(id=..., title=..., argv=..., timeout_seconds=...)] over the field
    defaults, in the fixed environment *)
Definition industry_step (id title : string) (argv : list string) (required : bool)
    (timeout_seconds output_summary_limit : Z) (contract : option ResultContract)
    (artifacts : list ArtifactDeclaration) : WorkloadStep :=
  {| ws_id := id; ws_title := title; ws_argv := argv; ws_required := required;
     ws_timeout_seconds := timeout_seconds; ws_output_summary_limit := output_summary_limit;
     ws_working_directory := "."; ws_environment := FIXED_ENVIRONMENT; ws_result_contract := contract;
     ws_artifacts := artifacts; ws_diagnostic_only := negb required |}.

Definition INDUSTRY_STEPS : list WorkloadStep :=
  [ industry_step "python-version" "Record Python version" ["python"; "--version"] true 60 4096 None [];
    industry_step "dependency-health" "Validate installed dependency consistency"
      ["python"; "-m"; "pip"; "check"] true 300 4096
      (Some (stdout_contract "dependency-health" None None ["audit"] ["dependency-health"])) [];
    industry_step "format" "Check Black formatting"
      ["python"; "-m"; "black"; "--check"; "app.py"; "src"; "tests"] true 900 4096 None [];
    industry_step "lint" "Run Ruff checks"
      ["python"; "-m"; "ruff"; "check"; "app.py"; "src"; "tests"] true 900 4096 None [];
    industry_step "typecheck" "Run Mypy checks" ["python"; "-m"; "mypy"; "src"] true 1200 4096 None [];
    industry_step "runtime-coverage" "Run runtime coverage with required threshold"
      ["python"; "-m"; "pytest"; "--cov=src/adapters"; "--cov=src/agents"; "--cov=src/application";
       "--cov=src/core"; "--cov=src/extensions"; "--cov=src/infrastructure";
       "--cov=src/interfaces/api"; "--cov=src/interfaces/streamlit"; "--cov-report=term-missing";
       "--cov-report=xml:build/reports/runtime-coverage.xml";
       "--cov-report=json:build/reports/runtime-coverage.json"; "--cov-fail-under=85"]
      true 2400 16384
      (Some (stdout_contract "pytest-coverage" (Some 85) (Some 1) ["coverage"; "tests"]
               ["coverage-threshold"; "test-failure"]))
      [declare_artifact "coverage-xml" "build/reports/runtime-coverage.xml" "application/xml";
       declare_artifact "coverage-json" "build/reports/runtime-coverage.json" "application/json"];
    industry_step "full-src-coverage" "Record informational full source coverage"
      ["python"; "-m"; "pytest"; "--cov=src"; "--cov-report=term-missing";
       "--cov-report=xml:build/reports/full-src-coverage.xml";
       "--cov-report=json:build/reports/full-src-coverage.json"]
      false 2400 16384
      (Some (stdout_contract "pytest-coverage" None (Some 1) ["coverage"; "tests"] ["test-failure"]))
      [declare_artifact "coverage-xml" "build/reports/full-src-coverage.xml" "application/xml";
       declare_artifact "coverage-json" "build/reports/full-src-coverage.json" "application/json"];
    industry_step "benchmark" "Check benchmark metrics"
      ["python"; "src/scripts/benchmark_metrics.py"; "--check"] true 900 4096 None [];
    industry_step "dependency-audit" "Audit reviewed runtime and development dependencies"
      ["python"; "-m"; "pip_audit"; "-r"; "requirements.txt"; "-r"; "requirements-dev.txt"; "--format";
       "json"; "--output"; "build/reports/pip-audit.json"] true 1200 4096
      (Some (stdout_contract "dependency-audit" None None ["audit"] ["dependency-vulnerability"]))
      [declare_artifact "audit-json" "build/reports/pip-audit.json" "application/json"];
    industry_step "secret-scan" "Validate the detect-secrets baseline without a source scan"
      ["python"; "-m"; "detect_secrets.pre_commit_hook"; "--baseline"; "config/.secrets.baseline"]
      true 900 4096
      (Some (stdout_contract "secret-scan" None None ["audit"] ["baseline-validation"])) [] ].

Definition INDUSTRY_PROFILE : WorkloadProfile :=
  {| wp_repository_full_name := "Nobodyworld/app-industry-resilience";
     wp_display_name := "Industry Resilience";
     wp_description := "Reviewed deterministic Python quality validation for Industry Resilience.";
     wp_documentation_reference := "docs/operations/trusted-workload-onboarding.md";
     wp_manifest_name := "validate-industry-resilience"; wp_manifest_version := "1";
     wp_required_capabilities :=
       [("git_available", JBool true); ("operating_system", JList [JStr "linux"; JStr "windows"]);
        ("python", JObj [("minimum", JStr "3.13")]); ("repository_write", JBool false)];
     wp_environment_policy := BASE_ENVIRONMENT_POLICY; wp_network_policy := "worker_restricted";
     wp_repository_write_policy := "read_only"; wp_timeout_seconds := 10800;
     wp_resource_limits := DEFAULT_LIMITS;
     wp_result_affecting_input_paths :=
       [".github/workflows/ci.yml"; "Makefile"; "config/.secrets.baseline"; "requirements-dev.txt";
        "requirements.txt"; "src/scripts/benchmark_metrics.py"];
     wp_deterministic_exclusions :=
       ["docker-acceptance"; "edge-acceptance"; "live-provider-refresh"; "playwright-acceptance";
        "publication"; "screen-reader-acceptance"; "source-scan"];
     wp_steps := INDUSTRY_STEPS |}.

Definition WORKLOAD_PROFILES : list WorkloadProfile :=
  merge_sort profile_le [ZSCRIPTS_PROFILE; INDUSTRY_PROFILE].

(** ** Parsing a catalog entry *)

(** [_exact_keys] *)
Definition exact_keys (fields : list (string * Json)) (expected : list string) (kind : string)
    : Result string unit :=
  reject_if (negb (subset_of (map fst fields) expected && subset_of expected (map fst fields)))
    ("trusted " +:+ kind +:+ " definition fields are invalid").

Definition as_string (v : option Json) (e : string) : Result string string :=
  match v with Some (JStr s) => Ok s | _ => Err e end.

(** [TrustedManifestReference.from_mapping] of a mapping *)
Definition reference_from_mapping (fields : list (string * Json)) : Result string TrustedManifestReference :=
  _ ← exact_keys fields ["name"; "version"] "manifest reference";
  name ← as_string (obj_get "name" fields) "trusted manifest reference values are invalid";
  version ← as_string (obj_get "version" fields) "trusted manifest reference values are invalid";
  make_reference name version.

Definition mappings_of (l : list Json) : list (list (string * Json)) :=
  omap (fun j => match j with JObj f => Some f | _ => None end) l.

(** [TrustedRepository.from_mapping] *)
Definition repository_from_mapping (fields : list (string * Json)) : Result string TrustedRepository :=
  _ ← exact_keys fields ["full_name"; "display_name"; "description"; "support_status";
                         "documentation_reference"; "manifests"; "default_manifest"] "repository";
  manifests_value ← match obj_get "manifests" fields with
                    | Some (JList l) => Ok l
                    | _ => Err "trusted repository manifests are invalid"
                    end;
  manifests ← map_result reference_from_mapping (mappings_of manifests_value);
  _ ← reject_if (negb (bool_decide (length manifests = length manifests_value)))
        "trusted repository manifests are invalid";
  default_manifest ← match obj_get "default_manifest" fields with
                     | Some (JObj f) => reference_from_mapping f
                     | _ => Err "trusted repository default manifest is invalid"
                     end;
  let text k := as_string (obj_get k fields) "trusted repository metadata is invalid" in
  full_name ← text "full_name";
  display_name ← text "display_name";
  description ← text "description";
  support_status ← text "support_status";
  documentation_reference ← text "documentation_reference";
  let r := {| repo_full_name := full_name; repo_display_name := display_name;
              repo_description := description; repo_support_status := support_status;
              repo_documentation_reference := documentation_reference;
              repo_manifests := manifests; repo_default_manifest := default_manifest |} in
  _ ← check_repository r; Ok r.

(** [TrustedManifestReference.safe_metadata] and [TrustedRepository.safe_metadata] *)
Definition reference_metadata (m : TrustedManifestReference) : Json :=
  JObj [("name", JStr (ref_name m)); ("version", JStr (ref_version m))].

Definition repository_metadata (r : TrustedRepository) : list (string * Json) :=
  [("full_name", JStr (repo_full_name r)); ("display_name", JStr (repo_display_name r));
   ("description", JStr (repo_description r)); ("support_status", JStr (repo_support_status r));
   ("documentation_reference", JStr (repo_documentation_reference r));
   ("manifests", JList (map reference_metadata (repo_manifests r)));
   ("default_manifest", reference_metadata (repo_default_manifest r))].

(** [_TRUSTED_REPOSITORIES] before parsing and sorting *)
Definition object_fields (j : Json) : list (string * Json) := match j with JObj f => f | _ => [] end.

Definition catalog_mappings : Result string (list (list (string * Json))) :=
  profiles ← profile_catalog_mappings WORKLOAD_PROFILES;
  Ok ([[("full_name", JStr "Nobodyworld/dev-agent-switchboard");
        ("display_name", JStr "Dev Agent Switchboard");
        ("description", JStr "Switchboard control-plane and local-worker validation.");
        ("support_status", JStr "developer_preview");
        ("documentation_reference", JStr "docs/operations/validation-command-center.md");
        ("manifests", JList [reference_json "validate-switchboard" "1"; reference_json "worker-smoke" "1"]);
        ("default_manifest", reference_json "validate-switchboard" "1")]]
      ++ map object_fields profiles
      ++ [[("full_name", JStr "Nobodyworld/app-accounting-modular");
           ("display_name", JStr "Modular Accounting");
           ("description", JStr "Public modular-accounting Python quality contract.");
           ("support_status", JStr "developer_preview");
           ("documentation_reference", JStr "docs/operations/trusted-workload-onboarding.md");
           ("manifests", JList [reference_json "validate-accounting-modular" "1"]);
           ("default_manifest", reference_json "validate-accounting-modular" "1")]]).

Definition repository_le (a b : TrustedRepository) : Prop := str_le (repo_full_name a) (repo_full_name b).

#[global] Instance repository_le_dec : RelDecision repository_le.
Proof. intros a b. unfold repository_le. apply _. Defined.

Definition PUBLIC_REPOSITORIES : Result string (list TrustedRepository) :=
  mappings ← catalog_mappings;
  repositories ← map_result repository_from_mapping mappings;
  Ok (merge_sort repository_le repositories).

Definition trusted_catalog_digest (repositories : list TrustedRepository) : string :=
  sha256_hex (dumps true (JList (map (fun r => JObj (repository_metadata r)) repositories))).

(** [_TRUSTED_MANIFESTS] *)
Definition PUBLIC_MANIFESTS : Result string (list TrustedManifest) :=
  profiles ← compile_trusted_manifests WORKLOAD_PROFILES;
  Ok (LEGACY_TRUSTED_MANIFESTS ++ profiles).

(** Everything the import of the registry runs. *)
Definition import_registry : Result string (list TrustedManifest * list TrustedRepository) :=
  _ ← check_all construct_profile WORKLOAD_PROFILES;
  repositories ← PUBLIC_REPOSITORIES;
  manifests ← PUBLIC_MANIFESTS;
  _ ← validate_catalog true (map repo_full_name repositories)
        (map (fun m => (tm_name m, tm_version m)) manifests) repositories;
  Ok (manifests, repositories).

(** Importing the registry succeeds: every declared profile constructs, the catalog
    of four repositories parses and resolves, and the five manifests and the catalog
    have the digests the tests pin. *)
Theorem registry_import :
  exists manifests repositories,
    import_registry = Ok (manifests, repositories) /\
    map (fun m => (tm_name m, tm_digest m)) manifests =
      [("validate-accounting-modular", "892f1269cdf2a6f4e0df4d86879e5dae980374d598faeadee77c2c32f33aa612");
       ("validate-switchboard", "10e99418e4e6f0e9f4a6e95fb5b9a267dab4eeac4671cf58533c8b9afe1fed98");
       ("worker-smoke", "63e645f19d8c60ae442e1800aaecc1a18a719d53f22ba8e85ec62bf745ed55d1");
       ("validate-industry-resilience", "dfda235a1dda46fd144341e0105a9093396770698bf2a11c737bc7cfa5547ac6");
       ("validate-zscripts", "c449d97cc63bb9c28c293e4798a116261fb01ece55cc92407dd4a8a330d3107e")] /\
    trusted_catalog_digest repositories =
      "8303bcc8c577557adccc7c299fc2816744f1c7a3c5f0f5ac39146d49c9643115".
Proof.
  destruct import_registry as [[ms rs]|e] eqn:H; vm_compute in H; [|discriminate H].
  exists ms, rs. injection H as <- <-. split; [done|]. split; vm_compute; reflexivity.
Qed.

(** ** Catalog entries round trip *)

Definition reference_ok (m : TrustedManifestReference) : Prop :=
  make_reference (ref_name m) (ref_version m) = Ok m.

Lemma reference_round_trip m :
  reference_ok m -> reference_from_mapping (object_fields (reference_metadata m)) = Ok m.
Proof. intros Hm. exact Hm. Qed.

Lemma references_round_trip l :
  Forall reference_ok l -> map_result reference_from_mapping (mappings_of (map reference_metadata l)) = Ok l.
Proof.
  induction 1 as [|m l Hm _ IH]; [done|]. cbn [map mappings_of reference_metadata omap list_omap].
  cbn [map_result]. change (reference_from_mapping _) with (make_reference (ref_name m) (ref_version m)).
  rewrite Hm. cbn [mbind Result_bind]. unfold mappings_of in IH. by rewrite IH.
Qed.

Lemma default_in_manifests r : check_repository r = Ok tt -> repo_default_manifest r ∈ repo_manifests r.
Proof.
  unfold check_repository. destruct (validate_repository_full_name _); [|done].
  repeat (case_match; [done|]). intros _. by apply negb_false_iff, bool_decide_eq_true in H5.
Qed.

(** The published metadata of a valid catalog entry parses back to the entry. *)
Theorem repository_round_trip r :
  check_repository r = Ok tt -> Forall reference_ok (repo_manifests r) ->
  repository_from_mapping (repository_metadata r) = Ok r.
Proof.
  intros Hc Hm. pose proof (default_in_manifests r Hc) as Hd. rewrite Forall_forall in Hm.
  pose proof (Hm _ Hd) as Hdef. rewrite <-Forall_forall in Hm.
  unfold repository_from_mapping.
  change (exact_keys (repository_metadata r) _ _) with (Ok (E := string) tt).
  change (obj_get "manifests" (repository_metadata r))
    with (Some (JList (map reference_metadata (repo_manifests r)))).
  change (obj_get "default_manifest" (repository_metadata r))
    with (Some (reference_metadata (repo_default_manifest r))).
  change (obj_get "full_name" (repository_metadata r)) with (Some (JStr (repo_full_name r))).
  change (obj_get "display_name" (repository_metadata r)) with (Some (JStr (repo_display_name r))).
  change (obj_get "description" (repository_metadata r)) with (Some (JStr (repo_description r))).
  change (obj_get "support_status" (repository_metadata r)) with (Some (JStr (repo_support_status r))).
  change (obj_get "documentation_reference" (repository_metadata r))
    with (Some (JStr (repo_documentation_reference r))).
  cbn [mbind Result_bind]. rewrite references_round_trip by done. cbn [mbind Result_bind].
  rewrite length_map, bool_decide_eq_true_2 by done. cbn [reject_if negb mbind Result_bind reference_metadata].
  change (reference_from_mapping _) with
    (make_reference (ref_name (repo_default_manifest r)) (ref_version (repo_default_manifest r))).
  rewrite Hdef. cbn [as_string mbind Result_bind]. destruct r. cbn in *. by rewrite Hc.
Qed.
