(* ===== verification/Parsers.v ===== *)
(** * The worker's result parsers

    [client/python/execution_worker/parsers.py]: the bounded parsers that turn the
    output of a trusted step into the parsed result of its evidence, under the result
    contract of the manifest.

    What the parser reads is an argument: the bytes of the two streams and of the
    checked-out report, or [None] where opening them fails (the descriptor handling
    of [_contained_regular_file] is the operating system's).  The bytes are ASCII, and
    an integer of a report has no more digits than the interpreter converts.  The
    exceptions are the ones [parse_result] catches, as [Rejected], and the
    [OverflowError] of [float(int)], which it does not catch. *)

From S2P Require Import Prelude Text Json TextPolicy Enums Catalog Evidence Floats JsonCodec Documents Fingerprints Registry Checks Profiles.
From Stdlib Require Import QArith.
#[local] Open Scope Z_scope.

Inductive ParseError :=
| Rejected (message : string)
| OverflowError.

Definition MAX_PARSE_BYTES : Z := 1024 * 1024.
Definition MAX_QUALITY_SUMMARY_BYTES : Z := 128 * 1024.
Definition MAX_QUALITY_COVERAGE_BYTES : Z := 2 * 1024 * 1024.
Definition MAX_PARSED_RECORDS : Z := 10000000.
Definition MAX_COVERAGE_PERCENT : Z := 100.
Definition QUALITY_COVERAGE_THRESHOLD : Z := 85.

(** ["[manager]\tERROR\t"] *)
Definition BANDIT_MANAGER_ERROR : list ascii :=
  to_chars "[manager]" ++ [chr 9] ++ to_chars "ERROR" ++ [chr 9].

Definition QUALITY_OPERATIONS : list string :=
  ["format-check"; "lint"; "type"; "frontend-install"; "frontend-format"; "frontend-lint";
   "frontend-typecheck"; "frontend-tests"; "frontend-build"; "repository-safety"; "snapshot-store";
   "workspace-api"; "packaged-workspace"; "helper-surface"; "helper-boundary";
   "helper-compatibility"; "bandit"; "audit"; "binary"; "tests"; "coverage"; "docs";
   "editable-smoke"; "wheel"; "zipapp"; "diagnostics"].

Definition RESULT_CONTRACT_FIELDS : list string :=
  ["failure_conditions"; "maximum_parsed_bytes"; "maximum_parsed_records";
   "minimum_coverage_percent"; "minimum_test_count"; "parser_kind"; "required_summary_fields";
   "source"; "source_path"].

(** ** Streams *)

(** [handle.read(n)] *)
Definition read_at_most (n : Z) (content : list ascii) : list ascii := take (Z.to_nat n) content.

Definition combined (stdout stderr : option (list ascii)) (maximum_bytes : Z)
    : Result ParseError (list ascii) :=
  match stdout with
  | None => Err (Rejected "stream unavailable")
  | Some out =>
      let first := read_at_most (maximum_bytes + 1) out in
      let remaining := maximum_bytes + 1 - Z.of_nat (length first) in
      if remaining =? 0
      then Err (Rejected "declared result streams exceed their aggregate byte limit")
      else match stderr with
           | None => Err (Rejected "stream unavailable")
           | Some err =>
               let second := read_at_most remaining err in
               _ ← reject_if (maximum_bytes <? Z.of_nat (length first + length second))
                     (Rejected "declared result streams exceed their aggregate byte limit");
               Ok (first ++ [chr 10] ++ second)
           end
  end.

(** ** Test counts *)

Definition word_char (c : ascii) : bool := is_alnum c || (ord c =? 95).

(** [\b] after a word character *)
Definition boundary (l : list ascii) : bool :=
  match l with c :: _ => negb (word_char c) | [] => true end.

(** The text goes on with one of the words and a word boundary. *)
Definition followed_by (words : list (list ascii)) (l : list ascii) : bool :=
  existsb (fun w => starts_with w l && boundary (drop (length w) l)) words.

(** The count of the last match of [(\d+) word\b]: a maximal run of digits before the
    word.  [run] is the run of digits read so far, [best] the last match so far. *)
Fixpoint last_count (words : list (list ascii)) (run : list ascii) (best : option Z) (l : list ascii)
    : option Z :=
  match l with
  | [] => best
  | c :: l' =>
      if is_digit c then last_count words (run ++ [c]) best l'
      else last_count words []
             (if negb (bool_decide (run = [])) && followed_by words l
              then Some (int_of_digits run) else best) l'
  end.

Definition count_of (words : list string) (text : list ascii) : Z :=
  default 0 (last_count (map to_chars words) [] None text).

(** [ParsedTestCounts(...)] and [ParsedCoverage(...)]: construction validates. *)
Definition make_tests (t : ParsedTestCounts) : Result ParseError ParsedTestCounts :=
  if valid_test_counts t then Ok t else Err (Rejected "parsed test counts are invalid").

Definition pytest_counts (text : list ascii) : Result ParseError (option ParsedTestCounts) :=
  let passed := count_of [" passed"] text in
  let failed := count_of [" failed"] text in
  let skipped := count_of [" skipped"] text in
  let errors := count_of [" errors"; " error"] text in
  let xfailed := count_of [" xfailed"] text in
  let xpassed := count_of [" xpassed"] text in
  let total := passed + failed + skipped + errors + xfailed + xpassed in
  if total =? 0 then Ok None
  else t ← make_tests {| tc_passed := passed; tc_failed := failed; tc_skipped := skipped;
                         tc_errors := errors; tc_xfailed := xfailed; tc_xpassed := xpassed;
                         tc_total := total |};
       Ok (Some t).

(** ** Coverage *)

(** The ASCII line boundaries of [str.splitlines]. *)
Definition line_end (c : ascii) : bool := bool_decide (ord c ∈ [10; 11; 12; 13; 28; 29; 30]).

(** [text.splitlines()]; [line] is the line read so far. *)
Fixpoint splitlines (line : list ascii) (l : list ascii) : list (list ascii) :=
  match l with
  | [] => if bool_decide (line = []) then [] else [line]
  | c :: l' =>
      if (ord c =? 13) && starts_with [chr 10] l' then
        match l' with
        | _ :: l'' => line :: splitlines [] l''
        | [] => [line]
        end
      else if line_end c then line :: splitlines [] l'
      else splitlines (line ++ [c]) l'
  end.

(** [\d+(?:\.\d+)?%] at the head of the text: the digits before and after the point *)
Definition percent_here (l : list ascii) : option (list ascii * list ascii) :=
  let '(whole, rest) := span is_digit l in
  if bool_decide (whole = []) then None
  else match rest with
       | c :: rest' =>
           if ord c =? 37 then Some (whole, [])
           else if ord c =? 46 then
             let '(fraction, rest'') := span is_digit rest' in
             if negb (bool_decide (fraction = [])) && starts_with [chr 37] rest''
             then Some (whole, fraction) else None
           else None
       | [] => None
       end.

(** The first match of the pattern *)
Fixpoint first_percent (l : list ascii) : option (list ascii * list ascii) :=
  match percent_here l with
  | Some m => Some m
  | None => match l with _ :: l' => first_percent l' | [] => None end
  end.

Definition make_coverage (percent : PyFloat) : Result ParseError ParsedCoverage :=
  let c := {| cov_measured_percent := percent; cov_covered_lines := None; cov_total_lines := None |} in
  if valid_coverage c then Ok c else Err (Rejected "parsed coverage is invalid").

(** [float(match.group("percent"))], an infinite value failing the bound of the record *)
Definition coverage_of_digits (whole fraction : list ascii) : Result ParseError ParsedCoverage :=
  match float_of_digits whole fraction with
  | Some f => make_coverage f
  | None => Err (Rejected "parsed coverage is invalid")
  end.

Definition coverage_line (line : list ascii) : option (list ascii * list ascii) :=
  let normalized := strip (of_chars line) in
  if starts_with (to_chars "TOTAL") (to_chars normalized)
     || str_contains "line coverage" (lower normalized)
  then first_percent (to_chars normalized)
  else None.

Fixpoint first_coverage (lines : list (list ascii)) : Result ParseError (option ParsedCoverage) :=
  match lines with
  | [] => Ok None
  | line :: lines' =>
      match coverage_line line with
      | Some (whole, fraction) => c ← coverage_of_digits whole fraction; Ok (Some c)
      | None => first_coverage lines'
      end
  end.

(** [_coverage] *)
Definition coverage_in (text : list ascii) : Result ParseError (option ParsedCoverage) :=
  first_coverage (reverse (splitlines [] text)).

(** ** Reports *)

(** [json.loads(raw.decode("utf-8"))] of a report within the limit, an object *)
Definition json_report (report : option (list ascii)) (maximum_bytes : Z)
    : Result ParseError (list (string * Json)) :=
  match report with
  | None => Err (Rejected "declared result report could not be opened safely")
  | Some raw =>
      _ ← reject_if (maximum_bytes <? Z.of_nat (length raw))
            (Rejected "declared result report exceeds its byte limit");
      match loads (of_chars raw) with
      | Some (JObj fields) => Ok fields
      | Some _ => Err (Rejected "declared result report must contain an object")
      | None => Err (Rejected "declared result report is not JSON")
      end
  end.

(** [float(value)] of a number that is not a boolean *)
Definition number_of (value : Json) : Result ParseError PyFloat :=
  match value with
  | JInt z => match float_of_int z with Some f => Ok f | None => Err OverflowError end
  | JFloat r =>
      match float_value r with
      | Some q => Ok {| fl_repr := r; fl_value := q |}
      | None => Err (Rejected "declared result value is out of bounds")
      end
  | _ => Err (Rejected "declared result value is not numeric")
  end.

Definition bounded_number (minimum maximum : Z) (value : Json) : Result ParseError PyFloat :=
  number ← number_of value;
  _ ← reject_if (negb (float_between minimum maximum number))
        (Rejected "declared result value is out of bounds");
  Ok number.

(** [d[k]] for a key that is present *)
Definition member (k : string) (fields : list (string * Json)) : Json := default JNull (obj_get k fields).

(** [set(d) == expected] *)
Definition has_exactly (fields : list (string * Json)) (expected : list string) : bool :=
  subset_of (map fst fields) expected && subset_of expected (map fst fields).

(** ** Result contracts *)

Definition contract_failures (parser_kind : string) : list string :=
  default [] (obj_get parser_kind
    [("dependency-audit", ["dependency-vulnerability"]); ("dependency-health", ["dependency-health"]);
     ("pytest", ["test-failure"]); ("pytest-coverage", ["coverage-threshold"; "test-failure"]);
     ("quality-summary-v1", ["coverage-threshold"; "quality-operation-failure"]);
     ("secret-scan", ["baseline-validation"])]).

Definition contract_fields (parser_kind : string) : list string :=
  default [] (obj_get parser_kind
    [("pytest", ["tests"]); ("coverage", ["coverage"]); ("pytest-coverage", ["coverage"; "tests"]);
     ("quality-summary-v1",
       ["coverage-threshold"; "diagnostics"; "operations"; "profile"; "status"]);
     ("dependency-audit", ["audit"]); ("dependency-health", ["audit"]); ("secret-scan", ["audit"])]).

Definition int_in (lo hi : Z) (v : Json) : bool :=
  match v with JInt z => int_between lo hi z | _ => false end.

(** [value is None or lo <= value <= hi], for an integer *)
Definition optional_int_in (lo hi : Z) (v : Json) : bool :=
  match v with JNull => true | _ => int_in lo hi v end.

Definition as_int (v : Json) : Z := match v with JInt z => z | _ => 0 end.
Definition is_null (v : Json) : bool := match v with JNull => true | _ => false end.

(** A list of strings *)
Definition string_list (v : Json) : option (list string) :=
  match v with
  | JList l => mapM (fun j => match j with JStr s => Some s | _ => None end) l
  | _ => None
  end.

Definition check_source (fields : list (string * Json)) (kind : string) : Result ParseError unit :=
  let source := member "source" fields in
  let source_path := member "source_path" fields in
  if bool_decide (kind = "quality-summary-v1")
  then reject_if (negb (py_eq source (JStr "artifact"))
                  || negb (py_eq source_path (JStr "reports/quality-summary.json")))
         (Rejected "trusted quality result source is invalid")
  else reject_if (negb (py_eq source (JStr "stdout")) || negb (is_null source_path))
         (Rejected "trusted result source is invalid").

Definition check_names (v : Json) (supported : list string) (shape support : string)
    : Result ParseError unit :=
  match string_list v with
  | None => Err (Rejected shape)
  | Some l => reject_if (negb (subset_of l supported)) (Rejected support)
  end.

(** [_validated_result_contract] of a contract that is given *)
Definition check_result_contract (fields : list (string * Json)) (kind : string) : Result ParseError unit :=
  _ ← reject_if (negb (has_exactly fields RESULT_CONTRACT_FIELDS))
        (Rejected "trusted result contract fields are invalid");
  _ ← reject_if (negb (py_eq (member "parser_kind" fields) (JStr kind)))
        (Rejected "trusted result contract parser kind is invalid");
  _ ← check_source fields kind;
  _ ← reject_if (negb (int_in 1 MAX_QUALITY_COVERAGE_BYTES (member "maximum_parsed_bytes" fields))
                 || negb (int_in 1 MAX_PARSED_RECORDS (member "maximum_parsed_records" fields)))
        (Rejected "trusted result contract bounds are invalid");
  let coverage := member "minimum_coverage_percent" fields in
  let tests := member "minimum_test_count" fields in
  _ ← reject_if (negb (optional_int_in 0 MAX_COVERAGE_PERCENT coverage))
        (Rejected "trusted result coverage threshold is invalid");
  _ ← reject_if (negb (optional_int_in 0 (as_int (member "maximum_parsed_records" fields)) tests))
        (Rejected "trusted result test threshold is invalid");
  _ ← reject_if (negb (isSome (string_list (member "required_summary_fields" fields))))
        (Rejected "trusted result required fields are invalid");
  _ ← check_names (member "failure_conditions" fields) (contract_failures kind)
        "trusted result failure conditions are invalid" "trusted result failure condition is unsupported";
  _ ← check_names (member "required_summary_fields" fields) (contract_fields kind)
        "trusted result required fields are invalid" "trusted result required field is unsupported";
  _ ← reject_if (negb (is_null coverage)
                 && negb (bool_decide (kind ∈ ["coverage"; "pytest-coverage"; "quality-summary-v1"])))
        (Rejected "trusted result coverage parser is invalid");
  reject_if (negb (is_null tests) && negb (bool_decide (kind ∈ ["pytest"; "pytest-coverage"])))
    (Rejected "trusted result test parser is invalid").

Definition validated_result_contract (contract : option (list (string * Json))) (kind : string)
    : Result ParseError (option (list (string * Json))) :=
  match contract with
  | None => Ok None
  | Some fields => _ ← check_result_contract fields kind; Ok (Some fields)
  end.

Definition AUDIT_CONDITIONS : list string :=
  ["dependency-health"; "dependency-vulnerability"; "baseline-validation"].

(** The thresholds and failure conditions of a validated contract *)
Definition check_enforced (parsed : ParsedResult) (fields : list (string * Json)) : Result ParseError unit :=
  let maximum_records := as_int (member "maximum_parsed_records" fields) in
  let failures := default [] (string_list (member "failure_conditions" fields)) in
  _ ← reject_if (bool_decide (pr_parser parsed = P_QUALITY_SUMMARY_V1)
                 && (maximum_records <? Z.of_nat (length QUALITY_OPERATIONS)))
        (Rejected "quality operation inventory exceeds reviewed record bound");
  _ ← match pr_tests parsed with
      | None => Ok tt
      | Some t =>
          _ ← reject_if (maximum_records <? tc_total t)
                (Rejected "parsed test count exceeds reviewed bound");
          match member "minimum_test_count" fields with
          | JInt minimum =>
              reject_if (tc_total t <? minimum)
                (Rejected "parsed test count did not satisfy reviewed minimum")
          | _ => Ok tt
          end
      end;
  _ ← match pr_coverage parsed, member "minimum_coverage_percent" fields with
      | Some c, JInt minimum =>
          reject_if (negb (Qle_bool (inject_Z minimum) (fl_value (cov_measured_percent c))))
            (Rejected "parsed coverage did not satisfy reviewed threshold")
      | _, _ => Ok tt
      end;
  _ ← match pr_audit parsed with
      | Some a => reject_if (maximum_records <? audit_findings a)
                    (Rejected "parsed audit findings exceed reviewed bound")
      | None => Ok tt
      end;
  _ ← match pr_tests parsed with
      | Some t =>
          reject_if (bool_decide ("test-failure" ∈ failures)
                     && (negb (tc_failed t =? 0) || negb (tc_errors t =? 0)))
            (Rejected "parsed test result reported a reviewed failure")
      | None => Ok tt
      end;
  reject_if (existsb (fun c => bool_decide (c ∈ failures)) AUDIT_CONDITIONS
             && match pr_audit parsed with
                | Some a => negb (audit_passed a) || negb (audit_findings a =? 0)
                | None => true
                end)
    (Rejected "parsed audit did not satisfy reviewed failure condition").

Definition enforce_result_contract (parsed : ParsedResult) (contract : option (list (string * Json)))
    : Result ParseError ParsedResult :=
  match contract with
  | None => Ok parsed
  | Some fields => _ ← check_enforced parsed fields; Ok parsed
  end.

(** ** The quality summary *)

Definition quality_operation_coverage (operation_name : string) (details : list (string * Json))
    (summary_threshold : Json) : Result ParseError (option PyFloat) :=
  if bool_decide (operation_name = "coverage") then
    _ ← reject_if (negb (has_exactly details ["coverage_percent"; "coverage_threshold"]))
          (Rejected "quality coverage operation details are invalid");
    operation_threshold ← bounded_number QUALITY_COVERAGE_THRESHOLD QUALITY_COVERAGE_THRESHOLD
                            (member "coverage_threshold" details);
    threshold ← number_of summary_threshold;
    _ ← reject_if (negb (Qeq_bool (fl_value operation_threshold) (fl_value threshold)))
          (Rejected "quality coverage thresholds are inconsistent");
    percent ← bounded_number QUALITY_COVERAGE_THRESHOLD MAX_COVERAGE_PERCENT
                (member "coverage_percent" details);
    Ok (Some percent)
  else
    _ ← reject_if (bool_decide (operation_name = "diagnostics") && negb (bool_decide (length details = 0%nat)))
          (Rejected "quality diagnostics operation details are invalid");
    Ok None.

Definition quality_operation (summary_threshold : Json) (expected_name : string) (operation : Json)
    : Result ParseError (option PyFloat) :=
  match operation with
  | JObj fields =>
      _ ← reject_if (negb (has_exactly fields ["operation"; "status"; "duration_seconds"; "details"]))
            (Rejected "quality operation fields are invalid");
      _ ← reject_if (negb (py_eq (member "operation" fields) (JStr expected_name))
                     || negb (py_eq (member "status" fields) (JStr "passed")))
            (Rejected "quality operation did not satisfy the reviewed contract");
      _ ← bounded_number 0 86400 (member "duration_seconds" fields);
      match member "details" fields with
      | JObj details => quality_operation_coverage expected_name details summary_threshold
      | _ => Err (Rejected "quality operation details are invalid")
      end
  | _ => Err (Rejected "quality operation fields are invalid")
  end.

(** The loop over the operations; the last coverage found is kept. *)
Fixpoint quality_operations (summary_threshold : Json) (coverage_percent : option PyFloat)
    (expected : list string) (operations : list Json) : Result ParseError (option PyFloat) :=
  match expected, operations with
  | name :: expected', operation :: operations' =>
      operation_coverage ← quality_operation summary_threshold name operation;
      quality_operations summary_threshold
        (match operation_coverage with Some c => Some c | None => coverage_percent end)
        expected' operations'
  | _, _ => Ok coverage_percent
  end.

(** [ParsedResult(...)]: the validators of the record run. *)
Definition make_result (r : ParsedResult) : Result ParseError ParsedResult :=
  if valid_parsed_result r then Ok r else Err (Rejected "parsed result is invalid").

Definition quality_summary_result (report : option (list ascii)) (maximum_bytes : Z)
    : Result ParseError ParsedResult :=
  summary ← json_report report (Z.min maximum_bytes MAX_QUALITY_SUMMARY_BYTES);
  _ ← reject_if (negb (has_exactly summary ["profile"; "status"; "coverage_threshold"; "operations";
                                            "duration_seconds"]))
        (Rejected "quality summary fields are invalid");
  _ ← reject_if (negb (py_eq (member "profile" summary) (JStr "quality"))
                 || negb (py_eq (member "status" summary) (JStr "passed")))
        (Rejected "quality summary did not report the reviewed profile");
  threshold ← bounded_number QUALITY_COVERAGE_THRESHOLD QUALITY_COVERAGE_THRESHOLD
                (member "coverage_threshold" summary);
  _ ← reject_if (negb (Qeq_bool (fl_value threshold) (inject_Z QUALITY_COVERAGE_THRESHOLD)))
        (Rejected "quality summary coverage threshold is invalid");
  _ ← bounded_number 0 86400 (member "duration_seconds" summary);
  operations ← match member "operations" summary with
               | JList l => if bool_decide (length l = length QUALITY_OPERATIONS) then Ok l
                            else Err (Rejected "quality summary operation inventory is invalid")
               | _ => Err (Rejected "quality summary operation inventory is invalid")
               end;
  coverage_percent ← quality_operations (member "coverage_threshold" summary) None QUALITY_OPERATIONS operations;
  match coverage_percent with
  | None => Err (Rejected "quality coverage operation is unavailable")
  | Some percent =>
      coverage ← make_coverage percent;
      make_result {| pr_parser := P_QUALITY_SUMMARY_V1; pr_parsed := true; pr_tests := None;
                     pr_coverage := Some coverage;
                     pr_audit := Some {| audit_kind := AUDIT_QUALITY; audit_passed := true;
                                         audit_tool := "quality-gate"; audit_findings := 0 |};
                     pr_failure_reason := None |}
  end.

(** ** [parse_result] *)

Record Output := {
  out_stdout : option (list ascii);
  out_stderr : option (list ascii);
  out_report : option (option (list ascii));  (** the report, of a checkout that is given *)
}.

(** [text.count(">> Issue:")]: non-overlapping occurrences *)
Fixpoint count_issues (fuel : nat) (l : list ascii) : Z :=
  match fuel with
  | O => 0
  | S fuel' =>
      match l with
      | [] => 0
      | _ :: l' =>
          if starts_with (to_chars ">> Issue:") l
          then 1 + count_issues fuel' (drop (length (to_chars ">> Issue:")) l)
          else count_issues fuel' l'
      end
  end.

(** The kind of audit and the tool of each audit parser *)
Definition audit_of (k : ParserKind) : option (AuditKind * string) :=
  match k with
  | P_SECURITY_AUDIT => Some (AUDIT_SECURITY, "bandit")
  | P_SECRET_SCAN => Some (AUDIT_SECURITY, "secret-scan")
  | P_DEPENDENCY_AUDIT => Some (AUDIT_DEPENDENCY, "pip-audit")
  | P_DEPENDENCY_HEALTH => Some (AUDIT_DEPENDENCY, "pip")
  | P_CRITICAL_COVERAGE => Some (AUDIT_QUALITY, "critical-coverage")
  | _ => None
  end.

Definition parsed_audit (kind : ParserKind) (text : list ascii) (command_succeeded : bool)
    (audit : AuditKind) (tool : string) : Result ParseError ParsedResult :=
  _ ← reject_if (bool_decide (kind = P_SECURITY_AUDIT) && contains BANDIT_MANAGER_ERROR text)
        (Rejected "Bandit did not scan every requested file");
  let findings := if command_succeeded then 0 else Z.max 1 (count_issues (length text) text) in
  make_result {| pr_parser := kind; pr_parsed := true; pr_tests := None; pr_coverage := None;
                 pr_audit := Some {| audit_kind := audit; audit_passed := command_succeeded;
                                     audit_tool := tool; audit_findings := findings |};
                 pr_failure_reason := None |}.

(** The body of the [try] *)
Definition parse_declared (kind : ParserKind) (output : Output) (command_succeeded : bool)
    (result_contract : option (list (string * Json))) : Result ParseError ParsedResult :=
  contract ← validated_result_contract result_contract (parser_value kind);
  let maximum_bytes := match contract with
                       | Some fields => as_int (member "maximum_parsed_bytes" fields)
                       | None => MAX_PARSE_BYTES
                       end in
  let text := combined (out_stdout output) (out_stderr output) (Z.min maximum_bytes MAX_PARSE_BYTES) in
  match kind with
  | P_PYTEST | P_PYTEST_COVERAGE =>
      text ← text;
      tests ← pytest_counts text;
      coverage ← (if bool_decide (kind = P_PYTEST_COVERAGE) then coverage_in text else Ok None);
      _ ← reject_if (negb (isSome tests)
                     || (bool_decide (kind = P_PYTEST_COVERAGE) && negb (isSome coverage)))
            (Rejected "declared pytest result was not found");
      parsed ← make_result {| pr_parser := kind; pr_parsed := true; pr_tests := tests;
                              pr_coverage := coverage; pr_audit := None; pr_failure_reason := None |};
      enforce_result_contract parsed contract
  | P_COVERAGE =>
      text ← text;
      coverage ← coverage_in text;
      _ ← reject_if (negb (isSome coverage)) (Rejected "declared coverage result was not found");
      parsed ← make_result {| pr_parser := kind; pr_parsed := true; pr_tests := None;
                              pr_coverage := coverage; pr_audit := None; pr_failure_reason := None |};
      enforce_result_contract parsed contract
  | P_QUALITY_SUMMARY_V1 =>
      match out_report output, command_succeeded with
      | Some report, true =>
          parsed ← quality_summary_result report maximum_bytes;
          enforce_result_contract parsed contract
      | _, _ => Err (Rejected "quality summary requires a successful checked-out run")
      end
  | P_SECURITY_AUDIT | P_DEPENDENCY_AUDIT | P_DEPENDENCY_HEALTH | P_CRITICAL_COVERAGE | P_SECRET_SCAN =>
      text ← text;
      match audit_of kind with
      | Some (audit, tool) =>
          parsed ← parsed_audit kind text command_succeeded audit tool;
          enforce_result_contract parsed contract
      | None => Err (Rejected "unsupported trusted parser")
      end
  end.

Definition parser_failed (kind : ParserKind) : ParsedResult :=
  {| pr_parser := kind; pr_parsed := false; pr_tests := None; pr_coverage := None; pr_audit := None;
     pr_failure_reason := Some "declared_result_unavailable" |}.

(** What is raised as [ValueError], [OSError] or [UnicodeError] becomes a failed parse;
    an [OverflowError] propagates. *)
Definition parse_result (kind : ParserKind) (output : Output) (command_succeeded : bool)
    (result_contract : option (list (string * Json))) : Result ParseError ParsedResult :=
  match parse_declared kind output command_succeeded result_contract with
  | Ok r => Ok r
  | Err OverflowError => Err OverflowError
  | Err (Rejected _) => Ok (parser_failed kind)
  end.

Definition summary_line : list ascii :=
  to_chars "=== 2 failed, 17 passed, 1 skipped, 3 errors in 1.2s ===" ++ [chr 10]
  ++ to_chars "TOTAL   1200   12   93.5%" ++ [chr 13; chr 10].

Example parsed_example :
  parse_result P_PYTEST_COVERAGE
    {| out_stdout := Some summary_line; out_stderr := Some []; out_report := None |} false None =
  Ok {| pr_parser := P_PYTEST_COVERAGE; pr_parsed := true;
        pr_tests := Some {| tc_passed := 17; tc_failed := 2; tc_skipped := 1; tc_errors := 3;
                            tc_xfailed := 0; tc_xpassed := 0; tc_total := 23 |};
        pr_coverage := Some {| cov_measured_percent := {| fl_repr := "93.5"; fl_value := 187 # 2 |};
                               cov_covered_lines := None; cov_total_lines := None |};
        pr_audit := None; pr_failure_reason := None |}.
Proof. vm_compute. reflexivity. Qed.

(** ** What a parsed result satisfies *)

Lemma make_result_ok r r' : make_result r = Ok r' -> r' = r /\ valid_parsed_result r = true.
Proof. unfold make_result. destruct (valid_parsed_result r); intros [= <-]. auto. Qed.

Lemma enforce_ok p contract r :
  enforce_result_contract p contract = Ok r ->
  r = p /\ forall fields, contract = Some fields -> check_enforced p fields = Ok tt.
Proof.
  unfold enforce_result_contract. destruct contract as [fields|]; intros H; inv_ok H; [|done].
  split; [done|]. by intros ? [= <-].
Qed.

Lemma validated_ok contract kind c :
  validated_result_contract contract kind = Ok c ->
  c = contract /\ forall fields, contract = Some fields -> check_result_contract fields kind = Ok tt.
Proof.
  unfold validated_result_contract. destruct contract as [fields|]; intros H; inv_ok H; [|done].
  split; [done|]. by intros ? [= <-].
Qed.

(** A declared result: valid, of the kind asked for, within the contract. *)
Record declared (kind : ParserKind) (command_succeeded : bool) (contract : option (list (string * Json)))
    (r : ParsedResult) : Prop := {
  declared_parsed : pr_parsed r = true;
  declared_kind : pr_parser r = kind;
  declared_valid : valid_parsed_result r = true;
  declared_contract fields : contract = Some fields ->
    check_result_contract fields (parser_value kind) = Ok tt /\ check_enforced r fields = Ok tt;
  declared_quality : kind = P_QUALITY_SUMMARY_V1 -> command_succeeded = true;
}.

Lemma quality_summary_ok report n r :
  quality_summary_result report n = Ok r ->
  valid_parsed_result r = true /\ pr_parser r = P_QUALITY_SUMMARY_V1 /\ pr_parsed r = true.
Proof.
  unfold quality_summary_result. intros H. inv_ok H. case_match; [|done]. inv_ok H.
  by apply make_result_ok in H as [-> ?].
Qed.

Lemma parsed_audit_ok kind text cs audit tool r :
  parsed_audit kind text cs audit tool = Ok r ->
  valid_parsed_result r = true /\ pr_parser r = kind /\ pr_parsed r = true /\
  (forall a, pr_audit r = Some a -> audit_passed a = cs).
Proof.
  unfold parsed_audit. intros H. inv_ok H. apply make_result_ok in H as [-> ?]. repeat split; [done|].
  by intros a [= <-].
Qed.

Ltac finish_declared :=
  match goal with H : enforce_result_contract ?p _ = Ok ?r |- _ =>
    apply enforce_ok in H as [-> ?]; split; try done; intros fields Hf; split; auto end.

Lemma parse_declared_ok kind output cs contract r :
  parse_declared kind output cs contract = Ok r -> declared kind cs contract r.
Proof.
  unfold parse_declared. intros H. apply result_bind_ok in H as (c & Hc & H).
  apply validated_ok in Hc as [-> Hc].
  destruct kind; cbn [audit_of] in H;
    try (inv_ok H; match goal with H : parsed_audit _ _ _ _ _ = Ok _ |- _ =>
                     apply parsed_audit_ok in H as (? & ? & ? & _) end; by finish_declared);
    try (inv_ok H; match goal with H : make_result _ = Ok _ |- _ =>
                     apply make_result_ok in H as [-> ?] end; by finish_declared).
  destruct (out_report output) as [report|]; [|done]. destruct cs; [|done]. inv_ok H.
  match goal with H : quality_summary_result _ _ = Ok _ |- _ =>
    apply quality_summary_ok in H as (? & ? & ?) end. by finish_declared.
Qed.

(** Whatever the output, what [parse_result] returns is a valid parsed result of the
    kind asked for: a declared result, or the one failed parse. *)
Theorem parse_result_typed kind output cs contract r :
  parse_result kind output cs contract = Ok r ->
  valid_parsed_result r = true /\ pr_parser r = kind /\ (pr_parsed r = true \/ r = parser_failed kind).
Proof.
  unfold parse_result. destruct (parse_declared _ _ _ _) as [r'|[m|]] eqn:Hd; intros [= <-].
  - apply parse_declared_ok in Hd as [? ? ? _ _]. auto.
  - split; [by destruct kind|]. split; [done|by right].
Qed.

Lemma declared_result kind output cs contract r :
  parse_result kind output cs contract = Ok r -> pr_parsed r = true -> declared kind cs contract r.
Proof.
  unfold parse_result. destruct (parse_declared _ _ _ _) as [r'|[m|]] eqn:Hd; intros [= <-]; [|done].
  intros _. by eapply parse_declared_ok.
Qed.

(** The failure conditions and thresholds of a contract. *)
Definition failure_conditions (fields : list (string * Json)) : list string :=
  default [] (string_list (member "failure_conditions" fields)).
Definition maximum_records (fields : list (string * Json)) : Z :=
  as_int (member "maximum_parsed_records" fields).

Record contract_met (fields : list (string * Json)) (r : ParsedResult) : Prop := {
  met_tests t : pr_tests r = Some t -> tc_total t <= maximum_records fields;
  met_minimum t n : pr_tests r = Some t -> member "minimum_test_count" fields = JInt n -> n <= tc_total t;
  met_coverage c n : pr_coverage r = Some c -> member "minimum_coverage_percent" fields = JInt n ->
    (inject_Z n <= fl_value (cov_measured_percent c))%Q;
  met_failures t : pr_tests r = Some t -> "test-failure" ∈ failure_conditions fields ->
    tc_failed t = 0 /\ tc_errors t = 0;
  met_audit condition : condition ∈ AUDIT_CONDITIONS -> condition ∈ failure_conditions fields ->
    exists a, pr_audit r = Some a /\ audit_passed a = true /\ audit_findings a = 0;
}.

Lemma check_enforced_met r fields : check_enforced r fields = Ok tt -> contract_met fields r.
Proof.
  unfold check_enforced. fold (maximum_records fields) (failure_conditions fields). intros H. inv_ok H.
  split.
  - intros t Ht. rewrite Ht in *. inv_ok Hok0. lia.
  - intros t n Ht Hn. rewrite Ht, Hn in *. inv_ok Hok0. lia.
  - intros c n Hc Hn. rewrite Hc, Hn in *. inv_ok Hok1. by apply Qle_bool_iff.
  - intros t Ht Hf. rewrite Ht in *. apply reject_if_ok in Hok3.
    rewrite bool_decide_eq_true_2 in Hok3 by done. cbn [andb] in Hok3. inv_bool Hok3. auto.
  - intros condition Ha Hf. apply andb_false_iff in H as [H|H].
    + apply existsb_false in H. rewrite Forall_forall in H. specialize (H _ Ha). by inv_bool H.
    + destruct (pr_audit r) as [a|]; [|done]. inv_bool H. eauto.
Qed.

(** A result that is reported as parsed meets the contract of its step: test count
    and coverage within the thresholds, no failed or erroneous test, no finding of an
    audit whose failure is a condition. *)
Theorem contract_enforced kind output cs fields r :
  parse_result kind output cs (Some fields) = Ok r -> pr_parsed r = true -> contract_met fields r.
Proof.
  intros Hr Hp. destruct (declared_result _ _ _ _ _ Hr Hp) as [_ _ _ Hc _].
  destruct (Hc fields eq_refl) as [_ He]. by apply check_enforced_met.
Qed.

(** ** Totality *)

(** What can fail only with an exception that [parse_result] catches. *)
Definition rejecting {A} (m : Result ParseError A) : Prop := m <> Err OverflowError.

Lemma rejecting_bind {A B} (m : Result ParseError A) (k : A -> Result ParseError B) :
  rejecting m -> (forall a, rejecting (k a)) -> rejecting (m ≫= k).
Proof. unfold rejecting. destruct m as [a|e]; cbn; [auto|congruence]. Qed.

Lemma rejecting_ok {A} (a : A) : rejecting (Ok a).
Proof. done. Qed.

Lemma rejecting_err {A} m : rejecting (A := A) (Err (Rejected m)).
Proof. done. Qed.

Lemma rejecting_if b m : rejecting (reject_if b (Rejected m)).
Proof. by destruct b. Qed.

Create HintDb rejecting discriminated.
#[export] Hint Resolve rejecting_bind rejecting_ok rejecting_err rejecting_if : rejecting.

(** Splits on the matches that select a branch, then on the binds. *)
Ltac rejects :=
  repeat (intros; first
    [ solve [auto with rejecting]
    | apply rejecting_bind
    | match goal with |- rejecting (match ?x with _ => _ end) => destruct x end ]).

Lemma rejecting_contract contract kind : rejecting (validated_result_contract contract kind).
Proof. unfold validated_result_contract, check_result_contract, check_source, check_names. rejects. Qed.

Lemma rejecting_enforce parsed contract : rejecting (enforce_result_contract parsed contract).
Proof. unfold enforce_result_contract, check_enforced. rejects. Qed.

Lemma rejecting_combined out err n : rejecting (combined out err n).
Proof. unfold combined. rejects. Qed.

Lemma rejecting_counts text : rejecting (pytest_counts text).
Proof. unfold pytest_counts, make_tests. rejects. Qed.

Lemma rejecting_make_coverage percent : rejecting (make_coverage percent).
Proof. unfold make_coverage. rejects. Qed.

Lemma rejecting_coverage text : rejecting (coverage_in text).
Proof.
  unfold coverage_in. induction (reverse (splitlines [] text)) as [|line lines IH]; [done|].
  cbn. destruct (coverage_line line) as [[w f]|]; [|done]. apply rejecting_bind; [|done].
  unfold coverage_of_digits. destruct (float_of_digits w f); [apply rejecting_make_coverage|done].
Qed.

Lemma rejecting_make_result r : rejecting (make_result r).
Proof. unfold make_result. rejects. Qed.

#[export] Hint Resolve rejecting_contract rejecting_enforce rejecting_combined rejecting_counts
  rejecting_make_coverage rejecting_coverage rejecting_make_result : rejecting.

Lemma rejecting_parse kind output cs contract :
  kind <> P_QUALITY_SUMMARY_V1 \/ cs = false -> rejecting (parse_declared kind output cs contract).
Proof.
  intros Hk. unfold parse_declared, parsed_audit. apply rejecting_bind; [auto with rejecting|]. intros c.
  destruct kind; cbn [audit_of]; try (by rejects).
  destruct (out_report output), cs; try done. by destruct Hk.
Qed.

(** C36. Parsing terminates with a result for every output, unless it is the report of a
    successful quality run: within the limits of the interpreter on nesting and on the
    digits of an integer, the only exception that escapes is the [OverflowError] of an
    integer of that report too large for a float. *)
Theorem parse_result_total kind output cs contract :
  (exists r, parse_result kind output cs contract = Ok r) \/
  (parse_result kind output cs contract = Err OverflowError /\ kind = P_QUALITY_SUMMARY_V1 /\ cs = true).
Proof.
  unfold parse_result. destruct (parse_declared kind output cs contract) as [r|[m|]] eqn:Hd; eauto.
  right. split; [done|].
  assert (~ (kind <> P_QUALITY_SUMMARY_V1 \/ cs = false)) as Hn
    by (intros Hk; by apply (rejecting_parse kind output cs contract Hk)).
  destruct cs, kind; intuition congruence.
Qed.

(** A quality summary whose duration is an integer of 310 digits. *)
Definition overflowing_report : list ascii :=
  to_chars (dumps true (JObj [("profile", JStr "quality"); ("status", JStr "passed");
                              ("coverage_threshold", JInt 85); ("operations", JList []);
                              ("duration_seconds", JInt (10 ^ 309))])).

(** A malformed quality report can make the parser raise instead of answering with a
    failed parse: a duration that is an integer beyond the range of floats overflows the
    conversion, and the handler of [parse_result] does not catch that exception. *)
Theorem quality_overflow_escapes :
  parse_result P_QUALITY_SUMMARY_V1
    {| out_stdout := Some []; out_stderr := Some []; out_report := Some (Some overflowing_report) |}
    true None = Err OverflowError.
Proof. vm_compute. reflexivity. Qed.
