(* ===== verification/WorkerContracts.v ===== *)
(** * The worker's reading of a trusted manifest

    The policy readers of [client/python/execution_worker/worker.py]: the inherited
    environment keys, the result contract of a step and the evidence limits of a run,
    taken from the manifest the worker resolved.  The theorems connect the server's
    profiles, the compiled manifest and the worker's parsers. *)

From S2P Require Import Prelude Text Json TextPolicy Enums Catalog Evidence Floats JsonCodec Documents Fingerprints Registry Checks Profiles ProfileProofs Parsers.

(** [_allowed_inherited_environment_keys] *)
Definition allowed_inherited_environment_keys (m : TrustedManifest) : list string :=
  match obj_get "allowed_inherited_keys" (tm_environment_policy m) with
  | Some v => default [] (string_list v)
  | None => []
  end.

(** One entry of the contract's steps: its identifier and its contract *)
Definition contract_step (item : Json) : Result string (string * list (string * Json)) :=
  match item with
  | JObj fields =>
      _ ← reject_if (negb (has_exactly fields ["id"; "result_contract"]))
            "trusted manifest result contract step is invalid";
      match member "id" fields, member "result_contract" fields with
      | JStr id, JObj contract => Ok (id, contract)
      | _, _ => Err "trusted manifest result contract step is invalid"
      end
  | _ => Err "trusted manifest result contract step is invalid"
  end.

(** [_step_result_contract] *)
Definition step_result_contract (m : TrustedManifest) (step_id : string)
    : Result string (option (list (string * Json))) :=
  match tm_result_contract m with
  | None => Ok None
  | Some contract =>
      match obj_get "steps" contract with
      | Some (JList steps) =>
          items ← map_result contract_step steps;
          let matches := filter (fun item => item.1 = step_id) items in
          _ ← reject_if (1 <? Z.of_nat (length matches))
                "trusted manifest result contract step is ambiguous";
          Ok (snd <$> head matches)
      | _ => Err "trusted manifest result contract steps are invalid"
      end
  end.

Record EvidenceLimits := {
  el_maximum_artifact_count : Z;
  el_maximum_artifact_bytes : Z;
  el_maximum_total_bytes : Z;
}.

(** The limits of [WorkerConfig] *)
Record WorkerLimits := {
  cfg_evidence_retention_days : Z;
  cfg_maximum_artifact_count : Z;
  cfg_maximum_artifact_bytes : Z;
  cfg_maximum_total_evidence_bytes : Z;
}.

Definition LIMIT_KEYS : list string :=
  ["maximum_artifact_bytes"; "maximum_artifact_count"; "maximum_total_artifact_bytes"; "retention_days"].

(** [_profile_evidence_policy] *)
Definition profile_evidence_policy (config : WorkerLimits) (m : TrustedManifest)
    : Result string (Z * EvidenceLimits) :=
  match tm_result_contract m with
  | None =>
      Ok (cfg_evidence_retention_days config,
          {| el_maximum_artifact_count := cfg_maximum_artifact_count config;
             el_maximum_artifact_bytes := cfg_maximum_artifact_bytes config;
             el_maximum_total_bytes := cfg_maximum_total_evidence_bytes config |})
  | Some contract =>
      _ ← reject_if (negb (has_exactly contract ["resource_limits"; "schema_version"; "steps"]))
            "trusted manifest result contract is invalid";
      match obj_get "resource_limits" contract with
      | Some (JObj limits) =>
          _ ← reject_if (negb (has_exactly limits LIMIT_KEYS)) "trusted manifest resource limits are invalid";
          _ ← reject_if (existsb (fun kv => match kv.2 with JInt z => z <? 1 | _ => true end) limits)
                "trusted manifest resource limit is invalid";
          let value k := as_int (member k limits) in
          _ ← reject_if (value "maximum_total_artifact_bytes" <? value "maximum_artifact_bytes")
                "trusted manifest total evidence limit is invalid";
          Ok (Z.min (cfg_evidence_retention_days config) (value "retention_days"),
              {| el_maximum_artifact_count :=
                   Z.min (cfg_maximum_artifact_count config) (value "maximum_artifact_count");
                 el_maximum_artifact_bytes :=
                   Z.min (cfg_maximum_artifact_bytes config) (value "maximum_artifact_bytes");
                 el_maximum_total_bytes :=
                   Z.min (cfg_maximum_total_evidence_bytes config) (value "maximum_total_artifact_bytes") |})
      | _ => Err "trusted manifest resource limits are invalid"
      end
  end.

(** ** Contracts of compiled manifests *)

Definition contract_object (c : ResultContract) : list (string * Json) :=
  match contract_payload c with JObj fields => fields | _ => [] end.

(** The steps of a profile that have a contract, as the worker reads them. *)
Definition contracts_of (l : list WorkloadStep) : list (string * list (string * Json)) :=
  omap (fun s => (fun c => (ws_id s, contract_object c)) <$> ws_result_contract s) l.

Lemma contract_steps_read p :
  map_result contract_step (contract_steps p) = Ok (contracts_of (wp_steps p)).
Proof.
  unfold contract_steps, contracts_of. induction (wp_steps p) as [|s l IH]; [done|].
  cbn [omap list_omap]. destruct (ws_result_contract s) as [c|]; cbn [fmap option_fmap option_map];
    [|exact IH]. cbn [map_result]. change (contract_step _) with (Ok (E := string) (ws_id s, contract_object c)).
  cbn [mbind Result_bind]. by rewrite IH.
Qed.

Lemma contracts_of_cons s l :
  contracts_of (s :: l) =
  match ws_result_contract s with
  | Some c => (ws_id s, contract_object c) :: contracts_of l
  | None => contracts_of l
  end.
Proof. unfold contracts_of. cbn. by destruct (ws_result_contract s). Qed.

Lemma contracts_of_other l id :
  id ∉ map ws_id l -> filter (fun item => item.1 = id) (contracts_of l) = [].
Proof.
  induction l as [|s l IH]; [done|]. cbn [map]. rewrite not_elem_of_cons, contracts_of_cons. intros [Hs Hl].
  destruct (ws_result_contract s); [rewrite filter_cons_False by (cbn; congruence)|]; auto.
Qed.

Lemma contracts_of_id l s :
  NoDup (map ws_id l) -> s ∈ l ->
  filter (fun item => item.1 = ws_id s) (contracts_of l) =
  match ws_result_contract s with Some c => [(ws_id s, contract_object c)] | None => [] end.
Proof.
  induction l as [|s' l IH]; intros Hnd Hin; [by apply not_elem_of_nil in Hin|].
  cbn [map] in Hnd. apply NoDup_cons in Hnd as [Hnot Hnd]. rewrite contracts_of_cons.
  apply elem_of_cons in Hin as [->|Hin].
  - destruct (ws_result_contract s');
      [rewrite filter_cons_True by done; f_equal|]; by apply contracts_of_other.
  - assert (ws_id s' <> ws_id s) by (intros Heq; apply Hnot; rewrite Heq; by apply list_elem_of_fmap_2).
    destruct (ws_result_contract s'); [rewrite filter_cons_False by done|]; auto.
Qed.

(** What the worker asks of a contract beyond what the profile was checked for. *)
Definition attainable (c : ResultContract) : bool :=
  opt_all (fun n => n <=? rc_maximum_parsed_records c) (rc_minimum_test_count c).

Lemma string_list_strings l : string_list (strings_json l) = Some l.
Proof.
  unfold string_list, strings_json. apply mapM_Some_2. by induction l; constructor.
Qed.

Lemma int_in_option lo hi o : optional_int_in lo hi (json_opt JInt o) = opt_all (int_between lo hi) o.
Proof. by destruct o. Qed.

Lemma json_opt_null {A} (f : A -> Json) o : (forall a, is_null (f a) = false) ->
  is_null (json_opt f o) = negb (isSome o).
Proof. destruct o; cbn; auto. Qed.

Lemma reject_pass {E A} (b : bool) (e : E) (k : unit -> Result E A) :
  b = false -> (reject_if b e ≫= k) = k tt.
Proof. by intros ->. Qed.

Lemma contract_source_accepted c kind :
  validate_parser_rules c = Ok tt -> rc_parser_kind c = Some kind ->
  check_source (contract_object c) kind = Ok tt.
Proof.
  unfold validate_parser_rules. intros H Hk. rewrite Hk in H. inv_ok H. unfold check_source.
  change (member "source" (contract_object c)) with (JStr (rc_source c)).
  change (member "source_path" (contract_object c)) with (json_opt JStr (rc_source_path c)).
  destruct (bool_decide (kind = "quality-summary-v1")).
  - inv_ok Hok. by rewrite Hb, Hok.
  - inv_ok Hok. by rewrite Hb, Hok.
Qed.

Lemma contract_bounds_accepted c :
  validate_numeric_limits c = Ok tt ->
  int_in 1 MAX_QUALITY_COVERAGE_BYTES (JInt (rc_maximum_parsed_bytes c)) = true /\
  int_in 1 MAX_PARSED_RECORDS (JInt (rc_maximum_parsed_records c)) = true /\
  opt_all (int_between 0 MAX_COVERAGE_PERCENT) (rc_minimum_coverage_percent c) = true /\
  opt_all (int_between 0 (rc_maximum_parsed_records c)) (rc_minimum_test_count c) = attainable c.
Proof.
  unfold validate_numeric_limits. intros H. inv_ok H. repeat split; try done.
  unfold attainable. destruct (rc_minimum_test_count c) as [n|]; [|done]. cbn in *.
  apply int_between_iff in Hok0. unfold int_between.
  by replace (0 <=? n) with true by (symmetry; apply Z.leb_le; lia).
Qed.

Lemma contract_fields_same kind : contract_fields kind = result_fields_by_parser kind.
Proof.
  unfold contract_fields, result_fields_by_parser. cbn [obj_get].
  repeat case_bool_decide; subst; first [done | discriminate].
Qed.

Lemma not_none {A} `{EqDecision A} (o : option A) : negb (bool_decide (o = None)) = negb (negb (isSome o)).
Proof. by destruct o. Qed.

(** The worker accepts the contract of a constructed step exactly when the step can
    report as many tests as it demands. *)
Lemma contract_accepted c kind :
  check_contract c = Ok tt -> rc_parser_kind c = Some kind ->
  is_ok (check_result_contract (contract_object c) kind) = attainable c.
Proof.
  unfold check_contract. intros H Hk. inv_ok H. apply contract_bounds_accepted in Hok0 as (Hb & Hr & Hc & Ht).
  unfold check_result_contract. rewrite contract_source_accepted by done.
  unfold validate_parser_rules in H. rewrite Hk in H. inv_ok H.
  set (f := contract_object c).
  change (member "parser_kind" f) with (json_opt JStr (rc_parser_kind c)). rewrite Hk.
  change (member "maximum_parsed_bytes" f) with (JInt (rc_maximum_parsed_bytes c)).
  change (member "maximum_parsed_records" f) with (JInt (rc_maximum_parsed_records c)).
  change (member "minimum_coverage_percent" f) with (json_opt JInt (rc_minimum_coverage_percent c)).
  change (member "minimum_test_count" f) with (json_opt JInt (rc_minimum_test_count c)).
  change (member "required_summary_fields" f) with (strings_json (rc_required_summary_fields c)).
  change (member "failure_conditions" f) with (strings_json (rc_failure_conditions c)).
  rewrite (reject_pass (negb (has_exactly f _))) by done.
  rewrite (reject_pass (negb (py_eq _ _))) by (cbn; by rewrite String.eqb_refl).
  cbn [mbind Result_bind]. rewrite Hb, Hr, !int_in_option, Hc, !json_opt_null by done.
  cbn [as_int negb orb]. rewrite Ht. destruct (attainable c); [|done]. cbn [negb].
  unfold check_names. rewrite !string_list_strings. cbn [isSome negb].
  rewrite not_none in Hok5, H. rewrite contract_fields_same.
  change (contract_failures kind) with (result_failures_by_parser kind).
  rewrite Hok2, Hok3, Hok5, H. done.
Qed.

(** The server and the worker agree on contracts: for every step of a constructed
    profile, the worker finds in the compiled manifest exactly the contract the step
    declares, and accepts it exactly when its test minimum is within its record bound. *)
Theorem worker_reads_contract p m s :
  construct_profile p = Ok tt -> compile_manifest p = Ok m -> s ∈ wp_steps p ->
  step_result_contract m (ws_id s) = Ok (contract_object <$> ws_result_contract s) /\
  forall c kind, ws_result_contract s = Some c -> rc_parser_kind c = Some kind ->
    is_ok (check_result_contract (contract_object c) kind) = attainable c.
Proof.
  intros Hc Hm Hs. apply compile_manifest_iff in Hm as [_ (network & _ & ->)]; [|done].
  unfold construct_profile, check_profile, check_tables in Hc. inv_ok Hc. split.
  - unfold step_result_contract. cbn [compiled profile_manifest tm_result_contract].
    change (obj_get "steps" (profile_result_contract p)) with (Some (JList (contract_steps p))).
    cbv iota. rewrite contract_steps_read. cbn [mbind Result_bind]. rewrite contracts_of_id by done.
    by destruct (ws_result_contract s).
  - intros c kind Hsc Hk. apply contract_accepted; [|done].
    match goal with H : Forall (fun x => construct_step x = Ok ()) _ |- _ =>
      rewrite Forall_forall in H; specialize (H s Hs) as Hstep end.
    unfold construct_step in Hstep. rewrite Hsc in Hstep. inv_ok Hstep. done.
Qed.

(** Evidence limits only get stricter: for a compiled profile the worker keeps no
    more artifacts, bytes or days than either its configuration or the profile allows. *)
Theorem evidence_policy_stricter p m config :
  construct_profile p = Ok tt -> compile_manifest p = Ok m ->
  exists days limits, profile_evidence_policy config m = Ok (days, limits) /\
    days = Z.min (cfg_evidence_retention_days config) (rl_retention_days (wp_resource_limits p)) /\
    el_maximum_artifact_count limits =
      Z.min (cfg_maximum_artifact_count config) (rl_maximum_artifact_count (wp_resource_limits p)) /\
    el_maximum_artifact_bytes limits =
      Z.min (cfg_maximum_artifact_bytes config) (rl_maximum_artifact_bytes (wp_resource_limits p)) /\
    el_maximum_total_bytes limits =
      Z.min (cfg_maximum_total_evidence_bytes config)
        (rl_maximum_total_artifact_bytes (wp_resource_limits p)).
Proof.
  intros Hc Hm. apply compile_manifest_iff in Hm as [_ (network & _ & ->)]; [|done].
  unfold construct_profile in Hc. apply result_bind_ok in Hc as ([] & Hl & _).
  unfold check_limits in Hl. inv_ok Hl. rewrite int_between_iff in *.
  unfold profile_evidence_policy. cbn [compiled profile_manifest tm_result_contract].
  set (l := wp_resource_limits p) in *.
  change (obj_get "resource_limits" (profile_result_contract p)) with (Some (limits_payload l)).
  cbn [limits_payload]. rewrite (reject_pass (negb (has_exactly (profile_result_contract p) _))) by done.
  rewrite (reject_pass (negb (has_exactly _ LIMIT_KEYS))) by done.
  rewrite reject_pass; [rewrite reject_pass|].
  - eexists _, _. split; [reflexivity|]. done.
  - apply Z.ltb_ge. exact (proj1 Hok1).
  - apply existsb_false. repeat constructor; cbn; apply Z.ltb_ge; lia.
Qed.
