(* ===== verification/Credentials.v ===== *)
(** * Worker credentials and the worker API

    [server/execution/credentials.py]: the bearer tokens of workers, issued, rotated and
    revoked by the administrator and checked on every worker request;
    [server/api/routers/worker_credentials.py], the transactions around them;
    [require_worker_token] of [server/api/dependencies.py] and the scope checks of
    [server/api/routers/worker_execution.py], which stand between a worker and the
    requests of [System].

    The random hexadecimal strings of [secrets.token_hex] and the clock reading are
    arguments.  Handlers that only read are represented by their scope check. *)

From S2P Require Import Prelude Text Json Enums Catalog Evidence Registry Capabilities Models Routing Repository Service Steps Invariants Refinement System Checks.

(** ** Tokens *)

(** [re.fullmatch] of [swb_w1\.([0-9a-f]{32})\.([0-9a-f]{64})]: the two groups *)
Definition TOKEN_PATTERN (token : string) : option (string * string) :=
  match split_on (chr 46) (to_chars token) with
  | [prefix; credential_id; secret] =>
      if bool_decide (of_chars prefix = "swb_w1")
         && exactly 32 is_hex_lower (of_chars credential_id)
         && exactly 64 is_hex_lower (of_chars secret)
      then Some (of_chars credential_id, of_chars secret) else None
  | _ => None
  end.

(** [f"swb_w1.{credential_id}.{secret}"] *)
Definition token_text (credential_id secret : string) : string :=
  join "." ["swb_w1"; credential_id; secret].

(** ** The table *)

Record WorkerCredential := {
  wc_worker_id : string;
  wc_credential_id : string;
  wc_verifier : string;
  wc_created_at : Z;
  wc_rotated_at : option Z;
  wc_revoked_at : option Z;
}.

Record Store := {
  st_world : World;
  st_credentials : gmap string WorkerCredential;
}.

Inductive CredentialError :=
| CredentialConflict (reason : string)
| CredentialIntegrity.

Record WorkerPrincipal := { wpr_worker_id : string; wpr_credential_id : string }.

(** [SELECT ... WHERE credential_id = ?] over a unique column *)
Definition credential_rows (t : gmap string WorkerCredential) : list WorkerCredential := (map_to_list t).*2.

Definition find_credential (t : gmap string WorkerCredential) (credential_id : string)
    : option WorkerCredential :=
  head (filter (fun row => wc_credential_id row = credential_id) (credential_rows t)).

Definition DUMMY_VERIFIER : string := of_chars (repeat (chr 48) 64).

Definition authenticate (t : gmap string WorkerCredential) (token : string) : option WorkerPrincipal :=
  '(credential_id, secret) ← TOKEN_PATTERN token;
  let row := find_credential t credential_id in
  let verifier := match row with Some r => wc_verifier r | None => DUMMY_VERIFIER end in
  let valid := bool_decide (sha256_hex secret = verifier) in
  match row with
  | Some r =>
      if negb valid || negb (bool_decide (wc_revoked_at r = None)) then None
      else Some {| wpr_worker_id := wc_worker_id r; wpr_credential_id := wc_credential_id r |}
  | None => None
  end.

(** ** Transitions *)

(** The worker row [issue] adds for a worker that never registered: the columns it
    sets and the column defaults. *)
Definition unregistered_worker (worker_id : string) (now : Z) : Worker :=
  {| w_worker_id := worker_id;
     w_info :=
       {| wi_display_name := worker_id;
          wi_capabilities :=
            {| operating_system := "unregistered"; architecture := "unregistered";
               python_version := None; node_version := None; pnpm_version := None;
               docker_available := false; browsers := []; gpu_available := false;
               unity_available := false; desktop_available := false; capabilities := [];
               network_policy_capability := WORKER_RESTRICTED; repository_write_capability := false |};
          wi_repository_full_names := []; wi_max_concurrency := 1 |};
     w_active_run_count := 0; w_status := OFFLINE; w_last_heartbeat_at := now;
     w_last_checkout_poll_at := None |}.

Definition add_worker (worker_id : string) (now : Z) (s : Store) : Store :=
  match db_workers (db (st_world s)) !! worker_id with
  | Some _ => s
  | None =>
      {| st_world := (st_world s) <| db :=
           (db (st_world s)) <| db_workers :=
             <[worker_id := unregistered_worker worker_id now]> (db_workers (db (st_world s))) |> |>;
         st_credentials := st_credentials s |}
  end.

(** Another worker's credential has that identifier: the column is unique. *)
Definition taken (t : gmap string WorkerCredential) (worker_id credential_id : string) : bool :=
  existsb (fun row => bool_decide (wc_credential_id row = credential_id)
                      && negb (bool_decide (wc_worker_id row = worker_id))) (credential_rows t).

Definition put_credential (row : WorkerCredential) : M CredentialError Store unit := fun s =>
  if taken (st_credentials s) (wc_worker_id row) (wc_credential_id row) then (Err CredentialIntegrity, s)
  else (Ok tt, {| st_world := st_world s;
                  st_credentials := <[wc_worker_id row := row]> (st_credentials s) |}).

Definition issue (worker_id credential_id secret : string) (now : Z)
    : M CredentialError Store (WorkerCredential * string) :=
  existing ← gets (fun s => st_credentials s !! worker_id);
  _ ← ensure (negb (isSome existing)) (CredentialConflict "credential_already_issued");
  _ ← modify (add_worker worker_id now);
  let row := {| wc_worker_id := worker_id; wc_credential_id := credential_id;
                wc_verifier := sha256_hex secret; wc_created_at := now; wc_rotated_at := None;
                wc_revoked_at := None |} in
  _ ← put_credential row;
  mret (row, token_text credential_id secret).

(** The guarded [UPDATE] of [rotate]; the row that [session.get] then reads is the one
    just written. *)
Definition rotate (worker_id expected_id credential_id secret : string) (now : Z)
    : M CredentialError Store (WorkerCredential * string) :=
  row ← gets (fun s => st_credentials s !! worker_id);
  match row with
  | Some row =>
      _ ← ensure (bool_decide (wc_credential_id row = expected_id))
            (CredentialConflict "credential_transition_conflict");
      let row' := {| wc_worker_id := worker_id; wc_credential_id := credential_id;
                     wc_verifier := sha256_hex secret; wc_created_at := wc_created_at row;
                     wc_rotated_at := Some now; wc_revoked_at := None |} in
      _ ← put_credential row';
      mret (row', token_text credential_id secret)
  | None => raise (CredentialConflict "credential_transition_conflict")
  end.

(** [revoke]: the update is guarded by [revoked_at IS NULL], so a second revocation
    keeps the first time and still returns the row. *)
Definition revoke (worker_id expected_id : string) (now : Z) : M CredentialError Store WorkerCredential :=
  row ← gets (fun s => st_credentials s !! worker_id);
  match row with
  | Some row =>
      _ ← ensure (bool_decide (wc_credential_id row = expected_id))
            (CredentialConflict "credential_transition_conflict");
      match wc_revoked_at row with
      | Some _ => mret row
      | None =>
          let row' := {| wc_worker_id := worker_id; wc_credential_id := wc_credential_id row;
                         wc_verifier := wc_verifier row; wc_created_at := wc_created_at row;
                         wc_rotated_at := wc_rotated_at row; wc_revoked_at := Some now |} in
          _ ← modify (fun s => {| st_world := st_world s;
                                  st_credentials := <[worker_id := row']> (st_credentials s) |});
          mret row'
      end
  | None => raise (CredentialConflict "credential_transition_conflict")
  end.

(** ** Requests of the administrator *)

Inductive CredentialCommand :=
| Issue (worker_id credential_id secret : string)
| Rotate (worker_id expected_id credential_id secret : string)
| Revoke (worker_id expected_id : string).

(** The path and body patterns of the router *)
Definition WORKER_ID_PATTERN : string -> bool :=
  pattern is_alnum (fun c => is_alnum c || (ord c =? 95) || (ord c =? 46) || (ord c =? 45)) 0 127.
Definition CREDENTIAL_ID_PATTERN : string -> bool := exactly 32 is_hex_lower.

(** A request with its outcome: 409 on a conflict, after a rollback. *)
Inductive CredentialResponse :=
| Issued (row : WorkerCredential) (token : string)
| Revoked (row : WorkerCredential)
| Conflict.

Definition credential_request (now : Z) (c : CredentialCommand) (s : Store) : CredentialResponse * Store :=
  match c with
  | Issue w id secret =>
      match issue w id secret now s with
      | (Ok (row, token), s') => (Issued row token, s')
      | (Err _, _) => (Conflict, s)
      end
  | Rotate w expected id secret =>
      match rotate w expected id secret now s with
      | (Ok (row, token), s') => (Issued row token, s')
      | (Err _, _) => (Conflict, s)
      end
  | Revoke w expected =>
      match revoke w expected now s with
      | (Ok row, s') => (Revoked row, s')
      | (Err _, _) => (Conflict, s)
      end
  end.

(** ** Worker requests *)

Record WorkerRequest := {
  rq_authorization : list string;  (** the [Authorization] headers *)
  rq_admin_token : list string;    (** the [X-Switchboard-Admin-Token] headers *)
  rq_path : string;
  rq_query : list (string * string);
}.

Inductive HttpError := HTTP (status : Z) (detail : string).

Definition authentication_failed : HttpError := HTTP 401 "worker_authentication_failed".
Definition scope_denied : HttpError := HTTP 403 "worker_scope_denied".

Definition query_item_ok (principal : WorkerPrincipal) (path : string) (kv : string * string) : bool :=
  (bool_decide (kv.1 = "worker_id") && bool_decide (kv.2 = wpr_worker_id principal))
  || (bool_decide (kv.1 = "run_id")
      && starts_with (to_chars "/api/execution/worker/manifests/") (to_chars path)).

(** [require_worker_token] *)
Definition require_worker_token (t : gmap string WorkerCredential) (r : WorkerRequest)
    : Result HttpError WorkerPrincipal :=
  match rq_authorization r, rq_admin_token r with
  | [header], [] =>
      if starts_with (to_chars "Bearer ") (to_chars header) then
        match authenticate t (of_chars (drop 7 (to_chars header))) with
        | None => Err authentication_failed
        | Some principal =>
            _ ← reject_if (negb (bool_decide (NoDup (map fst (rq_query r))))) scope_denied;
            _ ← reject_if (negb (forallb (query_item_ok principal (rq_path r)) (rq_query r))) scope_denied;
            Ok principal
        end
      else Err authentication_failed
  | _, _ => Err authentication_failed
  end.

(** The worker routes: those that call a service method that changes state, with the
    command they make, and the reading ones. *)
Inductive WorkerRoute :=
| RouteRegister (registration : WorkerRegistration)
| RouteHeartbeatWorker (worker_id : string) (status : option WorkerStatus)
| RouteCheckout (worker_id : string)
| RouteGetWorkOrder (work_order_id : Z)
| RouteGetRun (run_id : Z)
| RouteGetManifest (name version : string) (run_id : Z)
| RouteHeartbeatRun (run_id : Z) (worker_id : string)
| RouteReuse (run_id : Z) (worker_id : string) (identity : EvidenceReuseIdentity) (hash : string)
| RouteComplete (run_id : Z) (worker_id : string) (completion : ExecutionCompletion).

Definition route_command (r : WorkerRoute) : option Command :=
  match r with
  | RouteRegister registration => Some (RegisterWorker registration)
  | RouteHeartbeatWorker w status => Some (HeartbeatWorker w status)
  | RouteCheckout w => Some (Checkout w)
  | RouteHeartbeatRun id w => Some (HeartbeatRun id w)
  | RouteReuse id w identity hash => Some (ResolveReuse id w identity hash)
  | RouteComplete id w completion => Some (CompleteRun id w completion)
  | _ => None
  end.

(** [_owned_run] *)
Definition owned_run (d : DB) (worker_id : string) (run_id : Z) : bool :=
  match db_runs d !! run_id with
  | Some run => bool_decide (run_worker_id run = worker_id)
  | None => false
  end.

(** The latest run of a work order *)
Definition latest_run (d : DB) (work_order_id : Z) : option Run :=
  foldr (fun '(k, r) acc =>
           if run_work_order_id r =? work_order_id then
             match acc with
             | Some (k', r') => if k' <? k then Some (k, r) else Some (k', r')
             | None => Some (k, r)
             end
           else acc) None (map_to_list (db_runs d)) ≫= fun kr => Some kr.2.

(** [_identity] and [_owned_run], as each route calls them *)
Definition in_scope (d : DB) (worker_id : string) (r : WorkerRoute) : bool :=
  match r with
  | RouteRegister registration => bool_decide (worker_id = reg_worker_id registration)
  | RouteHeartbeatWorker w _ | RouteCheckout w => bool_decide (worker_id = w)
  | RouteGetWorkOrder id =>
      match latest_run d id with
      | Some run => bool_decide (run_worker_id run = worker_id)
      | None => false
      end
  | RouteGetRun id => owned_run d worker_id id
  | RouteGetManifest name version id =>
      owned_run d worker_id id &&
      match db_runs d !! id with
      | Some run =>
          match db_orders d !! run_work_order_id run with
          | Some order => bool_decide (wos_manifest_name (wo_spec order) = name)
                          && bool_decide (wos_manifest_version (wo_spec order) = version)
          | None => false
          end
      | None => false
      end
  | RouteHeartbeatRun id w | RouteReuse id w _ _ | RouteComplete id w _ =>
      bool_decide (worker_id = w) && owned_run d worker_id id
  end.

(** A worker request: authenticated, in scope, and then served as a request of [System]. *)
Definition worker_request (env : Env) (q : WorkerRequest) (r : WorkerRoute) (s : Store)
    : Result HttpError WorkerPrincipal * Store :=
  match require_worker_token (st_credentials s) q with
  | Err e => (Err e, s)
  | Ok principal =>
      if in_scope (db (st_world s)) (wpr_worker_id principal) r then
        (Ok principal,
         match route_command r with
         | Some c => {| st_world := serve (st_world s) (env, c); st_credentials := st_credentials s |}
         | None => s
         end)
      else (Err scope_denied, s)
  end.
