(* ===== verification/CredentialProofs.v ===== *)
(** * Correctness of worker credentials

    An abstract specification of credentials, the token each worker currently holds;
    the table implements it over every interleaving of administrator, worker and
    service requests; and what a worker request may do. *)

From S2P Require Import Prelude Text Json Enums Catalog Evidence Registry Capabilities Models Routing Repository Service Steps Invariants Refinement System Checks Fingerprints Credentials.

(** ** Tokens round trip *)

Definition hex_pair (credential_id secret : string) : Prop :=
  exactly 32 is_hex_lower credential_id = true /\ exactly 64 is_hex_lower secret = true.

Lemma hex_no_dot n s : exactly n is_hex_lower s = true -> chr 46 ∉ to_chars s.
Proof.
  intros H. unfold exactly, all_chars in H. inv_bool H. intros Hin.
  apply forallb_Forall in H. rewrite Forall_forall in H. by specialize (H _ Hin).
Qed.

Lemma token_round_trip id secret :
  hex_pair id secret -> TOKEN_PATTERN (token_text id secret) = Some (id, secret).
Proof.
  intros [Hi Hs].
  assert (map of_chars (split_on (chr 46) (to_chars (token_text id secret))) = ["swb_w1"; id; secret]) as Hj.
  { apply split_join; [done|]. repeat constructor; [|by eapply hex_no_dot..].
    refine (bool_decide_unpack _ _). by vm_compute. }
  unfold TOKEN_PATTERN. destruct (split_on _ _) as [|a [|b [|c [|]]]]; try done.
  injection Hj as Ha Hb Hc. rewrite Ha, Hb, Hc, Hi, Hs. done.
Qed.

Lemma token_pattern_text token id secret :
  TOKEN_PATTERN token = Some (id, secret) -> token = token_text id secret /\ hex_pair id secret.
Proof.
  unfold TOKEN_PATTERN. intros H.
  pose proof (join_split (chr 46) (to_chars token)) as Hj. rewrite of_to_chars in Hj.
  destruct (split_on (chr 46) (to_chars token)) as [|a [|b [|c [|]]]]; try done.
  destruct (bool_decide (of_chars a = "swb_w1")) eqn:Ha; [|done]. apply bool_decide_eq_true in Ha.
  destruct (exactly 32 _ _) eqn:Hb; [|done]. destruct (exactly 64 _ _) eqn:Hc; [|done].
  injection H as <- <-. split; [|done]. rewrite <-Hj. unfold token_text. rewrite <-Ha. done.
Qed.

(** ** The specification *)

(** The token each worker holds; [None] after a revocation. *)
Abbreviation Tokens := (gmap string (option string)).

Definition hand_out (c : CredentialCommand) (r : CredentialResponse) (t : Tokens) : Tokens :=
  match c, r with
  | Issue w _ _, Issued _ token | Rotate w _ _ _, Issued _ token => <[w := Some token]> t
  | Revoke w _, Revoked _ => <[w := None]> t
  | _, _ => t
  end.

(** Everything that can happen to the store. *)
Inductive Event :=
| Administer (now : Z) (c : CredentialCommand)
| WorkerCall (env : Env) (q : WorkerRequest) (r : WorkerRoute)
| ServiceCall (env : Env) (c : Command).

Definition happen (st : Store * Tokens) (e : Event) : Store * Tokens :=
  match e with
  | Administer now c =>
      let '(r, s') := credential_request now c st.1 in (s', hand_out c r st.2)
  | WorkerCall env q r => ((worker_request env q r st.1).2, st.2)
  | ServiceCall env c =>
      ({| st_world := serve (st_world st.1) (env, c); st_credentials := st_credentials st.1 |}, st.2)
  end.

Definition new_store : Store * Tokens := ({| st_world := fresh_world; st_credentials := ∅ |}, ∅).

Definition history (l : list Event) : Store * Tokens := foldl happen new_store l.

(** The random strings have the shape [secrets.token_hex] gives them. *)
Definition proper_event (e : Event) : Prop :=
  match e with
  | Administer _ (Issue _ id secret) | Administer _ (Rotate _ _ id secret) => hex_pair id secret
  | _ => True
  end.

(** ** The invariant *)

Definition row_holds (w : string) (row : WorkerCredential) (o : option string) : Prop :=
  wc_worker_id row = w /\
  match o with
  | Some token => wc_revoked_at row = None /\ exists secret, hex_pair (wc_credential_id row) secret /\
                    token = token_text (wc_credential_id row) secret /\ wc_verifier row = sha256_hex secret
  | None => wc_revoked_at row <> None
  end.

Record holds (t : gmap string WorkerCredential) (tokens : Tokens) : Prop := {
  holds_rows w : match t !! w, tokens !! w with
                 | Some row, Some o => row_holds w row o
                 | None, None => True
                 | _, _ => False
                 end;
  holds_unique w1 w2 r1 r2 : t !! w1 = Some r1 -> t !! w2 = Some r2 ->
    wc_credential_id r1 = wc_credential_id r2 -> w1 = w2;
}.

Lemma holds_key t tokens w row : holds t tokens -> t !! w = Some row -> wc_worker_id row = w.
Proof.
  intros [Hr _] Hw. specialize (Hr w). rewrite Hw in Hr.
  destruct (tokens !! w); [|done]. by destruct Hr.
Qed.

Lemma elem_of_rows t row : row ∈ credential_rows t <-> exists w, t !! w = Some row.
Proof.
  unfold credential_rows. rewrite list_elem_of_fmap. split.
  - intros ([w r] & -> & Hin). exists w. by apply elem_of_map_to_list.
  - intros [w Hw]. exists (w, row). split; [done|]. by apply elem_of_map_to_list.
Qed.

Lemma find_credential_Some t tokens id row :
  holds t tokens ->
  find_credential t id = Some row <-> t !! wc_worker_id row = Some row /\ wc_credential_id row = id.
Proof.
  intros Ht. unfold find_credential. split.
  - intros Hh%head_Some_elem_of. apply list_elem_of_filter in Hh as [Hid [w Hw]%elem_of_rows].
    by rewrite (holds_key _ _ _ _ Ht Hw).
  - intros [Hw Hid].
    assert (row ∈ filter (fun r => wc_credential_id r = id) (credential_rows t)) as Hin
      by (apply list_elem_of_filter; rewrite elem_of_rows; eauto).
    destruct (filter _ _) as [|r' l] eqn:Hf; [by apply not_elem_of_nil in Hin|]. cbn. f_equal.
    assert (r' ∈ filter (fun r => wc_credential_id r = id) (credential_rows t)) as Hin'
      by (rewrite Hf; left).
    apply list_elem_of_filter in Hin' as [Hid' [w' Hw']%elem_of_rows].
    assert (w' = wc_worker_id row) as -> by (eapply holds_unique; eauto; congruence). congruence.
Qed.

(** Writing a row whose identifier no other worker has. *)
Lemma holds_put t tokens row o :
  holds t tokens -> taken t (wc_worker_id row) (wc_credential_id row) = false ->
  row_holds (wc_worker_id row) row o -> holds (<[wc_worker_id row := row]> t) (<[wc_worker_id row := o]> tokens).
Proof.
  intros Ht Hfree Hrow. split.
  - intros w. destruct (decide (w = wc_worker_id row)) as [->|Hw]; [by rewrite !lookup_insert_eq|].
    rewrite !lookup_insert_ne by done. apply Ht.
  - assert (forall w r, t !! w = Some r -> wc_credential_id r = wc_credential_id row -> w = wc_worker_id row) as Hother.
    { intros w r Hr Hid. unfold taken in Hfree. apply existsb_false in Hfree.
      rewrite Forall_forall in Hfree. specialize (Hfree r). rewrite elem_of_rows in Hfree.
      specialize (Hfree (ex_intro _ w Hr)). rewrite bool_decide_eq_true_2 in Hfree by done.
      apply andb_false_iff in Hfree as [|Hk]; [done|]. inv_bool Hk.
      rewrite <-Hk. symmetry. by eapply holds_key. }
    intros w1 w2 r1 r2 H1 H2 Hid. apply lookup_insert_Some in H1 as [[<- <-]|[Hn1 H1]];
      apply lookup_insert_Some in H2 as [[<- <-]|[Hn2 H2]]; eauto using eq_sym.
    by eapply holds_unique.
Qed.

(** ** Every event keeps the invariant *)

Lemma put_credential_ok row s u s' :
  put_credential row s = (Ok u, s') ->
  taken (st_credentials s) (wc_worker_id row) (wc_credential_id row) = false /\
  s' = {| st_world := st_world s; st_credentials := <[wc_worker_id row := row]> (st_credentials s) |}.
Proof. unfold put_credential. destruct (taken _ _ _); intros [=]; auto. Qed.

Lemma add_worker_credentials w now s : st_credentials (add_worker w now s) = st_credentials s.
Proof. unfold add_worker. by destruct (db_workers _ !! w). Qed.

Lemma issue_holds w id secret now s row token s' tokens :
  hex_pair id secret -> issue w id secret now s = (Ok (row, token), s') ->
  holds (st_credentials s) tokens -> holds (st_credentials s') (<[w := Some token]> tokens).
Proof.
  intros Hhex Hrun Ht. unfold issue in Hrun. inv_run Hrun.
  injection Hr as _ <-. apply put_credential_ok in Hr0 as [Hfree ->]. rewrite add_worker_credentials in *.
  injection Hg as -> ->. cbn [st_credentials]. apply holds_put; [done|done|].
  split; [done|]. split; [done|]. by exists secret.
Qed.

Lemma rotate_holds w expected id secret now s row token s' tokens :
  hex_pair id secret -> rotate w expected id secret now s = (Ok (row, token), s') ->
  holds (st_credentials s) tokens -> holds (st_credentials s') (<[w := Some token]> tokens).
Proof.
  intros Hhex Hrun Ht. unfold rotate in Hrun. apply bind_ok in Hrun as (old & s1 & Hg & Hrun).
  apply gets_ok in Hg as [-> ->]. destruct (st_credentials s !! w) as [old|] eqn:Hw; [|done].
  inv_run Hrun. apply put_credential_ok in Hr as [Hfree ->].
  injection Hg as -> ->. cbn [st_credentials]. apply holds_put; [done|done|].
  split; [done|]. split; [done|]. by exists secret.
Qed.

Lemma own_not_taken t tokens w row :
  holds t tokens -> t !! w = Some row -> taken t w (wc_credential_id row) = false.
Proof.
  intros Ht Hw. apply existsb_false, Forall_forall. intros r [w' Hr]%elem_of_rows.
  apply andb_false_iff. destruct (decide (wc_credential_id r = wc_credential_id row)) as [Hid|Hid];
    [right|left; by apply bool_decide_eq_false].
  apply negb_false_iff, bool_decide_eq_true. rewrite (holds_key _ _ _ _ Ht Hr). by eapply holds_unique.
Qed.

Lemma revoke_holds w expected now s row s' tokens :
  revoke w expected now s = (Ok row, s') ->
  holds (st_credentials s) tokens -> holds (st_credentials s') (<[w := None]> tokens).
Proof.
  intros Hrun Ht. unfold revoke in Hrun. apply bind_ok in Hrun as (old & s1 & Hg & Hrun).
  apply gets_ok in Hg as [-> ->]. destruct (st_credentials s !! w) as [old|] eqn:Hw; [|done].
  apply bind_ok in Hrun as (u & s1 & He & Hrun). apply ensure_ok in He as [_ ->].
  pose proof (holds_key _ _ _ _ Ht Hw) as Hkey.
  destruct (wc_revoked_at old) as [t|] eqn:Hrev.
  - injection Hrun as <- <-. split; [|apply Ht]. intros w'.
    destruct (decide (w' = w)) as [->|Hne]; [|rewrite lookup_insert_ne by done; apply Ht].
    rewrite Hw, lookup_insert_eq. split; [done|]. congruence.
  - apply bind_ok in Hrun as (u' & s1 & Hm & Hrun). injection Hm as _ <-. injection Hrun as <- <-.
    cbn [st_credentials]. 
    match goal with |- holds (<[w := ?r]> _) _ => apply (holds_put _ _ r None) end; [done| |done].
    cbn. by eapply own_not_taken.
Qed.

Lemma credential_request_holds now c s tokens :
  proper_event (Administer now c) -> holds (st_credentials s) tokens ->
  holds (st_credentials (credential_request now c s).2) (hand_out c (credential_request now c s).1 tokens).
Proof.
  intros Hp Ht. destruct c as [w id secret|w expected id secret|w expected]; cbn [credential_request].
  - destruct (issue w id secret now s) as [[[row token]|e] s'] eqn:Hrun; [|done]. by eapply issue_holds.
  - destruct (rotate w expected id secret now s) as [[[row token]|e] s'] eqn:Hrun; [|done]. by eapply rotate_holds.
  - destruct (revoke w expected now s) as [[row|e] s'] eqn:Hrun; [|done]. by eapply revoke_holds.
Qed.

Lemma worker_request_credentials env q r s :
  st_credentials (worker_request env q r s).2 = st_credentials s.
Proof.
  unfold worker_request. destruct (require_worker_token _ q) as [p|e]; [|done].
  destruct (in_scope _ _ r); [|done]. by destruct (route_command r).
Qed.

Lemma happen_holds st e :
  proper_event e -> holds (st_credentials st.1) st.2 -> holds (st_credentials (happen st e).1) (happen st e).2.
Proof.
  intros Hp Ht. destruct e as [now c|env q r|env c]; cbn [happen fst snd].
  - pose proof (credential_request_holds now c st.1 st.2 Hp Ht) as H.
    by destruct (credential_request now c st.1).
  - by rewrite worker_request_credentials.
  - done.
Qed.

Lemma history_holds l : Forall proper_event l -> holds (st_credentials (history l).1) (history l).2.
Proof.
  unfold history. assert (holds (st_credentials new_store.1) new_store.2) as H0 by by split.
  revert H0. generalize new_store. induction l as [|e l IH]; intros st Ht Hl; [done|].
  apply Forall_cons in Hl as [He Hl]. cbn. apply IH; [by apply happen_holds|done].
Qed.

(** C31. Credentials implement their specification over every interleaving of administrator,
    worker and service requests: a token authenticates a worker exactly when it is the
    token that worker was last given and has not been revoked, unless two secrets with
    the same SHA-256 under one credential identifier have been found. *)
Theorem credentials_refine l token w :
  Forall proper_event l ->
  ((history l).2 !! w = Some (Some token) ->
     exists id, authenticate (st_credentials (history l).1) token =
                Some {| wpr_worker_id := w; wpr_credential_id := id |}) /\
  (forall p, authenticate (st_credentials (history l).1) token = Some p ->
     exists held, (history l).2 !! wpr_worker_id p = Some (Some held) /\
       (held = token \/ exists id a b, held = token_text id a /\ token = token_text id b /\ collision a b)).
Proof.
  intros Hl. pose proof (history_holds l Hl) as Ht. destruct (history l) as [s tokens]. cbn in *. split.
  - intros Hw. pose proof (holds_rows _ _ Ht w) as Hr. rewrite Hw in Hr.
    destruct (st_credentials s !! w) as [row|] eqn:Hrow; [|done].
    destruct Hr as [Hk (Hrev & secret & Hhex & -> & Hv)]. exists (wc_credential_id row).
    unfold authenticate. rewrite token_round_trip by done. cbn.
    rewrite (proj2 (find_credential_Some _ _ _ row Ht)) by (rewrite Hk; auto).
    by rewrite Hv, Hrev, Hk, !bool_decide_eq_true_2.
  - intros p Hp. unfold authenticate in Hp.
    destruct (TOKEN_PATTERN token) as [[id secret]|] eqn:Htok; [|done]. cbn in Hp.
    destruct (find_credential _ id) as [row|] eqn:Hf; [|done].
    apply (find_credential_Some _ _ _ _ Ht) in Hf as [Hrow Hid].
    case_bool_decide as Hv; [|done]. case_bool_decide as Hrev; [|done]. injection Hp as <-. cbn.
    pose proof (holds_rows _ _ Ht (wc_worker_id row)) as Hr. rewrite Hrow in Hr.
    destruct (tokens !! wc_worker_id row) as [[held|]|]; [|by destruct Hr|done].
    destruct Hr as [_ (_ & secret' & _ & -> & Hv')]. eexists. split; [done|].
    apply token_pattern_text in Htok as [-> _]. rewrite Hid.
    destruct (decide (secret' = secret)) as [->|Hne]; [by left|right].
    exists id, secret', secret. repeat split; congruence.
Qed.

(** ** The database under all events *)

Lemma add_worker_steps w now s : rtc step (db (st_world s)) (db (st_world (add_worker w now s))).
Proof.
  unfold add_worker. destruct (db_workers (db (st_world s)) !! w) eqn:Hw; [apply rtc_refl|].
  cbn. apply rtc_once. by apply step_register.
Qed.

Lemma put_credential_world row s r s' : put_credential row s = (r, s') -> st_world s' = st_world s.
Proof. unfold put_credential. destruct (taken _ _ _); intros [= _ <-]; done. Qed.

Lemma rotate_world w expected id secret now s row s' :
  rotate w expected id secret now s = (Ok row, s') -> st_world s' = st_world s.
Proof.
  unfold rotate. intros Hrun. apply bind_ok in Hrun as (old & s1 & Hg & Hrun).
  apply gets_ok in Hg as [-> ->]. destruct (st_credentials s !! w) as [old|]; [|done].
  inv_run Hrun. by eapply put_credential_world.
Qed.

Lemma revoke_world w expected now s row s' : revoke w expected now s = (Ok row, s') -> st_world s' = st_world s.
Proof.
  unfold revoke. intros Hrun. apply bind_ok in Hrun as (old & s1 & Hg & Hrun).
  apply gets_ok in Hg as [-> ->]. destruct (st_credentials s !! w) as [old|]; [|done].
  apply bind_ok in Hrun as (u & s1 & He & Hrun). apply ensure_ok in He as [_ ->].
  destruct (wc_revoked_at old); [by injection Hrun as _ <-|].
  apply bind_ok in Hrun as (u' & s1 & Hm & Hrun). injection Hm as _ <-. by injection Hrun as _ <-.
Qed.

Lemma credential_request_steps now c s :
  rtc step (db (st_world s)) (db (st_world (credential_request now c s).2)).
Proof.
  destruct c as [w id secret|w expected id secret|w expected]; cbn [credential_request].
  - destruct (issue w id secret now s) as [[[row token]|e] s'] eqn:Hrun; [|apply rtc_refl].
    unfold issue in Hrun. inv_run Hrun. injection Hr as _ <-. apply put_credential_world in Hr0.
    cbn [snd]. rewrite Hr0. apply add_worker_steps.
  - destruct (rotate w expected id secret now s) as [[[row token]|e] s'] eqn:Hrun; [|apply rtc_refl].
    apply rotate_world in Hrun. cbn [snd]. rewrite Hrun. apply rtc_refl.
  - destruct (revoke w expected now s) as [[row|e] s'] eqn:Hrun; [|apply rtc_refl].
    apply revoke_world in Hrun. cbn [snd]. rewrite Hrun. apply rtc_refl.
Qed.

Lemma happen_steps st e :
  inv (db (st_world st.1)) -> rtc step (db (st_world st.1)) (db (st_world (happen st e).1)).
Proof.
  intros Hi. destruct e as [now c|env q r|env c]; cbn [happen fst snd].
  - pose proof (credential_request_steps now c st.1). by destruct (credential_request now c st.1).
  - unfold worker_request. destruct (require_worker_token _ q) as [p|e]; [|apply rtc_refl].
    destruct (in_scope _ _ r); [|apply rtc_refl].
    destruct (route_command r); [by apply serve_steps|apply rtc_refl].
  - by apply serve_steps.
Qed.

(** A worker that is registered stays registered. *)
Lemma step_workers d d' w : step d d' -> is_Some (db_workers d !! w) -> is_Some (db_workers d' !! w).
Proof.
  intros Hs. destruct Hs; cbn; try done; intros Hw; apply lookup_insert_is_Some';
    by first [right; exact Hw | done].
Qed.

Lemma steps_workers d d' w : rtc step d d' -> is_Some (db_workers d !! w) -> is_Some (db_workers d' !! w).
Proof. induction 1; eauto using step_workers. Qed.

Lemma issue_worker w id secret now s row s' :
  issue w id secret now s = (Ok row, s') -> is_Some (db_workers (db (st_world s')) !! w).
Proof.
  unfold issue. intros Hrun. inv_run Hrun. injection Hr as _ <-. apply put_credential_world in Hr0.
  rewrite Hr0. unfold add_worker. destruct (db_workers (db (st_world s)) !! w) eqn:Hw; [by rewrite Hw|].
  apply lookup_insert_is_Some'. by left.
Qed.

(** The foreign key of the table. *)
Definition workers_exist (s : Store) : Prop :=
  forall w, is_Some (st_credentials s !! w) -> is_Some (db_workers (db (st_world s)) !! w).

Lemma credential_request_workers now c s :
  workers_exist s -> workers_exist (credential_request now c s).2.
Proof.
  intros Hs. pose proof (credential_request_steps now c s) as Hsteps.
  intros w Hw. destruct c as [v id secret|v expected id secret|v expected]; cbn [credential_request] in *.
  - destruct (issue v id secret now s) as [[[row token]|e] s'] eqn:Hrun; [|auto]. cbn [snd] in *.
    destruct (decide (w = v)) as [->|Hne]; [by eapply issue_worker|].
    eapply steps_workers; [exact Hsteps|]. apply Hs.
    unfold issue in Hrun. inv_run Hrun. injection Hr as _ <-. apply put_credential_ok in Hr0 as [_ ->].
    cbn in Hw. by rewrite lookup_insert_ne, add_worker_credentials in Hw.
  - destruct (rotate v expected id secret now s) as [[[row token]|e] s'] eqn:Hrun; [|auto]. cbn [snd] in *.
    eapply steps_workers; [exact Hsteps|]. apply Hs.
    unfold rotate in Hrun. apply bind_ok in Hrun as (old & s1 & Hg & Hrun).
    apply gets_ok in Hg as [-> ->]. destruct (st_credentials s !! v) as [old|] eqn:Hv; [|done].
    inv_run Hrun. apply put_credential_ok in Hr as [_ ->]. cbn in Hw.
    destruct (decide (w = v)) as [->|]; [by rewrite Hv|by rewrite lookup_insert_ne in Hw].
  - destruct (revoke v expected now s) as [[row|e] s'] eqn:Hrun; [|auto]. cbn [snd] in *.
    eapply steps_workers; [exact Hsteps|]. apply Hs.
    unfold revoke in Hrun. apply bind_ok in Hrun as (old & s1 & Hg & Hrun).
    apply gets_ok in Hg as [-> ->]. destruct (st_credentials s !! v) as [old|] eqn:Hv; [|done].
    apply bind_ok in Hrun as (u & s1 & He & Hrun). apply ensure_ok in He as [_ ->].
    destruct (wc_revoked_at old); [by injection Hrun as _ <-|].
    apply bind_ok in Hrun as (u' & s1 & Hm & Hrun). injection Hm as _ <-. injection Hrun as _ <-. cbn in Hw.
    destruct (decide (w = v)) as [->|]; [by rewrite Hv|by rewrite lookup_insert_ne in Hw].
Qed.

Lemma happen_workers st e :
  inv (db (st_world st.1)) -> workers_exist st.1 -> workers_exist (happen st e).1.
Proof.
  intros Hi Hs. pose proof (happen_steps st e Hi) as Hsteps.
  destruct e as [now c|env q r|env c].
  - pose proof (credential_request_workers now c st.1 Hs) as H. cbn [happen].
    by destruct (credential_request now c st.1).
  - intros w Hw. eapply steps_workers; [exact Hsteps|]. apply Hs. cbn [happen fst] in Hw.
    by rewrite worker_request_credentials in Hw.
  - intros w Hw. eapply steps_workers; [exact Hsteps|]. by apply Hs.
Qed.

(** Whatever administrators, workers and services do, in any order: the database keeps
    the invariant of the control plane and moves by its steps, and every credential
    belongs to a worker that exists. *)
Theorem credential_history_inv l :
  rtc step empty_db (db (st_world (history l).1)) /\ inv (db (st_world (history l).1)) /\
  workers_exist (history l).1.
Proof.
  assert (forall st, inv (db (st_world st.1)) -> workers_exist st.1 ->
          rtc step (db (st_world st.1)) (db (st_world (foldl happen st l).1)) /\
          workers_exist (foldl happen st l).1) as H.
  { induction l as [|e l IH]; intros st Hi Hs; [by split; [apply rtc_refl|]|].
    pose proof (happen_steps st e Hi) as He. destruct (IH (happen st e)) as [Hl Hw].
    - by eapply steps_inv.
    - by apply happen_workers.
    - split; [by etrans|done]. }
  destruct (H new_store) as [Hr Hw]; [apply inv_empty|intros w [c Hc]; discriminate Hc|].
  split; [done|]. split; [by eapply steps_inv; [apply inv_empty|]|done].
Qed.

(** ** Scope *)

Definition route_worker (r : WorkerRoute) : option string :=
  match r with
  | RouteRegister registration => Some (reg_worker_id registration)
  | RouteHeartbeatWorker w _ | RouteCheckout w | RouteHeartbeatRun _ w | RouteReuse _ w _ _
  | RouteComplete _ w _ => Some w
  | _ => None
  end.

Definition route_run (r : WorkerRoute) : option Z :=
  match r with
  | RouteGetRun id | RouteGetManifest _ _ id | RouteHeartbeatRun id _ | RouteReuse id _ _ _
  | RouteComplete id _ _ => Some id
  | _ => None
  end.

Lemma owned_run_true d w id :
  owned_run d w id = true -> exists run, db_runs d !! id = Some run /\ run_worker_id run = w.
Proof. unfold owned_run. destruct (db_runs d !! id) as [run|]; [|done]. intros H. inv_bool H. eauto. Qed.

(** C32. A worker request that is refused changes nothing; one that is served carries, as its
    only credential, a bearer token that authenticates the worker it acts for, and the
    run it names belongs to that worker. *)
Theorem worker_request_scoped env q r s resp s' :
  worker_request env q r s = (resp, s') ->
  match resp with
  | Err _ => s' = s
  | Ok p =>
      (exists token, rq_authorization q = ["Bearer " +:+ token] /\ rq_admin_token q = [] /\
                     authenticate (st_credentials s) token = Some p) /\
      (forall w, route_worker r = Some w -> w = wpr_worker_id p) /\
      (forall id, route_run r = Some id ->
         exists run, db_runs (db (st_world s)) !! id = Some run /\ run_worker_id run = wpr_worker_id p)
  end.
Proof.
  unfold worker_request. destruct (require_worker_token _ q) as [p|e] eqn:Hq; [|by intros [= <- <-]].
  destruct (in_scope _ _ r) eqn:Hs; [|by intros [= <- <-]]. intros [= <- _]. split; [|split].
  - unfold require_worker_token in Hq. destruct (rq_authorization q) as [|h [|]]; try done.
    destruct (rq_admin_token q); [|done]. destruct (starts_with _ _) eqn:Hb; [|done].
    destruct (authenticate _ _) as [p'|] eqn:Ha; [|done]. inv_ok Hq.
    exists (of_chars (drop 7 (to_chars h))). split; [|done]. f_equal.
    clear -Hb. rewrite <-(of_to_chars h) at 1. revert Hb. generalize (to_chars h). intros l Hb.
    do 7 (destruct l as [|? l]; [done|]; cbn in Hb; apply andb_true_iff in Hb as [<-%bool_decide_eq_true Hb]).
    done.
  - intros w Hw. destruct r; cbn in Hw; simplify_eq; cbn in Hs; inv_bool Hs; congruence.
  - intros id Hid. destruct r; cbn in Hid; simplify_eq; cbn in Hs; inv_bool Hs; by apply owned_run_true.
Qed.
