(* ===== verification/RateLimit.v ===== *)
(** * Rate limiting

    [server/middleware/rate_limit.py]: the sliding-window limiter in front of the API.
    Readings of the monotonic clock are nanoseconds; [call_next], the rest of the
    application, is what is reached when a request is not throttled.  The theorems
    compare the limiter with one that remembers every request. *)

From S2P Require Import Prelude Text Checks.

Record RateLimitSettings := {
  rls_requests : Z;
  rls_window_seconds : Z;
  rls_trusted_proxies : list string;
  rls_trusted_bypass : list string;
}.

(** [RateLimitSettings.enabled] *)
Definition rls_enabled (s : RateLimitSettings) : bool := (0 <? rls_requests s) && (0 <? rls_window_seconds s).

Definition rls_window (s : RateLimitSettings) : Z := rls_window_seconds s * 1000000000.

Record ClientRequest := {
  rq_client_host : option string;
  rq_forwarded_for : option string;
}.

Definition truthy (o : option string) : option string :=
  match o with Some s => if bool_decide (s = "") then None else Some s | None => None end.

(** [forwarded.split(",", 1)[0].strip()] *)
Definition first_forwarded (forwarded : string) : string :=
  strip (of_chars (default [] (head (split_on (chr 44) (to_chars forwarded))))).

(** The first forwarded address, when there is one *)
Definition forwarded_client (r : ClientRequest) : option string :=
  forwarded ← truthy (rq_forwarded_for r); truthy (Some (first_forwarded forwarded)).

(** [_client_identifier] *)
Definition client_identifier (settings : RateLimitSettings) (r : ClientRequest) : option string :=
  match truthy (rq_client_host r) with
  | Some host =>
      match (if bool_decide (host ∈ rls_trusted_proxies settings) then forwarded_client r else None) with
      | Some first => Some first
      | None => Some host
      end
  | None => forwarded_client r
  end.

(** [_should_bypass] *)
Definition should_bypass (settings : RateLimitSettings) (identifier : option string) : bool :=
  match truthy identifier with
  | Some i => bool_decide (i ∈ rls_trusted_bypass settings)
  | None => false
  end.

Inductive Verdict := CallNext | TooManyRequests (retry_after : Z).

Definition is_served (d : Verdict) : bool := match d with CallNext => true | _ => false end.

(** [while bucket and bucket[0] < window_start: bucket.popleft()] *)
Fixpoint prune (window_start : Z) (bucket : list Z) : list Z :=
  match bucket with
  | t :: bucket' => if t <? window_start then prune window_start bucket' else bucket
  | [] => []
  end.

(** [identifier or "unknown"] *)
Definition bucket_key (identifier : option string) : string := default "unknown" (truthy identifier).

(** [RateLimitMiddleware.dispatch], the part under the lock included *)
Definition dispatch (settings : RateLimitSettings) (now : Z) (r : ClientRequest) (buckets : gmap string (list Z))
    : Verdict * gmap string (list Z) :=
  if negb (rls_enabled settings) then (CallNext, buckets)
  else
    let identifier := client_identifier settings r in
    if should_bypass settings identifier then (CallNext, buckets)
    else
      let key := bucket_key identifier in
      let bucket := prune (now - rls_window settings) (default [] (buckets !! key)) in
      if rls_requests settings <=? Z.of_nat (length bucket)
      then (TooManyRequests (rls_window_seconds settings), <[key := bucket]> buckets)
      else (CallNext, <[key := bucket ++ [now]]> buckets).

(** [reset] *)
Definition reset (buckets : gmap string (list Z)) : gmap string (list Z) := ∅.

(** A sequence of requests, each at its clock reading, against one limiter *)
Fixpoint dispatch_all (settings : RateLimitSettings) (l : list (Z * ClientRequest))
    (buckets : gmap string (list Z)) : list Verdict * gmap string (list Z) :=
  match l with
  | [] => ([], buckets)
  | (now, r) :: l' =>
      let '(d, buckets') := dispatch settings now r buckets in
      let '(ds, final) := dispatch_all settings l' buckets' in
      (d :: ds, final)
  end.

(** ** The reference: a limiter that remembers every request it served

    [log] has, for each key, the times served, in order. *)

Definition recent (settings : RateLimitSettings) (now : Z) (times : list Z) : list Z :=
  filter (fun t => now - rls_window settings <= t) times.

Definition permit (settings : RateLimitSettings) (now : Z) (r : ClientRequest) (log : gmap string (list Z))
    : Verdict * gmap string (list Z) :=
  let identifier := client_identifier settings r in
  if negb (rls_enabled settings) || should_bypass settings identifier then (CallNext, log)
  else
    let key := bucket_key identifier in
    let times := default [] (log !! key) in
    if rls_requests settings <=? Z.of_nat (length (recent settings now times))
    then (TooManyRequests (rls_window_seconds settings), log)
    else (CallNext, <[key := times ++ [now]]> log).

Fixpoint permit_all (settings : RateLimitSettings) (l : list (Z * ClientRequest))
    (log : gmap string (list Z)) : list Verdict * gmap string (list Z) :=
  match l with
  | [] => ([], log)
  | (now, r) :: l' =>
      let '(d, log') := permit settings now r log in
      let '(ds, final) := permit_all settings l' log' in
      (d :: ds, final)
  end.

(** ** Pruning *)

Definition ascending : list Z -> Prop := StronglySorted Z.le.

Lemma filter_all {A} (P : A -> Prop) `{forall x, Decision (P x)} l : Forall P l -> filter P l = l.
Proof. induction 1 as [|x l Hx _ IH]; [done|]. by rewrite filter_cons_True, IH. Qed.

(** On times in order, dropping from the front is keeping the recent ones. *)
Lemma prune_filter s times : ascending times -> prune s times = filter (fun t => s <= t) times.
Proof.
  induction 1 as [|t times Hs IH Hall]; [done|]. cbn [prune]. destruct (Z.ltb_spec t s).
  - by rewrite IH, filter_cons_False by lia.
  - rewrite filter_cons_True, filter_all; [done| |done].
    eapply Forall_impl; [exact Hall|cbn; lia].
Qed.

Lemma filter_filter_le s s' (times : list Z) :
  s <= s' -> filter (fun t => s' <= t) (filter (fun t => s <= t) times) = filter (fun t => s' <= t) times.
Proof.
  intros Hs. induction times as [|t times IH]; [done|].
  destruct (decide (s <= t)); [rewrite (filter_cons_True (fun t => s <= t)) by done|
                               rewrite (filter_cons_False (fun t => s <= t)) by done].
  - destruct (decide (s' <= t)); [rewrite !filter_cons_True by done; by f_equal|].
    by rewrite !filter_cons_False.
  - rewrite (filter_cons_False (fun t => s' <= t)) by lia. done.
Qed.

Lemma ascending_snoc times now : ascending times -> Forall (fun t => t <= now) times -> ascending (times ++ [now]).
Proof.
  induction 1 as [|t times Hs IH Hall]; intros Hn; cbn; [repeat constructor|].
  apply Forall_cons in Hn as [Ht Hn]. constructor; [by apply IH|]. apply Forall_app. auto.
Qed.

Lemma ascending_filter (P : Z -> Prop) `{forall x, Decision (P x)} times :
  ascending times -> ascending (filter P times).
Proof.
  induction 1 as [|t times Hs IH Hall]; [constructor|]. destruct (decide (P t)).
  - rewrite filter_cons_True by done. constructor; [done|].
    apply Forall_forall. intros x [_ Hx]%list_elem_of_filter. by eapply Forall_forall in Hall.
  - by rewrite filter_cons_False.
Qed.

(** ** The simulation *)

Section limiter.
Variable settings : RateLimitSettings.
Let W : Z := rls_window settings.

(** At time [now], a bucket has the served times that are not older than some [s] that
    is itself older than the window. *)
Record follows (now : Z) (bucket times : list Z) : Prop := {
  follows_sorted : ascending times;
  follows_past : Forall (fun t => t <= now) times;
  follows_bucket : exists s, s <= now - W /\ bucket = filter (fun t => s <= t) times;
}.

Definition simulated (now : Z) (buckets log : gmap string (list Z)) : Prop :=
  forall key, follows now (default [] (buckets !! key)) (default [] (log !! key)).

Lemma follows_later now now' bucket times :
  now <= now' -> follows now bucket times -> follows now' bucket times.
Proof.
  intros Hn [Hs Hp (s & Hsn & Hb)]. split; [done| |].
  - eapply Forall_impl; [exact Hp|]. cbn. lia.
  - exists s. split; [lia|done].
Qed.

Lemma follows_pruned now bucket times :
  follows now bucket times -> prune (now - W) bucket = recent settings now times.
Proof.
  intros [Hs Hp (s & Hsn & ->)]. rewrite prune_filter by (by apply ascending_filter).
  by rewrite filter_filter_le.
Qed.

Lemma simulated_dispatch now now' r buckets log :
  simulated now buckets log -> now <= now' ->
  (dispatch settings now' r buckets).1 = (permit settings now' r log).1 /\
  simulated now' (dispatch settings now' r buckets).2 (permit settings now' r log).2.
Proof.
  intros Hsim Hn. assert (simulated now' buckets log) as Hsim'
    by (intros key; eapply follows_later; [done|apply Hsim]).
  unfold dispatch, permit. destruct (rls_enabled settings) eqn:He; [|done]. cbn [negb orb].
  destruct (should_bypass settings _); [done|]. set (key := bucket_key _).
  pose proof (Hsim' key) as Hk. fold W. rewrite (follows_pruned _ _ _ Hk).
  destruct (rls_requests settings <=? _); (split; [done|]); intros key'; cbn [snd];
    (destruct (decide (key' = key)) as [->|Hne]; [|rewrite ?lookup_insert_ne by done; apply Hsim']);
    rewrite !lookup_insert_eq; cbn [default]; destruct Hk as [Hs Hp Hb]; unfold id.
  - split; [done..|]. by exists (now' - W).
  - split; [by apply ascending_snoc| |].
    + apply Forall_app. split; [done|]. by repeat constructor.
    + exists (now' - W). split; [done|]. rewrite filter_app, (filter_cons_True _ now'); [done|].
      unfold rls_enabled in He. inv_bool He. unfold W, rls_window. lia.
Qed.

Lemma simulated_all now l buckets log :
  simulated now buckets log -> StronglySorted (fun a b : Z * ClientRequest => a.1 <= b.1) l ->
  Forall (fun e => now <= e.1) l ->
  (dispatch_all settings l buckets).1 = (permit_all settings l log).1 /\
  exists now', simulated now' (dispatch_all settings l buckets).2 (permit_all settings l log).2.
Proof.
  revert now buckets log. induction l as [|[t r] l IH]; intros now buckets log Hsim Hs Hl; [eauto|].
  apply Forall_cons in Hl as [Ht Hl]. apply StronglySorted_inv in Hs as [Hs Hall].
  destruct (simulated_dispatch now t r buckets log Hsim Ht) as [Hd Hsim']. cbn [dispatch_all permit_all].
  destruct (dispatch settings t r buckets) as [d b'], (permit settings t r log) as [d' log']. cbn in Hd, Hsim'. subst d'.
  destruct (IH t b' log' Hsim' Hs Hall) as [Hds Hfin].
  destruct (dispatch_all settings l b'), (permit_all settings l log'). cbn in *. subst. eauto.
Qed.

(** ** The window bound *)

(** Each time was admitted with fewer than the limit in the window before it. *)
Inductive spaced : list Z -> Prop :=
| spaced_nil : spaced []
| spaced_snoc times now :
    spaced times -> Z.of_nat (length (recent settings now times)) < rls_requests settings ->
    spaced (times ++ [now]).

Lemma filter_length_le {A} (P Q : A -> Prop) `{forall x, Decision (P x), forall x, Decision (Q x)} l :
  (forall x, P x -> Q x) -> (length (filter P l) <= length (filter Q l))%nat.
Proof.
  intros HPQ. induction l as [|x l IH]; [done|]. destruct (decide (P x)).
  - rewrite !filter_cons_True by auto. cbn. lia.
  - rewrite (filter_cons_False P) by done. destruct (decide (Q x));
      [rewrite (filter_cons_True Q) by done; cbn; lia|by rewrite (filter_cons_False Q)].
Qed.

Lemma spaced_window times t :
  spaced times -> 0 <= rls_requests settings ->
  Z.of_nat (length (filter (fun x => t <= x <= t + W) times)) <= rls_requests settings.
Proof.
  intros Hsp H0. induction Hsp as [|times now Hsp IH Hlt]; [done|].
  rewrite filter_app, length_app. destruct (decide (t <= now <= t + W)) as [Hin|Hout].
  - rewrite filter_cons_True by done. cbn [length].
    assert (length (filter (fun x => (t <= x <= t + W)%Z) times) <= length (recent settings now times))%nat as Hle.
    { apply filter_length_le. intros x [? ?]. fold W. lia. }
    cbn in *. lia.
  - rewrite filter_cons_False by done. cbn. lia.
Qed.

Definition spaced_log (log : gmap string (list Z)) : Prop := forall key, spaced (default [] (log !! key)).

Lemma permit_spaced now r log : spaced_log log -> spaced_log (permit settings now r log).2.
Proof.
  intros Hl. unfold permit. destruct (_ || _); [done|].
  destruct (Z.leb_spec (rls_requests settings)
              (Z.of_nat (length (recent settings now (default [] (log !! bucket_key (client_identifier settings r)))))));
    [done|].
  intros key. cbn [snd]. destruct (decide (key = bucket_key (client_identifier settings r))) as [->|Hne].
  - rewrite lookup_insert_eq. cbn. constructor; [apply Hl|done].
  - rewrite lookup_insert_ne by done. apply Hl.
Qed.

Lemma permit_all_spaced l log : spaced_log log -> spaced_log (permit_all settings l log).2.
Proof.
  revert log. induction l as [|[t r] l IH]; intros log Hl; [done|]. cbn [permit_all].
  pose proof (permit_spaced t r log Hl) as Hl'. destruct (permit settings t r log) as [d log'].
  specialize (IH log' Hl'). by destruct (permit_all settings l log').
Qed.
End limiter.

(** The requests the limiter counts under a key. *)
Definition counted (settings : RateLimitSettings) (key : string) (r : ClientRequest) : bool :=
  rls_enabled settings && negb (should_bypass settings (client_identifier settings r))
  && bool_decide (bucket_key (client_identifier settings r) = key).

(** The times at which counted requests were let through. *)
Definition served_times (settings : RateLimitSettings) (key : string) (l : list (Z * ClientRequest))
    (verdicts : list Verdict) : list Z :=
  omap (fun '((now, r), v) => if counted settings key r && is_served v then Some now else None)
    (zip l verdicts).

Definition in_order (l : list (Z * ClientRequest)) : Prop :=
  StronglySorted (fun a b => a.1 <= b.1) l.

Lemma simulated_empty settings now : simulated settings now ∅ ∅.
Proof.
  intros key. rewrite lookup_empty. split; [constructor|done|].
  exists (now - rls_window settings). split; [lia|done].
Qed.

Lemma dispatch_all_admits settings l :
  in_order l ->
  (dispatch_all settings l ∅).1 = (permit_all settings l ∅).1 /\
  exists now, simulated settings now (dispatch_all settings l ∅).2 (permit_all settings l ∅).2.
Proof.
  intros Hl. destruct l as [|[t r] l]; [split; [done|]; exists 0; apply simulated_empty|].
  eapply (simulated_all settings t); [apply simulated_empty|done|].
  apply StronglySorted_inv in Hl as [_ Hall]. constructor; [cbn; lia|done].
Qed.

Lemma permit_log settings now r log key :
  default [] ((permit settings now r log).2 !! key) =
  default [] (log !! key) ++ (if counted settings key r && is_served (permit settings now r log).1 then [now] else []).
Proof.
  unfold permit, counted. destruct (rls_enabled settings); cbn [negb orb andb]; [|by rewrite app_nil_r].
  destruct (should_bypass settings _); cbn [negb andb]; [by rewrite app_nil_r|].
  destruct (rls_requests settings <=? _); cbn [is_served fst snd];
    [by rewrite andb_false_r, app_nil_r|]. rewrite andb_true_r.
  destruct (decide (bucket_key (client_identifier settings r) = key)) as [<-|Hne].
  - by rewrite lookup_insert_eq, bool_decide_eq_true_2.
  - by rewrite lookup_insert_ne, bool_decide_eq_false_2, app_nil_r.
Qed.

Lemma permit_all_log settings l log key :
  default [] ((permit_all settings l log).2 !! key) =
  default [] (log !! key) ++ served_times settings key l (permit_all settings l log).1.
Proof.
  revert log. induction l as [|[now r] l IH]; intros log; cbn [permit_all]; [by rewrite app_nil_r|].
  pose proof (permit_log settings now r log key) as Hd. destruct (permit settings now r log) as [d log'].
  specialize (IH log'). destruct (permit_all settings l log') as [ds final]. cbn [fst snd] in *.
  rewrite IH, Hd, <-app_assoc. f_equal. unfold served_times. cbn [zip zip_with omap list_omap].
  by destruct (counted settings key r && is_served d).
Qed.

(** Memory: a bucket never has more entries than the limit. *)
Definition small (settings : RateLimitSettings) (buckets : gmap string (list Z)) : Prop :=
  forall key, Z.of_nat (length (default [] (buckets !! key))) <= Z.max 0 (rls_requests settings).

Lemma prune_length s bucket : (length (prune s bucket) <= length bucket)%nat.
Proof. induction bucket as [|t bucket IH]; cbn; [done|]. destruct (t <? s); cbn; lia. Qed.

Lemma dispatch_small settings now r buckets :
  small settings buckets -> small settings (dispatch settings now r buckets).2.
Proof.
  intros Hs. unfold dispatch. destruct (negb _); [done|]. destruct (should_bypass _ _); [done|].
  set (key := bucket_key _). pose proof (prune_length (now - rls_window settings) (default [] (buckets !! key))) as Hp.
  pose proof (Hs key) as Hk. destruct (Z.leb_spec (rls_requests settings)
    (Z.of_nat (length (prune (now - rls_window settings) (default [] (buckets !! key))))));
  intros key'; cbn [snd]; (destruct (decide (key' = key)) as [->|Hne];
    [rewrite lookup_insert_eq; cbn; rewrite ?length_app; cbn; lia|rewrite lookup_insert_ne by done; apply Hs]).
Qed.

Lemma dispatch_all_small settings l buckets :
  small settings buckets -> small settings (dispatch_all settings l buckets).2.
Proof.
  revert buckets. induction l as [|[now r] l IH]; intros buckets Hs; [done|]. cbn [dispatch_all].
  pose proof (dispatch_small settings now r buckets Hs) as Hs'.
  destruct (dispatch settings now r buckets) as [d b']. specialize (IH b' Hs').
  by destruct (dispatch_all settings l b').
Qed.

(** C39. The limiter decides exactly as one that remembers every request it has served and
    counts those of the last window: forgetting old requests never changes a verdict. *)
Theorem rate_limit_reference settings l :
  in_order l -> (dispatch_all settings l ∅).1 = (permit_all settings l ∅).1.
Proof. intros Hl. by destruct (dispatch_all_admits settings l Hl). Qed.

(** At most [requests] requests of one client are let through in any window of the
    configured length, and no bucket ever holds more than [requests] entries. *)
Theorem rate_limit_bound settings l key t :
  in_order l -> rls_enabled settings = true ->
  Z.of_nat (length (filter (fun x => t <= x <= t + rls_window settings)
                      (served_times settings key l (dispatch_all settings l ∅).1))) <= rls_requests settings /\
  Z.of_nat (length (default [] ((dispatch_all settings l ∅).2 !! key))) <= rls_requests settings.
Proof.
  intros Hl He. unfold rls_enabled in He. inv_bool He. split.
  - destruct (dispatch_all_admits settings l Hl) as [-> _].
    pose proof (permit_all_log settings l ∅ key) as Hlog. rewrite lookup_empty in Hlog. cbn in Hlog.
    rewrite <-Hlog. apply spaced_window; [|lia]. apply permit_all_spaced. intros k.
    rewrite lookup_empty. constructor.
  - assert (small settings ∅) as Hs by (intros k; rewrite lookup_empty; cbn; lia).
    pose proof (dispatch_all_small settings l ∅ Hs key). lia.
Qed.
