(* ===== verification/GitHub.v ===== *)
(** * GitHub requests and their publication claims

    [server/github_adapter/repository.py] over the table
    [GitHubValidationRequest] of [server/models.py]: the idempotent request rows and the
    publication lease, a token with an expiry that is acquired, renewed, and released
    together with the result it protects.  Then [rendering.py]: the comment that shows a result. *)

From S2P Require Import Prelude Text Json Enums Evidence Checks.

(** [GitHubValidationRequest]: the columns fixed at creation ... *)
Record RequestIdentity := {
  ri_schema_version : Z;
  ri_idempotency_key : string;
  ri_github_api_url : string;
  ri_github_host : string;
  ri_repository_full_name : string;
  ri_repository_id : Z;
  ri_repository_node_id : string;
  ri_github_actor_id : option Z;
  ri_github_actor_node_id : option string;
  ri_pull_request_number : Z;
  ri_pull_request_id : Z;
  ri_pull_request_node_id : string;
  ri_pull_request_state : string;
  ri_pull_request_draft : bool;
  ri_pull_request_merged : bool;
  ri_base_ref : string;
  ri_base_sha : string;
  ri_head_ref : string;
  ri_head_sha : string;
  ri_head_repository_full_name : string;
  ri_head_repository_id : Z;
  ri_manifest_name : string;
  ri_manifest_version : string;
  ri_manifest_digest : string;
  ri_operator_id : string;
  ri_work_order_id : Z;
}.

(** ... the columns a publication writes ... *)
Record Publication := {
  pub_terminal_run_id : option Z;
  pub_managed_comment_id : option Z;
  pub_state : string;
  pub_decision : string;
  pub_head_sha : option string;
  pub_last_transport_reason : option string;
  pub_reason : option string;
  pub_last_resolved_at : Z;
  pub_last_attempt_at : option Z;
  pub_published_at : option Z;
}.

(** ... and the lease. *)
Record Claim := { claim_token : string; claim_claimed_at : Z; claim_expires_at : Z }.

Record GitHubRequest := {
  gr_id : Z;
  gr_identity : RequestIdentity;
  gr_publication : Publication;
  gr_claim : option Claim;
}.

(** The values of a finalization: a column that is absent is left as it is. *)
Record Values := {
  v_terminal_run_id : option Z;
  v_managed_comment_id : option Z;
  v_publication_state : option string;
  v_publication_decision : option string;
  v_publication_head_sha : option (option string);
  v_last_transport_reason : option string;
  v_publication_reason : option string;
  v_last_resolved_at : option Z;
  v_published_at : option Z;
}.

(** [values={}] *)
Definition no_values : Values :=
  {| v_terminal_run_id := None; v_managed_comment_id := None; v_publication_state := None;
     v_publication_decision := None; v_publication_head_sha := None; v_last_transport_reason := None;
     v_publication_reason := None; v_last_resolved_at := None; v_published_at := None |}.

Definition set_or {A} (new : option A) (old : option A) : option A :=
  match new with Some a => Some a | None => old end.

Definition write_values (v : Values) (p : Publication) : Publication :=
  {| pub_terminal_run_id := set_or (v_terminal_run_id v) (pub_terminal_run_id p);
     pub_managed_comment_id := set_or (v_managed_comment_id v) (pub_managed_comment_id p);
     pub_state := default (pub_state p) (v_publication_state v);
     pub_decision := default (pub_decision p) (v_publication_decision v);
     pub_head_sha := default (pub_head_sha p) (v_publication_head_sha v);
     pub_last_transport_reason := set_or (v_last_transport_reason v) (pub_last_transport_reason p);
     pub_reason := set_or (v_publication_reason v) (pub_reason p);
     pub_last_resolved_at := default (pub_last_resolved_at p) (v_last_resolved_at v);
     pub_last_attempt_at := pub_last_attempt_at p;
     pub_published_at := set_or (v_published_at v) (pub_published_at p) |}.

Definition with_claim (c : option Claim) (p : Publication) (r : GitHubRequest) : GitHubRequest :=
  {| gr_id := gr_id r; gr_identity := gr_identity r; gr_publication := p; gr_claim := c |}.

(** ** The guarded updates *)

(** [acquire_publication_claim] *)
Definition acquire_publication_claim (id : Z) (token : string) (claimed_at expires_at : Z) (t : gmap Z GitHubRequest)
    : bool * gmap Z GitHubRequest :=
  match t !! id with
  | Some r =>
      if match gr_claim r with Some c => claim_expires_at c <=? claimed_at | None => true end
      then (true, <[id := with_claim
                      (Some {| claim_token := token; claim_claimed_at := claimed_at;
                               claim_expires_at := expires_at |})
                      {| pub_terminal_run_id := pub_terminal_run_id (gr_publication r);
                         pub_managed_comment_id := pub_managed_comment_id (gr_publication r);
                         pub_state := pub_state (gr_publication r);
                         pub_decision := pub_decision (gr_publication r);
                         pub_head_sha := pub_head_sha (gr_publication r);
                         pub_last_transport_reason := pub_last_transport_reason (gr_publication r);
                         pub_reason := Some "github_publication_in_progress";
                         pub_last_resolved_at := pub_last_resolved_at (gr_publication r);
                         pub_last_attempt_at := Some claimed_at;
                         pub_published_at := pub_published_at (gr_publication r) |} r]> t)
      else (false, t)
  | None => (false, t)
  end.

(** The request is claimed with that token. *)
Definition holds_token (token : string) (r : GitHubRequest) : option Claim :=
  match gr_claim r with
  | Some c => if bool_decide (claim_token c = token) then Some c else None
  | None => None
  end.

(** [finalize_publication_claim]; [Values] has none of the forbidden columns. *)
Definition finalize_publication_claim (id : Z) (token : string) (values : Values) (t : gmap Z GitHubRequest)
    : bool * gmap Z GitHubRequest :=
  match t !! id with
  | Some r =>
      match holds_token token r with
      | Some _ => (true, <[id := with_claim None (write_values values (gr_publication r)) r]> t)
      | None => (false, t)
      end
  | None => (false, t)
  end.

(** [renew_publication_claim] *)
Definition renew_publication_claim (id : Z) (token : string) (renewed_at expires_at : Z) (t : gmap Z GitHubRequest)
    : bool * gmap Z GitHubRequest :=
  match t !! id with
  | Some r =>
      match holds_token token r with
      | Some c =>
          if renewed_at <? claim_expires_at c
          then (true, <[id := with_claim
                          (Some {| claim_token := claim_token c; claim_claimed_at := claim_claimed_at c;
                                   claim_expires_at := expires_at |}) (gr_publication r) r]> t)
          else (false, t)
      | None => (false, t)
      end
  | None => (false, t)
  end.

(** [release_publication_claim] *)
Definition release_publication_claim (id : Z) (token : string) (t : gmap Z GitHubRequest)
    : bool * gmap Z GitHubRequest := finalize_publication_claim id token no_values t.

(** [get_by_idempotency_key] *)
Definition get_by_idempotency_key (key : string) (t : gmap Z GitHubRequest) : option GitHubRequest :=
  head (filter (fun r => ri_idempotency_key (gr_identity r) = key) (map_to_list t).*2).

(** ** Constraints of the table *)

Definition length_between (lo hi : Z) (s : string) : bool := (lo <=? str_length s) && (str_length s <=? hi).

(** The CHECK constraints on the columns fixed at creation *)
Definition identity_check (i : RequestIdentity) : bool :=
  (ri_schema_version i =? 1)
  && (str_length (ri_idempotency_key i) =? 64)
  && (str_length (ri_head_sha i) =? 40) && (str_length (ri_base_sha i) =? 40)
  && (str_length (ri_manifest_digest i) =? 64)
  && (1 <=? ri_pull_request_number i)
  && (1 <=? ri_repository_id i) && (1 <=? ri_pull_request_id i) && (1 <=? ri_head_repository_id i)
  && length_between 1 512 (ri_github_api_url i) && length_between 1 255 (ri_github_host i)
  && length_between 3 255 (ri_repository_full_name i) && length_between 3 255 (ri_head_repository_full_name i)
  && length_between 1 128 (ri_repository_node_id i) && length_between 1 128 (ri_pull_request_node_id i)
  && match ri_github_actor_id i, ri_github_actor_node_id i with
     | None, None => true
     | Some id, Some node => (1 <=? id) && length_between 1 128 node
     | Some id, None => 1 <=? id               (** a comparison with NULL is no violation *)
     | None, Some node => length_between 1 128 node
     end
  && bool_decide (ri_pull_request_state i ∈ ["open"; "closed"])
  && length_between 1 255 (ri_base_ref i) && length_between 1 255 (ri_head_ref i)
  && length_between 1 128 (ri_manifest_name i) && length_between 1 64 (ri_manifest_version i)
  && length_between 1 128 (ri_operator_id i).

(** ... on the columns a publication writes ... *)
Definition PUBLICATION_STATES : list string :=
  ["not_published"; "published_current"; "published_stale"; "retryable_failure"; "failed"].
Definition PUBLICATION_DECISIONS : list string := ["not_evaluated"; "current"; "stale"].

Definition publication_check (p : Publication) : bool :=
  opt_all (fun id => 1 <=? id) (pub_managed_comment_id p)
  && opt_all (fun sha => str_length sha =? 40) (pub_head_sha p)
  && opt_all (length_between 1 64) (pub_last_transport_reason p)
  && opt_all (length_between 1 64) (pub_reason p)
  && bool_decide (pub_state p ∈ PUBLICATION_STATES)
  && bool_decide (pub_decision p ∈ PUBLICATION_DECISIONS).

(** ... and on the lease. *)
Definition claim_check (c : Claim) : bool :=
  (str_length (claim_token c) =? 64) && (claim_claimed_at c <? claim_expires_at c).

Definition row_check (r : GitHubRequest) : bool :=
  identity_check (gr_identity r) && publication_check (gr_publication r) && opt_all claim_check (gr_claim r).

(** [create]: the row, its CHECK and its UNIQUE constraints; [None] is an [IntegrityError]. *)
Definition create_request (identity : RequestIdentity) (publication : Publication) (t : gmap Z GitHubRequest)
    : option (GitHubRequest * gmap Z GitHubRequest) :=
  let id := fresh_id t in
  let r := {| gr_id := id; gr_identity := identity; gr_publication := publication; gr_claim := None |} in
  if negb (row_check r) then None
  else if existsb (fun r' => bool_decide (ri_idempotency_key (gr_identity r') = ri_idempotency_key identity)
                        || (ri_work_order_id (gr_identity r') =? ri_work_order_id identity))
       (map_to_list t).*2
  then None else Some (r, <[id := r]> t).

(** ** Claims under interleaving *)

(** [PUBLICATION_CLAIM_TTL], in microseconds *)
Definition PUBLICATION_CLAIM_TTL : Z := 5 * 60 * 1000000.

(** The statements that publishers, in any process, run against a request. *)
Inductive ClaimOp :=
| AcquireOp (token : string)
| RenewOp (token : string)
| FinalizeOp (token : string) (values : Values).

Definition claim_op (id now : Z) (op : ClaimOp) (t : gmap Z GitHubRequest) : bool * gmap Z GitHubRequest :=
  match op with
  | AcquireOp token => acquire_publication_claim id token now (now + PUBLICATION_CLAIM_TTL) t
  | RenewOp token => renew_publication_claim id token now (now + PUBLICATION_CLAIM_TTL) t
  | FinalizeOp token values => finalize_publication_claim id token values t
  end.

(** A sequence of statements, each at its time, with what each one reported *)
Fixpoint claim_ops (id : Z) (ops : list (Z * ClaimOp)) (t : gmap Z GitHubRequest)
    : list bool * gmap Z GitHubRequest :=
  match ops with
  | [] => ([], t)
  | (now, op) :: ops' =>
      let '(b, t') := claim_op id now op t in
      let '(bs, final) := claim_ops id ops' t' in
      (b :: bs, final)
  end.

(** * The managed comment

    [server/github_adapter/rendering.py]: the Markdown of the one comment a request
    owns on its pull request, and the marker that identifies it. *)

From S2P Require Import Prelude Text Json Enums Evidence Floats JsonCodec Documents Fingerprints Registry Checks Profiles Parsers.

Definition MAX_RENDERED_COMMENT_BYTES : Z := 12 * 1024.
Definition HEX_64 : string -> bool := exactly 64 is_hex_lower.
(** [^[a-z0-9][a-z0-9_.:-]{0,63}$] *)
Definition REASON : string -> bool :=
  pattern slug_first (fun c => slug_first c || bool_decide (ord c ∈ [95; 46; 58; 45])) 0 63.

(** [ValueError] is [None]. *)
Definition managed_comment_marker (idempotency_key : string) : option string :=
  if HEX_64 idempotency_key
  then Some ("<!-- switchboard-validation:v1:" +:+ idempotency_key +:+ " -->") else None.

Definition has_exact_marker (body marker : string) : bool :=
  (str_length body <=? MAX_RENDERED_COMMENT_BYTES)
  && bool_decide (take 1 (splitlines [] (to_chars body)) = [to_chars marker]).

(** The parsed results of the steps, those that failed to parse left out *)
Definition parsed_results (e : ExecutionEvidence) : list ParsedResult :=
  filter (fun r => pr_parsed r = true) (omap step_parsed_result (ev_steps e)).

Definition first_audit (audits : list AuditSummary) (kind : AuditKind) : option AuditSummary :=
  head (filter (fun a => audit_kind a = kind) audits).

Definition safe_reason (reason : string) : string :=
  if REASON reason then reason else "github_publication_failed".

(** The terminal reason of the evidence when it is a bounded code, its status otherwise *)
Definition shown_reason (e : ExecutionEvidence) : string :=
  match ev_terminal_reason e with
  | Some reason =>
      if negb (bool_decide (reason = "")) && REASON reason then reason else ev_terminal_status e
  | None => ev_terminal_status e
  end.

Definition tick (s : string) : string := "`" +:+ s +:+ "`".

Definition audit_line (label : string) (a : AuditSummary) : string :=
  "- " +:+ label +:+ " audit: "
  +:+ tick ((if audit_passed a then "passed" else "failed") +:+ "; " +:+ str_of_int (audit_findings a) +:+ " findings").

Definition tests_line (t : ParsedTestCounts) : string :=
  "- Tests: " +:+ tick (str_of_int (tc_passed t) +:+ " passed, " +:+ str_of_int (tc_failed t) +:+ " failed, "
    +:+ str_of_int (tc_skipped t) +:+ " skipped, " +:+ str_of_int (tc_errors t) +:+ " errors").

Definition comment_lines (marker : string) (i : RequestIdentity) (e : ExecutionEvidence)
    (decision decision_reason : string) : list string :=
  let results := parsed_results e in
  let audits := omap pr_audit results in
  [marker;
   "## Switchboard validation";
   "";
   "- Switchboard comment schema: `1`";
   "- Repository / PR: " +:+ tick (ri_repository_full_name i) +:+ " "
     +:+ tick ("#" +:+ str_of_int (ri_pull_request_number i));
   "- Exact tested SHA: " +:+ tick (ri_head_sha i);
   "- Manifest: " +:+ tick (ri_manifest_name i +:+ "@" +:+ ri_manifest_version i) +:+ " ("
     +:+ tick (ri_manifest_digest i) +:+ ")";
   "- Terminal status: " +:+ tick (ev_terminal_status e);
   "- Terminal reason: " +:+ tick (shown_reason e);
   "- Execution provenance: `fresh`";
   "- Evidence fingerprint: " +:+ tick (ev_fingerprint e);
   "- Head decision: " +:+ tick decision +:+ " (" +:+ tick (safe_reason decision_reason) +:+ ")"]
  ++ match head (omap pr_tests results) with Some t => [tests_line t] | None => [] end
  ++ match head (omap pr_coverage results) with
     | Some c => ["- Measured coverage: " +:+ tick (format_2f (fl_value (cov_measured_percent c)) +:+ "%")]
     | None => [] end
  ++ match first_audit audits AUDIT_SECURITY with Some a => [audit_line "Security" a] | None => [] end
  ++ match first_audit audits AUDIT_DEPENDENCY with Some a => [audit_line "Dependency" a] | None => [] end
  ++ [""; "Full logs and artifact bytes remain local to the trusted worker."].

(** [render_managed_comment]; [None] is its [ValueError]. *)
Definition render_managed_comment (i : RequestIdentity) (e : ExecutionEvidence)
    (decision decision_reason : string) : option string :=
  if negb (bool_decide (decision ∈ ["current"; "stale"])) then None
  else
    marker ← managed_comment_marker (ri_idempotency_key i);
    let rendered := join (String (chr 10) "") (comment_lines marker i e decision decision_reason) in
    if MAX_RENDERED_COMMENT_BYTES <? str_length rendered then None else Some rendered.

(** ** The marker is the first line *)

Lemma splitlines_line acc line l :
  Forall (fun c => line_end c = false) line ->
  splitlines acc (line ++ chr 10 :: l) = (acc ++ line) :: splitlines [] l.
Proof.
  intros Hline. revert acc. induction Hline as [|c line Hc Hline IH]; intros acc.
  - rewrite app_nil_r. done.
  - assert ((ord c =? 13) = false) as H13.
    { apply Z.eqb_neq. intros Heq. unfold line_end in Hc. rewrite Heq in Hc. done. }
    cbn [app splitlines]. rewrite H13, Hc. cbn [andb]. rewrite IH, <-app_assoc. done.
Qed.

Lemma hex_not_line_end c : is_hex_lower c = true -> line_end c = false.
Proof.
  unfold is_hex_lower, is_digit, in_range, line_end. intros Hc. apply bool_decide_eq_false_2.
  rewrite orb_true_iff, !andb_true_iff, !Z.leb_le in Hc. intros Hin.
  repeat (apply elem_of_cons in Hin as [Hin|Hin]; [lia|]). by apply elem_of_nil in Hin.
Qed.

Lemma literal_one_line l :
  forallb (fun c => negb (line_end c)) l = true -> Forall (fun c => line_end c = false) l.
Proof. intros Hl. apply forallb_Forall in Hl. eapply Forall_impl; [exact Hl|]. intros c. apply negb_true_iff. Qed.

Lemma marker_one_line key marker :
  managed_comment_marker key = Some marker -> Forall (fun c => line_end c = false) (to_chars marker).
Proof.
  unfold managed_comment_marker, HEX_64, exactly, all_chars. destruct (_ && _) eqn:Hk; [|done].
  apply andb_true_iff in Hk as [_ Hk]. intros [= <-]. rewrite to_chars_app, to_chars_app, Forall_app, Forall_app.
  split; [by apply literal_one_line; vm_compute|]. split; [|by apply literal_one_line; vm_compute].
  apply forallb_Forall in Hk.
  eapply Forall_impl; [exact Hk|]. apply hex_not_line_end.
Qed.

(** Every rendered comment fits the bound of the adapter and is recognised as the managed
    comment of its request: its first line is exactly the marker of the idempotency key,
    whatever the evidence contains. *)
Theorem rendered_comment_marked i e decision reason body :
  render_managed_comment i e decision reason = Some body ->
  decision ∈ ["current"; "stale"] /\ str_length body <= 12 * 1024 /\
  exists marker, managed_comment_marker (ri_idempotency_key i) = Some marker /\
    has_exact_marker body marker = true.
Proof.
  unfold render_managed_comment. case_bool_decide as Hd; [|done]. cbn [negb].
  destruct (managed_comment_marker _) as [marker|] eqn:Hm; [|done].
  change (Some marker ≫= ?k) with (k marker). cbv beta zeta.
  destruct (Z.ltb_spec MAX_RENDERED_COMMENT_BYTES
    (str_length (join (String (chr 10) "") (comment_lines marker i e decision reason)))) as [|Hlen]; [done|].
  intros Hb. apply (inj Some) in Hb as <-. split; [done|]. split; [done|]. exists marker. split; [done|].
  unfold has_exact_marker. rewrite (proj2 (Z.leb_le _ _) Hlen). cbn [andb]. apply bool_decide_eq_true_2.
  unfold comment_lines. cbn [app join]. rewrite to_chars_app, to_chars_app. cbn [to_chars app].
  rewrite splitlines_line by by eapply marker_one_line. done.
Qed.
