(* ===== verification/GitHubService.v ===== *)
(** * The GitHub adapter service

    [server/github_adapter/service.py]: requesting validation of the exact head of a
    pull request, and publishing its terminal evidence as one managed comment.

    Every [await] is a point where other processes act: before each operation the
    parameter [out_others] may change the tables in any way, and the answers of GitHub,
    through [GitHubTransport], are parameters too ([out_actor] and the like).  It is also
    a point where the task can be cancelled: then [asyncio.CancelledError], which is not an
    [Exception], is raised, before the operation has had its effect or after
    ([out_cancelled]).  A theorem about the service for all parameters is a theorem about
    all interleavings, all remote behaviours and all cancellations.  The operations that
    matter to the theorems are recorded in a log, with the arguments of the call.

    [request_validation] runs its savepoint as one operation. *)

From S2P Require Import Prelude Text Json Enums Catalog Evidence Documents Registry Capabilities Models Routing Repository Service Checks GitHub.

(** ** Data of the transport *)

Record ResolvedPullRequest := {
  pr_repository_full_name : string;
  pr_repository_id : Z;
  pr_repository_node_id : string;
  pr_pull_request_number : Z;
  pr_pull_request_id : Z;
  pr_pull_request_node_id : string;
  pr_state : string;
  pr_draft : bool;
  pr_merged : bool;
  pr_base_ref : string;
  pr_base_sha : string;
  pr_head_ref : string;
  pr_head_sha : option string;
  pr_head_repository_full_name : option string;
  pr_head_repository_id : option Z;
}.

Record GitHubActorIdentity := { actor_id : Z; actor_node_id : string }.

#[global] Instance GitHubActorIdentity_dec : EqDecision GitHubActorIdentity.
Proof. solve_decision. Defined.

Record GitHubComment := {
  comment_id : Z;
  comment_body : string;
  comment_author : GitHubActorIdentity;
  comment_repository_full_name : string;
  comment_pull_request_number : Z;
}.

Record GitHubCommentListing := { listing_comments : list GitHubComment; listing_complete : bool }.

(** The settings the service reads: [GitHubSettings] *)
Record GitHubSettings := { gh_api_url : string; gh_host : string; gh_operator_id : string }.

(** ** Errors: the classes of [errors.py] with their reason, and everything else *)

Inductive AdapterKind :=
| RequestNotFound | RepositoryNotAllowed | ManifestRefused | TransportError | RateLimited
| AmbiguousWrite | TerminalEvidenceRequired.

Inductive GhError :=
| AdapterError (kind : AdapterKind) (reason : string)
| ExecutionError (e : ExecError)
| RenderError
| OtherError
| Cancelled.

#[global] Instance AdapterKind_dec : EqDecision AdapterKind.
Proof. solve_decision. Defined.

(** [GitHubTransportError] and its subclasses *)
Definition is_transport (k : AdapterKind) : bool :=
  match k with TransportError | RateLimited | AmbiguousWrite => true | _ => false end.

(** ** State and operations *)

Inductive GhEvent :=
| EvAcquire (id : Z) (token : string) (now : Z) (ok : bool)
| EvRenew (id : Z) (token : string) (now : Z) (ok : bool)
| EvFinalize (id : Z) (token : string) (values : Values) (ok held : bool)
| EvEvidence (run : Run) (r : Result GhError (option ExecutionEvidence))
| EvActor (r : Result GhError GitHubActorIdentity)
| EvPullRequest (repository : string) (number : Z) (r : Result GhError ResolvedPullRequest)
| EvGetComment (repository : string) (id : Z) (r : Result GhError GitHubComment)
| EvList (repository : string) (number : Z) (r : Result GhError GitHubCommentListing)
| EvCreate (repository : string) (number : Z) (body : string) (r : Result GhError GitHubComment)
| EvUpdate (repository : string) (id : Z) (body : string) (r : Result GhError GitHubComment).

Record GhState := {
  gs_requests : gmap Z GitHubRequest;
  gs_world : World;
  gs_turn : nat;
  gs_log : list GhEvent;
}.

(** What the service awaits.  [out_cancelled] says whether the task is cancelled at an
    operation, and if so whether the operation has had its effect. *)
Record Outside := {
  out_cancelled : nat -> option bool;
  out_others : nat -> gmap Z GitHubRequest * World -> gmap Z GitHubRequest * World;
  out_clock : nat -> Z;
  out_token : nat -> string;
  out_actor : nat -> Result GhError GitHubActorIdentity;
  out_pull_request : nat -> string -> Z -> bool -> Result GhError ResolvedPullRequest;
  out_get_comment : nat -> string -> Z -> Result GhError GitHubComment;
  out_list_comments : nat -> string -> Z -> Result GhError GitHubCommentListing;
  out_create_comment : nat -> string -> Z -> string -> Result GhError GitHubComment;
  out_update_comment : nat -> string -> Z -> string -> Result GhError GitHubComment;
}.

Abbreviation GH A := (M GhError GhState A).

Section service.
Context (env : Env) (settings : GitHubSettings) (out : Outside).

(** One operation: others act, then the operation, and its event is recorded; a
    cancelled operation raises whether or not it has been done. *)
Definition atomic {A} (f : nat -> gmap Z GitHubRequest * World -> Result GhError A * (gmap Z GitHubRequest * World))
    (event : Result GhError A -> option GhEvent) : GH A := fun s =>
  let n := gs_turn s in
  let tw := out_others out n (gs_requests s, gs_world s) in
  let '(r, (t', w')) := f n tw in
  let done := {| gs_requests := t'; gs_world := w'; gs_turn := S n;
                 gs_log := gs_log s ++ match event r with Some e => [e] | None => [] end |} in
  match out_cancelled out n with
  | None => (r, done)
  | Some true => (Err Cancelled, done)
  | Some false => (Err Cancelled, {| gs_requests := tw.1; gs_world := tw.2; gs_turn := S n; gs_log := gs_log s |})
  end.

(** A call to GitHub *)
Definition remote {A} (f : nat -> Result GhError A) (event : Result GhError A -> GhEvent) : GH A :=
  atomic (fun n tw => (f n, tw)) (fun r => Some (event r)).

Definition resolve_authenticated_actor : GH GitHubActorIdentity := remote (out_actor out) EvActor.

Definition resolve_pull_request (repository : string) (number : Z) (require_head : bool)
    : GH ResolvedPullRequest :=
  remote (fun n => out_pull_request out n repository number require_head)
    (EvPullRequest repository number).

Definition get_comment (repository : string) (id : Z) : GH GitHubComment :=
  remote (fun n => out_get_comment out n repository id) (EvGetComment repository id).

Definition list_comments (repository : string) (number : Z) : GH GitHubCommentListing :=
  remote (fun n => out_list_comments out n repository number) (EvList repository number).

Definition create_comment (repository : string) (number : Z) (body : string) : GH GitHubComment :=
  remote (fun n => out_create_comment out n repository number body) (EvCreate repository number body).

Definition update_comment (repository : string) (id : Z) (body : string) : GH GitHubComment :=
  remote (fun n => out_update_comment out n repository id body) (EvUpdate repository id body).

Definition clock : GH Z := fun s =>
  (Ok (out_clock out (gs_turn s)), {| gs_requests := gs_requests s; gs_world := gs_world s;
     gs_turn := S (gs_turn s); gs_log := gs_log s |}).

Definition token_hex : GH string := fun s =>
  (Ok (out_token out (gs_turn s)), {| gs_requests := gs_requests s; gs_world := gs_world s;
     gs_turn := S (gs_turn s); gs_log := gs_log s |}).

(** A statement on the table of requests, committed *)
Definition statement {A} (f : gmap Z GitHubRequest -> A * gmap Z GitHubRequest) (event : A -> option GhEvent)
    : GH A :=
  atomic (fun _ '(t, w) => let '(a, t') := f t in (Ok a, (t', w)))
    (fun r => match r with Ok a => event a | Err _ => None end).

(** A call of the execution service, its errors raised here *)
Definition observed {A} (m : exec A) (event : Result GhError A -> option GhEvent) : GH A :=
  atomic (fun _ '(t, w) => let '(r, w') := m w in
            (match r with Ok a => Ok a | Err e => Err (ExecutionError e) end, (t, w')))
    event.

Definition execution {A} (m : exec A) : GH A := observed m (fun _ => None).

(** The row whose id column is [id] *)
Definition select_request (id : Z) (t : gmap Z GitHubRequest) : option GitHubRequest :=
  r ← t !! id; if gr_id r =? id then Some r else None.

Definition get_request (id : Z) : GH GitHubRequest :=
  found ← statement (fun t => (select_request id t, t)) (fun _ => None);
  require found (AdapterError RequestNotFound "github_request_not_found").

(** ** Status *)

(** [GitHubRequestStatus]: the columns of the request, with the linked lifecycle *)
Record GitHubRequestStatus := {
  rs_request : GitHubRequest;
  rs_work_order_status : WorkOrderStatus;
  rs_reuse_policy : ReusePolicy;
  rs_routing_policy : RoutingPolicy;
  rs_maximum_cost_units : option Z;
  rs_required_quota_units : Z;
  rs_preferred_executor : option string;
  rs_terminal_run : option (Z * ExecutionRunStatus);
  rs_evidence_fingerprint : option string;
  rs_publication_reason : option string;
}.

(** [next((item for item in runs if item.id == terminal_run_id), runs[-1])] *)
Definition status_run (terminal_run_id : option Z) (runs : list Run) : option Run :=
  match head (filter (fun r => Some (run_id r) = terminal_run_id) runs) with
  | Some r => Some r
  | None => last runs
  end.

(** The fingerprint of the evidence of a run, when it can be read *)
Definition run_fingerprint (run : option Run) : exec (option string) :=
  match run with
  | Some r =>
      match res_evidence_metadata (run_result r) with
      | Some _ =>
          handle (e ← get_run_evidence env (run_id r); mret (Some (ev_fingerprint e)))
            (fun e => match e with
                      | ExecutionNotFoundError _ | MalformedEvidenceError _ => Some (mret None)
                      | _ => None
                      end)
      | None => mret None
      end
  | None => mret None
  end.

(** [_status] *)
Definition status (request : GitHubRequest) (reason_override : option string) : GH GitHubRequestStatus :=
  order ← execution (get_work_order (ri_work_order_id (gr_identity request)));
  runs ← execution (list_runs (Some (ri_work_order_id (gr_identity request))));
  let run := status_run (pub_terminal_run_id (gr_publication request)) runs in
  fingerprint ← execution (run_fingerprint run);
  mret {| rs_request := request;
          rs_work_order_status := wo_status order;
          rs_reuse_policy := wos_reuse_policy (wo_spec order);
          rs_routing_policy := wos_routing_policy (wo_spec order);
          rs_maximum_cost_units := wos_maximum_cost_units (wo_spec order);
          rs_required_quota_units := wos_required_quota_units (wo_spec order);
          rs_preferred_executor := wos_preferred_executor (wo_spec order);
          rs_terminal_run := (fun r => (run_id r, run_status r)) <$> run;
          rs_evidence_fingerprint := fingerprint;
          rs_publication_reason :=
            match reason_override with Some r => Some r | None => pub_reason (gr_publication request) end |}.

Definition get_status (request_id : Z) : GH GitHubRequestStatus :=
  request ← get_request request_id; status request None.

(** ** Publication *)

Definition same_actor_identity (i : RequestIdentity) (actor : GitHubActorIdentity) : bool :=
  bool_decide (ri_github_actor_id i = Some (actor_id actor))
  && bool_decide (ri_github_actor_node_id i = Some (actor_node_id actor)).

Definition actor_identity_failure_reason (i : RequestIdentity) (actor : GitHubActorIdentity) : option string :=
  match ri_github_actor_id i, ri_github_actor_node_id i with
  | Some _, Some _ => if same_actor_identity i actor then None else Some "github_actor_mismatch"
  | _, _ => Some "github_actor_identity_missing"
  end.

Definition same_stable_identity (i : RequestIdentity) (r : ResolvedPullRequest) : bool :=
  (ri_repository_id i =? pr_repository_id r)
  && bool_decide (ri_repository_node_id i = pr_repository_node_id r)
  && (ri_pull_request_id i =? pr_pull_request_id r)
  && bool_decide (ri_pull_request_node_id i = pr_pull_request_node_id r)
  && (ri_pull_request_number i =? pr_pull_request_number r).

Definition is_owned_managed_comment (comment : GitHubComment) (actor : GitHubActorIdentity)
    (i : RequestIdentity) (marker : string) (expected_comment_id : option Z) : bool :=
  bool_decide (comment_author comment = actor)
  && bool_decide (lower (comment_repository_full_name comment) = lower (ri_repository_full_name i))
  && (comment_pull_request_number comment =? ri_pull_request_number i)
  && has_exact_marker (comment_body comment) marker
  && opt_all (fun id => comment_id comment =? id) expected_comment_id.

(** [_renew_claim_for_write], with the claim token of a publication *)
Definition renew_claim_for_write (request : GitHubRequest) (token : string) : GH unit :=
  now ← clock;
  renewed ← statement (renew_publication_claim (gr_id request) token now (now + PUBLICATION_CLAIM_TTL))
              (fun ok => Some (EvRenew (gr_id request) token now ok));
  ensure renewed (AdapterError TransportError "github_publication_claim_lost").

(** [_update_verified_comment] *)
Definition update_verified_comment (request : GitHubRequest) (actor : GitHubActorIdentity)
    (id : Z) (marker body token : string) : GH GitHubComment :=
  let i := gr_identity request in
  verified ← get_comment (ri_repository_full_name i) id;
  _ ← ensure (is_owned_managed_comment verified actor i marker (Some id))
        (AdapterError TransportError "github_publication_failed");
  _ ← renew_claim_for_write request token;
  updated ← update_comment (ri_repository_full_name i) id body;
  _ ← ensure (is_owned_managed_comment updated actor i marker (Some id))
        (AdapterError TransportError "github_publication_failed");
  mret updated.

(** [_unique_owned_recovery_candidate] *)
Definition unique_owned_recovery_candidate (request : GitHubRequest) (actor : GitHubActorIdentity)
    (marker : string) : GH (option GitHubComment) :=
  let i := gr_identity request in
  listing ← list_comments (ri_repository_full_name i) (ri_pull_request_number i);
  let candidates := filter (fun c => is_owned_managed_comment c actor i marker None = true)
                      (listing_comments listing) in
  _ ← ensure (Z.of_nat (length candidates) <=? 1)
        (AdapterError TransportError "github_comment_recovery_ambiguous");
  _ ← ensure (listing_complete listing)
        (AdapterError TransportError "github_comment_recovery_unverifiable");
  mret (head candidates).

(** The persisted comment, when it exists and is still owned *)
Definition persisted_comment (request : GitHubRequest) (actor : GitHubActorIdentity) (marker : string)
    : GH (option Z) :=
  let i := gr_identity request in
  match pub_managed_comment_id (gr_publication request) with
  | None => mret None
  | Some id =>
      handle (persisted ← get_comment (ri_repository_full_name i) id;
              mret (if is_owned_managed_comment persisted actor i marker (Some id)
                    then Some (comment_id persisted) else None))
        (fun e => match e with
                  | AdapterError k reason =>
                      if is_transport k && bool_decide (reason = "github_comment_not_found")
                      then Some (mret None) else None
                  | _ => None
                  end)
  end.

(** The creation of a comment: after an ambiguous write the comment is looked for *)
Definition create_managed_comment (request : GitHubRequest) (actor : GitHubActorIdentity)
    (marker body token : string) : GH GitHubComment :=
  let i := gr_identity request in
  _ ← renew_claim_for_write request token;
  created ← handle (c ← create_comment (ri_repository_full_name i) (ri_pull_request_number i) body;
                    mret (inl c))
              (fun e => match e with
                        | AdapterError AmbiguousWrite _ =>
                            Some (recovered ← unique_owned_recovery_candidate request actor marker;
                                  match recovered with
                                  | None => raise e
                                  | Some c => updated ← update_verified_comment request actor (comment_id c)
                                                          marker body token;
                                              mret (inr updated)
                                  end)
                        | _ => None
                        end);
  match created with
  | inl c =>
      _ ← ensure (is_owned_managed_comment c actor i marker None)
            (AdapterError TransportError "github_publication_failed");
      mret c
  | inr updated => mret updated
  end.

(** [_upsert_managed_comment] *)
Definition upsert_managed_comment (request : GitHubRequest) (body : string) (actor : GitHubActorIdentity)
    (token : string) : GH GitHubComment :=
  marker ← require (managed_comment_marker (ri_idempotency_key (gr_identity request))) RenderError;
  _ ← ensure (same_actor_identity (gr_identity request) actor)
        (AdapterError TransportError "github_actor_mismatch");
  persisted ← persisted_comment request actor marker;
  match persisted with
  | Some id => update_verified_comment request actor id marker body token
  | None =>
      recovered ← unique_owned_recovery_candidate request actor marker;
      match recovered with
      | Some c => update_verified_comment request actor (comment_id c) marker body token
      | None => create_managed_comment request actor marker body token
      end
  end.

(** The row of a request carries a token. *)
Definition token_held (id : Z) (token : string) (t : gmap Z GitHubRequest) : bool :=
  match t !! id with Some r => isSome (holds_token token r) | None => false end.

(** The event says what the statement reported, and whether the row carries the token
    when it is done. *)
Definition finalize (id : Z) (token : string) (values : Values) : GH bool :=
  '(ok, _) ← statement (fun t => let '(ok, t') := finalize_publication_claim id token values t in
                                 ((ok, token_held id token t'), t'))
               (fun '(ok, held) => Some (EvFinalize id token values ok held));
  mret ok.

(** [_finalize_claim] *)
Definition finalize_claim (request : GitHubRequest) (token : string) (values : Values)
    : GH GitHubRequestStatus :=
  finalized ← finalize (gr_id request) token values;
  current ← get_request (gr_id request);
  status current (if negb finalized && isSome (gr_claim current)
                  then Some "github_publication_in_progress" else None).

(** The evidence of a run, when it can be read *)
Definition readable_evidence (run : Run) : exec (option ExecutionEvidence) :=
  handle (e ← get_run_evidence env (run_id run); mret (Some e))
    (fun e => match e with
              | ExecutionNotFoundError _ | MalformedEvidenceError _ => Some (mret None)
              | _ => None
              end).

(** The loop of [_terminal_evidence] *)
Fixpoint first_terminal_evidence (runs : list Run) : GH (option (Run * ExecutionEvidence)) :=
  match runs with
  | [] => mret None
  | run :: runs' =>
      if is_terminal_run (run_status run) then
        evidence ← observed (readable_evidence run) (fun r => Some (EvEvidence run r));
        match evidence with
        | Some e => mret (Some (run, e))
        | None => first_terminal_evidence runs'
        end
      else first_terminal_evidence runs'
  end.

Definition terminal_evidence (request : GitHubRequest) : GH (Run * ExecutionEvidence) :=
  runs ← execution (list_runs (Some (ri_work_order_id (gr_identity request))));
  found ← first_terminal_evidence (reverse runs);
  require found (AdapterError TerminalEvidenceRequired "github_terminal_evidence_required").

(** ** The values each outcome of a publication writes *)

Definition failure_values (run_id : Z) (reason state : string) (decision : option string) : Values :=
  {| v_terminal_run_id := Some run_id; v_managed_comment_id := None; v_publication_state := Some state;
     v_publication_decision := decision; v_publication_head_sha := None;
     v_last_transport_reason := Some reason; v_publication_reason := Some reason;
     v_last_resolved_at := None; v_published_at := None |}.

Definition resolved_values (run_id now : Z) (r : ResolvedPullRequest) (decision state reason : string) : Values :=
  {| v_terminal_run_id := Some run_id; v_managed_comment_id := None; v_publication_state := Some state;
     v_publication_decision := Some decision; v_publication_head_sha := Some (pr_head_sha r);
     v_last_transport_reason := Some "github_pr_resolved"; v_publication_reason := Some reason;
     v_last_resolved_at := Some now; v_published_at := None |}.

Definition published_values (run_id now : Z) (r : ResolvedPullRequest) (decision : string)
    (comment : GitHubComment) (published_at : Z) : Values :=
  {| v_terminal_run_id := Some run_id; v_managed_comment_id := Some (comment_id comment);
     v_publication_state := Some (if bool_decide (decision = "current") then "published_current" else "published_stale");
     v_publication_decision := Some decision; v_publication_head_sha := Some (pr_head_sha r);
     v_last_transport_reason := Some "github_pr_resolved";
     v_publication_reason :=
       Some (if bool_decide (decision = "current") then "github_publication_succeeded" else "github_publication_stale");
     v_last_resolved_at := Some now; v_published_at := Some published_at |}.

(** The head decision and its reason *)
Definition head_decision (i : RequestIdentity) (r : ResolvedPullRequest) : string * string :=
  match pr_head_sha r with
  | None => ("stale", "github_head_unavailable")
  | Some sha =>
      if bool_decide (sha = ri_head_sha i) then ("current", "github_pr_resolved")
      else ("stale", "github_head_changed")
  end.

Definition STALE_REASONS : list string :=
  ["github_pr_not_found"; "github_repository_not_found"; "github_head_unavailable"].

(** [try: m except GitHubAdapterError as error: ...], the outcome as a value *)
Definition attempt {A} (m : GH A) : GH (string + A) :=
  handle (a ← m; mret (inr a))
    (fun e => match e with AdapterError _ reason => Some (mret (inl reason)) | _ => None end).

(** Rendering and writing the comment: a [GitHubAdapterError] with its reason, a
    [ValueError], or the comment *)
Definition write_comment (request : GitHubRequest) (evidence : ExecutionEvidence)
    (decision decision_reason : string) (actor : GitHubActorIdentity) (token : string)
    : GH (option string + GitHubComment) :=
  handle (body ← require (render_managed_comment (gr_identity request) evidence decision decision_reason) RenderError;
          comment ← upsert_managed_comment request body actor token;
          mret (inr comment))
    (fun e => match e with
              | AdapterError _ reason => Some (mret (inl (Some reason)))
              | RenderError => Some (mret (inl None))
              | _ => None
              end).

(** [_publish_claimed] after the pull request has been resolved *)
Definition publish_resolved (request : GitHubRequest) (token : string) (run_id : Z)
    (evidence : ExecutionEvidence) (actor : GitHubActorIdentity) (resolved : ResolvedPullRequest)
    : GH GitHubRequestStatus :=
  let i := gr_identity request in
  now ← clock;
  if negb (same_stable_identity i resolved) then
    finalize_claim request token
      (resolved_values run_id now resolved "stale" "failed" "github_pr_identity_changed")
  else
    let '(decision, decision_reason) := head_decision i resolved in
    written ← write_comment request evidence decision decision_reason actor token;
    match written with
    | inl (Some reason) =>
        finalize_claim request token (resolved_values run_id now resolved decision "retryable_failure" reason)
    | inl None =>
        finalize_claim request token
          (resolved_values run_id now resolved decision "failed" "github_publication_failed")
    | inr comment =>
        published_at ← clock;
        finalize_claim request token (published_values run_id now resolved decision comment published_at)
    end.

(** [_publish_claimed] *)
Definition publish_claimed (request : GitHubRequest) (token : string) : GH GitHubRequestStatus :=
  let i := gr_identity request in
  '(run, evidence) ← terminal_evidence request;
  actor ← attempt resolve_authenticated_actor;
  match actor with
  | inl reason =>
      let reason := if bool_decide (reason = "github_rate_limited") then reason
                    else "github_actor_resolution_failed" in
      finalize_claim request token (failure_values (run_id run) reason "retryable_failure" None)
  | inr actor =>
      match actor_identity_failure_reason i actor with
      | Some reason => finalize_claim request token (failure_values (run_id run) reason "failed" None)
      | None =>
          resolved ← attempt (resolve_pull_request (ri_repository_full_name i) (ri_pull_request_number i) false);
          match resolved with
          | inl reason =>
              finalize_claim request token
                (failure_values (run_id run) reason "retryable_failure"
                   (if bool_decide (reason ∈ STALE_REASONS) then Some "stale" else None))
          | inr resolved => publish_resolved request token (run_id run) evidence actor resolved
          end
      end
  end.

(** The values of the handlers of [publish] *)
Definition retry_values (reason : string) : Values :=
  {| v_terminal_run_id := None; v_managed_comment_id := None;
     v_publication_state := Some "retryable_failure"; v_publication_decision := None;
     v_publication_head_sha := None; v_last_transport_reason := None;
     v_publication_reason := Some reason; v_last_resolved_at := None; v_published_at := None |}.

Definition error_reason (e : GhError) : string :=
  match e with AdapterError _ reason => reason | _ => "github_publication_failed" end.

(** [publish] *)
Definition publish (request_id : Z) : GH GitHubRequestStatus :=
  found ← get_request request_id;
  token ← token_hex;
  claimed_at ← clock;
  acquired ← statement (acquire_publication_claim (gr_id found) token claimed_at (claimed_at + PUBLICATION_CLAIM_TTL))
               (fun ok => Some (EvAcquire (gr_id found) token claimed_at ok));
  request ← get_request (gr_id found);
  if negb acquired then status request (Some "github_publication_in_progress")
  else handle (publish_claimed request token)
         (fun e => match e with
                   | Cancelled => None                    (** no [Exception] *)
                   | _ => Some (_ ← finalize (gr_id found) token (retry_values (error_reason e)); raise e)
                   end).

(** ** Requests *)

(** The routing choices of a request *)
Record RequestPolicy := {
  rp_reuse : ReusePolicy;
  rp_routing : RoutingPolicy;
  rp_maximum_cost : option Z;
  rp_required_quota : Z;
  rp_preferred : option string;
}.

Definition uses_legacy_default_policy (p : RequestPolicy) : bool :=
  bool_decide (rp_reuse p = NEVER) && bool_decide (rp_routing p = FIRST_AVAILABLE)
  && negb (isSome (rp_maximum_cost p)) && (rp_required_quota p =? 0) && negb (isSome (rp_preferred p)).

Definition reuse_policy_value (p : ReusePolicy) : string :=
  match p with NEVER => "never" | ALLOW_EXACT => "allow_exact" | REQUIRE_EXACT => "require_exact" end.

(** The members both keys have *)
Definition identity_members (actor : GitHubActorIdentity) (r : ResolvedPullRequest) (head_sha : string)
    (m : TrustedManifest) : list (string * Json) :=
  [("github_api_url", JStr (gh_api_url settings));
   ("github_actor_id", JInt (actor_id actor));
   ("github_actor_node_id", JStr (actor_node_id actor));
   ("manifest_digest", JStr (tm_digest m));
   ("manifest_name", JStr (tm_name m));
   ("manifest_version", JStr (tm_version m));
   ("pull_request_id", JInt (pr_pull_request_id r));
   ("pull_request_node_id", JStr (pr_pull_request_node_id r));
   ("repository_id", JInt (pr_repository_id r));
   ("repository_node_id", JStr (pr_repository_node_id r));
   ("schema_version", JInt 1);
   ("tested_head_sha", JStr head_sha)].

Definition policy_object (p : RequestPolicy) : Json :=
  JObj [("maximum_cost_units", json_opt JInt (rp_maximum_cost p));
        ("preferred_executor", json_opt JStr (rp_preferred p));
        ("required_quota_units", JInt (rp_required_quota p));
        ("reuse_policy", JStr (reuse_policy_value (rp_reuse p)));
        ("routing_policy", JStr (routing_policy_value (rp_routing p)));
        ("schema_version", JInt 1)].

Definition key_payload (actor : GitHubActorIdentity) (r : ResolvedPullRequest) (head_sha : string)
    (m : TrustedManifest) (p : RequestPolicy) : Json :=
  JObj (identity_members actor r head_sha m ++ [("execution_policy", policy_object p)]).

(** [_idempotency_key] *)
Definition idempotency_key (actor : GitHubActorIdentity) (r : ResolvedPullRequest) (head_sha : string)
    (m : TrustedManifest) (p : RequestPolicy) : string :=
  sha256_hex (dumps true (key_payload actor r head_sha m p)).

(** [_legacy_idempotency_key] *)
Definition legacy_idempotency_key (actor : GitHubActorIdentity) (r : ResolvedPullRequest) (head_sha : string)
    (m : TrustedManifest) : string :=
  sha256_hex (dumps true (JObj (identity_members actor r head_sha m))).

(** [dict.fromkeys(...)]: the first occurrence of each *)
Definition first_occurrences (l : list string) : list string :=
  foldl (fun acc k => if bool_decide (k ∈ acc) then acc else acc ++ [k]) [] l.

(** [str(item["kind"])] of the artifact declarations of a manifest *)
Definition declared_kinds (m : TrustedManifest) : list string :=
  omap (fun j => match j with
                 | JObj f => match obj_get "kind" f with Some (JStr k) => Some k | _ => None end
                 | _ => None
                 end) (tm_artifact_declarations m).

Definition validation_draft (repository head_sha : string) (m : TrustedManifest) (p : RequestPolicy) : WorkOrderDraft :=
  {| wd_schema_version := 1; wd_repository_full_name := repository; wd_commit_sha := head_sha;
     wd_manifest_name := tm_name m; wd_manifest_version := tm_version m; wd_manifest_parameters := [];
     wd_required_capabilities := tm_required_capabilities m; wd_permitted_paths := [];
     wd_forbidden_scope_notes :=
       "GitHub resolved identity only; canonical repository remains read-only and the exact commit must exist locally.";
     wd_expected_artifact_kinds := first_occurrences (declared_kinds m);
     wd_approval_policy := EXPLICIT; wd_timeout_seconds := tm_timeout_seconds m;
     wd_resource_metadata := []; wd_network_policy := tm_network_policy m;
     wd_repository_write_allowed := false; wd_preferred_executor := rp_preferred p;
     wd_cost_ceiling := Some "0.0"; wd_reuse_policy := rp_reuse p; wd_routing_policy := rp_routing p;
     wd_maximum_cost_units := rp_maximum_cost p; wd_required_quota_units := rp_required_quota p |}.

Definition new_identity (repository key head_sha head_repository : string) (head_repository_id : Z)
    (actor : GitHubActorIdentity) (r : ResolvedPullRequest) (m : TrustedManifest) (work_order_id : Z)
    : RequestIdentity :=
  {| ri_schema_version := 1; ri_idempotency_key := key; ri_github_api_url := gh_api_url settings;
     ri_github_host := gh_host settings; ri_repository_full_name := repository;
     ri_repository_id := pr_repository_id r; ri_repository_node_id := pr_repository_node_id r;
     ri_github_actor_id := Some (actor_id actor); ri_github_actor_node_id := Some (actor_node_id actor);
     ri_pull_request_number := pr_pull_request_number r; ri_pull_request_id := pr_pull_request_id r;
     ri_pull_request_node_id := pr_pull_request_node_id r; ri_pull_request_state := pr_state r;
     ri_pull_request_draft := pr_draft r; ri_pull_request_merged := pr_merged r;
     ri_base_ref := pr_base_ref r; ri_base_sha := pr_base_sha r; ri_head_ref := pr_head_ref r;
     ri_head_sha := head_sha; ri_head_repository_full_name := head_repository;
     ri_head_repository_id := head_repository_id; ri_manifest_name := tm_name m;
     ri_manifest_version := tm_version m; ri_manifest_digest := tm_digest m;
     ri_operator_id := gh_operator_id settings; ri_work_order_id := work_order_id |}.

Definition unpublished (now : Z) : Publication :=
  {| pub_terminal_run_id := None; pub_managed_comment_id := None; pub_state := "not_published";
     pub_decision := "not_evaluated"; pub_head_sha := None;
     pub_last_transport_reason := Some "github_pr_resolved"; pub_reason := None;
     pub_last_resolved_at := now; pub_last_attempt_at := None; pub_published_at := None |}.

(** The savepoint: the work order and the request row, or neither.  [None] is an
    [IntegrityError]. *)
Definition create_both (draft : WorkOrderDraft) (identity : Z -> RequestIdentity) (now : Z)
    : GH (option GitHubRequest) :=
  atomic (fun _ '(t, w) =>
            match create_work_order env draft w with
            | (Ok order, w') =>
                match create_request (identity (wo_id order)) (unpublished now) t with
                | Some (r, t') => (Ok (Some r), (t', w'))
                | None => (Ok None, (t, w' <| db := db w |>))
                end
            | (Err IntegrityError, w') => (Ok None, (t, w' <| db := db w |>))
            | (Err e, w') => (Err (ExecutionError e), (t, w' <| db := db w |>))
            end)
    (fun _ => None).

(** The lookup by key, and by the legacy key for the default policy *)
Definition find_request (key : string) (legacy_key : option string) : GH (option GitHubRequest) :=
  found ← statement (fun t => (get_by_idempotency_key key t, t)) (fun _ => None);
  match found, legacy_key with
  | None, Some legacy => statement (fun t => (get_by_idempotency_key legacy t, t)) (fun _ => None)
  | _, _ => mret found
  end.

(** [request_validation] *)
Definition request_validation (repository : string) (number : Z) (manifest_name manifest_version : string)
    (p : RequestPolicy) : GH GitHubRequestStatus :=
  _ ← ensure (bool_decide (repository ∈ TRUSTED_REPOSITORIES (env_repositories env)))
        (AdapterError RepositoryNotAllowed "github_repository_not_allowed");
  manifest ← require (get_trusted_manifest (env_manifests env) manifest_name manifest_version)
               (AdapterError ManifestRefused "trusted_manifest_not_found");
  _ ← match repository_allows_manifest (env_repositories env) repository manifest_name manifest_version with
      | Ok true => mret tt
      | Ok false => raise (AdapterError ManifestRefused "repository_manifest_not_allowed")
      | Err _ => raise OtherError
      end;
  actor ← resolve_authenticated_actor;
  resolved ← resolve_pull_request repository number true;
  '(head_sha, head_repository, head_repository_id) ←
    match pr_head_sha resolved, pr_head_repository_full_name resolved, pr_head_repository_id resolved with
    | Some sha, Some name, Some id =>
        if bool_decide (lower (pr_repository_full_name resolved) = lower repository)
        then mret (sha, name, id)
        else raise (AdapterError TransportError "github_transport_failed")
    | _, _, _ => raise (AdapterError TransportError "github_transport_failed")
    end;
  let key := idempotency_key actor resolved head_sha manifest p in
  let legacy := if uses_legacy_default_policy p
                then Some (legacy_idempotency_key actor resolved head_sha manifest) else None in
  existing ← find_request key legacy;
  match existing with
  | Some request => status request None
  | None =>
      now ← clock;
      created ← create_both (validation_draft repository head_sha manifest p)
                  (new_identity repository key head_sha head_repository head_repository_id actor resolved manifest) now;
      match created with
      | Some request => status request None
      | None =>
          recovered ← find_request key legacy;
          match recovered with
          | Some request => status request None
          | None => raise (ExecutionError IntegrityError)
          end
      end
  end.
End service.
