(* ===== verification/GitHubProofs.v ===== *)
(** * Correctness of the GitHub adapter

    Publication claims exclude each other and fence what a publisher that lost its claim
    tries to write; the rendered comment carries its marker within its bound; and every
    publication, whatever GitHub answers and whatever other processes do, writes only
    under a renewed claim, creates at most one comment, and reports only what it saw. *)

From S2P Require Import Prelude Text Json Enums Catalog Evidence Floats JsonCodec Documents Fingerprints Registry Capabilities Models Routing Repository Service Checks Profiles Parsers GitHub GitHubService.

(** ** Claims *)

(** The token of a statement that takes or keeps the claim *)
Definition holder (op : ClaimOp) : option string :=
  match op with AcquireOp token | RenewOp token => Some token | FinalizeOp _ _ => None end.

(** What a statement does to the row of its request. *)
Definition claim_row (now : Z) (op : ClaimOp) (r : GitHubRequest) : bool * option Claim :=
  match op with
  | AcquireOp token =>
      if match gr_claim r with Some c => claim_expires_at c <=? now | None => true end
      then (true, Some {| claim_token := token; claim_claimed_at := now;
                          claim_expires_at := now + PUBLICATION_CLAIM_TTL |})
      else (false, gr_claim r)
  | RenewOp token =>
      match holds_token token r with
      | Some c => if now <? claim_expires_at c
                  then (true, Some {| claim_token := claim_token c; claim_claimed_at := claim_claimed_at c;
                                      claim_expires_at := now + PUBLICATION_CLAIM_TTL |})
                  else (false, gr_claim r)
      | None => (false, gr_claim r)
      end
  | FinalizeOp token _ =>
      match holds_token token r with Some _ => (true, None) | None => (false, gr_claim r) end
  end.

Lemma claim_op_row id now op t r :
  t !! id = Some r ->
  exists r', (claim_op id now op t).2 !! id = Some r' /\
    ((claim_op id now op t).1, gr_claim r') = claim_row now op r /\
    gr_identity r' = gr_identity r /\ ((claim_op id now op t).1 = false -> (claim_op id now op t).2 = t).
Proof.
  intros Hr. destruct op as [token|token|token v]; cbn [claim_op claim_row];
    unfold acquire_publication_claim, renew_publication_claim, finalize_publication_claim; rewrite Hr.
  - destruct (match gr_claim r with Some c => _ | None => _ end); cbn [fst snd];
      eexists; (split; [rewrite ?lookup_insert_eq; done|]); done.
  - destruct (holds_token token r) as [c|]; [destruct (now <? claim_expires_at c)|]; cbn [fst snd];
      eexists; (split; [rewrite ?lookup_insert_eq; done|]); done.
  - destruct (holds_token token r) as [c|]; cbn [fst snd];
      eexists; (split; [rewrite ?lookup_insert_eq; done|]); done.
Qed.

Lemma claim_ops_cons id now op ops t :
  (claim_ops id ((now, op) :: ops) t).2 = (claim_ops id ops (claim_op id now op t).2).2.
Proof.
  cbn [claim_ops]. destruct (claim_op id now op t) as [b t']. cbn [snd].
  by destruct (claim_ops id ops t') as [bs final].
Qed.

(** A statement that succeeds for one token. *)
Lemma claim_row_taken now op r token c :
  holder op = Some token -> claim_row now op r = (true, c) ->
  exists c', c = Some c' /\ claim_token c' = token /\ claim_expires_at c' = now + PUBLICATION_CLAIM_TTL /\
    match gr_claim r with Some old => claim_token old = token \/ claim_expires_at old <= now | None => True end.
Proof.
  destruct op as [tk|tk|]; cbn [holder claim_row]; intros [= ->]; unfold holds_token.
  - destruct (gr_claim r) as [old|].
    + destruct (Z.leb_spec (claim_expires_at old) now); intros [= <-]. eauto 10.
    + intros [= <-]. eauto 10.
  - destruct (gr_claim r) as [old|]; [|done]. case_bool_decide as Hk; [|done].
    destruct (now <? claim_expires_at old); intros [= <-]. eauto 10.
Qed.

(** ** Fencing *)

Lemma claim_row_other now op r a :
  (forall c, gr_claim r = Some c -> claim_token c <> a) -> op <> AcquireOp a ->
  (forall c, (claim_row now op r).2 = Some c -> claim_token c <> a) /\
  ((op = RenewOp a \/ exists v, op = FinalizeOp a v) -> (claim_row now op r).1 = false).
Proof.
  intros Hr Hop. destruct op as [token|token|token v]; cbn [claim_row]; unfold holds_token.
  - split; [|by intros [?|[??]]]. destruct (gr_claim r) as [c|]; [|intros c' [= <-]; cbn; congruence].
    destruct (claim_expires_at c <=? now); [intros c' [= <-]; cbn; congruence|auto].
  - destruct (gr_claim r) as [c|]; [|done]. case_bool_decide as Hk; [|auto]. split.
    + destruct (now <? claim_expires_at c); [intros c' [= <-]; cbn|]; auto.
    + intros [[= ->]|[? ?]]; [|done]. by destruct (Hr c).
  - destruct (gr_claim r) as [c|]; [|done]. case_bool_decide as Hk; [|auto]. split; [done|].
    intros [?|[v' [= -> _]]]; [done|]. by destruct (Hr c).
Qed.

(** A publisher whose claim has been taken over is fenced: from then on its renewals and
    its finalizations report failure and change nothing, whatever else happens. *)
Theorem lost_claim_is_fenced id a ops now op t row :
  t !! id = Some row -> (forall c, gr_claim row = Some c -> claim_token c <> a) ->
  Forall (fun x => x.2 <> AcquireOp a) ops -> (op = RenewOp a \/ exists v, op = FinalizeOp a v) ->
  claim_op id now op (claim_ops id ops t).2 = (false, (claim_ops id ops t).2).
Proof.
  intros Hrow Hc Hops Hop.
  assert (exists r', (claim_ops id ops t).2 !! id = Some r' /\ forall c, gr_claim r' = Some c -> claim_token c <> a)
    as (r' & Hr' & Hc').
  { clear Hop. revert t row Hrow Hc. induction Hops as [|[n o] ops Ho Hops IH]; intros t row Hrow Hc; [eauto|].
    rewrite claim_ops_cons. destruct (claim_op_row id n o t row Hrow) as (r1 & Hr1 & Hrow1 & _).
    destruct (claim_row_other n o row a Hc Ho) as [Hother _]. apply (IH _ r1); [done|].
    intros c Hc1. apply Hother. rewrite <-Hrow1. done. }
  destruct (claim_op_row id now op _ r' Hr') as (r2 & _ & Hrow2 & _ & Hsame).
  assert (op <> AcquireOp a) as Hna by (destruct Hop as [->|[v ->]]; done).
  destruct (claim_row_other now op r' a Hc' Hna) as [_ Hfail]. specialize (Hfail Hop).
  rewrite <-Hrow2 in Hfail. cbn in Hfail. specialize (Hsame Hfail).
  destruct (claim_op id now op _) as [ok t']. cbn in *. congruence.
Qed.

(** ** Taking over *)

(** The clock reading of the last statement with which [a] took or kept the claim *)
Fixpoint last_kept (id : Z) (a : string) (last : Z) (ops : list (Z * ClaimOp)) (t : gmap Z GitHubRequest) : Z :=
  match ops with
  | [] => last
  | (now, op) :: ops' =>
      let '(ok, t') := claim_op id now op t in
      last_kept id a (if ok && bool_decide (holder op = Some a) then now else last) ops' t'
  end.

(** The row carries the token of [a] until [last] plus the lifetime of a claim. *)
Definition kept (a : string) (last : Z) (r : GitHubRequest) : Prop :=
  exists c, gr_claim r = Some c /\ claim_token c = a /\ claim_expires_at c = last + PUBLICATION_CLAIM_TTL.

(** One statement on a kept claim: it is taken over, or still kept. *)
Lemma kept_step a last now op r r' ok :
  kept a last r -> (ok, gr_claim r') = claim_row now op r -> op <> AcquireOp a ->
  (forall v, op <> FinalizeOp a v) ->
  (exists b, op = AcquireOp b /\ ok = true /\ last + PUBLICATION_CLAIM_TTL <= now /\
     forall c, gr_claim r' = Some c -> claim_token c <> a) \/
  (kept a (if ok && bool_decide (holder op = Some a) then now else last) r' /\
   forall b, holder op = Some b -> b <> a -> ok = false).
Proof.
  intros (c & Hc & Ha & He) Hrow Hna Hnf.
  destruct op as [token|token|token v]; cbn [claim_row holder] in *; unfold holds_token in Hrow; rewrite Hc in Hrow.
  - destruct (Z.leb_spec (claim_expires_at c) now); injection Hrow as -> Hr'.
    + left. exists token. split_and!; [done|done|lia|]. rewrite Hr'. intros c' [= <-]. cbn. congruence.
    + right. split; [by exists c|done].
  - right. case_bool_decide as Hk; [destruct (now <? claim_expires_at c)|]; injection Hrow as -> Hr'; cbn [andb].
    + rewrite bool_decide_eq_true_2 by congruence. split; [by eexists|]. intros b [= <-] Hb. congruence.
    + split; [by exists c|done].
    + split; [by exists c|done].
  - right. case_bool_decide as Hk; [by destruct (Hnf v); rewrite <-Ha, Hk|].
    injection Hrow as -> Hr'. split; [by exists c|done].
Qed.

(** The statement that takes the claim of [a] over, when the last one does not leave it. *)
Lemma kept_until a ops last t r id :
  t !! id = Some r -> kept a last r ->
  Forall (fun x => x.2 <> AcquireOp a /\ forall v, x.2 <> FinalizeOp a v) ops ->
  (exists r', (claim_ops id ops t).2 !! id = Some r' /\ kept a (last_kept id a last ops t) r') \/
  exists pre s b post r', ops = pre ++ (s, AcquireOp b) :: post /\ b <> a /\
    last_kept id a last pre t + PUBLICATION_CLAIM_TTL <= s /\
    (claim_op id s (AcquireOp b) (claim_ops id pre t).2).1 = true /\
    (claim_op id s (AcquireOp b) (claim_ops id pre t).2).2 !! id = Some r' /\
    (forall c, gr_claim r' = Some c -> claim_token c <> a).
Proof.
  intros Hr Hk Hops. revert last t r Hr Hk.
  induction Hops as [|[now op] ops [Hna Hnf] Hops IH]; intros last t r Hr Hk; [left; by exists r|].
  destruct (claim_op_row id now op t r Hr) as (r1 & Hr1 & Hrow & _).
  destruct (kept_step _ _ _ _ _ _ _ Hk Hrow Hna Hnf) as [(b & -> & Hok & Hle & Hother)|[Hk1 _]].
  - right. exists [], now, b, ops, r1. split_and!; [done|cbn in Hna; congruence|done..].
  - rewrite claim_ops_cons. cbn [last_kept]. destruct (claim_op id now op t) as [ok t1] eqn:Hop. cbn [fst snd] in *.
    destruct (IH _ t1 r1 Hr1 Hk1) as [Hleft|(pre & s & b & post & r' & -> & Hb & Hle & Hok & Hr' & Hc)]; [by left|].
    right. exists ((now, op) :: pre), s, b, post, r'. rewrite claim_ops_cons. cbn [last_kept]. rewrite Hop. done.
Qed.

(** C29. Publication claims exclude each other, without any assumption on the clocks of
    the processes. Suppose a publisher [a] has acquired or renewed the claim on a request,
    then statements of any processes run, [a] neither finalizing nor acquiring anew (a
    token is drawn for one acquisition), and then another publisher acquires or renews the
    claim. Then one of these statements was an acquisition that took the claim over: its
    clock reading was at least five minutes later than the reading with which [a] last took
    or kept the claim; and from then on every renewal and every finalization of [a] fails
    and changes nothing. *)
Theorem claim_windows_exclude id r opA opB a b ops r' t row :
  t !! id = Some row -> holder opA = Some a -> holder opB = Some b -> a <> b ->
  Forall (fun x => x.2 <> AcquireOp a /\ forall v, x.2 <> FinalizeOp a v) ops ->
  let t0 := (claim_op id r opA t).2 in
  (claim_op id r opA t).1 = true -> (claim_op id r' opB (claim_ops id ops t0).2).1 = true ->
  exists pre s c post, ops ++ [(r', opB)] = pre ++ (s, AcquireOp c) :: post /\ c <> a /\
    (claim_op id s (AcquireOp c) (claim_ops id pre t0).2).1 = true /\
    last_kept id a r pre t0 + PUBLICATION_CLAIM_TTL <= s /\
    let t1 := (claim_op id s (AcquireOp c) (claim_ops id pre t0).2).2 in
    forall later now op, Forall (fun x => x.2 <> AcquireOp a) later -> (op = RenewOp a \/ exists v, op = FinalizeOp a v) ->
      claim_op id now op (claim_ops id later t1).2 = (false, (claim_ops id later t1).2).
Proof.
  intros Hrow Ha Hb Hab Hops t0 HokA HokB.
  destruct (claim_op_row id r opA t row Hrow) as (r1 & Hr1 & HrowA & _). rewrite HokA in HrowA.
  destruct (claim_row_taken _ _ _ _ _ Ha (eq_sym HrowA)) as (c1 & Hc1 & Hk1 & He1 & _).
  assert (Forall (fun x => x.2 <> AcquireOp a /\ forall v, x.2 <> FinalizeOp a v) (ops ++ [(r', opB)])) as Hall.
  { apply Forall_app. split; [done|]. apply Forall_singleton. cbn. split; [|intros v]; intros ->; cbn in Hb; congruence. }
  destruct (kept_until a ops r t0 r1 id Hr1) as [(r2 & Hr2 & Hk2)|Htaken]; [by exists c1|done| |].
  - destruct (claim_op_row id r' opB _ r2 Hr2) as (r3 & Hr3 & HrowB & _).
    apply Forall_app in Hall as [_ [[Hna Hnf] _]%Forall_cons].
    destruct (kept_step _ _ _ _ _ _ _ Hk2 HrowB Hna Hnf) as [(c & HopB & Hok & Hle & Hother)|[_ Hfail]].
    + cbn in HopB. subst opB. exists ops, r', c, []. split_and!; [done|cbn in Hna; congruence|done|done|].
      intros t1 later now op Hl Hop. eapply lost_claim_is_fenced; eauto.
    + rewrite (Hfail b Hb) in HokB by congruence. done.
  - destruct Htaken as (pre & s & c & post & r2 & -> & Hc & Hle & Hok & Hr2 & Hother).
    exists pre, s, c, (post ++ [(r', opB)]). rewrite <-app_assoc. split_and!; [done..|].
    intros t1 later now op Hl Hop. eapply lost_claim_is_fenced; eauto.
Qed.

(** ** The constraints of the table *)

(** The values of a finalization meet the constraints of their columns. *)
Definition values_check (v : Values) : bool :=
  opt_all (fun id => 1 <=? id) (v_managed_comment_id v)
  && opt_all (opt_all (fun sha => str_length sha =? 40)) (v_publication_head_sha v)
  && opt_all (length_between 1 64) (v_last_transport_reason v)
  && opt_all (length_between 1 64) (v_publication_reason v)
  && opt_all (fun s => bool_decide (s ∈ PUBLICATION_STATES)) (v_publication_state v)
  && opt_all (fun s => bool_decide (s ∈ PUBLICATION_DECISIONS)) (v_publication_decision v).

(** [secrets.token_hex(32)] gives 64 digits. *)
Definition op_check (op : ClaimOp) : bool :=
  match op with
  | AcquireOp token | RenewOp token => str_length token =? 64
  | FinalizeOp _ v => values_check v
  end.

Lemma write_values_check v p :
  values_check v = true -> publication_check p = true -> publication_check (write_values v p) = true.
Proof.
  unfold values_check, publication_check, write_values. rewrite !andb_true_iff.
  destruct v as [? [c|] [st|] [d|] [h|] [t|] [r|] ? ?], p; cbn; tauto.
Qed.

(** No claim, renewal or finalization of a row within its constraints violates one, so
    none of these statements raises an [IntegrityError]. *)
Theorem claim_statements_keep_constraints id now op t row row' :
  op_check op = true -> t !! id = Some row -> row_check row = true ->
  (claim_op id now op t).2 !! id = Some row' ->
  match gr_claim row with Some c => claim_claimed_at c <= now | None => True end -> row_check row' = true.
Proof.
  unfold row_check. rewrite !andb_true_iff. intros Hop Hr ((Hi & Hp) & Hc) Hr' Hnow. unfold PUBLICATION_CLAIM_TTL in *.
  destruct op as [token|token|token v]; cbn [claim_op op_check] in *;
    unfold acquire_publication_claim, renew_publication_claim, finalize_publication_claim, holds_token in Hr';
    rewrite Hr in Hr'.
  - destruct (match gr_claim row with Some c => _ | None => _ end); cbn [snd] in Hr'.
    + rewrite lookup_insert_eq in Hr'. injection Hr' as <-. cbn. unfold claim_check. cbn. rewrite Hop.
      split_and!; [done| |by apply Z.ltb_lt; unfold PUBLICATION_CLAIM_TTL; lia].
      unfold publication_check in *. rewrite !andb_true_iff in *. cbn. tauto.
    + by simplify_eq.
  - destruct (gr_claim row) as [c|] eqn:Hcl; [|by cbn [snd] in Hr'; simplify_eq; rewrite Hcl]. case_bool_decide; [|by cbn [snd] in Hr'; simplify_eq; rewrite Hcl].
    destruct (now <? claim_expires_at c); cbn [snd] in Hr'; [|by cbn [snd] in Hr'; simplify_eq; rewrite Hcl].
    rewrite lookup_insert_eq in Hr'. injection Hr' as <-. cbn in *. unfold claim_check in *. cbn.
    apply andb_true_iff in Hc as [Hc _]. rewrite Hc. split_and!; [done..|]. apply Z.ltb_lt. unfold PUBLICATION_CLAIM_TTL. lia.
  - destruct (gr_claim row) as [c|] eqn:Hcl; [|by cbn [snd] in Hr'; simplify_eq; rewrite Hcl]. case_bool_decide; cbn [snd] in Hr';
      [|by cbn [snd] in Hr'; simplify_eq; rewrite Hcl].
    rewrite lookup_insert_eq in Hr'. injection Hr' as <-. cbn. split_and!; [done|by apply write_values_check|done].
Qed.
