(* ===== verification/GitHubPublication.v ===== *)
(** * What a publication does

    The effects of [publish], event by event, for every behaviour of GitHub and every
    interleaving with other processes ([Outside] is arbitrary): which writes it makes,
    what it has established before each of them, and what it reports.

    The proofs use a weakest-precondition calculus over the log: [wp m l Φ] says that
    running [m] from a state whose log is [l] ends with an outcome and a log in [Φ]. *)

From S2P Require Import Prelude Text Json Enums Catalog Evidence Documents Registry Capabilities Models Routing Repository Service Checks GitHub GitHubService.

(** ** The calculus *)

Definition wp {A} (m : GH A) (l : list GhEvent) (Φ : Result GhError A -> list GhEvent -> Prop) : Prop :=
  forall s r s', gs_log s = l -> m s = (r, s') -> Φ r (gs_log s').

Create HintDb wp discriminated.

Section rules.
Context (out : Outside).

Lemma wp_mono {A} (m : GH A) l (Φ Ψ : Result GhError A -> list GhEvent -> Prop) :
  wp m l Φ -> (forall r l', Φ r l' -> Ψ r l') -> wp m l Ψ.
Proof. intros Hm HΦ s r s' Hl Hrun. eauto. Qed.

Lemma wp_ret {A} (a : A) l Φ : Φ (Ok a) l -> wp (mret a) l Φ.
Proof. by intros HΦ s r s' <- [= <- <-]. Qed.

Lemma wp_raise {A} e l (Φ : Result GhError A -> _ -> Prop) : Φ (Err e) l -> wp (raise e) l Φ.
Proof. by intros HΦ s r s' <- [= <- <-]. Qed.

Lemma wp_bind {A B} (m : GH A) (k : A -> GH B) l Φ :
  wp m l (fun r l' => match r with Ok a => wp (k a) l' Φ | Err e => Φ (Err e) l' end) ->
  wp (m ≫= k) l Φ.
Proof.
  intros Hm s r s' Hl. unfold mbind, M_bind. destruct (m s) as [[a|e] s1] eqn:Hs; intros Hrun;
    specialize (Hm _ _ _ Hl Hs); cbn in Hm; [by eapply Hm|]. by injection Hrun as <- <-.
Qed.

Lemma wp_handle {A} (m : GH A) h l Φ :
  wp m l (fun r l' => match r with
                      | Ok a => Φ (Ok a) l'
                      | Err e => match h e with Some k => wp k l' Φ | None => Φ (Err e) l' end
                      end) ->
  wp (handle m h) l Φ.
Proof.
  intros Hm s r s' Hl. unfold handle. destruct (m s) as [[a|e] s1] eqn:Hs; intros Hrun;
    specialize (Hm _ _ _ Hl Hs); cbn in Hm; [by injection Hrun as <- <-|].
  destruct (h e); [by eapply Hm|]. by injection Hrun as <- <-.
Qed.

Lemma wp_ensure b e l (Φ : Result GhError unit -> _ -> Prop) :
  (b = true -> Φ (Ok tt) l) -> (b = false -> Φ (Err e) l) -> wp (ensure b e) l Φ.
Proof. destruct b; intros H1 H2; [apply wp_ret | apply wp_raise]; auto. Qed.

Lemma wp_require {A} (o : option A) e l (Φ : Result GhError A -> _ -> Prop) :
  (forall a, o = Some a -> Φ (Ok a) l) -> (o = None -> Φ (Err e) l) -> wp (require o e) l Φ.
Proof. destruct o; intros H1 H2; [apply wp_ret | apply wp_raise]; auto. Qed.

(** An operation happens and answers, or the task is cancelled, before it or after. *)
Lemma wp_atomic {A} f (event : Result GhError A -> option GhEvent) l Φ :
  Φ (Err Cancelled) l ->
  (forall r, let l' := l ++ match event r with Some e => [e] | None => [] end in
     Φ r l' /\ Φ (Err Cancelled) l') ->
  wp (atomic out f event) l Φ.
Proof.
  intros H0 HΦ s r s' <-. unfold atomic. destruct (f _ _) as [r1 [t w]].
  destruct (out_cancelled _ _) as [[]|]; intros [= <- <-]; [apply HΦ|done|apply HΦ].
Qed.

Lemma wp_remote {A} f (event : Result GhError A -> GhEvent) l Φ :
  Φ (Err Cancelled) l -> (forall r, Φ r (l ++ [event r]) /\ Φ (Err Cancelled) (l ++ [event r])) ->
  wp (remote out f event) l Φ.
Proof. intros H0 HΦ. apply wp_atomic; [done|]. intros r. apply HΦ. Qed.

Lemma wp_statement {A} f (event : A -> option GhEvent) l Φ :
  Φ (Err Cancelled) l ->
  (forall t, let l' := l ++ match event (f t).1 with Some e => [e] | None => [] end in
     Φ (Ok (f t).1) l' /\ Φ (Err Cancelled) l') ->
  wp (statement out f event) l Φ.
Proof.
  intros H0 HΦ s r s' <-. unfold statement, atomic. destruct (out_others _ _ _) as [t w].
  specialize (HΦ t). destruct (f t) as [a t'].
  destruct (out_cancelled _ _) as [[]|]; intros [= <- <-]; [apply HΦ|done|apply HΦ].
Qed.

Lemma wp_clock l Φ : (forall now, Φ (Ok now) l) -> wp (clock out) l Φ.
Proof. by intros HΦ s r s' <- [= <- <-]. Qed.

Lemma wp_token l Φ : (forall token, Φ (Ok token) l) -> wp (token_hex out) l Φ.
Proof. by intros HΦ s r s' <- [= <- <-]. Qed.

Lemma wp_if {A} (b : bool) (m1 m2 : GH A) l Φ :
  (b = true -> wp m1 l Φ) -> (b = false -> wp m2 l Φ) -> wp (if b then m1 else m2) l Φ.
Proof. destruct b; auto. Qed.

(** A computation that records nothing *)
Definition silent {A} (m : GH A) : Prop := forall l Φ, (forall r, Φ r l) -> wp m l Φ.

Lemma silent_bind {A B} (m : GH A) (k : A -> GH B) : silent m -> (forall a, silent (k a)) -> silent (m ≫= k).
Proof. intros Hm Hk l Φ HΦ. apply wp_bind, Hm. intros [a|e]; [by apply Hk|done]. Qed.

Lemma silent_ret {A} (a : A) : silent (mret a).
Proof. intros l Φ HΦ. by apply wp_ret. Qed.

Lemma silent_require {A} (o : option A) e : silent (require o e).
Proof. intros l Φ HΦ. by apply wp_require. Qed.

Lemma wp_execution {A} (m : exec A) l Φ :
  Φ (Err Cancelled) l ->
  (forall w, Φ (match (m w).1 with Ok a => Ok a | Err e => Err (ExecutionError e) end) l) ->
  wp (execution out m) l Φ.
Proof.
  intros H0 HΦ s r s' <-. unfold execution, observed, atomic. destruct (out_others _ _ _) as [t w].
  specialize (HΦ w). destruct (m w) as [a w'].
  destruct (out_cancelled _ _) as [[]|]; intros [= <- <-]; cbn; rewrite ?app_nil_r; done.
Qed.

Lemma silent_execution {A} (m : exec A) : silent (execution out m).
Proof. intros l Φ HΦ. apply wp_atomic; [done|]. intros r. rewrite app_nil_r. by split. Qed.

Lemma silent_read {A} (f : gmap Z GitHubRequest -> A * gmap Z GitHubRequest) :
  silent (statement out f (fun _ => None)).
Proof. intros l Φ HΦ. apply wp_statement; [done|]. intros t. rewrite app_nil_r. by split. Qed.
End rules.

#[export] Hint Resolve silent_bind silent_ret silent_require silent_execution silent_read : wp.

(** [step] applies the rule of the operation at the head of the goal. *)
Ltac step :=
  lazymatch goal with
  | |- wp (_ ≫= _) _ _ => apply wp_bind
  | |- wp (mret _) _ _ => apply wp_ret
  | |- wp (raise _) _ _ => apply wp_raise
  | |- wp (handle _ _) _ _ => apply wp_handle
  | |- wp (ensure _ _) _ _ => apply wp_ensure; intros ?
  | |- wp (require _ _) _ _ => apply wp_require; [intros ? ?|intros ?]
  | |- wp (clock _) _ _ => apply wp_clock; intros ?
  | |- wp (token_hex _) _ _ => apply wp_token; intros ?
  | |- wp (if _ then _ else _) _ _ => apply wp_if; intros ?
  end.

(** After a finalization the row does not carry the token, whether or not it did before. *)
Lemma finalized_not_held id token v t :
  token_held id token (finalize_publication_claim id token v t).2 = false.
Proof.
  unfold finalize_publication_claim, token_held. destruct (t !! id) as [r|] eqn:Hr; [|cbn; by rewrite Hr].
  destruct (holds_token token r) as [c|] eqn:Hc; cbn [snd]; [by rewrite lookup_insert_eq|].
  by rewrite Hr, Hc.
Qed.

(** ** Justified logs *)

(** Every event of the log satisfies [P] at the point where it happened. *)
Inductive justified (P : list GhEvent -> GhEvent -> Prop) : list GhEvent -> Prop :=
| justified_nil : justified P []
| justified_snoc l e : justified P l -> P l e -> justified P (l ++ [e]).

Lemma justified_at P l l1 e l2 : justified P l -> l = l1 ++ e :: l2 -> P l1 e.
Proof.
  intros Hj. revert l2. induction Hj as [|l x Hj IH Hx]; intros l2 Heq; [by destruct l1|].
  destruct l2 as [|y l2 _] using rev_ind.
  - apply app_inj_tail in Heq as [-> ->]. done.
  - rewrite app_comm_cons, app_assoc in Heq. apply app_inj_tail in Heq as [-> _]. by eapply IH.
Qed.

Definition is_creation (e : GhEvent) : Prop := match e with EvCreate _ _ _ _ => True | _ => False end.

Section publication.
Context (env : Env) (out : Outside) (request : GitHubRequest) (token : string).
Let i := gr_identity request.
Let repository := ri_repository_full_name i.

(** The comment carries the marker of the request, on its pull request, by [actor]. *)
Definition owned_comment (actor : GitHubActorIdentity) (c : GitHubComment) : Prop :=
  exists marker, managed_comment_marker (ri_idempotency_key i) = Some marker /\
    is_owned_managed_comment c actor i marker None = true.

(** What has been established before a comment with this body may be written: whose
    evidence it renders, the actor that requested the validation, and the pull request. *)
Record composed (l : list GhEvent) (actor : GitHubActorIdentity) (body : string) : Prop := {
  composed_actor : EvActor (Ok actor) ∈ l;
  composed_same_actor : same_actor_identity i actor = true;
  composed_body : exists run evidence pr,
    EvEvidence run (Ok (Some evidence)) ∈ l /\ is_terminal_run (run_status run) = true /\
    run_work_order_id run = ri_work_order_id i /\
    EvPullRequest repository (ri_pull_request_number i) (Ok pr) ∈ l /\ same_stable_identity i pr = true /\
    render_managed_comment i evidence (head_decision i pr).1 (head_decision i pr).2 = Some body;
}.

(** When an event is allowed. *)
Definition allowed (l : list GhEvent) (e : GhEvent) : Prop :=
  match e with
  | EvCreate repo number body _ =>
      repo = repository /\ number = ri_pull_request_number i /\ Forall (fun e' => ~ is_creation e') l /\
      (exists l0 now, l = l0 ++ [EvRenew (gr_id request) token now true]) /\
      exists actor listing, composed l actor body /\
        EvList repository (ri_pull_request_number i) (Ok listing) ∈ l /\ listing_complete listing = true /\
        Forall (fun c => ~ owned_comment actor c) (listing_comments listing)
  | EvUpdate repo id body _ =>
      repo = repository /\
      exists l0 now actor c,
        l = l0 ++ [EvGetComment repository id (Ok c); EvRenew (gr_id request) token now true] /\
        composed l actor body /\ owned_comment actor c /\ comment_id c = id
  | EvAcquire _ _ _ _ => l = []
  | EvRenew id tk _ _ => id = gr_id request /\ tk = token
  | EvFinalize id tk v _ _ =>
      id = gr_id request /\ tk = token /\ Forall (fun e' => match e' with EvFinalize _ _ _ _ _ => False | _ => True end) l /\
      (isSome (v_published_at v) = true ->
       exists actor pr c body l0,
         composed l actor body /\ EvPullRequest repository (ri_pull_request_number i) (Ok pr) ∈ l /\ owned_comment actor c /\
         (l = l0 ++ [EvUpdate repository (comment_id c) body (Ok c)] \/
          l = l0 ++ [EvCreate repository (ri_pull_request_number i) body (Ok c)]) /\
         v_managed_comment_id v = Some (comment_id c) /\ v_publication_head_sha v = Some (pr_head_sha pr) /\
         v_publication_state v =
           Some (if bool_decide (pr_head_sha pr = Some (ri_head_sha i)) then "published_current" else "published_stale"))
  | EvPullRequest repo number _ | EvList repo number _ =>
      repo = repository /\ number = ri_pull_request_number i
  | EvGetComment repo _ _ => repo = repository
  | EvActor _ | EvEvidence _ _ => True
  end.

Let J := justified allowed.

Lemma composed_prefix l l' actor body : l `prefix_of` l' -> composed l actor body -> composed l' actor body.
Proof.
  intros Hp [Ha Hs (run & ev & pr & He & Ht & Ho & Hpr & Hst & Hb)].
  assert (forall x, x ∈ l -> x ∈ l') as Hin by (destruct Hp as [k ->]; set_solver).
  constructor; [auto|done|]. exists run, ev, pr. auto 10.
Qed.

Lemma owned_with_id c actor marker id :
  managed_comment_marker (ri_idempotency_key i) = Some marker ->
  is_owned_managed_comment c actor i marker (Some id) = true -> owned_comment actor c /\ comment_id c = id.
Proof.
  intros Hm Ho. unfold is_owned_managed_comment in Ho. rewrite !andb_true_iff in Ho.
  destruct Ho as [Ho Hid]. cbn in Hid. apply Z.eqb_eq in Hid. split; [|done].
  exists marker. split; [done|]. unfold is_owned_managed_comment. rewrite !andb_true_iff. done.
Qed.

Lemma owned_by_marker c actor marker :
  managed_comment_marker (ri_idempotency_key i) = Some marker ->
  owned_comment actor c <-> is_owned_managed_comment c actor i marker None = true.
Proof.
  intros Hm. split; [|by exists marker]. intros (m' & Hm' & Ho). congruence.
Qed.

(** What every part of the writing promises: no finalization, the log justified and
    grown, and on success the comment written last, which is owned. *)
Definition no_finalize (l : list GhEvent) : Prop :=
  Forall (fun e' => match e' with EvFinalize _ _ _ _ _ => False | _ => True end) l.

Record progress (l l' : list GhEvent) : Prop := {
  progress_justified : J l';
  progress_prefix : l `prefix_of` l';
  progress_open : no_finalize l';
}.

Definition wrote (actor : GitHubActorIdentity) (body : string) (l : list GhEvent) (c : GitHubComment) : Prop :=
  owned_comment actor c /\ composed l actor body /\ exists l0,
    l = l0 ++ [EvUpdate repository (comment_id c) body (Ok c)] \/
    l = l0 ++ [EvCreate repository (ri_pull_request_number i) body (Ok c)].

Definition writing (actor : GitHubActorIdentity) (body : string) (l : list GhEvent)
    (r : Result GhError GitHubComment) (l' : list GhEvent) : Prop :=
  progress l l' /\ match r with Ok c => wrote actor body l' c | Err _ => True end.

Lemma progress_refl l : J l -> no_finalize l -> progress l l.
Proof. by constructor. Qed.

Lemma progress_snoc l l' e :
  progress l l' -> allowed l' e -> match e with EvFinalize _ _ _ _ _ => False | _ => True end ->
  progress l (l' ++ [e]).
Proof.
  intros [Hj Hp Ho] Ha Hf. constructor; [by constructor|by apply prefix_app_r|].
  apply Forall_app. split; [done|]. by apply Forall_singleton.
Qed.

Lemma progress_trans l l' l'' : progress l l' -> progress l' l'' -> progress l l''.
Proof. intros [_ Hp _] [Hj Hp' Ho]. constructor; [done|by etrans|done]. Qed.

(** ** The writes *)

Lemma wp_renew l l0 (Φ : Result GhError unit -> list GhEvent -> Prop) :
  progress l0 l ->
  (forall now, progress l0 (l ++ [EvRenew (gr_id request) token now true]) ->
     Φ (Ok tt) (l ++ [EvRenew (gr_id request) token now true])) ->
  (forall e l', progress l0 l' -> Φ (Err e) l') ->
  wp (renew_claim_for_write out request token) l Φ.
Proof.
  intros Hp Hok Herr. unfold renew_claim_for_write. step. step. step.
  apply wp_statement; [by apply Herr|]. intros t. generalize (renew_publication_claim (gr_id request) token now
    (now + PUBLICATION_CLAIM_TTL) t).1 as ok. intros ok. cbv beta iota zeta.
  assert (progress l0 (l ++ [EvRenew (gr_id request) token now ok])) as Hp' by by apply progress_snoc.
  split; [|by apply Herr]. step; [subst; auto|]. by apply Herr.
Qed.

Lemma wp_update l actor id marker body :
  J l -> no_finalize l -> composed l actor body ->
  managed_comment_marker (ri_idempotency_key i) = Some marker ->
  wp (update_verified_comment out request actor id marker body token) l (writing actor body l).
Proof.
  intros Hj Hnf Hc Hm. unfold update_verified_comment. step.
  apply wp_remote; [by split; [apply progress_refl|]|]. intros got.
  assert (progress l (l ++ [EvGetComment repository id got])) as Hp
    by (apply progress_snoc; [by apply progress_refl|done..]).
  split; [|by split]. destruct got as [got|e]; [|by split]. step. step; [|by split].
  edestruct owned_with_id as [Hown Hid]; [done..|]. step.
  eapply wp_renew; [done| |by split]. intros now Hp'. step.
  apply wp_remote; [by split|]. intros updated.
  assert (progress l (((l ++ [EvGetComment repository id (Ok got)]) ++ [EvRenew (gr_id request) token now true])
                      ++ [EvUpdate repository id body updated])) as Hp''.
  { apply progress_snoc; [done| |done]. split; [done|]. exists l, now, actor, got. rewrite <-app_assoc.
    split; [done|]. split; [|done]. eapply composed_prefix, Hc. by apply prefix_app_r. }
  split; [|by split]. destruct updated as [updated|e]; [|by split]. step. step; [|by split]. step. split; [done|].
  edestruct (owned_with_id updated) as [Hown' Hid']; [done..|]. split; [done|].
  split; [eapply composed_prefix, Hc; apply Hp''|]. eexists. left. by rewrite Hid'.
Qed.

(** A complete listing was read in which no comment is owned. *)
Definition none_owned (l : list GhEvent) (actor : GitHubActorIdentity) : Prop :=
  exists listing, EvList repository (ri_pull_request_number i) (Ok listing) ∈ l /\ listing_complete listing = true /\
    Forall (fun c => ~ owned_comment actor c) (listing_comments listing).

Lemma wp_recovery l l0 actor marker :
  progress l0 l -> managed_comment_marker (ri_idempotency_key i) = Some marker ->
  wp (unique_owned_recovery_candidate out request actor marker) l
    (fun r l' => progress l0 l' /\
       (l' = l \/ exists x, l' = l ++ [EvList repository (ri_pull_request_number i) x]) /\
       (r = Ok None -> none_owned l' actor)).
Proof.
  intros Hp Hm. unfold unique_owned_recovery_candidate. step.
  apply wp_remote; [by split_and!; eauto|]. intros r.
  assert (progress l0 (l ++ [EvList repository (ri_pull_request_number i) r])) as Hp' by by apply progress_snoc.
  split; [|by split_and!; eauto]. destruct r as [listing|e]; [|by split_and!; eauto].
  step. step; [|by split_and!; eauto]. step. step; [|by split_and!; eauto]. step.
  split; [done|]. split; [by eauto|]. intros [= Hnone]. exists listing.
  split; [set_solver|]. split; [done|]. apply Forall_forall. intros c Hc Ho.
  apply (owned_by_marker c actor marker Hm) in Ho.
  destruct (filter _ (listing_comments listing)) as [|x xs] eqn:Hf; [|done].
  assert (c ∈ filter (fun c => is_owned_managed_comment c actor i marker None = true) (listing_comments listing))
    as Hin by by apply list_elem_of_filter.
  unfold i in Hin. rewrite Hf in Hin. by apply elem_of_nil in Hin.
Qed.

Lemma wp_persisted l l0 actor marker :
  progress l0 l ->
  wp (persisted_comment out request actor marker) l
    (fun r l' => progress l0 l' /\ (l' = l \/ exists id x, l' = l ++ [EvGetComment repository id x])).
Proof.
  intros Hp. unfold persisted_comment. destruct (pub_managed_comment_id _) as [id|]; [|step; auto].
  step. step. apply wp_remote; [by eauto|]. intros r.
  assert (progress l0 (l ++ [EvGetComment repository id r])) as Hp' by by apply progress_snoc.
  split; [|by eauto]. destruct r as [c|e]; [step; eauto|]. destruct e as [k reason| | | |]; [|by eauto..].
  destruct (_ && _); [step|]; eauto.
Qed.

Definition no_creation (l : list GhEvent) : Prop := Forall (fun e' => ~ is_creation e') l.

Lemma wp_create l actor marker body :
  J l -> no_finalize l -> no_creation l -> none_owned l actor -> composed l actor body ->
  managed_comment_marker (ri_idempotency_key i) = Some marker ->
  wp (create_managed_comment out request actor marker body token) l (writing actor body l).
Proof.
  intros Hj Hnf Hnc (listing & Hl & Hcomplete & Hall) Hc Hm. unfold create_managed_comment. step.
  apply (wp_renew l l); [by apply progress_refl| |by split]. intros now Hp. step. step. step.
  apply wp_remote; [by split|]. intros r.
  assert (composed (l ++ [EvRenew (gr_id request) token now true]) actor body) as Hc'
    by (eapply composed_prefix, Hc; by apply prefix_app_r).
  assert (progress l ((l ++ [EvRenew (gr_id request) token now true])
                      ++ [EvCreate repository (ri_pull_request_number i) body r])) as Hp'.
  { apply progress_snoc; [done| |done]. split; [done|]. split; [done|]. split; [|split; [by eauto|]].
    - apply Forall_app. split; [done|]. apply Forall_singleton. by intros [].
    - exists actor, listing. split; [done|]. split; [set_solver|done]. }
  split; [|by split]. destruct r as [c|e].
  - step. step. step; [|by split]. step. split; [done|].
    split; [by exists marker|]. split; [|by eauto]. eapply composed_prefix, Hc. apply Hp'.
  - destruct e as [[] reason| | | |]; try by split. step.
    eapply wp_mono; [by apply (wp_recovery _ l)|]. cbv beta. intros r l' (Hp2 & _ & _).
    destruct r as [[c|]|e]; [|step; by split|by split]. step.
    eapply wp_mono; [apply wp_update; [apply Hp2..| |done]|].
    { eapply composed_prefix, Hc. apply Hp2. }
    intros r l2 [Hp3 Hw]. assert (progress l l2) by by eapply progress_trans.
    destruct r as [c'|e]; [|by split]. step. cbv beta iota. by step.
Qed.

Lemma wp_upsert l actor body :
  J l -> no_finalize l -> no_creation l -> composed l actor body ->
  wp (upsert_managed_comment out request body actor token) l (writing actor body l).
Proof.
  intros Hj Hnf Hnc Hc. pose proof (progress_refl l Hj Hnf) as Hp0. unfold upsert_managed_comment.
  step. step; [|by split]. rename H into Hm. step. step; [|by split]. step.
  eapply wp_mono; [by apply (wp_persisted _ l)|]. cbv beta. intros r l1 [Hp1 Hl1].
  assert (forall l', progress l l' -> composed l' actor body) as Hcomp.
  { intros l' Hp. eapply composed_prefix, Hc. apply Hp. }
  assert (forall l' id, progress l l' ->
    wp (update_verified_comment out request actor id a body token) l' (writing actor body l)) as Hupdate.
  { intros l' id Hp. eapply wp_mono; [apply wp_update; [apply Hp..|by apply Hcomp|done]|].
    intros r' l'' [Hp' Hw]. split; [by eapply progress_trans|done]. }
  destruct r as [[id|]|e]; [by apply Hupdate| |by split]. step.
  eapply wp_mono; [by apply (wp_recovery _ l)|]. cbv beta. intros r l2 (Hp2 & Hl2 & Hnone).
  destruct r as [[c|]|e]; [by apply Hupdate| |by split].
  eapply wp_mono; [apply wp_create; [apply Hp2..| |by apply Hnone|by apply Hcomp|done]|].
  - assert (no_creation l1) as Hnc1; [|destruct Hl2 as [->|[x ->]]; [done|];
      apply Forall_app; split; [done|apply Forall_singleton; by intros []]].
    destruct Hl1 as [->|(id & y & ->)]; [done|]. apply Forall_app. split; [done|].
    apply Forall_singleton; by intros [].
  - intros r' l'' [Hp' Hw]. split; [by eapply progress_trans|done].
Qed.

(** ** The publication *)

(** Before anything is written *)
Definition reading (l : list GhEvent) : Prop := J l /\ no_finalize l /\ no_creation l.

Definition read_only (e : GhEvent) : bool :=
  match e with EvEvidence _ _ | EvActor _ => true
  | EvPullRequest repo number _ => bool_decide (repo = repository) && (number =? ri_pull_request_number i)
  | _ => false end.

Lemma reading_snoc l e : reading l -> read_only e = true -> reading (l ++ [e]).
Proof.
  intros (Hj & Hf & Hc) He. split; [constructor; [done|]; destruct e; try done|].
  { apply andb_true_iff in He as [?%bool_decide_eq_true ?%Z.eqb_eq]. done. }
  split; apply Forall_app; (split; [done|]); apply Forall_singleton; [by destruct e|].
  destruct e; try done; by intros [].
Qed.

Definition read_evidence (l : list GhEvent) (found : Run * ExecutionEvidence) : Prop :=
  EvEvidence found.1 (Ok (Some found.2)) ∈ l /\ is_terminal_run (run_status found.1) = true /\
  run_work_order_id found.1 = ri_work_order_id i.

Lemma wp_first_evidence runs l :
  Forall (fun run => run_work_order_id run = ri_work_order_id i) runs -> reading l ->
  wp (first_terminal_evidence env out runs) l
    (fun r l' => reading l' /\ l `prefix_of` l' /\
       match r with Ok (Some found) => read_evidence l' found | _ => True end).
Proof.
  intros Hruns. revert l. induction Hruns as [|run runs Hrun Hruns IH]; intros l Hl;
    cbn [first_terminal_evidence]; [by step|].
  step; [|by apply IH]. step. apply wp_atomic; [done|]. intros r. cbv beta iota zeta.
  assert (reading (l ++ [EvEvidence run r])) as Hl' by by apply reading_snoc.
  assert (l `prefix_of` l ++ [EvEvidence run r]) as Hp by by apply prefix_app_r.
  split; [|done]. destruct r as [[e|]|e]; [step| |done].
  - split; [done|]. split; [done|]. split; [set_solver|done].
  - eapply wp_mono; [by apply IH|]. cbv beta. intros r l' (Hr & Hp' & Hm). split; [done|]. split; [by etrans|done].
Qed.

Lemma wp_terminal_evidence l :
  reading l ->
  wp (terminal_evidence env out request) l
    (fun r l' => reading l' /\ l `prefix_of` l' /\
       match r with Ok found => read_evidence l' found | Err _ => True end).
Proof.
  intros Hl. unfold terminal_evidence. step. apply wp_execution; [done|]. intros w.
  cbn [list_runs Repository.list_runs from_db gets fst]. fold i. step.
  eapply wp_mono.
  { apply wp_first_evidence; [|done]. apply Forall_forall. intros run Hrun.
    rewrite elem_of_reverse in Hrun. apply list_elem_of_filter in Hrun as [Hrun _]. by apply Z.eqb_eq in Hrun. }
  cbv beta. intros [[found|]|e] l' Hr; [| |done].
  - step; [by simplify_eq|done].
  - by step.
Qed.

Lemma wp_attempt {A} (f : nat -> Result GhError A) event l :
  (forall r, read_only (event r) = true) -> reading l ->
  wp (attempt (remote out f event)) l
    (fun r l' => reading l' /\ l `prefix_of` l' /\
       match r with Ok (inr a) => event (Ok a) ∈ l' | _ => True end).
Proof.
  intros He Hl. unfold attempt. step. step. apply wp_remote; [done|]. intros r.
  assert (reading (l ++ [event r]) /\ l `prefix_of` l ++ [event r]) as Hl'
    by (split; [by apply reading_snoc|by apply prefix_app_r]).
  split; [|naive_solver].
  destruct r as [a|[k reason| | | |]]; [step; split_and!; set_solver|step|..]; naive_solver.
Qed.

Lemma silent_status r reason : silent (status env out r reason).
Proof. unfold status. repeat (apply silent_bind; [apply silent_execution|intros ?]). apply silent_ret. Qed.

Lemma wp_get_request id l Φ :
  (forall r, match r with
             | Ok row => gr_id row = id
             | Err e => e = AdapterError RequestNotFound "github_request_not_found" \/ e = Cancelled
             end -> Φ r l) ->
  wp (get_request out id) l Φ.
Proof.
  intros HΦ. unfold get_request. step. apply wp_statement; [by apply HΦ; right|].
  intros t. cbv zeta. rewrite app_nil_r. split; [|by apply HΦ; right]. cbn [fst]. unfold select_request.
  destruct (t !! id) as [row|]; [cbn; destruct (Z.eqb_spec (gr_id row) id)|]; step; simplify_eq; apply HΦ; auto.
Qed.

Lemma silent_get_request id : silent (get_request out id).
Proof. apply silent_bind; [apply silent_read|intros ?; apply silent_require]. Qed.

(** The log after the one finalization of a publication *)
Definition settled (l : list GhEvent) : Prop :=
  J l /\ exists l0 v ok, l = l0 ++ [EvFinalize (gr_id request) token v ok false].

(** Nothing has been finalized before the last event of a settled log. *)
Lemma settled_before l l1 e l2 : settled l -> l = l1 ++ e :: l2 -> no_finalize l1.
Proof.
  intros (Hj & l0 & v & ok & ->) Heq.
  pose proof (justified_at _ _ l0 _ [] Hj eq_refl) as (_ & _ & Hf & _).
  destruct l2 as [|x l2 _] using rev_ind.
  - by apply app_inj_tail in Heq as [-> _].
  - rewrite app_comm_cons, app_assoc in Heq. apply app_inj_tail in Heq as [-> _].
    by apply Forall_app in Hf as [Hf _].
Qed.

Lemma wp_finalize l id tk v Φ :
  Φ (Err Cancelled) l ->
  (forall ok, let l' := l ++ [EvFinalize id tk v ok false] in Φ (Ok ok) l' /\ Φ (Err Cancelled) l') ->
  wp (finalize out id tk v) l Φ.
Proof.
  intros H0 HΦ. unfold finalize. step. apply wp_statement; [done|]. intros t.
  pose proof (finalized_not_held id tk v t) as Hheld.
  destruct (finalize_publication_claim id tk v t) as [ok t']. cbn [fst snd] in *. cbv beta iota zeta.
  rewrite Hheld. split; [|apply HΦ]. step. apply HΦ.
Qed.

Lemma wp_finalize_claim l v :
  J l -> no_finalize l -> allowed l (EvFinalize (gr_id request) token v true false) ->
  wp (finalize_claim env out request token v) l
    (fun r l' => l `prefix_of` l' /\ (settled l' \/ (J l' /\ no_finalize l' /\ exists e, r = Err e))).
Proof.
  intros Hj Hf Ha. unfold finalize_claim. step. apply wp_finalize; [by eauto 10|]. intros ok. cbv zeta.
  assert (settled (l ++ [EvFinalize (gr_id request) token v ok false])) as Hs by (split; [by constructor|eauto]).
  assert (l `prefix_of` l ++ [EvFinalize (gr_id request) token v ok false]) as Hp by by apply prefix_app_r.
  split; [|by eauto].
  apply silent_bind; [apply silent_get_request|intros ?; apply silent_status|by eauto].
Qed.

Lemma unpublished_allowed l v :
  no_finalize l -> v_published_at v = None -> allowed l (EvFinalize (gr_id request) token v true false).
Proof. intros Hf Hv. cbn. rewrite Hv. done. Qed.

Lemma head_decision_current pr :
  bool_decide ((head_decision i pr).1 = "current") = bool_decide (pr_head_sha pr = Some (ri_head_sha i)).
Proof.
  unfold head_decision. destruct (pr_head_sha pr) as [sha|]; [|done].
  destruct (decide (sha = ri_head_sha i)) as [->|Hne]; [by rewrite !(bool_decide_eq_true_2 _ eq_refl)|].
  rewrite !(bool_decide_eq_false_2 (_ = ri_head_sha i)) by done. cbn. symmetry. apply bool_decide_eq_false_2. congruence.
Qed.

(** A publication ends with its finalization, or with an error before it. *)
Definition concluded (l0 : list GhEvent) (r : Result GhError GitHubRequestStatus) (l : list GhEvent) : Prop :=
  l0 `prefix_of` l /\ (settled l \/ (J l /\ no_finalize l /\ exists e, r = Err e)).

Lemma concluded_early l0 l e : l0 `prefix_of` l -> J l /\ no_finalize l -> concluded l0 (Err e) l.
Proof. intros Hp [Hj Hf]. split; [done|]. right. eauto. Qed.

Lemma wp_settle l0 l v :
  l0 `prefix_of` l -> J l -> no_finalize l -> v_published_at v = None ->
  wp (finalize_claim env out request token v) l (concluded l0).
Proof.
  intros Hp Hj Hf Hv. eapply wp_mono; [apply wp_finalize_claim; [done..|by apply unpublished_allowed]|].
  cbv beta. intros r l' [Hp' Hs]. split; [by etrans|done].
Qed.

Lemma wp_write l evidence decision reason actor :
  reading l ->
  (forall body, render_managed_comment i evidence decision reason = Some body -> composed l actor body) ->
  wp (write_comment out request evidence decision reason actor token) l
    (fun r l' => J l' /\ no_finalize l' /\ l `prefix_of` l' /\
       match r with Ok (inr c) => exists body, wrote actor body l' c | _ => True end).
Proof.
  intros (Hj & Hf & Hc) Hbody. unfold write_comment. step. step. step; [|by step].
  step. eapply wp_mono; [by apply wp_upsert; [..|apply Hbody]|]. intros r l' [[Hj' Hp Hf'] Hw].
  destruct r as [c|[k r| | | |]]; try step; split_and!; eauto.
Qed.

Lemma wp_publish_resolved l0 l run evidence actor pr :
  l0 `prefix_of` l -> reading l -> EvActor (Ok actor) ∈ l -> same_actor_identity i actor = true ->
  read_evidence l (run, evidence) -> EvPullRequest repository (ri_pull_request_number i) (Ok pr) ∈ l ->
  wp (publish_resolved env out request token (run_id run) evidence actor pr) l (concluded l0).
Proof.
  intros Hp0 Hl Ha Hsame (He & Hterm & Horder) Hpr. unfold publish_resolved. step. step.
  step; [by apply wp_settle; [|apply Hl..|]|]. apply negb_false_iff in H.
  destruct (head_decision (gr_identity request) pr) as [decision reason] eqn:Hd. step.
  eapply wp_mono.
  { apply (wp_write l evidence decision reason actor Hl). intros body Hb. constructor; [done|done|].
    exists run, evidence, pr. unfold i. rewrite Hd. auto 10. }
  cbv beta. intros r l' (Hj & Hf & Hp & Hw). assert (l0 `prefix_of` l') as Hp' by by etrans.
  destruct r as [[[r|]|c]|e]; [by apply wp_settle..| |by apply concluded_early].
  destruct Hw as (body & Hown & Hcomp & l1 & Hl1). step. step.
  eapply wp_mono; [apply wp_finalize_claim; [done..|]|cbv beta; intros r l2 [Hp2 Hs]; split; [by etrans|done]].
  split; [done|]. split; [done|]. split; [done|]. intros _. exists actor, pr, c, body, l1.
  split; [done|]. split; [destruct Hp as [k ->]; set_solver|]. split_and!; [done..|]. cbn.
  rewrite <-head_decision_current. unfold i. by rewrite Hd.
Qed.

Lemma actor_accepted actor : actor_identity_failure_reason i actor = None -> same_actor_identity i actor = true.
Proof.
  unfold actor_identity_failure_reason. destruct (ri_github_actor_id i), (ri_github_actor_node_id i); try done.
  by destruct (same_actor_identity i actor).
Qed.

Lemma wp_publish_claimed l : reading l -> wp (publish_claimed env out request token) l (concluded l).
Proof.
  intros Hl. unfold publish_claimed. step. eapply wp_mono; [by apply wp_terminal_evidence|].
  cbv beta. intros [[run evidence]|e] l1 (Hl1 & Hp1 & He); [|by apply concluded_early; [|split; apply Hl1]].
  step. eapply wp_mono; [by apply wp_attempt|]. cbv beta.
  intros [[reason|actor]|e] l2 (Hl2 & Hp2 & Ha); assert (l `prefix_of` l2) as Hp02 by (by etrans);
    [by apply wp_settle; [|apply Hl2..|]| |by apply concluded_early; [|split; apply Hl2]].
  destruct (actor_identity_failure_reason _ actor) as [reason|] eqn:Hactor; [by apply wp_settle; [|apply Hl2..|]|].
  step. eapply wp_mono.
  { apply wp_attempt; [|exact Hl2]. intros r. cbn. by rewrite bool_decide_eq_true_2, Z.eqb_refl. }
  cbv beta. intros [[reason|pr]|e] l3 (Hl3 & Hp3 & Hpr); assert (l `prefix_of` l3) as Hp03 by (by etrans);
    [by apply wp_settle; [|apply Hl3..|]| |by apply concluded_early; [|split; apply Hl3]].
  assert (forall x, x ∈ l1 -> x ∈ l3) as H13 by (destruct Hp2 as [k ->], Hp3 as [k' ->]; set_solver).
  apply wp_publish_resolved; [done|done|destruct Hp3 as [k ->]; set_solver|by apply actor_accepted| |done].
  destruct He as [He Ht]. split; [by apply H13|done].
Qed.
End publication.

(** C28. Every event of a publication is allowed where it happens, whatever GitHub answers,
    whatever other processes do and wherever the task is cancelled: it reads and writes
    only in the repository of the request; a comment is created (on the pull request of
    the request) or updated only right after the publication renewed its claim, for the
    actor that requested the validation and a pull request resolved with the identity of
    the requested one, with the rendering of the evidence of a terminal run of its work order; it updates
    only a comment it has just read, which is on that pull request and which it owns,
    creates at most one and only after a complete listing of the pull request without an
    owned comment; it records a publication only right after the write it records, as
    current exactly when the resolved head is the tested commit; and nothing follows the
    finalization of its claim. *)
Theorem publication_justified env out request token s r s' :
  gs_log s = [] -> publish_claimed env out request token s = (r, s') ->
  forall l1 e l2, gs_log s' = l1 ++ e :: l2 -> allowed request token l1 e /\ no_finalize l1.
Proof.
  intros Hs Hrun l1 e l2 Hlog.
  assert (reading request token []) as Hempty by (split_and!; constructor).
  destruct (wp_publish_claimed env out request token [] Hempty s r s' Hs Hrun) as [_ Hend].
  split; [eapply justified_at, Hlog; by destruct Hend as [[Hj _]|[Hj _]]|].
  destruct Hend as [Hsettled|(_ & Hf & _)]; [by eapply settled_before|].
  rewrite Hlog in Hf. by apply Forall_app in Hf as [Hf _].
Qed.

(** How a call of [publish] may end: the request is unknown, or the call was cancelled
    before it did anything; another publication holds the claim, and this one did nothing;
    this one took the claim and gave it up as its last act: the row of the request does
    not carry its token any more; the request disappeared right after it was claimed; or
    the task was cancelled. *)
Inductive publish_outcome (id : Z) (r : Result GhError GitHubRequestStatus) : list GhEvent -> Prop :=
| publish_unknown :
    r = Err (AdapterError RequestNotFound "github_request_not_found") \/ r = Err Cancelled ->
    publish_outcome id r []
| publish_busy token now : publish_outcome id r [EvAcquire id token now false]
| publish_vanished token now :
    r = Err (AdapterError RequestNotFound "github_request_not_found") ->
    publish_outcome id r [EvAcquire id token now true]
| publish_released token now l v ok :
    publish_outcome id r (EvAcquire id token now true :: l ++ [EvFinalize id token v ok false])
| publish_cancelled token now l :
    r = Err Cancelled -> publish_outcome id r (EvAcquire id token now true :: l).

Lemma settled_released r request token id now l :
  settled request token l -> gr_id request = id -> [EvAcquire id token now true] `prefix_of` l ->
  publish_outcome id r l.
Proof.
  intros (_ & l0 & v & ok & ->) -> [k Hk]. destruct l0 as [|e l0]; [by destruct k|].
  injection Hk as -> Hk. cbn. constructor.
Qed.

(** C30. A publication does not keep its claim: once [publish] has taken the claim on a
    request, its last effect is to finalize that claim, after which the row of the request
    does not carry the token, on success and on every error, unless the task is cancelled
    (an [asyncio.CancelledError] passes the handlers, and the claim is left to expire) or
    the request disappears right after it was claimed; a [publish] that does not get the
    claim calls nothing and writes nothing. *)
Theorem publish_releases env out request_id s r s' :
  gs_log s = [] -> publish env out request_id s = (r, s') -> publish_outcome request_id r (gs_log s').
Proof.
  intros Hs Hrun. revert s r s' Hs Hrun.
  fold (wp (publish env out request_id) [] (publish_outcome request_id)).
  unfold publish. step. apply wp_get_request. intros [found|e] Hfound; [|constructor; naive_solver].
  rewrite Hfound. step. step. step. step. step. apply wp_statement; [by constructor; right|].
  intros t. generalize (acquire_publication_claim request_id token now (now + PUBLICATION_CLAIM_TTL) t).1 as ok.
  intros ok. cbv beta iota zeta. split; [|destruct ok; by constructor]. step.
  apply wp_get_request. intros [request|e] Hid; [|destruct ok; [destruct Hid as [->| ->]|]; by constructor].
  destruct ok; cbn [negb]; [|apply silent_status; intros; constructor].
  step. eapply wp_mono; [apply wp_publish_claimed|].
  { split_and!; [apply (justified_snoc _ []); [constructor|done]|by repeat constructor|].
    apply Forall_singleton. by intros []. }
  cbv beta. intros r l [Hp Hend]. destruct r as [rs|e].
  - destruct Hend as [Hs|(_ & _ & e & [=])]. by eapply settled_released.
  - destruct Hp as [k ->].
    destruct e; try (by apply publish_cancelled);
      step; apply wp_finalize; try (by apply publish_cancelled); intros ok; cbv zeta;
      (split; [step|]); rewrite <-app_assoc; apply (publish_released _ _ _ _ k).
Qed.
