(* ===== verification/GitHubRequests.v ===== *)
(** * Requests of the GitHub adapter

    What an idempotency key stands for, what [request_validation] hands out for it, and
    that the table of requests keeps one row per key and per work order whatever
    statements run against it. *)

From S2P Require Import Prelude Text Json Enums Catalog Evidence Floats JsonCodec Documents Fingerprints Registry Capabilities Models Routing Repository Service Checks GitHub GitHubService GitHubProofs GitHubPublication.

(** ** Keys *)

(** The stable identity that a key covers *)
Record KeyedIdentity := {
  ki_api_url : string;
  ki_actor : GitHubActorIdentity;
  ki_repository : Z * string;
  ki_pull_request : Z * string;
  ki_head_sha : string;
  ki_manifest : string * string * string;
}.

Definition keyed_identity (settings : GitHubSettings) (actor : GitHubActorIdentity) (r : ResolvedPullRequest)
    (head_sha : string) (m : TrustedManifest) : KeyedIdentity :=
  {| ki_api_url := gh_api_url settings; ki_actor := actor;
     ki_repository := (pr_repository_id r, pr_repository_node_id r);
     ki_pull_request := (pr_pull_request_id r, pr_pull_request_node_id r);
     ki_head_sha := head_sha; ki_manifest := (tm_name m, tm_version m, tm_digest m) |}.

Lemma policy_inj p q :
  canon (json_opt JInt (rp_maximum_cost p)) = canon (json_opt JInt (rp_maximum_cost q)) ->
  canon (json_opt JStr (rp_preferred p)) = canon (json_opt JStr (rp_preferred q)) ->
  rp_required_quota p = rp_required_quota q ->
  reuse_policy_value (rp_reuse p) = reuse_policy_value (rp_reuse q) ->
  routing_policy_value (rp_routing p) = routing_policy_value (rp_routing q) -> p = q.
Proof.
  destruct p as [reuse routing c n pf], q as [reuse' routing' c' n' pf']. cbn. intros Hc Hp -> Hr Hro.
  apply (json_opt_inj always JInt) in Hc; [|by destruct c, c'..].
  apply (json_opt_inj always JStr) in Hp; [|by destruct pf, pf'..]. subst.
  destruct reuse, reuse'; try done; destruct routing, routing'; done.
Qed.

Section keys.
Context (settings : GitHubSettings).

Lemma key_payload_wf actor r h m p : wf (key_payload settings actor r h m p).
Proof. unfold key_payload, identity_members. cbn [app]. wf_object. unfold policy_object. wf_object. Qed.

Lemma key_payload_inj actor r h m p actor' r' h' m' p' :
  canon (key_payload settings actor r h m p) = canon (key_payload settings actor' r' h' m' p') ->
  keyed_identity settings actor r h m = keyed_identity settings actor' r' h' m' /\ p = p'.
Proof.
  unfold key_payload, identity_members. cbn [app]. intros H.
  apply canon_values in H; [|literal_keys|reflexivity].
  cbn [map fmap list_fmap snd] in H. injection H as.
  split; [|by apply policy_inj]. unfold keyed_identity. destruct actor, actor'. cbn in *. congruence.
Qed.
End keys.

(** An idempotency key stands for one request: two requests with the same key are for
    the same actor, repository, pull request, head commit and manifest under the same
    execution policy, unless two different texts with the same SHA-256 have been found. *)
Theorem request_key_identifies settings actor r h m p actor' r' h' m' p' :
  idempotency_key settings actor r h m p = idempotency_key settings actor' r' h' m' p' ->
  (keyed_identity settings actor r h m = keyed_identity settings actor' r' h' m' /\ p = p') \/
  collision (dumps true (key_payload settings actor r h m p)) (dumps true (key_payload settings actor' r' h' m' p')).
Proof.
  intros Hk. destruct (decide (dumps true (key_payload settings actor r h m p)
                               = dumps true (key_payload settings actor' r' h' m' p'))) as [Heq|]; [left|by right].
  apply key_payload_inj, (same_text true); auto using key_payload_wf.
Qed.

(** ** What a request is answered with *)

Definition requested_key (settings : GitHubSettings) (p : RequestPolicy) (actor : GitHubActorIdentity)
    (pr : ResolvedPullRequest) (head_sha : string) (m : TrustedManifest) (key : string) : Prop :=
  key = idempotency_key settings actor pr head_sha m p \/
  (uses_legacy_default_policy p = true /\ key = legacy_idempotency_key settings actor pr head_sha m).

Lemma get_by_key key t r : get_by_idempotency_key key t = Some r -> ri_idempotency_key (gr_identity r) = key.
Proof.
  unfold get_by_idempotency_key. intros Hr. apply head_Some_elem_of in Hr.
  by apply list_elem_of_filter in Hr as [Hk _].
Qed.

Lemma create_request_key identity publication t r t' :
  create_request identity publication t = Some (r, t') -> gr_identity r = identity.
Proof. unfold create_request. destruct (row_check _); [|done]. destruct (existsb _ _); [done|]. by intros [= <- <-]. Qed.

Section validation.
Context (env : Env) (settings : GitHubSettings) (out : Outside).

Definition row_key (r : GitHubRequest) : string := ri_idempotency_key (gr_identity r).

Lemma wp_find_request key legacy l :
  wp (find_request out key legacy) l
    (fun r l' => l' = l /\ match r with
       | Ok (Some row) => row_key row = key \/ legacy = Some (row_key row)
       | _ => True end).
Proof.
  unfold find_request. step. apply wp_statement; [done|]. intros t. cbv zeta. rewrite app_nil_r. split; [|done].
  cbn [fst]. destruct (get_by_idempotency_key key t) as [row|] eqn:Hk.
  { destruct legacy; step; eauto using get_by_key. }
  destruct legacy as [legacy|]; [|by step]. apply wp_statement; [done|]. intros t'. cbv zeta. rewrite app_nil_r.
  split; [|done]. cbn [fst]. split; [done|]. destruct (get_by_idempotency_key legacy t') as [row|] eqn:Hl; [|done].
  right. apply get_by_key in Hl. by rewrite <-Hl.
Qed.

Lemma wp_create_both draft identity now key l :
  (forall id, ri_idempotency_key (identity id) = key) ->
  wp (create_both env out draft identity now) l
    (fun r l' => l' = l /\ match r with Ok (Some row) => row_key row = key | _ => True end).
Proof.
  intros Hkey s r s' <-. unfold create_both, atomic. destruct (out_others _ _ _) as [t w].
  destruct (create_work_order env draft w) as [[order|e] w'].
  - destruct (create_request _ _ t) as [[row t']|] eqn:Hc; destruct (out_cancelled _ _) as [[]|];
      intros [= <- <-]; cbn; rewrite ?app_nil_r; try done.
    split; [done|]. unfold row_key. by rewrite (create_request_key _ _ _ _ _ Hc).
  - destruct e; destruct (out_cancelled _ _) as [[]|]; intros [= <- <-]; cbn; by rewrite ?app_nil_r.
Qed.

Lemma wp_status_request row reason l :
  wp (status env out row reason) l
    (fun r l' => match r with Ok st => l' = l /\ rs_request st = row | Err _ => True end).
Proof.
  unfold status. do 3 (step; apply silent_execution; intros [?|?]; [|done]). by step.
Qed.

(** The lookup, the creation and the second lookup, for one pair of keys *)
Lemma wp_answer key legacy draft identity l Φ :
  (forall id, ri_idempotency_key (identity id) = key) ->
  (forall r l', match r with
                | Ok st => l' = l /\ (row_key (rs_request st) = key \/ legacy = Some (row_key (rs_request st)))
                | Err _ => True end -> Φ r l') ->
  wp (existing ← find_request out key legacy;
      match existing with
      | Some request => status env out request None
      | None =>
          now ← clock out;
          created ← create_both env out draft identity now;
          match created with
          | Some request => status env out request None
          | None =>
              recovered ← find_request out key legacy;
              match recovered with
              | Some request => status env out request None
              | None => raise (ExecutionError IntegrityError)
              end
          end
      end) l Φ.
Proof.
  intros Hkey HΦ.
  assert (forall row, row_key row = key \/ legacy = Some (row_key row) -> wp (status env out row None) l Φ) as Hrow.
  { intros row Hrow. eapply wp_mono; [apply wp_status_request|]. intros r l' Hr. apply HΦ.
    destruct r; [destruct Hr as [-> ->]; auto|done]. }
  step. eapply wp_mono; [apply wp_find_request|]. intros [[row|]|e] l' [-> Hr]; [by apply Hrow| |by apply HΦ].
  step. step. step. eapply wp_mono; [by apply wp_create_both|].
  intros [[row|]|e] l' [-> Hr2]; [apply Hrow; by left| |by apply HΦ].
  step. eapply wp_mono; [apply wp_find_request|].
  intros [[row|]|e] l' [-> Hr3]; [by apply Hrow|step|]; by apply HΦ.
Qed.
End validation.

(** Every check of [request_validation] that precedes its answer. *)
Record answered (env : Env) (settings : GitHubSettings) (repository : string) (number : Z) (name version : string) (p : RequestPolicy)
    (l : list GhEvent) (row : GitHubRequest) : Prop := {
  answered_repository : repository ∈ TRUSTED_REPOSITORIES (env_repositories env);
  answered_allowed : repository_allows_manifest (env_repositories env) repository name version = Ok true;
  answered_key : exists m actor pr head_sha,
    get_trusted_manifest (env_manifests env) name version = Some m /\
    l = [EvActor (Ok actor); EvPullRequest repository number (Ok pr)] /\ pr_head_sha pr = Some head_sha /\
    lower (pr_repository_full_name pr) = lower repository /\
    requested_key settings p actor pr head_sha m (row_key row);
}.

(** A validation request is answered only for a trusted repository and a manifest it
    allows, and with the request row of exactly what GitHub resolved: its actor, pull
    request and head commit, under the requested policy, whether the row was found,
    created, or lost to a concurrent request and found again. *)
Theorem validation_answer env settings out repository number name version p s st s' :
  gs_log s = [] ->
  request_validation env settings out repository number name version p s = (Ok st, s') ->
  answered env settings repository number name version p (gs_log s') (rs_request st).
Proof.
  intros Hs Hrun.
  cut (wp (request_validation env settings out repository number name version p) []
         (fun r l => match r with Ok st => answered env settings repository number name version p l (rs_request st)
                     | Err _ => True end)).
  { intros Hwp. by apply (Hwp s (Ok st) s'). }
  clear s st s' Hs Hrun. unfold request_validation.
  step. step; [|done]. apply bool_decide_eq_true in H as Hrepo. step. step; [|done]. rename H0 into Hmanifest.
  step. destruct (repository_allows_manifest _ _ _ _) as [[]|] eqn:Hallowed; [step|by step..].
  step. apply wp_remote; [done|]. intros [actor|]; (split; [|done]); [|done].
  step. apply wp_remote; [done|]. intros [pr|]; (split; [|done]); [|done].
  step. destruct (pr_head_sha pr) as [head|] eqn:Hhead; [|by step].
  destruct (pr_head_repository_full_name pr) as [head_repo|]; [|by step].
  destruct (pr_head_repository_id pr) as [head_id|]; [|by step].
  step; [|by step]. match goal with H : bool_decide _ = true |- _ => apply bool_decide_eq_true in H as Hname end.
  step. cbn [app].
  apply wp_answer; [done|]. intros [st|] l; [intros [-> Hkey]|done]. constructor; [done..|].
  exists a, actor, pr, head. split_and!; [done..|].
  unfold requested_key. destruct (uses_legacy_default_policy p), Hkey; naive_solver.
Qed.

(** ** The table of requests *)

(** What the adapter, in any process, does to the table *)
Inductive TableStatement :=
| CreateStatement (identity : RequestIdentity) (publication : Publication)
| ClaimStatement (id now : Z) (op : ClaimOp).

Definition table_statement (t : gmap Z GitHubRequest) (stmt : TableStatement) : gmap Z GitHubRequest :=
  match stmt with
  | CreateStatement identity publication =>
      match create_request identity publication t with Some (_, t') => t' | None => t end
  | ClaimStatement id now op => (claim_op id now op t).2
  end.

Record table_ok (t : gmap Z GitHubRequest) : Prop := {
  table_ids id r : t !! id = Some r -> gr_id r = id;
  table_keys id id' r r' : t !! id = Some r -> t !! id' = Some r' -> row_key r = row_key r' -> id = id';
  table_orders id id' r r' : t !! id = Some r -> t !! id' = Some r' ->
    ri_work_order_id (gr_identity r) = ri_work_order_id (gr_identity r') -> id = id';
}.

(** A claim statement changes neither the identity nor the number of any row. *)
Lemma claim_op_rows id now op t id' r' :
  (claim_op id now op t).2 !! id' = Some r' ->
  exists r, t !! id' = Some r /\ gr_id r' = gr_id r /\ gr_identity r' = gr_identity r.
Proof.
  assert (forall c p r, t !! id = Some r -> <[id := with_claim c p r]> t !! id' = Some r' ->
    exists r, t !! id' = Some r /\ gr_id r' = gr_id r /\ gr_identity r' = gr_identity r) as Hinsert.
  { intros c p r Hr [[<- <-]|[_ Hr']]%lookup_insert_Some; eauto. }
  destruct op; cbn [claim_op];
    unfold acquire_publication_claim, renew_publication_claim, finalize_publication_claim;
    (destruct (t !! id) as [r|] eqn:Hr; [|cbn; eauto]); repeat case_match; cbn [snd]; eauto.
Qed.

Lemma table_create identity publication t :
  table_ok t -> table_ok (table_statement t (CreateStatement identity publication)).
Proof.
  intros [Hids Hkeys Horders]. cbn [table_statement]. unfold create_request.
  destruct (row_check _); [cbn [negb]|by constructor].
  destruct (existsb _ _) eqn:Hfree; [by constructor|]. cbv beta iota.
  assert (forall id r, t !! id = Some r -> row_key r <> ri_idempotency_key identity /\
            ri_work_order_id (gr_identity r) <> ri_work_order_id identity) as Hnew.
  { intros id r Hr. rewrite existsb_false in Hfree.
    assert (r ∈ (map_to_list t).*2) as Hin by (apply list_elem_of_fmap; exists (id, r); by rewrite elem_of_map_to_list).
    rewrite Forall_forall in Hfree. specialize (Hfree r Hin). apply orb_false_iff in Hfree as [Hk%bool_decide_eq_false Ho%Z.eqb_neq]. done. }
  constructor.
  - intros id r [[<- <-]|[_ Hr]]%lookup_insert_Some; [done|eauto].
  - intros id id' r r' [[<- <-]|[_ Hr]]%lookup_insert_Some [[<- <-]|[_ Hr']]%lookup_insert_Some Heq; [done| | |eauto].
    + by destruct (Hnew _ _ Hr') as [Hk _].
    + by destruct (Hnew _ _ Hr) as [Hk _].
  - intros id id' r r' [[<- <-]|[_ Hr]]%lookup_insert_Some [[<- <-]|[_ Hr']]%lookup_insert_Some Heq; [done| | |eauto].
    + by destruct (Hnew _ _ Hr') as [_ Hk].
    + by destruct (Hnew _ _ Hr) as [_ Hk].
Qed.

Lemma table_claim id now op t : table_ok t -> table_ok (table_statement t (ClaimStatement id now op)).
Proof.
  intros [Hids Hkeys Horders]. constructor; cbn [table_statement].
  - intros id' r' (r & Hr & -> & _)%claim_op_rows. eauto.
  - intros i1 i2 r1 r2 (o1 & H1 & _ & E1)%claim_op_rows (o2 & H2 & _ & E2)%claim_op_rows Heq.
    apply (Hkeys i1 i2 o1 o2); [done..|]. unfold row_key in *. congruence.
  - intros i1 i2 r1 r2 (o1 & H1 & _ & E1)%claim_op_rows (o2 & H2 & _ & E2)%claim_op_rows Heq.
    apply (Horders i1 i2 o1 o2); [done..|]. congruence.
Qed.

(** In every history of creations, claims, renewals and finalizations the table of
    requests has one row per idempotency key and one per work order. *)
Theorem request_table_unique history : table_ok (foldl table_statement ∅ history).
Proof.
  assert (table_ok ∅) as Hinit by (constructor; intros *; rewrite lookup_empty; done).
  revert Hinit. generalize (∅ : gmap Z GitHubRequest). induction history as [|stmt history IH]; intros t Ht; [done|].
  apply IH. destruct stmt; [by apply table_create | by apply table_claim].
Qed.
