(* ===== verification/Transport.v ===== *)
(** * The GitHub transport

    [server/github_adapter/transport.py]: the requests the adapter makes, the limits on
    what it reads, and the strict decoding of the answers.  What is at the other end of a
    connection is the parameter [net]: for the n-th request sent, a failure of the
    connection or a response.  The requests sent are the state.

    An exception that is not one of [errors.py] is [OtherError]. *)

From S2P Require Import Prelude Text Json Enums Catalog Evidence Floats JsonCodec Documents Fingerprints Registry Capabilities Models Routing Repository Service Checks Url GitHub GitHubService.

Definition MAX_GITHUB_RESPONSE_BYTES : Z := 512 * 1024.
Definition MAX_GITHUB_STRING_LENGTH : Z := 65536.
Definition MAX_GITHUB_COLLECTION_ITEMS : Z := 100.
Definition MAX_GITHUB_COMMENT_PAGES : Z := 2.
Definition MAX_GITHUB_LAST_PAGE : Z := 1000000.
Definition MAX_GITHUB_JSON_NODES : Z := 20000.
Definition MAX_GITHUB_LINK_HEADER_LENGTH : Z := 4096.
Definition MAX_GITHUB_NODE_ID_LENGTH : Z := 128.
Definition MAX_MANAGED_COMMENT_BYTES : Z := 12 * 1024.
Definition MAX_SAFE_GITHUB_ID : Z := 2 ^ 63 - 1.
Definition MAX_SAFE_PULL_REQUEST_NUMBER : Z := 2147483647.
Definition SAFE_READ_ATTEMPTS : nat := 3.

Definition is_sha : string -> bool := exactly 40 is_hex_lower.
Definition node_char (c : ascii) : bool := is_alnum c || bool_decide (ord c ∈ [95; 61; 45]).
(** [^[A-Za-z0-9_=-]{1,128}$] *)
Definition NODE_ID (s : string) : bool := length_between 1 MAX_GITHUB_NODE_ID_LENGTH s && all_chars node_char s.
(** [^[^\x00-\x1f\x7f]{1,255}$] *)
Definition DISPLAY_TEXT (s : string) : bool :=
  length_between 1 255 s && all_chars (fun c => negb (in_range 0 31 c || (ord c =? 127))) s.

Definition TRANSIENT_READ_STATUSES : list Z := [502; 503; 504].
Definition AMBIGUOUS_WRITE_STATUSES : list Z := [408; 425; 500; 502; 503; 504].

Definition REPOSITORY_FIELDS : list string :=
  ["id"; "node_id"; "name"; "full_name"; "private"; "owner"; "html_url"; "description"; "fork"; "url";
   "forks_url"; "keys_url"; "collaborators_url"; "teams_url"; "hooks_url"; "issue_events_url";
   "events_url"; "assignees_url"; "branches_url"; "tags_url"; "blobs_url"; "git_tags_url";
   "git_refs_url"; "trees_url"; "statuses_url"; "languages_url"; "stargazers_url"; "contributors_url";
   "subscribers_url"; "subscription_url"; "commits_url"; "git_commits_url"; "comments_url";
   "issue_comment_url"; "contents_url"; "compare_url"; "merges_url"; "archive_url"; "downloads_url";
   "issues_url"; "pulls_url"; "milestones_url"; "notifications_url"; "labels_url"; "releases_url";
   "deployments_url"; "created_at"; "updated_at"; "pushed_at"; "git_url"; "ssh_url"; "clone_url";
   "svn_url"; "homepage"; "size"; "stargazers_count"; "watchers_count"; "language"; "has_issues";
   "has_projects"; "has_downloads"; "has_wiki"; "has_pages"; "has_discussions"; "forks_count";
   "mirror_url"; "archived"; "disabled"; "open_issues_count"; "license"; "allow_forking";
   "is_template"; "web_commit_signoff_required"; "topics"; "visibility"; "forks"; "open_issues";
   "watchers"; "default_branch"; "temp_clone_token"; "network_count"; "subscribers_count";
   "permissions"; "organization"; "security_and_analysis"; "custom_properties"].

Definition PULL_REQUEST_FIELDS : list string :=
  ["url"; "id"; "node_id"; "html_url"; "diff_url"; "patch_url"; "issue_url"; "number"; "state";
   "locked"; "title"; "user"; "body"; "created_at"; "updated_at"; "closed_at"; "merged_at";
   "merge_commit_sha"; "assignee"; "assignees"; "requested_reviewers"; "requested_teams"; "labels";
   "milestone"; "draft"; "commits_url"; "review_comments_url"; "review_comment_url"; "comments_url";
   "statuses_url"; "head"; "base"; "_links"; "author_association"; "auto_merge"; "active_lock_reason";
   "merged"; "mergeable"; "rebaseable"; "mergeable_state"; "merged_by"; "comments"; "review_comments";
   "maintainer_can_modify"; "commits"; "additions"; "deletions"; "changed_files"].

Definition PULL_REF_FIELDS : list string :=
  ["label"; "ref"; "sha"; "user"; "repo"].

Definition COMMENT_FIELDS : list string :=
  ["url"; "html_url"; "issue_url"; "id"; "node_id"; "user"; "created_at"; "updated_at";
   "author_association"; "body"; "reactions"; "performed_via_github_app"].

Definition USER_FIELDS : list string :=
  ["login"; "id"; "node_id"; "avatar_url"; "gravatar_id"; "url"; "html_url"; "followers_url";
   "following_url"; "gists_url"; "starred_url"; "subscriptions_url"; "organizations_url"; "repos_url";
   "events_url"; "received_events_url"; "type"; "user_view_type"; "site_admin"; "name"; "company";
   "blog"; "location"; "email"; "hireable"; "bio"; "twitter_username"; "notification_email";
   "public_repos"; "public_gists"; "followers"; "following"; "created_at"; "updated_at";
   "private_gists"; "total_private_repos"; "owned_private_repos"; "disk_usage"; "collaborators";
   "two_factor_authentication"; "plan"; "ldap_dn"; "business_plus"; "enterprise_managed_user"].

(** ** Decoding *)

Abbreviation Decoded A := (Result GhError A).

Definition transport_failed : GhError := AdapterError TransportError "github_transport_failed".
Definition head_unavailable : GhError := AdapterError TransportError "github_head_unavailable".
Definition too_large : GhError := AdapterError TransportError "github_response_too_large".
Definition pagination_invalid : GhError := AdapterError TransportError "github_pagination_invalid".

Record GitHubRepositoryIdentity := { gri_full_name : string; gri_repository_id : Z; gri_node_id : string }.

Definition zsum (l : list Z) : Z := foldr Z.add 0 l.

Fixpoint json_nodes (v : Json) : Z :=
  match v with
  | JList l => 1 + zsum (map json_nodes l)
  | JObj fields => 1 + zsum (map (fun kv => json_nodes kv.2) fields)
  | _ => 1
  end.

(** The bounds on strings and collections, at every level *)
Fixpoint json_bounded (v : Json) : bool :=
  match v with
  | JStr s => str_length s <=? MAX_GITHUB_STRING_LENGTH
  | JList l => (Z.of_nat (length l) <=? MAX_GITHUB_COLLECTION_ITEMS) && forallb json_bounded l
  | JObj fields =>
      (Z.of_nat (length fields) <=? MAX_GITHUB_COLLECTION_ITEMS)
      && forallb (fun kv => (str_length kv.1 <=? MAX_GITHUB_NODE_ID_LENGTH) && json_bounded kv.2) fields
  | _ => true
  end.

(** [_validate_json_limits]: every violation raises the same error. *)
Definition validate_json_limits (v : Json) : Decoded unit :=
  reject_if ((MAX_GITHUB_JSON_NODES <? json_nodes v) || negb (json_bounded v)) too_large.

(** [_decode_json] *)
Definition decode_json (payload : list ascii) : Decoded Json :=
  match loads (of_chars payload) with
  | Some v => _ ← validate_json_limits v; Ok v
  | None => Err transport_failed
  end.

(** [_strict_object] *)
Definition strict_object (v : Json) (allowed required : list string) : Decoded (list (string * Json)) :=
  match v with
  | JObj fields =>
      if subset_of required (map fst fields) && subset_of (map fst fields) allowed
      then Ok fields else Err transport_failed
  | _ => Err transport_failed
  end.

(** [payload[key]] of a key that is required *)
Definition field (key : string) (fields : list (string * Json)) : Json := default JNull (obj_get key fields).

Definition safe_id (v : Json) : Decoded Z :=
  match v with
  | JInt z => if (1 <=? z) && (z <=? MAX_SAFE_GITHUB_ID) then Ok z else Err transport_failed
  | _ => Err transport_failed
  end.

Definition safe_node_id (v : Json) : Decoded string :=
  match v with
  | JStr s => if NODE_ID s then Ok s else Err transport_failed
  | _ => Err transport_failed
  end.

Definition safe_repository_name (v : Json) : Decoded string :=
  match v with
  | JStr s => match validate_repository_full_name s with Ok s => Ok s | Err _ => Err transport_failed end
  | _ => Err transport_failed
  end.

Definition safe_display_text (v : Json) : Decoded string :=
  match v with
  | JStr s => if DISPLAY_TEXT s then Ok s else Err transport_failed
  | _ => Err transport_failed
  end.

Definition safe_sha (v : Json) (required : bool) : Decoded (option string) :=
  match v with
  | JStr s => if is_sha s then Ok (Some s) else if required then Err head_unavailable else Ok None
  | _ => if required then Err head_unavailable else Ok None
  end.

Definition decode_repository (v : Json) : Decoded GitHubRepositoryIdentity :=
  payload ← strict_object v REPOSITORY_FIELDS ["id"; "node_id"; "full_name"];
  full_name ← safe_repository_name (field "full_name" payload);
  repository_id ← safe_id (field "id" payload);
  node_id ← safe_node_id (field "node_id" payload);
  Ok {| gri_full_name := full_name; gri_repository_id := repository_id; gri_node_id := node_id |}.

Definition decode_ref (v : Json) (require_repository require_sha : bool)
    : Decoded (string * option string * option GitHubRepositoryIdentity) :=
  if match v with JNull => negb require_repository && negb require_sha | _ => false end
  then Ok ("unavailable", None, None)
  else
    payload ← strict_object v PULL_REF_FIELDS ["ref"; "sha"; "repo"];
    repository ← match field "repo" payload with
                 | JObj fields => r ← decode_repository (JObj fields); Ok (Some r)
                 | _ => Ok None
                 end;
    _ ← reject_if (require_repository && negb (isSome repository)) head_unavailable;
    ref ← safe_display_text (field "ref" payload);
    match repository with
    | None => Ok (ref, None, None)
    | Some r => sha ← safe_sha (field "sha" payload) require_sha; Ok (ref, sha, Some r)
    end.

(** [v == n] of a JSON value and an integer *)
Definition equals_int (v : Json) (n : Z) : bool :=
  match v with
  | JFloat r => match float_value r with Some q => QArith_base.Qeq_bool q (QArith_base.inject_Z n) | None => false end
  | _ => py_eq v (JInt n)
  end.

(** [state not in {"open", "closed"}]: a list or an object cannot be hashed *)
Definition decode_state (v : Json) : Decoded string :=
  match v with
  | JStr s => if bool_decide (s ∈ ["open"; "closed"]) then Ok s else Err transport_failed
  | JList _ | JObj _ => Err OtherError
  | _ => Err transport_failed
  end.

Definition decode_bool (v : Json) : Decoded bool :=
  match v with JBool b => Ok b | _ => Err transport_failed end.

Definition decode_pull_request (v : Json) (repository : GitHubRepositoryIdentity) (requested_number : Z)
    (require_head : bool) : Decoded ResolvedPullRequest :=
  payload ← strict_object v PULL_REQUEST_FIELDS
              ["id"; "node_id"; "number"; "state"; "draft"; "merged"; "base"; "head"];
  _ ← reject_if (negb (equals_int (field "number" payload) requested_number)) transport_failed;
  state ← decode_state (field "state" payload);
  draft ← decode_bool (field "draft" payload);
  merged ← decode_bool (field "merged" payload);
  '(base_ref, base_sha, base_repository) ← decode_ref (field "base" payload) true true;
  _ ← reject_if (match base_repository with
                 | None => true
                 | Some b => negb (gri_repository_id b =? gri_repository_id repository)
                             || negb (bool_decide (gri_node_id b = gri_node_id repository))
                 end) transport_failed;
  '(head_ref, head_sha, head_repository) ← decode_ref (field "head" payload) require_head require_head;
  pull_request_id ← safe_id (field "id" payload);
  node_id ← safe_node_id (field "node_id" payload);
  Ok {| pr_repository_full_name := gri_full_name repository; pr_repository_id := gri_repository_id repository;
        pr_repository_node_id := gri_node_id repository; pr_pull_request_number := requested_number;
        pr_pull_request_id := pull_request_id; pr_pull_request_node_id := node_id; pr_state := state;
        pr_draft := draft; pr_merged := merged; pr_base_ref := base_ref; pr_base_sha := default "" base_sha;
        pr_head_ref := head_ref; pr_head_sha := head_sha;
        pr_head_repository_full_name := gri_full_name <$> head_repository;
        pr_head_repository_id := gri_repository_id <$> head_repository |}.

Definition decode_actor (v : Json) : Decoded GitHubActorIdentity :=
  payload ← strict_object v USER_FIELDS ["id"; "node_id"];
  id ← safe_id (field "id" payload);
  node ← safe_node_id (field "node_id" payload);
  Ok {| actor_id := id; actor_node_id := node |}.

(** ** Addresses *)

(** The object: the origin and the path every answer must come from *)
Record Transport := { expected_origin : Origin; expected_path_prefix : list ascii }.

Definition rstrip_slash (l : list ascii) : list ascii :=
  reverse (snd (span (is_chr 47) (reverse l))).

Section transport.
Context (bracketed_ok : list ascii -> bool).

(** [__init__]; [None] is a [ValueError]. *)
Definition make_transport (api_url : string) : option Transport :=
  u ← urlsplit bracketed_ok (rstrip_slash (to_chars api_url) ++ [chr 47]);
  origin ← origin_of u;
  Some {| expected_origin := origin; expected_path_prefix := url_path u |}.

(** A canonical decimal numeral: [str(int(text)) == text] *)
Definition canonical_int (text : list ascii) : option Z :=
  let n := int_of_digits text in
  if negb (bool_decide (text = [])) && forallb is_digit text && bool_decide (to_chars (str_of_int n) = text)
  then Some n else None.

(** The path of an issue below the prefix: owner, repository and number *)
Definition issue_parts (parts : list (list ascii)) : option (list ascii * list ascii * list ascii) :=
  match parts with
  | [owner; repository; issues; number] =>
      if bool_decide (issues = to_chars "issues") then Some (owner, repository, number) else None
  | _ => None
  end.

(** [_decode_issue_association]; the [ValueError]s of [urlsplit] and of the port are not
    caught there. *)
Definition decode_issue_association (t : Transport) (v : Json) : Decoded (string * Z) :=
  match v with
  | JStr s =>
      _ ← reject_if (MAX_GITHUB_STRING_LENGTH <? str_length s) transport_failed;
      match urlsplit bracketed_ok (to_chars s) with
      | None => Err OtherError
      | Some u =>
          match origin_of u with
          | None => Err OtherError
          | Some origin =>
              let prefix := rstrip_slash (expected_path_prefix t) ++ to_chars "/repos/" in
              _ ← reject_if (negb (bool_decide (origin = expected_origin t))
                             || negb (starts_with prefix (url_path u)) || has_user (url_netloc u)
                             || negb (bool_decide (url_query u = [])) || negb (bool_decide (url_fragment u = [])))
                    transport_failed;
              match issue_parts (split_on (chr 47) (drop (length prefix) (url_path u))) with
              | None => Err transport_failed
              | Some (owner_part, repository_part, number_part) =>
                  let owner := unquote owner_part in
                  let repository := unquote repository_part in
                  let full_name := of_chars owner +:+ "/" +:+ of_chars repository in
                  match canonical_int number_part, validate_repository_full_name full_name with
                  | Some number, Ok _ =>
                      _ ← reject_if (negb (bool_decide (quote owner = owner_part))
                                     || negb (bool_decide (quote repository = repository_part))
                                     || negb ((1 <=? number) && (number <=? MAX_SAFE_PULL_REQUEST_NUMBER)))
                            transport_failed;
                      Ok (full_name, number)
                  | _, _ => Err transport_failed
                  end
              end
          end
      end
  | _ => Err transport_failed
  end.

(** [_decode_comment] *)
Definition decode_comment (t : Transport) (v : Json) : Decoded GitHubComment :=
  payload ← strict_object v COMMENT_FIELDS ["id"; "body"; "issue_url"; "user"];
  body ← match field "body" payload with
         | JStr s => if str_length s <=? MAX_GITHUB_STRING_LENGTH then Ok s else Err transport_failed
         | _ => Err transport_failed
         end;
  '(full_name, number) ← decode_issue_association t (field "issue_url" payload);
  id ← safe_id (field "id" payload);
  author ← decode_actor (field "user" payload);
  Ok {| comment_id := id; comment_body := body; comment_author := author;
        comment_repository_full_name := full_name; comment_pull_request_number := number |}.

(** [_decode_comment_page] *)
Definition decode_comment_page (t : Transport) (v : Json) : Decoded (list GitHubComment) :=
  match v with
  | JList l =>
      _ ← reject_if (MAX_GITHUB_COLLECTION_ITEMS <? Z.of_nat (length l)) transport_failed;
      map_result (decode_comment t) l
  | _ => Err transport_failed
  end.

(** ** Pagination *)

Definition link_char (c : ascii) : bool :=
  negb (bool_decide (ord c ∈ [60; 62; 34; 127]) || in_range 0 31 c).

(** One item of a [Link] header: its address and its relations *)
Definition link_item (item : list ascii) : option (list ascii * list (list ascii)) :=
  match drop_spaces item with
  | c :: rest =>
      if is_chr 60 c then
        match span link_char rest with
        | (url, c' :: rest) =>
            if negb (bool_decide (url = [])) && is_chr 62 c' then
              match drop_spaces rest with
              | c'' :: rest =>
                  let rest := drop_spaces rest in
                  if is_chr 59 c'' && starts_with (to_chars "rel=" ++ [chr 34]) rest then
                    match span (fun c => is_lower c || is_chr 32 c) (drop 5 rest) with
                    | (relations, q :: rest) =>
                        if negb (bool_decide (relations = [])) && is_chr 34 q && bool_decide (drop_spaces rest = [])
                        then Some (url, filter (fun r => r <> []) (split_on (chr 32) relations))
                        else None
                    | _ => None
                    end
                  else None
              | [] => None
              end
            else None
        | _ => None
        end
      else None
  | [] => None
  end.

Definition RELATIONS : list (list ascii) := map to_chars ["first"; "last"; "next"; "prev"].

(** [_validated_last_link_url] *)
Definition validated_last_link_url (link : string) : Decoded (list ascii) :=
  _ ← reject_if (MAX_GITHUB_LINK_HEADER_LENGTH <? str_length link) pagination_invalid;
  match mapM link_item (split_on (chr 44) (to_chars link)) with
  | None => Err pagination_invalid
  | Some items =>
      _ ← reject_if (existsb (fun item => bool_decide (item.2 = [])
                                         || negb (forallb (fun r => bool_decide (r ∈ RELATIONS)) item.2)) items)
            pagination_invalid;
      match filter (fun item => to_chars "last" ∈ item.2) items with
      | [item] => Ok item.1
      | _ => Err pagination_invalid
      end
  end.

Definition values_of (key : string) (fields : list (string * string)) : list string :=
  map snd (filter (fun kv => kv.1 = key) fields).

(** [_validated_last_page] *)
Definition validated_last_page (t : Transport) (last_url expected_path : list ascii) : Decoded Z :=
  match u ← urlsplit bracketed_ok last_url; o ← origin_of u; Some (u, o) with
  | None => Err pagination_invalid
  | Some (u, origin) =>
      _ ← reject_if (negb (bool_decide (origin = expected_origin t)) || negb (bool_decide (url_path u = expected_path))
                     || has_user (url_netloc u) || negb (bool_decide (url_fragment u = []))) pagination_invalid;
      match parse_qs 2 (url_query u) with
      | None => Err pagination_invalid
      | Some fields =>
          match values_of "page" fields, values_of "per_page" fields with
          | [page], [per_page] =>
              match canonical_int (to_chars page) with
              | Some n =>
                  _ ← reject_if (negb (forallb (fun kv => bool_decide (kv.1 ∈ ["page"; "per_page"])) fields)
                                 || negb (bool_decide (per_page = str_of_int MAX_GITHUB_COLLECTION_ITEMS))
                                 || negb ((1 <=? n) && (n <=? MAX_GITHUB_LAST_PAGE))) pagination_invalid;
                  Ok n
              | None => Err pagination_invalid
              end
          | _, _ => Err pagination_invalid
          end
      end
  end.

(** [_last_comment_page] *)
Definition last_comment_page (t : Transport) (link : option string) (collection_route : string) : Decoded Z :=
  match link with
  | None => Ok 1
  | Some link =>
      url ← validated_last_link_url link;
      validated_last_page t url (rstrip_slash (expected_path_prefix t) ++ chr 47 :: to_chars collection_route)
  end.
End transport.

(** ** Requests *)

Inductive Method := GET | POST | PATCH.

Record Sent := { sent_method : Method; sent_route : string; sent_body : option string }.

(** A response: status, headers, the address it came from and its body in chunks *)
Record Response := {
  rsp_status : Z;
  rsp_headers : list (string * string);
  rsp_url : list ascii;
  rsp_chunks : list (list ascii);
}.

(** [None] is an [httpx.TransportError]. *)
Definition Net : Type := nat -> Sent -> option Response.

Abbreviation HTTP A := (M GhError (list Sent) A).

(** [headers.get(name)]: the values of a name joined, whatever its case *)
Definition header (name : string) (headers : list (string * string)) : option string :=
  match map snd (filter (fun kv => lower kv.1 = name) headers) with
  | [] => None
  | values => Some (join ", " values)
  end.

(** The chunks read until the limit is passed *)
Fixpoint collect (collected : list ascii) (chunks : list (list ascii)) : Decoded (list ascii) :=
  match chunks with
  | [] => Ok collected
  | chunk :: chunks' =>
      let collected := collected ++ chunk in
      if MAX_GITHUB_RESPONSE_BYTES <? Z.of_nat (length collected) then Err too_large
      else collect collected chunks'
  end.

(** [_is_json_content_type] *)
Definition is_json_content_type (value : string) : bool :=
  bool_decide (strip (of_chars (default [] (head (split_on (chr 59) (to_chars (lower value))))))
               ∈ ["application/json"; "application/vnd.github+json"]).

(** [_is_rate_limited] *)
Definition is_rate_limited (status : Z) (headers : list (string * string)) : bool :=
  (status =? 429)
  || (status =? 403) && (bool_decide (header "x-ratelimit-remaining" headers = Some "0")
                         || isSome (header "retry-after" headers)).

Module GitHubTransport.
Section operations.
Context (bracketed_ok : list ascii -> bool) (t : Transport) (net : Net).

(** The guard of [_send] on its route *)
Definition route_refused (route : string) : Decoded bool :=
  match urlsplit bracketed_ok (to_chars route) with
  | None => Err OtherError
  | Some u => Ok (starts_with [chr 47] (to_chars route) || existsb (is_chr 92) (to_chars route)
                  || negb (bool_decide (url_scheme u = []))
                  || bool_decide (to_chars ".." ∈ split_on (chr 47) (to_chars route)))
  end.

(** [_validate_response_origin] *)
Definition validate_response_origin (url : list ascii) : Decoded unit :=
  match u ← urlsplit bracketed_ok url; o ← origin_of u; Some (u, o) with
  | None => Err OtherError
  | Some (u, origin) =>
      reject_if (negb (bool_decide (origin = expected_origin t))
                 || negb (starts_with (expected_path_prefix t) (url_path u)))
        (AdapterError TransportError "github_unexpected_host")
  end.

(** [_send]: the status, headers and body, or [None] for an [httpx.TransportError] *)
Definition send (request : Sent) : HTTP (option (Z * list (string * string) * list ascii)) :=
  refused ← lift_result (route_refused (sent_route request));
  _ ← ensure (negb refused) transport_failed;
  reply ← (fun sent => (Ok (net (length sent) request), sent ++ [request]));
  match reply with
  | None => mret None
  | Some response =>
      _ ← lift_result (validate_response_origin (rsp_url response));
      body ← lift_result (collect [] (rsp_chunks response));
      mret (Some (rsp_status response, rsp_headers response, body))
  end.

Definition ambiguous : GhError := AdapterError AmbiguousWrite "github_publication_failed".

(** One response read: [None] asks for another attempt, when there is one. *)
Definition judge (safe_read ambiguous_write : bool) (not_found_reason : string)
    (reply : option (Z * list (string * string) * list ascii))
    : Decoded (option (Json * list (string * string))) :=
  match reply with
  | None =>
      if safe_read then Ok None else Err (if ambiguous_write then ambiguous else transport_failed)
  | Some (status, headers, payload) =>
      if (300 <=? status) && (status <=? 399) then Err (AdapterError TransportError "github_redirect_rejected")
      else if is_rate_limited status headers then Err (AdapterError RateLimited "github_rate_limited")
      else if status =? 404 then Err (AdapterError TransportError not_found_reason)
      else if bool_decide (status ∈ TRANSIENT_READ_STATUSES) then
        if safe_read then Ok None else Err (if ambiguous_write then ambiguous else transport_failed)
      else if ambiguous_write && bool_decide (status ∈ AMBIGUOUS_WRITE_STATUSES) then Err ambiguous
      else if negb ((200 <=? status) && (status <=? 299)) then Err transport_failed
      else if negb (is_json_content_type (default "" (header "content-type" headers))) then Err transport_failed
      else v ← decode_json payload; Ok (Some (v, headers))
  end.

(** The loop of [_request_json_with_headers]: a read that asks for another attempt on the
    last one fails as it does without attempts. *)
Fixpoint attempts (remaining : nat) (request : Sent) (safe_read ambiguous_write : bool) (not_found_reason : string)
    : HTTP (Json * list (string * string)) :=
  match remaining with
  | O => raise transport_failed
  | S rest =>
      reply ← send request;
      verdict ← lift_result (judge (safe_read && negb (bool_decide (rest = O))) ambiguous_write not_found_reason reply);
      match verdict with
      | Some answer => mret answer
      | None => attempts rest request safe_read ambiguous_write not_found_reason
      end
  end.

(** [_request_json_with_headers] *)
Definition request_json_with_headers (request : Sent) (safe_read ambiguous_write : bool) (not_found_reason : string)
    : HTTP (Json * list (string * string)) :=
  attempts (if safe_read then SAFE_READ_ATTEMPTS else 1%nat) request safe_read ambiguous_write not_found_reason.

(** A [GET] that may be repeated *)
Definition read_json (route not_found_reason : string) : HTTP (Json * list (string * string)) :=
  request_json_with_headers {| sent_method := GET; sent_route := route; sent_body := None |} true false not_found_reason.

(** A write, sent once *)
Definition write_json (method : Method) (route body : string) (ambiguous_write : bool) : HTTP Json :=
  '(v, _) ← request_json_with_headers {| sent_method := method; sent_route := route; sent_body := Some body |}
              false ambiguous_write "github_transport_failed";
  mret v.

(** [_repository_route]: the path, the owner and the name *)
Definition repository_route (repository : string) : Decoded string :=
  match validate_repository_full_name repository with
  | Err _ => Err transport_failed
  | Ok _ =>
      match split_on (chr 47) (to_chars repository) with
      | owner :: rest => Ok ("repos/" +:+ of_chars (quote owner) +:+ "/"
                             +:+ of_chars (quote (to_chars (join "/" (map of_chars rest)))))
      | [] => Err transport_failed
      end
  end.

Definition number_ok (number : Z) : bool := (1 <=? number) && (number <=? MAX_SAFE_PULL_REQUEST_NUMBER).
Definition id_ok (id : Z) : bool := (1 <=? id) && (id <=? MAX_SAFE_GITHUB_ID).

(** [_comment_collection_route] *)
Definition comment_collection_route (repository : string) (number : Z) : Decoded string :=
  path ← repository_route repository;
  _ ← reject_if (negb (number_ok number)) transport_failed;
  Ok (path +:+ "/issues/" +:+ str_of_int number +:+ "/comments").

Definition comment_route (repository : string) (id : Z) : Decoded string :=
  path ← repository_route repository;
  Ok (path +:+ "/issues/comments/" +:+ str_of_int id).

Definition resolve_pull_request (repository : string) (number : Z) (require_head : bool) : HTTP ResolvedPullRequest :=
  path ← lift_result (repository_route repository);
  _ ← ensure (number_ok number) transport_failed;
  '(payload, _) ← read_json path "github_repository_not_found";
  identity ← lift_result (decode_repository payload);
  '(payload, _) ← read_json (path +:+ "/pulls/" +:+ str_of_int number) "github_pr_not_found";
  lift_result (decode_pull_request payload identity number require_head).

Definition page_route (collection_route : string) (page : Z) : string :=
  collection_route +:+ "?per_page=" +:+ str_of_int MAX_GITHUB_COLLECTION_ITEMS +:+ "&page=" +:+ str_of_int page.

Definition read_page (collection_route : string) (page : Z) : HTTP (list GitHubComment * list (string * string)) :=
  '(payload, headers) ← read_json (page_route collection_route page) "github_pr_not_found";
  comments ← lift_result (decode_comment_page bracketed_ok t payload);
  mret (comments, headers).

Definition list_comments (repository : string) (number : Z) : HTTP GitHubCommentListing :=
  route ← lift_result (comment_collection_route repository number);
  '(first_page, headers) ← read_page route 1;
  last_page ← lift_result (last_comment_page bracketed_ok t (header "link" headers) route);
  if last_page =? 1 then mret {| listing_comments := first_page; listing_complete := true |}
  else
    '(newest_page, _) ← read_page route last_page;
    if last_page =? MAX_GITHUB_COMMENT_PAGES
    then mret {| listing_comments := newest_page ++ first_page; listing_complete := true |}
    else
      '(preceding_page, _) ← read_page route (last_page - 1);
      mret {| listing_comments := newest_page ++ preceding_page; listing_complete := false |}.

Definition resolve_authenticated_actor : HTTP GitHubActorIdentity :=
  handle ('(payload, _) ← read_json "user" "github_transport_failed"; lift_result (decode_actor payload))
    (fun e => match e with
              | AdapterError RateLimited _ => None
              | AdapterError k _ => if is_transport k
                                    then Some (raise (AdapterError TransportError "github_actor_resolution_failed"))
                                    else None
              | _ => None
              end).

Definition get_comment (repository : string) (id : Z) : HTTP GitHubComment :=
  _ ← ensure (id_ok id) transport_failed;
  route ← lift_result (comment_route repository id);
  '(payload, _) ← read_json route "github_comment_not_found";
  comment ← lift_result (decode_comment bracketed_ok t payload);
  _ ← ensure (comment_id comment =? id) transport_failed;
  mret comment.

(** [_validate_managed_body] *)
Definition managed_body_ok (body : string) : bool :=
  negb (bool_decide (body = "")) && (str_length body <=? MAX_MANAGED_COMMENT_BYTES)
  && negb (existsb (is_chr 0) (to_chars body)).

Definition create_comment (repository : string) (number : Z) (body : string) : HTTP GitHubComment :=
  _ ← ensure (managed_body_ok body) (AdapterError TransportError "github_publication_failed");
  route ← lift_result (comment_collection_route repository number);
  payload ← write_json POST route body true;
  lift_result (decode_comment bracketed_ok t payload).

Definition update_comment (repository : string) (id : Z) (body : string) : HTTP GitHubComment :=
  _ ← ensure (managed_body_ok body) (AdapterError TransportError "github_publication_failed");
  _ ← ensure (id_ok id) transport_failed;
  route ← lift_result (comment_route repository id);
  payload ← write_json PATCH route body false;
  comment ← lift_result (decode_comment bracketed_ok t payload);
  _ ← ensure (comment_id comment =? id) transport_failed;
  mret comment.
End operations.
End GitHubTransport.
