(* ===== verification/TransportProofs.v ===== *)
(** * Correctness of the GitHub transport

    What the transport sends (reads are repeated a bounded number of times, writes never),
    what it accepts (every identity it hands out fits the constraints of the table of
    requests), and the address of an issue, decoded exactly. *)

From S2P Require Import Prelude Text Json Enums Catalog Evidence Floats JsonCodec Documents Fingerprints Registry Capabilities Models Routing Repository Service Checks Url GitHub GitHubService Transport.

Import GitHubTransport.

(** ** What is sent *)

(** [m] appends at most [n] requests to those sent, each of which satisfies [P]. *)
Definition sends {A} (n : nat) (P : Sent -> Prop) (m : HTTP A) : Prop :=
  forall sent r sent', m sent = (r, sent') ->
    exists k, sent' = sent ++ k /\ (length k <= n)%nat /\ Forall P k.

Section sends_rules.
Context (P : Sent -> Prop).

Lemma sends_none {A} (m : HTTP A) : (forall sent, (m sent).2 = sent) -> sends 0 P m.
Proof.
  intros Hm sent r sent' Hrun. exists []. rewrite app_nil_r. specialize (Hm sent). rewrite Hrun in Hm. auto.
Qed.

Lemma sends_weaken {A} n n' (m : HTTP A) : (n <= n')%nat -> sends n P m -> sends n' P m.
Proof. intros Hn Hm sent r sent' Hrun. destruct (Hm _ _ _ Hrun) as (k & -> & Hk & HP). exists k. auto with lia. Qed.

Lemma sends_bind {A B} n1 n2 (m : HTTP A) (k : A -> HTTP B) :
  sends n1 P m -> (forall a, sends n2 P (k a)) -> sends (n1 + n2) P (m ≫= k).
Proof.
  intros Hm Hk sent r sent'. unfold mbind, M_bind. destruct (m sent) as [[a|e] s1] eqn:H1.
  - intros H2. destruct (Hm _ _ _ H1) as (k1 & -> & Hl1 & HP1). destruct (Hk a _ _ _ H2) as (k2 & -> & Hl2 & HP2).
    exists (k1 ++ k2). rewrite app_assoc, length_app. split; [done|]. split; [lia|]. by apply Forall_app.
  - intros [= <- <-]. destruct (Hm _ _ _ H1) as (k1 & -> & Hl1 & HP1). exists k1. auto with lia.
Qed.

Lemma sends_lift {A} (r : Decoded A) : sends 0 P (lift_result r).
Proof. by apply sends_none. Qed.
Lemma sends_ret {A} (a : A) : sends 0 P (mret a).
Proof. by apply sends_none. Qed.
Lemma sends_raise {A} e : sends 0 P (raise (A := A) e).
Proof. by apply sends_none. Qed.
Lemma sends_ensure b e : sends 0 P (ensure b e).
Proof. apply sends_none. by destruct b. Qed.

(** Steps that send nothing do not count. *)
Lemma sends_then {A B} n (m : HTTP A) (k : A -> HTTP B) :
  sends 0 P m -> (forall a, sends n P (k a)) -> sends n P (m ≫= k).
Proof. apply (sends_bind 0 n). Qed.

Lemma sends_handle {A} n (m : HTTP A) h :
  sends n P m -> (forall e k, h e = Some k -> sends 0 P k) -> sends n P (handle m h).
Proof.
  intros Hm Hh sent r sent'. unfold handle. destruct (m sent) as [[a|e] s1] eqn:H1;
    destruct (Hm _ _ _ H1) as (k1 & -> & Hl1 & HP1); [intros [= <- <-]; eauto|].
  destruct (h e) as [k|] eqn:Hk; [|intros [= <- <-]; eauto]. intros Hrun.
  destruct (Hh e k Hk _ _ _ Hrun) as ([|x l] & -> & Hl & _); [|cbn in Hl; lia].
  exists k1. rewrite app_nil_r. auto.
Qed.
End sends_rules.

Create HintDb sends discriminated.
#[export] Hint Resolve sends_lift sends_ret sends_raise sends_ensure : sends.

Section sent.
Context (bracketed_ok : list ascii -> bool) (t : Transport) (net : Net).

Lemma sends_send (P : Sent -> Prop) request : P request -> sends 1 P (send bracketed_ok t net request).
Proof.
  intros HP. unfold send. apply sends_then; [auto with sends|]. intros refused.
  apply sends_then; [auto with sends|]. intros _. apply (sends_bind _ 1 0).
  - intros sent r sent' [= <- <-]. exists [request]. auto.
  - intros [response|]; [|auto with sends].
    apply sends_then; [auto with sends|]. intros _. apply sends_then; auto with sends.
Qed.

Lemma sends_attempts (P : Sent -> Prop) n request safe amb reason :
  P request -> sends n P (attempts bracketed_ok t net n request safe amb reason).
Proof.
  intros HP. induction n as [|n IH]; cbn [attempts]; [auto with sends|].
  apply (sends_bind _ 1 n); [by apply sends_send|]. intros reply.
  apply sends_then; [auto with sends|]. intros [answer|]; [|done].
  eapply sends_weaken, sends_ret. lia.
Qed.

Definition a_read (s : Sent) : Prop := sent_method s = GET /\ sent_body s = None.

Lemma sends_read route reason : sends 3 a_read (read_json bracketed_ok t net route reason).
Proof. by apply sends_attempts. Qed.

Lemma sends_page route page : sends 3 a_read (read_page bracketed_ok t net route page).
Proof.
  unfold read_page. apply (sends_bind _ 3 0); [apply sends_read|]. intros [payload headers].
  apply sends_then; auto with sends.
Qed.

Lemma sends_write (P : Sent -> Prop) method route body amb :
  P {| sent_method := method; sent_route := route; sent_body := Some body |} ->
  sends 1 P (write_json bracketed_ok t net method route body amb).
Proof.
  intros HP. unfold write_json. apply (sends_bind _ 1 0); [by apply sends_attempts|].
  intros [v headers]. auto with sends.
Qed.

Lemma sends_resolve repository number require_head :
  sends 6 a_read (resolve_pull_request bracketed_ok t net repository number require_head).
Proof.
  unfold resolve_pull_request. do 2 (apply sends_then; [auto with sends|]; intros ?).
  apply (sends_bind _ 3 3); [apply sends_read|]. intros [payload headers].
  apply sends_then; [auto with sends|]. intros identity.
  apply (sends_bind _ 3 0); [apply sends_read|]. intros []. auto with sends.
Qed.

Lemma sends_list repository number :
  sends 9 a_read (list_comments bracketed_ok t net repository number).
Proof.
  unfold list_comments. apply sends_then; [auto with sends|]. intros route.
  apply (sends_bind _ 3 6); [apply sends_page|]. intros [first_page headers].
  apply sends_then; [auto with sends|]. intros last_page.
  destruct (last_page =? 1); [eapply sends_weaken, sends_ret; lia|].
  apply (sends_bind _ 3 3); [apply sends_page|]. intros [newest_page h2].
  destruct (last_page =? _); [eapply sends_weaken, sends_ret; lia|].
  apply (sends_bind _ 3 0); [apply sends_page|]. intros []. auto with sends.
Qed.

Lemma sends_actor : sends 3 a_read (resolve_authenticated_actor bracketed_ok t net).
Proof.
  apply sends_handle.
  - apply (sends_bind _ 3 0); [apply sends_read|]. intros []. auto with sends.
  - intros e k Hk. destruct e as [[] reason| | | |]; try discriminate Hk; injection Hk as <-; auto with sends.
Qed.

Lemma sends_get repository id : sends 3 a_read (get_comment bracketed_ok t net repository id).
Proof.
  unfold get_comment. do 2 (apply sends_then; [auto with sends|]; intros ?).
  apply (sends_bind _ 3 0); [apply sends_read|]. intros [payload headers].
  do 2 (apply sends_then; [auto with sends|]; intros ?). auto with sends.
Qed.
End sent.

(** Whatever is at the other end, the transport sends a bounded number of requests: reads
    are [GET]s without a body, repeated at most twice each; a comment is written with one
    [POST], and updated with one [PATCH], never sent again. *)
Theorem transport_sends bracketed_ok t net :
  sends 3 a_read (resolve_authenticated_actor bracketed_ok t net) /\
  (forall repository number head, sends 6 a_read (resolve_pull_request bracketed_ok t net repository number head)) /\
  (forall repository id, sends 3 a_read (get_comment bracketed_ok t net repository id)) /\
  (forall repository number, sends 9 a_read (list_comments bracketed_ok t net repository number)) /\
  (forall repository number body,
     sends 1 (fun s => sent_method s = POST /\ sent_body s = Some body)
       (create_comment bracketed_ok t net repository number body)) /\
  (forall repository id body,
     sends 1 (fun s => sent_method s = PATCH /\ sent_body s = Some body)
       (update_comment bracketed_ok t net repository id body)).
Proof.
  split_and!; intros; [apply sends_actor|apply sends_resolve|apply sends_get|apply sends_list| |].
  - unfold create_comment. do 2 (apply sends_then; [auto with sends|]; intros ?).
    apply (sends_bind _ 1 0); [by apply sends_write|]. auto with sends.
  - unfold update_comment. do 3 (apply sends_then; [auto with sends|]; intros ?).
    apply (sends_bind _ 1 0); [by apply sends_write|]. intros payload.
    do 2 (apply sends_then; [auto with sends|]; intros ?). auto with sends.
Qed.

(** ** What is accepted *)

Lemma safe_id_ok v z : safe_id v = Ok z -> 1 <= z <= MAX_SAFE_GITHUB_ID.
Proof. destruct v; try done. cbn. destruct (_ && _) eqn:Hz; intros [= <-]. lia. Qed.

Lemma safe_node_id_ok v s : safe_node_id v = Ok s -> NODE_ID s = true.
Proof. destruct v; try done. cbn. destruct (NODE_ID _) eqn:Hs; [|done]. by intros [= <-]. Qed.

Lemma safe_display_text_ok v s : safe_display_text v = Ok s -> DISPLAY_TEXT s = true.
Proof. destruct v; try done. cbn. destruct (DISPLAY_TEXT _) eqn:Hs; [|done]. by intros [= <-]. Qed.

Lemma validated_name s s' : validate_repository_full_name s = Ok s' -> s' = s.
Proof. unfold validate_repository_full_name. repeat (destruct (_ : bool); [done|]). by intros [= <-]. Qed.

Lemma safe_repository_name_ok v s : safe_repository_name v = Ok s -> validate_repository_full_name s = Ok s.
Proof.
  destruct v as [| | | |s0| |]; try done. cbn. destruct (validate_repository_full_name s0) as [s1|] eqn:Hs; [|done].
  intros [= <-]. pose proof (validated_name _ _ Hs) as ->. done.
Qed.

Lemma safe_sha_ok v required sha :
  safe_sha v required = Ok sha -> opt_all is_sha sha = true /\ (required = true -> isSome sha = true).
Proof.
  unfold safe_sha. destruct v; try (destruct required; intros [= <-]; done).
  destruct (is_sha s) eqn:Hs; [intros [= <-]; cbn; auto|]. destruct required; intros [= <-]. done.
Qed.

Record repository_fits (r : GitHubRepositoryIdentity) : Prop := {
  fits_name : validate_repository_full_name (gri_full_name r) = Ok (gri_full_name r);
  fits_id : 1 <= gri_repository_id r <= MAX_SAFE_GITHUB_ID;
  fits_node : NODE_ID (gri_node_id r) = true;
}.

Lemma decode_repository_ok v r : decode_repository v = Ok r -> repository_fits r.
Proof.
  unfold decode_repository. intros H. inv_ok H. split; cbn;
    eauto using safe_repository_name_ok, safe_id_ok, safe_node_id_ok.
Qed.

Definition ref_fits (required : bool) (ref : string) (sha : option string) (r : option GitHubRepositoryIdentity) : Prop :=
  DISPLAY_TEXT ref = true /\ opt_all is_sha sha = true /\
  (forall x, r = Some x -> repository_fits x) /\ (isSome sha = true -> isSome r = true) /\
  (required = true -> isSome sha = true /\ isSome r = true).

Lemma decode_ref_ok v required ref sha r : decode_ref v required required = Ok (ref, sha, r) -> ref_fits required ref sha r.
Proof.
  unfold decode_ref, ref_fits.
  destruct (match v with JNull => _ | _ => _ end) eqn:Hnull.
  { intros [= <- <- <-]. split_and!; try done. destruct v; try done. by destruct required. }
  intros H. inv_ok H. apply safe_display_text_ok in Hok2. destruct u0 as [x|].
  - inv_ok H. apply safe_sha_ok in Hok3 as [Hsha Hreq].
    assert (repository_fits x) as Hx.
    { destruct (field "repo" u); try done. inv_ok Hok0. by eapply decode_repository_ok. }
    split_and!; try done; [by intros y [= <-]|auto].
  - injection H as <- <- <-. split_and!; try done. intros ->. done.
Qed.

Record pull_request_fits (require_head : bool) (number : Z) (pr : ResolvedPullRequest) : Prop := {
  pr_fits_name : validate_repository_full_name (pr_repository_full_name pr) = Ok (pr_repository_full_name pr);
  pr_fits_ids : 1 <= pr_repository_id pr /\ 1 <= pr_pull_request_id pr;
  pr_fits_nodes : NODE_ID (pr_repository_node_id pr) = true /\ NODE_ID (pr_pull_request_node_id pr) = true;
  pr_fits_number : pr_pull_request_number pr = number /\ number_ok number = true;
  pr_fits_state : pr_state pr ∈ ["open"; "closed"];
  pr_fits_refs : DISPLAY_TEXT (pr_base_ref pr) = true /\ DISPLAY_TEXT (pr_head_ref pr) = true;
  pr_fits_base : is_sha (pr_base_sha pr) = true;
  pr_fits_head : match pr_head_sha pr, pr_head_repository_full_name pr, pr_head_repository_id pr with
                 | Some sha, Some name, Some id =>
                     is_sha sha = true /\ validate_repository_full_name name = Ok name /\ 1 <= id
                 | None, _, _ => require_head = false
                 | _, _, _ => False
                 end;
}.

Lemma decode_state_ok v s : decode_state v = Ok s -> s ∈ ["open"; "closed"].
Proof. destruct v; try done. cbn. case_bool_decide as Hs; [|done]. by intros [= <-]. Qed.

(** A head without a commit has no repository, or the commit was not a full one. *)
Lemma decode_pull_request_ok v repository number require_head pr :
  repository_fits repository -> number_ok number = true ->
  decode_pull_request v repository number require_head = Ok pr -> pull_request_fits require_head number pr.
Proof.
  intros [Hn Hi Hno] Hnum H. unfold decode_pull_request in H. inv_ok H.
  destruct u3 as [[base_ref base_sha] base_repo]. inv_ok H. destruct u3 as [[head_ref head_sha] head_repo]. inv_ok H.
  apply decode_ref_ok in Hok4 as (Hb1 & Hb2 & Hb3 & _ & Hb4), Hok6 as (Hh1 & Hh2 & Hh3 & Hh4 & Hh5).
  destruct (Hb4 eq_refl) as [Hbs _]. destruct base_sha as [base|]; [|done].
  split; cbn; eauto using decode_state_ok, safe_node_id_ok; [split; [lia|]; match goal with H : safe_id _ = Ok _ |- _ => apply safe_id_ok in H; lia end|].
  destruct head_sha as [sha|].
  - destruct head_repo as [x|]; [|by specialize (Hh4 eq_refl)]. cbn.
    destruct (Hh3 x eq_refl) as [Hx1 Hx2 _]. split_and!; [done..|lia].
  - destruct require_head; [|done]. by destruct (Hh5 eq_refl).
Qed.

(** ** The rows of requests *)

Lemma repository_name_length s : validate_repository_full_name s = Ok s -> length_between 3 255 s = true.
Proof.
  unfold validate_repository_full_name, REPOSITORY_PATTERN. intros H.
  destruct (split_on (chr 47) (to_chars s)) as [|a [|b [|]]] eqn:Hs; try done.
  destruct (segment_ok a && segment_ok b) eqn:Hab; [|done]. clear H.
  pose proof (join_split (chr 47) (to_chars s)) as Hj. rewrite of_to_chars, Hs in Hj. cbn in Hj.
  unfold segment_ok in Hab. rewrite !andb_true_iff, !Z.leb_le in Hab.
  unfold length_between. rewrite andb_true_iff, !Z.leb_le.
  rewrite <-to_chars_length, <-Hj, !to_chars_app, !to_of_chars, !length_app. cbn [to_chars length]. lia.
Qed.

Lemma node_id_length s : NODE_ID s = true -> length_between 1 128 s = true.
Proof. unfold NODE_ID. by intros [H _]%andb_true_iff. Qed.

Lemma display_length s : DISPLAY_TEXT s = true -> length_between 1 255 s = true.
Proof. unfold DISPLAY_TEXT. by intros [H _]%andb_true_iff. Qed.

Lemma sha_length s : is_sha s = true -> (str_length s =? 40) = true.
Proof. unfold is_sha, exactly. by intros [H _]%andb_true_iff. Qed.

(** SHA-256 keeps its eight words. *)
Lemma round_length st kw : length st = 8%nat -> length (Sha256.round st kw) = 8%nat.
Proof. do 9 (destruct st as [|? st]; try done). Qed.

Lemma compress_length h block : length h = 8%nat -> length (Sha256.compress h block) = 8%nat.
Proof.
  intros Hh. unfold Sha256.compress. rewrite length_zip_with.
  assert (forall l st, length st = 8%nat -> length (foldl Sha256.round st l) = 8%nat) as Hfold.
  { induction l as [|x l IH]; intros st Hst; [done|]. cbn. apply IH. by apply round_length. }
  rewrite Hfold by done. lia.
Qed.

Lemma blocks_length fuel h ws : length h = 8%nat -> length (Sha256.blocks fuel h ws) = 8%nat.
Proof.
  revert h ws. induction fuel as [|fuel IH]; intros h ws Hh; [done|]. cbn [Sha256.blocks].
  destruct ws; [done|]. apply IH. by apply compress_length.
Qed.

Lemma sha256_hex_length s : str_length (sha256_hex s) = 64.
Proof.
  unfold sha256_hex, Sha256.hexdigest. rewrite <-to_chars_length, to_of_chars.
  assert (forall l, length (concat (map Sha256.hex32 l)) = (8 * length l)%nat) as Hc.
  { induction l as [|x l IH]; [done|]. cbn [map concat]. rewrite length_app, IH. cbn [length].
    change (length (Sha256.hex32 x)) with 8%nat. lia. }
  rewrite Hc. unfold Sha256.digest. rewrite blocks_length by done. done.
Qed.

(** The service talking to GitHub through the transport *)
Definition outside_of (bracketed_ok : list ascii -> bool) (t : Transport) (nets : nat -> Net)
    (others : nat -> gmap Z GitHubRequest * World -> gmap Z GitHubRequest * World)
    (clocks : nat -> Z) (tokens : nat -> string) : Outside :=
  {| out_cancelled := fun _ => None; out_others := others; out_clock := clocks; out_token := tokens;
     out_actor := fun n => (resolve_authenticated_actor bracketed_ok t (nets n) []).1;
     out_pull_request := fun n repository number head =>
       (resolve_pull_request bracketed_ok t (nets n) repository number head []).1;
     out_get_comment := fun n repository id => (get_comment bracketed_ok t (nets n) repository id []).1;
     out_list_comments := fun n repository number => (list_comments bracketed_ok t (nets n) repository number []).1;
     out_create_comment := fun n repository number body =>
       (create_comment bracketed_ok t (nets n) repository number body []).1;
     out_update_comment := fun n repository id body =>
       (update_comment bracketed_ok t (nets n) repository id body []).1 |}.

(** The lengths that the table allows of the configured strings, and of the name and
    the version of a manifest *)
Definition settings_fit (settings : GitHubSettings) : bool :=
  length_between 1 512 (gh_api_url settings) && length_between 1 255 (gh_host settings)
  && length_between 1 128 (gh_operator_id settings).

Definition manifest_fits (m : TrustedManifest) : bool :=
  length_between 1 128 (tm_name m) && length_between 1 64 (tm_version m).

Lemma decode_actor_ok v a : decode_actor v = Ok a -> 1 <= actor_id a /\ NODE_ID (actor_node_id a) = true.
Proof.
  unfold decode_actor. intros H. inv_ok H. cbn. apply safe_id_ok in Hok0. apply safe_node_id_ok in Hok1.
  split; [lia|done].
Qed.

Section fits.
Context (bracketed_ok : list ascii -> bool) (t : Transport).

Lemma actor_fits net sent a sent' :
  resolve_authenticated_actor bracketed_ok t net sent = (Ok a, sent') ->
  1 <= actor_id a /\ NODE_ID (actor_node_id a) = true.
Proof.
  unfold resolve_authenticated_actor, handle. intros H.
  match type of H with context [match ?m with _ => _ end = _] => destruct m as [[a'|e] s1] eqn:Hm end.
  - injection H as -> ->. inv_run Hm. destruct a0. inv_run Hm. by eapply decode_actor_ok.
  - destruct e as [[] reason| | | |]; discriminate H.
Qed.

Lemma resolve_fits net repository number require_head sent pr sent' :
  resolve_pull_request bracketed_ok t net repository number require_head sent = (Ok pr, sent') ->
  pull_request_fits require_head number pr.
Proof.
  unfold resolve_pull_request. intros H. inv_run H. destruct a1 as [payload headers]. inv_run H.
  destruct a2 as [payload2 headers2]. inv_run H. eapply decode_pull_request_ok; [by eapply decode_repository_ok|done|done].
Qed.
End fits.

(** C37. What the transport resolves always fits the table: the row that a validation
    request for a well-formed repository name inserts, whatever GitHub answered, satisfies the CHECK constraints exactly
    when the configuration does (an API address of at most 512 characters, which the
    validation of the settings does not ensure, a host of at most 255, an operator id of
    at most 128) and the name and version of the manifest do; no answer of GitHub can
    make the insertion violate one. *)
Theorem resolved_request_fits bracketed_ok t nets others clocks tokens settings repository number m p work_order n k actor pr :
  validate_repository_full_name repository = Ok repository ->
  out_actor (outside_of bracketed_ok t nets others clocks tokens) n = Ok actor ->
  out_pull_request (outside_of bracketed_ok t nets others clocks tokens) k repository number true = Ok pr ->
  exists head_sha head_repository head_id,
    pr_head_sha pr = Some head_sha /\ pr_head_repository_full_name pr = Some head_repository /\
    pr_head_repository_id pr = Some head_id /\
    identity_check (new_identity settings repository (idempotency_key settings actor pr head_sha m p) head_sha
                      head_repository head_id actor pr m work_order) = settings_fit settings && manifest_fits m.
Proof.
  cbn [outside_of out_actor out_pull_request]. intros Hrepo Ha Hpr.
  destruct (resolve_authenticated_actor bracketed_ok t (nets n) []) as [ra sa] eqn:Hra.
  destruct (resolve_pull_request bracketed_ok t (nets k) repository number true []) as [rp sp] eqn:Hrp. cbn in Ha, Hpr. subst.
  apply actor_fits in Hra as [Hid Hnode]. apply resolve_fits in Hrp as [Hname [Hi1 Hi2] [Hn1 Hn2] [Hnum Hok] Hst [Hr1 Hr2] Hb Hh].
  destruct (pr_head_sha pr) as [sha|]; [|done]. destruct (pr_head_repository_full_name pr) as [name|]; [|done].
  destruct (pr_head_repository_id pr) as [id|]; [|done]. destruct Hh as (Hsha & Hhn & Hhi).
  exists sha, name, id. split_and!; [done..|].
  unfold number_ok in *. rewrite !andb_true_iff, !Z.leb_le in *.
  assert (str_length (idempotency_key settings actor pr sha m p) = 64) as Hkey by apply sha256_hex_length.
  assert (str_length (tm_digest m) = 64) as Hdigest by apply sha256_hex_length.
  unfold identity_check, new_identity. revert Hkey Hdigest.
  generalize (idempotency_key settings actor pr sha m p) as key, (tm_digest m) as digest. intros key digest Hkey Hdigest.
  cbn [ri_schema_version ri_idempotency_key ri_head_sha ri_base_sha ri_manifest_digest ri_pull_request_number
       ri_repository_id ri_pull_request_id ri_head_repository_id ri_github_api_url ri_github_host
       ri_repository_full_name ri_head_repository_full_name ri_repository_node_id ri_pull_request_node_id
       ri_github_actor_id ri_github_actor_node_id ri_pull_request_state ri_base_ref ri_head_ref
       ri_manifest_name ri_manifest_version ri_operator_id].
  apply eq_true_iff_eq. unfold settings_fit, manifest_fits.
  rewrite Hkey, Hdigest, !andb_true_iff, !Z.leb_le. rewrite bool_decide_eq_true_2 by done.
  split; [tauto|]. intros.
  repeat split; auto using node_id_length, display_length, sha_length, repository_name_length; try lia; tauto.
Qed.

(** ** The address of an issue *)

Lemma repo_char_unreserved c : repo_char c = true -> unreserved c = true.
Proof.
  unfold repo_char, unreserved. rewrite !orb_true_iff, !Z.eqb_eq. intros Hc.
  rewrite bool_decide_eq_true. rewrite !elem_of_cons. tauto.
Qed.

Lemma unreserved_plain c : unreserved c = true -> is_chr 37 c = false /\ is_chr 47 c = false.
Proof.
  intros Hc. unfold is_chr. split; apply Z.eqb_neq; intros Heq;
    unfold unreserved, is_alnum, is_digit, is_upper, is_lower, in_range in Hc; rewrite Heq in Hc; done.
Qed.

(** A valid name is two segments that quoting leaves alone. *)
Lemma valid_segments s :
  validate_repository_full_name s = Ok s ->
  exists a b, to_chars s = a ++ chr 47 :: b /\ s = of_chars a +:+ "/" +:+ of_chars b /\
    forallb unreserved a = true /\ forallb unreserved b = true.
Proof.
  unfold validate_repository_full_name, REPOSITORY_PATTERN. intros H.
  destruct (split_on (chr 47) (to_chars s)) as [|a [|b [|]]] eqn:Hs; try done.
  destruct (segment_ok a && segment_ok b) eqn:Hab; [|done]. clear H. exists a, b.
  pose proof (join_split (chr 47) (to_chars s)) as Hj. rewrite of_to_chars, Hs in Hj. cbn in Hj.
  unfold segment_ok in Hab. rewrite !andb_true_iff in Hab. destruct Hab as [[_ Ha] [_ Hb]].
  assert (forall l, forallb repo_char l = true -> forallb unreserved l = true) as Hsub.
  { intros l. rewrite !forallb_Forall. intros Hl. eapply Forall_impl; [exact Hl|]. apply repo_char_unreserved. }
  split; [|split; [by rewrite <-Hj|auto]].
  rewrite <-Hj, to_chars_app, to_of_chars. f_equal.
  change (chr 47 :: to_chars (of_chars b) = chr 47 :: b). by rewrite to_of_chars.
Qed.

Lemma unreserved_no_slash a : forallb unreserved a = true -> chr 47 ∉ a.
Proof.
  intros Ha Hin. apply forallb_Forall in Ha. rewrite Forall_forall in Ha. specialize (Ha _ Hin).
  by destruct (unreserved_plain _ Ha).
Qed.

Lemma unquote_unreserved a : forallb unreserved a = true -> unquote a = a.
Proof.
  intros Ha. apply unquote_plain. apply forallb_Forall in Ha. eapply Forall_impl; [exact Ha|].
  intros c Hc. by apply unreserved_plain.
Qed.

Lemma canonical_int_ok text n : canonical_int text = Some n -> text = to_chars (str_of_int n).
Proof. unfold canonical_int. repeat (case_bool_decide || destruct (forallb _ _)); cbn; try done. by intros [= <-]. Qed.

Definition issue_path (t : Transport) (full_name : string) (number : Z) : list ascii :=
  rstrip_slash (expected_path_prefix t)
  ++ to_chars ("/repos/" +:+ full_name +:+ "/issues/" +:+ str_of_int number).

Lemma starts_with_app p l : starts_with p l = true -> exists r, l = p ++ r.
Proof.
  revert l. induction p as [|c p IH]; intros l; [by eauto|]. destruct l as [|d l]; [done|].
  cbn. intros [Hc Hp]%andb_true_iff. destruct (IH l Hp) as [r ->]. exists r.
  by apply bool_decide_eq_true in Hc as ->.
Qed.

Lemma str_of_int_digits n :
  0 < n -> exists ds, to_chars (str_of_int n) = ds /\ ds <> [] /\ forallb is_digit ds = true /\ int_of_digits ds = n.
Proof.
  intros Hn. destruct n as [|p|p]; [lia| |lia]. unfold str_of_int, pretty, pretty_Z.
  change (pretty p) with (pretty (N.pos p)). unfold pretty, pretty_N. destruct (decide _); [done|].
  destruct (pretty_go_digits (N.pos p) "") as (ds & -> & Hdig & Hval & Hhead).
  destruct Hhead as (c & ds' & -> & _); [lia|]. exists (c :: ds'). rewrite app_nil_r. auto.
Qed.

Lemma canonical_int_str n : 0 < n -> canonical_int (to_chars (str_of_int n)) = Some n.
Proof.
  intros Hn. destruct (str_of_int_digits n Hn) as (ds & Hds & Hne & Hdig & Hval).
  unfold canonical_int. rewrite Hds, Hval, Hdig, Hds. rewrite bool_decide_eq_false_2 by done.
  by rewrite bool_decide_eq_true_2.
Qed.

Lemma digits_no_slash l : forallb is_digit l = true -> chr 47 ∉ l.
Proof.
  intros Hl Hin. apply forallb_Forall in Hl. rewrite Forall_forall in Hl. by specialize (Hl _ Hin).
Qed.

Lemma starts_with_prefix p l : starts_with p (p ++ l) = true.
Proof. induction p as [|c p IH]; [done|]. cbn. by rewrite bool_decide_eq_true_2. Qed.

(** The path of an issue, below its prefix, splits into its four parts. *)
Lemma issue_path_split a b n :
  forallb unreserved a = true -> forallb unreserved b = true -> 0 < n ->
  split_on (chr 47) (a ++ chr 47 :: b ++ chr 47 :: to_chars "issues" ++ chr 47 :: to_chars (str_of_int n))
  = [a; b; to_chars "issues"; to_chars (str_of_int n)].
Proof.
  intros Ha Hb Hn. destruct (str_of_int_digits n Hn) as (ds & -> & _ & Hdig & _).
  rewrite split_on_app by by apply unreserved_no_slash.
  rewrite split_on_app by by apply unreserved_no_slash.
  rewrite split_on_app by by apply (unreserved_no_slash (to_chars "issues")).
  by rewrite split_on_plain by by apply digits_no_slash.
Qed.

Lemma one_separator (c : ascii) a b a' b' :
  a ++ c :: b = a' ++ c :: b' -> c ∉ a -> c ∉ b -> a' = a /\ b' = b.
Proof.
  revert a'. induction a as [|x a IH]; intros a' Heq Ha Hb.
  - destruct a' as [|y a']; [by simplify_eq/=|]. injection Heq as -> ->. destruct Hb. set_solver.
  - destruct a' as [|y a']; [injection Heq as -> _; destruct Ha; by left|].
    injection Heq as -> Heq. destruct (IH a' Heq) as [-> ->]; [set_solver|done|done].
Qed.

(** The two segments of a decoded name, which their quoting leaves alone *)
Lemma decoded_segments a b :
  let full := of_chars (unquote a) +:+ "/" +:+ of_chars (unquote b) in
  validate_repository_full_name full = Ok full -> quote (unquote a) = a -> quote (unquote b) = b ->
  full = of_chars a +:+ "/" +:+ of_chars b /\ to_chars full = a ++ chr 47 :: b.
Proof.
  intros full Hv Ha Hb. destruct (valid_segments full Hv) as (x & y & Hc & _ & Hx & Hy).
  assert (to_chars full = unquote a ++ chr 47 :: unquote b) as Hf.
  { unfold full. rewrite to_chars_app, to_of_chars. f_equal.
    change (chr 47 :: to_chars (of_chars (unquote b)) = chr 47 :: unquote b). by rewrite to_of_chars. }
  rewrite Hf in Hc. symmetry in Hc.
  destruct (one_separator (chr 47) x y (unquote a) (unquote b) Hc) as [Hua Hub]; [by apply unreserved_no_slash..|].
  rewrite Hua in Ha. rewrite Hub in Hb. rewrite quote_unreserved in Ha, Hb by done.
  split; [unfold full; congruence|]. rewrite Hf. congruence.
Qed.

(** The path of an issue, character by character *)
Lemma issue_path_chars t full a b n :
  to_chars full = a ++ chr 47 :: b ->
  issue_path t full n =
  (rstrip_slash (expected_path_prefix t) ++ to_chars "/repos/")
  ++ a ++ chr 47 :: b ++ chr 47 :: to_chars "issues" ++ chr 47 :: to_chars (str_of_int n).
Proof.
  intros Hf. unfold issue_path. rewrite <-app_assoc. f_equal.
  rewrite (to_chars_app "/repos/"), (to_chars_app full), (to_chars_app "/issues/"), Hf, <-app_assoc. done.
Qed.

Definition issue_address (bracketed_ok : list ascii -> bool) (t : Transport) (s full : string) (n : Z) : Prop :=
  str_length s <= MAX_GITHUB_STRING_LENGTH /\ validate_repository_full_name full = Ok full /\ number_ok n = true /\
  exists u, urlsplit bracketed_ok (to_chars s) = Some u /\ origin_of u = Some (expected_origin t) /\
    url_path u = issue_path t full n /\ has_user (url_netloc u) = false /\ url_query u = [] /\ url_fragment u = [].

Lemma issue_association_sound bracketed_ok t s full n :
  decode_issue_association bracketed_ok t (JStr s) = Ok (full, n) -> issue_address bracketed_ok t s full n.
Proof.
  unfold decode_issue_association, issue_address. intros H. inv_ok H.
  destruct (urlsplit bracketed_ok (to_chars s)) as [u|]; [|done].
  destruct (origin_of u) as [origin|] eqn:Ho; [|done]. inv_ok H.
  destruct (issue_parts _) as [[[a b] num]|] eqn:Hp; [|done].
  destruct (canonical_int num) as [k|] eqn:Hk; [|done].
  destruct (validate_repository_full_name _) as [full'|] eqn:Hv; [|done]. inv_ok H. simplify_eq.
  apply validated_name in Hv as Hv'. subst full'.
  repeat match goal with H : bool_decide _ = true |- _ => apply bool_decide_eq_true in H end. subst.
  destruct (decoded_segments a b Hv) as [Efull Echars]; [done..|].
  split; [lia|]. split; [done|].
  split; [unfold number_ok; rewrite andb_true_iff, !Z.leb_le; lia|].
  exists u. split; [done|]. split; [done|].
  split; [|done]. rewrite (issue_path_chars t _ a b n Echars).
  match goal with H : starts_with _ _ = true |- _ => destruct (starts_with_app _ _ H) as [r Hr] end.
  rewrite Hr in *. f_equal. rewrite drop_app_length in Hp.
  pose proof (join_split (chr 47) r) as Hj. unfold issue_parts in Hp.
  destruct (split_on (chr 47) r) as [|p1 [|p2 [|p3 [|p4 [|]]]]]; try done.
  case_bool_decide as H3; [|done]. injection Hp as -> -> ->. subst p3.
  apply canonical_int_ok in Hk as ->. rewrite <-(to_of_chars r), <-Hj. cbn [map join].
  rewrite !to_chars_app, !to_of_chars. done.
Qed.

Lemma issue_association_complete bracketed_ok t s full n :
  issue_address bracketed_ok t s full n -> decode_issue_association bracketed_ok t (JStr s) = Ok (full, n).
Proof.
  intros (Hlen & Hv & Hn & u & Hs & Ho & Hpath & Hu & Hq & Hf).
  destruct (valid_segments full Hv) as (a & b & Hc & Hfull & Ha & Hb).
  unfold decode_issue_association. rewrite Hs, Ho, Hu, Hq, Hf, Hpath, (issue_path_chars t full a b n Hc).
  assert (0 < n) as Hpos by (unfold number_ok in Hn; lia).
  rewrite starts_with_prefix, drop_app_length, issue_path_split by done.
  assert ((MAX_GITHUB_STRING_LENGTH <? str_length s) = false) as -> by (apply Z.ltb_ge; lia).
  cbn [issue_parts]. rewrite bool_decide_eq_true_2 by done.
  rewrite canonical_int_str, !unquote_unreserved, <-Hfull, Hv, !quote_unreserved by done.
  rewrite !bool_decide_eq_true_2 by done. unfold number_ok in Hn. rewrite Hn. done.
Qed.

(** The address of an issue is decoded exactly: an accepted address has the configured
    origin, no credentials, query or fragment, and the path of that issue of that repository
    in its one canonical spelling; and every such address is accepted. *)
Theorem issue_association_exact bracketed_ok t s full n :
  decode_issue_association bracketed_ok t (JStr s) = Ok (full, n) <-> issue_address bracketed_ok t s full n.
Proof. split; [apply issue_association_sound|apply issue_association_complete]. Qed.

(** ** Answers that are not refused as the adapter's errors

    A state that is a list, and the address of an issue with an impossible port: the
    [TypeError] and the [ValueError] are not turned into a [GitHubTransportError]. *)
Theorem malformed_answer_escapes bracketed_ok t :
  decode_state (JList []) = Err OtherError /\
  decode_issue_association bracketed_ok t (JStr "https://api.github.com:port/repos/o/r/issues/1") = Err OtherError.
Proof. split; reflexivity. Qed.
