(* ===== verification/Operator.v ===== *)
(** * The operator projection

    [server/execution/operator_projection.py]: the read models of the dashboard.  An
    overview of a window of days, the page of workers with their routing profiles, and the
    page of validation requests with their orders and latest runs.  Nothing here writes; each
    answer is a function of the tables, and the response models check its bounds. *)

From Stdlib Require Import QArith.
From S2P Require Import Prelude Text Json Enums Evidence Floats Registry Capabilities Models Routing Repository Steps Invariants Checks GitHub.
#[local] Open Scope Z_scope.

Definition MAX_OPERATOR_LIMIT : Z := 100.
Definition MAX_OPERATOR_OFFSET : Z := 10000.
Definition MAX_OPERATOR_WINDOW_DAYS : Z := 365.
Definition MAX_OPERATOR_BROWSER_COUNT : Z := 8.
Definition MAX_OPERATOR_BROWSER_LENGTH : Z := 64.

(** The timestamp columns that only this projection reads, by the key of their row. *)
Record Stamps := {
  request_created_at : Z -> Z;
  request_updated_at : Z -> Z;
  order_created_at : Z -> Z;
  run_created_at : Z -> Z;
  profile_updated_at : string -> Z;
}.

(** A pydantic model: its fields, and the constraints that construction checks. *)
Definition validated {A} (ok : A -> bool) (value : A) : Result string A :=
  if ok value then Ok value else Err "validation_error".

Lemma model_validated_ok {A} (ok : A -> bool) x y : validated ok x = Ok y <-> y = x /\ ok x = true.
Proof. unfold validated. destruct (ok x); split; [intros [= ->]|intros [-> _]|done|intros [_ ?]]; done. Qed.

(** ** Seconds *)

(** [max(0.0, (finished - started).total_seconds())]; [None] is infinity. *)
Definition run_seconds (started finished : Z) : option Q :=
  if finished <? started then Some (inject_Z 0) else round64 (finished - started) 1000000.

(** The sum of two floats that are not negative *)
Definition float_add (a b : option Q) : option Q :=
  match a, b with
  | Some p, Some q => let s := Qred (p + q) in round64 (Qnum s) (Z.pos (Qden s))
  | _, _ => None
  end.

Definition float_ge_0 (x : option Q) : bool := opt_all (fun q => Qle_bool (inject_Z 0) q) x.

(** ** Workers *)

Inductive ActivityState := Active | Stale | CapacityConstrained | Unavailable.

#[global] Instance ActivityState_eq : EqDecision ActivityState.
Proof. solve_decision. Defined.

(** [_fresh] of this file: unlike routing's, a window of zero seconds is not refused here. *)
Definition operator_fresh (value : option Z) (now window : Z) : bool :=
  match value with Some v => now - seconds window <=? v | None => false end.

Definition worker_activity_state (w : Worker)
    (now heartbeat_freshness_seconds active_poll_freshness_seconds : Z) : ActivityState :=
  match w_status w with
  | DRAINING | OFFLINE => Unavailable
  | ONLINE | BUSY =>
      if (w_active_run_count w <? 0) || (w_max_concurrency w <? 1)
         || (w_max_concurrency w <? w_active_run_count w)
         || (heartbeat_freshness_seconds <? 0) || (active_poll_freshness_seconds <? 0)
      then Unavailable
      else if negb (operator_fresh (Some (w_last_heartbeat_at w)) now heartbeat_freshness_seconds)
              || negb (operator_fresh (w_last_checkout_poll_at w) now active_poll_freshness_seconds)
      then Stale
      else if bool_decide (w_status w = BUSY) || (w_max_concurrency w <=? w_active_run_count w)
      then CapacityConstrained
      else Active
  end.

(** [_bounded_browsers], with the list it has built so far *)
Fixpoint bounded_browsers (kept value : list string) : list string :=
  match value with
  | [] => kept
  | item :: rest =>
      if MAX_OPERATOR_BROWSER_COUNT <=? Z.of_nat (length kept) then kept
      else
        let browser := strip item in
        if int_between 1 MAX_OPERATOR_BROWSER_LENGTH (str_length browser)
        then bounded_browsers (kept ++ [browser]) rest
        else bounded_browsers kept rest
  end.

(** [_network_policy_capability] *)
Definition operator_network_policy (policy : NetworkPolicy) : string :=
  match policy with DISABLED => "disabled" | WORKER_RESTRICTED => "worker_restricted" end.

Record RoutingProfileSummaryOut := {
  ps_enabled : bool;
  ps_estimated_cost_units_per_run : Z;
  ps_quota_capacity_units : Z;
  ps_quota_remaining_units : Z;
  ps_quota_reset_at : option Z;
  ps_routing_priority : Z;
  ps_revision : Z;
  ps_updated_at : Z;
}.

Definition profile_summary_check (p : RoutingProfileSummaryOut) : bool :=
  (0 <=? ps_estimated_cost_units_per_run p) && (0 <=? ps_quota_capacity_units p)
  && (0 <=? ps_quota_remaining_units p) && (0 <=? ps_routing_priority p) && (1 <=? ps_revision p).

Record ExecutionWorkerSummaryOut := {
  ws_worker_id : string;
  ws_display_name : string;
  ws_operating_system : string;
  ws_architecture : string;
  ws_python_version : option string;
  ws_node_version : option string;
  ws_docker_available : bool;
  ws_browsers : list string;
  ws_gpu_available : bool;
  ws_unity_available : bool;
  ws_desktop_available : bool;
  ws_network_policy_capability : string;
  ws_repository_write_capability : bool;
  ws_repository_full_names : list string;
  ws_status : string;
  ws_activity_state : ActivityState;
  ws_active_run_count : Z;
  ws_max_concurrency : Z;
  ws_last_heartbeat_at : Z;
  ws_last_checkout_poll_at : option Z;
  ws_profile : option RoutingProfileSummaryOut;
}.

Definition worker_status_value (s : WorkerStatus) : string :=
  match s with ONLINE => "online" | BUSY => "busy" | DRAINING => "draining" | OFFLINE => "offline" end.

(** The texts of a worker summary within their bounds *)
Definition summary_texts (s : ExecutionWorkerSummaryOut) : bool :=
  len_between 1 128 (ws_worker_id s) && len_between 1 255 (ws_display_name s)
  && len_between 1 64 (ws_operating_system s) && len_between 1 64 (ws_architecture s)
  && opt_all (len_between 0 64) (ws_python_version s) && opt_all (len_between 0 64) (ws_node_version s)
  && (Z.of_nat (length (ws_repository_full_names s)) <=? 32).

Definition worker_summary_check (s : ExecutionWorkerSummaryOut) : bool :=
  summary_texts s
  && forallb (fun b => int_between 1 MAX_OPERATOR_BROWSER_LENGTH (str_length (strip b))) (ws_browsers s)
  && (Z.of_nat (length (ws_browsers s)) <=? MAX_OPERATOR_BROWSER_COUNT)
  && bool_decide (ws_network_policy_capability s ∈ ["disabled"; "worker_restricted"])
  && negb (ws_repository_write_capability s)
  && len_between 1 32 (ws_status s)
  && (0 <=? ws_active_run_count s) && (1 <=? ws_max_concurrency s).

(** ** The page of workers *)

Section projection.
Context (d : DB) (g : gmap Z GitHubRequest) (stamps : Stamps).

Definition profile_summary (p : RoutingProfile) : Result string RoutingProfileSummaryOut :=
  validated profile_summary_check
    {| ps_enabled := rp_enabled p;
       ps_estimated_cost_units_per_run := rp_estimated_cost_units_per_run p;
       ps_quota_capacity_units := rp_quota_capacity_units p;
       ps_quota_remaining_units := rp_quota_remaining_units p;
       ps_quota_reset_at := rp_quota_reset_at p; ps_routing_priority := rp_routing_priority p;
       ps_revision := rp_revision p; ps_updated_at := profile_updated_at stamps (rp_worker_id p) |}.

(** The keyword arguments of the summary of a worker *)
Definition worker_fields (w : Worker) (profile : option RoutingProfileSummaryOut)
    (now heartbeat_freshness_seconds active_poll_freshness_seconds : Z) : ExecutionWorkerSummaryOut :=
  let c := wi_capabilities (w_info w) in
  {| ws_worker_id := w_worker_id w; ws_display_name := wi_display_name (w_info w);
     ws_operating_system := operating_system c; ws_architecture := architecture c;
     ws_python_version := python_version c; ws_node_version := node_version c;
     ws_docker_available := docker_available c; ws_browsers := bounded_browsers [] (browsers c);
     ws_gpu_available := gpu_available c; ws_unity_available := unity_available c;
     ws_desktop_available := desktop_available c;
     ws_network_policy_capability := operator_network_policy (network_policy_capability c);
     ws_repository_write_capability := repository_write_capability c;
     ws_repository_full_names := wi_repository_full_names (w_info w);
     ws_status := worker_status_value (w_status w);
     ws_activity_state :=
       worker_activity_state w now heartbeat_freshness_seconds active_poll_freshness_seconds;
     ws_active_run_count := w_active_run_count w; ws_max_concurrency := w_max_concurrency w;
     ws_last_heartbeat_at := w_last_heartbeat_at w;
     ws_last_checkout_poll_at := w_last_checkout_poll_at w; ws_profile := profile |}.

Definition worker_summary (now heartbeat_freshness_seconds active_poll_freshness_seconds : Z)
    (row : Worker * option RoutingProfile) : Result string ExecutionWorkerSummaryOut :=
  profile_out ← match row.2 with
                | Some p => out ← profile_summary p; Ok (Some out)
                | None => Ok None
                end;
  validated worker_summary_check
    (worker_fields row.1 profile_out now heartbeat_freshness_seconds active_poll_freshness_seconds).

(** [.limit(limit).offset(offset)] *)
Definition page_of {A} (limit offset : Z) (rows : list A) : list A :=
  take (Z.to_nat limit) (drop (Z.to_nat offset) rows).

Record Page (A : Type) := {
  page_items : list A;
  page_limit : Z;
  page_offset : Z;
  page_total : Z;
}.
#[global] Arguments page_items {_} _.
#[global] Arguments page_limit {_} _.
#[global] Arguments page_offset {_} _.
#[global] Arguments page_total {_} _.

Definition page_check {A} (p : Page A) : bool :=
  int_between 1 MAX_OPERATOR_LIMIT (page_limit p) && int_between 0 MAX_OPERATOR_OFFSET (page_offset p)
  && (0 <=? page_total p).

(** Workers with their profiles, [ORDER BY worker_id] *)
Definition worker_rows : list (Worker * option RoutingProfile) :=
  omap (fun k => w ← db_workers d !! k; Some (w, db_profiles d !! k))
    (sort_strings (map_to_list (db_workers d)).*1).

Definition list_workers (limit offset now heartbeat_freshness_seconds active_poll_freshness_seconds : Z)
    : Result string (Page ExecutionWorkerSummaryOut) :=
  items ← map_result (worker_summary now heartbeat_freshness_seconds active_poll_freshness_seconds)
            (page_of limit offset worker_rows);
  validated page_check
    {| page_items := items; page_limit := limit; page_offset := offset;
       page_total := Z.of_nat (size (db_workers d)) |}.

(** ** The history *)

Record HistoryFilters := {
  hf_repository_full_name : option string;
  hf_pull_request_number : option Z;
  hf_work_order_status : option WorkOrderStatus;
  hf_run_status : option ExecutionRunStatus;
  hf_reuse_decision : option ReuseDecision;
  hf_routing_policy : option RoutingPolicy;
  hf_publication_state : option string;
  hf_created_after : option PyDatetime;
  hf_created_before : option PyDatetime;
}.

Record HistoryRow := {
  hr_request : GitHubRequest;
  hr_order : WorkOrder;
  hr_run : option Run;
}.

(** [where(column == value)] on a joined run; a run that is missing compares as NULL. *)
Definition run_matches (p : Run -> bool) (r : option Run) : bool :=
  match r with Some run => p run | None => false end.

(** [_history_filters] *)
Definition history_filters (f : HistoryFilters) (row : HistoryRow) : bool :=
  let identity := gr_identity (hr_request row) in
  let created := request_created_at stamps (gr_id (hr_request row)) in
  opt_all (fun v => bool_decide (ri_repository_full_name identity = v)) (hf_repository_full_name f)
  && opt_all (fun v => ri_pull_request_number identity =? v) (hf_pull_request_number f)
  && opt_all (fun v => bool_decide (wo_status (hr_order row) = v)) (hf_work_order_status f)
  && opt_all (fun v => run_matches (fun r => bool_decide (run_status r = v)) (hr_run row)) (hf_run_status f)
  && opt_all (fun v => run_matches (fun r => bool_decide (rr_decision (run_reuse r) = v)) (hr_run row))
       (hf_reuse_decision f)
  && opt_all (fun v => bool_decide (wos_routing_policy (wo_spec (hr_order row)) = v)) (hf_routing_policy f)
  && opt_all (fun v => bool_decide (pub_state (gr_publication (hr_request row)) = v)) (hf_publication_state f)
  && opt_all (fun v => utc_naive v <=? created) (hf_created_after f)
  && opt_all (fun v => created <=? utc_naive v) (hf_created_before f).

(** [SELECT max(id) FROM execution_runs WHERE work_order_id = ...] *)
Definition latest_run_id (order : Z) : option Z :=
  foldr (fun r found => if run_work_order_id r =? order then Some (Z.max (run_id r) (default (run_id r) found)) else found)
    None (rows_in_order (db_runs d)).*2.

Definition latest_run (order : Z) : option Run := id ← latest_run_id order; db_runs d !! id.

(** The join of requests with their orders, and the outer join with the latest run *)
Definition joined (with_run : bool) : list HistoryRow :=
  omap (fun r => o ← db_orders d !! ri_work_order_id (gr_identity r);
                 Some {| hr_request := r; hr_order := o;
                         hr_run := if with_run then latest_run (wo_id o) else None |})
    (rows_in_order g).*2.

Definition selected (with_run : bool) (f : HistoryFilters) : list HistoryRow :=
  filter (fun row => Is_true (history_filters f row)) (joined with_run).

(** [count_statement]: the latest run is joined only if a filter asks about it. *)
Definition history_count (f : HistoryFilters) : Z :=
  Z.of_nat (length (selected (isSome (hf_reuse_decision f) || isSome (hf_run_status f)) f)).

(** [ORDER BY created_at DESC, id DESC] *)
Definition newest_first (a b : HistoryRow) : Prop :=
  let time row := request_created_at stamps (gr_id (hr_request row)) in
  time b < time a \/ (time a = time b /\ gr_id (hr_request b) <= gr_id (hr_request a)).

#[global] Instance newest_first_dec : RelDecision newest_first.
Proof. intros a b. unfold newest_first. apply _. Defined.

Definition history_rows (f : HistoryFilters) : list HistoryRow := merge_sort newest_first (selected true f).

Record ExecutionHistoryItemOut := {
  hi_request_id : Z;
  hi_repository_full_name : string;
  hi_pull_request_number : Z;
  hi_tested_head_sha : string;
  hi_manifest_name : string;
  hi_manifest_version : string;
  hi_work_order_id : Z;
  hi_work_order_status : string;
  hi_routing_policy : string;
  hi_preferred_executor : option string;
  hi_maximum_cost_units : option Z;
  hi_required_quota_units : Z;
  hi_run_id : option Z;
  hi_run_status : option string;
  hi_selected_worker_id : option string;
  hi_estimated_cost_units : option Z;
  hi_reuse_decision : option string;
  hi_reused_from_run_id : option Z;
  hi_run_duration_seconds : option (option Q);
  hi_evidence_fingerprint : option string;
  hi_publication_state : string;
  hi_publication_decision : string;
  hi_created_at : Z;
  hi_updated_at : Z;
}.

Definition history_item_check (i : ExecutionHistoryItemOut) : bool :=
  (1 <=? hi_request_id i) && len_between 3 255 (hi_repository_full_name i) && (1 <=? hi_pull_request_number i)
  && COMMIT_SHA (hi_tested_head_sha i) && len_between 1 128 (hi_manifest_name i)
  && len_between 1 64 (hi_manifest_version i) && (1 <=? hi_work_order_id i)
  && len_between 1 32 (hi_work_order_status i) && len_between 1 32 (hi_routing_policy i)
  && opt_all (len_between 0 128) (hi_preferred_executor i) && opt_all (fun n => 0 <=? n) (hi_maximum_cost_units i)
  && (0 <=? hi_required_quota_units i) && opt_all (fun n => 1 <=? n) (hi_run_id i)
  && opt_all (len_between 0 32) (hi_run_status i) && opt_all (len_between 0 128) (hi_selected_worker_id i)
  && opt_all (fun n => 0 <=? n) (hi_estimated_cost_units i) && opt_all (len_between 0 32) (hi_reuse_decision i)
  && opt_all (fun n => 1 <=? n) (hi_reused_from_run_id i) && opt_all float_ge_0 (hi_run_duration_seconds i)
  && opt_all SHA256 (hi_evidence_fingerprint i) && len_between 1 32 (hi_publication_state i)
  && len_between 1 16 (hi_publication_decision i).

(** [_history_item]: the two values read from the run, and the keyword arguments *)
Definition shown_fingerprint (run : Run) : option string :=
  e ← res_evidence_metadata (run_result run);
  if str_length (ev_fingerprint e) =? 64 then Some (ev_fingerprint e) else None.

Definition shown_duration (run : Run) : option (option Q) :=
  started ← run_started_at run; finished ← run_finished_at run; Some (run_seconds started finished).

Definition history_fields (row : HistoryRow) : ExecutionHistoryItemOut :=
  let request := hr_request row in
  let identity := gr_identity request in
  let order := hr_order row in
  let run := hr_run row in
  {| hi_request_id := gr_id request; hi_repository_full_name := ri_repository_full_name identity;
     hi_pull_request_number := ri_pull_request_number identity; hi_tested_head_sha := ri_head_sha identity;
     hi_manifest_name := ri_manifest_name identity; hi_manifest_version := ri_manifest_version identity;
     hi_work_order_id := wo_id order; hi_work_order_status := work_order_status_value (wo_status order);
     hi_routing_policy := routing_policy_value (wos_routing_policy (wo_spec order));
     hi_preferred_executor := wos_preferred_executor (wo_spec order);
     hi_maximum_cost_units := wos_maximum_cost_units (wo_spec order);
     hi_required_quota_units := wos_required_quota_units (wo_spec order);
     hi_run_id := run_id <$> run; hi_run_status := (fun r => run_status_value (run_status r)) <$> run;
     hi_selected_worker_id := run_worker_id <$> run;
     hi_estimated_cost_units := r ← run; xr_estimated_cost_units (run_route r);
     hi_reuse_decision := (fun r => reuse_decision_value (rr_decision (run_reuse r))) <$> run;
     hi_reused_from_run_id := r ← run; rr_reused_from_run_id (run_reuse r);
     hi_run_duration_seconds := r ← run; shown_duration r;
     hi_evidence_fingerprint := r ← run; shown_fingerprint r;
     hi_publication_state := pub_state (gr_publication request);
     hi_publication_decision := pub_decision (gr_publication request);
     hi_created_at := request_created_at stamps (gr_id request);
     hi_updated_at := request_updated_at stamps (gr_id request) |}.

Definition history_item (row : HistoryRow) : Result string ExecutionHistoryItemOut :=
  validated history_item_check (history_fields row).

Definition list_history (limit offset : Z) (f : HistoryFilters) : Result string (Page ExecutionHistoryItemOut) :=
  items ← map_result history_item (page_of limit offset (history_rows f));
  validated page_check
    {| page_items := items; page_limit := limit; page_offset := offset; page_total := history_count f |}.

(** ** The overview *)

Record OperatorWindowOut := { win_days : Z; win_starts_at : Z; win_ends_at : Z }.

Record OperatorRunMetricsOut := {
  rm_total : Z;
  rm_by_status : gmap string Z;
  rm_fresh_successful : Z;
  rm_reused_successful : Z;
  rm_unavailable_exact_reuse : Z;
}.

Record AvoidedWorkMetricsOut := {
  aw_deterministic_executions_avoided : Z;
  aw_reference_seconds_avoided : option Q;
  aw_comparison_units_avoided : Z;
  aw_reuse_rate : option Q;
}.

Record OperatorWorkerMetricsOut := {
  wm_total : Z;
  wm_active : Z;
  wm_stale : Z;
  wm_capacity_constrained : Z;
  wm_unavailable : Z;
}.

Record ExecutionOperatorOverviewOut := {
  ov_window : OperatorWindowOut;
  ov_requests_total : Z;
  ov_work_orders_total : Z;
  ov_work_orders_by_status : gmap string Z;
  ov_runs : OperatorRunMetricsOut;
  ov_avoided_work : AvoidedWorkMetricsOut;
  ov_publications_current : Z;
  ov_publications_stale : Z;
  ov_workers : OperatorWorkerMetricsOut;
}.

Definition overview_check (o : ExecutionOperatorOverviewOut) : bool :=
  let r := ov_runs o in
  let a := ov_avoided_work o in
  let w := ov_workers o in
  int_between 1 MAX_OPERATOR_WINDOW_DAYS (win_days (ov_window o))
  && (0 <=? ov_requests_total o) && (0 <=? ov_work_orders_total o)
  && (0 <=? rm_total r) && (0 <=? rm_fresh_successful r) && (0 <=? rm_reused_successful r)
  && (0 <=? rm_unavailable_exact_reuse r)
  && (0 <=? aw_deterministic_executions_avoided a) && float_ge_0 (aw_reference_seconds_avoided a)
  && (0 <=? aw_comparison_units_avoided a) && float_ge_0 (aw_reuse_rate a)
  && match aw_reuse_rate a with Some q => Qle_bool q (inject_Z 1) | None => false end
  && (0 <=? ov_publications_current o) && (0 <=? ov_publications_stale o)
  && (0 <=? wm_total w) && (0 <=? wm_active w) && (0 <=? wm_stale w)
  && (0 <=? wm_capacity_constrained w) && (0 <=? wm_unavailable w).

(** [_grouped_counts]: [SELECT column, count( * ) ... GROUP BY column] *)
Definition grouped_counts (column : list string) : gmap string Z :=
  foldr (fun v counts => <[v := default 0 (counts !! v) + 1]> counts) ∅ column.

(** How many elements satisfy a condition *)
Definition count_if {A} (p : A -> bool) (l : list A) : Z := Z.of_nat (length (filter (fun x => Is_true (p x)) l)).

Definition succeeded_as (decision : ReuseDecision) (r : Run) : bool :=
  bool_decide (run_status r = RUN_SUCCEEDED) && bool_decide (rr_decision (run_reuse r) = decision).

(** [source_durations]: the runs that were reused and have a duration *)
Definition source_durations (source_ids : list Z) : gmap Z (option Q) :=
  omap (fun r =>
    if bool_decide (run_id r ∈ source_ids)
    then started ← run_started_at r; finished ← run_finished_at r;
         if started <=? finished then Some (run_seconds started finished) else None
    else None) (db_runs d).

Definition seconds_avoided (reused_rows : list Run) : option Q :=
  let source_ids := filter (fun id => id <> 0) (omap (fun r => rr_reused_from_run_id (run_reuse r)) reused_rows) in
  foldl (fun total r =>
    float_add total (default (Some (inject_Z 0))
      (id ← rr_reused_from_run_id (run_reuse r); source_durations source_ids !! id)))
    (Some (inject_Z 0)) reused_rows.

Definition units_avoided (reused_rows : list Run) : Z :=
  foldr (fun r total => default 0 (xr_estimated_cost_units (run_route r)) + total) 0 reused_rows.

Definition runs_since (starts_at : Z) : list Run :=
  filter (fun r => starts_at <= run_created_at stamps (run_id r)) (rows_in_order (db_runs d)).*2.

Definition orders_since (starts_at : Z) : list WorkOrder :=
  filter (fun o => starts_at <= order_created_at stamps (wo_id o)) (rows_in_order (db_orders d)).*2.

Definition requests_since (starts_at : Z) : list GitHubRequest :=
  filter (fun r => starts_at <= request_created_at stamps (gr_id r)) (rows_in_order g).*2.

Definition overview (window_days heartbeat_freshness_seconds active_poll_freshness_seconds now : Z)
    : Result string ExecutionOperatorOverviewOut :=
  let starts_at := now - seconds (window_days * 86400) in
  let work_order_counts := grouped_counts (map (fun o => work_order_status_value (wo_status o)) (orders_since starts_at)) in
  let reuse_rows := runs_since starts_at in
  let run_counts := grouped_counts (map (fun r => run_status_value (run_status r)) reuse_rows) in
  let fresh := count_if (succeeded_as FRESH) reuse_rows in
  let reused_rows := filter (fun r => Is_true (succeeded_as REUSED r)) reuse_rows in
  let reused := Z.of_nat (length reused_rows) in
  let publication_counts := grouped_counts (map (fun r => pub_state (gr_publication r)) (requests_since starts_at)) in
  let worker_states := map (fun w => worker_activity_state w now heartbeat_freshness_seconds
                                       active_poll_freshness_seconds) (map_to_list (db_workers d)).*2 in
  let states s := count_if (fun s' => bool_decide (s' = s)) worker_states in
  let denominator := fresh + reused in
  validated overview_check
    {| ov_window := {| win_days := window_days; win_starts_at := starts_at; win_ends_at := now |};
       ov_requests_total := Z.of_nat (length (requests_since starts_at));
       ov_work_orders_total := msum id work_order_counts; ov_work_orders_by_status := work_order_counts;
       ov_runs := {| rm_total := msum id run_counts; rm_by_status := run_counts; rm_fresh_successful := fresh;
                     rm_reused_successful := reused;
                     rm_unavailable_exact_reuse :=
                       count_if (fun r => bool_decide (rr_decision (run_reuse r) = UNAVAILABLE)) reuse_rows |};
       ov_avoided_work :=
         {| aw_deterministic_executions_avoided := reused;
            aw_reference_seconds_avoided := seconds_avoided reused_rows;
            aw_comparison_units_avoided := units_avoided reused_rows;
            aw_reuse_rate := if denominator =? 0 then Some (inject_Z 0) else round64 reused denominator |};
       ov_publications_current := default 0 (publication_counts !! "published_current");
       ov_publications_stale := default 0 (publication_counts !! "published_stale");
       ov_workers := {| wm_total := Z.of_nat (length worker_states); wm_active := states Active;
                        wm_stale := states Stale; wm_capacity_constrained := states CapacityConstrained;
                        wm_unavailable := states Unavailable |} |}.
End projection.
