(* ===== verification/OperatorProofs.v ===== *)
(** * What the dashboard shows

    The overview returns and its numbers agree with the tables and with each other; the
    pages of the history, read one after another, show every request that meets the filters
    once, newest first; the page of workers shows every worker of a reachable database. *)

From Stdlib Require Import QArith.
From S2P Require Import Prelude Text Json Enums Evidence Floats Registry Capabilities Models Routing Repository Steps Invariants Checks GitHub Operator.
#[local] Open Scope Z_scope.

(** ** Floats *)

Lemma round_half_even_nonneg n d : 0 <= n -> 0 < d -> 0 <= round_half_even n d.
Proof.
  intros Hn Hd. pose proof (Z.div_pos n d Hn Hd). unfold round_half_even.
  destruct (_ ?= _); [destruct (Z.even _)|..]; lia.
Qed.

Lemma round_half_even_le n d k : 0 < d -> n <= k * d -> round_half_even n d <= k.
Proof.
  intros Hd Hk. unfold round_half_even. pose proof (Z.div_mod n d ltac:(lia)).
  pose proof (Z.mod_pos_bound n d Hd).
  destruct (decide (n / d < k)) as [|Hge]; [destruct (_ ?= _); [destruct (Z.even _)|..]; lia|].
  assert (n / d = k) by nia. assert (n mod d = 0) as -> by nia.
  destruct (Z.compare_spec (2 * 0) d); lia.
Qed.

Lemma scaled_pos n d b e : 0 <= n -> 0 < d -> 0 < b -> 0 <= (scaled n d b e).1 /\ 0 < (scaled n d b e).2.
Proof.
  intros Hn Hd Hb. unfold scaled. destruct (Z.leb_spec 0 e); simpl.
  - pose proof (Z.pow_pos_nonneg b e Hb ltac:(lia)). nia.
  - pose proof (Z.pow_pos_nonneg b (- e) Hb ltac:(lia)). nia.
Qed.

Lemma round64_nonneg n d q : 0 <= n -> 0 < d -> round64 n d = Some q -> Qle_bool (inject_Z 0) q = true.
Proof.
  intros Hn Hd. unfold round64. case (n =? 0); [by intros [= <-]|].
  pose proof (scaled_pos n d 2 (- ulp_exponent n d) Hn Hd ltac:(lia)) as [Hn' Hd'].
  destruct (scaled n d 2 _) as [n' d']. cbn [fst snd] in *. case (_ || _); [done|].
  pose proof (scaled_pos (round_half_even n' d') 1 2 (ulp_exponent n d) (round_half_even_nonneg _ _ Hn' Hd')
                ltac:(lia) ltac:(lia)) as [Hv Hw].
  destruct (scaled _ 1 2 _) as [v w]. cbn [fst snd] in *. intros [= <-].
  apply Qle_bool_iff. rewrite Qred_correct. unfold Qle. simpl. nia.
Qed.

Lemma round64_fraction n d : 0 <= n <= d -> 0 < d ->
  exists q, round64 n d = Some q /\ Qle_bool (inject_Z 0) q = true /\ Qle_bool q (inject_Z 1) = true.
Proof.
  intros [Hn Hnd] Hd. assert (exists q, round64 n d = Some q /\ Qle_bool q (inject_Z 1) = true) as (q & Hq & ?).
  2: { exists q. eauto using round64_nonneg. }
  unfold round64. destruct (Z.eqb_spec n 0) as [|Hne]; [by eexists|].
  assert (ulp_exponent n d <= -52) as He.
  { unfold ulp_exponent. pose proof (Z.log2_le_mono n d Hnd). destruct (scaled n d 2 _) as [a b].
    case (b <=? a); lia. }
  generalize dependent (ulp_exponent n d). intros e He.
  assert (scaled n d 2 (- e) = (n * 2 ^ (- e), d)) as ->. { unfold scaled. by rewrite (proj2 (Z.leb_le _ _)) by lia. }
  assert (forall m, scaled m 1 2 e = (m, 2 ^ (- e))) as Hs.
  { intros m. unfold scaled. rewrite (proj2 (Z.leb_gt _ _)) by lia. f_equal. lia. }
  pose proof (Z.pow_pos_nonneg 2 (- e) ltac:(lia) ltac:(lia)) as Hp.
  rewrite (proj2 (Z.ltb_ge 971 e)), (proj2 (Z.eqb_neq e 971)) by lia. cbn [orb andb]. rewrite Hs.
  eexists. split; [done|]. apply Qle_bool_iff. rewrite Qred_correct. unfold Qle. cbn [Qnum Qden inject_Z].
  rewrite Z2Pos.id by done.
  pose proof (round_half_even_le (n * 2 ^ (- e)) d (2 ^ (- e)) Hd ltac:(nia)). lia.
Qed.

Lemma run_seconds_nonneg started finished : float_ge_0 (run_seconds started finished) = true.
Proof.
  unfold run_seconds. destruct (Z.ltb_spec finished started); [done|].
  destruct (round64 _ _) as [q|] eqn:Hq; [|done]. cbn. eapply round64_nonneg, Hq; lia.
Qed.

Lemma float_add_nonneg a b : float_ge_0 a = true -> float_ge_0 b = true -> float_ge_0 (float_add a b) = true.
Proof.
  destruct a as [p|], b as [q|]; [|done..]. cbn. rewrite !Qle_bool_iff. intros Hp Hq.
  assert (0 <= Qred (p + q))%Q as Hs by (rewrite Qred_correct; apply (Qplus_le_compat 0 p 0 q Hp Hq)).
  destruct (round64 _ _) as [r|] eqn:Hr; [|done]. cbn. eapply round64_nonneg, Hr; [|lia].
  unfold Qle in Hs. simpl in Hs. lia.
Qed.

(** ** Counts *)

Lemma count_if_cons {A} (p : A -> bool) x l : count_if p (x :: l) = (if p x then 1 else 0) + count_if p l.
Proof.
  unfold count_if. rewrite filter_cons. destruct (p x); [rewrite decide_True by done|rewrite decide_False by auto];
    cbn [length]; lia.
Qed.

Lemma grouped_counts_lookup column v :
  default 0 (grouped_counts column !! v) = count_if (fun x => bool_decide (x = v)) column.
Proof.
  induction column as [|x column IH]; [done|]. rewrite count_if_cons, <-IH. cbn [grouped_counts foldr].
  fold (grouped_counts column). case_bool_decide as Hx.
  - subst. rewrite lookup_insert_eq. cbn [from_option]. unfold id at 1. lia.
  - by rewrite lookup_insert_ne.
Qed.

Lemma grouped_counts_total column : msum id (grouped_counts column) = Z.of_nat (length column).
Proof.
  induction column as [|x column IH]; [apply msum_empty|]. cbn [grouped_counts foldr length].
  fold (grouped_counts column). destruct (grouped_counts column !! x) as [n|] eqn:Hx; cbn [from_option].
  - rewrite (msum_insert_Some _ _ _ _ _ Hx), IH. unfold id. lia.
  - rewrite msum_insert_None, IH by done. unfold id. lia.
Qed.

Lemma count_if_nonneg {A} (p : A -> bool) l : 0 <= count_if p l.
Proof. unfold count_if. lia. Qed.

Lemma count_if_le {A} (p : A -> bool) l : count_if p l <= Z.of_nat (length l).
Proof. unfold count_if. pose proof (length_filter (fun x => Is_true (p x)) l). lia. Qed.

Lemma count_if_map {A B} (f : A -> B) (p : B -> bool) l : count_if p (map f l) = count_if (fun x => p (f x)) l.
Proof. induction l as [|x l IH]; [done|]. cbn [map]. by rewrite !count_if_cons, IH. Qed.

Lemma count_if_disjoint {A} (p q : A -> bool) l :
  (forall x, p x && q x = false) -> count_if p l + count_if q l <= Z.of_nat (length l).
Proof.
  intros Hpq. induction l as [|x l IH]; [done|]. rewrite !count_if_cons. cbn [length].
  specialize (Hpq x). destruct (p x), (q x); simpl in *; (done || lia).
Qed.

Lemma states_partition (l : list ActivityState) :
  let states s := count_if (fun s' => bool_decide (s' = s)) l in
  states Active + states Stale + states CapacityConstrained + states Unavailable = Z.of_nat (length l).
Proof.
  cbv zeta. induction l as [|s l IH]; [done|]. rewrite !count_if_cons. cbn [length].
  rewrite Nat2Z.inj_succ, <-IH. destruct s; repeat case_bool_decide; (done || lia).
Qed.

(** ** The overview *)

Section overview.
Context (d : DB) (g : gmap Z GitHubRequest) (stamps : Stamps).

Lemma source_durations_nonneg ids id x : source_durations d ids !! id = Some x -> float_ge_0 x = true.
Proof.
  unfold source_durations. rewrite lookup_omap_Some. intros (r & Hx & _). revert Hx.
  case_bool_decide; [|done]. destruct (run_started_at r), (run_finished_at r); cbn; [|done..].
  case (_ <=? _); [|done]. intros [= <-]. apply run_seconds_nonneg.
Qed.

Lemma seconds_avoided_nonneg rows : float_ge_0 (seconds_avoided d rows) = true.
Proof.
  unfold seconds_avoided. set (f := filter _ _). clearbody f. generalize (eq_refl : float_ge_0 (Some (inject_Z 0)) = true).
  generalize (Some (inject_Z 0)) at 1 3. induction rows as [|r rows IH]; intros a Ha; [done|].
  cbn [foldl]. apply IH, float_add_nonneg; [done|].
  destruct (rr_reused_from_run_id (run_reuse r)) as [id|]; [|done]. cbn.
  destruct (source_durations d f !! id) as [x|] eqn:Hx; [|done]. by eapply source_durations_nonneg.
Qed.

Lemma units_avoided_nonneg rows :
  Forall (fun r => opt_all (fun n => 0 <=? n) (xr_estimated_cost_units (run_route r)) = true) rows ->
  0 <= units_avoided rows.
Proof.
  induction 1 as [|r rows Hr _ IH]; [done|]. cbn [units_avoided foldr]. fold (units_avoided rows).
  destruct (xr_estimated_cost_units _) as [n|]; cbn in *; lia.
Qed.

Lemma runs_since_elem starts r : r ∈ runs_since d stamps starts ->
  exists k, db_runs d !! k = Some r.
Proof.
  unfold runs_since. intros [_ Hr]%list_elem_of_filter. apply list_elem_of_fmap in Hr as ([k r'] & -> & Hr).
  exists k. by apply rows_in_order_elem.
Qed.

Lemma reuse_rate_fraction fresh reused : 0 <= fresh -> 0 <= reused ->
  exists q, (if fresh + reused =? 0 then Some (inject_Z 0) else round64 reused (fresh + reused)) = Some q /\
    Qle_bool (inject_Z 0) q = true /\ Qle_bool q (inject_Z 1) = true.
Proof.
  intros Hf Hr. destruct (Z.eqb_spec (fresh + reused) 0); [by eexists|]. apply round64_fraction; lia.
Qed.

(** The overview of a window that the route accepts is always answered, and its numbers are
    consistent: the counts by status add up to the runs and orders created in the window,
    every worker is in exactly one activity state, fresh and reused successes are disjoint
    parts of the runs, and the reuse rate is a fraction. *)
Theorem overview_consistent window heartbeat poll now :
  1 <= window <= MAX_OPERATOR_WINDOW_DAYS ->
  (forall k r, db_runs d !! k = Some r -> opt_all (fun n => 0 <=? n) (xr_estimated_cost_units (run_route r)) = true) ->
  exists o, overview d g stamps window heartbeat poll now = Ok o /\
    let starts := now - seconds (window * 86400) in
    let runs := runs_since d stamps starts in
    let w := ov_workers o in
    ov_work_orders_total o = Z.of_nat (length (orders_since d stamps starts)) /\
    rm_total (ov_runs o) = Z.of_nat (length runs) /\
    (forall s, default 0 (rm_by_status (ov_runs o) !! s)
               = count_if (fun r => bool_decide (run_status_value (run_status r) = s)) runs) /\
    rm_fresh_successful (ov_runs o) + rm_reused_successful (ov_runs o) <= rm_total (ov_runs o) /\
    wm_total w = Z.of_nat (size (db_workers d)) /\
    wm_active w + wm_stale w + wm_capacity_constrained w + wm_unavailable w = wm_total w /\
    exists rate, aw_reuse_rate (ov_avoided_work o) = Some rate /\ (0 <= rate <= 1)%Q.
Proof.
  intros Hw Hcost. set (starts := now - seconds (window * 86400)).
  set (runs := runs_since d stamps starts).
  assert (0 <= units_avoided (filter (fun r => Is_true (succeeded_as REUSED r)) runs)) as Hunits.
  { apply units_avoided_nonneg, Forall_forall. intros r [_ Hr]%list_elem_of_filter.
    apply runs_since_elem in Hr as [k Hk]. eauto. }
  destruct (reuse_rate_fraction (count_if (succeeded_as FRESH) runs) (count_if (succeeded_as REUSED) runs))
    as (rate & Hrate & H0 & H1); [apply count_if_nonneg..|].
  pose proof (count_if_disjoint (succeeded_as FRESH) (succeeded_as REUSED) runs) as Hdisjoint.
  eexists. split.
  - unfold overview. fold starts runs. apply model_validated_ok. split; [reflexivity|].
    unfold overview_check. cbn -[count_if float_ge_0 Qle_bool seconds_avoided units_avoided succeeded_as round64 msum
      grouped_counts MAX_OPERATOR_WINDOW_DAYS].
    rewrite !grouped_counts_total, !grouped_counts_lookup, seconds_avoided_nonneg.
    change (Z.of_nat (length (filter (fun r => Is_true (succeeded_as REUSED r)) runs)))
      with (count_if (succeeded_as REUSED) runs). rewrite Hrate. cbn [float_ge_0 opt_all]. rewrite H0, H1.
    unfold int_between. rewrite !andb_true_iff, !Z.leb_le. repeat split; auto using count_if_nonneg; lia.
  - cbn -[count_if succeeded_as round64 msum grouped_counts]. rewrite !grouped_counts_total, !length_map.
    change (Z.of_nat (length (filter (fun r => Is_true (succeeded_as REUSED r)) runs)))
      with (count_if (succeeded_as REUSED) runs).
    split_and!; [done..| | | | |].
    + intros s. by rewrite grouped_counts_lookup, count_if_map.
    + apply Hdisjoint. intros r. unfold succeeded_as. by destruct (run_status r), (rr_decision (run_reuse r)).
    + by rewrite length_map_to_list.
    + by rewrite states_partition, !length_map.
    + exists rate. by rewrite Hrate, !Qle_bool_iff in *.
Qed.
End overview.

(** ** The history *)

(** Consecutive pages of a list, put together, are its beginning. *)
Lemma pages_concat {A} (rows : list A) (limit : Z) n : 0 <= limit ->
  (seq 0 n ≫= fun i => page_of limit (Z.of_nat i * limit) rows) = take (n * Z.to_nat limit) rows.
Proof.
  intros Hl. induction n as [|n IH]; [done|]. rewrite seq_S, bind_app, IH. cbn [mbind list_bind Nat.add].
  rewrite app_nil_r. unfold page_of. rewrite Z2Nat.inj_mul, Nat2Z.id by lia.
  rewrite take_take_drop. f_equal. lia.
Qed.

Section history.
Context (d : DB) (g : gmap Z GitHubRequest) (stamps : Stamps).

#[local] Instance newest_first_total : Total (newest_first stamps).
Proof. intros a b. unfold newest_first. lia. Qed.

#[local] Instance newest_first_trans : Transitive (newest_first stamps).
Proof. intros a b c. unfold newest_first. lia. Qed.

Definition history_row (r : GitHubRequest) (o : WorkOrder) : HistoryRow :=
  {| hr_request := r; hr_order := o; hr_run := latest_run d (wo_id o) |}.

(** Whether a filter asks about the run *)
Definition asks_run (f : HistoryFilters) : bool := isSome (hf_reuse_decision f) || isSome (hf_run_status f).

Lemma filters_ignore_run f r o x y : asks_run f = false ->
  history_filters stamps f {| hr_request := r; hr_order := o; hr_run := x |}
  = history_filters stamps f {| hr_request := r; hr_order := o; hr_run := y |}.
Proof.
  unfold asks_run, history_filters. destruct (hf_reuse_decision f), (hf_run_status f); done.
Qed.

(** The count of [count_statement] is the number of rows of [statement]. *)
Lemma history_count_rows f : history_count d g stamps f = Z.of_nat (length (history_rows d g stamps f)).
Proof.
  unfold history_count, history_rows. rewrite (merge_sort_Permutation _ (selected d g stamps true f)). fold (asks_run f).
  destruct (asks_run f) eqn:Hf; [done|]. f_equal. unfold selected, joined.
  induction (rows_in_order g).*2 as [|r rows IH]; [done|]. cbn [omap list_omap].
  destruct (db_orders d !! _) as [o|]; cbn [mbind option_bind]; [|done]. rewrite !filter_cons.
  rewrite (filters_ignore_run f r o None (latest_run d (wo_id o)) Hf).
  case (decide _); intros _; cbn [length]; by rewrite IH.
Qed.

Lemma history_rows_elem f row : row ∈ history_rows d g stamps f <->
  exists k r o, g !! k = Some r /\ db_orders d !! ri_work_order_id (gr_identity r) = Some o /\
    row = history_row r o /\ history_filters stamps f row = true.
Proof.
  unfold history_rows, selected, joined. rewrite merge_sort_Permutation, list_elem_of_filter, list_elem_of_omap.
  setoid_rewrite list_elem_of_fmap. rewrite Is_true_true. split.
  - intros (Hf & r & ([k r'] & -> & Hk%rows_in_order_elem) & Ho). cbn in Ho.
    apply bind_Some in Ho as (o & Ho & [= <-]). by exists k, r', o.
  - intros (k & r & o & Hk & Ho & -> & Hf). split; [done|]. exists r. split.
    + exists (k, r). split; [done|]. by apply rows_in_order_elem.
    + by rewrite Ho.
Qed.

(** [statement] reads the newest run of an order, when the order has one. *)
Lemma latest_run_id_max o : match latest_run_id d o with
  | Some m => (exists k r, db_runs d !! k = Some r /\ run_work_order_id r = o /\ run_id r = m) /\
      forall k r, db_runs d !! k = Some r -> run_work_order_id r = o -> run_id r <= m
  | None => forall k r, db_runs d !! k = Some r -> run_work_order_id r <> o
  end.
Proof.
  assert (forall r, r ∈ (rows_in_order (db_runs d)).*2 <-> exists k, db_runs d !! k = Some r) as Hrows.
  { intros r. rewrite list_elem_of_fmap. setoid_rewrite <-rows_in_order_elem. split.
    - intros ([k r'] & -> & ?). eauto.
    - intros [k ?]. by exists (k, r). }
  assert (match latest_run_id d o with
    | Some m => (exists r, r ∈ (rows_in_order (db_runs d)).*2 /\ run_work_order_id r = o /\ run_id r = m) /\
        forall r, r ∈ (rows_in_order (db_runs d)).*2 -> run_work_order_id r = o -> run_id r <= m
    | None => forall r, r ∈ (rows_in_order (db_runs d)).*2 -> run_work_order_id r <> o
    end) as Hl.
  2: { destruct (latest_run_id d o) as [m|].
       - destruct Hl as [(r & [k Hk]%Hrows & ? & ?) Hmax]. split; [by exists k, r|].
         intros k' r' Hk'. apply Hmax, Hrows. eauto.
       - intros k r Hk. apply Hl, Hrows. eauto. }
  unfold latest_run_id. clear Hrows. generalize (rows_in_order (db_runs d)).*2. intros rows.
  induction rows as [|x rows IH]; cbn [foldr]; [by intros r ?%elem_of_nil|].
  destruct (Z.eqb_spec (run_work_order_id x) o) as [Hx|Hx], (foldr _ None rows) as [m|];
    cbn [from_option]; unfold id; setoid_rewrite elem_of_cons.
  - destruct IH as [(r & Hr & Ho & Hm) Hmax]. split.
    + destruct (Z.max_spec (run_id x) m) as [[_ ->]|[_ ->]]; eauto 6.
    + intros r' [->|Hr'] Ho'; [lia|]. specialize (Hmax r' Hr' Ho'). lia.
  - split; [exists x; split; [auto|]; lia|]. intros r' [->|Hr'] Ho'; [lia|]. by destruct (IH r').
  - destruct IH as [(r & Hr & Ho & Hm) Hmax]. split; [eauto 6|]. intros r' [->|Hr'] Ho'; [done|eauto].
  - intros r' [->|Hr']; [done|eauto].
Qed.

(** The order of the items of the history, without repetition *)
Definition shown_before (a b : ExecutionHistoryItemOut) : Prop :=
  hi_created_at b < hi_created_at a \/ (hi_created_at a = hi_created_at b /\ hi_request_id b < hi_request_id a).

Definition keyed_requests : Prop := forall k r, g !! k = Some r -> gr_id r = k.

Lemma history_rows_NoDup f : keyed_requests ->
  NoDup (map (fun row => gr_id (hr_request row)) (history_rows d g stamps f)).
Proof.
  intros Hg. unfold history_rows. rewrite merge_sort_Permutation. unfold selected, joined.
  assert (NoDup (map gr_id (rows_in_order g).*2)) as Hn.
  { assert (map gr_id (rows_in_order g).*2 = (rows_in_order g).*1) as ->.
    - rewrite <-list_fmap_compose. apply list_fmap_ext. intros i [k r] Hi. cbn.
      apply Hg, rows_in_order_elem. by eapply list_elem_of_lookup_2.
    - unfold rows_in_order. rewrite merge_sort_Permutation. apply NoDup_fst_map_to_list. }
  revert Hn. generalize (rows_in_order g).*2. intros rows.
  induction rows as [|r rows IH]; cbn [map]; [done|]. intros [Hr Hrows]%NoDup_cons.
  specialize (IH Hrows). cbn [omap list_omap]. destruct (db_orders d !! _) as [o|]; cbn [mbind option_bind]; [|done].
  rewrite filter_cons. case (decide _); intros _; [|done]. cbn [map]. apply NoDup_cons. split; [|done].
  intros Hin. apply Hr. apply list_elem_of_fmap in Hin as (row & Heq & Hrow). cbn in Heq. rewrite Heq.
  apply list_elem_of_filter in Hrow as [_ Hrow]. apply list_elem_of_omap in Hrow as (r' & Hr' & Ho).
  apply bind_Some in Ho as (o' & _ & [= <-]). apply list_elem_of_fmap. by exists r'.
Qed.

Lemma history_rows_sorted f : keyed_requests ->
  StronglySorted shown_before (map (history_fields stamps) (history_rows d g stamps f)).
Proof.
  intros Hg. pose proof (history_rows_NoDup f Hg) as Hn. revert Hn.
  assert (StronglySorted (newest_first stamps) (history_rows d g stamps f)) as Hs
    by apply (StronglySorted_merge_sort _).
  induction Hs as [|row rows _ IH Hrow]; cbn [map]; [constructor|]. intros [Hin Hn]%NoDup_cons.
  constructor; [auto|]. apply Forall_fmap. rewrite Forall_forall in Hrow |- *. intros row' Hrow'.
  assert (gr_id (hr_request row) <> gr_id (hr_request row')) as Hne.
  { intros Heq. apply Hin. apply list_elem_of_fmap. eauto. }
  specialize (Hrow row' Hrow'). unfold newest_first in Hrow. unfold shown_before. cbn. lia.
Qed.

Lemma history_items rows items : map_result (history_item stamps) rows = Ok items ->
  items = map (history_fields stamps) rows.
Proof.
  rewrite map_result_Forall2. induction 1 as [|row item rows items Hi _ IH]; [done|].
  apply model_validated_ok in Hi as [-> _]. cbn. by rewrite IH.
Qed.

Lemma list_history_ok limit offset f p : list_history d g stamps limit offset f = Ok p ->
  page_items p = map (history_fields stamps) (page_of limit offset (history_rows d g stamps f)) /\
  page_total p = Z.of_nat (length (history_rows d g stamps f)).
Proof.
  unfold list_history. rewrite result_bind_ok. intros (items & Hi & Hp).
  apply model_validated_ok in Hp as [-> _]. cbn. split; [by apply history_items|apply history_count_rows].
Qed.

(** While the tables do not change, the pages of the history read one after another
    show every request that has an order and meets the filters, once each, newest
    first, and each page reports their number. *)
Theorem history_pages_complete limit f n pages :
  keyed_requests -> 1 <= limit ->
  map_result (fun i => list_history d g stamps limit (Z.of_nat i * limit) f) (seq 0 n) = Ok pages ->
  history_count d g stamps f <= Z.of_nat n * limit ->
  let shown := pages ≫= page_items in
  StronglySorted shown_before shown /\
  NoDup (map hi_request_id shown) /\
  Forall (fun p => page_total p = Z.of_nat (length shown)) pages /\
  forall id, id ∈ map hi_request_id shown <->
    exists r o, g !! id = Some r /\ db_orders d !! ri_work_order_id (gr_identity r) = Some o /\
      history_filters stamps f (history_row r o) = true.
Proof.
  intros Hg Hl Hpages Hcount. rewrite map_result_Forall2 in Hpages. rewrite history_count_rows in Hcount.
  assert (pages ≫= page_items = map (history_fields stamps) (history_rows d g stamps f)) as Hshown.
  { transitivity (map (history_fields stamps)
      (seq 0 n ≫= fun i => page_of limit (Z.of_nat i * limit) (history_rows d g stamps f))).
    - clear Hcount. induction Hpages as [|i p idx ps Hp _ IH]; [done|]. apply list_history_ok in Hp as [Hp _].
      rewrite !bind_cons, map_app. by rewrite Hp, IH.
    - rewrite pages_concat, take_ge by lia. done. }
  cbv zeta. rewrite Hshown. split_and!.
  - by apply history_rows_sorted.
  - rewrite map_map. by apply history_rows_NoDup.
  - rewrite length_map. clear Hshown Hcount. induction Hpages as [|i p idx ps Hp _ IH]; constructor; [|done].
    by apply list_history_ok in Hp as [_ ->].
  - intros id. rewrite map_map, list_elem_of_fmap. setoid_rewrite history_rows_elem. split.
    + intros (row & -> & k & r & o & Hk & Ho & -> & Hf). exists r, o. cbn. by rewrite (Hg _ _ Hk).
    + intros (r & o & Hr & Ho & Hf). exists (history_row r o). split; [symmetry; by apply Hg|eauto 8].
Qed.
End history.

(** ** The page of workers *)

Lemma drop_spaces_suffix l : exists k, l = k ++ drop_spaces l.
Proof.
  induction l as [|c l [k Hk]]; [by exists []|]. cbn. destruct (is_space c); [|by exists []].
  exists (c :: k). cbn. by f_equal.
Qed.

Lemma drop_spaces_head l c : head (drop_spaces l) = Some c -> is_space c = false.
Proof.
  induction l as [|x l IH]; [done|]. cbn. destruct (is_space x) eqn:Hx; [done|]. by intros [= <-].
Qed.

Lemma drop_spaces_fixed l : (forall c, head l = Some c -> is_space c = false) -> drop_spaces l = l.
Proof. destruct l as [|c l]; [done|]. intros Hc. cbn. by rewrite (Hc c). Qed.

Lemma strip_strip s : strip (strip s) = strip s.
Proof.
  unfold strip. rewrite to_of_chars. f_equal. set (a := drop_spaces (to_chars s)).
  destruct (drop_spaces_suffix (reverse a)) as [k Hk].
  assert (drop_spaces (reverse (drop_spaces (reverse a))) = reverse (drop_spaces (reverse a))) as ->.
  { apply drop_spaces_fixed. intros c Hc. apply (drop_spaces_head (to_chars s)). fold a.
    rewrite <-(reverse_involutive a), Hk, reverse_app. destruct (reverse (drop_spaces (reverse a))); done. }
  rewrite reverse_involutive. f_equal. apply drop_spaces_fixed, drop_spaces_head.
Qed.

Definition browser_ok (b : string) : bool := int_between 1 MAX_OPERATOR_BROWSER_LENGTH (str_length (strip b)).

Lemma bounded_browsers_ok value kept :
  forallb browser_ok kept = true -> Z.of_nat (length kept) <= MAX_OPERATOR_BROWSER_COUNT ->
  forallb browser_ok (bounded_browsers kept value) = true /\
  Z.of_nat (length (bounded_browsers kept value)) <= MAX_OPERATOR_BROWSER_COUNT.
Proof.
  revert kept. induction value as [|item value IH]; intros kept Hk Hl; cbn [bounded_browsers]; [done|].
  destruct (Z.leb_spec MAX_OPERATOR_BROWSER_COUNT (Z.of_nat (length kept))); [done|].
  destruct (int_between 1 _ (str_length (strip item))) eqn:Hb; apply IH; [|rewrite length_app; cbn; lia|done..].
  rewrite forallb_app, Hk. cbn. unfold browser_ok. by rewrite strip_strip, Hb.
Qed.

(** A page of rows that each exist is the page of their keys, looked up. *)
Lemma page_of_omap {A B} (f : A -> option B) limit offset (l : list A) :
  Forall (fun x => is_Some (f x)) l -> page_of limit offset (omap f l) = omap f (page_of limit offset l).
Proof.
  intros Hl. unfold page_of. generalize (Z.to_nat offset) as n, (Z.to_nat limit) as m. intros n m. revert n m.
  induction Hl as [|x l [y Hy] Hl IH]; intros n m; [by destruct n, m|].
  cbn [omap list_omap]. rewrite Hy. destruct n as [|n]; [|apply IH].
  destruct m as [|m]; [done|]. cbn [drop take omap list_omap]. rewrite Hy. f_equal. apply (IH 0%nat m).
Qed.

Section workers.
Context (d : DB) (stamps : Stamps) (now heartbeat poll : Z).

(** The texts of a worker within the bounds of its summary, which registration enforces *)
Definition texts_fit : Prop := forall k w, db_workers d !! k = Some w ->
  summary_texts (worker_fields w None now heartbeat poll) = true.

Definition profile_fields (p : RoutingProfile) : RoutingProfileSummaryOut :=
  {| ps_enabled := rp_enabled p; ps_estimated_cost_units_per_run := rp_estimated_cost_units_per_run p;
     ps_quota_capacity_units := rp_quota_capacity_units p; ps_quota_remaining_units := rp_quota_remaining_units p;
     ps_quota_reset_at := rp_quota_reset_at p; ps_routing_priority := rp_routing_priority p;
     ps_revision := rp_revision p; ps_updated_at := profile_updated_at stamps (rp_worker_id p) |}.

Lemma profile_summary_ok p : valid_profile p = true -> profile_summary stamps p = Ok (profile_fields p).
Proof.
  intros Hp. apply model_validated_ok. split; [done|]. unfold valid_profile, within in Hp. unfold profile_summary_check. cbn.
  rewrite !andb_true_iff, !Z.leb_le in *. lia.
Qed.

Lemma worker_summary_ok w p :
  Models.row_check w = true -> opt_all valid_profile p = true ->
  summary_texts (worker_fields w None now heartbeat poll) = true ->
  worker_summary stamps now heartbeat poll (w, p) = Ok (worker_fields w (profile_fields <$> p) now heartbeat poll).
Proof.
  intros Hw Hp Ht. unfold worker_summary. cbn [fst snd].
  assert (match p with Some q => out ← profile_summary stamps q; Ok (Some out) | None => Ok None end
          = Ok (profile_fields <$> p)) as ->.
  { destruct p as [p|]; [|done]. cbn in Hp. by rewrite profile_summary_ok. }
  apply model_validated_ok. split; [done|].
  destruct (bounded_browsers_ok (browsers (wi_capabilities (w_info w))) [] eq_refl ltac:(done)) as [Hb Hc].
  unfold worker_summary_check. cbn [Models.row_check workers_table] in Hw. rewrite !andb_true_iff in Hw.
  unfold browser_ok in Hb. change (summary_texts (worker_fields w (profile_fields <$> p) now heartbeat poll))
    with (summary_texts (worker_fields w None now heartbeat poll)). rewrite Ht.
  cbn -[Z.leb len_between bounded_browsers forallb Z.of_nat]. rewrite Hb.
  rewrite !andb_true_iff, !Z.leb_le in *. destruct (network_policy_capability _), (w_status w); tauto.
Qed.

(** The page of workers of a database that satisfies the invariant is answered, for
    every limit and offset that the route accepts: its rows are that stretch of the
    workers in the order of their identifiers, each with its own profile. *)
Theorem list_workers_page limit offset :
  inv d -> texts_fit -> 1 <= limit <= MAX_OPERATOR_LIMIT -> 0 <= offset <= MAX_OPERATOR_OFFSET ->
  exists p, list_workers d stamps limit offset now heartbeat poll = Ok p /\
    page_total p = Z.of_nat (size (db_workers d)) /\
    map ws_worker_id (page_items p) = page_of limit offset (sort_strings (map_to_list (db_workers d)).*1) /\
    Forall (fun s => exists w, db_workers d !! ws_worker_id s = Some w /\
              s = worker_fields w (profile_fields <$> db_profiles d !! ws_worker_id s) now heartbeat poll)
      (page_items p).
Proof.
  intros Hinv Ht Hl Ho. destruct Hinv as [Hkeyed Hchecked _ _ _ _].
  set (keys := sort_strings (map_to_list (db_workers d)).*1).
  assert (Forall (fun k => is_Some (db_workers d !! k)) keys) as Hkeys.
  { unfold keys. rewrite sort_strings_perm. apply Forall_forall. intros k Hk.
    apply list_elem_of_fmap in Hk as ([k' w] & -> & Hw%elem_of_map_to_list). eauto. }
  set (show := fun row => worker_fields row.1 (profile_fields <$> row.2) now heartbeat poll).
  assert (page_of limit offset (worker_rows d)
          = omap (fun k => w ← db_workers d !! k; Some (w, db_profiles d !! k)) (page_of limit offset keys)) as Hrows.
  { unfold worker_rows. fold keys. apply page_of_omap. eapply Forall_impl; [exact Hkeys|].
    intros k [w Hw]. cbn. rewrite Hw. eauto. }
  assert (Forall (fun k => is_Some (db_workers d !! k)) (page_of limit offset keys)) as Hpage
    by (by apply Forall_take, Forall_drop).
  eexists. split; [|split; [|split]].
  - unfold list_workers. rewrite result_bind_ok. eexists. split.
    + apply (map_result_total _ show). rewrite Hrows. apply Forall_forall. intros row Hrow.
      apply list_elem_of_omap in Hrow as (k & _ & Hk). apply bind_Some in Hk as (w & Hw & [= <-]).
      apply worker_summary_ok; [by eapply checked_workers| |by eapply Ht].
      destruct (db_profiles d !! k) as [p|] eqn:Hp; [|done]. by eapply checked_profiles.
    + apply model_validated_ok. split; [reflexivity|]. unfold page_check, int_between. cbn [page_limit page_offset page_total].
      rewrite !andb_true_iff, !Z.leb_le. lia.
  - done.
  - cbn [page_items]. rewrite Hrows. clear Hrows. induction Hpage as [|k ks [w Hw] _ IH]; [done|].
    cbn [omap list_omap]. rewrite Hw. cbn. f_equal; [by eapply keyed_workers|done].
  - cbn [page_items]. rewrite Hrows. apply Forall_fmap, Forall_forall. intros row Hrow.
    apply list_elem_of_omap in Hrow as (k & _ & Hk). apply bind_Some in Hk as (w & Hw & [= <-]).
    exists w. cbn. by rewrite (keyed_workers _ Hkeyed _ _ Hw).
Qed.
End workers.
