(* ===== verification/Readiness.v ===== *)
(** * Catalog readiness

    The read-only views of the trusted catalog: the bounded snapshots of [repository.py], the
    readiness report of [service.py], and the catalog and readiness routes of
    [api/routers/execution.py] with their response models.  Nothing here writes a table. *)

From Stdlib Require Import QArith.
From S2P Require Import Prelude Text Json Enums TextPolicy Catalog Evidence Floats JsonCodec Documents Fingerprints Registry Capabilities Models Routing Repository Service Checks Profiles ProfileData GitHub Operator.
#[local] Open Scope Z_scope.

Definition MAX_CATALOG_LATEST_PROJECTIONS : Z := 32.
Definition MAX_CATALOG_READINESS_WORKERS : Z := 100.
Definition MAX_CATALOG_RESULT_DURATION_SECONDS : Z := 86400.
Definition MAX_CATALOG_RESULT_STEPS : Z := 128.
Definition MAX_READINESS_WORKERS : Z := 100.

(** ** Snapshots *)

Record CatalogReadinessWorkerSnapshot := {
  snapshot_workers : list (Worker * option RoutingProfile);
  snapshot_limit_exceeded : bool;
}.

(** [list_catalog_readiness_workers]: one row more than the limit is read. *)
Definition list_catalog_readiness_workers : exec CatalogReadinessWorkerSnapshot :=
  from_db (fun d =>
    let limit := Z.to_nat MAX_CATALOG_READINESS_WORKERS in
    let rows := take (S limit) (worker_rows d) in
    {| snapshot_workers := take limit rows;
       snapshot_limit_exceeded := MAX_CATALOG_READINESS_WORKERS <? Z.of_nat (length rows) |}).

(** A repository with the name and version of a manifest *)
Abbreviation CatalogIdentity := (string * string * string)%type.

Record CatalogLatestRunProjection := {
  lp_identity : CatalogIdentity;
  lp_reuse_decision : ReuseDecision;
  lp_started_at : option Z;
  lp_finished_at : option Z;
  lp_evidence_metadata : option ExecutionEvidence;
}.

Definition order_identity (o : WorkOrder) : CatalogIdentity :=
  (wos_repository_full_name (wo_spec o), wos_manifest_name (wo_spec o), wos_manifest_version (wo_spec o)).

(** The conditions of the query on a run and the order it belongs to *)
Definition catalog_run (d : DB) (identity : CatalogIdentity) (r : Run) : bool :=
  match db_orders d !! run_work_order_id r with
  | Some o => bool_decide (order_identity o = identity)
  | None => false
  end
  && bool_decide (run_status r = RUN_SUCCEEDED) && isSome (run_finished_at r)
  && bool_decide (rr_decision (run_reuse r) ∈ [FRESH; REUSED]).

(** [ORDER BY finished_at DESC, id DESC], on runs that have finished *)
Definition latest_first (a b : Run) : Prop :=
  let time r := default 0 (run_finished_at r) in
  time b < time a \/ (time a = time b /\ run_id b <= run_id a).

#[global] Instance latest_first_dec : RelDecision latest_first.
Proof. intros a b. unfold latest_first. apply _. Defined.

(** The row of rank 1 of an identity's partition *)
Definition latest_catalog_run (d : DB) (identity : CatalogIdentity) : option Run :=
  head (merge_sort latest_first (filter (fun r => Is_true (catalog_run d identity r)) (rows_in_order (db_runs d)).*2)).

Definition project_run (identity : CatalogIdentity) (r : Run) : CatalogLatestRunProjection :=
  {| lp_identity := identity; lp_reuse_decision := rr_decision (run_reuse r);
     lp_started_at := run_started_at r; lp_finished_at := run_finished_at r;
     lp_evidence_metadata := res_evidence_metadata (run_result r) |}.

Definition identity_present (i : CatalogIdentity) : bool :=
  let '(repository, name, version) := i in
  negb (bool_decide (repository = "")) && negb (bool_decide (name = "")) && negb (bool_decide (version = "")).

(** [list_latest_successful_catalog_runs]: the mapping it returns, by its items *)
Definition list_latest_successful_catalog_runs (identities : list CatalogIdentity)
    : exec (list (CatalogIdentity * CatalogLatestRunProjection)) :=
  let normalized := dedup identities in
  _ ← ensure (negb ((MAX_CATALOG_LATEST_PROJECTIONS <? Z.of_nat (length normalized))
                    || existsb (fun i => negb (identity_present i)) normalized))
        (ValueError "catalog latest-result identities are invalid");
  from_db (fun d => omap (fun i => r ← latest_catalog_run d i; Some (i, project_run i r)) normalized).

Definition projection_of (i : CatalogIdentity) (l : list (CatalogIdentity * CatalogLatestRunProjection))
    : option CatalogLatestRunProjection :=
  snd <$> head (filter (fun p => p.1 = i) l).

(** ** The readiness report *)

(** [re.fullmatch(r"\d+(?:\.\d+){1,2}", s)] *)
Definition RUNTIME_VERSION_PATTERN (s : string) : bool :=
  let parts := split_on (chr 46) (to_chars s) in
  int_between 2 3 (Z.of_nat (length parts))
  && forallb (fun p => negb (bool_decide (p = [])) && forallb is_digit p) parts.

(** One runtime of [_safe_runtime_requirements]: the prefix of its mode, and the version *)
Definition runtime_version (requirement : option Json) : option (string * option Json) :=
  match requirement with
  | Some (JObj [(key, version)]) =>
      if bool_decide (key = "exact") then Some ("=", Some version)
      else if bool_decide (key = "minimum") then Some (">=", Some version)
      else None
  | Some (JObj _) => None
  | other => Some (">=", other)
  end.

Definition safe_runtime_requirements (requirements : list (string * Json)) : list (string * string) :=
  omap (fun runtime =>
    match runtime_version (obj_get runtime requirements) with
    | Some (prefix, Some (JStr version)) =>
        if RUNTIME_VERSION_PATTERN version then Some (runtime, prefix +:+ version) else None
    | _ => None
    end) ["python"; "node"; "pnpm"].

Definition public_reasons : list (string * string) :=
  [ ("worker_repository_unavailable", "repository_unavailable"); ("routing_profile_missing", "profile_missing");
    ("routing_profile_invalid", "profile_invalid"); ("routing_profile_disabled", "profile_disabled");
    ("worker_heartbeat_stale", "stale_worker"); ("worker_checkout_poll_stale", "stale_worker");
    ("worker_not_available", "worker_unavailable"); ("worker_concurrency_limit", "capacity_constrained");
    ("routing_cost_ceiling_exceeded", "maximum_cost_exceeded"); ("routing_quota_insufficient", "insufficient_quota");
    ("preferred_executor_unavailable", "preferred_executor_unavailable") ].

(** [_catalog_primary_blocker] *)
Definition catalog_primary_blocker (repository_full_name : string) (evaluations : list RoutingEligibility) : string :=
  if existsb (fun e => isSome (el_candidate e)) evaluations then "ready"
  else if bool_decide (length evaluations = 0%nat) then "no_registered_workers"
  else
    let advertised :=
      filter (fun e => repository_full_name ∈ worker_repositories (el_worker e)) evaluations in
    match advertised with
    | [] => "repository_unavailable"
    | _ => default "manifest_capability_mismatch"
             (obj_get (unavailable_route_reason (advertised ≫= el_reasons) false) public_reasons)
    end.

Record CatalogLatestResult := {
  lr_reuse_decision : string;
  lr_duration_seconds : option Z;
  lr_step_count : Z;
  lr_avoided_work_count : Z;
}.

(** [int(delta.total_seconds())]: the float nearest to the seconds, truncated *)
Definition int_seconds (microseconds : Z) : Z :=
  match round64 (Z.abs microseconds) 1000000 with
  | Some q => Z.sgn microseconds * (Qnum q / Z.pos (Qden q))
  | None => -1
  end.

(** [_catalog_latest_result] *)
Definition catalog_latest_result (projection : option CatalogLatestRunProjection) : option CatalogLatestResult :=
  p ← projection;
  let duration :=
    started ← lp_started_at p; finished ← lp_finished_at p;
    let n := int_seconds (finished - started) in
    if int_between 0 MAX_CATALOG_RESULT_DURATION_SECONDS n then Some n else None in
  let steps := match lp_evidence_metadata p with Some e => Z.of_nat (length (ev_steps e)) | None => 0 end in
  let step_count := if steps <=? MAX_CATALOG_RESULT_STEPS then steps else 0 in
  Some {| lr_reuse_decision := reuse_decision_value (lp_reuse_decision p); lr_duration_seconds := duration;
          lr_step_count := step_count;
          lr_avoided_work_count := if bool_decide (lp_reuse_decision p = REUSED) then step_count else 0 |}.

Definition LEGACY_CATALOG_EXCLUSIONS : list (string * list string) :=
  [ ("Nobodyworld/app-accounting-modular", ["manual-semantic-review"; "publication"]);
    ("Nobodyworld/dev-agent-switchboard", ["manual-semantic-review"; "publication"]) ].

(** [_catalog_exclusions], over the declared workload profiles *)
Definition catalog_exclusions (profiles : list WorkloadProfile) (repository_full_name : string) : list string :=
  match head (filter (fun p => wp_repository_full_name p = repository_full_name) profiles) with
  | Some p => take 16 (wp_deterministic_exclusions p)
  | None => default ["manual-semantic-review"; "publication"]
              (obj_get repository_full_name LEGACY_CATALOG_EXCLUSIONS)
  end.

Record CatalogReadinessAssessment := {
  cra_repository_full_name : string;
  cra_display_name : string;
  cra_manifest_name : string;
  cra_manifest_version : string;
  cra_manifest_digest : string;
  cra_runtime_requirements : list (string * string);
  cra_ready_count : Z;
  cra_primary_blocker_code : string;
  cra_latest_result : option CatalogLatestResult;
  cra_exclusions : list string;
}.

Section report.
Context (env : Env) (profiles : list WorkloadProfile).

Definition catalog_request (repository : TrustedRepository) (manifest : TrustedManifest) : RoutingEvaluationRequest :=
  {| rq_repository_full_name := repo_full_name repository; rq_routing_policy := FIRST_AVAILABLE;
     rq_preferred_executor := None; rq_maximum_cost_units := None; rq_required_quota_units := 0;
     rq_manifest_requirements := tm_required_capabilities manifest; rq_requested_requirements := [];
     rq_network_policy := tm_network_policy manifest |}.

(** [_routing_eligibilities] over a snapshot *)
Definition snapshot_eligibilities (request : RoutingEvaluationRequest) (now : Z)
    (rows : list (Worker * option RoutingProfile)) : list RoutingEligibility :=
  map (fun row => evaluate_routing_candidate row.1 row.2 request now
                    (env_heartbeat_freshness_seconds env) (env_active_poll_freshness_seconds env)) rows.

(** [resolved]: each repository with its default manifest *)
Definition resolve_defaults : Result ExecError (list (TrustedRepository * TrustedManifest)) :=
  map_result (fun repository =>
    let reference := repo_default_manifest repository in
    match get_trusted_manifest (env_manifests env) (ref_name reference) (ref_version reference) with
    | Some manifest => Ok (repository, manifest)
    | None => Err (ManifestIntegrityError "trusted_manifest_not_found")
    end) (env_repositories env).

Definition entry_identity (entry : TrustedRepository * TrustedManifest) : CatalogIdentity :=
  (repo_full_name entry.1, tm_name entry.2, tm_version entry.2).

Definition assess_entry (workers : list (Worker * option RoutingProfile)) (now : Z)
    (latest : list (CatalogIdentity * CatalogLatestRunProjection))
    (entry : TrustedRepository * TrustedManifest) : CatalogReadinessAssessment :=
  let '(repository, manifest) := entry in
  let evaluations := snapshot_eligibilities (catalog_request repository manifest) now workers in
  {| cra_repository_full_name := repo_full_name repository; cra_display_name := repo_display_name repository;
     cra_manifest_name := tm_name manifest; cra_manifest_version := tm_version manifest;
     cra_manifest_digest := tm_digest manifest;
     cra_runtime_requirements := safe_runtime_requirements (tm_required_capabilities manifest);
     cra_ready_count := count_if (fun e => isSome (el_candidate e)) evaluations;
     cra_primary_blocker_code := catalog_primary_blocker (repo_full_name repository) evaluations;
     cra_latest_result := catalog_latest_result (projection_of (entry_identity entry) latest);
     cra_exclusions := catalog_exclusions profiles (repo_full_name repository) |}.

Definition assess_catalog_readiness : exec (list CatalogReadinessAssessment) :=
  resolved ← lift_result resolve_defaults;
  snapshot ← list_catalog_readiness_workers;
  _ ← ensure (negb (snapshot_limit_exceeded snapshot))
        (CatalogReadinessLimitError "catalog_readiness_worker_limit_exceeded");
  latest ← list_latest_successful_catalog_runs (map entry_identity resolved);
  now ← now env;
  mret (map (assess_entry (snapshot_workers snapshot) now latest) resolved).
End report.

(** ** The routes *)

(** What a route answers when it does not return: a status with its detail, or an
    exception that no handler turns into one. *)
Inductive RouteError :=
| Answered (status : Z) (detail : string)
| EscapedExec (e : ExecError)
| EscapedValue (message : string).

Abbreviation route A := (M RouteError World A).

(** A service call, its exceptions translated by the handler around it *)
Definition calling {A} (handler : ExecError -> RouteError) (m : exec A) : route A := fun w =>
  match m w with
  | (Ok a, w') => (Ok a, w')
  | (Err e, w') => (Err (handler e), w')
  end.

(** The construction of a response model *)
Definition respond {A} (r : Result string A) : route A := fun w =>
  (match r with Ok a => Ok a | Err e => Err (EscapedValue e) end, w).

Record TrustedManifestReferenceOut := {
  mo_name : string;
  mo_version : string;
  mo_digest : string;
  mo_description : string;
}.

Definition manifest_out_check (m : TrustedManifestReferenceOut) : bool :=
  len_between 1 128 (mo_name m) && len_between 1 64 (mo_version m) && SHA256 (mo_digest m)
  && len_between 1 1000 (mo_description m).

Record TrustedRepositoryOut := {
  ro_full_name : string;
  ro_display_name : string;
  ro_description : string;
  ro_support_status : string;
  ro_documentation_reference : string;
  ro_manifests : list TrustedManifestReferenceOut;
  ro_default_manifest : list (string * string);
}.

(** [^docs/[A-Za-z0-9_./-]+\.md$] *)
Definition documentation_pattern (s : string) : bool :=
  let l := to_chars s in
  starts_with (to_chars "docs/") l && ends_with (to_chars ".md") l && (9 <=? Z.of_nat (length l))
  && forallb (fun c => repo_char c || (ord c =? 47)) l.

Definition repository_out_check (r : TrustedRepositoryOut) : bool :=
  len_between 3 201 (ro_full_name r) && len_between 1 120 (ro_display_name r)
  && len_between 1 500 (ro_description r) && bool_decide (ro_support_status r = "developer_preview")
  && len_between 8 255 (ro_documentation_reference r) && documentation_pattern (ro_documentation_reference r)
  && int_between 1 32 (Z.of_nat (length (ro_manifests r))).

Record TrustedCatalogOut := {
  co_digest : string;
  co_repositories : list TrustedRepositoryOut;
}.

Definition catalog_out_check (c : TrustedCatalogOut) : bool :=
  SHA256 (co_digest c) && int_between 4 4 (Z.of_nat (length (co_repositories c))).

Section catalog_routes.
Context (registry : list TrustedManifest) (repositories : list TrustedRepository).

Definition manifest_out (m : TrustedManifest) : Result string TrustedManifestReferenceOut :=
  validated manifest_out_check
    {| mo_name := tm_name m; mo_version := tm_version m; mo_digest := tm_digest m;
       mo_description := tm_description m |}.

Definition repository_out (r : TrustedRepository) : Result string TrustedRepositoryOut :=
  manifests ← map_result manifest_out
    (omap (fun reference => get_trusted_manifest registry (ref_name reference) (ref_version reference))
       (repo_manifests r));
  validated repository_out_check
    {| ro_full_name := repo_full_name r; ro_display_name := repo_display_name r;
       ro_description := repo_description r; ro_support_status := repo_support_status r;
       ro_documentation_reference := repo_documentation_reference r; ro_manifests := manifests;
       ro_default_manifest := [("name", ref_name (repo_default_manifest r));
                               ("version", ref_version (repo_default_manifest r))] |}.

Definition get_trusted_catalog : Result string TrustedCatalogOut :=
  entries ← map_result repository_out repositories;
  validated catalog_out_check
    {| co_digest := trusted_catalog_digest repositories; co_repositories := entries |}.

Definition get_trusted_repository_detail (owner repository : string) : Result RouteError TrustedRepositoryOut :=
  match get_trusted_catalog with
  | Err e => Err (EscapedValue e)
  | Ok catalog =>
      match head (filter (fun r => ro_full_name r = owner +:+ "/" +:+ repository) (co_repositories catalog)) with
      | Some r => Ok r
      | None => Err (Answered 404 "trusted_repository_not_found")
      end
  end.
End catalog_routes.

Definition CATALOG_SOURCE_AVAILABILITY_CAVEAT : string :=
  "Exact source availability requires an operator-configured canonical checkout at the requested SHA.".

Definition CATALOG_BLOCKER_LABELS : list (string * string) :=
  [ ("ready", "No current blocker"); ("no_registered_workers", "No registered workers");
    ("repository_unavailable", "No registered worker advertises this repository");
    ("manifest_capability_mismatch", "No worker satisfies the reviewed runtime requirements");
    ("profile_missing", "Routing profile is missing"); ("profile_invalid", "Routing profile is invalid");
    ("profile_disabled", "Routing profile is disabled"); ("stale_worker", "Registered workers are stale");
    ("capacity_constrained", "Compatible workers are at capacity");
    ("worker_unavailable", "Compatible workers are unavailable");
    ("maximum_cost_exceeded", "Routing cost ceiling excludes compatible workers");
    ("insufficient_quota", "Routing quota is insufficient");
    ("preferred_executor_unavailable", "Preferred worker is unavailable") ].

Record CatalogReadinessEntryOut := {
  ce_repository : string;
  ce_display_name : string;
  ce_default_name : string;
  ce_default_version : string;
  ce_digest_prefix : string;
  ce_runtime_requirements : list (string * string);
  ce_ready_count : Z;
  ce_blocker_code : string;
  ce_blocker_label : string;
  ce_latest_result : option CatalogLatestResult;
  ce_source_status : string;
  ce_source_caveat : string;
  ce_exclusions : list string;
}.

(** [^(?:>=|=)\d+(?:\.\d+){1,2}$] *)
Definition runtime_pattern (s : string) : bool :=
  match to_chars s with
  | c :: c' :: l => ((ord c =? 62) && (ord c' =? 61) && RUNTIME_VERSION_PATTERN (of_chars l))
                    || ((ord c =? 61) && RUNTIME_VERSION_PATTERN (of_chars (c' :: l)))
  | _ => false
  end.

Definition latest_result_check (r : CatalogLatestResult) : bool :=
  bool_decide (lr_reuse_decision r ∈ ["fresh"; "reused"])
  && opt_all (int_between 0 86400) (lr_duration_seconds r)
  && int_between 0 128 (lr_step_count r) && int_between 0 128 (lr_avoided_work_count r).

(** [^[a-z0-9][a-z0-9-]*$] *)
Definition slug_pattern (s : string) : bool :=
  match to_chars s with c :: l => slug_char c && negb (ord c =? 45) && forallb slug_char l | [] => false end.

(** The part of an entry that the catalog fixes, and the part that varies *)
Definition entry_fixed_check (e : CatalogReadinessEntryOut) : bool :=
  len_between 3 201 (ce_repository e) && len_between 1 120 (ce_display_name e)
  && len_between 1 128 (ce_default_name e) && slug_pattern (ce_default_name e)
  && len_between 1 64 (ce_default_version e)
  && len_between 8 16 (ce_digest_prefix e) && all_chars is_hex_lower (ce_digest_prefix e)
  && forallb (fun r => bool_decide (r.1 ∈ ["python"; "node"; "pnpm"]) && len_between 4 32 r.2 && runtime_pattern r.2)
       (ce_runtime_requirements e)
  && (Z.of_nat (length (ce_runtime_requirements e)) <=? 3)
  && bool_decide (ce_source_status e = "requires_exact_source") && len_between 1 255 (ce_source_caveat e)
  && (Z.of_nat (length (ce_exclusions e)) <=? 16)
  && is_ok (validate_no_absolute_local_path (ce_repository e))
  && is_ok (validate_no_absolute_local_path (ce_display_name e))
  && forallb (fun x => is_ok (validate_no_absolute_local_path x)) (ce_exclusions e).

Definition entry_varying_check (e : CatalogReadinessEntryOut) : bool :=
  int_between 0 100 (ce_ready_count e)
  && bool_decide (ce_blocker_code e ∈ map fst CATALOG_BLOCKER_LABELS) && len_between 1 160 (ce_blocker_label e)
  && opt_all latest_result_check (ce_latest_result e).

Definition entry_check (e : CatalogReadinessEntryOut) : bool := entry_fixed_check e && entry_varying_check e.

Definition entry_fields (a : CatalogReadinessAssessment) (label : string) : CatalogReadinessEntryOut :=
  {| ce_repository := cra_repository_full_name a; ce_display_name := cra_display_name a;
     ce_default_name := cra_manifest_name a; ce_default_version := cra_manifest_version a;
     ce_digest_prefix := of_chars (take 12 (to_chars (cra_manifest_digest a)));
     ce_runtime_requirements := cra_runtime_requirements a; ce_ready_count := cra_ready_count a;
     ce_blocker_code := cra_primary_blocker_code a; ce_blocker_label := label;
     ce_latest_result := cra_latest_result a; ce_source_status := "requires_exact_source";
     ce_source_caveat := CATALOG_SOURCE_AVAILABILITY_CAVEAT; ce_exclusions := cra_exclusions a |}.

Definition entry_out (a : CatalogReadinessAssessment) : Result RouteError CatalogReadinessEntryOut :=
  match obj_get (cra_primary_blocker_code a) CATALOG_BLOCKER_LABELS with
  | None => Err (Answered 500 "catalog_readiness_invalid")
  | Some label =>
      if entry_check (entry_fields a label) then Ok (entry_fields a label) else Err (EscapedValue "validation_error")
  end.

Definition get_catalog_readiness (env : Env) (profiles : list WorkloadProfile) : route (list CatalogReadinessEntryOut) :=
  assessments ← calling (fun e => match e with
                                  | CatalogReadinessLimitError code => Answered 503 code
                                  | _ => EscapedExec e
                                  end) (assess_catalog_readiness env profiles);
  entries ← lift_result (map_result entry_out assessments);
  respond (validated (fun entries => int_between 4 4 (Z.of_nat (length entries))) entries).

(** ** Readiness of one repository *)

(** [_repository_readiness_reason] *)
Definition readiness_precedence : list (string * string) :=
  [ ("preferred_executor_mismatch", "preferred_executor_mismatch");
    ("worker_repository_unavailable", "repository_unavailable"); ("routing_profile_missing", "profile_missing");
    ("routing_profile_invalid", "profile_invalid"); ("routing_profile_disabled", "profile_disabled");
    ("worker_heartbeat_stale", "stale"); ("worker_checkout_poll_stale", "stale");
    ("worker_not_available", "worker_unavailable"); ("worker_concurrency_limit", "capacity_constrained");
    ("routing_cost_ceiling_exceeded", "maximum_cost_exceeded"); ("routing_quota_insufficient", "insufficient_quota") ].

Definition repository_readiness_reason (e : RoutingEligibility) : string :=
  match el_candidate e with
  | Some _ => "ready"
  | None =>
      match filter (fun p => p.1 ∈ el_reasons e) readiness_precedence with
      | (_, public) :: _ => public
      | [] => "manifest_capability_mismatch"
      end
  end.

(** [_repository_activity_state] *)
Definition repository_activity_state (e : RoutingEligibility) : ActivityState :=
  let given reason := bool_decide (reason ∈ el_reasons e) in
  if given "worker_not_available" then Unavailable
  else if given "worker_heartbeat_stale" || given "worker_checkout_poll_stale" then Stale
  else if given "worker_concurrency_limit" then CapacityConstrained
  else Active.

Record RepositoryWorkerReadinessOut := {
  wr_worker_id : string;
  wr_display_name : string;
  wr_advertises_repository : bool;
  wr_activity_state : ActivityState;
  wr_routing_profile_enabled : bool;
  wr_estimated_comparison_units : option Z;
  wr_quota_remaining_units : option Z;
  wr_quota_capacity_units : option Z;
  wr_active_run_count : Z;
  wr_max_concurrency : Z;
  wr_readiness_reason : string;
  wr_ready : bool;
  wr_selected : bool;
}.

Definition worker_readiness_check (w : RepositoryWorkerReadinessOut) : bool :=
  len_between 1 128 (wr_worker_id w) && len_between 1 255 (wr_display_name w)
  && opt_all (fun n => 0 <=? n) (wr_estimated_comparison_units w)
  && opt_all (fun n => 0 <=? n) (wr_quota_remaining_units w)
  && opt_all (fun n => 0 <=? n) (wr_quota_capacity_units w)
  && (0 <=? wr_active_run_count w) && (1 <=? wr_max_concurrency w)
  && bool_decide (wr_readiness_reason w ∈ "ready" :: "manifest_capability_mismatch" :: map snd readiness_precedence).

Definition worker_readiness (repository_full_name : string) (selected : option RoutingCandidate)
    (e : RoutingEligibility) : Result string RepositoryWorkerReadinessOut :=
  let worker := el_worker e in
  let profile := el_profile e in
  validated worker_readiness_check
    {| wr_worker_id := w_worker_id worker; wr_display_name := wi_display_name (w_info worker);
       wr_advertises_repository :=
         bool_decide (repository_full_name ∈ wi_repository_full_names (w_info worker));
       wr_activity_state := repository_activity_state e;
       wr_routing_profile_enabled := match profile with Some p => rp_enabled p | None => false end;
       wr_estimated_comparison_units := rp_estimated_cost_units_per_run <$> profile;
       wr_quota_remaining_units := rp_quota_remaining_units <$> profile;
       wr_quota_capacity_units := rp_quota_capacity_units <$> profile;
       wr_active_run_count := w_active_run_count worker; wr_max_concurrency := w_max_concurrency worker;
       wr_readiness_reason := repository_readiness_reason e; wr_ready := isSome (el_candidate e);
       wr_selected := match selected with
                      | Some c => bool_decide (w_worker_id (cnd_worker c) = w_worker_id worker)
                      | None => false
                      end |}.

(** The query parameters, within the bounds that the route declares for them *)
Record ReadinessQuery := {
  rdq_manifest_name : option string;
  rdq_manifest_version : option string;
  rdq_routing_policy : RoutingPolicy;
  rdq_maximum_cost_units : option Z;
  rdq_required_quota_units : Z;
  rdq_preferred_executor : option string;
}.

Definition readiness_query_check (q : ReadinessQuery) : bool :=
  opt_all (len_between 1 128) (rdq_manifest_name q) && opt_all (len_between 1 64) (rdq_manifest_version q)
  && opt_all (int_between 0 MAX_ROUTING_INTEGER) (rdq_maximum_cost_units q)
  && int_between 0 MAX_ROUTING_INTEGER (rdq_required_quota_units q)
  && opt_all (len_between 1 128) (rdq_preferred_executor q).

Record TrustedRepositoryReadinessOut := {
  rro_repository_full_name : string;
  rro_manifest_name : string;
  rro_manifest_version : string;
  rro_query : ReadinessQuery;
  rro_selected_worker_id : option string;
  rro_eligible_worker_count : Z;
  rro_ready_worker_count : Z;
  rro_workers : list RepositoryWorkerReadinessOut;
}.

Definition readiness_out_check (r : TrustedRepositoryReadinessOut) : bool :=
  len_between 3 201 (rro_repository_full_name r) && len_between 1 128 (rro_manifest_name r)
  && len_between 1 64 (rro_manifest_version r)
  && opt_all (fun n => 0 <=? n) (rdq_maximum_cost_units (rro_query r)) && (0 <=? rdq_required_quota_units (rro_query r))
  && opt_all (len_between 1 128) (rdq_preferred_executor (rro_query r))
  && opt_all (len_between 1 128) (rro_selected_worker_id r) && (0 <=? rro_eligible_worker_count r)
  && (0 <=? rro_ready_worker_count r) && (Z.of_nat (length (rro_workers r)) <=? 100).

(** [_build_repository_readiness] *)
Definition build_repository_readiness (env : Env) (repository_full_name : string) (q : ReadinessQuery)
    : route TrustedRepositoryReadinessOut :=
  repository ← require (get_trusted_repository (env_repositories env) repository_full_name)
                 (Answered 404 "trusted_repository_not_found");
  _ ← ensure (bool_decide (isSome (rdq_manifest_name q) = isSome (rdq_manifest_version q)))
        (Answered 422 "manifest_identity_must_be_complete");
  let '(name, version) :=
    match rdq_manifest_name q, rdq_manifest_version q with
    | Some name, Some version => (name, version)
    | _, _ => (ref_name (repo_default_manifest repository), ref_version (repo_default_manifest repository))
    end in
  allowed ← respond (repository_allows_manifest (env_repositories env) repository_full_name name version);
  _ ← ensure allowed (Answered 422 "repository_manifest_not_allowed");
  assessment ← calling EscapedExec
    (assess_repository_readiness env repository_full_name name version (rdq_routing_policy q)
       (rdq_maximum_cost_units q) (rdq_required_quota_units q) (rdq_preferred_executor q));
  let '(evaluations, selected) := assessment in
  let eligible_count := count_if (fun e => isSome (el_candidate e)) evaluations in
  workers ← respond (map_result (worker_readiness repository_full_name selected)
                       (take (Z.to_nat MAX_READINESS_WORKERS) evaluations));
  respond (validated readiness_out_check
    {| rro_repository_full_name := repository_full_name; rro_manifest_name := name; rro_manifest_version := version;
       rro_query := q; rro_selected_worker_id := (fun c => w_worker_id (cnd_worker c)) <$> selected;
       rro_eligible_worker_count := eligible_count; rro_ready_worker_count := eligible_count;
       rro_workers := workers |}).

(** The routes that reach it, after the framework has checked the query *)
Definition get_trusted_repository_readiness (env : Env) (repository_full_name : string) (q : ReadinessQuery)
    : route TrustedRepositoryReadinessOut :=
  _ ← ensure (readiness_query_check q) (Answered 422 "validation_error");
  build_repository_readiness env repository_full_name q.

Definition get_named_trusted_repository_readiness (env : Env) (owner repository : string) (q : ReadinessQuery)
    : route TrustedRepositoryReadinessOut :=
  get_trusted_repository_readiness env (owner +:+ "/" +:+ repository) q.

(** ** The operator routes *)

Section operator_routes.
Context (env : Env) (d : DB) (g : gmap Z GitHubRequest) (stamps : Stamps).

(** A response, once the framework has accepted the query *)
Definition with_query {A} (accepted : bool) (response : Result string A) : Result RouteError A :=
  if accepted then match response with Ok a => Ok a | Err e => Err (EscapedValue e) end
  else Err (Answered 422 "validation_error").

Definition page_query (limit offset : option Z) : bool :=
  int_between 1 MAX_OPERATOR_LIMIT (default 25 limit) && int_between 0 MAX_OPERATOR_OFFSET (default 0 offset).

Definition get_operator_overview (window_days : option Z) (now : Z) : Result RouteError ExecutionOperatorOverviewOut :=
  let days := default 30 window_days in
  with_query (int_between 1 MAX_OPERATOR_WINDOW_DAYS days)
    (overview d g stamps days (env_heartbeat_freshness_seconds env) (env_active_poll_freshness_seconds env) now).

Definition list_operator_history (limit offset : option Z) (f : HistoryFilters)
    : Result RouteError (Page ExecutionHistoryItemOut) :=
  with_query
    (page_query limit offset && opt_all (len_between 3 255) (hf_repository_full_name f)
     && opt_all (fun n => 1 <=? n) (hf_pull_request_number f)
     && opt_all (fun s => bool_decide (s ∈ PUBLICATION_STATES)) (hf_publication_state f))
    (list_history d g stamps (default 25 limit) (default 0 offset) f).

Definition list_execution_workers (limit offset : option Z) (now : Z)
    : Result RouteError (Page ExecutionWorkerSummaryOut) :=
  with_query (page_query limit offset)
    (list_workers d stamps (default 25 limit) (default 0 offset) now
       (env_heartbeat_freshness_seconds env) (env_active_poll_freshness_seconds env)).
End operator_routes.
