(* ===== verification/ReadinessProofs.v ===== *)
(** * What the readiness views say

    The readiness report of the catalog is answered for every database, says "ready" exactly
    when a worker may run the reviewed default, and changes nothing; the activity shown for a
    repository agrees with the dashboard's; a malformed manifest name in the query escapes. *)

From S2P Require Import Prelude Text Json Enums TextPolicy Catalog Evidence Floats JsonCodec Documents Fingerprints Registry Capabilities Models Routing Repository Service Checks Profiles ProfileData GitHub Operator OperatorProofs Readiness.

(** ** Reasons about availability *)

Definition starts_w (s : string) : bool :=
  match s with String c _ => ord c =? 119 | EmptyString => false end.

(** No reason about capabilities, profiles or cost can be taken for one about the
    availability of the worker. *)
Lemma capability_reason_w worker name required reason :
  capability_mismatch worker name required = Some reason -> starts_w reason = false.
Proof.
  unfold capability_mismatch, platform_mismatch, version_mismatch, boolean_capability_mismatch, browser_mismatch,
    repository_write_mismatch, network_policy_mismatch, custom_capability_mismatch, BOOLEAN_CAPABILITIES.
  rewrite !bool_decide_decide.
  repeat (case_match; simplify_eq; try done); intros [= <-]; try reflexivity;
    match goal with H : name ∈ _ |- _ =>
      clear -H; repeat (apply elem_of_cons in H as [->|H]; [reflexivity|]); by apply elem_of_nil in H
    end.
Qed.

Lemma match_reason_w worker mreqs rreqs policy reason :
  reason ∈ match_reasons (match_worker_capabilities worker mreqs rreqs policy) -> starts_w reason = false.
Proof.
  assert (forall reqs, reason ∈ match_capability_mapping worker reqs -> starts_w reason = false) as Hm.
  { induction reqs as [|[name required] reqs IH]; cbn [match_capability_mapping]; [by intros ?%elem_of_nil|].
    destruct (capability_mismatch worker (lower name) required) eqn:Hc; [|done].
    intros [->|?]%elem_of_cons; [by eapply capability_reason_w|auto]. }
  cbn. rewrite elem_of_dedup, !elem_of_app. intros [?|[?|[H|H]]]; [by eapply Hm..| |]; revert H.
  - unfold match_network_policy. destruct policy; [by intros ?%elem_of_nil|].
    case_bool_decide; [by intros ?%elem_of_nil|]. by intros ->%list_elem_of_singleton.
  - destruct (repository_write_capability worker); [|by intros ?%elem_of_nil]. by intros ->%list_elem_of_singleton.
Qed.

Lemma elem_of_reason_if b r reason : reason ∈ reason_if b r <-> b = true /\ reason = r.
Proof.
  destruct b; cbn; [rewrite list_elem_of_singleton; naive_solver|]. split; [by intros ?%elem_of_nil|by intros [? _]].
Qed.

(** The reasons about the presence, the load and the freshness of a worker are given
    exactly when the worker is absent, full or stale. *)
Lemma availability_reasons w p request now hs ps reason :
  starts_w reason = true -> reason <> "worker_repository_unavailable" ->
  reason ∈ el_reasons (evaluate_routing_candidate w p request now hs ps) <->
  (w_status w <> ONLINE /\ reason = "worker_not_available") \/
  (w_max_concurrency w <= w_active_run_count w /\ reason = "worker_concurrency_limit") \/
  (fresh (Some (w_last_heartbeat_at w)) now hs = false /\ reason = "worker_heartbeat_stale") \/
  (fresh (w_last_checkout_poll_at w) now ps = false /\ reason = "worker_checkout_poll_stale").
Proof.
  intros Hw Hne. cbn [evaluate_routing_candidate el_reasons]. rewrite elem_of_dedup. unfold routing_reasons.
  rewrite !elem_of_app, !elem_of_reason_if, !negb_true_iff, !bool_decide_eq_false, Z.leb_le.
  assert (reason ∉ profile_reasons request p) as Hp.
  { unfold profile_reasons. repeat case_match; rewrite ?elem_of_reason_if;
      intros H'; (apply elem_of_nil in H' || apply list_elem_of_singleton in H' || destruct H' as [_ H']); by subst. }
  assert (reason ∉ cost_and_quota_reasons request p) as Hc.
  { unfold cost_and_quota_reasons. repeat case_match; rewrite ?elem_of_app, ?elem_of_reason_if, ?elem_of_nil; naive_solver. }
  assert (reason ∉ match_reasons (match_worker_capabilities (wi_capabilities (w_info w))
    (rq_manifest_requirements request) (rq_requested_requirements request) (rq_network_policy request))) as Hm.
  { intros Hm%match_reason_w. congruence. }
  split; [|tauto]. intros [[_ ?]|[[_ ->]|[?|H]]]; [done..|]. tauto.
Qed.

Lemma availability_given w p request now hs ps :
  let given reason := bool_decide (reason ∈ el_reasons (evaluate_routing_candidate w p request now hs ps)) in
  given "worker_not_available" = bool_decide (w_status w <> ONLINE) /\
  given "worker_heartbeat_stale" = negb (fresh (Some (w_last_heartbeat_at w)) now hs) /\
  given "worker_checkout_poll_stale" = negb (fresh (w_last_checkout_poll_at w) now ps) /\
  given "worker_concurrency_limit" = (w_max_concurrency w <=? w_active_run_count w).
Proof.
  cbv zeta. split_and!; apply eq_iff_eq_true;
    rewrite ?bool_decide_eq_true, ?negb_true_iff, ?Z.leb_le, availability_reasons by (reflexivity || discriminate);
    rewrite ?bool_decide_eq_true; (split; [intros [[? [=]]|[[? [=]]|[[? [=]]|[? [=]]]]]; done|tauto]).
Qed.

(** ** Two views of the activity of a worker *)

Lemma fresh_operator value now window : 1 <= window -> fresh value now window = operator_fresh value now window.
Proof. intros Hw. destruct value as [v|]; [|done]. cbn. by rewrite (proj2 (Z.leb_gt _ _)) by lia. Qed.

(** The activity derived from the routing diagnostics of any request is the one that the
    dashboard derives from the row, for a worker that is not marked busy and does not
    run more than it may. *)
Theorem activity_views_agree w p request now hs ps :
  1 <= hs -> 1 <= ps -> Models.row_check w = true -> w_status w <> BUSY ->
  w_active_run_count w <= w_max_concurrency w ->
  repository_activity_state (evaluate_routing_candidate w p request now hs ps) = worker_activity_state w now hs ps.
Proof.
  intros Hhs Hps Hcheck Hbusy Hload. unfold repository_activity_state.
  destruct (availability_given w p request now hs ps) as (-> & -> & -> & ->).
  rewrite !fresh_operator by done. cbn in Hcheck. rewrite !andb_true_iff, !Z.leb_le in Hcheck.
  unfold worker_activity_state. rewrite (proj2 (Z.ltb_ge _ 0)), (proj2 (Z.ltb_ge _ 1)), (proj2 (Z.ltb_ge (w_max_concurrency w) _)),
    (proj2 (Z.ltb_ge hs 0)), (proj2 (Z.ltb_ge ps 0)) by lia.
  destruct (w_status w); [|done|done|done]. cbn [orb]. rewrite bool_decide_eq_false_2 by tauto.
  rewrite bool_decide_eq_false_2 by done. done.
Qed.

(** ** Malformed manifest identities *)

(** The readiness routes accept any manifest name and version of bounded length.  One that
    is not a manifest identity is not refused: constructing the reference raises
    [ValueError], which nothing in the route catches. *)
Theorem malformed_manifest_escapes env full_name r q name version w :
  get_trusted_repository (env_repositories env) full_name = Some r ->
  rdq_manifest_name q = Some name -> rdq_manifest_version q = Some version ->
  IDENTITY_PATTERN name && VERSION_PATTERN version = false ->
  build_repository_readiness env full_name q w
  = (Err (EscapedValue "trusted manifest reference identity is invalid"), w).
Proof.
  intros Hr Hn Hv Hp. unfold build_repository_readiness, repository_allows_manifest, make_reference.
  rewrite Hr, Hn, Hv, Hp. reflexivity.
Qed.

(** ** Blockers *)

Definition blocker_codes : list string :=
  ["no_registered_workers"; "repository_unavailable"; "manifest_capability_mismatch"] ++ map snd public_reasons.

Lemma obj_get_snd {A} k (l : list (string * A)) v : obj_get k l = Some v -> v ∈ map snd l.
Proof.
  induction l as [|[k' v'] l IH]; cbn [obj_get map]; [done|]. case_bool_decide.
  - intros [= ->]. left.
  - intros H'. right. auto.
Qed.

Lemma primary_blocker_cases repo evaluations :
  (catalog_primary_blocker repo evaluations = "ready" /\ existsb (fun e => isSome (el_candidate e)) evaluations = true) \/
  (catalog_primary_blocker repo evaluations ∈ blocker_codes /\
   existsb (fun e => isSome (el_candidate e)) evaluations = false).
Proof.
  unfold catalog_primary_blocker. destruct (existsb _ _); [by left|]. right. split; [|done]. unfold blocker_codes.
  case_bool_decide; [left|]. destruct (filter _ _); [by right; left|].
  destruct (obj_get _ _) as [code|] eqn:Hc; cbn [from_option]; [|by do 2 right; left].
  apply elem_of_app. right. by eapply obj_get_snd.
Qed.

Lemma count_if_pos {A} (p : A -> bool) l : existsb p l = true <-> 0 < count_if p l.
Proof.
  induction l as [|x l IH]; [done|]. rewrite count_if_cons. cbn [existsb]. pose proof (count_if_nonneg p l).
  destruct (p x); cbn; [split; [lia|done]|]. rewrite IH. lia.
Qed.

(** A blocker is "ready" exactly when a worker can be offered the work. *)
Lemma blocker_ready repo evaluations :
  catalog_primary_blocker repo evaluations = "ready" <->
  0 < count_if (fun e => isSome (el_candidate e)) evaluations.
Proof.
  rewrite <-count_if_pos. destruct (primary_blocker_cases repo evaluations) as [[-> ->]|[Hin ->]]; [done|].
  split; [|done]. intros Heq. rewrite Heq in Hin.
  assert (bool_decide ("ready" ∈ blocker_codes) = false) as Hn by reflexivity. by apply bool_decide_eq_false in Hn.
Qed.

(** Every blocker has a label within its bound. *)
Lemma blocker_labelled repo evaluations : exists label,
  obj_get (catalog_primary_blocker repo evaluations) CATALOG_BLOCKER_LABELS = Some label /\
  bool_decide (catalog_primary_blocker repo evaluations ∈ map fst CATALOG_BLOCKER_LABELS) = true /\
  len_between 1 160 label = true.
Proof.
  assert (Forall (fun code => exists label, obj_get code CATALOG_BLOCKER_LABELS = Some label /\
    bool_decide (code ∈ map fst CATALOG_BLOCKER_LABELS) = true /\ len_between 1 160 label = true)
    ("ready" :: blocker_codes)) as Hall.
  { unfold blocker_codes. cbn [map snd public_reasons app]. repeat constructor; eexists; repeat split. }
  rewrite Forall_forall in Hall. apply Hall.
  destruct (primary_blocker_cases repo evaluations) as [[-> _]|[? _]]; [left|by right].
Qed.

(** ** The latest run of a catalog entry *)

#[local] Instance latest_first_total : Total latest_first.
Proof. intros a b. unfold latest_first. lia. Qed.

#[local] Instance latest_first_trans : Transitive latest_first.
Proof. intros a b c. unfold latest_first. lia. Qed.

(** The run projected for an entry is one of its successful runs, and none of them finished
    later; an entry without a projection has none. *)
Theorem latest_catalog_run_spec d identity :
  match latest_catalog_run d identity with
  | Some r => (exists k, db_runs d !! k = Some r) /\ catalog_run d identity r = true /\
      forall k r', db_runs d !! k = Some r' -> catalog_run d identity r' = true -> latest_first r r'
  | None => forall k r', db_runs d !! k = Some r' -> catalog_run d identity r' = false
  end.
Proof.
  unfold latest_catalog_run.
  set (rows := filter (fun r => Is_true (catalog_run d identity r)) (rows_in_order (db_runs d)).*2).
  assert (forall r, r ∈ rows <-> (exists k, db_runs d !! k = Some r) /\ catalog_run d identity r = true) as Hrows.
  { intros r. unfold rows. rewrite list_elem_of_filter, Is_true_true, list_elem_of_fmap.
    setoid_rewrite <-rows_in_order_elem. split.
    - intros [? ([k r'] & -> & ?)]. eauto.
    - intros [[k ?] ?]. split; [done|]. by exists (k, r). }
  assert (StronglySorted latest_first (merge_sort latest_first rows)) as Hs by apply (StronglySorted_merge_sort _).
  pose proof (merge_sort_Permutation latest_first rows) as Hp.
  destruct (merge_sort latest_first rows) as [|r sorted]; cbn [head].
  - intros k r' Hk. destruct (catalog_run d identity r') eqn:Hr; [|done]. exfalso.
    apply Permutation_nil in Hp. apply (not_elem_of_nil r'). rewrite <-Hp. apply Hrows. eauto.
  - assert (r ∈ rows) as Hr by (rewrite <-Hp; left). apply Hrows in Hr as [? ?]. split_and!; [done..|].
    intros k r' Hk Hr'. assert (r' ∈ r :: sorted) as [->|Hin]%elem_of_cons by (rewrite Hp; apply Hrows; eauto).
    + unfold latest_first. lia.
    + apply StronglySorted_cons in Hs as [Hs _]. rewrite Forall_forall in Hs. auto.
Qed.

Lemma latest_result_bounds d identity :
  opt_all latest_result_check (catalog_latest_result (project_run identity <$> latest_catalog_run d identity)) = true.
Proof.
  pose proof (latest_catalog_run_spec d identity) as Hl.
  destruct (latest_catalog_run d identity) as [r|]; [|done]. destruct Hl as (_ & Hr & _).
  unfold catalog_run in Hr. rewrite !andb_true_iff in Hr. destruct Hr as [_ Hd%bool_decide_eq_true].
  cbn -[int_between Z.leb]. unfold latest_result_check. cbn [lr_reuse_decision lr_duration_seconds lr_step_count lr_avoided_work_count].
  set (steps := match res_evidence_metadata (run_result r) with Some e => Z.of_nat (length (ev_steps e)) | None => 0 end).
  assert (0 <= steps) by (unfold steps; case_match; lia).
  assert (int_between 0 128 (if steps <=? MAX_CATALOG_RESULT_STEPS then steps else 0) = true) as Hsteps.
  { unfold int_between. destruct (Z.leb_spec steps MAX_CATALOG_RESULT_STEPS) as [Hle|]; [|done].
    unfold MAX_CATALOG_RESULT_STEPS in Hle. rewrite andb_true_iff, !Z.leb_le. lia. }
  rewrite Hsteps, !andb_true_iff. split_and!; [..|done|].
  - apply bool_decide_eq_true. apply elem_of_cons in Hd as [->|Hd]; [left|].
    apply list_elem_of_singleton in Hd as ->. right. left.
  - destruct (run_started_at r), (run_finished_at r); [|done..]. cbn [mbind option_bind].
    destruct (int_between _ _ (int_seconds _)) eqn:Hi; [exact Hi|done].
  - case_bool_decide; done.
Qed.

(** ** The report *)

Lemma projection_latest d identities i : i ∈ identities ->
  projection_of i (omap (fun i => r ← latest_catalog_run d i; Some (i, project_run i r)) identities)
  = project_run i <$> latest_catalog_run d i.
Proof.
  unfold projection_of. induction identities as [|j identities IH]; [by intros ?%elem_of_nil|].
  intros Hi. cbn [omap list_omap]. destruct (decide (j = i)) as [->|Hne].
  - destruct (latest_catalog_run d i) as [r|] eqn:Hr; cbn [mbind option_bind fmap option_fmap option_map].
    + rewrite filter_cons, decide_True by done. done.
    + clear Hi IH. induction identities as [|j identities IH]; [done|]. cbn [omap list_omap].
      destruct (latest_catalog_run d j) as [r|] eqn:Hj; cbn [mbind option_bind]; [|done].
      rewrite filter_cons, decide_False; [done|]. cbn. intros ->. congruence.
  - apply elem_of_cons in Hi as [?|Hi]; [done|]. destruct (latest_catalog_run d j) as [r|]; cbn [mbind option_bind]; [|auto].
    rewrite filter_cons, decide_False by done. auto.
Qed.

Section report.
Context (env : Env) (profiles : list WorkloadProfile).

(** The parts of an entry that the catalog alone decides *)
Definition fixed_part (entry : TrustedRepository * TrustedManifest) : bool :=
  entry_fixed_check (entry_fields (assess_entry env profiles [] 0 [] entry) "").

Definition catalog_fits (resolved : list (TrustedRepository * TrustedManifest)) : bool :=
  forallb fixed_part resolved && int_between 4 4 (Z.of_nat (length resolved))
  && negb (MAX_CATALOG_LATEST_PROJECTIONS <? Z.of_nat (length (dedup (map entry_identity resolved))))
  && forallb identity_present (dedup (map entry_identity resolved)).

(** The workers that may run the default manifest of an entry *)
Definition ready_keys (d : DB) (now : Z) (entry : TrustedRepository * TrustedManifest) : list string :=
  filter (fun k => Is_true (match db_workers d !! k with
    | Some w => isSome (el_candidate (evaluate_routing_candidate w (db_profiles d !! k)
                  (catalog_request entry.1 entry.2) now (env_heartbeat_freshness_seconds env)
                  (env_active_poll_freshness_seconds env)))
    | None => false
    end)) (sort_strings (map_to_list (db_workers d)).*1).

Lemma ready_keys_count d now entry :
  count_if (fun e => isSome (el_candidate e)) (snapshot_eligibilities env (catalog_request entry.1 entry.2) now (worker_rows d))
  = Z.of_nat (length (ready_keys d now entry)).
Proof.
  unfold ready_keys, worker_rows, snapshot_eligibilities.
  generalize (sort_strings (map_to_list (db_workers d)).*1). intros keys.
  induction keys as [|k keys IH]; [done|]. cbn [omap list_omap]. rewrite filter_cons.
  destruct (db_workers d !! k) as [w|] eqn:Hk; cbn [mbind option_bind map]; [|by rewrite decide_False by auto].
  rewrite count_if_cons, IH. cbn [fst snd]. destruct (isSome _); [rewrite decide_True by done|rewrite decide_False by auto];
    cbn [length]; lia.
Qed.

Lemma ready_keys_spec d now entry :
  NoDup (ready_keys d now entry) /\
  forall k, k ∈ ready_keys d now entry <-> exists w, db_workers d !! k = Some w /\
    may_run w (db_profiles d !! k) (catalog_request entry.1 entry.2) now
      (env_heartbeat_freshness_seconds env) (env_active_poll_freshness_seconds env).
Proof.
  unfold ready_keys. split.
  - apply NoDup_filter. rewrite sort_strings_perm. apply NoDup_fst_map_to_list.
  - intros k. rewrite list_elem_of_filter, sort_strings_perm, list_elem_of_fmap, Is_true_true.
    setoid_rewrite <-evaluate_reasons_nil. split.
    + intros [Hr _]. destruct (db_workers d !! k) as [w|]; [|done]. exists w. split; [done|].
      destruct (evaluate_candidate_or_reasons w (db_profiles d !! k) (catalog_request entry.1 entry.2) now
        (env_heartbeat_freshness_seconds env) (env_active_poll_freshness_seconds env)) as [[_ ?]|[Hn _]]; [done|].
      by rewrite Hn in Hr.
    + intros (w & Hw & Hr). rewrite Hw. split; [|exists (k, w); split; [done|by apply elem_of_map_to_list]].
      destruct (evaluate_candidate_or_reasons w (db_profiles d !! k) (catalog_request entry.1 entry.2) now
        (env_heartbeat_freshness_seconds env) (env_active_poll_freshness_seconds env)) as [[-> _]|[_ Hn]]; done.
Qed.

Lemma worker_rows_length d : length (worker_rows d) = size (db_workers d).
Proof.
  unfold worker_rows. rewrite <-length_map_to_list.
  transitivity (length (sort_strings (map_to_list (db_workers d)).*1)); [|by rewrite sort_strings_perm, length_fmap].
  assert (Forall (fun k => is_Some (db_workers d !! k)) (sort_strings (map_to_list (db_workers d)).*1)) as Hk.
  { rewrite sort_strings_perm. apply Forall_forall. intros k ([k' w] & -> & Hw)%list_elem_of_fmap.
    apply elem_of_map_to_list in Hw. eauto. }
  induction Hk as [|k keys [w Hw] _ IH]; [done|]. cbn [omap list_omap]. rewrite Hw. cbn. by rewrite IH.
Qed.

(** The latest runs that the report reads *)
Definition latest_runs (d : DB) (resolved : list (TrustedRepository * TrustedManifest)) :=
  omap (fun i => r ← latest_catalog_run d i; Some (i, project_run i r)) (dedup (map entry_identity resolved)).

Definition assessed (d : DB) (now : Z) (resolved : list (TrustedRepository * TrustedManifest))
    (entry : TrustedRepository * TrustedManifest) : CatalogReadinessAssessment :=
  assess_entry env profiles (worker_rows d) now (latest_runs d resolved) entry.

Lemma entry_answered d now resolved entry :
  (size (db_workers d) <= 100)%nat -> entry ∈ resolved -> fixed_part entry = true ->
  exists e, entry_out (assessed d now resolved entry) = Ok e /\ ce_repository e = repo_full_name entry.1 /\
    ce_ready_count e = Z.of_nat (length (ready_keys d now entry)) /\
    (ce_blocker_code e = "ready" <-> 0 < ce_ready_count e).
Proof.
  intros Hsize Hin Hfix. destruct entry as [r m]. set (a := assessed d now resolved (r, m)).
  assert (cra_ready_count a = Z.of_nat (length (ready_keys d now (r, m)))) as Hcount
    by exact (ready_keys_count d now (r, m)).
  destruct (blocker_labelled (repo_full_name r) (snapshot_eligibilities env (catalog_request r m) now (worker_rows d)))
    as (label & Hl & Hcode & Hlabel).
  assert (cra_latest_result a = catalog_latest_result (project_run (entry_identity (r, m))
            <$> latest_catalog_run d (entry_identity (r, m)))) as Hlatest.
  { cbn -[catalog_latest_result projection_of entry_identity]. f_equal. apply projection_latest, elem_of_dedup.
    apply list_elem_of_fmap. eauto. }
  exists (entry_fields a label). split; [|split; [done|split; [exact Hcount|exact (blocker_ready _ _)]]].
  unfold entry_out. change (cra_primary_blocker_code a) with (catalog_primary_blocker (repo_full_name r)
    (snapshot_eligibilities env (catalog_request r m) now (worker_rows d))). rewrite Hl.
  assert (entry_check (entry_fields a label) = true) as ->; [|done]. unfold entry_check.
  change (entry_fixed_check (entry_fields a label)) with (fixed_part (r, m)). rewrite Hfix.
  unfold entry_varying_check. cbn [andb entry_fields ce_ready_count ce_blocker_code ce_blocker_label ce_latest_result].
  rewrite Hlatest, Hcount, latest_result_bounds, Hlabel.
  change (cra_primary_blocker_code a) with (catalog_primary_blocker (repo_full_name r)
    (snapshot_eligibilities env (catalog_request r m) now (worker_rows d))). rewrite Hcode.
  rewrite !andb_true_r. unfold int_between. rewrite andb_true_iff, !Z.leb_le. split; [lia|].
  rewrite <-ready_keys_count. etransitivity; [apply count_if_le|]. unfold snapshot_eligibilities.
  rewrite length_map, worker_rows_length. lia.
Qed.

Lemma assess_catalog_readiness_run resolved w :
  resolve_defaults env = Ok resolved -> catalog_fits resolved = true ->
  assess_catalog_readiness env profiles w =
    if (100 <? size (db_workers (db w)))%nat
    then (Err (CatalogReadinessLimitError "catalog_readiness_worker_limit_exceeded"), w)
    else (Ok (map (assessed (db w) (env_clock env (reads w)) resolved) resolved), w <| reads := S (reads w) |>).
Proof.
  intros Hres Hfit. unfold catalog_fits in Hfit. rewrite !andb_true_iff in Hfit. destruct Hfit as [[_ Hmax] Hpresent].
  unfold assess_catalog_readiness. rewrite Hres. unfold lift_result, list_catalog_readiness_workers, from_db, gets,
    mbind, M_bind. cbv zeta.
  change (Z.to_nat MAX_CATALOG_READINESS_WORKERS) with 100%nat.
  cbn [snapshot_limit_exceeded snapshot_workers]. rewrite length_take, worker_rows_length.
  destruct (Nat.ltb_spec 100 (size (db_workers (db w)))) as [Hgt|Hle].
  - rewrite (proj2 (Z.ltb_lt _ _)) by (unfold MAX_CATALOG_READINESS_WORKERS; lia). done.
  - rewrite (proj2 (Z.ltb_ge _ _)) by (unfold MAX_CATALOG_READINESS_WORKERS; lia). cbn [negb ensure mret M_ret].
    unfold list_latest_successful_catalog_runs, mbind, M_bind.
    assert (existsb (fun i => negb (identity_present i)) (dedup (map entry_identity resolved)) = false) as ->.
    { apply existsb_false. apply forallb_Forall in Hpresent. eapply Forall_impl; [exact Hpresent|]. by intros i ->. }
    apply negb_true_iff in Hmax. rewrite Hmax. cbn [orb negb ensure mret M_ret now from_db gets].
    rewrite take_take, Nat.min_l, take_ge by (rewrite ?worker_rows_length; lia). done.
Qed.

(** The answer of the readiness route for a catalog that fits *)
Lemma catalog_readiness_run resolved w :
  resolve_defaults env = Ok resolved -> catalog_fits resolved = true -> (size (db_workers (db w)) <= 100)%nat ->
  exists entries, get_catalog_readiness env profiles w = (Ok entries, w <| reads := S (reads w) |>) /\
    Forall2 (fun entry e => ce_repository e = repo_full_name entry.1 /\
      ce_ready_count e = Z.of_nat (length (ready_keys (db w) (env_clock env (reads w)) entry)) /\
      (ce_blocker_code e = "ready" <-> 0 < ce_ready_count e)) resolved entries.
Proof.
  intros Hres Hfit Hsize. pose proof Hfit as Hfit'. unfold catalog_fits in Hfit'. rewrite !andb_true_iff in Hfit'.
  destruct Hfit' as [[[Hfixed Hfour] _] _]. apply forallb_Forall in Hfixed.
  assert (exists entries, Forall2 (fun entry e =>
    entry_out (assessed (db w) (env_clock env (reads w)) resolved entry) = Ok e /\ ce_repository e = repo_full_name entry.1 /\
    ce_ready_count e = Z.of_nat (length (ready_keys (db w) (env_clock env (reads w)) entry)) /\
    (ce_blocker_code e = "ready" <-> 0 < ce_ready_count e)) resolved entries) as [entries Hall].
  { apply Forall_exists_Forall2_l. rewrite Forall_forall in Hfixed |- *. intros entry Hin. apply entry_answered; auto. }
  exists entries. split; [|eapply Forall2_impl; [exact Hall|]; naive_solver].
  unfold get_catalog_readiness, mbind, M_bind, calling. rewrite (assess_catalog_readiness_run resolved w Hres Hfit).
  rewrite (proj2 (Nat.ltb_ge _ _)) by done.
  assert (map_result entry_out (map (assessed (db w) (env_clock env (reads w)) resolved) resolved) = Ok entries) as ->.
  { apply map_result_Forall2, Forall2_fmap_l. eapply Forall2_impl; [exact Hall|]. by intros ? ? [? _]. }
  unfold lift_result, respond, validated. by rewrite <-(Forall2_length _ _ _ Hall), Hfour.
Qed.
End report.

(** ** The declared catalog *)

(** What the import of the server loads *)
Definition declared (env : Env) : Prop := import_registry = Ok (env_manifests env, env_repositories env).

Definition resolved_fits (env : Env) : bool :=
  match resolve_defaults env with Ok resolved => catalog_fits env WORKLOAD_PROFILES resolved | Err _ => false end.

Lemma resolve_defaults_entries env resolved : resolve_defaults env = Ok resolved ->
  Forall2 (fun r entry => entry.1 = r /\
    get_trusted_manifest (env_manifests env) (ref_name (repo_default_manifest r)) (ref_version (repo_default_manifest r))
    = Some entry.2) (env_repositories env) resolved.
Proof.
  unfold resolve_defaults. rewrite map_result_Forall2. intros H. eapply Forall2_impl; [exact H|].
  intros r entry. cbn. destruct (get_trusted_manifest _ _ _); [|done]. by intros [= <-].
Qed.

Lemma declared_fits env : declared env -> resolved_fits env = true.
Proof.
  unfold declared. destruct env as [clock lease hs ps manifests repositories iso]. cbn [env_manifests env_repositories].
  intros H. vm_compute in H. injection H as <- <-. vm_compute. reflexivity.
Qed.

(** The readiness report of the declared catalog: for every database of at most a hundred
    workers it is answered, with one entry per trusted repository whose count is the number of
    workers that may run its default manifest and whose blocker is "ready" exactly when
    there is one; beyond a hundred workers the answer is 503.  No table changes. *)
Theorem catalog_readiness_answers env w :
  declared env ->
  ((100 < size (db_workers (db w)))%nat ->
   get_catalog_readiness env WORKLOAD_PROFILES w
   = (Err (Answered 503 "catalog_readiness_worker_limit_exceeded"), w)) /\
  ((size (db_workers (db w)) <= 100)%nat ->
   exists entries, get_catalog_readiness env WORKLOAD_PROFILES w = (Ok entries, w <| reads := S (reads w) |>) /\
     Forall2 (fun r e => ce_repository e = repo_full_name r /\ (ce_blocker_code e = "ready" <-> 0 < ce_ready_count e) /\
       exists m ready,
         get_trusted_manifest (env_manifests env) (ref_name (repo_default_manifest r)) (ref_version (repo_default_manifest r))
         = Some m /\
         NoDup ready /\ ce_ready_count e = Z.of_nat (length ready) /\
         forall k, k ∈ ready <-> exists worker, db_workers (db w) !! k = Some worker /\
           may_run worker (db_profiles (db w) !! k) (catalog_request r m) (env_clock env (reads w))
             (env_heartbeat_freshness_seconds env) (env_active_poll_freshness_seconds env))
       (env_repositories env) entries).
Proof.
  intros Hd. apply declared_fits in Hd. unfold resolved_fits in Hd.
  destruct (resolve_defaults env) as [resolved|] eqn:Hres; [|done]. split; intros Hsize.
  - unfold get_catalog_readiness, mbind, M_bind, calling.
    rewrite (assess_catalog_readiness_run env WORKLOAD_PROFILES resolved w Hres Hd). by rewrite (proj2 (Nat.ltb_lt _ _)).
  - destruct (catalog_readiness_run env WORKLOAD_PROFILES resolved w Hres Hd Hsize) as (entries & Hrun & Hall).
    exists entries. split; [done|]. apply resolve_defaults_entries in Hres. clear Hrun Hd.
    revert entries Hall. induction Hres as [|r entry rs es [He Hm] _ IH]; intros entries Hall; inversion Hall as [|? e ? es' (Hn & Hc & Hb) Hrest]; subst; constructor; [|auto].
    split; [done|]. split; [done|].
    exists entry.2, (ready_keys env (db w) (env_clock env (reads w)) entry).
    destruct (ready_keys_spec env (db w) (env_clock env (reads w)) entry) as [? ?]. auto.
Qed.
