(* ===== verification/EdgeWitnesses.v ===== *)
(** * Concrete exchanges at the boundary of the server

    A GitHub that answers every call and the publication of a request on it; then the
    properties of the boundary components (documents, profiles, parsers, credentials, rate
    limiting, the GitHub adapter) and of the operator views that have hypotheses, each
    applied at a concrete input where they hold. *)

From S2P Require Import Prelude Text Json Enums Catalog Evidence Documents Registry Capabilities Models Routing Repository Service System Fixtures Checks GitHub GitHubService JsonCodec Url Transport TransportProofs.

Definition actor : GitHubActorIdentity := {| actor_id := 7; actor_node_id := "U_7" |}.

Definition pull_request : ResolvedPullRequest :=
  {| pr_repository_full_name := repo_name; pr_repository_id := 11; pr_repository_node_id := "R_11";
     pr_pull_request_number := 5; pr_pull_request_id := 55; pr_pull_request_node_id := "PR_55";
     pr_state := "open"; pr_draft := false; pr_merged := false; pr_base_ref := "main";
     pr_base_sha := wos_commit_sha first_spec; pr_head_ref := "topic";
     pr_head_sha := Some (wos_commit_sha first_spec); pr_head_repository_full_name := Some repo_name;
     pr_head_repository_id := Some 11 |}.

Definition github_settings : GitHubSettings :=
  {| gh_api_url := "https://api.github.com"; gh_host := "github.com"; gh_operator_id := "operator" |}.

Definition default_policy : RequestPolicy :=
  {| rp_reuse := NEVER; rp_routing := FIRST_AVAILABLE; rp_maximum_cost := None; rp_required_quota := 0;
     rp_preferred := None |}.

Definition request_key : string :=
  Eval vm_compute in
    idempotency_key github_settings actor pull_request (wos_commit_sha first_spec) manifest_worker_smoke default_policy.

Definition request_row : GitHubRequest :=
  {| gr_id := 1;
     gr_identity := new_identity github_settings repo_name request_key (wos_commit_sha first_spec) repo_name 11
                      actor pull_request manifest_worker_smoke 1;
     gr_publication := unpublished (seconds 1000); gr_claim := None |}.

(** GitHub has no comment yet, and creates the one it is asked for. *)
Definition github : Outside :=
  {| out_cancelled := fun _ => None;
     out_others := fun _ tw => tw;
     out_clock := fun n => seconds (2000 + Z.of_nat n);
     out_token := fun _ => "claim-token";
     out_actor := fun _ => Ok actor;
     out_pull_request := fun _ _ _ _ => Ok pull_request;
     out_get_comment := fun _ _ _ => Err (AdapterError TransportError "github_comment_not_found");
     out_list_comments := fun _ _ _ => Ok {| listing_comments := []; listing_complete := true |};
     out_create_comment := fun _ repository number body =>
       Ok {| comment_id := 99; comment_body := body; comment_author := actor;
             comment_repository_full_name := repository; comment_pull_request_number := number |};
     out_update_comment := fun _ _ _ _ => Err OtherError |}.

Definition before_publication : GhState :=
  {| gs_requests := {[ 1 := request_row ]}; gs_world := second_run_world; gs_turn := 0; gs_log := [] |}.

Definition publication_run : Result GhError GitHubRequestStatus * GhState :=
  publish (env_at (seconds 2000)) github 1 before_publication.

(** The publication succeeds: the row records the comment and the claim is free again. *)
Example published :
  match publication_run.2 with
  | {| gs_requests := t |} => (fun r => (pub_state (gr_publication r), pub_managed_comment_id (gr_publication r), gr_claim r)) <$> t !! 1
  end = Some ("published_current", Some 99, None).
Proof. vm_compute. reflexivity. Qed.

(** The comment about a reused result says that the execution was fresh. *)
Theorem reused_rendered_fresh :
  (prov_decision <$> ev_reuse_provenance reused_evidence) = Some "reused" /\
  exists body,
    render_managed_comment (gr_identity request_row) reused_evidence "current" "github_pr_resolved" = Some body /\
    str_contains "Execution provenance: `fresh`" body = true.
Proof. split; [reflexivity|]. eexists. split; vm_compute; reflexivity. Qed.

(** ** The same pull request, as GitHub's API writes it *)

Definition repository_json : Json :=
  JObj [("id", JInt 11); ("node_id", JStr "R_11"); ("full_name", JStr repo_name)].

Definition ref_json (ref : string) : Json :=
  JObj [("ref", JStr ref); ("sha", JStr (wos_commit_sha first_spec)); ("repo", repository_json)].

Definition pull_json : Json :=
  JObj [("id", JInt 55); ("node_id", JStr "PR_55"); ("number", JInt 5); ("state", JStr "open");
        ("draft", JBool false); ("merged", JBool false); ("base", ref_json "main"); ("head", ref_json "topic")].

Definition user_json : Json := JObj [("id", JInt 7); ("node_id", JStr "U_7"); ("login", JStr "operator")].

(** The server behind [https://api.github.com/]: it fails once, then answers. *)
Definition api : Net := fun n request =>
  if bool_decide (n = 0%nat) then None
  else Some {| rsp_status := 200; rsp_headers := [("Content-Type", "application/json; charset=utf-8")];
               rsp_url := to_chars ("https://api.github.com/" +:+ sent_route request);
               rsp_chunks := [to_chars (dumps true
                 (if bool_decide (sent_route request = "user") then user_json
                  else if str_contains "pulls" (sent_route request) then pull_json else repository_json))] |}.

Definition api_transport : Transport :=
  Eval vm_compute in default {| expected_origin := ([], [], None); expected_path_prefix := [] |}
                       (make_transport (fun _ => false) "https://api.github.com").

Definition through_api : Outside :=
  outside_of (fun _ => false) api_transport (fun _ => api) (fun _ tw => tw) (fun _ => seconds 2000) (fun _ => "token").

Example resolved_through_api :
  out_actor through_api 0 = Ok actor /\ out_pull_request through_api 1 repo_name 5 true = Ok pull_request.
Proof. split; vm_compute; reflexivity. Qed.

(** * Witnesses of the boundary components

    The properties of documents, profiles, parsers, credentials, rate limiting and the
    GitHub adapter that have hypotheses, each applied at a concrete input where they hold. *)

From S2P Require Import Prelude Text Json Enums TextPolicy Catalog Evidence Floats JsonCodec Documents Fingerprints Registry Capabilities Models Routing Repository Service Steps Invariants System Fixtures Checks Profiles ProfileProofs ProfileData Parsers WorkerContracts Credentials CredentialProofs RateLimit GitHub GitHubService GitHubProofs GitHubPublication GitHubRequests Url Transport TransportProofs.

(** ** Documents *)

Lemma iso_micros_inj : Inj (=) (=) iso_micros.
Proof.
  intros a b Hab. assert (canon (JInt a) = canon (JInt b)) as [= ->]; [|done].
  apply (same_text false); [constructor..|exact Hab].
Qed.

Lemma evidence_documents_ok : document_ok fresh_evidence /\ document_ok reused_evidence.
Proof.
  assert (proper_float (ev_duration_seconds fresh_evidence)) as Hf by (split; vm_compute; reflexivity).
  split; (split; [exact Hf|constructor]).
Qed.

Lemma evidence_json_round_trip_witness :
  loads (canonical_evidence_json iso_micros reused_evidence)
  = Some (canon (JObj (draft_fields iso_micros reused_evidence))).
Proof. apply (evidence_json_round_trip iso_micros reused_evidence); [apply iso_micros_inj|apply evidence_documents_ok]. Defined.

Lemma evidence_fingerprint_identifies_witness :
  fresh_evidence = fresh_evidence \/
  collision (canonical_evidence_json iso_micros fresh_evidence) (canonical_evidence_json iso_micros fresh_evidence).
Proof.
  apply (evidence_fingerprint_identifies iso_micros fresh_evidence fresh_evidence);
    [apply iso_micros_inj|apply evidence_documents_ok..|vm_compute; reflexivity|vm_compute; reflexivity|reflexivity].
Defined.

(** ** Profiles *)

Lemma industry_constructed : construct_profile INDUSTRY_PROFILE = Ok tt.
Proof. vm_compute. reflexivity. Qed.

Lemma profile_compiles_witness :
  exists m, compile_manifest INDUSTRY_PROFILE = Ok m /\ check_manifest m = Ok tt.
Proof.
  pose proof (profile_compiles INDUSTRY_PROFILE industry_constructed) as H.
  change (portable_profile INDUSTRY_PROFILE) with true in H. destruct H as (m & H1 & H2 & _). exists m. auto.
Defined.

Definition industry_manifest : TrustedManifest :=
  Eval vm_compute in match compile_manifest INDUSTRY_PROFILE with Ok m => m | Err _ => manifest_worker_smoke end.

Lemma industry_compiled : compile_manifest INDUSTRY_PROFILE = Ok industry_manifest.
Proof. vm_compute. reflexivity. Qed.

Lemma compiled_manifest_bounded_witness :
  NoDup (map ts_id (tm_execution_steps industry_manifest)) /\
  Z.of_nat (length (tm_artifact_declarations industry_manifest)) <= MAX_ARTIFACT_COUNT.
Proof.
  destruct (compiled_manifest_bounded INDUSTRY_PROFILE industry_manifest industry_constructed industry_compiled)
    as (_ & H1 & _ & H2 & _). auto.
Defined.

Definition contracted_step : WorkloadStep :=
  Eval vm_compute in default (industry_step "" "" [] true 1 1 None [])
    (head (filter (fun s => isSome (ws_result_contract s) = true) (wp_steps INDUSTRY_PROFILE))).

Lemma worker_reads_contract_witness :
  step_result_contract industry_manifest (ws_id contracted_step)
  = Ok (contract_object <$> ws_result_contract contracted_step).
Proof.
  apply (worker_reads_contract INDUSTRY_PROFILE industry_manifest contracted_step
           industry_constructed industry_compiled).
  right. left.
Defined.

(** ** Parsers *)

Definition passing_output : Output :=
  {| out_stdout := Some (to_chars "=== 17 passed in 1.2s ===" ++ [chr 10]
                         ++ to_chars "TOTAL   1200   12   93.5%" ++ [chr 10]);
     out_stderr := Some []; out_report := None |}.

Definition coverage_contract : list (string * Json) :=
  contract_object (stdout_contract "pytest-coverage" (Some 90) (Some 10) ["tests"; "coverage"] []).

Definition passing_result : ParsedResult :=
  Eval vm_compute in
    match parse_result P_PYTEST_COVERAGE passing_output true (Some coverage_contract) with
    | Ok r => r | Err _ => parser_failed P_PYTEST_COVERAGE end.

Lemma parse_result_typed_witness : valid_parsed_result passing_result = true.
Proof.
  apply (parse_result_typed P_PYTEST_COVERAGE passing_output true (Some coverage_contract)).
  vm_compute. reflexivity.
Defined.

Lemma contract_enforced_witness : contract_met coverage_contract passing_result.
Proof.
  apply (contract_enforced P_PYTEST_COVERAGE passing_output true coverage_contract); vm_compute; reflexivity.
Defined.

(** ** Rate limiting *)

Definition two_per_second : RateLimitSettings :=
  {| rls_requests := 2; rls_window_seconds := 1; rls_trusted_proxies := []; rls_trusted_bypass := [] |}.

Definition burst : list (Z * ClientRequest) :=
  let r := {| rq_client_host := Some "10.0.0.1"; rq_forwarded_for := None |} in
  [(0, r); (10, r); (20, r); (2000000000, r)].

Lemma burst_in_order : in_order burst.
Proof. repeat constructor; cbn; lia. Qed.

Lemma rate_limit_reference_witness :
  (permit_all two_per_second burst ∅).1 = [CallNext; CallNext; TooManyRequests 1; CallNext].
Proof. rewrite <-(rate_limit_reference two_per_second burst burst_in_order). vm_compute. reflexivity. Defined.

Lemma rate_limit_bound_witness :
  Z.of_nat (length (default [] ((dispatch_all two_per_second burst ∅).2 !! "10.0.0.1"))) <= 2.
Proof. apply (rate_limit_bound two_per_second burst "10.0.0.1" 0 burst_in_order eq_refl). Defined.

(** ** Worker credentials *)

Definition credential_one : string := "0123456789abcdef0123456789abcdef".
Definition secret_one : string := "0123456789abcdef0123456789abcdef0123456789abcdef0123456789abcdef".

Definition issued : list Event := [Administer (seconds 1000) (Issue "worker-a" credential_one secret_one)].

Lemma issued_proper : Forall proper_event issued.
Proof. repeat constructor. Qed.

Lemma credentials_refine_witness :
  exists id, authenticate (st_credentials (history issued).1) (token_text credential_one secret_one)
             = Some {| wpr_worker_id := "worker-a"; wpr_credential_id := id |}.
Proof.
  apply (credentials_refine issued (token_text credential_one secret_one) "worker-a" issued_proper).
  vm_compute. reflexivity.
Defined.

Definition bearer_request : WorkerRequest :=
  {| rq_authorization := ["Bearer " +:+ token_text credential_one secret_one]; rq_admin_token := [];
     rq_path := "/execution/worker/checkout"; rq_query := [] |}.

Lemma worker_request_scoped_witness :
  "worker-a" = wpr_worker_id {| wpr_worker_id := "worker-a"; wpr_credential_id := credential_one |}.
Proof.
  apply (worker_request_scoped (env_at (seconds 1001)) bearer_request (RouteCheckout "worker-a") (history issued).1
    (Ok {| wpr_worker_id := "worker-a"; wpr_credential_id := credential_one |})
    (worker_request (env_at (seconds 1001)) bearer_request (RouteCheckout "worker-a") (history issued).1).2);
    vm_compute; reflexivity.
Defined.

(** ** The GitHub adapter *)

Definition requests : gmap Z GitHubRequest := {[ 1 := request_row ]}.

(** The first publisher renews its claim, an early attempt of the second one fails, and
    its next one, a lifetime after the renewal, takes the claim over. *)
Definition contest : list (Z * ClaimOp) := [(seconds 2050, RenewOp "first"); (seconds 2100, AcquireOp "second")].

Lemma claim_windows_exclude_witness :
  exists pre s c post, contest ++ [(seconds 2350, AcquireOp "second")] = pre ++ (s, AcquireOp c) :: post /\ c <> "first" /\
    last_kept 1 "first" (seconds 2000) pre (claim_op 1 (seconds 2000) (AcquireOp "first") requests).2
      + PUBLICATION_CLAIM_TTL <= s.
Proof.
  destruct (claim_windows_exclude 1 (seconds 2000) (AcquireOp "first") (AcquireOp "second") "first" "second"
           contest (seconds 2350) requests request_row) as (pre & s & c & post & H1 & H2 & _ & H3 & _);
    try (vm_compute; reflexivity).
  - discriminate.
  - repeat constructor; discriminate.
  - exists pre, s, c, post. auto.
Defined.

Definition taken_over : gmap Z GitHubRequest := (claim_op 1 (seconds 2000) (AcquireOp "second") requests).2.

Lemma lost_claim_is_fenced_witness :
  claim_op 1 (seconds 2010) (FinalizeOp "first" no_values) taken_over = (false, taken_over).
Proof.
  apply (lost_claim_is_fenced 1 "first" [] (seconds 2010) (FinalizeOp "first" no_values) taken_over
    (default request_row (taken_over !! 1))).
  - vm_compute. reflexivity.
  - vm_compute. intros c [= <-]. discriminate.
  - constructor.
  - right. eauto.
Defined.

Definition claimed : gmap Z GitHubRequest := (claim_op 1 (seconds 2000) (AcquireOp "claim-token") requests).2.

Definition claimed_state : GhState :=
  {| gs_requests := claimed; gs_world := second_run_world; gs_turn := 0; gs_log := [] |}.

Definition claimed_run : Result GhError GitHubRequestStatus * GhState :=
  Eval vm_compute in publish_claimed (env_at (seconds 2000)) github request_row "claim-token" claimed_state.

(** The creation of the comment is the sixth event. *)
Definition before_creation : list GhEvent := Eval vm_compute in take 5 (gs_log claimed_run.2).
Definition creation : GhEvent := Eval vm_compute in default (EvActor (Ok actor)) (gs_log claimed_run.2 !! 5%nat).

Lemma publication_justified_witness :
  is_creation creation /\ allowed request_row "claim-token" before_creation creation /\ no_finalize before_creation.
Proof.
  split; [exact I|].
  apply (publication_justified (env_at (seconds 2000)) github request_row "claim-token" claimed_state
           claimed_run.1 claimed_run.2) with (l2 := drop 6 (gs_log claimed_run.2)); vm_compute; reflexivity.
Defined.

Lemma publish_releases_witness : publish_outcome 1 publication_run.1 (gs_log publication_run.2).
Proof.
  apply (publish_releases (env_at (seconds 2000)) github 1 before_publication);
    [reflexivity|]. unfold publication_run. by destruct (publish _ _ _ _).
Defined.

Definition comment_text : string :=
  Eval vm_compute in default "" (render_managed_comment (gr_identity request_row) fresh_evidence
                                   "current" "github_pr_resolved").

Lemma rendered_comment_marked_witness : str_length comment_text <= 12 * 1024.
Proof.
  apply (rendered_comment_marked (gr_identity request_row) fresh_evidence "current" "github_pr_resolved").
  vm_compute. reflexivity.
Defined.

Lemma request_key_identifies_witness :
  default_policy = default_policy \/
  collision
    (dumps true (key_payload github_settings actor pull_request "" manifest_worker_smoke default_policy))
    (dumps true (key_payload github_settings actor pull_request "" manifest_worker_smoke default_policy)).
Proof.
  destruct (request_key_identifies github_settings actor pull_request "" manifest_worker_smoke default_policy
    actor pull_request "" manifest_worker_smoke default_policy eq_refl) as [[_ H]|H]; auto.
Defined.

Definition answered_run : Result GhError GitHubRequestStatus * GhState :=
  Eval vm_compute in
    request_validation (env_at (seconds 2000)) github_settings github repo_name 5 "worker-smoke" "1" default_policy
      before_publication.

Lemma validation_answer_witness :
  match answered_run with
  | (Ok st, s) => answered (env_at (seconds 2000)) github_settings repo_name 5 "worker-smoke" "1" default_policy
                    (gs_log s) (rs_request st)
  | _ => False
  end.
Proof.
  apply (validation_answer (env_at (seconds 2000)) github_settings github repo_name 5 "worker-smoke" "1"
    default_policy before_publication); [reflexivity|]. vm_compute. reflexivity.
Defined.

Lemma resolved_request_fits_witness :
  exists head_sha head_repository head_id,
    pr_head_sha pull_request = Some head_sha /\ pr_head_repository_full_name pull_request = Some head_repository /\
    pr_head_repository_id pull_request = Some head_id /\
    identity_check (new_identity github_settings repo_name
                      (idempotency_key github_settings actor pull_request head_sha manifest_worker_smoke default_policy)
                      head_sha head_repository head_id actor pull_request manifest_worker_smoke 1) = true.
Proof.
  apply (resolved_request_fits (fun _ => false) api_transport (fun _ => api) (fun _ tw => tw) (fun _ => seconds 2000)
           (fun _ => "token") github_settings repo_name 5 manifest_worker_smoke default_policy 1 0 1 actor pull_request);
    vm_compute; reflexivity.
Defined.

(** * The operator views in concrete worlds

    The theorems about the dashboard and the readiness views applied to the worlds of
    [Fixtures], and one difference between the two views of a worker. *)

From Stdlib Require Import QArith.
From S2P Require Import Prelude Text Json Enums TextPolicy Catalog Evidence Floats JsonCodec Documents Fingerprints Registry Capabilities Models Routing Repository Service Steps Invariants System Fixtures Checks Profiles ProfileData GitHub GitHubService Operator OperatorProofs Readiness ReadinessProofs.

#[local] Open Scope Z_scope.

Definition flat_stamps : Stamps :=
  {| request_created_at := fun k => seconds (1000 + k); request_updated_at := fun k => seconds (1000 + k);
     order_created_at := fun _ => seconds 1000; run_created_at := fun _ => seconds 1000;
     profile_updated_at := fun _ => seconds 1000 |}.

Definition no_filters : HistoryFilters :=
  {| hf_repository_full_name := None; hf_pull_request_number := None; hf_work_order_status := None;
     hf_run_status := None; hf_reuse_decision := None; hf_routing_policy := None; hf_publication_state := None;
     hf_created_after := None; hf_created_before := None |}.

(** Two requests, for the two orders of the world *)
Definition second_row : GitHubRequest :=
  {| gr_id := 2;
     gr_identity := new_identity github_settings repo_name (of_chars (repeat (chr 97) 64)) (wos_commit_sha first_spec)
                      repo_name 11 actor pull_request manifest_worker_smoke 2;
     gr_publication := unpublished (seconds 1000); gr_claim := None |}.

Definition request_table : gmap Z GitHubRequest := {[ 1 := request_row; 2 := second_row ]}.

Lemma request_table_keyed : keyed_requests request_table.
Proof.
  intros k r H. unfold request_table in H. apply lookup_insert_Some in H as [[<- <-]|[_ H]]; [done|]. by apply lookup_singleton_Some in H as [<- <-].
Qed.

Definition read_pages (n : nat) : Result string (list (Page ExecutionHistoryItemOut)) :=
  map_result (fun i => list_history (db second_run_world) request_table flat_stamps 1 (Z.of_nat i * 1) no_filters) (seq 0 n).

Definition two_pages : list (Page ExecutionHistoryItemOut) :=
  Eval vm_compute in match read_pages 2 with Ok pages => pages | Err _ => [] end.

Lemma history_pages_complete_witness :
  map hi_request_id (two_pages ≫= page_items) = [2; 1] /\ NoDup (map hi_request_id (two_pages ≫= page_items)).
Proof.
  split; [reflexivity|].
  apply (history_pages_complete (db second_run_world) request_table flat_stamps 1 no_filters 2 two_pages
           request_table_keyed); [lia|vm_compute; reflexivity|vm_compute; discriminate].
Defined.

(** A server with the declared registry *)
Definition declared_env : Env :=
  let loaded := match import_registry with Ok p => p | Err _ => ([], []) end in
  {| env_clock := fun _ => seconds 1000; env_lease_seconds := 60; env_heartbeat_freshness_seconds := 60;
     env_active_poll_freshness_seconds := 60; env_manifests := loaded.1; env_repositories := loaded.2;
     env_isoformat := iso_micros |}.

Lemma catalog_readiness_answers_witness :
  (exists w', (get_catalog_readiness declared_env WORKLOAD_PROFILES second_run_world).2 = w' /\ db w' = db second_run_world) /\
  is_ok (get_catalog_readiness declared_env WORKLOAD_PROFILES second_run_world).1 = true.
Proof.
  assert (declared declared_env) as Hd by (unfold declared; vm_compute; reflexivity).
  destruct (catalog_readiness_answers declared_env second_run_world Hd) as [_ Hrun].
  destruct Hrun as (entries & -> & _); [vm_compute; repeat constructor|]. split; [by eexists|done].
Defined.

Lemma overview_consistent_witness : exists o,
  overview (db second_run_world) request_table flat_stamps 30 60 60 (seconds 2000) = Ok o /\
  wm_total (ov_workers o) = 1 /\ rm_total (ov_runs o) = 2.
Proof.
  destruct (overview_consistent (db second_run_world) request_table flat_stamps 30 60 60 (seconds 2000))
    as (o & Ho & _ & Hr & _ & _ & Hw & _); [unfold MAX_OPERATOR_WINDOW_DAYS; lia| |].
  - apply (rows_checked (fun r => opt_all (fun n => 0 <=? n) (xr_estimated_cost_units (run_route r)))). vm_compute. reflexivity.
  - exists o. split; [exact Ho|]. split; [rewrite Hw|rewrite Hr]; vm_compute; reflexivity.
Defined.

Lemma list_workers_page_witness : exists p,
  list_workers (db second_run_world) flat_stamps 25 0 (seconds 2000) 60 60 = Ok p /\ page_total p = 1.
Proof.
  destruct (list_workers_page (db second_run_world) flat_stamps (seconds 2000) 60 60 25 0) as (p & Hp & Ht & _).
  - exact second_run_inv.
  - unfold texts_fit. apply (rows_checked (fun w => summary_texts (worker_fields w None (seconds 2000) 60 60))). vm_compute. reflexivity.
  - unfold MAX_OPERATOR_LIMIT. lia.
  - unfold MAX_OPERATOR_OFFSET. lia.
  - exists p. split; [exact Hp|]. rewrite Ht. vm_compute. reflexivity.
Defined.

Definition smoke_request : RoutingEvaluationRequest := catalog_request smoke_repository manifest_worker_smoke.

Definition some_worker : Worker :=
  Eval vm_compute in default (worker_at second_run_world "") (snd <$> head (map_to_list (db_workers (db second_run_world)))).

Lemma activity_views_agree_witness :
  repository_activity_state (evaluate_routing_candidate some_worker None smoke_request (seconds 2000) 60 60) = Stale.
Proof.
  rewrite (activity_views_agree some_worker None smoke_request (seconds 2000) 60 60); vm_compute; congruence.
Defined.

(** A worker marked busy is at capacity for the dashboard and unavailable for the
    readiness view. *)
Example busy_worker_views :
  let w := some_worker <| w_status := BUSY |> <| w_last_heartbeat_at := seconds 2000 |>
             <| w_last_checkout_poll_at := Some (seconds 2000) |> in
  worker_activity_state w (seconds 2000) 60 60 = CapacityConstrained /\
  repository_activity_state (evaluate_routing_candidate w None smoke_request (seconds 2000) 60 60) = Unavailable.
Proof. vm_compute. split; reflexivity. Qed.

(** The query of the readiness route is within its declared bounds. *)
Definition upper_case_query : ReadinessQuery :=
  {| rdq_manifest_name := Some "Worker-Smoke"; rdq_manifest_version := Some "1"; rdq_routing_policy := FIRST_AVAILABLE;
     rdq_maximum_cost_units := None; rdq_required_quota_units := 0; rdq_preferred_executor := None |}.

Lemma malformed_manifest_escapes_witness :
  readiness_query_check upper_case_query = true /\
  build_repository_readiness declared_env repo_name upper_case_query second_run_world
  = (Err (EscapedValue "trusted manifest reference identity is invalid"), second_run_world).
Proof.
  split; [reflexivity|].
  destruct (get_trusted_repository (env_repositories declared_env) repo_name) as [r|] eqn:Hr;
    [|vm_compute in Hr; discriminate Hr].
  apply (malformed_manifest_escapes declared_env repo_name r upper_case_query "Worker-Smoke" "1" second_run_world Hr);
    reflexivity.
Defined.
