(* ===== verification/Iso8601.v ===== *)
(** * Dates in ISO 8601 form

    What the worker uses of [datetime]: the proleptic Gregorian calendar, [isoformat] of an
    instant in UTC and [fromisoformat], with the grammar of the standard library's
    reference implementation (calendar and week dates, basic and extended forms, offsets).
    An instant is a count of microseconds from 1970-01-01T00:00:00Z.

    The main result is that what [isoformat] writes, with "+00:00" shortened to "Z",
    [fromisoformat] reads back ([fromisoformat_isoformat]). *)

From S2P Require Import Prelude Text Floats Models.

(** ** The calendar *)

Definition is_leap (year : Z) : bool :=
  (year mod 4 =? 0) && (negb (year mod 100 =? 0) || (year mod 400 =? 0)).

Definition days_before_year (year : Z) : Z :=
  let y := year - 1 in y * 365 + y / 4 - y / 100 + y / 400.

Definition days_in_month (leap : bool) (month : Z) : Z :=
  if month =? 2 then (if leap then 29 else 28)
  else if (month =? 4) || (month =? 6) || (month =? 9) || (month =? 11) then 30 else 31.

Definition DAYS_BEFORE_MONTH : list Z := [0; 31; 59; 90; 120; 151; 181; 212; 243; 273; 304; 334].

Definition days_before_month (leap : bool) (month : Z) : Z :=
  nth (Z.to_nat (month - 1)) DAYS_BEFORE_MONTH 0 + (if (2 <? month) && leap then 1 else 0).

Definition ymd2ord (year month day : Z) : Z :=
  days_before_year year + days_before_month (is_leap year) month + day.

Definition DI400Y : Z := 146097.
Definition DI100Y : Z := 36524.
Definition DI4Y : Z := 1461.

(** The month and day of the day at offset [n] of a year *)
Definition month_day (leap : bool) (n : Z) : Z * Z :=
  let month := Z.shiftr (n + 50) 5 in
  let preceding := days_before_month leap month in
  if n <? preceding
  then (month - 1, n - (preceding - days_in_month leap (month - 1)) + 1)
  else (month, n - preceding + 1).

(** The day at offset [n] of a 400-year cycle; the year is counted from the first of the cycle. *)
Definition cycle_ymd (n : Z) : Z * Z * Z :=
  let n100 := n / DI100Y in
  let n := n mod DI100Y in
  let n4 := n / DI4Y in
  let n := n mod DI4Y in
  let n1 := n / 365 in
  let n := n mod 365 in
  let year := 1 + n100 * 100 + n4 * 4 + n1 in
  if (n1 =? 4) || (n100 =? 4) then (year - 1, 12, 31)
  else
    let leap := (n1 =? 3) && (negb (n4 =? 24) || (n100 =? 3)) in
    let '(month, day) := month_day leap n in (year, month, day).

Definition ord2ymd (ordinal : Z) : Z * Z * Z :=
  let n := ordinal - 1 in
  let '(year, month, day) := cycle_ymd (n mod DI400Y) in
  (n / DI400Y * 400 + year, month, day).

(** ** Dates, times and instants *)

Definition EPOCH_ORDINAL : Z := 719163.
Definition SECOND : Z := 1000000.

Definition time_of_day (hour minute second micro : Z) : Z :=
  ((hour * 60 + minute) * 60 + second) * SECOND + micro.

Definition DAY : Z := 86400 * SECOND.

Definition valid_date (year month day : Z) : bool :=
  (1 <=? year) && (year <=? 9999) && (1 <=? month) && (month <=? 12) && (1 <=? day)
  && (day <=? days_in_month (is_leap year) month).

Definition valid_time (hour minute second : Z) : bool :=
  (0 <=? hour) && (hour <=? 23) && (0 <=? minute) && (minute <=? 59) && (0 <=? second) && (second <=? 59).

(** ** Writing *)

Definition digit (d : Z) : ascii := chr (48 + d).

(** [format(z, "0nd")] of a number of at most [n] digits *)
Fixpoint padded (n : nat) (z : Z) : list ascii :=
  match n with
  | O => []
  | S n' => padded n' (z / 10) ++ [digit (z mod 10)]
  end.

(** The instants whose year is between 1 and 9999 *)
Definition in_calendar (t : Z) : bool :=
  (1 <=? t / DAY + EPOCH_ORDINAL) && (t / DAY + EPOCH_ORDINAL <=? 3652059).

Definition date_text (y m d : Z) : list ascii :=
  padded 4 y ++ [chr 45] ++ padded 2 m ++ [chr 45] ++ padded 2 d.

Definition time_text (h mi sec us : Z) : list ascii :=
  padded 2 h ++ [chr 58] ++ padded 2 mi ++ [chr 58] ++ padded 2 sec
    ++ (if us =? 0 then [] else [chr 46] ++ padded 6 us).

(** [t.isoformat()] of an instant in UTC, up to its offset "+00:00" *)
Definition isoformat_fields (t : Z) : list ascii :=
  let '(year, month, day) := ord2ymd (t / DAY + EPOCH_ORDINAL) in
  let rest := t mod DAY in
  let micro := rest mod SECOND in
  let seconds := rest / SECOND in
  date_text year month day ++ [chr 84]
  ++ time_text (seconds / 3600) (seconds / 60 mod 60) (seconds mod 60) micro.

(** [t.isoformat().replace("+00:00", "Z")] *)
Definition isoformat_z (t : Z) : string := of_chars (isoformat_fields t ++ [chr 90]).

(** ** Reading *)

(** The number written by exactly the first [n] characters, which are digits *)
Definition digits_at (n : nat) (l : list ascii) : option (Z * list ascii) :=
  if (n <=? length l)%nat && forallb is_digit (take n l) then Some (int_of_digits (take n l), drop n l)
  else None.

Definition head_is (z : Z) (l : list ascii) : bool :=
  match l with c :: _ => ord c =? z | [] => false end.

(** [_find_isoformat_datetime_separator] *)
Definition separator_location (l : list ascii) : option nat :=
  let at_ i := drop i l in
  let len := length l in
  if (len =? 7)%nat then Some 7%nat
  else if head_is 45 (at_ 4%nat) then
    if head_is 87 (at_ 5%nat) then
      if (8 <? len)%nat && head_is 45 (at_ 8%nat) then
        if (len =? 9)%nat then None
        else if (10 <? len)%nat && match at_ 10%nat with c :: _ => is_digit c | [] => false end then Some 8%nat
        else Some 10%nat
      else Some 8%nat
    else Some 10%nat
  else if head_is 87 (at_ 4%nat) then
    let idx := (7 + length (span is_digit (at_ 7%nat)).1)%nat in
    if (idx <? 9)%nat then Some idx else if Nat.even idx then Some 7%nat else Some 8%nat
  else Some 8%nat.

(** [_isoweek_to_gregorian] *)
Definition isoweek_to_gregorian (year week day : Z) : option (Z * Z * Z) :=
  if negb ((1 <=? year) && (year <=? 9999)) then None
  else
    let first_weekday := ymd2ord year 1 1 mod 7 in
    let long_year := (first_weekday =? 4) || ((first_weekday =? 3) && is_leap year) in
    if negb ((0 <? week) && (week <? 53) || (week =? 53) && long_year) then None
    else if negb ((0 <? day) && (day <? 8)) then None
    else
      let first_day := ymd2ord year 1 1 in
      let weekday := (first_day + 6) mod 7 in
      let monday := first_day - weekday + (if 3 <? weekday then 7 else 0) in
      Some (ord2ymd (monday + (week - 1) * 7 + (day - 1))).

(** [_parse_isoformat_date] *)
Definition parse_date (l : list ascii) : option (Z * Z * Z) :=
  '(year, r) ← digits_at 4 l;
  let has_sep := head_is 45 r in
  let r := if has_sep then tail r else r in
  if head_is 87 r then
    '(week, r) ← digits_at 2 (tail r);
    day ← match r with
          | [] => Some 1
          | _ :: _ =>
              if negb (Bool.eqb (head_is 45 r) has_sep) then None
              else '(day, r') ← digits_at 1 (if has_sep then tail r else r);
                   match r' with [] => Some day | _ :: _ => None end
          end;
    isoweek_to_gregorian year week day
  else
    '(month, r) ← digits_at 2 r;
    if negb (Bool.eqb (head_is 45 r) has_sep) then None
    else '(day, r) ← digits_at 2 (if has_sep then tail r else r);
         match r with [] => Some (year, month, day) | _ :: _ => None end.

Definition fraction (l : list ascii) : option Z :=
  let n := Nat.min 6 (length l) in
  '(value, r) ← digits_at n l;
  if (n =? 0)%nat then None
  else if forallb is_digit r then Some (value * 10 ^ (6 - Z.of_nat n)) else None.

(** What follows the seconds *)
Definition parse_fraction (hour minute second : Z) (l : list ascii) : option (Z * Z * Z * Z) :=
  match l with
  | [] => Some (hour, minute, second, 0)
  | c :: l' => if (ord c =? 46) || (ord c =? 44)
               then micro ← fraction l'; Some (hour, minute, second, micro) else None
  end.

(** [_parse_hh_mm_ss_ff] *)
Definition parse_hh_mm_ss_ff (l : list ascii) : option (Z * Z * Z * Z) :=
  '(hour, r) ← digits_at 2 l;
  let has_sep := head_is 58 r in
  let next r := if has_sep then (if head_is 58 r then Some (tail r) else None) else Some r in
  match r with
  | [] => Some (hour, 0, 0, 0)
  | _ :: _ =>
      r ← next r;
      '(minute, r) ← digits_at 2 r;
      match r with
      | [] => Some (hour, minute, 0, 0)
      | _ :: _ =>
          r ← next r;
          '(second, r) ← digits_at 2 r;
          parse_fraction hour minute second r
      end
  end.

(** The position after the first [c], as [tstr.find(c) + 1 or ...] *)
Definition split_at (z : Z) (l : list ascii) : option (list ascii * list ascii) :=
  let '(before, r) := span (fun c => negb (ord c =? z)) l in
  match r with [] => None | _ :: after => Some (before, after) end.

(** The offset of a time: [None] without one, an error when it is malformed *)
Definition parse_offset (sign : Z) (l : list ascii) : option Z :=
  if bool_decide (length l ∈ [0; 1; 3]%nat) then None
  else '(hour, minute, second, micro) ← parse_hh_mm_ss_ff l;
       let offset := time_of_day hour minute second micro in
       if offset <? DAY then Some (sign * offset) else None.

Definition parse_time (l : list ascii) : option (Z * Z * Z * Z * option Z) :=
  if (length l <? 2)%nat then None
  else
    let '(time, offset) :=
      match split_at 45 l with
      | Some (before, after) => (before, Some (parse_offset (-1) after))
      | None =>
          match split_at 43 l with
          | Some (before, after) => (before, Some (parse_offset 1 after))
          | None =>
              match split_at 90 l with
              | Some (before, after) =>
                  (before, Some (if bool_decide (after = []) then Some 0 else parse_offset 1 after))
              | None => (l, None)
              end
          end
      end in
    '(hour, minute, second, micro) ← parse_hh_mm_ss_ff time;
    match offset with
    | None => Some (hour, minute, second, micro, None)
    | Some None => None
    | Some (Some o) => Some (hour, minute, second, micro, Some o)
    end.

(** [dt.datetime.fromisoformat] *)
Definition fromisoformat (text : string) : option PyDatetime :=
  let l := to_chars text in
  if (length l <? 7)%nat then None
  else
    i ← separator_location l;
    '(year, month, day) ← parse_date (take i l);
    '(hour, minute, second, micro, offset) ←
      match drop (S i) l with [] => Some (0, 0, 0, 0, None) | rest => parse_time rest end;
    if negb (valid_date year month day && valid_time hour minute second) then None
    else
      let fields := (ymd2ord year month day - EPOCH_ORDINAL) * DAY + time_of_day hour minute second micro in
      Some (match offset with None => Naive fields | Some o => Aware (fields - o) o end).

(** ** The calendar is consistent *)

#[local] Ltac Zify.zify_post_hook ::= Z.to_euclidean_division_equations.

Definition good_day (n : Z) : bool :=
  let '(year, month, day) := cycle_ymd n in
  valid_date year month day && (year <=? 400) && (ymd2ord year month day =? n + 1).

(** The months of a year, checked for both kinds of years *)
Definition good_offset (leap : bool) (r : Z) : bool :=
  let '(month, day) := month_day leap r in
  (1 <=? month) && (month <=? 12) && (1 <=? day) && (day <=? days_in_month leap month)
  && (days_before_month leap month + day =? r + 1).

Lemma month_day_good leap r : 0 <= r < 365 -> good_offset leap r = true.
Proof.
  assert (forallb (fun i => good_offset false (Z.of_nat i) && good_offset true (Z.of_nat i)) (seq 0 365) = true) as H
    by (vm_compute; reflexivity).
  intros Hr. rewrite forallb_forall in H. specialize (H (Z.to_nat r)). rewrite Z2Nat.id in H by lia.
  apply andb_true_iff in H as [Hf Ht]; [by destruct leap|]. apply in_seq. lia.
Qed.

Lemma cycle_leap n100 n4 n1 :
  0 <= n100 <= 3 -> 0 <= n4 <= 24 -> 0 <= n1 <= 3 ->
  is_leap (1 + n100 * 100 + n4 * 4 + n1) = (n1 =? 3) && (negb (n4 =? 24) || (n100 =? 3)).
Proof.
  intros H1 H2 H3. unfold is_leap. set (y := 1 + n100 * 100 + n4 * 4 + n1).
  assert (y mod 4 = (1 + n1) mod 4) as -> by (subst y; lia).
  destruct (Z.eqb_spec n1 3) as [->|]; [|replace ((1 + n1) mod 4 =? 0) with false by lia; done].
  change ((1 + 3) mod 4 =? 0) with true. cbn [andb].
  assert (y mod 100 = ((n4 + 1) * 4) mod 100) as -> by (subst y; lia).
  destruct (Z.eqb_spec n4 24) as [->|]; [|replace ((n4 + 1) * 4 mod 100 =? 0) with false by lia; done].
  change ((24 + 1) * 4 mod 100 =? 0) with true. cbn [negb orb].
  assert (y mod 400 = ((n100 + 1) * 100) mod 400) as -> by (subst y; lia). lia.
Qed.

Lemma cycle_good n : 0 <= n < DI400Y -> good_day n = true.
Proof.
  intros Hn. unfold good_day, cycle_ymd, DI400Y, DI100Y, DI4Y in *.
  set (n100 := n / 36524). set (a := n mod 36524). set (n4 := a / 1461). set (b := a mod 1461).
  set (n1 := b / 365). set (r := b mod 365).
  assert (n = n100 * 36524 + n4 * 1461 + n1 * 365 + r /\ 0 <= n100 <= 4 /\ 0 <= n4 <= 24 /\ 0 <= n1 <= 4 /\ 0 <= r < 365 /\
    (n1 = 4 -> r = 0 /\ n4 <= 23) /\ (n100 = 4 -> n4 = 0 /\ n1 = 0 /\ r = 0)) as (Hd & H100 & H4 & H1 & Hr & Hlast & Hcycle).
  { subst n100 n4 n1 r b a. lia. }
  clearbody n100 n4 n1 r. cbv zeta. destruct (Z.eqb_spec n1 4) as [->|].
  - destruct (Hlast eq_refl) as [-> ?]. assert (n100 <= 3) by lia. cbn [orb].
    replace (1 + n100 * 100 + n4 * 4 + 4 - 1) with (1 + n100 * 100 + n4 * 4 + 3) by lia. unfold valid_date, ymd2ord, days_before_year.
    rewrite cycle_leap by lia. replace (n4 =? 24) with false by lia. change (days_in_month (_ && _) 12) with 31.
    change (days_before_month ((3 =? 3) && (negb false || (n100 =? 3))) 12) with 335. lia.
  - destruct (Z.eqb_spec n100 4) as [->|]; [destruct (Hcycle eq_refl) as (-> & -> & ->); subst n; reflexivity|]. cbn [orb].
    pose proof (month_day_good ((n1 =? 3) && (negb (n4 =? 24) || (n100 =? 3))) r Hr) as Hm. unfold good_offset in Hm.
    destruct (month_day _ r) as [month day]. rewrite !andb_true_iff, !Z.leb_le, Z.eqb_eq in Hm.
    destruct Hm as [[[[? ?] ?] ?] Hsum]. unfold valid_date, ymd2ord, days_before_year. rewrite cycle_leap by lia.
    rewrite !andb_true_iff, !Z.leb_le, Z.eqb_eq. split_and!; lia.
Qed.

Lemma is_leap_shift k y : is_leap (k * 400 + y) = is_leap y.
Proof.
  unfold is_leap. assert ((k * 400 + y) mod 4 = y mod 4) as -> by lia.
  assert ((k * 400 + y) mod 100 = y mod 100) as -> by lia.
  by assert ((k * 400 + y) mod 400 = y mod 400) as -> by lia.
Qed.

Lemma ymd2ord_shift k y m d : ymd2ord (k * 400 + y) m d = k * DI400Y + ymd2ord y m d.
Proof. unfold ymd2ord, days_before_year, DI400Y. rewrite is_leap_shift. lia. Qed.

(** Every ordinal between 0001-01-01 and 9999-12-31 is that of the date computed from it. *)
Lemma ord2ymd_ok n year month day :
  1 <= n <= 3652059 -> ord2ymd n = (year, month, day) ->
  valid_date year month day = true /\ ymd2ord year month day = n.
Proof.
  intros Hn. unfold ord2ymd. pose proof (cycle_good ((n - 1) mod DI400Y)) as Hg. unfold good_day in Hg.
  destruct (cycle_ymd _) as [[y m] d]. rewrite !andb_true_iff, Z.eqb_eq, Z.leb_le in Hg.
  destruct Hg as [[Hv Hy] Ho]; [unfold DI400Y; lia|]. intros [= <- <- <-].
  rewrite ymd2ord_shift, Ho. unfold DI400Y in *. split; [|lia].
  unfold valid_date in *. rewrite is_leap_shift. rewrite !andb_true_iff, !Z.leb_le in *.
  destruct Hv as [[[[[? ?] ?] ?] ?] ?].
  assert ((n - 1) / 146097 * 400 + y <= 9999); [|split_and!; lia].
  assert ((n - 1) / 146097 <= 24) by lia.
  destruct (decide ((n - 1) / 146097 = 24)) as [Hc|]; [|lia].
  destruct (decide (y <= 399)) as [|Hy']; [lia|]. assert (y = 400) as -> by lia. exfalso.
  revert Ho. unfold ymd2ord, days_before_year, days_before_month. change ((400 - 1) * 365 + (400 - 1) / 4 - (400 - 1) / 100 + (400 - 1) / 400) with 145731.
  assert (0 <= nth (Z.to_nat (m - 1)) DAYS_BEFORE_MONTH 0).
  { generalize (Z.to_nat (m - 1)). intros i. do 12 (destruct i as [|i]; [cbn; lia|]). destruct i; cbn; lia. }
  destruct ((2 <? m) && is_leap 400); lia.
Qed.

(** ** Reading what was written *)

Lemma digit_is_digit d : 0 <= d < 10 -> is_digit (digit d) = true /\ digit_value (digit d) = d.
Proof.
  intros H. assert (d ∈ [0; 1; 2; 3; 4; 5; 6; 7; 8; 9]) as Hd by (rewrite !elem_of_cons; lia).
  revert Hd. rewrite !elem_of_cons, elem_of_nil.
  intros [->|[->|[->|[->|[->|[->|[->|[->|[->|[->|[]]]]]]]]]]]; done.
Qed.

Lemma padded_spec n z : 0 <= z < 10 ^ Z.of_nat n ->
  length (padded n z) = n /\ forallb is_digit (padded n z) = true /\ int_of_digits (padded n z) = z.
Proof.
  revert z. induction n as [|n IH]; intros z Hz; [cbn in *; split_and!; [done..|]; lia|].
  rewrite Nat2Z.inj_succ, Z.pow_succ_r in Hz by lia. cbn [padded].
  destruct (IH (z / 10)) as (Hl & Hd & Hv); [lia|]. destruct (digit_is_digit (z mod 10)) as [Hx Hy]; [lia|].
  rewrite length_app, forallb_app, Hd, Hl. cbn [length forallb]. rewrite Hx. split_and!; [lia|done|].
  unfold int_of_digits in *. rewrite foldl_app, Hv. cbn [foldl]. rewrite Hy. lia.
Qed.

Lemma digits_at_padded n z r : 0 <= z < 10 ^ Z.of_nat n -> digits_at n (padded n z ++ r) = Some (z, r).
Proof.
  intros Hz. destruct (padded_spec n z Hz) as (Hl & Hd & Hv). unfold digits_at.
  rewrite length_app, take_app_length', drop_app_length' by done. rewrite Hd, Hv.
  by rewrite (proj2 (Nat.leb_le n _)) by lia.
Qed.

Lemma span_upto (p : ascii -> bool) l c r :
  forallb p l = true -> p c = false -> span p (l ++ c :: r) = (l, c :: r).
Proof.
  induction l as [|x l IH]; cbn [app forallb span]; [by intros _ ->|].
  rewrite andb_true_iff. intros [-> Hl] Hc. by rewrite IH.
Qed.

Lemma span_all_end (p : ascii -> bool) l : forallb p l = true -> span p l = (l, []).
Proof.
  induction l as [|x l IH]; cbn [forallb span]; [done|]. rewrite andb_true_iff. intros [-> Hl]. by rewrite IH.
Qed.

(** The time of day that [isoformat] writes, read back *)
Lemma parse_fields_time h mi sec us :
  0 <= h < 24 -> 0 <= mi < 60 -> 0 <= sec < 60 -> 0 <= us < SECOND ->
  parse_hh_mm_ss_ff (time_text h mi sec us) = Some (h, mi, sec, us).
Proof.
  unfold SECOND. intros Hh Hm Hs Hu. unfold parse_hh_mm_ss_ff, time_text.
  rewrite digits_at_padded by (cbn; lia). cbn [mbind option_bind app head_is tail].
  change (ord (chr 58) =? 58) with true. cbn [mbind option_bind].
  rewrite digits_at_padded by (cbn; lia). cbn [mbind option_bind app head_is tail].
  change (ord (chr 58) =? 58) with true. cbn [mbind option_bind].
  rewrite digits_at_padded by (cbn; lia). cbn [mbind option_bind].
  destruct (Z.eqb_spec us 0) as [->|Hne]; [done|]. cbn [app parse_fraction].
  change ((ord (chr 46) =? 46) || (ord (chr 46) =? 44)) with true. cbv iota.
  destruct (padded_spec 6 us) as (Hl & Hd & Hv); [cbn; lia|].
  unfold fraction. rewrite Hl. change (Nat.min 6 6) with 6%nat.
  rewrite <- (app_nil_r (padded 6 us)), digits_at_padded by (cbn; lia).
  cbn. repeat f_equal. lia.
Qed.

(** No character of the time of day ends it early. *)
Lemma padded_not n z c : (c <? 48) || (57 <? c) = true -> 0 <= z < 10 ^ Z.of_nat n ->
  forallb (fun x => negb (ord x =? c)) (padded n z) = true.
Proof.
  intros Hc Hz. destruct (padded_spec n z Hz) as (_ & Hd & _). rewrite forallb_forall in Hd |- *.
  intros x Hx. apply Hd in Hx. unfold is_digit, in_range in Hx. rewrite andb_true_iff, !Z.leb_le in Hx.
  rewrite orb_true_iff, !Z.ltb_lt in Hc. destruct (Z.eqb_spec (ord x) c); [lia|done].
Qed.

Lemma time_text_not h mi sec us c :
  c ∈ [45; 43; 90] -> 0 <= h < 24 -> 0 <= mi < 60 -> 0 <= sec < 60 -> 0 <= us < SECOND ->
  forallb (fun x => negb (ord x =? c)) (time_text h mi sec us) = true.
Proof.
  unfold SECOND, time_text. intros Hc. rewrite !elem_of_cons, elem_of_nil in Hc. intros.
  rewrite !forallb_app. rewrite !padded_not by (first [cbn; lia|destruct Hc as [->|[->|[->|[]]]]; done]).
  destruct (us =? 0); [|rewrite forallb_app, padded_not by (first [cbn; lia|destruct Hc as [->|[->|[->|[]]]]; done])];
    destruct Hc as [->|[->|[->|[]]]]; done.
Qed.

Lemma parse_time_text h mi sec us :
  0 <= h < 24 -> 0 <= mi < 60 -> 0 <= sec < 60 -> 0 <= us < SECOND ->
  parse_time (time_text h mi sec us ++ [chr 90]) = Some (h, mi, sec, us, Some 0).
Proof.
  intros Hh Hm Hs Hu. set (l := time_text h mi sec us). assert (Hl : (2 <= length l)%nat).
  { unfold l, time_text. rewrite !length_app. destruct (padded_spec 2 h) as [-> _]; [cbn; lia|]. lia. }
  unfold parse_time. rewrite length_app, (proj2 (Nat.ltb_ge _ _)) by lia.
  unfold split_at.
  rewrite (span_all_end (fun x => negb (ord x =? 45)) (l ++ [chr 90])), (span_all_end (fun x => negb (ord x =? 43)) (l ++ [chr 90])).
  2,3: rewrite forallb_app; unfold l; rewrite time_text_not by (first [done|rewrite !elem_of_cons; tauto]); done.
  rewrite (span_upto (fun x => negb (ord x =? 90)) l (chr 90) []).
  2: by unfold l; apply time_text_not; [rewrite !elem_of_cons; tauto|..].
  2: done.
  cbv beta iota zeta. rewrite bool_decide_eq_true_2 by done. unfold l. rewrite parse_fields_time by done. done.
Qed.

Lemma parse_date_text y m d :
  0 <= y < 10000 -> 0 <= m < 100 -> 0 <= d < 100 ->
  parse_date (date_text y m d) = Some (y, m, d).
Proof.
  intros. unfold parse_date, date_text. rewrite digits_at_padded by (cbn; lia).
  cbn [mbind option_bind app head_is tail]. change (ord (chr 45) =? 45) with true. cbv iota. cbn [tail].
  assert (head_is 87 (padded 2 m ++ chr 45 :: padded 2 d) = false) as ->.
  { pose proof (padded_not 2 m 87 eq_refl ltac:(cbn; lia)) as H87. cbn in *. rewrite andb_true_iff in H87.
    by destruct H87 as [->%negb_true_iff _]. }
  rewrite digits_at_padded by (cbn; lia). cbn [mbind option_bind head_is tail].
  change (Bool.eqb (ord (chr 45) =? 45) true) with true. cbn [negb tail].
  rewrite <- (app_nil_r (padded 2 d)), digits_at_padded by (cbn; lia). done.
Qed.

Lemma days_in_month_le leap m : days_in_month leap m <= 31.
Proof. unfold days_in_month. repeat case_match; lia. Qed.

(** What is written of an instant of the calendar, with its offset shortened to "Z", is read
    back as that instant in UTC. *)
Theorem fromisoformat_isoformat t :
  in_calendar t = true -> fromisoformat (isoformat_z t) = Some (Aware t 0).
Proof.
  unfold in_calendar, isoformat_z, isoformat_fields, fromisoformat. rewrite andb_true_iff, !Z.leb_le. intros Ht.
  destruct (ord2ymd (t / DAY + EPOCH_ORDINAL)) as [[y m] d] eqn:Hymd.
  destruct (ord2ymd_ok _ _ _ _ Ht Hymd) as [Hv Ho]. rewrite to_of_chars.
  set (sec := t mod DAY / SECOND). assert (0 <= sec < 86400) by (unfold sec, DAY, SECOND; lia).
  assert (0 <= t mod DAY mod SECOND < SECOND) by (unfold SECOND; lia).
  assert (1 <= y <= 9999 /\ 1 <= m <= 12 /\ 1 <= d <= 31) as (? & ? & ?).
  { unfold valid_date in Hv. rewrite !andb_true_iff, !Z.leb_le in Hv.
    pose proof (days_in_month_le (is_leap y) m). lia. }
  set (date := date_text y m d).
  set (time := time_text (sec / 3600) (sec / 60 mod 60) (sec mod 60) (t mod DAY mod SECOND)).
  match goal with |- context [length ?l] => assert (l = date ++ chr 84 :: time ++ [chr 90]) as -> end.
  { by rewrite <- !app_assoc. }
  assert (length date = 10%nat) as Hdate.
  { unfold date, date_text. rewrite !length_app. destruct (padded_spec 4 y) as [-> _]; [cbn; lia|].
    destruct (padded_spec 2 m) as [-> _]; [cbn; lia|]. destruct (padded_spec 2 d) as [-> _]; [cbn; lia|]. done. }
  rewrite length_app, Hdate. rewrite (proj2 (Nat.ltb_ge _ _)) by lia.
  assert (separator_location (date ++ chr 84 :: time ++ [chr 90]) = Some 10%nat) as ->.
  { unfold separator_location. rewrite length_app, Hdate. unfold date, date_text. cbn [length].
    pose proof (padded_not 2 m 87 eq_refl ltac:(cbn; lia)) as H87. cbn in H87. rewrite andb_true_iff in H87.
    destruct H87 as [H87%negb_true_iff _]. cbn. by rewrite H87. }
  cbn [mbind option_bind]. rewrite take_app_length' by done. unfold date. rewrite parse_date_text by lia. fold date.
  cbn [mbind option_bind]. rewrite drop_app_ge, Hdate by lia. change (S 10 - 10)%nat with 1%nat. cbn [drop].
  rewrite drop_0. destruct (time ++ [chr 90]) as [|x l] eqn:Htime; [by destruct time|]. rewrite <- Htime.
  unfold time. rewrite parse_time_text by (unfold SECOND in *; lia). cbn [mbind option_bind].
  rewrite Hv. assert (valid_time (sec / 3600) (sec / 60 mod 60) (sec mod 60) = true) as ->.
  { unfold valid_time. rewrite !andb_true_iff, !Z.leb_le. lia. }
  cbn [andb negb]. do 2 f_equal. rewrite Ho. unfold time_of_day, sec, EPOCH_ORDINAL, DAY, SECOND in *. lia.
Qed.

Example fromisoformat_forms :
  map fromisoformat ["2024-02-29T12:30:45.5+02:00"; "20240229T1230"; "2024-W09-4T10"; "2023-02-29T00:00";
    "2024-02-29 24:00"; "2024-02-29T10:00:00Z"]
  = [Some (Aware 1709202645500000 7200000000); Some (Naive 1709209800000000); Some (Naive 1709200800000000); None;
     None; Some (Aware 1709200800000000 0)].
Proof. vm_compute. reflexivity. Qed.
