(* ===== verification/WorkerModels.v ===== *)
(** * What the worker reads from the control plane

    [client/python/execution_worker/models.py]: the bounded readers of work orders,
    manifests, checkouts, runs and reuse lookups, and the check of free metadata.  Their
    exceptions, and the others that pass through the worker, are [Exc].

    Metadata that is accepted is bounded in depth and number of nodes and holds no key
    that names something to execute or a write policy, at any depth
    ([validated_metadata_safe]). *)

From S2P Require Import Prelude Text Json Floats JsonCodec Documents Fingerprints Checks Evidence Catalog Models Parsers Iso8601.
From Stdlib Require Import QArith.
#[local] Open Scope Z_scope.

(** ** Exceptions

    The classes the worker tells apart.  Every other exception is known by the name of
    its class and by whether it is a [ValueError] or an [OSError]; the JSON decoding error
    of the HTTP library is both.  [BaseException]s that are not [Exception]s (an interrupt
    of the interpreter) are not modelled. *)

(** [ExecutionValidationError]: one detail of a refused request *)
Record ExecutionValidationError := {
  eve_location : list (string + Z);
  eve_error_type : string;
  eve_message : string;
}.

Inductive Exc :=
| ExecutionCredentialRejectedError (status_code : Z)
| ExecutionOwnershipLostError (status_code : Z)
| ExecutionHttpError (status_code : Z) (reason : string) (validation_errors : list ExecutionValidationError)
| ContainmentCleanupError
| OverallDeadlineExceededError (message : string)
| LocalCommitUnavailableError
| OtherError (name : string) (value_error os_error : bool) (message : string).

Definition ValueError (message : string) : Exc := OtherError "ValueError" true false message.
Definition RuntimeError (message : string) : Exc := OtherError "RuntimeError" false false message.
Definition AssertionError : Exc := OtherError "AssertionError" false false "".
Definition OverflowException : Exc :=
  OtherError "OverflowError" false false "int too large to convert to float".
(** pydantic's error, a [ValueError] *)
Definition ValidationError : Exc := OtherError "ValidationError" true false "".
(** [requests.exceptions.JSONDecodeError] *)
Definition JSONDecodeError : Exc := OtherError "JSONDecodeError" true true "".

(** [type(error).__name__] *)
Definition exc_name (e : Exc) : string :=
  match e with
  | ExecutionCredentialRejectedError _ => "ExecutionCredentialRejectedError"
  | ExecutionOwnershipLostError _ => "ExecutionOwnershipLostError"
  | ExecutionHttpError _ _ _ => "ExecutionHttpError"
  | ContainmentCleanupError => "ContainmentCleanupError"
  | OverallDeadlineExceededError _ => "OverallDeadlineExceededError"
  | LocalCommitUnavailableError => "LocalCommitUnavailableError"
  | OtherError name _ _ _ => name
  end.

(** [isinstance(error, ValueError)], [isinstance(error, OSError)] *)
Definition is_value_error (e : Exc) : bool :=
  match e with LocalCommitUnavailableError => true | OtherError _ v _ _ => v | _ => false end.
Definition is_os_error (e : Exc) : bool :=
  match e with OtherError _ _ o _ => o | _ => false end.

(** [isinstance(error, ExecutionOwnershipLostError)], of which the credential error is a subclass *)
Definition is_ownership_lost (e : Exc) : bool :=
  match e with ExecutionOwnershipLostError _ | ExecutionCredentialRejectedError _ => true | _ => false end.
Definition is_credential_rejected (e : Exc) : bool :=
  match e with ExecutionCredentialRejectedError _ => true | _ => false end.

(** ** Constants *)

Definition RUN_STATUSES : list string :=
  ["assigned"; "running"; "succeeded"; "failed"; "timed_out"; "cancelled"].

Definition WORK_ORDER_FIELDS : list string :=
  ["id"; "schema_version"; "repository_full_name"; "commit_sha"; "manifest_name"; "manifest_version";
   "manifest_digest"; "manifest_parameters"; "required_capabilities"; "permitted_paths";
   "forbidden_scope_notes"; "expected_artifact_kinds"; "approval_policy"; "status"; "timeout_seconds";
   "resource_metadata"; "network_policy"; "repository_write_allowed"; "preferred_executor";
   "cost_ceiling"; "routing_policy"; "maximum_cost_units"; "required_quota_units"; "attempt_count";
   "created_at"; "updated_at"; "approved_at"; "queued_at"; "assigned_at"; "started_at"; "finished_at";
   "terminal_reason"; "reuse_policy"; "execution_policy_hash"; "route_provenance"].

Definition FORBIDDEN_EXECUTABLE_KEYS : list string :=
  ["argv"; "command"; "command_string"; "shell"; "shell_command"; "script"; "script_contents";
   "executable"; "executable_path"].

Definition REPOSITORY_WRITE_KEYS : list string :=
  ["repository_write"; "repository_write_allowed"; "repository_write_capability"; "repository_write_policy"].

Definition MAX_COLLECTION_ITEMS : Z := 128.
Definition MAX_METADATA_DEPTH : Z := 16.
Definition MAX_METADATA_NODES : Z := 4096.
Definition MAX_METADATA_STRING : Z := 4000.
Definition MAX_METADATA_KEY : Z := 128.
Definition MAX_SAFE_INTEGER : Z := Z.shiftl 1 63 - 1.
Definition MAX_WORKER_ROUTING_INTEGER : Z := Z.shiftl 1 31 - 1.

(** ** Field readers *)

#[local] Notation Read := (Result Exc).

Definition invalid {A} (field : string) : Read A := Err (ValueError ("invalid " +:+ field)).

Definition text_of (value : Json) (field : string) (limit : Z) (allow_empty : bool) : Read string :=
  match value with
  | JStr s => if (bool_decide (s = "") && negb allow_empty) || (limit <? str_length s) then invalid field else Ok s
  | _ => invalid field
  end.

Definition integer (value : Json) (field : string) (minimum maximum : Z) : Read Z :=
  match value with
  | JInt z => if (minimum <=? z) && (z <=? maximum) then Ok z else invalid field
  | _ => invalid field
  end.

Definition positive_int (value : Json) (field : string) : Read Z := integer value field 1 MAX_SAFE_INTEGER.

(** The keys of a decoded JSON object are strings. *)
Definition mapping (value : Json) (field : string) : Read (list (string * Json)) :=
  match value with JObj fields => Ok fields | _ => invalid field end.

Definition json_list (value : Json) (field : string) (limit : Z) : Read (list Json) :=
  match value with
  | JList l => if limit <? Z.of_nat (length l) then invalid field else Ok l
  | _ => invalid field
  end.

Definition bounded_strings (value : Json) (field : string) (item_limit limit : Z) : Read (list string) :=
  items ← json_list value field limit;
  map_result (fun item => text_of item (field +:+ " entry") item_limit true) items.

Definition optional_text (value : Json) (field : string) (limit : Z) : Read (option string) :=
  match value with
  | JNull => Ok None
  | _ => s ← text_of value field limit true; Ok (Some s)
  end.

(** [raw.replace("Z", "+00:00")] *)
Definition expand_z (raw : string) : string :=
  of_chars (to_chars raw ≫= fun c => if ord c =? 90 then to_chars "+00:00" else [c]).

Definition optional_datetime (value : Json) (field : string) : Read (option PyDatetime) :=
  match value with
  | JNull => Ok None
  | _ =>
      raw ← text_of value field 64 false;
      if negb (str_contains "T" raw) then invalid field
      else match fromisoformat (expand_z raw) with
           | Some parsed => Ok (Some parsed)
           | None => invalid field
           end
  end.

Definition required_datetime (value : Json) (field : string) : Read PyDatetime :=
  parsed ← optional_datetime value field;
  match parsed with Some t => Ok t | None => invalid field end.

(** [math.isfinite(float(value))] with the value; [float] of an integer out of range raises. *)
Definition optional_number (value : Json) (field : string) : Read (option PyFloat) :=
  let bounded (f : PyFloat) := if Qle_bool (inject_Z 0) (fl_value f) then Ok (Some f) else invalid field in
  match value with
  | JNull => Ok None
  | JInt z => match float_of_int z with Some f => bounded f | None => Err OverflowException end
  | JFloat r =>
      match float_value r with
      | Some q => bounded {| fl_repr := r; fl_value := q |}
      | None => invalid field
      end
  | _ => invalid field
  end.

(** ** Metadata *)

Definition key_char (c : ascii) : bool := is_digit c || is_lower c.

(** [re.sub("[^a-z0-9]+", "_", value)]: a maximal run of other characters becomes one
    underscore *)
Fixpoint collapse (in_run : bool) (l : list ascii) : list ascii :=
  match l with
  | [] => []
  | c :: l' =>
      if key_char c then c :: collapse false l'
      else if in_run then collapse true l' else chr 95 :: collapse true l'
  end.

(** [value.strip("_")] *)
Definition strip_underscores (l : list ascii) : list ascii :=
  let drop_front := fun l => (span (fun c => ord c =? 95) l).2 in
  reverse (drop_front (reverse (drop_front l))).

Definition normalized_key (value : string) : string :=
  of_chars (strip_underscores (collapse false (to_chars (lower value)))).

(** [[f(item) for item in l]] *)
Definition map_m {E S A B} (f : A -> M E S B) : list A -> M E S (list B) :=
  fix go l := match l with
              | [] => mret []
              | x :: l' => y ← f x; rest ← go l'; mret (y :: rest)
              end.

Section metadata.
Context (field : string) (allow_root_repository_write_false : bool).

(** The checks on a key, in the order of the loop *)
Definition check_key (root : bool) (key : string) (item : Json) : Read unit :=
  let normalized := normalized_key key in
  if MAX_METADATA_KEY <? str_length key then invalid field
  else if bool_decide (normalized ∈ FORBIDDEN_EXECUTABLE_KEYS)
  then Err (ValueError (field +:+ " must not contain executable field '" +:+ normalized +:+ "'"))
  else if bool_decide (normalized ∈ REPOSITORY_WRITE_KEYS) then
    let allowed := root && allow_root_repository_write_false && bool_decide (normalized = "repository_write")
                   && match item with JBool false => true | _ => false end in
    if allowed then Ok tt else Err (ValueError (field +:+ " contains repository-write policy"))
  else Ok tt.

(** [visit]; the state is the number of nodes seen. *)
Fixpoint visit (nested : Json) (depth : Z) (root : bool) : M Exc Z Json :=
  modify (fun n => n + 1);;
  nodes ← gets (fun n => n);
  if (MAX_METADATA_NODES <? nodes) || (MAX_METADATA_DEPTH <? depth) then raise (ValueError ("invalid " +:+ field))
  else
    match nested with
    | JNull | JBool _ => mret nested
    | JInt z => if MAX_SAFE_INTEGER <? Z.abs z then raise (ValueError ("invalid " +:+ field)) else mret nested
    | JFloat r => match float_value r with
                  | Some _ => mret nested
                  | None => raise (ValueError ("invalid " +:+ field))
                  end
    | JStr s => s ← lift_result (text_of nested field MAX_METADATA_STRING true); mret (JStr s)
    | JObj fields =>
        if MAX_COLLECTION_ITEMS <? Z.of_nat (length fields) then raise (ValueError ("invalid " +:+ field))
        else
          result ← map_m (fun kv =>
                     match kv with
                     | (key, item) =>
                         lift_result (check_key root key item);;
                         value ← visit item (depth + 1) false;
                         mret (key, value)
                     end) fields;
          mret (JObj result)
    | JList l =>
        if MAX_COLLECTION_ITEMS <? Z.of_nat (length l) then raise (ValueError ("invalid " +:+ field))
        else
          converted ← map_m (fun item => visit item (depth + 1) false) l;
          mret (JList converted)
    end.

Definition validated_metadata (value : Json) : Read Json := (visit value 0 true 0).1.

Definition metadata_mapping (value : Json) : Read (list (string * Json)) :=
  m ← mapping value field;
  validated ← validated_metadata (JObj m);
  match validated with JObj fields => Ok fields | _ => Err AssertionError end.
End metadata.

(** ** Documents *)

Definition SHA (s : string) : bool := exactly 40 is_hex s.
Definition DIGEST (s : string) : bool := exactly 64 is_hex_lower s.

(** [_REPOSITORY] *)
Definition REPOSITORY_FORM (s : string) : bool :=
  match split_on (chr 47) (to_chars s) with
  | [owner; name] =>
      let segment l := negb (bool_decide (l = [])) && forallb (fun c => is_alnum c || one_of [95; 46; 45] c) l in
      segment owner && segment name
  | _ => false
  end.

Definition dot_segment (l : list ascii) : bool := bool_decide (of_chars l ∈ ["."; ".."]).

Definition repository_name (value : Json) : Read string :=
  repository ← text_of value "repository" 256 false;
  if negb (REPOSITORY_FORM repository) then Err (ValueError "invalid work-order identity")
  else if existsb dot_segment (split_on (chr 47) (to_chars repository))
  then Err (ValueError "invalid work-order identity")
  else Ok repository.

(** [payload.get(name)] *)
Notation get := member.

Definition one_of_texts (value : string) (allowed : list string) (message : string) : Read unit :=
  reject_if (negb (bool_decide (value ∈ allowed))) (ValueError message).

Record SafeManifest := {
  sm_name : string;
  sm_version : string;
  sm_digest : string;
  sm_timeout_seconds : Z;
  sm_network_policy : string;
  sm_repository_write_policy : string;
  sm_schema_version : Z;
  sm_required_capabilities : list (string * Json);
  sm_fixed_step_metadata : list (list (string * Json));
  sm_environment_policy : list (string * Json);
  sm_artifact_declarations : list (list (string * Json));
  sm_description : string;
  sm_trusted_registry_source : string;
}.

Definition is_mapping (v : Json) : bool := match v with JObj _ => true | _ => false end.

(** [SafeManifest.from_payload] *)
Definition safe_manifest_from_payload (value : Json) : Read SafeManifest :=
  payload ← mapping value "manifest response";
  digest ← text_of (get "digest" payload) "manifest digest" 64 false;
  reject_if (negb (DIGEST digest)) (ValueError "invalid manifest digest");;
  network ← text_of (get "network_policy" payload) "network policy" 256 false;
  write ← text_of (get "repository_write_policy" payload) "repository write policy" 256 false;
  reject_if (negb (bool_decide (network ∈ ["disabled"; "worker_restricted"])) || negb (bool_decide (write = "read_only")))
    (ValueError "unsafe manifest policy");;
  metadata ← json_list (get "fixed_step_metadata" payload) "fixed_step_metadata" MAX_COLLECTION_ITEMS;
  artifacts ← json_list (get "artifact_declarations" payload) "artifact_declarations" MAX_COLLECTION_ITEMS;
  required_capabilities ← mapping (get "required_capabilities" payload) "required_capabilities";
  environment_policy ← mapping (get "environment_policy" payload) "environment_policy";
  reject_if (negb (forallb is_mapping (metadata ++ artifacts))) (ValueError "invalid manifest metadata");;
  name ← text_of (get "name" payload) "manifest name" 256 false;
  version ← text_of (get "version" payload) "manifest version" 256 false;
  timeout ← positive_int (get "timeout_seconds" payload) "manifest timeout";
  schema ← positive_int (get "schema_version" payload) "manifest schema version";
  steps ← map_result (fun item => mapping item "fixed_step_metadata") metadata;
  declarations ← map_result (fun item => mapping item "artifact_declarations") artifacts;
  description ← text_of (get "description" payload) "manifest description" 4000 false;
  source ← text_of (get "trusted_registry_source" payload) "manifest registry source" 256 false;
  Ok {| sm_name := name; sm_version := version; sm_digest := digest; sm_timeout_seconds := timeout;
        sm_network_policy := network; sm_repository_write_policy := write; sm_schema_version := schema;
        sm_required_capabilities := required_capabilities; sm_fixed_step_metadata := steps;
        sm_environment_policy := environment_policy; sm_artifact_declarations := declarations;
        sm_description := description; sm_trusted_registry_source := source |}.

Record AssignedWorkOrder := {
  awo_id : Z;
  awo_schema_version : Z;
  awo_repository_full_name : string;
  awo_commit_sha : string;
  awo_manifest_name : string;
  awo_manifest_version : string;
  awo_manifest_digest : string;
  awo_manifest_parameters : list (string * Json);
  awo_required_capabilities : list (string * Json);
  awo_permitted_paths : list string;
  awo_forbidden_scope_notes : string;
  awo_expected_artifact_kinds : list string;
  awo_approval_policy : string;
  awo_status : string;
  awo_timeout_seconds : Z;
  awo_resource_metadata : list (string * Json);
  awo_network_policy : string;
  awo_repository_write_allowed : bool;
  awo_preferred_executor : option string;
  awo_cost_ceiling : option PyFloat;
  awo_routing_policy : string;
  awo_maximum_cost_units : option Z;
  awo_required_quota_units : Z;
  awo_attempt_count : Z;
  awo_created_at : PyDatetime;
  awo_updated_at : PyDatetime;
  awo_approved_at : option PyDatetime;
  awo_queued_at : option PyDatetime;
  awo_assigned_at : option PyDatetime;
  awo_started_at : option PyDatetime;
  awo_finished_at : option PyDatetime;
  awo_terminal_reason : option string;
  awo_reuse_policy : string;
  awo_execution_policy_hash : string;
  awo_route_provenance : list (string * Json);
}.

Definition optional_units (value : Json) : Read (option Z) :=
  match value with
  | JNull => Ok None
  | _ => z ← integer value "maximum_cost_units" 0 MAX_WORKER_ROUTING_INTEGER; Ok (Some z)
  end.

(** [AssignedWorkOrder.from_payload] *)
Definition work_order_from_payload (value : Json) : Read AssignedWorkOrder :=
  payload ← mapping value "work-order response";
  reject_if (negb (has_exactly payload WORK_ORDER_FIELDS)) (ValueError "invalid work-order response fields");;
  schema_version ← integer (get "schema_version" payload) "schema version" 1 1;
  repository ← repository_name (get "repository_full_name" payload);
  sha ← text_of (get "commit_sha" payload) "commit SHA" 40 false;
  digest ← text_of (get "manifest_digest" payload) "manifest digest" 64 false;
  reject_if (negb (SHA sha) || negb (DIGEST digest)) (ValueError "invalid work-order identity");;
  policy_hash ← text_of (get "execution_policy_hash" payload) "execution policy hash" 64 false;
  reject_if (negb (DIGEST policy_hash)) (ValueError "invalid execution policy hash");;
  reuse_policy ← text_of (get "reuse_policy" payload) "reuse policy" 32 false;
  one_of_texts reuse_policy ["never"; "allow_exact"; "require_exact"] "invalid reuse policy";;
  routing_policy ← text_of (get "routing_policy" payload) "routing policy" 32 false;
  one_of_texts routing_policy ["first_available"; "cheapest_capable"] "invalid routing policy";;
  maximum_cost_units ← optional_units (get "maximum_cost_units" payload);
  required_quota_units ← integer (get "required_quota_units" payload) "required_quota_units" 0 MAX_WORKER_ROUTING_INTEGER;
  route_provenance ← metadata_mapping "route_provenance" false (get "route_provenance" payload);
  reject_if (match get "repository_write_allowed" payload with JBool false => false | _ => true end)
    (ValueError "repository writes are forbidden");;
  network ← text_of (get "network_policy" payload) "network policy" 256 false;
  one_of_texts network ["disabled"; "worker_restricted"] "invalid network policy";;
  approval_policy ← text_of (get "approval_policy" payload) "approval policy" 256 false;
  reject_if (negb (bool_decide (approval_policy = "explicit"))) (ValueError "invalid approval policy");;
  status ← text_of (get "status" payload) "work-order status" 256 false;
  one_of_texts status ["assigned"; "running"] "work order is not active";;
  id ← positive_int (get "id" payload) "work order id";
  manifest_name ← text_of (get "manifest_name" payload) "manifest name" 128 false;
  manifest_version ← text_of (get "manifest_version" payload) "manifest version" 64 false;
  manifest_parameters ← metadata_mapping "manifest_parameters" false (get "manifest_parameters" payload);
  required_capabilities ← metadata_mapping "required_capabilities" true (get "required_capabilities" payload);
  permitted_paths ← bounded_strings (get "permitted_paths" payload) "permitted_paths" 512 128;
  notes ← text_of (get "forbidden_scope_notes" payload) "forbidden_scope_notes" 4000 true;
  kinds ← bounded_strings (get "expected_artifact_kinds" payload) "expected_artifact_kinds" 128 64;
  timeout ← integer (get "timeout_seconds" payload) "work order timeout" 1 86400;
  resource_metadata ← metadata_mapping "resource_metadata" false (get "resource_metadata" payload);
  preferred_executor ← optional_text (get "preferred_executor" payload) "preferred_executor" 128;
  cost_ceiling ← optional_number (get "cost_ceiling" payload) "cost_ceiling";
  attempt_count ← integer (get "attempt_count" payload) "attempt_count" 0 MAX_SAFE_INTEGER;
  created_at ← required_datetime (get "created_at" payload) "created_at";
  updated_at ← required_datetime (get "updated_at" payload) "updated_at";
  approved_at ← optional_datetime (get "approved_at" payload) "approved_at";
  queued_at ← optional_datetime (get "queued_at" payload) "queued_at";
  assigned_at ← optional_datetime (get "assigned_at" payload) "assigned_at";
  started_at ← optional_datetime (get "started_at" payload) "started_at";
  finished_at ← optional_datetime (get "finished_at" payload) "finished_at";
  terminal_reason ← optional_text (get "terminal_reason" payload) "terminal_reason" 4000;
  Ok {| awo_id := id; awo_schema_version := schema_version; awo_repository_full_name := repository;
        awo_commit_sha := sha; awo_manifest_name := manifest_name; awo_manifest_version := manifest_version;
        awo_manifest_digest := digest; awo_manifest_parameters := manifest_parameters;
        awo_required_capabilities := required_capabilities; awo_permitted_paths := permitted_paths;
        awo_forbidden_scope_notes := notes; awo_expected_artifact_kinds := kinds;
        awo_approval_policy := approval_policy; awo_status := status; awo_timeout_seconds := timeout;
        awo_resource_metadata := resource_metadata; awo_network_policy := network;
        awo_repository_write_allowed := false; awo_preferred_executor := preferred_executor;
        awo_cost_ceiling := cost_ceiling; awo_routing_policy := routing_policy;
        awo_maximum_cost_units := maximum_cost_units; awo_required_quota_units := required_quota_units;
        awo_attempt_count := attempt_count; awo_created_at := created_at; awo_updated_at := updated_at;
        awo_approved_at := approved_at; awo_queued_at := queued_at; awo_assigned_at := assigned_at;
        awo_started_at := started_at; awo_finished_at := finished_at; awo_terminal_reason := terminal_reason;
        awo_reuse_policy := reuse_policy; awo_execution_policy_hash := policy_hash;
        awo_route_provenance := route_provenance |}.

Record Checkout := {
  ck_run_id : option Z;
  ck_work_order_id : option Z;
  ck_reason : option string;
}.

(** [bool(value)] *)
Definition truthy (v : Json) : bool :=
  match v with
  | JNull => false
  | JBool b => b
  | JInt z => negb (z =? 0)
  | JFloat r => match float_value r with Some q => negb (Qeq_bool q (inject_Z 0)) | None => true end
  | JStr s => negb (bool_decide (s = ""))
  | JList l => negb (bool_decide (length l = 0%nat))
  | JObj l => negb (bool_decide (length l = 0%nat))
  end.

(** [Checkout.from_payload] *)
Definition checkout_from_payload (value : Json) : Read Checkout :=
  payload ← mapping value "checkout response";
  match get "run" payload with
  | JNull =>
      let reason := get "reason" payload in
      shown ← (if truthy reason then s ← text_of reason "checkout reason" 256 false; Ok (Some s) else Ok None);
      Ok {| ck_run_id := None; ck_work_order_id := None; ck_reason := shown |}
  | value =>
      run ← mapping value "checkout run";
      status ← text_of (get "status" run) "run status" 256 false;
      one_of_texts status ["assigned"; "running"] "checkout run is not active";;
      run_id ← positive_int (get "id" run) "run id";
      work_order_id ← positive_int (get "work_order_id" run) "work order id";
      Ok {| ck_run_id := Some run_id; ck_work_order_id := Some work_order_id; ck_reason := None |}
  end.

Record ExecutionRun := { er_id : Z; er_status : string }.

(** [ExecutionRun.from_payload] *)
Definition execution_run_from_payload (value : Json) : Read ExecutionRun :=
  payload ← mapping value "run response";
  status ← text_of (get "status" payload) "run status" 256 false;
  one_of_texts status RUN_STATUSES "invalid run status";;
  id ← positive_int (get "id" payload) "run id";
  Ok {| er_id := id; er_status := status |}.

Record ReuseLookup := {
  rl_decision : string;
  rl_reason : string;
  rl_candidate : option ReuseCandidate;
}.

(** [ReuseLookup.from_payload]; [decode_candidate] is [ReuseCandidate.model_validate], which
    refuses with [None]. *)
Definition reuse_lookup_from_payload (decode_candidate : Json -> option ReuseCandidate) (value : Json)
    : Read ReuseLookup :=
  payload ← mapping value "reuse candidate response";
  reject_if (negb (has_exactly payload ["decision"; "reason"; "candidate"]))
    (ValueError "invalid reuse candidate response fields");;
  decision ← text_of (get "decision" payload) "reuse decision" 32 false;
  one_of_texts decision ["candidate_available"; "unavailable"] "invalid reuse candidate decision";;
  reason ← text_of (get "reason" payload) "reuse reason" 64 false;
  candidate ← match get "candidate" payload with
              | JNull => Ok None
              | v => match decode_candidate v with Some c => Ok (Some c) | None => Err ValidationError end
              end;
  reject_if (negb (Bool.eqb (bool_decide (decision = "candidate_available")) (isSome candidate)))
    (ValueError "reuse candidate response is inconsistent");;
  Ok {| rl_decision := decision; rl_reason := reason; rl_candidate := candidate |}.

(** ** Accepted metadata is safe *)

Lemma json_nested_ind (P : Json -> Prop) :
  P JNull -> (forall b, P (JBool b)) -> (forall z, P (JInt z)) -> (forall r, P (JFloat r)) ->
  (forall s, P (JStr s)) -> (forall l, Forall P l -> P (JList l)) ->
  (forall fields, Forall (fun kv => P kv.2) fields -> P (JObj fields)) -> forall j, P j.
Proof.
  intros Hn Hb Hz Hf Hs Hl Ho. fix IH 1. intros [|b|z|r|s|l|fields]; [done|auto..| |].
  - apply Hl. induction l; constructor; auto.
  - apply Ho. induction fields as [|[k v] fields IHf]; constructor; auto.
Qed.

(** The number of values in a document, itself included, and the depth of the deepest *)
Fixpoint node_count (j : Json) : Z :=
  1 + match j with
      | JList l => (fix go (l : list Json) : Z := match l with [] => 0 | x :: l' => node_count x + go l' end) l
      | JObj fields =>
          (fix go (l : list (string * Json)) : Z :=
             match l with [] => 0 | (_, x) :: l' => node_count x + go l' end) fields
      | _ => 0
      end.

(** [value_at j d v]: the value [v] occurs at depth [d] of [j]; [key_at j d k v]: so does the
    entry [k : v] of an object. *)
Inductive value_at : Json -> Z -> Json -> Prop :=
| value_here j : value_at j 0 j
| value_in_list l x d v : x ∈ l -> value_at x d v -> value_at (JList l) (d + 1) v
| value_in_object fields k x d v : (k, x) ∈ fields -> value_at x d v -> value_at (JObj fields) (d + 1) v.

Definition key_at (j : Json) (d : Z) (k : string) (v : Json) : Prop :=
  exists fields, value_at j d (JObj fields) /\ (k, v) ∈ fields.

Lemma value_at_nonneg j d v : value_at j d v -> 0 <= d.
Proof. induction 1; lia. Qed.

Section safe.
Context (field : string) (allow : bool).

(** What the check of a key leaves *)
Definition safe_key (root : bool) (k : string) (v : Json) : Prop :=
  str_length k <= MAX_METADATA_KEY /\ normalized_key k ∉ FORBIDDEN_EXECUTABLE_KEYS /\
  (normalized_key k ∈ REPOSITORY_WRITE_KEYS ->
   root = true /\ allow = true /\ normalized_key k = "repository_write" /\ v = JBool false).

Lemma check_key_ok root k v u : check_key field allow root k v = Ok u -> safe_key root k v.
Proof.
  unfold check_key, safe_key. destruct (Z.ltb_spec MAX_METADATA_KEY (str_length k)); [done|].
  case_bool_decide as He; [done|]. case_bool_decide as Hw; [|intros _; split_and!; [done..|tauto]].
  destruct root, allow; cbn [andb]; try done. case_bool_decide; cbn [andb]; [|done].
  destruct v as [|[]| | | | |]; try done.
Qed.

(** A visit at depth [depth], started after [n] nodes, that returns *)
Definition visited (root : bool) (depth : Z) (n : Z) (j j' : Json) (n' : Z) : Prop :=
  j' = j /\ n' = n + node_count j /\ n' <= MAX_METADATA_NODES /\
  (forall d v, value_at j d v -> depth + d <= MAX_METADATA_DEPTH) /\
  (forall d k v, key_at j d k v -> safe_key (root && (d =? 0)) k v).

Lemma visited_leaf root depth n j n' :
  n' = n + 1 -> n' <= MAX_METADATA_NODES -> depth <= MAX_METADATA_DEPTH ->
  node_count j = 1 -> (forall d v, value_at j d v -> d = 0 /\ v = j) -> (forall fields, j <> JObj fields) ->
  visited root depth n j j n'.
Proof.
  intros -> Hn Hd Hc Hv Hj. split_and!; [done|lia|done| |].
  - intros d v [-> ->]%Hv. lia.
  - intros d k v (fields & [_ Heq]%Hv & _). by destruct (Hj fields).
Qed.

Lemma key_in_object fields d k v : key_at (JObj fields) d k v ->
  (d = 0 /\ (k, v) ∈ fields) \/ exists k' x, (k', x) ∈ fields /\ key_at x (d - 1) k v.
Proof.
  intros (fs & Hv & Hin). inversion Hv as [| |? k' x ? ? Hx Hxv]; subst; [by left|].
  right. exists k', x. split; [done|]. exists fs. split; [|done]. by replace (d0 + 1 - 1) with d0 by lia.
Qed.

Lemma key_in_list l d k v : key_at (JList l) d k v -> exists x, x ∈ l /\ key_at x (d - 1) k v.
Proof.
  intros (fs & Hv & Hin). inversion Hv as [|? x ? ? Hx Hxv|]; subst. exists x. split; [done|].
  exists fs. split; [|done]. by replace (d0 + 1 - 1) with d0 by lia.
Qed.

Lemma map_m_ok {E S A B} (f : A -> M E S B) l s r s' : map_m f l s = (Ok r, s') ->
  match l with
  | [] => r = [] /\ s' = s
  | x :: l' => exists y s1 rest, f x s = (Ok y, s1) /\ map_m f l' s1 = (Ok rest, s') /\ r = y :: rest
  end.
Proof.
  destruct l as [|x l']; cbn [map_m]; [by intros [= <- <-]|]. intros H. inv_run H. eauto 8.
Qed.

Lemma visit_items root depth l :
  Forall (fun j => forall depth root n j' n', visit field allow j depth root n = (Ok j', n') ->
            visited root depth n j j' n') (map snd l) ->
  forall n r n', 
  map_m (fun kv : string * Json =>
           match kv with
           | (key, item) =>
               lift_result (check_key field allow root key item);;
               value ← visit field allow item (depth + 1) false; mret (key, value)
           end) l n = (Ok r, n') ->
  r = l /\ n' = n + node_count (JObj l) - 1 /\ (l <> [] -> n' <= MAX_METADATA_NODES) /\
  forall k x, (k, x) ∈ l -> safe_key root k x /\
    (forall d v, value_at x d v -> depth + 1 + d <= MAX_METADATA_DEPTH) /\
    (forall d k' v, key_at x d k' v -> safe_key false k' v).
Proof.
  induction l as [|[k x] l IH]; intros Hall n r n' H; apply map_m_ok in H.
  - destruct H as [-> ->]. cbn. split_and!; [done|lia|done|]. by intros k x Hin%elem_of_nil.
  - destruct H as (y & n1 & rest & Hy & Hrest & ->). cbn [map] in Hall. apply Forall_cons in Hall as [Hx Hall]. cbn [snd] in Hx.
    apply bind_ok in Hy as (u & n2 & Hc & Hy). apply lift_ok in Hc as [Hc ->].
    apply bind_ok in Hy as (v & n2 & Hv & Hy). apply ret_ok in Hy as [-> ->]. apply check_key_ok in Hc.
    apply Hx in Hv as (-> & -> & Hle & Hdep & Hkeys).
    destruct (IH Hall _ _ _ Hrest) as (-> & -> & Hle' & Hin). cbn [node_count] in *. split_and!; [done|lia| |].
    + intros _. destruct l; [cbn in *; lia|]. apply Hle'. done.
    + intros k' x' [[= -> ->]|Hin']%elem_of_cons; [|by apply Hin]. split_and!; [done..|].
      intros d k' v. apply Hkeys.
Qed.

Lemma visit_elements depth l :
  Forall (fun j => forall depth root n j' n', visit field allow j depth root n = (Ok j', n') ->
            visited root depth n j j' n') l ->
  forall n r n', map_m (fun item => visit field allow item (depth + 1) false) l n = (Ok r, n') ->
  r = l /\ n' = n + node_count (JList l) - 1 /\ (l <> [] -> n' <= MAX_METADATA_NODES) /\
  forall x, x ∈ l -> (forall d v, value_at x d v -> depth + 1 + d <= MAX_METADATA_DEPTH) /\
    (forall d k' v, key_at x d k' v -> safe_key false k' v).
Proof.
  induction l as [|x l IH]; intros Hall n r n' H; apply map_m_ok in H.
  - destruct H as [-> ->]. cbn. split_and!; [done|lia|done|]. by intros x Hin%elem_of_nil.
  - destruct H as (y & n1 & rest & Hy & Hrest & ->). apply Forall_cons in Hall as [Hx Hall].
    apply Hx in Hy as (-> & -> & Hle & Hdep & Hkeys).
    destruct (IH Hall _ _ _ Hrest) as (-> & -> & Hle' & Hin). cbn [node_count] in *. split_and!; [done|lia| |].
    + intros _. destruct l; [cbn in *; lia|]. apply Hle'. done.
    + intros x' [->|Hin']%elem_of_cons; [|by apply Hin]. split; [done|]. intros d k' v. apply Hkeys.
Qed.

Lemma visit_visited j : forall depth root n j' n',
  visit field allow j depth root n = (Ok j', n') -> visited root depth n j j' n'.
Proof.
  induction j as [|b|z|r|s|l Hl|fields Hf] using json_nested_ind; intros depth root n j' n' H;
    cbn [visit] in H; apply bind_ok in H as (u & n1 & Hm & H); injection Hm as <- <-;
    apply bind_ok in H as (m & n1 & Hm & H); apply gets_ok in Hm as [-> ->];
    (destruct (Z.ltb_spec MAX_METADATA_NODES (n + 1)); [done|]);
    (destruct (Z.ltb_spec MAX_METADATA_DEPTH depth); [done|]); cbn [orb] in H.
  1,2: apply ret_ok in H as [-> ->]; apply visited_leaf; try done; intros d v Hv; by inversion Hv.
  - destruct (_ <? _); [done|]. apply ret_ok in H as [-> ->]. apply visited_leaf; try done. intros d v Hv; by inversion Hv.
  - destruct (float_value r); [|done]. apply ret_ok in H as [-> ->]. apply visited_leaf; try done. intros d v Hv; by inversion Hv.
  - inv_run H. unfold text_of in Hl. destruct (_ || _); [done|]. injection Hl as <-.
    apply visited_leaf; try done. intros d v Hv; by inversion Hv.
  - destruct (_ <? _); [done|]. apply bind_ok in H as (c & n1 & Hm & H). apply ret_ok in H as [-> ->].
    apply visit_elements in Hm as (-> & Hn & Hle & Hin); [|done]. split_and!; [done|lia| | |].
    + destruct l; [cbn in Hn; lia|]. by apply Hle.
    + intros d v Hv. inversion Hv as [|? x ? ? Hx Hxv|]; subst; [lia|]. apply (proj1 (Hin _ Hx)) in Hxv. lia.
    + intros d k v Hk. apply key_in_list in Hk as (x & Hx & Hk). pose proof (proj2 (Hin _ Hx) _ _ _ Hk).
      destruct Hk as (fs & Hv%value_at_nonneg & _). rewrite (proj2 (Z.eqb_neq d 0)) by lia. by rewrite andb_false_r.
  - destruct (_ <? _); [done|]. apply bind_ok in H as (c & n1 & Hm & H). apply ret_ok in H as [-> ->].
    apply visit_items in Hm as (-> & Hn & Hle & Hin); [|by rewrite Forall_fmap]. split_and!; [done|lia| | |].
    + destruct fields; [cbn in Hn; lia|]. by apply Hle.
    + intros d v Hv. inversion Hv as [| |? k x ? ? Hx Hxv]; subst; [lia|].
      apply (proj1 (proj2 (Hin _ _ Hx))) in Hxv. lia.
    + intros d k v Hk. apply key_in_object in Hk as [[-> Hk]|(k' & x & Hx & Hk)].
      * rewrite andb_true_r. by apply Hin.
      * pose proof (proj2 (proj2 (Hin _ _ Hx)) _ _ _ Hk).
        destruct Hk as (fs & Hv%value_at_nonneg & _). rewrite (proj2 (Z.eqb_neq d 0)) by lia. by rewrite andb_false_r.
Qed.

(** Metadata that the worker accepts is returned as it is, has at most 4096 values nested at
    most 16 deep, and at no depth a key that names something to execute; the only write
    policy it may state is [repository_write: false] at its root, where that is allowed. *)
Theorem validated_metadata_safe j j' :
  validated_metadata field allow j = Ok j' ->
  j' = j /\ node_count j <= MAX_METADATA_NODES /\
  (forall d v, value_at j d v -> d <= MAX_METADATA_DEPTH) /\
  (forall d k v, key_at j d k v -> safe_key (d =? 0) k v).
Proof.
  unfold validated_metadata. destruct (visit field allow j 0 true 0) as [[r|e] n] eqn:H; [|done].
  intros [= ->]. apply visit_visited in H as (-> & Hn & Hle & Hd & Hk). split_and!; [done|lia| |done].
  intros d v Hv%Hd. lia.
Qed.
End safe.
