(* ===== verification/WorkerClient.v ===== *)
(** * The worker's HTTP client

    [client/python/execution_worker/client.py]: the authenticated requests of the worker and of
    the operator, what an answer's status means to them, and the bounded text kept of a refused
    request.  The HTTP session is the operation [send] of the class [ClientWorld]: it takes a
    request and answers, raises an [OSError], or changes the state around it in any way the
    state's owner allows.

    Theorem: what is kept of a refused request is bounded and names no secret
    ([http_error_bounded]). *)

From S2P Require Import Prelude Text Json Floats JsonCodec TextPolicy Documents Checks Evidence Parsers WorkerModels.

(** A call of [session.request] and its answer *)
Record HttpRequest := {
  rq_method : string;
  rq_url : string;
  rq_headers : list (string * string);
  rq_params : list (string * Json);
  rq_json : option Json;
}.

Record HttpResponse := { rs_status_code : Z; rs_content : string }.

(** What the client needs of the state it runs in: its own flag, and the network. *)
Class ClientWorld (S : Type) := {
  credential_rejected : S -> bool;
  reject_credential : S -> S;
  send : HttpRequest -> M Exc S HttpResponse;
}.

(** ** Errors *)

Definition HTTP_ERROR_STATUS : Z := 400.
Definition UNPROCESSABLE_ENTITY : Z := 422.
Definition MAX_ERROR_BODY_BYTES : Z := 64 * 1024.
Definition MAX_VALIDATION_ERRORS : nat := 8.
Definition MAX_VALIDATION_LOCATION_PARTS : nat := 8.
Definition MAX_VALIDATION_LOCATION_PART_LENGTH : nat := 64.
Definition MAX_VALIDATION_MESSAGE_LENGTH : nat := 256.
Definition OWNERSHIP_LOST_STATUSES : list Z := [404; 409].

(** [_SAFE_ERROR_IDENTIFIER] *)
Definition SAFE_ERROR_IDENTIFIER (s : string) : bool :=
  negb (bool_decide (s = "")) && all_chars (fun c => is_alnum c || one_of [95; 46; 45] c) s.

(** The alternatives of [_SENSITIVE_ERROR_TEXT], in lower case *)
Definition SENSITIVE_WORDS : list string :=
  ["authorization"; "bearer"; "password"; "secret"; "token"; "apikey"; "api_key"; "api-key"].

Definition sensitive_error_text (s : string) : bool :=
  existsb (fun word => str_contains word (lower s)) SENSITIVE_WORDS.

(** [value.split()]: the maximal runs of characters that are not spaces *)
Fixpoint words_from (current : list ascii) (l : list ascii) : list (list ascii) :=
  match l with
  | [] => if bool_decide (current = []) then [] else [reverse current]
  | c :: l' =>
      if is_space c
      then if bool_decide (current = []) then words_from [] l' else reverse current :: words_from [] l'
      else words_from (c :: current) l'
  end.

Definition normalize_spaces (s : string) : string := join " " (map of_chars (words_from [] (to_chars s))).

Definition str_take (n : nat) (s : string) : string := of_chars (take n (to_chars s)).

Definition safe_error_text (value : Json) (limit : nat) : option string :=
  match value with
  | JStr s =>
      let normalized := normalize_spaces s in
      if bool_decide (normalized = "") then None
      else if contains_worker_credential normalized || contains_absolute_local_path normalized
              || sensitive_error_text normalized
      then Some "[REDACTED]"
      else Some (str_take limit normalized)
  | _ => None
  end.

Definition safe_validation_location (value : Json) : option (list (string + Z)) :=
  match value with
  | JList (part :: parts) =>
      Some (map (fun part =>
                   match part with
                   | JInt z => inr z
                   | _ =>
                       match safe_error_text part MAX_VALIDATION_LOCATION_PART_LENGTH with
                       | Some safe_part => inl (if SAFE_ERROR_IDENTIFIER safe_part then safe_part else "[REDACTED]")
                       | None => inl "[REDACTED]"
                       end
                   end)
              (take MAX_VALIDATION_LOCATION_PARTS (part :: parts)))
  | _ => None
  end.

(** One item of the details; [None] where the loop continues without it *)
Definition validation_error (item : Json) : option ExecutionValidationError :=
  match item with
  | JObj fields =>
      location ← safe_validation_location (member "loc" fields);
      error_type ← safe_error_text (member "type" fields) 64;
      message ← safe_error_text (member "msg" fields) MAX_VALIDATION_MESSAGE_LENGTH;
      Some {| eve_location := location;
              eve_error_type := if SAFE_ERROR_IDENTIFIER error_type then error_type else "validation_error";
              eve_message := message |}
  | _ => None
  end.

Definition bounded_validation_errors (response : HttpResponse) : list ExecutionValidationError :=
  if MAX_ERROR_BODY_BYTES <? str_length (rs_content response) then []
  else match loads (rs_content response) with
       | Some (JObj payload) =>
           match member "detail" payload with
           | JList details => omap validation_error (take MAX_VALIDATION_ERRORS details)
           | _ => []
           end
       | _ => []
       end.

Definition execution_http_error (response : HttpResponse) : Exc :=
  let errors := if rs_status_code response =? UNPROCESSABLE_ENTITY
                then bounded_validation_errors response else [] in
  ExecutionHttpError (rs_status_code response)
    (if bool_decide (length errors = 0%nat) then "execution_http_error" else "execution_validation_error") errors.

(** ** The transport *)

Record Client := {
  cl_base_url : string;
  cl_worker_id : string;
  cl_token : string;
  cl_prefix : string;
  cl_worker_scoped : bool;
}.

(** [value.rstrip("/")] *)
Definition rstrip_slashes (s : string) : string :=
  of_chars (reverse (span (fun c => ord c =? 47) (reverse (to_chars s))).2).

(** [_ExecutionTransport.__init__] *)
Definition make_client (prefix : string) (worker_scoped : bool) (base_url worker_id token : string)
    : Result Exc Client :=
  reject_if (bool_decide (strip token = "")) (ValueError "token is required for execution endpoints");;
  reject_if (bool_decide (strip worker_id = "")) (ValueError "worker_id must not be empty");;
  Ok {| cl_base_url := rstrip_slashes base_url; cl_worker_id := worker_id; cl_token := token;
        cl_prefix := prefix; cl_worker_scoped := worker_scoped |}.

(** The constructors of [WorkerExecutionClient] and of [ExecutionClient] *)
Definition worker_client : string -> string -> string -> Result Exc Client :=
  make_client "/api/execution/worker" true.
Definition execution_client : string -> string -> string -> Result Exc Client :=
  make_client "/api/execution" false.

Section client.
Context {S : Type} `{ClientWorld S} (client : Client).

(** [_request] *)
Definition http_request (method path : string) (params : list (string * Json)) (json : option Json)
    : HttpRequest :=
  {| rq_method := method; rq_url := cl_base_url client +:+ path;
     rq_headers := [("Authorization", "Bearer " +:+ cl_token client); ("Accept", "application/json")];
     rq_params := params; rq_json := json |}.

(** [_request_json].  The call of [raise_for_status] finds nothing left to raise. *)
Definition request_json (method path : string) (ownership_sensitive : bool)
    (params : list (string * Json)) (json : option Json) : M Exc S Json :=
  rejected ← gets credential_rejected;
  if cl_worker_scoped client && rejected then raise (ExecutionCredentialRejectedError 401)
  else
    response ← send (http_request method path params json);
    let status := rs_status_code response in
    if cl_worker_scoped client && bool_decide (status ∈ [401; 403])
    then modify reject_credential;; raise (ExecutionCredentialRejectedError status)
    else if ownership_sensitive && bool_decide (status ∈ OWNERSHIP_LOST_STATUSES)
    then raise (ExecutionOwnershipLostError status)
    else if HTTP_ERROR_STATUS <=? status then raise (execution_http_error response)
    else match loads (rs_content response) with
         | Some payload => mret payload
         | None => raise JSONDecodeError
         end.

Definition post (path : string) (payload : list (string * Json)) : M Exc S Json :=
  request_json "post" path false [] (Some (JObj payload)).
Definition post_owned (path : string) (payload : list (string * Json)) : M Exc S Json :=
  request_json "post" path true [] (Some (JObj payload)).
Definition read (path : string) (params : list (string * Json)) : M Exc S Json :=
  request_json "get" path false params None.

(** *** The worker's operations *)

Definition get_manifest (name version : string) (run_id : option Z) : M Exc S Json :=
  read (cl_prefix client +:+ "/manifests/" +:+ name +:+ "/" +:+ version)
    (if cl_worker_scoped client
     then [("run_id", match run_id with Some id => JInt id | None => JNull end)] else []).

Definition register_worker (registration : list (string * Json)) : M Exc S Json :=
  match member "worker_id" registration with
  | JStr id =>
      if bool_decide (id = cl_worker_id client) then post (cl_prefix client +:+ "/workers") registration
      else raise (ValueError "registration worker_id must match the client worker_id")
  | _ => raise (ValueError "registration worker_id must match the client worker_id")
  end.

Definition heartbeat_worker (status : option string) : M Exc S Json :=
  post (cl_prefix client +:+ "/workers/" +:+ cl_worker_id client +:+ "/heartbeat")
    [("status", match status with Some s => JStr s | None => JNull end)].

Definition checkout : M Exc S Json :=
  post (cl_prefix client +:+ "/checkout") [("worker_id", JStr (cl_worker_id client))].

Definition get_work_order (work_order_id : Z) : M Exc S Json :=
  read (cl_prefix client +:+ "/work-orders/" +:+ str_of_int work_order_id) [].

Definition get_run (run_id : Z) : M Exc S Json :=
  read (cl_prefix client +:+ "/runs/" +:+ str_of_int run_id) [].

Definition run_path (run_id : Z) (action : string) : string :=
  cl_prefix client +:+ "/runs/" +:+ str_of_int run_id +:+ "/" +:+ action.

Definition heartbeat_run (run_id : Z) : M Exc S Json :=
  post_owned (run_path run_id "heartbeat") [("worker_id", JStr (cl_worker_id client))].

Definition resolve_reuse_candidate (run_id : Z) (reuse_identity : Json) (reuse_identity_hash : string)
    : M Exc S Json :=
  post_owned (run_path run_id "reuse-candidate")
    [("worker_id", JStr (cl_worker_id client)); ("reuse_identity", reuse_identity);
     ("reuse_identity_hash", JStr reuse_identity_hash)].

(** The keyword arguments of [complete_run] *)
Record Completion := {
  cp_status : string;
  cp_result_summary : option string;
  cp_terminal_reason : option string;
  cp_cleanup_status : option string;
  cp_artifact_metadata : list Json;
  cp_evidence_metadata : option Json;
  cp_reuse_decision : option string;
  cp_reuse_reason : option string;
  cp_reuse_identity : option Json;
  cp_reuse_identity_hash : option string;
  cp_evidence_retention_expires_at : option string;
}.

Definition text_or_null (o : option string) : Json := match o with Some s => JStr s | None => JNull end.

Definition completion_payload (c : Completion) : list (string * Json) :=
  [("worker_id", JStr (cl_worker_id client)); ("status", JStr (cp_status c));
   ("result_summary", text_or_null (cp_result_summary c));
   ("terminal_reason", text_or_null (cp_terminal_reason c));
   ("cleanup_status", text_or_null (cp_cleanup_status c));
   ("artifact_metadata", JList (cp_artifact_metadata c));
   ("evidence_metadata", default JNull (cp_evidence_metadata c))]
  ++ omap (fun kv => (fun v => (kv.1, v)) <$> kv.2)
       [("reuse_decision", JStr <$> cp_reuse_decision c); ("reuse_reason", JStr <$> cp_reuse_reason c);
        ("reuse_identity", cp_reuse_identity c); ("reuse_identity_hash", JStr <$> cp_reuse_identity_hash c);
        ("evidence_retention_expires_at", JStr <$> cp_evidence_retention_expires_at c)].

Definition complete_run (run_id : Z) (c : Completion) : M Exc S Json :=
  post_owned (run_path run_id "complete") (completion_payload c).

(** *** The operator's operations *)

Definition credential_path (action : string) : string :=
  "/api/execution/worker-credentials/" +:+ cl_worker_id client +:+ "/" +:+ action.

Definition issue_worker_credential : M Exc S Json := post (credential_path "issue") [].
Definition rotate_worker_credential (credential_id : string) : M Exc S Json :=
  post (credential_path "rotate") [("credential_id", JStr credential_id)].
Definition revoke_worker_credential (credential_id : string) : M Exc S Json :=
  post (credential_path "revoke") [("credential_id", JStr credential_id)].

Definition list_manifests : M Exc S Json := read "/api/execution/manifests" [].
Definition health_ready : M Exc S Json := read "/health/ready" [].
Definition list_workers : M Exc S Json := read "/api/execution/workers?limit=100&offset=0" [].

(** [repository_full_name.split("/", 1)] must give two parts. *)
Definition repository_readiness (repository_full_name manifest_name manifest_version preferred_executor : string)
    : M Exc S Json :=
  match split_on (chr 47) (to_chars repository_full_name) with
  | owner :: (_ :: _) as rest =>
      read ("/api/execution/trusted-repositories/" +:+ of_chars owner +:+ "/"
            +:+ join "/" (map of_chars (tail rest)) +:+ "/readiness")
        [("manifest_name", JStr manifest_name); ("manifest_version", JStr manifest_version);
         ("routing_policy", JStr "first_available"); ("required_quota_units", JInt 0);
         ("preferred_executor", JStr preferred_executor)]
  | _ => raise (ValueError "not enough values to unpack (expected 2, got 1)")
  end.

Definition order_path (work_order_id : Z) (action : string) : string :=
  "/api/execution/work-orders/" +:+ str_of_int work_order_id +:+ "/" +:+ action.

Definition create_work_order (payload : list (string * Json)) : M Exc S Json :=
  post "/api/execution/work-orders" payload.
Definition approve_work_order (work_order_id : Z) : M Exc S Json :=
  post (order_path work_order_id "approve") [("queue", JBool false)].
Definition queue_work_order (work_order_id : Z) : M Exc S Json := post (order_path work_order_id "queue") [].
Definition assess_work_order_route (work_order_id : Z) : M Exc S Json :=
  read (order_path work_order_id "route-assessment") [].
Definition get_work_order_route (work_order_id : Z) : M Exc S Json := read (order_path work_order_id "route") [].
Definition list_runs (work_order_id : Z) : M Exc S Json :=
  read ("/api/execution/runs?work_order_id=" +:+ str_of_int work_order_id) [].
Definition get_run_evidence (run_id : Z) : M Exc S Json :=
  read ("/api/execution/runs/" +:+ str_of_int run_id +:+ "/evidence") [].
End client.

(** ** What is kept of a refused request *)

Lemma starts_with_take p n l : starts_with p (take n l) = true -> starts_with p l = true.
Proof.
  revert n l. induction p as [|c p IH]; intros n l; [done|]. destruct l as [|x l]; [by rewrite take_nil|].
  destruct n as [|n]; [done|]. cbn [take starts_with]. rewrite !andb_true_iff. intros [-> H]. eauto.
Qed.

Lemma contains_take p n l : contains p (take n l) = true -> contains p l = true.
Proof.
  revert n. induction l as [|x l IH]; intros n; [by rewrite take_nil|].
  destruct n as [|n]; [cbn [take contains]; rewrite !orb_false_r; intros H; rewrite orb_true_iff; left;
    by destruct p|].
  cbn [take contains]. rewrite !orb_true_iff. intros [H|H]; [left|right; eauto].
  by apply (starts_with_take p (S n) (x :: l)).
Qed.

Lemma lower_chars s : to_chars (lower s) = map char_lower (to_chars s).
Proof. induction s as [|c s IH]; [done|]. cbn [lower to_chars map]. by rewrite IH. Qed.

Lemma sensitive_take n s : sensitive_error_text (str_take n s) = true -> sensitive_error_text s = true.
Proof.
  unfold sensitive_error_text, str_take, str_contains. rewrite !existsb_exists. intros (w & Hw & H).
  exists w. split; [done|]. rewrite lower_chars, to_of_chars in H. rewrite lower_chars.
  change (map char_lower (take n (to_chars s))) with (char_lower <$> take n (to_chars s)) in H.
  rewrite fmap_take in H. by apply contains_take in H.
Qed.

Lemma str_take_length n s : str_length (str_take n s) <= Z.of_nat n.
Proof.
  unfold str_length, str_take. assert (forall l, String.length (of_chars l) = length l) as Hl
    by (induction l as [|c l IH]; cbn; [done|by rewrite IH]).
  rewrite Hl, length_take. lia.
Qed.

(** A text that is kept: short, and without a sensitive word *)
Definition harmless (limit : nat) (s : string) : Prop :=
  str_length s <= Z.of_nat limit /\ sensitive_error_text s = false.

Lemma redacted_harmless limit : (10 <= limit)%nat -> harmless limit "[REDACTED]".
Proof. intros. split; [|done]. change (str_length "[REDACTED]") with 10. lia. Qed.

Lemma safe_error_text_harmless v limit s : (10 <= limit)%nat -> safe_error_text v limit = Some s -> harmless limit s.
Proof.
  intros Hl. unfold safe_error_text. destruct v as [| | | |t| |]; try done. case_bool_decide; [done|].
  destruct (_ || sensitive_error_text _) eqn:Hs; intros [= <-]; [by apply redacted_harmless|].
  rewrite !orb_false_iff in Hs. destruct Hs as [_ Hs]. split; [apply str_take_length|].
  apply not_true_is_false. intros Hb%sensitive_take. congruence.
Qed.

Lemma validation_location_harmless v l : safe_validation_location v = Some l ->
  (length l <= MAX_VALIDATION_LOCATION_PARTS)%nat /\
  forall part, inl part ∈ l -> harmless MAX_VALIDATION_LOCATION_PART_LENGTH part.
Proof.
  unfold safe_validation_location. destruct v as [| | | | |[|x xs]|]; try done.
  remember (take _ (x :: xs)) as items eqn:Hitems. intros [= <-].
  rewrite length_map, Hitems, length_take. split; [lia|]. clear Hitems. intros part. rewrite list_elem_of_fmap.
  intros (item & Hp & _). assert ((10 <= MAX_VALIDATION_LOCATION_PART_LENGTH)%nat) by (unfold MAX_VALIDATION_LOCATION_PART_LENGTH; lia).
  destruct item; try done;
    (destruct (safe_error_text _ _) as [t|] eqn:Ht; [|by injection Hp as ->; apply redacted_harmless]);
    (destruct (SAFE_ERROR_IDENTIFIER t); injection Hp as ->; [by eapply safe_error_text_harmless|by apply redacted_harmless]).
Qed.

Lemma omap_length_le {A B} (f : A -> option B) l : (length (omap f l) <= length l)%nat.
Proof. induction l as [|x l IH]; [done|]. cbn. destruct (f x); cbn; lia. Qed.

(** Whatever the control plane answers, the error raised for a refused request has at most
    eight details, each with a short location, type and message that name no secret. *)
Theorem http_error_bounded response :
  exists status reason errors, execution_http_error response = ExecutionHttpError status reason errors /\
    (length errors <= MAX_VALIDATION_ERRORS)%nat /\
    forall e, e ∈ errors ->
      (length (eve_location e) <= MAX_VALIDATION_LOCATION_PARTS)%nat /\
      (forall part, inl part ∈ eve_location e -> harmless MAX_VALIDATION_LOCATION_PART_LENGTH part) /\
      harmless 64 (eve_error_type e) /\ harmless MAX_VALIDATION_MESSAGE_LENGTH (eve_message e).
Proof.
  unfold execution_http_error. eexists _, _, _. split; [done|].
  destruct (_ =? _); [|split; [cbn; lia|by intros e He%elem_of_nil]].
  unfold bounded_validation_errors. destruct (_ <? _); [split; [cbn; lia|by intros e He%elem_of_nil]|].
  destruct (loads _) as [[| | | | | |payload]|]; try (split; [cbn; lia|by intros e He%elem_of_nil]).
  destruct (member _ _) as [| | | | |details|]; try (split; [cbn; lia|by intros e He%elem_of_nil]).
  split.
  - etrans; [apply omap_length_le|]. rewrite length_take. lia.
  - intros e. rewrite list_elem_of_omap. intros (item & _ & He). unfold validation_error in He.
    destruct item as [| | | | | |fields]; try done.
    destruct (safe_validation_location _) as [loc|] eqn:Hloc; [|done].
    destruct (safe_error_text (member "type" fields) 64) as [ty|] eqn:Hty; [|done].
    destruct (safe_error_text (member "msg" fields) _) as [msg|] eqn:Hmsg; [|done]. injection He as <-. cbn.
    apply validation_location_harmless in Hloc as [Hl Hp]. apply safe_error_text_harmless in Hty; [|lia].
    apply safe_error_text_harmless in Hmsg; [|unfold MAX_VALIDATION_MESSAGE_LENGTH; lia].
    split_and!; [done|done| |done]. destruct (SAFE_ERROR_IDENTIFIER ty); [done|].
    split; [by vm_compute|done].
Qed.
