(* ===== verification/WorkerConfig.v ===== *)
(** * The worker's configuration and registration

    [client/python/execution_worker/config.py]: the record of an operator's configuration, its
    checks and its reading from a decoded JSON document; and from [capabilities.py] the
    registration payload and the reading of a tool's version.  What the operating system
    says (user expansion and absoluteness of paths, the environment, which executables
    exist, what they print) is an argument.

    Theorem: a configuration that is accepted is within the bounds the rest of the worker
    relies on ([config_within_bounds]). *)

From S2P Require Import Prelude Text Json Evidence Floats JsonCodec Documents Fingerprints Checks Parsers WorkerContracts WorkerModels.
From Stdlib Require Import QArith.
#[local] Open Scope Z_scope.

Definition MAX_WORKER_CONCURRENCY : Z := 1.
Definition MAX_OUTPUT_BYTES : Z := 64 * 1024 * 1024.
Definition MAX_OUTPUT_SUMMARY_BYTES : Z := 64 * 1024.
Definition MAX_EVIDENCE_RETENTION_DAYS : Z := 3650.
Definition MAX_ARTIFACT_COUNT : Z := 128.
Definition MAX_EVIDENCE_BYTES : Z := 1024 * 1024 * 1024 * 1024.

(** A float, those that are not finite included: JSON can write 1e999 and [NaN]. *)
Inductive Seconds := Finite (q : Q) | PosInf | NegInf | NotANumber.

(** [a < b] and [a <= b]; nothing compares with [NaN]. *)
Definition seconds_lt (a b : Seconds) : bool :=
  match a, b with
  | NotANumber, _ | _, NotANumber => false
  | Finite p, Finite q => negb (Qle_bool q p)
  | NegInf, (Finite _ | PosInf) | Finite _, PosInf => true
  | _, _ => false
  end.
Definition seconds_le (a b : Seconds) : bool :=
  match a, b with
  | NotANumber, _ | _, NotANumber => false
  | Finite p, Finite q => Qle_bool p q
  | NegInf, _ | _, PosInf => true
  | _, _ => false
  end.

(** [float(z)] of a small integer *)
Definition seconds_of (z : Z) : Seconds := Finite (inject_Z z).

Record WorkerConfig := {
  cf_base_url : string;
  cf_worker_id : string;
  cf_display_name : string;
  cf_worker_token : string;
  cf_worker_root : string;
  cf_repositories : list (string * string);
  cf_evidence_root : string;
  cf_max_concurrency : Z;
  cf_network_policy_capability : string;
  cf_execution_timeout_seconds : Seconds;
  cf_default_step_timeout_seconds : Seconds;
  cf_maximum_step_timeout_seconds : Seconds;
  cf_output_summary_limit : Z;
  cf_total_output_limit : Z;
  cf_disk_limit_bytes : Z;
  cf_limits : WorkerLimits;
  cf_inherited_environment_keys : list string;
  cf_redacted_key_patterns : list string;
  cf_redacted_value_patterns : list string;
  cf_poll_interval_seconds : Seconds;
  cf_heartbeat_interval_seconds : Seconds;
}.

(** [re.fullmatch("[A-Za-z_][A-Za-z0-9_]*", key)] *)
Definition environment_key (key : string) : bool :=
  matches (fun c => is_lower c || is_upper c || (ord c =? 95)) (fun c => is_alnum c || (ord c =? 95)) key.

(** [_is_valid_repository_name] *)
Definition is_valid_repository_name (name : string) : bool :=
  REPOSITORY_FORM name && negb (existsb dot_segment (split_on (chr 47) (to_chars name))).

Section paths.
Context (expanduser : string -> string) (is_absolute : string -> bool).

(** One entry of the repository registry *)
Definition check_repository (worker_root evidence_root : string) (entry : string * string)
    : Result Exc (string * string) :=
  let path := expanduser entry.2 in
  reject_if (negb (is_valid_repository_name entry.1))
    (ValueError ("invalid repository full name in registry: " +:+ entry.1));;
  reject_if (negb (is_absolute path)) (ValueError ("repository path must be absolute: " +:+ entry.1));;
  reject_if (bool_decide (path = worker_root)) (ValueError "canonical repository path must not equal worker_root");;
  reject_if (bool_decide (path = evidence_root)) (ValueError "canonical repository path must not equal evidence_root");;
  Ok (entry.1, path).

(** [WorkerConfig.__post_init__] *)
Definition make_config (c : WorkerConfig) : Result Exc WorkerConfig :=
  let refuse condition message := reject_if condition (ValueError message) in
  let blank s := bool_decide (strip s = "") in
  let l := cf_limits c in
  refuse (blank (cf_base_url c)) "base_url must not be empty";;
  refuse (blank (cf_worker_id c)) "worker_id must not be empty";;
  refuse (blank (cf_display_name c)) "display_name must not be empty";;
  refuse (blank (cf_worker_token c)) "worker_token must not be empty";;
  refuse (negb (cf_max_concurrency c =? MAX_WORKER_CONCURRENCY)) "Phase 1 worker supports max_concurrency == 1 only";;
  refuse (seconds_le (cf_poll_interval_seconds c) (seconds_of 0)) "poll_interval_seconds must be positive";;
  refuse (seconds_le (cf_heartbeat_interval_seconds c) (seconds_of 0)) "heartbeat_interval_seconds must be positive";;
  refuse (negb (bool_decide (cf_network_policy_capability c ∈ ["disabled"; "worker_restricted"])))
    "unsupported network policy capability";;
  refuse (negb (seconds_lt (seconds_of 0) (cf_default_step_timeout_seconds c)
                && seconds_le (cf_default_step_timeout_seconds c) (cf_maximum_step_timeout_seconds c)))
    "invalid step timeout controls";;
  refuse (seconds_le (cf_execution_timeout_seconds c) (seconds_of 0)) "execution_timeout_seconds must be positive";;
  refuse (negb ((1 <=? cf_output_summary_limit c) && (cf_output_summary_limit c <=? MAX_OUTPUT_SUMMARY_BYTES)))
    "output_summary_limit is out of bounds";;
  refuse (negb ((1 <=? cf_total_output_limit c) && (cf_total_output_limit c <=? MAX_OUTPUT_BYTES)))
    "total_output_limit is out of bounds";;
  refuse (cf_disk_limit_bytes c <? cf_total_output_limit c) "disk_limit_bytes must cover total output";;
  refuse (negb ((1 <=? cfg_evidence_retention_days l) && (cfg_evidence_retention_days l <=? MAX_EVIDENCE_RETENTION_DAYS)))
    "evidence_retention_days is out of bounds";;
  refuse (negb ((1 <=? cfg_maximum_artifact_count l) && (cfg_maximum_artifact_count l <=? MAX_ARTIFACT_COUNT)))
    "maximum_artifact_count is out of bounds";;
  refuse (negb ((1 <=? cfg_maximum_artifact_bytes l) && (cfg_maximum_artifact_bytes l <=? MAX_EVIDENCE_BYTES)))
    "maximum_artifact_bytes is out of bounds";;
  refuse (negb ((cfg_maximum_artifact_bytes l <=? cfg_maximum_total_evidence_bytes l)
                && (cfg_maximum_total_evidence_bytes l <=? MAX_EVIDENCE_BYTES)))
    "maximum_total_evidence_bytes is out of bounds";;
  refuse (negb (forallb environment_key (cf_inherited_environment_keys c))) "invalid inherited environment key";;
  refuse (existsb (fun p => bool_decide (p = "")) (cf_redacted_key_patterns c ++ cf_redacted_value_patterns c))
    "invalid redaction pattern";;
  let worker_root := expanduser (cf_worker_root c) in
  refuse (negb (is_absolute worker_root)) "worker_root must be an absolute path";;
  let evidence_root := expanduser (cf_evidence_root c) in
  refuse (negb (is_absolute evidence_root)) "evidence_root must be an absolute path";;
  refuse (bool_decide (evidence_root = worker_root)) "evidence_root must be separate from worker_root";;
  normalized ← map_result (check_repository worker_root evidence_root) (cf_repositories c);
  refuse (bool_decide (length normalized = 0%nat)) "at least one repository must be configured";;
  Ok {| cf_base_url := cf_base_url c; cf_worker_id := cf_worker_id c; cf_display_name := cf_display_name c;
        cf_worker_token := cf_worker_token c; cf_worker_root := worker_root; cf_repositories := normalized;
        cf_evidence_root := evidence_root; cf_max_concurrency := cf_max_concurrency c;
        cf_network_policy_capability := cf_network_policy_capability c;
        cf_execution_timeout_seconds := cf_execution_timeout_seconds c;
        cf_default_step_timeout_seconds := cf_default_step_timeout_seconds c;
        cf_maximum_step_timeout_seconds := cf_maximum_step_timeout_seconds c;
        cf_output_summary_limit := cf_output_summary_limit c; cf_total_output_limit := cf_total_output_limit c;
        cf_disk_limit_bytes := cf_disk_limit_bytes c; cf_limits := l;
        cf_inherited_environment_keys := cf_inherited_environment_keys c;
        cf_redacted_key_patterns := cf_redacted_key_patterns c;
        cf_redacted_value_patterns := cf_redacted_value_patterns c;
        cf_poll_interval_seconds := cf_poll_interval_seconds c;
        cf_heartbeat_interval_seconds := cf_heartbeat_interval_seconds c |}.

(** ** Reading a decoded document *)

Section mapping.
Context (payload : list (string * Json)).

(** [payload.get(name, default)] of a text *)
Definition config_text (name : string) (fallback : option string) : Result Exc string :=
  match obj_get name payload, fallback with
  | Some (JStr s), _ => Ok s
  | None, Some s => Ok s
  | _, _ => Err (ValueError (name +:+ " must be a string"))
  end.

(** [float(value)] *)
Definition config_number (name : string) (fallback : Z) : Result Exc Seconds :=
  match obj_get name payload with
  | None => Ok (seconds_of fallback)
  | Some (JInt z) => match float_of_int z with Some f => Ok (Finite (fl_value f)) | None => Err OverflowException end
  | Some (JFloat r) =>
      Ok match float_value r with
         | Some q => Finite q
         | None => if bool_decide (r = "inf") then PosInf
                   else if bool_decide (r = "-inf") then NegInf else NotANumber
         end
  | Some _ => Err (ValueError (name +:+ " must be numeric"))
  end.

Definition config_integer (name : string) (fallback : Z) : Result Exc Z :=
  match obj_get name payload with
  | None => Ok fallback
  | Some (JInt z) => Ok z
  | Some _ => Err (ValueError (name +:+ " must be an integer"))
  end.

Definition config_strings (name : string) (fallback : list string) : Result Exc (list string) :=
  match obj_get name payload with
  | None => Ok fallback
  | Some v => match string_list v with
              | Some l => Ok l
              | None => Err (ValueError (name +:+ " must be an array of strings"))
              end
  end.
End mapping.

Definition config_repositories (fields : list (string * Json)) : Result Exc (list (string * string)) :=
  map_result (fun entry => match entry.2 with
                           | JStr path => Ok (entry.1, path)
                           | _ => Err (ValueError "repositories must map strings to strings")
                           end) fields.

(** [WorkerConfig.from_mapping]; [environ] is [os.environ]. *)
Definition config_from_mapping (environ : gmap string string) (value : Json) : Result Exc WorkerConfig :=
  match value with
  | JObj payload =>
      let refuse condition message := reject_if condition (ValueError message) in
      refuse (existsb (fun kv => str_contains "token" (lower kv.1) || str_contains "secret" (lower kv.1)) payload)
        "credentials must not be supplied in worker JSON";;
      refuse (isSome (environ !! "SWITCHBOARD_ADMIN_TOKEN"))
        "administrator credential must be absent from worker environment";;
      match member "repositories" payload with
      | JObj (entry :: entries) =>
          let text name := config_text payload name None in
          let number := config_number payload in
          let count := config_integer payload in
          worker_root ← text "worker_root";
          evidence_root ← text "evidence_root";
          repositories ← config_repositories (entry :: entries);
          base_url ← text "base_url";
          worker_id ← text "worker_id";
          display_name ← text "display_name";
          max_concurrency ← count "max_concurrency" 1;
          network ← config_text payload "network_policy_capability" (Some "worker_restricted");
          execution_timeout ← number "execution_timeout_seconds" 120;
          default_step_timeout ← number "default_step_timeout_seconds" 60;
          maximum_step_timeout ← number "maximum_step_timeout_seconds" 3600;
          output_summary_limit ← count "output_summary_limit" 4096;
          total_output_limit ← count "total_output_limit" MAX_OUTPUT_BYTES;
          disk_limit ← count "disk_limit_bytes" (512 * 1024 * 1024);
          retention ← count "evidence_retention_days" 14;
          artifact_count ← count "maximum_artifact_count" 128;
          artifact_bytes ← count "maximum_artifact_bytes" (64 * 1024 * 1024);
          total_bytes ← count "maximum_total_evidence_bytes" (512 * 1024 * 1024);
          inherited ← config_strings payload "inherited_environment_keys"
                        ["PATH"; "HOME"; "USERPROFILE"; "SYSTEMROOT"; "TEMP"; "TMP"];
          key_patterns ← config_strings payload "redacted_key_patterns" ["TOKEN"; "SECRET"; "PASSWORD"; "KEY"];
          value_patterns ← config_strings payload "redacted_value_patterns" [];
          poll_interval ← number "poll_interval_seconds" 5;
          heartbeat_interval ← number "heartbeat_interval_seconds" 15;
          make_config
            {| cf_base_url := base_url; cf_worker_id := worker_id; cf_display_name := display_name;
               cf_worker_token := default "" (environ !! "SWITCHBOARD_WORKER_TOKEN");
               cf_worker_root := worker_root; cf_repositories := repositories; cf_evidence_root := evidence_root;
               cf_max_concurrency := max_concurrency; cf_network_policy_capability := network;
               cf_execution_timeout_seconds := execution_timeout;
               cf_default_step_timeout_seconds := default_step_timeout;
               cf_maximum_step_timeout_seconds := maximum_step_timeout;
               cf_output_summary_limit := output_summary_limit; cf_total_output_limit := total_output_limit;
               cf_disk_limit_bytes := disk_limit;
               cf_limits := {| cfg_evidence_retention_days := retention; cfg_maximum_artifact_count := artifact_count;
                               cfg_maximum_artifact_bytes := artifact_bytes;
                               cfg_maximum_total_evidence_bytes := total_bytes |};
               cf_inherited_environment_keys := inherited; cf_redacted_key_patterns := key_patterns;
               cf_redacted_value_patterns := value_patterns; cf_poll_interval_seconds := poll_interval;
               cf_heartbeat_interval_seconds := heartbeat_interval |}
      | _ => Err (ValueError "repositories must be a mapping")
      end
  | _ => Err (ValueError "worker configuration must be a mapping")
  end.
End paths.

(** [config.repository_path(name)]; a [KeyError] for one that is not registered *)
Definition repository_path (c : WorkerConfig) (repository_full_name : string) : Result Exc string :=
  match obj_get repository_full_name (cf_repositories c) with
  | Some path => Ok path
  | None => Err (OtherError "KeyError" false false ("repository is not registered: " +:+ repository_full_name))
  end.

(** ** Registration *)

(** What discovery finds on the host; a version is [None] when its probe fails. *)
Record Platform := {
  pf_system : string;
  pf_machine : string;
  pf_python_version : string;
  pf_node_version : option string;
  pf_pnpm_version : option string;
  pf_which : string -> bool;
}.

Definition BROWSER_EXECUTABLES : list (string * list string) :=
  [("chromium", ["chromium"; "chromium-browser"]); ("chrome", ["google-chrome"; "chrome"]);
   ("edge", ["msedge"]); ("firefox", ["firefox"])].

(** [value or "unknown"] *)
Definition or_unknown (s : string) : string := if bool_decide (s = "") then "unknown" else s.

Definition version_json (v : option string) : Json := match v with Some s => JStr s | None => JNull end.

(** [discover_worker_registration] *)
Definition discover_worker_registration (p : Platform) (c : WorkerConfig) : list (string * Json) :=
  [("worker_id", JStr (cf_worker_id c)); ("display_name", JStr (cf_display_name c));
   ("operating_system", JStr (or_unknown (lower (pf_system p))));
   ("architecture", JStr (or_unknown (lower (pf_machine p))));
   ("python_version", JStr (pf_python_version p));
   ("node_version", version_json (pf_node_version p)); ("pnpm_version", version_json (pf_pnpm_version p));
   ("docker_available", JBool (pf_which p "docker"));
   ("browsers", JList (map (fun b => JStr b.1) (filter (fun b => existsb (pf_which p) b.2 = true) BROWSER_EXECUTABLES)));
   ("gpu_available", JBool false); ("unity_available", JBool false); ("desktop_available", JBool false);
   ("capabilities", JObj
     [("git_available", JBool (pf_which p "git")); ("node_available", JBool (isSome (pf_node_version p)));
      ("pnpm_available", JBool (isSome (pf_pnpm_version p)));
      ("repository_registry_count", JInt (Z.of_nat (length (cf_repositories c))));
      ("worker_root_configured", JBool true)]);
   ("repository_full_names", JList (map JStr (sort_strings (map fst (cf_repositories c)))));
   ("max_concurrency", JInt (cf_max_concurrency c));
   ("network_policy_capability", JStr (cf_network_policy_capability c));
   ("repository_write_capability", JBool false); ("status", JStr "online")].

Definition MAX_VERSION_LENGTH : Z := 64.

(** [value.splitlines()[0]] of a text that is not empty: up to the first line break *)
Definition first_line (l : list ascii) : list ascii :=
  (span (fun c => negb (one_of [10; 13; 11; 12; 28; 29; 30] c)) l).1.

(** [_parse_version_output]: up to three numbers, with a "v" in front where that is allowed *)
Definition parse_version_output (output : string) (allow_node_prefix : bool) : option string :=
  let value := strip output in
  if bool_decide (value = "") then None
  else
    let line := strip (of_chars (first_line (to_chars value))) in
    if MAX_VERSION_LENGTH <? str_length line then None
    else
      let '(prefixed, rest) := match to_chars line with
                               | c :: l => if ord c =? 118 then (true, l) else (false, c :: l)
                               | [] => (false, [])
                               end in
      match split_on (chr 46) rest with
      | [major; minor; patch] =>
          if forallb (fun part => negb (bool_decide (part = [])) && forallb is_digit part) [major; minor; patch]
          then if prefixed && negb allow_node_prefix then None
               else Some (join "." (map of_chars [major; minor; patch]))
          else None
      | _ => None
      end.

(** ** Accepted configurations *)

(** The bounds an accepted configuration is within: one run at a time, evidence limits that
    [create_evidence_store] accepts, a closed network policy, and repositories that are
    well named and lie outside the worker's own directories. *)
Theorem config_within_bounds expanduser is_absolute given c :
  make_config expanduser is_absolute given = Ok c ->
  cf_max_concurrency c = 1 /\ cf_network_policy_capability c ∈ ["disabled"; "worker_restricted"] /\
  1 <= cf_output_summary_limit c <= MAX_OUTPUT_SUMMARY_BYTES /\
  1 <= cf_total_output_limit c <= cf_disk_limit_bytes c /\
  1 <= cfg_evidence_retention_days (cf_limits c) <= MAX_EVIDENCE_RETENTION_DAYS /\
  1 <= cfg_maximum_artifact_count (cf_limits c) <= MAX_ARTIFACT_COUNT /\
  1 <= cfg_maximum_artifact_bytes (cf_limits c) <= cfg_maximum_total_evidence_bytes (cf_limits c) /\
  cf_evidence_root c <> cf_worker_root c /\ cf_repositories c <> [] /\
  forall name path, (name, path) ∈ cf_repositories c ->
    is_valid_repository_name name = true /\ is_absolute path = true /\
    path <> cf_worker_root c /\ path <> cf_evidence_root c.
Proof.
  unfold make_config. cbv zeta. intros H. inv_ok H. cbn [cf_max_concurrency cf_network_policy_capability
    cf_output_summary_limit cf_total_output_limit cf_disk_limit_bytes cf_limits cf_evidence_root cf_worker_root
    cf_repositories]. unfold MAX_WORKER_CONCURRENCY in *.
  split_and!; try done; try lia.
  - intros ->. done.
  - intros name path Hin. match goal with Hm : map_result _ _ = Ok _ |- _ => apply map_result_Forall2 in Hm end.
    apply list_elem_of_lookup in Hin as [i Hi]. eapply Forall2_lookup_r in Hi as (entry & _ & He); [|done].
    unfold check_repository in He. inv_ok He. done.
Qed.
