(* ===== verification/WorkerPolicy.v ===== *)
(** * What the worker decides and reports

    The functions of [client/python/execution_worker/worker.py] that have no effects: the
    sanitizing of text sent to the control plane, the check of a manifest and of the host's
    capabilities before anything runs, the identity of the environment, the evidence
    document, the reuse identity and the bounded summary of the steps.

    Theorems: a manifest is accepted only when the remote description, the work order and the
    local definition agree and every limit holds ([validate_manifest_ok]); the summary is
    computed in all cases but one, and is within its limit ([summary_within_limit]). *)

From S2P Require Import Prelude Text Json TextPolicy Enums Catalog Evidence Floats JsonCodec Documents Fingerprints Registry Capabilities Checks Profiles Parsers WorkerContracts WorkerModels WorkerClient WorkerConfig.
From Stdlib Require Import QArith.
#[local] Open Scope Z_scope.

(** ** Results of steps ([runner.py]) *)

Record StepResult := {
  sr_step_id : string;
  sr_title : string;
  sr_status : string;
  sr_exit_code : option Z;
  sr_duration_seconds : PyFloat;
  sr_stdout_summary : string;
  sr_stderr_summary : string;
  sr_summaries_truncated : bool;
  sr_stdout_log : string;
  sr_stderr_log : string;
  sr_environment_summary : list (string * string);
  sr_started_at : Z;
  sr_finished_at : Z;
  sr_parsed_result : option ParsedResult;
  sr_terminal_reason : option string;
}.

#[export] Instance StepResult_rebuild : Rebuild StepResult := fun r =>
  {| sr_step_id := sr_step_id r; sr_title := sr_title r; sr_status := sr_status r; sr_exit_code := sr_exit_code r;
     sr_duration_seconds := sr_duration_seconds r; sr_stdout_summary := sr_stdout_summary r;
     sr_stderr_summary := sr_stderr_summary r; sr_summaries_truncated := sr_summaries_truncated r;
     sr_stdout_log := sr_stdout_log r; sr_stderr_log := sr_stderr_log r;
     sr_environment_summary := sr_environment_summary r; sr_started_at := sr_started_at r;
     sr_finished_at := sr_finished_at r; sr_parsed_result := sr_parsed_result r;
     sr_terminal_reason := sr_terminal_reason r |}.

(** ** Text that leaves the host *)

Definition LOCAL_DATABASE_URI_MARKER : string := "[LOCAL_DATABASE_URI]".
Definition RESULT_SUMMARY_LIMIT : Z := 8000.
Definition STEP_EVIDENCE_SUMMARY_LIMIT : nat := 4096.

(** [sqlite(?:\+aiosqlite)?:///] *)
Definition sqlite_scheme (prev : option ascii) (l : list ascii) : option (list ascii) :=
  if negb (prev_not_in scheme_char prev) then None
  else
    r ← match_ci (to_chars "sqlite") l;
    let after := default r (match_ci (to_chars "+aiosqlite") r) in
    match_ci (to_chars ":///") after.

(** [_LOCAL_SQLITE_EXPRESSION] and [_LOCAL_SQLITE_URI], as what follows a match *)
Definition LOCAL_SQLITE_EXPRESSION (prev : option ascii) (l : list ascii) : option (list ascii) :=
  r ← sqlite_scheme prev l;
  match r with
  | open :: inner =>
      if negb (ord open =? 123) then None
      else match (span (fun c => negb (one_of [123; 125; 13; 10] c)) inner).2 with
           | close :: rest => if ord close =? 125 then Some rest else None
           | [] => None
           end
  | [] => None
  end.

Definition LOCAL_SQLITE_URI (prev : option ascii) (l : list ascii) : option (list ascii) :=
  r ← sqlite_scheme prev l;
  Some (span (fun c => negb (is_space c || one_of [60; 62; 34; 39] c)) r).2.

(** [pattern.sub(marker, text)], for matches that are not empty; the length of the text is
    enough fuel. *)
Fixpoint substitute (pattern : option ascii -> list ascii -> option (list ascii)) (marker : list ascii)
    (fuel : nat) (prev : option ascii) (l : list ascii) : list ascii :=
  match fuel, l with
  | S fuel', c :: l' =>
      match pattern prev l with
      | Some rest => marker ++ substitute pattern marker fuel' (last (take (length l - length rest) l)) rest
      | None => c :: substitute pattern marker fuel' (Some c) l'
      end
  | _, _ => []
  end.

Definition replace_all (pattern : option ascii -> list ascii -> option (list ascii)) (l : list ascii) : list ascii :=
  substitute pattern (to_chars LOCAL_DATABASE_URI_MARKER) (length l) None l.

(** [_sanitize_remote_text] *)
Definition sanitize_remote_text (value : string) : string :=
  let without_local_databases := replace_all LOCAL_SQLITE_URI (replace_all LOCAL_SQLITE_EXPRESSION (to_chars value)) in
  let normalized := of_chars (without_local_databases ≫= fun c =>
                                if ord c =? 92 then to_chars "[BACKSLASH]" else [c]) in
  if contains_absolute_local_path normalized then "[LOCAL_PATH]" else normalized.

(** ** Admission of a manifest *)

(** [==] of decoded JSON values: numbers compare by value, [NaN] with nothing. *)
Definition json_number (j : Json) : option Q :=
  match j with
  | JBool b => Some (inject_Z (bool_int b))
  | JInt z => Some (inject_Z z)
  | JFloat r => float_value r
  | _ => None
  end.

Definition scalar_equal (a b : Json) : bool :=
  match json_number a, json_number b with
  | Some p, Some q => Qeq_bool p q
  | None, None =>
      match a, b with
      | JNull, JNull => true
      | JStr s, JStr t => String.eqb s t
      | JFloat r, JFloat r' => String.eqb r r' && negb (String.eqb r "nan")
      | _, _ => false
      end
  | _, _ => false
  end.

Fixpoint py_equal (a b : Json) {struct a} : bool :=
  match a, b with
  | JList x, JList y =>
      (fix go (x y : list Json) {struct x} : bool :=
         match x, y with
         | [], [] => true
         | u :: x', v :: y' => py_equal u v && go x' y'
         | _, _ => false
         end) x y
  | JObj x, JObj y =>
      (Nat.eqb (length x) (length y)) &&
      (fix go (x : list (string * Json)) : bool :=
         match x with
         | [] => true
         | (k, u) :: x' => match obj_get k y with Some v => py_equal u v | None => false end && go x'
         end) x
  | _, _ => scalar_equal a b
  end.

(** [_requirement_satisfied] *)
Definition requirement_satisfied (actual expected : Json) (capability : string) : bool :=
  if bool_decide (capability ∈ ["python"; "node"; "pnpm"])
  then runtime_version_matches (match actual with JStr s => Some s | _ => None end) expected
         (bool_decide (capability = "node"))
  else match expected, actual with
       | JBool b, JBool a => Bool.eqb a b
       | JStr e, JStr a => String.eqb a e
       | JList l, JStr a => existsb (py_equal (JStr a)) l
       | _, _ => false
       end.

(** [_local_capabilities] *)
Definition local_capabilities (p : Platform) (c : WorkerConfig) : list (string * Json) :=
  let registration := discover_worker_registration p c in
  match member "capabilities" registration with JObj fields => fields | _ => [] end
  ++ [("operating_system", member "operating_system" registration);
      ("architecture", member "architecture" registration); ("python", member "python_version" registration);
      ("node", member "node_version" registration); ("pnpm", member "pnpm_version" registration);
      ("docker", member "docker_available" registration); ("gpu", member "gpu_available" registration);
      ("unity", member "unity_available" registration); ("desktop", member "desktop_available" registration);
      ("browsers", member "browsers" registration); ("repository_write", JBool false)].

Definition CAPABILITY_ALIASES : list (string * string) :=
  [("python_version", "python"); ("node_version", "node"); ("pnpm_version", "pnpm");
   ("docker_available", "docker"); ("gpu_available", "gpu"); ("unity_available", "unity");
   ("desktop_available", "desktop")].

(** One requirement of [_validate_capabilities] *)
Definition capability_present (capabilities : list (string * Json)) (name : string) (expected : Json) : bool :=
  let key := default name (obj_get name CAPABILITY_ALIASES) in
  match obj_get key capabilities with
  | Some actual => requirement_satisfied actual expected key
  | None => false
  end.

Definition validate_capabilities (p : Platform) (requirements : list (string * Json)) (c : WorkerConfig)
    : Result Exc unit :=
  check_all (fun requirement =>
      reject_if (negb (capability_present (local_capabilities p c) requirement.1 requirement.2))
        (ValueError ("unsupported required capability: " +:+ requirement.1)))
    requirements.

(** The remote description, the work order and the local definition name the same contract. *)
Definition same_contract (m : TrustedManifest) (remote : SafeManifest) (order : AssignedWorkOrder) : bool :=
  bool_decide (tm_name m = awo_manifest_name order) && bool_decide (tm_version m = awo_manifest_version order)
  && bool_decide (tm_digest m = awo_manifest_digest order)
  && bool_decide (sm_name remote = tm_name m) && bool_decide (sm_version remote = tm_version m)
  && bool_decide (sm_digest remote = tm_digest m) && (sm_timeout_seconds remote =? tm_timeout_seconds m)
  && (sm_schema_version remote =? tm_schema_version m) && bool_decide (sm_description remote = tm_description m)
  && bool_decide (sm_trusted_registry_source remote = tm_registry_source m)
  && bool_decide (sm_network_policy remote = network_policy_value (tm_network_policy m))
  && bool_decide (sm_repository_write_policy remote
                  = repository_write_policy_value (tm_repository_write_policy m))
  && py_equal (JObj (sm_required_capabilities remote)) (JObj (tm_required_capabilities m))
  && py_equal (JList (map JObj (sm_fixed_step_metadata remote))) (JList (tm_fixed_step_metadata m))
  && py_equal (JObj (sm_environment_policy remote)) (JObj (tm_environment_policy m))
  && py_equal (JList (map JObj (sm_artifact_declarations remote))) (JList (tm_artifact_declarations m)).

(** [_validate_manifest]; the host is probed once for each set of requirements. *)
Definition validate_manifest (p p' : Platform) (manifest : option TrustedManifest) (remote : SafeManifest)
    (order : AssignedWorkOrder) (c : WorkerConfig) : Result Exc TrustedManifest :=
  let refuse condition message := reject_if condition (ValueError message) in
  match manifest with
  | None => Err (ValueError "trusted manifest does not exist locally")
  | Some m =>
      refuse (bool_decide (length (tm_execution_steps m) = 0%nat)) "trusted manifest has no executable steps";;
      refuse (negb (same_contract m remote order)) "trusted manifest metadata mismatch";;
      refuse (negb (bool_decide (repository_write_policy_value (tm_repository_write_policy m) = "read_only")))
        "trusted manifest permits repository writes";;
      refuse (negb (subset_of (map fst (awo_manifest_parameters order)) (tm_allowed_parameters m)))
        "work order contains unsupported manifest parameters";;
      refuse (negb (bool_decide (awo_network_policy order = cf_network_policy_capability c)))
        "work order network policy is incompatible with worker";;
      refuse (negb (bool_decide (network_policy_value (tm_network_policy m) = cf_network_policy_capability c)))
        "manifest network policy is incompatible with worker";;
      refuse (seconds_lt (cf_execution_timeout_seconds c) (seconds_of (awo_timeout_seconds order))
              || seconds_lt (cf_execution_timeout_seconds c) (seconds_of (tm_timeout_seconds m)))
        "execution timeout exceeds local policy";;
      check_all (fun step =>
          refuse (seconds_lt (cf_maximum_step_timeout_seconds c) (seconds_of (ts_timeout_seconds step))
                  || (cf_output_summary_limit c <? ts_output_summary_limit step))
            "trusted step limit exceeds local policy")
        (tm_execution_steps m);;
      validate_capabilities p (tm_required_capabilities m) c;;
      validate_capabilities p' (awo_required_capabilities order) c;;
      Ok m
  end.

(** ** The identity of the environment *)

Definition ENVIRONMENT_TOOLS : list string := ["ruff"; "black"; "mypy"; "pytest"; "coverage"; "bandit"].

(** The runtimes that requirements name *)
Definition runtime_names (required_capabilities : list (list (string * Json))) : list string :=
  requirements ← required_capabilities;
  kv ← requirements;
  let name := lower kv.1 in
  [default name (obj_get name [("node_version", "node"); ("pnpm_version", "pnpm")])].

(** [Model(...)] for a document given by its text and its field checks *)
Definition validated_model {A} (document : A -> Json) (valid : A -> bool) (a : A) : Result Exc A :=
  if is_ok (validate_no_absolute_local_paths (document a)) && valid a then Ok a else Err ValidationError.

(** [_environment_identity]; [package_version] is [importlib.metadata.version], [None] for a
    package that is not installed. *)
Definition environment_identity (package_version : string -> option string) (p : Platform)
    (required_capabilities : list (list (string * Json))) : Result Exc EnvironmentIdentity :=
  let packages := omap (fun name => (fun v => {| tool_name := name; tool_version := v |}) <$> package_version name)
                    ENVIRONMENT_TOOLS in
  let names := runtime_names required_capabilities in
  let runtime name registered :=
    match normalize_runtime_version registered (bool_decide (name = "node")) with
    | Some v => if bool_decide (name ∈ names) then [{| tool_name := name; tool_version := v |}] else []
    | None => []
    end in
  let tools := packages ++ (if bool_decide ("node" ∈ names) || bool_decide ("pnpm" ∈ names)
                            then runtime "node" (pf_node_version p) ++ runtime "pnpm" (pf_pnpm_version p) else []) in
  let architecture := or_unknown (pf_machine p) in
  let operating_system := or_unknown (lower (pf_system p)) in
  let payload := JObj [("architecture", JStr architecture); ("operating_system", JStr operating_system);
                       ("python_version", JStr (pf_python_version p));
                       ("tools", JList (map (fun t => JObj [("name", JStr (tool_name t));
                                                            ("version", JStr (tool_version t))]) tools))] in
  validated_model environment_json valid_environment
    {| env_operating_system := operating_system; env_architecture := architecture;
       env_python_version := pf_python_version p; env_tools := tools;
       env_fingerprint := sha256_hex (dumps true payload) |}.

(** ** Evidence *)

(** [_step_evidence], one step *)
Definition step_evidence (artifacts : list ArtifactRecord) (r : StepResult) : StepEvidence :=
  let sanitized := sanitize_remote_text
    (join (String (chr 10) EmptyString)
       (filter (fun item => item <> "") [sr_stdout_summary r; sr_stderr_summary r])) in
  {| step_id := sr_step_id r; step_title := sr_title r; step_status := sr_status r;
     step_started_at := sr_started_at r; step_finished_at := sr_finished_at r;
     step_duration_seconds := sr_duration_seconds r; step_exit_code := sr_exit_code r;
     step_terminal_reason := sr_terminal_reason r;
     step_summary := str_take STEP_EVIDENCE_SUMMARY_LIMIT sanitized;
     step_summary_truncated := sr_summaries_truncated r
                               || (Z.of_nat STEP_EVIDENCE_SUMMARY_LIMIT <? str_length sanitized);
     step_log_artifact_paths :=
       filter (fun path => path ∈ map art_relative_path artifacts)
         ["logs/" +:+ sr_stdout_log r; "logs/" +:+ sr_stderr_log r];
     step_parsed_result := sr_parsed_result r |}.

(** [max(0.0, (finished_at - started_at).total_seconds())] *)
Definition elapsed_seconds (started_at finished_at : Z) : PyFloat :=
  default {| fl_repr := "0.0"; fl_value := inject_Z 0 |}
    (float_of_decimal false (Z.max 0 (finished_at - started_at)) (-6)).

(** The keyword arguments of [_build_evidence] that vary between its calls *)
Record EvidenceInputs := {
  ei_started_at : Z;
  ei_finished_at : Z;
  ei_terminal : string;
  ei_reason : option string;
  ei_results : list StepResult;
  ei_artifacts : list ArtifactRecord;
  ei_dependency_locks : list DependencyLockHash;
  ei_dependency_lock_status : string;
  ei_artifact_status : string;
  ei_cleanup : string;
  ei_local_record_status : string;
  ei_environment : EnvironmentIdentity;
  ei_reuse_provenance : EvidenceReuseProvenance;
}.

(** [_build_evidence] *)
Definition build_evidence (isoformat : Z -> string) (c : WorkerConfig) (order : AssignedWorkOrder) (run_id : Z)
    (m : TrustedManifest) (i : EvidenceInputs) : Result Exc ExecutionEvidence :=
  let draft :=
    {| ev_work_order_id := awo_id order; ev_run_id := run_id;
       ev_repository_full_name := awo_repository_full_name order; ev_tested_sha := lower (awo_commit_sha order);
       ev_manifest_name := tm_name m; ev_manifest_version := tm_version m; ev_manifest_digest := tm_digest m;
       ev_worker_id := cf_worker_id c; ev_environment := ei_environment i;
       ev_dependency_lock_hashes := ei_dependency_locks i; ev_started_at := ei_started_at i;
       ev_finished_at := ei_finished_at i;
       ev_duration_seconds := elapsed_seconds (ei_started_at i) (ei_finished_at i);
       ev_terminal_status := ei_terminal i; ev_terminal_reason := ei_reason i;
       ev_failing_step := sr_step_id <$> head (filter (fun r => sr_status r <> "succeeded") (ei_results i));
       ev_steps := map (step_evidence (ei_artifacts i)) (ei_results i); ev_artifacts := ei_artifacts i;
       ev_dependency_lock_status := ei_dependency_lock_status i;
       ev_artifact_finalization_status := ei_artifact_status i; ev_source_cleanup_status := ei_cleanup i;
       ev_local_record_status := ei_local_record_status i; ev_reuse_provenance := Some (ei_reuse_provenance i);
       ev_fingerprint := "" |} in
  match finalize_evidence isoformat draft with Some e => Ok e | None => Err ValidationError end.

(** The order [key=lambda item: item.relative_path] *)
Definition by_lock_path (a b : DependencyLockHash) : Prop := str_le (lock_relative_path a) (lock_relative_path b).

#[export] Instance by_lock_path_dec : RelDecision by_lock_path.
Proof. intros a b. unfold by_lock_path. apply _. Defined.

(** [_build_reuse_identity] *)
Definition build_reuse_identity (order : AssignedWorkOrder) (m : TrustedManifest)
    (environment : EnvironmentIdentity) (dependency_locks : list DependencyLockHash)
    : Result Exc EvidenceReuseIdentity :=
  match compute_result_contract_hash (tm_fixed_step_metadata m) (tm_artifact_declarations m)
          (tm_dependency_lock_paths m) (tm_result_contract m) with
  | Err message => Err (ValueError message)
  | Ok result_contract_hash =>
      validated_model identity_json valid_reuse_identity
        {| id_repository_full_name := awo_repository_full_name order;
           id_tested_sha := lower (awo_commit_sha order); id_manifest_name := tm_name m;
           id_manifest_version := tm_version m; id_manifest_digest := tm_digest m;
           id_worker_environment_fingerprint := env_fingerprint environment;
           id_dependency_lock_hashes := merge_sort by_lock_path dependency_locks;
           id_execution_policy_hash := awo_execution_policy_hash order;
           id_result_contract_hash := result_contract_hash |}
  end.

(** ** The summary of the steps *)

(** [json.dumps(value, ensure_ascii=False, separators=(",", ":"))], keys in the order of the dict *)
Fixpoint dumps_in_order (j : Json) : string :=
  match j with
  | JList l =>
      "[" +:+ join "," ((fix go (l : list Json) : list string :=
               match l with [] => [] | x :: l' => dumps_in_order x :: go l' end) l) +:+ "]"
  | JObj fields =>
      "{" +:+ join "," ((fix go (l : list (string * Json)) : list string :=
               match l with
               | [] => []
               | (k, x) :: l' => (quote false k +:+ ":" +:+ dumps_in_order x) :: go l'
               end) fields) +:+ "}"
  | _ => dumps false j
  end.

(** [normalize] in [_serialize_summary] *)
Fixpoint normalize_summary (j : Json) : Json :=
  match j with
  | JStr s => JStr (sanitize_remote_text s)
  | JList l => JList ((fix go (l : list Json) : list Json :=
                         match l with [] => [] | x :: l' => normalize_summary x :: go l' end) l)
  | JObj fields =>
      JObj ((fix go (l : list (string * Json)) : list (string * Json) :=
               match l with [] => [] | (k, x) :: l' => (k, normalize_summary x) :: go l' end) fields)
  | _ => j
  end.

Definition serialize_summary (summary : Json) : string := dumps_in_order (normalize_summary summary).

(** [round(x, 3)] *)
Definition round_3 (f : PyFloat) : PyFloat :=
  let q := fl_value f in
  default f (float_of_decimal (starts_with (to_chars "-") (to_chars (fl_repr f)))
               (round_half_even (1000 * Z.abs (Qnum q)) (Z.pos (Qden q))) (-3)).

(** One step of the summary, its two texts cut at [limit] where there is one *)
Definition step_summary_json (limit : option Z) (r : StepResult) : Json :=
  let cut s := match limit with Some n => str_take (Z.to_nat n) s | None => s end in
  let cut_off s := match limit with Some n => n <? str_length s | None => false end in
  JObj [("id", JStr (sr_step_id r)); ("status", JStr (sr_status r));
        ("exit_code", match sr_exit_code r with Some z => JInt z | None => JNull end);
        ("duration_seconds", JFloat (fl_repr (round_3 (sr_duration_seconds r))));
        ("stdout", JStr (cut (sr_stdout_summary r))); ("stderr", JStr (cut (sr_stderr_summary r)));
        ("truncated", JBool (sr_summaries_truncated r || cut_off (sr_stdout_summary r)
                             || cut_off (sr_stderr_summary r)));
        ("logs", JList [JStr ("logs/" +:+ sr_stdout_log r); JStr ("logs/" +:+ sr_stderr_log r)]);
        ("environment", JObj (map (fun kv => (kv.1, JStr kv.2)) (sr_environment_summary r)));
        ("terminal_reason", match sr_terminal_reason r with Some s => JStr s | None => JNull end)].

Definition summary_json (order : AssignedWorkOrder) (results : list StepResult) (limit : option Z) : Json :=
  JObj ([("checked_out_sha", JStr (awo_commit_sha order));
         ("steps", JList (map (step_summary_json limit) results))]
        ++ match limit with Some _ => [("result_summary_truncated", JBool true)] | None => [] end).

Definition summary_fits (order : AssignedWorkOrder) (results : list StepResult) (limit : option Z) : bool :=
  str_length (serialize_summary (summary_json order results limit)) <=? RESULT_SUMMARY_LIMIT.

(** [max(..., default=0)] *)
Definition largest_text (results : list StepResult) : Z :=
  foldr (fun r acc => Z.max (str_length (sr_stdout_summary r)) (Z.max (str_length (sr_stderr_summary r)) acc)) 0 results.

(** [while low < high]: the largest limit that the search finds to fit *)
Fixpoint search_limit (fits : Z -> bool) (fuel : nat) (low high : Z) : Z :=
  match fuel with
  | O => low
  | S fuel' =>
      if low <? high then
        let candidate := (low + high + 1) / 2 in
        if fits candidate then search_limit fits fuel' candidate high
        else search_limit fits fuel' low (candidate - 1)
      else low
  end.

(** [_summary] *)
Definition summary (order : AssignedWorkOrder) (results : list StepResult) : Result Exc Json :=
  if summary_fits order results None then Ok (summary_json order results None)
  else
    let largest := largest_text results in
    let low := search_limit (fun n => summary_fits order results (Some n)) (Z.to_nat largest) 0 largest in
    if summary_fits order results (Some low) then Ok (summary_json order results (Some low))
    else Err (RuntimeError "required result metadata exceeds worker summary limit").

(** ** Theorems *)

(** The search runs to its end within its fuel, and ends where the text fits, or at zero. *)
Lemma search_limit_spec fits fuel low high :
  0 <= low -> (Z.to_nat (high - low) <= fuel)%nat -> (low = 0 \/ fits low = true) ->
  let n := search_limit fits fuel low high in n = 0 \/ fits n = true.
Proof.
  revert low high. induction fuel as [|fuel IH]; intros low high H0 Hfuel Hlow; cbn [search_limit]; [tauto|].
  destruct (Z.ltb_spec low high); [|tauto]. pose proof (Z.div_mod (low + high + 1) 2 ltac:(lia)).
  pose proof (Z.mod_pos_bound (low + high + 1) 2 ltac:(lia)).
  destruct (fits ((low + high + 1) / 2)) eqn:Hf; apply IH; (try tauto); lia.
Qed.

(** The summary is within its limit, and is refused only when the steps without any of their
    output already exceed it. *)
Theorem summary_within_limit order results :
  (exists j, summary order results = Ok j /\ str_length (serialize_summary j) <= RESULT_SUMMARY_LIMIT) \/
  (summary order results = Err (RuntimeError "required result metadata exceeds worker summary limit") /\
   RESULT_SUMMARY_LIMIT < str_length (serialize_summary (summary_json order results (Some 0)))).
Proof.
  unfold summary. destruct (summary_fits order results None) eqn:Hn.
  { left. eexists. split; [done|]. by apply Z.leb_le. }
  set (fits := fun n => summary_fits order results (Some n)).
  destruct (search_limit_spec fits (Z.to_nat (largest_text results)) 0 (largest_text results)) as [Hz|Hf];
    [lia|lia|by left| |].
  - cbv zeta. rewrite Hz. destruct (summary_fits order results (Some 0)) eqn:H0.
    + left. eexists. split; [done|]. by apply Z.leb_le.
    + right. split; [done|]. by apply Z.leb_gt.
  - cbv zeta. unfold fits in Hf at 1. rewrite Hf. left. eexists. split; [done|]. by apply Z.leb_le.
Qed.

(** A manifest that is admitted is the local definition, agrees with the order and with the
    remote description, permits no writes, and stays within the limits of this host. *)
Theorem validate_manifest_ok p p' manifest remote order c m :
  validate_manifest p p' manifest remote order c = Ok m ->
  manifest = Some m /\ tm_execution_steps m <> [] /\ same_contract m remote order = true /\
  awo_network_policy order = cf_network_policy_capability c /\
  network_policy_value (tm_network_policy m) = cf_network_policy_capability c /\
  seconds_lt (cf_execution_timeout_seconds c) (seconds_of (awo_timeout_seconds order)) = false /\
  seconds_lt (cf_execution_timeout_seconds c) (seconds_of (tm_timeout_seconds m)) = false /\
  (forall step, step ∈ tm_execution_steps m ->
     seconds_lt (cf_maximum_step_timeout_seconds c) (seconds_of (ts_timeout_seconds step)) = false /\
     ts_output_summary_limit step <= cf_output_summary_limit c) /\
  (forall name expected, (name, expected) ∈ tm_required_capabilities m ->
     capability_present (local_capabilities p c) name expected = true) /\
  (forall name expected, (name, expected) ∈ awo_required_capabilities order ->
     capability_present (local_capabilities p' c) name expected = true).
Proof.
  unfold validate_manifest. destruct manifest as [m'|]; [|done]. cbv zeta. intros H. inv_ok H.
  split_and!; try done.
  - intros Hnil. by rewrite Hnil in Hok.
  - rewrite Forall_forall in Hok6.
    intros step Hstep. specialize (Hok6 step Hstep). inv_ok Hok6. done.
  - intros name expected Hin. unfold validate_capabilities in Hok7. apply check_all_ok in Hok7.
    rewrite Forall_forall in Hok7. specialize (Hok7 _ Hin). by inv_ok Hok7.
  - intros name expected Hin. unfold validate_capabilities in Hok8. apply check_all_ok in Hok8.
    rewrite Forall_forall in Hok8. specialize (Hok8 _ Hin). by inv_ok Hok8.
Qed.
