(* ===== verification/Files.v ===== *)
(** * A file system

    What the worker uses of a POSIX file system: directories, regular files, symbolic links
    and special files under absolute paths, and the calls [lstat], [stat], [realpath], [open],
    [fstat], [read], [mkdir], exclusive creation, [write], [listdir] and removal.  A path is the
    list of its components.  Between any two calls another process may change everything: the
    parameter [others] gives, for each call, the file system it finds.  The modification
    time of a file is the number of the call that wrote it. *)

From S2P Require Import Prelude Text Json Checks WorkerModels.
#[local] Open Scope Z_scope.

(** ** State *)

Notation path := (list string).

Inductive Entry := Dir | File (ino : Z) | Link (target : path) | Special.

Record Inode := { in_content : string; in_mtime : Z; in_ctime : Z }.

Record Fs := { entries : gmap path Entry; inodes : gmap Z Inode }.

Record Disk := { disk : Fs; calls : nat }.

#[export] Instance Fs_rebuild : Rebuild Fs := fun f => {| entries := entries f; inodes := inodes f |}.
#[export] Instance Disk_rebuild : Rebuild Disk := fun d => {| disk := disk d; calls := calls d |}.

(** ** Errors *)

Definition OSError (name : string) : Exc := OtherError name false true "".
Definition FileNotFoundError : Exc := OSError "FileNotFoundError".
Definition FileExistsError : Exc := OSError "FileExistsError".
Definition NotADirectoryError : Exc := OSError "NotADirectoryError".
(** ELOOP *)
Definition LoopError : Exc := OSError "OSError".

Definition is_file_not_found (e : Exc) : bool := bool_decide (exc_name e = "FileNotFoundError").
Definition is_file_exists (e : Exc) : bool := bool_decide (exc_name e = "FileExistsError").

(** [isinstance(error, RuntimeError)] *)
Definition is_runtime_error (e : Exc) : bool :=
  match e with
  | LocalCommitUnavailableError => false
  | OtherError name _ _ _ => bool_decide (name ∈ ["RuntimeError"; "RecursionError"; "NotImplementedError"])
  | _ => true
  end.

(** ** Path resolution *)

Definition MAXSYMLINKS : nat := 40.

Section resolution.
Context (es : gmap path Entry).

(** The entry at a path with no links above it; the root is a directory. *)
Definition entry_at (p : path) : option Entry := match p with [] => Some Dir | _ => es !! p end.

(** Follow every link: what was reached, and what of the path is left (nothing, or components that do
    not exist there); [None] after too many links. *)
Fixpoint walk (fuel : nat) : path -> path -> option (path * path) :=
  fix go (cur todo : path) {struct todo} : option (path * path) :=
    match todo with
    | [] => Some (cur, [])
    | c :: rest =>
        match es !! (cur ++ [c]) with
        | Some Dir => go (cur ++ [c]) rest
        | Some (Link target) => match fuel with O => None | S fuel' => walk fuel' [] (target ++ rest) end
        | Some _ => Some (cur ++ [c], rest)
        | None => Some (cur, c :: rest)
        end
    end.

(** [os.path.realpath], which accepts what does not exist *)
Definition realpath (p : path) : Result Exc path :=
  match walk MAXSYMLINKS [] p with
  | Some (reached, rest) => Ok (reached ++ rest)
  | None => Err (RuntimeError "Symlink loop")
  end.

(** [Path.parent] and [Path.name] *)
Definition parent (p : path) : path := removelast p.
Definition name_of (p : path) : string := List.last p "".

(** The directory that holds the last component of a path *)
Definition find_parent (p : path) : Result Exc path :=
  match walk MAXSYMLINKS [] (parent p) with
  | None => Err LoopError
  | Some (reached, rest) =>
      match entry_at reached, rest with
      | Some Dir, [] => Ok reached
      | Some Dir, _ :: _ => Err FileNotFoundError
      | None, _ => Err FileNotFoundError
      | Some _, _ => Err NotADirectoryError
      end
  end.

(** The entry that a path names, its last component not followed *)
Definition find_entry (p : path) : Result Exc (path * Entry) :=
  match p with
  | [] => Ok ([], Dir)
  | _ =>
      match find_parent p with
      | Err e => Err e
      | Ok q => match es !! (q ++ [name_of p]) with
                | Some e => Ok (q ++ [name_of p], e)
                | None => Err FileNotFoundError
                end
      end
  end.

(** The entry that a path leads to, every link followed *)
Definition find_target (p : path) : Result Exc (path * Entry) :=
  match walk MAXSYMLINKS [] p with
  | None => Err LoopError
  | Some (reached, rest) =>
      match entry_at reached, rest with
      | Some e, [] => Ok (reached, e)
      | Some Dir, _ :: _ => Err FileNotFoundError
      | None, _ => Err FileNotFoundError
      | Some _, _ :: _ => Err NotADirectoryError
      end
  end.
End resolution.

(** ** Calls *)

(** [os.stat_result]; only regular files are identified by a number here. *)
Record Stat := {
  st_link : bool;
  st_regular : bool;
  st_directory : bool;
  st_ino : option Z;
  st_size : Z;
  st_mtime : Z;
  st_ctime : Z;
}.

Definition no_inode : Inode := {| in_content := ""; in_mtime := 0; in_ctime := 0 |}.

Definition stat_of (fs : Fs) (e : Entry) : Stat :=
  match e with
  | File ino =>
      let i := default no_inode (inodes fs !! ino) in
      {| st_link := false; st_regular := true; st_directory := false; st_ino := Some ino;
         st_size := str_length (in_content i); st_mtime := in_mtime i; st_ctime := in_ctime i |}
  | Dir => {| st_link := false; st_regular := false; st_directory := true; st_ino := None; st_size := 0; st_mtime := 0; st_ctime := 0 |}
  | Link _ => {| st_link := true; st_regular := false; st_directory := false; st_ino := None; st_size := 0; st_mtime := 0; st_ctime := 0 |}
  | Special => {| st_link := false; st_regular := false; st_directory := false; st_ino := None; st_size := 0; st_mtime := 0; st_ctime := 0 |}
  end.

Section calls.
Context (others : nat -> Fs -> Fs).

(** A call, on what the other processes left *)
Definition call {A} (f : nat -> Fs -> Result Exc A * Fs) : M Exc Disk A := fun d =>
  let '(r, fs) := f (calls d) (others (calls d) (disk d)) in (r, {| disk := fs; calls := S (calls d) |}).

(** A call that changes nothing *)
Definition query {A} (f : Fs -> Result Exc A) : M Exc Disk A := call (fun _ fs => (f fs, fs)).

Definition lstat (p : path) : M Exc Disk Stat :=
  query (fun fs => match find_entry (entries fs) p with Ok (_, e) => Ok (stat_of fs e) | Err e => Err e end).

(** [Path.exists], [Path.is_symlink]: errors are answers. *)
Definition exists_ (p : path) : M Exc Disk bool := query (fun fs => Ok (is_ok (find_target (entries fs) p))).
Definition is_symlink (p : path) : M Exc Disk bool :=
  query (fun fs => Ok (match find_entry (entries fs) p with Ok (_, Link _) => true | _ => false end)).

(** [Path.resolve(strict=False)] *)
Definition resolve (p : path) : M Exc Disk path := query (fun fs => realpath (entries fs) p).

(** An open file: what it was when it was opened *)
Notation Descriptor := Entry.

(** [os.open] for reading with O_NOFOLLOW *)
Definition open_nofollow (p : path) : M Exc Disk Descriptor :=
  query (fun fs => match find_entry (entries fs) p with
                   | Ok (_, Link _) => Err LoopError
                   | Ok (_, e) => Ok e
                   | Err e => Err e
                   end).

Definition fstat (fd : Descriptor) : M Exc Disk Stat := query (fun fs => Ok (stat_of fs fd)).

(** The first [n] characters *)
Definition take_z {A} (n : Z) (l : list A) : list A :=
  if Z.of_nat (length l) <=? n then l else take (Z.to_nat n) l.

(** [handle.read(n)] at an offset *)
Definition read_at (fd : Descriptor) (offset n : Z) : M Exc Disk string :=
  query (fun fs => match fd with
                   | File ino =>
                       Ok (of_chars (take_z n (drop (Z.to_nat offset)
                                                 (to_chars (in_content (default no_inode (inodes fs !! ino)))))))
                   | Dir => Err (OSError "IsADirectoryError")
                   | _ => Err (OSError "OSError")
                   end).

(** [Path.mkdir()] *)
Definition mkdir (p : path) : M Exc Disk unit :=
  call (fun _ fs =>
    match find_entry (entries fs) p with
    | Ok _ => (Err FileExistsError, fs)
    | Err _ =>
        match find_parent (entries fs) p with
        | Ok q => (Ok tt, fs <| entries := <[q ++ [name_of p] := Dir]> (entries fs) |>)
        | Err e => (Err e, fs)
        end
    end).

(** [Path.is_dir] *)
Definition is_dir (p : path) : M Exc Disk bool :=
  query (fun fs => Ok (match find_target (entries fs) p with Ok (_, Dir) => true | _ => false end)).

(** What [mkdir(exist_ok=True)] makes of an [OSError] *)
Definition excuse_directory (p : path) (e : Exc) : M Exc Disk unit :=
  there ← is_dir p; if there : bool then mret tt else raise e.

(** [Path.mkdir(exist_ok=True)] *)
Definition mkdir_exist_ok (p : path) : M Exc Disk unit :=
  handle (mkdir p) (fun e => if is_os_error e && negb (is_file_not_found e) then Some (excuse_directory p e) else None).

(** [Path.mkdir(parents=True, exist_ok=True)]; the number of components is enough fuel. *)
Fixpoint mkdir_parents (fuel : nat) (p : path) : M Exc Disk unit :=
  handle (mkdir p) (fun e =>
    if is_file_not_found e then
      match fuel with
      | S fuel' => Some (mkdir_parents fuel' (parent p);; mkdir_exist_ok p)
      | O => None
      end
    else if is_os_error e then Some (excuse_directory p e) else None).

Definition fresh_ino (fs : Fs) : Z := fresh_id (inodes fs).

(** Creation that refuses an existing entry, a link included: O_CREAT | O_EXCL *)
Definition create_exclusive (p : path) : M Exc Disk Descriptor :=
  call (fun n fs =>
    match find_entry (entries fs) p with
    | Ok _ => (Err FileExistsError, fs)
    | Err _ =>
        match find_parent (entries fs) p with
        | Ok q =>
            let ino := fresh_ino fs in
            (Ok (File ino),
             {| entries := <[q ++ [name_of p] := File ino]> (entries fs);
                inodes := <[ino := {| in_content := ""; in_mtime := Z.of_nat n; in_ctime := Z.of_nat n |}]> (inodes fs) |})
        | Err e => (Err e, fs)
        end
    end).

(** Appending to an open file *)
Definition append (fd : Descriptor) (data : string) : M Exc Disk unit :=
  call (fun n fs =>
    match fd with
    | File ino =>
        let i := default no_inode (inodes fs !! ino) in
        (Ok tt, fs <| inodes := <[ino := {| in_content := in_content i +:+ data; in_mtime := Z.of_nat n; in_ctime := Z.of_nat n |}]> (inodes fs) |>)
    | _ => (Err (OSError "OSError"), fs)
    end).

(** [Path.write_text]: the file is emptied or created, links followed. *)
Definition write_text (p : path) (data : string) : M Exc Disk unit :=
  call (fun n fs =>
    let content := {| in_content := data; in_mtime := Z.of_nat n; in_ctime := Z.of_nat n |} in
    match walk (entries fs) MAXSYMLINKS [] p with
    | None => (Err LoopError, fs)
    | Some (reached, []) =>
        match entry_at (entries fs) reached with
        | Some (File ino) => (Ok tt, fs <| inodes := <[ino := content]> (inodes fs) |>)
        | Some Special => (Ok tt, fs)
        | _ => (Err (OSError "IsADirectoryError"), fs)
        end
    | Some (reached, [c]) =>
        match entry_at (entries fs) reached with
        | Some Dir =>
            let ino := fresh_ino fs in
            (Ok tt, {| entries := <[reached ++ [c] := File ino]> (entries fs); inodes := <[ino := content]> (inodes fs) |})
        | _ => (Err NotADirectoryError, fs)
        end
    | Some (reached, _) =>
        (Err match entry_at (entries fs) reached with Some Dir => FileNotFoundError | _ => NotADirectoryError end, fs)
    end).

(** The names in a directory, sorted *)
Definition child_of (p q : path) : bool := bool_decide (q <> [] /\ parent q = p).
Definition children (fs : Fs) (p : path) : list string :=
  sort_strings (map name_of (filter (fun q => child_of p q = true) (map fst (map_to_list (entries fs))))).

Definition iterdir (p : path) : M Exc Disk (list string) :=
  query (fun fs => match find_target (entries fs) p with
                   | Ok (q, Dir) => Ok (children fs q)
                   | Ok _ => Err NotADirectoryError
                   | Err e => Err e
                   end).

(** Everything below a directory *)
Definition below (p q : path) : bool := bool_decide (p `prefix_of` q).

(** [shutil.rmtree] of a directory: a link is refused. *)
Definition rmtree (p : path) : M Exc Disk unit :=
  call (fun _ fs =>
    match find_entry (entries fs) p with
    | Ok (q, Dir) => (Ok tt, fs <| entries := filter (fun kv => below q kv.1 = false) (entries fs) |>)
    | Ok (_, Link _) => (Err (OSError "OSError"), fs)
    | Ok _ => (Err NotADirectoryError, fs)
    | Err e => (Err e, fs)
    end).
End calls.
