(* ===== verification/EvidenceStore.v ===== *)
(** * The evidence store of the worker

    [client/python/execution_worker/evidence.py]: the marked directory of a run, artifacts that
    are captured and hashed within limits, the local result record, the verification of
    evidence that a later run wants to reuse, and the removal of expired directories.

    The file system is that of [Files], on which other processes may act between any two calls.
    Paths are absolute, as [_absolute] leaves them.  Files are text ([decode] of what is read
    does not fail), and closing a file does nothing. *)

From S2P Require Import Prelude Text Json Evidence JsonCodec Documents Registry Checks Parsers WorkerContracts Models Iso8601 WorkerModels WorkerPolicy Files.
#[local] Open Scope Z_scope.

Definition MARKER_NAME : string := "ownership.json".
Definition MARKER_SCHEMA_VERSION : Z := 1.
Definition HASH_CHUNK_BYTES : Z := 1024 * 1024.
Definition MAX_RETENTION_DAYS : Z := 3650.
Definition MAX_DECLARED_INPUT_BYTES : Z := 2 * 1024 * 1024.
Definition MAX_MARKER_BYTES : Z := 4096.

(** [PruneResult], [ReuseVerificationResult] *)
Record PruneResult := { removed_run_ids : list Z; failures : list string }.
Notation ReuseVerificationResult := (bool * string)%type.

(** [EvidenceStore] *)
Record EvidenceStore := {
  es_root : path;
  es_run_directory : path;
  es_worker_id : string;
  es_run_id : Z;
  es_created_at : Z;
  es_retention_expires_at : Z;
  es_limits : EvidenceLimits;
}.

Definition marker (s : EvidenceStore) : path := es_run_directory s ++ [MARKER_NAME].
Definition logs_directory (s : EvidenceStore) : path := es_run_directory s ++ ["logs"].
Definition artifacts_directory (s : EvidenceStore) : path := es_run_directory s ++ ["artifacts"].
Definition result_path (s : EvidenceStore) : path := es_run_directory s ++ ["result.json"].

(** [EvidenceStore.expected_marker] *)
Definition expected_marker (s : EvidenceStore) : Json :=
  JObj [("created_at", JStr (isoformat_z (es_created_at s)));
        ("retention_expires_at", JStr (isoformat_z (es_retention_expires_at s)));
        ("run_id", JInt (es_run_id s)); ("schema_version", JInt MARKER_SCHEMA_VERSION);
        ("worker_id", JStr (es_worker_id s))].

(** [f"run-{run_id}"] *)
Definition run_name (run_id : Z) : string := "run-" +:+ str_of_int run_id.

(** [json.JSONDecodeError], a [ValueError] *)
Definition JSONError : Exc := OtherError "JSONDecodeError" true false "".

Section store.
Context (others : nat -> Fs -> Fs).

#[local] Notation lstat := (lstat others).
#[local] Notation fstat := (fstat others).
#[local] Notation read_at := (read_at others).

(** ** Checked paths *)

(** [_contains] *)
Definition contains (child root : path) : M Exc Disk bool :=
  c ← resolve others child;
  r ← resolve others root;
  mret (bool_decide (r `prefix_of` c)).

(** [_overlaps] *)
Definition overlaps (first second : path) : M Exc Disk bool :=
  if bool_decide (first = second) then mret true
  else
    inside ← contains first second;
    if inside : bool then mret true else contains second first.

(** The path and its ancestors, the outermost first *)
Definition ancestry (p : path) : list path := map (fun n => take n p) (seq 1 (length p)).

(** One turn of the loop of [_assert_no_reparse_ancestry] *)
Definition assert_not_reparse (p : path) : M Exc Disk unit :=
  there ← exists_ others p;
  there ← (if there : bool then mret true else is_symlink others p);
  if there : bool then
    s ← lstat p;
    ensure (negb (st_link s)) (ValueError "unsafe symlink or reparse-point path")
  else mret tt.

(** [_assert_no_reparse_ancestry] *)
Definition assert_no_reparse_ancestry (p : path) : M Exc Disk unit :=
  for_each (fun _ q => assert_not_reparse q) tt (ancestry p).

(** [_assert_regular_contained] *)
Definition assert_regular_contained (p root : path) : M Exc Disk Stat :=
  assert_no_reparse_ancestry p;;
  inside ← contains p root;
  ensure inside (ValueError "evidence artifact escaped its owned run directory");;
  s ← lstat p;
  ensure (negb (st_link s) && st_regular s) (ValueError "evidence artifact must be a regular non-reparse file");;
  mret s.

(** [_safe_path] *)
Definition safe_path (root : path) (relative_path : string) : M Exc Disk path :=
  match validate_relative_path relative_path with
  | Err message => raise (ValueError message)
  | Ok normalized =>
      let p := root ++ posix_parts normalized in
      inside ← contains p root;
      ensure inside (ValueError "evidence path escaped its owned run directory");;
      mret p
  end.

(** [_same_file_identity], on POSIX *)
Definition same_file_identity (a b : Stat) : bool :=
  bool_decide (st_ino a = st_ino b) && (st_size a =? st_size b) && (st_mtime a =? st_mtime b) && (st_ctime a =? st_ctime b).

(** [except OSError as error: raise ... from error] *)
Definition convert_os_error {A} (m : M Exc Disk A) (e : Exc) : M Exc Disk A :=
  handle m (fun error => if is_os_error error then Some (raise e) else None).

(** [_read_bounded_regular_text] *)
Definition read_bounded_regular_text (p : path) : M Exc Disk string :=
  before ← lstat p;
  ensure (negb (st_link before) && st_regular before) (ValueError "evidence ownership marker is not a regular file");;
  ensure (st_size before <=? MAX_MARKER_BYTES) (ValueError "evidence ownership marker exceeds its byte limit");;
  fd ← convert_os_error (open_nofollow others p) (ValueError "evidence ownership marker is unreadable");
  opened ← fstat fd;
  ensure (st_regular opened && same_file_identity before opened)
    (ValueError "evidence ownership marker changed while being opened");;
  data ← read_at fd 0 (MAX_MARKER_BYTES + 1);
  ensure (str_length data <=? MAX_MARKER_BYTES) (ValueError "evidence ownership marker exceeds its byte limit");;
  after ← fstat fd;
  ensure (same_file_identity before after) (ValueError "evidence ownership marker changed while being read");;
  after_path ← lstat p;
  ensure (negb (st_link after_path) && same_file_identity before after_path)
    (ValueError "evidence ownership marker changed while being read");;
  mret data.

(** [_open_regular_contained] *)
Definition open_regular_contained (p root : path) : M Exc Disk (Entry * Stat) :=
  before ← assert_regular_contained p root;
  fd ← convert_os_error (open_nofollow others p) (ValueError "evidence artifact could not be opened safely");
  opened ← fstat fd;
  ensure (st_regular opened && same_file_identity before opened) (ValueError "evidence artifact changed while being opened");;
  mret (fd, before).

(** The loop of [_sha256_descriptor]; every turn reads something, so the limit is enough fuel. *)
Fixpoint read_chunks (fuel : nat) (fd : Entry) (maximum_bytes : Z) (data : string) : M Exc Disk string :=
  match fuel with
  | O => raise (RuntimeError "")
  | S fuel' =>
      chunk ← read_at fd (str_length data) HASH_CHUNK_BYTES;
      if bool_decide (chunk = "") then mret data
      else if maximum_bytes <? str_length data + str_length chunk
      then raise (ValueError "declared file exceeds its byte limit")
      else read_chunks fuel' fd maximum_bytes (data +:+ chunk)
  end.

Definition read_fuel (maximum_bytes : Z) : nat := Z.to_nat (maximum_bytes + 2).

(** [_sha256_descriptor]: the digest of what was read *)
Definition sha256_descriptor (fd : Entry) (maximum_bytes : Z) : M Exc Disk string :=
  data ← read_chunks (read_fuel maximum_bytes) fd maximum_bytes "";
  mret (sha256_hex data).

(** [hash_declared_file] *)
Definition hash_declared_file (root : path) (relative_path : string) (maximum_bytes : Z) : M Exc Disk (Z * string) :=
  assert_no_reparse_ancestry root;;
  p ← safe_path root relative_path;
  '(fd, before) ← open_regular_contained p root;
  ensure (st_size before <=? maximum_bytes) (ValueError "declared file exceeds its byte limit");;
  digest ← sha256_descriptor fd maximum_bytes;
  after ← assert_regular_contained p root;
  ensure (same_file_identity before after) (RuntimeError "declared file changed while being hashed");;
  mret (st_size after, digest).

(** ** The store *)

Section operations.
Context (s : EvidenceStore).

(** [EvidenceStore.verify_ownership] *)
Definition verify_ownership : M Exc Disk unit :=
  (if bool_decide (es_run_directory s = es_root s) then raise (RuntimeError "refusing ambiguous evidence directory")
   else
     inside ← contains (es_run_directory s) (es_root s);
     ensure inside (RuntimeError "refusing ambiguous evidence directory"));;
  assert_no_reparse_ancestry (es_run_directory s);;
  found ← handle
    (text ← read_bounded_regular_text (marker s); require (loads text) JSONError)
    (fun e => if is_file_not_found e then None
              else if is_os_error e || is_value_error e
              then Some (raise (RuntimeError "evidence ownership marker is unreadable")) else None);
  ensure (py_equal found (expected_marker s)) (RuntimeError "evidence ownership marker does not match this run").

(** One artifact of [finalize_artifacts], after the total so far *)
Definition finalize_artifact (total : Z) (step_id : string) (a : TrustedArtifact) : M Exc Disk (Z * ArtifactRecord) :=
  p ← safe_path (es_run_directory s) (ta_relative_path a);
  '(fd, before) ← open_regular_contained p (es_run_directory s);
  let size := st_size before in
  ensure (size <=? el_maximum_artifact_bytes (es_limits s)) (ValueError "maximum bytes per artifact exceeded");;
  ensure (total + size <=? el_maximum_total_bytes (es_limits s)) (ValueError "maximum total evidence bytes exceeded");;
  digest ← sha256_descriptor fd (el_maximum_artifact_bytes (es_limits s));
  after ← assert_regular_contained p (es_run_directory s);
  ensure (same_file_identity before after) (RuntimeError "artifact changed while being hashed");;
  record ← lift_result (validated_model (artifact_json isoformat_z) (valid_artifact_document isoformat_z)
    {| art_kind := ta_kind a; art_relative_path := ta_relative_path a; art_size_bytes := size; art_sha256 := digest;
       art_media_type := ta_media_type a; art_retention_expires_at := es_retention_expires_at s;
       art_redaction_state := ta_redaction_state a; art_produced_by_step := Some step_id |});
  mret (total + size, record).

(** [EvidenceStore.finalize_artifacts] *)
Definition finalize_artifacts (declarations : list (string * TrustedArtifact)) : M Exc Disk (list ArtifactRecord) :=
  verify_ownership;;
  ensure (Z.of_nat (length declarations) <=? el_maximum_artifact_count (es_limits s)) (ValueError "maximum artifact count exceeded");;
  ensure (bool_decide (NoDup (map (fun d => ta_relative_path d.2) declarations))) (ValueError "duplicate trusted artifact path");;
  '(_, records) ← for_each (fun '(total, records) '(step_id, a) =>
      '(total, record) ← finalize_artifact total step_id a; mret (total, records ++ [record])) (0, []) declarations;
  mret records.

(** The loop that copies: what is read goes to the new file, chunk by chunk. *)
Fixpoint copy_chunks (fuel : nat) (fd output : Entry) (copied : Z) : M Exc Disk unit :=
  match fuel with
  | O => raise (RuntimeError "")
  | S fuel' =>
      chunk ← read_at fd copied HASH_CHUNK_BYTES;
      if bool_decide (chunk = "") then mret tt
      else if el_maximum_artifact_bytes (es_limits s) <? copied + str_length chunk
      then raise (ValueError "maximum bytes per artifact exceeded")
      else append others output chunk;; copy_chunks fuel' fd output (copied + str_length chunk)
  end.

(** [EvidenceStore.capture_declared_artifact] *)
Definition capture_declared_artifact (source_root : path) (a : TrustedArtifact) : M Exc Disk unit :=
  verify_ownership;;
  destination ← safe_path (es_run_directory s) (ta_relative_path a);
  there ← exists_ others destination;
  if there : bool then assert_regular_contained destination (es_run_directory s);; mret tt
  else
    assert_no_reparse_ancestry source_root;;
    source ← safe_path source_root (ta_relative_path a);
    there ← exists_ others source;
    ensure there (ValueError "declared checkout artifact does not exist");;
    '(fd, before) ← open_regular_contained source source_root;
    ensure (st_size before <=? el_maximum_artifact_bytes (es_limits s)) (ValueError "maximum bytes per artifact exceeded");;
    mkdir_parents others (length (parent destination)) (parent destination);;
    assert_no_reparse_ancestry (parent destination);;
    output ← handle (output ← create_exclusive others destination; mret (Some output))
      (fun e => if is_file_exists e
                then Some (assert_regular_contained destination (es_run_directory s);; mret None) else None);
    match output with
    | None => mret tt
    | Some output =>
        copy_chunks (read_fuel (el_maximum_artifact_bytes (es_limits s))) fd output 0;;
        after ← assert_regular_contained source source_root;
        ensure (same_file_identity before after) (RuntimeError "declared checkout artifact changed while copied");;
        assert_regular_contained destination (es_run_directory s);; mret tt
    end.

(** [EvidenceStore.write_result] *)
Definition write_result (payload : Json) : M Exc Disk unit :=
  verify_ownership;;
  let encoded := dumps true payload in
  ensure (str_length encoded <=? el_maximum_artifact_bytes (es_limits s))
    (ValueError "local result record exceeds per-artifact limit");;
  assert_no_reparse_ancestry (es_run_directory s);;
  fd ← convert_os_error (create_exclusive others (result_path s))
         (RuntimeError "local result record could not be created safely");
  opened ← fstat fd;
  ensure (st_regular opened) (RuntimeError "local result record is not a regular file");;
  append others fd encoded;;
  assert_regular_contained (result_path s) (es_run_directory s);; mret tt.
End operations.

(** [create_evidence_store] *)
Definition create_evidence_store (evidence_root worker_root : path) (repository_roots : list path) (worker_id : string)
    (run_id created_at retention_days : Z) (limits : EvidenceLimits) : M Exc Disk EvidenceStore :=
  ensure (negb (bool_decide (worker_id = "")) && (1 <=? run_id) && (1 <=? retention_days) && (retention_days <=? MAX_RETENTION_DAYS))
    (ValueError "invalid evidence ownership or retention policy");;
  ensure ((1 <=? el_maximum_artifact_count limits) && (1 <=? el_maximum_artifact_bytes limits)
          && (el_maximum_artifact_bytes limits <=? el_maximum_total_bytes limits))
    (ValueError "invalid evidence artifact limits");;
  assert_no_reparse_ancestry evidence_root;;
  overlap ← for_each (fun overlap root => if overlap : bool then mret true else overlaps evidence_root root)
              false (worker_root :: repository_roots);
  ensure (negb overlap) (ValueError "evidence root must not overlap source or repository roots");;
  mkdir_parents others (length evidence_root) evidence_root;;
  assert_no_reparse_ancestry evidence_root;;
  let run_directory := evidence_root ++ [run_name run_id] in
  there ← exists_ others run_directory;
  there ← (if there : bool then mret true else is_symlink others run_directory);
  ensure (negb there) FileExistsError;;
  mkdir others run_directory;;
  mkdir others (run_directory ++ ["logs"]);;
  mkdir others (run_directory ++ ["artifacts"]);;
  let s := {| es_root := evidence_root; es_run_directory := run_directory; es_worker_id := worker_id; es_run_id := run_id;
              es_created_at := created_at; es_retention_expires_at := created_at + retention_days * DAY; es_limits := limits |} in
  write_text others (marker s) (dumps true (expected_marker s));;
  verify_ownership s;;
  mret s.

(** ** Reuse *)

(** [_read_stable_json] *)
Definition read_stable_json (p root : path) (maximum_bytes : Z) : M Exc Disk Json :=
  '(fd, before) ← open_regular_contained p root;
  ensure (st_size before <=? maximum_bytes) (ValueError "local JSON record exceeds configured bound");;
  data ← read_at fd 0 (maximum_bytes + 1);
  ensure (str_length data <=? maximum_bytes) (ValueError "local JSON record exceeds configured bound");;
  after ← assert_regular_contained p root;
  ensure (same_file_identity before after) (RuntimeError "local JSON record changed while being read");;
  require (loads data) JSONError.

(** The models that read the record: [ExecutionEvidence.model_validate] and
    [EvidenceReuseIdentity.model_validate], which refuse with [None]. *)
Context (decode_evidence : Json -> option ExecutionEvidence) (decode_identity : Json -> option EvidenceReuseIdentity).

Section verify.
Context (worker_id : string) (candidate : ReuseCandidate).

(** The conditions on the record *)
Definition record_matches (evidence : ExecutionEvidence) (identity : EvidenceReuseIdentity) (identity_hash : Json) : bool :=
  match identity_hash, ev_reuse_provenance evidence with
  | JStr hash, Some provenance =>
      bool_decide (identity = cand_reuse_identity candidate) && bool_decide (hash = cand_reuse_identity_hash candidate)
      && bool_decide (hash = compute_reuse_identity_hash identity)
      && (ev_run_id evidence =? cand_source_run_id candidate) && bool_decide (ev_worker_id evidence = worker_id)
      && bool_decide (ev_terminal_status evidence = "succeeded")
      && bool_decide (ev_fingerprint evidence = cand_expected_source_evidence_fingerprint candidate)
      && bool_decide (ev_repository_full_name evidence = id_repository_full_name identity)
      && bool_decide (ev_tested_sha evidence = id_tested_sha identity)
      && bool_decide (ev_manifest_name evidence = id_manifest_name identity)
      && bool_decide (ev_manifest_version evidence = id_manifest_version identity)
      && bool_decide (ev_manifest_digest evidence = id_manifest_digest identity)
      && bool_decide (env_fingerprint (ev_environment evidence) = id_worker_environment_fingerprint identity)
      && bool_decide (ev_dependency_lock_hashes evidence = id_dependency_lock_hashes identity)
      && bool_decide (ev_artifacts evidence = cand_artifacts candidate)
      && bool_decide (prov_decision provenance = "fresh") && bool_decide (prov_reuse_identity_hash provenance = hash)
  | _, _ => false
  end.

Definition RECORD_FIELDS : list string := ["evidence"; "result_summary"; "reuse_identity"; "reuse_identity_hash"].

(** The block that reads the record: the reason to refuse, if there is one *)
Definition verify_record (s : EvidenceStore) (limits : EvidenceLimits) : M Exc Disk (option string) :=
  handle
    (payload ← read_stable_json (result_path s) (es_run_directory s) (el_maximum_artifact_bytes limits);
     match payload with
     | JObj fields =>
         if negb (has_exactly fields RECORD_FIELDS) then mret (Some "source_result_invalid")
         else
           evidence ← require (decode_evidence (member "evidence" fields)) ValidationError;
           identity ← require (decode_identity (member "reuse_identity" fields)) ValidationError;
           mret (if record_matches evidence identity (member "reuse_identity_hash" fields)
                 then None else Some "source_result_identity_mismatch")
     | _ => mret (Some "source_result_invalid")
     end)
    (fun e => if is_file_not_found e then Some (mret (Some "source_evidence_missing"))
              else if is_os_error e || is_value_error e then Some (mret (Some "source_result_invalid"))
              else if is_runtime_error e then Some (mret (Some "source_result_unstable")) else None).

(** One artifact, after the total so far: the reason to refuse it, or the new total *)
Definition verify_artifact (s : EvidenceStore) (limits : EvidenceLimits) (total : Z) (record : ArtifactRecord)
    : M Exc Disk (string + Z) :=
  if negb (art_retention_expires_at record =? cand_retention_expires_at candidate) then mret (inl "source_retention_mismatch")
  else
    p ← safe_path (es_run_directory s) (art_relative_path record);
    '(fd, before) ← open_regular_contained p (es_run_directory s);
    if negb (st_size before =? art_size_bytes record) then mret (inl "source_artifact_size_mismatch")
    else if el_maximum_artifact_bytes limits <? st_size before then mret (inl "source_artifact_oversized")
    else if el_maximum_total_bytes limits <? total + st_size before then mret (inl "source_artifacts_oversized")
    else
      digest ← sha256_descriptor fd (el_maximum_artifact_bytes limits);
      after ← assert_regular_contained p (es_run_directory s);
      if negb (same_file_identity before after) then mret (inl "source_artifact_unstable")
      else if negb (bool_decide (digest = art_sha256 record)) then mret (inl "source_artifact_hash_mismatch")
      else mret (inr (total + st_size before)).

Fixpoint verify_artifacts (s : EvidenceStore) (limits : EvidenceLimits) (total : Z) (records : list ArtifactRecord)
    : M Exc Disk (option string) :=
  match records with
  | [] => mret None
  | record :: rest =>
      answer ← verify_artifact s limits total record;
      match answer with inl reason => mret (Some reason) | inr total => verify_artifacts s limits total rest end
  end.

(** The store that the candidate names *)
Definition candidate_store (evidence_root : path) (limits : EvidenceLimits) : EvidenceStore :=
  {| es_root := evidence_root; es_run_directory := evidence_root ++ [run_name (cand_source_run_id candidate)];
     es_worker_id := worker_id; es_run_id := cand_source_run_id candidate;
     es_created_at := cand_source_created_at candidate;
     es_retention_expires_at := cand_retention_expires_at candidate; es_limits := limits |}.

(** [verify_reuse_candidate] *)
Definition verify_reuse_candidate (evidence_root : path) (now : Z) (limits : EvidenceLimits)
    : M Exc Disk ReuseVerificationResult :=
  let refuse (reason : string) := mret (false, reason) in
  if negb (bool_decide (cand_expected_source_worker_id candidate = worker_id)) then refuse "source_worker_mismatch"
  else if cand_retention_expires_at candidate <=? now then refuse "source_evidence_expired"
  else if el_maximum_artifact_count limits <? Z.of_nat (length (cand_artifacts candidate))
  then refuse "source_artifact_count_oversized"
  else
    let s := candidate_store evidence_root limits in
    owned ← handle (assert_no_reparse_ancestry evidence_root;; verify_ownership s;; mret None)
      (fun e => if is_file_not_found e then Some (mret (Some "source_evidence_missing"))
                else if is_os_error e || is_value_error e || is_runtime_error e
                then Some (mret (Some "source_marker_invalid")) else None);
    match owned with
    | Some reason => refuse reason
    | None =>
        recorded ← verify_record s limits;
        match recorded with
        | Some reason => refuse reason
        | None =>
            unsafe ← handle
              (refused ← verify_artifacts s limits 0 (cand_artifacts candidate);
               match refused with
               | Some reason => mret (Some reason)
               | None => verify_ownership s;; mret None
               end)
              (fun e => if is_file_not_found e then Some (mret (Some "source_evidence_pruned"))
                        else if is_os_error e || is_value_error e || is_runtime_error e
                        then Some (mret (Some "source_artifact_unsafe")) else None);
            match unsafe with
            | Some reason => refuse reason
            | None => mret (true, "exact_evidence_verified")
            end
        end
    end.
End verify.

(** ** Retention *)

(** [_assert_tree_has_no_reparse]: the directory and everything below it, links not followed *)
Definition tree_paths (fs : Fs) (p : path) : list path := filter (fun q => below p q = true) (map fst (map_to_list (entries fs))).

Definition assert_tree_has_no_reparse (p : path) : M Exc Disk unit :=
  listed ← query others (fun fs => match find_entry (entries fs) p with
                                   | Ok (q, _) => Ok (q :: tree_paths fs q)
                                   | Err e => Err e
                                   end);
  for_each (fun _ q => found ← lstat q;
                       ensure (negb (st_link found)) (RuntimeError "refusing to prune evidence containing a reparse point"))
    tt listed.

Definition MARKER_FIELDS : list string := ["created_at"; "retention_expires_at"; "run_id"; "schema_version"; "worker_id"].

(** [str(value)] of a decoded value; that of a list or an object does not read as a date. *)
Definition expiry_text (value : Json) : string :=
  match value with
  | JStr s => s
  | JInt z => str_of_int z
  | JFloat r => r
  | JBool b => if b then "True" else "False"
  | JNull => "None"
  | JList _ => "[]"
  | JObj _ => "{}"
  end.

(** [fromisoformat(text.replace("Z", "+00:00"))] *)
Definition read_expiry (text : string) : option PyDatetime :=
  fromisoformat (of_chars (to_chars text ≫= fun c => if ord c =? 90 then to_chars "+00:00" else [c])).

(** One directory: the run whose evidence was removed, if it was *)
Definition prune_candidate (root : path) (worker_id : string) (now : Z) (name : string) : M Exc Disk (option Z) :=
  let p := root ++ [name] in
  metadata ← lstat p;
  ensure (negb (st_link metadata) && st_directory metadata) (RuntimeError "candidate is not a regular directory");;
  inside ← contains p root;
  ensure inside (RuntimeError "candidate is not a contained direct descendant");;
  text ← read_bounded_regular_text (p ++ [MARKER_NAME]);
  found ← require (loads text) JSONError;
  match found with
  | JObj fields =>
      ensure (has_exactly fields MARKER_FIELDS) (RuntimeError "candidate marker shape is invalid");;
      match member "run_id" fields with
      | JInt run_id =>
          ensure (py_equal (member "schema_version" fields) (JInt MARKER_SCHEMA_VERSION)
                  && py_equal (member "worker_id" fields) (JStr worker_id) && (1 <=? run_id)
                  && bool_decide (name = run_name run_id)) (RuntimeError "candidate marker ownership is invalid");;
          expires ← require (read_expiry (expiry_text (member "retention_expires_at" fields)))
                      (ValueError "Invalid isoformat string");
          match expires with
          | Naive _ => mret None
          | Aware instant _ =>
              if now <? instant then mret None
              else
                assert_tree_has_no_reparse p;;
                rmtree others p;;
                mret (Some run_id)
          end
      | _ => raise (RuntimeError "candidate marker ownership is invalid")
      end
  | _ => raise (RuntimeError "candidate marker shape is invalid")
  end.

(** [prune_expired_evidence] *)
Definition prune_expired_evidence (root : path) (worker_id : string) (now : Z) : M Exc Disk PruneResult :=
  there ← exists_ others root;
  if negb there then mret {| removed_run_ids := []; failures := [] |}
  else
    assert_no_reparse_ancestry root;;
    names ← iterdir others root;
    for_each (fun result name =>
        handle (removed ← prune_candidate root worker_id now name;
                mret (match removed with
                      | Some run_id => {| removed_run_ids := removed_run_ids result ++ [run_id]; failures := failures result |}
                      | None => result
                      end))
          (fun e => if is_os_error e || is_value_error e || is_runtime_error e || bool_decide (exc_name e = "TypeError")
                    then Some (mret {| removed_run_ids := removed_run_ids result;
                                       failures := failures result ++ [name +:+ ":" +:+ exc_name e] |})
                    else None))
      {| removed_run_ids := []; failures := [] |} names.
End store.
