(* ===== verification/LocalWorker.v ===== *)
(** * The worker

    [client/python/execution_worker/worker.py]: the run monitor and [LocalWorker], with the whole
    of [poll_once].  The client, the manifest checks, the evidence and the summary are the
    definitions of [WorkerClient], [WorkerModels] and [WorkerPolicy].

    The state of the process is [World]: the flags and sets of the worker object, the
    cancellation tokens and monitor threads created so far, and a log of what was done
    outside the process.  What the outside answers (the network, the clocks, the host, the
    step runner, the worktree and the evidence store) is the record [Host], a function of
    the number of answers so far: a theorem for every host is a theorem for every sequence
    of answers.  Between any two actions of the polling thread the host may deliver a
    shutdown request or let a monitor thread run a tick; a tick is not interleaved with
    the polling thread.  The local variables of [poll_once], which its [finally] clause
    reads after an exception, are the record [Locals] in the state. *)

From S2P Require Import Prelude Text Json Enums Evidence Floats JsonCodec Documents Registry Checks Parsers WorkerContracts Iso8601 WorkerModels WorkerClient WorkerConfig WorkerPolicy.
From Stdlib Require Import QArith.
#[local] Open Scope Z_scope.

Definition SERVER_TERMINAL_STATUSES : list string := ["succeeded"; "failed"; "timed_out"; "cancelled"].

(** ** The state of the process *)

(** [CancellationToken]: the reason it was cancelled for *)
Notation Token := (option string).

(** A monitor whose thread was started *)
Record Monitor := {
  mon_run_id : Z;
  mon_deadline : Seconds;
  mon_token : nat;
  mon_stopped : bool;
  mon_alive : bool;
}.

(** What was done outside, with the answer *)
Inductive Event :=
| Sent (r : HttpRequest) (answer : Result Exc HttpResponse)
| Pruned (answer : Result Exc (list string))
| CreatedStore (run_id : Z) (answer : Result Exc unit)
| CreatedWorktree (run_id : Z) (path sha : string) (answer : Result Exc unit)
| VerifiedCheckout (answer : Result Exc unit)
| HashedFile (path : string) (answer : Result Exc (Z * string))
| VerifiedCandidate (c : ReuseCandidate) (now : Z) (answer : Result Exc (bool * string))
| RanStep (step : TrustedStep) (answer : Result Exc StepResult)
| CapturedArtifact (a : TrustedArtifact) (answer : Result Exc unit)
| FinalizedArtifacts (declarations : list (string * TrustedArtifact)) (answer : Result Exc (list ArtifactRecord))
| CleanedUp (answer : Result Exc unit)
| WroteResult (payload : Json) (answer : Result Exc unit).

Record World := {
  turn : nat;
  rejected : bool;
  shutdown : bool;
  executed_run_ids : gset Z;
  active_run_id : option Z;
  active_token : option nat;
  tokens : list Token;
  monitors : list Monitor;
  log : list Event;
}.

#[export] Instance Monitor_rebuild : Rebuild Monitor := fun m =>
  {| mon_run_id := mon_run_id m; mon_deadline := mon_deadline m; mon_token := mon_token m;
     mon_stopped := mon_stopped m; mon_alive := mon_alive m |}.

#[export] Instance World_rebuild : Rebuild World := fun w =>
  {| turn := turn w; rejected := rejected w; shutdown := shutdown w; executed_run_ids := executed_run_ids w;
     active_run_id := active_run_id w; active_token := active_token w; tokens := tokens w;
     monitors := monitors w; log := log w |}.

(** A worker object that was just constructed *)
Definition new_worker : World :=
  {| turn := 0%nat; rejected := false; shutdown := false; executed_run_ids := ∅; active_run_id := None;
     active_token := None; tokens := []; monitors := []; log := [] |}.

(** What may happen beside the polling thread: a signal or stop file makes the process call
    [request_shutdown], or the thread of a monitor runs a tick. *)
Inductive Interference := ShutdownRequested | MonitorTick (i : nat).

Record Host := {
  h_http : nat -> HttpRequest -> Result Exc HttpResponse;
  h_interference : nat -> list Interference;
  h_monotonic : nat -> Q;
  h_now : nat -> Z;
  h_platform : nat -> Platform;
  h_package_version : nat -> string -> option string;
  h_prune : nat -> Result Exc (list string);
  h_create_store : nat -> Result Exc unit;
  h_create_worktree : nat -> Result Exc unit;
  h_verify_checkout : nat -> Result Exc unit;
  h_hash_file : nat -> string -> Result Exc (Z * string);
  h_verify_candidate : nat -> ReuseCandidate -> Result Exc (bool * string);
  h_run_step : nat -> TrustedStep -> Result Exc StepResult;
  h_capture : nat -> TrustedArtifact -> Result Exc unit;
  h_finalize : nat -> list (string * TrustedArtifact) -> Result Exc (list ArtifactRecord);
  h_cleanup : nat -> Result Exc unit;
  h_write_result : nat -> Json -> Result Exc unit;
  h_stop_file : nat -> bool;
}.

(** [CancellationToken.cancel]: the first reason is kept. *)
Definition cancel (token : nat) (reason : string) (w : World) : World :=
  w <| tokens := alter (fun t => match t with None => Some reason | Some r => Some r end) token (tokens w) |>.

Definition is_cancelled (token : nat) (w : World) : bool :=
  match tokens w !! token with Some (Some _) => true | _ => false end.

(** [token.reason] *)
Definition cancel_reason (token : nat) (w : World) : string :=
  match tokens w !! token with Some (Some r) => r | _ => "cancelled" end.

(** [LocalWorker.request_shutdown] *)
Definition request_shutdown (w : World) : World :=
  let w := w <| shutdown := true |> in
  match active_token w with Some t => cancel t "worker_shutdown" w | None => w end.

(** [_cancellation_outcome]: terminal status, reason, and whether completion is skipped *)
Definition cancellation_outcome (reason : string) : string * string * bool :=
  if bool_decide (reason = "overall_timeout") then ("timed_out", reason, false)
  else ("cancelled", reason,
        bool_decide (reason = "ownership_lost") || starts_with (to_chars "server_terminal:") (to_chars reason)).

(** [time.monotonic() + min(...)] *)
Definition seconds_min (a b : Seconds) : Seconds := if seconds_lt b a then b else a.
Definition seconds_after (now : Q) (d : Seconds) : Seconds :=
  match d with
  | Finite q => let s := Qred (now + q) in
                match round64 (Qnum s) (Z.pos (Qden s)) with Some r => Finite r | None => PosInf end
  | _ => d
  end.

(** What [poll_once] reads of the evidence store it created *)
Record Store := { st_limits : EvidenceLimits; st_retention_expires_at : Z }.

(** The local variables of [poll_once]; of the worktree it is only known whether there is one,
    of the monitor whether it was made and which thread it started. *)
Record Locals := {
  v_worktree : bool;
  v_store : option Store;
  v_monitor : option (option nat);
  v_manifest : option TrustedManifest;
  v_results : list StepResult;
  v_attempted_steps : list TrustedStep;
  v_artifacts : list ArtifactRecord;
  v_dependency_locks : list DependencyLockHash;
  v_dependency_lock_status : string;
  v_artifact_status : string;
  v_source_quiescent : bool;
  v_source_integrity_verified : bool;
  v_terminal : string;
  v_reason : option string;
  v_cleanup : string;
  v_skip_completion : bool;
  v_order : option AssignedWorkOrder;
  v_summary : Json;
  v_evidence : option ExecutionEvidence;
  v_provenance : option EvidenceReuseProvenance;
  v_environment : option EnvironmentIdentity;
  v_reuse_identity : option EvidenceReuseIdentity;
  v_reuse_identity_hash : option string;
  v_reuse_decision : string;
  v_reuse_reason : string;
  v_lookup : option ReuseLookup;
  v_started_at : Z;
}.

#[export] Instance Locals_rebuild : Rebuild Locals := fun l =>
  {| v_worktree := v_worktree l; v_store := v_store l; v_monitor := v_monitor l; v_manifest := v_manifest l;
     v_results := v_results l; v_attempted_steps := v_attempted_steps l; v_artifacts := v_artifacts l;
     v_dependency_locks := v_dependency_locks l; v_dependency_lock_status := v_dependency_lock_status l;
     v_artifact_status := v_artifact_status l; v_source_quiescent := v_source_quiescent l;
     v_source_integrity_verified := v_source_integrity_verified l; v_terminal := v_terminal l; v_reason :=
     v_reason l; v_cleanup := v_cleanup l; v_skip_completion := v_skip_completion l; v_order := v_order l;
     v_summary := v_summary l; v_evidence := v_evidence l; v_provenance := v_provenance l; v_environment :=
     v_environment l; v_reuse_identity := v_reuse_identity l; v_reuse_identity_hash := v_reuse_identity_hash
     l; v_reuse_decision := v_reuse_decision l; v_reuse_reason := v_reuse_reason l; v_lookup := v_lookup l;
     v_started_at := v_started_at l |}.

Definition initial_locals (started_at : Z) : Locals :=
  {| v_worktree := false; v_store := None; v_monitor := None; v_manifest := None; v_results := [];
     v_attempted_steps := []; v_artifacts := []; v_dependency_locks := []; v_dependency_lock_status :=
     "not_declared"; v_artifact_status := "not_started"; v_source_quiescent := true;
     v_source_integrity_verified := true; v_terminal := "failed"; v_reason := Some
     "worker_initialization_failed"; v_cleanup := "not_started"; v_skip_completion := false; v_order := None;
     v_summary := JObj [("steps", JList [])]; v_evidence := None; v_provenance := None; v_environment := None;
     v_reuse_identity := None; v_reuse_identity_hash := None; v_reuse_decision := "fresh"; v_reuse_reason :=
     "reuse_policy_never"; v_lookup := None; v_started_at := started_at |}.

(** The state in which [poll_once] runs once it has taken a run *)
Record Running := { world : World; locals : Locals }.

#[export] Instance Running_rebuild : Rebuild Running := fun s => {| world := world s; locals := locals s |}.

(** An action on the world alone *)
Definition on_world {A} (m : M Exc World A) : M Exc Running A := fun s =>
  let '(r, w) := m (world s) in (r, s <| world := w |>).

(** An assignment to local variables, and a read of one *)
Definition assign (f : Locals -> Locals) : M Exc Running unit := fun s => (Ok tt, s <| locals := f (locals s) |>).
Definition local {A} (f : Locals -> A) : M Exc Running A := fun s => (Ok (f (locals s)), s).

(** [try: body finally: after]; an exception of [after] replaces that of [body]. *)
Definition try_finally {S} (body after : M Exc S unit) : M Exc S unit := fun s =>
  let '(r, s1) := body s in
  match after s1 with
  | (Ok _, s2) => (r, s2)
  | (Err e, s2) => (Err e, s2)
  end.

(** [terminal, reason = ...] *)
Definition set_outcome (terminal : string) (reason : option string) (l : Locals) : Locals :=
  l <| v_terminal := terminal |> <| v_reason := reason |>.

Section worker.
Context (host : Host) (config : WorkerConfig) (client : Client).

(** ** Talking to the outside *)

Definition next_turn (w : World) : World := w <| turn := S (turn w) |>.
Definition record_event (e : Event) (w : World) : World := w <| log := e :: log w |>.

(** One call of [session.request] *)
Definition send_now (r : HttpRequest) : M Exc World HttpResponse := fun w =>
  let answer := h_http host (turn w) r in (answer, record_event (Sent r answer) (next_turn w)).

(** The client as the monitor's thread uses it *)
Definition monitor_client : ClientWorld World :=
  {| credential_rejected := rejected; reject_credential := fun w => w <| rejected := true |>; send := send_now |}.

(** [time.monotonic()], [dt.datetime.now(dt.UTC)] *)
Definition monotonic : M Exc World Q := fun w => (Ok (h_monotonic host (turn w)), next_turn w).
Definition utc_now : M Exc World Z := fun w => (Ok (h_now host (turn w)), next_turn w).

(** *** The monitor *)

Section tick.
Context (cw : ClientWorld World) (run_id : Z) (deadline : Seconds) (token : nat).

(** The first call of a tick: whether the tick goes on *)
Definition tick_worker : M Exc World bool :=
  handle (heartbeat_worker client (Some "busy");; mret true) (fun e =>
    if is_credential_rejected e
    then Some (modify (fun w => request_shutdown (cancel token "ownership_lost" w));; mret false)
    else if is_os_error e then Some (mret true) else None).

(** The second: the run, unless the tick ends there *)
Definition tick_run : M Exc World (option ExecutionRun) :=
  handle (payload ← heartbeat_run client run_id;
          run ← lift_result (execution_run_from_payload payload);
          mret (Some run)) (fun e =>
    if is_ownership_lost e then
      Some (modify (cancel token "ownership_lost");;
            (if is_credential_rejected e then modify request_shutdown else mret tt);; mret None)
    else if is_value_error e then Some (modify (cancel token "invalid_run_heartbeat");; mret None)
    else if is_os_error e then Some (mret None) else None).

(** [_RunMonitor.tick] *)
Definition tick : M Exc World unit :=
  now ← monotonic;
  if seconds_le deadline (Finite now) then modify (cancel token "overall_timeout")
  else
    continues ← tick_worker;
    if negb continues then mret tt
    else
      answer ← tick_run;
      match answer with
      | None => mret tt
      | Some run =>
          if negb (er_id run =? run_id) then modify (cancel token "invalid_run_heartbeat")
          else if bool_decide (er_status run ∈ SERVER_TERMINAL_STATUSES)
          then modify (cancel token ("server_terminal:" +:+ er_status run))
          else mret tt
      end.
End tick.

(** One turn of the loop of [_RunMonitor._run]: the thread ends when the token is cancelled,
    when it was told to stop, and when the tick raises. *)
Definition thread_tick (i : nat) (w : World) : World :=
  match monitors w !! i with
  | Some m =>
      if mon_alive m then
        let '(r, w') := tick monitor_client (mon_run_id m) (mon_deadline m) (mon_token m) w in
        if is_ok r && negb (is_cancelled (mon_token m) w') && negb (mon_stopped m) then w'
        else w' <| monitors := <[i := m <| mon_alive := false |>]> (monitors w') |>
      else w
  | None => w
  end.

(** Everything that happens beside the polling thread before its next action *)
Definition interfere (w : World) : World :=
  foldl (fun w x => match x with ShutdownRequested => request_shutdown w | MonitorTick i => thread_tick i w end)
    (next_turn w) (h_interference host (turn w)).

(** An action of the polling thread: its answer is recorded. *)
Definition act {A} (answer : nat -> Result Exc A) (event : Result Exc A -> Event) : M Exc World A := fun w =>
  let w := interfere w in
  let r := answer (turn w) in
  (r, record_event (event r) (next_turn w)).

(** A read of the shared state *)
Definition observe {A} (f : World -> A) : M Exc World A := fun w => let w := interfere w in (Ok (f w), w).

(** The client as the polling thread uses it *)
#[local] Instance polling_client : ClientWorld World :=
  {| credential_rejected := rejected; reject_credential := fun w => w <| rejected := true |>;
     send := fun r => modify interfere;; send_now r |}.

Definition discover : M Exc World Platform := fun w => (Ok (h_platform host (turn w)), next_turn w).
Definition package_versions : M Exc World (string -> option string) := fun w =>
  (Ok (h_package_version host (turn w)), next_turn w).
Definition verify_checkout_integrity : M Exc World unit := act (h_verify_checkout host) VerifiedCheckout.

(** [_hash_dependency_locks] *)
Definition hash_dependency_locks (m : TrustedManifest) : M Exc World (list DependencyLockHash) :=
  map_m (fun path =>
           hashed ← act (fun n => h_hash_file host n path) (HashedFile path);
           lift_result (validated_model lock_json valid_lock
             {| lock_relative_path := path; lock_sha256 := hashed.2 |}))
    (sort_strings (tm_dependency_lock_paths m)).

(** ** Runs one at a time *)

(** [_begin_run]: the reason to refuse, or the run is taken *)
Definition begin_run (run_id : Z) : M Exc World (option string) := fun w =>
  let w := interfere w in
  if shutdown w then (Ok (Some "worker_shutdown_before_start"), w)
  else if isSome (active_run_id w) then (Ok (Some "local_concurrency_rejected_after_checkout"), w)
  else if bool_decide (run_id ∈ executed_run_ids w)
  then (Ok (Some "local_duplicate_execution_rejected_after_checkout"), w)
  else (Ok None, w <| executed_run_ids := {[run_id]} ∪ executed_run_ids w |> <| active_run_id := Some run_id |>).

(** [_end_run] *)
Definition end_run (run_id : Z) (w : World) : World :=
  if bool_decide (active_run_id w = Some run_id) then w <| active_run_id := None |> else w.

(** [_complete_admission_rejection] *)
Definition complete_admission_rejection (run_id : Z) (reason : string) : M Exc World unit :=
  handle
    (complete_run client run_id
       {| cp_status := "cancelled";
          cp_result_summary := Some (serialize_summary (JObj [("steps", JList [])]));
          cp_terminal_reason := Some reason; cp_cleanup_status := Some "not_started";
          cp_artifact_metadata := []; cp_evidence_metadata := None; cp_reuse_decision := None;
          cp_reuse_reason := None; cp_reuse_identity := None; cp_reuse_identity_hash := None;
          cp_evidence_retention_expires_at := None |};; mret tt)
    (fun e => if is_ownership_lost e then Some (mret tt) else None).

(** [LocalWorker.start] *)
Definition start : M Exc World unit :=
  failures ← act (h_prune host) Pruned;
  if bool_decide (failures = []) then
    p ← discover;
    register_worker client (discover_worker_registration p config);; mret tt
  else raise (RuntimeError ("evidence_retention_failed:" +:+ join "," failures)).

(** ** One run *)

Section run.
Context (registry : list TrustedManifest) (decode_candidate : Json -> option ReuseCandidate)
  (isoformat : Z -> string) (run_id : Z).

(** [if token.cancelled: terminal, reason, skip_completion = _cancellation_outcome(token)] *)
Definition adopt_cancellation (token : nat) : M Exc Running unit :=
  reason ← on_world (observe (cancel_reason token));
  let '(terminal, reason, skip) := cancellation_outcome reason in
  assign (fun l => set_outcome terminal (Some reason) l <| v_skip_completion := skip |>).

Definition token_cancelled (token : nat) : M Exc Running bool := on_world (observe (is_cancelled token)).

(** [_RunMonitor.start]: a tick, then a thread unless the tick cancelled the run *)
Definition start_monitor (deadline : Seconds) (token : nat) : M Exc Running unit :=
  assign (fun l => l <| v_monitor := Some None |>);;
  on_world (tick polling_client run_id deadline token);;
  cancelled ← token_cancelled token;
  if cancelled : bool then mret tt
  else
    i ← on_world (fun w =>
          (Ok (length (monitors w)),
           w <| monitors := monitors w ++ [{| mon_run_id := run_id; mon_deadline := deadline; mon_token := token;
                                              mon_stopped := false; mon_alive := true |}] |>));
    assign (fun l => l <| v_monitor := Some (Some i) |>).

(** [_create_evidence_store] *)
Definition create_store (started_at : Z) (m : TrustedManifest) : M Exc Running unit :=
  match profile_evidence_policy (cf_limits config) m with
  | Err message => raise (ValueError message)
  | Ok (retention_days, limits) =>
      on_world (act (h_create_store host) (CreatedStore run_id));;
      assign (fun l => l <| v_store := Some {| st_limits := limits;
                                               st_retention_expires_at := started_at + retention_days * DAY |} |>)
  end.

(** Verified hashing of the dependency locks *)
Definition capture_locks (m : TrustedManifest) : M Exc Running unit :=
  on_world verify_checkout_integrity;;
  locks ← on_world (hash_dependency_locks m);
  assign (fun l => l <| v_dependency_locks := locks |>);;
  on_world verify_checkout_integrity;;
  assign (fun l => l <| v_dependency_lock_status := "succeeded" |>).

(** The reuse identity, from the variables it is computed of *)
Definition set_reuse_identity (order : AssignedWorkOrder) (m : TrustedManifest) (environment : EnvironmentIdentity)
    : M Exc Running EvidenceReuseIdentity :=
  locks ← local v_dependency_locks;
  identity ← lift_result (build_reuse_identity order m environment locks);
  assign (fun l => l <| v_reuse_identity := Some identity |>
                     <| v_reuse_identity_hash := Some (compute_reuse_identity_hash identity) |>);;
  mret identity.

(** The lookup, whose failures are answers too *)
Definition lookup_candidate (token : nat) (identity : EvidenceReuseIdentity) : M Exc Running unit :=
  handle
    (payload ← on_world (resolve_reuse_candidate client run_id (identity_json identity)
                           (compute_reuse_identity_hash identity));
     lookup ← lift_result (reuse_lookup_from_payload decode_candidate payload);
     assign (fun l => l <| v_lookup := Some lookup |> <| v_reuse_reason := rl_reason lookup |>))
    (fun e =>
       if is_ownership_lost e then
         Some (on_world (modify (cancel token "ownership_lost"));;
               if is_credential_rejected e then on_world (modify request_shutdown) else mret tt)
       else if is_os_error e || is_value_error e
       then Some (assign (fun l => l <| v_reuse_reason := "reuse_lookup_unavailable" |>))
       else None).

(** What an order that requires reuse reports when there is none *)
Definition refuse_fresh (reason : string) : M Exc Running bool :=
  assign (fun l => set_outcome "failed" (Some reason) l <| v_reuse_decision := "unavailable" |>);; mret false.

(** The block under [order.reuse_policy != "never"]: whether the steps are still to be run *)
Definition attempt_reuse (token : nat) (order : AssignedWorkOrder) (m : TrustedManifest)
    (environment : EnvironmentIdentity) : M Exc Running bool :=
  (if bool_decide (tm_dependency_lock_paths m = []) then mret tt else capture_locks m);;
  identity ← set_reuse_identity order m environment;
  lookup_candidate token identity;;
  cancelled ← token_cancelled token;
  lookup ← local v_lookup;
  let require_exact := bool_decide (awo_reuse_policy order = "require_exact") in
  if cancelled : bool then adopt_cancellation token;; mret false
  else
    match lookup ≫= rl_candidate with
    | Some candidate =>
        now ← on_world utc_now;
        '(verified, reason) ← on_world (act (fun n => h_verify_candidate host n candidate)
                                          (VerifiedCandidate candidate now));
        assign (fun l => l <| v_reuse_reason := reason |>);;
        if (verified : bool) then
          assign (fun l => set_outcome "succeeded" None l <| v_reuse_decision := "reused" |>);; mret false
        else if require_exact then refuse_fresh reason
        else mret true
    | None =>
        reason ← local v_reuse_reason;
        if require_exact then refuse_fresh reason else mret true
    end.

(** The [except] clauses of the call of [run_step] *)
Definition on_step_error (token : nat) (e : Exc) : M Exc Running unit :=
  match e with
  | OverallDeadlineExceededError message =>
      cancelled ← token_cancelled token;
      if cancelled : bool then adopt_cancellation token else assign (set_outcome "timed_out" (Some message))
  | ContainmentCleanupError =>
      assign (fun l => set_outcome "failed" (Some "descendant_cleanup_failed") l <| v_source_quiescent := false |>)
  | _ =>
      assign (fun l => l <| v_source_quiescent := false |>);;
      cancelled ← token_cancelled token;
      if cancelled : bool then adopt_cancellation token
      else assign (set_outcome "failed" (Some ("worker_error:" +:+ exc_name e)))
  end.

(** The call itself; [None] leaves the loop. *)
Definition run_one (token : nat) (m : TrustedManifest) (step : TrustedStep) : M Exc Running (option StepResult) :=
  handle
    (match step_result_contract m (ts_id step) with
     | Err message => raise (ValueError message)
     | Ok _ => result ← on_world (act (fun n => h_run_step host n step) (RanStep step)); mret (Some result)
     end)
    (fun e => Some (on_step_error token e;; mret None)).

(** A report that the contract's parser refused makes the step fail. *)
Definition apply_contract (m : TrustedManifest) (r : StepResult) : StepResult :=
  match tm_result_contract m, sr_parsed_result r with
  | Some _, Some parsed =>
      if negb (pr_parsed parsed)
      then r <| sr_status := "failed" |> <| sr_terminal_reason := Some "result_contract_parser_failed" |>
      else r
  | _, _ => r
  end.

(** [a or b] for texts *)
Definition text_or (a : option string) (b : string) : string :=
  match a with Some s => if bool_decide (s = "") then b else s | None => b end.

(** What the loop does with an answer of the runner: whether it goes on *)
Definition note_result (m : TrustedManifest) (step : TrustedStep) (answer : StepResult) : M Exc Running bool :=
  let result := apply_contract m answer in
  (if bool_decide (sr_terminal_reason result = Some "descendant_cleanup_failed")
   then assign (fun l => l <| v_source_quiescent := false |>) else mret tt);;
  assign (fun l => l <| v_results := v_results l ++ [result] |>);;
  if negb (bool_decide (sr_status result = "succeeded")) && ts_required step
  then assign (set_outcome (sr_status result)
         (Some (text_or (sr_terminal_reason result) ("required_step_" +:+ sr_status result +:+ ":" +:+ ts_id step))));;
       mret false
  else mret true.

(** The loop over [manifest.execution_steps] *)
Fixpoint run_steps (token : nat) (m : TrustedManifest) (steps : list TrustedStep) : M Exc Running unit :=
  match steps with
  | [] => mret tt
  | step :: rest =>
      assign (fun l => l <| v_attempted_steps := v_attempted_steps l ++ [step] |>);;
      stopping ← on_world (observe shutdown);
      (if stopping : bool then on_world (modify (cancel token "worker_shutdown")) else mret tt);;
      answer ← run_one token m step;
      match answer with
      | None => mret tt
      | Some answer =>
          goes_on ← note_result m step answer;
          if goes_on : bool then run_steps token m rest else mret tt
      end
  end.

(** What is done of a run that was admitted and is not cancelled *)
Definition execute (token : nat) (order : AssignedWorkOrder) (m : TrustedManifest) : M Exc Running unit :=
  started_at ← on_world utc_now;
  assign (fun l => l <| v_started_at := started_at |>);;
  versions ← on_world package_versions;
  platform ← on_world discover;
  environment ← lift_result (environment_identity versions platform
                               [tm_required_capabilities m; awo_required_capabilities order]);
  assign (fun l => l <| v_environment := Some environment |>);;
  create_store started_at m;;
  path ← lift_result (repository_path config (awo_repository_full_name order));
  on_world (act (h_create_worktree host) (CreatedWorktree run_id path (awo_commit_sha order)));;
  assign (fun l => l <| v_worktree := true |>);;
  on_world verify_checkout_integrity;;
  assign (fun l => set_outcome "succeeded" None l <| v_cleanup := "pending" |>);;
  execute_fresh ← (if bool_decide (awo_reuse_policy order = "never") then mret true
                   else attempt_reuse token order m environment);
  (if execute_fresh : bool then
     assign (fun l => l <| v_reuse_decision := "fresh" |>);; run_steps token m (tm_execution_steps m)
   else mret tt);;
  cancelled ← token_cancelled token;
  if cancelled : bool then adopt_cancellation token else mret tt.

(** The body of [try] *)
Definition run_body (work_order_id : Z) : M Exc Running unit :=
  order_payload ← on_world (get_work_order client work_order_id);
  order ← lift_result (work_order_from_payload order_payload);
  assign (fun l => l <| v_order := Some order |>);;
  manifest_payload ← on_world (get_manifest client (awo_manifest_name order) (awo_manifest_version order) (Some run_id));
  remote ← lift_result (safe_manifest_from_payload manifest_payload);
  p ← on_world discover;
  p' ← on_world discover;
  m ← lift_result (validate_manifest p p'
        (get_trusted_manifest registry (awo_manifest_name order) (awo_manifest_version order)) remote order config);
  assign (fun l => l <| v_manifest := Some m |>);;
  now ← on_world monotonic;
  let deadline := seconds_after now
    (seconds_min (seconds_min (seconds_of (awo_timeout_seconds order)) (seconds_of (tm_timeout_seconds m)))
       (cf_execution_timeout_seconds config)) in
  token ← on_world (fun w => let w := interfere w in
            (Ok (length (tokens w)),
             w <| tokens := tokens w ++ [None] |> <| active_token := Some (length (tokens w)) |>));
  start_monitor deadline token;;
  cancelled ← token_cancelled token;
  if cancelled : bool then adopt_cancellation token
  else
    stopping ← on_world (observe shutdown);
    if stopping : bool then
      on_world (modify (cancel token "worker_shutdown"));;
      reason ← on_world (gets (cancel_reason token));
      assign (set_outcome "cancelled" (Some reason))
    else execute token order m.

(** The [except] clauses *)
Definition on_failure (e : Exc) : M Exc Running unit :=
  match e with
  | ContainmentCleanupError =>
      assign (fun l => set_outcome "failed" (Some "descendant_cleanup_failed") l <| v_source_quiescent := false |>)
  | ExecutionCredentialRejectedError _ =>
      on_world (modify request_shutdown);;
      assign (fun l => set_outcome "cancelled" (Some "ownership_lost") l <| v_skip_completion := true |>)
  | ExecutionOwnershipLostError _ =>
      assign (fun l => set_outcome "cancelled" (Some "ownership_lost") l <| v_skip_completion := true |>)
  | LocalCommitUnavailableError => assign (set_outcome "failed" (Some "requested_sha_not_available_locally"))
  | _ =>
      assign (set_outcome "failed" (Some ("worker_error:" +:+ exc_name e)));;
      order ← local v_order;
      if opt_all (fun o => bool_decide (awo_reuse_policy o = "require_exact")) order && isSome order
      then assign (fun l => l <| v_reuse_decision := "unavailable" |>
                              <| v_reuse_reason := "reuse_precondition_failed" |>)
      else mret tt
  end.

(** *** The [finally] clause *)

(** [if terminal == "succeeded": terminal, reason = "failed", reason'] *)
Definition spoil (reason : string) (l : Locals) : Locals :=
  if bool_decide (v_terminal l = "succeeded") then set_outcome "failed" (Some reason) l else l.

(** [try: m except Exception as error: h(error)] *)
Definition catch (m : M Exc Running unit) (h : Exc -> M Exc Running unit) : M Exc Running unit :=
  handle m (fun e => Some (h e)).

(** The monitor is told to stop, the token is no longer reachable, and a worker that cannot
    account for its children drains. *)
Definition settle : M Exc Running unit :=
  monitor ← local v_monitor;
  (match monitor with
   | Some (Some i) =>
       on_world (modify (fun w => w <| monitors := alter (fun m => m <| mon_stopped := true |>) i (monitors w) |>))
   | _ => mret tt
   end);;
  on_world (modify interfere);;
  on_world (modify (fun w => w <| active_token := None |>));;
  quiescent ← local v_source_quiescent;
  if quiescent : bool then mret tt else on_world (modify (fun w => w <| shutdown := true |>)).

Definition skip_reason (l : Locals) : string :=
  if negb (v_source_quiescent l) then "skipped:source_quiescence_failed" else "skipped:checkout_integrity_failed".

(** Whether the checkout may still be read *)
Definition source_usable (l : Locals) : bool := v_source_quiescent l && v_source_integrity_verified l.

(** The last check of the checkout *)
Definition final_integrity : M Exc Running unit :=
  quiescent ← local v_source_quiescent;
  if quiescent : bool
  then catch (on_world verify_checkout_integrity)
         (fun _ => assign (fun l => spoil "checkout_integrity_failed" (l <| v_source_integrity_verified := false |>)))
  else assign (fun l => l <| v_source_integrity_verified := false |>).

(** The dependency locks, unless they were hashed before *)
Definition final_locks (m : TrustedManifest) : M Exc Running unit :=
  usable ← local source_usable;
  if negb usable then
    assign (fun l =>
      let l := if bool_decide (tm_dependency_lock_paths m = []) then l
               else l <| v_dependency_lock_status := skip_reason l |> in
      if isSome (v_store l) then l <| v_artifact_status := skip_reason l |> else l)
  else
    status ← local v_dependency_lock_status;
    if negb (bool_decide (tm_dependency_lock_paths m = [])) && negb (bool_decide (status = "succeeded"))
    then catch (capture_locks m) (fun e =>
           assign (fun l => spoil "dependency_lock_hash_failed"
                              (l <| v_dependency_lock_status := "failed:" +:+ exc_name e |>)))
    else mret tt.

(** The artifacts of the steps that were attempted *)
Definition final_artifacts : M Exc Running unit :=
  usable ← local source_usable;
  store ← local v_store;
  if isSome store && usable then
    catch
      (attempted ← local v_attempted_steps;
       let declarations := attempted ≫= fun step => map (pair (ts_id step)) (ts_artifacts step) in
       on_world (map_m (fun d : string * TrustedArtifact =>
                          verify_checkout_integrity;;
                          act (fun n => h_capture host n d.2) (CapturedArtifact d.2)) declarations);;
       on_world verify_checkout_integrity;;
       artifacts ← on_world (act (fun n => h_finalize host n declarations) (FinalizedArtifacts declarations));
       assign (fun l => l <| v_artifacts := artifacts |> <| v_artifact_status := "succeeded" |>))
      (fun e => assign (fun l => spoil "artifact_finalization_failed"
                                   (l <| v_artifact_status := "failed:" +:+ exc_name e |>)))
  else mret tt.

Definition final_cleanup : M Exc Running unit :=
  usable ← local source_usable;
  if negb usable then assign (fun l => l <| v_cleanup := skip_reason l |>)
  else catch (on_world (act (h_cleanup host) CleanedUp);; assign (fun l => l <| v_cleanup := "succeeded" |>))
         (fun e => assign (fun l => spoil "cleanup_failed" (l <| v_cleanup := "failed:" +:+ exc_name e |>))).

(** The document, from the variables *)
Definition evidence_of (order : AssignedWorkOrder) (m : TrustedManifest) (finished_at : Z) (record_status : string)
    (environment : EnvironmentIdentity) (provenance : EvidenceReuseProvenance) (l : Locals)
    : Result Exc ExecutionEvidence :=
  build_evidence isoformat config order run_id m
    {| ei_started_at := v_started_at l; ei_finished_at := finished_at; ei_terminal := v_terminal l;
       ei_reason := v_reason l; ei_results := v_results l; ei_artifacts := v_artifacts l;
       ei_dependency_locks := v_dependency_locks l; ei_dependency_lock_status := v_dependency_lock_status l;
       ei_artifact_status := v_artifact_status l; ei_cleanup := v_cleanup l;
       ei_local_record_status := record_status; ei_environment := environment;
       ei_reuse_provenance := provenance |}.

(** [evidence.model_dump(mode="json")] *)
Definition evidence_json (e : ExecutionEvidence) : Json :=
  JObj (draft_fields isoformat e ++ [("fingerprint", JStr (ev_fingerprint e))]).

(** The provenance, from the variables *)
Definition provenance_of (hash : string) (l : Locals) : EvidenceReuseProvenance :=
  let source := if bool_decide (v_reuse_decision l = "reused") then v_lookup l ≫= rl_candidate else None in
  {| prov_decision := v_reuse_decision l; prov_reason := v_reuse_reason l; prov_reuse_identity_hash := hash;
     prov_source_run_id := cand_source_run_id <$> source;
     prov_source_evidence_fingerprint := cand_expected_source_evidence_fingerprint <$> source |}.

(** The body of the [try] that records the evidence *)
Definition write_evidence (order : AssignedWorkOrder) (m : TrustedManifest) : M Exc Running unit :=
  known ← local v_environment;
  environment ← match known with
                | Some e => mret e
                | None =>
                    versions ← on_world package_versions;
                    platform ← on_world discover;
                    e ← lift_result (environment_identity versions platform
                                       [tm_required_capabilities m; awo_required_capabilities order]);
                    assign (fun l => l <| v_environment := Some e |>);; mret e
                end;
  known ← local v_reuse_identity;
  identity ← match known with Some i => mret i | None => set_reuse_identity order m environment end;
  hash ← local v_reuse_identity_hash;
  hash ← require hash AssertionError;
  provenance ← local (provenance_of hash);
  provenance ← lift_result (validated_model provenance_json valid_provenance provenance);
  assign (fun l => l <| v_provenance := Some provenance |>);;
  finished_at ← on_world utc_now;
  built ← local (evidence_of order m finished_at "succeeded" environment provenance);
  evidence ← lift_result built;
  assign (fun l => l <| v_evidence := Some evidence |>);;
  summary ← local v_summary;
  let payload := JObj [("evidence", evidence_json evidence); ("result_summary", summary);
                       ("reuse_identity", identity_json identity); ("reuse_identity_hash", JStr hash)] in
  on_world (act (fun n => h_write_result host n payload) (WroteResult payload)).

(** Its [except] clause: the document says that the record failed, or there is none. *)
Definition record_failed (order : AssignedWorkOrder) (m : TrustedManifest) (e : Exc) : M Exc Running unit :=
  assign (spoil "local_result_record_failed");;
  catch
    (environment ← local v_environment;
     provenance ← local v_provenance;
     environment ← require environment (RuntimeError "reuse evidence inputs unavailable");
     provenance ← require provenance (RuntimeError "reuse evidence inputs unavailable");
     finished_at ← on_world utc_now;
     built ← local (evidence_of order m finished_at ("failed:" +:+ exc_name e) environment provenance);
     evidence ← lift_result built;
     assign (fun l => l <| v_evidence := Some evidence |>))
    (fun _ => assign (fun l => set_outcome "failed" (Some "evidence_finalization_failed") l
                                 <| v_evidence := None |>
                                 <| v_cleanup := str_take 64 (v_cleanup l +:+ ";evidence_failed") |>)).

Definition record_evidence : M Exc Running unit :=
  l ← local (fun l => l);
  match v_order l, v_manifest l with
  | Some order, Some m =>
      if isSome (v_store l) && v_worktree l && source_usable l
      then catch (write_evidence order m) (record_failed order m) else mret tt
  | _, _ => mret tt
  end.

(** The whole clause *)
Definition finish : M Exc Running unit :=
  settle;;
  worktree ← local v_worktree;
  manifest ← local v_manifest;
  (match manifest with
   | Some m => if worktree : bool then final_integrity;; final_locks m;; final_artifacts else mret tt
   | None => mret tt
   end);;
  (if worktree : bool then final_cleanup else mret tt);;
  order ← local v_order;
  results ← local v_results;
  (match order with
   | Some o => j ← lift_result (summary o results); assign (fun l => l <| v_summary := j |>)
   | None => mret tt
   end);;
  record_evidence;;
  on_world (modify (fun w => end_run run_id (interfere w))).

(** *** The report *)

Definition completion_of (l : Locals) : Completion :=
  {| cp_status := v_terminal l; cp_result_summary := Some (serialize_summary (v_summary l));
     cp_terminal_reason := v_reason l; cp_cleanup_status := Some (v_cleanup l);
     cp_artifact_metadata := if isSome (v_evidence l) then map (artifact_json isoformat) (v_artifacts l) else [];
     cp_evidence_metadata := evidence_json <$> v_evidence l;
     cp_reuse_decision := Some (v_reuse_decision l); cp_reuse_reason := Some (v_reuse_reason l);
     cp_reuse_identity := identity_json <$> v_reuse_identity l;
     cp_reuse_identity_hash := v_reuse_identity_hash l;
     cp_evidence_retention_expires_at :=
       match v_store l, v_evidence l with
       | Some store, Some _ => Some (isoformat_z (st_retention_expires_at store))
       | _, _ => None
       end |}.

Definition report (l : Locals) : M Exc World unit :=
  if v_skip_completion l then mret tt
  else handle (complete_run client run_id (completion_of l);; mret tt)
         (fun e => if is_ownership_lost e
                   then Some (if is_credential_rejected e then modify request_shutdown else mret tt) else None).

(** From the admission of a run to its report *)
Definition process_run (work_order_id : Z) : M Exc World unit := fun w =>
  let '(started_at, w) := (h_now host (turn w), next_turn w) in
  let '(r, s) := try_finally (catch (run_body work_order_id) on_failure) finish
                   {| world := w; locals := initial_locals started_at |} in
  match r with
  | Err e => (Err e, world s)
  | Ok _ => report (locals s) (world s)
  end.
End run.

(** [LocalWorker.poll_once] *)
Definition poll_once (registry : list TrustedManifest) (decode_candidate : Json -> option ReuseCandidate)
    (isoformat : Z -> string) : M Exc World bool :=
  stopping ← observe shutdown;
  if stopping : bool then mret false
  else
    taken ← handle (payload ← checkout client; lift_result (checkout_from_payload payload))
              (fun e => if is_credential_rejected e then Some (modify request_shutdown;; raise e) else None);
    match ck_run_id taken, ck_work_order_id taken with
    | None, _ => mret false
    | Some _, None => raise AssertionError
    | Some run_id, Some work_order_id =>
        rejection ← begin_run run_id;
        match rejection with
        | Some reason => complete_admission_rejection run_id reason;; mret true
        | None => process_run registry decode_candidate isoformat run_id work_order_id;; mret true
        end
    end.

(** ** The process *)

Section launcher.
Context (registry : list TrustedManifest) (decode_candidate : Json -> option ReuseCandidate)
  (isoformat : Z -> string) (once has_stop_file : bool).

(** [scripts/local_worker.py]: the loop of [_run]; [None] when it still runs after [fuel] turns. *)
Fixpoint serve (fuel : nat) : M Exc World (option Z) :=
  match fuel with
  | O => mret None
  | S fuel =>
      poll_once registry decode_candidate isoformat;;
      stop ← (if has_stop_file then observe (fun w => h_stop_file host (turn w)) else mret false);
      (if stop : bool then modify request_shutdown else mret tt);;
      shutting_down ← observe shutdown;
      if once || shutting_down then heartbeat_worker client (Some "draining");; mret (Some 0)
      else heartbeat_worker client (Some "online");; serve fuel
  end.

(** [main]: the exit status *)
Definition main (fuel : nat) : M Exc World (option Z) :=
  handle (start;; serve fuel) (fun e => if is_credential_rejected e then Some (mret (Some 1)) else None).
End launcher.
End worker.
