(* ===== verification/Effects.v ===== *)
(** * Reasoning about effectful computations

    Two views of a computation of the monad [M], which returns a value or raises, and changes a
    state in either case: a relation that every run keeps ([always]), and what a run from
    a given state ensures ([ensures]), with one rule for each way of composing computations. *)

From S2P Require Import Prelude WorkerModels.

(** ** Computations that keep a relation, returning or raising *)

Definition always {E S A} (R : S -> S -> Prop) (m : M E S A) : Prop := forall s, R s (m s).2.

Create HintDb always discriminated.

Section always_rules.
Context {E S : Type} (R : S -> S -> Prop) `{!Reflexive R, !Transitive R}.

Lemma always_ret {A} (a : A) : always (E := E) R (mret a).
Proof. by intros s. Qed.
Lemma always_raise {A} (e : E) : always (A := A) R (raise e).
Proof. by intros s. Qed.
Lemma always_gets {A} (f : S -> A) : always (E := E) R (gets f).
Proof. by intros s. Qed.
Lemma always_lift {A} (x : Result E A) : always R (lift_result x).
Proof. by intros s. Qed.
Lemma always_require {A} (o : option A) (e : E) : always R (require o e).
Proof. by destruct o. Qed.
Lemma always_modify f : (forall s, R s (f s)) -> always (E := E) R (modify f).
Proof. by intros H s. Qed.

Lemma always_bind {A B} (m : M E S A) (k : A -> M E S B) :
  always R m -> (forall a, always R (k a)) -> always R (m ≫= k).
Proof.
  intros Hm Hk s. unfold mbind, M_bind. specialize (Hm s). destruct (m s) as [[a|e] s1]; [|done].
  etrans; [exact Hm|apply Hk].
Qed.

Lemma always_handle {A} (m : M E S A) h :
  always R m -> (forall e k, h e = Some k -> always R k) -> always R (handle m h).
Proof.
  intros Hm Hh s. unfold handle. specialize (Hm s). destruct (m s) as [[a|e] s1]; [done|].
  destruct (h e) as [k|] eqn:He; [|done]. etrans; [exact Hm|by eapply Hh].
Qed.

Lemma always_map_m {A B} (f : A -> M E S B) l : (forall x, always R (f x)) -> always R (map_m f l).
Proof.
  intros Hf. induction l as [|x l IH]; [apply always_ret|]. cbn [map_m].
  apply always_bind; [apply Hf|]. intros y. apply always_bind; [exact IH|]. intros rest. apply always_ret.
Qed.

Lemma always_ensure b (e : E) : always R (ensure b e).
Proof. by destruct b. Qed.

Lemma always_for_each {A B} (f : B -> A -> M E S B) acc l :
  (forall b a, always R (f b a)) -> always R (for_each f acc l).
Proof.
  intros Hf. revert acc. induction l as [|x l IH]; intros acc; [apply always_ret|].
  apply always_bind; [apply Hf|apply IH].
Qed.

Lemma always_if {A} (b : bool) (m1 m2 : M E S A) :
  always R m1 -> always R m2 -> always R (if b then m1 else m2).
Proof. by destruct b. Qed.
End always_rules.

Lemma always_weaken {E S A} (R R' : S -> S -> Prop) (m : M E S A) :
  (forall s s', R s s' -> R' s s') -> always R m -> always R' m.
Proof. intros H Hm s. apply H, Hm. Qed.

(** [always] goals split along the program; what remains are the primitive calls. *)
Ltac always1 :=
  first [progress intros | lazymatch goal with
    | |- always _ (mret _) => apply always_ret; apply _
    | |- always _ (raise _) => apply always_raise; apply _
    | |- always _ (gets _) => apply always_gets; apply _
    | |- always _ (lift_result _) => apply always_lift; apply _
    | |- always _ (require _ _) => apply always_require; apply _
    | |- always _ (ensure _ _) => apply always_ensure; apply _
    | |- always _ (for_each _ _ _) => apply always_for_each; [apply _..|]
    | |- always _ (_ ≫= _) => apply always_bind; [apply _|..]
    | |- always _ (if _ then _ else _) => apply always_if
    | |- always _ (map_m _ _) => apply always_map_m; [apply _..|]
    end].
Ltac always := repeat always1.

(** A handled computation succeeds by itself or by its handler. *)
Lemma handle_ok {E S A} (m : M E S A) h d a d' : handle m h d = (Ok a, d') ->
  m d = (Ok a, d') \/ exists e k d1, m d = (Err e, d1) /\ h e = Some k /\ k d1 = (Ok a, d').
Proof. unfold handle. destruct (m d) as [[a1|e] d1]; [eauto|]. destruct (h e) eqn:He; eauto 8. Qed.

(** ** Weakest preconditions *)

Definition ensures {E S A} (m : M E S A) (Q : A -> S -> Prop) (X : E -> S -> Prop) (s : S) : Prop :=
  match m s with (Ok a, s') => Q a s' | (Err e, s') => X e s' end.

Section ens_rules.
Context {E S : Type}.
Implicit Types s : S.

Lemma ens_ret {A} (a : A) (Q : A -> S -> Prop) X s : Q a s -> ensures (E := E) (mret a) Q X s.
Proof. done. Qed.
Lemma ens_raise {A} e (Q : A -> S -> Prop) X s : X e s -> ensures (E := E) (raise e) Q X s.
Proof. done. Qed.
Lemma ens_bind {A B} (m : M E S A) (k : A -> M E S B) Q X s :
  ensures m (fun a => ensures (k a) Q X) X s -> ensures (m ≫= k) Q X s.
Proof. unfold ensures, mbind, M_bind. destruct (m s) as [[a|e] s']; done. Qed.
Lemma ens_lift {A} (r : Result E A) (Q : A -> S -> Prop) X s :
  (forall a, r = Ok a -> Q a s) -> (forall e, r = Err e -> X e s) -> ensures (E := E) (lift_result r) Q X s.
Proof. unfold ensures, lift_result. destruct r; auto. Qed.
Lemma ens_require {A} (o : option A) e (Q : A -> S -> Prop) X s :
  (forall a, o = Some a -> Q a s) -> (o = None -> X e s) -> ensures (E := E) (require o e) Q X s.
Proof. intros HQ HX. destruct o; [by apply HQ|by apply HX]. Qed.
Lemma ens_gets {A} (f : S -> A) (Q : A -> S -> Prop) X s : Q (f s) s -> ensures (E := E) (gets f) Q X s.
Proof. done. Qed.
Lemma ens_modify f (Q : unit -> S -> Prop) X s : Q tt (f s) -> ensures (E := E) (modify f) Q X s.
Proof. done. Qed.
Lemma ens_if {A} (b : bool) (m1 m2 : M E S A) Q X s :
  (b = true -> ensures m1 Q X s) -> (b = false -> ensures m2 Q X s) -> ensures (if b then m1 else m2) Q X s.
Proof. destruct b; auto. Qed.
Lemma ens_handle {A} (m : M E S A) h Q X s :
  ensures m Q (fun e => match h e with Some k => ensures k Q X | None => X e end) s -> ensures (handle m h) Q X s.
Proof. unfold ensures, handle. destruct (m s) as [[a|e] s']; [done|]. by destruct (h e). Qed.
Lemma ens_mono {A} (m : M E S A) (Q Q' : A -> S -> Prop) (X X' : E -> S -> Prop) s :
  ensures m Q X s -> (forall a s', Q a s' -> Q' a s') -> (forall e s', X e s' -> X' e s') -> ensures m Q' X' s.
Proof. unfold ensures. destruct (m s) as [[a|e] s']; auto. Qed.
End ens_rules.

Lemma ens_always {E S A} (R : S -> S -> Prop) (m : M E S A) (Q : A -> S -> Prop) X s :
  always R m -> (forall a s', R s s' -> Q a s') -> (forall e s', R s s' -> X e s') -> ensures m Q X s.
Proof. intros Hm HQ HX. unfold ensures. specialize (Hm s). destruct (m s) as [[a|e] s']; auto. Qed.

(** Whatever the call does *)
Lemma ens_any {E S A} (m : M E S A) (Q : A -> S -> Prop) X s :
  (forall a s', Q a s') -> (forall e s', X e s') -> ensures m Q X s.
Proof. intros HQ HX. unfold ensures. destruct (m s) as [[a|e] s']; auto. Qed.

(** A relation that holds however the call ends *)
Lemma ens_leaves {E S A} (R : S -> Prop) (m : M E S A) s : ensures m (fun _ => R) (fun _ => R) s -> R (m s).2.
Proof. unfold ensures. by destruct (m s) as [[a|e] s']. Qed.

(** [ens_basic] advances over the constructs of the monad. *)
Ltac ens_basic :=
  cbv beta; lazymatch goal with
  | |- ensures (mret _) _ _ _ => apply ens_ret
  | |- ensures (raise _) _ _ _ => apply ens_raise
  | |- ensures (_ ≫= _) _ _ _ => apply ens_bind
  | |- ensures (gets _) _ _ _ => apply ens_gets
  | |- ensures (modify _) _ _ _ => apply ens_modify
  | |- ensures (handle _ _) _ _ _ => apply ens_handle
  | |- ensures (lift_result _) _ _ _ => apply ens_lift; [let H := fresh "Hlift" in intros ? H | let H := fresh "Hlift" in intros ? H]
  | |- ensures (if ?b then _ else _) _ _ _ => apply ens_if; [let H := fresh "Hif" in intros H | let H := fresh "Hif" in intros H]
  end.

(** ** What a computation may raise *)

Definition raises {E S A} (P : E -> Prop) (m : M E S A) : Prop := forall s e s', m s = (Err e, s') -> P e.

Section raises_rules.
Context {E S : Type} (P : E -> Prop).

Lemma raises_ret {A} (a : A) : raises (S := S) P (mret a).
Proof. by intros s e s'. Qed.
Lemma raises_raise {A} (e : E) : P e -> raises (S := S) (A := A) P (raise e).
Proof. by intros He s e' s' [= <- _]. Qed.
Lemma raises_lift {A} (x : Result E A) : (forall e, x = Err e -> P e) -> raises (S := S) P (lift_result x).
Proof. intros Hx s e s' [= Hr _]. by apply Hx. Qed.
Lemma raises_require {A} (o : option A) (e : E) : P e -> raises (S := S) P (require o e).
Proof. intros He. destruct o; [apply raises_ret|by apply raises_raise]. Qed.
Lemma raises_ensure b (e : E) : P e -> raises (S := S) P (ensure b e).
Proof. intros He. destruct b; [apply raises_ret|by apply raises_raise]. Qed.
Lemma raises_bind {A B} (m : M E S A) (k : A -> M E S B) :
  raises P m -> (forall a, raises P (k a)) -> raises P (m ≫= k).
Proof.
  intros Hm Hk s e s'. unfold mbind, M_bind. destruct (m s) as [[a|e1] s1] eqn:He.
  - apply Hk.
  - intros [= <- _]. by eapply Hm.
Qed.
Lemma raises_if {A} (b : bool) (m1 m2 : M E S A) : raises P m1 -> raises P m2 -> raises P (if b then m1 else m2).
Proof. by destruct b. Qed.
Lemma raises_for_each {A B} (f : B -> A -> M E S B) acc l :
  (forall b a, raises P (f b a)) -> raises P (for_each f acc l).
Proof.
  intros Hf. revert acc. induction l as [|x l IH]; intros acc; [apply raises_ret|].
  apply raises_bind; [apply Hf|apply IH].
Qed.
(** What is not handled, and what the handler raises *)
Lemma raises_handle {A} (m : M E S A) h (Q : E -> Prop) :
  raises Q m -> (forall e, Q e -> match h e with Some k => raises P k | None => P e end) -> raises P (handle m h).
Proof.
  intros Hm Hh s e s'. unfold handle. destruct (m s) as [[a|e1] s1] eqn:He; [done|].
  specialize (Hm _ _ _ He). specialize (Hh _ Hm). destruct (h e1); [apply Hh|by intros [= <- _]].
Qed.
End raises_rules.

Lemma raises_weaken {E S A} (P Q : E -> Prop) (m : M E S A) : (forall e, P e -> Q e) -> raises P m -> raises Q m.
Proof. intros H Hm s e s' He. apply H. by eapply Hm. Qed.

(** [raises] goals split along the program; what remains are the primitive calls and the errors raised. *)
Ltac raises1 :=
  first [progress intros | lazymatch goal with
    | |- raises _ (mret _) => apply raises_ret
    | |- raises _ (raise _) => apply raises_raise
    | |- raises _ (require _ _) => apply raises_require
    | |- raises _ (ensure _ _) => apply raises_ensure
    | |- raises _ (for_each _ _ _) => apply raises_for_each
    | |- raises _ (_ ≫= _) => apply raises_bind
    | |- raises _ (if _ then _ else _) => apply raises_if
    end].
Ltac raises := repeat raises1.

(** ** What a computation adds to a log *)

Section logs.
Context {E S L : Type} (log : S -> list L).

(** The calls that log nothing *)
Definition silent {A} (m : M E S A) : Prop := always (fun s s' => log s' = log s) m.

#[global] Instance same_log_refl : Reflexive (fun s s' : S => log s' = log s).
Proof. by intros s. Qed.
#[global] Instance same_log_trans : Transitive (fun s s' : S => log s' = log s).
Proof. intros s1 s2 s3. congruence. Qed.

Lemma silent_run {A} (m : M E S A) s r s' : silent m -> m s = (r, s') -> log s' = log s.
Proof. intros Hm He. specialize (Hm s). by rewrite He in Hm. Qed.

(** What is logged, for each way a call ends *)
Definition logs {A} (m : M E S A) (T : Result E A -> list L -> Prop) : Prop :=
  forall s r s', m s = (r, s') -> exists evs, log s' = log s ++ evs /\ T r evs.

Lemma logs_bind {A B} (m : M E S A) (k : A -> M E S B) (T1 : Result E A -> list L -> Prop) T :
  logs m T1 -> (forall e evs, T1 (Err e) evs -> T (Err e) evs) ->
  (forall a evs, T1 (Ok a) evs -> logs (k a) (fun r evs' => T r (evs ++ evs'))) -> logs (m ≫= k) T.
Proof.
  intros Hm He Hk s r s'. unfold mbind, M_bind. destruct (m s) as [[a|e] s1] eqn:H1.
  - intros H2. destruct (Hm _ _ _ H1) as (e1 & Ha1 & Ht1). destruct (Hk a e1 Ht1 _ _ _ H2) as (e2 & Ha2 & Ht2).
    exists (e1 ++ e2). by rewrite app_assoc, <-Ha1.
  - intros [= <- <-]. destruct (Hm _ _ _ H1) as (e1 & Ha1 & Ht1). eauto.
Qed.

Lemma logs_weaken {A} (m : M E S A) (T T' : Result E A -> list L -> Prop) :
  logs m T -> (forall r evs, T r evs -> T' r evs) -> logs m T'.
Proof. intros Hm H s r s' He. destruct (Hm _ _ _ He) as (evs & Ha & Ht). eauto. Qed.

Lemma logs_silent {A} (m : M E S A) (T : Result E A -> list L -> Prop) : silent m -> (forall r, T r []) -> logs m T.
Proof. intros Hm HT s r s' He. exists []. rewrite app_nil_r. split; [by eapply silent_run|apply HT]. Qed.

(** A call that logs nothing, before others *)
Lemma logs_step {A B} (m : M E S A) (k : A -> M E S B) T :
  silent m -> (forall e, T (Err e) []) -> (forall a, logs (k a) T) -> logs (m ≫= k) T.
Proof.
  intros Hm He Hk. eapply (logs_bind _ _ (fun _ evs => evs = [])); [by apply logs_silent| |].
  - by intros e evs ->.
  - intros a evs ->. apply Hk.
Qed.

Lemma logs_handle {A} (m : M E S A) h (T1 T : Result E A -> list L -> Prop) :
  logs m T1 -> (forall a evs, T1 (Ok a) evs -> T (Ok a) evs) ->
  (forall e evs, T1 (Err e) evs -> match h e with Some k => logs k (fun r evs' => T r (evs ++ evs')) | None => T (Err e) evs end) ->
  logs (handle m h) T.
Proof.
  intros Hm Ho He s r s'. unfold handle. destruct (m s) as [[a|e] s1] eqn:H1; destruct (Hm _ _ _ H1) as (e1 & Ha1 & Ht1).
  - intros [= <- <-]. eauto.
  - specialize (He e e1 Ht1). destruct (h e) as [k|]; [|intros [= <- <-]; eauto].
    intros H2. destruct (He _ _ _ H2) as (e2 & Ha2 & Ht2). exists (e1 ++ e2). by rewrite app_assoc, <-Ha1.
Qed.
End logs.
