(* ===== verification/EvidenceProofs.v ===== *)
(** * Evidence under interference

    What the functions of [EvidenceStore] guarantee while other processes change the file
    system between any two of their calls, with no assumption on what they do: what was read, from
    which file, and that two looks at the file, before and after, agree ([read_file]).  What this says
    of the disk rests on one condition, [changes_show]: a file whose two looks agree has not
    changed in between.  Where it is used, it is written.  Then retention: what the sweep
    removes on a file system that nobody else changes. *)

From S2P Require Import Prelude Text Json Evidence JsonCodec Documents Registry Checks Parsers WorkerContracts Models Iso8601 WorkerModels WorkerPolicy Effects Files EvidenceStore.

#[local] Open Scope Z_scope.

(** ** File systems that change by themselves *)

Definition inode (fs : Fs) (ino : Z) : Inode := default no_inode (inodes fs !! ino).

(** The path names a regular file with this content, its last component not followed. *)
Definition file_at (fs : Fs) (p : path) (content : string) : Prop :=
  exists q ino, find_entry (entries fs) p = Ok (q, File ino) /\ in_content (inode fs ino) = content.

Section interference.
Context (others : nat -> Fs -> Fs).

(** What a call that changes nothing finds *)
Definition tick (d : Disk) : Disk := {| disk := others (calls d) (disk d); calls := S (calls d) |}.
Definition later (d d' : Disk) : Prop := exists k, d' = Nat.iter k tick d.

#[global] Instance later_refl : Reflexive later.
Proof. intros d. by exists 0%nat. Qed.
#[global] Instance later_trans : Transitive later.
Proof. intros d1 d2 d3 [k ->] [k' ->]. exists (k' + k)%nat. by rewrite Nat.iter_add. Qed.

Lemma later_tick d : later d (tick d).
Proof. by exists 1%nat. Qed.

(** Some file system between two moments *)
Definition sometime (d d' : Disk) (P : Fs -> Prop) : Prop := exists m, later d m /\ later m d' /\ P (disk m).

Lemma sometime_widen d0 d d' d1 P : later d0 d -> later d' d1 -> sometime d d' P -> sometime d0 d1 P.
Proof. intros H0 H1 (m & H & H' & HP). exists m. split_and!; [by etrans|by etrans|done]. Qed.

(** ** Functions that only look *)

Lemma query_ok {A} (f : Fs -> Result Exc A) d a d' : query others f d = (Ok a, d') -> f (disk d') = Ok a /\ d' = tick d.
Proof. unfold query, call. by intros [= ? <-]. Qed.

Lemma always_query {A} (f : Fs -> Result Exc A) : always later (query others f).
Proof. intros d. apply later_tick. Qed.

Create HintDb looks.
Create HintDb expected.
#[local] Ltac looks :=
  always; try (first [apply always_query | solve [eauto with looks]
    | lazymatch goal with |- always _ (match ?x with _ => _ end) => destruct x; looks end]).

Lemma looks_contains child root : always later (contains others child root).
Proof. unfold contains, resolve. looks. Qed.
#[local] Hint Resolve looks_contains : looks.

Lemma looks_assert_not_reparse p : always later (assert_not_reparse others p).
Proof. unfold assert_not_reparse, exists_, is_symlink, lstat. looks. Qed.
#[local] Hint Resolve looks_assert_not_reparse : looks.

Lemma looks_ancestry p : always later (assert_no_reparse_ancestry others p).
Proof. unfold assert_no_reparse_ancestry. looks. Qed.
#[local] Hint Resolve looks_ancestry : looks.

Lemma looks_assert_regular p root : always later (assert_regular_contained others p root).
Proof. unfold assert_regular_contained, lstat. looks. Qed.
#[local] Hint Resolve looks_assert_regular : looks.

Lemma looks_safe_path root rel : always later (safe_path others root rel).
Proof. unfold safe_path. looks. Qed.
#[local] Hint Resolve looks_safe_path : looks.

Lemma looks_convert {A} (m : M Exc Disk A) e : always later m -> always later (convert_os_error m e).
Proof. intros H. apply always_handle; [apply _|done|]. intros e' k. case_match; [|done]. intros [= <-]. looks. Qed.

Lemma looks_read_marker p : always later (read_bounded_regular_text others p).
Proof.
  unfold read_bounded_regular_text, lstat, open_nofollow, fstat, read_at. looks.
  apply looks_convert. looks.
Qed.
#[local] Hint Resolve looks_read_marker : looks.

Lemma looks_open p root : always later (open_regular_contained others p root).
Proof. unfold open_regular_contained, open_nofollow, fstat. looks. apply looks_convert. looks. Qed.
#[local] Hint Resolve looks_open : looks.

Lemma looks_read_chunks fuel fd max data : always later (read_chunks others fuel fd max data).
Proof. revert data. induction fuel as [|fuel IH]; intros data; cbn [read_chunks]; unfold read_at; looks. Qed.
#[local] Hint Resolve looks_read_chunks : looks.

Lemma looks_sha256 fd max : always later (sha256_descriptor others fd max).
Proof. unfold sha256_descriptor. looks. Qed.
#[local] Hint Resolve looks_sha256 : looks.

Lemma looks_ok {A} (m : M Exc Disk A) d a d' : always later m -> m d = (Ok a, d') -> later d d'.
Proof. intros H He. specialize (H d). by rewrite He in H. Qed.

(** ** What is read *)

Lemma stat_regular fs e : st_regular (stat_of fs e) = true -> exists ino, e = File ino.
Proof. destruct e; try done. eauto. Qed.

Lemma stat_same fs fs' ino e : same_file_identity (stat_of fs (File ino)) (stat_of fs' e) = true -> e = File ino.
Proof.
  unfold same_file_identity. intros (((H1 & _)%andb_prop & _)%andb_prop & _)%andb_prop.
  apply bool_decide_eq_true in H1. destruct e; try done. by injection H1 as <-.
Qed.

Lemma lstat_ok p d st d' : lstat others p d = (Ok st, d') ->
  exists q e, find_entry (entries (disk d')) p = Ok (q, e) /\ st = stat_of (disk d') e /\ later d d'.
Proof.
  intros [H ->]%query_ok. destruct (find_entry _ p) as [[q e]|] eqn:He; [|done]. injection H as <-.
  exists q, e. split_and!; [done|done|apply later_tick].
Qed.

(** [st] is what [p], a regular file, was at the moment [d']. *)
Definition seen (d' : Disk) (p : path) (st : Stat) (ino : Z) : Prop :=
  (exists q, find_entry (entries (disk d')) p = Ok (q, File ino)) /\ st = stat_of (disk d') (File ino).

Lemma lstat_seen p d st d' : lstat others p d = (Ok st, d') -> st_regular st = true -> exists ino, seen d' p st ino.
Proof.
  intros (q & e & Hq & -> & _)%lstat_ok [ino ->]%stat_regular. exists ino. split; eauto.
Qed.

Lemma assert_regular_ok p root d st d' : assert_regular_contained others p root d = (Ok st, d') ->
  later d d' /\ exists ino, seen d' p st ino.
Proof.
  intros H. split; [by eapply looks_ok; [apply looks_assert_regular|]|].
  unfold assert_regular_contained in H. inv_run H.
  apply andb_prop in Hb as [_ Hreg].
  by eapply lstat_seen.
Qed.

Lemma convert_ok {A} (m : M Exc Disk A) e d a d' : convert_os_error m e d = (Ok a, d') -> m d = (Ok a, d').
Proof. unfold convert_os_error, handle. destruct (m d) as [[a'|e'] d1]; [done|]. by destruct (is_os_error e'). Qed.

Lemma open_ok p root d fd before d' : open_regular_contained others p root d = (Ok (fd, before), d') ->
  exists ino d1, later d d1 /\ later d1 d' /\ fd = File ino /\ seen d1 p before ino.
Proof.
  intros H. unfold open_regular_contained in H. inv_run H.
  apply assert_regular_ok in Hr as [Hl (ino & Hs)].
  apply convert_ok in Hr0. apply andb_prop in Hb as [Hreg Hsame]. simplify_eq.
  apply query_ok in Hr0 as [_ ->]. apply query_ok in Hr1 as [Hst ->]. injection Hst as <-.
  apply stat_regular in Hreg as [ino' ->]. destruct Hs as [Hq ->]. apply stat_same in Hsame as [= ->].
  exists ino, w. split_and!; [done| |done|by split]. etrans; apply later_tick.
Qed.

Lemma read_at_ok ino offset n d data d' : read_at others (File ino) offset n d = (Ok data, d') ->
  data = of_chars (take_z n (drop (Z.to_nat offset) (to_chars (in_content (inode (disk d') ino))))) /\ later d d'.
Proof. intros [H ->]%query_ok. injection H as <-. split; [done|apply later_tick]. Qed.

Lemma take_z_nil {A} n (l : list A) : 0 < n -> take_z n l = [] -> l = [].
Proof.
  unfold take_z. intros Hn. destruct (Z.leb_spec (Z.of_nat (length l)) n); [done|].
  destruct l as [|x l]; [done|]. destruct (Z.to_nat n) eqn:E; [lia|done].
Qed.

Lemma take_z_prefix {A} n (l : list A) : take_z n l `prefix_of` l.
Proof. unfold take_z. case_match; [done|]. apply prefix_take. Qed.

Lemma take_z_all {A} n (l : list A) : Z.of_nat (length (take_z n l)) < n -> take_z n l = l.
Proof. unfold take_z. destruct (Z.leb_spec (Z.of_nat (length l)) n); [done|]. rewrite length_take. lia. Qed.

(** *** What a file that is read was *)

Definition content_at (d : Disk) (ino : Z) : list ascii := to_chars (in_content (inode (disk d) ino)).

(** What is gathered from an open file until [d'], after [data] was: at each moment the file may hold something else; a
    piece is what it held then after what was gathered before, and the last look found nothing more. *)
Inductive gathered (ino : Z) (d' : Disk) : Disk -> list ascii -> list ascii -> Prop :=
| gathered_end d m data : later d m -> later m d' -> drop (length data) (content_at m ino) = [] -> gathered ino d' d data data
| gathered_piece d m data n all : later d m -> later m d' ->
    gathered ino d' m (data ++ take_z n (drop (length data) (content_at m ino))) all -> gathered ino d' d data all.

(** Between [d] and [d'] this text was read from [p]: the path named a regular file and did so again after the reading,
    the two looks agree on its inode, its size and its times, and the text was gathered from it in between. *)
Definition read_file (d d' : Disk) (p : path) (size : Z) (text : string) : Prop :=
  exists ino m m', later d m /\ later m m' /\ later m' d' /\
    (exists q, find_entry (entries (disk m)) p = Ok (q, File ino)) /\ (exists q, find_entry (entries (disk m')) p = Ok (q, File ino)) /\
    same_file_identity (stat_of (disk m) (File ino)) (stat_of (disk m') (File ino)) = true /\
    st_size (stat_of (disk m) (File ino)) = size /\ gathered ino m' m [] (to_chars text).

(** Between [d] and [d'] there was a moment at which [p] named a regular file with this content, of this size. *)
Definition was_present (d d' : Disk) (p : path) (size : Z) (text : string) : Prop :=
  sometime d d' (fun fs => file_at fs p text) /\ str_length text = size.

(** A change of a file shows: when two looks agree on its inode, its size and its times, it held the same all the time
    between them. *)
Definition changes_show (d d' : Disk) : Prop := forall ino m m', later d m -> later m m' -> later m' d' ->
  same_file_identity (stat_of (disk m) (File ino)) (stat_of (disk m') (File ino)) = true ->
  forall k, later m k -> later k m' -> in_content (inode (disk k) ino) = in_content (inode (disk m) ino).

Lemma gathered_before ino d' d0 d data all : later d0 d -> gathered ino d' d data all -> gathered ino d' d0 data all.
Proof.
  intros Hl H. destruct H as [d m data Hl1 Hl2 He|d m data n all Hl1 Hl2 H].
  - eapply gathered_end; [by etrans; [exact Hl|]|done|done].
  - eapply gathered_piece; [by etrans; [exact Hl|]|done|exact H].
Qed.

(** From a file that does not change, the whole of it is gathered. *)
Lemma gathered_stable ino m0 d' content d data all : gathered ino d' d data all -> later m0 d ->
  (forall k, later m0 k -> later k d' -> content_at k ino = content) -> data `prefix_of` content -> all = content.
Proof.
  induction 1 as [d m data Hl1 Hl2 He|d m data n all Hl1 Hl2 _ IH]; intros Hl Hsame [rest ->].
  - rewrite Hsame, drop_app_length in He; [|by etrans|done]. by rewrite He, app_nil_r.
  - apply IH; [by etrans|done|]. rewrite Hsame, drop_app_length; [|by etrans|done]. apply prefix_app, take_z_prefix.
Qed.

Lemma read_was_present d d' p size text : changes_show d d' -> read_file d d' p size text -> was_present d d' p size text.
Proof.
  intros Hshow (ino & m & m' & Hl & Hl1 & Hl2 & [q Hq] & _ & Hsame & <- & Hg).
  pose proof (Hshow ino m m' Hl Hl1 Hl2 Hsame) as Hconst.
  assert (to_chars text = content_at m ino) as Htext.
  { eapply gathered_stable; [exact Hg|reflexivity| |apply prefix_nil]. intros k H1 H2. unfold content_at. by rewrite Hconst. }
  apply (f_equal of_chars) in Htext. unfold content_at in Htext. rewrite !of_to_chars in Htext. subst text. split; [|done].
  exists m. split_and!; [done|by etrans; [exact Hl1|]|]. by exists q, ino.
Qed.

Lemma read_widen d0 d d' d1 p size text : later d0 d -> later d' d1 -> read_file d d' p size text -> read_file d0 d1 p size text.
Proof.
  intros H0 H1 (ino & m & m' & Hl & Hl1 & Hl2 & H). exists ino, m, m'. split_and!; [by etrans|done|by etrans|apply H..].
Qed.

Lemma read_chunks_gathered fuel ino max dend : forall data d data' d',
  read_chunks others fuel (File ino) max data d = (Ok data', d') -> later d' dend ->
  gathered ino dend d (to_chars data) (to_chars data').
Proof.
  induction fuel as [|fuel IH]; intros data d data' d' H Hend; [done|].
  cbn [read_chunks] in H. inv_run H. apply read_at_ok in Hr as [Ha Hl].
  assert (Hl' : later w d').
  { destruct (bool_decide _); [by inv_run H|]. case_match; [done|].
    by eapply looks_ok; [apply looks_read_chunks|]. }
  rewrite <- to_chars_length, Nat2Z.id in Ha.
  destruct (decide (a = "")) as [->|Hne].
  - rewrite bool_decide_true in H by done. inv_run H. apply (gathered_end _ _ _ _ _ Hl Hend).
    apply (f_equal to_chars) in Ha. rewrite to_of_chars in Ha. symmetry in Ha. by apply take_z_nil in Ha.
  - rewrite bool_decide_false in H by done. case_match; [done|].
    eapply (gathered_piece _ _ _ w _ HASH_CHUNK_BYTES); [done|by etrans|]. apply IH in H; [|done].
    by rewrite to_chars_app, Ha, to_of_chars in H.
Qed.

(** One read that had room for more *)
Lemma read_gathered ino n d text d' dend : read_at others (File ino) 0 n d = (Ok text, d') -> str_length text < n ->
  later d' dend -> gathered ino dend d [] (to_chars text).
Proof.
  intros [-> Hl]%read_at_ok Hn Hend. cbn [Z.to_nat] in *. rewrite drop_0 in *. fold (content_at d' ino) in *.
  eapply (gathered_piece _ _ _ d' _ n); [done|done|]. cbn [app length]. rewrite drop_0, to_of_chars.
  apply (gathered_end _ _ _ d'); [reflexivity|done|].
  rewrite <- to_chars_length, to_of_chars in Hn. rewrite take_z_all by lia. apply drop_all.
Qed.

(** Between two looks that agree, a file was read. *)
Lemma read_between p root d fd before d1 d2 st d3 text :
  open_regular_contained others p root d = (Ok (fd, before), d1) -> later d1 d2 ->
  assert_regular_contained others p root d2 = (Ok st, d3) -> same_file_identity before st = true ->
  (forall ino, fd = File ino -> gathered ino d3 d1 [] (to_chars text)) ->
  read_file d d3 p (st_size before) text.
Proof.
  intros (ino & d0 & Hl & Hl1 & -> & [Hq ->])%open_ok Hl2 (Hl3 & ino' & [Hq' ->])%assert_regular_ok Hsame Hg.
  pose proof (stat_same _ _ _ _ Hsame) as [= ->]. exists ino, d0, d3.
  split_and!; [done|by etrans; [exact Hl1|]; etrans|done|done|done|done|done|].
  by eapply gathered_before, Hg.
Qed.

(** The hash that stands between the two looks at a file is the hash of what was read. *)
Lemma hash_between p root d fd before d1 max digest d2 st d3 :
  open_regular_contained others p root d = (Ok (fd, before), d1) ->
  sha256_descriptor others fd max d1 = (Ok digest, d2) ->
  assert_regular_contained others p root d2 = (Ok st, d3) ->
  same_file_identity before st = true ->
  exists text, read_file d d3 p (st_size before) text /\ digest = sha256_hex text.
Proof.
  intros Ho Hd Ha Hsame. pose proof (looks_ok _ _ _ _ (looks_sha256 _ _) Hd) as Hl.
  pose proof (looks_ok _ _ _ _ (looks_assert_regular _ _) Ha) as Hl3.
  unfold sha256_descriptor in Hd. inv_run Hd. eexists. split; [|done].
  eapply read_between; [exact Ho|exact Hl|exact Ha|done|]. intros ino ->.
  by eapply read_chunks_gathered in Hr.
Qed.

Lemma safe_path_ok root rel d p d' : safe_path others root rel d = (Ok p, d') ->
  exists normalized, validate_relative_path rel = Ok normalized /\ p = root ++ posix_parts normalized /\ later d d'.
Proof.
  intros H. pose proof (looks_ok _ _ _ _ (looks_safe_path _ _) H) as Hl. unfold safe_path in H.
  destruct (validate_relative_path rel) as [normalized|]; [|done]. inv_run H. by exists normalized.
Qed.

(** [hash_declared_file]: the hash is that of what was read from the file of this size. *)
Lemma hash_declared_file_ok root rel max d size digest d' :
  hash_declared_file others root rel max d = (Ok (size, digest), d') ->
  exists normalized text, validate_relative_path rel = Ok normalized /\
    read_file d d' (root ++ posix_parts normalized) size text /\ digest = sha256_hex text /\ size <= max.
Proof.
  intros H. unfold hash_declared_file in H. inv_run H. destruct a1 as [fd before]. inv_run H.
  apply looks_ok in Hr; [|looks]. apply safe_path_ok in Hr0 as (normalized & Hv & -> & Hl0).
  destruct (hash_between _ _ _ _ _ _ _ _ _ _ _ Hr1 Hr2 Hr3 Hb0) as (text & Hf & ->).
  simplify_eq. assert (st_size a3 = st_size before) as Hsize.
  { unfold same_file_identity in Hb0. rewrite !andb_true_iff, !Z.eqb_eq in Hb0. symmetry. tauto. }
  exists normalized, text. rewrite Hsize. split_and!; [done| |done|lia].
  eapply read_widen; [|reflexivity|exact Hf]. by etrans; [exact Hr|].
Qed.

Lemma read_marker_ok p d data d' : read_bounded_regular_text others p d = (Ok data, d') ->
  later d d' /\ str_length data <= MAX_MARKER_BYTES /\ exists size, read_file d d' p size data.
Proof.
  intros H. pose proof (looks_ok _ _ _ _ (looks_read_marker p) H) as Hl.
  unfold read_bounded_regular_text in H. inv_run H. split_and!; [done|lia|].
  apply andb_prop in Hb as [_ Hreg]. destruct (lstat_ok _ _ _ _ Hr) as (_ & _ & _ & _ & Hl0).
  destruct (lstat_seen _ _ _ _ Hr Hreg) as (ino & [Hq ->]).
  apply convert_ok, query_ok in Hr0 as [_ ->]. apply query_ok in Hr1 as [[= <-] ->].
  apply andb_prop in Hb1 as [_ Hsame1]. apply stat_same in Hsame1 as ->.
  pose proof (looks_ok _ _ _ _ (always_query _) Hr2) as Hl2. apply query_ok in Hr3 as [_ ->].
  apply andb_prop in Hb4 as [_ Hsame]. destruct (lstat_ok _ _ _ _ Hr4) as (q & e & Hq' & -> & Hl4).
  pose proof (stat_same _ _ _ _ Hsame) as ->.
  assert (Hl5 : later w2 w4) by (etrans; [apply later_tick|exact Hl4]).
  assert (Hl01 : later w (tick (tick w))) by (etrans; apply later_tick).
  assert (Hl02 : later w w2) by (by etrans; [exact Hl01|]).
  eexists _, ino, w, w4. split_and!; [done|by etrans; [exact Hl02|]|done|done|by eexists|exact Hsame|done|].
  eapply gathered_before; [exact Hl01|]. eapply read_gathered; [exact Hr2|lia|done].
Qed.

(** *** The marker *)

(** How a text of this size is known to be in a file: it was read ([read_file]), or it was there ([was_present]). *)
#[local] Notation Has := (path -> Z -> string -> Prop).
Definition stronger (has has' : Has) : Prop := forall p size text, has p size text -> has' p size text.

(** The marker of the store is what it expects. *)
Definition marker_ok (s : EvidenceStore) (has : Has) : Prop :=
  exists text size found, has (marker s) size text /\ str_length text <= MAX_MARKER_BYTES /\
    loads text = Some found /\ py_equal found (expected_marker s) = true.

Lemma marker_weaken s has has' : stronger has has' -> marker_ok s has -> marker_ok s has'.
Proof. intros Hs (text & size & found & H & Hrest). exists text, size, found. split; [by apply Hs|done]. Qed.

Lemma stronger_widen d0 d d' d1 : later d0 d -> later d' d1 -> stronger (read_file d d') (read_file d0 d1).
Proof. intros H0 H1 p size text. by apply read_widen. Qed.

Lemma stronger_was_present d d' : changes_show d d' -> stronger (read_file d d') (was_present d d').
Proof. intros H p size text. by apply read_was_present. Qed.

Lemma looks_ownership s : always later (verify_ownership others s).
Proof.
  unfold verify_ownership. looks. apply always_handle; [apply _|looks|].
  intros e k. case_match; [done|]. case_match; [|done]. intros [= <-]. looks.
Qed.

Lemma verify_ownership_ok s d u d' : verify_ownership others s d = (Ok u, d') ->
  later d d' /\ marker_ok s (read_file d d').
Proof.
  intros H. pose proof (looks_ok _ _ _ _ (looks_ownership s) H) as Hl. split; [done|].
  unfold verify_ownership in H. inv_run H.
  apply looks_ok in Hr; [|looks]. apply looks_ok in Hr0; [|looks].
  apply handle_ok in Hr1 as [Hr1|(e & k & d1 & _ & Hk & He)].
  - inv_run Hr1. apply read_marker_ok in Hr2 as (Hl2 & Hsz & size & Hf).
    exists a2, size, a1. split_and!; [|done..]. eapply read_widen; [|reflexivity|exact Hf]. by etrans; [exact Hr|].
  - case_match; [done|]. case_match; [|done]. injection Hk as <-. done.
Qed.

(** *** The record *)

Lemma looks_stable_json p root max : always later (read_stable_json others p root max).
Proof. unfold read_stable_json, read_at. looks. Qed.

Lemma read_stable_json_ok p root max d j d' : read_stable_json others p root max d = (Ok j, d') ->
  exists text size, read_file d d' p size text /\ loads text = Some j /\ str_length text <= max.
Proof.
  intros H. unfold read_stable_json in H. inv_run H. destruct a as [fd before]. inv_run H.
  pose proof (looks_ok _ _ _ _ (always_query _) Hr0) as Hl.
  pose proof (looks_ok _ _ _ _ (looks_assert_regular _ _) Hr1) as Hl1.
  eexists _, _. split_and!; [|done|lia]. eapply read_between; [exact Hr|exact Hl|exact Hr1|done|].
  intros ino ->. eapply read_gathered; [exact Hr0|lia|done].
Qed.

(** *** The artifacts *)

Section verify.
Context (decode_evidence : Json -> option ExecutionEvidence) (decode_identity : Json -> option EvidenceReuseIdentity).
Context (worker_id : string) (candidate : ReuseCandidate).

(** The result that the run left matches the candidate. *)
Definition record_ok (s : EvidenceStore) (limits : EvidenceLimits) (has : Has) : Prop :=
  exists text size fields evidence identity,
    has (result_path s) size text /\ str_length text <= el_maximum_artifact_bytes limits /\
    loads text = Some (JObj fields) /\ has_exactly fields RECORD_FIELDS = true /\
    decode_evidence (member "evidence" fields) = Some evidence /\
    decode_identity (member "reuse_identity" fields) = Some identity /\
    record_matches worker_id candidate evidence identity (member "reuse_identity_hash" fields) = true.

Lemma record_weaken s limits has has' : stronger has has' -> record_ok s limits has -> record_ok s limits has'.
Proof. intros Hs (text & size & f & e & i & H & Hrest). exists text, size, f, e, i. split; [by apply Hs|done]. Qed.

(** The artifact is in the directory of the run, with its size and its hash. *)
Definition artifact_ok (s : EvidenceStore) (limits : EvidenceLimits) (record : ArtifactRecord) (has : Has) : Prop :=
  exists normalized content,
    validate_relative_path (art_relative_path record) = Ok normalized /\
    has (es_run_directory s ++ posix_parts normalized) (art_size_bytes record) content /\
    art_size_bytes record <= el_maximum_artifact_bytes limits /\ sha256_hex content = art_sha256 record.

Lemma artifact_weaken s limits record has has' : stronger has has' -> artifact_ok s limits record has -> artifact_ok s limits record has'.
Proof. intros Hs (n & c & Hv & H & Hrest). exists n, c. split_and!; [done|by apply Hs|apply Hrest..]. Qed.

Lemma looks_record s limits : always later (verify_record others decode_evidence decode_identity worker_id candidate s limits).
Proof.
  unfold verify_record. apply always_handle; [apply _| |].
  - apply always_bind; [apply _|apply looks_stable_json|]. intros j. looks.
  - intros e k H. repeat (case_match; [injection H as <-; looks|]). done.
Qed.

Lemma verify_record_ok s limits d d' :
  verify_record others decode_evidence decode_identity worker_id candidate s limits d = (Ok None, d') ->
  later d d' /\ record_ok s limits (read_file d d').
Proof.
  intros H. pose proof (looks_ok _ _ _ _ (looks_record s limits) H) as Hl. split; [done|].
  unfold verify_record in H. apply handle_ok in H as [H|(e & k & d1 & _ & Hk & He)].
  - apply bind_ok in H as (j & d1 & Hr & H). destruct (read_stable_json_ok _ _ _ _ _ _ Hr) as (text & size & Hf & Hj & Hsz).
    apply looks_ok in Hr; [|apply looks_stable_json].
    destruct j as [| | | | | |fields]; inv_run H; try done. destruct (has_exactly _ _) eqn:Hx; cbn [negb] in H; inv_run H; [|done].
    destruct (record_matches _ _ _ _ _) eqn:Hm; [|done].
    exists text, size, fields, a, a0. by split_and!.
  - repeat (case_match; [injection Hk as <-; by inv_run He|]). done.
Qed.

Lemma looks_artifact s limits total record : always later (verify_artifact others candidate s limits total record).
Proof. unfold verify_artifact. looks. Qed.

Lemma verify_artifact_ok s limits total record d total' d' :
  verify_artifact others candidate s limits total record d = (Ok (inr total'), d') ->
  later d d' /\ artifact_ok s limits record (read_file d d') /\
  art_retention_expires_at record = cand_retention_expires_at candidate /\
  total' = total + art_size_bytes record /\ total' <= el_maximum_total_bytes limits.
Proof.
  intros H. pose proof (looks_ok _ _ _ _ (looks_artifact s limits total record) H) as Hl. split; [done|].
  unfold verify_artifact in H. case_match eqn:Hret; [done|]. inv_run H. destruct a0 as [fd before].
  destruct (Z.eqb_spec (st_size before) (art_size_bytes record)) as [Hsz|]; cbn [negb] in H; [|done].
  destruct (Z.ltb_spec (el_maximum_artifact_bytes limits) (st_size before)); [done|].
  destruct (Z.ltb_spec (el_maximum_total_bytes limits) (total + st_size before)); [done|].
  inv_run H. destruct (same_file_identity before a1) eqn:Hsame; cbn [negb] in H; [|done].
  case_bool_decide as Hdig; cbn [negb] in H; [|done]. inv_run H. simplify_eq.
  destruct (hash_between _ _ _ _ _ _ _ _ _ _ _ Hr0 Hr1 Hr2 Hsame) as (content & Hf & Hd).
  apply safe_path_ok in Hr as (normalized & Hv & -> & Hl0).
  split_and!; [|lia|lia|lia]. exists normalized, content. rewrite Hsz in Hf. split_and!; [done| |lia|done].
  by eapply read_widen; [exact Hl0|reflexivity|].
Qed.

Definition sizes (records : list ArtifactRecord) : Z := fold_right Z.add 0 (map art_size_bytes records).

Lemma verify_artifacts_ok s limits : forall records total d d',
  verify_artifacts others candidate s limits total records d = (Ok None, d') ->
  later d d' /\
  (forall record, record ∈ records -> artifact_ok s limits record (read_file d d') /\
    art_retention_expires_at record = cand_retention_expires_at candidate) /\
  (records <> [] -> total + sizes records <= el_maximum_total_bytes limits).
Proof.
  induction records as [|record records IH]; intros total d d' H; cbn [verify_artifacts] in H.
  - inv_run H. split_and!; [done| |done]. by intros record ?%elem_of_nil.
  - apply bind_ok in H as (answer & d1 & Ha & H). destruct answer as [reason|total']; [done|].
    destruct (verify_artifact_ok _ _ _ _ _ _ _ Ha) as (Hl & Hs & Hret & -> & Hle).
    destruct (IH _ _ _ H) as (Hl' & Hall & Hsum). split_and!; [by etrans| |].
    + intros r [->|Hin]%elem_of_cons.
      * split; [|done]. by eapply artifact_weaken, Hs; apply stronger_widen.
      * destruct (Hall r Hin) as [H1 H2]. split; [|done]. by eapply artifact_weaken, H1; apply stronger_widen.
    + intros _. destruct records as [|r records]; [cbn in *; lia|]. specialize (Hsum ltac:(done)). cbn in *. lia.
Qed.

Lemma refusing_ok (m : M Exc Disk (option string)) r1 r2 (b1 b2 : Exc -> bool) d d' :
  handle m (fun e => if b1 e then Some (mret (Some r1)) else if b2 e then Some (mret (Some r2)) else None) d = (Ok None, d') ->
  m d = (Ok None, d').
Proof.
  intros [H|(e & k & d1 & _ & Hk & He)]%handle_ok; [done|].
  repeat (case_match; [injection Hk as <-; by inv_run He|]). done.
Qed.

(** Everything that an accepted candidate promises *)
Definition candidate_ok (s : EvidenceStore) (limits : EvidenceLimits) (has : Has) : Prop :=
  marker_ok s has /\ record_ok s limits has /\
  forall record, record ∈ cand_artifacts candidate -> artifact_ok s limits record has.

Lemma candidate_weaken s limits has has' : stronger has has' -> candidate_ok s limits has -> candidate_ok s limits has'.
Proof.
  intros Hs (H1 & H2 & H3). split_and!; [by eapply marker_weaken|by eapply record_weaken|].
  intros record Hin. by eapply artifact_weaken, H3.
Qed.

(** It was read during the verification. *)
Lemma verify_reuse_candidate_ok evidence_root now limits d reason d' :
  verify_reuse_candidate others decode_evidence decode_identity worker_id candidate evidence_root now limits d
    = (Ok (true, reason), d') ->
  let s := candidate_store worker_id candidate evidence_root limits in
  later d d' /\ cand_expected_source_worker_id candidate = worker_id /\ now < cand_retention_expires_at candidate /\
  Z.of_nat (length (cand_artifacts candidate)) <= el_maximum_artifact_count limits /\
  (forall record, record ∈ cand_artifacts candidate ->
    art_retention_expires_at record = cand_retention_expires_at candidate) /\
  (cand_artifacts candidate <> [] -> sizes (cand_artifacts candidate) <= el_maximum_total_bytes limits) /\
  candidate_ok s limits (read_file d d').
Proof.
  intros H s. unfold verify_reuse_candidate in H. fold s in H.
  case_bool_decide as Hw; cbn [negb] in H; [|by inv_run H].
  destruct (Z.leb_spec (cand_retention_expires_at candidate) now); [by inv_run H|].
  destruct (Z.ltb_spec (el_maximum_artifact_count limits) (Z.of_nat (length (cand_artifacts candidate)))); [by inv_run H|].
  apply bind_ok in H as ([?|] & d1 & Ho & H); [by inv_run H|]. apply refusing_ok in Ho.
  apply bind_ok in H as ([?|] & d2 & Hr & H); [by inv_run H|].
  apply bind_ok in H as ([?|] & d3 & Ha & H); [by inv_run H|]. apply refusing_ok in Ha. inv_run H.
  apply bind_ok in Ho as ([] & d0 & Hl & Ho). apply looks_ok in Hl; [|looks]. inv_run Ho.
  apply verify_ownership_ok in Hr0 as [Hl1 Hm].
  apply verify_record_ok in Hr as [Hl2 Hr].
  apply bind_ok in Ha as ([?|] & d4 & Hv & Ha); [by inv_run Ha|]. inv_run Ha.
  apply verify_ownership_ok in Hr0 as [Hl4 _].
  apply verify_artifacts_ok in Hv as (Hl3 & Hall & Hsum).
  assert (Hl24 : later d2 w0) by (by etrans; [exact Hl3|]). assert (Hlw : later w w0) by (by etrans; [exact Hl2|]).
  assert (Hldw : later d w) by (by etrans; [exact Hl|]). assert (Hld2 : later d d2) by (by etrans; [exact Hldw|]).
  split_and!; [by etrans; [exact Hldw|]|done|done|done|intros record Hin; by apply Hall|intros Hne; by apply Hsum in Hne|].
  split_and!.
  - by eapply marker_weaken, Hm; apply stronger_widen.
  - by eapply record_weaken, Hr; apply stronger_widen.
  - intros record Hin. destruct (Hall _ Hin) as [Hs _]. by eapply artifact_weaken, Hs; apply stronger_widen.
Qed.

End verify.

(** *** Artifacts that a run finalizes *)

Section finalize.
Context (s : EvidenceStore).

(** A record of an artifact that a step produced: its file has the size and the hash. *)
Definition described_by (has : Has) (declaration : string * TrustedArtifact) (record : ArtifactRecord) : Prop :=
  let '(step_id, a) := declaration in
  exists normalized size content,
    validate_relative_path (ta_relative_path a) = Ok normalized /\
    has (es_run_directory s ++ posix_parts normalized) size content /\
    size <= el_maximum_artifact_bytes (es_limits s) /\
    record = {| art_kind := ta_kind a; art_relative_path := ta_relative_path a; art_size_bytes := size;
                art_sha256 := sha256_hex content; art_media_type := ta_media_type a;
                art_retention_expires_at := es_retention_expires_at s; art_redaction_state := ta_redaction_state a;
                art_produced_by_step := Some step_id |}.

Lemma described_weaken has has' declaration record :
  stronger has has' -> described_by has declaration record -> described_by has' declaration record.
Proof.
  destruct declaration as [step_id a]. intros Hs (n & z & c & Hv & H & Hrest). exists n, z, c.
  split_and!; [done|by apply Hs|apply Hrest..].
Qed.

Lemma finalize_artifact_ok total step_id a d total' record d' :
  finalize_artifact others s total step_id a d = (Ok (total', record), d') ->
  later d d' /\ described_by (read_file d d') (step_id, a) record /\
  total' = total + art_size_bytes record /\ total' <= el_maximum_total_bytes (es_limits s) /\
  valid_artifact_document isoformat_z record = true.
Proof.
  intros H. unfold finalize_artifact in H. inv_run H. destruct a1 as [fd before]. inv_run H.
  destruct (hash_between _ _ _ _ _ _ _ _ _ _ _ Hr0 Hr1 Hr2 Hb1) as (content & Hf & ->).
  apply safe_path_ok in Hr as (normalized & Hv & -> & Hl0).
  apply open_ok in Hr0 as (_ & m & Hl1 & Hl2 & _). apply looks_ok in Hr1; [|looks]. apply looks_ok in Hr2; [|looks].
  assert (Hlater : later d w2) by (repeat (etrans; [eassumption|]); done).
  unfold validated_model in Hl. case_match eqn:Hvalid; [|done]. apply andb_prop in Hvalid as [_ Hvalid].
  simplify_eq. split_and!; [done| |done|lia|done].
  exists normalized, (st_size before), content. split_and!; [done| |lia|done]. by eapply read_widen; [exact Hl0|reflexivity|].
Qed.

Lemma finalize_loop declarations : forall total records d total' records' d',
  for_each (fun '(total, records) '(step_id, a) =>
      '(total, record) ← finalize_artifact others s total step_id a; mret (total, records ++ [record]))
    (total, records) declarations d = (Ok (total', records'), d') ->
  exists added, records' = records ++ added /\ later d d' /\
    Forall2 (described_by (read_file d d')) declarations added /\
    total' = total + sizes added /\ (declarations <> [] -> total' <= el_maximum_total_bytes (es_limits s)).
Proof.
  induction declarations as [|[step_id a] declarations IH]; intros total records d total' records' d' H.
  - cbn in H. inv_run H. simplify_eq. exists []. rewrite app_nil_r. split_and!; [done|done|constructor|cbn; lia|done].
  - cbn [for_each] in H. apply bind_ok in H as ([total1 records1] & d1 & Ha & H).
    apply bind_ok in Ha as ([total2 record] & d2 & Ha & Hret). inv_run Hret. simplify_eq.
    destruct (finalize_artifact_ok _ _ _ _ _ _ _ Ha) as (Hl & Hs & -> & Hle & _).
    destruct (IH _ _ _ _ _ _ H) as (added & -> & Hl' & Hall & -> & Hle'). exists (record :: added).
    rewrite <- app_assoc. split_and!; [done|by etrans| |cbn; unfold sizes; cbn; lia|].
    + constructor; [by eapply described_weaken, Hs; apply stronger_widen|].
      eapply Forall2_impl; [exact Hall|]. intros x y. by apply described_weaken, stronger_widen.
    + intros _. destruct declarations as [|x declarations]; [|by apply Hle'].
      apply Forall2_nil_inv_l in Hall as ->. cbn in *. lia.
Qed.

(** C17. Every record that [finalize_artifacts] returns describes, in order, the file that its declaration names, and the
    limits of the store hold. Whatever other processes do meanwhile: the marker of the run was read to be the expected
    one; the hash of a record is that of what was read from a regular file that its path named before and after the
    reading, with the size of the record, the two looks agreeing on its inode, size and times. If moreover a change of a
    file shows in these ([changes_show], which timestamps that are too coarse would break), then at some moment the file
    had exactly that content and that size. *)
Lemma finalize_artifacts_ok declarations d records d' :
  finalize_artifacts others s declarations d = (Ok records, d') ->
  let holds has := marker_ok s has /\ Forall2 (described_by has) declarations records in
  holds (read_file d d') /\ (changes_show d d' -> holds (was_present d d')) /\
  Z.of_nat (length records) <= el_maximum_artifact_count (es_limits s) /\
  (records <> [] -> sizes records <= el_maximum_total_bytes (es_limits s)) /\
  NoDup (map art_relative_path records).
Proof.
  intros H. unfold finalize_artifacts in H. inv_run H. destruct a2 as [total found]. inv_run H.
  apply verify_ownership_ok in Hr as [Hl Hm].
  apply finalize_loop in Hr0 as (added & -> & Hl' & Hall & -> & Hle). cbn [app].
  pose proof (Forall2_length _ _ _ Hall) as Hlen.
  assert (Hread : marker_ok s (read_file d w0) /\ Forall2 (described_by (read_file d w0)) declarations added).
  { split; [by eapply marker_weaken, Hm; apply stronger_widen|].
    eapply Forall2_impl; [exact Hall|]. intros x y. by apply described_weaken, stronger_widen. }
  split; [exact Hread|]. split_and!.
  - intros Hshow. destruct Hread as [Hmark Hrecs]. split; [by eapply marker_weaken, Hmark; apply stronger_was_present|].
    eapply Forall2_impl; [exact Hrecs|]. intros x y. by apply described_weaken, stronger_was_present.
  - lia.
  - intros Hne. rewrite Z.add_0_l in Hle. apply Hle. by destruct declarations, added.
  - apply bool_decide_eq_true in Hb0. replace (map art_relative_path added) with (map (fun x : string * TrustedArtifact => ta_relative_path x.2) declarations); [done|].
    clear -Hall. induction Hall as [|[step_id a] y l k (n & z & c & _ & _ & _ & ->) _ IH]; [done|]. cbn. by rewrite IH.
Qed.
End finalize.

(** *** The verification always answers *)

Section answers.
Context (decode_evidence : Json -> option ExecutionEvidence) (decode_identity : Json -> option EvidenceReuseIdentity).
Context (worker_id : string) (candidate : ReuseCandidate).


(** An error of a kind that the verification expects *)
Definition expected (e : Exc) : Prop := is_os_error e || is_value_error e || is_runtime_error e = true.

Lemma raises_query {A} (f : Fs -> Result Exc A) : (forall fs e, f fs = Err e -> expected e) -> raises expected (query others f).
Proof. intros Hf d e d' H. unfold query, call in H. injection H as H _. by eapply Hf. Qed.

Lemma find_parent_expected es p e : find_parent es p = Err e -> expected e.
Proof. unfold find_parent. intros H. repeat case_match; simplify_eq; done. Qed.

Lemma find_entry_expected es p e : find_entry es p = Err e -> expected e.
Proof.
  unfold find_entry. intros H. repeat case_match; simplify_eq; try done. by eapply find_parent_expected.
Qed.

Lemma read_at_expected fd offset n : raises expected (read_at others fd offset n).
Proof. apply raises_query. intros fs e H. by destruct fd; simplify_eq. Qed.

Lemma open_expected p : raises expected (open_nofollow others p).
Proof.
  apply raises_query. intros fs e H. repeat case_match; simplify_eq; try done; by eapply find_entry_expected.
Qed.

Lemma lstat_expected p : raises expected (lstat others p).
Proof. apply raises_query. intros fs e H. repeat case_match; simplify_eq. by eapply find_entry_expected. Qed.

Lemma fstat_expected fd : raises expected (fstat others fd).
Proof. by apply raises_query. Qed.

Lemma resolve_expected p : raises expected (resolve others p).
Proof. apply raises_query. intros fs e H. unfold realpath in H. repeat case_match; by simplify_eq. Qed.
Hint Resolve read_at_expected open_expected lstat_expected fstat_expected resolve_expected : expected.

#[local] Ltac answers :=
  raises; try (first [done | solve [eauto with expected]
    | lazymatch goal with |- raises _ (match ?x with _ => _ end) => destruct x; answers end]).

Lemma contains_expected child root : raises expected (contains others child root).
Proof. unfold contains. answers. Qed.
Hint Resolve contains_expected : expected.

Lemma ancestry_expected p : raises expected (assert_no_reparse_ancestry others p).
Proof.
  unfold assert_no_reparse_ancestry, assert_not_reparse. answers; by apply raises_query.
Qed.
Hint Resolve ancestry_expected : expected.

Lemma convert_expected {A} (m : M Exc Disk A) e : raises expected m -> expected e -> raises expected (convert_os_error m e).
Proof.
  intros Hm He. eapply raises_handle; [exact Hm|]. intros e' He'. destruct (is_os_error e'); [by apply raises_raise|done].
Qed.
Hint Resolve convert_expected : expected.
Hint Extern 1 (expected _) => exact eq_refl : expected.

Lemma assert_regular_expected p root : raises expected (assert_regular_contained others p root).
Proof. unfold assert_regular_contained. answers. Qed.
Hint Resolve assert_regular_expected : expected.

Lemma open_regular_expected p root : raises expected (open_regular_contained others p root).
Proof. unfold open_regular_contained. answers. Qed.
Hint Resolve open_regular_expected : expected.

Lemma safe_path_expected root rel : raises expected (safe_path others root rel).
Proof. unfold safe_path. answers. Qed.
Hint Resolve safe_path_expected : expected.

Lemma read_marker_expected p : raises expected (read_bounded_regular_text others p).
Proof. unfold read_bounded_regular_text. answers. Qed.
Hint Resolve read_marker_expected : expected.

Lemma ownership_expected s : raises expected (verify_ownership others s).
Proof.
  unfold verify_ownership. answers. eapply (raises_handle _ _ _ expected); [answers|].
  intros e He. destruct (is_file_not_found e); [done|]. destruct (_ || _); [answers|done].
Qed.
Hint Resolve ownership_expected : expected.

Lemma sha256_expected fd max : raises expected (sha256_descriptor others fd max).
Proof.
  unfold sha256_descriptor. answers. generalize "". induction (read_fuel max) as [|fuel IH]; intros data; cbn [read_chunks]; answers.
Qed.
Hint Resolve sha256_expected : expected.

Lemma artifacts_expected s limits records total : raises expected (verify_artifacts others candidate s limits total records).
Proof. revert total. induction records as [|r records IH]; intros total; cbn [verify_artifacts]; unfold verify_artifact; answers. Qed.
Hint Resolve artifacts_expected : expected.

Lemma stable_json_expected p root max : raises expected (read_stable_json others p root max).
Proof. unfold read_stable_json. answers. Qed.
Hint Resolve stable_json_expected : expected.

(** A block whose handler covers what is expected raises nothing. *)
Lemma refusing_never {A} (m : M Exc Disk A) h : raises expected m ->
  (forall e, expected e -> exists r, h e = Some (mret r)) -> raises (fun _ => False) (handle m h).
Proof.
  intros Hm Hh. eapply raises_handle; [exact Hm|]. intros e [r ->]%Hh. apply raises_ret.
Qed.

Lemma verify_record_never s limits :
  raises (fun _ => False) (verify_record others decode_evidence decode_identity worker_id candidate s limits).
Proof.
  unfold verify_record. apply refusing_never; [answers|]. intros e He. unfold expected in He.
  repeat (case_match; [eauto|]). rewrite orb_true_iff in He. naive_solver congruence.
Qed.

Lemma verify_reuse_candidate_never evidence_root now limits :
  raises (fun _ => False)
    (verify_reuse_candidate others decode_evidence decode_identity worker_id candidate evidence_root now limits).
Proof.
  assert (Hcover : forall r1 r2 e, expected e -> exists r : option string,
    (if is_file_not_found e then Some (mret (Some r1))
     else if is_os_error e || is_value_error e || is_runtime_error e then Some (mret (Some r2)) else None)
    = Some (mret (M := M Exc Disk) r)).
  { intros r1 r2 e He. case_match; [eauto|]. unfold expected in He. rewrite He. eauto. }
  unfold verify_reuse_candidate. raises; try (apply refusing_never; [answers|]; eauto).
  destruct a; raises; [apply verify_record_never|].
  destruct a; raises; [apply refusing_never; [answers|]; eauto|]. destruct a; raises.
Qed.

(** C16. The verification of a candidate always answers, whatever other processes do to the disk meanwhile. When it
    accepts, the run is one of this worker and unexpired, its artifacts are within the limits, and during the
    verification the marker of the run was read to be the expected one, the recorded result to match the candidate in
    every field, and every artifact to have the recorded hash, each from a regular file that its path named before and
    after the reading, the two looks agreeing on its inode, its size (for an artifact the recorded one) and its times.
    If moreover a change of a file shows in these ([changes_show], which timestamps that are too coarse would break),
    then each of these files had, at some moment of the verification, exactly that content. *)
Theorem reuse_verification_sound evidence_root now limits d :
  exists accepted reason d',
    verify_reuse_candidate others decode_evidence decode_identity worker_id candidate evidence_root now limits d
      = (Ok (accepted, reason), d') /\
    (accepted = true ->
     let s := candidate_store worker_id candidate evidence_root limits in
     let holds := candidate_ok decode_evidence decode_identity worker_id candidate s limits in
     cand_expected_source_worker_id candidate = worker_id /\ now < cand_retention_expires_at candidate /\
     Z.of_nat (length (cand_artifacts candidate)) <= el_maximum_artifact_count limits /\
     (forall record, record ∈ cand_artifacts candidate ->
       art_retention_expires_at record = cand_retention_expires_at candidate) /\
     (cand_artifacts candidate <> [] -> sizes (cand_artifacts candidate) <= el_maximum_total_bytes limits) /\
     holds (read_file d d') /\ (changes_show d d' -> holds (was_present d d'))).
Proof.
  destruct (verify_reuse_candidate _ _ _ _ _ _ _ _ d) as [[[accepted reason]|e] d'] eqn:He.
  - exists accepted, reason, d'. split; [done|]. intros -> s holds.
    apply verify_reuse_candidate_ok in He as (_ & H1 & H2 & H3 & H4 & H5 & H6). split_and!; [done..|].
    intros Hshow. by eapply candidate_weaken, H6; apply stronger_was_present.
  - by apply verify_reuse_candidate_never in He.
Qed.
End answers.
End interference.

(** * Retention

    [prune_expired_evidence] on a file system that nobody else changes: exactly the expired,
    intact directories of the worker are removed, each with everything below it, and nothing
    else changes. *)

From S2P Require Import Prelude Text Json JsonCodec Checks Parsers WorkerContracts Models Iso8601 WorkerModels WorkerPolicy Effects Files EvidenceStore.

#[local] Open Scope Z_scope.

(** Nobody else touches the disk. *)
Definition alone : nat -> Fs -> Fs := fun _ fs => fs.

Lemma later_alone d d' : later alone d d' -> disk d' = disk d.
Proof. intros [k ->]. induction k as [|k IH]; [done|]. exact IH. Qed.

Lemma alone_shows d d' : changes_show alone d d'.
Proof.
  intros ino m m' _ _ _ _ k Hk _. by rewrite (later_alone m k Hk).
Qed.

Lemma query_alone {A} (f : Fs -> Result Exc A) d a d' : query alone f d = (Ok a, d') -> f (disk d) = Ok a /\ disk d' = disk d.
Proof. by intros [H ->]%query_ok. Qed.

(** ** Paths without links *)

(** Every component of the path is a directory. *)
Definition directory (es : gmap path Entry) (p : path) : Prop :=
  forall q, q <> [] -> q `prefix_of` p -> es !! q = Some Dir.

Lemma directory_parent es p c : directory es (p ++ [c]) -> directory es p.
Proof. intros H q Hq Hp. apply H; [done|]. by apply prefix_app_r. Qed.

Lemma prefix_snoc_inv {A} (q p : list A) c : q `prefix_of` p ++ [c] -> q = p ++ [c] \/ q `prefix_of` p.
Proof.
  intros [k Hk]. destruct k as [|x k _] using rev_ind; [left; by rewrite app_nil_r in Hk|].
  rewrite app_assoc in Hk. apply app_inj_tail in Hk as [-> _]. right. by exists k.
Qed.

Lemma directory_snoc es p c : directory es p -> es !! (p ++ [c]) = Some Dir -> directory es (p ++ [c]).
Proof. intros Hd Hc q Hq [->|Hp]%prefix_snoc_inv; [done|by apply Hd]. Qed.

Section paths.
Context (es : gmap path Entry).

Lemma walk_nil fuel cur : walk es fuel cur [] = Some (cur, []).
Proof. by destruct fuel. Qed.

Lemma walk_cons fuel cur c rest : walk es fuel cur (c :: rest) =
  match es !! (cur ++ [c]) with
  | Some Dir => walk es fuel (cur ++ [c]) rest
  | Some (Link target) => match fuel with O => None | S fuel' => walk es fuel' [] (target ++ rest) end
  | Some _ => Some (cur ++ [c], rest)
  | None => Some (cur, c :: rest)
  end.
Proof. by destruct fuel. Qed.

(** A path of directories is walked as it is written. *)
Lemma walk_directory fuel cur todo rest : directory es (cur ++ todo) ->
  walk es fuel cur (todo ++ rest) = walk es fuel (cur ++ todo) rest.
Proof.
  revert cur. induction todo as [|c todo IH]; intros cur Hd; [by rewrite app_nil_r|].
  replace (cur ++ c :: todo) with ((cur ++ [c]) ++ todo) in * by by rewrite <- app_assoc.
  cbn [app]. rewrite walk_cons. rewrite (Hd (cur ++ [c])).
  - by apply IH.
  - by destruct cur.
  - by apply prefix_app_r.
Qed.

Lemma walk_whole fuel p : directory es p -> walk es fuel [] p = Some (p, []).
Proof. intros Hd. rewrite <- (app_nil_r p) at 1. rewrite walk_directory by done. apply walk_nil. Qed.

Lemma entry_at_directory p : directory es p -> entry_at es p = Some Dir.
Proof. intros Hd. destruct p as [|c p]; [done|]. by apply Hd. Qed.

Lemma find_parent_directory p c : directory es p -> find_parent es (p ++ [c]) = Ok p.
Proof.
  intros Hd. unfold find_parent, parent. by rewrite removelast_last, walk_whole, entry_at_directory.
Qed.

Lemma find_entry_directory p c : directory es p ->
  find_entry es (p ++ [c]) = match es !! (p ++ [c]) with Some e => Ok (p ++ [c], e) | None => Err FileNotFoundError end.
Proof.
  intros Hd. unfold find_entry, name_of. rewrite find_parent_directory, last_last by done. by destruct p.
Qed.

Lemma find_target_directory p : directory es p -> find_target es p = Ok (p, Dir).
Proof. intros Hd. unfold find_target. by rewrite walk_whole, entry_at_directory. Qed.

Lemma realpath_directory p : directory es p -> realpath es p = Ok p.
Proof. intros Hd. unfold realpath. by rewrite walk_whole, app_nil_r. Qed.

(** No component of the path is a link. *)
Definition no_links (p : path) : Prop := forall q, q <> [] -> q `prefix_of` p -> forall q' t, find_entry es q <> Ok (q', Link t).

Lemma no_links_walk fuel todo : forall cur q, no_links (cur ++ todo) -> directory es cur ->
  walk es fuel cur todo = Some (q, []) -> entry_at es q = Some Dir -> directory es (cur ++ todo) /\ q = cur ++ todo.
Proof.
  induction todo as [|c todo IH]; intros cur q Hn Hd Hw Hq.
  - rewrite walk_nil in Hw. injection Hw as <-. by rewrite app_nil_r.
  - rewrite walk_cons in Hw. assert (Hne : cur ++ [c] <> []) by by destruct cur.
    replace (cur ++ c :: todo) with ((cur ++ [c]) ++ todo) in * by by rewrite <- app_assoc. destruct (es !! (cur ++ [c])) as [[|ino|t|]|] eqn:He.
    + apply (IH _ q); try done. by apply directory_snoc.
    + injection Hw as <- ->. unfold entry_at in Hq. by destruct (cur ++ [c]); simplify_eq.
    + edestruct (Hn (cur ++ [c])); [done|by apply prefix_app_r|]. by rewrite find_entry_directory, He.
    + injection Hw as <- ->. unfold entry_at in Hq. by destruct (cur ++ [c]); simplify_eq.
    + done.
Qed.

Lemma no_links_directory p q : no_links p -> find_target es p = Ok (q, Dir) -> directory es p /\ q = p.
Proof.
  unfold find_target. intros Hn H. destruct (walk es MAXSYMLINKS [] p) as [[reached rest]|] eqn:Hw; [|done].
  apply (no_links_walk MAXSYMLINKS p []); [done| | |].
  - intros q' Hq Hp. by apply prefix_nil_inv in Hp.
  - rewrite Hw. by repeat case_match; simplify_eq.
  - repeat case_match; by simplify_eq.
Qed.
End paths.

(** ** What the checks establish when nobody interferes *)

Lemma assert_not_reparse_ok p d u d' : assert_not_reparse alone p d = (Ok u, d') ->
  disk d' = disk d /\ forall q t, find_entry (entries (disk d)) p <> Ok (q, Link t).
Proof.
  intros H. split; [apply later_alone; eapply looks_ok, H; apply looks_assert_not_reparse|].
  intros q t He. unfold assert_not_reparse in H. inv_run H. apply query_alone in Hr as [_ Hw].
  assert (Hthere : a0 = true /\ disk w0 = disk d).
  { destruct a; inv_run Hr0; [done|]. apply query_alone in Hr0 as [Hs ->]. rewrite Hw, He in Hs. by simplify_eq. }
  destruct Hthere as [-> Hw0]. inv_run H. apply query_alone in Hr as [Hs _]. rewrite Hw0, He in Hs. by simplify_eq.
Qed.

Lemma ancestry_spec p q : q ∈ ancestry p <-> q <> [] /\ q `prefix_of` p.
Proof.
  unfold ancestry. rewrite list_elem_of_fmap. split.
  - intros (n & -> & Hn). apply elem_of_seq in Hn. split; [|apply prefix_take]. destruct n, p; cbn in *; try done; lia.
  - intros [Hq [k ->]]. exists (length q). rewrite take_app_length. split; [done|]. apply elem_of_seq.
    rewrite length_app. destruct q; cbn; [done|lia].
Qed.

Lemma assert_no_reparse_ok p d u d' : assert_no_reparse_ancestry alone p d = (Ok u, d') ->
  disk d' = disk d /\ no_links (entries (disk d)) p.
Proof.
  intros H. assert (Hall : disk d' = disk d /\ forall q, q ∈ ancestry p -> forall q' t, find_entry (entries (disk d)) q <> Ok (q', Link t)).
  { unfold assert_no_reparse_ancestry in H. revert u d H. induction (ancestry p) as [|q l IH]; intros u d H.
    - cbn in H. inv_run H. split; [done|]. by intros q ?%elem_of_nil.
    - cbn [for_each] in H. apply bind_ok in H as ([] & d1 & Hq & H).
      apply assert_not_reparse_ok in Hq as [Hd Hq]. apply IH in H as [Hd' H]. rewrite Hd in *. split; [done|].
      intros q' [->|Hin]%elem_of_cons; auto. }
  destruct Hall as [Hd Hall]. split; [done|]. intros q Hq Hp. by apply Hall, ancestry_spec.
Qed.

(** ** Directories that have expired *)

(** Everything lies in a directory. *)
Definition tree_ok (fs : Fs) : Prop := forall p c, is_Some (entries fs !! (p ++ [c])) -> directory (entries fs) p.

(** The same, entry by entry *)
Lemma tree_ok_intro fs :
  map_Forall (fun q _ => Forall (fun r => entries fs !! r = Some Dir) (ancestry (parent q))) (entries fs) -> tree_ok fs.
Proof.
  intros Hall p c [e He] r Hr Hp. apply Hall in He. unfold parent in He. rewrite removelast_last, Forall_forall in He.
  by apply He, ancestry_spec.
Qed.

#[export] Instance Entry_dec : EqDecision Entry.
Proof. solve_decision. Defined.

(** The directory and everything below it are gone. *)
Definition removed (p : path) (fs : Fs) : Fs := fs <| entries := filter (fun kv => below p kv.1 = false) (entries fs) |>.

(** The directory of an expired run of this worker: its marker says so, and it holds no link. *)
Definition expired_run (root : path) (worker_id : string) (now : Z) (fs : Fs) (id : Z) : Prop :=
  let p := root ++ [run_name id] in
  entries fs !! p = Some Dir /\
  (exists ino fields instant offset,
     entries fs !! (p ++ [MARKER_NAME]) = Some (File ino) /\
     str_length (in_content (inode fs ino)) <= MAX_MARKER_BYTES /\
     loads (in_content (inode fs ino)) = Some (JObj fields) /\ has_exactly fields MARKER_FIELDS = true /\
     member "run_id" fields = JInt id /\ 1 <= id /\
     py_equal (member "schema_version" fields) (JInt MARKER_SCHEMA_VERSION) = true /\
     py_equal (member "worker_id" fields) (JStr worker_id) = true /\
     read_expiry (expiry_text (member "retention_expires_at" fields)) = Some (Aware instant offset) /\ instant <= now) /\
  (forall q t, p `prefix_of` q -> entries fs !! q <> Some (Link t)).

Lemma lookup_removed p fs q : entries (removed p fs) !! q = if below p q then None else entries fs !! q.
Proof.
  change (entries (removed p fs)) with (filter (fun kv : path * Entry => below p kv.1 = false) (entries fs)).
  rewrite map_lookup_filter. destruct (entries fs !! q) as [e|] eqn:He; cbn; [|by destruct (below p q)].
  destruct (below p q) eqn:Hb; [by rewrite option_guard_False|by rewrite option_guard_True].
Qed.

Lemma below_spec p q : below p q = true <-> p `prefix_of` q.
Proof. apply bool_decide_eq_true. Qed.

Section candidates.
Context (root : path) (worker_id : string) (now : Z).

Lemma tree_listed fs p q : q ∈ tree_paths fs p <-> p `prefix_of` q /\ is_Some (entries fs !! q).
Proof.
  unfold tree_paths. rewrite list_elem_of_filter, below_spec, list_elem_of_fmap. split.
  - intros [Hp ([k e] & -> & He%elem_of_map_to_list)]. split; [done|]. by exists e.
  - intros [Hp [e He]]. split; [done|]. exists (q, e). split; [done|]. by apply elem_of_map_to_list.
Qed.

Lemma tree_entry fs q : tree_ok fs -> q <> [] -> find_entry (entries fs) q =
  match entries fs !! q with Some e => Ok (q, e) | None => find_entry (entries fs) q end.
Proof.
  intros Ht Hq. destruct (entries fs !! q) as [e|] eqn:He; [|done].
  destruct q as [|c p _] using rev_ind; [done|]. rewrite find_entry_directory, He; [done|]. by apply (Ht p c); rewrite He.
Qed.

Lemma tree_check_ok p d u d' : tree_ok (disk d) -> p <> [] -> is_Some (entries (disk d) !! p) ->
  assert_tree_has_no_reparse alone p d = (Ok u, d') ->
  disk d' = disk d /\ forall q t, p `prefix_of` q -> entries (disk d) !! q <> Some (Link t).
Proof.
  intros Ht Hp [e He] H. unfold assert_tree_has_no_reparse in H. inv_run H.
  apply query_alone in Hr as [Hq Hw]. rewrite tree_entry, He in Hq by done. injection Hq as <-.
  assert (Hall : disk d' = disk w /\ forall q, q ∈ p :: tree_paths (disk d) p -> q <> [] -> forall t, entries (disk w) !! q <> Some (Link t)).
  { rewrite <- Hw in Ht. clear Hw He. revert u w Ht H. induction (p :: tree_paths (disk d) p) as [|q l IH]; intros u w Ht H.
    - cbn in H. inv_run H. split; [done|]. by intros q ?%elem_of_nil.
    - cbn [for_each] in H. apply bind_ok in H as ([] & d1 & Hq & H). inv_run Hq. apply query_alone in Hr as [Hs Hd1].
      apply IH in H as [Hd' Hall]; [|by rewrite Hd1]. rewrite Hd1 in *. split; [done|].
      intros q' [->|Hin]%elem_of_cons Hne t Hl; [|by eapply Hall].
      rewrite tree_entry, Hl in Hs by done. by simplify_eq. }
  destruct Hall as [Hd Hall]. rewrite Hw in *. split; [done|]. intros q t Hq Hl.
  apply (Hall q) in Hl; [done| |by intros ->; apply prefix_nil_inv in Hq].
  apply elem_of_cons. right. apply tree_listed. by rewrite Hl.
Qed.

(** A candidate that is removed had expired. *)
Lemma prune_candidate_ok name d id d' : tree_ok (disk d) -> directory (entries (disk d)) root ->
  prune_candidate alone root worker_id now name d = (Ok (Some id), d') ->
  name = run_name id /\ expired_run root worker_id now (disk d) id /\ disk d' = removed (root ++ [name]) (disk d).
Proof.
  intros Ht Hd H. unfold prune_candidate in H. inv_run H.
  apply query_alone in Hr as [Hs Hw]. rewrite find_entry_directory in Hs by done.
  destruct (entries (disk d) !! (root ++ [name])) as [e|] eqn:He; [|done]. injection Hs as <-.
  assert (e = Dir) as -> by by destruct e.
  apply (looks_ok alone) in Hr0; [|apply looks_contains]. apply later_alone in Hr0. rewrite Hw in Hr0.
  apply read_marker_ok in Hr1 as (Hl & Hsz & size & Hf).
  apply read_was_present in Hf as [(m & Hlm & _ & Hf) _]; [|apply alone_shows]. apply later_alone in Hl, Hlm. rewrite Hr0 in Hl, Hlm.
  rewrite Hlm, <- Hl in Hf.
  destruct a3 as [| | | | | |fields]; try (by inv_run H). inv_run H.
  destruct (member "run_id" fields) as [| |id'| | | |] eqn:Hid; try (by inv_run H). inv_run H.
  destruct a4 as [|instant offset]; [by inv_run H|]. destruct (Z.ltb_spec now instant); [by inv_run H|]. inv_run H.
  assert (Hdir : directory (entries (disk d)) (root ++ [name])) by by apply directory_snoc.
  rewrite <- Hl in Ht, Hd, He. apply tree_check_ok in Hr as [Hw1 Hlinks]; [|done|by destruct root|by rewrite He].
  unfold rmtree, call, alone in Hr1. rewrite Hw1, find_entry_directory, He in Hr1 by done.
  apply andb_prop in Hb1 as [Hb1 Hname%bool_decide_eq_true]. apply andb_prop in Hb1 as [Hb1 Hpos].
  apply andb_prop in Hb1 as [Hv Hwid].
  injection Hg as <-. injection Hr1 as _ <-. rewrite Hl in *.
  destruct Hf as (q & ino & Hq & <-). rewrite find_entry_directory in Hq by done.
  destruct (entries (disk d) !! ((root ++ [name]) ++ [MARKER_NAME])) as [e|] eqn:Hm; [|done]. injection Hq as _ ->.
  split_and!; [done| |done]. subst name. split_and!; [done| |done].
  exists ino, fields, instant, offset. split_and!; try done. lia.
Qed.

(** ** Expired directories are removed *)

(** The computation succeeds with this answer and changes nothing. *)
Definition yields {A} (m : M Exc Disk A) (fs : Fs) (a : A) : Prop :=
  forall d, disk d = fs -> exists d', m d = (Ok a, d') /\ disk d' = fs.

Lemma yields_ret {A} (a : A) fs : yields (mret a) fs a.
Proof. intros d Hd. by exists d. Qed.
Lemma yields_query {A} (f : Fs -> Result Exc A) fs a : f fs = Ok a -> yields (query alone f) fs a.
Proof. intros Hf d <-. eexists. split; [unfold query, call, alone; by rewrite Hf|done]. Qed.
Lemma yields_ensure b e fs : b = true -> yields (ensure b e) fs tt.
Proof. intros ->. apply yields_ret. Qed.
Lemma yields_require {A} (o : option A) e fs a : o = Some a -> yields (require o e) fs a.
Proof. intros ->. apply yields_ret. Qed.
Lemma yields_bind {A B} (m : M Exc Disk A) (k : A -> M Exc Disk B) fs a b :
  yields m fs a -> yields (k a) fs b -> yields (m ≫= k) fs b.
Proof.
  intros Hm Hk d Hd. destruct (Hm d Hd) as (d1 & He & Hd1). unfold mbind, M_bind. rewrite He. by apply Hk.
Qed.
Lemma yields_for_each {A} (f : unit -> A -> M Exc Disk unit) l fs :
  (forall x, x ∈ l -> yields (f tt x) fs tt) -> yields (for_each f tt l) fs tt.
Proof.
  induction l as [|x l IH]; intros Hf; [apply yields_ret|]. cbn [for_each].
  eapply yields_bind; [apply Hf; by left|]. apply IH. intros y Hy. apply Hf. by right.
Qed.
Lemma yields_handle {A} (m : M Exc Disk A) h fs a : yields m fs a -> yields (handle m h) fs a.
Proof. intros Hm d Hd. destruct (Hm d Hd) as (d' & He & Hd'). exists d'. unfold handle. by rewrite He. Qed.

Lemma yields_run {A B} (m : M Exc Disk A) (k : A -> M Exc Disk B) fs a d r : yields m fs a -> disk d = fs ->
  (forall d1, disk d1 = fs -> exists d', k a d1 = (r, d')) -> exists d', (m ≫= k) d = (r, d').
Proof. intros Hm Hd Hk. destruct (Hm d Hd) as (d1 & He & Hd1). unfold mbind, M_bind. rewrite He. by apply Hk. Qed.

Lemma same_file_identity_refl st : same_file_identity st st = true.
Proof. unfold same_file_identity. rewrite bool_decide_true by done. by rewrite !Z.eqb_refl. Qed.

Lemma yields_marker p c fs ino : directory (entries fs) p -> entries fs !! (p ++ [c]) = Some (File ino) ->
  str_length (in_content (inode fs ino)) <= MAX_MARKER_BYTES ->
  yields (read_bounded_regular_text alone (p ++ [c])) fs (in_content (inode fs ino)).
Proof.
  intros Hd He Hsz. assert (Hl : yields (lstat alone (p ++ [c])) fs (stat_of fs (File ino))).
  { apply yields_query. by rewrite find_entry_directory, He. }
  assert (Hst : st_size (stat_of fs (File ino)) <= MAX_MARKER_BYTES) by exact Hsz.
  assert (Hread : yields (read_at alone (File ino) 0 (MAX_MARKER_BYTES + 1)) fs (in_content (inode fs ino))).
  { apply yields_query. cbn [Z.to_nat]. rewrite drop_0. fold (inode fs ino). unfold take_z.
    rewrite to_chars_length. rewrite (proj2 (Z.leb_le _ _)) by lia. by rewrite of_to_chars. }
  assert (Hf : yields (fstat alone (File ino)) fs (stat_of fs (File ino))) by by apply yields_query.
  unfold read_bounded_regular_text. pose proof (same_file_identity_refl (stat_of fs (File ino))) as Hsame.
  eapply yields_bind; [exact Hl|]. eapply yields_bind; [by apply yields_ensure|].
  eapply yields_bind; [apply yields_ensure; lia|].
  eapply yields_bind; [apply yields_handle, yields_query; by rewrite find_entry_directory, He|].
  eapply yields_bind; [exact Hf|]. eapply yields_bind; [apply yields_ensure; exact Hsame|].
  eapply yields_bind; [exact Hread|]. eapply yields_bind; [apply yields_ensure; lia|].
  eapply yields_bind; [exact Hf|]. eapply yields_bind; [by apply yields_ensure|].
  eapply yields_bind; [exact Hl|]. eapply yields_bind; [by apply yields_ensure|]. apply yields_ret.
Qed.

Lemma yields_contains p q fs : directory (entries fs) p -> directory (entries fs) q -> q `prefix_of` p ->
  yields (contains alone p q) fs true.
Proof.
  intros Hp Hq Hpre. unfold contains. eapply yields_bind; [apply yields_query; by apply realpath_directory|].
  eapply yields_bind; [apply yields_query; by apply realpath_directory|]. rewrite bool_decide_true by done. apply yields_ret.
Qed.

Lemma yields_tree_check p fs : tree_ok fs -> p <> [] -> is_Some (entries fs !! p) ->
  (forall q t, p `prefix_of` q -> entries fs !! q <> Some (Link t)) -> yields (assert_tree_has_no_reparse alone p) fs tt.
Proof.
  intros Ht Hp [e He] Hl. unfold assert_tree_has_no_reparse.
  eapply yields_bind; [apply yields_query; by rewrite tree_entry, He|]. apply yields_for_each.
  intros q Hq. assert (Hin : p `prefix_of` q /\ is_Some (entries fs !! q)).
  { apply elem_of_cons in Hq as [->|Hq]; [by rewrite He|by apply tree_listed]. }
  destruct Hin as [Hpre [e' He']]. assert (q <> []) by (intros ->; by apply prefix_nil_inv in Hpre).
  eapply yields_bind; [apply yields_query; by rewrite tree_entry, He'|]. apply yields_ensure.
  destruct e'; try done. by apply Hl in He'.
Qed.

(** An expired run is removed. *)
Lemma prune_candidate_expired id d : tree_ok (disk d) -> directory (entries (disk d)) root ->
  expired_run root worker_id now (disk d) id ->
  exists d', prune_candidate alone root worker_id now (run_name id) d = (Ok (Some id), d').
Proof.
  intros Ht Hd (He & (ino & fields & instant & offset & Hm & Hsz & Hj & Hx & Hid & Hpos & Hv & Hwid & Hexp & Hle) & Hl).
  set (p := root ++ [run_name id]) in *. assert (Hdir : directory (entries (disk d)) p) by by apply directory_snoc.
  assert (Hlook : yields (lstat alone p) (disk d) (stat_of (disk d) Dir)).
  { apply yields_query. unfold p. rewrite find_entry_directory by done. fold p. by rewrite He. }
  unfold prune_candidate. fold p.
  eapply yields_run; [exact Hlook|done|]. intros d1 Hd1. eapply yields_run; [by apply yields_ensure|exact Hd1|]. intros d2 Hd2.
  eapply yields_run; [apply yields_contains; [exact Hdir|exact Hd|by apply prefix_app_r]|exact Hd2|]. intros d3 Hd3.
  eapply yields_run; [by apply yields_ensure|exact Hd3|]. intros d4 Hd4.
  eapply yields_run; [by eapply yields_marker|exact Hd4|]. intros d5 Hd5.
  eapply yields_run; [by apply yields_require|exact Hd5|]. intros d6 Hd6.
  eapply yields_run; [by apply yields_ensure|exact Hd6|]. intros d7 Hd7. rewrite Hid.
  eapply yields_run; [apply yields_ensure|exact Hd7|].
  { rewrite Hv, Hwid, bool_decide_true by done. cbn. lia. }
  intros d8 Hd8. eapply yields_run; [by apply yields_require|exact Hd8|]. intros d9 Hd9.
  cbn beta iota. rewrite (proj2 (Z.ltb_ge now instant)) by lia.
  eapply yields_run; [apply yields_tree_check; [exact Ht|by destruct root|by rewrite He|exact Hl]|exact Hd9|].
  intros d10 Hd10. unfold rmtree, call, alone, mbind, M_bind. rewrite Hd10. unfold p.
  rewrite find_entry_directory by done. fold p. rewrite He. eauto.
Qed.

(** ** The whole sweep *)

(** A candidate that is not removed leaves everything as it was. *)
Lemma prune_candidate_keeps name d :
  ensures (prune_candidate alone root worker_id now name)
    (fun r d' => is_Some r \/ disk d' = disk d) (fun e d' => expected e /\ disk d' = disk d) d.
Proof.
  assert (Hlook : forall A (m : M Exc Disk A) (Q : A -> Disk -> Prop) (d0 : Disk), always (later alone) m -> raises expected m -> disk d0 = disk d ->
    (forall a d1, disk d1 = disk d -> Q a d1) -> ensures m Q (fun e d' => expected e /\ disk d' = disk d) d0).
  { intros A m Q d0 Hm He Hd HQ. unfold ensures. specialize (Hm d0). specialize (He d0).
    destruct (m d0) as [[a|e] d1]; cbn in Hm; apply later_alone in Hm; rewrite Hd in Hm; [by apply HQ|].
    split; [by eapply He|done]. }
  assert (Hens : forall b e, expected e -> always (later alone) (ensure b e) /\ raises expected (ensure (S := Disk) b e)).
  { intros b e He. split; [apply always_ensure; apply _|by apply raises_ensure]. }
  unfold prune_candidate.
  apply ens_bind, Hlook; [apply always_query|apply lstat_expected|done|]. intros metadata d1 Hd1.
  apply ens_bind, Hlook; [by apply Hens|by apply Hens|done|]. intros [] d2 Hd2.
  apply ens_bind, Hlook; [apply looks_contains|apply contains_expected|done|]. intros inside d3 Hd3.
  apply ens_bind, Hlook; [by apply Hens|by apply Hens|done|]. intros [] d4 Hd4.
  apply ens_bind, Hlook; [apply looks_read_marker|apply read_marker_expected|done|]. intros text d5 Hd5.
  apply ens_bind, Hlook; [apply always_require; apply _|by apply raises_require|done|]. intros found d6 Hd6.
  assert (Hraise : forall e d0, expected e -> disk d0 = disk d ->
    ensures (A := option Z) (raise e) (fun r d' => is_Some r \/ disk d' = disk d) (fun e d' => expected e /\ disk d' = disk d) d0).
  { intros e d0 He Hd0. by apply ens_raise. }
  destruct found as [| | | | | |fields]; try by apply Hraise.
  apply ens_bind, Hlook; [by apply Hens|by apply Hens|done|]. intros [] d7 Hd7.
  destruct (member "run_id" fields) as [| |id| | | |]; try by apply Hraise.
  apply ens_bind, Hlook; [by apply Hens|by apply Hens|done|]. intros [] d8 Hd8.
  apply ens_bind, Hlook; [apply always_require; apply _|by apply raises_require|done|]. intros expires d9 Hd9.
  destruct expires as [|instant offset]; [by apply ens_ret; right|]. destruct (now <? instant); [by apply ens_ret; right|].
  apply ens_bind, Hlook; [| |done|].
  { unfold assert_tree_has_no_reparse. always; apply always_query. }
  { unfold assert_tree_has_no_reparse. raises; [|apply lstat_expected|done]. apply raises_query.
    intros fs e H. case_match eqn:Hf; [by case_match|]. injection H as <-. by eapply find_entry_expected. }
  intros [] d10 Hd10. apply ens_bind. unfold rmtree, call, ensures, alone.
  destruct (find_entry (entries (disk d10)) (root ++ [name])) as [[q []]|e] eqn:Hf; cbn; try by rewrite Hd10.
  - left. done.
  - split; [by eapply find_entry_expected|done].
Qed.

(** *** Removing one directory leaves the others as they are. *)

Lemma run_name_inj id id' : run_name id = run_name id' -> id = id'.
Proof. unfold run_name. intros H%(inj (String.app "run-")). by apply (inj pretty) in H. Qed.

Lemma siblings {A} (p q : list A) x y : p ++ [x] `prefix_of` q -> p ++ [y] `prefix_of` q -> x = y.
Proof. intros [k ->] [k' H]. rewrite <- !app_assoc in H. apply app_inv_head in H. by injection H. Qed.

Lemma removed_sibling n m fs q : n <> m -> root ++ [m] `prefix_of` q ->
  entries (removed (root ++ [n]) fs) !! q = entries fs !! q.
Proof.
  intros Hne Hq. rewrite lookup_removed. destruct (below _ _) eqn:Hb; [|done].
  apply below_spec in Hb. by destruct Hne; eapply siblings.
Qed.

Lemma removed_directory n fs : directory (entries fs) root -> directory (entries (removed (root ++ [n]) fs)) root.
Proof.
  intros Hd q Hq Hp. rewrite lookup_removed. destruct (below _ _) eqn:Hb; [|by apply Hd].
  apply below_spec in Hb. destruct (prefix_snoc_not root n). by etrans.
Qed.

Lemma removed_tree p fs : tree_ok fs -> tree_ok (removed p fs).
Proof.
  intros Ht q c Hc r Hr Hp. rewrite lookup_removed in Hc. destruct (below p (q ++ [c])) eqn:Hb; [by destruct Hc|].
  rewrite lookup_removed. destruct (below p r) eqn:Hbr; [|by eapply Ht].
  apply below_spec in Hbr. assert (Hpre : p `prefix_of` q ++ [c]) by (apply prefix_app_r; by etrans).
  apply below_spec in Hpre. by rewrite Hpre in Hb.
Qed.

Lemma expired_removed n fs id : n <> run_name id ->
  expired_run root worker_id now (removed (root ++ [n]) fs) id <-> expired_run root worker_id now fs id.
Proof.
  intros Hne. unfold expired_run. rewrite !(removed_sibling n (run_name id)); [|done|by apply prefix_app_r|done|done].
  split; intros (H1 & H2 & H3); (split_and!; [done|done|]); intros q t Hq Hl; apply (H3 q t Hq).
  - by rewrite (removed_sibling n (run_name id)).
  - by rewrite (removed_sibling n (run_name id)) in Hl.
Qed.

(** One turn of the sweep *)
Definition sweep_turn (result : PruneResult) (name : string) : M Exc Disk PruneResult :=
  handle (gone ← prune_candidate alone root worker_id now name;
          mret (match gone with
                | Some run_id => {| removed_run_ids := removed_run_ids result ++ [run_id]; failures := failures result |}
                | None => result
                end))
    (fun e => if is_os_error e || is_value_error e || is_runtime_error e || bool_decide (exc_name e = "TypeError")
              then Some (mret {| removed_run_ids := removed_run_ids result;
                                 failures := failures result ++ [name +:+ ":" +:+ exc_name e] |})
              else None).

Lemma sweep_turn_run result name d : tree_ok (disk d) -> directory (entries (disk d)) root ->
  exists result' d', sweep_turn result name d = (Ok result', d') /\
    ((exists id, name = run_name id /\ expired_run root worker_id now (disk d) id /\
       removed_run_ids result' = removed_run_ids result ++ [id] /\ disk d' = removed (root ++ [name]) (disk d)) \/
     ((forall id, name = run_name id -> ~ expired_run root worker_id now (disk d) id) /\
       removed_run_ids result' = removed_run_ids result /\ disk d' = disk d)).
Proof.
  intros Ht Hd. unfold sweep_turn, handle, mbind, M_bind. pose proof (prune_candidate_keeps name d) as Hk. unfold ensures in Hk.
  destruct (prune_candidate alone root worker_id now name d) as [r d1] eqn:Hr.
  assert (Hnot : (forall id, r <> Ok (Some id)) -> forall id, name = run_name id -> ~ expired_run root worker_id now (disk d) id).
  { intros Hno id -> He. destruct (prune_candidate_expired id d Ht Hd He) as [d2 Hr2]. rewrite Hr in Hr2.
    injection Hr2 as ->. by destruct (Hno id). }
  destruct r as [[id|]|e].
  - destruct (prune_candidate_ok _ _ _ _ Ht Hd Hr) as (-> & He & Hd1). eexists _, _. split; [done|]. left. exists id. by split_and!.
  - destruct Hk as [[? ?]|Hk]; [done|]. eexists _, _. split; [done|]. right. split_and!; [by apply Hnot|done|done].
  - destruct Hk as [He Hk]. unfold expected in He. rewrite He. eexists _, _. split; [done|]. right. split_and!; [by apply Hnot|done|done].
Qed.

(** What the sweep has removed *)
Definition gone (ids : list Z) (q : path) : bool := existsb (fun id => below (root ++ [run_name id]) q) ids.

Lemma sweep_names_run names : NoDup names -> forall result d, tree_ok (disk d) -> directory (entries (disk d)) root ->
  exists result' d' ids, for_each sweep_turn result names d = (Ok result', d') /\
    removed_run_ids result' = removed_run_ids result ++ ids /\
    (forall id, id ∈ ids <-> run_name id ∈ names /\ expired_run root worker_id now (disk d) id) /\
    inodes (disk d') = inodes (disk d) /\
    forall q, entries (disk d') !! q = if gone ids q then None else entries (disk d) !! q.
Proof.
  induction 1 as [|name names Hnin Hnd IH]; intros result d Ht Hd.
  - exists result, d, []. rewrite app_nil_r. split_and!; try done. intros id. rewrite elem_of_nil. set_solver.
  - destruct (sweep_turn_run result name d Ht Hd) as (result1 & d1 & Hr & Hcase).
    cbn [for_each]. unfold mbind, M_bind. rewrite Hr.
    destruct Hcase as [(id & -> & He & Hres & Hd1)|(Hno & Hres & Hd1)].
    + destruct (IH result1 d1) as (result' & d' & ids & Hf & Hres' & Hids & Hino & Hent).
      { rewrite Hd1. by apply removed_tree. }
      { rewrite Hd1. by apply removed_directory. }
      exists result', d', (id :: ids). rewrite Hf, Hres', Hres, <- app_assoc. split_and!; [done|done| | |].
      * intros id'. rewrite !elem_of_cons, Hids, Hd1. split.
        -- intros [->|[Hin Hx]]; [by split; [left|]|]. split; [by right|]. apply expired_removed in Hx; [done|]. intros E. by rewrite E in Hnin.
        -- intros [[Heq|Hin] Hx]; [left; by apply run_name_inj|]. right. split; [done|]. apply expired_removed; [|done]. intros E. by rewrite E in Hnin.
      * by rewrite Hino, Hd1.
      * intros q. rewrite Hent, Hd1, lookup_removed. cbn. fold (gone ids q). by destruct (below _ q), (gone ids q).
    + destruct (IH result1 d1) as (result' & d' & ids & Hf & Hres' & Hids & Hino & Hent); [by rewrite Hd1..|].
      exists result', d', ids. rewrite Hf, Hres', Hres. rewrite Hd1 in *. split_and!; try done.
      intros id. rewrite elem_of_cons, Hids. split; [by intros [? ?]; auto|]. intros [[Heq|Hin] Hx]; [|done]. by destruct (Hno id).
Qed.

(** The names in the directory *)
Lemma children_names fs : NoDup (children fs root) /\
  forall name, is_Some (entries fs !! (root ++ [name])) -> name ∈ children fs root.
Proof.
  unfold children. set (l := filter _ _). split.
  - rewrite sort_strings_perm. assert (Hnd : NoDup l) by apply NoDup_filter, NoDup_fst_map_to_list.
    assert (Hall : forall q, q ∈ l -> q = root ++ [name_of q]).
    { intros q [Hq%bool_decide_eq_true _]%list_elem_of_filter. destruct Hq as [Hne Hp]. unfold parent, name_of in *.
      destruct q as [|c q _] using rev_ind; [done|]. rewrite removelast_last in Hp. by rewrite last_last, Hp. }
    clear -Hnd Hall. induction Hnd as [|q l Hnin Hnd IH]; [constructor|]. cbn [map]. constructor.
    + intros (q' & Hq' & Hin)%list_elem_of_fmap. apply Hnin. rewrite (Hall q), Hq', <- (Hall q'); [done|by right|by left].
    + apply IH. intros q' Hq'. apply Hall. by right.
  - intros name [e He]. rewrite sort_strings_perm. apply list_elem_of_fmap. exists (root ++ [name]).
    unfold name_of. rewrite last_last. split; [done|]. apply list_elem_of_filter. split.
    + apply bool_decide_eq_true. unfold parent. rewrite removelast_last. split; [by destruct root|done].
    + apply list_elem_of_fmap. exists (root ++ [name], e). split; [done|]. by apply elem_of_map_to_list.
Qed.

(** The sweep of a root that is a directory without links on its path *)
Lemma prune_directory d : tree_ok (disk d) -> directory (entries (disk d)) root ->
  exists result d', prune_expired_evidence alone root worker_id now d = (Ok result, d') /\
    (forall id, id ∈ removed_run_ids result <-> expired_run root worker_id now (disk d) id) /\
    inodes (disk d') = inodes (disk d) /\
    (forall q, entries (disk d') !! q = if gone (removed_run_ids result) q then None else entries (disk d) !! q).
Proof.
  intros Ht Hd.
  assert (Hfirst : yields (exists_ alone root) (disk d) true).
  { apply yields_query. by rewrite find_target_directory. }
  assert (Hsecond : yields (assert_no_reparse_ancestry alone root) (disk d) tt).
  { apply yields_for_each. intros q [Hq Hp]%ancestry_spec. unfold assert_not_reparse.
    assert (Hdq : directory (entries (disk d)) q) by (intros r Hr Hrq; apply Hd; [done|by etrans]).
    eapply yields_bind; [apply yields_query; by rewrite find_target_directory|]. cbn.
    eapply yields_bind; [apply yields_ret|]. cbn. eapply yields_bind; [apply yields_query; by rewrite tree_entry, (Hd q)|].
    by apply yields_ensure. }
  assert (Hthird : yields (iterdir alone root) (disk d) (children (disk d) root)).
  { apply yields_query. by rewrite find_target_directory. }
  destruct (children_names (disk d)) as [Hnd Hin].
  destruct (Hfirst d eq_refl) as (d1 & H1 & Hd1). destruct (Hsecond d1 Hd1) as (d2 & H2 & Hd2).
  destruct (Hthird d2 Hd2) as (d3 & H3 & Hd3). rewrite <- Hd3 in *.
  destruct (sweep_names_run _ Hnd {| removed_run_ids := []; failures := [] |} d3 Ht Hd) as (result & d' & ids & Hf & Hres & Hids & Hino & Hent).
  exists result, d'. unfold prune_expired_evidence. unfold mbind, M_bind. rewrite H1. cbn [negb]. rewrite H2, H3.
  change (for_each _ _ _ d3) with (for_each sweep_turn {| removed_run_ids := []; failures := [] |} (children (disk d3) root) d3).
  cbn [removed_run_ids app] in Hres. rewrite Hres. split_and!; [exact Hf| |done|done].
  intros id. rewrite Hids. split; [by intros [_ ?]|]. intros He. split; [|done]. apply Hin. by rewrite (proj1 He).
Qed.
(** The sweep of a root that is there, but is not such a directory *)
Lemma prune_not_directory d : ~ directory (entries (disk d)) root -> is_ok (find_target (entries (disk d)) root) = true ->
  exists e d', prune_expired_evidence alone root worker_id now d = (Err e, d') /\ disk d' = disk d.
Proof.
  intros Hnot Hthere. unfold prune_expired_evidence, mbind at 1, M_bind at 1.
  assert (yields (exists_ alone root) (disk d) true) as Hfirst by (apply yields_query; by rewrite Hthere).
  destruct (Hfirst d eq_refl) as (d1 & -> & Hd1). cbn [negb]. unfold mbind at 1, M_bind at 1.
  pose proof (looks_ancestry alone root d1) as Hl. apply later_alone in Hl. rewrite Hd1 in Hl.
  destruct (assert_no_reparse_ancestry alone root d1) as [[u|e] d2] eqn:Ha; cbn in Hl; [|eauto].
  apply assert_no_reparse_ok in Ha as [_ Hlinks]. rewrite Hd1 in Hlinks.
  unfold mbind at 1, M_bind at 1. unfold iterdir, query, call, alone. rewrite Hl.
  destruct (find_target (entries (disk d)) root) as [[q []]|e] eqn:Hf; cbn; eauto.
  by destruct Hnot; eapply no_links_directory in Hf as [? _].
Qed.

(** C18. The sweep on a disk that nobody else changes and on which every entry lies in a directory.  When the root of the
    evidence does not exist, it answers that nothing was removed.  When there is something at the root, but the root is
    not a directory or a component of its path is a link, it raises.  In both cases nothing is changed.  Otherwise it succeeds
    and removes exactly the runs of this worker whose marker says that they have expired and that hold no link, each
    with everything below its directory; nothing else on the disk changes. *)
Theorem prune_exact d : tree_ok (disk d) ->
  exists r d', prune_expired_evidence alone root worker_id now d = (r, d') /\
    ((is_ok (find_target (entries (disk d)) root) = false /\
      r = Ok {| removed_run_ids := []; failures := [] |} /\ disk d' = disk d) \/
     (is_ok (find_target (entries (disk d)) root) = true /\ ~ directory (entries (disk d)) root /\
      (exists e, r = Err e) /\ disk d' = disk d) \/
     (directory (entries (disk d)) root /\ exists result, r = Ok result /\
      (forall id, id ∈ removed_run_ids result <-> expired_run root worker_id now (disk d) id) /\
      inodes (disk d') = inodes (disk d) /\
      (forall q, entries (disk d') !! q = if gone (removed_run_ids result) q then None else entries (disk d) !! q))).
Proof.
  intros Ht. destruct (is_ok (find_target (entries (disk d)) root)) eqn:Hthere.
  - destruct (decide (Forall (fun q => entries (disk d) !! q = Some Dir) (ancestry root))) as [Hd|Hd].
    + assert (directory (entries (disk d)) root) as Hdir.
      { intros q Hq Hp. rewrite Forall_forall in Hd. by apply Hd, ancestry_spec. }
      destruct (prune_directory d Ht Hdir) as (result & d' & Hrun & H). eexists _, d'. split; [exact Hrun|]. right. right. eauto.
    + assert (~ directory (entries (disk d)) root) as Hnot.
      { intros Hdir. apply Hd, Forall_forall. intros q [Hq Hp]%ancestry_spec. by apply Hdir. }
      destruct (prune_not_directory d Hnot Hthere) as (e & d' & Hrun & H). eexists _, d'. split; [exact Hrun|]. right. left. eauto.
  - exists (Ok {| removed_run_ids := []; failures := [] |}), (tick alone d). split; [|by left].
    unfold prune_expired_evidence, mbind at 1, M_bind at 1, exists_, query, call, alone. by rewrite Hthere.
Qed.
End candidates.
