(* ===== verification/LocalWorkerProofs.v ===== *)
(** * What the worker does

    Theorems about [LocalWorker.poll_once], for every host: every answer of the control plane and
    of the operating system, and every interleaving of the monitor's ticks and of shutdown
    requests with the polling thread. *)

From S2P Require Import Prelude Text Json Enums Evidence Floats JsonCodec Documents Registry Checks Parsers WorkerContracts Iso8601 WorkerModels Effects WorkerClient WorkerConfig WorkerPolicy LocalWorker.
From Stdlib Require Import QArith.
#[local] Open Scope Z_scope.

(** ** How the world evolves *)

(** The world grows by events that satisfy [P]; the worker's own registers are kept. *)
Record extends (P : Event -> Prop) (w w' : World) : Prop := {
  ex_log : exists new, log w' = new ++ log w /\ Forall P new;
  ex_shutdown : shutdown w = true -> shutdown w' = true;
  ex_executed : executed_run_ids w' = executed_run_ids w;
  ex_active : active_run_id w' = active_run_id w;
  ex_tokens : (length (tokens w) <= length (tokens w'))%nat;
}.

#[export] Instance extends_refl P : Reflexive (extends P).
Proof. intros w. split; [by exists []|done..]. Qed.
#[export] Instance extends_trans P : Transitive (extends P).
Proof.
  intros w1 w2 w3 [(n1 & Hl1 & H1) S1 E1 A1 L1] [(n2 & Hl2 & H2) S2 E2 A2 L2].
  split; [exists (n2 ++ n1); rewrite Hl2, Hl1, app_assoc, Forall_app; done|tauto|congruence..|lia].
Qed.

Lemma extends_weaken (P Q : Event -> Prop) w w' : (forall e, P e -> Q e) -> extends P w w' -> extends Q w w'.
Proof.
  intros HPQ [(new & Hl & Hn) ????]. split; [|done..]. exists new. split; [done|]. by eapply Forall_impl.
Qed.

Lemma extends_quiet P w w' :
  log w' = log w -> (shutdown w = true -> shutdown w' = true) -> executed_run_ids w' = executed_run_ids w ->
  active_run_id w' = active_run_id w ->
  (length (tokens w) <= length (tokens w'))%nat -> extends P w w'.
Proof. intros. split; [by exists []|done..]. Qed.

Lemma cancel_extends P t r w : extends P w (cancel t r w).
Proof. apply extends_quiet; try done. unfold cancel. rsimpl. by rewrite length_alter. Qed.

Lemma request_shutdown_extends P w : extends P w (request_shutdown w).
Proof.
  unfold request_shutdown. rsimpl. destruct (active_token w); [|by apply extends_quiet].
  etrans; [|apply cancel_extends]. by apply extends_quiet.
Qed.

Section worker.
Context (host : Host) (config : WorkerConfig) (client : Client).

(** The requests of a heartbeat *)
Definition beat_request (r : HttpRequest) : Prop :=
  r = http_request client "post"
     (cl_prefix client +:+ "/workers/" +:+ cl_worker_id client +:+ "/heartbeat") [] (Some (JObj [("status", JStr "busy")]))
  \/ exists run_id, r = http_request client "post" (run_path client run_id "heartbeat") []
       (Some (JObj [("worker_id", JStr (cl_worker_id client))])).

(** [beat e]: the event is a heartbeat. *)
Definition beat (e : Event) : Prop := match e with Sent r _ => beat_request r | _ => False end.

Lemma send_now_extends (P : Event -> Prop) r :
  (forall answer, P (Sent r answer)) -> always (extends P) (send_now host r).
Proof. intros HP w. split; try done. cbn. eexists [_]. split; [done|]. by repeat constructor. Qed.

Lemma request_json_extends `{cw : ClientWorld World} (P : Event -> Prop) method path owned params json :
  (forall w, extends P w (reject_credential w)) ->
  always (extends P) (send (http_request client method path params json)) ->
  always (extends P) (request_json client method path owned params json).
Proof.
  intros Hr Hs. unfold request_json. always; [done|by apply always_modify|].
  destruct (loads _); always.
Qed.

Section monitor.
Context (cw : ClientWorld World) (P : Event -> Prop).
Hypothesis cw_reject : forall w, extends P w (reject_credential w).
Hypothesis cw_send : forall r, beat_request r -> always (extends P) (send r).

Lemma tick_extends run_id deadline token : always (extends P) (tick host client cw run_id deadline token).
Proof.
  unfold tick. apply always_bind; [apply _|by intros w; apply extends_quiet|]. intros now.
  apply always_if; [apply always_modify; intros; apply cancel_extends|].
  apply always_bind; [apply _| |].
  { unfold tick_worker. apply always_handle; [apply _|..].
    - always. unfold heartbeat_worker, post. apply request_json_extends; [done|]. apply cw_send. by left.
    - intros e k. repeat case_match; intros [= <-]; always. apply always_modify. intros w.
      etrans; [apply cancel_extends|apply request_shutdown_extends]. }
  intros continues. apply always_if; [always|]. apply always_bind; [apply _| |].
  { unfold tick_run. apply always_handle; [apply _|..].
    - always. unfold heartbeat_run, post_owned. apply request_json_extends; [done|]. apply cw_send. right. eauto.
    - intros e k. repeat case_match; intros [= <-]; always; apply always_modify; intros; first [apply cancel_extends|apply request_shutdown_extends]. }
  intros [run|]; always; apply always_modify; intros; apply cancel_extends.
Qed.
End monitor.

Lemma thread_tick_extends (P : Event -> Prop) i w : (forall e, beat e -> P e) -> extends P w (thread_tick host client i w).
Proof.
  intros HP. unfold thread_tick. destruct (monitors w !! i) as [m|]; [|done]. destruct (mon_alive m); [|done].
  pose proof (tick_extends (monitor_client host) P) as Ht.
  specialize (Ht ltac:(by intros; apply extends_quiet) ltac:(intros; apply send_now_extends; intros; by apply HP)).
  specialize (Ht (mon_run_id m) (mon_deadline m) (mon_token m) w).
  destruct (tick _ _ _ _ _ _ _) as [r w'] eqn:Htick. cbn in Ht.
  destruct (is_ok r && _ && _); [done|]. etrans; [exact Ht|]. by apply extends_quiet.
Qed.

Lemma interfere_extends (P : Event -> Prop) w : (forall e, beat e -> P e) -> extends P w (interfere host client w).
Proof.
  intros HP. unfold interfere. generalize (h_interference host (turn w)). intros l.
  assert (extends P w (next_turn w)) as H0 by by apply extends_quiet. revert H0. generalize (next_turn w).
  induction l as [|x l IH]; intros w0 H0; [done|]. cbn [foldl]. apply IH. etrans; [exact H0|].
  destruct x; [apply request_shutdown_extends|by apply thread_tick_extends].
Qed.

Lemma act_extends (P : Event -> Prop) {A} (answer : nat -> Result Exc A) event :
  (forall e, beat e -> P e) -> (forall r, P (event r)) -> always (extends P) (act host client answer event).
Proof.
  intros HP He w. unfold act. cbn. etrans; [by apply interfere_extends|]. split; try done. cbn.
  eexists [_]. split; [done|]. by repeat constructor.
Qed.

Lemma observe_extends (P : Event -> Prop) {A} (f : World -> A) :
  (forall e, beat e -> P e) -> always (extends P) (observe host client f).
Proof. intros HP w. by apply interfere_extends. Qed.

Lemma polling_request_extends (P : Event -> Prop) method path owned params json :
  (forall e, beat e -> P e) -> (forall answer, P (Sent (http_request client method path params json) answer)) ->
  always (extends P) (request_json (H := polling_client host client) client method path owned params json).
Proof.
  intros HP Hr. apply request_json_extends; [by intros; apply extends_quiet|]. cbn. always.
  - apply always_modify. intros. by apply interfere_extends.
  - by apply send_now_extends.
Qed.
End worker.

(** ** Rules for the worker's computations *)

Lemma ens_try_finally {S} (body after : M Exc S unit) Q X s :
  ensures body (fun _ => ensures after Q X) (fun e => ensures after (fun _ => X e) X) s -> ensures (try_finally body after) Q X s.
Proof.
  unfold ensures, try_finally. destruct (body s) as [[a|e] s']; destruct (after s') as [[b|e'] s'']; try done. by destruct a, b.
Qed.

Lemma ens_assign f (Q : unit -> Running -> Prop) X s : Q tt (s <| locals := f (locals s) |>) -> ensures (assign f) Q X s.
Proof. done. Qed.
Lemma ens_local {A} (f : Locals -> A) (Q : A -> Running -> Prop) X s : Q (f (locals s)) s -> ensures (local f) Q X s.
Proof. done. Qed.

(** An action on the world that keeps a relation leaves the variables as they are. *)
Lemma ens_on_world {A} (R : World -> World -> Prop) (m : M Exc World A) (Q : A -> Running -> Prop) X s :
  always R m ->
  (forall a w', R (world s) w' -> Q a (s <| world := w' |>)) ->
  (forall e w', R (world s) w' -> X e (s <| world := w' |>)) ->
  ensures (on_world m) Q X s.
Proof.
  intros Hm HQ HX. unfold ensures, on_world. specialize (Hm (world s)). destruct (m (world s)) as [[a|e] w']; auto.
Qed.

Lemma ens_world_modify f (Q : unit -> Running -> Prop) X s :
  Q tt (s <| world := f (world s) |>) -> ensures (on_world (modify f)) Q X s.
Proof. done. Qed.

(** [ens_step] advances over what is not a call of another definition. *)
Ltac ens_step :=
  cbv beta; lazymatch goal with
  | |- ensures (assign _) _ _ _ => apply ens_assign
  | |- ensures (local _) _ _ _ => apply ens_local
  | |- ensures (on_world (modify _)) _ _ _ => apply ens_world_modify
  | _ => ens_basic
  end.

(** *** The answers of the outside *)

Section answers.
Context (host : Host) (client : Client).

Lemma ens_act {A} (P : Event -> Prop) (answer : nat -> Result Exc A) event (Q : A -> Running -> Prop) X s :
  (forall e, beat client e -> P e) -> (forall r, P (event r)) ->
  (forall a w', extends P (world s) w' -> event (Ok a) ∈ log w' -> Q a (s <| world := w' |>)) ->
  (forall e w', extends P (world s) w' -> event (Err e) ∈ log w' -> X e (s <| world := w' |>)) ->
  ensures (on_world (act host client answer event)) Q X s.
Proof.
  intros HP He HQ HX. pose proof (act_extends host client P answer event HP He (world s)) as Hext.
  unfold ensures, on_world, act in *. cbn zeta in *. cbn [snd] in Hext.
  destruct (answer _) eqn:Hr; [apply HQ|apply HX]; try done; unfold record_event; rsimpl; left.
Qed.

Lemma ens_observe {A} (P : Event -> Prop) (f : World -> A) (Q : A -> Running -> Prop) X s :
  (forall e, beat client e -> P e) ->
  (forall w', extends P (world s) w' -> Q (f w') (s <| world := w' |>)) ->
  ensures (on_world (observe host client f)) Q X s.
Proof. intros HP HQ. unfold ensures, on_world, observe. cbn zeta. apply HQ. by apply interfere_extends. Qed.
End answers.

(** ** Success is justified *)

Notation grows := (extends (fun _ => True)).

Lemma grows_log w w' e : grows w w' -> e ∈ log w -> e ∈ log w'.
Proof. intros [(new & -> & _) _ _ _ _] He. apply elem_of_app. by right. Qed.

Lemma cancellation_not_success reason : (cancellation_outcome reason).1.1 <> "succeeded".
Proof. unfold cancellation_outcome. by case_bool_decide. Qed.

(** The variables that the steps and the final clause do not assign *)
Definition setup_of (l : Locals) :=
  (v_order l, v_manifest l, v_store l, v_worktree l, v_evidence l, v_source_integrity_verified l, v_reuse_decision l,
   v_lookup l).

Section success.
Context (host : Host) (config : WorkerConfig) (client : Client) (registry : list TrustedManifest)
  (decode_candidate : Json -> option ReuseCandidate) (isoformat : Z -> string) (run_id : Z).

(** A step was run and this is what was made of its answer. *)
Definition step_done (m : TrustedManifest) (lg : list Event) (step : TrustedStep) (r : StepResult) : Prop :=
  exists a, RanStep step (Ok a) ∈ lg /\ r = apply_contract m a /\
            (ts_required step = true -> sr_status r = "succeeded").

(** A step of the manifest left a process behind; it was not required, or claims success. *)
Definition lost_descendant (m : TrustedManifest) (lg : list Event) : Prop :=
  exists step a, step ∈ tm_execution_steps m /\ RanStep step (Ok a) ∈ lg /\
    sr_terminal_reason (apply_contract m a) = Some "descendant_cleanup_failed" /\
    (ts_required step = false \/ sr_status (apply_contract m a) = "succeeded").

Definition fresh_success (m : TrustedManifest) (lg : list Event) (l : Locals) : Prop :=
  Forall2 (step_done m lg) (tm_execution_steps m) (v_results l) /\
  v_attempted_steps l = tm_execution_steps m /\
  (v_source_quiescent l = false -> lost_descendant m lg).

Lemma observe_grows {A} (f : World -> A) : always grows (observe host client f).
Proof. by apply observe_extends. Qed.

Lemma verify_grows : always grows (verify_checkout_integrity host client).
Proof. by apply act_extends. Qed.

Lemma step_done_grows m w w' step r : grows w w' -> step_done m (log w) step r -> step_done m (log w') step r.
Proof. intros Hg (a & Ha & Hr & Hreq). exists a. eauto using grows_log. Qed.

Lemma lost_descendant_grows m w w' : grows w w' -> lost_descendant m (log w) -> lost_descendant m (log w').
Proof. intros Hg (step & a & Hs & Ha & Hr & Hreq). exists step, a. eauto using grows_log. Qed.

(** What leaves the loop, or follows it, with the outcome decided *)
Definition decided (s s' : Running) : Prop :=
  grows (world s) (world s') /\ setup_of (locals s') = setup_of (locals s) /\ v_terminal (locals s') <> "succeeded".

Lemma adopt_decided token s :
  ensures (adopt_cancellation host client token) (fun _ s' => decided s s') (fun _ _ => False) s.
Proof.
  unfold adopt_cancellation. ens_step. unfold observe, on_world, ensures. cbn zeta.
  pose proof (observe_grows (cancel_reason token) (world s)) as Hg. cbn in Hg.
  pose proof (cancellation_not_success (cancel_reason token (interfere host client (world s)))) as Hn.
  destruct (cancellation_outcome _) as [[t r] k]. cbn in Hn |- *. by split_and!.
Qed.

Lemma decided_from s s0 s' :
  grows (world s) (world s0) -> setup_of (locals s0) = setup_of (locals s) -> decided s0 s' -> decided s s'.
Proof. intros Hg Hs (Hg' & Hs' & Ht). split_and!; [by etrans|congruence|done]. Qed.

Lemma on_step_error_decided token e s :
  ensures (on_step_error host client token e) (fun _ s' => decided s s') (fun _ _ => False) s.
Proof.
  assert (forall s0 outcome, grows (world s) (world s0) -> setup_of (locals s0) = setup_of (locals s) ->
    (forall l, setup_of (outcome l) = setup_of l /\ v_terminal (outcome l) <> "succeeded") ->
    ensures (cancelled ← token_cancelled host client token;
        if cancelled : bool then adopt_cancellation host client token else assign outcome)
      (fun _ s' => decided s s') (fun _ _ => False) s0) as Htail.
  { intros s0 outcome Hg Hs Ho. ens_step. unfold token_cancelled.
    apply (ens_observe _ _ (fun _ => True)); [done|]. intros w' Hw. ens_step.
    - eapply ens_mono; [apply adopt_decided|intros [] s'; apply decided_from; [by etrans|done]|done].
    - ens_step. destruct (Ho (locals s0)) as [H1 H2]. split_and!; [by etrans|change (setup_of (outcome (locals s0)) = setup_of (locals s)); congruence|done]. }
  destruct e; cbn [on_step_error]; try (ens_step; ens_step; apply Htail; [done|done|by intros l]).
  - ens_step. by split_and!.
  - apply Htail; [done|done|by intros l].
Qed.

Lemma run_one_spec token m step s :
  ensures (run_one host client token m step)
    (fun answer s' =>
       match answer with
       | Some a => grows (world s) (world s') /\ locals s' = locals s /\ RanStep step (Ok a) ∈ log (world s')
       | None => decided s s'
       end) (fun _ _ => False) s.
Proof.
  assert (forall e s0, grows (world s) (world s0) -> setup_of (locals s0) = setup_of (locals s) ->
    ensures (on_step_error host client token e;; mret (None : option StepResult))
      (fun answer s' => match answer with
        | Some a => grows (world s) (world s') /\ locals s' = locals s /\ RanStep step (Ok a) ∈ log (world s')
        | None => decided s s' end) (fun _ _ => False) s0) as Herror.
  { intros e s0 Hg Hs. ens_step. eapply ens_mono; [apply on_step_error_decided| |done].
    intros [] s' Hd. ens_step. by eapply decided_from. }
  unfold run_one. ens_step. destruct (step_result_contract m (ts_id step)) as [contract|]; [|ens_step; by apply Herror].
  ens_step. apply (ens_act _ _ (fun _ => True)); [done|done| |]; intros a w' Hw Hin; [by ens_step|].
  by apply Herror.
Qed.

(** The loop, part way through *)
Definition progress (m : TrustedManifest) (done : list TrustedStep) (s : Running) : Prop :=
  v_attempted_steps (locals s) = done /\ Forall2 (step_done m (log (world s))) done (v_results (locals s)) /\
  (v_source_quiescent (locals s) = false -> lost_descendant m (log (world s))).

Lemma note_result_spec m step a done s :
  step ∈ tm_execution_steps m -> RanStep step (Ok a) ∈ log (world s) ->
  v_attempted_steps (locals s) = done ++ [step] ->
  Forall2 (step_done m (log (world s))) done (v_results (locals s)) ->
  (v_source_quiescent (locals s) = false -> lost_descendant m (log (world s))) ->
  ensures (note_result m step a)
    (fun goes_on s' => world s' = world s /\ setup_of (locals s') = setup_of (locals s) /\
       if goes_on : bool then progress m (done ++ [step]) s' else v_terminal (locals s') <> "succeeded")
    (fun _ _ => False) s.
Proof.
  intros Hstep Hin Ha Hr Hq. unfold note_result. cbv zeta. ens_step.
  apply (ens_mono _ (fun _ s' => s' = s <| locals := (locals s) <| v_source_quiescent :=
    v_source_quiescent (locals s) && negb (bool_decide (sr_terminal_reason (apply_contract m a) = Some "descendant_cleanup_failed")) |> |>)
    _ (fun _ _ => False)); [| |done].
  { ens_step; rewrite Hif; ens_step; [by rewrite andb_false_r|]. rewrite andb_true_r. by destruct s as [w []]. }
  intros [] s1 ->. ens_step. ens_step. ens_step; rewrite ?andb_true_iff, ?andb_false_iff, ?negb_true_iff, ?negb_false_iff, ?bool_decide_eq_false, ?bool_decide_eq_true in Hif.
  - ens_step. ens_step. ens_step. split_and!; [done..|]. by destruct Hif.
  - ens_step. split_and!; [done..|]. split_and!; [done| |].
    + apply Forall2_app; [done|]. constructor; [|done]. exists a. split_and!; [done..|]. intros Hreq.
      destruct Hif as [?|?]; congruence.
    + rsimpl. rewrite andb_false_iff, negb_false_iff, bool_decide_eq_true. intros [H|H]; [by apply Hq|].
      exists step, a. split_and!; [done..|]. destruct Hif; [by right|by left].
Qed.

Lemma run_steps_spec token m rest : forall done s,
  tm_execution_steps m = done ++ rest -> progress m done s ->
  ensures (run_steps host client token m rest)
    (fun _ s' => grows (world s) (world s') /\ setup_of (locals s') = setup_of (locals s) /\
       (v_terminal (locals s') = "succeeded" -> fresh_success m (log (world s')) (locals s')))
    (fun _ _ => False) s.
Proof.
  induction rest as [|step rest IH]; intros done s Hsteps (Ha & Hr & Hq); cbn [run_steps].
  - ens_step. rewrite app_nil_r in Hsteps. split_and!; [done|done|]. intros _. unfold fresh_success. by rewrite Hsteps.
  - ens_step. ens_step. ens_step. apply (ens_observe _ _ (fun _ => True)); [done|]. intros w1 Hw1. cbn beta.
    ens_step. apply (ens_mono _ (fun _ s' => grows (world s) (world s') /\ locals s' = (locals s) <| v_attempted_steps := v_attempted_steps (locals s) ++ [step] |>) _ (fun _ _ => False)); [| |done].
    { ens_step; [|by ens_step]. unfold on_world, ensures, modify. cbn. split; [|done]. etrans; [exact Hw1|apply cancel_extends]. }
    intros [] s1 [Hg1 Hl1]. ens_step. eapply ens_mono; [apply run_one_spec| |done].
    intros [a|] s2.
    2: { intros Hd. ens_step. destruct (decided_from s s1 s2 Hg1 ltac:(by rewrite Hl1) Hd) as (? & ? & ?). by split_and!. }
    intros (Hg2 & Hl2 & Hin). rewrite Hl1 in Hl2. assert (Hg : grows (world s) (world s2)) by by etrans.
    ens_step. eapply ens_mono; [apply (note_result_spec m step a done s2)| |done].
    + rewrite Hsteps. apply elem_of_app. right. left.
    + done.
    + rewrite Hl2. cbn. by rewrite Ha.
    + rewrite Hl2. eapply Forall2_impl; [exact Hr|]. intros. by eapply step_done_grows.
    + rewrite Hl2. intros Hf. eapply lost_descendant_grows; [exact Hg|]. by apply Hq.
    + intros goes_on s3 (Hw3 & Hs3 & Hgo). rewrite Hl2 in Hs3. ens_step; rewrite Hif in Hgo.
      * eapply ens_mono; [apply (IH (done ++ [step]) s3); [by rewrite <- app_assoc|done]| |done].
        intros [] s4 (Hg4 & Hs4 & Ht). split_and!; [|by rewrite Hs4, Hs3|done].
        rewrite Hw3 in Hg4. by etrans.
      * ens_step. split_and!; [by rewrite Hw3|by rewrite Hs3|done].
Qed.

(** *** Up to the steps *)

(** What the preparation of a run keeps *)
Definition fixed (l : Locals) :=
  (v_order l, v_manifest l, v_store l, v_worktree l, v_evidence l, v_source_integrity_verified l, v_results l,
   v_attempted_steps l, v_source_quiescent l, v_terminal l).

Definition frame (s s' : Running) : Prop := grows (world s) (world s') /\ fixed (locals s') = fixed (locals s).

#[local] Instance frame_refl : Reflexive frame.
Proof. done. Qed.
#[local] Instance frame_trans : Transitive frame.
Proof. intros s1 s2 s3 [Hg1 Hf1] [Hg2 Hf2]. split; [by etrans|congruence]. Qed.

Lemma frame_assign f : (forall l, fixed (f l) = fixed l) -> always frame (assign f).
Proof. intros H s. split; [done|]. apply H. Qed.
Lemma frame_local {A} (f : Locals -> A) : always frame (local f).
Proof. done. Qed.
Lemma frame_world {A} (m : M Exc World A) : always grows m -> always frame (on_world m).
Proof. intros H s. unfold on_world. specialize (H (world s)). destruct (m (world s)) as [r w]. by split. Qed.

Lemma hash_locks_grows m : always grows (hash_dependency_locks host client m).
Proof. unfold hash_dependency_locks. always. by apply act_extends. Qed.

Lemma capture_locks_frame m : always frame (capture_locks host client m).
Proof.
  unfold capture_locks. always; try (by apply frame_assign); apply frame_world; [apply verify_grows|apply hash_locks_grows|apply verify_grows].
Qed.

Lemma set_reuse_identity_frame order m environment : always frame (set_reuse_identity order m environment).
Proof. unfold set_reuse_identity. always; [apply frame_local|by apply frame_assign]. Qed.

Lemma polling_grows method path owned params json :
  always grows (request_json (H := polling_client host client) client method path owned params json).
Proof. by apply polling_request_extends. Qed.

Lemma lookup_candidate_frame token identity :
  always frame (lookup_candidate host client decode_candidate run_id token identity).
Proof.
  unfold lookup_candidate. apply always_handle; [apply _|..].
  - always; [|by apply frame_assign]. apply frame_world. apply polling_grows.
  - intros e k. repeat case_match; intros [= <-]; always; try (by apply frame_assign);
      apply frame_world, always_modify; intros; first [apply cancel_extends|apply request_shutdown_extends].
Qed.

(** Success without running the steps *)
Definition reused_success (lg : list Event) (l : Locals) : Prop :=
  v_reuse_decision l = "reused" /\ v_results l = [] /\ v_source_quiescent l = true /\
  exists c now reason, v_lookup l ≫= rl_candidate = Some c /\ VerifiedCandidate c now (Ok (true, reason)) ∈ lg.

Definition base_of (l : Locals) :=
  (v_order l, v_manifest l, v_store l, v_worktree l, v_evidence l, v_source_integrity_verified l).

Lemma fixed_base l l' : fixed l = fixed l' -> base_of l = base_of l'.
Proof. unfold fixed, base_of. congruence. Qed.
Lemma fixed_loop l l' : fixed l = fixed l' ->
  v_results l = v_results l' /\ v_attempted_steps l = v_attempted_steps l' /\
  v_source_quiescent l = v_source_quiescent l' /\ v_terminal l = v_terminal l'.
Proof. unfold fixed. intros H. by injection H. Qed.
Lemma setup_base l l' : setup_of l = setup_of l' -> base_of l = base_of l'.
Proof. unfold setup_of, base_of. congruence. Qed.

Lemma refuse_fresh_spec reason s :
  ensures (refuse_fresh reason) (fun goes_on s' => world s' = world s /\ goes_on = false /\
    base_of (locals s') = base_of (locals s) /\ v_terminal (locals s') <> "succeeded") (fun _ _ => False) s.
Proof. unfold refuse_fresh. ens_step. ens_step. ens_step. done. Qed.

Lemma attempt_reuse_spec token order m environment s :
  v_results (locals s) = [] -> v_source_quiescent (locals s) = true ->
  ensures (attempt_reuse host client decode_candidate run_id token order m environment)
    (fun goes_on s' => grows (world s) (world s') /\ base_of (locals s') = base_of (locals s) /\
       if goes_on : bool then fixed (locals s') = fixed (locals s)
       else v_terminal (locals s') = "succeeded" -> reused_success (log (world s')) (locals s'))
    (fun _ _ => True) s.
Proof.
  intros Hr Hq. unfold attempt_reuse. ens_step. apply (ens_always frame); [|intros [] s1 H1|done].
  { apply always_if; [apply always_ret; apply _|apply capture_locks_frame]. }
  ens_step. eapply ens_always; [apply set_reuse_identity_frame|intros identity s2 H2|done].
  ens_step. eapply ens_always; [apply lookup_candidate_frame|intros [] s3 H3|done].
  assert (frame s s3) as Hf by (etrans; [exact H1|]; by etrans). clear H1 H2 H3 s1 s2.
  ens_step. apply (ens_observe _ _ (fun _ => True)); [done|]. intros w4 Hw4. ens_step. ens_step.
  assert (Hg : grows (world s) w4) by (etrans; [apply Hf|done]). destruct Hf as [_ Hf].
  cbv zeta. ens_step.
  { ens_step. eapply ens_mono; [apply adopt_decided| |done]. intros [] s5 (Hg5 & Hs5 & Ht5). ens_step.
    split_and!; [by etrans| |done]. rewrite (setup_base _ _ Hs5). by apply (fixed_base (locals s3)). }
  destruct (v_lookup _ ≫= rl_candidate) as [c|] eqn:Hc.
  - ens_step. eapply (ens_on_world grows); [by intros w; apply extends_quiet|intros now w5 Hw5|done].
    ens_step. apply (ens_act _ _ (fun _ => True)); [done|done| |done]. intros [verified reason] w6 Hw6 Hin.
    assert (Hg6 : grows (world s) w6) by (etrans; [exact Hg|]; etrans; [exact Hw5|exact Hw6]).
    ens_step. ens_step. ens_step.
    + ens_step. ens_step. ens_step. split_and!; [done|by apply (fixed_base (locals s3))|]. intros _. subst verified.
      destruct (fixed_loop _ _ Hf) as (H1 & _ & H2 & _). rewrite Hr in H1. rewrite Hq in H2.
      split_and!; [done|exact H1|exact H2|]. by exists c, now, reason.
    + ens_step.
      * eapply ens_mono; [apply refuse_fresh_spec| |done]. intros g s7 (Hw7 & -> & Hb7 & Ht7).
        split_and!; [by rewrite Hw7|rewrite Hb7; by apply (fixed_base (locals s3))|done].
      * ens_step. split_and!; [done|by apply (fixed_base (locals s3))|done].
  - ens_step. ens_step. ens_step.
    + eapply ens_mono; [apply refuse_fresh_spec| |done]. intros g s7 (Hw7 & -> & Hb7 & Ht7).
      split_and!; [by rewrite Hw7|rewrite Hb7; by apply (fixed_base (locals s3))|done].
    + ens_step. split_and!; [done|by apply (fixed_base (locals s3))|done].
Qed.

(** The order and the manifest passed every check before anything was done on the host. *)
Definition admitted (o : AssignedWorkOrder) (m : TrustedManifest) : Prop :=
  exists payload remote p p', work_order_from_payload payload = Ok o /\
    validate_manifest p p' (get_trusted_manifest registry (awo_manifest_name o) (awo_manifest_version o)) remote o config
    = Ok m.

(** What a run that is about to be finished as a success has behind it *)
Definition body_success (lg : list Event) (l : Locals) : Prop :=
  exists o m path, v_order l = Some o /\ v_manifest l = Some m /\ isSome (v_store l) = true /\ v_worktree l = true /\
    v_evidence l = None /\ v_source_integrity_verified l = true /\ admitted o m /\ repository_path config (awo_repository_full_name o) = Ok path /\
    CreatedWorktree run_id path (awo_commit_sha o) (Ok tt) ∈ lg /\
    (reused_success lg l \/ v_reuse_decision l = "fresh" /\ fresh_success m lg l).

Lemma fresh_success_grows m w w' l : grows w w' -> fresh_success m (log w) l -> fresh_success m (log w') l.
Proof.
  intros Hg (Hs & Ha & Hq). split_and!; [|done|intros H; eapply lost_descendant_grows, Hq; done].
  eapply Forall2_impl; [exact Hs|]. intros. by eapply step_done_grows.
Qed.

Lemma reused_success_grows w w' l : grows w w' -> reused_success (log w) l -> reused_success (log w') l.
Proof.
  intros Hg (Hd & Hr & Hq & c & now & reason & Hc & Hin). split_and!; [done..|].
  exists c, now, reason. eauto using grows_log.
Qed.

Lemma create_store_spec started_at m s :
  ensures (create_store host config client run_id started_at m)
    (fun _ s' => grows (world s) (world s') /\ exists store, locals s' = (locals s) <| v_store := Some store |>)
    (fun _ s' => True) s.
Proof.
  unfold create_store. destruct (profile_evidence_policy _ _) as [[days limits]|message]; [|by ens_step].
  ens_step. apply (ens_act _ _ (fun _ => True)); [done|done| |done]. intros [] w' Hw _. ens_step. split; [exact Hw|].
  by eexists.
Qed.

(** The end of the body: the token is looked at once more. *)
Lemma last_cancellation_spec token s0 s (J : list Event -> Locals -> Prop) :
  (forall w w' l, grows w w' -> J (log w) l -> J (log w') l) ->
  grows (world s0) (world s) -> (v_terminal (locals s) = "succeeded" -> J (log (world s)) (locals s)) ->
  ensures (cancelled ← token_cancelled host client token;
      if cancelled : bool then adopt_cancellation host client token else mret tt)
    (fun _ s' => grows (world s0) (world s') /\
       (v_terminal (locals s') = "succeeded" -> J (log (world s')) (locals s'))) (fun _ _ => True) s.
Proof.
  intros HJ Hg Hs. ens_step. apply (ens_observe _ _ (fun _ => True)); [done|]. intros w' Hw. ens_step.
  - eapply ens_mono; [apply adopt_decided| |done]. intros [] s' (Hg' & _ & Ht).
    split; [etrans; [exact Hg|]; by etrans|done].
  - ens_step. split; [by etrans|]. intros Ht. by eapply HJ, Hs.
Qed.

(** From the worktree on *)
Lemma execute_steps_spec token o m environment path s0 s :
  v_order (locals s) = Some o -> v_manifest (locals s) = Some m -> isSome (v_store (locals s)) = true ->
  v_worktree (locals s) = true -> v_evidence (locals s) = None ->
  v_source_integrity_verified (locals s) = true -> v_results (locals s) = [] -> v_attempted_steps (locals s) = [] ->
  v_source_quiescent (locals s) = true -> admitted o m ->
  repository_path config (awo_repository_full_name o) = Ok path ->
  CreatedWorktree run_id path (awo_commit_sha o) (Ok tt) ∈ log (world s) -> grows (world s0) (world s) ->
  ensures (execute_fresh ← (if bool_decide (awo_reuse_policy o = "never") then mret true
                       else attempt_reuse host client decode_candidate run_id token o m environment);
      (if execute_fresh : bool then
         assign (fun l => l <| v_reuse_decision := "fresh" |>);; run_steps host client token m (tm_execution_steps m)
       else mret tt);;
      cancelled ← token_cancelled host client token;
      if cancelled : bool then adopt_cancellation host client token else mret tt)
    (fun _ s' => grows (world s0) (world s') /\
       (v_terminal (locals s') = "succeeded" -> body_success (log (world s')) (locals s'))) (fun _ _ => True) s.
Proof.
  intros Ho Hm Hst Hwt Hev Hint Hr Ha Hq Had Hp Hin Hg.
  assert (HJ : forall w w' l, grows w w' -> body_success (log w) l -> body_success (log w') l).
  { intros w w' l Hww (o' & m' & path' & H1 & H2 & H3 & H4 & H4' & H4'' & H5 & H6 & H7 & H8). exists o', m', path'.
    split_and!; eauto using grows_log. destruct H8 as [H8|[H8 H9]]; eauto using reused_success_grows, fresh_success_grows. }
  assert (Hbuild : forall s', base_of (locals s') = base_of (locals s) -> grows (world s) (world s') ->
    (reused_success (log (world s')) (locals s') \/
     v_reuse_decision (locals s') = "fresh" /\ fresh_success m (log (world s')) (locals s')) ->
    body_success (log (world s')) (locals s')).
  { intros s' Hb Hgs Hd. unfold base_of in Hb. injection Hb as H1 H2 H3 H4 H5 H6. exists o, m, path.
    split_and!; [congruence|congruence|by rewrite H3|congruence|congruence|congruence|done|done|by eapply grows_log|done]. }
  ens_step. apply (ens_mono _ (fun goes_on s' => grows (world s) (world s') /\ base_of (locals s') = base_of (locals s) /\
       if goes_on : bool then fixed (locals s') = fixed (locals s)
       else v_terminal (locals s') = "succeeded" -> reused_success (log (world s')) (locals s')) _ (fun _ _ => True)); [| |done].
  { ens_step; [by ens_step|]. by apply attempt_reuse_spec. }
  intros goes_on s1 (Hg1 & Hb1 & Hgo). ens_step. ens_step; rewrite Hif in Hgo.
  - ens_step. ens_step. destruct (fixed_loop _ _ Hgo) as (Hr1 & Ha1 & Hq1 & _).
    eapply ens_mono; [eapply (run_steps_spec token m (tm_execution_steps m) []); [done|]| |done].
    { split_and!; [by etrans| |]; rsimpl; [rewrite Hr1, Hr; constructor|]. rewrite Hq1, Hq. done. }
    intros [] s2 (Hg2 & Hs2 & Ht2). apply (last_cancellation_spec token s0 s2 body_success HJ).
    + etrans; [exact Hg|]. etrans; [exact Hg1|exact Hg2].
    + intros Ht. apply Hbuild; [|by etrans|].
      * rewrite (setup_base _ _ Hs2). exact Hb1.
      * right. split; [|by apply Ht2]. unfold setup_of in Hs2. by injection Hs2.
  - ens_step. apply (last_cancellation_spec token s0 s1 body_success HJ); [by etrans|].
    intros Ht. apply Hbuild; [done|done|]. left. by apply Hgo.
Qed.

(** The outcome of the body, or of a part of it that started in [s0] *)
Definition body_post (s0 s' : Running) : Prop :=
  grows (world s0) (world s') /\
  (v_terminal (locals s') = "succeeded" -> body_success (log (world s')) (locals s')).

Lemma decided_post s s' : decided s s' -> body_post s s'.
Proof. intros (Hg & _ & Ht). by split. Qed.

Lemma body_post_from s0 s s' : grows (world s0) (world s) -> body_post s s' -> body_post s0 s'.
Proof. intros Hg (Hg' & Hj). split; [by etrans|done]. Qed.

(** The variables as the checks leave them *)
Definition checked (o : AssignedWorkOrder) (m : TrustedManifest) (l : Locals) : Prop :=
  v_order l = Some o /\ v_manifest l = Some m /\ v_evidence l = None /\ v_source_integrity_verified l = true /\
  v_results l = [] /\ v_attempted_steps l = [] /\
  v_source_quiescent l = true /\ v_terminal l <> "succeeded".

Lemma execute_spec token o m s :
  checked o m (locals s) -> admitted o m ->
  ensures (execute host config client decode_candidate run_id token o m) (fun _ => body_post s) (fun _ _ => True) s.
Proof.
  intros (Ho & Hm & Hev & Hint & Hr & Ha & Hq & Ht) Had. unfold execute.
  assert (Hclock : forall A (f : World -> Result Exc A), always grows (fun w => (f w, next_turn w)))
    by (intros A f w; by apply extends_quiet).
  ens_step. apply (ens_on_world grows); [apply Hclock|intros started w1 Hw1|done]. ens_step. ens_step.
  ens_step. apply (ens_on_world grows); [apply Hclock|intros versions w2 Hw2|done].
  ens_step. apply (ens_on_world grows); [apply Hclock|intros platform w3 Hw3|done].
  ens_step. ens_step; [|done]. ens_step. ens_step. ens_step.
  eapply ens_mono; [apply create_store_spec| |done]. intros [] s4 (Hg4 & store & Hl4).
  assert (Hg : grows (world s) (world s4)) by (etrans; [exact Hw1|]; etrans; [exact Hw2|]; etrans; [exact Hw3|exact Hg4]).
  clear Hg4 Hw1 Hw2 Hw3. ens_step. ens_step; [|done]. ens_step.
  apply (ens_act _ _ (fun _ => True)); [done|done| |done]. intros [] w5 Hw5 Hin.
  ens_step. ens_step. ens_step. apply (ens_on_world grows); [apply verify_grows|intros [] w6 Hw6|done].
  ens_step. ens_step. eapply execute_steps_spec; rsimpl; rewrite ?Hl4; rsimpl; try done.
  - by eapply grows_log.
  - etrans; [exact Hg|]. by etrans.
Qed.

Lemma start_monitor_spec deadline token s :
  ensures (start_monitor host client run_id deadline token)
    (fun _ s' => grows (world s) (world s') /\ exists mon, locals s' = (locals s) <| v_monitor := mon |>)
    (fun _ _ => True) s.
Proof.
  unfold start_monitor. ens_step. ens_step. ens_step.
  apply (ens_on_world grows); [|intros [] w1 Hw1|done].
  { apply tick_extends; [by intros; apply extends_quiet|]. intros r _. cbn. always.
    - apply always_modify. intros. by apply interfere_extends.
    - by apply send_now_extends. }
  ens_step. apply (ens_observe _ _ (fun _ => True)); [done|]. intros w2 Hw2.
  ens_step; [ens_step; split; [etrans; [exact Hw1|exact Hw2]|by eexists]|].
  ens_step. apply (ens_on_world grows); [by intros w; apply extends_quiet|intros i w3 Hw3|done].
  ens_step. split; [etrans; [exact Hw1|]; etrans; [exact Hw2|exact Hw3]|by eexists].
Qed.

Lemma run_body_spec work_order_id s :
  v_evidence (locals s) = None ->
  v_source_integrity_verified (locals s) = true -> v_results (locals s) = [] -> v_attempted_steps (locals s) = [] ->
  v_source_quiescent (locals s) = true -> v_terminal (locals s) <> "succeeded" ->
  ensures (run_body host config client registry decode_candidate run_id work_order_id)
    (fun _ => body_post s) (fun _ _ => True) s.
Proof.
  intros Hev Hint Hr Ha Hq Ht. unfold run_body.
  ens_step. apply (ens_on_world grows); [apply polling_grows|intros j1 w1 Hw1|done].
  ens_step. ens_step; [rename a into o; rename Hlift into Ho|done]. ens_step. ens_step.
  ens_step. apply (ens_on_world grows); [apply polling_grows|intros j2 w2 Hw2|done].
  ens_step. ens_step; [rename a into remote|done].
  ens_step. apply (ens_on_world grows); [by intros w; apply extends_quiet|intros p w3 Hw3|done].
  ens_step. apply (ens_on_world grows); [by intros w; apply extends_quiet|intros p' w4 Hw4|done].
  ens_step. ens_step; [rename a into m; rename Hlift0 into Hm|done].
  assert (Had : admitted o m) by by exists j1, remote, p, p'. ens_step. ens_step.
  ens_step. apply (ens_on_world grows); [by intros w; apply extends_quiet|intros now w5 Hw5|done].
  cbv zeta. ens_step. apply (ens_on_world grows); [|intros token w6 Hw6|done].
  { intros w. etrans; [by apply (interfere_extends host client (fun _ => True))|]. cbn zeta.
    cbn [snd]. apply extends_quiet; try done. rsimpl. rewrite length_app. lia. }
  assert (Hg : grows (world s) w6).
  { etrans; [exact Hw1|]. etrans; [exact Hw2|]. etrans; [exact Hw3|]. etrans; [exact Hw4|]. by etrans; [exact Hw5|]. }
  clear Hw1 Hw2 Hw3 Hw4 Hw5 Hw6. ens_step. eapply ens_mono; [apply start_monitor_spec| |done].
  intros [] s7 (Hg7 & mon & Hl7). rsimpl in Hg7. rsimpl in Hl7.
  assert (Hgs : grows (world s) (world s7)) by by etrans.
  ens_step. apply (ens_observe _ _ (fun _ => True)); [done|]. intros w8 Hw8.
  assert (Hg8 : grows (world s) w8) by by etrans. ens_step.
  { eapply ens_mono; [apply adopt_decided| |done]. intros [] s9 Hd.
    apply (body_post_from s (s7 <| world := w8 |>)); [exact Hg8|]. by apply decided_post. }
  ens_step. apply (ens_observe _ _ (fun _ => True)); [done|]. intros w9 Hw9. ens_step.
  - ens_step. unfold on_world at 1, modify, ensures. cbn beta iota zeta.
    split; [|done]. cbn. etrans; [exact Hg8|]. etrans; [exact Hw9|]. apply cancel_extends.
  - eapply ens_mono; [apply execute_spec; [|done]| |done].
    + unfold checked. rsimpl. rewrite Hl7. by split_and!.
    + intros [] s10. apply body_post_from. rsimpl. by etrans.
Qed.

(** *** The final clause *)

(** What the final clause never assigns *)
Definition kept (l : Locals) :=
  (v_order l, v_manifest l, v_store l, v_worktree l, v_evidence l, v_results l, v_attempted_steps l, v_source_quiescent l, v_reuse_decision l, v_lookup l).

(** A part of the final clause: it keeps [f] of the variables, and turns no failure into a success. *)
Definition fin {X} (f : Locals -> X) (s s' : Running) : Prop :=
  grows (world s) (world s') /\ f (locals s') = f (locals s) /\
  (v_terminal (locals s') = "succeeded" -> v_terminal (locals s) = "succeeded").

#[local] Instance fin_refl {X} (f : Locals -> X) : Reflexive (fin f).
Proof. done. Qed.
#[local] Instance fin_trans {X} (f : Locals -> X) : Transitive (fin f).
Proof. intros s1 s2 s3 (Hg1 & Hf1 & Ht1) (Hg2 & Hf2 & Ht2). split_and!; [by etrans|congruence|auto]. Qed.

Lemma fin_weaken {X Y} (f : Locals -> X) (g : Locals -> Y) s s' :
  (forall l l', f l = f l' -> g l = g l') -> fin f s s' -> fin g s s'.
Proof. intros H (Hg & Hf & Ht). split_and!; [done|by apply H|done]. Qed.

Lemma fin_assign {X} (f : Locals -> X) h :
  (forall l, f (h l) = f l) -> (forall l, v_terminal (h l) = "succeeded" -> v_terminal l = "succeeded") ->
  always (fin f) (assign h).
Proof. intros H1 H2 s. split_and!; [done|apply H1|apply H2]. Qed.
Lemma fin_world {X} (f : Locals -> X) {A} (m : M Exc World A) : always grows m -> always (fin f) (on_world m).
Proof. intros H s. unfold on_world. specialize (H (world s)). destruct (m (world s)) as [r w]. by split_and!. Qed.

Lemma spoil_terminal reason l : v_terminal (spoil reason l) <> "succeeded".
Proof. unfold spoil. by case_bool_decide. Qed.

(** A variable that [set_outcome] does not assign is kept by [spoil]. *)
Lemma spoil_keeps {X} (f : Locals -> X) reason l :
  (forall t r l, f (set_outcome t r l) = f l) -> f (spoil reason l) = f l.
Proof. intros H. unfold spoil. by case_bool_decide. Qed.

Lemma spoil_post {X} (f : Locals -> X) reason h s0 s :
  (forall t r l, f (set_outcome t r l) = f l) -> (forall l, f (h l) = f l) ->
  fin f s0 s -> fin f s0 (s <| locals := spoil reason (h (locals s)) |>) /\
    v_terminal (spoil reason (h (locals s))) <> "succeeded".
Proof.
  intros H1 H2 (Hg & Hf & Ht). split; [|apply spoil_terminal]. split_and!; [done| |].
  - rsimpl. by rewrite spoil_keeps, H2.
  - intros Hs. by destruct (spoil_terminal reason (h (locals s))).
Qed.

Lemma settle_fin {X} (f : Locals -> X) : always (fin f) (settle host client).
Proof.
  unfold settle. always; [by intros s| | | |done|..].
  - destruct a as [[i|]|]; [|always..]. apply fin_world, always_modify. intros. by apply extends_quiet.
  - apply fin_world, always_modify. intros. by apply interfere_extends.
  - apply fin_world, always_modify. intros. by apply extends_quiet.
  - apply fin_world, always_modify. intros. by apply extends_quiet.
Qed.

Definition kept_integrity (l : Locals) := (kept l, v_source_integrity_verified l).
Definition kept_locks (l : Locals) := (kept_integrity l, v_dependency_locks l, v_dependency_lock_status l).
Definition kept_artifacts (l : Locals) := (kept_locks l, v_artifacts l, v_artifact_status l).
Definition kept_cleanup (l : Locals) := (kept_artifacts l, v_cleanup l).

Lemma final_integrity_spec s :
  ensures (final_integrity host client)
    (fun _ s' => fin kept s s' /\
       (v_terminal (locals s') = "succeeded" ->
        v_source_integrity_verified (locals s') = v_source_integrity_verified (locals s) && v_source_quiescent (locals s)))
    (fun _ _ => False) s.
Proof.
  unfold final_integrity, catch. ens_step. ens_step. ens_step.
  - ens_step. apply (ens_on_world grows); [apply verify_grows| |].
    + intros [] w Hw. split; [by split_and!|]. intros _. rsimpl. by rewrite Hif, andb_true_r.
    + intros e w Hw. ens_step.
      destruct (spoil_post kept "checkout_integrity_failed" (fun l => l <| v_source_integrity_verified := false |>)
        s (s <| world := w |>)) as [Hf Ht]; [done|done|by split_and!|]. split; [exact Hf|]. intros H. by destruct Ht.
  - ens_step. split; [by split_and!|]. rsimpl. by rewrite Hif, andb_false_r.
Qed.

Lemma capture_locks_spec m s :
  ensures (capture_locks host client m)
    (fun _ s' => fin kept_integrity s s' /\ v_dependency_lock_status (locals s') = "succeeded")
    (fun _ s' => fin kept_integrity s s') s.
Proof.
  unfold capture_locks. ens_step. apply (ens_on_world grows); [apply verify_grows|intros [] w1 Hw1|intros; by split_and!].
  ens_step. apply (ens_on_world grows); [apply hash_locks_grows|intros locks w2 Hw2|intros; split_and!; [by etrans|done..]].
  ens_step. ens_step. ens_step. apply (ens_on_world grows); [apply verify_grows|intros [] w3 Hw3|intros e w3 Hw3].
  - ens_step. split; [|done]. split_and!; [|done..]. etrans; [exact Hw1|]. by etrans.
  - split_and!; [|done..]. etrans; [exact Hw1|]. by etrans.
Qed.

Lemma final_locks_spec m s :
  ensures (final_locks host client m)
    (fun _ s' => fin kept_integrity s s' /\
       (v_terminal (locals s') = "succeeded" -> source_usable (locals s) = true ->
        tm_dependency_lock_paths m = [] \/ v_dependency_lock_status (locals s') = "succeeded"))
    (fun _ _ => False) s.
Proof.
  unfold final_locks, catch. ens_step. ens_step. ens_step; rewrite ?negb_true_iff, ?negb_false_iff in Hif.
  - ens_step. split; [|congruence]. split_and!; [done| |]; rsimpl; repeat case_match; try done;
      rsimpl; repeat case_match; done.
  - ens_step. ens_step. ens_step.
    + ens_step. eapply ens_mono; [apply capture_locks_spec|intros [] s' [Hf Hs]; by eauto|].
      intros e s' Hf. ens_step.
      destruct (spoil_post kept_integrity "dependency_lock_hash_failed"
        (fun l => l <| v_dependency_lock_status := "failed:" +:+ exc_name e |>) s s') as [Hf' Ht]; [done|done|done|].
      split; [exact Hf'|]. intros H. by destruct Ht.
    + ens_step. split; [done|]. intros _ _. rewrite andb_false_iff, !negb_false_iff, !bool_decide_eq_true in Hif0.
      exact Hif0.
Qed.

Lemma final_artifacts_spec s :
  ensures (final_artifacts host client)
    (fun _ s' => fin kept_locks s s' /\
       (v_terminal (locals s') = "succeeded" -> source_usable (locals s) = true -> isSome (v_store (locals s)) = true ->
        v_artifact_status (locals s') = "succeeded"))
    (fun _ _ => False) s.
Proof.
  unfold final_artifacts, catch. ens_step. ens_step. ens_step. ens_step.
  ens_step; [|ens_step; split; [done|]; intros _ Hu Hs; rewrite Hu, Hs in Hif; done].
  ens_step. apply (ens_mono _ (fun _ s' => fin kept_locks s s' /\ v_artifact_status (locals s') = "succeeded")
    _ (fun _ s' => fin kept_locks s s')); [|intros [] s' [Hf Ha]; by eauto|].
  - ens_step. ens_step. cbv zeta. ens_step.
    apply (ens_on_world grows); [|intros captured w1 Hw1|intros; by split_and!].
    { apply always_map_m; [apply _..|]. intros d. always; [apply verify_grows|by apply act_extends]. }
    ens_step. apply (ens_on_world grows); [apply verify_grows|intros [] w2 Hw2|intros; split_and!; [by etrans|done..]].
    ens_step. apply (ens_act _ _ (fun _ => True)); [done|done|intros artifacts w3 Hw3 _|intros e w3 Hw3 _].
    + ens_step. split; [|done]. split_and!; [|done..]. etrans; [exact Hw1|]. by etrans.
    + split_and!; [|done..]. etrans; [exact Hw1|]. by etrans.
  - intros e s' Hf. ens_step.
    destruct (spoil_post kept_locks "artifact_finalization_failed"
      (fun l => l <| v_artifact_status := "failed:" +:+ exc_name e |>) s s') as [Hf' Ht]; [done|done|done|].
    split; [exact Hf'|]. intros H. by destruct Ht.
Qed.

Lemma final_cleanup_spec s :
  ensures (final_cleanup host client)
    (fun _ s' => fin kept_artifacts s s' /\
       (v_terminal (locals s') = "succeeded" -> source_usable (locals s) = true ->
        v_cleanup (locals s') = "succeeded" /\ CleanedUp (Ok tt) ∈ log (world s')))
    (fun _ _ => False) s.
Proof.
  unfold final_cleanup, catch. ens_step. ens_step. ens_step; rewrite ?negb_true_iff, ?negb_false_iff in Hif.
  - ens_step. split; [by split_and!|congruence].
  - ens_step. ens_step. apply (ens_act _ _ (fun _ => True)); [done|done|intros [] w1 Hw1 Hin|intros e w1 Hw1 _].
    + ens_step. split; [by split_and!|]. done.
    + ens_step. destruct (spoil_post kept_artifacts "cleanup_failed"
        (fun l => l <| v_cleanup := "failed:" +:+ exc_name e |>) s (s <| world := w1 |>)) as [Hf' Ht];
        [done|done|by split_and!|]. split; [exact Hf'|]. intros H. by destruct Ht.
Qed.

(** What the recording of the evidence keeps of a success *)
Definition rest_of (l : Locals) :=
  (v_order l, v_manifest l, v_store l, v_worktree l, v_results l, v_attempted_steps l, v_source_quiescent l,
   v_reuse_decision l, v_lookup l, v_source_integrity_verified l, v_dependency_lock_status l, v_artifacts l,
   v_artifact_status l, v_cleanup l, v_summary l).

Definition keep (s s' : Running) : Prop :=
  grows (world s) (world s') /\ rest_of (locals s') = rest_of (locals s) /\
  v_terminal (locals s') = v_terminal (locals s).

#[local] Instance keep_refl : Reflexive keep.
Proof. done. Qed.
#[local] Instance keep_trans : Transitive keep.
Proof. intros s1 s2 s3 (Hg1 & Hf1 & Ht1) (Hg2 & Hf2 & Ht2). split_and!; [by etrans|congruence..]. Qed.

Lemma keep_world {A} (m : M Exc World A) : always grows m -> always keep (on_world m).
Proof. intros H s. unfold on_world. specialize (H (world s)). destruct (m (world s)) as [r w]. by split_and!. Qed.
Lemma keep_assign f :
  (forall l, rest_of (f l) = rest_of l) -> (forall l, v_terminal (f l) = v_terminal l) -> always keep (assign f).
Proof. intros H1 H2 s. split_and!; [done|apply H1|apply H2]. Qed.
Lemma keep_local {A} (f : Locals -> A) : always keep (local f).
Proof. done. Qed.

(** The record on disk: the document is valid, says what is reported, and was written. *)
Definition recorded (lg : list Event) (l : Locals) : Prop :=
  exists e identity hash, v_evidence l = Some e /\ valid_evidence isoformat e = true /\
    ev_terminal_status e = v_terminal l /\ ev_run_id e = run_id /\ ev_artifacts e = v_artifacts l /\
    WroteResult (JObj [("evidence", evidence_json isoformat e); ("result_summary", v_summary l);
                       ("reuse_identity", identity_json identity); ("reuse_identity_hash", JStr hash)]) (Ok tt) ∈ lg.

Lemma evidence_of_ok o m finished_at status environment provenance l e :
  evidence_of config isoformat run_id o m finished_at status environment provenance l = Ok e ->
  valid_evidence isoformat e = true /\ ev_terminal_status e = v_terminal l /\ ev_run_id e = run_id /\
  ev_artifacts e = v_artifacts l.
Proof.
  unfold evidence_of, build_evidence. cbv zeta. destruct (finalize_evidence _ _) as [e'|] eqn:He; [|done].
  intros [= ->]. unfold finalize_evidence in He. cbv zeta in He. case_match; [|done]. by injection He as <-.
Qed.

Lemma write_evidence_spec o m s :
  ensures (write_evidence host config client isoformat run_id o m)
    (fun _ s' => keep s s' /\ recorded (log (world s')) (locals s')) (fun _ s' => keep s s') s.
Proof.
  assert (Hclock : forall A (f : World -> Result Exc A), always grows (fun w => (f w, next_turn w)))
    by (intros A f w; by apply extends_quiet).
  assert (Hid : forall environment, always keep (set_reuse_identity o m environment))
    by (intros; unfold set_reuse_identity; always; [apply keep_local|by apply keep_assign]).
  unfold write_evidence. ens_step. ens_step. ens_step. apply (ens_always keep); [|intros environment s1 H1|done].
  { destruct (v_environment _); always; try (apply keep_world; apply Hclock). by apply keep_assign. }
  ens_step. ens_step. ens_step. apply (ens_always keep); [|intros identity s2 H2|intros e s2 H2; by etrans].
  { destruct (v_reuse_identity _); [always|apply Hid]. }
  assert (H12 : keep s s2) by by etrans. clear H1 H2.
  ens_step. ens_step. ens_step. apply ens_require; [intros hash Hhash|done].
  ens_step. ens_step. ens_step. ens_step; [rename a into provenance|done]. ens_step. ens_step.
  ens_step. apply (ens_on_world grows); [apply Hclock|intros finished w3 Hw3|].
  2: { intros e w3 Hw3. etrans; [exact H12|]. by split_and!. }
  assert (H3 : keep s (s2 <| locals := (locals s2) <| v_provenance := Some provenance |> |> <| world := w3 |>))
    by (etrans; [exact H12|]; by split_and!).
  ens_step. ens_step. ens_step. ens_step; [rename a into e|exact H3].
  apply evidence_of_ok in Hlift0 as (Hv & Hst & Hrid & Hart).
  ens_step. ens_step. ens_step. ens_step. cbv zeta.
  apply (ens_act _ _ (fun _ => True)); [done|done|intros [] w4 Hw4 Hin|intros x w4 Hw4 _].
  - split; [etrans; [exact H3|]; by split_and!|]. exists e, identity, hash. by split_and!.
  - etrans; [exact H3|]. by split_and!.
Qed.

Lemma record_failed_spec o m e s :
  ensures (record_failed host config isoformat run_id o m e)
    (fun _ s' => grows (world s) (world s') /\ v_terminal (locals s') <> "succeeded") (fun _ _ => False) s.
Proof.
  unfold record_failed, catch. ens_step. ens_step. ens_step.
  apply (ens_mono _ (fun _ s' => grows (world s) (world s') /\ v_terminal (locals s') <> "succeeded")
    _ (fun _ s' => grows (world s) (world s'))); [|done|intros x s' Hg; ens_step; by split].
  assert (Ht : v_terminal (spoil "local_result_record_failed" (locals s)) <> "succeeded") by apply spoil_terminal.
  ens_step. ens_step. ens_step. ens_step. ens_step. apply ens_require; [intros environment _|done].
  ens_step. apply ens_require; [intros provenance _|done]. ens_step.
  apply (ens_on_world grows); [by intros w; apply extends_quiet|intros finished w Hw|done].
  ens_step. ens_step. ens_step. ens_step; [|done]. ens_step. by split.
Qed.

Lemma record_evidence_spec s :
  ensures (record_evidence host config client isoformat run_id)
    (fun _ s' => grows (world s) (world s') /\
       (v_terminal (locals s') = "succeeded" ->
        v_terminal (locals s) = "succeeded" /\ rest_of (locals s') = rest_of (locals s) /\
        (isSome (v_order (locals s)) && isSome (v_manifest (locals s)) && isSome (v_store (locals s))
           && v_worktree (locals s) && source_usable (locals s) = true -> recorded (log (world s')) (locals s')) /\
        (source_usable (locals s) = false -> v_evidence (locals s') = v_evidence (locals s))))
    (fun _ _ => False) s.
Proof.
  unfold record_evidence, catch. ens_step. ens_step.
  assert (Hskip : forall l, isSome (v_order l) && isSome (v_manifest l) && isSome (v_store l) && v_worktree l
    && source_usable l = false -> locals s = l -> ensures (E := Exc) (mret tt)
    (fun _ s' => grows (world s) (world s') /\
       (v_terminal (locals s') = "succeeded" ->
        v_terminal (locals s) = "succeeded" /\ rest_of (locals s') = rest_of (locals s) /\
        (isSome (v_order (locals s)) && isSome (v_manifest (locals s)) && isSome (v_store (locals s))
           && v_worktree (locals s) && source_usable (locals s) = true -> recorded (log (world s')) (locals s')) /\
        (source_usable (locals s) = false -> v_evidence (locals s') = v_evidence (locals s))))
    (fun _ _ => False) s).
  { intros l Hl Heq. ens_step. split; [done|]. intros Ht. split_and!; [done..|congruence|done]. }
  destruct (v_order (locals s)) as [o|] eqn:Ho; [|by apply (Hskip (locals s)); [rewrite Ho|]].
  destruct (v_manifest (locals s)) as [m|] eqn:Hm; [|by apply (Hskip (locals s)); [rewrite Ho, Hm|]].
  ens_step; [|by apply (Hskip (locals s)); [rewrite Ho, Hm|]].
  ens_step. eapply ens_mono; [apply write_evidence_spec| |].
  - intros [] s' [(Hg & Hr & Ht) Hrec]. split; [done|]. intros Hs. split_and!; [congruence|done|done|].
    intros Hu. rewrite Hu, andb_false_r in Hif. done.
  - intros e s' (Hg & _ & _). eapply ens_mono; [apply record_failed_spec| |done].
    intros [] s'' [Hg' Ht]. split; [by etrans|done].
Qed.

(** A run that is reported as a success *)
Definition run_success (lg : list Event) (l : Locals) : Prop :=
  exists o m path, v_order l = Some o /\ v_manifest l = Some m /\ admitted o m /\
    repository_path config (awo_repository_full_name o) = Ok path /\
    CreatedWorktree run_id path (awo_commit_sha o) (Ok tt) ∈ lg /\
    (reused_success lg l \/ v_reuse_decision l = "fresh" /\ fresh_success m lg l) /\
    (v_source_quiescent l = true ->
     (tm_dependency_lock_paths m = [] \/ v_dependency_lock_status l = "succeeded") /\
     v_artifact_status l = "succeeded" /\ v_cleanup l = "succeeded" /\ CleanedUp (Ok tt) ∈ lg /\ recorded lg l) /\
    (v_source_quiescent l = false -> v_evidence l = None).

(** The variables that [body_success] speaks of, the evidence and the integrity apart *)
Definition nine (l : Locals) :=
  (v_order l, v_manifest l, v_store l, v_worktree l, v_results l, v_attempted_steps l, v_source_quiescent l,
   v_reuse_decision l, v_lookup l).

Lemma kept_nine l l' : kept l = kept l' -> nine l = nine l'.
Proof. unfold kept, nine. congruence. Qed.
Lemma rest_nine l l' : rest_of l = rest_of l' -> nine l = nine l'.
Proof. unfold rest_of, nine. congruence. Qed.

Lemma success_kept w w' l l' :
  grows w w' -> nine l' = nine l ->
  (forall m, v_reuse_decision l = "fresh" /\ fresh_success m (log w) l ->
     v_reuse_decision l' = "fresh" /\ fresh_success m (log w') l') /\
  (reused_success (log w) l -> reused_success (log w') l').
Proof.
  intros Hg H. injection H as H1 H2 H3 H4 H5 H6 H7 H8 H9. split.
  - intros m [Hd Hf]. split; [congruence|]. apply (fresh_success_grows m w w' l Hg) in Hf. unfold fresh_success in *.
    by rewrite H5, H6, H7.
  - intros Hr. apply (reused_success_grows w w' l Hg) in Hr. unfold reused_success in *. by rewrite H5, H7, H8, H9.
Qed.

Lemma recorded_grows w w' l : grows w w' -> recorded (log w) l -> recorded (log w') l.
Proof.
  intros Hg (e & identity & hash & H1 & H2 & H3 & H4 & H5 & H6). exists e, identity, hash.
  split_and!; eauto using grows_log.
Qed.

Lemma kept_integrity_eq l l' : kept_integrity l = kept_integrity l' ->
  kept l = kept l' /\ v_source_integrity_verified l = v_source_integrity_verified l'.
Proof. intros H. split; [exact (f_equal fst H)|exact (f_equal snd H)]. Qed.
Lemma kept_locks_eq l l' : kept_locks l = kept_locks l' ->
  kept_integrity l = kept_integrity l' /\ v_dependency_lock_status l = v_dependency_lock_status l'.
Proof. intros H. split; [exact (f_equal (fun x => x.1.1) H)|exact (f_equal snd H)]. Qed.
Lemma kept_artifacts_eq l l' : kept_artifacts l = kept_artifacts l' ->
  kept_locks l = kept_locks l' /\ v_artifacts l = v_artifacts l' /\ v_artifact_status l = v_artifact_status l'.
Proof. intros H. split_and!; [exact (f_equal (fun x => x.1.1) H)|exact (f_equal (fun x => x.1.2) H)|exact (f_equal snd H)]. Qed.
Lemma kept_eq l l' : kept l = kept l' ->
  v_source_quiescent l = v_source_quiescent l' /\ v_store l = v_store l' /\ v_evidence l = v_evidence l' /\
  v_order l = v_order l' /\ v_manifest l = v_manifest l' /\ v_worktree l = v_worktree l'.
Proof. unfold kept. intros H. by injection H. Qed.

(** The checkout, the locks and the artifacts *)
Lemma final_source_spec m s :
  ensures (final_integrity host client;; final_locks host client m;; final_artifacts host client)
    (fun _ s' => fin kept s s' /\
       (v_terminal (locals s') = "succeeded" ->
        source_usable (locals s') = source_usable (locals s) /\
        (source_usable (locals s) = true -> isSome (v_store (locals s)) = true ->
         (tm_dependency_lock_paths m = [] \/ v_dependency_lock_status (locals s') = "succeeded") /\
         v_artifact_status (locals s') = "succeeded")))
    (fun _ _ => False) s.
Proof.
  ens_step. eapply ens_mono; [apply final_integrity_spec| |done]. intros [] s1 [Hf1 Hi1].
  ens_step. eapply ens_mono; [apply final_locks_spec| |done]. intros [] s2 [Hf2 Hk2].
  eapply ens_mono; [apply final_artifacts_spec| |done]. intros [] s3 [Hf3 Ha3].
  destruct Hf1 as (Hg1 & Hl1 & Ht1), Hf2 as (Hg2 & Hl2 & Ht2), Hf3 as (Hg3 & Hl3 & Ht3).
  apply kept_integrity_eq in Hl2 as [Hl2 Hi2]. apply kept_locks_eq in Hl3 as [Hl3 Hs3].
  apply kept_integrity_eq in Hl3 as [Hl3 Hi3]. assert (Hk : kept (locals s2) = kept (locals s)) by congruence.
  split. { split_and!; [etrans; [exact Hg1|]; by etrans|congruence|auto]. }
  intros Ht. specialize (Hi1 (Ht2 (Ht3 Ht))). specialize (Hk2 (Ht3 Ht)). specialize (Ha3 Ht).
  destruct (kept_eq _ _ Hl1) as (Hq1 & _), (kept_eq _ _ Hk) as (Hq2 & Hst2 & _), (kept_eq _ _ (eq_trans Hl3 Hk)) as (Hq3 & _).
  assert (source_usable (locals s3) = source_usable (locals s) /\ source_usable (locals s2) = source_usable (locals s) /\
    source_usable (locals s1) = source_usable (locals s)) as (Hu3 & Hu2 & Hu1).
  { unfold source_usable. rewrite Hq1, Hq2, Hq3, Hi3, Hi2, Hi1. destruct (v_source_quiescent (locals s)); [|done].
    by rewrite andb_true_r. }
  split; [done|]. intros Hus Hst. rewrite Hu1 in Hk2. rewrite Hu2 in Ha3. split.
  - rewrite Hs3. by apply Hk2.
  - apply Ha3; [done|]. by rewrite Hst2.
Qed.

Lemma finish_spec s :
  (v_terminal (locals s) = "succeeded" -> body_success (log (world s)) (locals s)) ->
  ensures (finish host config client isoformat run_id)
    (fun _ s' => v_terminal (locals s') = "succeeded" -> run_success (log (world s')) (locals s'))
    (fun _ _ => True) s.
Proof.
  intros Hbody. unfold finish. ens_step.
  apply (ens_always (fin (fun l => l))); [apply settle_fin|intros [] s1 (Hg1 & Hl1 & _)|done].
  rewrite <- Hl1 in Hbody. assert (Hbody1 : v_terminal (locals s1) = "succeeded" -> body_success (log (world s)) (locals s1)) by done.
  clear Hbody Hl1. ens_step. ens_step. ens_step. ens_step. ens_step.
  apply (ens_mono _ (fun _ s2 => fin kept s1 s2 /\
       (v_terminal (locals s2) = "succeeded" -> forall m, v_manifest (locals s1) = Some m -> v_worktree (locals s1) = true ->
        source_usable (locals s2) = source_usable (locals s1) /\
        (source_usable (locals s1) = true -> isSome (v_store (locals s1)) = true ->
         (tm_dependency_lock_paths m = [] \/ v_dependency_lock_status (locals s2) = "succeeded") /\
         v_artifact_status (locals s2) = "succeeded"))) _ (fun _ _ => False)); [| |done].
  { destruct (v_manifest (locals s1)) as [m|]; [|by ens_step]. ens_step.
    - eapply ens_mono; [apply final_source_spec| |done]. intros [] s2 [Hf Hs]. split; [done|].
      intros Ht m' [= <-] _. by apply Hs.
    - ens_step. split; [done|]. congruence. }
  intros [] s2 [Hf2 Hs2]. ens_step.
  apply (ens_mono _ (fun _ s3 => fin kept_artifacts s2 s3 /\
       (v_terminal (locals s3) = "succeeded" -> v_worktree (locals s1) = true -> source_usable (locals s2) = true ->
        v_cleanup (locals s3) = "succeeded" /\ CleanedUp (Ok tt) ∈ log (world s3))) _ (fun _ _ => False)); [| |done].
  { ens_step.
    - eapply ens_mono; [apply final_cleanup_spec| |done]. intros [] s3 [Hf Hs]. split; [done|]. auto.
    - ens_step. split; [done|]. congruence. }
  intros [] s3 [Hf3 Hs3]. ens_step. ens_step. ens_step. ens_step. ens_step.
  apply (ens_mono _ (fun _ s4 => exists j, s4 = s3 <| locals := (locals s3) <| v_summary := j |> |>) _ (fun _ _ => True)); [| |done].
  { destruct (v_order (locals s3)) as [o|]; [ens_step; ens_step; [ens_step; by eexists|done]|ens_step].
    exists (v_summary (locals s3)). by destruct s3 as [? []]. }
  intros [] s4 [j ->]. ens_step. eapply ens_mono; [apply record_evidence_spec| |done].
  intros [] s5 [Hg5 Hs5]. rsimpl in Hg5. rsimpl in Hs5. unfold on_world, ensures, modify. cbn beta iota zeta. rsimpl.
  set (w6 := interfere host client (world s5)). assert (Hg6 : grows (world s5) w6) by by apply interfere_extends.
  assert (log (end_run run_id w6) = log w6) as -> by (unfold end_run; by case_bool_decide).
  intros Ht. destruct (Hs5 Ht) as (Ht4 & Hr5 & Hrec & Hnorec). clear Hs5.
  destruct Hf3 as (Hg3 & Hl3 & Ht3), Hf2 as (Hg2 & Hl2 & Ht2).
  destruct (Hbody1 (Ht2 (Ht3 Ht4))) as (o & m & path & Ho & Hm & Hst & Hwt & Hev & Hint & Had & Hp & Hin & Hd).
  destruct (Hs2 (Ht3 Ht4) m Hm Hwt) as [Hu2 Hfin]. specialize (Hs3 Ht4 Hwt).
  apply kept_artifacts_eq in Hl3 as (Hl3 & _ & Has). apply kept_locks_eq in Hl3 as [Hl3 Hls].
  apply kept_integrity_eq in Hl3 as [Hl3 Hi3]. assert (Hk : kept (locals s3) = kept (locals s1)) by congruence.
  destruct (kept_eq _ _ Hk) as (Hq3 & Hst3 & Hev3 & Ho3 & Hm3 & Hwt3).
  destruct (kept_eq _ _ Hl3) as (Hq32 & _).
  assert (Hu3 : source_usable (locals s3) = source_usable (locals s1)).
  { unfold source_usable in *. by rewrite Hq32, Hi3. }
  assert (Hu1 : source_usable (locals s1) = v_source_quiescent (locals s1)).
  { unfold source_usable. by rewrite Hint, andb_true_r. }
  assert (Hn : nine (locals s5) = nine (locals s1)).
  { rewrite (rest_nine _ _ Hr5). exact (kept_nine _ _ Hk). }
  assert (Hgs : grows (world s) w6) by (etrans; [exact Hg1|]; etrans; [exact Hg2|]; etrans; [exact Hg3|]; by etrans).
  destruct (success_kept (world s) w6 (locals s1) (locals s5) Hgs Hn) as [Hfresh Hreused].
  assert (Hn' := Hn). injection Hn' as Ho5 Hm5 _ _ _ _ Hq5 _ _.
  injection Hr5 as _ _ _ _ _ _ _ _ _ _ Hls5 _ Has5 Hcl5 _. rewrite Hu3, Hu1, Ho3, Hm3, Hst3, Hwt3, Ho, Hm, Hst, Hwt in Hrec.
  exists o, m, path. split_and!; [congruence|congruence|done|done|by eapply grows_log|destruct Hd as [Hd|Hd]; [left|right]; auto| |].
  - intros Hq. rewrite Hq5 in Hq. rewrite Hu1, Hq in Hfin. rewrite Hu2, Hu1 in Hs3.
    destruct (Hfin eq_refl Hst) as [Hlk Hart]. destruct (Hs3 Hq) as [Hc Hcin]. split_and!.
    + destruct Hlk as [Hlk|Hlk]; [by left|right]. congruence.
    + congruence.
    + congruence.
    + eapply grows_log; [|exact Hcin]. by etrans.
    + eapply recorded_grows; [exact Hg6|]. by apply Hrec.
  - intros Hq. rewrite Hq5 in Hq. rewrite Hu3, Hu1 in Hnorec. rewrite (Hnorec Hq). congruence.
Qed.
End success.
