(* ===== verification/WorkerLog.v ===== *)
(** * What a poll leaves behind

    The log of one call of [LocalWorker.poll_once] and of a history of calls: which requests
    are sent and what they claim, which runs are executed, and what is done after a step
    whose processes could not be accounted for. *)

From S2P Require Import Prelude Text Json Enums Evidence Floats JsonCodec Documents Registry Checks Parsers WorkerContracts Iso8601 WorkerModels Effects WorkerClient WorkerConfig WorkerPolicy LocalWorker LocalWorkerProofs.
From Stdlib Require Import QArith.
#[local] Open Scope Z_scope.

(** ** What a run leaves in the log *)

(** The log grows by events that satisfy [P]; the other registers may change. *)
Record logs (P : Event -> Prop) (w w' : World) : Prop := {
  lg_log : exists new, log w' = new ++ log w /\ Forall P new;
  lg_shutdown : shutdown w = true -> shutdown w' = true;
  lg_executed : executed_run_ids w' = executed_run_ids w;
}.

#[export] Instance logs_refl P : Reflexive (logs P).
Proof. intros w. split; [by exists []|done..]. Qed.
#[export] Instance logs_trans P : Transitive (logs P).
Proof.
  intros w1 w2 w3 [(n1 & Hl1 & H1) S1 E1] [(n2 & Hl2 & H2) S2 E2].
  split; [exists (n2 ++ n1); rewrite Hl2, Hl1, app_assoc, Forall_app; done|tauto|congruence].
Qed.

Lemma extends_logs P w w' : extends P w w' -> logs P w w'.
Proof. intros [H1 H2 H3 _ _]. by split. Qed.
Lemma logs_quiet P w w' :
  log w' = log w -> (shutdown w = true -> shutdown w' = true) -> executed_run_ids w' = executed_run_ids w -> logs P w w'.
Proof. intros. split; [by exists []|done..]. Qed.

(** What is done on the host for the run, the checkout and the commands apart *)
Definition local_event (run_id : Z) (e : Event) : Prop :=
  match e with
  | Sent _ _ | Pruned _ | CreatedWorktree _ _ _ _ | RanStep _ _ => False
  | CreatedStore k _ => k = run_id
  | _ => True
  end.

#[export] Hint Extern 1 (local_event _ _) => done : core.

Section run_rules.
Context (host : Host) (client : Client) (P : Event -> Prop).

Definition runs (s s' : Running) : Prop := logs P (world s) (world s').

#[export] Instance runs_refl : Reflexive runs.
Proof. intros s. unfold runs. reflexivity. Qed.
#[export] Instance runs_trans : Transitive runs.
Proof. intros s1 s2 s3 H1 H2. unfold runs in *. by etrans. Qed.

Lemma runs_assign f : always runs (assign f).
Proof. intros s. unfold runs. reflexivity. Qed.
Lemma runs_local {A} (f : Locals -> A) : always runs (local f).
Proof. intros s. unfold runs. reflexivity. Qed.
Lemma runs_world {A} (m : M Exc World A) : always (logs P) m -> always runs (on_world m).
Proof. intros H s. unfold runs, on_world. specialize (H (world s)). by destruct (m (world s)). Qed.
Lemma runs_extends {A} (m : M Exc World A) : always (extends P) m -> always runs (on_world m).
Proof. intros H. apply runs_world. intros w. apply extends_logs, H. Qed.
Lemma runs_act {A} (answer : nat -> Result Exc A) event :
  (forall e, beat client e -> P e) -> (forall r, P (event r)) -> always runs (on_world (act host client answer event)).
Proof. intros HP He. by apply runs_extends, act_extends. Qed.
Lemma runs_observe {A} (f : World -> A) : (forall e, beat client e -> P e) -> always runs (on_world (observe host client f)).
Proof. intros HP. by apply runs_extends, observe_extends. Qed.
Lemma runs_quiet {A} (m : M Exc World A) :
  (forall w, log (m w).2 = log w /\ executed_run_ids (m w).2 = executed_run_ids w /\
             (shutdown w = true -> shutdown (m w).2 = true)) -> always runs (on_world m).
Proof. intros H. apply runs_world. intros w. destruct (H w) as (? & ? & ?). by apply logs_quiet. Qed.
Lemma runs_catch m h : always runs m -> (forall e, always runs (h e)) -> always runs (catch m h).
Proof. intros Hm Hh. unfold catch. apply always_handle; [apply _|done|]. intros e k [= <-]. apply Hh. Qed.

Lemma lift_runs {A B} (x : Result Exc A) (k : A -> M Exc Running B) :
  (forall a, x = Ok a -> always runs (k a)) -> always runs (lift_result x ≫= k).
Proof.
  intros Hk s. unfold mbind, M_bind, lift_result. destruct x as [a|e] eqn:Hx; [by apply Hk|]. unfold runs. reflexivity.
Qed.
End run_rules.

(** One step of the decomposition of a run *)
Ltac runs_step :=
  first
    [ lazymatch goal with |- always (runs _) (lift_result _ ≫= _) => apply lift_runs end
    | always1
    | lazymatch goal with
      | |- always (runs _) (let _ := _ in _) => cbv zeta
      | |- always (runs _) (assign _) => apply runs_assign
      | |- always (runs _) (local _) => apply runs_local
      | |- always (runs _) (catch _ _) => apply runs_catch
      | |- always (runs _) (on_world (act _ _ _ _)) => apply runs_act; by eauto
      | |- always (runs _) (on_world (observe _ _ _)) => apply runs_observe; by eauto
      | |- always (runs _) (token_cancelled _ _ _) => apply runs_observe; by eauto
      | |- always (runs _) (on_world (verify_checkout_integrity _ _)) => apply runs_act; by eauto
      | |- always (runs _) (on_world (utc_now _)) => by apply runs_quiet
      | |- always (runs _) (on_world (monotonic _)) => by apply runs_quiet
      | |- always (runs _) (on_world (discover _)) => by apply runs_quiet
      | |- always (runs _) (on_world (package_versions _)) => by apply runs_quiet
      | |- always (runs _) (on_world (modify (cancel _ _))) =>
          apply runs_extends, always_modify; intros; apply cancel_extends
      | |- always (runs _) (on_world (modify request_shutdown)) =>
          apply runs_extends, always_modify; intros; apply request_shutdown_extends
      | |- always (runs _) (match ?x with _ => _ end) => destruct x
      end ].

(** ** What the control plane answered *)

(** [e] is the request [request], answered with the document [payload]. *)
Definition answered (request : HttpRequest) (payload : Json) (e : Event) : Prop :=
  exists response, e = Sent request (Ok response) /\ rs_status_code response < HTTP_ERROR_STATUS /\
    loads (rs_content response) = Some payload.

(** [e] is a checkout that hands out run [k] of order [id]. *)
Definition hands_out (client : Client) (k id : Z) (e : Event) : Prop :=
  exists payload taken,
    answered (http_request client "post" (cl_prefix client +:+ "/checkout") []
                (Some (JObj [("worker_id", JStr (cl_worker_id client))]))) payload e /\
    checkout_from_payload payload = Ok taken /\ ck_run_id taken = Some k /\ ck_work_order_id taken = Some id.

(** [e] is the request for order [id], answered with [o]. *)
Definition describes (client : Client) (id : Z) (o : AssignedWorkOrder) (e : Event) : Prop :=
  exists payload,
    answered (http_request client "get" (cl_prefix client +:+ "/work-orders/" +:+ str_of_int id) [] None) payload e /\
    work_order_from_payload payload = Ok o.

(** What a call ensures, together with how it changes the state *)
Lemma ens_both {S A} (R : S -> S -> Prop) (m : M Exc S A) (Q Q' : A -> S -> Prop) (X X' : Exc -> S -> Prop) s :
  always R m -> ensures m Q X s ->
  (forall a s', R s s' -> Q a s' -> Q' a s') -> (forall e s', R s s' -> X e s' -> X' e s') -> ensures m Q' X' s.
Proof. intros Hm H HQ HX. unfold ensures in *. specialize (Hm s). destruct (m s) as [[a|e] s']; auto. Qed.

(** A call of the client that returns was answered. *)
Lemma request_answered host client method path owned params json w :
  ensures (request_json (H := polling_client host client) client method path owned params json)
    (fun payload w' => exists e beats, log w' = e :: beats ++ log w /\ Forall (beat client) beats /\
       answered (http_request client method path params json) payload e)
    (fun _ _ => True) w.
Proof.
  unfold request_json. set (r := http_request client method path params json).
  do 3 ens_step; [by ens_step|]. ens_step. cbn [send polling_client]. do 2 ens_step.
  unfold send_now, ensures. cbn zeta. destruct (h_http host _ r) as [response|e] eqn:Ha; [|done].
  destruct (cl_worker_scoped client && bool_decide _); [done|]. destruct (owned && bool_decide _); [done|].
  destruct (Z.leb_spec HTTP_ERROR_STATUS (rs_status_code response)) as [Hs|Hs]; [done|].
  destruct (loads (rs_content response)) as [payload|] eqn:Hp; [|done]. cbn.
  destruct (interfere_extends host client (beat client) w ltac:(done)) as [(beats & Hl & Hb) _ _ _ _].
  exists (Sent r (Ok response)), beats. unfold record_event, next_turn. rsimpl. rewrite Hl. split_and!; [done..|].
  by exists response.
Qed.

Section run_log.
Context (host : Host) (config : WorkerConfig) (client : Client) (registry : list TrustedManifest)
  (decode_candidate : Json -> option ReuseCandidate) (isoformat : Z -> string) (run_id : Z) (P : Event -> Prop).

Hypothesis P_beat : forall e, beat client e -> P e.
Hypothesis P_get : forall path params answer, P (Sent (http_request client "get" path params None) answer).
Hypothesis P_reuse : forall identity hash answer,
  P (Sent (http_request client "post" (run_path client run_id "reuse-candidate") []
       (Some (JObj [("worker_id", JStr (cl_worker_id client)); ("reuse_identity", identity);
                    ("reuse_identity_hash", JStr hash)]))) answer).
Hypothesis P_local : forall e, local_event run_id e -> P e.

#[local] Notation runs := (runs P).
#[local] Hint Resolve P_beat P_local : core.

Lemma adopt_runs token : always runs (adopt_cancellation host client token).
Proof. unfold adopt_cancellation. repeat runs_step. Qed.

Lemma capture_locks_runs m : always runs (capture_locks host client m).
Proof.
  unfold capture_locks. repeat runs_step. apply runs_extends. unfold hash_dependency_locks. always. apply act_extends; auto.
Qed.

Lemma attempt_reuse_runs token o m environment :
  always runs (attempt_reuse host client decode_candidate run_id token o m environment).
Proof.
  unfold attempt_reuse, refuse_fresh, set_reuse_identity. repeat runs_step; try apply capture_locks_runs; try apply adopt_runs.
  unfold lookup_candidate. apply always_handle; [apply _| |].
  - repeat runs_step. apply runs_extends. unfold resolve_reuse_candidate, post_owned. by apply polling_request_extends; auto.
  - intros e k. repeat case_match; intros [= <-]; repeat runs_step.
Qed.

Lemma on_step_error_runs token e : always runs (on_step_error host client token e).
Proof. unfold on_step_error. destruct e; repeat runs_step; apply adopt_runs. Qed.

Lemma run_one_runs token m step :
  (forall r, P (RanStep step r)) -> always runs (run_one host client token m step).
Proof.
  intros Hstep. unfold run_one. apply always_handle; [apply _|repeat runs_step|].
  intros e k [= <-]. repeat runs_step. apply on_step_error_runs.
Qed.

Lemma note_result_runs m step answer : always runs (note_result m step answer).
Proof. unfold note_result. repeat runs_step. Qed.

Lemma run_steps_runs token m steps :
  (forall step r, step ∈ steps -> P (RanStep step r)) -> always runs (run_steps host client token m steps).
Proof.
  induction steps as [|step rest IH]; intros Hsteps; cbn [run_steps]; [repeat runs_step|].
  assert (always runs (run_steps host client token m rest)) by (apply IH; intros; apply Hsteps; by right).
  assert (forall r, P (RanStep step r)) by (intros; apply Hsteps; by left).
  repeat runs_step; first [by apply run_one_runs|apply note_result_runs|done].
Qed.

Section execute.
Context (o : AssignedWorkOrder) (m : TrustedManifest).
Hypothesis P_worktree : forall path r, repository_path config (awo_repository_full_name o) = Ok path ->
  P (CreatedWorktree run_id path (awo_commit_sha o) r).
Hypothesis P_steps : forall step r, step ∈ tm_execution_steps m -> P (RanStep step r).

Lemma execute_runs token : always runs (execute host config client decode_candidate run_id token o m).
Proof.
  unfold execute, create_store. repeat runs_step.
  all: first [apply attempt_reuse_runs|by apply run_steps_runs|apply adopt_runs].
Qed.
End execute.

Lemma read_runs path params : always runs (on_world (read (H := polling_client host client) client path params)).
Proof. apply runs_extends, polling_request_extends; auto. Qed.

Lemma start_monitor_runs deadline token : always runs (start_monitor host client run_id deadline token).
Proof.
  unfold start_monitor. repeat runs_step; [|by apply runs_quiet].
  apply runs_extends, tick_extends; [by intros; apply extends_quiet|]. intros r Hr. cbn. always.
  - apply always_modify. intros. by apply interfere_extends.
  - apply send_now_extends. auto.
Qed.

Lemma run_body_runs work_order_id :
  (forall o m, admitted config registry o m ->
     (forall path r, repository_path config (awo_repository_full_name o) = Ok path ->
        P (CreatedWorktree run_id path (awo_commit_sha o) r)) /\
     (forall step r, step ∈ tm_execution_steps m -> P (RanStep step r))) ->
  always runs (run_body host config client registry decode_candidate run_id work_order_id).
Proof.
  intros HP. unfold run_body, get_work_order, get_manifest. repeat runs_step.
  all: lazymatch goal with
       | |- always _ (on_world (read _ _ _)) => apply read_runs
       | |- always _ (start_monitor _ _ _ _ _) => apply start_monitor_runs
       | |- always _ (adopt_cancellation _ _ _) => apply adopt_runs
       | |- always _ (execute _ _ _ _ _ _ _ _) => apply execute_runs
       | |- always _ (on_world (gets _)) => by apply runs_quiet
       | _ => idtac
       end.
  - apply runs_world. intros w. pose proof (interfere_extends host client P w P_beat) as Hw.
    etrans; [by apply extends_logs|]. by apply logs_quiet.
  - apply (HP a0 a6). by exists a, a3, a4, a5.
  - apply (HP a0 a6). by exists a, a3, a4, a5.
Qed.

(** *** Up to the execution *)

Lemma read_answered path params s :
  ensures (on_world (read (H := polling_client host client) client path params))
    (fun payload s' => exists e beats, log (world s') = e :: beats ++ log (world s) /\ Forall (beat client) beats /\
       answered (http_request client "get" path params None) payload e)
    (fun _ _ => True) s.
Proof.
  pose proof (request_answered host client "get" path false params None (world s)) as H. unfold ensures, on_world, read in *.
  by destruct (request_json _ _ _ _ _ _ (world s)) as [[payload|e] w'].
Qed.

(** [E] holds of whatever is reached from [s0] by events that satisfy [P]. *)
Definition reaches (s0 : Running) (E : Running -> Prop) : Prop :=
  forall s, logs P (world s0) (world s) -> E s.

Lemma prefix_bind {A} (c : M Exc Running A) (k : A -> M Exc Running unit) (E : Running -> Prop) s0 s :
  reaches s0 E -> logs P (world s0) (world s) -> always runs c ->
  (forall a s1, logs P (world s0) (world s1) -> ensures (k a) (fun _ => E) (fun _ => E) s1) ->
  ensures (c ≫= k) (fun _ => E) (fun _ => E) s.
Proof.
  intros HE Hs Hc Hk. ens_step. apply (ens_always runs); [done|intros a s1 H1; apply Hk|intros e s1 H1; apply HE].
  all: etrans; [exact Hs|exact H1].
Qed.

Lemma prefix_end (c : M Exc Running unit) (E : Running -> Prop) s0 s :
  reaches s0 E -> logs P (world s0) (world s) -> always runs c -> ensures c (fun _ => E) (fun _ => E) s.
Proof.
  intros HE Hs Hc. apply (ens_always runs); [done|intros a s1 H1; apply HE|intros e s1 H1; apply HE].
  all: etrans; [exact Hs|exact H1].
Qed.

Lemma fresh_token_runs :
  always runs (on_world (fun w => let w := interfere host client w in
     (Ok (length (tokens w)), w <| tokens := tokens w ++ [None] |> <| active_token := Some (length (tokens w)) |>))).
Proof.
  apply runs_world. intros w. pose proof (interfere_extends host client P w P_beat) as Hw.
  etrans; [by apply extends_logs|]. by apply logs_quiet.
Qed.

Lemma run_body_prefix work_order_id (E : Running -> Prop) s0 s :
  reaches s0 E -> logs P (world s0) (world s) ->
  (forall token o m s1 new, admitted config registry o m -> logs P (world s0) (world s1) ->
     log (world s1) = new ++ log (world s0) -> Exists (describes client work_order_id o) new ->
     ensures (execute host config client decode_candidate run_id token o m) (fun _ => E) (fun _ => E) s1) ->
  ensures (run_body host config client registry decode_candidate run_id work_order_id) (fun _ => E) (fun _ => E) s.
Proof.
  intros HE Hs Hexec. unfold run_body, get_work_order, get_manifest.
  ens_step. eapply (ens_both runs); [apply read_runs|apply read_answered| |intros e s1 H1 _; apply HE; by etrans; [exact Hs|exact H1]].
  intros payload s1 H1 (e & beats & Hl & _ & Ha). assert (Hs1 : logs P (world s0) (world s1)) by by etrans; [exact Hs|exact H1].
  ens_step. ens_step; [rename a into o|by apply HE].
  assert (Hnew : exists new, log (world s1) = new ++ log (world s0) /\ Exists (describes client work_order_id o) new).
  { destruct Hs as [(pre & Hpre & _) _ _]. exists (e :: beats ++ pre). rewrite Hl, Hpre, app_assoc. split; [done|].
    apply Exists_cons. left. by exists payload. }
  assert (HE1 : reaches s1 E) by (intros s2 H2; apply HE; by etrans).
  assert (Hexec1 : forall token m s2, admitted config registry o m -> logs P (world s1) (world s2) ->
    ensures (execute host config client decode_candidate run_id token o m) (fun _ => E) (fun _ => E) s2).
  { intros token m s2 Had [(more & Hm & Hp) H2 H3]. destruct Hnew as (new & Hn & Hx).
    apply (Hexec _ _ _ _ (more ++ new)); [done| |by rewrite Hm, Hn, app_assoc|apply Exists_app; by right].
    etrans; [exact Hs1|]. split; [by exists more|done..]. }
  clear s Hs Hexec HE Hnew H1 Hl Hs1. rename s0 into s00, s1 into s0. assert (Hs : logs P (world s0) (world s0)) by reflexivity.
  rename HE1 into HE, Hexec1 into Hexec. revert Hs. generalize s0 at 2 3. intros s Hs.
  apply (prefix_bind _ _ _ s0); [done..|apply runs_assign|clear s Hs; intros [] s Hs].
  apply (prefix_bind _ _ _ s0); [done..|apply read_runs|clear s Hs; intros payload' s Hs].
  ens_step. ens_step; [rename a into remote|by apply HE].
  apply (prefix_bind _ _ _ s0); [done..|by apply runs_quiet|clear s Hs; intros p s Hs].
  apply (prefix_bind _ _ _ s0); [done..|by apply runs_quiet|clear s Hs; intros p' s Hs].
  ens_step. ens_step; [rename a into m|by apply HE].
  apply (prefix_bind _ _ _ s0); [done..|apply runs_assign|clear s Hs; intros [] s Hs].
  apply (prefix_bind _ _ _ s0); [done..|by apply runs_quiet|clear s Hs; intros now s Hs]. cbv zeta.
  apply (prefix_bind _ _ _ s0); [done..|apply fresh_token_runs|clear s Hs; intros token s Hs].
  apply (prefix_bind _ _ _ s0); [done..|apply start_monitor_runs|clear s Hs; intros [] s Hs].
  apply (prefix_bind _ _ _ s0); [done..|by apply runs_observe|clear s Hs; intros cancelled s Hs].
  ens_step; [apply (prefix_end _ _ s0); [done..|apply adopt_runs]|].
  apply (prefix_bind _ _ _ s0); [done..|by apply runs_observe|clear s Hs; intros stopping s Hs].
  ens_step; [apply (prefix_end _ _ s0); [done..|repeat runs_step; by apply runs_quiet]|].
  apply Hexec; [by exists payload, remote, p, p'|done].
Qed.

(** The execution up to its checkout *)
Lemma execute_prefix token o m (E : Running -> Prop) s0 s :
  reaches s0 E -> logs P (world s0) (world s) ->
  (forall path environment s1, repository_path config (awo_repository_full_name o) = Ok path ->
     logs P (world s0) (world s1) ->
     ensures (on_world (act host client (h_create_worktree host) (CreatedWorktree run_id path (awo_commit_sha o)));;
         assign (fun l => l <| v_worktree := true |>);;
         on_world (verify_checkout_integrity host client);;
         assign (fun l => set_outcome "succeeded" None l <| v_cleanup := "pending" |>);;
         execute_fresh ← (if bool_decide (awo_reuse_policy o = "never") then mret true
                          else attempt_reuse host client decode_candidate run_id token o m environment);
         (if execute_fresh : bool then
            assign (fun l => l <| v_reuse_decision := "fresh" |>);; run_steps host client token m (tm_execution_steps m)
          else mret tt);;
         cancelled ← token_cancelled host client token;
         if cancelled : bool then adopt_cancellation host client token else mret tt)
       (fun _ => E) (fun _ => E) s1) ->
  ensures (execute host config client decode_candidate run_id token o m) (fun _ => E) (fun _ => E) s.
Proof.
  intros HE Hs Hrest. unfold execute, create_store.
  apply (prefix_bind _ _ _ s0); [done..|by apply runs_quiet|clear s Hs; intros started_at s Hs].
  apply (prefix_bind _ _ _ s0); [done..|apply runs_assign|clear s Hs; intros [] s Hs].
  apply (prefix_bind _ _ _ s0); [done..|by apply runs_quiet|clear s Hs; intros versions s Hs].
  apply (prefix_bind _ _ _ s0); [done..|by apply runs_quiet|clear s Hs; intros platform s Hs].
  ens_step. ens_step; [|by apply HE].
  apply (prefix_bind _ _ _ s0); [done..|apply runs_assign|clear s Hs; intros [] s Hs].
  apply (prefix_bind _ _ _ s0); [done..|repeat runs_step|clear s Hs; intros [] s Hs].
  ens_step. ens_step; [by apply Hrest|by apply HE].
Qed.

Lemma on_failure_runs e : always runs (on_failure e).
Proof. destruct e; cbn [on_failure]; repeat runs_step. Qed.

(** *** The final clause *)

Lemma runs_interfere f :
  (forall w, log (f w) = log w /\ executed_run_ids (f w) = executed_run_ids w /\ shutdown (f w) = shutdown w) ->
  always runs (on_world (modify (fun w => f (interfere host client w)))).
Proof.
  intros Hf. apply runs_world. intros w. cbn. pose proof (interfere_extends host client P w P_beat) as Hw.
  etrans; [by apply extends_logs|]. destruct (Hf (interfere host client w)) as (H1 & H2 & H3). apply logs_quiet; congruence.
Qed.

Lemma settle_runs : always runs (settle host client).
Proof.
  unfold settle. repeat runs_step.
  all: lazymatch goal with
       | |- always _ (on_world (modify (interfere _ _))) => by apply (runs_interfere id)
       | |- always _ (on_world (modify _)) => by apply runs_quiet
       end.
Qed.

Lemma final_integrity_runs : always runs (final_integrity host client).
Proof. unfold final_integrity. repeat runs_step. Qed.

Lemma final_locks_runs m : always runs (final_locks host client m).
Proof. unfold final_locks. repeat runs_step. apply capture_locks_runs. Qed.

Lemma final_artifacts_runs : always runs (final_artifacts host client).
Proof.
  unfold final_artifacts. repeat runs_step.
  apply runs_extends. always; apply act_extends; auto.
Qed.

Lemma final_cleanup_runs : always runs (final_cleanup host client).
Proof. unfold final_cleanup. repeat runs_step. Qed.

Lemma record_evidence_runs : always runs (record_evidence host config client isoformat run_id).
Proof.
  unfold record_evidence, write_evidence, record_failed, set_reuse_identity. repeat runs_step.
Qed.

Lemma finish_runs : always runs (finish host config client isoformat run_id).
Proof.
  unfold finish. repeat runs_step.
  all: lazymatch goal with
       | |- always _ (settle _ _) => apply settle_runs
       | |- always _ (final_integrity _ _) => apply final_integrity_runs
       | |- always _ (final_locks _ _ _) => apply final_locks_runs
       | |- always _ (final_artifacts _ _) => apply final_artifacts_runs
       | |- always _ (final_cleanup _ _) => apply final_cleanup_runs
       | |- always _ (record_evidence _ _ _ _ _) => apply record_evidence_runs
       | _ => idtac
       end.
  apply runs_interfere. intros w. unfold end_run. by case_bool_decide.
Qed.

(** *** The run as a whole *)

(** The completion of the run *)
Definition completion_event (k : Z) (c : Completion) (answer : Result Exc HttpResponse) : Event :=
  Sent (http_request client "post" (run_path client k "complete") [] (Some (JObj (completion_payload client c)))) answer.

Lemma complete_logs k c :
  (forall answer, P (completion_event k c answer)) ->
  always (extends P) (complete_run (H := polling_client host client) client k c).
Proof. intros HP. by apply polling_request_extends. Qed.

Lemma report_logs l :
  (v_skip_completion l = false -> forall answer, P (completion_event run_id (completion_of isoformat l) answer)) ->
  always (extends P) (report host client isoformat run_id l).
Proof.
  intros HP. unfold report. destruct (v_skip_completion l); [always|].
  apply always_handle; [apply _|always; by apply complete_logs; auto|].
  intros e k. repeat case_match; intros [= <-]; always. apply always_modify. intros. apply request_shutdown_extends.
Qed.

(** From the admission of the run to the end of the [finally] clause *)
Definition run_to_end (work_order_id : Z) : M Exc Running unit :=
  try_finally (catch (run_body host config client registry decode_candidate run_id work_order_id) on_failure)
    (finish host config client isoformat run_id).

Lemma run_to_end_runs work_order_id :
  (forall o m, admitted config registry o m ->
     (forall path r, repository_path config (awo_repository_full_name o) = Ok path ->
        P (CreatedWorktree run_id path (awo_commit_sha o) r)) /\
     (forall step r, step ∈ tm_execution_steps m -> P (RanStep step r))) ->
  always runs (run_to_end work_order_id).
Proof.
  intros HP s. unfold run_to_end, try_finally.
  pose proof (runs_catch P _ _ (run_body_runs work_order_id HP) on_failure_runs s) as Hb.
  destruct (catch _ _ s) as [r s1]. cbn [snd] in Hb. pose proof (finish_runs s1) as Hf.
  destruct (finish _ _ _ _ _ s1) as [[a|e] s2]; by etrans.
Qed.
End run_log.

(** ** What is executed *)

(** Where an element of a concatenation stands *)
Lemma app_split {A} (l1 l2 later earlier : list A) x :
  l1 ++ l2 = later ++ x :: earlier ->
  (exists mid, l1 = later ++ x :: mid /\ earlier = mid ++ l2) \/ (exists mid, later = l1 ++ mid /\ l2 = mid ++ x :: earlier).
Proof.
  intros H. destruct (app_eq_inv _ _ _ _ H) as [[k [H1 H2]]|[k [H1 H2]]].
  - destruct k as [|y k]; [right; exists []; rewrite app_nil_r in *; by split|]. left. injection H2 as -> ->. eauto.
  - right. eauto.
Qed.

Section executed.
Context (config : WorkerConfig) (client : Client) (registry : list TrustedManifest) (run_id work_order_id : Z).

(** Neither a checkout nor a command *)
Definition plain (e : Event) : Prop := match e with CreatedWorktree _ _ _ _ | RanStep _ _ => False | _ => True end.

(** No checkout, and no command but those of the manifest *)
Definition stepping (m : TrustedManifest) (e : Event) : Prop :=
  match e with CreatedWorktree _ _ _ _ => False | RanStep step _ => step ∈ tm_execution_steps m | _ => True end.

(** What a poll leaves of a run: nothing was checked out and no command was run, or the control plane
    described the order, it was admitted, its commit was checked out of the configured repository, once, and
    the commands that follow are those of the admitted manifest, the first of them after a successful
    checkout and a successful check of it. *)
Inductive executed (new : list Event) : Prop :=
| not_started : Forall plain new -> executed new
| started o m path answer rest earliest :
    new = rest ++ CreatedWorktree run_id path (awo_commit_sha o) answer :: earliest ->
    Forall plain earliest -> Forall (stepping m) rest -> admitted config registry o m ->
    repository_path config (awo_repository_full_name o) = Ok path -> Exists (describes client work_order_id o) earliest ->
    (forall later step r earlier, rest = later ++ RanStep step r :: earlier ->
       answer = Ok tt /\ VerifiedCheckout (Ok tt) ∈ earlier) ->
    executed new.

Lemma plain_stepping m e : plain e -> stepping m e.
Proof. by destruct e. Qed.

Lemma executed_after new more : Forall plain more -> executed new -> executed (more ++ new).
Proof.
  intros Hm [Hn|o m path answer rest earliest -> He Hr Ha Hp Hd Hs]; [left; by apply Forall_app|].
  apply (started _ o m path answer (more ++ rest) earliest); [by rewrite app_assoc|done| |done|done|done|].
  - apply Forall_app. split; [|done]. eapply Forall_impl; [exact Hm|]. apply plain_stepping.
  - intros later step r earlier H. destruct (app_split _ _ _ _ _ H) as [(mid & -> & _)|(mid & _ & H2)].
    + apply Forall_app in Hm as [_ Hm]. by inversion Hm.
    + by apply (Hs mid step r earlier).
Qed.

Lemma executed_before new more : Forall plain more -> executed new -> executed (new ++ more).
Proof.
  intros Hm [Hn|o m path answer rest earliest -> He Hr Ha Hp Hd Hs]; [left; by apply Forall_app|].
  apply (started _ o m path answer rest (earliest ++ more)); [by rewrite <- app_assoc|by apply Forall_app|done..| |done].
  apply Exists_app. by left.
Qed.

Definition executes (s s' : Running) : Prop :=
  exists new, log (world s') = new ++ log (world s) /\ executed new.

Lemma logs_executes w s s' s0 : logs plain (world s0) w -> world s = w -> executes s s' -> executes s0 s'.
Proof.
  intros [(new & Hl & Hn) _ _] <- (new' & Hl' & Hx). exists (new' ++ new). rewrite Hl', Hl, app_assoc.
  split; [done|]. by apply executed_before.
Qed.
Lemma executes_logs s s' s'' : executes s s' -> logs plain (world s') (world s'') -> executes s s''.
Proof.
  intros (new & Hl & Hx) [(new' & Hl' & Hn) _ _]. exists (new' ++ new). rewrite Hl', Hl, app_assoc.
  split; [done|]. by apply executed_after.
Qed.
Lemma plain_executes s s' : logs plain (world s) (world s') -> executes s s'.
Proof. intros [(new & Hl & Hn) _ _]. exists new. split; [done|]. by left. Qed.
End executed.

Section execution.
Context (host : Host) (config : WorkerConfig) (client : Client) (registry : list TrustedManifest)
  (decode_candidate : Json -> option ReuseCandidate) (isoformat : Z -> string) (run_id work_order_id : Z).

#[local] Notation executed := (executed config client registry run_id work_order_id).
#[local] Notation executes := (executes config client registry run_id work_order_id).

Lemma beat_plain e : beat client e -> plain e.
Proof. by destruct e. Qed.
Lemma local_plain e : local_event run_id e -> plain e.
Proof. by destruct e. Qed.
#[local] Hint Resolve beat_plain local_plain plain_stepping : core.

(** What [act] adds to the log *)
Lemma ens_act_log {A} (P : Event -> Prop) (answer : nat -> Result Exc A) event (Q : A -> Running -> Prop) X s :
  (forall e, beat client e -> P e) ->
  (forall r w' new, log w' = event r :: new ++ log (world s) -> Forall P new ->
     match r with Ok a => Q a (s <| world := w' |>) | Err e => X e (s <| world := w' |>) end) ->
  ensures (on_world (act host client answer event)) Q X s.
Proof.
  intros HP H. unfold ensures, on_world, act. cbn zeta.
  destruct (interfere_extends host client P (world s) HP) as [(new & Hl & Hn) _ _ _ _].
  set (w1 := interfere host client (world s)) in *. set (r := answer (turn w1)).
  specialize (H r (record_event (event r) (next_turn w1)) new).
  assert (log (record_event (event r) (next_turn w1)) = event r :: new ++ log (world s)) as Hlog.
  { unfold record_event, next_turn. rsimpl. by rewrite Hl. }
  specialize (H Hlog Hn). by destruct r.
Qed.

(** What follows the checkout *)
Lemma after_checkout o m path answer s0 s w earliest new :
  admitted config registry o m -> repository_path config (awo_repository_full_name o) = Ok path ->
  log w = CreatedWorktree run_id path (awo_commit_sha o) answer :: earliest ++ log (world s0) ->
  Forall plain earliest -> Exists (describes client work_order_id o) earliest ->
  log (world s) = new ++ log w -> Forall (stepping m) new ->
  (forall later step r earlier, new = later ++ RanStep step r :: earlier -> answer = Ok tt /\ VerifiedCheckout (Ok tt) ∈ earlier) ->
  executes s0 s.
Proof.
  intros Had Hp Hw He Hd Hl Hn Hr. eexists. split; [rewrite Hl, Hw, app_comm_cons, app_assoc; reflexivity|].
  by eapply (started _ _ _ _ _ _ o m path answer new earliest).
Qed.

Lemma execute_executes token o m s0 s described :
  admitted config registry o m -> logs plain (world s0) (world s) ->
  log (world s) = described ++ log (world s0) -> Exists (describes client work_order_id o) described ->
  ensures (execute host config client decode_candidate run_id token o m) (fun _ => executes s0) (fun _ => executes s0) s.
Proof.
  intros Had Hs Hd Hx.
  assert (Hpl : Forall plain described).
  { destruct Hs as [(new & Hn & Hp) _ _]. rewrite Hn in Hd. by apply app_inv_tail in Hd as <-. }
  eapply (execute_prefix _ _ _ _ _ plain) with (s0 := s); [auto|auto| |reflexivity|].
  { intros s1 H1. apply plain_executes. by etrans. }
  clear Hs. intros path environment s1 Hp Hs. rename s into s', s1 into s.
  ens_step. apply (ens_act_log plain); [auto|]. intros answer w earliest Hw He. destruct Hs as [(pre & Hpre & Hplain) _ _].
  rewrite Hpre, Hd, !app_assoc in Hw.
  assert (Hall : Forall plain ((earliest ++ pre) ++ described)) by by rewrite !Forall_app.
  assert (Hdesc : Exists (describes client work_order_id o) ((earliest ++ pre) ++ described)) by by apply Exists_app; right.
  assert (forall s' new, log (world s') = new ++ log w -> Forall (stepping m) new ->
    (forall later step r earlier, new = later ++ RanStep step r :: earlier ->
       answer = Ok tt /\ VerifiedCheckout (Ok tt) ∈ earlier) -> executes s0 s') as Hafter.
  { intros s2 new Hl Hn Hr. by eapply (after_checkout o m path answer s0 s2 w ((earliest ++ pre) ++ described) new). }
  destruct answer as [[]|e]; [|apply (Hafter _ []); [done|done|by intros []]].
  ens_step. ens_step. ens_step. apply (ens_act_log plain); [auto|]. intros r w2 new2 Hw2 Hn2. rsimpl in Hw2.
  assert (Hs2 : Forall (stepping m) (VerifiedCheckout r :: new2)).
  { constructor; [done|]. eapply Forall_impl; [exact Hn2|]. auto. }
  assert (Hno : forall later step r0 earlier, VerifiedCheckout r :: new2 <> later ++ RanStep step r0 :: earlier).
  { intros later step r0 earlier H. assert (Hin : RanStep step r0 ∈ VerifiedCheckout r :: new2) by (rewrite H; set_solver).
    apply elem_of_cons in Hin as [Hin|Hin]; [done|]. by apply (proj1 (Forall_forall _ _) Hn2) in Hin. }
  destruct r as [[]|e]; [|eapply (Hafter _ (VerifiedCheckout (Err e) :: new2)); [done|done|]; intros; exfalso; by eapply Hno].
  apply (ens_always (runs (stepping m))).
  { pose proof (fun e H => plain_stepping m e (beat_plain e H)) as Hb.
    pose proof (fun e H => plain_stepping m e (local_plain e H)) as Hloc. repeat runs_step.
    all: lazymatch goal with
         | |- always _ (attempt_reuse _ _ _ _ _ _ _ _) => by apply attempt_reuse_runs
         | |- always _ (run_steps _ _ _ _ _) => by apply run_steps_runs
         | |- always _ (adopt_cancellation _ _ _) => by apply adopt_runs
         end. }
  all: intros a1 s3 [(new3 & Hl3 & Hn3) _ _]; rsimpl in Hl3; rewrite Hw2, app_comm_cons, app_assoc in Hl3;
    apply (Hafter _ _ Hl3); [by apply Forall_app|]; intros later step r earlier H.
  all: apply app_split in H as [(mid & -> & ->)|(mid & _ & H)]; [split; [done|set_solver]|by apply Hno in H].
Qed.

Lemma run_body_executes s0 s :
  logs plain (world s0) (world s) ->
  ensures (run_body host config client registry decode_candidate run_id work_order_id)
    (fun _ => executes s0) (fun _ => executes s0) s.
Proof.
  intros Hs. eapply (run_body_prefix _ _ _ _ _ _ plain); [auto|done|by intros s1; apply plain_executes|done|].
  intros token o m s1 new Had Hs1 Hn Hx. by apply (execute_executes _ _ _ _ _ new).
Qed.

(** A request of the polling thread, whatever is made of its answer *)
Lemma request_plain method path owned params json :
  always (extends plain) (request_json (H := polling_client host client) client method path owned params json).
Proof. by apply polling_request_extends; auto. Qed.

Lemma process_executes w :
  exists new, log (process_run host config client registry decode_candidate isoformat run_id work_order_id w).2
                = new ++ log w /\ executed new.
Proof.
  unfold process_run. set (s0 := {| world := next_turn w; locals := _ |}).
  assert (Hbody : executes s0 (catch (run_body host config client registry decode_candidate run_id work_order_id)
      on_failure s0).2).
  { pose proof (run_body_executes s0 s0 (reflexivity _)) as H.
    unfold ensures in H. unfold catch, handle. destruct (run_body _ _ _ _ _ _ _ s0) as [[a|e] s1]; [done|].
    eapply executes_logs; [exact H|]. by apply on_failure_runs. }
  unfold try_finally. destruct (catch _ _ s0) as [r s1]. cbn [snd] in Hbody.
  pose proof (finish_runs host config client isoformat run_id plain ltac:(auto) ltac:(auto) s1) as Hfin.
  pose proof (executes_logs _ _ _ _ _ _ _ _ Hbody Hfin) as Hall.
  destruct (finish _ _ _ _ _ s1) as [[a|e] s2]; cbn [snd] in Hall; [|by destruct Hall as (new & Hl & Hx); exists new].
  destruct r as [b|e]; [|by destruct Hall as (new & Hl & Hx); exists new].
  pose proof (report_logs host client isoformat run_id plain ltac:(auto) (locals s2) ltac:(done) (world s2)) as Hrep.
  apply extends_logs in Hrep.
  by destruct (executes_logs _ _ _ _ _ s0 s2 {| world := _; locals := locals s2 |} Hall Hrep) as (new & Hl & Hx); exists new.
Qed.

Lemma process_logs : always (logs (fun _ => True))
  (process_run host config client registry decode_candidate isoformat run_id work_order_id).
Proof.
  intros w. unfold process_run. set (s0 := {| world := next_turn w; locals := _ |}).
  pose proof (run_to_end_runs host config client registry decode_candidate isoformat run_id (fun _ => True)
    ltac:(done) ltac:(done) ltac:(done) ltac:(done) work_order_id ltac:(done) s0) as H. unfold run_to_end in H.
  assert (H0 : logs (fun _ => True) w (world s0)) by by apply logs_quiet.
  destruct (try_finally _ _ s0) as [[a|e] s1]; cbn [snd] in *; [|by etrans].
  etrans; [exact H0|]. etrans; [exact H|]. by apply extends_logs, report_logs.
Qed.
End execution.

#[export] Hint Resolve beat_plain local_plain : core.

(** ** Quarantine *)

(** Exceptions of the runner that are raised after a command was started *)
Definition runner_lost (e : Exc) : Prop := match e with OverallDeadlineExceededError _ => False | _ => True end.

(** A command whose processes are not known to have ended: the runner raised, or it says so of a
    command that the manifest requires. *)
Definition unaccounted (e : Event) : Prop :=
  match e with
  | RanStep _ (Err error) => runner_lost error
  | RanStep step (Ok a) =>
      ts_required step = true /\ sr_terminal_reason a = Some "descendant_cleanup_failed" /\
      sr_status a = "failed" /\ sr_parsed_result a = None
  | _ => False
  end.

Definition accounted (e : Event) : Prop := ~ unaccounted e.

Definition outbound (e : Event) : Prop := match e with Sent _ _ => True | _ => False end.

(** Once a command is unaccounted for, there are only requests. *)
Definition sealed (new : list Event) : Prop :=
  forall later e earlier, new = later ++ e :: earlier -> unaccounted e -> Forall outbound later.

Lemma beat_accounted client e : beat client e -> accounted e.
Proof. destruct e; try done. by intros _ []. Qed.
Lemma beat_outbound client e : beat client e -> outbound e.
Proof. by destruct e. Qed.
Lemma local_accounted run_id e : local_event run_id e -> accounted e.
Proof. destruct e; try done; by intros _ []. Qed.
Lemma outbound_accounted e : outbound e -> accounted e.
Proof. destruct e; try done. by intros _ []. Qed.
#[export] Hint Resolve beat_accounted beat_outbound local_accounted outbound_accounted : core.

Lemma sealed_accounted new : Forall accounted new -> sealed new.
Proof. intros Hn later e earlier -> He. apply Forall_app in Hn as [_ Hn]. by inversion Hn. Qed.

Lemma sealed_cons e new : Forall accounted new -> sealed (e :: new).
Proof.
  intros Hn [|x later] y earlier H Hy; [done|]. injection H as <- ->. apply Forall_app in Hn as [_ Hn]. by inversion Hn.
Qed.

Lemma sealed_after new more : Forall outbound more -> sealed new -> sealed (more ++ new).
Proof.
  intros Hm Hn later e earlier H He. apply app_split in H as [(mid & -> & _)|(mid & -> & H)].
  - apply Forall_app in Hm as [_ Hm]. inversion Hm. exfalso. by eapply outbound_accounted.
  - apply Forall_app. split; [done|]. by eapply Hn.
Qed.

Lemma sealed_before new more : Forall accounted more -> sealed new -> sealed (new ++ more).
Proof.
  intros Hm Hn later e earlier H He. apply app_split in H as [(mid & -> & _)|(mid & -> & H)].
  - by eapply Hn.
  - subst more. apply Forall_app in Hm as [_ Hm]. by inversion Hm.
Qed.

(** A part of a run that is accounted for, or that ended in quarantine *)
Definition seals (s0 s : Running) : Prop :=
  exists new, log (world s) = new ++ log (world s0) /\
    (Forall accounted new \/ v_source_quiescent (locals s) = false /\ sealed new).

(** A part of a run that is accounted for *)
Definition clean (s0 s : Running) : Prop :=
  exists new, log (world s) = new ++ log (world s0) /\ Forall accounted new.

Lemma clean_logs s0 s s' : clean s0 s -> logs accounted (world s) (world s') -> clean s0 s'.
Proof.
  intros (new & Hl & Hn) [(more & Hl' & Hm) _ _]. exists (more ++ new). rewrite Hl', Hl, app_assoc, Forall_app. done.
Qed.
Lemma logs_clean s0 s : logs accounted (world s0) (world s) -> clean s0 s.
Proof. by intros [H _ _]. Qed.
Lemma clean_seals s0 s : clean s0 s -> seals s0 s.
Proof. intros (new & Hl & Hn). exists new. auto. Qed.

Lemma seals_after s0 s s' :
  seals s0 s -> logs outbound (world s) (world s') ->
  (v_source_quiescent (locals s) = false -> v_source_quiescent (locals s') = false) -> seals s0 s'.
Proof.
  intros (new & Hl & Hn) [(more & Hl' & Hm) _ _] Hq. exists (more ++ new). rewrite Hl', Hl, app_assoc. split; [done|].
  destruct Hn as [Hn|[Hf Hn]]; [left; apply Forall_app; split; [|done]; eapply Forall_impl; eauto|right].
  split; [auto|]. by apply sealed_after.
Qed.

Section quarantine.
Context (host : Host) (config : WorkerConfig) (client : Client) (registry : list TrustedManifest)
  (decode_candidate : Json -> option ReuseCandidate) (isoformat : Z -> string) (run_id : Z).

(** Only requests, and a checkout that is not quiescent remains so *)
Definition idles (s s' : Running) : Prop :=
  logs outbound (world s) (world s') /\
  (v_source_quiescent (locals s) = false -> v_source_quiescent (locals s') = false).

#[local] Instance idles_refl : Reflexive idles.
Proof. by intros s. Qed.
#[local] Instance idles_trans : Transitive idles.
Proof. intros s1 s2 s3 [H1 Q1] [H2 Q2]. split; [by etrans|auto]. Qed.

Lemma idles_assign f :
  (forall l, v_source_quiescent l = false -> v_source_quiescent (f l) = false) -> always idles (assign f).
Proof. intros H s. split; [done|apply H]. Qed.
Lemma idles_world {A} (m : M Exc World A) : always (logs outbound) m -> always idles (on_world m).
Proof.
  intros H s. specialize (H (world s)). unfold idles, on_world. by destruct (m (world s)).
Qed.
Lemma idles_observe {A} (f : World -> A) : always idles (on_world (observe host client f)).
Proof. apply idles_world. intros w. apply extends_logs, observe_extends. eauto. Qed.

Lemma adopt_idles token : always idles (adopt_cancellation host client token).
Proof.
  unfold adopt_cancellation. always; [apply idles_observe|].
  destruct (cancellation_outcome _) as [[t r] k]. by apply idles_assign.
Qed.

Lemma on_step_error_idles token e s :
  ensures (on_step_error host client token e)
    (fun _ s' => logs outbound (world s) (world s') /\ (runner_lost e -> v_source_quiescent (locals s') = false))
    (fun _ _ => False) s.
Proof.
  assert (forall s0 outcome, (forall l, v_source_quiescent l = false -> v_source_quiescent (outcome l) = false) ->
    ensures (cancelled ← token_cancelled host client token;
        if cancelled : bool then adopt_cancellation host client token else assign outcome)
      (fun _ s' => idles s0 s') (fun _ _ => False) s0) as Htail.
  { intros s0 outcome Ho. ens_step. unfold token_cancelled. apply (ens_observe _ _ outbound); [eauto|]. intros w' Hw.
    apply extends_logs in Hw. ens_step.
    - unfold adopt_cancellation. ens_step. apply (ens_observe _ _ outbound); [eauto|]. intros w2 Hw2. apply extends_logs in Hw2.
      destruct (cancellation_outcome _) as [[t r] k]. ens_step. split; [by etrans|done].
    - ens_step. split; [done|apply Ho]. }
  destruct e; cbn [on_step_error];
    try (ens_step; ens_step; eapply ens_mono; [by apply Htail|intros [] s' [Hl Hq]; split; [done|intros _; by apply Hq]|done]).
  - ens_step. by split.
  - eapply ens_mono; [by apply Htail|intros [] s' [Hl Hq]; by split|done].
Qed.

Lemma note_result_idles m step a s :
  ensures (note_result m step a)
    (fun goes_on s' => world s' = world s /\
       (unaccounted (RanStep step (Ok a)) -> goes_on = false /\ v_source_quiescent (locals s') = false))
    (fun _ _ => False) s.
Proof.
  unfold note_result. cbv zeta. ens_step.
  apply (ens_mono _ (fun _ s1 => world s1 = world s /\
    (sr_terminal_reason (apply_contract m a) = Some "descendant_cleanup_failed" -> v_source_quiescent (locals s1) = false))
    _ (fun _ _ => False)); [ens_step; ens_step; [by split|split; [done|]]| |done].
  { intros H. by rewrite bool_decide_eq_false in Hif. }
  intros [] s1 [Hw Hq]. ens_step. ens_step. ens_step.
  - ens_step. ens_step. ens_step. split; [done|]. intros (_ & Hr & _ & Hp). split; [done|]. apply Hq.
    unfold apply_contract. rewrite Hp. by destruct (tm_result_contract m).
  - ens_step. split; [done|]. intros (Hreq & _ & Hst & Hp). exfalso. revert Hif. rewrite Hreq, andb_true_r.
    assert (apply_contract m a = a) as -> by (unfold apply_contract; rewrite Hp; by destruct (tm_result_contract m)).
    by rewrite Hst.
Qed.

Lemma run_one_seals token m step s0 s :
  clean s0 s ->
  ensures (run_one host client token m step)
    (fun answer s' =>
       match answer with
       | Some a => exists new, log (world s') = RanStep step (Ok a) :: new ++ log (world s0) /\ Forall accounted new
       | None => seals s0 s'
       end) (fun _ _ => False) s.
Proof.
  intros (new0 & Hl0 & Hn0).
  assert (forall e s1 new, log (world s1) = new ++ log (world s0) ->
    (Forall accounted new \/ runner_lost e /\ sealed new) ->
    ensures (on_step_error host client token e;; mret (None : option StepResult))
      (fun answer s' => match answer with Some _ => False | None => seals s0 s' end) (fun _ _ => False) s1) as Herror.
  { intros e s1 new Hl1 Hn1. ens_step. eapply ens_mono; [apply on_step_error_idles| |done].
    intros [] s2 [[(more & Hl2 & Hm) _ _] Hq]. ens_step. exists (more ++ new). rewrite Hl2, Hl1, app_assoc. split; [done|].
    destruct Hn1 as [Hn1|[He Hn1]].
    - left. apply Forall_app. split; [|done]. eapply Forall_impl; eauto.
    - right. split; [auto|]. by apply sealed_after. }
  unfold run_one. ens_step. destruct (step_result_contract m (ts_id step)) as [contract|message].
  - ens_step. apply (ens_act_log _ _ accounted); [eauto|]. intros r w' new Hl Hn. rewrite Hl0, app_assoc in Hl.
    destruct r as [a|e]; [ens_step; exists (new ++ new0); split; [done|by apply Forall_app]|].
    eapply ens_mono; [apply (Herror e _ (RanStep step (Err e) :: new ++ new0)); [exact Hl|]|by intros [a|] s'|done].
    assert (Forall accounted (new ++ new0)) as Hall by by apply Forall_app.
    assert (runner_lost e \/ ~ runner_lost e) as [He|He] by (destruct e; cbn; tauto).
    + right. split; [done|]. by apply sealed_cons.
    + left. by constructor.
  - ens_step. eapply ens_mono; [apply (Herror (ValueError message) _ new0 Hl0); by left|by intros [a|] s'|done].
Qed.

Lemma run_steps_seals token m steps : forall s0 s,
  clean s0 s -> ensures (run_steps host client token m steps) (fun _ => seals s0) (fun _ _ => False) s.
Proof.
  induction steps as [|step rest IH]; intros s0 s Hs; cbn [run_steps]; [ens_step; by apply clean_seals|].
  ens_step. ens_step. ens_step. apply (ens_observe _ _ accounted); [eauto|]. intros w1 Hw1. apply extends_logs in Hw1. ens_step.
  apply (ens_mono _ (fun _ s1 => clean s0 s1) _ (fun _ _ => False)); [| |done].
  { ens_step; [|ens_step; by eapply clean_logs]. eapply clean_logs; [exact Hs|]. etrans; [exact Hw1|].
    apply extends_logs, cancel_extends. }
  clear s Hs w1 Hw1. intros [] s Hs. ens_step. eapply ens_mono; [by apply run_one_seals| |done].
  intros [a|] s1 H1; [|done]. destruct H1 as (new & Hl & Hn). ens_step. eapply ens_mono; [apply note_result_idles| |done].
  intros goes_on s2 [Hw Hq]. assert (Hl2 : log (world s2) = (RanStep step (Ok a) :: new) ++ log (world s0)) by (rewrite Hw, Hl; done).
  assert (unaccounted (RanStep step (Ok a)) \/ accounted (RanStep step (Ok a))) as [Hu|Hu].
  { destruct (decide (ts_required step = true /\ sr_terminal_reason a = Some "descendant_cleanup_failed" /\
      sr_status a = "failed" /\ isSome (sr_parsed_result a) = false)) as [(H1 & H2 & H3 & H4)|Hn'];
      [left|right; intros (H1 & H2 & H3 & H4); apply Hn']; split_and!; try done; [by destruct (sr_parsed_result a)|by rewrite H4]. }
  - destruct (Hq Hu) as [-> Hf]. ens_step. eexists. split; [exact Hl2|]. right. split; [done|].
    by apply sealed_cons.
  - assert (Hc : clean s0 s2) by (eexists; split; [exact Hl2|by constructor]). ens_step; [by apply IH|ens_step; by apply clean_seals].
Qed.

#[local] Notation sealing c s0 := (ensures c (fun _ => seals s0) (fun _ => seals s0)).

Lemma execute_seals token o m s0 s :
  logs accounted (world s0) (world s) ->
  sealing (execute host config client decode_candidate run_id token o m) s0 s.
Proof.
  assert (HE : reaches accounted s0 (seals s0)) by by intros s1 H1; apply clean_seals, logs_clean.
  intros Hs. eapply (execute_prefix _ _ _ _ _ accounted); [eauto|eauto|exact HE|done|].
  clear s Hs. intros path environment s Hp Hs.
  eapply (prefix_bind accounted _ _ _ s0); [done..|apply runs_act; [eauto|by intros r []]|clear s Hs; intros [] s Hs].
  eapply (prefix_bind accounted _ _ _ s0); [done..|apply runs_assign|clear s Hs; intros [] s Hs].
  eapply (prefix_bind accounted _ _ _ s0); [done..|apply runs_act; [eauto|by intros r []]|clear s Hs; intros [] s Hs].
  eapply (prefix_bind accounted _ _ _ s0); [done..|apply runs_assign|clear s Hs; intros [] s Hs].
  eapply (prefix_bind accounted _ _ _ s0); [done..| |clear s Hs; intros execute_fresh s Hs].
  { pose proof local_accounted. repeat runs_step. apply attempt_reuse_runs; eauto. by intros ??? []. }
  ens_step. apply (ens_mono _ (fun _ => seals s0) _ (fun _ _ => False)); [| |done].
  { ens_step; [|ens_step; by apply HE]. ens_step. ens_step. apply run_steps_seals. by apply logs_clean. }
  clear s Hs. intros [] s Hs. apply (ens_always idles).
  { always; [apply idles_observe|apply adopt_idles]. }
  all: intros x s' [H1 H2]; by eapply seals_after.
Qed.

Lemma run_body_seals work_order_id s0 s :
  logs accounted (world s0) (world s) ->
  sealing (run_body host config client registry decode_candidate run_id work_order_id) s0 s.
Proof.
  intros Hs. eapply (run_body_prefix _ _ _ _ _ _ accounted); [eauto|by intros ??? []| |done|].
  - by intros s1 H1; apply clean_seals, logs_clean.
  - intros token o m s1 new _ Hs1 _ _. by apply execute_seals.
Qed.

(** *** The clauses that follow *)

Lemma on_failure_idles e : always idles (on_failure e).
Proof.
  destruct e; cbn [on_failure]; always;
    first [by apply idles_assign | by intros s | apply idles_world, always_modify; intros; apply extends_logs, request_shutdown_extends].
Qed.

Lemma settle_drains s :
  v_source_quiescent (locals s) = false ->
  ensures (settle host client)
    (fun _ s' => locals s' = locals s /\ logs outbound (world s) (world s') /\ shutdown (world s') = true)
    (fun _ _ => False) s.
Proof.
  intros Hq. unfold settle. ens_step. ens_step. ens_step.
  apply (ens_mono _ (fun _ s1 => locals s1 = locals s /\ logs outbound (world s) (world s1)) _ (fun _ _ => False)); [| |done].
  { destruct (v_monitor (locals s)) as [[i|]|]; ens_step; (split; [done|]); by apply logs_quiet. }
  intros [] s1 [Hl Hw]. do 6 ens_step. ens_step; [rsimpl in Hif; rewrite Hl in Hif; congruence|]. ens_step. split_and!; [done| |done].
  etrans; [exact Hw|]. etrans; [apply extends_logs, (interfere_extends host client outbound); eauto|]. by apply logs_quiet.
Qed.

(** The checkout is not touched, and the worker drains. *)
Definition quarantined (s s' : Running) : Prop :=
  v_source_quiescent (locals s') = false /\ logs outbound (world s) (world s') /\ shutdown (world s') = true.

#[local] Notation quarantining c s := (ensures c (fun _ => quarantined s) (fun _ _ => False)).

Lemma quarantined_unusable s s' : quarantined s s' -> source_usable (locals s') = false.
Proof. intros (Hq & _). unfold source_usable. by rewrite Hq. Qed.

Lemma quarantined_assign f s s1 X :
  quarantined s s1 -> (forall l, v_source_quiescent (f l) = v_source_quiescent l) -> ensures (assign f) (fun _ => quarantined s) X s1.
Proof. intros (Hq & Hl & Hd) Hf. ens_step. split_and!; [exact (eq_trans (Hf _) Hq)|done..]. Qed.

Lemma final_integrity_quarantined s s1 : quarantined s s1 -> quarantining (final_integrity host client) s s1.
Proof.
  intros H. pose proof H as (Hq & _). unfold final_integrity. ens_step. ens_step. ens_step; [congruence|by apply quarantined_assign].
Qed.

Lemma final_locks_quarantined m s s1 : quarantined s s1 -> quarantining (final_locks host client m) s s1.
Proof.
  intros H. pose proof (quarantined_unusable _ _ H) as Hu. unfold final_locks. ens_step. ens_step.
  ens_step; [|by rewrite Hu in Hif]. apply quarantined_assign; [done|]. intros l. by repeat case_match.
Qed.

Lemma final_artifacts_quarantined s s1 : quarantined s s1 -> quarantining (final_artifacts host client) s s1.
Proof.
  intros H. pose proof (quarantined_unusable _ _ H) as Hu. unfold final_artifacts. do 4 ens_step.
  ens_step; [|by ens_step]. by rewrite Hu, andb_false_r in Hif.
Qed.

Lemma final_cleanup_quarantined s s1 : quarantined s s1 -> quarantining (final_cleanup host client) s s1.
Proof.
  intros H. pose proof (quarantined_unusable _ _ H) as Hu. unfold final_cleanup. do 2 ens_step.
  ens_step; [by apply quarantined_assign|by rewrite Hu in Hif].
Qed.

Lemma record_evidence_quarantined s s1 :
  quarantined s s1 -> quarantining (record_evidence host config client isoformat run_id) s s1.
Proof.
  intros H. pose proof (quarantined_unusable _ _ H) as Hu. unfold record_evidence. do 2 ens_step.
  destruct (v_order _); [|by ens_step]. destruct (v_manifest _); [|by ens_step].
  ens_step; [|by ens_step]. by rewrite Hu, andb_false_r in Hif.
Qed.

(** After a command that is unaccounted for, the [finally] clause only waits and drains. *)
Lemma finish_quarantined s :
  v_source_quiescent (locals s) = false ->
  ensures (finish host config client isoformat run_id) (fun _ => quarantined s) (fun _ => quarantined s) s.
Proof.
  intros Hq. unfold finish. ens_step. eapply ens_mono; [by apply settle_drains| |done].
  intros [] s1 (Hl1 & Hw1 & Hd1). assert (K1 : quarantined s s1) by (split_and!; [congruence|done..]). do 5 ens_step.
  apply (ens_mono _ (fun _ => quarantined s) _ (fun _ _ => False)); [| |done].
  { destruct (v_manifest (locals s1)) as [m|]; [|by ens_step]. ens_step; [|by ens_step]. ens_step.
    eapply ens_mono; [by apply final_integrity_quarantined|intros [] s2 K2|done]. ens_step.
    eapply ens_mono; [by apply final_locks_quarantined|intros [] s3 K3|done]. by apply final_artifacts_quarantined. }
  intros [] s2 K2. ens_step. apply (ens_mono _ (fun _ => quarantined s) _ (fun _ _ => False)); [| |done].
  { ens_step; [by apply final_cleanup_quarantined|by ens_step]. }
  clear s2 K2. intros [] s2 K2. do 5 ens_step.
  apply (ens_mono _ (fun _ => quarantined s) _ (fun _ => quarantined s)); [| |done].
  { destruct (v_order (locals s2)); [|by ens_step]. ens_step. ens_step; [by apply quarantined_assign|done]. }
  intros [] s3 K3. ens_step. eapply ens_mono; [by apply record_evidence_quarantined| |done].
  intros [] s4 (Hq4 & Hl4 & Hd4). ens_step. split_and!; [done| |].
  - etrans; [exact Hl4|]. etrans; [apply extends_logs, (interfere_extends host client outbound); eauto|].
    apply logs_quiet; unfold end_run; by case_bool_decide.
  - pose proof (interfere_extends host client (fun _ => True) (world s4) ltac:(done)) as [_ Hd _ _ _].
    rsimpl. unfold end_run. case_bool_decide; by apply Hd.
Qed.

(** *** The worker *)

(** Everything is accounted for, or the worker drains and only requests followed. *)
Definition secures (w w' : World) : Prop :=
  exists new, log w' = new ++ log w /\ (Forall accounted new \/ shutdown w' = true /\ sealed new).

Lemma secures_after w w1 w' : secures w w1 -> logs outbound w1 w' -> secures w w'.
Proof.
  intros (new & Hl & Hn) [(more & Hl' & Hm) Hs _]. exists (more ++ new). rewrite Hl', Hl, app_assoc. split; [done|].
  destruct Hn as [Hn|[Hd Hn]]; [left; apply Forall_app; split; [|done]; eapply Forall_impl; eauto|right].
  split; [auto|]. by apply sealed_after.
Qed.

Lemma secures_before w w1 w' : logs accounted w w1 -> secures w1 w' -> secures w w'.
Proof.
  intros [(more & Hl' & Hm) Hs _] (new & Hl & Hn). exists (new ++ more). rewrite Hl, Hl', app_assoc. split; [done|].
  destruct Hn as [Hn|[Hd Hn]]; [left; by apply Forall_app|right]. split; [done|]. by apply sealed_before.
Qed.

Lemma logs_secures w w' : logs accounted w w' -> secures w w'.
Proof. intros [(new & Hl & Hn) _ _]. exists new. auto. Qed.

Lemma run_to_end_secures work_order_id s :
  secures (world s) (world (run_to_end host config client registry decode_candidate isoformat run_id work_order_id s).2).
Proof.
  unfold run_to_end, try_finally.
  assert (Hbody : seals s (catch (run_body host config client registry decode_candidate run_id work_order_id) on_failure s).2).
  { pose proof (run_body_seals work_order_id s s (reflexivity _)) as H. unfold ensures in H. unfold catch, handle.
    destruct (run_body _ _ _ _ _ _ _ s) as [[a|e] s1]; [done|]. destruct (on_failure_idles e s1) as [H1 H2]. by eapply seals_after. }
  destruct (catch _ _ s) as [r s1]. cbn [snd] in Hbody.
  assert (Hfin : secures (world s) (world (finish host config client isoformat run_id s1).2)).
  { destruct Hbody as (new & Hl & [Hn|[Hq Hn]]).
    - destruct (finish_runs host config client isoformat run_id accounted ltac:(eauto) ltac:(eauto) s1) as [(more & Hl' & Hm) _ _].
      exists (more ++ new). rewrite Hl', Hl, app_assoc. split; [done|]. left. by apply Forall_app.
    - pose proof (ens_leaves _ _ _ (finish_quarantined s1 Hq)) as (_ & [(more & Hl' & Hm) _ _] & Hd).
      exists (more ++ new). rewrite Hl', Hl, app_assoc. split; [done|]. right. split; [done|]. by apply sealed_after. }
  by destruct (finish _ _ _ _ _ s1) as [[a|e] s2].
Qed.

Lemma process_secures work_order_id w :
  secures w (process_run host config client registry decode_candidate isoformat run_id work_order_id w).2.
Proof.
  unfold process_run. set (s0 := {| world := next_turn w; locals := _ |}).
  pose proof (run_to_end_secures work_order_id s0) as H. unfold run_to_end in H.
  destruct (try_finally _ _ s0) as [[a|e] s1]; cbn [snd] in *; [|done].
  eapply secures_after; [exact H|]. apply extends_logs, report_logs; eauto. done.
Qed.
End quarantine.

(** ** One poll *)

Section poll.
Context (host : Host) (config : WorkerConfig) (client : Client) (registry : list TrustedManifest)
  (decode_candidate : Json -> option ReuseCandidate) (isoformat : Z -> string).

(** How a poll changes the worker: no run was taken, or one that was never taken before, which the
    control plane had just handed out *)
Definition polled (w w' : World) : Prop :=
  (shutdown w = true -> shutdown w' = true) /\
  exists new, log w' = new ++ log w /\
    (executed_run_ids w' = executed_run_ids w /\ Forall plain new \/
     exists run_id work_order_id of_run e asking, new = of_run ++ e :: asking /\ Forall plain (e :: asking) /\
       hands_out client run_id work_order_id e /\
       run_id ∉ executed_run_ids w /\ executed_run_ids w' = {[run_id]} ∪ executed_run_ids w /\
       executed config client registry run_id work_order_id of_run).

Lemma plain_polled w w' : extends plain w w' -> polled w w'.
Proof. intros [(new & Hl & Hn) Hs He _ _]. split; [done|]. exists new. split; [done|]. by left. Qed.

(** The worker once it has taken run [k] *)
Definition taken (k : Z) (w : World) : World :=
  w <| executed_run_ids := {[k]} ∪ executed_run_ids w |> <| active_run_id := Some k |>.

Lemma ens_begin_run k (Q : option string -> World -> Prop) X w :
  let w1 := interfere host client w in
  (forall reason, Q (Some reason) w1) ->
  (shutdown w1 = false -> active_run_id w1 = None -> k ∉ executed_run_ids w1 -> Q None (taken k w1)) ->
  ensures (begin_run host client k) Q X w.
Proof.
  intros w1 Hr Ha. unfold begin_run, ensures. fold w1. cbn zeta. destruct (shutdown w1) eqn:Hs; [apply Hr|].
  destruct (active_run_id w1) eqn:Hact; [apply Hr|]. cbn [isSome]. case_bool_decide; [apply Hr|by apply Ha].
Qed.

(** Between [w] and [w'] the control plane handed out run [k] of order [work_order_id]; then there were
    only heartbeats. *)
Definition handed (k work_order_id : Z) (w w' : World) : Prop :=
  exists beats e asking, log w' = beats ++ e :: asking ++ log w /\ Forall (beat client) beats /\
    hands_out client k work_order_id e.

(** A poll makes requests; the rest is what is done of the run it took, if it took one. *)
Section cases.
Context (P : Event -> Prop).
Hypothesis P_beat : forall e, beat client e -> P e.
Hypothesis P_checkout : forall answer,
  P (Sent (http_request client "post" (cl_prefix client +:+ "/checkout") [] (Some (JObj [("worker_id", JStr (cl_worker_id client))]))) answer).

Lemma checkout_extends : always (extends P)
  (handle (payload ← checkout (H := polling_client host client) client; lift_result (checkout_from_payload payload))
     (fun e => if is_credential_rejected e then Some (modify request_shutdown;; raise e) else None)).
Proof.
  apply always_handle; [apply _|always; by apply polling_request_extends|].
  intros e k. case_match; intros [= <-]; always. apply always_modify. intros. apply request_shutdown_extends.
Qed.

(** What the control plane answered a checkout that returns *)
Lemma checkout_answered w :
  ensures (handle (payload ← checkout (H := polling_client host client) client; lift_result (checkout_from_payload payload))
     (fun e => if is_credential_rejected e then Some (modify request_shutdown;; raise e) else None))
    (fun got w' => exists e beats, log w' = e :: beats ++ log w /\
       forall k id, ck_run_id got = Some k -> ck_work_order_id got = Some id -> hands_out client k id e)
    (fun _ _ => True) w.
Proof.
  ens_step. ens_step. eapply ens_mono; [apply request_answered|..].
  - intros payload w' (sent & beats & Hl & _ & Ha). ens_step; [|by destruct (is_credential_rejected _); [do 2 ens_step; ens_step|]].
    exists sent, beats. split; [done|]. intros k id Hk Hid. by exists payload, a.
  - intros e w' _. by destruct (is_credential_rejected e); [do 2 ens_step; ens_step|].
Qed.

Lemma rejection_extends k reason :
  (forall c answer, P (completion_event client k c answer)) ->
  always (extends P) (complete_admission_rejection host client k reason).
Proof.
  intros HP. unfold complete_admission_rejection. apply always_handle; [apply _|always; apply complete_logs; auto|].
  intros e h. case_match; intros [= <-]; always.
Qed.

Lemma poll_once_cases (R : World -> Prop) w :
  (forall w', extends P w w' -> R w') ->
  (forall k reason w1, extends P w w1 -> R (complete_admission_rejection host client k reason w1).2) ->
  (forall k work_order_id w1, extends P w w1 -> handed k work_order_id w w1 ->
     shutdown w1 = false -> active_run_id w1 = None -> k ∉ executed_run_ids w1 ->
     R (process_run host config client registry decode_candidate isoformat k work_order_id (taken k w1)).2) ->
  R (poll_once host config client registry decode_candidate isoformat w).2.
Proof.
  intros HR Hrej Hrun. apply ens_leaves. unfold poll_once.
  ens_step. apply (ens_always (extends P)); [by apply observe_extends|intros stopping w1 H1|by intros; apply HR].
  ens_step; [by apply HR|].
  ens_step. eapply (ens_both (extends P)); [apply checkout_extends|apply checkout_answered| |intros e w2 H2 _; apply HR; by etrans].
  intros got w2 H2 (e & beats & Hl & Hgot).
  assert (H02 : extends P w w2) by by etrans.
  destruct (ck_run_id got) as [k|]; [|by apply HR]. destruct (ck_work_order_id got) as [work_order_id|]; [|by apply HR].
  specialize (Hgot k work_order_id eq_refl eq_refl).
  assert (Hhanded : handed k work_order_id w (interfere host client w2)).
  { destruct H1 as [(asked & H1 & _) _ _ _ _].
    destruct (interfere_extends host client (beat client) w2 ltac:(done)) as [(more & Hm & Hb) _ _ _ _].
    exists more, e, (beats ++ asked). by rewrite Hm, Hl, H1, app_assoc. }
  assert (H3 := interfere_extends host client P w2 P_beat). ens_step. apply ens_begin_run.
  - intros reason. ens_step. specialize (Hrej k reason (interfere host client w2) ltac:(by etrans)). unfold ensures.
    by destruct (complete_admission_rejection _ _ _ _ _) as [[u|failure] w5].
  - intros Hs Ha Hk. ens_step.
    specialize (Hrun k work_order_id (interfere host client w2) ltac:(by etrans) Hhanded Hs Ha Hk). unfold ensures.
    by destruct (process_run _ _ _ _ _ _ _ _ _) as [[u|failure] w5].
Qed.
End cases.

Lemma poll_once_polled w : polled w (poll_once host config client registry decode_candidate isoformat w).2.
Proof.
  apply (poll_once_cases plain); [eauto|done|by intros; apply plain_polled|..].
  { intros k reason w1 H1. apply plain_polled. etrans; [exact H1|]. apply rejection_extends; [eauto|done]. }
  intros k work_order_id w1 [(before & Hb & Hplain) Hsd1 Hex1 _ _] (beats & e & asking & Hh & Hbeats & Hout) _ _ Hk.
  rewrite Hb in Hh. change (e :: asking ++ log w) with ((e :: asking) ++ log w) in Hh. rewrite app_assoc in Hh.
  apply app_inv_tail in Hh. subst before. apply Forall_app in Hplain as [_ Hplain].
  destruct (process_executes host config client registry decode_candidate isoformat k work_order_id (taken k w1)) as (new & Hl & Hx).
  destruct (process_logs host config client registry decode_candidate isoformat k work_order_id (taken k w1)) as [_ Hsd Hex].
  split; [auto|]. exists ((new ++ beats) ++ e :: asking). rewrite Hl. change (log (taken k w1)) with (log w1). rewrite Hb.
  split; [by rewrite <- !app_assoc|]. right. exists k, work_order_id, (new ++ beats), e, asking. rewrite <- Hex1.
  split_and!; [done..|exact Hex|]. apply executed_before; [|done]. eapply Forall_impl; [exact Hbeats|]. eauto.
Qed.

Lemma poll_once_secures w : secures w (poll_once host config client registry decode_candidate isoformat w).2.
Proof.
  apply (poll_once_cases accounted).
  - eauto.
  - by intros answer [].
  - intros w' H. by apply logs_secures, extends_logs.
  - intros k reason w1 H1. apply logs_secures, extends_logs. etrans; [exact H1|].
    apply rejection_extends; [eauto|]. by intros c answer [].
  - intros k work_order_id w1 H1 _ _ _ _. eapply secures_before; [by apply extends_logs|].
    exact (process_secures host config client registry decode_candidate isoformat k work_order_id (taken k w1)).
Qed.
End poll.
