(* ===== verification/WorkerSafety.v ===== *)
(** * The worker process

    What holds of the whole life of a worker process ([scripts/local_worker.py]), for every
    control plane, host and schedule: only commands of the local registry are run, each in a
    verified checkout of the commit it was assigned; no run is executed twice; after a command
    whose processes are unaccounted for nothing of the host is touched; and a run that is
    reported as a success was one. *)

From S2P Require Import Prelude Text Json Enums Evidence Floats JsonCodec Documents Registry Checks Parsers WorkerContracts Iso8601 WorkerModels Effects WorkerClient WorkerConfig WorkerPolicy LocalWorker LocalWorkerProofs WorkerLog.
From Stdlib Require Import QArith.
#[local] Open Scope Z_scope.

Section process.
Context (host : Host) (config : WorkerConfig) (client : Client) (registry : list TrustedManifest)
  (decode_candidate : Json -> option ReuseCandidate) (isoformat : Z -> string) (once has_stop_file : bool).

#[local] Notation poll := (poll_once host config client registry decode_candidate isoformat).
#[local] Notation process := (main host config client registry decode_candidate isoformat once has_stop_file).

(** *** The shape of the process *)

Lemma start_extends (P : Event -> Prop) :
  (forall e, outbound e -> P e) -> (forall answer, P (Pruned answer)) -> always (extends P) (start host config client).
Proof.
  intros Hs Hp. unfold start. always; [apply act_extends; eauto|by intros w; apply extends_quiet|].
  unfold register_worker. repeat case_match; always. apply polling_request_extends; eauto. by intros; apply Hs.
Qed.

(** A property of the worker that holds once it has started, and is kept by polls and by requests, holds
    of the process at any time. *)
Lemma main_keeps (I : World -> Prop) fuel w :
  (forall w', extends (fun e => plain e /\ accounted e) w w' -> I w') ->
  (forall w w', extends outbound w w' -> I w -> I w') ->
  (forall w, I w -> I (poll w).2) -> I (process fuel w).2.
Proof.
  intros Hstart Hext Hpoll.
  assert (Reflexive (fun w w' => I w -> I w')) by by intros w0.
  assert (Transitive (fun w w' => I w -> I w')) by by intros w1 w2 w3; auto.
  assert (Hm : forall A (m : M Exc World A), always (extends outbound) m -> always (fun w w' => I w -> I w') m).
  { intros A m Hm w0. by apply Hext. }
  assert (Hbeat : forall status, always (extends outbound) (heartbeat_worker (H := polling_client host client) client status)).
  { intros status. apply polling_request_extends; eauto. by intros. }
  assert (Hserve : forall fuel, always (fun w w' => I w -> I w')
    (serve host config client registry decode_candidate isoformat once has_stop_file fuel)).
  { clear fuel. induction fuel as [|fuel IH]; [by intros w0|]. cbn [serve]. always; try done; apply Hm; try apply Hbeat.
    - apply observe_extends. eauto.
    - apply always_modify. intros. apply request_shutdown_extends.
    - apply observe_extends. eauto. }
  assert (Hs := start_extends (fun e => plain e /\ accounted e) ltac:(intros []; try done; split; eauto) ltac:(split; [done|by intros []]) w).
  unfold main, handle, mbind, M_bind. destruct (start host config client w) as [[[]|e] w1]; cbn [snd] in Hs.
  - specialize (Hserve fuel w1 (Hstart _ Hs)). destruct (serve _ _ _ _ _ _ _ _ _ w1) as [[a|e] w2]; [done|].
    by destruct (is_credential_rejected e).
  - destruct (is_credential_rejected e); by apply Hstart.
Qed.

(** *** Commands *)

(** How often the log says that a checkout was made for run [k] *)
Fixpoint checkouts (k : Z) (lg : list Event) : nat :=
  match lg with
  | [] => 0%nat
  | CreatedWorktree k' _ _ _ :: lg => ((if bool_decide (k = k') then 1 else 0) + checkouts k lg)%nat
  | _ :: lg => checkouts k lg
  end.

(** What lies behind a command of run [k] of order [o], the latest first: the run was handed out, the order
    was described, its commit was checked out of the repository at [path], and this checkout was verified.
    Between the answers and the checkout nothing else was checked out and nothing was run; after it nothing
    else was checked out, and only commands of [m] were run. *)
Definition prepared (k : Z) (o : AssignedWorkOrder) (m : TrustedManifest) (path : string) (earlier : list Event) : Prop :=
  exists id since reading described waiting handed_out before,
    earlier = since ++ CreatedWorktree k path (awo_commit_sha o) (Ok tt) :: reading ++ described :: waiting ++ handed_out :: before /\
    hands_out client k id handed_out /\ describes client id o described /\
    Forall plain (reading ++ waiting) /\ Forall (stepping m) since /\ VerifiedCheckout (Ok tt) ∈ since.

(** Every command in the log is one of a manifest of the registry, which was admitted for the order that the
    control plane handed out last, and was run in the verified checkout of the commit of that order, which
    is the latest checkout there is. *)
Definition commands_trusted (lg : list Event) : Prop :=
  forall later step r earlier, lg = later ++ RanStep step r :: earlier ->
  exists k o m path, admitted config registry o m /\ step ∈ tm_execution_steps m /\
    repository_path config (awo_repository_full_name o) = Ok path /\ prepared k o m path earlier.

Lemma checkouts_app k l1 l2 : checkouts k (l1 ++ l2) = (checkouts k l1 + checkouts k l2)%nat.
Proof. induction l1 as [|e l1 IH]; [done|]. destruct e; cbn [checkouts app]; lia. Qed.

Lemma checkouts_none k lg : Forall (fun e => match e with CreatedWorktree _ _ _ _ => False | _ => True end) lg -> checkouts k lg = 0%nat.
Proof. induction 1 as [|e lg He _ IH]; [done|]. by destruct e. Qed.

Lemma plain_checkouts k lg : Forall plain lg -> checkouts k lg = 0%nat.
Proof. intros H. apply checkouts_none. eapply Forall_impl; [exact H|]. by intros []. Qed.

Lemma plain_commands lg : Forall plain lg -> commands_trusted lg.
Proof. intros H later step r earlier ->. apply Forall_app in H as [_ H]. by inversion H. Qed.

Lemma executed_checkouts k id new k' :
  executed config client registry k id new -> (checkouts k' new <= if bool_decide (k' = k) then 1 else 0)%nat.
Proof.
  intros [Hn|o m path answer rest earliest -> He Hr _ _ _ _]; [rewrite plain_checkouts by done; lia|].
  rewrite checkouts_app. cbn [checkouts]. rewrite (plain_checkouts _ earliest) by done.
  rewrite checkouts_none; [lia|]. eapply Forall_impl; [exact Hr|]. by intros [].
Qed.

Lemma prepared_app k o m path l1 l2 : prepared k o m path l1 -> prepared k o m path (l1 ++ l2).
Proof.
  intros (id & since & reading & described & waiting & handed_out & before & -> & H).
  exists id, since, reading, described, waiting, handed_out, (before ++ l2). split; [|exact H].
  by repeat (rewrite <- app_assoc; cbn [app]).
Qed.

Lemma commands_app new lg : commands_trusted new -> commands_trusted lg -> commands_trusted (new ++ lg).
Proof.
  intros Hn Hl later step r earlier H. apply app_split in H as [(mid & -> & ->)|(mid & -> & H)]; [|by eapply Hl].
  destruct (Hn _ _ _ _ eq_refl) as (k & o & m & path & Ha & Hs & Hp & Hw). exists k, o, m, path.
  split_and!; [done..|by apply prepared_app].
Qed.

Lemma executed_commands k id new e asking :
  executed config client registry k id new -> hands_out client k id e -> Forall plain (e :: asking) ->
  commands_trusted (new ++ e :: asking).
Proof.
  intros Hx He Hpl. destruct Hx as [Hn|o m path answer rest earliest -> Hea Hr Ha Hp Hd Hs].
  { apply plain_commands. by apply Forall_app. }
  intros later step r earlier H. rewrite <- app_assoc in H. apply app_split in H as [(mid & -> & ->)|(mid & -> & H)].
  - destruct (Hs _ _ _ _ eq_refl) as [-> Hv]. apply Forall_app in Hr as [_ Hr]. inversion_clear Hr.
    apply Exists_exists in Hd as (d & Hd & Hdesc). apply list_elem_of_split in Hd as (reading & waiting & ->).
    exists k, o, m, path. split_and!; [done..|]. apply Forall_app in Hea as [H1 H2]. inversion_clear H2.
    exists id, mid, reading, d, waiting, e, asking. split_and!; [|done..|by apply Forall_app|done|done].
    by repeat (cbn [app]; rewrite <- app_assoc).
  - destruct mid as [|x mid]; [done|]. injection H as <- H.
    assert (Hall : Forall plain (earliest ++ e :: asking)) by by apply Forall_app.
    cbn in H. rewrite H in Hall. apply Forall_app in Hall as [_ Hall]. by inversion Hall.
Qed.

(** What is known of a worker at any time *)
Definition trusted_worker (w : World) : Prop :=
  commands_trusted (log w) /\
  forall k, (checkouts k (log w) <= if bool_decide (k ∈ executed_run_ids w) then 1 else 0)%nat.

Lemma polled_trusted w w' : polled config client registry w w' -> trusted_worker w -> trusted_worker w'.
Proof.
  intros [_ (new & Hl & H)] [Hc Hk]. unfold trusted_worker. rewrite Hl.
  destruct H as [[He Hp]|(k0 & id & of_run & e & asking & -> & Hpl & Hout & Hk0 & He & Hx)]; split.
  - apply commands_app; [by apply plain_commands|done].
  - intros k. rewrite checkouts_app, plain_checkouts, He by done. apply Hk.
  - apply commands_app; [by eapply executed_commands|done].
  - intros k. rewrite !checkouts_app, (plain_checkouts k (e :: asking)), He by done.
    pose proof (executed_checkouts k0 id of_run k Hx) as Hn. specialize (Hk k).
    destruct (decide (k = k0)) as [->|Hne].
    + rewrite (bool_decide_eq_false_2 _ Hk0) in Hk. rewrite bool_decide_eq_true_2 in Hn by done.
      rewrite bool_decide_eq_true_2 by set_solver. lia.
    + rewrite bool_decide_eq_false_2 in Hn by done. assert (k ∈ {[k0]} ∪ executed_run_ids w <-> k ∈ executed_run_ids w) as Heq by set_solver.
      rewrite (bool_decide_ext _ _ Heq). lia.
Qed.

(** C13. A worker process runs only commands of its own registry.  Each belongs to a manifest that was admitted
    for an order, and is run in the latest checkout there is: this checkout succeeded, was made for the run that
    the control plane had handed out before it, of the commit that the control plane gave for the order of that
    run, from the repository that the operator configured for it, and its check succeeded before the
    command; from the handing out to the checkout nothing else is checked out and nothing is run, and from
    the checkout to the command only commands of the same manifest.  For no run is a checkout made twice. *)
Theorem worker_commands_trusted fuel :
  let lg := log (process fuel new_worker).2 in
  commands_trusted lg /\ forall k, (checkouts k lg <= 1)%nat.
Proof.
  assert (trusted_worker (process fuel new_worker).2) as [Hc Hk].
  { apply (main_keeps trusted_worker).
    - intros w' H. assert (trusted_worker new_worker) as H0 by (split; [by apply plain_commands; constructor|]; intros k; cbn; lia).
      revert H0. apply polled_trusted, plain_polled. eapply extends_weaken; [|exact H]. by intros e [].
    - intros w w' H. apply polled_trusted, plain_polled. eapply extends_weaken; [|exact H]. by intros [].
    - intros w. apply polled_trusted, poll_once_polled. }
  split; [done|]. intros k. specialize (Hk k). case_bool_decide; lia.
Qed.

(** *** Quarantine *)

(** A drained worker only talks. *)
Lemma poll_drained w : shutdown w = true -> extends outbound w (poll w).2 /\ (poll w).1 = Ok false.
Proof.
  intros Hs. assert (H := interfere_extends host client outbound w ltac:(eauto)).
  assert (shutdown (interfere host client w) = true) as Hs' by by apply H.
  unfold poll_once, mbind, M_bind, observe. rewrite Hs'. done.
Qed.

(** Everything is accounted for, or the worker drains. *)
Definition contained (w : World) : Prop :=
  Forall accounted (log w) \/ shutdown w = true /\ sealed (log w).

Lemma contained_poll w : contained w -> contained (poll w).2.
Proof.
  intros [Hn|[Hs Hn]].
  - destruct (poll_once_secures host config client registry decode_candidate isoformat w) as (new & Hl & [Hx|[Hd Hx]]).
    + left. rewrite Hl. by apply Forall_app.
    + right. split; [done|]. rewrite Hl. by apply sealed_before.
  - destruct (poll_drained w Hs) as [[(new & Hl & Hx) Hd _ _ _] _]. right. split; [auto|]. rewrite Hl. by apply sealed_after.
Qed.

Lemma contained_outbound w w' : extends outbound w w' -> contained w -> contained w'.
Proof.
  intros [(new & Hl & Hx) Hd _ _ _] [Hn|[Hs Hn]]; [left|right]; rewrite Hl.
  - apply Forall_app. split; [|done]. eapply Forall_impl; eauto.
  - split; [auto|]. by apply sealed_after.
Qed.

(** C14. Once the runner has lost track of the processes of a command (it raised anything but an overall
    deadline, or reports that the descendants of a required command could not be cleaned up), the worker
    process makes requests to the control plane and nothing else: the checkout is not read, no command is
    run, nothing is captured, recorded or removed, and no further run is taken. *)
Theorem worker_quarantine fuel : sealed (log (process fuel new_worker).2).
Proof.
  assert (contained (process fuel new_worker).2) as [H|[_ H]]; [|by apply sealed_accounted|done].
  apply (main_keeps contained).
  - intros w' [(new & Hl & Hx) _ _ _ _]. left. rewrite Hl, app_nil_r. eapply Forall_impl; [exact Hx|]. by intros e [].
  - apply contained_outbound.
  - apply contained_poll.
Qed.

(** *** Reports *)

(** Not the completion of a run *)
Definition silent (e : Event) : Prop := forall k c answer, e <> completion_event client k c answer.

Lemma beat_silent e : beat client e -> silent e.
Proof. destruct e; try done. intros [->|[k ->]] k' c answer' [=]. Qed.
Lemma local_silent k e : local_event k e -> silent e.
Proof. by destruct e. Qed.

Section report.
Context (k : Z).

Lemma on_failure_not_success e s :
  ensures (on_failure e) (fun _ s' => v_terminal (locals s') <> "succeeded") (fun _ _ => False) s.
Proof. destruct e; cbn [on_failure]; repeat first [done | ens_step]. Qed.

Lemma run_to_end_success work_order_id w started_at :
  ensures (run_to_end host config client registry decode_candidate isoformat k work_order_id)
    (fun _ s => v_terminal (locals s) = "succeeded" -> run_success config registry isoformat k (log (world s)) (locals s))
    (fun _ _ => True) {| world := w; locals := initial_locals started_at |}.
Proof.
  unfold run_to_end. apply ens_try_finally. unfold catch. ens_step.
  eapply ens_mono; [by apply run_body_spec|..].
  - intros [] s Hp. apply finish_spec. apply Hp.
  - intros e s _. eapply ens_mono; [apply on_failure_not_success| |done]. intros [] s' Hn. by apply finish_spec.
Qed.

Lemma run_to_end_silent work_order_id :
  always (runs silent) (run_to_end host config client registry decode_candidate isoformat k work_order_id).
Proof.
  apply run_to_end_runs.
  - apply beat_silent.
  - by intros path params answer k' c answer' [=].
  - by intros identity hash answer k' c answer' [=].
  - apply local_silent.
  - by intros o m _.
Qed.

(** The request that a call of the client makes, if it makes one *)
Lemma request_log method path owned params json w :
  let w' := (request_json (H := polling_client host client) client method path owned params json w).2 in
  log w' = log w \/
  exists answer, log w' = Sent (http_request client method path params json) answer :: log (interfere host client w).
Proof.
  set (r := http_request client method path params json).
  apply (ens_leaves (fun w' => log w' = log w \/ exists answer, log w' = Sent r answer :: log (interfere host client w))).
  unfold request_json. fold r. do 3 ens_step; [ens_step; by left|]. ens_step. cbn [send polling_client]. do 2 ens_step.
  unfold send_now, ensures. cbn zeta. destruct (h_http host _ r) as [response|e] eqn:Ha; [|right; by exists (Err e)].
  assert (Hdone : forall w', log w' = log (record_event (Sent r (Ok response)) (next_turn (interfere host client w))) ->
    log w' = log w \/ exists answer, log w' = Sent r answer :: log (interfere host client w)).
  { intros w' ->. right. by exists (Ok response). }
  destruct (cl_worker_scoped client && bool_decide _); [by apply Hdone|]. destruct (owned && bool_decide _); [by apply Hdone|].
  destruct (HTTP_ERROR_STATUS <=? _); [by apply Hdone|]. destruct (loads (rs_content response)); by apply Hdone.
Qed.

(** What is left of a completion, whatever is made of its answer *)
Definition reports (k' : Z) (c : Completion) (w w' : World) : Prop :=
  log w' = log w \/ exists answer, log w' = completion_event client k' c answer :: log (interfere host client w).

Lemma report_reports l w : reports k (completion_of isoformat l) w (report host client isoformat k l w).2.
Proof.
  unfold report. destruct (v_skip_completion l); [by left|].
  pose proof (request_log "post" (run_path client k "complete") true [] (Some (JObj (completion_payload client (completion_of isoformat l)))) w) as H.
  unfold handle, mbind, M_bind, complete_run, post_owned.
  destruct (request_json _ _ _ _ _ _ w) as [[j|e] w']; cbn [snd] in H |- *; [exact H|].
  destruct (is_ownership_lost e); [destruct (is_credential_rejected e)|]; try exact H.
  assert (Hlog : log (request_shutdown w') = log w') by (unfold request_shutdown; rsimpl; by destruct (active_token w')).
  unfold reports, modify. cbn [snd]. rewrite Hlog. exact H.
Qed.

Lemma rejection_reports reason w : exists c, cp_status c = "cancelled" /\
  reports k c w (complete_admission_rejection host client k reason w).2.
Proof.
  unfold complete_admission_rejection. set (c := {| cp_status := _ |}). exists c. split; [done|].
  pose proof (request_log "post" (run_path client k "complete") true [] (Some (JObj (completion_payload client c))) w) as H.
  unfold handle, mbind, M_bind, complete_run, post_owned.
  destruct (request_json _ _ _ _ _ _ w) as [[j|e] w']; cbn [snd] in H |- *; [exact H|].
  by destruct (is_ownership_lost e).
Qed.

(** What a run leaves: no completion, or one at the end, which claims a success only if it is one *)
Definition reported (w : World) (lg : list Event) : Prop :=
  Forall silent lg \/
  exists c answer beats before, lg = completion_event client k c answer :: beats ++ before /\
    Forall (beat client) beats /\ Forall silent before /\
    (cp_status c = "succeeded" -> k ∉ executed_run_ids w /\
       exists l, c = completion_of isoformat l /\ run_success config registry isoformat k before l).

Lemma reports_reported c w0 w w' :
  Forall silent (log w) ->
  (cp_status c = "succeeded" -> k ∉ executed_run_ids w0 /\
     exists l, c = completion_of isoformat l /\ run_success config registry isoformat k (log w) l) ->
  reports k c w w' -> reported w0 (log w').
Proof.
  intros Hs Hc [->|[answer ->]]; [by left|right].
  destruct (interfere_extends host client (beat client) w ltac:(done)) as [(beats & -> & Hb) _ _ _ _].
  by exists c, answer, beats, (log w).
Qed.

Lemma process_reported work_order_id w0 w :
  k ∉ executed_run_ids w0 -> Forall silent (log w) ->
  reported w0 (log (process_run host config client registry decode_candidate isoformat k work_order_id w).2).
Proof.
  intros Hk Hw. unfold process_run. set (s0 := {| world := next_turn w; locals := _ |}).
  pose proof (run_to_end_silent work_order_id s0) as [(new & Hl & Hn) _ _].
  pose proof (run_to_end_success work_order_id (next_turn w) (h_now host (turn w))) as Hx. fold s0 in Hx.
  unfold run_to_end, ensures in *. destruct (try_finally _ _ s0) as [[a|e] s1]; cbn [snd] in *.
  - eapply reports_reported; [|intros Hc; split; [exact Hk|]; exists (locals s1); split; [done|by apply Hx]|apply report_reports].
    rewrite Hl. by apply Forall_app.
  - left. rewrite Hl. by apply Forall_app.
Qed.
End report.

(** C15. A poll completes at most one run, and that with its last request; it reports a success only for a
    run that was not taken before, of an order and a manifest that were admitted, whose commit was checked
    out, of which every required command of the manifest succeeded or whose evidence was verified for
    reuse, and whose checkout was cleaned up and whose evidence was recorded, unless a command that is
    not required left a process behind. *)
Theorem poll_report_justified w :
  log w = [] -> exists k, reported k w (log (poll w).2).
Proof.
  intros H0. apply (poll_once_cases host config client registry decode_candidate isoformat silent) with (R := fun w' => exists k, reported k w (log w')).
  - apply beat_silent.
  - by intros answer k c answer' [=].
  - intros w' [(new & Hl & Hn) _ _ _ _]. exists 0. left. by rewrite Hl, H0, app_nil_r.
  - intros k reason w1 [(new & Hl & Hn) _ _ _ _]. exists k. destruct (rejection_reports k reason w1) as (c & Hc & Hr).
    eapply reports_reported; [by rewrite Hl, H0, app_nil_r|by rewrite Hc|done].
  - intros k work_order_id w1 [(new & Hl & Hn) _ He _ _] _ _ _ Hk. exists k. rewrite He in Hk.
    apply process_reported; [done|]. change (Forall silent (log w1)). by rewrite Hl, H0, app_nil_r.
Qed.
End process.
