(* ===== verification/ProcessTable.v ===== *)
(** * The process table of Linux

    How the worker reads [/proc]: the fields of a [stat] record, the members of a process group
    ([runner.py]) and the descendants of a process ([contained_host.py]), found by a worklist. *)

From S2P Require Import Prelude Text Json Checks Evidence Floats JsonCodec.
From stdpp Require Import pretty.
#[local] Open Scope Z_scope.

(** ** Records *)

Record ProcessRecord := {
  process_id : Z;
  parent_process_id : Z;
  process_group_id : Z;
  state : string;
}.

Definition LINUX_TERMINAL_PROCESS_STATES : list string := ["X"; "x"; "Z"].
Definition LINUX_STAT_MIN_FIELDS : nat := 3.

(** The text after the last [")"], less one character more: [value[value.rfind(")") + 2:]] *)
Fixpoint after_last (c : ascii) (l : list ascii) : option (list ascii) :=
  match l with
  | [] => None
  | x :: l' =>
      match after_last c l' with
      | Some rest => Some rest
      | None => if bool_decide (x = c) then Some l' else None
      end
  end.

(** [text.split()] *)
Fixpoint words_from (word l : list ascii) : list (list ascii) :=
  match l with
  | [] => if bool_decide (word = []) then [] else [word]
  | c :: l' =>
      if is_space c then (if bool_decide (word = []) then [] else [word]) ++ words_from [] l'
      else words_from (word ++ [c]) l'
  end.
Definition words (l : list ascii) : list (list ascii) := words_from [] l.

(** [int(text)]: a sign, and digits with single underscores between them *)
Fixpoint digits_after (l : list ascii) : option (list ascii) :=
  match l with
  | [] => Some []
  | c :: l' =>
      if is_digit c then option_map (cons c) (digits_after l')
      else if ord c =? 95 then match l' with
                               | d :: l'' => if is_digit d then option_map (cons d) (digits_after l'') else None
                               | [] => None
                               end
      else None
  end.
Definition unsigned (l : list ascii) : option Z :=
  match l with
  | c :: _ => if is_digit c then option_map int_of_digits (digits_after l) else None
  | [] => None
  end.
Definition py_int (l : list ascii) : option Z :=
  match l with
  | c :: l' => if ord c =? 45 then option_map Z.opp (unsigned l') else if ord c =? 43 then unsigned l' else unsigned l
  | [] => None
  end.

Definition stat_fields (value : list ascii) : list (list ascii) :=
  match after_last (chr 41) value with Some rest => words (drop 1 rest) | None => [] end.

(** [_parse_linux_process_stat] *)
Definition parse_linux_process_stat (value : string) : option (Z * string) :=
  match stat_fields (to_chars value) with
  | state :: _ :: group :: _ =>
      match py_int group with Some process_group_id => Some (process_group_id, of_chars state) | None => None end
  | _ => None
  end.

(** [_parse_linux_stat] *)
Definition parse_linux_stat (value : string) (process_id : Z) : option ProcessRecord :=
  match stat_fields (to_chars value) with
  | state :: parent :: group :: _ =>
      match py_int parent, py_int group with
      | Some parent_process_id, Some process_group_id =>
          Some {| process_id := process_id; parent_process_id := parent_process_id;
                  process_group_id := process_group_id; state := of_chars state |}
      | _, _ => None
      end
  | _ => None
  end.

(** ** Directories of processes *)

(** What reading the record of one process gave: its text, nothing because it is gone
    ([FileNotFoundError], [ProcessLookupError], ENOENT, ESRCH), or another error. *)
Inductive StatRead := StatText (text : string) | Vanished | Unreadable.

(** The entries of [/proc], in the order they are listed *)
Notation ProcListing := (list (string * StatRead)).

(** [name.isdecimal()] and [int(name)] *)
Definition decimal_name (name : string) : option Z :=
  let l := to_chars name in
  if negb (bool_decide (l = [])) && forallb is_digit l then Some (int_of_digits l) else None.

(** [d[k] = v] *)
Fixpoint set_item {A} (k : Z) (v : A) (d : list (Z * A)) : list (Z * A) :=
  match d with
  | [] => [(k, v)]
  | (k', v') :: d' => if k =? k' then (k, v) :: d' else (k', v') :: set_item k v d'
  end.

(** The loop of [_linux_process_group_members] *)
Fixpoint group_members (group : Z) (members : list (Z * string)) (listing : ProcListing) : option (list (Z * string)) :=
  match listing with
  | [] => Some members
  | (name, read) :: rest =>
      match decimal_name name with
      | None => group_members group members rest
      | Some pid =>
          match read with
          | Vanished => group_members group members rest
          | Unreadable => None
          | StatText text =>
              match parse_linux_process_stat text with
              | None => None
              | Some (member_group, state) =>
                  group_members group (if member_group =? group then set_item pid state members else members) rest
              end
          end
      end
  end.

(** [_linux_process_group_members]; [None] for a listing stands for a host without a usable [/proc]. *)
Definition linux_process_group_members (listing : option ProcListing) (group : Z) : option (list (Z * string)) :=
  match listing with Some l => group_members group [] l | None => None end.

(** The loop of [_linux_process_table]; [None] where it raises *)
Fixpoint table_of (records : list (Z * ProcessRecord)) (listing : ProcListing) : option (list (Z * ProcessRecord)) :=
  match listing with
  | [] => Some records
  | (name, read) :: rest =>
      match decimal_name name with
      | None => table_of records rest
      | Some pid =>
          match read with
          | Vanished => table_of records rest
          | Unreadable => None
          | StatText text =>
              match parse_linux_stat text pid with
              | None => None
              | Some record => table_of (set_item pid record records) rest
              end
          end
      end
  end.

(** [_linux_process_table] *)
Definition linux_process_table (listing : option ProcListing) : option (list ProcessRecord) :=
  match listing with Some l => option_map (map snd) (table_of [] l) | None => None end.

(** ** Descendants *)

Section descendants.
Context (records : list ProcessRecord).

(** [children.get(parent, [])] *)
Definition children_of (parent : Z) : list ProcessRecord := filter (fun r => parent_process_id r = parent) records.

(** [child.process_id in descendants] *)
Definition known (pid : Z) (found : list ProcessRecord) : bool := bool_decide (pid ∈ map process_id found).

(** The inner loop: the children that are new are noted and put on the stack. *)
Definition visit (acc : list ProcessRecord * list Z) (child : ProcessRecord) : list ProcessRecord * list Z :=
  if known (process_id child) acc.1 then acc else (acc.1 ++ [child], process_id child :: acc.2).

(** The outer loop; the head of [pending] is the end of the list in the source. *)
Fixpoint search (fuel : nat) (pending : list Z) (found : list ProcessRecord) : option (list ProcessRecord) :=
  match pending with
  | [] => Some found
  | parent :: pending' =>
      match fuel with
      | O => None
      | S fuel' => let '(found', pending'') := foldl visit (found, pending') (children_of parent) in search fuel' pending'' found'
      end
  end.

(** [_linux_descendants] of one snapshot; every process is put on the stack once. *)
Definition linux_descendants (parent : Z) : option (list ProcessRecord) := search (S (length records)) [parent] [].

(** A process below another *)
Inductive descendant (root : Z) : Z -> Prop :=
| descendant_child r : r ∈ records -> parent_process_id r = root -> descendant root (process_id r)
| descendant_step r : r ∈ records -> descendant root (parent_process_id r) -> descendant root (process_id r).
End descendants.

(** ** The search finds the descendants *)

Lemma known_spec pid found : known pid found = true <-> pid ∈ map process_id found.
Proof. apply bool_decide_eq_true. Qed.

Section search_proofs.
Context (records : list ProcessRecord) (root : Z).

(** What holds between two turns of the outer loop *)
Record searching (pending : list Z) (found : list ProcessRecord) : Prop := {
  se_nodup : NoDup (map process_id found);
  se_from : forall r, r ∈ found -> r ∈ records /\ descendant records root (process_id r);
  se_pending : forall p, p ∈ pending -> p = root \/ p ∈ map process_id found;
  se_closed : forall p r, p = root \/ p ∈ map process_id found -> p ∉ pending ->
    r ∈ records -> parent_process_id r = p -> process_id r ∈ map process_id found;
}.

Lemma visit_all children : (forall r, r ∈ children -> r ∈ records /\ descendant records root (process_id r)) ->
  forall found pending found' pending',
  NoDup (map process_id found) ->
  (forall r, r ∈ found -> r ∈ records /\ descendant records root (process_id r)) ->
  foldl visit (found, pending) children = (found', pending') ->
  exists added, found' = found ++ added /\ pending' = rev (map process_id added) ++ pending /\
    NoDup (map process_id found') /\
    (forall r, r ∈ found' -> r ∈ records /\ descendant records root (process_id r)) /\
    (forall r, r ∈ children -> process_id r ∈ map process_id found').
Proof.
  induction children as [|c children IH]; intros Hc found pending found' pending' Hnd Hfrom H.
  - injection H as <- <-. exists []. rewrite app_nil_r. split_and!; try done. by intros r ?%elem_of_nil.
  - cbn [foldl] in H. unfold visit at 2 in H. cbn [fst snd] in H.
    assert (Hc' : forall r, r ∈ children -> r ∈ records /\ descendant records root (process_id r)) by (intros; apply Hc; by right).
    destruct (known (process_id c) found) eqn:Hk.
    + destruct (IH Hc' _ _ _ _ Hnd Hfrom H) as (added & -> & -> & Hnd' & Hfrom' & Hall). exists added. split_and!; try done.
      intros r [->|Hr]%elem_of_cons; [|by apply Hall]. apply known_spec in Hk. rewrite map_app. apply elem_of_app. by left.
    + assert (Hnew : process_id c ∉ map process_id found) by (intros Hin%known_spec; congruence).
      apply IH in H as (added & -> & -> & Hnd' & Hfrom' & Hall); [|done| |].
      * exists (c :: added). rewrite <- !app_assoc. split_and!; try done.
        -- cbn [map rev app]. by rewrite <- app_assoc.
        -- by rewrite <- app_assoc in Hnd'.
        -- intros r Hr. apply Hfrom'. by rewrite <- app_assoc.
        -- intros r [->|Hr]%elem_of_cons; [|specialize (Hall _ Hr); by rewrite <- app_assoc in Hall].
           rewrite map_app. cbn. apply elem_of_app. right. by left.
      * rewrite map_app. apply NoDup_app. split_and!; [done| |apply NoDup_singleton].
        intros x Hx Hx'%list_elem_of_singleton. by subst.
      * intros r [Hr|Hr%list_elem_of_singleton]%elem_of_app; [by apply Hfrom|subst]. apply Hc. by left.
Qed.

Lemma searching_step parent pending found found' pending' : searching (parent :: pending) found ->
  foldl visit (found, pending) (children_of records parent) = (found', pending') ->
  searching pending' found' /\ (length pending' + length found = length pending + length found')%nat.
Proof.
  intros [Hnd Hfrom Hpend Hclosed] H. apply visit_all in H as (added & -> & -> & Hnd' & Hfrom' & Hall); [|..|done|done].
  - split.
    + split; [done|done| |].
      * intros p [Hp|Hp]%elem_of_app; [right|].
        -- rewrite map_app. apply elem_of_app. right. by apply list_elem_of_In, in_rev, list_elem_of_In.
        -- destruct (Hpend p) as [->|Hp']; [by right|by left|]. right. rewrite map_app. apply elem_of_app. by left.
      * intros p r Hp Hnin Hr Hpar. rewrite not_elem_of_app in Hnin. destruct Hnin as [Hnin1 Hnin2].
        destruct (decide (p = parent)) as [->|Hne].
        { apply Hall. apply list_elem_of_filter. by split. }
        rewrite map_app. apply elem_of_app. left. apply (Hclosed p r); [|by intros [->|?]%elem_of_cons|done|done].
        destruct Hp as [->|Hp]; [by left|]. right. rewrite map_app in Hp. apply elem_of_app in Hp as [Hp|Hp]; [done|].
        destruct Hnin1. by apply list_elem_of_In, in_rev; rewrite rev_involutive; apply list_elem_of_In.
    + rewrite !length_app, length_rev, length_map. lia.
  - intros r [Hpar Hr]%list_elem_of_filter. split; [done|].
    destruct (Hpend parent) as [->|Hp]; [by left|by apply descendant_child|].
    apply list_elem_of_fmap in Hp as (r' & -> & Hr'). apply descendant_step; [done|]. rewrite Hpar. by apply Hfrom.
Qed.

Lemma search_finds fuel : forall pending found, searching pending found -> NoDup (map process_id records) ->
  (length records + length pending <= fuel + length found)%nat ->
  exists found', search records fuel pending found = Some found' /\ searching [] found'.
Proof.
  induction fuel as [|fuel IH]; intros pending found Hs Hnd Hfuel.
  - assert (Hle : (length found <= length records)%nat).
    { rewrite <- (length_map process_id found), <- (length_map process_id records). apply submseteq_length.
      apply NoDup_submseteq; [apply Hs|]. intros p (r & -> & Hr)%list_elem_of_fmap. apply list_elem_of_fmap_2, Hs, Hr. }
    destruct pending as [|p pending]; [|cbn in Hfuel; lia]. by exists found.
  - destruct pending as [|p pending]; [by exists found|]. cbn [search].
    destruct (foldl visit (found, pending) (children_of records p)) as [found' pending'] eqn:Hv.
    destruct (searching_step _ _ _ _ _ Hs Hv) as [Hs' Hlen]. cbn [length] in Hfuel. apply IH; [done|done|lia].
Qed.
End search_proofs.

(** C22. The worklist search always ends, and finds exactly the processes below the given one in the snapshot:
    the children of its children and so on, each once, whatever cycles the parent links have. *)
Theorem linux_descendants_exact records root : NoDup (map process_id records) ->
  exists found, linux_descendants records root = Some found /\ NoDup (map process_id found) /\
    (forall r, r ∈ found -> r ∈ records) /\
    (forall pid, pid ∈ map process_id found <-> descendant records root pid).
Proof.
  intros Hnd. destruct (search_finds records root (S (length records)) [root] []) as (found & Hf & Hs); [|done|cbn; lia|].
  { split; [constructor|by intros r ?%elem_of_nil|intros p ->%list_elem_of_singleton; by left|].
    intros p r [->|Hp%elem_of_nil] Hn; [|done]. destruct Hn. by left. }
  exists found. destruct Hs as [Hnd' Hfrom _ Hclosed]. split_and!; [done|done|intros r Hr; by apply Hfrom|].
  intros pid. split.
  - intros (r & -> & Hr)%list_elem_of_fmap. by apply Hfrom.
  - induction 1 as [r Hr Hpar|r Hr _ IH]; (eapply Hclosed; [|apply not_elem_of_nil|exact Hr|done]); [by left|by right].
Qed.

(** ** Reading what the kernel writes *)

Lemma str_of_int_reads n : 0 <= n ->
  exists c ds, to_chars (str_of_int n) = c :: ds /\ forallb is_digit (c :: ds) = true /\ int_of_digits (c :: ds) = n.
Proof.
  intros Hn. destruct n as [|p|p]; [by eexists _, _| |lia]. unfold str_of_int, pretty, pretty_Z.
  change (pretty p) with (pretty (N.pos p)). unfold pretty, pretty_N. destruct (decide _); [done|].
  destruct (pretty_go_digits (N.pos p) "") as (ds & -> & Hdig & Hval & (c & ds' & -> & _)); [lia|].
  exists c, ds'. by rewrite app_nil_r.
Qed.

Lemma digits_after_all l : forallb is_digit l = true -> digits_after l = Some l.
Proof. induction l as [|c l IH]; [done|]. cbn. intros [-> Hl]%andb_prop. by rewrite IH. Qed.

Lemma py_int_str n : 0 <= n -> py_int (to_chars (str_of_int n)) = Some n.
Proof.
  intros Hn. destruct (str_of_int_reads n Hn) as (c & ds & -> & Hd & <-). pose proof Hd as [Hc _]%andb_prop.
  unfold py_int, unsigned. rewrite Hc, (digits_after_all (c :: ds)) by done. cbn [option_map].
  unfold is_digit, in_range in Hc. destruct (Z.eqb_spec (ord c) 45); [lia|]. destruct (Z.eqb_spec (ord c) 43); [lia|done].
Qed.

Lemma words_from_app word l rest : forallb (fun c => negb (is_space c)) l = true -> words_from word (l ++ rest) = words_from (word ++ l) rest.
Proof.
  revert word. induction l as [|c l IH]; intros word Hl; [by rewrite app_nil_r|]. cbn [forallb] in Hl.
  apply andb_prop in Hl as [Hc Hl]. cbn [app words_from]. apply negb_true_iff in Hc. rewrite Hc, IH by done.
  by rewrite <- app_assoc.
Qed.

(** A word, a space and the rest *)
Lemma words_cons word rest : word <> [] -> forallb (fun c => negb (is_space c)) word = true ->
  words (word ++ chr 32 :: rest) = word :: words rest.
Proof.
  intros Hne Hw. unfold words. rewrite words_from_app by done. cbn [app words_from is_space in_range orb].
  by rewrite bool_decide_false.
Qed.

Lemma after_last_none c l : c ∉ l -> after_last c l = None.
Proof.
  induction l as [|x l IH]; [done|]. rewrite not_elem_of_cons. intros [Hx Hl]. cbn. rewrite IH by done.
  by rewrite bool_decide_false.
Qed.

Lemma after_last_app c l rest : c ∉ rest -> after_last c (l ++ c :: rest) = Some rest.
Proof.
  intros Hr. induction l as [|x l IH]; cbn; [|by rewrite IH]. by rewrite after_last_none, bool_decide_true.
Qed.

Lemma digits_no_space l : forallb is_digit l = true -> forallb (fun c => negb (is_space c)) l = true /\ chr 41 ∉ l.
Proof.
  rewrite !forallb_Forall, Forall_forall. intros Hl. split.
  - apply Forall_forall. intros c Hc. apply Hl in Hc. unfold is_digit, is_space, in_range in *. lia.
  - intros Hin. by apply Hl in Hin.
Qed.

Lemma not_elem_of_app_chars c s t : c ∉ to_chars (s +:+ t) -> c ∉ to_chars s /\ c ∉ to_chars t.
Proof. rewrite to_chars_app. apply not_elem_of_app. Qed.

(** A record as the kernel writes it: the name of the command, in parentheses, may be any text. *)
Definition stat_line (pid : Z) (comm st : string) (parent group : Z) (rest : string) : string :=
  str_of_int pid +:+ " (" +:+ comm +:+ ") " +:+ st +:+ " " +:+ str_of_int parent +:+ " " +:+ str_of_int group +:+ " " +:+ rest.

(** The record of a process is read correctly whatever the name of its command, brackets and spaces included. *)
Theorem parse_stat_line pid comm st parent group rest :
  st <> "" -> forallb (fun c => negb (is_space c)) (to_chars st) = true -> chr 41 ∉ to_chars (st +:+ rest) ->
  0 <= parent -> 0 <= group ->
  parse_linux_stat (stat_line pid comm st parent group rest) pid =
    Some {| process_id := pid; parent_process_id := parent; process_group_id := group; state := st |} /\
  parse_linux_process_stat (stat_line pid comm st parent group rest) = Some (group, st).
Proof.
  intros Hst Hs0 [Hn0 Hrest]%not_elem_of_app_chars Hp Hg.
  assert (Hfields : stat_fields (to_chars (stat_line pid comm st parent group rest)) =
    to_chars st :: to_chars (str_of_int parent) :: to_chars (str_of_int group) :: words (to_chars rest)).
  { destruct (str_of_int_reads parent Hp) as (c & ds & Eparent & Hd & _).
    destruct (str_of_int_reads group Hg) as (c' & ds' & Egroup & Hd' & _).
    destruct (digits_no_space _ Hd) as [Hs Hn]. destruct (digits_no_space _ Hd') as [Hs' Hn'].
    set (tail := to_chars st ++ chr 32 :: to_chars (str_of_int parent) ++ chr 32 :: to_chars (str_of_int group) ++ chr 32 :: to_chars rest).
    assert (Htext : to_chars (stat_line pid comm st parent group rest) =
      (to_chars (str_of_int pid) ++ to_chars " (" ++ to_chars comm) ++ chr 41 :: chr 32 :: tail).
    { unfold stat_line, tail. by rewrite !to_chars_app, <- !app_assoc. }
    unfold stat_fields. rewrite Htext, after_last_app.
    - cbn [drop]. unfold tail.
      rewrite drop_0, Eparent, Egroup. rewrite !words_cons; try done. by destruct st.
    - apply not_elem_of_cons in Hn as [? ?], Hn' as [? ?]. unfold tail. rewrite Eparent, Egroup.
      repeat (first [apply not_elem_of_cons | apply not_elem_of_app]; split); done. }
  unfold parse_linux_stat, parse_linux_process_stat. rewrite Hfields, !py_int_str, of_to_chars by done. done.
Qed.

Lemma parse_stat_line_witness :
  parse_linux_stat (stat_line 42 "a) b (c" "S" 1 42 "0 0") 42 =
    Some {| process_id := 42; parent_process_id := 1; process_group_id := 42; state := "S" |} /\
  parse_linux_process_stat (stat_line 42 "a) b (c" "S" 1 42 "0 0") = Some (42, "S").
Proof.
  apply (parse_stat_line 42 "a) b (c" "S" 1 42 "0 0"); [done|reflexivity| |lia|lia].
  apply (bool_decide_unpack _). vm_compute. exact I.
Defined.

(** ** A table has one record per process *)

Lemma set_item_keys {A} k (v : A) d x : x ∈ (set_item k v d).*1 <-> x = k \/ x ∈ d.*1.
Proof.
  induction d as [|[k' v'] d IH]; cbn [set_item].
  - cbn. rewrite list_elem_of_singleton, elem_of_nil. naive_solver.
  - destruct (Z.eqb_spec k k') as [<-|Hne]; rewrite !fmap_cons, !elem_of_cons; [naive_solver|]. rewrite IH. naive_solver.
Qed.

Lemma set_item_nodup {A} k (v : A) d : NoDup d.*1 -> NoDup (set_item k v d).*1.
Proof.
  induction d as [|[k' v'] d IH]; cbn [set_item]; intros Hnd; [apply NoDup_singleton|].
  rewrite fmap_cons in Hnd. apply NoDup_cons in Hnd as [Hk Hnd].
  destruct (Z.eqb_spec k k') as [<-|Hne]; rewrite fmap_cons; apply NoDup_cons; [done|]. split; [|by apply IH].
  cbn [fst]. rewrite set_item_keys. cbn in Hk. naive_solver.
Qed.

Lemma set_item_in {A} k (v : A) d x w : (x, w) ∈ set_item k v d -> (x = k /\ w = v) \/ (x, w) ∈ d.
Proof.
  induction d as [|[k' v'] d IH]; cbn [set_item].
  - intros [= -> ->]%list_elem_of_singleton. by left.
  - destruct (k =? k'); rewrite !elem_of_cons; intros [H|H]; simplify_eq; naive_solver.
Qed.

Lemma parse_linux_stat_id text pid r : parse_linux_stat text pid = Some r -> process_id r = pid.
Proof. unfold parse_linux_stat. intros H. repeat case_match; by simplify_eq. Qed.

Lemma table_of_unique listing : forall records table,
  NoDup records.*1 -> (forall k r, (k, r) ∈ records -> process_id r = k) ->
  table_of records listing = Some table -> NoDup table.*1 /\ forall k r, (k, r) ∈ table -> process_id r = k.
Proof.
  induction listing as [|[name read] listing IH]; intros records table Hnd Hid H; cbn [table_of] in H; [by simplify_eq|].
  repeat case_match; try done; try by eapply IH. eapply IH; [| |exact H].
  - by apply set_item_nodup.
  - intros k r [[-> ->]|Hin]%set_item_in; [by eapply parse_linux_stat_id|by apply Hid].
Qed.

Lemma linux_process_table_unique listing records :
  linux_process_table listing = Some records -> NoDup (map process_id records).
Proof.
  destruct listing as [l|]; [|done]. unfold linux_process_table. destruct (table_of [] l) as [table|] eqn:Ht; [|done].
  intros [= <-]. destruct (table_of_unique l [] table) as [Hnd Hid]; [constructor|by intros k r ?%elem_of_nil|done|].
  rewrite map_map. replace (map (fun x : Z * ProcessRecord => process_id x.2) table) with table.*1; [done|].
  clear -Hid. induction table as [|[k r] table IH]; [done|]. cbn. f_equal; [symmetry; apply Hid; by left|].
  apply IH. intros k' r' Hin. apply Hid. by right.
Qed.

(** A small table, with two processes that claim to be each other's parent *)
Definition sample_table : list ProcessRecord :=
  let process pid parent := {| process_id := pid; parent_process_id := parent; process_group_id := pid; state := "S" |} in
  [process 1 0; process 10 1; process 11 10; process 12 11; process 13 14; process 14 13].

Lemma linux_descendants_exact_witness :
  exists found, linux_descendants sample_table 10 = Some found /\ NoDup (map process_id found) /\
    (forall r, r ∈ found -> r ∈ sample_table) /\
    (forall pid, pid ∈ map process_id found <-> descendant sample_table 10 pid).
Proof.
  apply (linux_descendants_exact sample_table 10). apply (bool_decide_unpack _). vm_compute. exact I.
Defined.

Example sample_descendants : option_map (map process_id) (linux_descendants sample_table 10) = Some [11; 12].
Proof. vm_compute. reflexivity. Qed.
