(* ===== verification/ContainedHost.v ===== *)
(** * The strict containment host

    [client/python/execution_worker/contained_host.py]: the process between the worker and a
    reviewed command on Linux.  It becomes the subreaper of what it starts, accepts one bounded
    argv, runs it, and removes every process that the command leaves behind before it
    reports an exit code.  [containment.py] sends the argv and reads the code.

    What the kernel answers is the record [Kernel], a function of the number of calls so far.  A
    termination signal is delivered while the host waits, for its payload or for the target;
    during the cleanup it ignores them.  The Windows branches are not modelled. *)

From S2P Require Import Prelude Text Json Checks Evidence Floats JsonCodec Parsers WorkerContracts WorkerModels Effects ProcessTable.
From Stdlib Require Import QArith.
#[local] Open Scope Z_scope.

Definition MAX_PAYLOAD_BYTES : Z := 64 * 1024.
Definition MAX_ARGUMENT_COUNT : Z := 128.
Definition MAX_ARGUMENT_BYTES : Z := 16 * 1024.
Definition CLEANUP_TIMEOUT_SECONDS : Q := 2.
Definition HOST_SETUP_FAILURE : Z := 125.
Definition HOST_DESCENDANT_REAPED : Z := 126.
Definition HOST_CLEANUP_FAILURE : Z := 127.
Definition HOST_TERMINATED_CLEAN : Z := 124.
Definition SIGINT : Z := 2.
Definition SIGKILL : Z := 9.
Definition SIGTERM : Z := 15.

(** ** What the host raises and sees *)

Inductive HostExc :=
| HostError (message : string)
| TerminationRequested
| OsFault
(** the model has run out of turns *)
| NoFuel.

(** What sending a signal gave: it was delivered, [ProcessLookupError], or another [OSError] *)
Inductive SignalAnswer := Delivered | NoSuchProcess | Refused.

Record Kernel := {
  k_own_pid : Z;
  (** [/proc/self/stat] is a file; [prctl] is found; what setting the subreaper returned; what asking for it
      returned, and the value it stored *)
  k_proc_self : nat -> bool;
  k_prctl_found : nat -> bool;
  k_prctl_set : nat -> Z;
  k_prctl_get : nat -> Z * Z;
  (** The bytes on standard input; [None]: a termination signal came first *)
  k_read : nat -> option string;
  (** The process that was started *)
  k_spawn : nat -> list string -> option Z;
  (** The return code of the target; [None]: a termination signal came first *)
  k_wait : nat -> option Z;
  (** [os.waitpid(-1, WNOHANG)]; [None] is [ChildProcessError]. *)
  k_waitpid : nat -> option Z;
  k_listing : nat -> option ProcListing;
  k_killpg : nat -> Z -> Z -> SignalAnswer;
  k_kill : nat -> Z -> Z -> SignalAnswer;
  k_monotonic : nat -> Q;
}.

Inductive HostEvent :=
| Spawned (argv : list string) (answer : option Z)
| TargetEnded (answer : option Z)
| SignalledGroup (group signal : Z) (answer : SignalAnswer)
| SignalledProcess (pid signal : Z) (answer : SignalAnswer)
| Snapshot (descendants : list ProcessRecord).

Record HostState := { h_turn : nat; h_log : list HostEvent }.
#[export] Instance HostState_rebuild : Rebuild HostState := fun s => {| h_turn := h_turn s; h_log := h_log s |}.

Definition sig_of (force : bool) : Z := if force then SIGKILL else SIGTERM.

(** ** The payload *)

(** [_payload] of the parent *)
Definition payload_of (argv : list string) : option string :=
  let encoded := dumps true (JObj [("argv", JList (map JStr argv))]) in
  if MAX_PAYLOAD_BYTES <? str_length encoded then None else Some encoded.

(** The text of an argument of the payload; [None] for a value that is not text *)
Definition argument_of (j : Json) : option string := match j with JStr s => Some s | _ => None end.

Definition bad_argument (argument : string) : bool :=
  bool_decide (argument = "") || bool_decide (chr 0 ∈ to_chars argument) || (MAX_ARGUMENT_BYTES <? str_length argument).

(** What [_read_payload] makes of the bytes it has read *)
Definition decode_payload (raw : string) : Result HostExc (list string) :=
  if MAX_PAYLOAD_BYTES <? str_length raw then Err (HostError "payload exceeds bounded host input")
  else
    match loads raw with
    | None => Err (HostError "payload is not valid UTF-8 JSON")
    | Some (JObj fields) =>
        if negb (has_exactly fields ["argv"]) then Err (HostError "payload shape is invalid")
        else
          match member "argv" fields with
          | JList values =>
              if bool_decide (values = []) || (MAX_ARGUMENT_COUNT <? Z.of_nat (length values))
              then Err (HostError "argv shape is invalid")
              else
                match mapM argument_of values with
                | None => Err (HostError "argv contains a non-string")
                | Some argv =>
                    if existsb bad_argument argv then Err (HostError "argv value is invalid") else Ok argv
                end
          | _ => Err (HostError "argv shape is invalid")
          end
    | Some _ => Err (HostError "payload shape is invalid")
    end.

Section host.
Context (kernel : Kernel).

(** A call of the kernel *)
Definition ask {A} (f : nat -> A) : M HostExc HostState A := fun s =>
  (Ok (f (h_turn s)), s <| h_turn := S (h_turn s) |>).
Definition note (e : HostEvent) : M HostExc HostState unit := fun s => (Ok tt, s <| h_log := h_log s ++ [e] |>).

(** [_read_payload] *)
Definition read_payload : M HostExc HostState (list string) :=
  raw ← ask (k_read kernel);
  match raw with
  | None => raise TerminationRequested
  (** at most one byte more than the limit is read *)
  | Some text => lift_result (decode_payload (of_chars (take (Z.to_nat (MAX_PAYLOAD_BYTES + 1)) (to_chars text))))
  end.

(** [_linux_descendants] of a fresh snapshot *)
Definition descendants_now : M HostExc HostState (list ProcessRecord) :=
  listing ← ask (k_listing kernel);
  match linux_process_table listing with
  | None => raise (HostError "Linux process inspection failed")
  | Some records =>
      match linux_descendants records (k_own_pid kernel) with
      | None => raise NoFuel
      | Some found => note (Snapshot found);; mret found
      end
  end.

(** [_reap_adopted_children] *)
Fixpoint reap_adopted_children (fuel : nat) : M HostExc HostState unit :=
  match fuel with
  | O => raise NoFuel
  | S fuel' =>
      reaped ← ask (k_waitpid kernel);
      match reaped with
      | None => mret tt
      | Some pid => if pid =? 0 then mret tt else reap_adopted_children fuel'
      end
  end.

(** [_signal_process_group] *)
Definition signal_process_group (group signal : Z) : M HostExc HostState bool :=
  answer ← ask (fun n => k_killpg kernel n group signal);
  note (SignalledGroup group signal answer);;
  match answer with
  | Delivered => mret true
  | NoSuchProcess => mret false
  | Refused => raise (HostError "Linux process-group cleanup failed")
  end.

(** [_signal_process] *)
Definition signal_process (pid signal : Z) : M HostExc HostState bool :=
  answer ← ask (fun n => k_kill kernel n pid signal);
  note (SignalledProcess pid signal answer);;
  match answer with
  | Delivered => mret true
  | NoSuchProcess => mret false
  | Refused => raise (HostError "Linux descendant cleanup failed")
  end.

(** [_process_group_exists]: signal 0 *)
Definition process_group_exists (group : Z) : M HostExc HostState bool :=
  answer ← ask (fun n => k_killpg kernel n group 0);
  match answer with
  | Delivered => mret true
  | NoSuchProcess => mret false
  | Refused => raise (HostError "Linux process-group inspection failed")
  end.

(** The descendants that can still run, less the primary target *)
Definition live_descendants (primary : option Z) (descendants : list ProcessRecord) : list ProcessRecord :=
  filter (fun r => state r ∉ LINUX_TERMINAL_PROCESS_STATES /\ Some (process_id r) <> primary) descendants.

(** The variables of the loop *)
Record Cleanup := { cl_observed : bool; cl_unexpected : bool; cl_force : bool }.

Section cleanup.
Context (group : Z) (primary : option Z) (deadline force_after : Q).

(** The loop of [_cleanup_linux_target] *)
Fixpoint cleanup_loop (fuel : nat) (v : Cleanup) : M HostExc HostState bool :=
  match fuel with
  | O => raise NoFuel
  | S fuel' =>
      reap_adopted_children fuel;;
      descendants ← descendants_now;
      let live := live_descendants primary descendants in
      let unexpected := cl_unexpected v || negb (bool_decide (map process_id live = [])) in
      group_exists ← process_group_exists group;
      if bool_decide (map process_id live = []) && negb group_exists then
        reap_adopted_children fuel;;
        left ← descendants_now;
        if bool_decide (map process_id left = [])
        then mret (if bool_decide (primary = None) && cl_observed v then true else unexpected)
        else cleanup_loop fuel' {| cl_observed := cl_observed v; cl_unexpected := unexpected; cl_force := cl_force v |}
      else
        let observed := bool_decide (primary = None) || cl_observed v in
        now ← ask (k_monotonic kernel);
        let force := cl_force v || Qle_bool force_after now in
        (if group_exists : bool then _ ← signal_process_group group (sig_of force); mret tt else mret tt);;
        for_each (fun _ r => _ ← signal_process (process_id r) (sig_of force); mret tt) tt live;;
        ensure (negb (Qle_bool deadline now)) (HostError "Linux descendant cleanup timed out");;
        cleanup_loop fuel' {| cl_observed := observed; cl_unexpected := unexpected; cl_force := force |}
  end.
End cleanup.

(** [_cleanup_linux_target] *)
Definition cleanup_linux_target (fuel : nat) (group : Z) (primary : option Z) : M HostExc HostState bool :=
  observed ← process_group_exists group;
  (if observed : bool then _ ← signal_process_group group SIGTERM; mret tt else mret tt);;
  started ← ask (k_monotonic kernel);
  forced ← ask (k_monotonic kernel);
  cleanup_loop group primary (started + CLEANUP_TIMEOUT_SECONDS)%Q (forced + (1 # 4))%Q fuel
    {| cl_observed := observed; cl_unexpected := false; cl_force := false |}.

(** [_exit_code] *)
Definition exit_code (return_code : Z) : Z :=
  if 0 <=? return_code then Z.min return_code 255 else Z.min (128 + Z.abs return_code) 255.

(** What a cleanup means for the exit code of the host *)
Definition after_cleanup (cleanup : M HostExc HostState bool) (clean : Z) : M HostExc HostState Z :=
  handle (had_descendants ← cleanup; mret (if had_descendants : bool then HOST_DESCENDANT_REAPED else clean))
    (fun e => match e with HostError _ => Some (mret HOST_CLEANUP_FAILURE) | _ => None end).

(** [_run_target] *)
Definition run_target (fuel : nat) (argv : list string) : M HostExc HostState Z :=
  spawned ← ask (fun n => k_spawn kernel n argv);
  note (Spawned argv spawned);;
  match spawned with
  | None => raise OsFault
  | Some pid =>
      ended ← ask (k_wait kernel);
      note (TargetEnded ended);;
      match ended with
      | None => after_cleanup (cleanup_linux_target fuel pid (Some pid)) HOST_TERMINATED_CLEAN
      | Some return_code => after_cleanup (cleanup_linux_target fuel pid None) (exit_code return_code)
      end
  end.

(** [_establish_linux_subreaper] *)
Definition establish_linux_subreaper : M HostExc HostState unit :=
  inspectable ← ask (k_proc_self kernel);
  ensure inspectable (HostError "Linux process inspection is unavailable");;
  found ← ask (k_prctl_found kernel);
  ensure found (HostError "Linux prctl subreaper is unavailable");;
  set ← ask (k_prctl_set kernel);
  ensure (set =? 0) (HostError "Linux subreaper setup failed");;
  '(got, enabled) ← ask (k_prctl_get kernel);
  ensure ((got =? 0) && (enabled =? 1)) (HostError "Linux subreaper verification failed").

(** [main] *)
Definition main (fuel : nat) : M HostExc HostState Z :=
  handle (establish_linux_subreaper;; argv ← read_payload; run_target fuel argv)
    (fun e => match e with
              | TerminationRequested => Some (mret (128 + SIGTERM))
              | HostError _ | OsFault => Some (mret HOST_SETUP_FAILURE)
              | NoFuel => None
              end).
End host.

(** ** The parent *)

(** [ContainmentOutcome]: had descendants, cleanup verified *)
Record ContainmentOutcome := { had_descendants : bool; cleanup_verified : bool; outcome_reason : option string }.

(** [_linux_host_outcome] *)
Definition linux_host_outcome (return_code : option Z) : ContainmentOutcome :=
  match return_code with
  | None => {| had_descendants := true; cleanup_verified := false;
               outcome_reason := Some "Linux strict host exited without descendant verification" |}
  | Some code =>
      if code <? 0
      then {| had_descendants := true; cleanup_verified := false;
              outcome_reason := Some "Linux strict host exited without descendant verification" |}
      else if (code =? 128 + SIGINT) || (code =? 128 + SIGTERM)
      then {| had_descendants := true; cleanup_verified := false;
              outcome_reason := Some "Linux strict host cleanup was interrupted by a signal" |}
      else if code =? HOST_DESCENDANT_REAPED
      then {| had_descendants := true; cleanup_verified := true; outcome_reason := None |}
      else if code =? HOST_CLEANUP_FAILURE
      then {| had_descendants := true; cleanup_verified := false;
              outcome_reason := Some "Linux strict host descendant cleanup failed" |}
      else if code =? HOST_SETUP_FAILURE
      then {| had_descendants := false; cleanup_verified := false;
              outcome_reason := Some "strict containment host setup failed" |}
      else {| had_descendants := false; cleanup_verified := true; outcome_reason := None |}
  end.

(** ** The payload arrives as it was sent *)

Lemma loads_payload argv : loads (dumps true (JObj [("argv", JList (map JStr argv))])) = Some (JObj [("argv", JList (map JStr argv))]).
Proof.
  rewrite loads_dumps.
  - cbn. do 5 f_equal. rewrite map_map. by apply map_ext.
  - constructor; [apply NoDup_singleton|]. constructor; [|constructor]. cbn. constructor.
    apply Forall_forall. intros j (s & -> & _)%list_elem_of_fmap. constructor.
Qed.

Lemma mapM_arguments argv : mapM argument_of (map JStr argv) = Some argv.
Proof. induction argv as [|a argv IH]; [done|]. cbn. by rewrite IH. Qed.

(** What the parent sends of a valid argv, the host runs: the payload is read back as the same argv.  And
    whatever the host is sent, it accepts only a bounded argv of bounded, non-empty arguments without NUL. *)
Theorem payload_round_trip argv text : payload_of argv = Some text ->
  argv <> [] -> Z.of_nat (length argv) <= MAX_ARGUMENT_COUNT -> Forall (fun a => bad_argument a = false) argv ->
  decode_payload text = Ok argv /\
  forall raw accepted, decode_payload raw = Ok accepted ->
    str_length raw <= MAX_PAYLOAD_BYTES /\ accepted <> [] /\ Z.of_nat (length accepted) <= MAX_ARGUMENT_COUNT /\
    Forall (fun a => bad_argument a = false) accepted.
Proof.
  intros Hp Hne Hlen Hok. split.
  - assert (Htext : text = dumps true (JObj [("argv", JList (map JStr argv))]) /\ (MAX_PAYLOAD_BYTES <? str_length text) = false).
    { unfold payload_of in Hp. case_match eqn:Hsz; [done|]. injection Hp as <-. done. }
    destruct Htext as [-> Hsz]. unfold decode_payload. rewrite Hsz, loads_payload. change (has_exactly _ _) with true. cbn [negb].
    change (member "argv" _) with (JList (map JStr argv)). cbv iota.
    rewrite bool_decide_false by (by destruct argv). rewrite length_map. rewrite (proj2 (Z.ltb_ge _ _)) by lia. cbn [orb].
    rewrite mapM_arguments. destruct (existsb bad_argument argv) eqn:He; [|done].
    apply existsb_exists in He as (a & Ha & Hbad). rewrite Forall_forall in Hok. rewrite Hok in Hbad; [done|]. by apply list_elem_of_In.
  - intros raw accepted H. unfold decode_payload in H.
    destruct (Z.ltb_spec MAX_PAYLOAD_BYTES (str_length raw)); [done|]. repeat case_match; try done.
    simplify_eq. split_and!; [lia| | |].
    + intros ->. apply length_mapM in H6 as Hl. apply orb_false_iff in H5 as [Hb _]. apply bool_decide_eq_false in Hb. by destruct l.
    + apply length_mapM in H6 as Hl. apply orb_false_iff in H5 as [_ Hb]. lia.
    + apply Forall_forall. intros a Ha. destruct (bad_argument a) eqn:Hbad; [|done].
      assert (existsb bad_argument accepted = true); [|congruence]. apply existsb_exists. exists a. by split; [apply list_elem_of_In|].
Qed.

(** ** What the exit code of the host stands for *)

(** The last thing seen was that nothing is left. *)
Definition quiet_end (evs : list HostEvent) : Prop := exists seen, evs = seen ++ [Snapshot []].

(** Nothing but looking: no process had to be signalled. *)
Definition undisturbed (evs : list HostEvent) : Prop := Forall (fun e => exists l, e = Snapshot l) evs.

Lemma quiet_end_app l evs : quiet_end evs -> quiet_end (l ++ evs).
Proof. intros [seen ->]. exists (l ++ seen). by rewrite app_assoc. Qed.

Section host_proofs.
Context (kernel : Kernel).

Lemma ask_ok {A} (f : nat -> A) s a s' : ask f s = (Ok a, s') -> h_log s' = h_log s /\ a = f (h_turn s).
Proof. by intros [= <- <-]. Qed.

Lemma note_ok e s u s' : note e s = (Ok u, s') -> h_log s' = h_log s ++ [e].
Proof. by intros [= _ <-]. Qed.

Lemma reap_ok fuel : forall s u s', reap_adopted_children kernel fuel s = (Ok u, s') -> h_log s' = h_log s.
Proof.
  induction fuel as [|fuel IH]; intros s u s' H; [done|]. cbn [reap_adopted_children] in H. inv_run H.
  apply ask_ok in Hr as [Hl _]. rewrite <- Hl. destruct a as [pid|]; [|by inv_run H].
  destruct (pid =? 0); [by inv_run H|]. by eapply IH.
Qed.

Lemma descendants_now_ok s found s' : descendants_now kernel s = (Ok found, s') -> h_log s' = h_log s ++ [Snapshot found].
Proof.
  intros H. unfold descendants_now in H. inv_run H. apply ask_ok in Hr as [<- _].
  destruct (linux_process_table a); [|done]. destruct (linux_descendants _ _); [|done]. inv_run H.
  by apply note_ok in Hr.
Qed.

Lemma group_exists_ok group s b s' : process_group_exists kernel group s = (Ok b, s') -> h_log s' = h_log s.
Proof.
  intros H. unfold process_group_exists in H. inv_run H. apply ask_ok in Hr as [<- _].
  destruct a; by inv_run H.
Qed.

(** Signals are only added to the log. *)
Lemma signal_group_ok group signal s b s' : signal_process_group kernel group signal s = (Ok b, s') ->
  exists evs, h_log s' = h_log s ++ evs.
Proof.
  intros H. unfold signal_process_group in H. inv_run H. apply ask_ok in Hr as [<- _]. apply note_ok in Hr0.
  destruct a; inv_run H; eauto.
Qed.

Lemma signal_all_ok signal l : forall s u s',
  for_each (fun _ r => _ ← signal_process kernel (process_id r) signal; mret tt) tt l s = (Ok u, s') ->
  exists evs, h_log s' = h_log s ++ evs.
Proof.
  induction l as [|r l IH]; intros s u s' H; cbn [for_each] in H.
  - inv_run H. exists []. by rewrite app_nil_r.
  - apply bind_ok in H as ([] & s1 & H1 & H). apply IH in H as [evs ->]. inv_run H1. unfold signal_process in Hr. inv_run Hr.
    apply ask_ok in Hr0 as [Hl _]. apply note_ok in Hr1. rewrite Hl in Hr1. destruct a0; inv_run Hr; rewrite Hr1, <- app_assoc; eauto.
Qed.

Lemma map_nil_inv {A B} (f : A -> B) l : map f l = [] -> l = [].
Proof. by destruct l. Qed.

Lemma cleanup_loop_ok group primary deadline force_after fuel : forall v s b s',
  cleanup_loop kernel group primary deadline force_after fuel v s = (Ok b, s') ->
  exists evs, h_log s' = h_log s ++ evs /\ quiet_end evs /\
    (primary = None -> cl_observed v || cl_unexpected v = true -> b = true) /\
    (primary = None -> b = false -> undisturbed evs).
Proof.
  induction fuel as [|fuel IH]; intros v s b s' H; [done|]. cbn [cleanup_loop] in H.
  apply bind_ok in H as (u & s1 & H1 & H). apply reap_ok in H1.
  apply bind_ok in H as (found & s2 & H2 & H). apply descendants_now_ok in H2. rewrite H1 in H2.
  apply bind_ok in H as (group_exists & s3 & H3 & H). apply group_exists_ok in H3. rewrite H2 in H3.
  set (live := live_descendants primary found) in *. set (unexpected := cl_unexpected v || negb (bool_decide (map process_id live = []))) in *.
  destruct (bool_decide (map process_id live = []) && negb group_exists) eqn:Hend.
  - apply andb_prop in Hend as [Hlive%bool_decide_eq_true%map_nil_inv Hgroup].
    assert (Hun : unexpected = cl_unexpected v) by (unfold unexpected; rewrite Hlive; by rewrite orb_false_r).
    apply bind_ok in H as (u4 & s4 & H4 & H). apply reap_ok in H4. rewrite H3 in H4.
    apply bind_ok in H as (left & s5 & H5 & H). apply descendants_now_ok in H5. rewrite H4, <- app_assoc in H5.
    destruct (bool_decide (map process_id left = [])) eqn:Hleft.
    + apply bool_decide_eq_true, map_nil_inv in Hleft as ->. inv_run H.
      exists [Snapshot found; Snapshot []]. split_and!; [done|by exists [Snapshot found]| |].
      * intros ->. rewrite bool_decide_true by done. rewrite Hun. by destruct (cl_observed v).
      * intros _ _. repeat constructor; eauto.
    + apply IH in H as (evs & Hl & Hq & Hb & Hu). cbn in Hb. rewrite Hun in *.
      exists ([Snapshot found; Snapshot left] ++ evs). split_and!.
      * by rewrite Hl, H5, <- app_assoc.
      * by apply quiet_end_app.
      * done.
      * intros Hp Hf. apply Forall_app. split; [|by apply Hu]. repeat constructor; eauto.
  - apply bind_ok in H as (now & s4 & H4 & H). apply ask_ok in H4 as [H4 _]. rewrite H3 in H4.
    apply bind_ok in H as (u5 & s5 & H5 & H).
    assert (H5' : exists evs, h_log s5 = h_log s4 ++ evs).
    { destruct group_exists; [|inv_run H5; exists []; by rewrite app_nil_r]. inv_run H5. by eapply signal_group_ok. }
    destruct H5' as [evs5 H5']. apply bind_ok in H as (u6 & s6 & H6 & H). destruct (signal_all_ok _ _ _ _ _ H6) as [evs6 H6'].
    apply bind_ok in H as (u7 & s7 & H7 & H). inv_run H7. apply IH in H as (evs & Hl & Hq & Htrue & Hu). cbn [cl_observed cl_unexpected] in Htrue.
    exists ([Snapshot found] ++ evs5 ++ evs6 ++ evs). split_and!.
    + by rewrite Hl, H6', H5', H4, <- !app_assoc.
    + by repeat apply quiet_end_app.
    + intros Hp _. apply Htrue; [done|]. by rewrite bool_decide_true.
    + intros Hp ->. specialize (Htrue Hp). rewrite bool_decide_true in Htrue by done. by specialize (Htrue eq_refl).
Qed.

Lemma cleanup_target_ok fuel group primary s b s' : cleanup_linux_target kernel fuel group primary s = (Ok b, s') ->
  exists evs, h_log s' = h_log s ++ evs /\ quiet_end evs /\ (primary = None -> b = false -> undisturbed evs).
Proof.
  intros H. unfold cleanup_linux_target in H. apply bind_ok in H as (observed & s1 & H1 & H). apply group_exists_ok in H1.
  apply bind_ok in H as (u & s2 & H2 & H). inv_run H. apply ask_ok in Hr as [Hl _]. apply ask_ok in Hr0 as [Hl0 _].
  apply cleanup_loop_ok in H as (evs & Hl1 & Hq & Hb & Hu). cbn in Hb.
  destruct observed; inv_run H2.
  - apply signal_group_ok in Hr as [evs0 Hr]. exists (evs0 ++ evs). rewrite Hl1, Hl0, Hl, Hr, H1, <- app_assoc.
    split_and!; [done|by apply quiet_end_app|]. intros Hp ->. by specialize (Hb Hp eq_refl).
  - exists evs. rewrite Hl1, Hl0, Hl, H1. by split_and!.
Qed.

Lemma after_cleanup_ok cleanup clean s code s' : after_cleanup cleanup clean s = (Ok code, s') -> code <> HOST_CLEANUP_FAILURE ->
  exists b, cleanup s = (Ok b, s') /\ code = if b : bool then HOST_DESCENDANT_REAPED else clean.
Proof.
  intros H Hc. unfold after_cleanup in H. apply handle_ok in H as [H|(e & k & s1 & _ & Hk & H)].
  - inv_run H. eauto.
  - destruct e; try done. injection Hk as <-. by inv_run H.
Qed.

Lemma run_target_ok fuel argv s code s' : run_target kernel fuel argv s = (Ok code, s') -> code <> HOST_CLEANUP_FAILURE ->
  exists pid ended evs, h_log s' = h_log s ++ [Spawned argv (Some pid); TargetEnded ended] ++ evs /\
    quiet_end evs /\ (code = 0 -> ended = Some 0 /\ undisturbed evs).
Proof.
  intros H Hc. unfold run_target in H. inv_run H. apply ask_ok in Hr as [Hl1 _]. apply note_ok in Hr0.
  destruct a as [pid|]; [|done]. inv_run H. apply ask_ok in Hr as [Hl2 _]. apply note_ok in Hr1.
  rewrite Hl2, Hr0, Hl1, <- app_assoc in Hr1. exists pid, a. destruct a as [rc|].
  all: apply after_cleanup_ok in H as (b & H & ->); [|done].
  all: apply cleanup_target_ok in H as (evs & Hl & Hq & Hu); rewrite Hr1, <- app_assoc in Hl.
  all: exists evs; split_and!; [done|done|]; destruct b; [done|]; intros Hzero.
  - split; [|by apply Hu]. f_equal. unfold exit_code in Hzero. destruct (Z.leb_spec 0 rc); lia.
  - done.
Qed.

Lemma establish_log s u s' : establish_linux_subreaper kernel s = (Ok u, s') -> h_log s' = h_log s.
Proof.
  intros H. unfold establish_linux_subreaper in H. inv_run H. destruct a3 as [got enabled]. inv_run H.
  repeat match goal with Ha : ask _ _ = (Ok _, _) |- _ => apply ask_ok in Ha as [Ha _] end. congruence.
Qed.

(** C21. The exit code of the host can be trusted: a code that the parent takes as verified is only given after the
    target was started with the argv of the payload and has ended, and after a last look that found nothing
    left below the host; and code 0 means that the target itself returned 0 and that nothing it left behind had to be
    signalled. *)
Theorem strict_host_verified fuel s code s' : main kernel fuel s = (Ok code, s') ->
  cleanup_verified (linux_host_outcome (Some code)) = true ->
  exists argv pid ended evs,
    h_log s' = h_log s ++ [Spawned argv (Some pid); TargetEnded ended] ++ evs /\
    (exists n text, k_read kernel n = Some text /\
       decode_payload (of_chars (take (Z.to_nat (MAX_PAYLOAD_BYTES + 1)) (to_chars text))) = Ok argv) /\
    quiet_end evs /\ (code = 0 -> ended = Some 0 /\ undisturbed evs).
Proof.
  intros H Hv. unfold main in H. apply handle_ok in H as [H|(e & k & s1 & _ & Hk & H)].
  2: { destruct e; try done; injection Hk as <-; inv_run H; done. }
  apply bind_ok in H as (u & s1 & H1 & H). apply establish_log in H1.
  apply bind_ok in H as (argv & s2 & H2 & H). unfold read_payload in H2. inv_run H2. apply ask_ok in Hr as [Hl2 Hread].
  destruct a as [text|]; [|done]. inv_run H2.
  assert (Hc : code <> HOST_CLEANUP_FAILURE) by (by intros ->).
  destruct (run_target_ok _ _ _ _ _ H Hc) as (pid & ended & evs & Hlog & Hq & Hz). rewrite Hl2, H1 in Hlog.
  exists argv, pid, ended, evs. split_and!; [done| |done|done]. eauto.
Qed.
End host_proofs.

(** ** A host at work *)

(** The processes of a host with number 10, and what the target left *)
Definition entry (pid parent group : Z) (st : string) : string * StatRead :=
  (str_of_int pid, StatText (stat_line pid "python (worker)" st parent group "0")).

Definition quiet_listing : ProcListing := [entry 1 0 1 "S"; entry 10 1 10 "S"; ("self", Unreadable)].

Definition sample_kernel (listing : nat -> option ProcListing) (ended : option Z) : Kernel :=
  {| k_own_pid := 10; k_proc_self := fun _ => true; k_prctl_found := fun _ => true; k_prctl_set := fun _ => 0; k_prctl_get := fun _ => (0, 1); k_read := fun _ => payload_of ["python"; "-m"; "pytest"];
     k_spawn := fun _ _ => Some 20; k_wait := fun _ => ended; k_waitpid := fun _ => None; k_listing := listing;
     k_killpg := fun _ _ _ => NoSuchProcess; k_kill := fun _ _ _ => Delivered; k_monotonic := fun n => (Z.of_nat n # 100)%Q |}.

Definition fresh_host : HostState := {| h_turn := 0; h_log := [] |}.

Lemma strict_host_verified_witness :
  let kernel := sample_kernel (fun _ => Some quiet_listing) (Some 0) in
  exists argv pid ended evs,
    h_log (main kernel 4 fresh_host).2 = [] ++ [Spawned argv (Some pid); TargetEnded ended] ++ evs /\
    (exists n text, k_read kernel n = Some text /\
       decode_payload (of_chars (take (Z.to_nat (MAX_PAYLOAD_BYTES + 1)) (to_chars text))) = Ok argv) /\
    quiet_end evs /\ (0 = 0 -> ended = Some 0 /\ undisturbed evs).
Proof.
  intros kernel. apply (strict_host_verified kernel 4 fresh_host 0 (main kernel 4 fresh_host).2); vm_compute; reflexivity.
Defined.

Lemma payload_round_trip_witness :
  let argv := ["python"; "-m"; "pytest"] in
  let text := dumps true (JObj [("argv", JList (map JStr argv))]) in
  decode_payload text = Ok argv /\
  forall raw accepted, decode_payload raw = Ok accepted ->
    str_length raw <= MAX_PAYLOAD_BYTES /\ accepted <> [] /\ Z.of_nat (length accepted) <= MAX_ARGUMENT_COUNT /\
    Forall (fun a => bad_argument a = false) accepted.
Proof.
  intros argv text. apply (payload_round_trip argv text); [vm_compute; reflexivity|done|vm_compute; discriminate|].
  repeat constructor; vm_compute; reflexivity.
Defined.

(** A background process that the target left is killed and reported. *)
Example descendant_reported :
  let listing n := Some (if (n <? 13)%nat then entry 30 10 30 "S" :: quiet_listing else quiet_listing) in
  (main (sample_kernel listing (Some 0)) 8 fresh_host).1 = Ok HOST_DESCENDANT_REAPED.
Proof. vm_compute. reflexivity. Qed.

(** A process that only the last look sees alive, and that ends by itself, is not reported. *)
Example late_descendant_unreported :
  let listing n := Some (if (n =? 14)%nat then entry 30 10 30 "S" :: quiet_listing else quiet_listing) in
  let run := main (sample_kernel listing (Some 0)) 8 fresh_host in
  run.1 = Ok 0 /\
  existsb (fun e => match e with Snapshot l => negb (bool_decide (map process_id (live_descendants None l) = [])) | _ => false end)
    (h_log run.2) = true.
Proof. vm_compute. auto. Qed.
