(* ===== verification/Runner.v ===== *)
(** * Running one step

    [client/python/execution_worker/runner.py], with the POSIX part of [containment.py]: the
    environment and the argv of a reviewed command, its start, the loop that watches it, its
    termination with its process group, the proof that nothing of it is left, and the bounded,
    redacted result.

    What the operating system answers is the record [Os], a function of the number of answers
    so far, so that a theorem for every [Os] is one for every sequence of answers; what the runner
    does is logged with the answer.  Times are exact here, [round64] of a sum apart.  Log files are
    ASCII text.  The Windows branches are not modelled. *)

From S2P Require Import Prelude Text Json Enums Evidence Floats JsonCodec Documents Registry Checks Parsers WorkerContracts WorkerModels WorkerConfig WorkerPolicy LocalWorker Files ProcessTable ContainedHost.
From Stdlib Require Import QArith.
#[local] Open Scope Z_scope.

(** ** Redaction and summaries *)

(** A character that is neither a space nor a quote *)
Definition path_char (c : ascii) : bool := negb (is_space c || one_of [34; 39] c).

(** [\b] before a letter: the character before is not a word character. *)
Definition word_char (c : ascii) : bool := is_alnum c || (ord c =? 95).
Definition at_word_start (prev : option ascii) : bool := match prev with Some c => negb (word_char c) | None => true end.

(** [_WINDOWS_ABSOLUTE_PATH]: the rest after a match *)
Definition WINDOWS_ABSOLUTE_PATH (prev : option ascii) (l : list ascii) : option (list ascii) :=
  match l with
  | letter :: colon :: slash :: c :: rest =>
      if at_word_start prev && (is_upper letter || is_lower letter) && (ord colon =? 58) && one_of [92; 47] slash && path_char c
      then Some (span path_char rest).2 else None
  | _ => None
  end.

(** [_POSIX_ABSOLUTE_PATH] *)
Definition POSIX_ABSOLUTE_PATH (prev : option ascii) (l : list ascii) : option (list ascii) :=
  match l with
  | slash :: c :: rest =>
      if (ord slash =? 47) && path_char c && negb (match prev with Some p => is_alnum p || (ord p =? 58) | None => false end)
      then Some (span path_char rest).2 else None
  | _ => None
  end.

(** [(?i)swb_w1\.[A-Za-z0-9.]*] *)
Definition WORKER_TOKEN (prev : option ascii) (l : list ascii) : option (list ascii) :=
  if starts_with (to_chars "swb_w1.") (map char_lower l) then Some (span (fun c => is_alnum c || (ord c =? 46)) (drop 7 l)).2 else None.

(** The pattern of a literal text that is not empty *)
Definition LITERAL (text : list ascii) (prev : option ascii) (l : list ascii) : option (list ascii) :=
  if starts_with text l then Some (drop (length text) l) else None.

Definition sub (pattern : option ascii -> list ascii -> option (list ascii)) (marker : string) (l : list ascii) : list ascii :=
  substitute pattern (to_chars marker) (length l) None l.

(** [_redact] *)
Definition redact (config : WorkerConfig) (value : list ascii) : list ascii :=
  let value := sub WORKER_TOKEN "[REDACTED]" value in
  let value := foldl (fun value text => if bool_decide (text = "") then value else sub (LITERAL (to_chars text)) "[REDACTED]" value)
                 value (cf_worker_token config :: cf_redacted_value_patterns config) in
  sub POSIX_ABSOLUTE_PATH "[LOCAL_PATH]" (sub WINDOWS_ABSOLUTE_PATH "[LOCAL_PATH]" value).

(** [_summary] of a log with this content *)
Definition summary_of (config : WorkerConfig) (limit : Z) (content : string) : string * bool :=
  let lookahead := foldl Z.max 0 (map str_length (cf_worker_token config :: cf_redacted_value_patterns config)) in
  let data := take (Z.to_nat (limit + lookahead)) (to_chars content) in
  (of_chars (take (Z.to_nat limit) (redact config data)), limit <? str_length content).

(** [key.upper()] *)
Definition upper (s : string) : string := of_chars (map (fun c => if is_lower c then chr (ord c - 32) else c) (to_chars s)).

(** A dict of texts *)
Notation Environment := (list (string * string)).

Fixpoint env_set (k v : string) (d : Environment) : Environment :=
  match d with
  | [] => [(k, v)]
  | (k', v') :: d' => if bool_decide (k = k') then (k, v) :: d' else (k', v') :: env_set k v d'
  end.

(** [environment_summary] *)
Definition environment_summary (config : WorkerConfig) (environment : Environment) : list (string * string) :=
  map (fun key => (key, if existsb (fun pattern => str_contains (upper pattern) (upper key)) (cf_redacted_key_patterns config)
                        then "[REDACTED]" else "[SET]"))
    (sort_strings (map fst environment)).

(** The environment of the command: what may be inherited, then what the step sets *)
Definition step_environment (environ : string -> option string) (config : WorkerConfig) (step : TrustedStep)
    (allowed_inherited_environment_keys : option (list string)) : Environment :=
  let keys := match allowed_inherited_environment_keys with
              | Some allowed => filter (fun key => key ∈ allowed) (cf_inherited_environment_keys config)
              | None => cf_inherited_environment_keys config
              end in
  let inherited := foldl (fun d key => match environ key with Some v => env_set key v d | None => d end) [] keys in
  foldl (fun d kv => env_set kv.1 kv.2 d) inherited (ts_environment step).

(** [_runtime_argv] *)
Definition runtime_argv (executable : string) (argv : list string) : list string :=
  match argv with
  | first :: rest => if bool_decide (first = "python") then executable :: rest else argv
  | [] => argv
  end.

(** ** The operating system *)

Record Os := {
  o_executable : string;
  o_host_script : string;
  o_environ : string -> option string;
  (** [sys.platform.startswith("linux")], and whether the host script is there *)
  o_linux : bool;
  o_script_present : nat -> bool;
  o_monotonic : nat -> Q;
  o_now : nat -> Z;
  (** The float that is nearest *)
  o_float : Q -> PyFloat;
  (** The reason, once the run was cancelled *)
  o_cancelled : nat -> option string;
  o_guard : nat -> Result Exc unit;
  o_resolve_cwd : nat -> Result Exc path;
  o_resolve_checkout : nat -> Result Exc path;
  o_mkdir : nat -> Result Exc unit;
  o_open_logs : nat -> Result Exc unit;
  o_popen : nat -> list string -> Result Exc Z;
  o_write_payload : nat -> Result Exc unit;
  (** The return code of a child that has ended; [o_wait]: within the timeout *)
  o_poll : nat -> option Z;
  o_wait : nat -> option Z;
  o_killpg : nat -> Z -> SignalAnswer;
  o_kill : nat -> SignalAnswer;
  o_listing : nat -> option ProcListing;
  (** [_directory_size] of the logs, and of the directory of the run *)
  o_logs_size : nat -> Result Exc Z;
  o_run_size : nat -> Result Exc Z;
  (** The content of the log of standard error, or output *)
  o_log : nat -> bool -> Result Exc string;
  o_output : nat -> Output;
}.

Inductive StepEvent :=
| Guarded (answer : Result Exc unit)
| Launched (argv : list string) (environment : Environment) (strict : bool)
| Ended (code : Z)
| Signalled (signal : Z) (answer : SignalAnswer)
| GroupSeen (alive : bool)
| Sized (logs : bool) (answer : Result Exc Z)
| ReadLog (stderr : bool)
| Parsed.

Record StepState := { s_turn : nat; s_returncode : option Z; s_log : list StepEvent }.
#[export] Instance StepState_rebuild : Rebuild StepState := fun s =>
  {| s_turn := s_turn s; s_returncode := s_returncode s; s_log := s_log s |}.

Definition PermissionError : Exc := OSError "PermissionError".
(** Raised by the model when it has run out of turns *)
Definition NoTurns : Exc := OtherError "" false false "".
Definition ContainmentLaunchError (message : string) : Exc := OtherError "ContainmentLaunchError" false false message.

Section runner.
Context (os : Os).

Definition ask {A} (f : nat -> A) : M Exc StepState A := fun s => (Ok (f (s_turn s)), s <| s_turn := S (s_turn s) |>).
Definition note (e : StepEvent) : M Exc StepState unit := fun s => (Ok tt, s <| s_log := s_log s ++ [e] |>).

(** A call that may raise, noted with its answer *)
Definition answer_of {A} (f : nat -> Result Exc A) (event : Result Exc A -> StepEvent) : M Exc StepState A :=
  answer ← ask f; note (event answer);; lift_result answer.

(** ** The child process *)

(** The child has ended with this code. *)
Definition set_returncode (code : Z) : M Exc StepState unit := fun s =>
  (Ok tt, s <| s_returncode := Some code |> <| s_log := s_log s ++ [Ended code] |>).

(** [process.poll()] and [process.wait(timeout)]: whether it has ended *)
Definition look (f : nat -> option Z) : M Exc StepState bool :=
  known ← gets s_returncode;
  match known with
  | Some _ => mret true
  | None =>
      answer ← ask f;
      match answer with Some code => set_returncode code;; mret true | None => mret false end
  end.
Definition poll : M Exc StepState bool := look (o_poll os).
Definition wait_for_parent : M Exc StepState bool := look (o_wait os).

(** [_signal_process_group]: false when the group is gone *)
Definition signal_process_group (signal : Z) : M Exc StepState bool :=
  answer ← ask (fun n => o_killpg os n signal);
  note (Signalled signal answer);;
  match answer with Delivered => mret true | NoSuchProcess => mret false | Refused => raise PermissionError end.

Definition is_live (member : Z * string) : bool := negb (bool_decide (member.2 ∈ LINUX_TERMINAL_PROCESS_STATES)).

(** Members with their states, in order *)
Definition member_le (a b : Z * string) : Prop := a.1 <= b.1.
#[local] Instance member_le_dec : RelDecision member_le.
Proof. intros a b. unfold member_le. apply _. Defined.
Definition members_text (members : list (Z * string)) : string :=
  join "," (map (fun m => str_of_int m.1 +:+ ":" +:+ m.2) (merge_sort member_le members)).

(** What signal 0 tells of the group *)
Definition probe_group (pid : Z) : M Exc StepState (bool * string) :=
  alive ← signal_process_group 0;
  mret (alive, if alive : bool then "pgid=" +:+ str_of_int pid +:+ " membership remains (states unavailable)"
               else "pgid=" +:+ str_of_int pid +:+ " members=none").

(** [_process_group_observation] *)
Definition process_group_observation (pid : Z) : M Exc StepState (bool * string) :=
  listing ← ask (o_listing os);
  seen ← match linux_process_group_members listing pid with
         | Some [] | None => probe_group pid
         | Some members =>
             let live := filter (fun m => is_live m = true) members in
             let terminal := filter (fun m => is_live m = false) members in
             mret (negb (bool_decide (live = [])),
                   join " " (["pgid=" +:+ str_of_int pid]
                             ++ (if bool_decide (live = []) then [] else ["live=" +:+ members_text live])
                             ++ (if bool_decide (terminal = []) then [] else ["terminal=" +:+ members_text terminal])))
         end;
  note (GroupSeen seen.1);;
  mret seen.

(** [_wait_for_process_group_exit] *)
Fixpoint group_exit_loop (fuel : nat) (pid : Z) (deadline : Q) : M Exc StepState unit :=
  match fuel with
  | O => raise NoTurns
  | S fuel' =>
      '(alive, details) ← process_group_observation pid;
      if negb alive then mret tt
      else
        now ← ask (o_monotonic os);
        ensure (negb (Qle_bool deadline now)) (RuntimeError ("POSIX descendant process termination failed (" +:+ details +:+ ")"));;
        group_exit_loop fuel' pid deadline
  end.
Definition wait_for_process_group_exit (fuel : nat) (pid : Z) (grace_seconds : Q) : M Exc StepState unit :=
  now ← ask (o_monotonic os); group_exit_loop fuel pid (now + grace_seconds)%Q.

Definition GRACE_SECONDS : Q := 2.

(** [_terminate_posix] *)
Definition terminate_posix (fuel : nat) (pid : Z) : M Exc StepState unit :=
  there ← signal_process_group SIGTERM;
  if negb there then mret tt
  else
    ended ← wait_for_parent;
    (if ended : bool then mret tt
     else
       _ ← signal_process_group SIGKILL;
       killed ← wait_for_parent;
       ensure killed (RuntimeError "POSIX parent process termination failed"));;
    '(alive, _) ← process_group_observation pid;
    if negb alive then mret tt
    else
      there ← (if ended : bool then signal_process_group SIGKILL else mret true);
      if negb there then mret tt else wait_for_process_group_exit fuel pid GRACE_SECONDS.

(** [StrictHostProcess.terminate] *)
Definition strict_terminate : M Exc StepState unit :=
  ended ← poll;
  if ended : bool then mret tt
  else
    answer ← ask (fun n => o_killpg os n SIGTERM);
    note (Signalled SIGTERM answer);;
    match answer with
    | NoSuchProcess => mret tt
    | Refused => raise ContainmentCleanupError
    | Delivered =>
        ended ← wait_for_parent;
        if ended : bool then mret tt
        else
          answer ← ask (fun n => o_killpg os n SIGKILL);
          note (Signalled SIGKILL answer);;
          match answer with
          | Delivered => killed ← wait_for_parent; ensure killed ContainmentCleanupError
          | _ => raise ContainmentCleanupError
          end
    end.

(** [_terminate_active_step] *)
Definition terminate_active_step (fuel : nat) (pid : Z) (strict : bool) : M Exc StepState bool :=
  handle ((if strict then strict_terminate else terminate_posix fuel pid);; mret true)
    (fun e => if is_os_error e || is_runtime_error e then Some (mret false) else None).

(** [_reap_unexpected_descendants_after_exit] *)
Definition reap_unexpected_descendants_after_exit (fuel : nat) (pid : Z) : M Exc StepState bool :=
  '(alive, _) ← process_group_observation pid;
  if negb alive then mret false else terminate_posix fuel pid;; mret true.

(** ** Launch *)

(** [StrictHostProcess.abandon_after_launch_failure] *)
Definition abandon_after_launch_failure : M Exc StepState unit :=
  answer ← ask (o_kill os);
  note (Signalled SIGKILL answer);;
  _ ← wait_for_parent; mret tt.

(** [launch_strict_host] *)
Definition launch_strict_host (argv : list string) (environment : Environment) : M Exc StepState Z :=
  ensure (o_linux os) (ContainmentLaunchError "strict process containment is unsupported");;
  present ← ask (o_script_present os);
  ensure present (ContainmentLaunchError "trusted strict host script is unavailable");;
  payload ← require (payload_of argv) (ContainmentLaunchError "strict host payload exceeds its input limit");
  pid ← handle (ask (fun n => o_popen os n [o_executable os; "-I"; "-u"; o_host_script os]) ≫= lift_result)
          (fun e => if is_os_error e then Some (raise (ContainmentLaunchError "strict host launch failed")) else None);
  written ← ask (o_write_payload os);
  match written with
  | Err _ => abandon_after_launch_failure;; raise (ContainmentLaunchError "strict host rejected its payload")
  | Ok _ => note (Launched argv environment true);; mret pid
  end.

(** The start of the command *)
Definition launch (strict : bool) (argv : list string) (environment : Environment) : M Exc StepState Z :=
  if strict then launch_strict_host argv environment
  else
    answer ← ask (fun n => o_popen os n argv);
    pid ← lift_result answer;
    note (Launched argv environment false);; mret pid.

(** ** The step *)

Section step.
Context (fuel : nat) (step : TrustedStep) (config : WorkerConfig) (deadline : Seconds) (cancellable : bool).
Context (result_contract : option (list (string * Json))) (strict_containment guarded : bool).

(** [cancellation is not None and cancellation.cancelled], with the reason *)
Definition cancelled : M Exc StepState (option string) := if cancellable then ask (o_cancelled os) else mret None.

(** [checkout_guard()], where there is one *)
Definition guard : M Exc StepState unit := if guarded then answer_of (o_guard os) Guarded else mret tt.

Section started.
Context (pid : Z) (environment : Environment) (started : Q) (started_at : Z).

Definition log_name (stderr : bool) : string := ts_id step +:+ (if stderr then ".stderr.log" else ".stdout.log").

(** [time.monotonic() - started] *)
Definition duration : M Exc StepState PyFloat := now ← ask (o_monotonic os); mret (o_float os (now - started)%Q).

Definition read_log (limit : Z) (stderr : bool) : M Exc StepState (string * bool) :=
  content ← answer_of (fun n => o_log os n stderr) (fun _ => ReadLog stderr);
  mret (summary_of config limit content).

Definition parser_kind_of (kind : string) : option ParserKind :=
  List.find (fun p => bool_decide (parser_value p = kind))
    [P_PYTEST; P_COVERAGE; P_PYTEST_COVERAGE; P_SECURITY_AUDIT; P_DEPENDENCY_AUDIT; P_DEPENDENCY_HEALTH;
     P_CRITICAL_COVERAGE; P_SECRET_SCAN; P_QUALITY_SUMMARY_V1].

(** The call of [parse_result]; an unknown kind makes the failed result itself invalid. *)
Definition parse_output (status : string) : M Exc StepState (option ParsedResult) :=
  match ts_parser_kind step with
  | None => mret None
  | Some kind =>
      output ← ask (o_output os);
      note Parsed;;
      match parser_kind_of kind with
      | None => raise ValidationError
      | Some p =>
          match parse_result p output (bool_decide (status = "succeeded")) result_contract with
          | Ok r => mret (Some r)
          | Err _ => raise OverflowException
          end
      end
  end.

(** [_result] *)
Definition result_of (status : string) (terminal_reason : option string) : M Exc StepState StepResult :=
  let limit := Z.min (ts_output_summary_limit step) (cf_output_summary_limit config) in
  '(out, out_cut) ← read_log limit false;
  '(err, err_cut) ← read_log limit true;
  finished_at ← ask (o_now os);
  guard;;
  parsed ← parse_output status;
  code ← gets s_returncode;
  seconds ← duration;
  mret {| sr_step_id := ts_id step; sr_title := ts_title step; sr_status := status; sr_exit_code := code;
          sr_duration_seconds := seconds; sr_stdout_summary := out; sr_stderr_summary := err;
          sr_summaries_truncated := out_cut || err_cut; sr_stdout_log := log_name false; sr_stderr_log := log_name true;
          sr_environment_summary := environment_summary config environment; sr_started_at := started_at;
          sr_finished_at := finished_at; sr_parsed_result := parsed; sr_terminal_reason := terminal_reason |}.

(** [_unquiescent_result] *)
Definition unquiescent_result : M Exc StepState StepResult :=
  code ← gets s_returncode;
  seconds ← duration;
  finished_at ← ask (o_now os);
  mret {| sr_step_id := ts_id step; sr_title := ts_title step; sr_status := "failed"; sr_exit_code := code;
          sr_duration_seconds := seconds; sr_stdout_summary := ""; sr_stderr_summary := "";
          sr_summaries_truncated := true; sr_stdout_log := log_name false; sr_stderr_log := log_name true;
          sr_environment_summary := environment_summary config environment; sr_started_at := started_at;
          sr_finished_at := finished_at; sr_parsed_result := None; sr_terminal_reason := Some "descendant_cleanup_failed" |}.

(** [_abort_after_launch_error] *)
Definition abort_after_launch_error : M Exc StepState StepResult :=
  _ ← terminate_active_step fuel pid strict_containment; unquiescent_result.

(** How the loop ends: with a result, or with a status and a reason *)
Inductive Watched := Returned (r : StepResult) | Left (status : string) (reason : option string).

Definition return_ (m : M Exc StepState StepResult) : M Exc StepState Watched := r ← m; mret (Returned r).

(** The command is stopped for this reason. *)
Definition stop (status reason : string) : M Exc StepState Watched :=
  quiet ← terminate_active_step fuel pid strict_containment;
  if quiet : bool then mret (Left status (Some reason)) else return_ unquiescent_result.

(** [_directory_size], of which an [OSError] is an answer *)
Definition size_of (logs : bool) : M Exc StepState (option Z) :=
  handle (z ← answer_of (if logs then o_logs_size os else o_run_size os) (Sized logs); mret (Some z))
    (fun e => if is_os_error e then Some (mret None) else None).

(** [while process.poll() is None] *)
Fixpoint watch (turns : nat) (step_deadline : Seconds) : M Exc StepState Watched :=
  match turns with
  | O => raise NoTurns
  | S turns' =>
      ended ← poll;
      if ended : bool then mret (Left "failed" None)
      else
        now ← ask (o_monotonic os);
        stopped ← cancelled;
        match stopped with
        | Some reason => stop "cancelled" reason
        | None =>
            if seconds_le deadline (Finite now) then stop "timed_out" "overall_timeout"
            else if seconds_le step_deadline (Finite now) then stop "timed_out" "step_timeout"
            else
              logs_size ← size_of true;
              match logs_size with
              | None => return_ abort_after_launch_error
              | Some total_output =>
                  if cf_total_output_limit config <? total_output then stop "failed" "total_output_limit_exceeded"
                  else
                    run_size ← size_of false;
                    match run_size with
                    | None => return_ abort_after_launch_error
                    | Some size =>
                        if cf_disk_limit_bytes config <? size then stop "failed" "disk_limit_exceeded"
                        else watch turns' step_deadline
                    end
              end
        end
  end.

(** What is left of the command once it has ended *)
Definition settle_processes (status : string) (reason : option string) : M Exc StepState Watched :=
  if strict_containment then
    code ← gets s_returncode;
    let outcome := linux_host_outcome code in
    if negb (cleanup_verified outcome) then return_ abort_after_launch_error
    else if had_descendants outcome then mret (Left "failed" (Some "unexpected_descendant_process"))
    else mret (Left status reason)
  else if bool_decide (status ∈ ["succeeded"; "failed"]) then
    reaped ← handle (b ← reap_unexpected_descendants_after_exit fuel pid; mret (Some b))
               (fun e => if is_os_error e || is_runtime_error e then Some (mret None) else None);
    match reaped with
    | None => return_ unquiescent_result
    | Some true => mret (Left "failed" (Some "unexpected_descendant_process"))
    | Some false => mret (Left status reason)
    end
  else mret (Left status reason).

(** The last look at the limits, and the status by the exit code *)
Definition settle_status (status : string) (reason : option string) : M Exc StepState Watched :=
  match reason with
  | Some _ => mret (Left status reason)
  | None =>
      logs_size ← size_of true;
      match logs_size with
      | None => return_ abort_after_launch_error
      | Some total_output =>
          if cf_total_output_limit config <? total_output then mret (Left "failed" (Some "total_output_limit_exceeded"))
          else
            run_size ← size_of false;
            match run_size with
            | None => return_ abort_after_launch_error
            | Some size =>
                if cf_disk_limit_bytes config <? size then mret (Left "failed" (Some "disk_limit_exceeded"))
                else
                  code ← gets s_returncode;
                  mret (Left (if bool_decide (code = Some 0) then "succeeded" else "failed") None)
            end
      end
  end.

(** The guard after the command *)
Definition settle_checkout (status : string) (reason : option string) : M Exc StepState Watched :=
  intact ← handle (guard;; mret true) (fun _ => Some (mret false));
  if intact : bool then mret (Left status reason) else return_ abort_after_launch_error.

(** One part after another, unless there is a result already *)
Definition and_then (m : M Exc StepState Watched) (k : string -> option string -> M Exc StepState Watched) : M Exc StepState Watched :=
  w ← m; match w with Returned r => mret (Returned r) | Left status reason => k status reason end.

Definition must_have_ended (status : string) (reason : option string) : M Exc StepState Watched :=
  ended ← poll;
  ensure ended (RuntimeError "trusted process did not terminate");;
  mret (Left status reason).

(** Everything after the launch *)
Definition after_launch (step_deadline : Seconds) : M Exc StepState StepResult :=
  settled ← and_then (and_then (and_then (and_then (watch fuel step_deadline) must_have_ended) settle_processes) settle_status) settle_checkout;
  match settled with
  | Returned r => mret r
  | Left status reason => result_of status reason
  end.
End started.

(** [deadline - now] *)
Definition remaining_of (now : Q) : Seconds :=
  match deadline with
  | Finite q => let d := Qred (q - now) in
                match round64 (Qnum d) (Z.pos (Qden d)) with Some r => Finite r | None => PosInf end
  | d => d
  end.

(** The part of [run_step] before the launch: the deadline of the step, and when it started *)
Definition prepare_step : M Exc StepState (Seconds * Q * Z) :=
  now ← ask (o_monotonic os);
  let remaining := remaining_of now in
  ensure (negb (seconds_le remaining (Finite 0))) (OverallDeadlineExceededError "overall execution deadline expired before launch");;
  stopped ← cancelled;
  (match stopped with
   | Some reason => raise (OverallDeadlineExceededError ("execution cancelled before launch:" +:+ reason))
   | None => mret tt
   end);;
  guard;;
  cwd ← ask (o_resolve_cwd os) ≫= lift_result;
  root ← ask (o_resolve_checkout os) ≫= lift_result;
  ensure (bool_decide (root `prefix_of` cwd)) (ValueError "trusted working directory escaped checkout");;
  _ ← ask (o_mkdir os) ≫= lift_result;
  before ← ask (o_monotonic os);
  let step_deadline := seconds_after before (seconds_min (seconds_min (seconds_of (ts_timeout_seconds step)) (cf_maximum_step_timeout_seconds config)) remaining) in
  started ← ask (o_monotonic os);
  started_at ← ask (o_now os);
  _ ← ask (o_open_logs os) ≫= lift_result;
  mret (step_deadline, started, started_at).

(** [run_step] *)
Definition run_step (allowed_inherited_environment_keys : option (list string)) : M Exc StepState StepResult :=
  '(step_deadline, started, started_at) ← prepare_step;
  let environment := step_environment (o_environ os) config step allowed_inherited_environment_keys in
  pid ← launch strict_containment (runtime_argv (o_executable os) (ts_argv step)) environment;
  after_launch pid environment started started_at step_deadline.
End step.
End runner.
