(* ===== verification/RunnerProofs.v ===== *)
(** * What running a step guarantees

    For every sequence of answers of the operating system: the output of a command is only read
    when its processes are proven to be gone, a success means that the command ended by itself with
    code 0 within its limits, the error that says "not started" is only raised before the start,
    and the loops end. *)

From S2P Require Import Prelude Text Json Enums Evidence Floats JsonCodec Documents Registry Checks Parsers WorkerContracts WorkerModels WorkerConfig WorkerPolicy LocalWorker Effects Files ProcessTable ContainedHost Runner.
From Stdlib Require Import QArith.
#[local] Open Scope Z_scope.

(** ** Events are only added *)

(** The return code is set once, and noted. *)
Definition code_kept (evs : list StepEvent) (before after : option Z) : Prop :=
  match before with Some code => after = Some code | None => forall code, after = Some code -> Ended code ∈ evs end.

(** What happened since: events of this kind *)
Definition adds (P : StepEvent -> Prop) (s s' : StepState) : Prop :=
  exists evs, s_log s' = s_log s ++ evs /\ Forall P evs /\ code_kept evs (s_returncode s) (s_returncode s').

#[export] Instance adds_refl P : Reflexive (adds P).
Proof. intros s. exists []. rewrite app_nil_r. split_and!; [done..|]. unfold code_kept. by destruct (s_returncode s). Qed.
#[export] Instance adds_trans P : Transitive (adds P).
Proof.
  intros s1 s2 s3 (e1 & H1 & F1 & C1) (e2 & H2 & F2 & C2). exists (e1 ++ e2). rewrite H2, H1, <- app_assoc.
  split_and!; [done|by apply Forall_app|]. unfold code_kept in *. destruct (s_returncode s1) as [c|].
  - by rewrite C1 in C2.
  - intros code Hc. destruct (s_returncode s2) as [c|]; apply elem_of_app; [left|right; by apply C2].
    rewrite C2 in Hc. injection Hc as <-. by apply C1.
Qed.

Lemma adds_code P s s' code : adds P s s' -> s_returncode s = Some code -> s_returncode s' = Some code.
Proof. intros (evs & _ & _ & C) H. unfold code_kept in C. by rewrite H in C. Qed.

Lemma adds_in P s s' e : adds P s s' -> e ∈ s_log s -> e ∈ s_log s'.
Proof. intros (evs & -> & _) H. apply elem_of_app. by left. Qed.

Lemma adds_weaken P Q s s' : (forall e, P e -> Q e) -> adds P s s' -> adds Q s s'.
Proof. intros H (evs & Hl & HF & C). exists evs. split_and!; [done| |done]. by eapply Forall_impl. Qed.

Lemma adds_all (P : StepEvent -> Prop) s s' : adds P s s' -> Forall P (s_log s) -> Forall P (s_log s').
Proof. intros (evs & -> & HF & _) H. by apply Forall_app. Qed.

Section adding.
Context (os : Os) (P : StepEvent -> Prop).

Lemma adds_ask {A} (f : nat -> A) : always (adds P) (ask f).
Proof. intros s. exists []. rewrite app_nil_r. split_and!; [done..|]. unfold code_kept.
  change (s_returncode (ask f s).2) with (s_returncode s). by destruct (s_returncode s). Qed.
Lemma adds_note e : P e -> always (adds P) (note e).
Proof.
  intros He s. exists [e]. split_and!; [done|by constructor|]. unfold code_kept.
  change (s_returncode (note e s).2) with (s_returncode s). by destruct (s_returncode s).
Qed.

(** The events that watching and ending a command give rise to *)
Context (Pended : forall code, P (Ended code)) (Pseen : forall alive, P (GroupSeen alive)).

#[local] Ltac adds := always; try first [apply adds_ask | apply adds_note; done
  | solve [eauto with adds]
  | lazymatch goal with |- always _ (match ?x with _ => _ end) => destruct x; adds end].
Create HintDb adds.

Lemma adds_look f : always (adds P) (look f).
Proof.
  intros s. unfold look, gets, mbind, M_bind. destruct (s_returncode s) as [code|] eqn:Hcode.
  - apply adds_refl.
  - cbn. destruct (f (s_turn s)) as [code|]; cbn; [|by apply (adds_ask f)].
    exists [Ended code]. split_and!; [done|by constructor|]. unfold code_kept. rewrite Hcode.
    intros c [= <-]. by left.
Qed.
Hint Resolve adds_look : adds.

Section signals.
Context (Psignal : forall signal answer, P (Signalled signal answer)).

Lemma adds_signal signal : always (adds P) (signal_process_group os signal).
Proof. unfold signal_process_group. adds. Qed.
Hint Resolve adds_signal : adds.

Lemma adds_observation pid : always (adds P) (process_group_observation os pid).
Proof. unfold process_group_observation, probe_group. adds. Qed.
Hint Resolve adds_observation : adds.

Lemma adds_group_exit fuel pid deadline : always (adds P) (group_exit_loop os fuel pid deadline).
Proof. induction fuel as [|fuel IH]; cbn [group_exit_loop]; adds. Qed.
Hint Resolve adds_group_exit : adds.

Lemma adds_terminate fuel pid strict : always (adds P) (terminate_active_step os fuel pid strict).
Proof.
  unfold terminate_active_step, terminate_posix, strict_terminate, wait_for_process_group_exit, wait_for_parent, poll.
  apply always_handle; [apply _|adds|]. intros e k H. case_match; [|done]. injection H as <-. adds.
Qed.
Hint Resolve adds_terminate : adds.

Lemma adds_reap fuel pid : always (adds P) (reap_unexpected_descendants_after_exit os fuel pid).
Proof. unfold reap_unexpected_descendants_after_exit, terminate_posix, wait_for_process_group_exit, wait_for_parent. adds. Qed.
Hint Resolve adds_reap : adds.

Context (Psized : forall logs answer, P (Sized logs answer)) (Pguard : forall answer, P (Guarded answer)).

Lemma adds_size logs : always (adds P) (size_of os logs).
Proof.
  unfold size_of, answer_of. apply always_handle; [apply _|adds|]. intros e k H. case_match; [|done]. injection H as <-. adds.
Qed.
Hint Resolve adds_size : adds.

Lemma adds_guard guarded : always (adds P) (guard os guarded).
Proof. unfold guard, answer_of. adds. Qed.
Hint Resolve adds_guard : adds.

Section step.
Context (fuel : nat) (step : TrustedStep) (config : WorkerConfig) (deadline : Seconds) (cancellable strict : bool).
Context (pid : Z) (environment : Environment) (started : Q) (started_at : Z).

Lemma adds_cancelled : always (adds P) (cancelled os cancellable).
Proof. unfold cancelled. adds. Qed.
Hint Resolve adds_cancelled : adds.

Lemma adds_unquiescent : always (adds P) (unquiescent_result os step config environment started started_at).
Proof. unfold unquiescent_result, duration. adds. Qed.
Hint Resolve adds_unquiescent : adds.

Lemma adds_abort : always (adds P) (abort_after_launch_error os fuel step config strict pid environment started started_at).
Proof. unfold abort_after_launch_error. adds. Qed.
Hint Resolve adds_abort : adds.

Lemma adds_stop status reason : always (adds P) (stop os fuel step config strict pid environment started started_at status reason).
Proof. unfold stop, return_. adds. Qed.
Hint Resolve adds_stop : adds.

Lemma adds_watch turns step_deadline :
  always (adds P) (watch os fuel step config deadline cancellable strict pid environment started started_at turns step_deadline).
Proof. induction turns as [|turns IH]; cbn [watch]; unfold poll, return_; adds. Qed.
Hint Resolve adds_watch : adds.

Lemma adds_settle_processes status reason :
  always (adds P) (settle_processes os fuel step config strict pid environment started started_at status reason).
Proof.
  unfold settle_processes, return_. adds. apply always_handle; [apply _|adds|]. intros e k H. case_match; [|done]. injection H as <-. adds.
Qed.

Lemma adds_settle_status status reason :
  always (adds P) (settle_status os fuel step config strict pid environment started started_at status reason).
Proof. unfold settle_status, return_. adds. Qed.

Lemma adds_settle_checkout guarded status reason :
  always (adds P) (settle_checkout os fuel step config strict guarded pid environment started started_at status reason).
Proof. unfold settle_checkout, return_. adds. apply always_handle; [apply _|adds|]. intros e k [= <-]. adds. Qed.

Lemma adds_must_have_ended status reason : always (adds P) (must_have_ended os status reason).
Proof. unfold must_have_ended, poll. adds. Qed.
End step.
End signals.
End adding.

Lemma always_ok {A} (R : StepState -> StepState -> Prop) (m : M Exc StepState A) s r s' : always R m -> m s = (r, s') -> R s s'.
Proof. intros H He. specialize (H s). by rewrite He in H. Qed.

(** ** Proven quiescence *)

(** An event of watching a command: nothing that it wrote is read.  Its return code, its process group, the sizes of
    the directories it writes to and the guard of the checkout are looked at. *)
Definition watching (e : StepEvent) : Prop :=
  match e with
  | Guarded _ | Launched _ _ _ | Ended _ | Signalled _ _ | GroupSeen _ | Sized _ _ => True
  | ReadLog _ | Parsed => False
  end.

(** An event of putting the result together: the logs are read and the output is parsed, and the guard is asked. *)
Definition reporting (e : StepEvent) : Prop :=
  match e with
  | ReadLog _ | Parsed | Guarded _ => True
  | Launched _ _ _ | Ended _ | Signalled _ _ | GroupSeen _ | Sized _ _ => False
  end.

(** The process group was found gone. *)
Definition gone_event (e : StepEvent) : Prop := e = GroupSeen false \/ exists signal, e = Signalled signal NoSuchProcess.

(** The command has ended, and nothing of it is left: the host has verified it, or the group was found gone. *)
Definition quiescent (strict : bool) (s : StepState) : Prop :=
  exists code, s_returncode s = Some code /\
    if strict then cleanup_verified (linux_host_outcome (Some code)) = true else exists e, e ∈ s_log s /\ gone_event e.

Lemma quiescent_adds P strict s s' : adds P s s' -> quiescent strict s -> quiescent strict s'.
Proof.
  intros Ha (code & Hc & H). exists code. split; [by eapply adds_code|]. destruct strict; [done|].
  destruct H as (e & He & Hg). exists e. split; [by eapply adds_in|done].
Qed.

(** The event is one of those since. *)
Definition since (s s' : StepState) (e : StepEvent) : Prop := exists evs, s_log s' = s_log s ++ evs /\ e ∈ evs.

Lemma since_before P s0 s s' e : adds P s0 s -> since s s' e -> since s0 s' e.
Proof. intros (e0 & H0 & _) (evs & H & He). exists (e0 ++ evs). rewrite H, H0, <- app_assoc. split; [done|]. apply elem_of_app. by right. Qed.
Lemma since_after P s s1 s' e : since s s1 e -> adds P s1 s' -> since s s' e.
Proof. intros (evs & H & He) (e1 & H1 & _). exists (evs ++ e1). rewrite H1, H, <- app_assoc. split; [done|]. apply elem_of_app. by left. Qed.

Section runs.
Context (os : Os).

Lemma ask_run {A} (f : nat -> A) s a s' : ask f s = (Ok a, s') -> s_log s' = s_log s /\ s_returncode s' = s_returncode s.
Proof. by intros [= <- <-]. Qed.

Lemma note_run e s u s' : note e s = (Ok u, s') -> s_log s' = s_log s ++ [e] /\ s_returncode s' = s_returncode s.
Proof. by intros [= _ <-]. Qed.

Lemma note_in e s u s' : note e s = (Ok u, s') -> e ∈ s_log s'.
Proof. intros [-> _]%note_run. apply elem_of_app. right. by left. Qed.

Lemma note_since e s u s' : note e s = (Ok u, s') -> since s s' e.
Proof. intros [H _]%note_run. exists [e]. split; [done|by left]. Qed.

Lemma answer_since {A} (f : nat -> Result Exc A) event s a s' : answer_of f event s = (Ok a, s') -> since s s' (event (Ok a)).
Proof.
  intros H. unfold answer_of in H. inv_run H. apply note_since in Hr0.
  eapply since_before; [|exact Hr0]. eapply always_ok; [|exact Hr]. apply (adds_ask (fun _ => True)).
Qed.

Lemma size_since logs s z s' : size_of os logs s = (Ok (Some z), s') -> since s s' (Sized logs (Ok z)).
Proof.
  intros H. unfold size_of in H. apply handle_ok in H as [H|(e & k & s1 & _ & Hk & H)].
  - inv_run H. simplify_eq. by apply answer_since in Hr.
  - case_match; [|done]. injection Hk as <-. by inv_run H.
Qed.

Lemma signal_gone signal s s' : signal_process_group os signal s = (Ok false, s') -> exists e, e ∈ s_log s' /\ gone_event e.
Proof.
  intros H. unfold signal_process_group in H. inv_run H. apply note_in in Hr0. destruct a; inv_run H; try done.
  eexists. split; [exact Hr0|]. right. eauto.
Qed.

Lemma since_in s s' e : since s s' e -> e ∈ s_log s'.
Proof. intros (evs & -> & He). apply elem_of_app. by right. Qed.

Lemma observation_since pid s alive details s' : process_group_observation os pid s = (Ok (alive, details), s') ->
  since s s' (GroupSeen alive).
Proof.
  intros H. unfold process_group_observation in H. inv_run H. apply note_since in Hr1. eapply since_before; [|exact Hr1].
  etrans; [eapply always_ok; [apply (adds_ask (fun _ => True))|exact Hr]|].
  assert (Hprobe : always (adds (fun _ => True)) (probe_group os pid)).
  { unfold probe_group. always. by apply adds_signal. }
  destruct (linux_process_group_members _ _) as [[|]|]; [|by inv_run Hr0|]; by eapply always_ok.
Qed.

Lemma group_exit_gone fuel pid deadline : forall s u s', group_exit_loop os fuel pid deadline s = (Ok u, s') ->
  exists e, e ∈ s_log s' /\ gone_event e.
Proof.
  induction fuel as [|fuel IH]; intros s u s' H; [done|]. cbn [group_exit_loop] in H.
  apply bind_ok in H as ([alive details] & s1 & H1 & H). destruct alive; cbn [negb] in H.
  - inv_run H. by eapply IH.
  - inv_run H. apply observation_since, since_in in H1. eexists. split; [exact H1|by left].
Qed.

Lemma terminate_posix_gone fuel pid s u s' : terminate_posix os fuel pid s = (Ok u, s') -> exists e, e ∈ s_log s' /\ gone_event e.
Proof.
  intros H. unfold terminate_posix in H. apply bind_ok in H as (there & s1 & H1 & H). destruct there; cbn [negb] in H.
  2: { inv_run H. by apply signal_gone in H1. }
  apply bind_ok in H as (ended & s2 & H2 & H). apply bind_ok in H as (u3 & s3 & H3 & H).
  apply bind_ok in H as ([alive details] & s4 & H4 & H). destruct alive; cbn [negb] in H.
  2: { inv_run H. apply observation_since, since_in in H4. eexists. split; [exact H4|by left]. }
  apply bind_ok in H as (there & s5 & H5 & H). destruct there; cbn [negb] in H.
  - unfold wait_for_process_group_exit in H. inv_run H. by eapply group_exit_gone.
  - inv_run H. destruct ended; [by apply signal_gone in H5|by inv_run H5].
Qed.

Lemma terminate_active_gone fuel pid s s' : terminate_active_step os fuel pid false s = (Ok true, s') ->
  exists e, e ∈ s_log s' /\ gone_event e.
Proof.
  intros H. unfold terminate_active_step in H. apply handle_ok in H as [H|(e & k & s1 & _ & Hk & H)].
  - inv_run H. by eapply terminate_posix_gone.
  - case_match; [|done]. injection Hk as <-. by inv_run H.
Qed.

Lemma look_true f s s' : look f s = (Ok true, s') -> is_Some (s_returncode s').
Proof.
  intros H. unfold look, gets, mbind, M_bind in H. destruct (s_returncode s) as [code|] eqn:Hc; [injection H as <-; by rewrite Hc|].
  cbn in H. destruct (f (s_turn s)) as [code|]; [|done]. injection H as <-. by eexists.
Qed.

(** An event of a command that is left alone *)
Definition unsignalled (e : StepEvent) : Prop :=
  match e with Signalled signal _ => signal = 0 | ReadLog _ | Parsed => False | Launched _ _ _ => False | _ => True end.

(** To look at the group is not to signal it. *)
Lemma observation_unsignalled pid : always (adds unsignalled) (process_group_observation os pid).
Proof.
  assert (Hprobe : always (adds unsignalled) (probe_group os pid)).
  { unfold probe_group, signal_process_group. always; try first [apply adds_ask | by apply adds_note]. destruct a; always. }
  unfold process_group_observation. always; try first [apply adds_ask | by apply adds_note].
  destruct (linux_process_group_members _ _) as [[|]|]; [exact Hprobe|always|exact Hprobe].
Qed.

Section step.
Context (fuel : nat) (step : TrustedStep) (config : WorkerConfig) (deadline : Seconds) (cancellable strict guarded : bool).
Context (result_contract : option (list (string * Json))).
Context (pid : Z) (environment : Environment) (started : Q) (started_at : Z).

(** The parts, of this step *)
#[local] Notation stop := (stop os fuel step config strict pid environment started started_at).
#[local] Notation watch := (watch os fuel step config deadline cancellable strict pid environment started started_at).
#[local] Notation settle_processes := (settle_processes os fuel step config strict pid environment started started_at).
#[local] Notation settle_status := (settle_status os fuel step config strict pid environment started started_at).
#[local] Notation settle_checkout := (settle_checkout os fuel step config strict guarded pid environment started started_at).

Lemma stop_left status reason s st rs s' : stop status reason s = (Ok (Left st rs), s') ->
  st = status /\ rs = Some reason /\ (strict = false -> exists e, e ∈ s_log s' /\ gone_event e).
Proof.
  intros H. unfold Runner.stop in H. apply bind_ok in H as (quiet & s1 & H1 & H). destruct quiet.
  - inv_run H. simplify_eq. split_and!; [done|done|]. intros Hs. rewrite Hs in H1. by eapply terminate_active_gone.
  - unfold return_ in H. by inv_run H.
Qed.

(** What the loop says of a command when it leaves it *)
Definition watched (s : StepState) (st : string) (rs : option string) : Prop :=
  (st = "failed" /\ rs = None) \/
  (st ∈ ["cancelled"; "timed_out"; "failed"] /\ is_Some rs /\ (strict = false -> exists e, e ∈ s_log s /\ gone_event e)).

Lemma watch_left turns step_deadline : forall s st rs s', watch turns step_deadline s = (Ok (Left st rs), s') ->
  watched s' st rs /\ (rs = None -> adds unsignalled s s').
Proof.
  assert (Hstop : forall status reason s0 s st rs s', status ∈ ["cancelled"; "timed_out"; "failed"] ->
    stop status reason s = (Ok (Left st rs), s') -> watched s' st rs /\ (rs = None -> adds unsignalled s0 s')).
  { intros status reason s0 s st rs s' Hin (-> & -> & Hg)%stop_left. split; [|done]. right. split_and!; [done|by eexists|done]. }
  assert (Hsize : forall logs, always (adds unsignalled) (size_of os logs)) by (intros logs; by apply adds_size).
  assert (Hret : forall m s st rs s', return_ m s = (Ok (Left st rs), s') -> False).
  { intros m s st rs s' H. unfold return_ in H. by inv_run H. }
  induction turns as [|turns IH]; intros s st rs s' H; [done|]. cbn [Runner.watch] in H.
  apply bind_ok in H as (ended & s1 & H1 & H). pose proof (always_ok _ _ _ _ _ (adds_look unsignalled (fun _ => I) _) H1) as Ha1.
  destruct ended; [inv_run H; simplify_eq; split; [by left|done]|].
  apply bind_ok in H as (now & s2 & H2 & H). pose proof (always_ok _ _ _ _ _ (adds_ask unsignalled _) H2) as Ha2.
  apply bind_ok in H as (stopped & s3 & H3 & H). pose proof (always_ok _ _ _ _ _ (adds_cancelled os unsignalled _) H3) as Ha3.
  destruct stopped as [reason|]; [eapply Hstop, H; set_solver|].
  destruct (seconds_le deadline (Finite now)); [eapply Hstop, H; set_solver|].
  destruct (seconds_le step_deadline (Finite now)); [eapply Hstop, H; set_solver|].
  apply bind_ok in H as ([total|] & s4 & H4 & H); [|by apply Hret in H]. apply (always_ok _ _ _ _ _ (Hsize _)) in H4.
  destruct (_ <? total); [eapply Hstop, H; set_solver|].
  apply bind_ok in H as ([size|] & s5 & H5 & H); [|by apply Hret in H]. apply (always_ok _ _ _ _ _ (Hsize _)) in H5.
  destruct (_ <? size); [eapply Hstop, H; set_solver|].
  apply IH in H as [Hw Hn]. split; [done|]. intros Hnone. etrans; [exact Ha1|]. etrans; [exact Ha2|]. etrans; [exact Ha3|].
  etrans; [exact H4|]. etrans; [exact H5|]. by apply Hn.
Qed.

(** The processes are settled: quiescence is proven. *)
Lemma settle_processes_left s st rs s' st' rs' : watched s st rs -> is_Some (s_returncode s) ->
  settle_processes st rs s = (Ok (Left st' rs'), s') ->
  quiescent strict s' /\ st' <> "succeeded" /\ (rs' = None -> rs = None /\ adds unsignalled s s' /\ (strict = false -> since s s' (GroupSeen false))).
Proof.
  intros Hw [code Hcode] H. assert (Hst : st <> "succeeded") by (destruct Hw as [[-> _]|[Hin _]]; [done|set_solver]).
  unfold Runner.settle_processes in H. destruct strict eqn:Hstrict.
  - inv_run H. rewrite Hcode in H. destruct (cleanup_verified _) eqn:Hv; cbn [negb] in H; [|unfold return_ in H; by inv_run H].
    destruct (had_descendants _); inv_run H; simplify_eq; (split_and!; [by exists code|done|done]).
  - case_bool_decide as Hin.
    + apply bind_ok in H as (reaped & s1 & H1 & H). apply handle_ok in H1 as [H1|(e & k & s2 & _ & Hk & H1)].
      2: { destruct (is_os_error e || is_runtime_error e); [|done]. injection Hk as <-. inv_run H1. unfold return_ in H. by inv_run H. }
      apply bind_ok in H1 as (b & s2 & H2 & H1). inv_run H1.
      pose proof (always_ok _ _ _ _ _ (adds_reap os (fun _ => True) ltac:(done) ltac:(done) ltac:(done) _ _) H2) as Ha.
      unfold reap_unexpected_descendants_after_exit in H2. apply bind_ok in H2 as ([alive details] & s3 & H3 & H2).
      destruct alive; cbn [negb] in H2; inv_run H2; inv_run H; simplify_eq.
      * split_and!; [|done|done]. exists code. split; [by eapply adds_code|]. by eapply terminate_posix_gone.
      * pose proof (observation_since _ _ _ _ _ H3) as Hseen. split_and!; [|done|].
        -- exists code. split; [by eapply adds_code|]. eexists. split; [eapply since_in, Hseen|by left].
        -- intros Hn. split_and!; [done| |done]. by eapply always_ok; [apply observation_unsignalled|].

    + inv_run H. simplify_eq. destruct Hw as [[-> _]|(_ & [reason ->] & Hg)]; [set_solver|]. split_and!; [|done|done].
      exists code. split; [done|]. by apply Hg.
Qed.

Lemma settle_status_left s st rs s' st' rs' : st <> "succeeded" -> settle_status st rs s = (Ok (Left st' rs'), s') ->
  adds unsignalled s s' /\
  (st' = "succeeded" -> rs = None /\ rs' = None /\ s_returncode s' = Some 0 /\
    (exists z, since s s' (Sized true (Ok z)) /\ z <= cf_total_output_limit config) /\
    (exists z, since s s' (Sized false (Ok z)) /\ z <= cf_disk_limit_bytes config)).
Proof.
  intros Hst H. unfold Runner.settle_status in H. destruct rs as [reason|]; [inv_run H; by simplify_eq|].
  assert (Hsize : forall logs, always (adds unsignalled) (size_of os logs)) by (intros logs; by apply adds_size).
  apply bind_ok in H as ([total|] & s1 & H1 & H); [|unfold return_ in H; by inv_run H].
  pose proof (always_ok _ _ _ _ _ (Hsize _) H1) as Ha1. apply size_since in H1.
  destruct (Z.ltb_spec (cf_total_output_limit config) total); [inv_run H; by simplify_eq|].
  apply bind_ok in H as ([size|] & s2 & H2 & H); [|unfold return_ in H; by inv_run H].
  pose proof (always_ok _ _ _ _ _ (Hsize _) H2) as Ha2. apply size_since in H2.
  destruct (Z.ltb_spec (cf_disk_limit_bytes config) size).
  { inv_run H. simplify_eq. split; [by etrans|done]. }
  inv_run H. simplify_eq. split; [by etrans|]. case_bool_decide as Hc; [|done]. intros _. split_and!; [done|done|done| |].
  - exists total. split; [by eapply since_after|lia].
  - exists size. split; [by eapply since_before|lia].
Qed.

Lemma guard_since s u s' : guarded = true -> guard os guarded s = (Ok u, s') -> since s s' (Guarded (Ok tt)).
Proof. intros Hg H. unfold guard in H. rewrite Hg in H. destruct u. by apply answer_since in H. Qed.

Lemma settle_checkout_left s st rs s' st' rs' : settle_checkout st rs s = (Ok (Left st' rs'), s') ->
  st' = st /\ rs' = rs /\ adds unsignalled s s' /\ (guarded = true -> since s s' (Guarded (Ok tt))).
Proof.
  intros H. unfold Runner.settle_checkout in H. apply bind_ok in H as (intact & s1 & H1 & H).
  destruct intact; [|unfold return_ in H; by inv_run H]. inv_run H. simplify_eq.
  apply handle_ok in H1 as [H1|(e & k & s2 & _ & Hk & H1)]; [|injection Hk as <-; by inv_run H1].
  inv_run H1. split_and!; [done|done| |by intros ?; eapply guard_since].
  eapply always_ok; [|exact Hr]. by apply adds_guard.
Qed.

(** What is known of a command that has succeeded, of what happened since it was launched: it ended by itself with
    code 0, and after its end the limits, the group and the guard were looked at. *)
Definition succeeded_since (s s' : StepState) : Prop :=
  exists s1, adds unsignalled s s1 /\ s_returncode s1 = Some 0 /\ adds unsignalled s1 s' /\
  (exists z, since s1 s' (Sized true (Ok z)) /\ z <= cf_total_output_limit config) /\
  (exists z, since s1 s' (Sized false (Ok z)) /\ z <= cf_disk_limit_bytes config) /\
  (strict = false -> since s1 s' (GroupSeen false)) /\
  (guarded = true -> since s1 s' (Guarded (Ok tt))).

Lemma and_then_left m k s st rs s' : and_then m k s = (Ok (Left st rs), s') ->
  exists st1 rs1 s1, m s = (Ok (Left st1 rs1), s1) /\ k st1 rs1 s1 = (Ok (Left st rs), s').
Proof.
  intros H. unfold and_then in H. apply bind_ok in H as ([r|st1 rs1] & s1 & H1 & H); [by inv_run H|]. eauto 6.
Qed.

Lemma must_have_ended_left st rs s st' rs' s' : must_have_ended os st rs s = (Ok (Left st' rs'), s') ->
  st' = st /\ rs' = rs /\ is_Some (s_returncode s') /\ adds unsignalled s s'.
Proof.
  intros H. unfold must_have_ended in H. inv_run H. simplify_eq. split_and!; [done|done|by eapply look_true|].
  by eapply always_ok; [apply adds_look|].
Qed.

(** The parts between the launch and the result *)
Definition settled (step_deadline : Seconds) : M Exc StepState Watched :=
  and_then (and_then (and_then (and_then (watch fuel step_deadline) (must_have_ended os)) settle_processes) settle_status) settle_checkout.

Lemma settled_left step_deadline s st rs s' : settled step_deadline s = (Ok (Left st rs), s') ->
  quiescent strict s' /\ (st = "succeeded" -> rs = None /\ succeeded_since s s').
Proof.
  intros H. unfold settled in H.
  apply and_then_left in H as (st4 & rs4 & s4 & H & H5). apply and_then_left in H as (st3 & rs3 & s3 & H & H4).
  apply and_then_left in H as (st2 & rs2 & s2 & H & H3). apply and_then_left in H as (st1 & rs1 & s1 & H1 & H2).
  apply watch_left in H1 as [Hw1 Ha1].
  apply must_have_ended_left in H2 as (-> & -> & Hcode & Ha2).
  assert (Hw2 : watched s2 st1 rs1).
  { destruct Hw1 as [?|(H & H' & Hg)]; [by left|]. right. split_and!; [done|done|]. intros Hs.
    destruct (Hg Hs) as (e & He & Hge). exists e. split; [by eapply adds_in|done]. }
  apply settle_processes_left in H3 as (Hq & Hst3 & Hn3); [|done|done].
  apply settle_status_left in H4 as (Ha4 & Hs4); [|done].
  apply settle_checkout_left in H5 as (-> & -> & Ha5 & Hg5).
  split; [by eapply quiescent_adds, quiescent_adds, Hq; [exact Ha5|exact Ha4]|].
  intros ->. destruct (Hs4 eq_refl) as (-> & -> & Hc & (z & Hz & Hle) & (z' & Hz' & Hle')).
  destruct (Hn3 eq_refl) as (-> & Ha3 & Hgone). specialize (Ha1 eq_refl). split; [done|].
  assert (Ha02 : adds unsignalled s s2) by by etrans. assert (Ha23 : adds unsignalled s2 s4) by by etrans.
  exists s2. split_and!.
  - done.
  - destruct Hcode as [c Hc2]. rewrite Hc2. rewrite (adds_code _ _ _ _ Ha23 Hc2) in Hc. done.
  - by etrans.
  - exists z. split; [|done]. eapply since_after; [|exact Ha5]. by eapply since_before; [exact Ha3|].
  - exists z'. split; [|done]. eapply since_after; [|exact Ha5]. by eapply since_before; [exact Ha3|].
  - intros Hs. eapply since_after; [|exact Ha5]. eapply since_after; [|exact Ha4]. by apply Hgone.
  - intros Hg. eapply since_before; [exact Ha23|by apply Hg5].
Qed.

(** *** Results without a look at the output *)

Definition failed_return (w : Watched) (_ : StepState) : Prop := match w with Returned r => sr_status r = "failed" | Left _ _ => True end.
#[local] Notation fails m := (forall s, ensures m failed_return (fun _ _ => True) s).

Lemma unquiescent_failed s :
  ensures (unquiescent_result os step config environment started started_at) (fun r _ => sr_status r = "failed") (fun _ _ => True) s.
Proof. unfold unquiescent_result. do 3 (apply ens_bind, ens_any; [intros|done]). by apply ens_ret. Qed.

Lemma return_fails m : (forall s, ensures m (fun r _ => sr_status r = "failed") (fun _ _ => True) s) -> fails (return_ m).
Proof. intros Hm s. apply ens_bind. eapply ens_mono; [apply Hm| |done]. intros r s1 Hr. by apply ens_ret. Qed.

Lemma abort_fails b : fails (return_ (abort_after_launch_error os fuel step config b pid environment started started_at)).
Proof. apply return_fails. intros s. apply ens_bind, ens_any; [|done]. intros _ s1. apply unquiescent_failed. Qed.

Lemma stop_fails status reason : fails (stop status reason).
Proof.
  intros s. apply ens_bind, ens_any; [|done]. intros [] s1; [by apply ens_ret|]. apply return_fails. apply unquiescent_failed.
Qed.

#[local] Ltac parts :=
  repeat first [apply stop_fails | apply abort_fails | (apply return_fails; apply unquiescent_failed) | by apply ens_ret | by apply ens_raise
    | (apply ens_bind, ens_any; [intros|done])
    | lazymatch goal with |- ensures (match ?x with _ => _ end) _ _ _ => destruct x end].

Lemma watch_fails turns step_deadline : fails (watch turns step_deadline).
Proof. induction turns as [|turns IH]; intros s; cbn [Runner.watch]; parts. apply IH. Qed.
Lemma settle_processes_fails st rs : fails (settle_processes st rs).
Proof. intros s. unfold Runner.settle_processes. parts.
Qed.
Lemma settle_status_fails st rs : fails (settle_status st rs).
Proof. intros s. unfold Runner.settle_status. parts. Qed.
Lemma settle_checkout_fails st rs : fails (settle_checkout st rs).
Proof. intros s. unfold Runner.settle_checkout. parts. Qed.
Lemma must_have_ended_fails st rs : fails (must_have_ended os st rs).
Proof. intros s. unfold must_have_ended. parts. Qed.
Lemma and_then_fails m k : fails m -> (forall st rs, fails (k st rs)) -> fails (and_then m k).
Proof.
  intros Hm Hk s. apply ens_bind. eapply ens_mono; [apply Hm| |done]. intros [r|st rs] s1 H; [by apply ens_ret|apply Hk].
Qed.

Lemma settled_returned step_deadline s r s' : settled step_deadline s = (Ok (Returned r), s') -> sr_status r = "failed".
Proof.
  intros H. assert (Hf : fails (settled step_deadline)).
  { repeat (apply and_then_fails; [|intros]); first [apply watch_fails | apply must_have_ended_fails | apply settle_processes_fails
      | apply settle_status_fails | apply settle_checkout_fails]. }
  specialize (Hf s). unfold ensures in Hf. by rewrite H in Hf.
Qed.

Lemma settled_watching step_deadline : always (adds watching) (settled step_deadline).
Proof.
  assert (Hthen : forall m k, always (adds watching) m -> (forall st rs, always (adds watching) (k st rs)) -> always (adds watching) (and_then m k)).
  { intros m k Hm Hk. apply always_bind; [apply _|done|]. intros [r|st rs]; [apply always_ret; apply _|apply Hk]. }
  repeat (apply Hthen; [|intros]); first [by apply adds_watch | by apply adds_must_have_ended | by apply adds_settle_processes
    | by apply adds_settle_status | by apply adds_settle_checkout].
Qed.

(** *** The result *)

#[local] Notation result_of := (result_of os step config result_contract guarded environment started started_at).
#[local] Notation after_launch := (after_launch os fuel step config deadline cancellable result_contract strict guarded pid environment started started_at).

Lemma result_adds status reason : always (adds reporting) (result_of status reason).
Proof.
  unfold Runner.result_of, read_log, answer_of, parse_output, duration. always; try first [apply adds_ask | by apply adds_note | by apply adds_guard].
  all: repeat (lazymatch goal with |- always _ (match ?x with _ => _ end) => destruct x end; always; try first [apply adds_ask | by apply adds_note | by apply adds_guard]).
Qed.

Lemma result_ok status reason s r s' : result_of status reason s = (Ok r, s') ->
  sr_status r = status /\ sr_terminal_reason r = reason /\ (forall code, s_returncode s = Some code -> sr_exit_code r = Some code).
Proof.
  intros H. assert (Hread : forall limit b, always (adds (fun _ => True)) (read_log os config limit b)).
  { intros limit b. unfold read_log, answer_of. always; first [apply adds_ask | by apply adds_note]. }
  assert (Hparse : always (adds (fun _ => True)) (parse_output os step result_contract status)).
  { unfold parse_output. always; try first [apply adds_ask | by apply adds_note].
    repeat (lazymatch goal with |- always _ (match ?x with _ => _ end) => destruct x end; always; try first [apply adds_ask | by apply adds_note]). }
  unfold Runner.result_of in H. apply bind_ok in H as ([out out_cut] & s1 & H1 & H). apply (always_ok _ _ _ _ _ (Hread _ _)) in H1.
  apply bind_ok in H as ([err err_cut] & s2 & H2 & H). apply (always_ok _ _ _ _ _ (Hread _ _)) in H2.
  apply bind_ok in H as (at_ & s3 & H3 & H). apply (always_ok _ _ _ _ _ (adds_ask (fun _ => True) _)) in H3.
  apply bind_ok in H as (u & s4 & H4 & H). apply (always_ok (adds (fun _ => True))) in H4; [|by apply adds_guard].
  apply bind_ok in H as (parsed & s5 & H5 & H). apply (always_ok _ _ _ _ _ Hparse) in H5.
  inv_run H. split_and!; [done|done|]. intros code Hc. cbn. do 5 (eapply adds_code; [eassumption|]). done.
Qed.

Lemma after_launch_run step_deadline s r s' : after_launch step_deadline s = (r, s') ->
  adds watching s s' \/ exists s1, adds watching s s1 /\ quiescent strict s1 /\ adds reporting s1 s'.
Proof.
  intros H. unfold Runner.after_launch in H. fold (settled step_deadline) in H. unfold mbind, M_bind in H.
  pose proof (settled_watching step_deadline s) as Ha. destruct (settled step_deadline s) as [[[r0|st rs]|e] s1] eqn:Hs; cbn in Ha.
  - injection H as _ <-. by left.
  - right. exists s1. split_and!; [done|by eapply settled_left|]. by eapply always_ok; [apply result_adds|].
  - injection H as _ <-. by left.
Qed.

Lemma after_launch_succeeded step_deadline s r s' : after_launch step_deadline s = (Ok r, s') -> sr_status r = "succeeded" ->
  sr_exit_code r = Some 0 /\ sr_terminal_reason r = None /\ exists s1, succeeded_since s s1 /\ adds reporting s1 s'.
Proof.
  intros H Hst. unfold Runner.after_launch in H. fold (settled step_deadline) in H.
  apply bind_ok in H as ([r0|st rs] & s1 & H1 & H).
  - inv_run H. apply settled_returned in H1. congruence.
  - pose proof (always_ok _ _ _ _ _ (result_adds _ _) H) as Ha. apply result_ok in H as (Est & Ers & Hcode).
    apply settled_left in H1 as [_ Hs]. destruct Hs as [-> Hsucc]; [congruence|]. split_and!; [|done|by exists s1].
    apply Hcode. destruct Hsucc as (s2 & _ & Hc & Ha2 & _). by eapply adds_code.
Qed.
End step.

(** ** The whole call *)

Lemma ens_ask {A} (f : nat -> A) (Q : A -> StepState -> Prop) (X : Exc -> StepState -> Prop) s :
  Q (f (s_turn s)) (s <| s_turn := S (s_turn s) |>) -> ensures (ask f) Q X s.
Proof. done. Qed.

Lemma adds_same P s s' : s_log s' = s_log s -> s_returncode s' = s_returncode s -> adds P s s'.
Proof. intros Hl Hc. exists []. rewrite app_nil_r, Hl, Hc. split_and!; [done..|]. unfold code_kept. by destruct (s_returncode s). Qed.

Lemma adds_one (P : StepEvent -> Prop) e s s' : s_log s' = s_log s ++ [e] -> s_returncode s' = s_returncode s -> P e -> adds P s s'.
Proof. intros Hl Hc He. exists [e]. rewrite Hl, Hc. split_and!; [done|by constructor|]. unfold code_kept. by destruct (s_returncode s). Qed.

Lemma adds_ended P s s' code : adds P s s' -> s_returncode s = None -> s_returncode s' = Some code -> Ended code ∈ s_log s'.
Proof.
  intros (evs & -> & _ & Hk) Hn Hc. unfold code_kept in Hk. rewrite Hn in Hk. apply elem_of_app. right. by apply Hk.
Qed.

Section call.
Context (fuel : nat) (step : TrustedStep) (config : WorkerConfig) (deadline : Seconds) (cancellable : bool).
Context (result_contract : option (list (string * Json))) (strict guarded : bool) (allowed : option (list string)).

#[local] Notation run_step := (run_step os fuel step config deadline cancellable result_contract strict guarded allowed).
#[local] Notation environment := (step_environment (o_environ os) config step allowed).
#[local] Notation argv := (runtime_argv (o_executable os) (ts_argv step)).

(** A call of the model that was not made before *)
Definition fresh (s : StepState) : Prop := s_log s = [] /\ s_returncode s = None.

(** Before the launch *)
Definition unlaunched (e : StepEvent) : Prop := match e with Launched _ _ _ | ReadLog _ | Parsed => False | _ => True end.

#[local] Ltac before_launch :=
  always; try first [apply adds_ask | by apply adds_note | by apply adds_guard | by apply adds_look
    | lazymatch goal with |- always _ (match ?x with _ => _ end) => destruct x; before_launch end].

Lemma prepare_adds (P : StepEvent -> Prop) : (forall answer, P (Guarded answer)) ->
  always (adds P) (prepare_step os step config deadline cancellable guarded).
Proof. intros HP. unfold prepare_step, cancelled. before_launch. Qed.

(** The only thing noted before the launch *)
Definition is_guard (e : StepEvent) : Prop := exists answer, e = Guarded answer.

Lemma launch_run s r s' : launch os strict argv environment s = (r, s') ->
  match r with
  | Ok pid => s_log s' = s_log s ++ [Launched argv environment strict] /\ s_returncode s' = s_returncode s
  | Err _ => adds unlaunched s s'
  end.
Proof.
  intros H. assert (Hens : ensures (launch os strict argv environment)
    (fun _ s' => s_log s' = s_log s ++ [Launched argv environment strict] /\ s_returncode s' = s_returncode s)
    (fun _ s' => adds unlaunched s s') s).
  2: { unfold ensures in Hens. rewrite H in Hens. by destruct r. }
  clear H. unfold launch. destruct strict.
  - unfold launch_strict_host. apply ens_bind. destruct (o_linux os); [apply ens_ret|by apply ens_raise].
    apply ens_bind, ens_ask. apply ens_bind. destruct (o_script_present os _); [apply ens_ret|by apply ens_raise, adds_same].
    apply ens_bind. destruct (payload_of argv); [apply ens_ret|by apply ens_raise, adds_same].
    apply ens_bind, ens_handle, ens_bind, ens_ask, ens_lift.
    2: { intros e _. destruct (is_os_error e); [by apply ens_raise, adds_same|by apply adds_same]. }
    intros pid _. apply ens_bind, ens_ask. destruct (o_write_payload os _).
    + apply ens_bind. by apply ens_ret.
    + apply ens_bind. eapply ens_always; [|intros u s1 Ha|intros e1 s1 Ha].
      * unfold abandon_after_launch_failure, wait_for_parent. instantiate (1 := adds unlaunched). before_launch.
      * apply ens_raise. etrans; [|exact Ha]. by apply adds_same.
      * etrans; [|exact Ha]. by apply adds_same.
  - apply ens_bind, ens_ask, ens_bind, ens_lift.
    + intros pid _. apply ens_bind. by apply ens_ret.
    + intros e _. by apply adds_same.
Qed.

(** What is read was quiescent: the call only watched the command, or it did so until the command had ended and
    was proven gone, and only then put the result together. *)
Definition read_after_quiescence (log : list StepEvent) : Prop :=
  Forall watching log \/
  exists before after code, log = before ++ after /\ Forall watching before /\ Forall reporting after /\ Ended code ∈ before /\
    if strict then cleanup_verified (linux_host_outcome (Some code)) = true else exists e, e ∈ before /\ gone_event e.

Lemma unlaunched_watching e : unlaunched e -> watching e.
Proof. by destruct e. Qed.

(** C19. Whatever the operating system answers, and however the call ends, no log of the command is read and none of
    its output is parsed before the command has ended and its processes are proven gone: by the containment host, or
    because its process group was found gone.  Until then the runner looks at no more of the command than its return
    code, its process group, the sizes of the directories it writes to and the guard of the checkout; and afterwards
    it starts, signals and measures nothing any more. *)
Theorem output_read_after_quiescence s r s' : fresh s -> run_step s = (r, s') -> read_after_quiescence (s_log s').
Proof.
  intros [Hlog Hcode] H. unfold Runner.run_step, mbind, M_bind in H.
  pose proof (prepare_adds unlaunched (fun _ => I) s) as Hp. destruct (prepare_step os step config deadline cancellable guarded s) as [[[[step_deadline started] started_at]|e] s1]; cbn in Hp.
  2: { injection H as _ <-. left. eapply adds_all; [by eapply adds_weaken; [apply unlaunched_watching|]|]. by rewrite Hlog. }
  assert (Hs1 : Forall watching (s_log s1)).
  { eapply adds_all; [by eapply adds_weaken; [apply unlaunched_watching|]|]. by rewrite Hlog. }
  destruct (launch os strict argv environment s1) as [[pid|e] s2] eqn:Hl; apply launch_run in Hl.
  2: { injection H as _ <-. left. by eapply adds_all; [by eapply adds_weaken; [apply unlaunched_watching|]|]. }
  destruct Hl as [Hl2 Hc2]. assert (Hs2 : Forall watching (s_log s2)) by (rewrite Hl2; apply Forall_app; split; [done|by constructor]).
  apply after_launch_run in H as [Ha|(s3 & Ha & (code & Hc3 & Hq) & (evs & Hl' & HFe & _))].
  - left. by eapply adds_all.
  - right. exists (s_log s3), evs, code. split_and!; [done|by eapply adds_all|done| |done].
    assert (Hall : adds (fun _ => True) s s3).
    { etrans; [by eapply adds_weaken, Hp|]. etrans; [|by eapply adds_weaken, Ha]. by eapply adds_one. }
    by eapply adds_ended.
Qed.

(** C20. A step that is reported as succeeded ended by itself with code 0: it was started with the reviewed argv and
    the constructed environment, no signal was sent to it, and after it had ended its output and the directory of the
    run were measured within their limits, its process group was found gone (unless the containment host answers for
    it) and the checkout passed its guard, if there is one; only then was its output read. *)
Theorem succeeded_step s r s' : fresh s -> run_step s = (Ok r, s') -> sr_status r = "succeeded" ->
  sr_exit_code r = Some 0 /\ sr_terminal_reason r = None /\
  exists before running ended after,
    s_log s' = before ++ [Launched argv environment strict] ++ running ++ ended ++ after /\
    Forall is_guard before /\ Forall unsignalled (running ++ ended) /\ Forall reporting after /\ Ended 0 ∈ running /\
    (exists z, Sized true (Ok z) ∈ ended /\ z <= cf_total_output_limit config) /\
    (exists z, Sized false (Ok z) ∈ ended /\ z <= cf_disk_limit_bytes config) /\
    (strict = false -> GroupSeen false ∈ ended) /\ (guarded = true -> Guarded (Ok tt) ∈ ended).
Proof.
  intros [Hlog Hcode] H Hst. unfold Runner.run_step in H.
  apply bind_ok in H as ([[step_deadline started] started_at] & s1 & Hp & H). pose proof (always_ok _ _ _ _ _ (prepare_adds is_guard (fun a => ex_intro _ a eq_refl)) Hp) as Ha1.
  apply bind_ok in H as (pid & s2 & Hl & H). apply launch_run in Hl as [Hl Hc2].
  apply after_launch_succeeded in H as (Hexit & Hreason & s3 & (sm & Ham & Hcm & Ha3 & Hlogs & Hrun & Hgone & Hguard) & (after & Hafter & HFr & _)); [|done].
  split_and!; [done|done|]. destruct Ha1 as (before & Hb & HF & Hk1). rewrite Hlog in Hb. cbn in Hb.
  destruct Ham as (running & Hm & HFm & Hkm). destruct Ha3 as (ended & He & HFe & Hk). exists before, running, ended, after.
  assert (Hin : forall e, since sm s3 e -> e ∈ ended).
  { intros e (l & Hl' & Hin). rewrite He in Hl'. apply app_inv_head in Hl'. by subst. }
  split_and!; [|done|by apply Forall_app|done| | | | |].
  - by rewrite Hafter, He, Hm, Hl, Hb, <- !app_assoc.
  - unfold code_kept in *. rewrite Hc2 in Hkm. destruct (s_returncode s1) as [c|] eqn:Hs1; [|by apply Hkm].
    rewrite Hcode in Hk1. rewrite Forall_forall in HF. destruct (HF _ (Hk1 _ eq_refl)) as [? [=]].
  - destruct Hlogs as (z & Hz & Hle). exists z. split; [by apply Hin|done].
  - destruct Hrun as (z & Hz & Hle). exists z. split; [by apply Hin|done].
  - intros Hs. by apply Hin, Hgone.
  - intros Hg. by apply Hin, Hguard.
Qed.

(** *** Errors *)

(** The error that says that the step was not started *)
Definition not_started (e : Exc) : Prop := exists message, e = OverallDeadlineExceededError message.

(** No answer of the operating system or of the guard is that error. *)
Definition ordinary : Prop := forall n e, not_started e ->
  o_guard os n <> Err e /\ o_logs_size os n <> Err e /\ o_run_size os n <> Err e /\ (forall b, o_log os n b <> Err e) /\
  o_resolve_cwd os n <> Err e /\ o_resolve_checkout os n <> Err e /\ o_mkdir os n <> Err e /\ o_open_logs os n <> Err e /\
  forall argv, o_popen os n argv <> Err e.

#[local] Notation other := (fun e => ~ not_started e).

Lemma raises_ask {A} (f : nat -> A) : raises other (ask f).
Proof. by intros s e s'. Qed.
Lemma raises_note e : raises other (note e).
Proof. by intros s e' s'. Qed.
Lemma raises_answer {A} (f : nat -> Result Exc A) event : (forall n e, not_started e -> f n <> Err e) -> raises other (answer_of f event).
Proof.
  intros Hf. unfold answer_of. intros s e s' H He. unfold mbind, M_bind, ask, note, lift_result in H. cbn in H.
  injection H as H _. by eapply Hf.
Qed.
Lemma raises_look f : raises other (look f).
Proof. unfold look. raises; [by intros s e s'|]. destruct a; raises; [apply raises_ask|]. destruct a; raises. by intros s e s'. Qed.

#[local] Ltac raising :=
  raises; try first [by intros [? ?] | apply raises_ask | apply raises_note | apply raises_look | solve [eauto with raising]
    | lazymatch goal with |- raises _ (match ?x with _ => _ end) => destruct x; raising end].
Create HintDb raising.

Lemma raises_observation pid : raises other (process_group_observation os pid).
Proof. unfold process_group_observation, probe_group, signal_process_group. raising. Qed.
Hint Resolve raises_observation : raising.

Lemma raises_group_exit turns pid limit : raises other (group_exit_loop os turns pid limit).
Proof. induction turns as [|turns IH]; cbn [group_exit_loop]; raising. Qed.
Hint Resolve raises_group_exit : raising.

Lemma raises_terminate_posix pid : raises other (terminate_posix os fuel pid).
Proof. unfold terminate_posix, signal_process_group, wait_for_process_group_exit, wait_for_parent. raising. Qed.
Hint Resolve raises_terminate_posix : raising.

Lemma raises_terminate pid b : raises other (terminate_active_step os fuel pid b).
Proof.
  unfold terminate_active_step. eapply (raises_handle _ _ _ other).
  - unfold strict_terminate, wait_for_parent, poll. raising.
  - intros e He. destruct (is_os_error e || is_runtime_error e); [raising|done].
Qed.
Hint Resolve raises_terminate : raising.

Section ordinary.
Context (Hos : ordinary).

Lemma raises_size logs : raises other (size_of os logs).
Proof.
  unfold size_of. eapply (raises_handle _ _ _ other).
  - raises. apply raises_answer. intros n e He. destruct (Hos n e He) as (_ & H1 & H2 & _). by destruct logs.
  - intros e He. destruct (is_os_error e); [raising|done].
Qed.
Hint Resolve raises_size : raising.

Lemma raises_guard : raises other (guard os guarded).
Proof. unfold guard. raises. apply raises_answer. intros n e He. by apply (Hos n e He). Qed.
Hint Resolve raises_guard : raising.

Lemma after_launch_raises pid environment started started_at step_deadline :
  raises other (after_launch os fuel step config deadline cancellable result_contract strict guarded pid environment started started_at step_deadline).
Proof.
  assert (Hun : raises other (unquiescent_result os step config environment started started_at)) by (unfold unquiescent_result, duration; raising).
  assert (Habort : forall b, raises other (abort_after_launch_error os fuel step config b pid environment started started_at))
    by (intros b; unfold abort_after_launch_error; raising).
  assert (Hstop : forall status reason, raises other (stop os fuel step config strict pid environment started started_at status reason))
    by (intros; unfold stop, return_; raising).
  assert (Hread : forall limit b, raises other (read_log os config limit b)).
  { intros limit b. unfold read_log. raises. apply raises_answer. intros n e He. by apply (Hos n e He). }
  assert (Hthen : forall m k, raises other m -> (forall st rs, raises other (k st rs)) -> raises other (and_then m k)).
  { intros m k Hm Hk. unfold and_then. raises; [done|]. destruct a; raises. apply Hk. }
  assert (Hwatch : forall turns, raises other (watch os fuel step config deadline cancellable strict pid environment started started_at turns step_deadline)).
  { induction turns as [|turns IH]; cbn [watch]; unfold poll, cancelled, return_; raising. }
  unfold after_launch. raises.
  - repeat (apply Hthen; [|intros]).
    + apply Hwatch.
    + unfold must_have_ended, poll. raising.
    + unfold settle_processes, return_. raising. eapply (raises_handle _ _ _ other).
      * unfold reap_unexpected_descendants_after_exit. raising.
      * intros e He. destruct (is_os_error e || is_runtime_error e); [raising|done].
    + unfold settle_status, return_. raising.
    + unfold settle_checkout, return_. raising. eapply (raises_handle _ _ _ other); [raising|]. intros e He. raising.
  - destruct a; raises. unfold result_of, parse_output, duration. raising.
Qed.

(** The overall deadline has passed when the step is called, or the run is cancelled already. *)
Definition too_late (s : StepState) : Prop :=
  seconds_le (remaining_of deadline (o_monotonic os (s_turn s))) (Finite 0) = true \/
  cancellable = true /\ exists reason, o_cancelled os (S (s_turn s)) = Some reason.

(** What [prepare_step] does when it is not too late *)
Definition prepare_rest (remaining : Seconds) : M Exc StepState (Seconds * Q * Z) :=
  guard os guarded;;
  cwd ← ask (o_resolve_cwd os) ≫= lift_result;
  root ← ask (o_resolve_checkout os) ≫= lift_result;
  ensure (bool_decide (root `prefix_of` cwd)) (ValueError "trusted working directory escaped checkout");;
  _ ← ask (o_mkdir os) ≫= lift_result;
  before ← ask (o_monotonic os);
  let step_deadline := seconds_after before (seconds_min (seconds_min (seconds_of (ts_timeout_seconds step)) (cf_maximum_step_timeout_seconds config)) remaining) in
  started ← ask (o_monotonic os);
  started_at ← ask (o_now os);
  _ ← ask (o_open_logs os) ≫= lift_result;
  mret (step_deadline, started, started_at).

Lemma prepare_cases s :
  (too_late s /\ exists message s', prepare_step os step config deadline cancellable guarded s = (Err (OverallDeadlineExceededError message), s') /\
     s_log s' = s_log s) \/
  (~ too_late s /\ exists remaining s1, prepare_step os step config deadline cancellable guarded s = prepare_rest remaining s1).
Proof.
  unfold prepare_step, too_late. set (s1 := s <| s_turn := S (s_turn s) |>). set (now := o_monotonic os (s_turn s)).
  assert (Hask : forall {A} (k : Q -> M Exc StepState A), (ask (o_monotonic os) ≫= k) s = k now s1) by done.
  rewrite Hask. cbv zeta. destruct (seconds_le (remaining_of deadline now) (Finite 0)); cbn [negb].
  { left. split; [by left|]. do 2 eexists. split; reflexivity. }
  assert (Hens : forall {A} (k : unit -> M Exc StepState A) e, (ensure true e ≫= k) s1 = k tt s1) by done. rewrite Hens.
  unfold cancelled. destruct cancellable; [|right; split; [intros [?|[? _]]; done|by do 2 eexists]].
  assert (Hask2 : forall {A} (k : option string -> M Exc StepState A),
    (ask (o_cancelled os) ≫= k) s1 = k (o_cancelled os (S (s_turn s))) (s1 <| s_turn := S (s_turn s1) |>)) by done.
  rewrite Hask2. destruct (o_cancelled os (S (s_turn s))) as [reason|].
  - left. split; [right; eauto|]. do 2 eexists. split; reflexivity.
  - right. split; [intros [?|[_ [? ?]]]; done|]. by do 2 eexists.
Qed.

Lemma raises_asked {A} (f : nat -> Result Exc A) : (forall n e, not_started e -> f n <> Err e) -> raises other (ask f ≫= lift_result).
Proof. intros Hf s e s' H He. unfold mbind, M_bind, ask, lift_result in H. injection H as H _. by eapply Hf. Qed.

Lemma prepare_rest_raises remaining : raises other (prepare_rest remaining).
Proof.
  assert (Hasked : forall n e, not_started e -> o_resolve_cwd os n <> Err e /\ o_resolve_checkout os n <> Err e /\ o_mkdir os n <> Err e /\
    o_open_logs os n <> Err e) by (intros n e He; by destruct (Hos n e He) as (_ & _ & _ & _ & ? & ? & ? & ? & _)).
  unfold prepare_rest. apply raises_bind; [apply raises_guard|intros _].
  repeat (apply raises_bind; [first [apply raises_asked; intros n e He; by apply (Hasked n e) | apply raises_ask
    | apply raises_ensure; by intros [? ?]]|intros ?; cbv zeta]).
  apply raises_ret.
Qed.

Lemma launch_raises : raises other (launch os strict argv environment).
Proof.
  assert (Hpopen : forall n e l, not_started e -> o_popen os n l <> Err e).
  { intros n e l He. by destruct (Hos n e He) as (_ & _ & _ & _ & _ & _ & _ & _ & ?). }
  unfold launch, launch_strict_host, abandon_after_launch_failure, wait_for_parent. destruct strict.
  - raises; try (by intros [? ?]); try apply raises_ask.
    + eapply (raises_handle _ _ _ other); [apply raises_asked; eauto|]. intros e He. destruct (is_os_error e); [raising|done].
    + raising.
  - intros s e s' H He. unfold mbind, M_bind, ask, lift_result, note, mret, M_ret in H.
    destruct (o_popen os (s_turn s) argv) as [pid|e1] eqn:Hp; [done|]. injection H as -> _. by eapply Hpopen.
Qed.

(** C40. The error by which a step tells the worker that it was not started is exact: when no answer of the operating system or
    of the guard is itself this error, a call raises it if and only if, when it was called, the overall deadline had
    passed or the run was cancelled; and then nothing was done at all: no command was launched, no guard asked,
    nothing signalled, measured or read. *)
Theorem not_started_exact s r s' : fresh s -> run_step s = (r, s') ->
  ((exists message, r = Err (OverallDeadlineExceededError message)) <-> too_late s) /\ (too_late s -> s_log s' = []).
Proof.
  intros [Hlog _] H. unfold Runner.run_step, mbind, M_bind in H.
  destruct (prepare_cases s) as [(Hl & message & s1 & Hp & Hs1)|(Hn & remaining & s1 & Hp)]; rewrite Hp in H.
  { injection H as <- <-. rewrite Hs1, Hlog. split; [|done]. split; eauto. }
  split; [|done]. split; [|done]. intros [message ->]. exfalso.
  assert (Hno : ~ not_started (OverallDeadlineExceededError message)); [|apply Hno; by exists message].
  destruct (prepare_rest remaining s1) as [[[[step_deadline started] started_at]|e] s2] eqn:Hr.
  2: { injection H as -> _. by eapply prepare_rest_raises. }
  destruct (launch os strict argv environment s2) as [[pid|e] s3] eqn:Hlaunch.
  2: { injection H as -> _. by eapply launch_raises. }
  by eapply after_launch_raises.
Qed.
End ordinary.

(** *** The loops end *)

(** Calls are counted upwards. *)
Definition turns_on (s s' : StepState) : Prop := (s_turn s <= s_turn s')%nat.
#[local] Instance turns_on_refl : Reflexive turns_on.
Proof. intros s. unfold turns_on. lia. Qed.
#[local] Instance turns_on_trans : Transitive turns_on.
Proof. intros s1 s2 s3. unfold turns_on. lia. Qed.

Lemma turns_ask {A} (f : nat -> A) : always turns_on (ask f).
Proof. intros s. unfold turns_on. change (s_turn (ask f s).2) with (S (s_turn s)). lia. Qed.
Lemma turns_note e : always turns_on (note e).
Proof. intros s. unfold turns_on. change (s_turn (note e s).2) with (s_turn s). lia. Qed.
Lemma turns_look f : always turns_on (look f).
Proof.
  intros s. unfold turns_on, look, gets, mbind, M_bind. destruct (s_returncode s); [done|]. cbn.
  destruct (f (s_turn s)); cbn; rsimpl; lia.
Qed.
Lemma turns_cancelled : always turns_on (cancelled os cancellable).
Proof. unfold cancelled. always. apply turns_ask. Qed.
Lemma turns_size logs : always turns_on (size_of os logs).
Proof.
  unfold size_of, answer_of. apply always_handle; [apply _|always; first [apply turns_ask|apply turns_note]|].
  intros e k H. case_match; [|done]. injection H as <-. always.
Qed.

Lemma bind_same {A B} (m : M Exc StepState A) (k k' : A -> M Exc StepState B) s :
  (forall a s1, m s = (Ok a, s1) -> k a s1 = k' a s1) -> (m ≫= k) s = (m ≫= k') s.
Proof. intros H. unfold mbind, M_bind. destruct (m s) as [[a|e] s1]; [by apply H|done]. Qed.

Lemma watch_turns pid environment started started_at step_deadline n :
  (forall k, (n <= k)%nat -> seconds_le deadline (Finite (o_monotonic os k)) = true) ->
  forall t1 t2 s, (n <= s_turn s + t1)%nat -> (n <= s_turn s + t2)%nat ->
  watch os fuel step config deadline cancellable strict pid environment started started_at (S t1) step_deadline s =
  watch os fuel step config deadline cancellable strict pid environment started started_at (S t2) step_deadline s.
Proof.
  intros Hclock. induction t1 as [|t1 IH]; intros t2 s H1 H2; cbn [watch]; apply bind_same; intros ended s1 Hp;
    apply (always_ok _ _ _ _ _ (turns_look _)) in Hp; unfold turns_on in Hp; (destruct ended; [done|]).
  all: apply bind_same; intros now s2 Hm; assert (Hnow : now = o_monotonic os (s_turn s1) /\ s_turn s2 = S (s_turn s1)) by (by injection Hm as <- <-);
    destruct Hnow as [-> Hs2]; clear Hm.
  all: apply bind_same; intros stopped s3 Hc; apply (always_ok _ _ _ _ _ turns_cancelled) in Hc; unfold turns_on in Hc; destruct stopped; [done|].
  all: destruct (seconds_le deadline _) eqn:Hle; [done|].
  all: assert (Hbefore : (s_turn s1 < n)%nat) by (destruct (decide (n <= s_turn s1)%nat) as [Hge|]; [by rewrite Hclock in Hle|lia]).
  { lia. }
  destruct t2 as [|t2]; [lia|].
  destruct (seconds_le step_deadline _); [done|].
  apply bind_same; intros logs_size s4 Hl; apply (always_ok _ _ _ _ _ (turns_size _)) in Hl; unfold turns_on in Hl. destruct logs_size as [total|]; [|done].
  destruct (_ <? total); [done|].
  apply bind_same; intros run_size s5 Hr; apply (always_ok _ _ _ _ _ (turns_size _)) in Hr; unfold turns_on in Hr. destruct run_size as [size|]; [|done].
  destruct (_ <? size); [done|]. apply IH; lia.
Qed.

(** The loop that watches a command ends: when the clock has passed the overall deadline from the [n]-th answer of
    the operating system on, then [n] turns are enough, and more make no difference. *)
Theorem watch_terminates pid environment started started_at step_deadline n :
  (forall k, (n <= k)%nat -> seconds_le deadline (Finite (o_monotonic os k)) = true) ->
  forall turns more s, (n <= s_turn s + turns)%nat ->
  watch os fuel step config deadline cancellable strict pid environment started started_at (S turns + more) step_deadline s =
  watch os fuel step config deadline cancellable strict pid environment started started_at (S turns) step_deadline s.
Proof.
  intros Hclock turns more s Hn. change (S turns + more)%nat with (S (turns + more)).
  apply (watch_turns _ _ _ _ _ n); [done|lia|done].
Qed.
End call.
End runs.

(** ** The environment and the summaries *)

Lemma env_set_keys k v d x : x ∈ map fst (env_set k v d) <-> x = k \/ x ∈ map fst d.
Proof.
  induction d as [|[k' v'] d IH]; cbn [env_set map].
  - rewrite list_elem_of_singleton, elem_of_nil. naive_solver.
  - case_bool_decide as Hk; cbn [map fst]; rewrite !elem_of_cons; [subst; naive_solver|]. rewrite IH. naive_solver.
Qed.

Lemma inherited_keys environ keys x : forall d,
  x ∈ map fst (foldl (fun d key => match environ key with Some v => env_set key v d | None => d end) d keys) <->
  x ∈ map fst d \/ (x ∈ keys /\ is_Some (environ x)).
Proof.
  induction keys as [|k keys IH]; intros d; cbn [foldl].
  - rewrite elem_of_nil. naive_solver.
  - rewrite IH, elem_of_cons. destruct (environ k) as [v|] eqn:He.
    + rewrite env_set_keys. naive_solver.
    + split; [naive_solver|]. intros [?|[[->|?] [? ?]]]; [by left|congruence|]. right. split; [done|by eexists].
Qed.

(** The environment of a step holds what the step sets and what it may inherit, and nothing else. *)
Lemma step_environment_keys environ config step allowed k :
  k ∈ map fst (step_environment environ config step allowed) <->
  k ∈ map fst (ts_environment step) \/
  (k ∈ cf_inherited_environment_keys config /\ (forall l, allowed = Some l -> k ∈ l) /\ is_Some (environ k)).
Proof.
  unfold step_environment. set (keys := match allowed with Some _ => _ | None => _ end).
  assert (Hset : forall l d, k ∈ map fst (foldl (fun d (kv : string * string) => env_set kv.1 kv.2 d) d l) <-> k ∈ map fst l \/ k ∈ map fst d).
  { induction l as [|[x v] l IH]; intros d; cbn [foldl map]; [rewrite elem_of_nil; naive_solver|].
    rewrite IH, env_set_keys, elem_of_cons. naive_solver. }
  rewrite Hset, inherited_keys. cbn [map]. rewrite elem_of_nil.
  assert (Hkeys : k ∈ keys <-> k ∈ cf_inherited_environment_keys config /\ forall l, allowed = Some l -> k ∈ l).
  { unfold keys. destruct allowed as [l|]; [|naive_solver]. rewrite list_elem_of_filter. naive_solver. }
  rewrite Hkeys. naive_solver.
Qed.

(** No value of the environment is shown. *)
Lemma environment_summary_hides config environment :
  map fst (environment_summary config environment) = sort_strings (map fst environment) /\
  Forall (fun kv => kv.2 ∈ ["[REDACTED]"; "[SET]"]) (environment_summary config environment).
Proof.
  unfold environment_summary. rewrite map_map. cbn [fst]. rewrite map_id. split; [done|].
  apply Forall_forall. intros kv (k & -> & _)%list_elem_of_fmap. cbn. case_match; set_solver.
Qed.

(** A summary is within its limit. *)
Lemma summary_bounded config limit content : 0 <= limit -> str_length (summary_of config limit content).1 <= limit.
Proof. intros H. unfold summary_of. cbn [fst]. rewrite <- to_chars_length, to_of_chars, length_take. lia. Qed.
