(* ===== verification/Worktree.v ===== *)
(** * Disposable worktrees

    [client/python/execution_worker/worktree.py]: a detached Git worktree that belongs to one
    run, its verification and its removal, on the file system of [Files], which other
    processes may change between any two calls.

    Git is the parameter [git]: given the number of the call, the directory, the arguments
    and the file system, it exits with a code and prints something, or cannot be started, and
    may change every file.  The device and inode of a directory are what [identity]
    answers.  The actions that change something, the commands that are run, and what
    has been established before are logged.  What Git prints is ASCII text; the paths in it
    are absolute and without [..]. *)

From S2P Require Import Prelude Text Json Evidence JsonCodec Checks Parsers WorkerModels WorkerPolicy Files EvidenceStore.
#[local] Open Scope Z_scope.

(** [_SHA] *)
Definition SHA (sha : string) : bool := exactly 40 is_hex sha.

(** [subprocess.CalledProcessError] *)
Definition CalledProcessError : Exc := OtherError "CalledProcessError" false false "".

(** [CanonicalSnapshot] *)
Record CanonicalSnapshot := {
  cs_head : string;
  cs_branch : string;
  cs_index : string;
  cs_working_tree : string;
  cs_untracked : string;
  cs_tracked_tree : string;
}.
#[export] Instance CanonicalSnapshot_eq_dec : EqDecision CanonicalSnapshot.
Proof. solve_decision. Defined.

(** [DisposableWorktree]; the device and the inode of the checkout are set together. *)
Record DisposableWorktree := {
  wt_canonical : path;
  wt_root : path;
  wt_run_directory : path;
  wt_checkout : path;
  wt_sha : string;
  wt_worker_id : string;
  wt_execution_run_id : Z;
  wt_run_identity : string;
  wt_canonical_before : CanonicalSnapshot;
  wt_checkout_identity : option (Z * Z);
}.
#[export] Instance DisposableWorktree_rebuild : Rebuild DisposableWorktree := fun w =>
  {| wt_canonical := wt_canonical w; wt_root := wt_root w; wt_run_directory := wt_run_directory w; wt_checkout := wt_checkout w;
     wt_sha := wt_sha w; wt_worker_id := wt_worker_id w; wt_execution_run_id := wt_execution_run_id w;
     wt_run_identity := wt_run_identity w; wt_canonical_before := wt_canonical_before w;
     wt_checkout_identity := wt_checkout_identity w |}.

(** [str(path)] *)
Definition path_text (p : path) : string := "/" +:+ join "/" p.

(** [DisposableWorktree.marker] *)
Definition marker_path (w : DisposableWorktree) : path := wt_run_directory w ++ [MARKER_NAME].

(** [DisposableWorktree._expected_marker], in the order of its keys *)
Definition marker_fields (w : DisposableWorktree) : list (string * Json) :=
  [("canonical_repository", JStr (path_text (wt_canonical w))); ("execution_run_id", JInt (wt_execution_run_id w));
   ("requested_sha", JStr (lower (wt_sha w))); ("run_identity", JStr (wt_run_identity w)); ("worker_id", JStr (wt_worker_id w))].

(** [json.dumps(..., sort_keys=True)] of it *)
Definition marker_text (w : DisposableWorktree) : string :=
  "{" +:+ join ", " (map (fun kv => quote true kv.1 +:+ ": " +:+ dumps true kv.2) (marker_fields w)) +:+ "}".

(** ** What is done *)

(** The parts of a removal *)
Inductive Stage := Deregistration | CheckoutRemoval | CanonicalCheck | OwnershipCheck | RunRemoval.

Inductive Act :=
| Git (directory : path) (argv : list string) (answer : Result Exc (Z * string))
| Made (p : path)
| Wrote (p : path)
| Removed (p : path) (answer : Result Exc unit)
(** There was nothing to remove. *)
| Absent (p : path)
(** Whether Git lists the checkout as a worktree *)
| Registered (p : path) (answer : bool)
(** A part of a removal has ended. *)
| StageEnded (stage : Stage) (answer : Result Exc unit)
(** The marker was found to be that of this run. *)
| Owned
(** The canonical checkout was found to be as this snapshot says. *)
| Unchanged (s : CanonicalSnapshot).

Record Site := { site_disk : Disk; acts : list Act }.

Section worktree.
Context (others : nat -> Fs -> Fs) (git : nat -> path -> list string -> Fs -> Result Exc (Z * string) * Fs)
        (identity : nat -> path -> Z * Z).

Definition on_disk {A} (m : M Exc Disk A) : M Exc Site A := fun s =>
  let '(r, d) := m (site_disk s) in (r, {| site_disk := d; acts := acts s |}).
Definition note_act (a : Act) : M Exc Site unit := fun s => (Ok tt, {| site_disk := site_disk s; acts := acts s ++ [a] |}).

(** [_git] *)
Definition run_git (directory : path) (argv : list string) (check : bool) : M Exc Site (Z * string) :=
  answer ← on_disk (fun d => let '(r, d') := call others (fun n fs => git n directory argv fs) d in (Ok r, d'));
  note_act (Git directory argv answer);;
  '(code, out) ← lift_result answer;
  ensure (negb check || (code =? 0)) CalledProcessError;;
  mret (code, out).

Definition git_output (directory : path) (argv : list string) : M Exc Site string :=
  '(_, out) ← run_git directory argv true; mret out.

(** ** Checked paths *)

(** [_assert_no_reparse_points] *)
Definition assert_no_reparse_points (p : path) : M Exc Site unit := on_disk (assert_no_reparse_ancestry others p).

(** [_assert_contained] *)
Definition assert_contained (p root : path) (label : string) : M Exc Site unit :=
  assert_no_reparse_points p;;
  inside ← on_disk (contains others p root);
  ensure inside (ValueError (label +:+ " escaped worker run directory")).

(** [path.exists() or path.is_symlink()] *)
Definition present (p : path) : M Exc Site bool :=
  there ← on_disk (exists_ others p);
  if there : bool then mret true else on_disk (is_symlink others p).

(** [_read_bounded_regular_text] *)
Definition read_marker_text (p : path) : M Exc Disk string :=
  before ← lstat others p;
  ensure (negb (st_link before) && st_regular before) (RuntimeError "worker ownership marker is not a regular file");;
  ensure (st_size before <=? MAX_MARKER_BYTES) (RuntimeError "worker ownership marker exceeds its byte limit");;
  fd ← convert_os_error (open_nofollow others p) (RuntimeError "worker ownership marker is unreadable");
  opened ← fstat others fd;
  ensure (st_regular opened && same_file_identity before opened)
    (RuntimeError "worker ownership marker changed while being opened");;
  data ← read_at others fd 0 (MAX_MARKER_BYTES + 1);
  ensure (str_length data <=? MAX_MARKER_BYTES) (RuntimeError "worker ownership marker exceeds its byte limit");;
  after ← fstat others fd;
  ensure (same_file_identity before after) (RuntimeError "worker ownership marker changed while being read");;
  after_path ← lstat others p;
  ensure (negb (st_link after_path) && same_file_identity before after_path)
    (RuntimeError "worker ownership marker changed while being read");;
  mret data.

(** [_remove_owned_directory] *)
Definition remove_owned_directory (p root : path) : M Exc Site unit :=
  assert_contained p root "cleanup target";;
  there ← present p;
  if there : bool then
    metadata ← on_disk (lstat others p);
    ensure (negb (st_link metadata)) (RuntimeError "refusing to remove symlinked worker checkout");;
    answer ← on_disk (fun d => let '(r, d') := rmtree others p d in (Ok r, d'));
    note_act (Removed p answer);;
    lift_result answer
  else note_act (Absent p).

(** ** What Git says *)

(** [_canonical_snapshot] *)
Definition canonical_snapshot (canonical : path) : M Exc Site CanonicalSnapshot :=
  '(branch_code, branch) ← run_git canonical ["symbolic-ref"; "--quiet"; "--short"; "HEAD"] false;
  status ← git_output canonical ["status"; "--porcelain=v1"; "--untracked-files=all"];
  head ← git_output canonical ["rev-parse"; "HEAD"];
  index ← git_output canonical ["diff"; "--cached"; "--no-ext-diff"; "--binary"];
  working_tree ← git_output canonical ["diff"; "--no-ext-diff"; "--binary"];
  tracked_tree ← git_output canonical ["ls-files"; "-s"];
  let untracked := filter (fun line => starts_with (to_chars "??") line = true) (splitlines [] (to_chars status)) in
  mret {| cs_head := strip head; cs_branch := if branch_code =? 0 then strip branch else "DETACHED"; cs_index := index;
          cs_working_tree := working_tree; cs_untracked := join (String (chr 10) "") (map of_chars untracked);
          cs_tracked_tree := tracked_tree |}.

(** The path of a line of [git worktree list --porcelain] *)
Definition listed_path (line : list ascii) : option path :=
  let prefix := to_chars "worktree " in
  if starts_with prefix line then Some (posix_parts (of_chars (drop (length prefix) line))) else None.

(** The loop of [_registered_worktree] *)
Fixpoint find_registered (lines : list (list ascii)) (checkout : path) : M Exc Disk bool :=
  match lines with
  | [] => mret false
  | line :: rest =>
      match listed_path line with
      | None => find_registered rest checkout
      | Some candidate =>
          resolved ← resolve others candidate;
          if bool_decide (resolved = checkout) then mret true else find_registered rest checkout
      end
  end.

(** [_registered_worktree] *)
Definition registered_worktree (canonical checkout : path) : M Exc Site bool :=
  checkout_resolved ← on_disk (resolve others checkout);
  listing ← git_output canonical ["worktree"; "list"; "--porcelain"];
  registered ← on_disk (find_registered (splitlines [] (to_chars listing)) checkout_resolved);
  note_act (Registered checkout registered);;
  mret registered.

(** ** The worktree of a run *)

Section operations.
Context (w : DisposableWorktree).

(** [DisposableWorktree.logs] *)
Definition worktree_logs : M Exc Site path :=
  let logs := wt_run_directory w ++ ["logs"] in
  assert_contained logs (wt_run_directory w) "logs";;
  on_disk (mkdir_parents others (length logs) logs);;
  note_act (Made logs);;
  mret logs.

(** [DisposableWorktree._verify_ownership] *)
Definition verify_worktree_ownership : M Exc Site unit :=
  ensure (negb (bool_decide (wt_run_directory w = wt_root w))) (RuntimeError "refusing to clean worker root");;
  assert_contained (wt_run_directory w) (wt_root w) "run directory";;
  assert_contained (wt_checkout w) (wt_run_directory w) "checkout";;
  found ← on_disk (handle (text ← read_marker_text (marker_path w); require (loads text) JSONError)
            (fun e => if is_os_error e || bool_decide (exc_name e = "JSONDecodeError")
                      then Some (raise (RuntimeError "worker ownership marker is unreadable")) else None));
  ensure (py_equal found (JObj (marker_fields w))) (RuntimeError "worker ownership marker does not match this run");;
  note_act Owned.

(** [DisposableWorktree.verify_canonical_integrity] *)
Definition verify_canonical_integrity : M Exc Site unit :=
  now ← canonical_snapshot (wt_canonical w);
  ensure (bool_decide (now = wt_canonical_before w)) (RuntimeError "canonical checkout integrity changed");;
  note_act (Unchanged now).

(** [os.lstat] of a directory, with its device and inode *)
Definition lstat_identity (p : path) : M Exc Disk (Stat * (Z * Z)) := fun d =>
  let '(r, d') := lstat others p d in
  (match r with Ok st => Ok (st, identity (calls d) p) | Err e => Err e end, d').

(** [DisposableWorktree.verify_checkout_integrity] *)
Definition verify_checkout_integrity : M Exc Site unit :=
  verify_worktree_ownership;;
  '(metadata, found) ← on_disk (lstat_identity (wt_checkout w));
  ensure (negb (st_link metadata) && st_directory metadata && bool_decide (wt_checkout_identity w = Some found))
    (RuntimeError "worker checkout integrity changed");;
  registered ← registered_worktree (wt_canonical w) (wt_checkout w);
  ensure registered (RuntimeError "worker checkout registration changed");;
  head ← git_output (wt_checkout w) ["rev-parse"; "HEAD"];
  ensure (bool_decide (lower (strip head) = lower (wt_sha w))) (RuntimeError "worker checkout commit identity changed");;
  verify_canonical_integrity.

(** A part of a removal, noted when it ends *)
Definition staged (stage : Stage) (m : M Exc Site unit) : M Exc Site unit := fun site =>
  let '(r, site') := m site in (r, {| site_disk := site_disk site'; acts := acts site' ++ [StageEnded stage r] |}).

(** The steps that [cleanup] and a failed creation share: Git's registration, the directory of the checkout, the two
    verifications and the directory of the run *)
Definition remove_checkout : M Exc Site unit :=
  staged Deregistration
    (registered ← registered_worktree (wt_canonical w) (wt_checkout w);
     if registered : bool
     then _ ← git_output (wt_canonical w) ["worktree"; "remove"; "--force"; path_text (wt_checkout w)]; mret tt
     else mret tt);;
  staged CheckoutRemoval
    (there ← present (wt_checkout w);
     if there : bool then remove_owned_directory (wt_checkout w) (wt_run_directory w) else note_act (Absent (wt_checkout w)));;
  staged CanonicalCheck verify_canonical_integrity;;
  staged OwnershipCheck verify_worktree_ownership;;
  staged RunRemoval (remove_owned_directory (wt_run_directory w) (wt_root w)).

(** [DisposableWorktree.cleanup] *)
Definition cleanup : M Exc Site unit := verify_worktree_ownership;; remove_checkout.

(** The [try] of [create_worktree], up to its last verification: the worktree with the identity of its checkout *)
Definition add_checkout : M Exc Site DisposableWorktree :=
  _ ← git_output (wt_canonical w) ["worktree"; "add"; "--detach"; path_text (wt_checkout w); wt_sha w];
  assert_contained (wt_checkout w) (wt_run_directory w) "checkout";;
  '(metadata, found) ← on_disk (lstat_identity (wt_checkout w));
  ensure (negb (st_link metadata) && st_directory metadata) (RuntimeError "worker checkout is not a regular directory");;
  head ← git_output (wt_checkout w) ["rev-parse"; "HEAD"];
  ensure (bool_decide (lower (strip head) = lower (wt_sha w))) (RuntimeError "detached worktree HEAD mismatch");;
  mret (w <| wt_checkout_identity := Some found |>).
End operations.

(** The worktree of a new run *)
Definition run_path (root : path) (run_identity : string) : path := root ++ ["run-" +:+ run_identity].
Definition new_worktree (canonical root : path) (sha worker_id : string) (execution_run_id : Z) (run_identity : string)
    (before : CanonicalSnapshot) : DisposableWorktree :=
  {| wt_canonical := canonical; wt_root := root; wt_run_directory := run_path root run_identity;
     wt_checkout := run_path root run_identity ++ ["checkout"]; wt_sha := sha; wt_worker_id := worker_id;
     wt_execution_run_id := execution_run_id; wt_run_identity := run_identity;
     wt_canonical_before := before; wt_checkout_identity := None |}.

(** [create_worktree]; [run_identity] is what [uuid4().hex] gave. *)
Definition create_worktree (canonical root : path) (sha worker_id : string) (execution_run_id : Z) (run_identity : string)
    : M Exc Site DisposableWorktree :=
  ensure (SHA sha) (ValueError "requested SHA must be exactly 40 hexadecimal characters");;
  ensure (negb (bool_decide (worker_id = "")) && (1 <=? execution_run_id)) (ValueError "worker run ownership identity is required");;
  assert_no_reparse_points canonical;;
  assert_no_reparse_points root;;
  is_checkout ← on_disk (is_dir others canonical);
  is_checkout ← (if is_checkout : bool then on_disk (exists_ others (canonical ++ [".git"])) else mret false);
  ensure is_checkout (ValueError "configured repository is not a Git checkout");;
  overlap ← on_disk (overlaps others canonical root);
  ensure (negb overlap) (ValueError "worker root and canonical repository must not overlap");;
  '(code, _) ← run_git canonical ["cat-file"; "-e"; sha +:+ "^{commit}"] false;
  ensure (code =? 0) LocalCommitUnavailableError;;
  on_disk (mkdir_parents others (length root) root);;
  note_act (Made root);;
  assert_no_reparse_points root;;
  let run := run_path root run_identity in
  assert_contained run root "run directory";;
  on_disk (mkdir others run);;
  note_act (Made run);;
  before ← canonical_snapshot canonical;
  let w := new_worktree canonical root sha worker_id execution_run_id run_identity before in
  on_disk (write_text others (marker_path w) (marker_text w));;
  note_act (Wrote (marker_path w));;
  handle (w' ← add_checkout w; verify_checkout_integrity w';; mret w')
    (fun e => Some (remove_checkout w;; raise e)).
End worktree.
