(* ===== verification/WorktreeProofs.v ===== *)
(** * Worktrees: what they may touch, and when they are removed

    Theorems about [Worktree] for every Git and every other process: the commands and the
    paths are fixed by the run, a worktree that is handed out was verified, and nothing is
    removed before the marker was found to be that of the run. *)

From S2P Require Import Prelude Text Json Evidence JsonCodec Checks Parsers WorkerModels WorkerPolicy Files EvidenceStore Effects EvidenceProofs Worktree.
#[local] Open Scope Z_scope.

(** ** Traces *)

(** The actions between two states are all of this kind. *)
Definition acted (P : Act -> Prop) (s s' : Site) : Prop := exists evs, acts s' = acts s ++ evs /\ Forall P evs.

#[global] Instance acted_refl P : Reflexive (acted P).
Proof. intros s. exists []. by rewrite app_nil_r. Qed.
#[global] Instance acted_trans P : Transitive (acted P).
Proof.
  intros s1 s2 s3 (e1 & H1 & F1) (e2 & H2 & F2). exists (e1 ++ e2). rewrite H2, H1, app_assoc. split; [done|by apply Forall_app].
Qed.

Lemma acted_weaken (P Q : Act -> Prop) s s' : (forall a, P a -> Q a) -> acted P s s' -> acted Q s s'.
Proof. intros H (evs & He & Hf). exists evs. split; [done|by eapply Forall_impl]. Qed.

(** A query of Git *)
Definition snapshot_argv : list (list string) :=
  [["symbolic-ref"; "--quiet"; "--short"; "HEAD"]; ["status"; "--porcelain=v1"; "--untracked-files=all"]; ["rev-parse"; "HEAD"];
   ["diff"; "--cached"; "--no-ext-diff"; "--binary"]; ["diff"; "--no-ext-diff"; "--binary"]; ["ls-files"; "-s"]].
Definition query_of (canonical : path) (a : Act) : Prop :=
  match a with Git d argv _ => d = canonical /\ argv ∈ ["worktree"; "list"; "--porcelain"] :: snapshot_argv | _ => False end.

Section traces.
Context (others : nat -> Fs -> Fs) (git : nat -> path -> list string -> Fs -> Result Exc (Z * string) * Fs)
        (identity : nat -> path -> Z * Z).

(** *** Calls on the disk leave no trace. *)

#[local] Notation silent := (silent (E := Exc) acts).
#[local] Notation traces := (logs (E := Exc) acts).

Lemma silent_disk {A} (m : M Exc Disk A) : silent (on_disk m).
Proof. intros s. unfold on_disk. by destruct (m (site_disk s)). Qed.

Lemma silent_reparse p : silent (assert_no_reparse_points others p).
Proof. apply silent_disk. Qed.

Lemma silent_contained p root label : silent (assert_contained others p root label).
Proof. unfold Effects.silent, assert_contained. always; apply silent_disk. Qed.

Lemma silent_present p : silent (present others p).
Proof. unfold Effects.silent, present. always; apply silent_disk. Qed.

Lemma silent_acted {A} (m : M Exc Site A) P : silent m -> always (acted P) m.
Proof. intros Hm s. exists []. rewrite app_nil_r. split; [apply Hm|constructor]. Qed.

Lemma always_acted {A} (m : M Exc Site A) P s r s' : always (acted P) m -> m s = (r, s') -> acted P s s'.
Proof. intros Hm He. specialize (Hm s). by rewrite He in Hm. Qed.

Lemma acted_note P a : P a -> always (acted P) (note_act a).
Proof. intros Ha s. exists [a]. split; [done|by constructor]. Qed.

(** *** Git *)

Lemma acted_git P d argv check : (forall answer, P (Git d argv answer)) -> always (acted P) (run_git others git d argv check).
Proof.
  intros HP. unfold run_git. always; [apply silent_acted, silent_disk|by apply acted_note|].
  destruct a1 as [code out]. always.
Qed.

Lemma acted_output P d argv : (forall answer, P (Git d argv answer)) -> always (acted P) (git_output others git d argv).
Proof. intros HP. unfold git_output. apply always_bind; [apply _|by apply acted_git|]. intros [code out]. always. Qed.

(** A command that succeeded is in the trace with its output. *)
Lemma output_ok d argv s out s' : git_output others git d argv s = (Ok out, s') ->
  acts s' = acts s ++ [Git d argv (Ok (0, out))].
Proof.
  unfold git_output, run_git. intros H. inv_run H. destruct a as [code out']. inv_run H.
  destruct a2 as [code0 out0]. inv_run Hr. apply (silent_run acts _ _ _ _ (silent_disk _)) in Hr0.
  injection Hr1 as _ <-. simplify_eq. apply Z.eqb_eq in Hb as ->. cbn. by rewrite Hr0.
Qed.

Lemma acted_snapshot canonical : always (acted (query_of canonical)) (canonical_snapshot others git canonical).
Proof.
  unfold canonical_snapshot. apply always_bind; [apply _|apply acted_git; intros; split; [done|set_solver]|]. intros [code branch].
  always; try (apply acted_output; intros; split; [done|set_solver]).
Qed.

(** *** The trace of a call, for each way it ends *)

Lemma traces_acted {A} (m : M Exc Site A) P : always (acted P) m -> traces m (fun _ => Forall P).
Proof. intros Hm s r s' He. by eapply always_acted in He. Qed.

Lemma traces_note a : traces (note_act a) (fun _ evs => evs = [a]).
Proof. intros s r s' [= <- <-]. by exists [a]. Qed.

Lemma traces_output d argv : traces (git_output others git d argv)
  (fun r evs => match r with Ok out => evs = [Git d argv (Ok (0, out))] | Err _ => exists answer, evs = [Git d argv answer] end).
Proof.
  intros s r s' He. destruct r as [out|e].
  - apply output_ok in He. eauto.
  - assert (Hm : exists answer, acts s' = acts s ++ [Git d argv answer]); [|destruct Hm as [answer Ha]; eauto].
    unfold git_output, run_git in He. revert He. unfold mbind, M_bind.
    destruct (on_disk _ s) as [[answer|e1] s1] eqn:Hd.
    + apply (silent_run acts _ _ _ _ (silent_disk _)) in Hd. cbn. intros He. exists answer. rewrite <-Hd.
      destruct answer as [[code out]|e1]; cbn in He; [|by injection He as _ <-].
      unfold ensure in He. destruct (code =? 0); cbn in He; by injection He as ? <-.
    + exfalso. revert Hd. unfold on_disk. by destruct (call _ _ _).
Qed.

Lemma still_ret {A} (a : A) : silent (mret a).
Proof. by intros s. Qed.
Lemma silent_lift {A} (x : Result Exc A) : silent (lift_result x).
Proof. by intros s. Qed.
Lemma still_ensure b e : silent (ensure b e).
Proof. by destruct b. Qed.

Hint Resolve silent_disk silent_reparse silent_contained silent_present still_ret silent_lift still_ensure : silent.

(** To ask Git for the registration of a checkout *)
Lemma registered_trace canonical checkout : traces (registered_worktree others git canonical checkout)
  (fun r evs => match r with
     | Ok b => exists listing, evs = [Git canonical ["worktree"; "list"; "--porcelain"] (Ok (0, listing)); Registered checkout b]
     | Err _ => Forall (query_of canonical) evs
     end).
Proof.
  unfold registered_worktree. apply logs_step; [auto with silent|done|]. intros resolved.
  eapply logs_bind; [apply traces_output| |].
  - intros e evs [answer ->]. constructor; [split; [done|set_solver]|done].
  - intros listing ? ->. apply logs_step; [auto with silent|intros e; constructor; [split; [done|set_solver]|done]|].
    intros b s r s' [= <- <-]. exists [Registered checkout b]. split; [done|]. by exists listing.
Qed.

Lemma staged_trace stage m (T : Result Exc unit -> list Act -> Prop) :
  traces m T -> traces (staged stage m) (fun r evs => exists evs', evs = evs' ++ [StageEnded stage r] /\ T r evs').
Proof.
  intros Hm s r s' H. unfold staged in H. destruct (m s) as [r1 s1] eqn:H1. injection H as -> <-.
  destruct (Hm _ _ _ H1) as (evs & Ha & Ht). exists (evs ++ [StageEnded stage r]). cbn. rewrite Ha, app_assoc. eauto.
Qed.

Section of_run.
Context (w : DisposableWorktree).

Lemma ownership_trace : traces (verify_worktree_ownership others w)
  (fun r evs => evs = match r with Ok _ => [Owned] | Err _ => [] end).
Proof.
  unfold verify_worktree_ownership. repeat (apply logs_step; [auto with silent|done|intros ?]).
  intros s r s' [= <- <-]. by exists [Owned].
Qed.

Lemma integrity_trace : traces (verify_canonical_integrity others git w)
  (fun r evs => exists qs, Forall (query_of (wt_canonical w)) qs /\
                evs = qs ++ match r with Ok _ => [Unchanged (wt_canonical_before w)] | Err _ => [] end).
Proof.
  unfold verify_canonical_integrity. eapply logs_bind; [apply traces_acted, acted_snapshot| |].
  - intros e evs Hq. exists evs. by rewrite app_nil_r.
  - intros now qs Hq s r s' He. unfold ensure in He. case_bool_decide as Hnow; cbn in He; injection He as <- <-.
    + exists [Unchanged now]. split; [done|]. exists qs. by rewrite Hnow.
    + exists []. rewrite app_nil_r. split; [done|]. exists qs. by rewrite !app_nil_r.
Qed.

(** The removal of a directory: it is removed, or it is not there, or the removal raises. *)
Definition directory_trace (p : path) (r : Result Exc unit) (evs : list Act) : Prop :=
  match r with
  | Ok _ => evs = [Removed p (Ok tt)] \/ evs = [Absent p]
  | Err e => evs = [] \/ evs = [Removed p (Err e)]
  end.

Lemma remove_owned_trace p root : traces (remove_owned_directory others p root) (directory_trace p).
Proof.
  unfold remove_owned_directory. apply logs_step; [auto with silent|by left|intros _].
  apply logs_step; [auto with silent|by left|intros [|]].
  2: { intros s r s' [= <- <-]. exists [Absent p]. split; [done|]. by right. }
  apply logs_step; [auto with silent|by left|intros metadata].
  apply logs_step; [auto with silent|by left|intros _].
  apply logs_step; [auto with silent|by left|intros answer].
  intros s r s' He. injection He as <- <-. exists [Removed p answer]. split; [done|].
  destruct answer as [[]|e]; [by left|by right].
Qed.

Definition remove_argv : list string := ["worktree"; "remove"; "--force"; path_text (wt_checkout w)].

(** The command that removes Git's registration *)
Definition deregistering (a : Act) : Prop :=
  query_of (wt_canonical w) a \/ a = Registered (wt_checkout w) true \/ exists answer, a = Git (wt_canonical w) remove_argv answer.

(** What each part of a removal does, when it succeeds and when it raises *)
Definition stage_trace (stage : Stage) (r : Result Exc unit) (evs : list Act) : Prop :=
  match stage with
  | Deregistration =>
      match r with
      | Ok _ => exists listing registered more,
          evs = [Git (wt_canonical w) ["worktree"; "list"; "--porcelain"] (Ok (0, listing)); Registered (wt_checkout w) registered] ++ more /\
          (if registered : bool then exists out, more = [Git (wt_canonical w) remove_argv (Ok (0, out))] else more = [])
      | Err _ => Forall deregistering evs
      end
  | CheckoutRemoval => directory_trace (wt_checkout w) r evs
  | CanonicalCheck => exists qs, Forall (query_of (wt_canonical w)) qs /\
      evs = qs ++ match r with Ok _ => [Unchanged (wt_canonical_before w)] | Err _ => [] end
  | OwnershipCheck => evs = match r with Ok _ => [Owned] | Err _ => [] end
  | RunRemoval => directory_trace (wt_run_directory w) r evs
  end.

(** The parts one after the other: all of them succeed, or the first that raises ends the removal with its error. *)
Inductive stages_trace : list Stage -> Result Exc unit -> list Act -> Prop :=
| stages_done : stages_trace [] (Ok tt) []
| stage_failed stage rest e evs :
    stage_trace stage (Err e) evs -> stages_trace (stage :: rest) (Err e) (evs ++ [StageEnded stage (Err e)])
| stage_passed stage rest r evs more :
    stage_trace stage (Ok tt) evs -> stages_trace rest r more ->
    stages_trace (stage :: rest) r (evs ++ StageEnded stage (Ok tt) :: more).

Definition REMOVAL : list Stage := [Deregistration; CheckoutRemoval; CanonicalCheck; OwnershipCheck; RunRemoval].
Definition removal_trace : Result Exc unit -> list Act -> Prop := stages_trace REMOVAL.

Lemma deregistration_trace :
  traces (registered ← registered_worktree others git (wt_canonical w) (wt_checkout w);
          if registered : bool then _ ← git_output others git (wt_canonical w) remove_argv; mret tt else mret tt)
    (stage_trace Deregistration).
Proof.
  assert (Hq : forall evs, Forall (query_of (wt_canonical w)) evs -> Forall deregistering evs).
  { intros evs H. eapply Forall_impl; [exact H|]. intros a. by left. }
  eapply logs_bind; [apply registered_trace|intros e evs H; by apply Hq|].
  intros registered evs (listing & ->). destruct registered.
  - eapply logs_bind; [apply traces_output| |].
    + intros e evs [answer ->]. cbn. constructor; [left; split; [done|set_solver]|].
      constructor; [right; by left|]. constructor; [right; right; by eexists|done].
    + intros out ? ->. apply logs_silent; [auto with silent|]. intros [[]|e]; cbn.
      * exists listing, true. eauto.
      * constructor; [left; split; [done|set_solver]|]. constructor; [right; by left|].
        constructor; [right; right; by eexists|done].
  - intros s r s' [= <- <-]. exists []. rewrite app_nil_r. split; [done|]. cbn. by exists listing, false, [].
Qed.

(** One part, and those after it *)
Lemma stage_then stage rest m k :
  traces m (stage_trace stage) -> traces k (stages_trace rest) -> traces (staged stage m;; k) (stages_trace (stage :: rest)).
Proof.
  intros Hm Hk. eapply logs_bind; [by apply staged_trace| |].
  - intros e evs (evs' & -> & H). by constructor.
  - intros [] evs (evs' & -> & H). eapply logs_weaken; [exact Hk|]. intros r more Hmore. rewrite <- app_assoc. by constructor.
Qed.

Lemma remove_checkout_trace : traces (remove_checkout others git w) removal_trace.
Proof.
  unfold remove_checkout. apply stage_then; [apply deregistration_trace|].
  apply stage_then.
  { apply logs_step; [auto with silent|by left|]. intros [|]; [apply remove_owned_trace|].
    intros s r s' [= <- <-]. exists [Absent (wt_checkout w)]. split; [done|]. by right. }
  apply stage_then; [apply integrity_trace|]. apply stage_then; [apply ownership_trace|].
  eapply logs_weaken; [apply staged_trace, remove_owned_trace|]. intros [[]|e] evs (evs' & -> & H).
  - constructor; [done|constructor].
  - by constructor.
Qed.

(** Whatever Git and the other processes do, and however it ends: [cleanup] does nothing before the marker of the
    directory was found to be that of this run; then it touches only the registration and the directory
    of the checkout; and it removes the directory of the run only when, after that, the canonical checkout was found as
    it was before the run and the marker was found once more to be that of this run; and it goes through all of these
    parts unless one of them raises. *)
Theorem cleanup_ordered s r s' : cleanup others git w s = (r, s') ->
  exists evs, acts s' = acts s ++ evs /\
    ((exists e, r = Err e /\ evs = []) \/ exists removal, evs = Owned :: removal /\ removal_trace r removal).
Proof.
  revert s r s'. change (traces (cleanup others git w)
    (fun r evs => (exists e, r = Err e /\ evs = []) \/ exists removal, evs = Owned :: removal /\ removal_trace r removal)).
  unfold cleanup. eapply logs_bind; [apply ownership_trace| |].
  - intros e ? ->. left. eauto.
  - intros _ ? ->. eapply logs_weaken; [apply remove_checkout_trace|]. intros r evs H. right. eauto.
Qed.

(** ** Creation *)

(** The commands that make the checkout and look at it *)
Definition add_argv : list string := ["worktree"; "add"; "--detach"; path_text (wt_checkout w); wt_sha w].
Definition attempt_act (a : Act) : Prop :=
  query_of (wt_canonical w) a \/ (exists answer, a = Git (wt_canonical w) add_argv answer)
  \/ (exists answer, a = Git (wt_checkout w) ["rev-parse"; "HEAD"] answer) \/ a = Owned \/ a = Unchanged (wt_canonical_before w)
  \/ exists b, a = Registered (wt_checkout w) b.

Lemma queries_attempt qs : Forall (query_of (wt_canonical w)) qs -> Forall attempt_act qs.
Proof. intros H. eapply Forall_impl; [exact H|]. intros a. by left. Qed.

(** The verification of a checkout: the marker, Git's registration, its commit, the canonical checkout *)
Lemma verify_checkout_trace : traces (verify_checkout_integrity others git identity w)
  (fun r evs => Forall attempt_act evs /\
     (is_ok r = true -> exists listing head qs, Forall (query_of (wt_canonical w)) qs /\ lower (strip head) = lower (wt_sha w) /\
        evs = [Owned; Git (wt_canonical w) ["worktree"; "list"; "--porcelain"] (Ok (0, listing)); Registered (wt_checkout w) true;
               Git (wt_checkout w) ["rev-parse"; "HEAD"] (Ok (0, head))] ++ qs ++ [Unchanged (wt_canonical_before w)])).
Proof.
  unfold verify_checkout_integrity. eapply logs_bind; [apply ownership_trace|by intros e ? ->|]. intros _ ? ->.
  assert (HO : Forall attempt_act [Owned]) by (constructor; [right; right; right; by left|done]).
  apply logs_step; [auto with silent|done|]. intros [metadata found].
  apply logs_step; [auto with silent|done|]. intros _.
  eapply logs_bind; [apply registered_trace| |].
  { intros e evs Hq. split; [apply Forall_app_2; auto using queries_attempt|done]. }
  intros registered ? [listing ->].
  assert (Hq : Forall attempt_act [Git (wt_canonical w) ["worktree"; "list"; "--porcelain"] (Ok (0, listing)); Registered (wt_checkout w) registered]).
  { constructor; [left; split; [done|set_solver]|]. constructor; [|done]. do 5 right. by eexists. }
  destruct registered; [|intros s r s' [= <- <-]; exists []; rewrite !app_nil_r; (split; [done|]); split; [repeat apply Forall_app_2; auto|done]].
  apply logs_step; [auto with silent|intros e; split; [repeat apply Forall_app_2; auto|done]|]. intros _.
  eapply logs_bind; [apply traces_output| |].
  { intros e evs [answer ->]. split; [|done]. repeat apply Forall_app_2; auto.
    constructor; [right; right; left; eauto|done]. }
  intros head ? ->.
  assert (HH : Forall attempt_act [Git (wt_checkout w) ["rev-parse"; "HEAD"] (Ok (0, head))]).
  { constructor; [right; right; left; eauto|done]. }
  intros s r s' He. unfold ensure in He. case_bool_decide as Hhead; cbn in He.
  2: { injection He as <- <-. exists []. rewrite app_nil_r. split; [done|]. split; [|done].
       rewrite app_nil_r. repeat apply Forall_app_2; auto. }
  destruct (integrity_trace _ _ _ He) as (evs & Ha & qs & Hqs & ->). exists (qs ++ match r with Ok _ => [Unchanged (wt_canonical_before w)] | Err _ => [] end).
  split; [done|]. split.
  - repeat apply Forall_app_2; auto using queries_attempt. destruct r; [|done]. constructor; [|done]. right; right; right; right; by left.
  - intros Hr. destruct r; [|done]. exists listing, head, qs. by split_and!.
Qed.

Lemma add_checkout_trace : traces (add_checkout others git identity w)
  (fun r evs => Forall attempt_act evs /\
     (forall w', r = Ok w' -> exists out head found, w' = w <| wt_checkout_identity := Some found |> /\
        evs = [Git (wt_canonical w) add_argv (Ok (0, out)); Git (wt_checkout w) ["rev-parse"; "HEAD"] (Ok (0, head))])).
Proof.
  unfold add_checkout. eapply logs_bind; [apply traces_output| |].
  { intros e evs [answer ->]. split; [|done]. constructor; [right; left; eauto|done]. }
  intros out ? ->.
  assert (HA : Forall attempt_act [Git (wt_canonical w) add_argv (Ok (0, out))]) by (constructor; [right; left; eauto|done]).
  apply logs_step; [auto with silent|done|]. intros _.
  apply logs_step; [auto with silent|done|]. intros [metadata found].
  apply logs_step; [auto with silent|done|]. intros _.
  eapply logs_bind; [apply traces_output| |].
  { intros e evs [answer ->]. split; [|done]. apply Forall_app_2; [done|]. constructor; [right; right; left; eauto|done]. }
  intros head ? ->.
  assert (HF : Forall attempt_act ([Git (wt_canonical w) add_argv (Ok (0, out))] ++ [Git (wt_checkout w) ["rev-parse"; "HEAD"] (Ok (0, head))])).
  { apply Forall_app_2; [done|]. constructor; [right; right; left; eauto|done]. }
  apply logs_step; [auto with silent|intros e; rewrite app_nil_r; done|]. intros _.
  intros s r s' [= <- <-]. exists []. rewrite app_nil_r. split; [done|]. rewrite app_nil_r. split; [done|].
  intros w' [= <-]. eauto.
Qed.
End of_run.

(** The [try] with its handler *)
Lemma attempt_trace w : traces (handle (w' ← add_checkout others git identity w; verify_checkout_integrity others git identity w';; mret w')
    (fun e => Some (remove_checkout others git w;; raise e)))
  (fun r evs => match r with
     | Ok w' => exists found out h1 listing h2 qs, w' = w <| wt_checkout_identity := Some found |> /\
         Forall (query_of (wt_canonical w)) qs /\ lower (strip h2) = lower (wt_sha w) /\
         evs = [Git (wt_canonical w) (add_argv w) (Ok (0, out)); Git (wt_checkout w) ["rev-parse"; "HEAD"] (Ok (0, h1)); Owned;
                Git (wt_canonical w) ["worktree"; "list"; "--porcelain"] (Ok (0, listing)); Registered (wt_checkout w) true;
                Git (wt_checkout w) ["rev-parse"; "HEAD"] (Ok (0, h2))] ++ qs ++ [Unchanged (wt_canonical_before w)]
     | Err e => exists attempt removal r', Forall (attempt_act w) attempt /\ removal_trace w r' removal /\ evs = attempt ++ removal /\
         (r' = Ok tt \/ r' = Err e)
     end).
Proof.
  assert (Htry : traces (w' ← add_checkout others git identity w; verify_checkout_integrity others git identity w';; mret w')
    (fun r evs => Forall (attempt_act w) evs /\ forall w', r = Ok w' -> exists found out h1 listing h2 qs,
         w' = w <| wt_checkout_identity := Some found |> /\
         Forall (query_of (wt_canonical w)) qs /\ lower (strip h2) = lower (wt_sha w) /\
         evs = [Git (wt_canonical w) (add_argv w) (Ok (0, out)); Git (wt_checkout w) ["rev-parse"; "HEAD"] (Ok (0, h1)); Owned;
                Git (wt_canonical w) ["worktree"; "list"; "--porcelain"] (Ok (0, listing)); Registered (wt_checkout w) true;
                Git (wt_checkout w) ["rev-parse"; "HEAD"] (Ok (0, h2))] ++ qs ++ [Unchanged (wt_canonical_before w)])).
  { eapply logs_bind; [apply add_checkout_trace|by intros e evs [Hf _]|].
    intros w' e1 [H1 Hw]. destruct (Hw w' eq_refl) as (out & h1 & found & -> & ->). clear Hw.
    eapply logs_bind; [apply verify_checkout_trace| |].
    { intros e e2 [H2 _]. split; [apply Forall_app_2; [exact H1|exact H2]|done]. }
    intros u e2 [H2 Hok]. destruct (Hok eq_refl) as (listing & h2 & qs & Hq & Hh & ->).
    intros s r s' [= <- <-]. exists []. rewrite !app_nil_r. split; [done|]. split; [apply Forall_app_2; [exact H1|exact H2]|].
    intros w' [= <-]. exists found, out, h1, listing, h2, qs. by split_and!. }
  revert Htry. generalize (w' ← add_checkout others git identity w; verify_checkout_integrity others git identity w';; mret w').
  intros m Htry s r s' He. unfold handle in He. destruct (m s) as [[w'|e] s1] eqn:H1.
  - injection He as <- <-. destruct (Htry _ _ _ H1) as (evs & Ha & _ & Hok). exists evs. split; [done|]. by apply Hok.
  - destruct (Htry _ _ _ H1) as (e1 & Ha1 & Hf & _). revert He. unfold mbind, M_bind.
    destruct (remove_checkout others git w s1) as [[[]|e'] s2] eqn:H2; destruct (remove_checkout_trace w _ _ _ H2) as (e2 & Ha2 & Ht);
      intros [= <- <-]; exists (e1 ++ e2); rewrite app_assoc, <-Ha1; (split; [done|]); eauto 10.
Qed.

(** What comes before the checkout is made *)
Definition prepare_act (canonical root run : path) (sha : string) (a : Act) : Prop :=
  query_of canonical a \/ (exists answer, a = Git canonical ["cat-file"; "-e"; sha +:+ "^{commit}"] answer)
  \/ a = Made root \/ a = Made run \/ a = Wrote (run ++ [MARKER_NAME]).

Section creation.
Context (canonical root : path) (sha worker_id : string) (execution_run_id : Z) (run_identity : string).
#[local] Notation run := (run_path root run_identity).
#[local] Notation prepared := (Forall (prepare_act canonical root run sha)).
#[local] Notation new := (new_worktree canonical root sha worker_id execution_run_id run_identity).

(** A part of the preparation *)
Lemma traces_prepare {A B} (m : M Exc Site A) (k : A -> M Exc Site B) (T : Result Exc B -> list Act -> Prop) pre :
  prepared pre -> traces m (fun _ => prepared) -> (forall e evs, prepared evs -> T (Err e) evs) ->
  (forall a pre', prepared pre' -> traces (k a) (fun r evs => T r (pre' ++ evs))) ->
  traces (m ≫= k) (fun r evs => T r (pre ++ evs)).
Proof.
  intros Hpre Hm HE HK. eapply logs_bind; [exact Hm| |].
  - intros e evs H. by apply HE, Forall_app.
  - intros a evs H. eapply logs_weaken; [by apply (HK a (pre ++ evs)), Forall_app|]. intros r evs'. by rewrite app_assoc.
Qed.

Lemma prepared_silent {A} (m : M Exc Site A) : silent m -> traces m (fun _ => prepared).
Proof. intros Hm. by apply logs_silent. Qed.

(** What follows the preparation, when a worktree is handed out and when there is an error *)
Definition creation_trace (r : Result Exc DisposableWorktree) (rest : list Act) : Prop :=
  match r with
  | Ok w => exists before found out h1 listing h2 qs, w = (new before) <| wt_checkout_identity := Some found |> /\
      Forall (query_of canonical) qs /\ lower (strip h2) = lower sha /\
      rest = [Git canonical (add_argv (new before)) (Ok (0, out)); Git (run ++ ["checkout"]) ["rev-parse"; "HEAD"] (Ok (0, h1)); Owned;
              Git canonical ["worktree"; "list"; "--porcelain"] (Ok (0, listing)); Registered (run ++ ["checkout"]) true;
              Git (run ++ ["checkout"]) ["rev-parse"; "HEAD"] (Ok (0, h2))] ++ qs ++ [Unchanged before]
  | Err e => rest = [] \/
      exists before attempt removal r', Forall (attempt_act (new before)) attempt /\ removal_trace (new before) r' removal /\
        rest = attempt ++ removal /\ (r' = Ok tt \/ r' = Err e)
  end.
Definition whole_trace (r : Result Exc DisposableWorktree) (evs : list Act) : Prop :=
  exists pre rest, evs = pre ++ rest /\ prepared pre /\ creation_trace r rest.

Lemma prepared_only e evs : prepared evs -> whole_trace (Err e) evs.
Proof. intros H. exists evs, []. rewrite app_nil_r. split_and!; [done|done|by left]. Qed.

Lemma prepare_made p : p = root \/ p = run -> traces (note_act (Made p)) (fun _ => prepared).
Proof.
  intros Hp. eapply logs_weaken; [apply traces_note|]. intros r evs ->. constructor; [|done].
  destruct Hp as [-> | ->]; [right; right; by left|right; right; right; by left].
Qed.

Lemma prepare_snapshot : traces (canonical_snapshot others git canonical) (fun _ => prepared).
Proof.
  eapply logs_weaken; [apply traces_acted, acted_snapshot|]. intros r evs H. eapply Forall_impl; [exact H|]. intros a. by left.
Qed.

Ltac prepare := lazymatch goal with
  | Hp : Forall _ ?pre |- traces _ (fun r evs => whole_trace r (?pre ++ evs)) =>
      apply (traces_prepare _ _ whole_trace pre); [exact Hp| |apply prepared_only|clear Hp; intros ? ? ?]
  end.

Ltac quiet := prepare; [apply prepared_silent; auto with silent|].

Lemma create_trace :
  traces (create_worktree others git identity canonical root sha worker_id execution_run_id run_identity) whole_trace.
Proof.
  assert (Hnil : prepared []) by done.
  eapply (logs_weaken _ _ (fun r evs => whole_trace r ([] ++ evs))); [|done]. unfold create_worktree.
  do 5 quiet.
  prepare; [apply prepared_silent; match goal with b : bool |- _ => destruct b end; auto with silent|].
  do 3 quiet.
  prepare; [apply traces_acted, acted_git; intros; right; left; eauto|]. match goal with c : _ * _ |- _ => destruct c end.
  do 2 quiet. prepare; [apply prepare_made; auto|].
  do 3 quiet. prepare; [apply prepare_made; auto|].
  prepare; [apply prepare_snapshot|]. match goal with c : CanonicalSnapshot |- _ => rename c into before end. quiet.
  prepare; [eapply logs_weaken; [apply traces_note|]; intros r evs ->; constructor; [do 4 right; done|done]|].
  eapply logs_weaken; [apply attempt_trace|]. intros r evs Hr.
  eexists _, evs. split; [done|]. split; [done|]. destruct r as [w|e].
  - destruct Hr as (found & out & h1 & listing & h2 & qs & Hw & Hq & Hh & ->). exists before, found, out, h1, listing, h2, qs. by split_and!.
  - right. destruct Hr as (attempt & removal & r' & Hr). by exists before, attempt, removal, r'.
Qed.

(** C23. Whatever Git and the other processes do: a worktree that [create_worktree] hands out was made by one Git
    command for the requested commit, a full SHA; afterwards, in this order, the marker of its directory was found to be
    its own, Git to list its checkout, Git's head in the checkout to be that commit, and the canonical checkout to be as
    before; and nothing was removed.  When it raises, either no checkout was asked for (a directory and a marker made for
    it may stay), or the removal was carried out in the order of [cleanup]: Git's registration, if there is one, by Git,
    the directory of the checkout, the two verifications, the directory of the run; all of it, each directory being
    removed or found absent, or up to the first part that itself raised, whose error is then the one raised. *)
Theorem worktree_created s r s' :
  create_worktree others git identity canonical root sha worker_id execution_run_id run_identity s = (r, s') ->
  (acts s' = acts s \/ SHA sha = true) /\
  exists pre rest, acts s' = acts s ++ pre ++ rest /\ prepared pre /\ creation_trace r rest.
Proof.
  intros H. split.
  - unfold create_worktree in H. destruct (SHA sha); [by right|]. injection H as _ <-. by left.
  - destruct (create_trace _ _ _ H) as (evs & Ha & pre & rest & -> & Hp & Hc). eauto.
Qed.
End creation.

(** ** What the marker check means *)

(** A text that is known to be in the marker file of this run is its marker. *)
Definition worktree_marked (w : DisposableWorktree) (has : path -> Z -> string -> Prop) : Prop :=
  exists text size found, has (marker_path w) size text /\ str_length text <= MAX_MARKER_BYTES /\
    loads text = Some found /\ py_equal found (JObj (marker_fields w)) = true.

Lemma bind_outcome {E S A B} (m : M E S A) (k : A -> M E S B) s a s1 r : m s = (Ok a, s1) -> k a s1 = r -> (m ≫= k) s = r.
Proof. intros Hm <-. unfold mbind, M_bind. by rewrite Hm. Qed.

(** The two readers of a marker differ in the errors they raise. *)
Lemma read_marker_same p d text d' :
  read_marker_text others p d = (Ok text, d') -> read_bounded_regular_text others p d = (Ok text, d').
Proof.
  intros H. unfold read_marker_text in H. inv_run H. unfold read_bounded_regular_text.
  eapply bind_outcome; [exact Hr|]. eapply bind_outcome; [by rewrite Hb|]. eapply bind_outcome; [by rewrite Hb0|].
  eapply bind_outcome; [unfold convert_os_error in *; apply handle_ok in Hr0 as [Hr0|(e & k & d1 & _ & Hk & He)]; [unfold handle; by rewrite Hr0|case_match; [by injection Hk as <-|done]]|].
  eapply bind_outcome; [exact Hr1|]. eapply bind_outcome; [by rewrite Hb1|]. eapply bind_outcome; [exact Hr2|].
  eapply bind_outcome; [by rewrite Hb2|]. eapply bind_outcome; [exact Hr3|]. eapply bind_outcome; [by rewrite Hb3|].
  eapply bind_outcome; [exact Hr4|]. by rewrite Hb4.
Qed.

Lemma on_disk_ok {A} (m : M Exc Disk A) s a s' : on_disk m s = (Ok a, s') -> m (site_disk s) = (Ok a, site_disk s').
Proof. unfold on_disk. destruct (m (site_disk s)) as [r d]. by intros [= -> <-]. Qed.

Lemma contained_later p root label s u s' : assert_contained others p root label s = (Ok u, s') ->
  later others (site_disk s) (site_disk s').
Proof.
  unfold assert_contained, assert_no_reparse_points. intros H. inv_run H. apply on_disk_ok in Hr, Hr0.
  etrans; [exact (looks_ok _ _ _ _ _ (looks_ancestry _ _) Hr)|exact (looks_ok _ _ _ _ _ (looks_contains _ _ _) Hr0)].
Qed.

(** Where the trace says [Owned], the marker of this run was read during the check, although other processes run all
    the time; if a change of a file shows, it was there. *)
Lemma owned_marked w s u s' : verify_worktree_ownership others w s = (Ok u, s') ->
  let d := site_disk s in let d' := site_disk s' in
  worktree_marked w (read_file others d d') /\ (changes_show others d d' -> worktree_marked w (was_present others d d')).
Proof.
  intros H d d'. unfold verify_worktree_ownership in H. inv_run H.
  apply contained_later in Hr. apply contained_later in Hr0. apply on_disk_ok in Hr1. injection H as _ <-. cbn in d'.
  apply handle_ok in Hr1 as [Hr1|(e & k & d1 & _ & Hk & He)]; [|case_match; [by injection Hk as <-|done]].
  inv_run Hr1. apply read_marker_same, read_marker_ok in Hr2 as (Hl & Hsz & size & Hf).
  eapply read_widen in Hf; [|by etrans; [exact Hr|]|reflexivity].
  split; [by eexists _, size, _|]. intros Hshow. eexists _, size, _. split; [by apply read_was_present|done].
Qed.
End traces.
