(* ===== verification/WorkerFixtures.v ===== *)
(** * A worker and its surroundings, run

    Concrete inputs for the theorems about the worker: the evidence of one run on a small
    file system, from its store to its removal; a whole poll with one manifest and a host on which
    every call succeeds; single steps; and a worktree from its creation to its removal. *)

From S2P Require Import Prelude Text Json Evidence JsonCodec Documents Registry Checks Parsers WorkerContracts Models Fixtures Iso8601 WorkerModels WorkerPolicy Effects Files EvidenceStore EvidenceProofs.

#[local] Open Scope Z_scope.

Definition limits_ : EvidenceLimits :=
  {| el_maximum_artifact_count := 4; el_maximum_artifact_bytes := 8192; el_maximum_total_bytes := 16384 |}.

Definition report : TrustedArtifact :=
  {| ta_kind := "test-report"; ta_relative_path := "out/report.txt"; ta_media_type := "text/plain"; ta_redaction_state := "redacted" |}.

Definition checkout : Disk :=
  {| disk := {| entries := <[["repo"] := Dir]> (<[["repo"; "out"] := Dir]> (<[["repo"; "out"; "report.txt"] := File 1]> ∅));
                inodes := <[1 := {| in_content := "12 passed"; in_mtime := 0; in_ctime := 0 |}]> ∅ |};
     calls := 0 |}.

Definition the_store : EvidenceStore :=
  {| es_root := ["evidence"]; es_run_directory := ["evidence"; "run-1"]; es_worker_id := "worker-a"; es_run_id := 1;
     es_created_at := seconds 1000; es_retention_expires_at := seconds 1000 + 30 * DAY; es_limits := limits_ |}.

Definition stored : Result Exc EvidenceStore * Disk :=
  create_evidence_store alone ["evidence"] ["worker"] [["repo"]] "worker-a" 1 (seconds 1000) 30 limits_ checkout.

Example store_created : stored.1 = Ok the_store.
Proof. vm_compute. reflexivity. Qed.

Definition captured : Disk := (capture_declared_artifact alone the_store ["repo"] report stored.2).2.

Definition finalized : Result Exc (list ArtifactRecord) * Disk :=
  finalize_artifacts alone the_store [("test", report)] captured.

Definition records : list ArtifactRecord := Eval vm_compute in match finalized.1 with Ok l => l | Err _ => [] end.

Lemma finalize_artifacts_ok_witness :
  marker_ok the_store (was_present alone captured finalized.2) /\
  Forall2 (described_by the_store (was_present alone captured finalized.2)) [("test", report)] records /\
  Z.of_nat (length records) <= 4 /\ (records <> [] -> sizes records <= 16384) /\ NoDup (map art_relative_path records).
Proof.
  destruct (finalize_artifacts_ok alone the_store [("test", report)] captured records finalized.2) as (_ & H1 & H2).
  - vm_compute. reflexivity.
  - destruct (H1 (alone_shows _ _)) as [H3 H4]. split; [exact H3|]. split; [exact H4|]. exact H2.
Defined.

(** The evidence of the run, with its artifact *)
Definition run_evidence : ExecutionEvidence :=
  Eval vm_compute in match finalize_evidence isoformat_z (fresh_evidence <| ev_artifacts := records |>) with
                     | Some e => e
                     | None => fresh_evidence
                     end.

Definition run_evidence_json : Json := JObj (draft_fields isoformat_z run_evidence ++ [("fingerprint", JStr (ev_fingerprint run_evidence))]).

Definition result_payload : Json :=
  JObj [("evidence", run_evidence_json); ("result_summary", JObj [("steps", JList [])]);
        ("reuse_identity", identity_json shared_identity); ("reuse_identity_hash", JStr shared_hash)].

Definition written : Disk := (write_result alone the_store result_payload finalized.2).2.

(** The two models, on the documents of this run *)
Definition read_evidence (j : Json) : option ExecutionEvidence :=
  if py_equal j run_evidence_json then Some run_evidence else None.
Definition read_identity (j : Json) : option EvidenceReuseIdentity :=
  if py_equal j (identity_json shared_identity) then Some shared_identity else None.

Definition the_candidate : ReuseCandidate :=
  {| cand_source_run_id := 1; cand_expected_source_worker_id := "worker-a";
     cand_expected_source_evidence_fingerprint := ev_fingerprint run_evidence;
     cand_reuse_identity := shared_identity; cand_reuse_identity_hash := shared_hash;
     cand_source_created_at := seconds 1000; cand_retention_expires_at := seconds 1000 + 30 * DAY;
     cand_artifacts := records |}.

Definition verified : Result Exc (bool * string) * Disk :=
  verify_reuse_candidate alone read_evidence read_identity "worker-a" the_candidate ["evidence"] (seconds 2000) limits_ written.

Example evidence_reused : verified.1 = Ok (true, "exact_evidence_verified").
Proof. vm_compute. reflexivity. Qed.

Lemma reuse_verification_sound_witness :
  exists accepted reason d', verified = (Ok (accepted, reason), d') /\
    (accepted = true ->
     let s := candidate_store "worker-a" the_candidate ["evidence"] limits_ in
     let holds := candidate_ok read_evidence read_identity "worker-a" the_candidate s limits_ in
     "worker-a" = "worker-a" /\ seconds 2000 < seconds 1000 + 30 * DAY /\ Z.of_nat (length records) <= 4 /\
     (forall record, record ∈ records -> art_retention_expires_at record = seconds 1000 + 30 * DAY) /\
     (records <> [] -> sizes records <= 16384) /\
     holds (read_file alone written d') /\ (changes_show alone written d' -> holds (was_present alone written d'))).
Proof.
  apply (reuse_verification_sound alone read_evidence read_identity "worker-a" the_candidate ["evidence"] (seconds 2000)
           limits_ written).
Defined.

(** A report that was changed after the run is noticed. *)
Example changed_artifact_refused :
  let changed := (write_text alone ["evidence"; "run-1"; "out"; "report.txt"] "13 passed" written).2 in
  (verify_reuse_candidate alone read_evidence read_identity "worker-a" the_candidate ["evidence"] (seconds 2000) limits_ changed).1
  = Ok (false, "source_artifact_hash_mismatch").
Proof. vm_compute. reflexivity. Qed.

(** Retention: nothing is removed before its time, then the whole directory. *)
Example pruned_when_expired :
  let early := prune_expired_evidence alone ["evidence"] "worker-a" (seconds 2000) written in
  let late := prune_expired_evidence alone ["evidence"] "worker-a" (seconds 1000 + 30 * DAY) written in
  early.1 = Ok {| removed_run_ids := []; failures := [] |} /\
  late.1 = Ok {| removed_run_ids := [1]; failures := [] |} /\
  (verify_reuse_candidate alone read_evidence read_identity "worker-a" the_candidate ["evidence"] (seconds 2000) limits_ late.2).1
  = Ok (false, "source_evidence_missing").
Proof. vm_compute. auto. Qed.

Lemma prune_exact_witness :
  exists r d', prune_expired_evidence alone ["evidence"] "worker-a" (seconds 1000 + 30 * DAY) written = (r, d') /\
    ((is_ok (find_target (entries (disk written)) ["evidence"]) = false /\
      r = Ok {| removed_run_ids := []; failures := [] |} /\ disk d' = disk written) \/
     (is_ok (find_target (entries (disk written)) ["evidence"]) = true /\ ~ directory (entries (disk written)) ["evidence"] /\
      (exists e, r = Err e) /\ disk d' = disk written) \/
     (directory (entries (disk written)) ["evidence"] /\ exists result, r = Ok result /\
      (forall id, id ∈ removed_run_ids result <-> expired_run ["evidence"] "worker-a" (seconds 1000 + 30 * DAY) (disk written) id) /\
      inodes (disk d') = inodes (disk written) /\
      (forall q, entries (disk d') !! q = if gone ["evidence"] (removed_run_ids result) q then None else entries (disk written) !! q))).
Proof.
  apply (prune_exact ["evidence"] "worker-a" (seconds 1000 + 30 * DAY) written).
  apply tree_ok_intro, (bool_decide_unpack _). vm_compute. exact I.
Defined.

(** * A worker and its surroundings

    A configuration, a registry with one manifest, a control plane that assigns one run of it,
    and a host on which every call succeeds: the inputs on which the theorems about the worker
    are evaluated. *)

From S2P Require Import Prelude Text Json Enums Evidence Floats JsonCodec Documents Registry Checks Parsers WorkerContracts Iso8601 WorkerModels Effects WorkerClient WorkerConfig WorkerPolicy LocalWorker LocalWorkerProofs WorkerLog WorkerSafety.
From Stdlib Require Import QArith.

#[local] Open Scope Z_scope.

Definition wf_config : WorkerConfig :=
  {| cf_base_url := "https://plane.example"; cf_worker_id := "worker-a"; cf_display_name := "Worker A";
     cf_worker_token := "token"; cf_worker_root := "/work"; cf_repositories := [("owner/repo", "/repos/repo")];
     cf_evidence_root := "/evidence"; cf_max_concurrency := 1; cf_network_policy_capability := "disabled";
     cf_execution_timeout_seconds := Finite 3600; cf_default_step_timeout_seconds := Finite 300;
     cf_maximum_step_timeout_seconds := Finite 600; cf_output_summary_limit := 4096;
     cf_total_output_limit := 1048576; cf_disk_limit_bytes := 1073741824;
     cf_limits := {| cfg_evidence_retention_days := 30; cfg_maximum_artifact_count := 16;
                     cfg_maximum_artifact_bytes := 65536; cfg_maximum_total_evidence_bytes := 1048576 |};
     cf_inherited_environment_keys := []; cf_redacted_key_patterns := []; cf_redacted_value_patterns := [];
     cf_poll_interval_seconds := Finite 5; cf_heartbeat_interval_seconds := Finite 10 |}.

Definition wf_client : Client :=
  {| cl_base_url := "https://plane.example"; cl_worker_id := "worker-a"; cl_token := "token";
     cl_prefix := "/api/execution/worker"; cl_worker_scoped := true |}.

Definition wf_step (id : string) (required : bool) : TrustedStep :=
  {| ts_id := id; ts_title := id; ts_argv := ["python"; "-m"; id]; ts_required := required;
     ts_timeout_seconds := 60; ts_output_summary_limit := 1024; ts_working_directory := ".";
     ts_environment := []; ts_capability_condition := None; ts_diagnostic_only := false;
     ts_parser_kind := None; ts_artifacts := [] |}.

Definition wf_steps : list TrustedStep := [wf_step "lint" false; wf_step "test" true].

Definition wf_manifest : TrustedManifest :=
  {| tm_name := "smoke"; tm_version := "1"; tm_schema_version := 1; tm_description := "Smoke test";
     tm_registry_source := "registry"; tm_required_capabilities := []; tm_fixed_step_metadata := map step_safe_metadata wf_steps;
     tm_environment_policy := []; tm_network_policy := DISABLED; tm_repository_write_policy := READ_ONLY;
     tm_timeout_seconds := 600; tm_artifact_declarations := []; tm_allowed_parameters := [];
     tm_execution_steps := wf_steps; tm_dependency_lock_paths := []; tm_result_contract := None |}.

Definition wf_digest : string := Eval vm_compute in tm_digest wf_manifest.

Definition wf_sha : string := "0123456789abcdef0123456789abcdef01234567".

Definition wf_order : Json :=
  JObj [("id", JInt 3); ("schema_version", JInt 1); ("repository_full_name", JStr "owner/repo"); ("commit_sha", JStr wf_sha);
        ("manifest_name", JStr "smoke"); ("manifest_version", JStr "1"); ("manifest_digest", JStr wf_digest);
        ("manifest_parameters", JObj []); ("required_capabilities", JObj []); ("permitted_paths", JList []);
        ("forbidden_scope_notes", JStr ""); ("expected_artifact_kinds", JList []); ("approval_policy", JStr "explicit");
        ("status", JStr "assigned"); ("timeout_seconds", JInt 600); ("resource_metadata", JObj []);
        ("network_policy", JStr "disabled"); ("repository_write_allowed", JBool false); ("preferred_executor", JNull);
        ("cost_ceiling", JNull); ("routing_policy", JStr "first_available"); ("maximum_cost_units", JNull);
        ("required_quota_units", JInt 0); ("attempt_count", JInt 1); ("created_at", JStr "2026-01-02T03:04:05Z");
        ("updated_at", JStr "2026-01-02T03:04:05Z"); ("approved_at", JNull); ("queued_at", JNull); ("assigned_at", JNull);
        ("started_at", JNull); ("finished_at", JNull); ("terminal_reason", JNull); ("reuse_policy", JStr "never");
        ("execution_policy_hash", JStr wf_digest); ("route_provenance", JObj [])].

Definition wf_remote_manifest : Json :=
  JObj [("name", JStr "smoke"); ("version", JStr "1"); ("digest", JStr wf_digest); ("timeout_seconds", JInt 600);
        ("network_policy", JStr "disabled"); ("repository_write_policy", JStr "read_only"); ("schema_version", JInt 1);
        ("required_capabilities", JObj []); ("fixed_step_metadata", JList (map step_safe_metadata wf_steps));
        ("environment_policy", JObj []); ("artifact_declarations", JList []); ("description", JStr "Smoke test");
        ("trusted_registry_source", JStr "registry")].

Definition answer_json (j : Json) : Result Exc HttpResponse := Ok {| rs_status_code := 200; rs_content := dumps true j |}.

(** The control plane: run 7 of order 3 is assigned at every checkout. *)
Definition wf_plane (r : HttpRequest) : Result Exc HttpResponse :=
  let path p := bool_decide (rq_url r = "https://plane.example/api/execution/worker" +:+ p) in
  let run := JObj [("id", JInt 7); ("work_order_id", JInt 3); ("status", JStr "running")] in
  if path "/checkout" then answer_json (JObj [("run", run)])
  else if path "/work-orders/3" then answer_json wf_order
  else if path "/manifests/smoke/1" then answer_json wf_remote_manifest
  else if path "/runs/7/heartbeat" then answer_json run
  else answer_json (JObj []).

Definition wf_result (step : TrustedStep) (status : string) (reason : option string) : StepResult :=
  {| sr_step_id := ts_id step; sr_title := ts_title step; sr_status := status; sr_exit_code := Some 0;
     sr_duration_seconds := {| fl_repr := "1.0"; fl_value := 1 |}; sr_stdout_summary := "ok"; sr_stderr_summary := "";
     sr_summaries_truncated := false; sr_stdout_log := ts_id step +:+ ".stdout.log";
     sr_stderr_log := ts_id step +:+ ".stderr.log"; sr_environment_summary := []; sr_started_at := 1000000;
     sr_finished_at := 2000000; sr_parsed_result := None; sr_terminal_reason := reason |}.

Definition wf_platform : Platform :=
  {| pf_system := "Linux"; pf_machine := "x86_64"; pf_python_version := "3.12.1"; pf_node_version := None;
     pf_pnpm_version := None; pf_which := fun _ => false |}.

(** The host, for a runner and a schedule *)
Definition wf_host (runner : TrustedStep -> Result Exc StepResult) (schedule : nat -> list Interference) : Host :=
  {| h_http := fun _ => wf_plane; h_interference := schedule; h_monotonic := fun n => inject_Z (Z.of_nat n);
     h_now := fun n => 1700000000000000 + Z.of_nat n; h_platform := fun _ => wf_platform; h_package_version := fun _ _ => None;
     h_prune := fun _ => Ok []; h_create_store := fun _ => Ok tt; h_create_worktree := fun _ => Ok tt;
     h_verify_checkout := fun _ => Ok tt; h_hash_file := fun _ _ => Ok (0, wf_digest);
     h_verify_candidate := fun _ _ => Ok (false, "reuse_unavailable"); h_run_step := fun _ => runner;
     h_capture := fun _ _ => Ok tt; h_finalize := fun _ _ => Ok []; h_cleanup := fun _ => Ok tt;
     h_write_result := fun _ _ => Ok tt; h_stop_file := fun _ => false |}.

Definition all_succeed (step : TrustedStep) : Result Exc StepResult := Ok (wf_result step "succeeded" None).

(** One poll by a new worker *)
Definition wf_poll (host : Host) (w : World) : World :=
  (poll_once host wf_config wf_client [wf_manifest] (fun _ => None) isoformat_z w).2.

(** The statuses that are reported, the latest first *)
Definition reported_statuses (lg : list Event) : list Json :=
  omap (fun e => match e with
                 | Sent r _ => match rq_json r with
                               | Some (JObj fields) => if isSome (obj_get "result_summary" fields) then Some (member "status" fields) else None
                               | _ => None
                               end
                 | _ => None
                 end) lg.

(** The steps that are run, in order *)
Definition steps_run (lg : list Event) : list string :=
  reverse (omap (fun e => match e with RanStep step _ => Some (ts_id step) | _ => None end) lg).

Definition wf_quiet : nat -> list Interference := fun _ => [].

Example run_succeeds :
  let lg := log (wf_poll (wf_host all_succeed wf_quiet) new_worker) in
  reported_statuses lg = [JStr "succeeded"] /\ steps_run lg = ["lint"; "test"].
Proof. vm_compute. done. Qed.

Lemma poll_report_justified_witness :
  log new_worker = [] /\
  (let lg := log (poll_once (wf_host all_succeed wf_quiet) wf_config wf_client [wf_manifest] (fun _ => None) isoformat_z new_worker).2 in
   reported_statuses lg = [JStr "succeeded"] /\
   exists k, reported wf_config wf_client [wf_manifest] isoformat_z k new_worker lg).
Proof.
  split; [reflexivity|]. split; [vm_compute; reflexivity|].
  apply (poll_report_justified (wf_host all_succeed wf_quiet) wf_config wf_client [wf_manifest] (fun _ => None) isoformat_z new_worker).
  reflexivity.
Defined.

(** A command that is required and whose descendants remain: nothing more is run, and the run is
    reported as failed. *)
Definition lost_test (step : TrustedStep) : Result Exc StepResult :=
  Ok (wf_result step (if ts_required step then "failed" else "succeeded")
        (if ts_required step then Some "descendant_cleanup_failed" else None)).

Example required_step_quarantined :
  let w := wf_poll (wf_host lost_test wf_quiet) new_worker in
  reported_statuses (log w) = [JStr "failed"] /\ shutdown w = true /\
  existsb (fun e => match e with CleanedUp _ => true | _ => false end) (log w) = false.
Proof. vm_compute. done. Qed.

(** A command that is not required and whose descendants remain: the next one is run beside them,
    and the run is reported as a success, without evidence. *)
Definition lost_lint (step : TrustedStep) : Result Exc StepResult :=
  Ok (wf_result step (if ts_required step then "succeeded" else "failed")
        (if ts_required step then None else Some "descendant_cleanup_failed")).

Example optional_step_not_quarantined :
  let lg := log (wf_poll (wf_host lost_lint wf_quiet) new_worker) in
  steps_run lg = ["lint"; "test"] /\ reported_statuses lg = [JStr "succeeded"] /\
  existsb (fun e => match e with WroteResult _ _ => true | _ => false end) lg = false.
Proof. vm_compute. done. Qed.

(** One refused heartbeat ends the thread that renews the lease; the run is not cancelled. *)
Definition failing_heartbeats (host : Host) (from : nat) : Host :=
  {| h_http := fun n r => if (from <=? n)%nat && bool_decide (rq_url r = "https://plane.example/api/execution/worker/workers/worker-a/heartbeat")
                          then Ok {| rs_status_code := 503; rs_content := "" |} else h_http host n r;
     h_interference := h_interference host; h_monotonic := h_monotonic host; h_now := h_now host; h_platform := h_platform host;
     h_package_version := h_package_version host; h_prune := h_prune host; h_create_store := h_create_store host;
     h_create_worktree := h_create_worktree host; h_verify_checkout := h_verify_checkout host;
     h_hash_file := h_hash_file host; h_verify_candidate := h_verify_candidate host; h_run_step := h_run_step host;
     h_capture := h_capture host; h_finalize := h_finalize host; h_cleanup := h_cleanup host;
     h_write_result := h_write_result host; h_stop_file := h_stop_file host |}.

Definition monitored : World :=
  {| turn := 0%nat; rejected := false; shutdown := false; executed_run_ids := {[7]}; active_run_id := Some 7;
     active_token := Some 0%nat; tokens := [None];
     monitors := [{| mon_run_id := 7; mon_deadline := Finite 600; mon_token := 0%nat; mon_stopped := false; mon_alive := true |}];
     log := [] |}.

Example heartbeat_failure_ends_monitor :
  let w := thread_tick (failing_heartbeats (wf_host all_succeed wf_quiet) 0) wf_client 0%nat monitored in
  map mon_alive (monitors w) = [false] /\ tokens w = [None].
Proof. vm_compute. done. Qed.

(** A run of two hundred steps: its summary does not fit, so the [finally] clause raises before the
    worker is free again. *)
Definition wide_run (o : AssignedWorkOrder) : Running :=
  {| world := monitored;
     locals := (initial_locals 0) <| v_order := Some o |>
                 <| v_results := repeat (wf_result (wf_step "test" true) "succeeded" None) 200 |> |}.

Example wide_run_not_released :
  match work_order_from_payload wf_order with
  | Ok o => let '(r, s) := finish (wf_host all_succeed wf_quiet) wf_config wf_client isoformat_z 7 (wide_run o) in
            is_ok r = false /\ active_run_id (world s) = Some 7
  | Err _ => False
  end.
Proof. vm_compute. done. Qed.

(** * Steps on a small system

    A step that succeeds, one that leaves a process behind, and a secret at the edge of a summary. *)

From S2P Require Import Prelude Text Json Enums Evidence Floats JsonCodec Documents Registry Checks Parsers WorkerContracts WorkerModels WorkerConfig WorkerPolicy LocalWorker Effects Files ProcessTable ContainedHost Runner RunnerProofs.
From Stdlib Require Import QArith.

#[local] Open Scope Z_scope.

(** The command ends with this code at the eighteenth answer; [listing] are the processes. *)
Definition sample_os (code : Z) (listing : nat -> option ProcListing) : Os :=
  {| o_executable := "/usr/bin/python3"; o_host_script := "/worker/contained_host.py";
     o_environ := fun k => if bool_decide (k ∈ ["PATH"; "HOME"; "SECRET_KEY"]) then Some "value" else None; o_linux := true;
     o_script_present := fun _ => true; o_monotonic := fun n => (Z.of_nat n # 100)%Q; o_now := fun n => Z.of_nat n;
     o_float := fun q => {| fl_repr := "0.1"; fl_value := q |}; o_cancelled := fun _ => None; o_guard := fun _ => Ok tt;
     o_resolve_cwd := fun _ => Ok ["checkout"; "src"]; o_resolve_checkout := fun _ => Ok ["checkout"];
     o_mkdir := fun _ => Ok tt; o_open_logs := fun _ => Ok tt; o_popen := fun _ _ => Ok 20; o_write_payload := fun _ => Ok tt;
     o_poll := fun n => if (n <? 18)%nat then None else Some code; o_wait := fun _ => None;
     o_killpg := fun _ signal => if signal =? 0 then NoSuchProcess else Delivered; o_kill := fun _ => Delivered;
     o_listing := listing; o_logs_size := fun _ => Ok 100; o_run_size := fun _ => Ok 1000;
     o_log := fun _ _ => Ok "12 passed"; o_output := fun _ => {| out_stdout := None; out_stderr := None; out_report := None |} |}.

Definition fresh_run : StepState := {| s_turn := 0; s_returncode := None; s_log := [] |}.

Definition sample_step : TrustedStep := wf_step "test" true.

Definition sample_run (os : Os) (strict : bool) : Result Exc StepResult * StepState :=
  run_step os 20 sample_step wf_config (Finite 60) true None strict true None fresh_run.

Definition quiet_os : Os := sample_os 0 (fun _ => Some quiet_listing).

Definition sample_result : StepResult :=
  Eval vm_compute in match (sample_run quiet_os false).1 with Ok r => r | Err _ => wf_result sample_step "failed" None end.

Example step_succeeds : sr_status sample_result = "succeeded" /\ sr_stdout_summary sample_result = "12 passed".
Proof. vm_compute. auto. Qed.

Lemma succeeded_step_witness :
  sr_exit_code sample_result = Some 0 /\ sr_terminal_reason sample_result = None /\
  exists before running ended after, s_log (sample_run quiet_os false).2 =
      before ++ [Launched (runtime_argv "/usr/bin/python3" (ts_argv sample_step)) (step_environment (o_environ quiet_os) wf_config sample_step None) false]
      ++ running ++ ended ++ after /\
    Forall is_guard before /\ Forall unsignalled (running ++ ended) /\ Forall reporting after /\ Ended 0 ∈ running /\
    (exists z, Sized true (Ok z) ∈ ended /\ z <= cf_total_output_limit wf_config) /\
    (exists z, Sized false (Ok z) ∈ ended /\ z <= cf_disk_limit_bytes wf_config) /\
    (false = false -> GroupSeen false ∈ ended) /\ (true = true -> Guarded (Ok tt) ∈ ended).
Proof.
  apply (succeeded_step quiet_os 20 sample_step wf_config (Finite 60) true None false true None fresh_run sample_result).
  - by split.
  - vm_compute. reflexivity.
  - vm_compute. reflexivity.
Defined.

Lemma quiet_ordinary : ordinary quiet_os.
Proof. intros n e [message ->]. cbn. repeat split; by intros. Qed.

(** A step that is called after the overall deadline *)
Definition late_run : Result Exc StepResult * StepState :=
  run_step quiet_os 20 sample_step wf_config (Finite 0) true None false true None fresh_run.

Lemma not_started_exact_witness :
  (exists message, late_run.1 = Err (OverallDeadlineExceededError message)) /\ s_log late_run.2 = [].
Proof.
  destruct (not_started_exact quiet_os 20 sample_step wf_config (Finite 0) true None false true None quiet_ordinary
    fresh_run late_run.1 late_run.2) as [H1 H2].
  - by split.
  - vm_compute. reflexivity.
  - assert (H : too_late quiet_os (Finite 0) true fresh_run) by (left; vm_compute; reflexivity).
    split; [apply H1; exact H|apply H2; exact H].
Defined.

(** A background process of the command makes the step fail, and the process is ended first. *)
Definition straggling_os : Os :=
  sample_os 0 (fun n => Some (if (n <? 24)%nat then entry 21 20 20 "S" :: quiet_listing else quiet_listing)).

Example straggler_found :
  match (sample_run straggling_os false).1 with
  | Ok r => (sr_status r, sr_terminal_reason r) = ("failed", Some "unexpected_descendant_process")
  | Err _ => False
  end.
Proof. vm_compute. reflexivity. Qed.

(** A process group that cannot be ended: nothing of the output is read. *)
Definition stuck_os : Os := sample_os 0 (fun _ => Some (entry 21 20 20 "D" :: quiet_listing)).

Example stuck_group_unread :
  match run_step stuck_os 400 sample_step wf_config (Finite 60) true None false true None fresh_run with
  | (Ok r, s) => sr_terminal_reason r = Some "descendant_cleanup_failed" /\ existsb (fun e => match e with ReadLog _ | Parsed => true | _ => false end) (s_log s) = false
  | (Err _, _) => False
  end.
Proof. vm_compute. auto. Qed.

Lemma output_read_after_quiescence_witness : read_after_quiescence false (s_log (sample_run straggling_os false).2).
Proof.
  apply (output_read_after_quiescence straggling_os 20 sample_step wf_config (Finite 60) true None false true None fresh_run
           (sample_run straggling_os false).1); [by split|vm_compute; reflexivity].
Defined.

(** ** A secret at the edge of a summary *)

(** A summary cuts after it has redacted, so that what redaction removes makes room for more of what was read:
    of a secret that is repeated, the part that the read window cuts off is shown. *)
Definition secret : string := "0123456789012345678901234567890123456789".
#[export] Instance WorkerConfig_rebuild : Rebuild WorkerConfig := fun c =>
  {| cf_base_url := cf_base_url c; cf_worker_id := cf_worker_id c; cf_display_name := cf_display_name c;
     cf_worker_token := cf_worker_token c; cf_worker_root := cf_worker_root c; cf_repositories := cf_repositories c;
     cf_evidence_root := cf_evidence_root c; cf_max_concurrency := cf_max_concurrency c;
     cf_network_policy_capability := cf_network_policy_capability c;
     cf_execution_timeout_seconds := cf_execution_timeout_seconds c;
     cf_default_step_timeout_seconds := cf_default_step_timeout_seconds c;
     cf_maximum_step_timeout_seconds := cf_maximum_step_timeout_seconds c;
     cf_output_summary_limit := cf_output_summary_limit c; cf_total_output_limit := cf_total_output_limit c;
     cf_disk_limit_bytes := cf_disk_limit_bytes c; cf_limits := cf_limits c;
     cf_inherited_environment_keys := cf_inherited_environment_keys c;
     cf_redacted_key_patterns := cf_redacted_key_patterns c;
     cf_redacted_value_patterns := cf_redacted_value_patterns c;
     cf_poll_interval_seconds := cf_poll_interval_seconds c;
     cf_heartbeat_interval_seconds := cf_heartbeat_interval_seconds c |}.

Definition leaking_config : WorkerConfig := wf_config <| cf_redacted_value_patterns := [secret] |>.

Example redaction_leaks :
  (summary_of leaking_config 60 (secret +:+ secret +:+ secret)).1 = "[REDACTED][REDACTED]01234567890123456789".
Proof. vm_compute. reflexivity. Qed.

(** * A worktree from its creation to its removal

    A small Git on a quiet disk: a run that is created, verified and removed without a trace, one
    that fails and is taken back, and one that leaves a directory behind. *)

From S2P Require Import Prelude Text Json Evidence JsonCodec Checks WorkerModels Files EvidenceStore EvidenceProofs Worktree WorktreeProofs.

#[local] Open Scope Z_scope.

Definition sample_canonical : path := ["repo"].
Definition sample_root : path := ["worker"].
Definition sample_commit : string := "0123456789ABCDEF0123456789abcdef01234567".

(** The worktrees of the repository are the directories named [checkout]; [head] is the commit of each. *)
Definition sample_git (head status : string) (n : nat) (directory : path) (argv : list string) (fs : Fs) : Result Exc (Z * string) * Fs :=
  let newline := String (chr 10) "" in
  match argv with
  | ["worktree"; "add"; "--detach"; text; sha] =>
      let p := posix_parts text in
      (Ok (0, ""), {| entries := <[p ++ [".git"] := File 50]> (<[p := Dir]> (entries fs)); inodes := <[50 := no_inode]> (inodes fs) |})
  | ["worktree"; "remove"; "--force"; text] =>
      (Ok (0, ""), fs <| entries := filter (fun kv => below (posix_parts text) kv.1 = false) (entries fs) |>)
  | ["worktree"; "list"; "--porcelain"] =>
      let checkouts := filter (fun p => name_of p = "checkout") (map fst (map_to_list (entries fs))) in
      (Ok (0, join newline (map (fun p => "worktree " +:+ path_text p) (sample_canonical :: checkouts)) +:+ newline), fs)
  | ["rev-parse"; "HEAD"] => (Ok (0, head +:+ newline), fs)
  | ["symbolic-ref"; _; _; _] => (Ok (0, "main" +:+ newline), fs)
  | ["status"; _; _] => (if bool_decide (status = "") then Ok (128, "") else Ok (0, status), fs)
  | _ => (Ok (0, ""), fs)
  end.

Definition sample_disk : Fs :=
  {| entries := list_to_map [(["repo"], Dir); (["repo"; ".git"], Dir)]; inodes := ∅ |}.
Definition sample_site : Site := {| site_disk := {| disk := sample_disk; calls := 0 |}; acts := [] |}.

Definition sample_create (head status : string) : Result Exc DisposableWorktree * Site :=
  create_worktree alone (sample_git head status) (fun _ _ => (1, 7)) sample_canonical sample_root sample_commit "worker-1" 5 "ab12" sample_site.

(** The status that Git prints for a checkout with one untracked file *)
Definition clean_status : string := "?? notes.txt".

Definition created : Result Exc DisposableWorktree * Site := Eval vm_compute in sample_create (lower sample_commit) clean_status.

Definition after_cleanup (created : Result Exc DisposableWorktree * Site) : option (Result Exc unit * Fs) :=
  match created with
  | (Ok w, s) => let '(r, s') := cleanup alone (sample_git (lower sample_commit) clean_status) w s in Some (r, disk (site_disk s'))
  | (Err _, _) => None
  end.

(** A run that is cleaned up leaves the directories as they were, with the root of the worker. *)
Example worktree_round_trip :
  match after_cleanup created with
  | Some (Ok _, fs) => bool_decide (entries fs = <[sample_root := Dir]> (entries sample_disk))
  | _ => false
  end = true.
Proof. vm_compute. reflexivity. Qed.

(** A checkout of another commit is refused, and what was made for it is removed. *)
Example wrong_head_removed :
  match sample_create "ffffffffffffffffffffffffffffffffffffffff" clean_status with
  | (Err e, s) => bool_decide (exc_name e = "RuntimeError")
                  && bool_decide (entries (disk (site_disk s)) = <[sample_root := Dir]> (entries sample_disk))
  | _ => false
  end = true.
Proof. vm_compute. reflexivity. Qed.

(** When the canonical checkout cannot be inspected, the directory of the run stays behind. *)
Example failed_snapshot_leaves_directory :
  match sample_create (lower sample_commit) "" with
  | (Err e, s) => bool_decide (exc_name e = "CalledProcessError")
                  && bool_decide (is_Some (entries (disk (site_disk s)) !! run_path sample_root "ab12"))
  | _ => false
  end = true.
Proof. vm_compute. reflexivity. Qed.

Lemma worktree_created_witness :
  (acts created.2 = [] \/ SHA sample_commit = true) /\
  exists pre rest, acts created.2 = [] ++ pre ++ rest /\
    Forall (prepare_act sample_canonical sample_root (run_path sample_root "ab12") sample_commit) pre /\
    creation_trace sample_canonical sample_root sample_commit "worker-1" 5 "ab12" created.1 rest.
Proof.
  apply (worktree_created alone (sample_git (lower sample_commit) clean_status) (fun _ _ => (1, 7)) sample_canonical sample_root
           sample_commit "worker-1" 5 "ab12" sample_site created.1 created.2).
  vm_compute. reflexivity.
Defined.

Definition created_worktree : DisposableWorktree :=
  Eval vm_compute in match created.1 with
                     | Ok w => w
                     | Err _ => new_worktree [] [] "" "" 0 "" {| cs_head := ""; cs_branch := ""; cs_index := ""; cs_working_tree := "";
                                                                  cs_untracked := ""; cs_tracked_tree := "" |}
                     end.

Lemma cleanup_ordered_witness :
  let git := sample_git (lower sample_commit) clean_status in
  let site := {| site_disk := site_disk created.2; acts := [] |} in
  exists evs, acts (cleanup alone git created_worktree site).2 = [] ++ evs /\
    ((exists e : Exc, Ok tt = Err e /\ evs = []) \/ exists removal, evs = Owned :: removal /\ removal_trace created_worktree (Ok tt) removal).
Proof.
  intros git site. apply (cleanup_ordered alone git created_worktree site (Ok tt)). vm_compute. reflexivity.
Defined.
