(* ===== verification/OperatorReport.v ===== *)
(** * The report of an operator lifecycle

    [client/python/execution_operator/report_contract.py], [models.py] and [progress.py]: the
    facts of one validation lifecycle, the contract between them, their JSON and their text, and
    the bounded progress events.

    A report is the record of the source; its JSON is [dataclasses.asdict] of it.  The
    duration of a step is a JSON number, since a stored report may give an integer. *)

From S2P Require Import Prelude Text Json Enums TextPolicy Checks Catalog Evidence Floats JsonCodec Documents Parsers Models Iso8601 WorkerModels WorkerPolicy Files EvidenceStore.
From Stdlib Require Import QArith.
#[local] Open Scope Z_scope.

(** ** Texts *)

Definition reason_char (c : ascii) : bool := is_lower c || is_digit c || one_of [95; 46; 58; 45] c.
Definition SAFE_REASON (s : string) : bool := pattern (fun c => is_lower c || is_digit c) reason_char 0 127 s.
Definition id_char (c : ascii) : bool := is_alnum c || one_of [95; 46; 58; 64; 47; 45] c.
Definition SAFE_ID (s : string) : bool := pattern id_char id_char 0 254 s.
Definition SHA_TEXT (s : string) : bool := exactly 40 is_hex_lower s.
Definition DIGEST (s : string) : bool := exactly 64 is_hex_lower s.
Definition MAX_ITEMS : Z := 128.
Definition MAX_STRING : Z := 512.
Definition MAX_DEPTH : Z := 8.
Definition MAX_MAPPING_ITEMS : Z := 64.
Definition MAX_KEY_LENGTH : Z := 64.
Definition MAX_TIMESTAMP_LENGTH : Z := 64.
Definition REPORT_VERSION : Z := 2.
Definition MAX_RUNS : Z := 2.

(** [OperatorLifecycleFailure.__init__]: the reason that is kept *)
Definition safe_reason (reason : string) : string := if SAFE_REASON reason then reason else "operator_lifecycle_failure".

(** ** Records *)

Record RuntimeSummary := {
  rt_schema_version : Z;
  rt_runtime_id : string;
  rt_repository_full_name : string;
  rt_target_sha : string;
  rt_manifest_name : string;
  rt_manifest_version : string;
  rt_manifest_digest : string;
  rt_mode : string;
  rt_command_identity : string;
  rt_created_at : string;
}.

Record StepSummary := { ss_step_id : string; ss_status : string; ss_duration_seconds : Json }.

Record ArtifactSummary := { as_kind : string; as_relative_path : string; as_size_bytes : Z; as_sha256 : string }.

Record RunSummary := {
  rs_schema_version : Z;
  rs_work_order_id : Z;
  rs_run_id : Z;
  rs_source_run_id : Z;
  rs_phase : string;
  rs_worker_id : string;
  rs_status : string;
  rs_reuse_decision : string;
  rs_reused_from_run_id : option Z;
  rs_reuse_identity_hash : string;
  rs_evidence_fingerprint : string;
  rs_evidence_retention_expires_at : string;
  rs_routing_policy : string;
  rs_route_reason : string;
  rs_required_quota_units : Z;
  rs_reserved_quota_units : Z;
  rs_quota_reservation_state : string;
  rs_eligible_candidate_count : Z;
  rs_step_count : Z;
  rs_artifact_count : Z;
  rs_artifact_total_bytes : Z;
  rs_route_verified : bool;
  rs_evidence_verified : bool;
  rs_local_evidence_verified : bool;
  rs_source_checkout_unchanged : bool;
  rs_steps : list StepSummary;
  rs_artifacts : list ArtifactSummary;
}.

(** [OperatorLifecycleReport] *)
Record Report := {
  or_schema_version : Z;
  or_outcome : string;
  or_reason : string;
  or_runtime : option RuntimeSummary;
  or_phases : list string;
  or_preflight_checks : list string;
  or_preflight_passed : bool;
  or_server_ready : bool;
  or_worker_ready : bool;
  or_fresh_approved : bool;
  or_reuse_approved : bool;
  or_runs : list RunSummary;
  or_active_lease_count : option Z;
  or_worker_active_run_count : option Z;
  or_owned_processes_stopped : bool;
  or_port_released : bool;
  or_canonical_checkout_unchanged : bool;
  or_failed_runtime_preserved : bool;
  or_operator_action_count : Z;
  or_avoided_deterministic_step_count : Z;
  or_completed_at : option string;
}.

Definition new_report : Report :=
  {| or_schema_version := 2; or_outcome := "failed"; or_reason := "not_started"; or_runtime := None; or_phases := [];
     or_preflight_checks := []; or_preflight_passed := false; or_server_ready := false; or_worker_ready := false;
     or_fresh_approved := false; or_reuse_approved := false; or_runs := []; or_active_lease_count := None;
     or_worker_active_run_count := None; or_owned_processes_stopped := false; or_port_released := false;
     or_canonical_checkout_unchanged := false; or_failed_runtime_preserved := false; or_operator_action_count := 0;
     or_avoided_deterministic_step_count := 0; or_completed_at := None |}.

#[export] Instance Report_rebuild : Rebuild Report := fun r =>
  {| or_schema_version := or_schema_version r; or_outcome := or_outcome r; or_reason := or_reason r; or_runtime := or_runtime r;
     or_phases := or_phases r; or_preflight_checks := or_preflight_checks r; or_preflight_passed := or_preflight_passed r;
     or_server_ready := or_server_ready r; or_worker_ready := or_worker_ready r; or_fresh_approved := or_fresh_approved r;
     or_reuse_approved := or_reuse_approved r; or_runs := or_runs r; or_active_lease_count := or_active_lease_count r;
     or_worker_active_run_count := or_worker_active_run_count r; or_owned_processes_stopped := or_owned_processes_stopped r;
     or_port_released := or_port_released r; or_canonical_checkout_unchanged := or_canonical_checkout_unchanged r;
     or_failed_runtime_preserved := or_failed_runtime_preserved r; or_operator_action_count := or_operator_action_count r;
     or_avoided_deterministic_step_count := or_avoided_deterministic_step_count r; or_completed_at := or_completed_at r |}.

#[export] Instance RuntimeSummary_eq_dec : EqDecision RuntimeSummary.
Proof. solve_decision. Defined.

(** ** Phases *)

Definition PREFLIGHT_CHECKS : list string :=
  ["canonical_repository"; "clean_source"; "target_commit"; "source_snapshot"; "manifest_contract"; "python_runtime"; "git_runtime";
   "worker_capabilities"; "root_safety"; "loopback_port"; "process_token"; "report_policy"].
Definition FRESH_PHASES : list string :=
  ["preflight_passed"; "runtime_created"; "server_healthy"; "worker_online"; "fresh_created"; "fresh_approval_required";
   "fresh_approved"; "fresh_queued"; "fresh_running"; "fresh_succeeded"; "fresh_verified"].
Definition REUSE_PHASES : list string :=
  ["reuse_approval_required"; "reuse_created"; "reuse_approved"; "reuse_queued"; "reuse_succeeded"; "reuse_verified"].
Definition SHUTDOWN_PHASES : list string := ["shutdown_started"; "cleanup_verified"; "completed"].
Definition LIFECYCLE_PHASES : list string := FRESH_PHASES ++ REUSE_PHASES ++ SHUTDOWN_PHASES.

(** [LIFECYCLE_PHASES.index(phase)], [_PHASE_ORDER.get(phase)] *)
Definition phase_index (phase : string) : option nat := fst <$> list_find (eq phase) LIFECYCLE_PHASES.

(** [success_phases]; [None] for an unknown mode *)
Definition success_phases (mode : string) : option (list string) :=
  if bool_decide (mode = "fresh-then-exact-reuse") then Some (FRESH_PHASES ++ REUSE_PHASES ++ SHUTDOWN_PHASES)
  else if bool_decide (mode = "fresh-only") then Some (FRESH_PHASES ++ SHUTDOWN_PHASES)
  else None.

(** ** The JSON of a report *)

Definition opt_json {A} (f : A -> Json) (o : option A) : Json := match o with Some a => f a | None => JNull end.

Definition step_fields (s : StepSummary) : list (string * Json) :=
  [("step_id", JStr (ss_step_id s)); ("status", JStr (ss_status s)); ("duration_seconds", ss_duration_seconds s)].
Definition artifact_fields (a : ArtifactSummary) : list (string * Json) :=
  [("kind", JStr (as_kind a)); ("relative_path", JStr (as_relative_path a)); ("size_bytes", JInt (as_size_bytes a));
   ("sha256", JStr (as_sha256 a))].
Definition runtime_fields (r : RuntimeSummary) : list (string * Json) :=
  [("schema_version", JInt (rt_schema_version r)); ("runtime_id", JStr (rt_runtime_id r));
   ("repository_full_name", JStr (rt_repository_full_name r)); ("target_sha", JStr (rt_target_sha r));
   ("manifest_name", JStr (rt_manifest_name r)); ("manifest_version", JStr (rt_manifest_version r));
   ("manifest_digest", JStr (rt_manifest_digest r)); ("mode", JStr (rt_mode r));
   ("command_identity", JStr (rt_command_identity r)); ("created_at", JStr (rt_created_at r))].
Definition run_fields (r : RunSummary) : list (string * Json) :=
  [("schema_version", JInt (rs_schema_version r)); ("work_order_id", JInt (rs_work_order_id r)); ("run_id", JInt (rs_run_id r));
   ("source_run_id", JInt (rs_source_run_id r)); ("phase", JStr (rs_phase r)); ("worker_id", JStr (rs_worker_id r));
   ("status", JStr (rs_status r)); ("reuse_decision", JStr (rs_reuse_decision r));
   ("reused_from_run_id", opt_json JInt (rs_reused_from_run_id r)); ("reuse_identity_hash", JStr (rs_reuse_identity_hash r));
   ("evidence_fingerprint", JStr (rs_evidence_fingerprint r));
   ("evidence_retention_expires_at", JStr (rs_evidence_retention_expires_at r)); ("routing_policy", JStr (rs_routing_policy r));
   ("route_reason", JStr (rs_route_reason r)); ("required_quota_units", JInt (rs_required_quota_units r));
   ("reserved_quota_units", JInt (rs_reserved_quota_units r)); ("quota_reservation_state", JStr (rs_quota_reservation_state r));
   ("eligible_candidate_count", JInt (rs_eligible_candidate_count r)); ("step_count", JInt (rs_step_count r));
   ("artifact_count", JInt (rs_artifact_count r)); ("artifact_total_bytes", JInt (rs_artifact_total_bytes r));
   ("route_verified", JBool (rs_route_verified r)); ("evidence_verified", JBool (rs_evidence_verified r));
   ("local_evidence_verified", JBool (rs_local_evidence_verified r));
   ("source_checkout_unchanged", JBool (rs_source_checkout_unchanged r));
   ("steps", JList (map (fun s => JObj (step_fields s)) (rs_steps r)));
   ("artifacts", JList (map (fun a => JObj (artifact_fields a)) (rs_artifacts r)))].

(** [dataclasses.asdict] *)
Definition report_fields (r : Report) : list (string * Json) :=
  [("schema_version", JInt (or_schema_version r)); ("outcome", JStr (or_outcome r)); ("reason", JStr (or_reason r));
   ("runtime", opt_json (fun s => JObj (runtime_fields s)) (or_runtime r)); ("phases", JList (map JStr (or_phases r)));
   ("preflight_checks", JList (map JStr (or_preflight_checks r))); ("preflight_passed", JBool (or_preflight_passed r));
   ("server_ready", JBool (or_server_ready r)); ("worker_ready", JBool (or_worker_ready r));
   ("fresh_approved", JBool (or_fresh_approved r)); ("reuse_approved", JBool (or_reuse_approved r));
   ("runs", JList (map (fun s => JObj (run_fields s)) (or_runs r)));
   ("active_lease_count", opt_json JInt (or_active_lease_count r));
   ("worker_active_run_count", opt_json JInt (or_worker_active_run_count r));
   ("owned_processes_stopped", JBool (or_owned_processes_stopped r)); ("port_released", JBool (or_port_released r));
   ("canonical_checkout_unchanged", JBool (or_canonical_checkout_unchanged r));
   ("failed_runtime_preserved", JBool (or_failed_runtime_preserved r));
   ("operator_action_count", JInt (or_operator_action_count r));
   ("avoided_deterministic_step_count", JInt (or_avoided_deterministic_step_count r));
   ("completed_at", opt_json JStr (or_completed_at r))].
Definition report_json (r : Report) : Json := JObj (report_fields r).

(** ** The shape of a report *)

Inductive PyType := TBool | TInt | TFloat | TStr | TNone | TList | TDict.
#[export] Instance PyType_eq_dec : EqDecision PyType.
Proof. solve_decision. Defined.

(** [type(value)] of a decoded JSON value *)
Definition type_of (j : Json) : PyType :=
  match j with
  | JNull => TNone | JBool _ => TBool | JInt _ => TInt | JFloat _ => TFloat | JStr _ => TStr | JList _ => TList | JObj _ => TDict
  end.

Definition REPORT_SHAPE : list (string * list PyType) :=
  map (fun k => (k, [TBool]))
    ["preflight_passed"; "server_ready"; "worker_ready"; "fresh_approved"; "reuse_approved"; "owned_processes_stopped";
     "port_released"; "canonical_checkout_unchanged"; "failed_runtime_preserved"]
  ++ [("schema_version", [TInt]); ("outcome", [TStr]); ("reason", [TStr]); ("runtime", [TDict; TNone]); ("phases", [TList]);
      ("preflight_checks", [TList]); ("runs", [TList]); ("active_lease_count", [TInt; TNone]);
      ("worker_active_run_count", [TInt; TNone]); ("operator_action_count", [TInt]);
      ("avoided_deterministic_step_count", [TInt]); ("completed_at", [TStr; TNone])].
Definition RUNTIME_SHAPE : list (string * list PyType) :=
  ("schema_version", [TInt])
  :: map (fun k => (k, [TStr]))
       ["runtime_id"; "repository_full_name"; "target_sha"; "manifest_name"; "manifest_version"; "manifest_digest"; "mode";
        "command_identity"; "created_at"].
Definition RUN_SHAPE : list (string * list PyType) :=
  map (fun k => (k, [TBool])) ["route_verified"; "evidence_verified"; "local_evidence_verified"; "source_checkout_unchanged"]
  ++ map (fun k => (k, [TInt]))
       ["schema_version"; "work_order_id"; "run_id"; "source_run_id"; "required_quota_units"; "reserved_quota_units";
        "eligible_candidate_count"; "step_count"; "artifact_count"; "artifact_total_bytes"]
  ++ map (fun k => (k, [TStr]))
       ["phase"; "worker_id"; "status"; "reuse_decision"; "reuse_identity_hash"; "evidence_fingerprint";
        "evidence_retention_expires_at"; "routing_policy"; "route_reason"; "quota_reservation_state"]
  ++ [("reused_from_run_id", [TInt; TNone]); ("steps", [TList]); ("artifacts", [TList])].
Definition STEP_SHAPE : list (string * list PyType) :=
  [("step_id", [TStr]); ("status", [TStr]); ("duration_seconds", [TInt; TFloat])].
Definition ARTIFACT_SHAPE : list (string * list PyType) :=
  [("kind", [TStr]); ("relative_path", [TStr]); ("size_bytes", [TInt]); ("sha256", [TStr])].
Definition REPORT_FIELDS : list string := map fst REPORT_SHAPE.

(** [_shape]: the fields, if they are these and of these types *)
Definition shape (value : Json) (fields : list (string * list PyType)) : option (list (string * Json)) :=
  match value with
  | JObj items =>
      if has_exactly items (map fst fields)
         && forallb (fun '(name, types) => bool_decide (type_of (member name items) ∈ types)) fields
      then Some items else None
  | _ => None
  end.

(** The list at a field that has been found to be one *)
Definition items_of (j : Json) : list Json := match j with JList l => l | _ => [] end.
Definition collection (l : list Json) : bool := Z.of_nat (length l) <=? MAX_ITEMS.

(** One run of a report *)
Definition valid_run_shape (value : Json) : bool :=
  match shape value RUN_SHAPE with
  | None => false
  | Some run =>
      let steps := items_of (member "steps" run) in
      let artifacts := items_of (member "artifacts" run) in
      collection steps && collection artifacts
      && forallb (fun step => isSome (shape step STEP_SHAPE)) steps
      && forallb (fun artifact => isSome (shape artifact ARTIFACT_SHAPE)) artifacts
  end.

(** [validate_report_shape] *)
Definition validate_report_shape (payload : Json) : bool :=
  match shape payload REPORT_SHAPE with
  | None => false
  | Some report =>
      let texts name := let l := items_of (member name report) in
                        collection l && forallb (fun item => bool_decide (type_of item = TStr)) l in
      texts "phases" && texts "preflight_checks"
      && (Z.of_nat (length (items_of (member "runs" report))) <=? MAX_RUNS)
      && match member "runtime" report with JNull => true | runtime => isSome (shape runtime RUNTIME_SHAPE) end
      && forallb valid_run_shape (items_of (member "runs" report))
  end.

(** ** The state of a report *)

(** [_TIMESTAMP.fullmatch] *)
Definition TIMESTAMP (s : string) : bool :=
  let digits n l := bool_decide (n <= length l)%nat && forallb is_digit (take n l) in
  let l := to_chars s in
  let part n sep rest := digits n rest && starts_with [chr sep] (drop n rest) in
  let l1 := drop 5 l in let l2 := drop 3 l1 in let l3 := drop 3 l2 in let l4 := drop 3 l3 in let l5 := drop 3 l4 in
  part 4%nat 45 l && part 2%nat 45 l1 && part 2%nat 84 l2 && part 2%nat 58 l3 && part 2%nat 58 l4 && digits 2%nat l5
  && match drop 2 l5 with
     | [z] => ord z =? 90
     | point :: rest =>
         let '(fraction, rest) := span is_digit rest in
         (ord point =? 46) && (1 <=? length fraction)%nat && (length fraction <=? 6)%nat && bool_decide (rest = [chr 90])
     | [] => false
     end.

(** [_timestamp]: the instant *)
Definition timestamp (value : string) : option Z :=
  if negb (TIMESTAMP value) then None
  else match read_expiry value with Some (Aware utc _) => Some utc | _ => None end.

Definition at_least (x y : option Z) : bool := match x, y with Some a, Some b => b <=? a | _, _ => false end.
Definition later_than (x y : option Z) : bool := match x, y with Some a, Some b => b <? a | _, _ => false end.

Definition has_phase (r : Report) (phase : string) : bool := bool_decide (phase ∈ or_phases r).

(** [_validate_runs] *)
Definition valid_runs (r : Report) : bool :=
  match or_runs r with
  | [] => or_avoided_deterministic_step_count r =? 0
  | fresh :: more =>
      isSome (or_runtime r) && or_fresh_approved r && bool_decide (rs_phase fresh = "fresh") && has_phase r "fresh_verified"
      && (0 <? rs_step_count fresh)
      && forallb (fun run => unique (map ss_step_id (rs_steps run)) && unique (map as_relative_path (rs_artifacts run))) (or_runs r)
      && match more with
         | [] => or_avoided_deterministic_step_count r =? 0
         | [reuse] =>
             bool_decide (rt_mode <$> or_runtime r = Some "fresh-then-exact-reuse") && or_reuse_approved r
             && has_phase r "reuse_verified" && bool_decide (rs_phase reuse = "reuse")
             && negb (rs_run_id reuse =? rs_run_id fresh) && negb (rs_work_order_id reuse =? rs_work_order_id fresh)
             && bool_decide (rs_reused_from_run_id reuse = Some (rs_source_run_id reuse)) && (rs_source_run_id reuse =? rs_run_id fresh)
             && bool_decide (rs_worker_id fresh = rs_worker_id reuse)
             && bool_decide (rs_reuse_identity_hash fresh = rs_reuse_identity_hash reuse)
             && (rs_step_count reuse =? 0) && (rs_artifact_count reuse =? 0)
             && (or_avoided_deterministic_step_count r =? rs_step_count fresh)
         | _ => false
         end
  end.

(** [_validate_success] *)
Definition valid_success (r : Report) : bool :=
  match or_runtime r with
  | None => false
  | Some runtime =>
      let reuse := bool_decide (rt_mode runtime = "fresh-then-exact-reuse") in
      bool_decide (Some (or_phases r) = success_phases (rt_mode runtime))
      && (Z.of_nat (length (or_runs r)) =? 1 + bool_int reuse) && bool_decide (or_reason r = "lifecycle_verified")
      && isSome (or_completed_at r) && or_preflight_passed r && or_server_ready r && or_worker_ready r
      && or_fresh_approved r && Bool.eqb (or_reuse_approved r) reuse && (or_operator_action_count r =? 1 + bool_int reuse)
      && bool_decide (or_active_lease_count r = Some 0) && bool_decide (or_worker_active_run_count r = Some 0)
      && negb (or_failed_runtime_preserved r)
      && forallb (fun run => later_than (timestamp (rs_evidence_retention_expires_at run))
                               (or_completed_at r ≫= timestamp)) (or_runs r)
      && isSome (or_completed_at r ≫= timestamp)
  end.

(** The positions of the phases *)
Definition positions (phases : list string) : list nat := omap phase_index phases.
Fixpoint increasing (l : list nat) : bool :=
  match l with
  | a :: ((b :: _) as l') => (a <? b)%nat && increasing l'
  | _ => true
  end.

(** [validate_report_state] *)
Definition validate_report_state (r : Report) : bool :=
  let natural o := match o with Some z => 0 <=? z | None => true end in
  let flag_ok flag phase := Bool.eqb flag (has_phase r phase) in
  let approved := bool_int (or_fresh_approved r) + bool_int (or_reuse_approved r) in
  (or_schema_version r =? REPORT_VERSION) && bool_decide (or_outcome r ∈ ["succeeded"; "failed"; "inspected"])
  && SAFE_REASON (or_reason r)
  && forallb (fun phase => bool_decide (phase ∈ LIFECYCLE_PHASES)) (or_phases r) && increasing (positions (or_phases r))
  && natural (or_active_lease_count r) && natural (or_worker_active_run_count r) && (0 <=? or_operator_action_count r)
  && (0 <=? or_avoided_deterministic_step_count r)
  && flag_ok (or_preflight_passed r) "preflight_passed" && flag_ok (or_server_ready r) "server_healthy"
  && flag_ok (or_worker_ready r) "worker_online" && flag_ok (or_fresh_approved r) "fresh_approved"
  && flag_ok (or_reuse_approved r) "reuse_approved"
  && bool_decide (or_preflight_checks r = if or_preflight_passed r then PREFLIGHT_CHECKS else [])
  && (approved <=? or_operator_action_count r) && (or_operator_action_count r <=? Z.min (approved + 1) MAX_RUNS)
  && (negb (or_reuse_approved r) || or_fresh_approved r)
  && match or_runtime r with
     | Some runtime =>
         isSome (timestamp (rt_created_at runtime))
         && match success_phases (rt_mode runtime) with
            | Some allowed => forallb (fun phase => bool_decide (phase ∈ allowed)) (or_phases r)
            | None => false
            end
         && match or_completed_at r with
            | Some completed => at_least (timestamp completed) (timestamp (rt_created_at runtime))
            | None => true
            end
         && (negb (bool_decide (rt_mode runtime = "fresh-only"))
             || (negb (or_reuse_approved r) && (or_operator_action_count r <=? 1)))
     | None => bool_decide (or_phases r = []) && bool_decide (map rs_run_id (or_runs r) = []) && bool_decide (or_completed_at r = None)
     end
  && (negb (has_phase r "cleanup_verified")
      || (or_owned_processes_stopped r && or_port_released r && or_canonical_checkout_unchanged r))
  && valid_runs r
  && if bool_decide (or_outcome r = "succeeded") then valid_success r
     else
       negb (has_phase r "completed") && negb (bool_decide (or_reason r = "lifecycle_verified"))
       && (bool_decide (or_completed_at r = None) || (has_phase r "shutdown_started" && or_failed_runtime_preserved r))
       && (negb (bool_decide (or_outcome r = "inspected"))
           || (bool_decide (or_phases r = []) && bool_decide (map rs_run_id (or_runs r) = []) && bool_decide (or_completed_at r = None))).

(** ** What may be published *)

(** [_validate_public_value]: the reason for which it is refused *)
Fixpoint validate_public_value (depth : Z) (value : Json) {struct value} : Result string unit :=
  if MAX_DEPTH <? depth then Err "report_depth_limit_exceeded"
  else
    match value with
    | JStr s =>
        reject_if ((MAX_STRING <? str_length s) || contains_absolute_local_path s || contains_worker_credential s)
          "report_text_policy_rejected"
    | JNull | JBool _ | JInt _ => Ok tt
    | JFloat r => reject_if (bool_decide (r ∈ ["nan"; "inf"; "-inf"])) "report_number_invalid"
    | JList l =>
        reject_if (MAX_ITEMS <? Z.of_nat (length l)) "report_collection_limit_exceeded";;
        (fix go (l : list Json) : Result string unit :=
           match l with [] => Ok tt | x :: l' => validate_public_value (depth + 1) x;; go l' end) l
    | JObj fields =>
        reject_if (MAX_MAPPING_ITEMS <? Z.of_nat (length fields)) "report_collection_limit_exceeded";;
        (fix go (l : list (string * Json)) : Result string unit :=
           match l with
           | [] => Ok tt
           | (key, x) :: l' =>
               reject_if (MAX_KEY_LENGTH <? str_length key) "report_key_policy_rejected";;
               validate_public_value (depth + 1) x;; go l'
           end) fields
    end.

(** [_safe_relative_path] *)
Definition safe_relative_path (value : string) : bool :=
  negb (bool_decide (value = "")) && (str_length value <=? MAX_STRING)
  && match validate_relative_path value with Ok v => bool_decide (v = value) | Err _ => false end.

(** A JSON number below zero *)
Definition negative (j : Json) : bool := match json_number j with Some q => negb (Qle_bool 0 q) | None => false end.

(** [_validate_run_summary]: whether it is accepted *)
Definition valid_run_summary (r : RunSummary) : bool :=
  let artifact_bytes := foldr Z.add 0 (map as_size_bytes (rs_artifacts r)) in
  let phase_link_valid :=
    (bool_decide (rs_phase r = "fresh") && (rs_source_run_id r =? rs_run_id r) && bool_decide (rs_reused_from_run_id r = None)
     && bool_decide (rs_reuse_decision r = "fresh"))
    || (bool_decide (rs_phase r = "reuse") && bool_decide (rs_reused_from_run_id r = Some (rs_source_run_id r))
        && bool_decide (rs_reuse_decision r = "reused") && (rs_step_count r =? 0) && (rs_artifact_count r =? 0)) in
  match read_expiry (rs_evidence_retention_expires_at r) with
  | Some (Aware _ _) =>
      (rs_schema_version r =? 1) && (1 <=? rs_work_order_id r) && (1 <=? rs_run_id r) && (1 <=? rs_source_run_id r)
      && SAFE_ID (rs_worker_id r) && DIGEST (rs_reuse_identity_hash r) && DIGEST (rs_evidence_fingerprint r)
      && (str_length (rs_evidence_retention_expires_at r) <=? MAX_TIMESTAMP_LENGTH)
      && ends_with [chr 90] (to_chars (rs_evidence_retention_expires_at r)) && phase_link_valid
      && bool_decide (rs_status r = "succeeded") && bool_decide (rs_routing_policy r = "first_available")
      && SAFE_REASON (rs_route_reason r) && (rs_required_quota_units r =? 0) && (rs_reserved_quota_units r =? 0)
      && bool_decide (rs_quota_reservation_state r = "not_required") && (1 <=? rs_eligible_candidate_count r)
      && (rs_step_count r =? Z.of_nat (length (rs_steps r))) && (rs_artifact_count r =? Z.of_nat (length (rs_artifacts r)))
      && (rs_artifact_total_bytes r =? artifact_bytes) && (0 <=? artifact_bytes)
      && rs_route_verified r && rs_evidence_verified r && rs_local_evidence_verified r && rs_source_checkout_unchanged r
      && forallb (fun s => SAFE_ID (ss_step_id s) && SAFE_REASON (ss_status s) && negb (negative (ss_duration_seconds s))) (rs_steps r)
      && forallb (fun a => SAFE_REASON (as_kind a) && safe_relative_path (as_relative_path a) && (0 <=? as_size_bytes a)
                           && DIGEST (as_sha256 a)) (rs_artifacts r)
  | _ => false
  end.

(** [validate_runtime_summary] *)
Definition valid_runtime_summary (s : RuntimeSummary) : bool :=
  (rt_schema_version s =? 1) && SAFE_ID (rt_runtime_id s) && SAFE_ID (rt_repository_full_name s) && SHA_TEXT (rt_target_sha s)
  && SAFE_ID (rt_manifest_name s) && SAFE_ID (rt_manifest_version s) && DIGEST (rt_manifest_digest s)
  && bool_decide (rt_mode s ∈ ["fresh-only"; "fresh-then-exact-reuse"])
  && bool_decide (rt_command_identity s = "validation-lifecycle@1") && (str_length (rt_created_at s) <=? MAX_TIMESTAMP_LENGTH).

(** [OperatorLifecycleReport.as_dict] *)
Definition as_dict (r : Report) : Result string Json :=
  let payload := report_json r in
  reject_if (negb (validate_report_shape payload)) "report_contract_invalid";;
  reject_if (match or_runtime r with Some s => negb (valid_runtime_summary s) | None => false end) "runtime_marker_invalid";;
  reject_if (negb (forallb valid_run_summary (or_runs r))) "report_run_invalid";;
  validate_public_value 0 payload;;
  reject_if (negb (validate_report_state r)) "report_contract_invalid";;
  Ok payload.

(** [OperatorLifecycleReport.as_json_bytes] *)
Definition as_json_bytes (maximum_bytes : Z) (r : Report) : Result string string :=
  payload ← as_dict r;
  let encoded := dumps true payload in
  reject_if (maximum_bytes <? str_length encoded) "report_size_limit_exceeded";;
  Ok encoded.

Definition bool_text (b : bool) : string := if b then "True" else "False".
Definition newline : string := String (chr 10) "".

(** The line of a run *)
Definition run_line (r : RunSummary) : string :=
  rs_phase r +:+ ": work_order=" +:+ str_of_int (rs_work_order_id r) +:+ " run=" +:+ str_of_int (rs_run_id r)
  +:+ " source_run=" +:+ str_of_int (rs_source_run_id r) +:+ " status=" +:+ rs_status r +:+ " reuse=" +:+ rs_reuse_decision r
  +:+ " identity_hash=" +:+ rs_reuse_identity_hash r +:+ " route=" +:+ rs_routing_policy r +:+ ":" +:+ rs_route_reason r
  +:+ " worker=" +:+ rs_worker_id r +:+ " eligible=" +:+ str_of_int (rs_eligible_candidate_count r)
  +:+ " quota=" +:+ str_of_int (rs_required_quota_units r) +:+ "/" +:+ str_of_int (rs_reserved_quota_units r) +:+ ":"
  +:+ rs_quota_reservation_state r +:+ " steps=" +:+ str_of_int (rs_step_count r)
  +:+ " artifacts=" +:+ str_of_int (rs_artifact_count r) +:+ " artifact_bytes=" +:+ str_of_int (rs_artifact_total_bytes r)
  +:+ " fingerprint=" +:+ rs_evidence_fingerprint r +:+ " expires=" +:+ rs_evidence_retention_expires_at r.

(** [OperatorLifecycleReport.as_text] *)
Definition as_text (maximum_bytes : Z) (r : Report) : Result string string :=
  as_dict r;;
  let lines :=
    ["Switchboard operator validation lifecycle"; "outcome: " +:+ or_outcome r; "reason: " +:+ or_reason r;
     "preflight: " +:+ bool_text (or_preflight_passed r); "server_ready: " +:+ bool_text (or_server_ready r);
     "worker_ready: " +:+ bool_text (or_worker_ready r); "fresh_approved: " +:+ bool_text (or_fresh_approved r);
     "reuse_approved: " +:+ bool_text (or_reuse_approved r); "runs: " +:+ str_of_int (Z.of_nat (length (or_runs r)));
     "active_lease_count: " +:+ match or_active_lease_count r with Some z => str_of_int z | None => "None" end;
     "owned_processes_stopped: " +:+ bool_text (or_owned_processes_stopped r);
     "port_released: " +:+ bool_text (or_port_released r);
     "canonical_checkout_unchanged: " +:+ bool_text (or_canonical_checkout_unchanged r);
     "failed_runtime_preserved: " +:+ bool_text (or_failed_runtime_preserved r);
     "operator_action_count: " +:+ str_of_int (or_operator_action_count r);
     "avoided_deterministic_step_count: " +:+ str_of_int (or_avoided_deterministic_step_count r);
     "phases: " +:+ join "," (or_phases r)] ++ map run_line (or_runs r) in
  let encoded := join newline lines +:+ newline in
  reject_if (maximum_bytes <? str_length encoded) "report_size_limit_exceeded";;
  Ok encoded.

(** [StoredOperatorLifecycleReport.as_text] *)
Definition stored_as_text (maximum_bytes : Z) (r : Report) : Result string string :=
  text ← as_text maximum_bytes r;
  let encoded := "inspection: stored state only; live evidence not reverified" +:+ newline +:+ text in
  reject_if (maximum_bytes <? str_length encoded) "report_size_limit_exceeded";;
  Ok encoded.

(** ** Reading a report back *)

Definition text_at (name : string) (o : list (string * Json)) : string := match member name o with JStr s => s | _ => "" end.
Definition int_at (name : string) (o : list (string * Json)) : Z := match member name o with JInt z => z | _ => 0 end.
Definition bool_at (name : string) (o : list (string * Json)) : bool := match member name o with JBool b => b | _ => false end.
Definition opt_int_at (name : string) (o : list (string * Json)) : option Z := match member name o with JInt z => Some z | _ => None end.
Definition opt_text_at (name : string) (o : list (string * Json)) : option string := match member name o with JStr s => Some s | _ => None end.
Definition texts_at (name : string) (o : list (string * Json)) : list string :=
  map (fun j => match j with JStr s => s | _ => "" end) (items_of (member name o)).
Definition fields_of (j : Json) : list (string * Json) := match j with JObj o => o | _ => [] end.

Definition step_of (j : Json) : StepSummary :=
  let o := fields_of j in
  {| ss_step_id := text_at "step_id" o; ss_status := text_at "status" o; ss_duration_seconds := member "duration_seconds" o |}.
Definition artifact_of (j : Json) : ArtifactSummary :=
  let o := fields_of j in
  {| as_kind := text_at "kind" o; as_relative_path := text_at "relative_path" o; as_size_bytes := int_at "size_bytes" o;
     as_sha256 := text_at "sha256" o |}.
Definition run_of (j : Json) : RunSummary :=
  let o := fields_of j in
  {| rs_schema_version := int_at "schema_version" o; rs_work_order_id := int_at "work_order_id" o; rs_run_id := int_at "run_id" o;
     rs_source_run_id := int_at "source_run_id" o; rs_phase := text_at "phase" o; rs_worker_id := text_at "worker_id" o;
     rs_status := text_at "status" o; rs_reuse_decision := text_at "reuse_decision" o;
     rs_reused_from_run_id := opt_int_at "reused_from_run_id" o; rs_reuse_identity_hash := text_at "reuse_identity_hash" o;
     rs_evidence_fingerprint := text_at "evidence_fingerprint" o;
     rs_evidence_retention_expires_at := text_at "evidence_retention_expires_at" o; rs_routing_policy := text_at "routing_policy" o;
     rs_route_reason := text_at "route_reason" o; rs_required_quota_units := int_at "required_quota_units" o;
     rs_reserved_quota_units := int_at "reserved_quota_units" o; rs_quota_reservation_state := text_at "quota_reservation_state" o;
     rs_eligible_candidate_count := int_at "eligible_candidate_count" o; rs_step_count := int_at "step_count" o;
     rs_artifact_count := int_at "artifact_count" o; rs_artifact_total_bytes := int_at "artifact_total_bytes" o;
     rs_route_verified := bool_at "route_verified" o; rs_evidence_verified := bool_at "evidence_verified" o;
     rs_local_evidence_verified := bool_at "local_evidence_verified" o;
     rs_source_checkout_unchanged := bool_at "source_checkout_unchanged" o;
     rs_steps := map step_of (items_of (member "steps" o)); rs_artifacts := map artifact_of (items_of (member "artifacts" o)) |}.

(** The report of a payload whose shape is right, and its runtime *)
Definition report_of (summary : RuntimeSummary) (o : list (string * Json)) : Report :=
  {| or_schema_version := int_at "schema_version" o; or_outcome := text_at "outcome" o; or_reason := text_at "reason" o;
     or_runtime := Some summary; or_phases := texts_at "phases" o; or_preflight_checks := texts_at "preflight_checks" o;
     or_preflight_passed := bool_at "preflight_passed" o; or_server_ready := bool_at "server_ready" o;
     or_worker_ready := bool_at "worker_ready" o; or_fresh_approved := bool_at "fresh_approved" o;
     or_reuse_approved := bool_at "reuse_approved" o; or_runs := map run_of (items_of (member "runs" o));
     or_active_lease_count := opt_int_at "active_lease_count" o; or_worker_active_run_count := opt_int_at "worker_active_run_count" o;
     or_owned_processes_stopped := bool_at "owned_processes_stopped" o; or_port_released := bool_at "port_released" o;
     or_canonical_checkout_unchanged := bool_at "canonical_checkout_unchanged" o;
     or_failed_runtime_preserved := bool_at "failed_runtime_preserved" o; or_operator_action_count := int_at "operator_action_count" o;
     or_avoided_deterministic_step_count := int_at "avoided_deterministic_step_count" o; or_completed_at := opt_text_at "completed_at" o |}.

(** [inspect_validation_runtime], of the payload that was read; [None] when there is no report *)
Definition inspect_report (summary : RuntimeSummary) (payload : option Json) : Result string Report :=
  match payload with
  | None => Ok (new_report <| or_outcome := "inspected" |> <| or_reason := "runtime_marker_verified" |> <| or_runtime := Some summary |>)
  | Some payload =>
      match payload with
      | JObj o =>
          reject_if (negb (has_exactly o REPORT_FIELDS && py_equal (member "runtime" o) (JObj (runtime_fields summary))))
            "runtime_report_invalid";;
          reject_if (negb (validate_report_shape payload)) "runtime_report_invalid";;
          let report := report_of summary o in
          match as_dict report with
          | Ok _ => Ok report
          | Err _ => Err "runtime_report_invalid"
          end
      | _ => Err "runtime_report_invalid"
      end
  end.

(** ** Progress *)

Definition PROGRESS_KINDS : list string :=
  ["preflight_started"; "preflight_passed"; "runtime_created"; "server_started"; "server_ready"; "worker_started"; "worker_ready";
   "approval_requested"; "approval_accepted"; "approval_denied"; "work_order_created"; "work_order_approved"; "work_order_queued";
   "run_observed"; "evidence_verification_started"; "evidence_verified"; "shutdown_started"; "cleanup_verified"; "completed"; "failed"].
Definition PHASE_KINDS : list string :=
  ["approval_requested"; "approval_accepted"; "approval_denied"; "work_order_created"; "work_order_approved"; "work_order_queued";
   "run_observed"; "evidence_verification_started"; "evidence_verified"].
Definition MAX_PROGRESS_EVENTS : Z := 64.

(** What an event says: its kind, its phase, the status of a run *)
Notation ProgressKey := (string * option string * option ExecutionRunStatus)%type.

Record ProgressEvent := { pe_sequence : Z; pe_key : ProgressKey }.

(** [ProgressEvent.__post_init__] *)
Definition valid_event (e : ProgressEvent) : bool :=
  let '(event, phase, run_status) := pe_key e in
  (1 <=? pe_sequence e) && (pe_sequence e <=? MAX_PROGRESS_EVENTS) && bool_decide (event ∈ PROGRESS_KINDS)
  && bool_decide (phase ∈ [None; Some "fresh"; Some "reuse"])
  && Bool.eqb (bool_decide (event ∈ PHASE_KINDS)) (isSome phase)
  && Bool.eqb (bool_decide (event = "run_observed")) (isSome run_status).

(** [ProgressPublisher]: whether there is an observer, what was said, and what the observer was given *)
Record Publisher := { pp_observer : bool; pp_seen : list ProgressKey; pp_published : list ProgressEvent }.

Definition new_publisher (observer : bool) : Publisher := {| pp_observer := observer; pp_seen := []; pp_published := [] |}.

(** [ProgressPublisher.emit]; [accepted] is false when the observer raises.  An invalid event raises [ValueError]. *)
Definition emit (accepted : bool) (key : ProgressKey) (p : Publisher) : option Publisher :=
  if negb (pp_observer p) || bool_decide (key ∈ pp_seen p) || (MAX_PROGRESS_EVENTS <=? Z.of_nat (length (pp_seen p))) then Some p
  else
    let observation := {| pe_sequence := Z.of_nat (length (pp_seen p)) + 1; pe_key := key |} in
    if negb (valid_event observation) then None
    else Some {| pp_observer := accepted; pp_seen := pp_seen p ++ [key]; pp_published := pp_published p ++ [observation] |}.
