(* ===== verification/ReportProofs.v ===== *)
(** * A report can be read back

    The report that a lifecycle writes is the report that a later inspection of its runtime gives, for every
    report that the contract accepts. *)

From S2P Require Import Prelude Text Json Enums TextPolicy Checks Evidence Floats JsonCodec Documents Parsers Models Iso8601 WorkerModels WorkerPolicy ProfileProofs Fingerprints OperatorReport.
From Stdlib Require Import QArith.
#[local] Open Scope Z_scope.

(** ** Sorted objects *)

Definition sorted (fields : list (string * Json)) : list (string * Json) := merge_sort key_le (map (fun kv => (kv.1, canon kv.2)) fields).

Lemma canon_sorted fields : canon (JObj fields) = JObj (sorted fields).
Proof. done. Qed.

Lemma sorted_perm fields : sorted fields ≡ₚ map (fun kv => (kv.1, canon kv.2)) fields.
Proof. apply merge_sort_Permutation. Qed.

Lemma obj_get_perm {A} k (f1 f2 : list (string * A)) : NoDup f1.*1 -> f1 ≡ₚ f2 -> obj_get k f1 = obj_get k f2.
Proof.
  intros Hnd Hp. revert Hnd. induction Hp as [|[k1 v1] f1 f2 Hp IH|[k1 v1] [k2 v2] f|f1 f2 f3 Hp1 IH1 Hp2 IH2]; cbn; intros Hnd.
  - done.
  - apply NoDup_cons in Hnd as [_ Hnd]. by rewrite IH.
  - apply NoDup_cons in Hnd as [Hn _]. repeat case_bool_decide; try done. subst. destruct Hn. by left.
  - rewrite IH1 by done. apply IH2. by rewrite <-Hp1.
Qed.

Lemma obj_get_canon k fields : obj_get k (map (fun kv => (kv.1, canon kv.2)) fields) = canon <$> obj_get k fields.
Proof. induction fields as [|[k1 v1] fields IH]; [done|]. cbn. by case_bool_decide. Qed.

Lemma keys_canon fields : (map (fun kv : string * Json => (kv.1, canon kv.2)) fields).*1 = fields.*1.
Proof. induction fields as [|[k v] fields IH]; cbn; [done|]. by f_equal. Qed.

Lemma member_sorted k fields : NoDup fields.*1 -> member k (sorted fields) = canon (member k fields).
Proof.
  intros Hnd. unfold member. rewrite <-(obj_get_perm k _ _ (eq_ind_r NoDup Hnd (keys_canon fields)) (symmetry (sorted_perm fields))), obj_get_canon.
  by destruct (obj_get k fields).
Qed.

(** ** Shapes *)

Lemma type_canon j : type_of (canon j) = type_of j.
Proof. by destruct j. Qed.

Lemma forallb_equal {A} (f g : A -> bool) l : (forall x, f x = g x) -> forallb f l = forallb g l.
Proof. intros H. induction l as [|x l IH]; cbn; [done|]. by rewrite H, IH. Qed.
Lemma forallb_over {A B} (f : B -> bool) (g : A -> B) l : forallb f (map g l) = forallb (fun x => f (g x)) l.
Proof. induction l as [|x l IH]; cbn; [done|]. by rewrite IH. Qed.

Lemma subset_perm l1 l2 allowed : l1 ≡ₚ l2 -> subset_of l1 allowed = subset_of l2 allowed.
Proof.
  intros Hp. apply eq_iff_eq_true. unfold subset_of. rewrite !forallb_Forall. by rewrite Hp.
Qed.
Lemma subset_perm_r l l1 l2 : l1 ≡ₚ l2 -> subset_of l l1 = subset_of l l2.
Proof.
  intros Hp. unfold subset_of. apply forallb_equal. intros x. apply bool_decide_ext. by rewrite Hp.
Qed.

Lemma keys_sorted fields : map fst (sorted fields) ≡ₚ map fst fields.
Proof. change ((sorted fields).*1 ≡ₚ fields.*1). by rewrite sorted_perm, keys_canon. Qed.

Lemma exactly_sorted fields expected : has_exactly (sorted fields) expected = has_exactly fields expected.
Proof.
  unfold has_exactly. by rewrite (subset_perm _ _ _ (keys_sorted fields)), (subset_perm_r _ _ _ (keys_sorted fields)).
Qed.

Lemma shape_sorted fields types : NoDup fields.*1 -> shape (canon (JObj fields)) types = sorted <$> shape (JObj fields) types.
Proof.
  intros Hnd. rewrite canon_sorted. unfold shape. rewrite exactly_sorted.
  assert (forallb (fun '(name, types) => bool_decide (type_of (member name (sorted fields)) ∈ types)) types
          = forallb (fun '(name, types) => bool_decide (type_of (member name fields) ∈ types)) types) as ->.
  { apply forallb_equal. intros [name ts]. by rewrite member_sorted, type_canon. }
  by destruct (_ && _).
Qed.

Lemma items_canon j : items_of (canon j) = map canon (items_of j).
Proof. by destruct j. Qed.
Lemma fields_canon fields : fields_of (canon (JObj fields)) = sorted fields.
Proof. done. Qed.
Lemma collection_canon l : collection (map canon l) = collection l.
Proof. unfold collection. by rewrite length_map. Qed.

(** The keys of the objects of a report *)
Lemma step_keys s : NoDup (step_fields s).*1.
Proof. by apply (bool_decide_eq_true_1 _). Qed.
Lemma artifact_keys a : NoDup (artifact_fields a).*1.
Proof. by apply (bool_decide_eq_true_1 _). Qed.
Lemma run_keys r : NoDup (run_fields r).*1.
Proof. by apply (bool_decide_eq_true_1 _). Qed.
Lemma runtime_keys r : NoDup (runtime_fields r).*1.
Proof. by apply (bool_decide_eq_true_1 _). Qed.
Lemma report_keys r : NoDup (report_fields r).*1.
Proof. by apply (bool_decide_eq_true_1 _). Qed.

Lemma shape_some fields types found : shape (JObj fields) types = Some found -> found = fields.
Proof. unfold shape. destruct (_ && _); [|done]. by intros [= <-]. Qed.

Lemma shape_type fields types found name ts : shape (JObj fields) types = Some found -> (name, ts) ∈ types -> type_of (member name fields) ∈ ts.
Proof.
  unfold shape. destruct (has_exactly _ _); [|done]. cbn [andb]. destruct (forallb _ types) eqn:Hb; [|done]. intros _ Hin.
  rewrite forallb_Forall, Forall_forall in Hb. apply Hb in Hin. by apply bool_decide_eq_true in Hin.
Qed.

Lemma step_shape_canon s : isSome (shape (canon (JObj (step_fields s))) STEP_SHAPE) = isSome (shape (JObj (step_fields s)) STEP_SHAPE).
Proof. rewrite shape_sorted by apply step_keys. by destruct (shape _ _). Qed.
Lemma artifact_shape_canon a : isSome (shape (canon (JObj (artifact_fields a))) ARTIFACT_SHAPE) = isSome (shape (JObj (artifact_fields a)) ARTIFACT_SHAPE).
Proof. rewrite shape_sorted by apply artifact_keys. by destruct (shape _ _). Qed.

Lemma run_shape_canon r : valid_run_shape (canon (JObj (run_fields r))) = valid_run_shape (JObj (run_fields r)).
Proof.
  unfold valid_run_shape. rewrite shape_sorted by apply run_keys. destruct (shape (JObj (run_fields r)) RUN_SHAPE) as [run|] eqn:Hs; [|done].
  apply shape_some in Hs as ->. cbn [fmap option_fmap option_map]. rewrite !member_sorted, !items_canon, !collection_canon by apply run_keys.
  change (member "steps" (run_fields r)) with (JList (map (fun s => JObj (step_fields s)) (rs_steps r))).
  change (member "artifacts" (run_fields r)) with (JList (map (fun a => JObj (artifact_fields a)) (rs_artifacts r))). cbn [items_of].
  rewrite !forallb_over. by rewrite (forallb_equal _ _ _ step_shape_canon), (forallb_equal _ _ _ artifact_shape_canon).
Qed.

Lemma report_shape_canon r : validate_report_shape (canon (report_json r)) = validate_report_shape (report_json r).
Proof.
  unfold validate_report_shape, report_json. rewrite shape_sorted by apply report_keys.
  destruct (shape (JObj (report_fields r)) REPORT_SHAPE) as [report|] eqn:Hs; [|done].
  apply shape_some in Hs as ->. cbn [fmap option_fmap option_map]. rewrite !member_sorted, !items_canon, !collection_canon by apply report_keys.
  change (member "runs" (report_fields r)) with (JList (map (fun s => JObj (run_fields s)) (or_runs r))).
  change (member "phases" (report_fields r)) with (JList (map JStr (or_phases r))).
  change (member "preflight_checks" (report_fields r)) with (JList (map JStr (or_preflight_checks r))).
  change (member "runtime" (report_fields r)) with (opt_json (fun s => JObj (runtime_fields s)) (or_runtime r)). cbn [items_of].
  rewrite length_map, !forallb_over, (forallb_equal _ _ _ run_shape_canon). f_equal. f_equal.
  destruct (or_runtime r) as [runtime|]; [|done].
  change (isSome (shape (canon (JObj (runtime_fields runtime))) RUNTIME_SHAPE) = isSome (shape (JObj (runtime_fields runtime)) RUNTIME_SHAPE)).
  rewrite shape_sorted by apply runtime_keys. by destruct (shape _ _).
Qed.

(** ** Reading back *)

(** The fields of an object that was sorted *)
Ltac back keys := cbv zeta; rewrite fields_canon; unfold text_at, int_at, bool_at, opt_int_at, opt_text_at, texts_at; rewrite !member_sorted by apply keys.

Lemma map_back {A} (f : A -> A) l : Forall (fun x => f x = x) l -> map f l = l.
Proof. induction 1 as [|x l Hx _ IH]; cbn; [done|]. by rewrite Hx, IH. Qed.

Lemma step_back s : type_of (ss_duration_seconds s) ∈ [TInt; TFloat] -> step_of (canon (JObj (step_fields s))) = s.
Proof.
  intros Ht. unfold step_of. back step_keys. destruct s as [id status d]. cbn [ss_duration_seconds] in Ht.
  assert (Hd : canon d = d) by (destruct d; try done; by apply (bool_decide_eq_true_2 _) in Ht).
  change (member "duration_seconds" _) with d. by rewrite Hd.
Qed.
Lemma artifact_back a : artifact_of (canon (JObj (artifact_fields a))) = a.
Proof. unfold artifact_of. back artifact_keys. by destruct a. Qed.

(** A run whose steps have numbers as durations *)
Definition timed (r : RunSummary) : Prop := Forall (fun s => type_of (ss_duration_seconds s) ∈ [TInt; TFloat]) (rs_steps r).

Lemma run_back r : timed r -> run_of (canon (JObj (run_fields r))) = r.
Proof.
  intros Ht. unfold run_of. back run_keys. rewrite !items_canon.
  change (member "steps" (run_fields r)) with (JList (map (fun s => JObj (step_fields s)) (rs_steps r))).
  change (member "artifacts" (run_fields r)) with (JList (map (fun a => JObj (artifact_fields a)) (rs_artifacts r))). cbn [items_of].
  rewrite !map_map, (map_back _ (rs_steps r)), (map_back _ (rs_artifacts r)).
  - by destruct r as [????????[?|]].
  - apply Forall_true. intros a. apply artifact_back.
  - eapply Forall_impl; [exact Ht|]. intros s. apply step_back.
Qed.

Lemma report_back r summary : or_runtime r = Some summary -> Forall timed (or_runs r) -> report_of summary (sorted (report_fields r)) = r.
Proof.
  intros Hs Ht. unfold report_of, text_at, int_at, bool_at, opt_int_at, opt_text_at, texts_at. rewrite !member_sorted by apply report_keys.
  change (member "runs" (report_fields r)) with (JList (map (fun s => JObj (run_fields s)) (or_runs r))).
  change (member "phases" (report_fields r)) with (JList (map JStr (or_phases r))).
  change (member "preflight_checks" (report_fields r)) with (JList (map JStr (or_preflight_checks r))).
  rewrite !items_canon. cbn [items_of]. rewrite !map_map. cbn [canon].
  rewrite (map_back _ (or_runs r)), (map_back _ (or_phases r)), (map_back _ (or_preflight_checks r)).
  - destruct r as [? ? ? ? ? ? ? ? ? ? ? ? [?|] [?|] ? ? ? ? ? ? [?|]]; cbn in Hs; by subst.
  - by apply Forall_true.
  - by apply Forall_true.
  - eapply Forall_impl; [exact Ht|]. intros s. apply run_back.
Qed.

Lemma equal_fields (x y : list (string * Json)) : Forall (fun kv => exists v, obj_get kv.1 y = Some v /\ py_equal kv.2 v = true) x ->
  length x = length y -> py_equal (JObj x) (JObj y) = true.
Proof.
  intros Hx Hl. cbn [py_equal]. rewrite Hl, Nat.eqb_refl. cbn [andb]. clear Hl. induction Hx as [|[k u] x (v & Hv & He) _ IH]; [done|].
  cbn in Hv, He. by rewrite Hv, He, IH.
Qed.

(** The values of a runtime are texts, but for its version. *)
Lemma runtime_equal s : py_equal (canon (JObj (runtime_fields s))) (JObj (runtime_fields s)) = true.
Proof.
  rewrite canon_sorted. apply equal_fields.
  - rewrite sorted_perm. repeat constructor; cbn; eexists; (split; [reflexivity|]); cbn; try apply String.eqb_refl. apply Qeq_bool_iff. reflexivity.
  - by rewrite sorted_perm.
Qed.

Lemma run_timed r : valid_run_shape (JObj (run_fields r)) = true -> timed r.
Proof.
  unfold valid_run_shape. destruct (shape (JObj (run_fields r)) RUN_SHAPE) as [run|] eqn:Hs; [|done]. apply shape_some in Hs as ->.
  change (member "steps" (run_fields r)) with (JList (map (fun s => JObj (step_fields s)) (rs_steps r))). cbn [items_of]. cbv zeta.
  intros [[_ H]%andb_prop _]%andb_prop. rewrite forallb_over, forallb_Forall in H. eapply Forall_impl; [exact H|]. intros s Hd. cbv beta in Hd.
  destruct (shape (JObj (step_fields s)) STEP_SHAPE) as [f|] eqn:Hf; [|done].
  by apply (shape_type _ _ _ "duration_seconds" [TInt; TFloat] Hf), (bool_decide_eq_true_1 _).
Qed.

Lemma report_timed r : validate_report_shape (report_json r) = true -> Forall timed (or_runs r).
Proof.
  unfold validate_report_shape, report_json. destruct (shape (JObj (report_fields r)) REPORT_SHAPE) as [f|] eqn:Hs; [|done]. apply shape_some in Hs as ->.
  change (member "runs" (report_fields r)) with (JList (map (fun s => JObj (run_fields s)) (or_runs r))). cbn [items_of]. cbv zeta.
  intros [_ H]%andb_prop. rewrite forallb_over, forallb_Forall in H. eapply Forall_impl; [exact H|]. intros s Hv. cbv beta in Hv. exact (run_timed s Hv).
Qed.

(** A run whose durations are numbers as Python writes them *)
Definition written_durations (r : RunSummary) : Prop := Forall (fun s => wf (ss_duration_seconds s)) (rs_steps r).

Ltac wf_object keys := apply wf_obj; [apply keys|repeat (apply Forall_cons; split; [cbn [snd]; try (by constructor)|]); try apply Forall_nil_2].

Lemma wf_run r : written_durations r -> wf (JObj (run_fields r)).
Proof.
  intros Hd. wf_object run_keys.
  - destruct (rs_reused_from_run_id r); constructor.
  - apply wf_list. rewrite Forall_map. eapply Forall_impl; [exact Hd|]. intros s Hs. by wf_object step_keys.
  - apply wf_list. rewrite Forall_map. apply Forall_true. intros a. by wf_object artifact_keys.
Qed.

Lemma wf_report r : Forall written_durations (or_runs r) -> wf (report_json r).
Proof.
  intros Hd. wf_object report_keys.
  - destruct (or_runtime r) as [s|]; [|constructor]. by wf_object runtime_keys.
  - apply wf_list. rewrite Forall_map. by apply Forall_true; constructor.
  - apply wf_list. rewrite Forall_map. by apply Forall_true; constructor.
  - apply wf_list. rewrite Forall_map. eapply Forall_impl; [exact Hd|]. intros s. apply wf_run.
  - destruct (or_active_lease_count r); constructor.
  - destruct (or_worker_active_run_count r); constructor.
  - destruct (or_completed_at r); constructor.
Qed.

(** C27. The report that is written is the report that is read: for every report with a runtime whose durations are numbers as Python writes them,
    the bytes that [as_json_bytes] gives are within the limit, [json.loads] reads them, and the inspection of the
    runtime accepts them and gives this report again. *)
Theorem report_round_trip n r summary text : or_runtime r = Some summary -> Forall written_durations (or_runs r) ->
  as_json_bytes n r = Ok text ->
  str_length text <= n /\ exists payload, loads text = Some payload /\ inspect_report summary (Some payload) = Ok r.
Proof.
  intros Hs Hd H. unfold as_json_bytes in H. inv_ok H. split; [done|]. exists (canon (report_json r)).
  assert (u = report_json r /\ validate_report_shape (report_json r) = true) as [-> Hshape].
  { unfold as_dict in Hok. inv_ok Hok. done. }
  split; [apply loads_dumps, wf_report; done|].
  unfold inspect_report. change (canon (report_json r)) with (JObj (sorted (report_fields r))) at 1.
  cbv beta iota. rewrite exactly_sorted, member_sorted by apply report_keys.
  change (member "runtime" (report_fields r)) with (opt_json (fun s => JObj (runtime_fields s)) (or_runtime r)).
  rewrite Hs. cbn [opt_json]. rewrite runtime_equal, report_shape_canon, Hshape, (report_back r summary Hs (report_timed r Hshape)), Hok.
  done.
Qed.
