(* ===== verification/OperatorLifecycle.v ===== *)
(** * The operator lifecycle

    [client/python/execution_operator/lifecycle.py]: the orchestration of one validation on an owned
    server and worker, fresh and then by exact reuse, with explicit approvals, verification of
    every run, and a shutdown that always happens.

    The outside is the record [Outside]: the preflight, the runtime directory, the processes, the
    control plane, the operator and the clocks, each a function of the number of answers so
    far.  A launch is taken step by step ([processes._launch]), so that a host can run which is not
    owned yet; the log says how each step was answered.  The response models of the control plane are decoders ([Decoders]), the part of
    each response that is used being a record.  An interrupt is an answer of the outside. *)

From S2P Require Import Prelude Text Json Enums TextPolicy Checks Evidence Floats JsonCodec Documents Parsers Models Iso8601 WorkerModels WorkerPolicy Files EvidenceStore OperatorReport.
From Stdlib Require Import QArith.
#[local] Open Scope Z_scope.

(** ** Data *)

(** The part of [OperatorLifecycleConfig] that the lifecycle reads *)
Record OperatorConfig := {
  oc_repository_full_name : string;
  oc_target_sha : string;
  oc_manifest_name : string;
  oc_manifest_version : string;
  oc_mode : string;
  oc_worker_id : string;
  oc_routing_policy : string;
  oc_work_order_timeout_seconds : Z;
  oc_startup_timeout_seconds : Q;
  oc_terminal_timeout_seconds : Q;
  oc_report_maximum_bytes : Z;
}.

(** [PreflightResult], less the snapshot, which the outside compares *)
Record Preflight := { pf_manifest_digest : string; pf_manifest_steps : list (string * bool) }.

(** [WorkOrderOut] *)
Record OrderOut := {
  oo_id : Z;
  oo_repository_full_name : string;
  oo_commit_sha : string;
  oo_manifest_name : string;
  oo_manifest_version : string;
  oo_manifest_digest : string;
  oo_preferred_executor : option string;
  oo_routing_policy : RoutingPolicy;
  oo_required_quota_units : Z;
  oo_repository_write_allowed : bool;
  oo_network_policy : NetworkPolicy;
  oo_status : WorkOrderStatus;
}.

(** [RouteProvenanceOut] *)
Record RouteOut := {
  ro_routing_policy : RoutingPolicy;
  ro_selected_worker_id : option string;
  ro_explicit_pin_applied : bool;
  ro_required_quota_units : Z;
  ro_reserved_quota_units : Z;
  ro_quota_reservation_state : QuotaReservationState;
  ro_eligible_candidate_count : Z;
  ro_reason : string;
}.
#[export] Instance RouteOut_eq_dec : EqDecision RouteOut.
Proof. solve_decision. Defined.

(** [ExecutionRunOut] *)
Record RunOut := {
  ru_id : Z;
  ru_work_order_id : Z;
  ru_worker_id : string;
  ru_status : ExecutionRunStatus;
  ru_terminal_reason : option string;
  ru_evidence_retention_expires_at : option PyDatetime;
  ru_reuse_identity : option EvidenceReuseIdentity;
  ru_reuse_identity_hash : option string;
  ru_source_evidence_fingerprint : option string;
  ru_artifact_metadata : list ArtifactRecord;
  ru_route_provenance : option RouteOut;
  ru_reuse_decision : ReuseDecision;
  ru_reused_from_run_id : option Z;
}.

(** What the response models accept *)
Record Decoders := {
  d_order : Json -> option OrderOut;
  d_run : Json -> option RunOut;
  d_route : Json -> option RouteOut;
  d_evidence : Json -> option ExecutionEvidence;
}.

(** What is raised: [OperatorLifecycleFailure], [KeyboardInterrupt], the errors the lifecycle expects, those of the
    containment, any other *)
Inductive OpExc :=
| Failure (reason : string)
| Interrupted
| ClientError
| OsFault
| BadValue
| SqlFault
| LaunchError
| CleanupError
| Unexpected
(** the model has run out of turns *)
| NoTurns.

Definition fail (reason : string) : OpExc := Failure (safe_reason reason).

Inductive Process := Server | Worker.
Notation Fields := (list (string * Json)).

Record Outside := {
  w_preflight : nat -> Result OpExc Preflight;
  w_create_runtime : nat -> Result OpExc RuntimeSummary;
  w_admin_token : string;
  (** whether the observer takes an event *)
  w_observer : nat -> bool;
  (** [assert_port_bindable], [_control_plane_source_root], the worker's private configuration *)
  w_port_bindable : nat -> Result OpExc unit;
  w_control_plane_root : nat -> Result OpExc unit;
  w_write_config : nat -> Result OpExc unit;
  (** [launch_strict_host], [_record_process], [host.terminate], the reader of the output *)
  w_start_host : nat -> Process -> Result OpExc unit;
  w_record_process : nat -> Process -> Result OpExc unit;
  w_terminate : nat -> Process -> Result OpExc unit;
  w_start_reader : nat -> Process -> Result OpExc unit;
  w_verify_ownership : nat -> Result OpExc unit;
  w_running : nat -> Process -> bool;
  w_stop : nat -> Process -> Result OpExc bool;
  w_approval : nat -> string -> string -> Result OpExc bool;
  w_monotonic : nat -> Q;
  w_now_text : nat -> string;
  (** the control plane *)
  w_health_ready : nat -> Result OpExc Fields;
  w_list_workers : nat -> Result OpExc Fields;
  w_repository_readiness : nat -> Result OpExc Fields;
  w_issue_credential : nat -> Result OpExc Fields;
  w_revoke_credential : nat -> Json -> Result OpExc unit;
  w_create_order : nat -> Json -> Result OpExc Json;
  w_approve_order : nat -> Z -> Result OpExc Json;
  w_queue_order : nat -> Z -> Result OpExc Json;
  w_get_order : nat -> Z -> Result OpExc Json;
  w_list_runs : nat -> Z -> Result OpExc (list Json);
  w_run_evidence : nat -> Z -> Result OpExc Json;
  w_order_route : nat -> Z -> Result OpExc Json;
  (** the local checks: [source_snapshot(config) == preflight.source], the empty worker directory, the retained
      evidence of a candidate, the rows of the lease table, the port *)
  w_source_unchanged : nat -> Result OpExc bool;
  w_worker_source_empty : nat -> bool;
  w_verify_candidate : nat -> ReuseCandidate -> Result OpExc bool;
  w_lease_row : nat -> Result OpExc (option Z);
  w_port_released : nat -> bool;
  (** one of the two files of the report *)
  w_write : nat -> string -> Result OpExc unit;
}.

(** What is done to the outside *)
Inductive LifeEvent :=
(** the host of the process runs; the answers to what follows until the process is owned, or is not *)
| Started (p : Process)
| Recorded (p : Process) (answer : Result OpExc unit)
| Rechecked (p : Process) (answer : Result OpExc unit)
| Terminated (p : Process) (answer : Result OpExc unit)
| ReaderStarted (p : Process) (answer : Result OpExc unit)
| Launched (p : Process)
| Asked (phase identity : string) (answer : Result OpExc bool)
| OrderCreated (payload : Json)
| OrderApproved (id : Z)
| OrderQueued (id : Z)
| CredentialIssued
| CredentialRevoked (id : Json) (answer : Result OpExc unit)
| Stopped (p : Process) (answer : Result OpExc bool)
| FileWritten (content : string).

Record LifeState := {
  ls_turn : nat;
  ls_report : Report;
  ls_progress : Publisher;
  ls_processes : list Process;
  ls_credential : option Json;
  ls_log : list LifeEvent;
}.
#[export] Instance LifeState_rebuild : Rebuild LifeState := fun s =>
  {| ls_turn := ls_turn s; ls_report := ls_report s; ls_progress := ls_progress s; ls_processes := ls_processes s;
     ls_credential := ls_credential s; ls_log := ls_log s |}.

Section lifecycle.
Context (out : Outside) (dec : Decoders) (fuel : nat) (config : OperatorConfig).

Definition ask {A} (f : nat -> A) : M OpExc LifeState A := fun s => (Ok (f (ls_turn s)), s <| ls_turn := S (ls_turn s) |>).
Definition request {A} (f : nat -> Result OpExc A) : M OpExc LifeState A := ask f ≫= lift_result.
Definition note (e : LifeEvent) : M OpExc LifeState unit := modify (fun s => s <| ls_log := ls_log s ++ [e] |>).
Definition update (f : Report -> Report) : M OpExc LifeState unit := modify (fun s => s <| ls_report := f (ls_report s) |>).

(** [progress.emit] *)
Definition progress (key : ProgressKey) : M OpExc LifeState unit :=
  accepted ← ask (w_observer out);
  p ← gets ls_progress;
  match emit accepted key p with
  | Some p' => modify (fun s => s <| ls_progress := p' |>)
  | None => raise BadValue
  end.
Definition say (kind : string) : M OpExc LifeState unit := progress (kind, None, None).
Definition say_in (phase kind : string) : M OpExc LifeState unit := progress (kind, Some phase, None).

(** [_record_phase] *)
Definition record_phase (phase : string) : M OpExc LifeState unit :=
  report ← gets ls_report;
  let previous := List.last (map phase_index (or_phases report)) None in
  match phase_index phase with
  | Some position =>
      ensure (match previous with Some n => (n <? position)%nat | None => true end) (fail "lifecycle_transition_invalid");;
      update (fun r => r <| or_phases := or_phases r ++ [phase] |>)
  | None => raise (fail "lifecycle_transition_invalid")
  end.

(** What a turn of [_wait_until] takes as no answer yet *)
Definition awaited (e : OpExc) : bool := match e with ClientError | OsFault | BadValue => true | _ => false end.

(** The loop of [_wait_until] *)
Fixpoint wait_loop {A} (turns : nat) (predicate : M OpExc LifeState (option A)) (deadline : Q) (reason : string) : M OpExc LifeState A :=
  match turns with
  | O => raise NoTurns
  | S turns' =>
      now ← ask (w_monotonic out);
      if Qle_bool deadline now then raise (fail reason)
      else
        value ← handle predicate (fun e => if awaited e then Some (mret None) else None);
        match value with
        | Some v => mret v
        | None => wait_loop turns' predicate deadline reason
        end
  end.
Definition wait_until {A} (predicate : M OpExc LifeState (option A)) (timeout : Q) (reason : string) : M OpExc LifeState A :=
  now ← ask (w_monotonic out); wait_loop fuel predicate (now + timeout)%Q reason.

(** [_work_order_payload] *)
Definition work_order_payload (phase : string) : Json :=
  JObj [("schema_version", JInt 1); ("repository_full_name", JStr (oc_repository_full_name config));
        ("commit_sha", JStr (oc_target_sha config));
        ("manifest", JObj [("name", JStr (oc_manifest_name config)); ("version", JStr (oc_manifest_version config)); ("parameters", JObj [])]);
        ("required_capabilities", JObj []); ("permitted_paths", JList []);
        ("forbidden_scope_notes", JStr "operator lifecycle read-only validation"); ("expected_artifact_kinds", JList []);
        ("approval_policy", JStr "explicit"); ("timeout_seconds", JInt (oc_work_order_timeout_seconds config));
        ("resource_metadata", JObj [("operator_lifecycle_phase", JStr phase)]); ("network_policy", JStr "worker_restricted");
        ("repository_write", JBool false); ("preferred_executor", JStr (oc_worker_id config));
        ("reuse_policy", JStr (if bool_decide (phase = "fresh") then "never" else "require_exact"));
        ("routing_policy", JStr (oc_routing_policy config)); ("required_quota_units", JInt 0)].

(** [_approval_identity] *)
Definition approval_identity (phase : string) : string :=
  phase +:+ ":" +:+ oc_repository_full_name config +:+ "@" +:+ oc_target_sha config.

(** [_validate_order] *)
Definition order_matches (expected_status expected_digest : string) (order : OrderOut) : bool :=
  bool_decide (oo_repository_full_name order = oc_repository_full_name config) && bool_decide (oo_commit_sha order = oc_target_sha config)
  && bool_decide (oo_manifest_name order = oc_manifest_name config) && bool_decide (oo_manifest_version order = oc_manifest_version config)
  && bool_decide (oo_manifest_digest order = expected_digest) && bool_decide (oo_preferred_executor order = Some (oc_worker_id config))
  && bool_decide (oo_routing_policy order = FIRST_AVAILABLE) && (oo_required_quota_units order =? 0)
  && negb (oo_repository_write_allowed order) && bool_decide (oo_network_policy order = WORKER_RESTRICTED)
  && bool_decide (work_order_status_value (oo_status order) = expected_status).
Definition validate_order (payload : Json) (expected_status expected_digest : string) : M OpExc LifeState OrderOut :=
  order ← require (d_order dec payload) (fail "work_order_response_invalid");
  ensure (order_matches expected_status expected_digest order) (fail "work_order_identity_mismatch");;
  mret order.

(** ** Waiting *)

(** [_wait_server] *)
Definition wait_server : M OpExc LifeState unit :=
  wait_until (payload ← request (w_health_ready out);
              mret (match member "ok" payload with JBool true => Some tt | _ => None end))
    (oc_startup_timeout_seconds config) "server_readiness_timeout".

(** The workers of a listing with this name *)
Definition named_workers (worker_id : string) (items : list Json) : list Fields :=
  omap (fun item => match item with
                    | JObj fields => if py_equal (member "worker_id" fields) (JStr worker_id) then Some fields else None
                    | _ => None
                    end) items.

Definition MAX_WORKERS : Z := 100.

(** The predicate of [_wait_worker] *)
Definition worker_ready : M OpExc LifeState (option unit) :=
  payload ← request (w_list_workers out);
  match member "items" payload with
  | JList items =>
      if MAX_WORKERS <? Z.of_nat (length items) then mret None
      else
        match named_workers (oc_worker_id config) items with
        | [item] =>
            if py_equal (member "status" item) (JStr "online") && py_equal (member "activity_state" item) (JStr "active")
               && py_equal (member "active_run_count" item) (JInt 0)
               && py_equal (member "repository_full_names" item) (JList [JStr (oc_repository_full_name config)])
            then
              readiness ← request (w_repository_readiness out);
              mret (if py_equal (member "selected_worker_id" readiness) (JStr (oc_worker_id config))
                       && py_equal (member "ready_worker_count" readiness) (JInt 1)
                       && py_equal (member "eligible_worker_count" readiness) (JInt 1)
                    then Some tt else None)
            else mret None
        | _ => mret None
        end
  | _ => mret None
  end.
(** [_wait_worker] *)
Definition wait_worker : M OpExc LifeState unit :=
  wait_until worker_ready (oc_startup_timeout_seconds config) "worker_readiness_timeout".

Definition TERMINAL (s : ExecutionRunStatus) : bool :=
  bool_decide (run_status_value s ∈ ["succeeded"; "failed"; "timed_out"; "cancelled"]).

(** The predicate of [_wait_terminal_run] *)
Definition terminal_run (work_order_id : Z) (phase : string) : M OpExc LifeState (option RunOut) :=
  alive ← ask (fun n => w_running out n Worker);
  ensure alive (fail "worker_process_exited");;
  runs ← request (fun n => w_list_runs out n work_order_id);
  match runs with
  | [] => mret None
  | [payload] =>
      run ← require (d_run dec payload) (fail "run_response_invalid");
      ensure ((ru_work_order_id run =? work_order_id) && bool_decide (ru_worker_id run = oc_worker_id config))
        (fail "run_identity_mismatch");;
      progress ("run_observed", Some phase, Some (ru_status run));;
      mret (if TERMINAL (ru_status run) then Some run else None)
  | _ => raise (fail "unexpected_run_count")
  end.
(** [_wait_terminal_run] *)
Definition wait_terminal_run (work_order_id : Z) (phase : string) : M OpExc LifeState RunOut :=
  wait_until (terminal_run work_order_id phase) (oc_terminal_timeout_seconds config) "run_terminal_timeout".

(** ** Verification of a run *)

(** [_source_is_unchanged] *)
Definition source_is_unchanged : M OpExc LifeState bool :=
  handle (request (w_source_unchanged out)) (fun e => match e with Failure _ => Some (mret false) | _ => None end).

(** [_verify_local_fresh] *)
Definition verify_local_fresh (run : RunOut) (evidence : ExecutionEvidence) : M OpExc LifeState bool :=
  match ru_evidence_retention_expires_at run, ru_reuse_identity run, ru_reuse_identity_hash run, ru_source_evidence_fingerprint run with
  | Some expires, Some identity, Some hash, None =>
      handle (request (fun n => w_verify_candidate out n
                {| cand_source_run_id := ru_id run; cand_expected_source_worker_id := oc_worker_id config;
                   cand_expected_source_evidence_fingerprint := ev_fingerprint evidence; cand_reuse_identity := identity;
                   cand_reuse_identity_hash := hash; cand_source_created_at := ev_started_at evidence;
                   cand_retention_expires_at := utc_naive expires; cand_artifacts := ru_artifact_metadata run |}))
        (fun e => match e with OsFault | BadValue | Failure _ | ClientError => Some (mret false) | _ => None end)
  | _, _, _, _ => mret false
  end.

(** [_route_is_exact] *)
Definition route_is_exact (route : RouteOut) : bool :=
  bool_decide (ro_routing_policy route = FIRST_AVAILABLE) && bool_decide (ro_selected_worker_id route = Some (oc_worker_id config))
  && ro_explicit_pin_applied route && (ro_required_quota_units route =? 0) && (ro_reserved_quota_units route =? 0)
  && bool_decide (ro_quota_reservation_state route = NOT_REQUIRED) && (1 <=? ro_eligible_candidate_count route).

(** The evidence of a run, against the order and the configuration *)
Definition evidence_matches (preflight : Preflight) (order : OrderOut) (run : RunOut) (route : RouteOut) (evidence : ExecutionEvidence) : bool :=
  (ev_work_order_id evidence =? oo_id order) && (ev_run_id evidence =? ru_id run)
  && bool_decide (ev_repository_full_name evidence = oc_repository_full_name config)
  && bool_decide (ev_tested_sha evidence = oc_target_sha config) && bool_decide (ev_manifest_name evidence = oc_manifest_name config)
  && bool_decide (ev_manifest_version evidence = oc_manifest_version config)
  && bool_decide (ev_manifest_digest evidence = pf_manifest_digest preflight) && bool_decide (ev_worker_id evidence = oc_worker_id config)
  && bool_decide (ev_terminal_status evidence = "succeeded") && bool_decide (ev_source_cleanup_status evidence = "succeeded")
  && bool_decide (ev_artifacts evidence = ru_artifact_metadata run) && bool_decide (ru_route_provenance run = Some route).

(** The steps of a fresh run: those of the manifest, the required ones succeeded *)
Definition fresh_steps_ok (preflight : Preflight) (evidence : ExecutionEvidence) : bool :=
  bool_decide (map step_id (ev_steps evidence) = map fst (pf_manifest_steps preflight))
  && forallb (fun s => negb (bool_decide ((step_id s, true) ∈ pf_manifest_steps preflight)) || bool_decide (step_status s = "succeeded"))
       (ev_steps evidence).

(** A request of the verification, of which the errors of the client and of the models become this failure *)
Definition or_fail {A} (m : M OpExc LifeState A) (reason : string) : M OpExc LifeState A :=
  handle m (fun e => match e with ClientError | BadValue => Some (raise (fail reason)) | _ => None end).

(** What the phase adds to the checks: the evidence, the local record, the decision, the link to the source *)
Definition fresh_checks (preflight : Preflight) (run : RunOut) (evidence : ExecutionEvidence) : M OpExc LifeState (bool * bool * bool * bool) :=
  local ← verify_local_fresh run evidence;
  mret (fresh_steps_ok preflight evidence, local, bool_decide (ru_reuse_decision run = FRESH), bool_decide (ru_reused_from_run_id run = None)).

(** [source_run.evidence_retention_expires_at], as the summary of the source has it *)
Definition same_expiry (source_run : RunOut) (source : RunSummary) : M OpExc LifeState bool :=
  match ru_evidence_retention_expires_at source_run with
  | None => mret false
  | Some expires =>
      recorded ← require (read_expiry (rs_evidence_retention_expires_at source)) BadValue;
      mret (match recorded with Aware utc _ => utc_naive expires =? utc | Naive _ => false end)
  end.

Definition reuse_checks (run : RunOut) (evidence : ExecutionEvidence) (source : option RunSummary) : M OpExc LifeState (bool * bool * bool * bool) :=
  '(source_run, source_evidence) ← or_fail
    (runs ← match source with Some s => request (fun n => w_list_runs out n (rs_work_order_id s)) | None => mret [] end;
     match runs with
     | [payload] =>
         source_run ← require (d_run dec payload) BadValue;
         answer ← request (fun n => w_run_evidence out n (ru_id source_run));
         source_evidence ← require (d_evidence dec answer) BadValue;
         mret (source_run, source_evidence)
     | _ => raise BadValue
     end) "reuse_source_invalid";
  match source with
  | None => mret (false, false, false, false)
  | Some source =>
      local ← (if rs_local_evidence_verified source then verify_local_fresh source_run source_evidence else mret false);
      linked ← (if bool_decide (rs_evidence_retention_expires_at source = "") then mret false
                else if bool_decide (ru_reused_from_run_id run = Some (rs_run_id source))
                        && bool_decide (ru_source_evidence_fingerprint run = Some (rs_evidence_fingerprint source))
                        && (ru_id source_run =? rs_run_id source) && bool_decide (ru_worker_id source_run = rs_worker_id source)
                        && bool_decide (rs_worker_id source = ru_worker_id run)
                        && bool_decide (run_status_value (ru_status source_run) = "succeeded")
                then same_expiry source_run source else mret false);
      mret (bool_decide (ev_steps evidence = []) && bool_decide (ev_artifacts evidence = []), local,
            bool_decide (ru_reuse_decision run = REUSED), linked)
  end.

Definition artifact_summary (a : ArtifactRecord) : ArtifactSummary :=
  {| as_kind := art_kind a; as_relative_path := art_relative_path a; as_size_bytes := art_size_bytes a; as_sha256 := art_sha256 a |}.
Definition step_summary (s : StepEvidence) : StepSummary :=
  {| ss_step_id := step_id s; ss_status := step_status s; ss_duration_seconds := JFloat (fl_repr (step_duration_seconds s)) |}.

(** The first of the checks that did not pass *)
Definition failed_check (checks : list (string * bool)) : option string := fst <$> List.find (fun c => negb c.2) checks.

(** [_verify_run] *)
Definition verify_run (preflight : Preflight) (order : OrderOut) (run : RunOut) (phase : string) (source : option RunSummary)
    : M OpExc LifeState RunSummary :=
  ensure ((ru_work_order_id run =? oo_id order) && bool_decide (ru_worker_id run = oc_worker_id config)
          && bool_decide (run_status_value (ru_status run) = "succeeded"))
    (fail (phase +:+ "_run_" +:+ run_status_value (ru_status run) +:+ ":"
           +:+ match ru_terminal_reason run with
               | Some reason => if bool_decide (reason = "") then "terminal_reason_unavailable" else reason
               | None => "terminal_reason_unavailable"
               end));;
  '(evidence, route) ← or_fail
    (answer ← request (fun n => w_run_evidence out n (ru_id run));
     evidence ← require (d_evidence dec answer) BadValue;
     answer ← request (fun n => w_order_route out n (oo_id order));
     route ← require (d_route dec answer) BadValue;
     mret (evidence, route)) (phase +:+ "_evidence_invalid");
  unchanged ← source_is_unchanged;
  unchanged ← (if unchanged : bool then ask (w_worker_source_empty out) else mret false);
  '(steps_ok, local, decision_ok, source_ok) ←
    (if bool_decide (phase = "fresh") then fresh_checks preflight run evidence else reuse_checks run evidence source);
  let evidence_verified := evidence_matches preflight order run route evidence && steps_ok in
  match failed_check [("route", route_is_exact route); ("evidence", evidence_verified); ("retained_evidence", local);
                      ("source_cleanup", unchanged); ("reuse_decision", decision_ok); ("source_link", source_ok)] with
  | Some name => raise (fail (phase +:+ "_verification_failed:" +:+ name))
  | None =>
      hash ← require (ru_reuse_identity_hash run) (fail (phase +:+ "_verification_failed:retained_evidence"));
      expires ← require (ru_evidence_retention_expires_at run) (fail (phase +:+ "_verification_failed:retention"));
      source_run_id ← require (if bool_decide (phase = "fresh") then Some (ru_id run) else ru_reused_from_run_id run)
                        (fail (phase +:+ "_verification_failed:source_link"));
      let artifacts := map artifact_summary (ev_artifacts evidence) in
      mret {| rs_schema_version := 1; rs_work_order_id := oo_id order; rs_run_id := ru_id run; rs_source_run_id := source_run_id;
              rs_phase := phase; rs_worker_id := ru_worker_id run; rs_status := run_status_value (ru_status run);
              rs_reuse_decision := reuse_decision_value (ru_reuse_decision run); rs_reused_from_run_id := ru_reused_from_run_id run;
              rs_reuse_identity_hash := hash; rs_evidence_fingerprint := ev_fingerprint evidence;
              rs_evidence_retention_expires_at := isoformat_z (utc_naive expires); rs_routing_policy := "first_available";
              rs_route_reason := ro_reason route; rs_required_quota_units := 0; rs_reserved_quota_units := 0;
              rs_quota_reservation_state := "not_required"; rs_eligible_candidate_count := ro_eligible_candidate_count route;
              rs_step_count := Z.of_nat (length (ev_steps evidence)); rs_artifact_count := Z.of_nat (length (ev_artifacts evidence));
              rs_artifact_total_bytes := foldr Z.add 0 (map as_size_bytes artifacts); rs_route_verified := route_is_exact route;
              rs_evidence_verified := evidence_verified; rs_local_evidence_verified := local; rs_source_checkout_unchanged := unchanged;
              rs_steps := map step_summary (ev_steps evidence); rs_artifacts := artifacts |}
  end.

(** ** One phase *)

(** The question to the operator *)
Definition ask_approval (phase : string) : M OpExc LifeState unit :=
  record_phase (phase +:+ "_approval_required");;
  say_in phase "approval_requested";;
  answer ← ask (fun n => w_approval out n phase (approval_identity phase));
  note (Asked phase (approval_identity phase) answer);;
  granted ← lift_result answer;
  if granted : bool then
    update (fun r => r <| or_operator_action_count := or_operator_action_count r + 1 |>);;
    say_in phase "approval_accepted"
  else say_in phase "approval_denied";; raise (fail (phase +:+ "_approval_denied")).

(** The part of [_execute_phase] up to the approval of the order: the operator is asked after the creation of a fresh
    order, and before that of a reuse. *)
Definition open_order (preflight : Preflight) (phase : string) : M OpExc LifeState OrderOut :=
  let fresh := bool_decide (phase = "fresh") in
  (if fresh then mret tt else ask_approval phase);;
  let payload := work_order_payload phase in
  note (OrderCreated payload);;
  answer ← request (fun n => w_create_order out n payload);
  order ← validate_order answer "pending_approval" (pf_manifest_digest preflight);
  record_phase (phase +:+ "_created");;
  say_in phase "work_order_created";;
  (if fresh then ask_approval phase else mret tt);;
  mret order.

(** [_execute_phase] *)
Definition execute_phase (preflight : Preflight) (phase : string) (source : option RunSummary) : M OpExc LifeState RunSummary :=
  let fresh := bool_decide (phase = "fresh") in
  let digest := pf_manifest_digest preflight in
  order ← open_order preflight phase;
  note (OrderApproved (oo_id order));;
  answer ← request (fun n => w_approve_order out n (oo_id order));
  _ ← validate_order answer "approved" digest;
  update (fun r => if fresh then r <| or_fresh_approved := true |> else r <| or_reuse_approved := true |>);;
  record_phase (phase +:+ "_approved");;
  say_in phase "work_order_approved";;
  note (OrderQueued (oo_id order));;
  answer ← request (fun n => w_queue_order out n (oo_id order));
  _ ← validate_order answer "queued" digest;
  record_phase (phase +:+ "_queued");;
  say_in phase "work_order_queued";;
  (if fresh then record_phase "fresh_running" else mret tt);;
  run ← wait_terminal_run (oo_id order) phase;
  answer ← request (fun n => w_get_order out n (oo_id order));
  terminal_order ← validate_order answer (run_status_value (ru_status run)) digest;
  (if bool_decide (run_status_value (ru_status run) = "succeeded") then record_phase (phase +:+ "_succeeded") else mret tt);;
  say_in phase "evidence_verification_started";;
  summary ← verify_run preflight terminal_order run phase source;
  record_phase (phase +:+ "_verified");;
  say_in phase "evidence_verified";;
  mret summary.

(** ** The control plane afterwards *)

(** [_active_lease_count] *)
Definition active_lease_count : M OpExc LifeState Z :=
  row ← handle (request (w_lease_row out))
          (fun e => match e with OsFault | SqlFault => Some (raise (fail "lease_verification_failed")) | _ => None end);
  match row with
  | Some count => ensure (0 <=? count) (fail "lease_verification_failed");; mret count
  | None => raise (fail "lease_verification_failed")
  end.

(** [_worker_active_count] *)
Definition worker_active_count : M OpExc LifeState Z :=
  payload ← request (w_list_workers out);
  match member "items" payload with
  | JList items =>
      match named_workers (oc_worker_id config) items with
      | [item] =>
          match member "active_run_count" item with
          | JInt count => mret count
          | JBool b => mret (bool_int b)
          | _ => raise (fail "worker_cleanup_verification_failed")
          end
      | _ => raise (fail "worker_cleanup_verification_failed")
      end
  | _ => raise (fail "worker_cleanup_verification_failed")
  end.

(** [_assert_control_plane_clean] *)
Definition assert_control_plane_clean : M OpExc LifeState unit :=
  leases ← active_lease_count;
  update (fun r => r <| or_active_lease_count := Some leases |>);;
  runs ← worker_active_count;
  update (fun r => r <| or_worker_active_run_count := Some runs |>);;
  ensure ((leases =? 0) && (runs =? 0)) (fail "terminal_cleanup_incomplete").

(** [_stop_owned] *)
Definition stop_owned : M OpExc LifeState bool :=
  processes ← gets ls_processes;
  for_each (fun verified p =>
      answer ← ask (fun n => w_stop out n p);
      note (Stopped p answer);;
      match answer with
      | Ok stopped => mret (stopped && verified)
      | Err (Failure _) => mret false
      | Err e => raise e
      end) true (reverse processes).

(** ** The lifecycle *)

Definition kind (p : Process) : string := match p with Server => "server" | Worker => "worker" end.

(** The handler of [_launch] for an error [e] of [_record_process] *)
Definition abandon (p : Process) (e : OpExc) : M OpExc LifeState unit :=
  rechecked ← ask (w_verify_ownership out);
  note (Rechecked p rechecked);;
  lift_result rechecked;;
  terminated ← ask (fun n => w_terminate out n p);
  note (Terminated p terminated);;
  match terminated with
  | Ok _ | Err CleanupError => raise e
  | Err e' => raise e'
  end.

(** [processes._launch].  An interrupt is no [Exception]: the handler does not see it. *)
Definition launch_host (p : Process) : M OpExc LifeState unit :=
  request (w_verify_ownership out);;
  handle (request (fun n => w_start_host out n p))
    (fun e => match e with
              | LaunchError | OsFault => Some (raise (fail (kind p +:+ "_launch_failed")))
              | _ => None
              end);;
  note (Started p);;
  recorded ← ask (fun n => w_record_process out n p);
  note (Recorded p recorded);;
  match recorded with
  | Ok _ =>
      reader ← ask (fun n => w_start_reader out n p);
      note (ReaderStarted p reader);;
      lift_result reader
  | Err Interrupted => raise Interrupted
  | Err e => abandon p e
  end.

(** [launch_server] and [launch_worker] up to [_launch] *)
Definition prepare_launch (p : Process) : M OpExc LifeState unit :=
  match p with
  | Server => request (w_port_bindable out);; request (w_control_plane_root out)
  | Worker => request (w_control_plane_root out);; request (w_write_config out)
  end.

(** The launch of a process, which is owned from then on: [processes.append] *)
Definition launch (p : Process) : M OpExc LifeState unit :=
  prepare_launch p;;
  launch_host p;;
  note (Launched p);;
  modify (fun s => s <| ls_processes := ls_processes s ++ [p] |>).

(** [issued[name]], a [KeyError] when it is not there *)
Definition issued (name : string) (fields : Fields) : M OpExc LifeState Json := require (obj_get name fields) Unexpected.

(** The [try] of [run_validation_lifecycle] *)
Definition lifecycle_body (preflight : Preflight) : M OpExc LifeState unit :=
  say "runtime_created";;
  ensure (negb (bool_decide (strip (w_admin_token out) = ""))) (fail "admin_token_missing");;
  launch Server;;
  say "server_started";;
  wait_server;;
  update (fun r => r <| or_server_ready := true |>);;
  record_phase "server_healthy";;
  say "server_ready";;
  request (w_verify_ownership out);;
  alive ← ask (fun n => w_running out n Server);
  ensure alive (fail "owned_server_unavailable");;
  fields ← request (w_issue_credential out);
  note CredentialIssued;;
  id ← issued "credential_id" fields;
  modify (fun s => s <| ls_credential := Some id |>);;
  _ ← issued "worker_token" fields;
  launch Worker;;
  say "worker_started";;
  wait_worker;;
  update (fun r => r <| or_worker_ready := true |>);;
  record_phase "worker_online";;
  say "worker_ready";;
  fresh ← execute_phase preflight "fresh" None;
  update (fun r => r <| or_runs := or_runs r ++ [fresh] |>);;
  assert_control_plane_clean;;
  (if bool_decide (oc_mode config = "fresh-then-exact-reuse") then
     reuse ← execute_phase preflight "reuse" (Some fresh);
     update (fun r => r <| or_runs := or_runs r ++ [reuse] |>);;
     update (fun r => r <| or_avoided_deterministic_step_count := rs_step_count fresh |>)
   else mret tt);;
  assert_control_plane_clean.

(** The end of the worker's credential *)
Definition revoke_credential (id : Json) : M OpExc LifeState unit :=
  request (w_verify_ownership out);;
  alive ← ask (fun n => w_running out n Server);
  ensure alive (fail "owned_server_unavailable");;
  answer ← ask (fun n => w_revoke_credential out n id);
  note (CredentialRevoked id answer);;
  lift_result answer.

(** [failure or OperatorLifecycleFailure(reason)], when this was not established *)
Definition unless (ok : bool) (reason : string) (failure : option string) : option string :=
  match failure with Some f => Some f | None => if ok then None else Some (safe_reason reason) end.

(** [write_report] *)
Definition write_report : M OpExc LifeState unit :=
  report ← gets ls_report;
  _ ← require (or_runtime report) (fail "runtime_ownership_lost");
  json ← lift_result (match as_json_bytes (oc_report_maximum_bytes config) report with Ok t => Ok t | Err r => Err (fail r) end);
  text ← lift_result (match as_text (oc_report_maximum_bytes config) report with Ok t => Ok t | Err r => Err (fail r) end);
  handle
    (request (w_verify_ownership out);; request (fun n => w_write out n json);; note (FileWritten json);;
     request (w_verify_ownership out);; request (fun n => w_write out n text);; note (FileWritten text))
    (fun e => match e with OsFault => Some (raise (fail "report_write_failed")) | _ => None end).

(** The [finally] of [run_validation_lifecycle]: the failure there was, and the one there is then *)
Definition shutdown (failure : option string) : M OpExc LifeState (option string) :=
  record_phase "shutdown_started";;
  say "shutdown_started";;
  credential ← gets ls_credential;
  revoked ← match credential with
            | None => mret true
            | Some id =>
                if bool_decide (type_of id = TNone) then mret true
                else
                  handle (revoke_credential id;; mret true)
                    (fun e => match e with Failure _ | ClientError | OsFault | BadValue => Some (mret false) | _ => None end)
            end;
  let failure := unless revoked "worker_credential_revocation_unproven" failure in
  stopped ← stop_owned;
  update (fun r => r <| or_owned_processes_stopped := stopped |>);;
  released ← ask (w_port_released out);
  update (fun r => r <| or_port_released := released |>);;
  unchanged ← source_is_unchanged;
  update (fun r => r <| or_canonical_checkout_unchanged := unchanged |>);;
  let failure := unless unchanged "source_checkout_changed" (unless released "loopback_port_not_released"
                   (unless stopped "owned_process_cleanup_unproven" failure)) in
  (if stopped && released && unchanged then
     record_phase "cleanup_verified";;
     report ← gets ls_report;
     if bool_decide (or_active_lease_count report = Some 0) && bool_decide (or_worker_active_run_count report = Some 0) then
       empty ← ask (w_worker_source_empty out);
       if empty : bool then say "cleanup_verified" else mret tt
     else mret tt
   else mret tt);;
  (if bool_decide (failure = None) then record_phase "completed" else mret tt);;
  now ← ask (w_now_text out);
  update (fun r => r <| or_outcome := match failure with Some _ => "failed" | None => "succeeded" end |>
                     <| or_reason := default "lifecycle_verified" failure |>
                     <| or_failed_runtime_preserved := negb (bool_decide (failure = None)) |>
                     <| or_completed_at := Some now |>);;
  handle write_report
    (fun e => match e with Failure _ | OsFault | BadValue | Interrupted => Some (say "failed";; raise e) | _ => None end);;
  say (match failure with Some _ => "failed" | None => "completed" end);;
  mret failure.

(** What the [except] clauses make of an error: the failure, or the error that goes on *)
Definition classify (e : OpExc) : option string :=
  match e with
  | Failure reason => Some reason
  | Interrupted => Some "operator_interrupted"
  | ClientError | OsFault | BadValue | SqlFault => Some "operator_lifecycle_failure"
  | LaunchError | CleanupError | Unexpected | NoTurns => None
  end.

(** [run_validation_lifecycle] *)
Definition run_validation_lifecycle : M OpExc LifeState Report :=
  say "preflight_started";;
  '(preflight, runtime) ← handle
    (preflight ← request (w_preflight out);
     say "preflight_passed";;
     runtime ← request (w_create_runtime out);
     mret (preflight, runtime))
    (fun e => match e with Failure _ | Interrupted => Some (say "failed";; raise e) | _ => None end);
  update (fun _ => new_report <| or_runtime := Some runtime |> <| or_phases := ["preflight_passed"; "runtime_created"] |>
                     <| or_preflight_checks := PREFLIGHT_CHECKS |> <| or_preflight_passed := true |>);;
  error ← handle (lifecycle_body preflight;; mret None) (fun e => Some (mret (Some e)));
  failure ← shutdown (error ≫= classify);
  match error ≫= (fun e => match classify e with None => Some e | Some _ => None end) with
  | Some e => raise e
  | None =>
      match failure with
      | Some reason => raise (Failure reason)
      | None => gets ls_report
      end
  end.

Definition initial_state (observer : bool) : LifeState :=
  {| ls_turn := 0; ls_report := new_report; ls_progress := new_publisher observer; ls_processes := []; ls_credential := None; ls_log := [] |}.
End lifecycle.
