(* ===== verification/LifecycleProofs.v ===== *)
(** * The operator lifecycle: approvals, verified success, shutdown

    Theorems about [OperatorLifecycle] for every outside: nothing is approved without the
    operator, a success that is reported was one, and what was started is stopped. *)

From S2P Require Import Prelude Text Json Enums TextPolicy Checks Evidence Floats JsonCodec Documents Parsers Models Iso8601 WorkerModels WorkerPolicy Files EvidenceStore Effects OperatorReport OperatorLifecycle.
From Stdlib Require Import QArith.
#[local] Open Scope Z_scope.

Section lifecycle_proofs.
Context (out : Outside) (dec : Decoders) (fuel : nat) (config : OperatorConfig).

(** ** Calls that change nothing but the clock and the progress *)

Definition same_core (s s' : LifeState) : Prop :=
  ls_report s' = ls_report s /\ ls_processes s' = ls_processes s /\ ls_credential s' = ls_credential s /\ ls_log s' = ls_log s.

#[local] Instance same_core_refl : Reflexive same_core.
Proof. by intros s. Qed.
#[local] Instance same_core_trans : Transitive same_core.
Proof. intros s1 s2 s3 (? & ? & ? & ?) (? & ? & ? & ?). repeat split; congruence. Qed.

#[local] Notation quiet := (always same_core).

Lemma quiet_ask {A} (f : nat -> A) : quiet (ask f).
Proof. by intros s. Qed.
Lemma quiet_request {A} (f : nat -> Result OpExc A) : quiet (request f).
Proof. unfold request. always. apply quiet_ask. Qed.
Lemma quiet_progress key : quiet (progress out key).
Proof. unfold progress. always; [apply quiet_ask|]. destruct (emit _ _ _); [by intros s|always]. Qed.
Lemma quiet_say kind : quiet (say out kind).
Proof. apply quiet_progress. Qed.
Lemma quiet_say_in phase kind : quiet (say_in out phase kind).
Proof. apply quiet_progress. Qed.

Lemma quiet_failed (e : OpExc) : quiet (say out "failed";; raise e : M OpExc LifeState unit).
Proof. always. apply quiet_say. Qed.
Hint Resolve quiet_ask quiet_request quiet_progress quiet_say quiet_say_in : quiet.

Ltac quiet1 := first [progress always1 | solve [eauto with quiet]
  | lazymatch goal with
    | |- always _ (handle _ _) => apply always_handle; [apply _| |]
    | |- always _ (match ?x with _ => _ end) => destruct x
    | H : (if ?b then Some _ else None) = Some _ |- _ => destruct b; [injection H as <-|done]
    | H : match ?e with _ => _ end = Some _ |- always _ _ => destruct e; try done; injection H as <-
    end].
Ltac quiet := repeat quiet1.

Lemma quiet_wait_loop {A} turns (m : M OpExc LifeState (option A)) deadline reason : quiet m -> quiet (wait_loop out turns m deadline reason).
Proof. intros Hm. induction turns as [|turns IH]; cbn [wait_loop]; quiet. Qed.
Lemma quiet_wait {A} (m : M OpExc LifeState (option A)) timeout reason : quiet m -> quiet (wait_until out fuel m timeout reason).
Proof. intros Hm. unfold wait_until. quiet. by apply quiet_wait_loop. Qed.
Lemma quiet_wait_server : quiet (wait_server out fuel config).
Proof. unfold wait_server. apply quiet_wait. quiet. Qed.
Lemma quiet_wait_worker : quiet (wait_worker out fuel config).
Proof. unfold wait_worker. apply quiet_wait. unfold worker_ready. quiet. Qed.
Lemma quiet_wait_terminal id phase : quiet (wait_terminal_run out dec fuel config id phase).
Proof. unfold wait_terminal_run. apply quiet_wait. unfold terminal_run. quiet. Qed.
Lemma quiet_validate payload status digest : quiet (validate_order dec config payload status digest).
Proof. unfold validate_order. quiet. Qed.
Lemma quiet_unchanged : quiet (source_is_unchanged out).
Proof. unfold source_is_unchanged. quiet. Qed.
Lemma quiet_local run evidence : quiet (verify_local_fresh out config run evidence).
Proof. unfold verify_local_fresh. quiet. Qed.
Lemma quiet_or_fail {A} (m : M OpExc LifeState A) reason : quiet m -> quiet (or_fail m reason).
Proof. intros Hm. unfold or_fail. quiet. Qed.
Hint Resolve quiet_wait_server quiet_wait_worker quiet_wait_terminal quiet_validate quiet_unchanged quiet_local : quiet.

Lemma quiet_fresh preflight run evidence : quiet (fresh_checks out config preflight run evidence).
Proof. unfold fresh_checks. quiet. Qed.
Lemma quiet_reuse run evidence source : quiet (reuse_checks out dec config run evidence source).
Proof. unfold reuse_checks. apply always_bind; [apply _| |]. { apply quiet_or_fail. quiet. } intros [source_run source_evidence]. unfold same_expiry. quiet. Qed.
Hint Resolve quiet_fresh quiet_reuse : quiet.

Lemma quiet_verify preflight order run phase source : quiet (verify_run out dec config preflight order run phase source).
Proof.
  unfold verify_run. apply always_bind; [apply _|quiet|]. intros _. apply always_bind; [apply _|apply quiet_or_fail; quiet|].
  intros [evidence route]. quiet.
Qed.
Lemma quiet_lease : quiet (active_lease_count out).
Proof. unfold active_lease_count. quiet. Qed.
Lemma quiet_active : quiet (worker_active_count out config).
Proof. unfold worker_active_count. quiet. Qed.
Hint Resolve quiet_verify quiet_lease quiet_active : quiet.

(** ** Approvals *)

#[local] Notation logged := (logs (E := OpExc) ls_log).

Lemma quiet_silent {A} (m : M OpExc LifeState A) : quiet m -> silent ls_log m.
Proof. intros Hm s. apply Hm. Qed.
Lemma silent_update f : silent (E := OpExc) ls_log (update f).
Proof. by intros s. Qed.
Lemma silent_phase phase : silent ls_log (record_phase phase).
Proof.
  unfold record_phase, silent. always. destruct (phase_index phase); always. apply silent_update.
Qed.
Lemma unlogged_ensure b (e : OpExc) : silent ls_log (ensure b e).
Proof. by destruct b. Qed.
Lemma unlogged_ret {A} (a : A) : silent (E := OpExc) ls_log (mret a).
Proof. by intros s. Qed.
Hint Resolve quiet_silent silent_update silent_phase unlogged_ensure unlogged_ret : silent.
Hint Extern 3 (silent _ _) => apply quiet_silent : silent.

Lemma logged_note e : logged (note e) (fun _ evs => evs = [e]).
Proof. intros s r s' [= <- <-]. by exists [e]. Qed.

(** The consent of the operator to a phase *)
Definition consent (phase : string) : LifeEvent := Asked phase (approval_identity config phase) (Ok true).
Definition no_approval (e : LifeEvent) : Prop := match e with OrderApproved _ => False | _ => True end.

(** Every approval has a consent of its own before it. *)
Definition consented (log : list LifeEvent) : Prop := forall pre id post, log = pre ++ OrderApproved id :: post ->
  exists phase p1 p2, pre = p1 ++ consent phase :: p2 /\ Forall no_approval p2.

Lemma consented_app l1 l2 : consented l1 -> consented l2 -> consented (l1 ++ l2).
Proof.
  intros H1 H2 pre id post He. apply app_eq_inv in He as [(l & -> & He)|(l & He & Hl)].
  - destruct l as [|a l]; cbn in He.
    + destruct (H2 [] id post) as (phase & p1 & p2 & Hc & _); [done|]. by destruct p1.
    + injection He as <- ->. by apply (H1 pre id l).
  - subst. destruct (H2 l id post eq_refl) as (phase & p1 & p2 & -> & Hf). exists phase, (l1 ++ p1), p2. by rewrite <-app_assoc.
Qed.

Lemma consented_none log : Forall no_approval log -> consented log.
Proof. intros H pre id post ->. by apply Forall_app in H as [_ [? _]%Forall_cons]. Qed.

(** A consent, and things that are no approval, then one approval and things that are none *)
Lemma consented_one phase p1 p2 id p3 : Forall no_approval p1 -> Forall no_approval p2 -> Forall no_approval p3 ->
  consented (p1 ++ consent phase :: p2 ++ OrderApproved id :: p3).
Proof.
  intros H1 H2 H3 pre id' post He. replace (p1 ++ consent phase :: p2 ++ OrderApproved id :: p3)
    with ((p1 ++ consent phase :: p2) ++ OrderApproved id :: p3) in He by by rewrite <-app_assoc.
  assert (Hp : Forall no_approval (p1 ++ consent phase :: p2)) by (apply Forall_app_2; [done|by constructor]).
  apply app_eq_inv in He as [(l & Hl & He)|(l & -> & He)].
  - destruct l as [|a l]; cbn in He.
    + rewrite app_nil_r in Hl. subst. eauto 6.
    + injection He as <- _. rewrite Hl in Hp. by apply Forall_app in Hp as [_ [? _]%Forall_cons].
  - destruct l as [|a l]; cbn in He.
    + rewrite app_nil_r. eauto 6.
    + injection He as _ ->. by apply Forall_app in H3 as [_ [? _]%Forall_cons].
Qed.

Lemma logged_lift {A B} (a : A) (k : A -> M OpExc LifeState B) T : logged (k a) T -> logged (lift_result (Ok a) ≫= k) T.
Proof. intros H s r s' He. exact (H s r s' He). Qed.

(** The question to the operator: one question, and a consent when it succeeds *)
Lemma ask_approval_logs phase : logged (ask_approval out config phase)
  (fun r evs => Forall no_approval evs /\ (is_ok r = true -> evs = [consent phase])).
Proof.
  unfold ask_approval. apply logs_step; [auto with silent|done|intros _].
  apply logs_step; [auto with silent quiet|done|intros _]. apply logs_step; [auto with silent quiet|done|intros answer].
  eapply logs_bind; [apply logged_note|intros e evs ->; split; [by constructor|done]|]. intros _ ? ->.
  destruct answer as [[|]|e].
  - apply logged_lift. apply logs_step; [auto with silent|intros e; split; [by constructor|done]|intros _].
    apply logs_silent; [auto with silent quiet|]. intros r. split; [by constructor|done].
  - apply logged_lift. apply logs_step; [auto with silent quiet|intros e; split; [by constructor|done]|intros _].
    intros s r s' [= <- <-]. exists []. rewrite app_nil_r. split; [done|]. split; [by constructor|done].
  - intros s r s' [= <- <-]. exists []. rewrite app_nil_r. split; [done|]. split; [by constructor|done].
Qed.

(** An order is created with the consent of the operator, before or after. *)
Lemma open_order_logs preflight phase : logged (open_order out dec config preflight phase)
  (fun r evs => Forall no_approval evs /\ (is_ok r = true -> consent phase ∈ evs)).
Proof.
  unfold open_order. case_bool_decide.
  - apply logs_step; [auto with silent|done|intros _].
    eapply logs_bind; [apply logged_note|intros e evs ->; split; [by constructor|done]|]. intros _ ? ->.
    do 4 (apply logs_step; [auto with silent quiet|intros e; split; [by constructor|done]|intros ?]).
    eapply logs_bind; [apply ask_approval_logs|intros e evs [Hf _]; split; [by constructor|done]|]. intros u evs [Hf Hc].
    apply logs_silent; [auto with silent|]. intros r. rewrite app_nil_r. rewrite (Hc eq_refl) in *. split; [by constructor|set_solver].
  - eapply logs_bind; [apply ask_approval_logs|intros e evs [Hf _]; split; [done|done]|]. intros u evs [Hf Hc].
    rewrite (Hc eq_refl) in *. clear Hc Hf.
    eapply logs_bind; [apply logged_note|intros e ? ->; split; [by repeat constructor|done]|]. intros _ ? ->.
    do 5 (apply logs_step; [auto with silent quiet|intros e; split; [by repeat constructor|done]|intros ?]).
    apply logs_silent; [auto with silent|]. intros r. split; [by repeat constructor|set_solver].
Qed.

Lemma execute_phase_logs preflight phase source : logged (execute_phase out dec fuel config preflight phase source)
  (fun _ evs => consented evs).
Proof.
  unfold execute_phase. eapply logs_bind; [apply open_order_logs|intros e evs [Hf _]; by apply consented_none|].
  intros order evs [Hf Hc]. specialize (Hc eq_refl). apply list_elem_of_split in Hc as (p1 & p2 & ->).
  apply Forall_app in Hf as [Hf1 [_ Hf2]%Forall_cons].
  assert (Hone : forall p3, Forall no_approval p3 -> consented ((p1 ++ consent phase :: p2) ++ [OrderApproved (oo_id order)] ++ p3)).
  { intros p3 Hf3. replace ((p1 ++ consent phase :: p2) ++ [OrderApproved (oo_id order)] ++ p3)
      with (p1 ++ consent phase :: p2 ++ OrderApproved (oo_id order) :: p3) by by rewrite <-app_assoc.
    by apply consented_one. }
  eapply logs_bind; [apply logged_note|intros e ? ->; by apply (Hone [])|]. intros _ ? ->.
  do 5 (apply logs_step; [auto with silent quiet|intros e; by apply (Hone [])|intros ?]).
  eapply logs_bind; [apply logged_note|intros e ? ->; apply (Hone [_]); by constructor|]. intros _ ? ->.
  assert (Hend : forall p3, Forall no_approval p3 ->
    consented ((p1 ++ consent phase :: p2) ++ [OrderApproved (oo_id order)] ++ [OrderQueued (oo_id order)] ++ p3)).
  { intros p3 Hp3. apply (Hone (OrderQueued (oo_id order) :: p3)). by constructor. }
  apply logs_silent; [|intros r; by apply (Hend [])].
  unfold silent. always; try (destruct (bool_decide _)); always;
    match goal with |- always _ ?m => change (silent ls_log m); auto with silent quiet end.
Qed.

(** Between two states every approval that was given had a consent of its own. *)
Definition agreed (s s' : LifeState) : Prop := exists evs, ls_log s' = ls_log s ++ evs /\ consented evs.

#[local] Instance agreed_refl : Reflexive agreed.
Proof. intros s. exists []. rewrite app_nil_r. split; [done|]. by apply consented_none. Qed.
#[local] Instance agreed_trans : Transitive agreed.
Proof.
  intros s1 s2 s3 (e1 & H1 & C1) (e2 & H2 & C2). exists (e1 ++ e2). rewrite H2, H1, app_assoc. split; [done|by apply consented_app].
Qed.

Lemma agreed_silent {A} (m : M OpExc LifeState A) : silent ls_log m -> always agreed m.
Proof. intros Hm s. exists []. rewrite app_nil_r. split; [apply Hm|by apply consented_none]. Qed.
Lemma agreed_note e : no_approval e -> always agreed (note e).
Proof. intros He s. exists [e]. split; [done|]. apply consented_none. by constructor. Qed.
Lemma agreed_phase preflight phase source : always agreed (execute_phase out dec fuel config preflight phase source).
Proof. intros s. destruct (execute_phase_logs preflight phase source s _ _ (surjective_pairing _)) as (evs & H & Hc). by exists evs. Qed.

(** What the log says of a launch after the start of the host, and whether the process is owned then *)
Inductive launch_ends (p : Process) : list LifeEvent -> bool -> Prop :=
| launch_owned : launch_ends p [Recorded p (Ok tt); ReaderStarted p (Ok tt); Launched p] true
| launch_terminated e answer : e <> Interrupted -> launch_ends p [Recorded p (Err e); Rechecked p (Ok tt); Terminated p answer] false
| launch_interrupted : launch_ends p [Recorded p (Err Interrupted)] false
| launch_disowned e e' : e <> Interrupted -> launch_ends p [Recorded p (Err e); Rechecked p (Err e')] false
| launch_unread e : launch_ends p [Recorded p (Ok tt); ReaderStarted p (Err e)] false.

(** A launch starts nothing, or ends in one of these ways; it returns when the process is owned. *)
Definition launches (p : Process) (s : LifeState) (ok : bool) (s' : LifeState) : Prop :=
  ls_report s' = ls_report s /\
  ((ok = false /\ ls_log s' = ls_log s /\ ls_processes s' = ls_processes s) \/
   exists trace, launch_ends p trace ok /\ ls_log s' = ls_log s ++ Started p :: trace /\
     ls_processes s' = ls_processes s ++ (if ok then [p] else [])).

(** The same of the host, which is not owned yet *)
Definition hosts (p : Process) (s : LifeState) (ok : bool) (s' : LifeState) : Prop :=
  ls_report s' = ls_report s /\ ls_processes s' = ls_processes s /\
  ((ok = false /\ ls_log s' = ls_log s) \/
   exists trace, (if ok then trace = [Recorded p (Ok tt); ReaderStarted p (Ok tt)] else launch_ends p trace false) /\
     ls_log s' = ls_log s ++ Started p :: trace).

Lemma hosts_step {A} p (m : M OpExc LifeState A) (k : A -> M OpExc LifeState unit) s : quiet m ->
  (forall a s1, hosts p s1 (is_ok (k a s1).1) (k a s1).2) -> hosts p s (is_ok ((m ≫= k) s).1) ((m ≫= k) s).2.
Proof.
  intros Hm Hk. destruct (Hm s) as (Hr & Hp & _ & Hl). unfold mbind, M_bind. destruct (m s) as [[a|e] s1]; cbn in Hr, Hp, Hl.
  - unfold hosts. rewrite <- Hr, <- Hp, <- Hl. apply Hk.
  - split_and!; [done..|]. by left.
Qed.

Lemma quiet_start p : quiet (handle (request (fun n => w_start_host out n p))
  (fun e => match e with LaunchError | OsFault => Some (raise (fail (kind p +:+ "_launch_failed"))) | _ => None end)).
Proof. apply always_handle; [apply _|quiet|]. intros e k. destruct e; try done; intros [= <-]; quiet. Qed.

(** An answer of the outside, case by case *)
Ltac answer_of f := lazymatch goal with |- context [f out ?n] => destruct (f out n) as [[]|?] eqn:? end.
Ltac answer_for f p := lazymatch goal with |- context [f out ?n p] => destruct (f out n p) as [[]|?] eqn:? end.
Ltac launch_case := split_and!; [done..|right]; eexists; split; [first [done|by constructor]|by rewrite <- !app_assoc].

Lemma launch_host_hosts p s : hosts p s (is_ok (launch_host out p s).1) (launch_host out p s).2.
Proof.
  unfold launch_host. apply hosts_step; [quiet|intros _ s1]. apply hosts_step; [apply quiet_start|intros _ s2].
  unfold abandon, mbind, M_bind, ask, note, modify, lift_result, raise. rsimpl.
  answer_for w_record_process p; rsimpl; [answer_for w_start_reader p; launch_case|].
  lazymatch goal with e : OpExc |- _ => assert (e = Interrupted \/ e <> Interrupted) as [-> |He] by (destruct e; auto); [launch_case|destruct e; try done] end.
  all: answer_of w_verify_ownership; rsimpl; [answer_for w_terminate p; [|lazymatch goal with e : OpExc |- _ => destruct e end]|]; launch_case.
Qed.

Lemma launch_launches p s : launches p s (is_ok (launch out p s).1) (launch out p s).2.
Proof.
  unfold launch, mbind, M_bind. assert (Hq : quiet (prepare_launch out p)) by (destruct p; cbn; quiet).
  destruct (Hq s) as (Hr & Hp & _ & Hl). destruct (prepare_launch out p s) as [[[]|e] s1]; cbn in Hr, Hp, Hl; [|by split; [|left]].
  pose proof (launch_host_hosts p s1) as (Hr1 & Hp1 & H). destruct (launch_host out p s1) as [[[]|e] s2]; cbn in Hr1, Hp1, H.
  - destruct H as [[? _]|(trace & -> & Hl2)]; [done|]. unfold note, modify, launches. cbn [fst snd is_ok]. rsimpl. rewrite Hr1, Hr, Hl2, Hl, Hp1, Hp.
    split; [done|right]. eexists. split; [apply launch_owned|]. by rewrite <- app_assoc.
  - unfold launches. cbn. rewrite Hr1, Hr, Hp1, Hp. split; [done|].
    destruct H as [[_ ->]|(trace & Ht & ->)]; rewrite Hl; [by left|right]. exists trace. by rewrite app_nil_r.
Qed.

Lemma agreed_launch p : always agreed (launch out p).
Proof.
  intros s. destruct (launch_launches p s) as [_ [(_ & Hl & _)|(trace & Ht & Hl & _)]].
  - exists []. rewrite app_nil_r. split; [done|]. by apply consented_none.
  - eexists. split; [exact Hl|]. apply consented_none. constructor; [done|]. destruct Ht; by repeat constructor.
Qed.
Lemma agreed_clean : always agreed (assert_control_plane_clean out config).
Proof. unfold assert_control_plane_clean. always; apply agreed_silent; auto with silent quiet. Qed.

Lemma agreed_body preflight : always agreed (lifecycle_body out dec fuel config preflight).
Proof.
  unfold lifecycle_body, issued. always; try (apply agreed_launch); try (apply agreed_clean); try (apply agreed_phase);
    try (by apply agreed_note); try (apply agreed_silent; auto with silent quiet); by intros s.
Qed.

Lemma agreed_stop : always agreed (stop_owned out).
Proof.
  unfold stop_owned. always; try (by apply agreed_note); try (apply agreed_silent; auto with silent quiet; fail).
  match goal with |- always _ (match ?x with _ => _ end) => destruct x as [?|[]] end; always.
Qed.

Lemma agreed_revoke id : always agreed (revoke_credential out id).
Proof. unfold revoke_credential. always; try (by apply agreed_note); apply agreed_silent; auto with silent quiet. Qed.

Lemma agreed_write : always agreed (write_report out config).
Proof.
  unfold write_report. always. apply always_handle; [apply _| |].
  - always; try (by apply agreed_note); apply agreed_silent; auto with silent quiet.
  - intros e k. destruct e; try done. intros [= <-]. always.
Qed.

Lemma agreed_shutdown failure : always agreed (shutdown out config failure).
Proof.
  unfold shutdown. always; try (apply agreed_stop); try (apply agreed_silent; auto with silent quiet; fail).
  - match goal with |- always _ (match ?c with _ => _ end) => destruct c as [id|] end; always.
    apply always_handle; [apply _|always; apply agreed_revoke|]. intros e k. destruct e; try done; intros [= <-]; always.
  - apply always_handle; [apply _|apply agreed_write|]. intros e k.
    destruct e; try done; intros [= <-]; always; apply agreed_silent; auto with silent quiet.
Qed.

(** C25. Nothing is approved without the operator: in the log of a lifecycle, however it ends and whatever the server answers,
    before every request to approve an order there is a question to the operator about exactly this repository and
    commit that was answered with yes, and no other request to approve lies between them. *)
Theorem approvals_consented observer r s' :
  run_validation_lifecycle out dec fuel config (initial_state observer) = (r, s') -> consented (ls_log s').
Proof.
  intros H. assert (Ha : always agreed (run_validation_lifecycle out dec fuel config)).
  { unfold run_validation_lifecycle. apply always_bind; [apply _|apply agreed_silent; auto with silent quiet|]. intros _.
    apply always_bind; [apply _| |].
    { apply always_handle; [apply _|always; apply agreed_silent; auto with silent quiet|]. intros e k.
      destruct e; try done; intros [= <-]; always; apply agreed_silent; auto with silent quiet. }
    intros [preflight runtime]. apply always_bind; [apply _|apply agreed_silent; auto with silent quiet|]. intros _.
    apply always_bind; [apply _| |].
    { apply always_handle; [apply _|always; apply agreed_body|]. intros e k [= <-]. always. }
    intros error. apply always_bind; [apply _|apply agreed_shutdown|]. intros failure.
    destruct (error ≫= _); [always|]. destruct failure; always. }
  specialize (Ha (initial_state observer)). rewrite H in Ha. destruct Ha as (evs & He & Hc). cbn in He. by rewrite He.
Qed.

(** ** Verified runs *)

(** What a summary stands for: the evidence and the route that the control plane answered with, which agree with the
    configuration, and the retained record that was verified on the disk when the run was fresh *)
Definition witnessed (preflight : Preflight) (rs : RunSummary) : Prop :=
  exists order run route evidence,
    (exists n j, w_run_evidence out n (ru_id run) = Ok j /\ d_evidence dec j = Some evidence) /\
    (exists n j, w_order_route out n (oo_id order) = Ok j /\ d_route dec j = Some route) /\
    run_status_value (ru_status run) = "succeeded" /\ ru_worker_id run = oc_worker_id config /\ route_is_exact config route = true /\
    evidence_matches config preflight order run route evidence = true /\
    rs_run_id rs = ru_id run /\ rs_work_order_id rs = oo_id order /\ rs_evidence_fingerprint rs = ev_fingerprint evidence /\
    (rs_phase rs = "fresh" -> fresh_steps_ok preflight evidence = true /\
       exists n candidate, w_verify_candidate out n candidate = Ok true /\ cand_source_run_id candidate = ru_id run /\
         cand_expected_source_evidence_fingerprint candidate = ev_fingerprint evidence).

Lemma asked_ok {A} (f : nat -> A) s a s' : ask f s = (Ok a, s') -> a = f (ls_turn s).
Proof. by intros [= <- _]. Qed.
Lemma request_ok {A} (f : nat -> Result OpExc A) s a s' : request f s = (Ok a, s') -> f (ls_turn s) = Ok a.
Proof. unfold request. intros H. inv_run H. by apply asked_ok in Hr. Qed.
Lemma or_fail_ok {A} (m : M OpExc LifeState A) reason s a s' : or_fail m reason s = (Ok a, s') -> m s = (Ok a, s').
Proof. intros H. apply handle_ok in H as [H|(e & k & s1 & _ & Hk & H)]; [done|]. destruct e; try done; by injection Hk as <-. Qed.

Lemma verify_local_ok run evidence s s' : verify_local_fresh out config run evidence s = (Ok true, s') ->
  exists n candidate, w_verify_candidate out n candidate = Ok true /\ cand_source_run_id candidate = ru_id run /\
    cand_expected_source_evidence_fingerprint candidate = ev_fingerprint evidence.
Proof.
  unfold verify_local_fresh. destruct (ru_evidence_retention_expires_at run), (ru_reuse_identity run), (ru_reuse_identity_hash run),
    (ru_source_evidence_fingerprint run); try done.
  intros H. apply handle_ok in H as [H|(err & k & s1 & _ & Hk & H)].
  - apply request_ok in H. by eexists _, _.
  - destruct err; try done; injection Hk as <-; done.
Qed.

Lemma failed_check_none checks : failed_check checks = None -> Forall (fun c => c.2 = true) checks.
Proof.
  unfold failed_check. induction checks as [|[name b] checks IH]; [constructor|]. cbn. destruct b; cbn; [|done].
  intros H. constructor; auto.
Qed.

Lemma verify_run_ok preflight order run phase source s rs s' :
  verify_run out dec config preflight order run phase source s = (Ok rs, s') -> witnessed preflight rs /\ rs_phase rs = phase.
Proof.
  unfold verify_run. intros H. apply bind_ok in H as (u & s1 & Hst & H). inv_run Hst.
  apply andb_prop in Hb as [[_ Hworker]%andb_prop Hstatus]. apply bool_decide_eq_true in Hworker, Hstatus.
  apply bind_ok in H as ([evidence route] & s2 & He & H). apply or_fail_ok in He. inv_run He. injection Hg as <- <-.
  repeat match goal with Hq : request _ _ = _ |- _ => apply request_ok in Hq end.
  apply bind_ok in H as (unchanged & s3 & _ & H). apply bind_ok in H as (unchanged' & s4 & _ & H).
  apply bind_ok in H as ([[[steps_ok local] decision_ok] source_ok] & s5 & Hchecks & H).
  destruct (failed_check _) eqn:Hf; [done|]. apply failed_check_none in Hf. rewrite !Forall_cons in Hf. cbn in Hf.
  destruct Hf as (Hroute & [Hmatch ->]%andb_prop & -> & _). inv_run H. cbn. split; [|done].
  exists order, run, route, evidence. split_and!; eauto. cbn. intros ->. rewrite bool_decide_eq_true_2 in Hchecks by done.
  unfold fresh_checks in Hchecks. inv_run Hchecks.
  injection Hg as Hg1 Hg2 _ _. rewrite <-Hg2 in *. split; [done|]. by eapply verify_local_ok.
Qed.

(** ** What the contract of a report gives *)

Lemma as_dict_state r payload : as_dict r = Ok payload -> validate_report_state r = true.
Proof. unfold as_dict. intros H. by inv_ok H. Qed.
Lemma as_json_dict n r text : as_json_bytes n r = Ok text -> exists payload, as_dict r = Ok payload.
Proof. unfold as_json_bytes. intros H. inv_ok H. eauto. Qed.
Lemma as_text_dict n r text : as_text n r = Ok text -> exists payload, as_dict r = Ok payload.
Proof. unfold as_text. intros H. inv_ok H. eauto. Qed.

Lemma success_phases_hold mode phases : Some phases = success_phases mode ->
  "cleanup_verified" ∈ phases /\ "fresh_approved" ∈ phases /\ "worker_online" ∈ phases /\ (mode = "fresh-then-exact-reuse" -> "reuse_approved" ∈ phases).
Proof.
  unfold success_phases. repeat case_bool_decide; intros Hp; try done; injection Hp as ->; split_and!; try done;
    intros; by apply (bool_decide_eq_true_1 _).
Qed.

Lemma succeeded_report r payload : as_dict r = Ok payload -> or_outcome r = "succeeded" ->
  exists runtime, or_runtime r = Some runtime /\ Some (or_phases r) = success_phases (rt_mode runtime) /\
    or_owned_processes_stopped r = true.
Proof.
  intros H Ho. apply as_dict_state in H. unfold validate_report_state in H. rewrite Ho in H. cbv zeta in H.
  apply andb_prop in H as [[[_ Hclean]%andb_prop _]%andb_prop Hs].
  rewrite bool_decide_eq_true_2 in Hs by done. unfold valid_success in Hs.
  destruct (or_runtime r) as [runtime|]; [|done]. exists runtime. cbv zeta in Hs. rewrite !andb_true_iff in Hs.
  destruct Hs as [Hp _]. repeat lazymatch type of Hp with _ /\ _ => destruct Hp as [Hp _] end. apply bool_decide_eq_true in Hp.
  split; [done|]. split; [done|]. apply orb_prop in Hclean as [Hc|Hc].
  - apply negb_true_iff, bool_decide_eq_false in Hc. destruct Hc. by apply success_phases_hold in Hp as (? & ? & _).
  - by apply andb_prop in Hc as [[? _]%andb_prop _].
Qed.

(** ** What the report and the log agree on *)

(** A phase that is no approval, and not the one that both processes stand behind *)
Definition plain_phase (phase : string) : Prop := phase <> "fresh_approved" /\ phase <> "reuse_approved" /\ phase <> "worker_online".

(** The lifecycle runs, or what was started has been stopped, or the report has been written. *)
Inductive Stage := Open | Closing | Done.

#[local] Notation maximum := (oc_report_maximum_bytes config).

Record faithful (preflight : Preflight) (stage : Stage) (s : LifeState) : Prop := {
  f_fresh : "fresh_approved" ∈ or_phases (ls_report s) -> consent "fresh" ∈ ls_log s;
  f_reuse : "reuse_approved" ∈ or_phases (ls_report s) -> consent "reuse" ∈ ls_log s;
  f_runs : Forall (witnessed preflight) (or_runs (ls_report s));
  f_processes : forall p, Launched p ∈ ls_log s -> p ∈ ls_processes s;
  f_stopped : or_owned_processes_stopped (ls_report s) = true ->
    stage <> Open /\ forall p, p ∈ ls_processes s -> Stopped p (Ok true) ∈ ls_log s;
  f_written : forall c, FileWritten c ∈ ls_log s ->
    stage = Done /\ (as_json_bytes maximum (ls_report s) = Ok c \/ as_text maximum (ls_report s) = Ok c);
  f_online : "worker_online" ∈ or_phases (ls_report s) -> forall p, Launched p ∈ ls_log s;
}.

(** Calls that keep it, and a consent that was given *)
Definition kept (I : LifeState -> Prop) (s s' : LifeState) : Prop := I s -> I s'.
#[local] Instance kept_refl I : Reflexive (kept I).
Proof. intros s H. exact H. Qed.
#[local] Instance kept_trans I : Transitive (kept I).
Proof. unfold kept. intros s1 s2 s3. auto. Qed.

Section with_stage.
Context (preflight : Preflight) (stage : Stage).
#[local] Notation faithful := (faithful preflight stage).

Definition agreed_on (phase : string) (s : LifeState) : Prop := faithful s /\ consent phase ∈ ls_log s.

Lemma faithful_core s s' : same_core s s' -> faithful s -> faithful s'.
Proof. intros (Hr & Hp & Hc & Hl) [H1 H2 H3 H4 H5 H6 H7]. split; rewrite ?Hr, ?Hp, ?Hl; auto. Qed.

Lemma keeps_quiet {A} (m : M OpExc LifeState A) phase : quiet m -> always (kept (agreed_on phase)) m.
Proof. intros Hm s [Hf Hc]. split; [eapply faithful_core; [apply Hm|done]|]. destruct (Hm s) as (_ & _ & _ & ->). done. Qed.
Lemma faithful_quiet {A} (m : M OpExc LifeState A) : quiet m -> always (kept faithful) m.
Proof. intros Hm s Hf. eapply faithful_core; [apply Hm|done]. Qed.

(** Something else is logged. *)
Definition plain_event (e : LifeEvent) : Prop := match e with Launched _ | FileWritten _ => False | _ => True end.
Lemma logged_plain e (x : LifeEvent) (log : list LifeEvent) : plain_event e -> ~ plain_event x -> x ∈ log ++ [e] -> x ∈ log.
Proof. intros He Hx [H| ->%list_elem_of_singleton]%elem_of_app; [done|]. by destruct Hx. Qed.

Lemma faithful_note e : plain_event e -> always (kept faithful) (note e).
Proof.
  intros He s [H1 H2 H3 H4 H5 H6 H7].
  assert (Hin : forall x : LifeEvent, x ∈ ls_log s -> x ∈ ls_log s ++ [e]) by (intros x Hx; apply elem_of_app; by left).
  split; cbn; try done.
  - auto.
  - auto.
  - intros p Hp%logged_plain; [auto|done|by intros []].
  - intros Hs. destruct (H5 Hs) as [Ho Hp]. split; auto.
  - intros c Hc%logged_plain; [auto|done|by intros []].
  - auto.
Qed.

(** The report changes elsewhere, before it is written. *)
Lemma faithful_same s s' : stage <> Done -> or_phases (ls_report s') = or_phases (ls_report s) ->
  or_runs (ls_report s') = or_runs (ls_report s) ->
  or_owned_processes_stopped (ls_report s') = or_owned_processes_stopped (ls_report s) ->
  ls_processes s' = ls_processes s -> ls_log s' = ls_log s -> faithful s -> faithful s'.
Proof.
  intros Hs Hp Hr Ho Hq Hl [H1 H2 H3 H4 H5 H6 H7]. split; rewrite ?Hp, ?Hr, ?Ho, ?Hq, ?Hl; try done. intros c Hc. by destruct (H6 c Hc).
Qed.
Lemma faithful_update f : stage <> Done -> (forall r, or_phases (f r) = or_phases r) -> (forall r, or_runs (f r) = or_runs r) ->
  (forall r, or_owned_processes_stopped (f r) = or_owned_processes_stopped r) -> always (kept faithful) (update f).
Proof. intros Hs Hp Hr Ho s. exact (faithful_same s (update f s).2 Hs (Hp _) (Hr _) (Ho _) eq_refl eq_refl). Qed.

(** A phase is recorded. *)
Lemma record_phase_run phase s r s' : record_phase phase s = (r, s') ->
  s' = s \/ s' = s <| ls_report := (ls_report s) <| or_phases := or_phases (ls_report s) ++ [phase] |> |>.
Proof.
  unfold record_phase, mbind, M_bind, gets, update, modify, raise.
  destruct (phase_index phase) as [n|]; [|intros [= _ <-]; by left].
  match goal with |- context [ensure ?b] => destruct b end; intros [= _ <-]; auto.
Qed.

Lemma faithful_recorded phase s : stage <> Done -> (phase = "fresh_approved" -> consent "fresh" ∈ ls_log s) ->
  (phase = "reuse_approved" -> consent "reuse" ∈ ls_log s) -> (phase = "worker_online" -> forall p, Launched p ∈ ls_log s) ->
  faithful s -> faithful (record_phase phase s).2.
Proof.
  intros Hs Hf Hr Ho [H1 H2 H3 H4 H5 H6 H7].
  destruct (record_phase_run _ _ _ _ (surjective_pairing (record_phase phase s))) as [-> | ->]; [by split|].
  split; cbn; try done.
  - intros [H|<-%list_elem_of_singleton]%elem_of_app; auto.
  - intros [H|<-%list_elem_of_singleton]%elem_of_app; auto.
  - intros c Hc. by destruct (H6 c Hc).
  - intros [H|<-%list_elem_of_singleton]%elem_of_app; auto.
Qed.

Lemma faithful_phase phase : stage <> Done -> plain_phase phase -> always (kept faithful) (record_phase phase).
Proof. intros Hs (Hf & Hr & Ho) s H. by apply faithful_recorded. Qed.

(** An approval is recorded after the consent. *)
Lemma approved_phase phase : stage <> Done -> phase = "fresh" \/ phase = "reuse" ->
  always (kept (agreed_on phase)) (record_phase (phase +:+ "_approved")).
Proof.
  intros Hs Hphase s [Hf Hc]. split; [by apply faithful_recorded; destruct Hphase as [-> | ->]|].
  by destruct (record_phase_run _ _ _ _ (surjective_pairing (record_phase (phase +:+ "_approved") s))) as [-> | ->].
Qed.

Lemma keeps_consent {A} (m : M OpExc LifeState A) phase :
  always (kept faithful) m -> (forall s, ls_log s `prefix_of` ls_log (m s).2) -> always (kept (agreed_on phase)) m.
Proof.
  intros Hm Hl s [Hf Hc]. split; [by apply Hm|]. destruct (Hl s) as [more ->]. apply elem_of_app. by left.
Qed.
End with_stage.

(** ** The phases *)

Section with_preflight.
Context (preflight : Preflight).
#[local] Notation faithful := (faithful preflight).

Lemma ask_approval_keeps phase : phase = "fresh" \/ phase = "reuse" -> always (kept (faithful Open)) (ask_approval out config phase).
Proof.
  intros Hphase. unfold ask_approval. always; try (apply faithful_quiet; auto with quiet; fail).
  - apply faithful_phase; [done|]. by destruct Hphase as [-> | ->].
  - by apply faithful_note.
  - by apply faithful_update.
Qed.

Lemma open_order_keeps phase : phase = "fresh" \/ phase = "reuse" ->
  always (kept (faithful Open)) (open_order out dec config preflight phase).
Proof.
  intros Hphase. unfold open_order. always; try (by apply ask_approval_keeps); try (apply faithful_quiet; auto with quiet; fail).
  - by apply faithful_note.
  - apply faithful_phase; [done|]. by destruct Hphase as [-> | ->].
Qed.

(** A bind of which the first call gives something that the rest needs *)
Lemma kept_bind {A B} (I : LifeState -> Prop) (m : M OpExc LifeState A) (k : A -> M OpExc LifeState B) (W : A -> Prop) :
  always (kept I) m -> (forall s a s', m s = (Ok a, s') -> W a) -> (forall a, W a -> always (kept I) (k a)) -> always (kept I) (m ≫= k).
Proof.
  intros Hm HW Hk s Hs. specialize (Hm s Hs). unfold mbind, M_bind. destruct (m s) as [[a|e] s1] eqn:He; [|done].
  by apply (Hk a (HW _ _ _ He)).
Qed.

Lemma execute_phase_keeps phase source : phase = "fresh" \/ phase = "reuse" ->
  always (kept (faithful Open)) (execute_phase out dec fuel config preflight phase source).
Proof.
  intros Hphase s Hs. unfold execute_phase, mbind at 1, M_bind at 1.
  destruct (open_order out dec config preflight phase s) as [[order|e] s1] eqn:He.
  2:{ pose proof (open_order_keeps phase Hphase s Hs) as H. by rewrite He in H. }
  assert (Ha : agreed_on preflight Open phase s1).
  { pose proof (open_order_keeps phase Hphase s Hs) as H. rewrite He in H. split; [done|].
    destruct (open_order_logs preflight phase s _ _ He) as (evs & -> & _ & Hc). apply elem_of_app. right. by apply Hc. }
  match goal with |- faithful Open (?m s1).2 => enough (Hm : always (kept (agreed_on preflight Open phase)) m) by apply (Hm s1 Ha) end.
  assert (Hp : forall name, plain_phase name -> always (kept (agreed_on preflight Open phase)) (record_phase name)).
  { intros name Hn. apply keeps_consent; [by apply faithful_phase|]. intros s2.
    destruct (record_phase_run _ _ _ _ (surjective_pairing (record_phase name s2))) as [-> | ->]; done. }
  always; try (apply keeps_quiet; auto with quiet; fail); try (by apply approved_phase);
    try (apply Hp; by destruct Hphase as [-> | ->]).
  - apply keeps_consent; [by apply faithful_note|]. intros s2. by eexists.
  - apply keeps_consent; [|intros s2; by eexists [] ; rewrite app_nil_r]. apply faithful_update; [done|..]; intros r; by destruct (bool_decide _).
  - apply keeps_consent; [by apply faithful_note|]. intros s2. by eexists.
Qed.

Lemma execute_phase_ok phase source s rs s' : execute_phase out dec fuel config preflight phase source s = (Ok rs, s') ->
  witnessed preflight rs.
Proof.
  unfold execute_phase. intros H. inv_run H.
  match goal with Hv : verify_run _ _ _ _ _ _ _ _ _ = _ |- _ => by apply verify_run_ok in Hv as [] end.
Qed.

Lemma launch_keeps p : always (kept (faithful Open)) (launch out p).
Proof.
  intros s [H1 H2 H3 H4 H5 H6 H7]. destruct (launch_launches p s) as [Hr [(_ & Hl & Hp)|(trace & Ht & Hl & Hp)]].
  { split; rewrite ?Hr, ?Hl, ?Hp; auto. }
  assert (Hin : forall x : LifeEvent, x ∈ ls_log s -> x ∈ ls_log s ++ Started p :: trace) by (intros x Hx; apply elem_of_app; by left).
  split; rewrite ?Hr, ?Hl, ?Hp; auto.
  - intros q [Hq|Hq]%elem_of_app; apply elem_of_app; [auto|right].
    destruct Ht; repeat (apply elem_of_cons in Hq as [Hq|Hq]; [try done; injection Hq as ->; set_solver|]); by apply elem_of_nil in Hq.
  - intros Hs. by destruct (H5 Hs).
  - intros c [Hc|Hc]%elem_of_app; [auto|]. exfalso.
    destruct Ht; repeat (apply elem_of_cons in Hc as [Hc|Hc]; [done|]); by apply elem_of_nil in Hc.
Qed.

Lemma launch_ok p s u s' : launch out p s = (Ok u, s') -> Launched p ∈ ls_log s'.
Proof.
  intros H. destruct (launch_launches p s) as [_ Hl]. rewrite H in Hl. cbn in Hl.
  destruct Hl as [[? _]|(trace & Ht & -> & _)]; [done|]. inversion Ht. set_solver.
Qed.

(** The lifecycle while these processes are launched *)
Definition online (ps : list Process) (s : LifeState) : Prop := faithful Open s /\ forall p, p ∈ ps -> Launched p ∈ ls_log s.

Lemma online_keeps {A} ps (m : M OpExc LifeState A) : always agreed m -> always (kept (faithful Open)) m -> always (kept (online ps)) m.
Proof.
  intros Ha Hm s [Hf Hp]. split; [by apply Hm|]. destruct (Ha s) as (evs & -> & _). intros p Hin. apply elem_of_app. auto.
Qed.
Lemma online_launch {A} ps p (k : unit -> M OpExc LifeState A) :
  (forall u, always (kept (online (p :: ps))) (k u)) -> always (kept (online ps)) (launch out p ≫= k).
Proof.
  intros Hk s Hs. pose proof (online_keeps ps _ (agreed_launch p) (launch_keeps p) s Hs) as H1. unfold mbind, M_bind.
  destruct (launch out p s) as [[u|e] s1] eqn:He; [|done]. destruct H1 as [Hf Hp]. cbn in Hf, Hp.
  destruct (Hk u s1) as [H1 H2].
  - split; [done|]. intros q [-> |Hq]%elem_of_cons; [by eapply launch_ok|auto].
  - split; [done|]. intros q Hq. apply H2. by right.
Qed.
Lemma online_recorded : always (kept (online [Worker; Server])) (record_phase "worker_online").
Proof.
  intros s [Hf Hp]. split.
  - apply faithful_recorded; try done. intros _ []; apply Hp; set_solver.
  - destruct (record_phase_run _ _ _ _ (surjective_pairing (record_phase "worker_online" s))) as [-> | ->]; done.
Qed.

Lemma clean_keeps : always (kept (faithful Open)) (assert_control_plane_clean out config).
Proof.
  unfold assert_control_plane_clean. always; try (apply faithful_quiet; auto with quiet; fail); by apply faithful_update.
Qed.

Lemma add_run rs : witnessed preflight rs -> always (kept (faithful Open)) (update (fun r => r <| or_runs := or_runs r ++ [rs] |>)).
Proof.
  intros Hw s [H1 H2 H3 H4 H5 H6 H7]. split; cbn; try done.
  - apply Forall_app_2; [done|by constructor].
  - intros c Hc. by destruct (H6 c Hc).
Qed.

(** The calls of the lifecycle, one by one *)
Ltac kept_call := first [by apply faithful_quiet; auto with quiet | apply launch_keeps | by apply faithful_update
  | by apply faithful_phase | by apply faithful_note | apply clean_keeps | by always | by intros s [] ].
Ltac kept_next := first
  [ lazymatch goal with |- always _ (execute_phase _ _ _ _ _ _ _ ≫= _) => idtac end;
    apply (kept_bind _ _ _ (witnessed preflight)); [apply execute_phase_keeps; auto | intros ???; by apply execute_phase_ok | intros ??]
  | lazymatch goal with |- always _ (update (fun r => r <| or_runs := or_runs r ++ [?rs] |>) ≫= _) => idtac end;
    apply always_bind; [apply _|by apply add_run|intros ?]
  | lazymatch goal with |- always _ (if _ then _ else _) => idtac end; apply always_if
  | lazymatch goal with |- always _ (_ ≫= _) => idtac end; apply always_bind; [apply _| |intros ?]
  | kept_call ].

Ltac agreed_call := first [apply agreed_launch | apply agreed_clean | apply agreed_phase | by apply agreed_note
  | by apply agreed_silent; auto with silent quiet | by intros s | by always].
Ltac online_next := lazymatch goal with
  | |- always _ (launch _ _ ≫= _) => fail
  | _ => apply always_bind; [apply _|apply online_keeps; [agreed_call|kept_call]|intros ?]
  end.

Lemma body_online : always (kept (online [])) (lifecycle_body out dec fuel config preflight).
Proof.
  unfold lifecycle_body, issued. do 2 online_next. apply online_launch; intros ?. repeat online_next.
  apply online_launch; intros ?. do 3 online_next. apply always_bind; [apply _|apply online_recorded|intros ?].
  apply online_keeps; [always; agreed_call|repeat kept_next].
Qed.

Lemma body_keeps : always (kept (faithful Open)) (lifecycle_body out dec fuel config preflight).
Proof. intros s Hs. apply (body_online s). split; [done|]. by intros p Hp%elem_of_nil. Qed.

(** ** The shutdown *)

Lemma stop_owned_keeps : always (kept (faithful Open)) (stop_owned out).
Proof.
  unfold stop_owned. always; try kept_call.
  match goal with |- always _ (match ?x with _ => _ end) => destruct x as [?|[]] end; by always.
Qed.

(** When everything is said to be stopped, it has been. *)
Lemma stop_each (f := fun (verified : bool) p =>
    answer ← ask (fun n => w_stop out n p);
    note (Stopped p answer);;
    match answer with
    | Ok stopped => mret (stopped && verified)
    | Err (Failure _) => mret false
    | Err e => raise e
    end) ps : forall verified s s', for_each f verified ps s = (Ok true, s') ->
  verified = true /\ ls_log s `prefix_of` ls_log s' /\ forall p, p ∈ ps -> Stopped p (Ok true) ∈ ls_log s'.
Proof.
  induction ps as [|p ps IH]; intros verified s s' H.
  - injection H as -> <-. split_and!; [done..|]. by intros p Hp%elem_of_nil.
  - cbn [for_each] in H. apply bind_ok in H as (v & s1 & H1 & H). apply IH in H as (-> & Hpre & Hall).
    subst f. cbn in H1. unfold mbind, M_bind, ask, note, modify in H1. cbn in H1.
    destruct (w_stop out (ls_turn s) p) as [stopped|[]] eqn:He; try done.
    injection H1 as Hv <-. apply andb_prop in Hv as [-> ->]. split; [done|]. cbn in Hpre.
    split; [etrans; [|done]; by eexists|].
    intros q [-> |Hq]%elem_of_cons; [|auto]. destruct Hpre as [more ->]. apply elem_of_app. left. apply elem_of_app. right. set_solver.
Qed.

Lemma quiet_processes : always (fun s s' => ls_processes s' = ls_processes s) (stop_owned out).
Proof.
  assert (Hq : forall A (m : M OpExc LifeState A), quiet m -> always (fun s s' => ls_processes s' = ls_processes s) m).
  { intros A m Hm s. apply Hm. }
  unfold stop_owned. always; try (by intros s); try (by intros s1 s2 s3 -> ->); try (apply Hq; auto with quiet).
  match goal with |- always _ (match ?x with _ => _ end) => destruct x as [?|[]] end; by intros s.
Qed.

Lemma stop_owned_ok s s' : stop_owned out s = (Ok true, s') -> ls_processes s' = ls_processes s /\
  forall p, p ∈ ls_processes s -> Stopped p (Ok true) ∈ ls_log s'.
Proof.
  intros H. pose proof (quiet_processes s) as Hp. rewrite H in Hp. split; [done|]. unfold stop_owned in H.
  apply bind_ok in H as (ps & s1 & H1 & H). injection H1 as <- <-. apply stop_each in H as (_ & _ & Hall).
  intros p Hin. apply Hall. by apply elem_of_reverse.
Qed.

(** A run from one assertion to another; an error leaves some stage. *)
Definition steps {A} (I : LifeState -> Prop) (m : M OpExc LifeState A) (J : A -> LifeState -> Prop) : Prop := forall s, I s ->
  match m s with (Ok a, s') => J a s' | (Err _, s') => exists stage, faithful stage s' end.

Lemma steps_bind {A B} I (m : M OpExc LifeState A) (k : A -> M OpExc LifeState B) J K :
  steps I m J -> (forall a, steps (J a) (k a) K) -> steps I (m ≫= k) K.
Proof. intros Hm Hk s Hs. specialize (Hm s Hs). unfold mbind, M_bind. destruct (m s) as [[a|e] s1]; [by apply Hk|done]. Qed.
Lemma steps_kept {A} stage (m : M OpExc LifeState A) : always (kept (faithful stage)) m -> steps (faithful stage) m (fun _ => faithful stage).
Proof. intros Hm s Hs. specialize (Hm s Hs). destruct (m s) as [[a|e] s1]; [done|by eexists]. Qed.
Lemma steps_next {A B} stage (m : M OpExc LifeState A) (k : A -> M OpExc LifeState B) K :
  always (kept (faithful stage)) m -> (forall a, steps (faithful stage) (k a) K) -> steps (faithful stage) (m ≫= k) K.
Proof. intros Hm Hk. eapply steps_bind; [by apply steps_kept|done]. Qed.

(** What [stop_owned] says is what was done. *)
Definition said (stopped : bool) (s : LifeState) : Prop :=
  faithful Open s /\ (stopped = true -> forall p, p ∈ ls_processes s -> Stopped p (Ok true) ∈ ls_log s).

Lemma stop_owned_said : steps (faithful Open) (stop_owned out) said.
Proof.
  intros s Hs. pose proof (stop_owned_keeps s Hs) as Hk. destruct (stop_owned out s) as [[b|e] s1] eqn:He; [|by eexists].
  split; [done|]. intros ->. apply stop_owned_ok in He as [Hp Hall]. by rewrite Hp.
Qed.

Lemma said_closing stopped : steps (said stopped) (update (fun r => r <| or_owned_processes_stopped := stopped |>)) (fun _ => faithful Closing).
Proof.
  intros s [[H1 H2 H3 H4 H5 H6 H7] Hall]. cbn. split; try done.
  - intros Hb. change (stopped = true) in Hb. auto.
  - intros c Hc. by destruct (H6 c Hc).
Qed.

(** The report that is written is the report. *)
Lemma note_written c s : faithful Done s -> as_json_bytes maximum (ls_report s) = Ok c \/ as_text maximum (ls_report s) = Ok c ->
  faithful Done (note (FileWritten c) s).2.
Proof.
  intros [H1 H2 H3 H4 H5 H6 H7] Hc.
  assert (Hin : forall x : LifeEvent, x ∈ ls_log s -> x ∈ ls_log s ++ [FileWritten c]) by (intros x Hx; apply elem_of_app; by left).
  split; cbn; try done; auto.
  - intros p [Hp|Hp%list_elem_of_singleton]%elem_of_app; [auto|done].
  - intros Hs. destruct (H5 Hs) as [Ho Hp]. split; auto.
  - intros d [Hd|Hd%list_elem_of_singleton]%elem_of_app; [auto|]. by injection Hd as ->.
Qed.

Lemma faithful_done s : faithful Closing s -> faithful Done s.
Proof. intros [H1 H2 H3 H4 H5 H6 H7]. split; try done. - intros Hs. destruct (H5 Hs). done. - intros c Hc. by destruct (H6 c Hc). Qed.

(** A call, before others that rely on the report *)
Definition of_report (report : Report) (s : LifeState) : Prop := faithful Done s /\ ls_report s = report.
Lemma of_report_quiet {A} report (m : M OpExc LifeState A) : quiet m -> always (kept (of_report report)) m.
Proof. intros Hm s [Hf Hr]. split; [by apply faithful_quiet|]. destruct (Hm s) as (-> & _). done. Qed.
Lemma of_report_note report c : as_json_bytes maximum report = Ok c \/ as_text maximum report = Ok c ->
  always (kept (of_report report)) (note (FileWritten c)).
Proof. intros Hc s [Hf <-]. split; [by apply note_written|done]. Qed.

Lemma write_report_keeps s : faithful Closing s -> of_report (ls_report s) (write_report out config s).2.
Proof.
  intros Hs. unfold write_report. unfold mbind at 1, M_bind at 1. cbn.
  assert (H0 : of_report (ls_report s) s) by (split; [by apply faithful_done|done]).
  match goal with |- of_report _ (?m s).2 => enough (Hm : always (kept (of_report (ls_report s))) m) by by apply Hm end.
  generalize (ls_report s) as report. intros report. apply always_bind; [apply _|always|intros _].
  destruct (as_json_bytes maximum report) as [json|] eqn:Hj; [|by intros s1 ?].
  apply (kept_bind _ _ _ (fun c => c = json)); [by always|by intros ??? [= <-]|intros ? ->].
  destruct (as_text maximum report) as [text|] eqn:Ht; [|by intros s1 ?].
  apply (kept_bind _ _ _ (fun c => c = text)); [by always|by intros ??? [= <-]|intros ? ->].
  apply always_handle; [apply _| |].
  - always; try (apply of_report_quiet; auto with quiet; fail); apply of_report_note; auto.
  - intros e k. destruct e; try done. intros [= <-]. always.
Qed.

Lemma written_done : steps (faithful Closing) (handle (write_report out config)
    (fun e => match e with Failure _ | OsFault | BadValue | Interrupted => Some (say out "failed";; raise e) | _ => None end))
  (fun _ => faithful Done).
Proof.
  intros s Hs. destruct (write_report_keeps s Hs) as [Hw _]. unfold handle.
  destruct (write_report out config s) as [[a|e] s1]; [done|]. cbn in Hw.
  assert (Hq : faithful Done ((say out "failed";; raise e : M OpExc LifeState unit) s1).2)
    by (by apply (faithful_quiet _ _ _ (quiet_failed e))).
  destruct e; try (by eexists); match goal with |- context [?m s1] => destruct (m s1) as [[a|e'] s2] end; try done; by eexists.
Qed.

(** The end: the report is the one that was written, if one was. *)
Lemma shutdown_keeps failure : steps (faithful Open) (shutdown out config failure) (fun _ => faithful Done).
Proof.
  unfold shutdown. apply steps_next; [kept_call|intros _]. apply steps_next; [kept_call|intros _].
  apply steps_next; [kept_call|intros credential]. apply steps_next.
  { destruct credential as [id|]; [|by always]. always. apply always_handle; [apply _| |].
    - unfold revoke_credential. always; kept_call.
    - intros e k. destruct e; try done; intros [= <-]; by always. }
  intros revoked. eapply steps_bind; [apply stop_owned_said|intros stopped]. eapply steps_bind; [apply said_closing|cbv beta; intros u; clear u].
  do 8 (apply steps_next; [repeat kept_next|intros ?]).
  eapply (steps_bind _ _ _ (fun _ => faithful Done)); [apply written_done|intros ?]. apply steps_next; [kept_call|intros _].
  apply steps_kept. by always.
Qed.

(** What the report that was written stands for *)
Definition sound (s : LifeState) : Prop := forall content, FileWritten content ∈ ls_log s ->
  (as_json_bytes maximum (ls_report s) = Ok content \/ as_text maximum (ls_report s) = Ok content) /\
  (or_outcome (ls_report s) = "succeeded" -> exists runtime, or_runtime (ls_report s) = Some runtime /\
     Some (or_phases (ls_report s)) = success_phases (rt_mode runtime) /\ Forall (witnessed preflight) (or_runs (ls_report s)) /\
     consent "fresh" ∈ ls_log s /\ (rt_mode runtime = "fresh-then-exact-reuse" -> consent "reuse" ∈ ls_log s) /\
     forall p, Launched p ∈ ls_log s /\ Stopped p (Ok true) ∈ ls_log s).

Lemma faithful_sound stage s : faithful stage s -> sound s.
Proof.
  intros [H1 H2 H3 H4 H5 H6 H7] c Hc. apply H6 in Hc as [_ Hc]. split; [done|]. intros Ho.
  assert (exists payload, as_dict (ls_report s) = Ok payload) as [payload Hd].
  { destruct Hc as [Hc|Hc]; [by eapply as_json_dict|by eapply as_text_dict]. }
  destruct (succeeded_report _ _ Hd Ho) as (runtime & Hr & Hp & Hs). exists runtime. split_and!; try done.
  - apply H1. by apply success_phases_hold in Hp as (? & ? & _).
  - intros Hm. apply H2. apply success_phases_hold in Hp as (_ & _ & _ & Hp). auto.
  - intros p. apply success_phases_hold in Hp as (_ & _ & Hp & _). destruct (H5 Hs) as [_ Hall]. auto.
Qed.
End with_preflight.

(** ** The whole lifecycle *)

(** What is done before the [try]: nothing that is logged *)
Definition prologue : M OpExc LifeState (Preflight * RuntimeSummary) :=
  say out "preflight_started";;
  handle
    (preflight ← request (w_preflight out);
     say out "preflight_passed";;
     runtime ← request (w_create_runtime out);
     mret (preflight, runtime))
    (fun e => match e with Failure _ | Interrupted => Some (say out "failed";; raise e) | _ => None end).

Lemma quiet_prologue : quiet prologue.
Proof. unfold prologue. quiet. all: destruct e; try done; injection H as <-; quiet. Qed.

Lemma prologue_ok s preflight runtime s' : prologue s = (Ok (preflight, runtime), s') -> exists n, w_preflight out n = Ok preflight.
Proof.
  unfold prologue. intros H. inv_run H. apply handle_ok in H as [H|(e & k & s1 & _ & Hk & H)].
  - inv_run H. match goal with Hq : request (w_preflight out) _ = _ |- _ => apply request_ok in Hq end. injection Hg as -> _. eauto.
  - destruct e; try done; injection Hk as <-; inv_run H; done.
Qed.

(** The rest: the [try] and the [finally] *)
Definition guarded (runtime : RuntimeSummary) (preflight : Preflight) : M OpExc LifeState (option OpExc * option string) :=
  update (fun _ => new_report <| or_runtime := Some runtime |> <| or_phases := ["preflight_passed"; "runtime_created"] |>
                     <| or_preflight_checks := PREFLIGHT_CHECKS |> <| or_preflight_passed := true |>);;
  error ← handle (lifecycle_body out dec fuel config preflight;; mret None) (fun e => Some (mret (Some e)));
  failure ← shutdown out config (error ≫= classify);
  mret (error, failure).

Lemma lifecycle_splits s r s' : run_validation_lifecycle out dec fuel config s = (r, s') ->
  (exists e, prologue s = (Err e, s') /\ r = Err e) \/
  exists preflight runtime s1 g, prologue s = (Ok (preflight, runtime), s1) /\ guarded runtime preflight s1 = (g, s') /\
    match g with
    | Err e => r = Err e
    | Ok (error, failure) => forall report, r = Ok report -> report = ls_report s' /\ failure = None
    end.
Proof.
  unfold run_validation_lifecycle, prologue, guarded. unfold mbind, M_bind. intros H.
  destruct (say out "preflight_started" s) as [[u|e] s0]; [|injection H as <- <-; eauto].
  match goal with H : context [handle ?m ?h s0] |- _ => destruct (handle m h s0) as [[[preflight runtime]|e] s1] end;
    [|injection H as <- <-; eauto].
  right. exists preflight, runtime, s1. unfold update, modify in *.
  match goal with H : context [handle ?m ?h ?s2] |- _ => destruct (handle m h s2) as [[error|e] s3] end.
  2:{ injection H as <- <-. eexists. by split_and!. }
  match goal with H : context [shutdown out config ?f s3] |- _ => destruct (shutdown out config f s3) as [[failure|e] s4] end; [|injection H as <- <-; eexists; by split_and!].
  match type of H with match ?x with _ => _ end _ = _ => destruct x as [e|] end.
  { injection H as <- <-. eexists. split_and!; done. }
  destruct failure as [reason|]; injection H as <- <-; eexists; split_and!; try done.
  by intros report [= <-].
Qed.

Lemma quiet_run {A} (m : M OpExc LifeState A) s r s' : quiet m -> m s = (r, s') -> same_core s s'.
Proof. intros Hm H. specialize (Hm s). by rewrite H in Hm. Qed.

Lemma write_report_ok s u s' : write_report out config s = (Ok u, s') ->
  ls_report s' = ls_report s /\ exists json, as_json_bytes maximum (ls_report s) = Ok json /\ FileWritten json ∈ ls_log s'.
Proof.
  unfold write_report. intros H. inv_run H. destruct (as_json_bytes maximum (ls_report s)) as [json|] eqn:Hj; [|done].
  injection Hl as <-. clear Hl0.
  apply handle_ok in H as [H|(e & k & s1 & _ & Hk & H)]; [|destruct e; try done; by injection Hk as <-].
  repeat (apply bind_ok in H as (? & ? & ? & H)). injection H2 as _ <-. injection H as _ <-. cbn.
  apply quiet_run in H0 as (R0 & _ & _ & _), H1 as (R1 & _ & _ & _), H3 as (R3 & _ & _ & L3), H4 as (R4 & _ & _ & L4);
    try apply quiet_request.
  change (ls_report x6 = ls_report x2) in R3. change (ls_log x6 = ls_log x2 ++ [FileWritten json]) in L3.
  split; [change (ls_report x8 = ls_report s); congruence|]. exists json. split; [done|].
  change (FileWritten json ∈ ls_log x8 ++ [FileWritten a1]). rewrite L4, L3. set_solver.
Qed.

(** When the shutdown ends well, the report has its outcome and has been written. *)
Lemma shutdown_ok failure s failure' s' : shutdown out config failure s = (Ok failure', s') ->
  or_outcome (ls_report s') = match failure' with Some _ => "failed" | None => "succeeded" end /\
  exists json, as_json_bytes maximum (ls_report s') = Ok json /\ FileWritten json ∈ ls_log s'.
Proof.
  unfold shutdown. intros H. do 13 (apply bind_ok in H as (? & ? & _ & H)).
  apply bind_ok in H as (? & ? & Hu & H). apply bind_ok in H as (? & ? & Hw & H). apply bind_ok in H as (? & ? & Hq & H).
  injection H as <- <-. injection Hu as _ <-. apply quiet_run in Hq as (-> & _ & _ & ->); [|apply quiet_say].
  apply handle_ok in Hw as [Hw|(e & k & s1 & _ & Hk & Hw)].
  - apply write_report_ok in Hw as (-> & json & Hj & Hin). cbn. eauto.
  - destruct e; try done; injection Hk as <-; inv_run Hw; done.
Qed.

Lemma new_faithful preflight runtime s : ls_log s = [] -> ls_processes s = [] ->
  faithful preflight Open (s <| ls_report := new_report <| or_runtime := Some runtime |> <| or_phases := ["preflight_passed"; "runtime_created"] |>
                     <| or_preflight_checks := PREFLIGHT_CHECKS |> <| or_preflight_passed := true |> |>).
Proof.
  intros Hl Hp. split; cbn; try done.
  - intros H. by apply (bool_decide_eq_true_2 _) in H.
  - intros H. by apply (bool_decide_eq_true_2 _) in H.
  - intros p H. change (Launched p ∈ ls_log s) in H. rewrite Hl in H. by apply elem_of_nil in H.
  - intros c H. change (FileWritten c ∈ ls_log s) in H. rewrite Hl in H. by apply elem_of_nil in H.
  - intros H. by apply (bool_decide_eq_true_2 _) in H.
Qed.

(** The stages of the guarded part, and the end of one that returned *)
Lemma guarded_sound preflight runtime s g s' : ls_log s = [] -> ls_processes s = [] -> guarded runtime preflight s = (g, s') ->
  sound preflight s' /\ forall error failure, g = Ok (error, failure) ->
    or_outcome (ls_report s') = match failure with Some _ => "failed" | None => "succeeded" end /\
    exists json, as_json_bytes maximum (ls_report s') = Ok json /\ FileWritten json ∈ ls_log s'.
Proof.
  intros Hl Hp Hg. pose proof (new_faithful preflight runtime s Hl Hp) as Hf. unfold guarded in Hg.
  unfold mbind at 1, M_bind at 1, update, modify in Hg. remember (s <| ls_report := _ |>) as s0 eqn:Hs0. clear Hs0.
  assert (Hs : steps preflight (faithful preflight Open) (error ← handle (lifecycle_body out dec fuel config preflight;; mret None) (fun e => Some (mret (Some e)));
    failure ← shutdown out config (error ≫= classify); mret (error, failure)) (fun _ => faithful preflight Done)).
  { apply steps_next.
    - apply always_handle; [apply _|always; apply body_keeps|]. intros e k [= <-]. by always.
    - intros error. eapply steps_bind; [apply shutdown_keeps|]. cbv beta. intros failure. apply steps_kept. by always. }
  specialize (Hs s0 Hf). rewrite Hg in Hs. split.
  - destruct g; [by eapply faithful_sound|]. destruct Hs as [stage Hs]. by eapply faithful_sound.
  - intros error failure ->. repeat (apply bind_ok in Hg as (? & ? & ? & Hg)). injection Hg as -> -> ->. by eapply shutdown_ok.
Qed.

(** C24. A success that is reported was one: whatever the outside does, a file of the report has the contents of the final report, and
    when its outcome is a success, then every phase of the mode was recorded; the operator consented to each
    approval; every run stands for a succeeded run of the configured worker, whose evidence and route the control plane
    gave and agree with the configuration, and whose record on the disk was verified when it was fresh; and both processes were launched and
    stopped.  When the lifecycle returns, it returns this report, it is a success, and it has been written. *)
Theorem success_verified observer r s' :
  run_validation_lifecycle out dec fuel config (initial_state observer) = (r, s') ->
  (forall report, r = Ok report -> report = ls_report s' /\ or_outcome report = "succeeded" /\
     exists json, as_json_bytes (oc_report_maximum_bytes config) report = Ok json /\ FileWritten json ∈ ls_log s') /\
  ((forall content, FileWritten content ∉ ls_log s') \/ exists n preflight, w_preflight out n = Ok preflight /\ sound preflight s').
Proof.
  intros H. apply lifecycle_splits in H as [(e & H & ->)|(preflight & runtime & s1 & g & H & Hg & Hr)];
    pose proof (quiet_run _ _ _ _ quiet_prologue H) as (Hrep & Hproc & _ & Hlog); cbn in Hrep, Hproc, Hlog.
  { split; [done|]. left. rewrite Hlog. set_solver. }
  apply prologue_ok in H as [n Hn]. destruct (guarded_sound _ _ _ _ _ Hlog Hproc Hg) as [Hs Hw]. split; [|right; eauto].
  intros report ->. destruct g as [[error failure]|]; [|done]. destruct (Hr report eq_refl) as [-> ->]. by destruct (Hw _ _ eq_refl).
Qed.

(** ** What was started is stopped *)

Definition no_start (e : LifeEvent) : Prop := match e with Started _ => False | _ => True end.

Lemma launch_ends_no_start p trace own : launch_ends p trace own -> Forall no_start trace.
Proof. destruct 1; by repeat constructor. Qed.

(** Where a start lies when nothing was started at the end *)
Lemma start_split l evs before p later : Forall no_start evs -> l ++ evs = before ++ Started p :: later ->
  exists mid, l = before ++ Started p :: mid /\ later = mid ++ evs.
Proof.
  intros Hn He. apply app_eq_inv in He as [(k & -> & He)|(k & -> & ->)].
  - destruct k as [|x k]; cbn in He; [subst evs; by inversion Hn|]. injection He as <- ->. by exists k.
  - by apply Forall_app in Hn as [_ [? _]%Forall_cons].
Qed.

(** The launch of every host that was started has ended in one of the ways there are, and when it returned, the
    process is owned. *)
Definition tracked (s : LifeState) : Prop := forall before p later, ls_log s = before ++ Started p :: later ->
  exists own trace rest, later = trace ++ rest /\ launch_ends p trace own /\ (own = true -> p ∈ ls_processes s).

Lemma tracked_more s s' evs : ls_log s' = ls_log s ++ evs -> Forall no_start evs -> ls_processes s' = ls_processes s -> tracked s -> tracked s'.
Proof.
  intros Hl Hn Hp Hs before p later He. rewrite Hl in He. apply start_split in He as (mid & He & ->); [|done].
  destruct (Hs _ _ _ He) as (own & trace & rest & -> & Ht & Ho). exists own, trace, (rest ++ evs). by rewrite app_assoc, Hp.
Qed.

Lemma tracked_launch p : always (kept tracked) (launch out p).
Proof.
  intros s Hs. destruct (launch_launches p s) as [_ [(_ & Hl & Hp)|(trace & Ht & Hl & Hp)]].
  { apply (tracked_more s _ []); [by rewrite Hl, app_nil_r|done..]. }
  intros before q later He. rewrite Hl in He.
  apply app_eq_inv in He as [(k & Hk & He)|(k & -> & He)].
  - destruct k as [|x k]; cbn in He.
    + injection He as -> ->. eexists _, trace, []. rewrite app_nil_r. split_and!; [done..|]. rewrite Hp. intros ->. set_solver.
    + injection He as <- ->. destruct (Hs _ _ _ Hk) as (own & trace' & rest & -> & Ht' & Ho). exists own, trace', (rest ++ Started p :: trace).
      rewrite app_assoc, Hp. split_and!; [done..|]. intros ?. apply elem_of_app. auto.
  - destruct k as [|x k]; cbn in He.
    + injection He as <- <-. eexists _, trace, []. rewrite app_nil_r. split_and!; [done..|]. rewrite Hp. intros ->. set_solver.
    + injection He as _ He. apply launch_ends_no_start in Ht. rewrite He in Ht. by apply Forall_app in Ht as [_ [? _]%Forall_cons].
Qed.

(** Before the shutdown every phase lies before it, and every start is accounted for. *)
Definition before_shutdown (phase : string) : bool := match phase_index phase with Some i => (i <? 17)%nat | None => false end.
Definition early (s : LifeState) : Prop :=
  Forall (fun phase => before_shutdown phase = true) (or_phases (ls_report s)) /\ tracked s.

Lemma early_quiet {A} (m : M OpExc LifeState A) : quiet m -> always (kept early) m.
Proof.
  intros Hm s [H1 H2]. destruct (Hm s) as (Hr & Hp & _ & Hl). split; [by rewrite Hr|].
  apply (tracked_more s _ []); [by rewrite Hl, app_nil_r|done..].
Qed.
Lemma early_update f : (forall r, or_phases (f r) = or_phases r) -> always (kept early) (update f).
Proof. intros Hf s [H1 H2]. split; [|done]. change (Forall (fun phase => before_shutdown phase = true) (or_phases (f (ls_report s)))). by rewrite Hf. Qed.
Lemma early_note e : no_start e -> always (kept early) (note e).
Proof. intros He s [H1 H2]. split; [done|]. apply (tracked_more s _ [e]); [done|by constructor|done..]. Qed.
Lemma early_phase phase : before_shutdown phase = true -> always (kept early) (record_phase phase).
Proof.
  intros Hb s [H1 H2]. destruct (record_phase_run _ _ _ _ (surjective_pairing (record_phase phase s))) as [-> | ->]; [by split|].
  split; [|done]. cbn. apply Forall_app_2; [done|by constructor].
Qed.
Lemma early_launch p : always (kept early) (launch out p).
Proof. intros s [H1 H2]. split; [|by apply tracked_launch]. destruct (launch_launches p s) as [-> _]. done. Qed.

Ltac early_call := first [by apply early_quiet; auto with quiet | apply early_launch | by apply early_note | by apply early_phase
  | apply early_update; intros r; first [done | by destruct (bool_decide _)] | by intros s [] ].

Lemma early_execute preflight phase source : phase = "fresh" \/ phase = "reuse" ->
  always (kept early) (execute_phase out dec fuel config preflight phase source).
Proof.
  intros Hphase. unfold execute_phase, open_order, ask_approval. destruct Hphase as [-> | ->]; always; try early_call.
Qed.

Lemma early_body preflight : always (kept early) (lifecycle_body out dec fuel config preflight).
Proof.
  unfold lifecycle_body, issued, assert_control_plane_clean. always; try early_call; apply early_execute; auto.
Qed.

(** The events of the shutdown are valid. *)
Lemma say_succeeds kind s : valid_event {| pe_sequence := 1; pe_key := (kind, None, None) |} = true -> exists s', say out kind s = (Ok tt, s').
Proof.
  intros Hv. unfold say, progress, mbind, M_bind, ask, gets, modify, raise. cbn [fst snd].
  match goal with |- context [emit ?a ?k ?p] => destruct (emit a k p) eqn:He; [eauto|] end. exfalso. revert He. unfold emit.
  match goal with |- context [if ?c then Some _ else _] => destruct c eqn:Hc end; [done|].
  apply orb_false_iff in Hc as [_ Hc]. apply Z.leb_gt in Hc.
  match goal with |- context [negb ?v] => replace v with true; [done|] end.
  revert Hv. unfold valid_event. cbn [pe_key pe_sequence]. rewrite !andb_true_iff. intros [[[[[_ _] H1] H2] H3] H4].
  symmetry. rewrite H1, H2, H3, H4, !andb_true_iff. split_and!; try done; apply Z.leb_le; lia.
Qed.

Lemma last_before phases : Forall (fun phase => before_shutdown phase = true) phases ->
  match List.last (map phase_index phases) None with Some i => (i <? 17)%nat = true | None => True end.
Proof.
  induction 1 as [|phase phases Hb _ IH]; [done|]. destruct phases; [|done]. cbn [map List.last]. unfold before_shutdown in Hb.
  by destruct (phase_index phase).
Qed.

Lemma shutdown_recorded s : early s -> exists s', record_phase "shutdown_started" s = (Ok tt, s').
Proof.
  intros [Hp _]. apply last_before in Hp. unfold record_phase, mbind, M_bind, gets, update, modify.
  change (phase_index "shutdown_started") with (Some 17%nat). cbn [fst snd].
  destruct (List.last _ _) as [i|]; [rewrite Hp|]; eexists; reflexivity.
Qed.

(** An answer whose error, if it is one, the shutdown expects *)
Definition expected {A} (r : Result OpExc A) : Prop := match r with Ok _ | Err (Failure _ | ClientError | OsFault | BadValue) => True | _ => False end.

(** [stop_owned] stops every process that is owned, when no stop raises something unexpected. *)
Lemma stop_all (f := fun (verified : bool) p =>
    answer ← ask (fun n => w_stop out n p);
    note (Stopped p answer);;
    match answer with
    | Ok stopped => mret (stopped && verified)
    | Err (Failure _) => mret false
    | Err e => raise e
    end) ps : (forall n p, match w_stop out n p with Ok _ | Err (Failure _) => True | _ => False end) ->
  forall verified s, exists b s' evs, for_each f verified ps s = (Ok b, s') /\ ls_log s' = ls_log s ++ evs /\ Forall no_start evs /\
    forall p, p ∈ ps -> exists answer, Stopped p answer ∈ evs.
Proof.
  intros Hstop. induction ps as [|p ps IH]; intros verified s.
  - exists verified, s, []. rewrite app_nil_r. split_and!; [done..|]. by intros p Hp%elem_of_nil.
  - specialize (Hstop (ls_turn s) p).
    assert (exists v s1, f verified p s = (Ok v, s1) /\ ls_log s1 = ls_log s ++ [Stopped p (w_stop out (ls_turn s) p)]) as (v & s1 & H1 & Hl).
    { subst f. unfold mbind, M_bind, ask, note, modify. cbn. destruct (w_stop out (ls_turn s) p) as [|[]]; try done; by do 2 eexists. }
    destruct (IH v s1) as (b & s' & evs & H & Hm & Hn & Hall). exists b, s', (Stopped p (w_stop out (ls_turn s) p) :: evs).
    cbn [for_each]. unfold mbind, M_bind. rewrite H1. split_and!; [done|by rewrite Hm, Hl, <-app_assoc|by constructor|].
    intros q [-> |Hq]%elem_of_cons; [eexists; by left|]. destruct (Hall q Hq) as [a Ha]. exists a. by right.
Qed.

Hypothesis stops : forall n p, match w_stop out n p with Ok _ | Err (Failure _) => True | _ => False end.
Hypothesis ownership_expected : forall n, expected (w_verify_ownership out n).
Hypothesis revocation_expected : forall n id, expected (w_revoke_credential out n id).

(** The shutdown of the processes [ps] after the log [base]: it starts nothing; and it stops them. *)
Section shutdown_of.
Context (base : list LifeEvent) (ps : list Process).

Definition closing (s : LifeState) : Prop := (exists evs, ls_log s = base ++ evs /\ Forall no_start evs) /\ ls_processes s = ps.
Definition all_stopped (s : LifeState) : Prop := exists evs, ls_log s = base ++ evs /\ Forall no_start evs /\
  forall p, p ∈ ps -> exists answer, Stopped p answer ∈ evs.

Lemma closing_quiet {A} (m : M OpExc LifeState A) : quiet m -> always (kept closing) m.
Proof. intros Hm s [H1 H2]. destruct (Hm s) as (_ & Hp & _ & Hl). unfold closing. by rewrite Hl, Hp. Qed.
Lemma closing_note e : no_start e -> always (kept closing) (note e).
Proof.
  intros He s [(evs & H1 & Hn) H2]. split; [|done]. exists (evs ++ [e]). cbn. rewrite H1, app_assoc. split; [done|].
  apply Forall_app_2; [done|by constructor].
Qed.
Lemma stopped_silent {A} (m : M OpExc LifeState A) : silent ls_log m -> always (kept all_stopped) m.
Proof. intros Hm s Hs. unfold all_stopped. by rewrite (Hm s). Qed.
Lemma stopped_note e : no_start e -> always (kept all_stopped) (note e).
Proof.
  intros He s (evs & H1 & Hn & Hs). exists (evs ++ [e]). cbn. rewrite H1, app_assoc. split_and!; [done|apply Forall_app_2; [done|by constructor]|].
  intros p Hp. destruct (Hs p Hp) as [a Ha]. exists a. apply elem_of_app. by left.
Qed.

Lemma stop_owned_all s : closing s -> exists b s', stop_owned out s = (Ok b, s') /\ all_stopped s'.
Proof.
  intros [(evs & Hl & Hn) Hp]. destruct (stop_all (reverse (ls_processes s)) stops true s) as (b & s' & more & H & Hm & Hnm & Hall).
  exists b, s'. split; [exact H|]. exists (evs ++ more). rewrite Hm, Hl, app_assoc. split_and!; [done|by apply Forall_app_2|].
  intros p Hin. destruct (Hall p) as [a Ha]; [by rewrite Hp; apply elem_of_reverse|]. exists a. apply elem_of_app. by right.
Qed.

Lemma revoke_expected id s e s' : revoke_credential out id s = (Err e, s') -> @expected unit (Err e).
Proof.
  unfold revoke_credential, request, mbind, M_bind, ask, lift_result. cbn. specialize (ownership_expected (ls_turn s)).
  destruct (w_verify_ownership out (ls_turn s)) as [|e1]; [|by intros [= <- _]]. cbn.
  destruct (w_running _ _ _); cbn; [|by intros [= <- _]]. intros [= He _].
  match type of He with w_revoke_credential out ?n id = _ => specialize (revocation_expected n id) end. by rewrite He in revocation_expected.
Qed.

(** A call that succeeds, and what it gives the next *)
Lemma then_ok {A B} (m : M OpExc LifeState A) (k : A -> M OpExc LifeState B) s (J P : LifeState -> Prop) :
  (exists a s1, m s = (Ok a, s1) /\ J s1) -> (forall a s1, J s1 -> P (k a s1).2) -> P ((m ≫= k) s).2.
Proof. intros (a & s1 & H & HJ) Hk. unfold mbind, M_bind. rewrite H. by apply Hk. Qed.
Lemma ok_kept {A} (m : M OpExc LifeState A) s a s1 I : always (kept I) m -> I s -> m s = (Ok a, s1) -> exists a s1, m s = (Ok a, s1) /\ I s1.
Proof. intros Hm Hs H. exists a, s1. split; [done|]. specialize (Hm s Hs). by rewrite H in Hm. Qed.

Lemma revoked_ok credential s : closing s -> exists (revoked : bool) s', match credential with
    | None => mret true
    | Some id =>
        if bool_decide (type_of id = TNone) then mret true
        else handle (revoke_credential out id;; mret true)
               (fun e => match e with Failure _ | ClientError | OsFault | BadValue => Some (mret false) | _ => None end)
    end s = (Ok revoked, s') /\ closing s'.
Proof.
  intros Hs. destruct credential as [id|]; [|by exists true, s]. destruct (bool_decide _); [by exists true, s|].
  assert (Hk : always (kept closing) (revoke_credential out id)).
  { unfold revoke_credential. always; try (by apply closing_note); apply closing_quiet; auto with quiet. }
  specialize (Hk s Hs). unfold handle, mbind, M_bind. destruct (revoke_credential out id s) as [[u|e] s1] eqn:He; [by exists true, s1|].
  pose proof (revoke_expected _ _ _ _ He) as Hx. destruct e; try done; by exists false, s1.
Qed.

Lemma shutdown_stops failure s : early s -> closing s -> all_stopped (shutdown out config failure s).2.
Proof.
  intros Hs Hc. unfold shutdown. apply (then_ok _ _ _ closing).
  { destruct (shutdown_recorded s Hs) as [s1 H1]. exists tt, s1. split; [done|].
    by destruct (record_phase_run _ _ _ _ H1) as [-> | ->]. }
  clear s Hs Hc. intros _ s Hs. apply (then_ok _ _ _ closing).
  { destruct (say_succeeds "shutdown_started" s eq_refl) as [s2 H2]. by apply (ok_kept _ _ _ _ _ (closing_quiet _ (quiet_say _)) Hs H2). }
  clear s Hs. intros _ s Hs. apply (then_ok _ _ _ closing); [by exists (ls_credential s), s|]. clear s Hs. intros credential s Hs.
  apply (then_ok _ _ _ closing); [by apply revoked_ok|]. clear s Hs. intros revoked s Hs.
  apply (then_ok _ _ _ all_stopped); [by apply stop_owned_all|]. clear s Hs. intros stopped.
  match goal with |- forall s, all_stopped s -> all_stopped (?m s).2 => change (always (kept all_stopped) m) end.
  always; try (apply stopped_silent; auto with silent quiet; fail).
  apply always_handle; [apply _| |].
  - unfold write_report. always. apply always_handle; [apply _| |].
    + always; try (by apply stopped_note); apply stopped_silent; auto with silent quiet.
    + intros e k. destruct e; try done. intros [= <-]. always.
  - intros e k. destruct e; try done; intros [= <-]; always; apply stopped_silent; auto with silent quiet.
Qed.

End shutdown_of.

(** The guarded part: at the end of the body every start is accounted for, and then what is owned is stopped. *)
Lemma guarded_stops runtime preflight s g s' : ls_log s = [] -> guarded runtime preflight s = (g, s') ->
  exists s3, tracked s3 /\ all_stopped (ls_log s3) (ls_processes s3) s'.
Proof.
  intros Hlog Hg. unfold guarded in Hg. unfold mbind at 1, M_bind at 1, update, modify in Hg.
  remember (s <| ls_report := _ |>) as s2 eqn:Hs2.
  assert (He2 : early s2).
  { subst s2. split; [by repeat constructor|]. intros before p later H. change (ls_log s = before ++ Started p :: later) in H.
    rewrite Hlog in H. by destruct before. }
  clear Hs2. unfold mbind, M_bind, handle in Hg. pose proof (early_body preflight s2 He2) as Hb.
  destruct (lifecycle_body out dec fuel config preflight s2) as [[u|e] s3]; cbn in Hb, Hg; exists s3; (split; [apply Hb|]).
  all: match type of Hg with context [shutdown out config ?f ?s3] =>
         pose proof (shutdown_stops (ls_log s3) (ls_processes s3) f s3 Hb ltac:(split; [by exists []; rewrite app_nil_r|done])) as Hd;
         destruct (shutdown out config f s3) as [[f'|e'] s4] end; by injection Hg as _ <-.
Qed.

(** What the log says after the start of a host: its launch was recorded and read and the process was owned, and then its
    stop was called; or it was not recorded and was terminated; or nothing was told to it, because it was interrupted while it was
    recorded, because the runtime was not owned any more when it was to be terminated, or because its output could
    not be read. *)
Definition accounted_for (p : Process) (later : list LifeEvent) : Prop :=
  exists own trace rest, later = trace ++ rest /\ launch_ends p trace own /\ (own = true -> exists answer, Stopped p answer ∈ rest).

(** C26. What was started is stopped: when stopping a process, the check of the runtime and the revocation end with an answer or an
    error that the shutdown expects, then however the lifecycle ends (it succeeds, fails, is denied an approval or is
    interrupted), for every host that was started the log goes on in one of these ways.  The process was recorded, its output is read
    and it is owned, and later its [stop] is called; or it could not be recorded, and the host is terminated at once;
    or the host is left to itself, which happens only when the recording was interrupted, when the runtime is no longer
    owned as the host is to be terminated, or when its reader could not be started. *)
Theorem processes_stopped observer r s' before p later :
  run_validation_lifecycle out dec fuel config (initial_state observer) = (r, s') -> ls_log s' = before ++ Started p :: later ->
  accounted_for p later.
Proof.
  intros H. apply lifecycle_splits in H as [(e & H & ->)|(preflight & runtime & s1 & g & H & Hg & _)];
    pose proof (quiet_run _ _ _ _ quiet_prologue H) as (Hrep & Hproc & _ & Hlog); cbn in Hrep, Hproc, Hlog.
  { rewrite Hlog. by destruct before. }
  assert (Hbody : exists s3, tracked s3 /\ all_stopped (ls_log s3) (ls_processes s3) s') by by eapply guarded_stops.
  destruct Hbody as (s3 & Ht & evs & -> & Hn & Hall). intros He. apply start_split in He as (mid & He & ->); [|done].
  destruct (Ht _ _ _ He) as (own & trace & rest & -> & Hends & Hown). exists own, trace, (rest ++ evs).
  rewrite app_assoc. split_and!; [done..|]. intros Ho. destruct (Hall p (Hown Ho)) as [a Ha]. exists a. apply elem_of_app. by right.
Qed.
End lifecycle_proofs.
