(* ===== verification/LifecycleFixtures.v ===== *)
(** * A concrete operator lifecycle

    An outside in which a fresh run and its exact reuse succeed, and variations of it: the hypotheses of the
    theorems about the lifecycle hold in them, and the definitions run. *)

From S2P Require Import Prelude Text Json Enums TextPolicy Checks Evidence Floats JsonCodec Documents Parsers Models Iso8601 WorkerModels WorkerPolicy Files EvidenceStore Fixtures Effects OperatorReport ReportProofs OperatorLifecycle LifecycleProofs.
From Stdlib Require Import QArith.
#[local] Open Scope Z_scope.

(** ** The validation *)

Definition op_sha : string := wos_commit_sha first_spec.
Definition op_digest : string := wos_manifest_digest first_spec.
Definition op_repository : string := wos_repository_full_name first_spec.

Definition op_config (mode : string) : OperatorConfig :=
  {| oc_repository_full_name := op_repository; oc_target_sha := op_sha; oc_manifest_name := wos_manifest_name first_spec;
     oc_manifest_version := wos_manifest_version first_spec; oc_mode := mode; oc_worker_id := "worker-a";
     oc_routing_policy := "first_available"; oc_work_order_timeout_seconds := 600; oc_startup_timeout_seconds := 30%Q;
     oc_terminal_timeout_seconds := 600%Q; oc_report_maximum_bytes := 65536 |}.
Definition both : OperatorConfig := op_config "fresh-then-exact-reuse".

Definition op_preflight : Preflight := {| pf_manifest_digest := op_digest; pf_manifest_steps := [("test", true)] |}.

Definition op_runtime (mode : string) : RuntimeSummary :=
  {| rt_schema_version := 1; rt_runtime_id := "runtime-1"; rt_repository_full_name := op_repository; rt_target_sha := op_sha;
     rt_manifest_name := wos_manifest_name first_spec; rt_manifest_version := wos_manifest_version first_spec;
     rt_manifest_digest := op_digest; rt_mode := mode; rt_command_identity := "validation-lifecycle@1";
     rt_created_at := "1970-01-01T00:10:00Z" |}.

Definition op_order (id : Z) (status : WorkOrderStatus) : OrderOut :=
  {| oo_id := id; oo_repository_full_name := op_repository; oo_commit_sha := op_sha; oo_manifest_name := wos_manifest_name first_spec;
     oo_manifest_version := wos_manifest_version first_spec; oo_manifest_digest := op_digest; oo_preferred_executor := Some "worker-a";
     oo_routing_policy := FIRST_AVAILABLE; oo_required_quota_units := 0; oo_repository_write_allowed := false;
     oo_network_policy := WORKER_RESTRICTED; oo_status := status |}.

Definition op_route : RouteOut :=
  {| ro_routing_policy := FIRST_AVAILABLE; ro_selected_worker_id := Some "worker-a"; ro_explicit_pin_applied := true;
     ro_required_quota_units := 0; ro_reserved_quota_units := 0; ro_quota_reservation_state := NOT_REQUIRED;
     ro_eligible_candidate_count := 1; ro_reason := "selected_explicit_pin" |}.

Definition op_step : StepEvidence :=
  {| step_id := "test"; step_title := "Test"; step_status := "succeeded"; step_started_at := seconds 1001; step_finished_at := seconds 1002;
     step_duration_seconds := {| fl_repr := "1.0"; fl_value := QArith_base.inject_Z 1 |}; step_exit_code := Some 0;
     step_terminal_reason := None; Evidence.step_summary := "ok"; step_summary_truncated := false; step_log_artifact_paths := [];
     step_parsed_result := None |}.

Definition op_evidence (id : Z) : ExecutionEvidence :=
  (if id =? 1 then fresh_evidence <| ev_steps := [op_step] |> else reused_evidence) <| ev_source_cleanup_status := "succeeded" |>.

Definition op_run (id : Z) : RunOut :=
  let fresh := id =? 1 in
  {| ru_id := id; ru_work_order_id := id; ru_worker_id := "worker-a"; ru_status := RUN_SUCCEEDED; ru_terminal_reason := None;
     ru_evidence_retention_expires_at := Some (Aware (seconds 9000) 0); ru_reuse_identity := Some shared_identity;
     ru_reuse_identity_hash := Some shared_hash;
     ru_source_evidence_fingerprint := if fresh then None else Some (ev_fingerprint (op_evidence 1)); ru_artifact_metadata := [];
     ru_route_provenance := Some op_route; ru_reuse_decision := if fresh then FRESH else REUSED;
     ru_reused_from_run_id := if fresh then None else Some 1 |}.

(** ** The outside *)

(** An order is answered with its number and its status, a run and a document with their number, a route with nothing. *)
Definition op_decoders : Decoders :=
  {| d_order := fun j => match j with
                         | JList [JInt id; JStr status] =>
                             op_order id <$> (if bool_decide (status = "pending_approval") then Some WO_PENDING_APPROVAL
                                              else if bool_decide (status = "approved") then Some WO_APPROVED
                                              else if bool_decide (status = "queued") then Some WO_QUEUED
                                              else if bool_decide (status = "succeeded") then Some WO_SUCCEEDED else None)
                         | _ => None
                         end;
     d_run := fun j => match j with JInt id => Some (op_run id) | _ => None end;
     d_route := fun j => match j with JNull => Some op_route | _ => None end;
     d_evidence := fun j => match j with JInt id => Some (op_evidence id) | _ => None end |}.

Definition op_worker_fields : Fields :=
  [("worker_id", JStr "worker-a"); ("status", JStr "online"); ("activity_state", JStr "active"); ("active_run_count", JInt 0);
   ("repository_full_names", JList [JStr op_repository])].

(** The outside, with the recording of a process, the operator's answers, the stops, the files and the leases given *)
Definition op_outside_with (record : Process -> Result OpExc unit) (mode : string) (approval : string -> Result OpExc bool) (stop : Process -> Result OpExc bool)
    (write : nat -> string -> Result OpExc unit) (leases : nat -> Result OpExc (option Z)) : Outside :=
  {| w_preflight := fun _ => Ok op_preflight; w_create_runtime := fun _ => Ok (op_runtime mode); w_admin_token := "token";
     w_observer := fun _ => true; w_port_bindable := fun _ => Ok tt; w_control_plane_root := fun _ => Ok tt;
     w_write_config := fun _ => Ok tt; w_start_host := fun _ _ => Ok tt; w_record_process := fun _ => record; w_terminate := fun _ _ => Ok tt;
     w_start_reader := fun _ _ => Ok tt; w_verify_ownership := fun _ => Ok tt; w_running := fun _ _ => true;
     w_stop := fun _ p => stop p; w_approval := fun _ phase _ => approval phase; w_monotonic := fun _ => 0%Q;
     w_now_text := fun _ => "1970-01-01T00:20:00Z"; w_health_ready := fun _ => Ok [("ok", JBool true)];
     w_list_workers := fun _ => Ok [("items", JList [JObj op_worker_fields])];
     w_repository_readiness := fun _ => Ok [("selected_worker_id", JStr "worker-a"); ("ready_worker_count", JInt 1); ("eligible_worker_count", JInt 1)];
     w_issue_credential := fun _ => Ok [("credential_id", JStr "credential-1"); ("worker_token", JStr "secret")];
     w_revoke_credential := fun _ _ => Ok tt;
     w_create_order := fun _ payload => match payload with
                                        | JObj fields => Ok (JList [JInt (if py_equal (member "reuse_policy" fields) (JStr "never") then 1 else 2);
                                                                    JStr "pending_approval"])
                                        | _ => Err ClientError
                                        end;
     w_approve_order := fun _ id => Ok (JList [JInt id; JStr "approved"]); w_queue_order := fun _ id => Ok (JList [JInt id; JStr "queued"]);
     w_get_order := fun _ id => Ok (JList [JInt id; JStr "succeeded"]); w_list_runs := fun _ id => Ok [JInt id];
     w_run_evidence := fun _ id => Ok (JInt id); w_order_route := fun _ _ => Ok JNull; w_source_unchanged := fun _ => Ok true;
     w_worker_source_empty := fun _ => true; w_verify_candidate := fun _ _ => Ok true; w_lease_row := leases;
     w_port_released := fun _ => true; w_write := write |}.

Definition op_outside := op_outside_with (fun _ => Ok tt).

Definition op_good : Outside :=
  op_outside "fresh-then-exact-reuse" (fun _ => Ok true) (fun _ => Ok true) (fun _ _ => Ok tt) (fun _ => Ok (Some 0)).

Definition op_result : Result OpExc Report * LifeState :=
  Eval vm_compute in run_validation_lifecycle op_good op_decoders 4 both (initial_state true).

(** ** It succeeds *)

Example lifecycle_succeeds : (or_outcome <$> match op_result.1 with Ok r => Some r | Err _ => None end) = Some "succeeded".
Proof. vm_compute. reflexivity. Qed.

Lemma op_runs : run_validation_lifecycle op_good op_decoders 4 both (initial_state true) = op_result.
Proof. vm_compute. reflexivity. Qed.

Lemma success_verified_witness : exists n preflight, w_preflight op_good n = Ok preflight /\ sound op_good op_decoders both preflight op_result.2.
Proof.
  destruct (success_verified op_good op_decoders 4 both true op_result.1 op_result.2 op_runs) as [H1 [H2|H2]].
  - destruct (H1 (ls_report op_result.2) eq_refl) as (_ & _ & json & _ & Hin). destruct (H2 _ Hin).
  - exact H2.
Defined.

Lemma approvals_consented_witness : consented both (ls_log op_result.2).
Proof. apply (approvals_consented op_good op_decoders 4 both true op_result.1 op_result.2). exact op_runs. Defined.

Lemma report_round_trip_witness : exists text payload, as_json_bytes 65536 (ls_report op_result.2) = Ok text /\ loads text = Some payload /\
  inspect_report (op_runtime "fresh-then-exact-reuse") (Some payload) = Ok (ls_report op_result.2).
Proof.
  destruct (as_json_bytes 65536 (ls_report op_result.2)) as [text|] eqn:H; [|vm_compute in H; discriminate H].
  destruct (report_round_trip 65536 (ls_report op_result.2) (op_runtime "fresh-then-exact-reuse") text eq_refl) as (_ & payload & Hp).
  - repeat constructor.
  - exact H.
  - exists text, payload. split; [reflexivity|exact Hp].
Defined.

(** ** The operator says no *)

Definition op_denied : Outside :=
  op_outside "fresh-then-exact-reuse" (fun _ => Ok false) (fun _ => Ok true) (fun _ _ => Ok tt) (fun _ => Ok (Some 0)).
Definition denied_result : Result OpExc Report * LifeState :=
  Eval vm_compute in run_validation_lifecycle op_denied op_decoders 4 both (initial_state true).

(** Nothing is approved, and both processes are stopped, the worker first. *)
Example denied_approves_nothing : denied_result.1 = Err (Failure "fresh_approval_denied") /\
  omap (fun e => match e with OrderApproved id => Some id | _ => None end) (ls_log denied_result.2) = [] /\
  omap (fun e => match e with Stopped p _ => Some p | _ => None end) (ls_log denied_result.2) = [Worker; Server].
Proof. vm_compute. auto. Qed.

(** What the log says after the start of the server, and of the worker *)
Definition started_at (n : nat) (log : list LifeEvent) : list LifeEvent := drop (S n) log.

Lemma processes_stopped_witness :
  accounted_for Server (started_at 0 (ls_log denied_result.2)) /\ accounted_for Worker (started_at 5 (ls_log denied_result.2)).
Proof.
  split.
  - apply (processes_stopped op_denied op_decoders 4 both) with (observer := true) (r := denied_result.1) (s' := denied_result.2)
      (before := take 0 (ls_log denied_result.2)); [intros n p; exact I|intros n; exact I|intros n id; exact I|vm_compute; reflexivity..].
  - apply (processes_stopped op_denied op_decoders 4 both) with (observer := true) (r := denied_result.1) (s' := denied_result.2)
      (before := take 5 (ls_log denied_result.2)); [intros n p; exact I|intros n; exact I|intros n id; exact I|vm_compute; reflexivity..].
Defined.

(** ** A launch that fails *)

(** The worker cannot be recorded: its host is terminated, the server is stopped. *)
Definition op_unrecorded (e : OpExc) : Outside :=
  op_outside_with (fun p => match p with Worker => Err e | Server => Ok tt end) "fresh-then-exact-reuse" (fun _ => Ok true)
    (fun _ => Ok true) (fun _ _ => Ok tt) (fun _ => Ok (Some 0)).
Definition told (log : list LifeEvent) : list (string * Process) :=
  omap (fun e => match e with
                 | Started p => Some ("started", p) | Terminated p _ => Some ("terminated", p) | Stopped p _ => Some ("stopped", p)
                 | _ => None
                 end) log.
Example unrecorded_worker_terminated :
  let '(r, s) := run_validation_lifecycle (op_unrecorded (Failure "private_configuration_write_failed")) op_decoders 4 both (initial_state true) in
  r = Err (Failure "private_configuration_write_failed") /\
  told (ls_log s) = [("started", Server); ("started", Worker); ("terminated", Worker); ("stopped", Server)].
Proof. vm_compute. auto. Qed.

(** An interrupt while the worker is recorded: its host goes on, and the report does not say so. *)
Example interrupted_record_leaves_worker :
  let '(r, s) := run_validation_lifecycle (op_unrecorded Interrupted) op_decoders 4 both (initial_state true) in
  r = Err (Failure "operator_interrupted") /\ or_owned_processes_stopped (ls_report s) = true /\
  told (ls_log s) = [("started", Server); ("started", Worker); ("stopped", Server)].
Proof. vm_compute. auto. Qed.

(** ** What the shutdown does not expect *)

(** A second interrupt, while the worker is being stopped, ends the shutdown: the server is never told to stop. *)
Definition op_interrupted : Outside :=
  op_outside "fresh-then-exact-reuse" (fun _ => Ok true) (fun p => match p with Worker => Err Interrupted | Server => Ok true end)
    (fun _ _ => Ok tt) (fun _ => Ok (Some 0)).
Example interrupted_stop_leaves_server :
  let '(r, s) := run_validation_lifecycle op_interrupted op_decoders 4 both (initial_state true) in
  r = Err Interrupted /\ omap (fun e => match e with Stopped p _ => Some p | _ => None end) (ls_log s) = [Worker] /\
  omap (fun e => match e with FileWritten c => Some c | _ => None end) (ls_log s) = [].
Proof. vm_compute. auto. Qed.

(** An error that the lifecycle does not expect, in the last check of the control plane, is raised, but the report that was
    written says that the lifecycle succeeded. *)
Definition op_unexpected : Outside :=
  op_outside "fresh-then-exact-reuse" (fun _ => Ok true) (fun _ => Ok true) (fun _ _ => Ok tt)
    (fun n => if (n <? 60)%nat then Ok (Some 0) else Err Unexpected).
Example unexpected_error_reports_success :
  let '(r, s) := run_validation_lifecycle op_unexpected op_decoders 4 both (initial_state true) in
  r = Err Unexpected /\ or_outcome (ls_report s) = "succeeded" /\
  length (omap (fun e => match e with FileWritten c => Some c | _ => None end) (ls_log s)) = 2%nat.
Proof. vm_compute. auto. Qed.
